(* ===== verification/_CoqProject ===== *)
-Q . S2P
Prelude.v
IpListParse.v
IpListRange.v
IpListText.v
IpListFile.v
Json.v
ResumeGuard.v
ResumeGuardFacts.v
CoreStderr.v
CoreStderrFacts.v
Supervisor.v
SupervisorFacts.v
SupervisorCounts.v
ValidationNum.v
ValidationNumFacts.v
ValidationNet.v
AddressAgree.v
ValidationRegex.v
ValidationRegexFacts.v
ValidationText.v
ValidationRules.v
Otp.v
OtpLink.v
OtpLinkFacts.v
OtpText.v
OtpTextFacts.v
StableSort.v
AutoSelector.v
AutoSelectorFacts.v
AutoSelectorPlan.v
AutoSelectorRanking.v
AutoSelectorPlanFacts.v
AutoSelectorMonitor.v
AutoSelectorMonitorFacts.v
KillSwitch.v
KillSwitchFacts.v
KillSwitchSafety.v
OtpStore.v
OtpStoreFacts.v
VpnAuth.v
VpnAuthFacts.v
ConnectionManager.v
ConnectionFacts.v
ConnectionRuns.v
AutoSelectorController.v
AutoSelectorControllerFacts.v
AutoSelectorPruneFacts.v
ProfileStore.v
ProfileStoreFacts.v
GroupSort.v
GroupSortFacts.v
Reconcile.v
Refresh.v
RefreshSink.v
RefreshSafety.v
RefreshListing.v
Updater.v
UpdaterFacts.v
TestResults.v
TestRunner.v
TestRunnerFacts.v
TestRunnerRuns.v
TestRunnerEnds.v
TestTraffic.v
IpScan.v
IpScanFacts.v
IpListStore.v
ScanWorker.v
ScanRun.v
ScanRunFacts.v
ScanChunkFacts.v
ScanRounds.v
ScanHistory.v
ScanPass.v
ScanOff.v
ScanClaims.v
IpLists.v
IpListsFacts.v
IpListsRuns.v
IpListsPublish.v
