(* ===== verification/Prelude.v ===== *)
(** * Throned: the engine's core logic

    Throned is a desktop and headless proxy client: profiles (servers) live in
    groups fed by subscriptions, one profile runs at a time in a core process
    that the application supervises, and settings, lists and secrets come in as
    text.  This development models the logic of src/src and src/include that
    decides what the program does, and leaves aside the widgets, the JSON of the
    core's configuration and the operating system.

    ** How the parts fit

    A start request goes to the connection manager, which asks the kill switch
    whether profiles may start, the supervisor for a core, and the auto selector
    controller whether a selector has to be ranked first; then a worker starts
    the build in the core.  The running selector is watched by the monitor,
    whose finding that every member is dead comes back to the controller as a
    new ranking and start.  The
    sweeps that rank use the test runner, whose sessions test profiles in batches.
    VPN endpoints of the running profile sign in through
    the sign-in controller, which answers from the stored one-time passwords.  The
    group updater queues subscription refreshes, each of which reconciles the
    stored rows of a group with the document it fetched, through the profile
    store, which keeps every row listed once; a group with a kept sort is put in
    order again.  A subscription that was refreshed reaches the controller, which
    prunes the selectors it tracks.  The crash-loop guard decides at boot whether the last
    profile resumes.  Text that users type or files hold passes the validators,
    the IP list parser and the one-time password importer.  A scan worker
    probes the entries of an IP list through the core, chunk by chunk, and keeps
    the answers in the list store, whose writes many threads make at once.

    ** Files and sources

    - Prelude: notation for early returns, machine integers, strings as UTF-16
      units, Qt's character classes, lists and sums, the tactics [zbool],
      [break_if] and [break_match], the hint database [text].
    - IpListParse, IpListRange, IpListText, IpListFile: src/src/scanner/IpListParse.cpp.
    - Json: QJsonObject and QJsonDocument as the code uses them.
    - ResumeGuard, ResumeGuardFacts: src/src/engine/headless/ResumeGuard.cpp.
    - CoreStderr, CoreStderrFacts: the exit causes of
      src/src/engine/supervisor/CoreSupervisor.cpp; Supervisor, SupervisorFacts,
      SupervisorCounts: the rest of it with CoreProcess of src/src/sys/Process.cpp.
    - ValidationNum, ValidationNet, ValidationRegex, ValidationText,
      ValidationRules and their facts: src/src/global/Validation.cpp;
      AddressAgree compares its addresses with the scanner's.
    - Otp, OtpLink, OtpText and their facts: src/src/global/OTP.cpp.
    - OtpStore, OtpStoreFacts: src/src/database/OtpProfilesRepo.cpp and
      src/src/global/OtpPlaceholder.cpp.
    - VpnAuth, VpnAuthFacts: src/src/engine/vpn.
    - AutoSelector, AutoSelectorPlan, AutoSelectorRanking and their facts:
      src/include/configs/outbounds/autoselector.h and src/src/configs/AutoSelectorPlan.cpp.
    - AutoSelectorMonitor, AutoSelectorMonitorFacts: src/src/stats/autoselector.
    - AutoSelectorController, its facts and AutoSelectorPruneFacts:
      src/src/engine/autoselector/AutoSelectorController.cpp.
    - TestResults, TestRunner, TestRunnerFacts, TestRunnerRuns, TestRunnerEnds,
      TestTraffic: src/src/engine/tests/TestRunner.cpp.
    - IpScan, IpScanFacts: src/src/database/entities/IpScan.cpp; IpListStore: the
      calls of src/src/database/IpListsRepo.cpp as the scanner relies on them;
      IpLists, IpListsFacts, IpListsRuns, IpListsPublish: the same calls as
      transactions on generations of rows, why readers see nothing but the store,
      and what additions and copies publish.
    - ScanWorker (data, helpers, poll thread), ScanRun (run thread):
      src/src/scanner/ScanWorker.cpp; ScanRunFacts, ScanChunkFacts, ScanRounds,
      ScanHistory, ScanPass, ScanOff, ScanClaims: from one step of a run
      to what its whole record shows.
    - KillSwitch, KillSwitchFacts, KillSwitchSafety: src/src/sys/KillSwitch.cpp.
    - ConnectionManager, ConnectionFacts, ConnectionRuns:
      src/src/engine/connection/ConnectionManager.cpp and ConnectionModes.cpp.
    - StableSort: std::stable_sort over a weak order, with insertion by upper bound.
    - ProfileStore, ProfileStoreFacts: src/src/database/ProfilesRepo.cpp and the
      listings of src/src/database/GroupsRepo.cpp.
    - GroupSort, GroupSortFacts: the kept sort of GroupsRepo.cpp and Group.cpp.
    - Reconcile, Refresh, RefreshSink and the facts, RefreshSafety and
      RefreshListing: the refresh of src/src/configs/sub/GroupUpdater.cpp;
      Updater, UpdaterFacts: its queue and the automatic schedule.

    ** How code becomes definitions

    A class is a record of its members with one setter each; a method is a
    function on it, named as in the source.  What a method does to others
    (signals, calls, files, log lines that matter) is appended to a trace in the
    record.  A handler of an event loop runs to its end before the next; threads
    are cut where they take or release a lock, post or wait, and each stretch is
    one step.  The step functions ([ksStep], [cmStep], [acTurn] and the like)
    take any event at any time, so a theorem about reachable states covers every
    interleaving.  Answers from outside (the core, clocks, files, Qt's events)
    are arguments of the step.  A scan's run thread, one long procedure, is
    instead a program in a state monad, with a turn of the other threads before
    each of its reads and writes of shared state; what it promises is proved with
    rules for postconditions over the state and the record it appends to.  Integers are [Z] kept at their width where the
    code relies on it ([wrap32], [wrap64], explicit clamps); strings are lists of
    UTF-16 units, byte arrays lists of bytes.

    Code outside src is a parameter: Qt's character tables, case mapping, UTF-8,
    JSON text, URLs, Base64 and regular expressions, HMAC, and SQLite's success
    or failure.  Each is a class with the operations the code uses; what the code
    relies on is a class of laws beside it, with an instance that shows they can
    hold and on which the examples are evaluated.

    ** What is proved

    - Text: the IP list parser accepts only canonical entries and covers a range
      exactly and in order; addresses, entries, secrets and links survive the trip through
      text; two address parsers agree; what an import lets in is usable.
    - Safety of runs: starts are behind a ready guard, guards hand over without a
      gap, one run at a time, nothing after shutdown, budgets of the sign-in.
    - Books: every start request is answered exactly once, every start that waits
      for a ranking is resumed exactly once, one-time codes are spent all or none,
      every exit of the core is handled once.
    - Progress: waiting callers are answered, an unexpected exit is followed by a
      restart or by giving up, a sweep that sleeps will be woken.
    - Tests: every caller is told once that its tests are over, sessions end, and a
      result that comes back late never reaches a profile of another batch.
    - Scans: a rescan removes only on evidence, the saved position is never ahead
      of the work, every run ends and leaves the scan paused exactly when it can be
      resumed, few writing calls start after the end of saving, settings are read
      back unchanged and within bounds.
    - Refinement: the planned pool is a beginning of one ranking; a changed
      subscription prunes exactly the selectors that track it.
    - IP lists: the transactions of concurrent calls, some of them failing, are
      to readers one store call after the other; a replacement happens as a whole
      or not at all, an addition publishes its entries and a copy the source's, a
      paged read sees one version, and claims never deadlock.
    - Subscriptions: after a refresh the group lists what the document holds, in
      its order; no row is orphaned or listed twice; a refresh that fails changes
      nothing; one refresh asked for per group, every caller answered, the queue
      drains.
    - Order: moving the changed rows of a sorted group gives what a whole stable
      sort gives.

    ** Fuel

    Where a loop is not structural it has fuel and a theorem that the given
    amount is enough: [coverLoop] 260 rounds for 128-bit ranges, the line and
    digit loops the length of their text, the scanners of regular expressions
    the length of the pattern, the supervisor's backoff its cap, the chunks of a
    scan one round per target left and two more, a paged read more rounds than
    the list has rows.  The runs of
    threads have no fuel: they are sequences of steps, and progress is stated as
    a measure that every step lowers.

    ** Not modelled

    The construction of the core's configuration (src/src/configs/generate.cpp
    and the outbounds' field lists), the parsers of foreign subscription formats,
    SQL statements, sockets and HTTP, the widgets, and the core itself (Go).
    Their results are arguments of what is modelled.  Texts for display and
    translation are left out unless a caller reads them; a check's message is
    kept as the text and its arguments.  Scheduling within Qt is taken as
    documented: queued calls of one receiver run in order.  C++ exceptions are
    not modelled (the scan worker's catch blocks), nor is a backup that is
    restored while IP lists are written.

    ** Plan

    Next: ScanManager, the routing rules
    (src/src/database/entities/RouteRule.cpp and RouteProfile.cpp), the settings
    registry and backup archive. *)

From stdpp Require Import base list gmap strings.
From Stdlib Require Import ZArith Lia Bool.

#[global] Open Scope Z_scope.

(* Comparisons and operations compute under simpl on numerals only. *)
#[global] Arguments Z.eqb !_ !_.
#[global] Arguments Z.ltb !_ !_.
#[global] Arguments Z.leb !_ !_.
#[global] Arguments Z.add !_ !_.
#[global] Arguments Z.sub !_ !_.
#[global] Arguments Z.mul !_ !_.

(** ** Early returns

    A C++ check that returns [false] (or an empty optional) early is written
    [let?] when it reads an out-parameter and [assert?] when it is a guard. *)
Declare Scope early_scope.
Delimit Scope early_scope with early.

Notation "'let?' p := e 'in' k" :=
  (match e with Some p => k | None => None end)
  (at level 10, p pattern, e at level 100, k at level 200) : early_scope.
Notation "'assert?' b 'in' k" :=
  (if b then k else None)
  (at level 10, b at level 100, k at level 200) : early_scope.

#[global] Open Scope early_scope.

(** ** Machine integers *)

Definition wrap16 (z : Z) : Z := z mod 2 ^ 16.
Definition wrap32 (z : Z) : Z := z mod 2 ^ 32.
Definition wrap64 (z : Z) : Z := z mod 2 ^ 64.

Definition max_u64 : Z := 2 ^ 64 - 1.
Definition min_i64 : Z := - 2 ^ 63.
Definition max_i64 : Z := 2 ^ 63 - 1.

(** ** Strings: a QString or a QStringView is its list of UTF-16 code units *)

Abbreviation qstr := (list Z).

Fixpoint u (s : string) : qstr :=
  match s with
  | EmptyString => []
  | String a s' => Z.of_nat (Ascii.nat_of_ascii a) :: u s'
  end.

Arguments u _%_string_scope.

(** ASCII units the parsers look for. *)
Abbreviation cTab := 9.
Abbreviation cLF := 10.
Abbreviation cCR := 13.
Abbreviation cSpace := 32.
Abbreviation cQuote := 34.
Abbreviation cHash := 35.
Abbreviation cPercent := 37.
Abbreviation cApos := 39.
Abbreviation cComma := 44.
Abbreviation cDash := 45.
Abbreviation cDot := 46.
Abbreviation cSlash := 47.
Abbreviation c0 := 48.
Abbreviation c9 := 57.
Abbreviation cColon := 58.
Abbreviation cSemicolon := 59.
Abbreviation cLBracket := 91.
Abbreviation cRBracket := 93.
Abbreviation cBar := 124.

(** Qt's character tables are code outside the repository: whether a unit is
    white space (QChar::isSpace), a control, line or paragraph separator, and
    its case folding. *)
Class QtChar := {
  isSpace : Z -> bool;
  foldCase : Z -> Z
}.

(** What Qt documents for the ASCII range, which is all the code relies on. *)
Class QtCharLaws (Q : QtChar) : Prop := {
  isSpace_ascii : forall c, 0 <= c <= 127 ->
    isSpace c = ((c =? 32) || ((9 <=? c) && (c <=? 13)))%bool;
  foldCase_ascii : forall c, 0 <= c <= 127 ->
    foldCase c = if ((65 <=? c) && (c <=? 90))%bool then c + 32 else c
}.

(** The ASCII part of the tables, used to evaluate the model. *)
#[export] Instance asciiQt : QtChar := {|
  isSpace := fun c => ((c =? 32) || ((9 <=? c) && (c <=? 13)))%bool;
  foldCase := fun c => if ((65 <=? c) && (c <=? 90))%bool then c + 32 else c
|}.

#[export] Instance asciiQt_laws : QtCharLaws asciiQt.
Proof. split; intros c Hc; reflexivity. Qed.

Definition isSome {A} (o : option A) : bool := match o with Some _ => true | None => false end.

Definition isNil {A} (l : list A) : bool :=
  match l with [] => true | _ :: _ => false end.

Definition zlen {A} (l : list A) : Z := Z.of_nat (length l).

Fixpoint eqStr (s t : qstr) : bool :=
  match s, t with
  | [], [] => true
  | a :: s', b :: t' => (a =? b) && eqStr s' t'
  | _, _ => false
  end%bool.

Fixpoint startsWith (p s : qstr) : bool :=
  match p, s with
  | [], _ => true
  | a :: p', b :: s' => (a =? b) && startsWith p' s'
  | _ :: _, [] => false
  end%bool.

Definition endsWith (p s : qstr) : bool := startsWith (rev p) (rev s).

Definition startsWithChar (c : Z) (s : qstr) : bool :=
  match s with [] => false | x :: _ => x =? c end.

Fixpoint lastChar (s : qstr) : option Z :=
  match s with
  | [] => None
  | [c] => Some c
  | _ :: s' => lastChar s'
  end.

Definition endsWithChar (c : Z) (s : qstr) : bool :=
  match lastChar s with Some x => x =? c | None => false end.

(** indexOf: [None] stands for -1. *)
Fixpoint indexOf (c : Z) (s : qstr) : option nat :=
  match s with
  | [] => None
  | x :: s' => if x =? c then Some 0%nat else S <$> indexOf c s'
  end.

Definition contains (c : Z) (s : qstr) : bool := existsb (Z.eqb c) s.

Fixpoint indexOfStr (p s : qstr) : option nat :=
  if startsWith p s then Some 0%nat
  else match s with
       | [] => None
       | _ :: s' => S <$> indexOfStr p s'
       end.

Definition containsStr (p s : qstr) : bool :=
  match indexOfStr p s with Some _ => true | None => false end.

Fixpoint countChar (c : Z) (s : qstr) : Z :=
  match s with
  | [] => 0
  | x :: s' => (if x =? c then 1 else 0) + countChar c s'
  end.

(** split(sep) keeping empty parts: the pieces between the separators. *)
Fixpoint splitOn (sep : Z) (s : qstr) : list qstr :=
  match s with
  | [] => [[]]
  | c :: s' =>
      if c =? sep then [] :: splitOn sep s'
      else match splitOn sep s' with
           | p :: ps => (c :: p) :: ps
           | [] => [[c]]
           end
  end.

(** The parts between the characters of a kind. *)
Fixpoint splitBy (boundary : Z -> bool) (s : qstr) : list qstr :=
  match s with
  | [] => [[]]
  | c :: s' =>
      if boundary c then [] :: splitBy boundary s'
      else match splitBy boundary s' with
           | p :: ps => (c :: p) :: ps
           | [] => [[c]]
           end
  end.

Fixpoint joinWith (sep : Z) (l : list qstr) : qstr :=
  match l with
  | [] => []
  | [p] => p
  | p :: ps => p ++ sep :: joinWith sep ps
  end.

Fixpoint dropWhile (f : Z -> bool) (s : qstr) : qstr :=
  match s with
  | [] => []
  | c :: s' => if f c then dropWhile f s' else s
  end.

Definition dropWhileEnd (f : Z -> bool) (s : qstr) : qstr :=
  rev (dropWhile f (rev s)).

Section QtText.
  Context {Q : QtChar}.

Definition trimmed (s : qstr) : qstr := dropWhileEnd isSpace (dropWhile isSpace s).

(** QString::simplified: the words, one space between two. *)
Fixpoint splitSpaces (s : qstr) : list qstr :=
  match s with
  | [] => [[]]
  | c :: s' =>
      if isSpace c then [] :: splitSpaces s'
      else match splitSpaces s' with
           | p :: ps => (c :: p) :: ps
           | [] => [[c]]
           end
  end.

Definition words (s : qstr) : list qstr := List.filter (fun w => negb (isNil w)) (splitSpaces s).

Definition simplified (s : qstr) : qstr := joinWith cSpace (words s).

Definition eqFold (s t : qstr) : bool := eqStr (map foldCase s) (map foldCase t).
Definition startsWithCI (p s : qstr) : bool := startsWith (map foldCase p) (map foldCase s).
Definition containsCI (p s : qstr) : bool := containsStr (map foldCase p) (map foldCase s).
End QtText.

(** QChar::Other_Control: U+0000-U+001F and U+007F-U+009F. *)
Definition isControl (c : Z) : bool := (c <=? 31) || ((127 <=? c) && (c <=? 159)).

(** UTF-8 and lower case: Qt's conversions are outside the repository. *)
Class Utf8 := { fromUtf8 : list Z -> qstr; toUtf8 : qstr -> list Z }.
Class QtLower := { toLower : qstr -> qstr }.

Definition isAscii (c : Z) : Prop := 0 <= c <= 127.
Definition lowerAscii (c : Z) : Z := if (65 <=? c) && (c <=? 90) then c + 32 else c.

(** ASCII text is its own UTF-8; its letters are lowered one by one. *)
Class Utf8Laws (U : Utf8) : Prop := {
  fromUtf8_ascii : forall s, Forall isAscii s -> fromUtf8 s = s;
  toUtf8_ascii : forall s, Forall isAscii s -> toUtf8 s = s
}.
Class QtLowerLaws (L : QtLower) : Prop := {
  toLower_ascii : forall s, Forall isAscii s -> toLower s = map lowerAscii s
}.

(** The ASCII part of both, used to evaluate the model. *)
#[export] Instance asciiUtf8 : Utf8 := {| fromUtf8 := fun b => b; toUtf8 := fun s => s |}.
#[export] Instance asciiLower : QtLower := {| toLower := map lowerAscii |}.

#[export] Instance asciiUtf8_laws : Utf8Laws asciiUtf8.
Proof. split; reflexivity. Qed.

#[export] Instance asciiLower_laws : QtLowerLaws asciiLower.
Proof. split. reflexivity. Qed.

(** Upper case, likewise. *)
Class QtUpper := { toUpper : qstr -> qstr }.
Definition upperAscii (c : Z) : Z := if (97 <=? c) && (c <=? 122) then c - 32 else c.
Class QtUpperLaws (L : QtUpper) : Prop := {
  toUpper_ascii : forall s, Forall isAscii s -> toUpper s = map upperAscii s
}.
#[export] Instance asciiUpper : QtUpper := {| toUpper := map upperAscii |}.
#[export] Instance asciiUpper_laws : QtUpperLaws asciiUpper.
Proof. split. reflexivity. Qed.

(** A sentence shown to the user: text as it is, or a template of the program
    to be translated, with its arguments. A check returns [None] to accept. *)
Inductive Message :=
| MText (s : qstr)
| MTr (template : qstr) (args : list Message).

(** A template with double quotes, each written as a back quote. *)
Definition uq (s : string) : qstr := map (fun c => if c =? 96 then cQuote else c) (u s).

Definition verdict : Type := option Message.
Definition tr0 (s : string) : Message := MTr (u s) [].

(** QString::number(n) and QString::number(n, 16). *)
Definition digitChar (d : Z) : Z := if d <? 10 then 48 + d else 87 + d.

Fixpoint digitsLoop (fuel : nat) (base n : Z) (acc : qstr) : qstr :=
  match fuel with
  | O => acc
  | S fuel' =>
      let acc' := digitChar (n mod base) :: acc in
      if n <? base then acc' else digitsLoop fuel' base (n / base) acc'
  end.

Definition digits (base n : Z) : qstr := digitsLoop (S (Z.to_nat (Z.log2 n))) base n [].

Definition number (n : Z) : qstr :=
  if n <? 0 then 45 :: digits 10 (- n) else digits 10 n.

Definition numberHex (n : Z) : qstr := digits 16 n.

(** ** Automation *)

Create HintDb text discriminated.

(** Turns boolean comparisons in the context and the goal into propositions. *)
Ltac zbool :=
  repeat match goal with
  | H : _ && _ = true |- _ => apply andb_prop in H; destruct H
  | H : _ || _ = false |- _ => apply orb_false_elim in H; destruct H
  | H : negb _ = true |- _ => apply negb_true_iff in H
  | H : negb _ = false |- _ => apply negb_false_iff in H
  | H : (_ <? _) = true |- _ => apply Z.ltb_lt in H
  | H : (_ <? _) = false |- _ => apply Z.ltb_ge in H
  | H : (_ <=? _) = true |- _ => apply Z.leb_le in H
  | H : (_ <=? _) = false |- _ => apply Z.leb_gt in H
  | H : (_ >? _) = true |- _ => rewrite Z.gtb_ltb in H; apply Z.ltb_lt in H
  | H : (_ >? _) = false |- _ => rewrite Z.gtb_ltb in H; apply Z.ltb_ge in H
  | H : (_ >=? _) = true |- _ => rewrite Z.geb_leb in H; apply Z.leb_le in H
  | H : (_ >=? _) = false |- _ => rewrite Z.geb_leb in H; apply Z.leb_gt in H
  | H : (_ =? _) = true |- _ => apply Z.eqb_eq in H
  | H : (_ =? _) = false |- _ => apply Z.eqb_neq in H
  end.

(** Case split on the boolean a goal or hypothesis branches on. *)
Ltac break_if :=
  match goal with
  | |- context [if ?b then _ else _] => destruct b eqn:?
  | H : context [if ?b then _ else _] |- _ => destruct b eqn:?
  end.

Ltac break_match :=
  match goal with
  | |- context [match ?e with _ => _ end] => destruct e eqn:?
  | H : context [match ?e with _ => _ end] |- _ => destruct e eqn:?
  end.

(** ** Lists and characters *)

Lemma zlen_nonneg {A} (l : list A) : 0 <= zlen l.
Proof. unfold zlen. lia. Qed.

Lemma zlen_cons {A} (x : A) l : zlen (x :: l) = 1 + zlen l.
Proof. unfold zlen. simpl length. lia. Qed.

Lemma zlen_app {A} (l k : list A) : zlen (l ++ k) = zlen l + zlen k.
Proof. unfold zlen. rewrite length_app. lia. Qed.

Lemma eqStr_spec s t : eqStr s t = true <-> s = t.
Proof.
  revert t. induction s as [|a s IH]; intros [|b t]; simpl; split; try done.
  - intros H. zbool. apply IH in H0. by subst.
  - intros [= -> ->]. rewrite Z.eqb_refl. by apply IH.
Qed.

Lemma eqStr_refl s : eqStr s s = true.
Proof. by apply eqStr_spec. Qed.

Lemma contains_app c s t : contains c (s ++ t) = contains c s || contains c t.
Proof. unfold contains. apply existsb_app. Qed.

Lemma contains_cons c x s : contains c (x :: s) = (c =? x) || contains c s.
Proof. reflexivity. Qed.

Lemma contains_false c s : contains c s = false <-> Forall (fun x => x <> c) s.
Proof.
  induction s as [|x s IH]; simpl.
  - split; [constructor | done].
  - rewrite Forall_cons, orb_false_iff, IH, Z.eqb_neq. intuition congruence.
Qed.

Lemma contains_true c s : contains c s = true <-> c ∈ s.
Proof.
  unfold contains. rewrite existsb_exists. split.
  - intros (x & Hx & E). zbool. subst. by apply list_elem_of_In.
  - intros H. exists c. rewrite Z.eqb_refl. split; [by apply list_elem_of_In | done].
Qed.

Lemma indexOf_None c s : indexOf c s = None <-> contains c s = false.
Proof.
  induction s as [|x s IH]; simpl; [done|].
  rewrite (Z.eqb_sym c x). destruct (x =? c); simpl; [done|].
  rewrite fmap_None. exact IH.
Qed.

(** The first occurrence splits the text into a part without the character,
    the character and the rest. *)
Lemma indexOf_Some c s i : indexOf c s = Some i ->
  s = take i s ++ c :: drop (S i) s /\ contains c (take i s) = false.
Proof.
  revert i. induction s as [|x s IH]; simpl; intros i H; [done|].
  destruct (x =? c) eqn:E.
  - injection H as <-. zbool. by subst.
  - apply fmap_Some in H as (j & Hj & ->). destruct (IH _ Hj) as [H1 H2].
    simpl. split; [by f_equal|]. rewrite Z.eqb_sym, E. exact H2.
Qed.

Lemma indexOf_app_cons c s t : contains c s = false -> indexOf c (s ++ c :: t) = Some (length s).
Proof.
  induction s as [|x s IH]; simpl; intros H.
  - by rewrite Z.eqb_refl.
  - apply orb_false_iff in H as [H1 H2]. rewrite Z.eqb_sym, H1, (IH H2). reflexivity.
Qed.

Lemma startsWith_app p s : startsWith p (p ++ s) = true.
Proof. induction p as [|a p IH]; simpl; [done|]. by rewrite Z.eqb_refl. Qed.

Lemma countChar_zero c s : contains c s = false -> countChar c s = 0.
Proof.
  induction s as [|x s IH]; simpl; intros H; [done|].
  apply orb_false_iff in H as [H1 H2]. rewrite Z.eqb_sym, H1, (IH H2). reflexivity.
Qed.

Lemma countChar_app c s t : countChar c (s ++ t) = countChar c s + countChar c t.
Proof. induction s as [|x s IH]; simpl; [done|]. rewrite IH. lia. Qed.

Lemma countChar_nonneg c s : 0 <= countChar c s.
Proof. induction s as [|x s IH]; simpl; [done|]. destruct (x =? c); lia. Qed.

Lemma isNil_false {A} (l : list A) : l <> [] -> isNil l = false.
Proof. by destruct l. Qed.

Lemma indexOfStr_cons p c s : indexOfStr p (c :: s) =
  if startsWith p (c :: s) then Some 0%nat else S <$> indexOfStr p s.
Proof. reflexivity. Qed.

(** ** Splitting and joining *)

Lemma splitOn_nonempty sep s : splitOn sep s <> [].
Proof.
  induction s as [|c s IH]; simpl; [done|].
  destruct (c =? sep); [done|]. by destruct (splitOn sep s).
Qed.

Lemma splitOn_no_sep sep s : contains sep s = false -> splitOn sep s = [s].
Proof.
  induction s as [|c s IH]; simpl; intros H; [done|].
  apply orb_false_iff in H as [H1 H2]. rewrite Z.eqb_sym, H1, (IH H2). reflexivity.
Qed.

Lemma splitOn_app sep p s :
  contains sep p = false -> splitOn sep (p ++ sep :: s) = p :: splitOn sep s.
Proof.
  induction p as [|c p IH]; simpl; intros H.
  - by rewrite Z.eqb_refl.
  - apply orb_false_iff in H as [H1 H2]. rewrite Z.eqb_sym, H1, (IH H2). reflexivity.
Qed.

Lemma splitOn_join sep l :
  l <> [] -> Forall (fun p => contains sep p = false) l -> splitOn sep (joinWith sep l) = l.
Proof.
  induction l as [|p l IH]; intros Hne Hl; [done|].
  apply Forall_cons in Hl as [Hp Hl]. destruct l as [|q l].
  - by apply splitOn_no_sep.
  - change (joinWith sep (p :: q :: l)) with (p ++ sep :: joinWith sep (q :: l)).
    rewrite splitOn_app by done. by rewrite IH.
Qed.

Lemma joinWith_forall (P : Z -> Prop) sep l : P sep -> Forall (Forall P) l -> Forall P (joinWith sep l).
Proof.
  intros Hs. induction 1 as [|p l Hp Hl IH]; [by apply List.Forall_nil|].
  destruct l as [|q l]; [done|]. change (joinWith sep (p :: q :: l)) with (p ++ sep :: joinWith sep (q :: l)).
  apply Forall_app. split; [done|]. by apply List.Forall_cons.
Qed.

Lemma join_splitOn sep s : joinWith sep (splitOn sep s) = s.
Proof.
  induction s as [|c s IH]; [done|]. simpl.
  pose proof (splitOn_nonempty sep s) as Hne.
  destruct (c =? sep) eqn:E.
  - zbool. subst c. destruct (splitOn sep s) as [|q l]; [done|]. simpl in *. by rewrite IH.
  - destruct (splitOn sep s) as [|q l]; [done|].
    rewrite <- IH at 1. by destruct l.
Qed.

Lemma splitOn_parts sep s : Forall (fun p => contains sep p = false) (splitOn sep s).
Proof.
  induction s as [|c s IH]; simpl.
  - by constructor.
  - destruct (c =? sep) eqn:E; [by constructor|].
    destruct (splitOn sep s) as [|q l]; constructor.
    + simpl. by rewrite Z.eqb_sym, E.
    + constructor.
    + apply Forall_cons in IH as [Hq _]. simpl. by rewrite Z.eqb_sym, E.
    + by apply Forall_cons in IH as [_ ?].
Qed.

(** ** Trimming *)

Lemma dropWhile_id f s :
  match s with [] => True | c :: _ => f c = false end -> dropWhile f s = s.
Proof. destruct s as [|c s]; simpl; [done|]. by intros ->. Qed.

Lemma dropWhile_none f s : Forall (fun c => f c = false) s -> dropWhile f s = s.
Proof. intros H. apply dropWhile_id. by destruct H. Qed.

Lemma dropWhileEnd_none f s : Forall (fun c => f c = false) s -> dropWhileEnd f s = s.
Proof.
  intros H. unfold dropWhileEnd. rewrite dropWhile_none, rev_involutive; [done|].
  by apply Forall_rev.
Qed.

Lemma trimmed_no_space {Q : QtChar} s : Forall (fun c => isSpace c = false) s -> trimmed s = s.
Proof.
  intros H. unfold trimmed. rewrite (dropWhile_none _ _ H). by apply dropWhileEnd_none.
Qed.

Lemma dropWhile_app_id f p s : p <> [] -> Forall (fun c => f c = false) p ->
  dropWhile f (p ++ s) = p ++ s.
Proof. intros Hne H. apply dropWhile_id. destruct H; done. Qed.

(** Text that starts and ends with a part without spaces. *)
Lemma trimmed_ends {Q : QtChar} p m q : p <> [] -> q <> [] ->
  Forall (fun c => isSpace c = false) p -> Forall (fun c => isSpace c = false) q ->
  trimmed (p ++ m ++ q) = p ++ m ++ q.
Proof.
  intros Hp Hq Fp Fq. unfold trimmed. rewrite dropWhile_app_id by done. unfold dropWhileEnd.
  rewrite app_assoc, rev_app_distr, dropWhile_app_id.
  - by rewrite <- rev_app_distr, rev_involutive.
  - intros E. apply (f_equal (@rev Z)) in E. by rewrite rev_involutive in E.
  - by apply Forall_rev.
Qed.

(** ** Numbers as text *)

Lemma digitsLoop_acc fuel base n acc :
  digitsLoop fuel base n acc = digitsLoop fuel base n [] ++ acc.
Proof.
  revert n acc. induction fuel as [|fuel IH]; intros n acc; simpl; [done|].
  destruct (n <? base); [done|]. rewrite IH. rewrite (IH _ [_]). by rewrite <- app_assoc.
Qed.

Lemma digitsLoop_fuel base n f1 f2 : 2 <= base -> 0 <= n ->
  (Z.to_nat (Z.log2 n) < f1)%nat -> (Z.to_nat (Z.log2 n) < f2)%nat ->
  digitsLoop f1 base n [] = digitsLoop f2 base n [].
Proof.
  intros Hb. revert n f2. induction f1 as [|f1 IH]; intros n f2 Hn H1 H2; [lia|].
  destruct f2 as [|f2]; [lia|]. simpl. destruct (n <? base) eqn:E; [done|]. zbool.
  rewrite digitsLoop_acc, (digitsLoop_acc f2). f_equal.
  assert (Hlog : Z.log2 (n / base) < Z.log2 n).
  { assert (Hle : n / base <= n / 2) by (apply Z.div_le_compat_l; lia).
    apply Z.log2_le_mono in Hle. rewrite <- Z.div2_div, Z.div2_spec in Hle.
    rewrite Z.log2_shiftr in Hle by lia.
    assert (0 < Z.log2 n) by (apply Z.log2_pos; lia). lia. }
  assert (0 <= n / base) by (apply Z.div_pos; lia).
  pose proof (Z.log2_nonneg (n / base)). apply IH; lia.
Qed.

Lemma digits_small base n : 2 <= base -> 0 <= n < base -> digits base n = [digitChar n].
Proof.
  intros Hb Hn. unfold digits. simpl. rewrite Z.mod_small by lia.
  by replace (n <? base) with true by lia.
Qed.

Lemma digits_step base n : 2 <= base -> base <= n ->
  digits base n = digits base (n / base) ++ [digitChar (n mod base)].
Proof.
  intros Hb Hn. unfold digits at 1. simpl. replace (n <? base) with false by lia.
  rewrite digitsLoop_acc. f_equal.
  destruct (Z.to_nat (Z.log2 n)) as [|k] eqn:E.
  - assert (0 < Z.log2 n) by (apply Z.log2_pos; lia). lia.
  - unfold digits. apply digitsLoop_fuel; try lia; [apply Z.div_pos; lia|].
    assert (Hle : n / base <= n / 2) by (apply Z.div_le_compat_l; lia).
    apply Z.log2_le_mono in Hle. rewrite <- Z.div2_div, Z.div2_spec in Hle.
    rewrite Z.log2_shiftr in Hle by lia. lia.
Qed.

(** Induction along the digits of a number. *)
Lemma digits_ind base (P : Z -> Prop) : 2 <= base ->
  (forall n, 0 <= n < base -> P n) ->
  (forall n, base <= n -> P (n / base) -> P n) ->
  forall n, 0 <= n -> P n.
Proof.
  intros Hb H0 HS n Hn. apply (natlike_ind (fun m => forall n, 0 <= n <= m -> P n)) with (x := n).
  - intros k Hk. apply H0. lia.
  - intros m Hm IH k Hk. destruct (decide (k < base)); [apply H0; lia|].
    apply HS; [lia|]. apply IH. split; [apply Z.div_pos; lia|].
    enough (k / base < k) by lia. apply Z.div_lt; lia.
  - done.
  - lia.
Qed.

Lemma digits_nonempty base n : 2 <= base -> 0 <= n -> digits base n <> [].
Proof.
  intros Hb Hn. destruct (decide (n < base)).
  - by rewrite digits_small by lia.
  - rewrite digits_step by lia. by destruct (digits base (n / base)).
Qed.

Lemma digits_forall (P : Z -> Prop) base n : 2 <= base -> 0 <= n ->
  (forall d, 0 <= d < base -> P (digitChar d)) -> Forall P (digits base n).
Proof.
  intros Hb Hn HP. revert n Hn. apply (digits_ind base); [done| |].
  - intros n Hn. rewrite digits_small by done. auto.
  - intros n Hn IH. rewrite digits_step by done. apply Forall_app. split; [done|].
    constructor; [|done]. apply HP. apply Z.mod_pos_bound. lia.
Qed.

(** A number with more than one digit does not start with a zero. *)
Lemma digits_head base n : 2 <= base -> base <= n ->
  exists d, 1 <= d < base /\ hd 0 (digits base n) = digitChar d.
Proof.
  intros Hb Hn. assert (Hn0 : 0 <= n) by lia. revert n Hn0 Hn.
  apply (digits_ind base (fun n => base <= n -> _)); [done|lia|].
  intros n Hn IH _. rewrite digits_step by done.
  destruct (decide (n / base < base)) as [Hlt|Hge].
  - assert (1 <= n / base) by (apply Z.div_le_lower_bound; lia).
    rewrite digits_small by lia. simpl. exists (n / base). lia.
  - destruct (IH ltac:(lia)) as (d & Hd & E). exists d. split; [done|].
    destruct (digits base (n / base)) eqn:E'; [|done].
    exfalso. eapply digits_nonempty; [exact Hb| |exact E']. lia.
Qed.

Lemma digits_length base n k : 2 <= base -> 0 <= n -> n < base ^ Z.of_nat k -> (0 < k)%nat ->
  (length (digits base n) <= k)%nat.
Proof.
  intros Hb Hn. revert k. revert n Hn.
  apply (digits_ind base (fun n => forall k, n < base ^ Z.of_nat k -> (0 < k)%nat ->
    (length (digits base n) <= k)%nat)); [done| |].
  - intros n Hn k _ Hk. rewrite digits_small by done. simpl. lia.
  - intros n Hn IH k Hk Hk0. rewrite digits_step by done. rewrite length_app. simpl.
    destruct k as [|[|k]]; [lia| simpl in Hk; lia |].
    enough (length (digits base (n / base)) <= S k)%nat by lia.
    apply IH; [|lia]. apply Z.div_lt_upper_bound; [lia|].
    rewrite <- Z.pow_succ_r by lia. by replace (Z.succ (Z.of_nat (S k))) with (Z.of_nat (S (S k))) by lia.
Qed.

(** Reading the digits back, for any left-to-right accumulating reader. *)
Lemma digits_fold (f : Z -> Z -> Z) base n : 2 <= base -> 0 <= n ->
  (forall a d, 0 <= a -> 0 <= d < base -> base * a + d <= n -> f a (digitChar d) = base * a + d) ->
  fold_left f (digits base n) 0 = n.
Proof.
  intros Hb Hn. revert n Hn.
  apply (digits_ind base (fun n => (forall a d, 0 <= a -> 0 <= d < base -> base * a + d <= n ->
    f a (digitChar d) = base * a + d) -> fold_left f (digits base n) 0 = n)); [done| |].
  - intros n Hn Hf. rewrite digits_small by done. simpl. rewrite Hf; lia.
  - intros n Hn IH Hf. rewrite digits_step by done. rewrite fold_left_app. simpl.
    pose proof (Z.div_mod n base ltac:(lia)) as Hdm.
    pose proof (Z.mod_pos_bound n base ltac:(lia)) as Hm.
    assert (0 <= n / base) by (apply Z.div_pos; lia).
    rewrite IH.
    + rewrite Hf; lia.
    + intros a d Ha Hd Hle. apply Hf; [done|done|].
      assert (n / base <= n) by (enough (n / base < n) by lia; apply Z.div_lt; lia). lia.
Qed.

Lemma number_digits n : 0 <= n -> number n = digits 10 n.
Proof. intros H. unfold number. by replace (n <? 0) with false by lia. Qed.

(** ** Bit operations as arithmetic *)

Lemma lor_shiftl a b n : 0 <= n -> 0 <= b < 2 ^ n -> Z.lor (Z.shiftl a n) b = a * 2 ^ n + b.
Proof.
  intros Hn Hb. rewrite Z.shiftl_mul_pow2 by done. symmetry. apply Z.add_nocarry_lor.
  apply Z.bits_inj'. intros i Hi. rewrite Z.land_spec, Z.bits_0.
  destruct (decide (i < n)).
  - by rewrite Z.mul_pow2_bits_low by lia.
  - replace b with (b mod 2 ^ n) by (apply Z.mod_small; lia).
    rewrite Z.mod_pow2_bits_high by lia. apply andb_false_r.
Qed.

(** Filling the low bits of a multiple of a power of two. *)
Lemma lor_low_ones a n : 0 <= n -> (2 ^ n | a) -> Z.lor a (2 ^ n - 1) = a + 2 ^ n - 1.
Proof.
  intros Hn [q ->]. pose proof (Z.pow_pos_nonneg 2 n ltac:(lia) Hn).
  rewrite <- Z.shiftl_mul_pow2 by done. rewrite lor_shiftl by lia.
  rewrite Z.shiftl_mul_pow2 by done. lia.
Qed.

Lemma land_low a n : 0 <= n -> Z.land a (2 ^ n - 1) = a mod 2 ^ n.
Proof. intros Hn. rewrite <- Z.land_ones by done. f_equal. rewrite Z.ones_equiv. lia. Qed.

Lemma wrap64_small z : 0 <= z < 2 ^ 64 -> wrap64 z = z.
Proof. apply Z.mod_small. Qed.

Lemma wrap32_small z : 0 <= z < 2 ^ 32 -> wrap32 z = z.
Proof. apply Z.mod_small. Qed.

Lemma wrap16_small z : 0 <= z < 2 ^ 16 -> wrap16 z = z.
Proof. apply Z.mod_small. Qed.

Lemma log2_split h l n : 0 <= n -> 0 < h -> 0 <= l < 2 ^ n ->
  Z.log2 (h * 2 ^ n + l) = n + Z.log2 h.
Proof.
  intros Hn Hh Hl. pose proof (Z.log2_spec h Hh) as [H1 H2]. pose proof (Z.log2_nonneg h).
  assert (0 < 2 ^ n) by lia.
  apply Z.log2_unique; [lia|]. rewrite !Z.pow_succ_r, !Z.pow_add_r in * by lia. nia.
Qed.

Lemma lor_bound a b n : 0 <= n -> 0 <= a < 2 ^ n -> 0 <= b < 2 ^ n -> 0 <= Z.lor a b < 2 ^ n.
Proof.
  intros Hn Ha Hb. split; [apply Z.lor_nonneg; lia|].
  destruct (decide (Z.lor a b = 0)) as [->|Hz]; [apply Z.pow_pos_nonneg; lia|].
  assert (0 <= Z.lor a b) by (apply Z.lor_nonneg; lia).
  destruct (decide (n = 0)) as [->|Hn0].
  - assert (a = 0) by lia. assert (b = 0) by lia. by subst.
  - apply Z.log2_lt_pow2; [lia|]. rewrite Z.log2_lor by lia.
    assert (Hlog : forall x, 0 <= x < 2 ^ n -> Z.log2 x < n).
    { intros x Hx. destruct (decide (x = 0)) as [->|]; [rewrite Z.log2_nonpos; lia|].
      apply Z.log2_lt_pow2; lia. }
    pose proof (Hlog a Ha). pose proof (Hlog b Hb). lia.
Qed.

Lemma drop_app_cons {A} (s : list A) c t : drop (length s + 1) (s ++ c :: t) = t.
Proof. rewrite drop_app_add. done. Qed.

(** ** Lists filtered and summed *)

Lemma filter_elem {A} (f : A -> bool) (l : list A) x : x ∈ List.filter f l <-> x ∈ l /\ f x = true.
Proof. rewrite !list_elem_of_In. apply filter_In. Qed.

Lemma filter_nodup {A} (f : A -> bool) (l : list A) : NoDup l -> NoDup (List.filter f l).
Proof.
  induction 1 as [|x l Hx _ IH]; cbn [List.filter]; [constructor|]. destruct (f x); [|done]. constructor; [|done].
  rewrite filter_elem. by intros [H _].
Qed.

Definition sumOf {A} (f : A -> Z) (l : list A) : Z := fold_right (fun x n => f x + n) 0 l.

Lemma sumOf_app {A} (f : A -> Z) l k : sumOf f (l ++ k) = sumOf f l + sumOf f k.
Proof. induction l as [|x l IH]; cbn [sumOf fold_right app] in *; [done|]. unfold sumOf in *. lia. Qed.

Lemma sumOf_one {A} (f : A -> Z) x : sumOf f [x] = f x.
Proof. apply Z.add_0_r. Qed.

Lemma sumOf_delete {A} (f : A -> Z) (l : list A) n x : l !! n = Some x -> sumOf f (delete n l) = sumOf f l - f x.
Proof.
  revert n. induction l as [|y l IH]; intros [|n] E; [done|done| |].
  - injection E as ->. change (sumOf f l = f x + sumOf f l - f x). lia.
  - change (f y + sumOf f (delete n l) = f y + sumOf f l - f x). rewrite (IH n E). lia.
Qed.

Lemma sumOf_nonneg {A} (f : A -> Z) l : (forall x, 0 <= f x) -> 0 <= sumOf f l.
Proof. intros Hf. induction l as [|x l IH]; [done|]. specialize (Hf x). change (0 <= f x + sumOf f l). lia. Qed.

Lemma sumOf_insert {A} (f : A -> Z) (l : list A) n x y : l !! n = Some x -> sumOf f (<[n := y]> l) = sumOf f l - f x + f y.
Proof.
  revert n. induction l as [|z l IH]; intros [|n] E; [done|done| |].
  - injection E as ->. change (f y + sumOf f l = f x + sumOf f l - f x + f y). lia.
  - change (f z + sumOf f (<[n := y]> l) = f z + sumOf f l - f x + f y). rewrite (IH n E). lia.
Qed.

Lemma sumOf_nil {A} (f : A -> Z) l : Forall (fun x => f x = 0) l -> sumOf f l = 0.
Proof. induction 1 as [|x l Hx _ IH]; [done|]. change (f x + sumOf f l = 0). lia. Qed.

Lemma sumOf_pos {A} (f : A -> Z) (l : list A) : (forall x, 0 <= f x) -> 0 < sumOf f l -> exists n x, l !! n = Some x /\ 0 < f x.
Proof.
  intros Hf. induction l as [|x l IH]; [done|]. change (0 < f x + sumOf f l -> exists n y, (x :: l) !! n = Some y /\ 0 < f y). intros H.
  destruct (decide (0 < f x)) as [Hx|Hx]; [by exists 0%nat, x|]. specialize (Hf x). destruct IH as (n & y & E & Hy); [lia|]. by exists (S n), y.
Qed.

Lemma sumOf_ge {A} (f : A -> Z) (l : list A) n x : (forall x, 0 <= f x) -> l !! n = Some x -> f x <= sumOf f l.
Proof.
  intros Hf E. pose proof (sumOf_delete f l n x E). pose proof (sumOf_nonneg f (delete n l) Hf). lia.
Qed.
