(* ===== verification/IpListParse.v ===== *)
(** * IpListParse: the IP-list text parser (src/src/scanner/IpListParse.cpp)

    Addresses, CIDR networks, address ranges and their canonical text, and the
    line parser [ParseIpListText]. A [QStringView] is its list of code units;
    a function that reports success and fills out-parameters returns an option
    (no caller reads the out-parameters of a failed call). *)

From stdpp Require Import base list gmap strings.
From Stdlib Require Import ZArith Lia Bool.
From S2P Require Import Prelude.

Definition kIpListParseMaxSamples : Z := 5.
Definition kIpListParseSampleChars : nat := 64.

(** ** Data *)

(** IPv4 lives in the low 32 bits of [lo]. *)
Record IpListParseAddr := mkAddr { v6 : bool; hi : Z; lo : Z }.

Inductive IpListParseKind := KAddress | KPort | KOther.

Record IpListParseToken := mkToken {
  tkText : qstr;
  tkField : nat;
  tkKind : IpListParseKind;
  tkCidrs : list qstr;
  tkPort : Z
}.

Record IpListEntry := mkEntry { cidr : qstr; port : Z; latencyMs : Z }.

Record ParseResult := mkResult {
  entries : list IpListEntry;
  rejected : Z;
  duplicates : Z;
  samples : list qstr
}.

#[export] Instance IpListParseAddr_eq_dec : EqDecision IpListParseAddr.
Proof. solve_decision. Defined.
#[export] Instance IpListParseKind_eq_dec : EqDecision IpListParseKind.
Proof. solve_decision. Defined.
#[export] Instance IpListEntry_eq_dec : EqDecision IpListEntry.
Proof. solve_decision. Defined.

Definition isPortKind (k : IpListParseKind) : bool :=
  match k with KPort => true | _ => false end.
Definition isAddressKind (k : IpListParseKind) : bool :=
  match k with KAddress => true | _ => false end.

(** ** Numbers and addresses *)

Definition ipListParseBits (addr : IpListParseAddr) : Z := if v6 addr then 128 else 32.

Fixpoint decimalLoop (value : Z) (text : qstr) : option Z :=
  match text with
  | [] => Some value
  | c :: text' =>
      if (c <? c0) || (c9 <? c) then None
      else decimalLoop (wrap32 (value * 10 + (c - c0))) text'
  end.

Definition ipListParseDecimal (text : qstr) (maxDigits : Z) : option Z :=
  if isNil text || (maxDigits <? zlen text) then None else decimalLoop 0 text.

Definition ipListParseHexDigit (c : Z) : Z :=
  if (48 <=? c) && (c <=? 57) then c - 48
  else if (97 <=? c) && (c <=? 102) then c - 97 + 10
  else if (65 <=? c) && (c <=? 70) then c - 65 + 10
  else -1.

Definition ipListParsePort (text : qstr) : option Z :=
  let? value := ipListParseDecimal text 5 in
  if 65535 <? value then None else Some value.

(** The loop over the parts between dots; the last part is the one with no
    further dot. *)
Fixpoint v4Loop (parts_ : list qstr) (value parts : Z) : option (Z * Z) :=
  match parts_ with
  | [] => None
  | part :: rest =>
      let? octet := ipListParseDecimal part 3 in
      if 255 <? octet then None
      else if (1 <? zlen part) && startsWithChar c0 part then None
      else if 4 <? parts + 1 then None
      else
        let value' := Z.lor (wrap32 (Z.shiftl value 8)) octet in
        match rest with
        | [] => Some (value', parts + 1)
        | _ => v4Loop rest value' (parts + 1)
        end
  end.

Definition ipListParseV4 (text : qstr) : option Z :=
  let? (value, parts) := v4Loop (splitOn cDot text) 0 0 in
  if negb (parts =? 4) then None else Some value.

Fixpoint hexLoop (value : Z) (group : qstr) : option Z :=
  match group with
  | [] => Some value
  | c :: group' =>
      let digit := ipListParseHexDigit c in
      if digit <? 0 then None
      else hexLoop (wrap16 (Z.lor (Z.shiftl value 4) digit)) group'
  end.

(** [groups] holds what the C++ array holds up to [count]. *)
Fixpoint v6PartLoop (parts : list qstr) (allowV4Tail : bool) (groups : list Z) : option (list Z) :=
  match parts with
  | [] => None
  | group :: rest =>
      let lastGroup := isNil rest in
      if lastGroup && allowV4Tail && contains cDot group then
        if 6 <? zlen groups then None
        else
          let? v4 := ipListParseV4 group in
          Some (groups ++ [wrap16 (Z.shiftr v4 16); wrap16 (Z.land v4 65535)])
      else if isNil group || (4 <? zlen group) || (8 <=? zlen groups) then None
      else
        let? value := hexLoop 0 group in
        if lastGroup then Some (groups ++ [value])
        else v6PartLoop rest allowV4Tail (groups ++ [value])
  end.

Definition ipListParseV6Part (text : qstr) (allowV4Tail : bool) : option (list Z) :=
  if isNil text then Some [] else v6PartLoop (splitOn cColon text) allowV4Tail [].

(** [hi] and [lo] of eight 16-bit groups. *)
Definition packGroups (groups : list Z) : Z :=
  fold_left (fun acc g => Z.lor (wrap64 (Z.shiftl acc 16)) g) groups 0.

Definition ipListParseV6 (text : qstr) : option (Z * Z) :=
  let parsed :=
    match indexOfStr (u "::") text with
    | None =>
        let? head := ipListParseV6Part text true in
        if negb (zlen head =? 8) then None else Some (head, [])
    | Some gap =>
        if containsStr (u "::") (drop (gap + 1) text) then None
        else
          let? head := ipListParseV6Part (take gap text) false in
          let? tail := ipListParseV6Part (drop (gap + 2) text) true in
          if 7 <? zlen head + zlen tail then None else Some (head, tail)
    end in
  let? (head, tail) := parsed in
  let groups := head ++ replicate (8 - length head - length tail) 0 ++ tail in
  Some (packGroups (take 4 groups), packGroups (drop 4 groups)).

Definition ipListParseAddress (text : qstr) : option IpListParseAddr :=
  if contains cColon text then
    let text := match indexOf cPercent text with Some zone => take zone text | None => text end in
    let? (h, l) := ipListParseV6 text in Some (mkAddr true h l)
  else
    let? v4 := ipListParseV4 text in Some (mkAddr false 0 v4).

Definition ipListParseIsMapped (addr : IpListParseAddr) : bool :=
  v6 addr && (hi addr =? 0) && (Z.shiftr (lo addr) 32 =? 65535).

Definition ipListParseMask (addr : IpListParseAddr) (prefix : Z) : IpListParseAddr :=
  if negb (v6 addr) then
    mkAddr (v6 addr) (hi addr)
      (Z.land (lo addr) (Z.land (wrap64 (Z.shiftl 4294967295 (32 - prefix))) 4294967295))
  else if prefix <? 64 then
    mkAddr (v6 addr)
      (Z.land (hi addr) (if prefix =? 0 then 0 else wrap64 (Z.shiftl max_u64 (64 - prefix)))) 0
  else if prefix =? 64 then mkAddr (v6 addr) (hi addr) 0
  else if prefix <? 128 then
    mkAddr (v6 addr) (hi addr) (Z.land (lo addr) (wrap64 (Z.shiftl max_u64 (128 - prefix))))
  else addr.

(** ** Text of an address *)

Definition addrGroups (addr : IpListParseAddr) : list Z :=
  map (fun i => wrap16 (Z.shiftr (hi addr) (48 - 16 * i))) [0; 1; 2; 3] ++
  map (fun i => wrap16 (Z.shiftr (lo addr) (48 - 16 * i))) [0; 1; 2; 3].

(** [j - i] for the first [j >= i] whose group is not zero (or the end). *)
Fixpoint zeroRun (groups : list Z) : nat :=
  match groups with
  | [] => 0
  | g :: gs => if g =? 0 then S (zeroRun gs) else 0%nat
  end.

(** The outer loop over [i]; [None] is [bestStart = -1]. *)
Fixpoint bestRunLoop (fuel : nat) (groups : list Z) (i : nat) (best : option nat) (bestLength : nat)
    : option nat * nat :=
  match fuel with
  | O => (best, bestLength)
  | S fuel' =>
      match drop i groups with
      | [] => (best, bestLength)
      | g :: _ =>
          if negb (g =? 0) then bestRunLoop fuel' groups (S i) best bestLength
          else
            let run := zeroRun (drop i groups) in
            if (bestLength <? run)%nat then bestRunLoop fuel' groups (i + run) (Some i) run
            else bestRunLoop fuel' groups (i + run) best bestLength
      end
  end.

Fixpoint formatV6Loop (fuel : nat) (groups : list Z) (i : nat) (best : option nat) (bestLength : nat)
    (out : qstr) : qstr :=
  match fuel with
  | O => out
  | S fuel' =>
      match drop i groups with
      | [] => out
      | g :: _ =>
          if decide (best = Some i) then
            formatV6Loop fuel' groups (i + (bestLength - 1) + 1) best bestLength (out ++ u "::")
          else
            let out' := if negb (isNil out) && negb (endsWithChar cColon out)
                        then out ++ [cColon] else out in
            formatV6Loop fuel' groups (S i) best bestLength (out' ++ numberHex g)
      end
  end.

Definition ipListParseFormat (addr : IpListParseAddr) : qstr :=
  if negb (v6 addr) then
    let v := wrap32 (lo addr) in
    number (Z.shiftr v 24) ++ [cDot] ++ number (Z.land (Z.shiftr v 16) 255) ++ [cDot] ++
    number (Z.land (Z.shiftr v 8) 255) ++ [cDot] ++ number (Z.land v 255)
  else
    let groups := addrGroups addr in
    let (best, bestLength) := bestRunLoop 8 groups 0 None 1 in
    formatV6Loop 8 groups 0 best bestLength [].

Definition ipListParseCidr (addr : IpListParseAddr) (prefix : Z) : qstr :=
  let address := ipListParseFormat addr in
  if ipListParseBits addr <=? prefix then address else address ++ [cSlash] ++ number prefix.

(** ** Networks and ranges *)

(** std::countr_zero on a non-zero value, std::bit_width. *)
Fixpoint posCountrZero (p : positive) : Z :=
  match p with
  | xO p' => 1 + posCountrZero p'
  | _ => 0
  end.

Definition countrZero (z : Z) : Z := match z with Zpos p => posCountrZero p | _ => 0 end.

Definition bitWidth (z : Z) : Z := if z =? 0 then 0 else Z.log2 z + 1.

(** The IPv4 form of an IPv4-mapped IPv6 address. *)
Definition unmapAddr (addr : IpListParseAddr) : IpListParseAddr :=
  mkAddr false 0 (Z.land (lo addr) 4294967295).

Definition ipListParseLess (a b : IpListParseAddr) : bool :=
  if negb (hi a =? hi b) then hi a <? hi b else lo a <? lo b.

(** [k] of one iteration: the largest aligned block that fits. *)
Definition coverStepK (first last : IpListParseAddr) : Z :=
  let bits := ipListParseBits first in
  let align := if negb (lo first =? 0) then countrZero (lo first)
               else if negb (hi first =? 0) then 64 + countrZero (hi first) else 128 in
  let align := Z.min align bits in
  let diffLo := wrap64 (lo last - lo first) in
  let diffHi := wrap64 (hi last - hi first - (if lo last <? lo first then 1 else 0)) in
  let sizeLo := wrap64 (diffLo + 1) in
  let sizeHi := wrap64 (diffHi + (if sizeLo =? 0 then 1 else 0)) in
  let fit := if negb (sizeHi =? 0) then 64 + bitWidth sizeHi - 1 else bitWidth sizeLo - 1 in
  Z.min align fit.

Definition coverBlockEnd (first : IpListParseAddr) (k : Z) : IpListParseAddr :=
  if 64 <=? k then
    mkAddr (v6 first)
      (if 64 <? k then Z.lor (hi first) (wrap64 (Z.shiftl 1 (k - 64)) - 1) else hi first)
      max_u64
  else if 0 <? k then
    mkAddr (v6 first) (hi first) (Z.lor (lo first) (wrap64 (Z.shiftl 1 k) - 1))
  else first.

Definition coverNext (first blockEnd : IpListParseAddr) : IpListParseAddr :=
  let lo' := wrap64 (lo blockEnd + 1) in
  mkAddr (v6 first) (wrap64 (hi blockEnd + (if lo' =? 0 then 1 else 0))) lo'.

(** The [while (true)] loop; the blocks it emits, as address and prefix. *)
Fixpoint coverLoop (fuel : nat) (first last : IpListParseAddr)
    : option (list (IpListParseAddr * Z)) :=
  match fuel with
  | O => None
  | S fuel' =>
      let k := coverStepK first last in
      let block := (first, ipListParseBits first - k) in
      let blockEnd := coverBlockEnd first k in
      if (hi blockEnd =? hi last) && (lo blockEnd =? lo last) then Some [block]
      else
        let? blocks := coverLoop fuel' (coverNext first blockEnd) last in
        Some (block :: blocks)
  end.

(** A range splits into at most 2 * 128 aligned blocks. *)
Definition coverFuel : nat := 260.

Definition coverBlocks (first last : IpListParseAddr) : option (list (IpListParseAddr * Z)) :=
  let topHi := if v6 first then max_u64 else 0 in
  let topLo := if v6 first then max_u64 else 4294967295 in
  if (hi first =? 0) && (lo first =? 0) && (hi last =? topHi) && (lo last =? topLo) then None
  else coverLoop coverFuel first last.

Definition ipListParseCoverRange (first last : IpListParseAddr) : option (list qstr) :=
  let? blocks := coverBlocks first last in
  Some (map (fun b => ipListParseCidr (fst b) (snd b)) blocks).

Definition ipListParseRangeEnd (text : qstr) : option IpListParseAddr :=
  let text := if startsWithChar cLBracket text && endsWithChar cRBracket text
              then take (length text - 2) (drop 1 text) else text in
  if contains cSlash text then None
  else
    let? addr := ipListParseAddress text in
    Some (if ipListParseIsMapped addr then unmapAddr addr else addr).

(** The port and the address text of the right side of a range token. *)
Definition rangeRight (rtext : qstr) : option (qstr * Z) :=
  if startsWithChar cLBracket rtext then
    let? close := indexOf cRBracket rtext in
    let rest := drop (close + 1) rtext in
    if isNil rest then Some (take (close + 1) rtext, -1)
    else if negb (startsWithChar cColon rest) then None
    else let? port := ipListParsePort (drop 1 rest) in Some (take (close + 1) rtext, port)
  else if countChar cColon rtext =? 1 then
    let? colon := indexOf cColon rtext in
    let? port := ipListParsePort (drop (colon + 1) rtext) in
    Some (take colon rtext, port)
  else Some (rtext, -1).

(** The last address: a bare octet replaces the last byte of an IPv4 start. *)
Definition rangeLast (first : IpListParseAddr) (rtext : qstr) : option IpListParseAddr :=
  match (if negb (v6 first) then ipListParseDecimal rtext 3 else None) with
  | Some octet =>
      if (255 <? octet) || ((1 <? zlen rtext) && startsWithChar c0 rtext) then None
      else Some (mkAddr (v6 first) (hi first)
                   (Z.lor (Z.land (lo first) (max_u64 - 255)) octet))
  | None =>
      let? last := ipListParseRangeEnd rtext in
      if negb (Bool.eqb (v6 last) (v6 first)) then None else Some last
  end.

Definition ipListParseRangeToken (token : qstr) : option (list qstr * Z) :=
  let? dash := indexOf cDash token in
  let ltext := take dash token in
  let? (rtext, port) := rangeRight (drop (dash + 1) token) in
  let? first := ipListParseRangeEnd ltext in
  let? last := rangeLast first rtext in
  let '(first, last) := if ipListParseLess last first then (last, first) else (first, last) in
  let? cidrs := ipListParseCoverRange first last in
  Some (cidrs, port).

Section Qt.
Context {Q : QtChar}.

(** The body and the prefix text of a network, brackets removed. *)
Definition networkParts (text : qstr) : option (qstr * option qstr) :=
  let? (body, suffix) :=
    if startsWithChar cLBracket text then
      let? close := indexOf cRBracket text in
      let suffix := drop (close + 1) text in
      if negb (isNil suffix) && negb (startsWithChar cSlash suffix) then None
      else Some (take (close - 1) (drop 1 text), suffix)
    else Some (text, []) in
  match indexOf cSlash body with
  | Some slash =>
      if negb (isNil suffix) then None
      else Some (take slash body, Some (drop (slash + 1) body))
  | None =>
      if negb (isNil suffix) then Some (body, Some (drop 1 suffix)) else Some (body, None)
  end.

Definition networkPrefix (addr : IpListParseAddr) (prefixText : option qstr) : option Z :=
  let bits := ipListParseBits addr in
  match prefixText with
  | None => Some bits
  | Some t =>
      let? value := ipListParseDecimal t 3 in
      if bits <? value then None else Some value
  end.

Definition ipListParseNetwork (text : qstr) : option (IpListParseAddr * Z) :=
  let? (body, prefixText) := networkParts (trimmed text) in
  let? addr := ipListParseAddress body in
  let? prefix := networkPrefix addr prefixText in
  let '(addr, prefix) :=
    if ipListParseIsMapped addr && (96 <=? prefix) then (unmapAddr addr, prefix - 96)
    else (addr, prefix) in
  if prefix =? 0 then None else Some (ipListParseMask addr prefix, prefix).

Definition ipListParseAddressToken (token : qstr) : option (list qstr * Z) :=
  if isNil token then None
  else if contains cDash token then ipListParseRangeToken token
  else
    let? (network, port) :=
      if startsWithChar cLBracket token then
        let? close := indexOf cRBracket token in
        let rest := drop (close + 1) token in
        if startsWithChar cColon rest then
          let? port := ipListParsePort (drop 1 rest) in Some (take (close + 1) token, port)
        else Some (token, -1)
      else if countChar cColon token =? 1 then
        let? colon := indexOf cColon token in
        let? port := ipListParsePort (drop (colon + 1) token) in
        Some (take colon token, port)
      else Some (token, -1) in
    let? (addr, prefix) := ipListParseNetwork network in
    Some ([ipListParseCidr addr prefix], port).

Definition ipListParseLooksLikeAddress (token : qstr) : bool :=
  if isNil token then false
  else if startsWithChar cLBracket token || containsStr (u "::") token || (7 <=? countChar cColon token)
  then true
  else if (countChar cDot token <? 2)
          || match token with [] => true | c :: _ => (c <? c0) || (c9 <? c) end
  then false
  else forallb (fun c => ((c0 <=? c) && (c <=? c9)) || (c =? cDot) || (c =? cSlash)
                         || (c =? cColon) || (c =? cDash)) token.

Definition kColumnNames : list qstr :=
  [u "address"; u "host"; u "hostname"; u "cidr"; u "subnet"; u "network";
   u "prefix"; u "range"; u "endpoint"; u "server"; u "target"].

Definition ipListParseIsColumnName (token : qstr) : bool :=
  if startsWithCI (u "ip") token || startsWithCI (u "addr") token || containsCI (u "port") token
  then true
  else existsb (fun name => eqFold token name) kColumnNames.

Definition ipListParseIsSeparator (c : Z) : bool :=
  (c =? cComma) || (c =? cSemicolon) || (c =? cTab) || (c =? cBar).

Definition ipListParseRangeChar (c : Z) : bool :=
  (0 <=? ipListParseHexDigit c) || (c =? cDot) || (c =? cColon)
  || (c =? cLBracket) || (c =? cRBracket).

Definition cEnDash : Z := 8211.

(** The loop over [line]; the suffix stands for the index [i]. *)
Fixpoint joinRangesLoop (fuel : nat) (line out : qstr) : qstr :=
  match fuel with
  | O => out
  | S fuel' =>
      match line with
      | [] => out
      | c :: rest =>
          if (c =? cDash) || (c =? cEnDash) then
            let kept := dropWhileEnd isSpace out in
            let next := dropWhile isSpace rest in
            match lastChar kept, next with
            | Some a, b :: _ =>
                if ipListParseRangeChar a && ipListParseRangeChar b
                then joinRangesLoop fuel' next (kept ++ [cDash])
                else joinRangesLoop fuel' rest (out ++ [c])
            | _, _ => joinRangesLoop fuel' rest (out ++ [c])
            end
          else joinRangesLoop fuel' rest (out ++ [c])
      end
  end.

Definition ipListParseJoinRanges (line : qstr) : qstr := joinRangesLoop (length line) line [].

Definition isQuote (c : Z) : bool := (c =? cQuote) || (c =? cApos).

Definition ipListParseUnquote (text : qstr) : qstr :=
  trimmed (dropWhileEnd isQuote (dropWhile isQuote (trimmed text))).

Definition ipListParseSplit (text : qstr) (bySeparator : bool) : list qstr :=
  if bySeparator then splitBy ipListParseIsSeparator text
  else List.filter (fun part => negb (isNil part)) (splitBy isSpace text).

(** ** The public functions *)

(** Empty when the text is no network. *)
Definition NormalizeCidr (text : qstr) : qstr :=
  match ipListParseNetwork text with
  | Some (addr, prefix) => ipListParseCidr addr prefix
  | None => []
  end.

Definition clampDefaultPort (defaultPort : Z) : Z :=
  if (defaultPort <? 0) || (65535 <? defaultPort) then 0 else defaultPort.

(** The locals of [ParseIpListText] that live across lines. *)
Record ParseState := mkState {
  psResult : ParseResult;
  psSeen : gset qstr;
  psFirst : bool;
  psTabular : bool;
  psPortColumn : option nat
}.

Definition reject (token : qstr) (r : ParseResult) : ParseResult :=
  mkResult (entries r) (rejected r + 1) (duplicates r)
    (if zlen (samples r) <? kIpListParseMaxSamples
     then samples r ++ [take kIpListParseSampleChars token] else samples r).

Definition rejectAll (tokens : list qstr) (r : ParseResult) : ParseResult :=
  fold_left (fun r t => reject t r) tokens r.

Definition addCidr (port : Z) (rs : ParseResult * gset qstr) (cidr : qstr)
    : ParseResult * gset qstr :=
  let (r, seen) := rs in
  let key := cidr ++ [cSpace] ++ number port in
  if decide (key ∈ seen) then
    (mkResult (entries r) (rejected r) (duplicates r + 1) (samples r), seen)
  else
    (mkResult (entries r ++ [mkEntry cidr port 0]) (rejected r) (duplicates r) (samples r),
     {[key]} ∪ seen).

Definition addCidrs (defaultPort : Z) (cidrs : list qstr) (port : Z)
    (rs : ParseResult * gset qstr) : ParseResult * gset qstr :=
  let port := if port <=? 0 then defaultPort else port in
  fold_left (addCidr port) cidrs rs.

Definition wordToken (field : nat) (word : qstr) : option IpListParseToken :=
  let text := ipListParseUnquote word in
  if isNil text then None
  else Some
    match ipListParseAddressToken text with
    | Some (cidrs, port) => mkToken text field KAddress cidrs port
    | None =>
        match ipListParsePort text with
        | Some port => mkToken text field KPort [] port
        | None => mkToken text field KOther [] (-1)
        end
    end.

Definition fieldTokens (field : nat) (text : qstr) : list IpListParseToken :=
  omap (wordToken field) (ipListParseSplit text false).

Fixpoint lineTokens (field : nat) (fields : list qstr) : list IpListParseToken :=
  match fields with
  | [] => []
  | f :: fs => fieldTokens field f ++ lineTokens (S field) fs
  end.

(** The index of the first field whose text mentions a port. *)
Fixpoint findPortColumn (field : nat) (fields : list qstr) : option nat :=
  match fields with
  | [] => None
  | f :: fs => if containsCI (u "port") f then Some field else findPortColumn (S field) fs
  end.

(** The port column of a tabular row, when it holds a port. *)
Definition columnPort (fields : list qstr) (portColumn : option nat) (field : nat) : option Z :=
  match portColumn with
  | Some col =>
      if (col <? length fields)%nat && negb (col =? field)%nat
      then match fields !! col with Some f => ipListParsePort f | None => None end
      else None
  | None => None
  end.

(** The last loop over the tokens of a line with at least one address. *)
Fixpoint emitTokens (defaultPort : Z) (tabular tabularFile : bool) (fields : list qstr)
    (portColumn : option nat) (tokens : list IpListParseToken) (rs : ParseResult * gset qstr)
    : ParseResult * gset qstr :=
  match tokens with
  | [] => rs
  | token :: rest =>
      let go := emitTokens defaultPort tabular tabularFile fields portColumn in
      match tkKind token with
      | KAddress =>
          let port := tkPort token in
          if (port <? 0) && tabularFile then
            let port := match columnPort fields portColumn (tkField token) with
                        | Some p => p | None => port end in
            go rest (addCidrs defaultPort (tkCidrs token) port rs)
          else
            match rest with
            | next :: rest' =>
                if (port <? 0) && isPortKind (tkKind next) then
                  (* the next token is marked consumed: the loop skips it *)
                  go rest' (addCidrs defaultPort (tkCidrs token) (tkPort next) rs)
                else go rest (addCidrs defaultPort (tkCidrs token) port rs)
            | [] => go rest (addCidrs defaultPort (tkCidrs token) port rs)
            end
      | KPort => go rest (if negb tabular then (reject (tkText token) (fst rs), snd rs) else rs)
      | KOther =>
          go rest (if negb tabular || ipListParseLooksLikeAddress (tkText token)
                   then (reject (tkText token) (fst rs), snd rs) else rs)
      end
  end.

(** [text.left(i)] for the index of an optional marker. *)
Definition cutAt (marker : option nat) (text : qstr) : qstr :=
  match marker with Some i => take i text | None => text end.

(** The line without its comments, trimmed. *)
Definition stripLine (line : qstr) : qstr :=
  let line := cutAt (indexOf cHash line) line in
  let line := cutAt (indexOfStr (u "//") line) line in
  trimmed line.

(** A line whose tokens hold no address: a header, or rejected. *)
Definition noAddressLine (st : ParseState) (line : qstr) (fields : list qstr)
    (tokens : list IpListParseToken) (tabular addressShaped namesColumn : bool) : ParseState :=
  if psFirst st && negb addressShaped && namesColumn then
    mkState (psResult st) (psSeen st) false true
      (match findPortColumn 0 fields with Some f => Some f | None => psPortColumn st end)
  else
    let texts := map tkText tokens in
    let r :=
      if negb tabular then rejectAll texts (psResult st)
      else if addressShaped then
        rejectAll (List.filter ipListParseLooksLikeAddress texts) (psResult st)
      else reject line (psResult st) in
    mkState r (psSeen st) false (psTabular st) (psPortColumn st).

(** One iteration of the line loop. *)
Definition parseLine (defaultPort : Z) (rawLine : qstr) (st : ParseState) : ParseState :=
  let line := stripLine rawLine in
  if isNil line || startsWithChar cSemicolon line then st
  else
    let line := if contains cDash line || contains cEnDash line
                then ipListParseJoinRanges line else line in
    let separated := existsb ipListParseIsSeparator line in
    let fields := map ipListParseUnquote (ipListParseSplit line separated) in
    let tokens := lineTokens 0 fields in
    if isNil tokens then st
    else
      let tabular := separated || psTabular st in
      let isAddress t := isAddressKind (tkKind t) in
      let addressShaped :=
        existsb (fun t => negb (isAddress t) && ipListParseLooksLikeAddress (tkText t)) tokens in
      let namesColumn := existsb (fun t => ipListParseIsColumnName (tkText t)) tokens in
      if negb (existsb isAddress tokens) then
        noAddressLine st line fields tokens tabular addressShaped namesColumn
      else
        let (r, seen) := emitTokens defaultPort tabular (psTabular st) fields (psPortColumn st)
                           tokens (psResult st, psSeen st) in
        mkState r seen false (psTabular st) (psPortColumn st).

(** [while (lineStart < all.size())]: a final line feed opens no further line. *)
Definition contentLines (content : qstr) : list qstr :=
  match rev (splitOn cLF content) with
  | [] :: lines => rev lines
  | lines => rev lines
  end.

Definition emptyResult : ParseResult := mkResult [] 0 0 [].

(** [ParseIpListText] on the text decoded by QString::fromUtf8. *)
Definition ParseIpListText (decoded : qstr) (defaultPort : Z) : ParseResult :=
  let defaultPort := clampDefaultPort defaultPort in
  let content := if startsWithChar 65279 decoded then drop 1 decoded else decoded in
  psResult (fold_left (fun st line => parseLine defaultPort line st) (contentLines content)
              (mkState emptyResult ∅ true false None)).

Definition FormatTarget (address : qstr) (port : Z) : qstr :=
  if port <=? 0 then address
  else if contains cColon address then [cLBracket] ++ address ++ u "]:" ++ number port
  else address ++ [cColon] ++ number port.

Definition IsHostCidr (cidr : qstr) : bool :=
  if isNil cidr then false
  else match indexOf cSlash cidr with
       | None => true
       | Some slash =>
           eqStr (drop (slash + 1) cidr)
             (if contains cColon (take slash cidr) then u "128" else u "32")
       end.

Definition FormatEntry (entry : IpListEntry) : qstr :=
  if IsHostCidr (cidr entry) then
    FormatTarget (cutAt (indexOf cSlash (cidr entry)) (cidr entry)) (port entry)
  else if port entry <=? 0 then cidr entry
  else cidr entry ++ [cSpace] ++ number (port entry).

Definition AddressCount (cidr : qstr) : Z :=
  if isNil cidr then 0
  else match indexOf cSlash cidr with
       | None => 1
       | Some slash =>
           let bits := if contains cColon (take slash cidr) then 128 else 32 in
           match ipListParseDecimal (drop (slash + 1) cidr) 3 with
           | None => 0
           | Some prefix =>
               if bits <? prefix then 0
               else
                 let hostBits := bits - prefix in
                 if 63 <=? hostBits then wrap64 (Z.shiftl 1 63) else wrap64 (Z.shiftl 1 hostBits)
           end
       end.

(** The loop of [EntriesFromCidrs]. *)
Fixpoint entriesLoop (defaultPort : Z) (cidrs : list qstr) (seen : gset qstr)
    (acc : list IpListEntry) : list IpListEntry :=
  match cidrs with
  | [] => acc
  | text :: cidrs' =>
      let c := NormalizeCidr text in
      if isNil c || bool_decide (c ∈ seen) then entriesLoop defaultPort cidrs' seen acc
      else entriesLoop defaultPort cidrs' ({[c]} ∪ seen) (acc ++ [mkEntry c defaultPort 0])
  end.

Definition EntriesFromCidrs (cidrs : list qstr) (defaultPort : Z) : list IpListEntry :=
  entriesLoop (clampDefaultPort defaultPort) cidrs ∅ [].

End Qt.
