(* ===== verification/IpListRange.v ===== *)
(** * IpListRange: the range splitter covers exactly the range

    A 128-bit address is held in two 64-bit halves; [addrVal] is its value. The
    blocks of [coverBlocks] are shown to be aligned CIDR blocks that tile the
    range from its first to its last address, and the loop to end within
    [coverFuel] iterations. *)

From stdpp Require Import base list.
From Stdlib Require Import ZArith Lia Bool.
From S2P Require Import Prelude IpListParse.

(** ** The value of an address *)

Definition addrVal (a : IpListParseAddr) : Z := hi a * 2 ^ 64 + lo a.

Definition wfAddr (a : IpListParseAddr) : Prop :=
  if v6 a then 0 <= hi a < 2 ^ 64 /\ 0 <= lo a < 2 ^ 64
  else hi a = 0 /\ 0 <= lo a < 2 ^ 32.

Lemma wfAddr_halves a : wfAddr a -> 0 <= hi a < 2 ^ 64 /\ 0 <= lo a < 2 ^ 64.
Proof. unfold wfAddr. destruct (v6 a); lia. Qed.

Lemma addrVal_bound a : wfAddr a -> 0 <= addrVal a < 2 ^ ipListParseBits a.
Proof. unfold wfAddr, addrVal, ipListParseBits. destruct (v6 a); lia. Qed.

Lemma wfAddr_intro a : 0 <= hi a < 2 ^ 64 -> 0 <= lo a < 2 ^ 64 ->
  addrVal a < 2 ^ ipListParseBits a -> wfAddr a.
Proof. unfold wfAddr, addrVal, ipListParseBits. destruct (v6 a); lia. Qed.

Lemma addrVal_inj a b : wfAddr a -> wfAddr b -> v6 a = v6 b -> addrVal a = addrVal b -> a = b.
Proof.
  intros Ha Hb Hv. apply wfAddr_halves in Ha, Hb. unfold addrVal. intros E.
  destruct a as [va ha la], b as [vb hb lb]; simpl in *. subst. f_equal; lia.
Qed.

Lemma ipListParseLess_spec a b : wfAddr a -> wfAddr b ->
  ipListParseLess a b = (addrVal a <? addrVal b).
Proof.
  intros Ha Hb. apply wfAddr_halves in Ha, Hb. unfold ipListParseLess, addrVal.
  destruct (hi a =? hi b) eqn:E; simpl; zbool; apply eq_true_iff_eq; rewrite !Z.ltb_lt; lia.
Qed.

(** ** Alignment and size of one step *)

Lemma posCountrZero_nonneg p : 0 <= posCountrZero p.
Proof. induction p; cbn -[Z.add]; lia. Qed.

Lemma posCountrZero_spec p : exists q, Z.pos p = (2 * q + 1) * 2 ^ posCountrZero p /\ 0 <= q.
Proof.
  induction p as [p _|p (q & E & Hq)|].
  - exists (Z.pos p). change (posCountrZero p~1) with 0. rewrite Z.pow_0_r, Pos2Z.inj_xI. lia.
  - exists q. change (posCountrZero p~0) with (1 + posCountrZero p).
    assert (0 <= posCountrZero p) by apply posCountrZero_nonneg.
    rewrite Z.pow_add_r, Pos2Z.inj_xO, E by lia. split; [ring|done].
  - exists 0. simpl. lia.
Qed.

Lemma countrZero_spec z : 0 < z ->
  exists q, z = (2 * q + 1) * 2 ^ countrZero z /\ 0 <= q /\ 0 <= countrZero z.
Proof.
  intros Hz. destruct z as [|p|p]; try lia. destruct (posCountrZero_spec p) as (q & E & Hq).
  exists q. repeat split; try done. apply posCountrZero_nonneg.
Qed.

(** [k] is the exact two-adic valuation of [z], capped for zero. *)
Definition valuation (z k : Z) : Prop :=
  0 <= k /\ (2 ^ k | z) /\ (z = 0 /\ k = 128 \/ z <> 0 /\ ~ (2 ^ (k + 1) | z)).

Lemma valuation_odd q k : 0 <= k -> 0 <= q -> valuation ((2 * q + 1) * 2 ^ k) k.
Proof.
  intros Hk Hq. pose proof (Z.pow_pos_nonneg 2 k ltac:(lia) Hk) as Hp.
  split; [done|]. split; [by exists (2 * q + 1)|]. right. split.
  - apply Z.neq_mul_0. lia.
  - intros [r E]. rewrite Z.pow_add_r in E by lia.
    assert (2 * q + 1 = 2 * r); [|lia].
    apply (Z.mul_reg_r _ _ (2 ^ k)); lia.
Qed.

Definition stepAlign (first : IpListParseAddr) : Z :=
  if negb (lo first =? 0) then countrZero (lo first)
  else if negb (hi first =? 0) then 64 + countrZero (hi first) else 128.

Lemma stepAlign_spec a : wfAddr a -> valuation (addrVal a) (stepAlign a).
Proof.
  intros Ha. apply wfAddr_halves in Ha as [Hh Hl]. unfold stepAlign, addrVal.
  destruct (lo a =? 0) eqn:El; simpl; zbool.
  - destruct (hi a =? 0) eqn:Eh; simpl; zbool.
    + rewrite El, Eh. split; [lia|]. split; [apply Z.divide_0_r|]. left. lia.
    + destruct (countrZero_spec (hi a)) as (q & E & Hq & Hc); [lia|].
      rewrite El, Z.add_0_r, E. rewrite <- E at 2. clear E.
      replace ((2 * q + 1) * 2 ^ countrZero (hi a) * 2 ^ 64)
        with ((2 * q + 1) * 2 ^ (64 + countrZero (hi a))) by (rewrite Z.pow_add_r by lia; ring).
      apply valuation_odd; lia.
  - destruct (countrZero_spec (lo a)) as (q & E & Hq & Hc); [lia|].
    remember (countrZero (lo a)) as c eqn:Ec. clear Ec.
    assert (c < 64).
    { destruct (decide (c < 64)) as [?|Hge]; [done|]. exfalso.
      assert (2 ^ 64 <= 2 ^ c) by (apply Z.pow_le_mono_r; lia). nia. }
    replace (hi a * 2 ^ 64 + lo a) with ((2 * (hi a * 2 ^ (63 - c) + q) + 1) * 2 ^ c).
    + apply valuation_odd; [done|].
      pose proof (Z.pow_nonneg 2 (63 - c) ltac:(lia)). nia.
    + replace (2 ^ 64) with (2 * (2 ^ (63 - c) * 2 ^ c))
        by (rewrite <- Z.pow_add_r by lia; replace (63 - c + c) with 63 by lia; lia).
      rewrite E. ring.
Qed.

Definition stepFit (first last : IpListParseAddr) : Z :=
  let diffLo := wrap64 (lo last - lo first) in
  let diffHi := wrap64 (hi last - hi first - (if lo last <? lo first then 1 else 0)) in
  let sizeLo := wrap64 (diffLo + 1) in
  let sizeHi := wrap64 (diffHi + (if sizeLo =? 0 then 1 else 0)) in
  if negb (sizeHi =? 0) then 64 + bitWidth sizeHi - 1 else bitWidth sizeLo - 1.

Lemma coverStepK_eq first last :
  coverStepK first last
  = Z.min (Z.min (stepAlign first) (ipListParseBits first)) (stepFit first last).
Proof. reflexivity. Qed.

(** The two-halves subtraction and increment compute the size of the range. *)
Lemma stepFit_spec a b : wfAddr a -> wfAddr b -> addrVal a <= addrVal b ->
  addrVal b - addrVal a + 1 < 2 ^ 128 ->
  stepFit a b = Z.log2 (addrVal b - addrVal a + 1).
Proof.
  intros Ha Hb Hle Hlt. apply wfAddr_halves in Ha as [Hah Hal], Hb as [Hbh Hbl].
  unfold addrVal in *. unfold stepFit.
  set (dl := wrap64 (lo b - lo a)).
  set (dh := wrap64 (hi b - hi a - (if lo b <? lo a then 1 else 0))).
  assert (Hd : hi b * 2 ^ 64 + lo b - (hi a * 2 ^ 64 + lo a) = dh * 2 ^ 64 + dl
               /\ 0 <= dl < 2 ^ 64 /\ 0 <= dh < 2 ^ 64).
  { subst dl dh. unfold wrap64. destruct (lo b <? lo a) eqn:E; zbool.
    - rewrite (Z.mod_small (hi b - hi a - 1)) by lia.
      replace ((lo b - lo a) mod 2 ^ 64) with (lo b - lo a + 2 ^ 64); [lia|].
      rewrite <- (Z.mod_add _ 1) by lia. rewrite Z.mod_small; lia.
    - rewrite !Z.mod_small by lia. lia. }
  clearbody dl dh. destruct Hd as (Hd & Hdl & Hdh). rewrite Hd in *.
  destruct (decide (dl = 2 ^ 64 - 1)) as [->|Hn].
  - replace (wrap64 (2 ^ 64 - 1 + 1)) with 0 by reflexivity. simpl (0 =? 0).
    rewrite wrap64_small by lia. replace (dh + 1 =? 0) with false by lia. cbn [negb].
    unfold bitWidth. replace (dh + 1 =? 0) with false by lia.
    replace (dh * 2 ^ 64 + (2 ^ 64 - 1) + 1) with ((dh + 1) * 2 ^ 64 + 0) by ring.
    rewrite log2_split by lia. lia.
  - rewrite (wrap64_small (dl + 1)) by lia. replace (dl + 1 =? 0) with false by lia.
    rewrite Z.add_0_r, wrap64_small by lia. unfold bitWidth.
    destruct (dh =? 0) eqn:E; cbn [negb]; zbool.
    + replace (dl + 1 =? 0) with false by lia. subst. rewrite Z.mul_0_l, Z.add_0_l. lia.
    + rewrite <- Z.add_assoc, log2_split by lia. lia.
Qed.

(** ** One iteration *)

Lemma divide_lo a k : 0 <= k <= 64 -> (2 ^ k | addrVal a) -> (2 ^ k | lo a).
Proof.
  unfold addrVal. intros Hk H. apply (Z.divide_add_cancel_r _ (hi a * 2 ^ 64)); [|done].
  apply Z.divide_mul_r. exists (2 ^ (64 - k)). rewrite <- Z.pow_add_r by lia. f_equal. lia.
Qed.

Lemma divide_hi a k : 64 <= k -> 0 <= lo a < 2 ^ 64 -> (2 ^ k | addrVal a) ->
  lo a = 0 /\ (2 ^ (k - 64) | hi a).
Proof.
  unfold addrVal. intros Hk Hl [q E].
  assert (Hs : 2 ^ k = 2 ^ (k - 64) * 2 ^ 64) by (rewrite <- Z.pow_add_r by lia; f_equal; lia).
  rewrite Hs in E.
  assert (E' : hi a * 2 ^ 64 + lo a = (q * 2 ^ (k - 64)) * 2 ^ 64) by (rewrite E; ring).
  generalize dependent (q * 2 ^ (k - 64)). intros w Hw.
  split; [lia|]. exists q. lia.
Qed.

Lemma wrap64_shift1 k : 0 <= k < 64 -> wrap64 (Z.shiftl 1 k) = 2 ^ k.
Proof.
  intros Hk. rewrite Z.shiftl_1_l. apply wrap64_small. split; [lia|]. apply Z.pow_lt_mono_r; lia.
Qed.

Lemma coverBlockEnd_val a k : wfAddr a -> 0 <= k < 128 -> (2 ^ k | addrVal a) ->
  v6 (coverBlockEnd a k) = v6 a /\ addrVal (coverBlockEnd a k) = addrVal a + 2 ^ k - 1 /\
  hi a <= hi (coverBlockEnd a k) /\ 0 <= lo (coverBlockEnd a k) < 2 ^ 64.
Proof.
  intros Ha Hk Hdiv. apply wfAddr_halves in Ha as [Hh Hl].
  pose proof (divide_lo a k) as Hlo. pose proof (divide_hi a k) as Hhi.
  unfold coverBlockEnd, max_u64.
  destruct (64 <=? k) eqn:E64; zbool.
  - destruct (Hhi E64 Hl Hdiv) as [Hl0 Hd].
    assert (Hs : 2 ^ k = 2 ^ (k - 64) * 2 ^ 64) by (rewrite <- Z.pow_add_r by lia; f_equal; lia).
    unfold addrVal. destruct (64 <? k) eqn:Ek; zbool; simpl.
    + rewrite wrap64_shift1 by lia. rewrite lor_low_ones by (done || lia).
      pose proof (Z.pow_pos_nonneg 2 (k - 64) ltac:(lia) ltac:(lia)). repeat split; try lia.
    + replace k with 64 by lia. repeat split; lia.
  - unfold addrVal. destruct (0 <? k) eqn:Ek; zbool; simpl.
    + rewrite wrap64_shift1 by lia. destruct (Hlo ltac:(lia) Hdiv) as [q Hq].
      rewrite lor_low_ones by (done || lia || by exists q).
      assert (Hp : 2 ^ 64 = 2 ^ (64 - k) * 2 ^ k) by (rewrite <- Z.pow_add_r by lia; f_equal; lia).
      pose proof (Z.pow_pos_nonneg 2 k). assert (q < 2 ^ (64 - k)) by nia.
      assert (lo a + 2 ^ k <= 2 ^ 64) by nia. repeat split; lia.
    + replace k with 0 by lia. repeat split; lia.
Qed.

Lemma coverNext_val a e : v6 e = v6 a -> 0 <= hi e -> 0 <= lo e < 2 ^ 64 ->
  addrVal e + 1 < 2 ^ ipListParseBits a -> wfAddr (coverNext a e) /\
  v6 (coverNext a e) = v6 a /\ addrVal (coverNext a e) = addrVal e + 1.
Proof.
  intros Hv Hh Hl. unfold coverNext, wfAddr, addrVal, ipListParseBits. simpl.
  destruct (decide (lo e = 2 ^ 64 - 1)) as [->|Hne].
  - change (wrap64 (2 ^ 64 - 1 + 1)) with 0. simpl (0 =? 0). destruct (v6 a); intros Hlt.
    + rewrite wrap64_small by lia. lia.
    + lia.
  - rewrite (wrap64_small (lo e + 1)) by lia. replace (lo e + 1 =? 0) with false by lia.
    rewrite Z.add_0_r. destruct (v6 a); intros Hlt; rewrite wrap64_small by lia; lia.
Qed.

(** What one iteration chooses: an aligned block inside the range, maximal in
    that it fills the range or the next larger block would not be aligned. *)
Lemma coverStepK_spec a b : wfAddr a -> wfAddr b -> v6 a = v6 b -> addrVal a <= addrVal b ->
  addrVal b - addrVal a + 1 < 2 ^ ipListParseBits a ->
  let k := coverStepK a b in
  let size := addrVal b - addrVal a + 1 in
  0 <= k < ipListParseBits a /\ (2 ^ k | addrVal a) /\ 2 ^ k <= size /\
  (k = Z.log2 size \/ ~ (2 ^ (k + 1) | addrVal a)).
Proof.
  intros Ha Hb Hv Hle Hlt k size. fold size in Hlt.
  assert (Hbits : ipListParseBits a = 128 \/ ipListParseBits a = 32)
    by (unfold ipListParseBits; destruct (v6 a); auto).
  assert (Hsize : 1 <= size) by (unfold size; lia).
  destruct (Z.log2_spec size ltac:(lia)) as [Hl1 Hl2]. pose proof (Z.log2_nonneg size).
  assert (Z.log2 size < ipListParseBits a) by (apply Z.log2_lt_pow2; lia).
  assert (Hfit : stepFit a b = Z.log2 size).
  { apply stepFit_spec; try done. fold size.
    assert (2 ^ ipListParseBits a <= 2 ^ 128) by (apply Z.pow_le_mono_r; lia). lia. }
  destruct (stepAlign_spec a Ha) as (Hal0 & Hal & Hmax).
  subst k. rewrite coverStepK_eq, Hfit. remember (stepAlign a) as al eqn:Eal. clear Eal.
  set (k := Z.min (Z.min al (ipListParseBits a)) (Z.log2 size)).
  assert (Hk : 0 <= k) by lia. split; [lia|]. split; [|split].
  - apply (Z.divide_trans _ (2 ^ al)); [|done]. exists (2 ^ (al - k)).
    rewrite <- Z.pow_add_r by lia. f_equal. lia.
  - etrans; [|exact Hl1]. apply Z.pow_le_mono_r; lia.
  - destruct (decide (k = Z.log2 size)) as [|Hne]; [by left|]. right.
    destruct Hmax as [[Hz ?]|[_ ?]]; [lia|]. by replace k with al by lia.
Qed.

(** ** The whole loop *)

Definition blockSize (b : IpListParseAddr * Z) : Z := 2 ^ (ipListParseBits (fst b) - snd b).

(** [bl] lists aligned blocks, in order and without gap or overlap, from the
    address [start] up to but excluding [stop]; none is the whole space. *)
Fixpoint tiles (fam : bool) (start : Z) (bl : list (IpListParseAddr * Z)) (stop : Z) : Prop :=
  match bl with
  | [] => start = stop
  | b :: bl' =>
      v6 (fst b) = fam /\ wfAddr (fst b) /\ 0 < snd b <= ipListParseBits (fst b) /\
      addrVal (fst b) = start /\ (blockSize b | start) /\
      tiles fam (start + blockSize b) bl' stop
  end.

Definition inBlock (x : Z) (b : IpListParseAddr * Z) : Prop :=
  addrVal (fst b) <= x < addrVal (fst b) + blockSize b.

Lemma blockSize_pos b : 0 < snd b <= ipListParseBits (fst b) -> 0 < blockSize b.
Proof. intros H. apply Z.pow_pos_nonneg; lia. Qed.

Lemma tiles_le fam start bl stop : tiles fam start bl stop -> start <= stop.
Proof.
  revert start. induction bl as [|b bl IH]; simpl; intros start H; [lia|].
  destruct H as (_ & _ & Hp & _ & _ & H). apply IH in H. pose proof (blockSize_pos b Hp). lia.
Qed.

Lemma tiles_cover fam start bl stop x : tiles fam start bl stop ->
  (start <= x < stop <-> exists b, b ∈ bl /\ inBlock x b).
Proof.
  revert start. induction bl as [|b bl IH]; simpl; intros start H.
  - subst. split; [lia|]. intros (b & Hb & _). by apply elem_of_nil in Hb.
  - destruct H as (_ & _ & Hp & Hv & _ & H). pose proof (blockSize_pos b Hp) as Hpos.
    pose proof (tiles_le _ _ _ _ H). specialize (IH _ H). split.
    + intros Hx. destruct (decide (x < start + blockSize b)) as [Hlt|Hge].
      * exists b. split; [by left|]. unfold inBlock. lia.
      * destruct (proj1 IH) as (c & Hc & Hin); [lia|]. exists c. split; [by right|done].
    + intros (c & Hc & Hin). apply elem_of_cons in Hc as [->|Hc].
      * unfold inBlock in Hin. lia.
      * assert (start + blockSize b <= x < stop) by (apply IH; eauto). lia.
Qed.

(** No address is in two blocks: each lies in exactly one position. *)
Lemma tiles_blocks fam start bl stop : tiles fam start bl stop ->
  Forall (fun b => wfAddr (fst b) /\ v6 (fst b) = fam /\
            0 < snd b <= ipListParseBits (fst b) /\ (blockSize b | addrVal (fst b))) bl.
Proof.
  revert start. induction bl as [|b bl IH]; intros start E; [done|].
  destruct E as (Hf & Hw & Hp & Hst & Hd & E). constructor; [|by eapply IH]. by rewrite Hst.
Qed.

(** Each block ends before the later ones begin. *)
Lemma tiles_ordered fam start bl stop i j b c : tiles fam start bl stop ->
  bl !! i = Some b -> bl !! j = Some c -> (i < j)%nat -> addrVal (fst b) + blockSize b <= addrVal (fst c).
Proof.
  revert start i j. induction bl as [|d bl IH]; simpl; intros start i j H Hi Hj Hij; [done|].
  destruct H as (_ & _ & Hp & Hv & _ & H). destruct j as [|j]; [lia|]. destruct i as [|i]; simpl in Hi, Hj.
  - injection Hi as <-. assert (Hc : inBlock (addrVal (fst c)) c).
    { unfold inBlock. pose proof (tiles_blocks _ _ _ _ H) as Hb. rewrite Forall_forall in Hb.
      destruct (Hb c ltac:(by eapply list_elem_of_lookup_2)) as (_ & _ & Hs & _). pose proof (blockSize_pos c ltac:(lia)). lia. }
    assert (start + blockSize d <= addrVal (fst c) < stop) by (apply (tiles_cover _ _ _ _ _ H); exists c; split; [by eapply list_elem_of_lookup_2|done]). lia.
  - by apply (IH (start + blockSize d) i j H Hi Hj ltac:(lia)).
Qed.

Lemma tiles_disjoint fam start bl stop x i j b c : tiles fam start bl stop ->
  bl !! i = Some b -> bl !! j = Some c -> inBlock x b -> inBlock x c -> i = j.
Proof.
  revert start i j. induction bl as [|d bl IH]; simpl; intros start i j H Hi Hj Hb Hc; [done|].
  destruct H as (_ & _ & Hp & Hv & _ & H). pose proof (tiles_cover _ _ _ _ x H) as Hcov.
  destruct i as [|i], j as [|j]; simpl in *; [done| | |].
  - injection Hi as <-. assert (start + blockSize d <= x < stop).
    { apply Hcov. exists c. split; [by eapply list_elem_of_lookup_2|done]. }
    unfold inBlock in Hb. lia.
  - injection Hj as <-. assert (start + blockSize d <= x < stop).
    { apply Hcov. exists b. split; [by eapply list_elem_of_lookup_2|done]. }
    unfold inBlock in Hc. lia.
  - f_equal. eauto.
Qed.

(** One iteration in terms of values: it emits a block and either ends at
    [last] or moves to the next address, still before [last]. *)
Lemma coverStep_cases a b : wfAddr a -> wfAddr b -> v6 a = v6 b -> addrVal a <= addrVal b ->
  addrVal b - addrVal a + 1 < 2 ^ ipListParseBits a ->
  let k := coverStepK a b in
  let e := coverBlockEnd a k in
  let done := (hi e =? hi b) && (lo e =? lo b) in
  (done = true /\ addrVal a + 2 ^ k = addrVal b + 1) \/
  (done = false /\ wfAddr (coverNext a e) /\ v6 (coverNext a e) = v6 a /\
   addrVal (coverNext a e) = addrVal a + 2 ^ k /\ addrVal a + 2 ^ k <= addrVal b).
Proof.
  intros Ha Hb Hv Hle Hlt k e don.
  assert (Hbits : ipListParseBits a = 128 \/ ipListParseBits a = 32)
    by (unfold ipListParseBits; destruct (v6 a); auto).
  destruct (coverStepK_spec a b Ha Hb Hv Hle Hlt) as (Hk & Hdiv & Hsz & _). fold k in Hk, Hdiv, Hsz.
  destruct (coverBlockEnd_val a k) as (Hev & Heval & Hehi & Helo); [done|lia|done|].
  fold e in Hev, Heval, Hehi, Helo.
  pose proof (wfAddr_halves a Ha). pose proof (wfAddr_halves b Hb) as [Hbh Hbl].
  destruct don eqn:Ed; unfold don in Ed.
  - left. zbool. split; [done|]. unfold addrVal in *. lia.
  - right. split; [done|].
    assert (addrVal e <> addrVal b).
    { intros E. unfold addrVal in E. assert (hi e = hi b /\ lo e = lo b) as [E1 E2] by lia.
      by rewrite E1, E2, !Z.eqb_refl in Ed. }
    pose proof (addrVal_bound b Hb) as Hbb. unfold ipListParseBits in Hbb. rewrite <- Hv in Hbb.
    destruct (coverNext_val a e) as (Hw & Hnv & Hval); [done|lia|done| |].
    + unfold ipListParseBits. lia.
    + repeat split; try done; lia.
Qed.

Lemma coverLoop_tiles fuel a b bl : wfAddr a -> wfAddr b -> v6 a = v6 b ->
  addrVal a <= addrVal b -> addrVal b - addrVal a + 1 < 2 ^ ipListParseBits a ->
  coverLoop fuel a b = Some bl -> tiles (v6 a) (addrVal a) bl (addrVal b + 1).
Proof.
  revert a bl. induction fuel as [|fuel IH]; intros a bl Ha Hb Hv Hle Hlt H; [done|].
  simpl in H. destruct (coverStepK_spec a b Ha Hb Hv Hle Hlt) as (Hk & Hdiv & Hsz & _).
  destruct (coverStep_cases a b Ha Hb Hv Hle Hlt) as [[Hd Hend]|(Hd & Hw & Hnv & Hval & Hnle)];
    rewrite Hd in H.
  - injection H as <-. simpl. unfold blockSize. simpl.
    replace (ipListParseBits a - (ipListParseBits a - coverStepK a b)) with (coverStepK a b) by lia.
    repeat split; try done; lia.
  - destruct (coverLoop fuel _ b) as [bl'|] eqn:E; [|done]. injection H as <-.
    apply IH in E; try done; try congruence; try lia.
    + simpl. unfold blockSize. simpl.
      replace (ipListParseBits a - (ipListParseBits a - coverStepK a b)) with (coverStepK a b) by lia.
      rewrite Hnv, Hval in E. repeat split; try done; lia.
    + unfold ipListParseBits in *. rewrite Hnv.
      pose proof (Z.pow_pos_nonneg 2 (coverStepK a b)). lia.
Qed.

(** A region of 2^32 addresses that neither end lies in is not cut up. *)
Lemma coverLoop_whole fuel a b bl R : wfAddr a -> wfAddr b -> v6 a = v6 b ->
  addrVal a <= addrVal b -> addrVal b - addrVal a + 1 < 2 ^ ipListParseBits a ->
  coverLoop fuel a b = Some bl -> (2 ^ 32 | R) -> ~ R < addrVal a < R + 2 ^ 32 -> ~ R <= addrVal b < R + 2 ^ 32 ->
  Forall (fun c => R <= addrVal (fst c) < R + 2 ^ 32 -> 2 ^ 32 <= blockSize c) bl.
Proof.
  revert a bl. induction fuel as [|fuel IH]; intros a bl Ha Hb Hv Hle Hlt H HR Hna Hnb; [done|].
  simpl in H. destruct (coverStepK_spec a b Ha Hb Hv Hle Hlt) as (Hk & Hdiv & Hsz & Hmax).
  set (k := coverStepK a b) in *.
  assert (Hhead : R <= addrVal a < R + 2 ^ 32 -> 2 ^ 32 <= 2 ^ k).
  { intros Hin. assert (Ea : addrVal a = R) by lia. apply Z.pow_le_mono_r; [lia|].
    destruct (decide (32 <= k)) as [|Hk32]; [done|]. exfalso. destruct Hmax as [Hlog|Hnd].
    - assert (32 <= Z.log2 (addrVal b - addrVal a + 1)); [|lia]. apply Z.log2_le_pow2; lia.
    - apply Hnd. rewrite Ea. apply (Z.divide_trans _ (2 ^ 32)); [|done]. exists (2 ^ (32 - (k + 1))).
      rewrite <- Z.pow_add_r by lia. f_equal. lia. }
  assert (Hsize : blockSize (a, ipListParseBits a - k) = 2 ^ k) by (unfold blockSize; simpl; f_equal; lia).
  destruct (coverStep_cases a b Ha Hb Hv Hle Hlt) as [[Hd Hend]|(Hd & Hw & Hnv & Hval & Hnle)]; fold k in Hd; rewrite Hd in H.
  - injection H as <-. constructor; [by rewrite Hsize|constructor].
  - fold k in Hw, Hnv, Hval, Hnle. destruct (coverLoop fuel _ b) as [bl'|] eqn:E; [|done]. injection H as <-. constructor; [by rewrite Hsize|].
    apply IH in E; try done; try congruence; try lia.
    + unfold ipListParseBits in *. rewrite Hnv. pose proof (Z.pow_pos_nonneg 2 k). lia.
    + rewrite Hval. intros Hin. destruct (decide (addrVal a <= R)) as [Hr|Hr]; [|lia].
      destruct (decide (addrVal a = R)) as [Heq|Hne]; [specialize (Hhead ltac:(lia)); lia|].
      (* a block that begins before R and ends inside the region *)
      destruct (decide (32 <= k)) as [Hk32|Hk32].
      * assert (Hd32 : (2 ^ 32 | addrVal a + 2 ^ k)).
        { apply (Z.divide_trans _ (2 ^ k)); [exists (2 ^ (k - 32)); rewrite <- Z.pow_add_r by lia; f_equal; lia|].
          apply Z.divide_add_r; [done|apply Z.divide_refl]. }
        destruct HR as [r ->]. destruct Hd32 as [q Hq]. nia.
      * assert (HdR : (2 ^ k | R)).
        { apply (Z.divide_trans _ (2 ^ 32)); [|done]. exists (2 ^ (32 - k)). rewrite <- Z.pow_add_r by lia. f_equal. lia. }
        destruct HdR as [r Hr']. destruct Hdiv as [q Hq].
        pose proof (Z.pow_pos_nonneg 2 k ltac:(lia) ltac:(lia)) as HP. assert (q < r) by nia. nia.
Qed.

(** ** Termination *)

Lemma valuation_max z k j : valuation z k -> 0 <= j <= 128 -> (2 ^ j | z) -> j <= k.
Proof.
  intros (Hk & _ & [[_ ->]|[_ Hn]]) Hj Hd; [lia|].
  destruct (decide (j <= k)) as [|Hgt]; [done|]. exfalso. apply Hn.
  apply (Z.divide_trans _ (2 ^ j)); [|done]. exists (2 ^ (j - (k + 1))).
  rewrite <- Z.pow_add_r by lia. f_equal. lia.
Qed.

(** First the blocks grow with the alignment of their start, then they shrink
    with the size of what is left. *)
Definition coverRank (a b : IpListParseAddr) : Z :=
  let al := Z.min (stepAlign a) (ipListParseBits a) in
  let s := Z.log2 (addrVal b - addrVal a + 1) in
  if al <=? s then 256 - al else s.

Lemma divide_succ_pow z k : 0 <= k -> (2 ^ k | z) -> ~ (2 ^ (k + 1) | z) ->
  (2 ^ (k + 1) | z + 2 ^ k).
Proof.
  intros Hk [q ->] Hn. rewrite Z.pow_add_r in * by lia. change (2 ^ 1) with 2 in *.
  destruct (Z.Even_or_Odd q) as [[r Hr]|[r Hr]].
  - exfalso. apply Hn. exists r. rewrite Hr. ring.
  - exists (r + 1). rewrite Hr. ring.
Qed.

Lemma coverRank_bound a b : wfAddr a -> wfAddr b -> v6 a = v6 b -> addrVal a <= addrVal b ->
  addrVal b - addrVal a + 1 < 2 ^ ipListParseBits a -> 0 <= coverRank a b <= 256.
Proof.
  intros Ha Hb Hv Hle Hlt. unfold coverRank.
  destruct (stepAlign_spec a Ha) as (Hal0 & _ & _).
  pose proof (Z.log2_nonneg (addrVal b - addrVal a + 1)).
  assert (Hbits : ipListParseBits a = 128 \/ ipListParseBits a = 32)
    by (unfold ipListParseBits; destruct (v6 a); auto).
  assert (Z.log2 (addrVal b - addrVal a + 1) < ipListParseBits a) by (apply Z.log2_lt_pow2; lia).
  destruct (_ <=? _); lia.
Qed.

Lemma coverRank_decreases a a' b : wfAddr a -> wfAddr a' -> wfAddr b -> v6 a = v6 b ->
  v6 a' = v6 a -> addrVal a <= addrVal b ->
  addrVal b - addrVal a + 1 < 2 ^ ipListParseBits a ->
  addrVal a' = addrVal a + 2 ^ coverStepK a b -> addrVal a' <= addrVal b ->
  coverRank a' b < coverRank a b.
Proof.
  intros Ha Ha' Hb Hv Hv' Hle Hlt Hval Hle'.
  destruct (coverStepK_spec a b Ha Hb Hv Hle Hlt) as (Hk & Hdiv & Hsz & _).
  destruct (stepAlign_spec a Ha) as (Hal0 & Hal & Hmax).
  pose proof (stepAlign_spec a' Ha') as Hal'. pose proof (proj1 Hal') as Hal0'.
  assert (Hbits : ipListParseBits a = 128 \/ ipListParseBits a = 32)
    by (unfold ipListParseBits; destruct (v6 a); auto).
  assert (Hbits' : ipListParseBits a' = ipListParseBits a)
    by (unfold ipListParseBits; by rewrite Hv').
  assert (Hfit : stepFit a b = Z.log2 (addrVal b - addrVal a + 1)).
  { apply stepFit_spec; try done.
    assert (2 ^ ipListParseBits a <= 2 ^ 128) by (apply Z.pow_le_mono_r; lia). lia. }
  assert (Hkeq := coverStepK_eq a b). rewrite Hfit in Hkeq.
  remember (coverStepK a b) as k eqn:Ek. clear Ek.
  unfold coverRank. rewrite Hbits'.
  set (s := Z.log2 (addrVal b - addrVal a + 1)) in *.
  set (s' := Z.log2 (addrVal b - addrVal a' + 1)).
  assert (Hs : s < ipListParseBits a) by (apply Z.log2_lt_pow2; lia).
  assert (Hs' : s' <= s) by (apply Z.log2_le_mono; pose proof (Z.pow_pos_nonneg 2 k); lia).
  assert (0 <= s') by apply Z.log2_nonneg.
  assert (Hd' : (2 ^ k | addrVal a')) by (rewrite Hval; apply Z.divide_add_r; [done|apply Z.divide_refl]).
  destruct (Z.min (stepAlign a) (ipListParseBits a) <=? s) eqn:Er; zbool.
  - (* rising: the alignment grows *)
    assert (k = stepAlign a) as Hka by lia.
    assert (Hgrow : (2 ^ (k + 1) | addrVal a')).
    { rewrite Hval. apply divide_succ_pow; [lia|done|]. rewrite Hka.
      destruct Hmax as [[Hz H128]|[_ Hn]]; [lia|done]. }
    apply (valuation_max _ _ _ Hal') in Hgrow; [|lia].
    destruct (_ <=? s') eqn:Er'; zbool; lia.
  - (* falling: the rest is smaller than the block just taken *)
    assert (k = s) as Hks by lia.
    apply (valuation_max _ _ _ Hal') in Hd'; [|lia].
    assert (s' < s).
    { apply Z.log2_lt_pow2; [lia|].
      destruct (Z.log2_spec (addrVal b - addrVal a + 1)) as [_ H2]; [lia|]. fold s in H2.
      rewrite Z.pow_succ_r in H2 by lia. rewrite Hval, Hks. lia. }
    destruct (_ <=? s') eqn:Er'; zbool; lia.
Qed.

Lemma coverLoop_total fuel a b : wfAddr a -> wfAddr b -> v6 a = v6 b ->
  addrVal a <= addrVal b -> addrVal b - addrVal a + 1 < 2 ^ ipListParseBits a ->
  coverRank a b < Z.of_nat fuel -> exists bl, coverLoop fuel a b = Some bl.
Proof.
  revert a. induction fuel as [|fuel IH]; intros a Ha Hb Hv Hle Hlt Hr.
  { pose proof (coverRank_bound a b Ha Hb Hv Hle Hlt). lia. }
  simpl. destruct (coverStep_cases a b Ha Hb Hv Hle Hlt)
    as [[Hd Hend]|(Hd & Hw & Hnv & Hval & Hnle)]; rewrite Hd; [by eexists|].
  pose proof (coverStepK_spec a b Ha Hb Hv Hle Hlt) as (Hk & _ & _ & _).
  edestruct IH as [bl ->]; [exact Hw|done|congruence| | | |by eexists].
  - lia.
  - unfold ipListParseBits in *. rewrite Hnv. pose proof (Z.pow_pos_nonneg 2 (coverStepK a b)). lia.
  - enough (coverRank (coverNext a (coverBlockEnd a (coverStepK a b))) b < coverRank a b) by lia.
    apply coverRank_decreases; try done. lia.
Qed.

(** What is not refused is smaller than the whole space. *)
Lemma coverBlocks_loop first last bl : wfAddr first -> wfAddr last -> v6 first = v6 last -> addrVal first <= addrVal last ->
  coverBlocks first last = Some bl ->
  addrVal last - addrVal first + 1 < 2 ^ ipListParseBits first /\ coverLoop coverFuel first last = Some bl.
Proof.
  intros Ha Hb Hv Hle. unfold coverBlocks. destruct (_ && _ && _ && _) eqn:Ew; [done|]. intros E. split; [|done].
  pose proof (wfAddr_halves first Ha). pose proof (wfAddr_halves last Hb). pose proof (addrVal_bound last Hb) as Hbb.
  destruct (decide (addrVal first = 0 /\ addrVal last = 2 ^ ipListParseBits first - 1)) as [[E1 E2]|Hn].
  - exfalso. revert Ew. unfold addrVal, ipListParseBits, wfAddr, max_u64 in *. rewrite Hv in *.
    destruct (v6 last); rewrite !andb_false_iff, !Z.eqb_neq; lia.
  - assert (ipListParseBits first = ipListParseBits last) as Eb by (unfold ipListParseBits; by rewrite Hv).
    pose proof (addrVal_bound first Ha). rewrite Eb in *. lia.
Qed.

Lemma coverBlocks_whole first last bl R : wfAddr first -> wfAddr last -> v6 first = v6 last -> addrVal first <= addrVal last ->
  coverBlocks first last = Some bl -> (2 ^ 32 | R) -> ~ R <= addrVal first < R + 2 ^ 32 -> ~ R <= addrVal last < R + 2 ^ 32 ->
  Forall (fun c => R <= addrVal (fst c) < R + 2 ^ 32 -> 2 ^ 32 <= blockSize c) bl.
Proof.
  intros Ha Hb Hv Hle E HR Hf Hl. destruct (coverBlocks_loop first last bl Ha Hb Hv Hle E) as [Hlt Hloop].
  apply (coverLoop_whole _ _ _ _ _ Ha Hb Hv Hle Hlt Hloop HR); lia.
Qed.

(** The loop either refuses the whole space or returns tiles. *)
Lemma coverBlocks_tiles first last :
  wfAddr first -> wfAddr last -> v6 first = v6 last -> addrVal first <= addrVal last ->
  match coverBlocks first last with
  | None => addrVal first = 0 /\ addrVal last = 2 ^ ipListParseBits first - 1
  | Some bl => tiles (v6 first) (addrVal first) bl (addrVal last + 1)
  end.
Proof.
  intros Ha Hb Hv Hle. unfold coverBlocks.
  pose proof (addrVal_bound last Hb) as Hbb.
  destruct (_ && _ && _ && _) eqn:Ew.
  - zbool. unfold addrVal, ipListParseBits in *. destruct (v6 first); unfold max_u64 in *; lia.
  - assert (Hlt : addrVal last - addrVal first + 1 < 2 ^ ipListParseBits first).
    { pose proof (wfAddr_halves first Ha). pose proof (wfAddr_halves last Hb).
      destruct (decide (addrVal first = 0 /\ addrVal last = 2 ^ ipListParseBits first - 1))
        as [[E1 E2]|Hn].
      - exfalso. revert Ew. unfold addrVal, ipListParseBits, wfAddr, max_u64 in *. rewrite Hv in *.
        destruct (v6 last); rewrite !andb_false_iff, !Z.eqb_neq; lia.
      - assert (ipListParseBits first = ipListParseBits last) as Eb
          by (unfold ipListParseBits; by rewrite Hv).
        pose proof (addrVal_bound first Ha). rewrite Eb in *. lia. }
    destruct (coverLoop_total coverFuel first last) as [bl E]; try done.
    { pose proof (coverRank_bound first last Ha Hb Hv Hle Hlt). unfold coverFuel. lia. }
    rewrite E. by apply coverLoop_tiles in E.
Qed.

Lemma coverBlocks_wf first last bl :
  wfAddr first -> wfAddr last -> v6 first = v6 last -> addrVal first <= addrVal last ->
  coverBlocks first last = Some bl ->
  Forall (fun b => wfAddr (fst b) /\ 0 < snd b <= ipListParseBits (fst b) /\ (blockSize b | addrVal (fst b)) /\ v6 (fst b) = v6 first) bl.
Proof.
  intros Ha Hb Hv Hle E. pose proof (coverBlocks_tiles first last Ha Hb Hv Hle) as H.
  rewrite E in H. eapply Forall_impl; [by eapply tiles_blocks|]. by intros b (? & ? & ? & ?).
Qed.

(** ** The property *)

(** C4: The range splitter is exact: for a range of one family that is not the
    whole address space it returns aligned blocks whose union is the range and
    which follow each other in ascending order without overlap; it refuses only
    the whole space. *)
Theorem coverBlocks_exact first last :
  wfAddr first -> wfAddr last -> v6 first = v6 last -> addrVal first <= addrVal last ->
  match coverBlocks first last with
  | None => addrVal first = 0 /\ addrVal last = 2 ^ ipListParseBits first - 1
  | Some bl =>
      (forall x, addrVal first <= x <= addrVal last <-> exists b, b ∈ bl /\ inBlock x b) /\
      (forall x i j b c, bl !! i = Some b -> bl !! j = Some c ->
         inBlock x b -> inBlock x c -> i = j) /\
      (forall i j b c, bl !! i = Some b -> bl !! j = Some c -> (i < j)%nat -> addrVal (fst b) + blockSize b <= addrVal (fst c)) /\
      Forall (fun b => wfAddr (fst b) /\ v6 (fst b) = v6 first /\
                0 < snd b <= ipListParseBits (fst b) /\ (blockSize b | addrVal (fst b))) bl
  end.
Proof.
  intros Ha Hb Hv Hle. pose proof (coverBlocks_tiles first last Ha Hb Hv Hle) as E.
  destruct (coverBlocks first last) as [bl|]; [|done]. split; [|split; [|split]].
  - intros x. rewrite <- (tiles_cover _ _ _ _ x E). lia.
  - intros x i j b c. by apply (tiles_disjoint _ _ _ _ x i j b c E).
  - intros i j b c. by apply (tiles_ordered _ _ _ _ i j b c E).
  - by eapply tiles_blocks.
Qed.

Lemma coverBlocks_exact_witness :
  coverBlocks (mkAddr false 0 167772161) (mkAddr false 0 167772169)
  = Some [(mkAddr false 0 167772161, 32); (mkAddr false 0 167772162, 31);
          (mkAddr false 0 167772164, 30); (mkAddr false 0 167772168, 31)] /\
  forall x, 167772161 <= x <= 167772169 <->
    exists b, b ∈ [(mkAddr false 0 167772161, 32); (mkAddr false 0 167772162, 31);
          (mkAddr false 0 167772164, 30); (mkAddr false 0 167772168, 31)] /\ inBlock x b.
Proof.
  split; [vm_compute; reflexivity|].
  pose proof (coverBlocks_exact (mkAddr false 0 167772161) (mkAddr false 0 167772169)) as H.
  assert (E : coverBlocks (mkAddr false 0 167772161) (mkAddr false 0 167772169)
    = Some [(mkAddr false 0 167772161, 32); (mkAddr false 0 167772162, 31);
          (mkAddr false 0 167772164, 30); (mkAddr false 0 167772168, 31)])
    by (vm_compute; reflexivity).
  rewrite E in H. apply H; unfold wfAddr, addrVal; simpl; lia.
Defined.
