(* ===== verification/IpListText.v ===== *)
(** * IpListText: addresses and networks survive the trip through text

    Printing an address and parsing it gives the address back, and
    [NormalizeCidr] is a normal form: idempotent, and equal texts exactly for
    equal networks. *)

From stdpp Require Import base list strings.
From Stdlib Require Import ZArith Lia Bool.
From S2P Require Import Prelude IpListParse IpListRange.

(** ** Decimal numbers *)

Definition isDigit (c : Z) : Prop := 48 <= c <= 57.
Definition isHexLower (c : Z) : Prop := 48 <= c <= 57 \/ 97 <= c <= 102.

Lemma digitChar_dec d : 0 <= d < 10 -> digitChar d = 48 + d.
Proof. intros H. unfold digitChar. by replace (d <? 10) with true by lia. Qed.

Lemma digitChar_hex d : 0 <= d < 16 -> isHexLower (digitChar d).
Proof. intros H. unfold digitChar, isHexLower. destruct (d <? 10) eqn:E; zbool; lia. Qed.

Lemma number_isDigit n : 0 <= n -> Forall isDigit (number n).
Proof.
  intros Hn. rewrite number_digits by done. apply digits_forall; [lia|done|].
  intros d Hd. rewrite digitChar_dec by done. unfold isDigit. lia.
Qed.

Lemma number_nonempty n : 0 <= n -> number n <> [].
Proof. intros Hn. rewrite number_digits by done. by apply digits_nonempty. Qed.

Lemma number_length n k : 0 <= n -> n < 10 ^ Z.of_nat k -> (0 < k)%nat -> zlen (number n) <= Z.of_nat k.
Proof.
  intros Hn Hk Hk0. unfold zlen. rewrite number_digits by done.
  apply inj_le. by apply digits_length.
Qed.

Lemma number_no_leading_zero n : 0 <= n ->
  (1 <? zlen (number n)) && startsWithChar c0 (number n) = false.
Proof.
  intros Hn. rewrite number_digits by done.
  destruct (decide (n < 10)) as [Hlt|Hge].
  - by rewrite digits_small by lia.
  - apply andb_false_iff. right. destruct (digits_head 10 n) as (d & Hd & E); [lia|lia|].
    destruct (digits 10 n) as [|c s]; [done|]. simpl in *. rewrite E, digitChar_dec by lia. lia.
Qed.

Lemma decimalLoop_fold v t : Forall isDigit t ->
  decimalLoop v t = Some (fold_left (fun a c => wrap32 (a * 10 + (c - c0))) t v).
Proof.
  intros Ht. revert v. induction Ht as [|c t Hc Ht IH]; intros v; simpl; [done|].
  unfold isDigit in Hc.
  replace ((c <? 48) || (57 <? c)) with false by lia. apply IH.
Qed.

Lemma ipListParseDecimal_number n k : 0 <= n < 2 ^ 32 -> zlen (number n) <= k ->
  ipListParseDecimal (number n) k = Some n.
Proof.
  intros Hn Hk. unfold ipListParseDecimal.
  rewrite isNil_false by (apply number_nonempty; lia).
  replace (k <? zlen (number n)) with false by lia. cbn [orb]. rewrite decimalLoop_fold by (apply number_isDigit; lia). f_equal.
  rewrite number_digits by lia. apply digits_fold; [lia|lia|].
  intros a d Ha Hd Hle. rewrite digitChar_dec by done. rewrite wrap32_small by lia. lia.
Qed.

Lemma ipListParsePort_number p : 0 <= p <= 65535 -> ipListParsePort (number p) = Some p.
Proof.
  intros Hp. unfold ipListParsePort.
  rewrite ipListParseDecimal_number; [|lia|apply (number_length p 5); lia].
  by replace (65535 <? p) with false by lia.
Qed.

Lemma digits_no_char c t : Forall isDigit t -> (c < 48 \/ 57 < c) -> contains c t = false.
Proof.
  intros Ht Hc. apply contains_false. eapply Forall_impl; [exact Ht|].
  intros x Hx ->. unfold isDigit in Hx. lia.
Qed.

(** ** IPv4 *)

Definition formatV4 (v : Z) : qstr :=
  joinWith cDot (map number [Z.shiftr v 24; Z.land (Z.shiftr v 16) 255;
                             Z.land (Z.shiftr v 8) 255; Z.land v 255]).

Lemma ipListParseFormat_v4 a : v6 a = false -> ipListParseFormat a = formatV4 (wrap32 (lo a)).
Proof. intros H. unfold ipListParseFormat. rewrite H. reflexivity. Qed.

Lemma octets_split v : 0 <= v < 2 ^ 32 -> exists a b c d,
  Z.shiftr v 24 = a /\ Z.land (Z.shiftr v 16) 255 = b /\ Z.land (Z.shiftr v 8) 255 = c /\
  Z.land v 255 = d /\ 0 <= a < 256 /\ 0 <= b < 256 /\ 0 <= c < 256 /\ 0 <= d < 256 /\
  v = ((a * 256 + b) * 256 + c) * 256 + d.
Proof.
  intros Hv. do 4 eexists. repeat split; change 255 with (2 ^ 8 - 1);
  rewrite ?land_low, ?Z.shiftr_div_pow2 by lia; Z.div_mod_to_equations; lia.
Qed.

Lemma v4Loop_octet o rest v n : 0 <= o < 256 -> 0 <= v < 2 ^ 24 -> n + 1 <= 4 ->
  v4Loop (number o :: rest) v n =
  match rest with
  | [] => Some (v * 256 + o, n + 1)
  | _ => v4Loop rest (v * 256 + o) (n + 1)
  end.
Proof.
  intros Ho Hv Hn. cbn [v4Loop].
  rewrite ipListParseDecimal_number; [|lia|apply (number_length o 3); lia].
  replace (255 <? o) with false by lia. rewrite number_no_leading_zero by lia.
  replace (4 <? n + 1) with false by lia. cbv zeta.
  rewrite wrap32_small, lor_shiftl by (rewrite ?Z.shiftl_mul_pow2 by lia; lia). done.
Qed.

Lemma formatV4_parts v : 0 <= v < 2 ^ 32 ->
  Forall (fun p => contains cDot p = false) (map number [Z.shiftr v 24; Z.land (Z.shiftr v 16) 255;
                             Z.land (Z.shiftr v 8) 255; Z.land v 255]).
Proof.
  intros Hv. destruct (octets_split v Hv) as (a & b & c & d & -> & -> & -> & -> & H).
  repeat constructor; apply digits_no_char; (lia || apply number_isDigit; lia).
Qed.

Lemma ipListParseV4_format v : 0 <= v < 2 ^ 32 -> ipListParseV4 (formatV4 v) = Some v.
Proof.
  intros Hv. unfold ipListParseV4, formatV4. rewrite splitOn_join by (done || by apply formatV4_parts).
  destruct (octets_split v Hv) as (a & b & c & d & -> & -> & -> & -> & Ha & Hb & Hc & Hd & E).
  cbn [map]. rewrite v4Loop_octet by lia. rewrite v4Loop_octet by lia.
  rewrite v4Loop_octet by lia. rewrite v4Loop_octet by lia. simpl. f_equal. lia.
Qed.

Definition isV4Char (c : Z) : Prop := isDigit c \/ c = cDot.

Lemma formatV4_chars v : 0 <= v < 2 ^ 32 -> Forall isV4Char (formatV4 v).
Proof.
  intros Hv. unfold formatV4.
  destruct (octets_split v Hv) as (a & b & c & d & -> & -> & -> & -> & H).
  assert (Hn : forall n, 0 <= n -> Forall isV4Char (number n)).
  { intros n Hn. eapply Forall_impl; [by apply number_isDigit|]. by left. }
  simpl. repeat first [apply Forall_app; split | apply Forall_cons; split | by right | apply Hn; lia].
Qed.

(** ** Hexadecimal groups *)

Lemma numberHex_chars g : 0 <= g -> Forall isHexLower (numberHex g).
Proof. intros Hg. apply digits_forall; [lia|done|]. intros d Hd. by apply digitChar_hex. Qed.

Lemma numberHex_nonempty g : 0 <= g -> numberHex g <> [].
Proof. intros Hg. by apply digits_nonempty. Qed.

Lemma hex_no_char c t : Forall isHexLower t -> ~ isHexLower c -> contains c t = false.
Proof.
  intros Ht Hc. apply contains_false. eapply Forall_impl; [exact Ht|]. by intros x Hx ->.
Qed.

Lemma hexDigit_digitChar d : 0 <= d < 16 -> ipListParseHexDigit (digitChar d) = d.
Proof.
  intros Hd. unfold ipListParseHexDigit, digitChar. destruct (d <? 10) eqn:E; zbool.
  - replace ((48 <=? 48 + d) && (48 + d <=? 57)) with true by lia. lia.
  - replace ((48 <=? 87 + d) && (87 + d <=? 57)) with false by lia.
    replace ((97 <=? 87 + d) && (87 + d <=? 102)) with true by lia. lia.
Qed.

Lemma hexLower_digit c : isHexLower c -> 0 <= ipListParseHexDigit c < 16.
Proof.
  unfold isHexLower, ipListParseHexDigit. intros H. repeat break_if; zbool; lia.
Qed.

Lemma hexLoop_fold v t : Forall isHexLower t ->
  hexLoop v t
  = Some (fold_left (fun a c => wrap16 (Z.lor (Z.shiftl a 4) (ipListParseHexDigit c))) t v).
Proof.
  intros Ht. revert v. induction Ht as [|c t Hc Ht IH]; intros v; simpl; [done|].
  apply hexLower_digit in Hc. replace (ipListParseHexDigit c <? 0) with false by lia. apply IH.
Qed.

Lemma hexLoop_numberHex g : 0 <= g < 65536 -> hexLoop 0 (numberHex g) = Some g.
Proof.
  intros Hg. rewrite hexLoop_fold by (apply numberHex_chars; lia). f_equal.
  apply digits_fold; [lia|lia|]. intros a d Ha Hd Hle.
  rewrite hexDigit_digitChar, lor_shiftl, wrap16_small by lia. lia.
Qed.

Lemma numberHex_length g : 0 <= g < 65536 -> zlen (numberHex g) <= 4.
Proof. intros Hg. unfold zlen. pose proof (digits_length 16 g 4). unfold numberHex. lia. Qed.

(** ** IPv6: groups to text and back *)

Definition isGroup (g : Z) : Prop := 0 <= g < 65536.

Definition hexGroups (gs : list Z) : qstr := joinWith cColon (map numberHex gs).

Lemma v6PartLoop_groups gs allow acc : gs <> [] -> Forall isGroup gs ->
  (length acc + length gs <= 8)%nat ->
  v6PartLoop (map numberHex gs) allow acc = Some (acc ++ gs).
Proof.
  revert acc. induction gs as [|g gs IH]; intros acc Hne Hg Hlen; [done|].
  apply Forall_cons in Hg as [Hg0 Hg]. unfold isGroup in Hg0. simpl in Hlen. cbn [map v6PartLoop].
  rewrite (hex_no_char cDot) by (unfold isHexLower; lia || apply numberHex_chars; lia).
  rewrite andb_false_r.
  rewrite (isNil_false (numberHex g)) by (apply numberHex_nonempty; lia).
  pose proof (numberHex_length g Hg0).
  replace (4 <? zlen (numberHex g)) with false by lia.
  replace (8 <=? zlen acc) with false by (unfold zlen; lia).
  cbn [orb]. rewrite hexLoop_numberHex by done.
  destruct gs as [|g' gs]; [done|]. cbn [map isNil]. rewrite IH; [|done|done|].
  - by rewrite <- app_assoc.
  - rewrite length_app. simpl in *. lia.
Qed.

Lemma hexGroups_parts gs : Forall isGroup gs ->
  Forall (fun p => contains cColon p = false) (map numberHex gs).
Proof.
  intros Hg. apply Forall_map. eapply Forall_impl; [exact Hg|]. unfold isGroup. intros g H.
  apply hex_no_char; [apply numberHex_chars; lia|unfold isHexLower; lia].
Qed.

Lemma ipListParseV6Part_groups gs allow : Forall isGroup gs -> (length gs <= 8)%nat ->
  ipListParseV6Part (hexGroups gs) allow = Some gs.
Proof.
  intros Hg Hlen. unfold ipListParseV6Part. destruct gs as [|g gs]; [done|].
  destruct (hexGroups (g :: gs)) as [|c s] eqn:E.
  - exfalso. assert (Hs : splitOn cColon (hexGroups (g :: gs)) = map numberHex (g :: gs))
      by (apply splitOn_join; [done|by apply hexGroups_parts]).
    rewrite E in Hs. simpl in Hs. injection Hs as Hs _. symmetry in Hs.
    apply Forall_cons in Hg as [Hg _]. unfold isGroup in Hg.
    apply numberHex_nonempty in Hs; [done|lia].
  - cbn [isNil]. rewrite <- E. unfold hexGroups.
    rewrite splitOn_join by (done || by apply hexGroups_parts).
    by rewrite v6PartLoop_groups.
Qed.

(** No two adjacent colons, and none at the end. *)
Fixpoint singleColons (s : qstr) : bool :=
  match s with
  | [] => true
  | c :: s' =>
      (negb (c =? cColon) || match s' with [] => false | d :: _ => negb (d =? cColon) end)
      && singleColons s'
  end.

Lemma singleColons_app p s : contains cColon p = false -> singleColons (p ++ s) = singleColons s.
Proof.
  induction p as [|c p IH]; simpl; intros H; [done|].
  apply orb_false_iff in H as [H1 H2]. rewrite Z.eqb_sym, H1. simpl. by apply IH.
Qed.

Lemma hexGroups_head g gs : isGroup g ->
  exists c s, hexGroups (g :: gs) = c :: s /\ (c =? cColon) = false.
Proof.
  intros Hg. unfold isGroup in Hg. unfold hexGroups.
  pose proof (numberHex_nonempty g ltac:(lia)) as Hne.
  pose proof (numberHex_chars g ltac:(lia)) as Hc. cbn [map].
  destruct (numberHex g) as [|c s]; [done|]. apply Forall_cons in Hc as [Hc _].
  exists c, (match map numberHex gs with [] => s | _ => s ++ cColon :: joinWith cColon (map numberHex gs) end).
  split; [by destruct gs|]. unfold isHexLower in Hc. lia.
Qed.

Lemma hexGroups_cons g g' gs :
  hexGroups (g :: g' :: gs) = numberHex g ++ cColon :: hexGroups (g' :: gs).
Proof. reflexivity. Qed.

Lemma hexGroups_singleColons gs : Forall isGroup gs -> singleColons (hexGroups gs) = true.
Proof.
  induction gs as [|g gs IH]; intros Hg; [done|].
  pose proof (hexGroups_parts _ Hg) as Hp.
  apply Forall_cons in Hg as [Hg0 Hg]. apply Forall_cons in Hp as [Hp0 _].
  destruct gs as [|g' gs].
  - unfold hexGroups. simpl. rewrite <- (app_nil_r (numberHex g)). by rewrite singleColons_app.
  - rewrite hexGroups_cons, singleColons_app by done. cbn [singleColons].
    rewrite (IH Hg), andb_true_r. apply Forall_cons in Hg as [Hg1 _].
    destruct (hexGroups_head g' gs Hg1) as (c & s & -> & ->). done.
Qed.

Lemma startsWith_gap c s : startsWith (u "::") (c :: s) =
  (c =? cColon) && match s with [] => false | d :: _ => d =? cColon end.
Proof.
  change (u "::") with [58; 58]. cbn [startsWith]. rewrite (Z.eqb_sym 58 c).
  destruct s as [|d s]; [done|]. by rewrite (Z.eqb_sym 58 d), andb_true_r.
Qed.

Lemma indexOfStr_none s : singleColons s = true -> indexOfStr (u "::") s = None.
Proof.
  induction s as [|c s IH]; intros H; [done|]. cbn [singleColons] in H.
  apply andb_prop in H as [H1 H2]. rewrite indexOfStr_cons, startsWith_gap, (IH H2).
  destruct (c =? cColon); [|done]. destruct s as [|d s]; [done|].
  cbn [negb orb] in H1. apply negb_true_iff in H1. by rewrite H1.
Qed.

Lemma indexOfStr_gap s t : singleColons s = true ->
  indexOfStr (u "::") (s ++ u "::" ++ t) = Some (length s).
Proof.
  induction s as [|c s IH]; intros H; [done|].
  cbn [singleColons] in H. apply andb_prop in H as [H1 H2].
  cbn [app length]. rewrite indexOfStr_cons, startsWith_gap, (IH H2).
  destruct (c =? cColon); [|done]. destruct s as [|d s]; [done|].
  cbn [negb orb] in H1. apply negb_true_iff in H1. cbn [app]. by rewrite H1.
Qed.

(** ** The printed form of eight groups *)

Lemma zeroRun_spec gs : exists k, zeroRun gs = k /\ (k <= length gs)%nat /\
  take k gs = replicate k 0.
Proof.
  induction gs as [|g gs (k & E & Hk & Ht)]; simpl; [by exists 0%nat|].
  destruct (g =? 0) eqn:Eg; [|exists 0%nat; simpl; split; [done|split; [lia|done]]].
  zbool. exists (S k). rewrite E. subst g. simpl. rewrite Ht. split; [done|split; [lia|done]].
Qed.

(** A chosen run is at least two zero groups long. *)
Definition goodRun (groups : list Z) (best : option nat) (len : nat) : Prop :=
  match best with
  | None => True
  | Some s => (2 <= len)%nat /\ (s + len <= length groups)%nat /\
              take len (drop s groups) = replicate len 0
  end.

Lemma bestRunLoop_good fuel groups i best len :
  (1 <= len)%nat -> goodRun groups best len ->
  let r := bestRunLoop fuel groups i best len in goodRun groups (fst r) (snd r).
Proof.
  revert i best len. induction fuel as [|fuel IH]; intros i best len Hl Hg; [done|].
  cbn [bestRunLoop]. destruct (drop i groups) as [|g rest] eqn:E; [done|].
  destruct (negb (g =? 0)); [by apply IH|]. rewrite <- E.
  destruct (zeroRun_spec (drop i groups)) as (k & Ek & Hk & Ht). rewrite Ek.
  destruct (len <? k)%nat eqn:Elt; [|by apply IH].
  apply Nat.ltb_lt in Elt. rewrite length_drop in Hk.
  apply IH; [lia|]. split; [lia|]. split; [|done].
  assert (0 < length (drop i groups))%nat by (rewrite E; simpl; lia).
  rewrite length_drop in *. lia.
Qed.

(** The separator written before a group. *)
Definition sep (out : qstr) : qstr :=
  if negb (isNil out) && negb (endsWithChar cColon out) then [cColon] else [].

Lemma lastChar_app s c t : lastChar (s ++ c :: t) = lastChar (c :: t).
Proof.
  induction s as [|d s IH]; [done|]. cbn [app].
  destruct (s ++ c :: t) as [|e w] eqn:E; [by destruct s|]. rewrite <- IH. done.
Qed.

Lemma lastChar_forall (P : Z -> Prop) s : s <> [] -> Forall P s -> exists c, lastChar s = Some c /\ P c.
Proof.
  induction s as [|c s IH]; intros Hne H; [done|]. apply Forall_cons in H as [Hc H].
  destruct s as [|d s]; [by exists c|]. by apply IH.
Qed.

Lemma sep_hex out g : isGroup g -> sep (out ++ numberHex g) = [cColon].
Proof.
  intros Hg. unfold isGroup in Hg. unfold sep, endsWithChar.
  pose proof (numberHex_nonempty g ltac:(lia)) as Hne.
  destruct (lastChar_forall _ _ Hne (numberHex_chars g ltac:(lia))) as (c & Hc & Hhex).
  destruct (numberHex g) as [|d s]; [done|]. rewrite lastChar_app, Hc.
  rewrite isNil_false by (by destruct out). unfold isHexLower in Hhex.
  by replace (c =? 58) with false by lia.
Qed.

Lemma sep_gap out : sep (out ++ u "::") = [].
Proof.
  unfold sep, endsWithChar. change (u "::") with [58; 58]. rewrite lastChar_app.
  by rewrite andb_false_r.
Qed.

Lemma formatStep fuel groups i best len out g rest :
  drop i groups = g :: rest -> best <> Some i ->
  formatV6Loop (S fuel) groups i best len out
  = formatV6Loop fuel groups (S i) best len (out ++ sep out ++ numberHex g).
Proof.
  intros E Hb. cbn [formatV6Loop]. rewrite E. rewrite decide_False by done.
  unfold sep. destruct (_ && _); by rewrite <- ?app_assoc.
Qed.

Lemma drop_S_eq {A} i (l : list A) x rest : drop i l = x :: rest -> drop (S i) l = rest.
Proof. intros E. by rewrite <- (Nat.add_1_r i), <- drop_drop, E. Qed.

(** From [i] on, with the run behind: the remaining groups, separated. *)
Lemma formatTail fuel groups i best len out :
  (forall j, (i <= j)%nat -> best <> Some j) -> Forall isGroup groups ->
  (length (drop i groups) <= fuel)%nat ->
  formatV6Loop fuel groups i best len out
  = out ++ match drop i groups with [] => [] | gs => sep out ++ hexGroups gs end.
Proof.
  intros Hb Hg. revert i out Hb. induction fuel as [|fuel IH]; intros i out Hb Hlen.
  { destruct (drop i groups); [|simpl in Hlen; lia]. by rewrite app_nil_r. }
  destruct (drop i groups) as [|g rest] eqn:E.
  { cbn [formatV6Loop]. by rewrite E, app_nil_r. }
  rewrite (formatStep _ _ _ _ _ _ g rest) by (done || apply Hb; lia).
  pose proof (drop_S_eq _ _ _ _ E) as E'. rewrite IH; [|intros j Hj; apply Hb; lia|].
  - rewrite E'. assert (isGroup g).
    { apply (Forall_drop _ i) in Hg. rewrite E in Hg. by apply Forall_cons in Hg as [? _]. }
    destruct rest as [|g' rest].
    + unfold hexGroups. simpl. by rewrite app_nil_r.
    + rewrite hexGroups_cons, (app_assoc out (sep out)), sep_hex by done. by rewrite <- !app_assoc.
  - rewrite E'. simpl in Hlen. lia.
Qed.

(** From the start to the run. *)
Lemma formatHead fuel n groups i s len out : (s = i + n)%nat -> (s < length groups)%nat ->
  Forall isGroup groups ->
  formatV6Loop (n + fuel) groups i (Some s) len out
  = formatV6Loop fuel groups s (Some s) len
      (out ++ match take n (drop i groups) with [] => [] | gs => sep out ++ hexGroups gs end).
Proof.
  intros Hs Hlen Hg. revert i out Hs. induction n as [|n IH]; intros i out Hs.
  { simpl. rewrite app_nil_r. by replace i with s by lia. }
  destruct (drop i groups) as [|g rest] eqn:E.
  { apply (f_equal length) in E. rewrite length_drop in E. simpl in E. lia. }
  cbn [Nat.add]. rewrite (formatStep _ _ _ _ _ _ g rest) by (done || intros [=]; lia).
  pose proof (drop_S_eq _ _ _ _ E) as E'. rewrite IH by lia. f_equal.
  rewrite E'. cbn [take]. assert (isGroup g).
  { apply (Forall_drop _ i) in Hg. rewrite E in Hg. by apply Forall_cons in Hg as [? _]. }
  destruct (take n rest) as [|g' gs] eqn:Et.
  - unfold hexGroups. simpl. by rewrite app_nil_r.
  - rewrite hexGroups_cons, (app_assoc out (sep out)), sep_hex by done. by rewrite <- !app_assoc.
Qed.

Definition v6Text (groups : list Z) (best : option nat) (len : nat) : qstr :=
  match best with
  | None => hexGroups groups
  | Some s => hexGroups (take s groups) ++ u "::" ++ hexGroups (drop (s + len) groups)
  end.

Lemma formatV6_text groups best len : length groups = 8%nat -> Forall isGroup groups ->
  goodRun groups best len -> formatV6Loop 8 groups 0 best len [] = v6Text groups best len.
Proof.
  intros Hlen Hg Hgood. destruct best as [s|]; simpl in Hgood.
  - destruct Hgood as (Hl2 & Hsl & _). unfold v6Text.
    replace 8%nat with (s + S (7 - s))%nat by lia.
    rewrite (formatHead _ s) by (done || lia). rewrite drop_0.
    cbn [formatV6Loop]. destruct (drop s groups) as [|g rest] eqn:E.
    { apply (f_equal length) in E. rewrite length_drop in E. simpl in E. lia. }
    rewrite decide_True by done.
    rewrite formatTail; [|intros j Hj [=]; lia|done|rewrite length_drop; lia].
    replace (s + (len - 1) + 1)%nat with (s + len)%nat by lia.
    rewrite sep_gap. cbn [app]. rewrite <- app_assoc.
    f_equal; [by destruct (take s groups)|]. f_equal. by destruct (drop (s + len) groups).
  - rewrite formatTail by (done || rewrite drop_0; lia). rewrite drop_0. by destruct groups.
Qed.

(** ** Parsing the printed form *)

Lemma hexGroups_chars gs : Forall isGroup gs ->
  Forall (fun c => isHexLower c \/ c = cColon) (hexGroups gs).
Proof.
  assert (Hn : forall g, isGroup g -> Forall (fun c => isHexLower c \/ c = cColon) (numberHex g)).
  { intros g Hg. unfold isGroup in Hg. eapply Forall_impl; [apply numberHex_chars; lia|]. by left. }
  induction gs as [|g gs IH]; intros Hg; [done|]. apply Forall_cons in Hg as [Hg0 Hg].
  destruct gs as [|g' gs].
  - unfold hexGroups. simpl. by apply Hn.
  - rewrite hexGroups_cons. apply Forall_app. split; [by apply Hn|].
    constructor; [by right|]. by apply IH.
Qed.

Lemma ipListParseV6_text groups best len : length groups = 8%nat -> Forall isGroup groups ->
  goodRun groups best len ->
  ipListParseV6 (v6Text groups best len)
  = Some (packGroups (take 4 groups), packGroups (drop 4 groups)).
Proof.
  intros Hlen Hg Hgood. unfold ipListParseV6. destruct best as [s|]; simpl in Hgood; unfold v6Text.
  - destruct Hgood as (Hl2 & Hsl & Hz).
    assert (Hh : Forall isGroup (take s groups)) by by apply Forall_take.
    assert (Ht : Forall isGroup (drop (s + len) groups)) by by apply Forall_drop.
    rewrite indexOfStr_gap by (by apply hexGroups_singleColons).
    set (H := hexGroups (take s groups)). set (T := hexGroups (drop (s + len) groups)).
    rewrite (take_app_length' H) by done.
    replace (drop (length H + 1) (H ++ u "::" ++ T)) with (cColon :: T).
    2:{ rewrite drop_app_add. done. }
    replace (drop (length H + 2) (H ++ u "::" ++ T)) with T.
    2:{ rewrite drop_app_add. done. }
    replace (containsStr (u "::") (cColon :: T)) with false.
    2:{ unfold containsStr. rewrite indexOfStr_cons, startsWith_gap.
        unfold T. rewrite indexOfStr_none by (by apply hexGroups_singleColons).
        destruct (drop (s + len) groups) as [|g gs]; [done|].
        apply Forall_cons in Ht as [Ht _]. destruct (hexGroups_head g gs Ht) as (c & w & -> & ->).
        done. }
    unfold H, T. rewrite !ipListParseV6Part_groups
      by (done || rewrite ?length_take, ?length_drop; lia).
    replace (7 <? zlen (take s groups) + zlen (drop (s + len) groups)) with false
      by (symmetry; apply Z.ltb_ge; unfold zlen; rewrite length_take, length_drop; lia).
    replace (take s groups ++ replicate (8 - length (take s groups) - length (drop (s + len) groups)) 0
             ++ drop (s + len) groups) with groups; [done|].
    rewrite length_take, length_drop.
    replace (8 - min s (length groups) - (length groups - (s + len)))%nat with len by lia.
    rewrite <- Hz, <- drop_drop, take_drop, take_drop. done.
  - rewrite indexOfStr_none by (by apply hexGroups_singleColons).
    rewrite ipListParseV6Part_groups by (done || lia).
    unfold zlen. rewrite Hlen. simpl. rewrite Hlen, app_nil_r. done.
Qed.

Lemma packGroups_step acc g : 0 <= acc < 2 ^ 48 -> isGroup g ->
  Z.lor (wrap64 (Z.shiftl acc 16)) g = acc * 65536 + g.
Proof.
  intros Ha Hg. unfold isGroup in Hg. rewrite wrap64_small by (rewrite Z.shiftl_mul_pow2 by lia; lia).
  by rewrite lor_shiftl by lia.
Qed.

Lemma packGroups_four a b c d : isGroup a -> isGroup b -> isGroup c -> isGroup d ->
  packGroups [a; b; c; d] = ((a * 65536 + b) * 65536 + c) * 65536 + d.
Proof.
  intros Ha Hb Hc Hd. unfold packGroups. cbn [fold_left].
  unfold isGroup in *. rewrite (packGroups_step 0 a), (packGroups_step (0 * 65536 + a) b) by (unfold isGroup; lia).
  rewrite (packGroups_step _ c) by (unfold isGroup; lia).
  rewrite (packGroups_step _ d) by (unfold isGroup; lia). lia.
Qed.

Lemma halfGroups h : 0 <= h < 2 ^ 64 -> exists a b c d,
  map (fun i => wrap16 (Z.shiftr h (48 - 16 * i))) [0; 1; 2; 3] = [a; b; c; d] /\
  isGroup a /\ isGroup b /\ isGroup c /\ isGroup d /\
  h = ((a * 65536 + b) * 65536 + c) * 65536 + d.
Proof.
  intros Hh. do 4 eexists. cbn [map]. split; [reflexivity|]. unfold isGroup, wrap16.
  rewrite !Z.shiftr_div_pow2 by lia. change (2 ^ 16) with 65536.
  change (48 - 16 * 0) with 48. change (48 - 16 * 1) with 32.
  change (48 - 16 * 2) with 16. change (48 - 16 * 3) with 0.
  repeat split; Z.div_mod_to_equations; lia.
Qed.

Lemma addrGroups_spec a : 0 <= hi a < 2 ^ 64 -> 0 <= lo a < 2 ^ 64 ->
  length (addrGroups a) = 8%nat /\ Forall isGroup (addrGroups a) /\
  packGroups (take 4 (addrGroups a)) = hi a /\ packGroups (drop 4 (addrGroups a)) = lo a.
Proof.
  intros Hh Hl. unfold addrGroups.
  destruct (halfGroups (hi a) Hh) as (a1 & b1 & c1 & d1 & -> & ? & ? & ? & ? & E1).
  destruct (halfGroups (lo a) Hl) as (a2 & b2 & c2 & d2 & -> & ? & ? & ? & ? & E2).
  cbn [app take drop]. split; [done|]. split; [by rewrite !Forall_cons, Forall_nil|].
  rewrite !packGroups_four by done. by rewrite <- E1, <- E2.
Qed.

(** ** Round trip of addresses *)

Lemma formatText a : wfAddr a ->
  (v6 a = false /\ Forall isV4Char (ipListParseFormat a) \/
   v6 a = true /\ Forall (fun c => isHexLower c \/ c = cColon) (ipListParseFormat a) /\
   exists best len, goodRun (addrGroups a) best len /\
     ipListParseFormat a = v6Text (addrGroups a) best len).
Proof.
  intros Ha. pose proof (wfAddr_halves a Ha) as [Hh Hl]. unfold wfAddr in Ha.
  destruct (v6 a) eqn:Ev; [right|left].
  - split; [done|]. destruct (addrGroups_spec a Hh Hl) as (Hlen & Hg & _).
    unfold ipListParseFormat. rewrite Ev. cbn [negb].
    pose proof (bestRunLoop_good 8 (addrGroups a) 0 None 1 ltac:(lia) I) as Hgood. cbv zeta in Hgood.
    destruct (bestRunLoop 8 (addrGroups a) 0 None 1) as [best len]. cbn [fst snd] in Hgood.
    rewrite formatV6_text by done. split; [|by exists best, len].
    assert (Hc : forall gs, Forall isGroup gs -> Forall (fun c => isHexLower c \/ c = cColon) (hexGroups gs))
      by apply hexGroups_chars.
    destruct best as [s|]; unfold v6Text; [|by apply Hc].
    rewrite !Forall_app. split; [apply Hc; by apply Forall_take|].
    split; [by repeat constructor; right|]. apply Hc. by apply Forall_drop.
  - split; [done|]. rewrite ipListParseFormat_v4 by done. rewrite wrap32_small by lia.
    apply formatV4_chars. lia.
Qed.

Lemma v6Text_colon groups best len : length groups = 8%nat ->
  contains cColon (v6Text groups best len) = true.
Proof.
  intros Hlen. destruct best as [s|]; unfold v6Text.
  - rewrite !contains_app. simpl. by rewrite orb_true_r.
  - destruct groups as [|g [|g' gs]]; try done. rewrite hexGroups_cons, contains_app.
    rewrite contains_cons. simpl. by rewrite orb_true_r.
Qed.

Lemma chars_none (P : Z -> Prop) c s : Forall P s -> ~ P c -> contains c s = false.
Proof. intros Hs Hc. apply contains_false. eapply Forall_impl; [exact Hs|]. by intros x Hx ->. Qed.

Lemma ipListParseAddress_format a : wfAddr a ->
  ipListParseAddress (ipListParseFormat a) = Some a.
Proof.
  intros Ha. pose proof (wfAddr_halves a Ha) as [Hh Hl].
  destruct (formatText a Ha) as [[Ev Hc]|(Ev & Hc & best & len & Hgood & Et)];
    unfold ipListParseAddress.
  - rewrite (chars_none _ _ _ Hc) by (unfold isV4Char, isDigit; lia).
    unfold wfAddr in Ha. rewrite Ev in Ha. rewrite ipListParseFormat_v4 by done.
    rewrite wrap32_small by lia. rewrite ipListParseV4_format by lia.
    destruct a as [v h l]; simpl in *. by rewrite Ev, (proj1 Ha).
  - destruct (addrGroups_spec a Hh Hl) as (Hlen & Hg & E1 & E2).
    assert (Hp : indexOf cPercent (ipListParseFormat a) = None).
    { apply indexOf_None. apply (chars_none _ _ _ Hc). unfold isHexLower. lia. }
    rewrite Hp, Et, v6Text_colon, ipListParseV6_text, E1, E2 by done.
    destruct a as [v h l]; simpl in *. by rewrite Ev.
Qed.

(** ** Masks *)

Lemma sub_mod_pow2 a m : 0 <= m -> a - a mod 2 ^ m = Z.ldiff a (Z.ones m).
Proof.
  intros Hm. rewrite Z.ldiff_ones_r, Z.shiftl_mul_pow2, Z.shiftr_div_pow2 by done.
  pose proof (Z.div_mod a (2 ^ m) ltac:(apply Z.pow_nonzero; lia)). lia.
Qed.

(** Masking with a word whose bits [m] to [n - 1] are exactly its set ones. *)
Lemma land_mask a M m n : 0 <= m -> 0 <= n -> 0 <= a < 2 ^ n ->
  (forall i, 0 <= i < n -> Z.testbit M i = (m <=? i)) -> Z.land a M = a - a mod 2 ^ m.
Proof.
  intros Hm Hn Ha HM. rewrite sub_mod_pow2 by done. apply Z.bits_inj'. intros i Hi.
  rewrite Z.land_spec, Z.ldiff_spec. destruct (decide (i < n)).
  - rewrite HM by lia. destruct (m <=? i) eqn:E; zbool.
    + by rewrite Z.ones_spec_high by lia.
    + by rewrite Z.ones_spec_low by lia.
  - replace a with (a mod 2 ^ n) by (apply Z.mod_small; lia).
    rewrite Z.mod_pow2_bits_high by lia. done.
Qed.

Lemma shifted_ones_bit w m i : 0 <= i < 64 -> 0 <= m -> 0 <= w -> i < m + w ->
  Z.testbit (wrap64 (Z.shiftl (Z.ones w) m)) i = (m <=? i).
Proof.
  intros Hi Hm Hw Hlt. unfold wrap64. rewrite Z.mod_pow2_bits_low, Z.shiftl_spec by lia.
  destruct (m <=? i) eqn:E; zbool.
  - apply Z.ones_spec_low. lia.
  - by rewrite Z.testbit_neg_r by lia.
Qed.

Lemma mod_split_high h l m : 64 <= m -> 0 <= l < 2 ^ 64 ->
  (h * 2 ^ 64 + l) mod 2 ^ m = h mod 2 ^ (m - 64) * 2 ^ 64 + l.
Proof.
  intros Hm Hl.
  assert (Hs : 2 ^ m = 2 ^ (m - 64) * 2 ^ 64) by (rewrite <- Z.pow_add_r by lia; f_equal; lia).
  assert (Hp : 0 < 2 ^ (m - 64)) by (apply Z.pow_pos_nonneg; lia).
  symmetry. apply (Z.mod_unique _ _ (h / 2 ^ (m - 64))).
  - left. pose proof (Z.mod_pos_bound h (2 ^ (m - 64)) Hp). rewrite Hs. nia.
  - rewrite Hs. pose proof (Z.div_mod h (2 ^ (m - 64)) ltac:(lia)) as E. rewrite E at 1. ring.
Qed.

Lemma mod_split_low h l m : 0 <= m <= 64 -> (h * 2 ^ 64 + l) mod 2 ^ m = l mod 2 ^ m.
Proof.
  intros Hm. replace (h * 2 ^ 64 + l) with (l + h * 2 ^ (64 - m) * 2 ^ m).
  - apply Z.mod_add. apply Z.pow_nonzero; lia.
  - rewrite <- Z.mul_assoc, <- Z.pow_add_r by lia. replace (64 - m + m) with 64 by lia. lia.
Qed.

Lemma sub_mod_bound a m n : 0 <= m -> 0 <= a < n -> 0 <= a - a mod 2 ^ m < n.
Proof.
  intros Hm Ha. pose proof (Z.mod_pos_bound a (2 ^ m) ltac:(apply Z.pow_pos_nonneg; lia)).
  pose proof (Z.mod_le a (2 ^ m) ltac:(lia) ltac:(apply Z.pow_pos_nonneg; lia)). lia.
Qed.

Lemma ipListParseMask_spec a p : wfAddr a -> 0 < p <= ipListParseBits a ->
  let r := ipListParseMask a p in
  wfAddr r /\ v6 r = v6 a /\
  addrVal r = addrVal a - addrVal a mod 2 ^ (ipListParseBits a - p).
Proof.
  intros Ha Hp. unfold ipListParseMask, ipListParseBits, wfAddr, addrVal in *.
  destruct (v6 a) eqn:Ev; cbn [negb]; cbv zeta.
  - destruct Ha as [Hh Hl].
    destruct (p <? 64) eqn:E1; [|destruct (p =? 64) eqn:E2; [|destruct (p <? 128) eqn:E3]]; zbool;
      cbn [v6 hi lo].
    + replace (p =? 0) with false by lia.
      rewrite (land_mask (hi a) _ (64 - p) 64); [|lia|lia|done|].
      2:{ intros i Hi. apply (shifted_ones_bit 64); lia. }
      pose proof (sub_mod_bound (hi a) (64 - p) (2 ^ 64) ltac:(lia) Hh).
      rewrite mod_split_high by lia. replace (128 - p - 64) with (64 - p) by lia.
      split; [lia|]. split; [done|]. lia.
    + subst p. rewrite mod_split_low, (Z.mod_small (lo a)) by lia. split; [lia|]. split; [done|]. lia.
    + rewrite (land_mask (lo a) _ (128 - p) 64); [|lia|lia|done|].
      2:{ intros i Hi. apply (shifted_ones_bit 64); lia. }
      pose proof (sub_mod_bound (lo a) (128 - p) (2 ^ 64) ltac:(lia) Hl).
      rewrite mod_split_low by lia. split; [lia|]. split; [done|]. lia.
    + replace p with 128 by lia. rewrite Ev. rewrite Z.sub_diag, Z.pow_0_r, Z.mod_1_r.
      split; [lia|]. split; [done|]. lia.
  - destruct Ha as [Hh Hl]. cbn [v6 hi lo].
    rewrite (land_mask (lo a) _ (32 - p) 32); [|lia|lia|done|].
    2:{ intros i Hi. rewrite Z.land_spec. change 4294967295 with (Z.ones 32).
        rewrite shifted_ones_bit, Z.ones_spec_low by lia. apply andb_true_r. }
    pose proof (sub_mod_bound (lo a) (32 - p) (2 ^ 32) ltac:(lia) Hl).
    rewrite Hh, Z.mul_0_l, !Z.add_0_l. split; [lia|]. by split.
Qed.

(** A masked address is the first of its block. *)
Lemma ipListParseMask_aligned a p : wfAddr a -> 0 < p <= ipListParseBits a ->
  ipListParseMask (ipListParseMask a p) p = ipListParseMask a p.
Proof.
  intros Ha Hp. destruct (ipListParseMask_spec a p Ha Hp) as (Hw & Hv & Hval).
  assert (Hb : ipListParseBits (ipListParseMask a p) = ipListParseBits a)
    by (unfold ipListParseBits; by rewrite Hv).
  destruct (ipListParseMask_spec (ipListParseMask a p) p Hw ltac:(lia)) as (Hw2 & Hv2 & Hval2).
  apply addrVal_inj; [done|done|congruence|]. rewrite Hval2, Hb, Hval.
  set (m := 2 ^ (ipListParseBits a - p)). assert (Hm : m <> 0) by (apply Z.pow_nonzero; lia).
  replace ((addrVal a - addrVal a mod m) mod m) with 0; [lia|].
  pose proof (Z.div_mod (addrVal a) m Hm) as E.
  replace (addrVal a - addrVal a mod m) with (addrVal a / m * m) by lia. by rewrite Z.mod_mul.
Qed.

(** ** What the parser returns is well formed *)

Lemma decimalLoop_bound v t n : 0 <= v < 2 ^ 32 -> decimalLoop v t = Some n -> 0 <= n < 2 ^ 32.
Proof.
  revert v. induction t as [|c t IH]; simpl; intros v Hv H; [by injection H as <-|].
  destruct (_ || _); [done|]. apply IH in H; [done|]. apply Z.mod_pos_bound. lia.
Qed.

Lemma ipListParseDecimal_bound t k n : ipListParseDecimal t k = Some n -> 0 <= n < 2 ^ 32.
Proof.
  unfold ipListParseDecimal. destruct (_ || _); [done|]. apply decimalLoop_bound. lia.
Qed.

Lemma v4Loop_bound ps v n r : 0 <= v < 2 ^ 32 -> v4Loop ps v n = Some r -> 0 <= fst r < 2 ^ 32.
Proof.
  revert v n. induction ps as [|p ps IH]; simpl; intros v n Hv H; [done|].
  destruct (ipListParseDecimal p 3) as [o|] eqn:E; [|done]. apply ipListParseDecimal_bound in E.
  destruct (255 <? o); [done|]. destruct (_ && _); [done|]. destruct (4 <? _); [done|].
  assert (0 <= Z.lor (wrap32 (Z.shiftl v 8)) o < 2 ^ 32).
  { apply lor_bound; [lia|apply Z.mod_pos_bound; lia|done]. }
  destruct ps; [by injection H as <-|]. by apply IH in H.
Qed.

Lemma ipListParseV4_bound t v : ipListParseV4 t = Some v -> 0 <= v < 2 ^ 32.
Proof.
  unfold ipListParseV4. destruct (v4Loop _ 0 0) as [[w n]|] eqn:E; [|done].
  destruct (negb _); [done|]. intros [= <-]. by apply v4Loop_bound in E.
Qed.

Lemma hexLoop_group v t g : isGroup v -> hexLoop v t = Some g -> isGroup g.
Proof.
  revert v. induction t as [|c t IH]; simpl; intros v Hv H; [by injection H as <-|].
  destruct (_ <? 0); [done|]. apply IH in H; [done|]. apply Z.mod_pos_bound. lia.
Qed.

Lemma v6PartLoop_groups_wf ps allow acc gs : Forall isGroup acc -> (length acc <= 8)%nat ->
  v6PartLoop ps allow acc = Some gs -> Forall isGroup gs /\ (length gs <= 8)%nat.
Proof.
  revert acc. induction ps as [|p ps IH]; cbn [v6PartLoop]; intros acc Ha Hl H; [done|].
  destruct (_ && _ && _).
  - destruct (6 <? zlen acc) eqn:E6; [done|]. destruct (ipListParseV4 p); [|done].
    injection H as <-. zbool. unfold zlen in E6. rewrite Forall_app, length_app. simpl. split; [|lia].
    split; [done|]. rewrite !Forall_cons, Forall_nil. unfold isGroup.
    split; [apply Z.mod_pos_bound; lia|]. split; [apply Z.mod_pos_bound; lia|done].
  - destruct (isNil p || (4 <? zlen p) || (8 <=? zlen acc)) eqn:E8; [done|]. zbool. unfold zlen in *.
    destruct (hexLoop 0 p) as [g|] eqn:Eg; [|done].
    apply hexLoop_group in Eg; [|unfold isGroup; lia].
    assert (Forall isGroup (acc ++ [g]) /\ (length (acc ++ [g]) <= 8)%nat) as [? ?].
    { rewrite Forall_app, length_app. simpl. split; [|lia]. split; [done|by constructor]. }
    destruct (isNil ps); [by injection H as <-|]. by apply IH in H.
Qed.

(** The group array of eight entries is never written past its end. *)
Lemma ipListParseV6Part_wf t allow gs : ipListParseV6Part t allow = Some gs ->
  Forall isGroup gs /\ (length gs <= 8)%nat.
Proof.
  unfold ipListParseV6Part. destruct (isNil t); [intros [= <-]; split; [done|simpl; lia]|].
  apply v6PartLoop_groups_wf; [done|simpl; lia].
Qed.

Lemma packGroups_bound gs : Forall isGroup gs -> 0 <= packGroups gs < 2 ^ 64.
Proof.
  unfold packGroups. intros Hg.
  enough (H : forall acc, 0 <= acc < 2 ^ 64 -> 0 <= fold_left
    (fun acc g => Z.lor (wrap64 (Z.shiftl acc 16)) g) gs acc < 2 ^ 64) by (apply H; lia).
  induction gs as [|g gs IH]; intros acc Ha; [done|]. apply Forall_cons in Hg as [Hg0 Hg].
  cbn [fold_left]. apply IH; [done|]. unfold isGroup in Hg0.
  apply lor_bound; [lia|apply Z.mod_pos_bound; lia|lia].
Qed.

Lemma ipListParseV6_bound t h l : ipListParseV6 t = Some (h, l) ->
  0 <= h < 2 ^ 64 /\ 0 <= l < 2 ^ 64.
Proof.
  unfold ipListParseV6. destruct (match indexOfStr _ _ with Some _ => _ | None => _ end)
    as [[hd tl]|] eqn:E; [|done]. intros [= <- <-].
  assert (Hwf : Forall isGroup hd /\ Forall isGroup tl).
  { destruct (indexOfStr (u "::") t) as [gap|].
    - destruct (containsStr _ _); [done|].
      destruct (ipListParseV6Part (take gap t) false) as [a|] eqn:Ea; [|done].
      destruct (ipListParseV6Part (drop (gap + 2) t) true) as [b|] eqn:Eb; [|done].
      destruct (7 <? _); [done|]. injection E as <- <-.
      apply ipListParseV6Part_wf in Ea, Eb. tauto.
    - destruct (ipListParseV6Part t true) as [a|] eqn:Ea; [|done].
      destruct (negb _); [done|]. injection E as <- <-. apply ipListParseV6Part_wf in Ea. split; [tauto|done]. }
  assert (Hall : Forall isGroup (hd ++ replicate (8 - length hd - length tl) 0 ++ tl)).
  { rewrite !Forall_app. split; [tauto|]. split; [|tauto]. apply Forall_replicate. unfold isGroup. lia. }
  split; apply packGroups_bound; [by apply Forall_take|by apply Forall_drop].
Qed.

Lemma ipListParseAddress_wf t a : ipListParseAddress t = Some a -> wfAddr a.
Proof.
  unfold ipListParseAddress. destruct (contains cColon t).
  - destruct (ipListParseV6 _) as [[h l]|] eqn:E; [|done]. intros [= <-]. by apply ipListParseV6_bound in E.
  - destruct (ipListParseV4 t) as [v|] eqn:E; [|done]. intros [= <-]. by apply ipListParseV4_bound in E.
Qed.

Lemma unmapAddr_wf a : wfAddr (unmapAddr a).
Proof.
  unfold wfAddr, unmapAddr. simpl. split; [done|]. change 4294967295 with (2 ^ 32 - 1).
  rewrite land_low by lia. apply Z.mod_pos_bound. lia.
Qed.

(** ** Canonical networks *)

(** What [ipListParseNetwork] returns: a masked address with a non-zero
    prefix, IPv4-mapped networks in their IPv4 form. *)
Definition canonNet (a : IpListParseAddr) (p : Z) : Prop :=
  wfAddr a /\ 0 < p <= ipListParseBits a /\ ipListParseMask a p = a /\
  ipListParseIsMapped a && (96 <=? p) = false.

Lemma ipListParseIsMapped_mask a p : wfAddr a -> 96 <= p <= ipListParseBits a ->
  ipListParseIsMapped (ipListParseMask a p) = ipListParseIsMapped a.
Proof.
  intros Ha Hp. unfold ipListParseMask, ipListParseIsMapped, ipListParseBits, wfAddr in *.
  destruct (v6 a) eqn:Ev; cbn [negb]; [|by cbn; rewrite ?Ev].
  replace (p <? 64) with false by lia. replace (p =? 64) with false by lia.
  destruct (p <? 128) eqn:E3; zbool; [|by rewrite Ev]. cbn [v6 hi lo]. rewrite ?Ev.
  destruct Ha as [Hh Hl].
  rewrite (land_mask (lo a) _ (128 - p) 64); [|lia|lia|done|].
  2:{ intros i Hi. apply (shifted_ones_bit 64); lia. }
  rewrite sub_mod_pow2 by lia. f_equal. f_equal. apply Z.bits_inj'. intros i Hi.
  rewrite !Z.shiftr_spec, Z.ldiff_spec, Z.ones_spec_high by lia. apply andb_true_r.
Qed.

Section Qt.
Context {Q : QtChar}.

Lemma networkPrefix_bound a t p : networkPrefix a t = Some p -> 0 <= p <= ipListParseBits a.
Proof.
  assert (0 <= ipListParseBits a) by (unfold ipListParseBits; destruct (v6 a); lia).
  unfold networkPrefix. destruct t as [t|]; [|intros [= <-]; lia].
  destruct (ipListParseDecimal t 3) as [v|] eqn:E; [|done]. apply ipListParseDecimal_bound in E.
  destruct (_ <? v) eqn:Ev; [done|]. intros [= <-]. zbool. lia.
Qed.

Lemma ipListParseNetwork_canon t a p : ipListParseNetwork t = Some (a, p) -> canonNet a p.
Proof.
  unfold ipListParseNetwork. destruct (networkParts _) as [[body pt]|]; [|done].
  destruct (ipListParseAddress body) as [b|] eqn:Eb; [|done]. apply ipListParseAddress_wf in Eb.
  destruct (networkPrefix b pt) as [q|] eqn:Eq; [|done]. apply networkPrefix_bound in Eq.
  destruct (ipListParseIsMapped b && (96 <=? q)) eqn:Em.
  - assert (Hv : v6 b = true).
    { apply andb_prop in Em as [Em _]. unfold ipListParseIsMapped in Em. by zbool. }
    zbool. destruct (q - 96 =? 0) eqn:E0; [done|]. intros [= <- <-]. zbool.
    pose proof (unmapAddr_wf b) as Hw. unfold ipListParseBits in Eq. rewrite Hv in Eq.
    assert (Hp : 0 < q - 96 <= ipListParseBits (unmapAddr b)) by (change (ipListParseBits (unmapAddr b)) with 32; lia).
    destruct (ipListParseMask_spec _ _ Hw Hp) as (Hw' & Hv' & _).
    split; [done|]. split; [unfold ipListParseBits; rewrite Hv'; apply Hp|].
    split; [by apply ipListParseMask_aligned|]. unfold ipListParseIsMapped. by rewrite Hv'.
  - destruct (q =? 0) eqn:E0; [done|]. intros [= <- <-]. zbool.
    assert (Hp : 0 < q <= ipListParseBits b) by lia.
    destruct (ipListParseMask_spec _ _ Eb Hp) as (Hw' & Hv' & _).
    split; [done|]. split; [unfold ipListParseBits; rewrite Hv'; apply Hp|].
    split; [by apply ipListParseMask_aligned|].
    destruct (96 <=? q) eqn:E96; [|apply andb_false_r]. zbool.
    rewrite ipListParseIsMapped_mask by (done || lia). done.
Qed.

(** ** Text of a canonical network *)

(** The characters of an address or network text. *)
Definition isCidrChar (c : Z) : Prop := 46 <= c <= 58 \/ 97 <= c <= 102.

Lemma ipListParseFormat_chars a : wfAddr a -> Forall isCidrChar (ipListParseFormat a).
Proof.
  intros Ha. destruct (formatText a Ha) as [[_ H]|(_ & H & _)]; eapply Forall_impl; try exact H;
    unfold isV4Char, isDigit, isHexLower, isCidrChar; lia.
Qed.

Lemma ipListParseFormat_noSlash a : wfAddr a -> contains cSlash (ipListParseFormat a) = false.
Proof.
  intros Ha. destruct (formatText a Ha) as [[_ H]|(_ & H & _)]; apply (chars_none _ _ _ H);
    unfold isV4Char, isDigit, isHexLower; lia.
Qed.

Lemma ipListParseFormat_nonempty a : wfAddr a -> ipListParseFormat a <> [].
Proof.
  intros Ha E. pose proof (ipListParseAddress_format a Ha) as H. rewrite E in H. done.
Qed.

Lemma ipListParseCidr_chars a p : wfAddr a -> 0 < p -> Forall isCidrChar (ipListParseCidr a p).
Proof.
  intros Ha Hp. unfold ipListParseCidr. pose proof (ipListParseFormat_chars a Ha).
  destruct (_ <=? p); [done|]. rewrite !Forall_app. split; [done|]. split.
  - constructor; [unfold isCidrChar; lia|done].
  - eapply Forall_impl; [apply number_isDigit; lia|]. unfold isDigit, isCidrChar. lia.
Qed.

Context {QL : QtCharLaws Q}.

Lemma cidrChar_not_space c : isCidrChar c -> isSpace c = false.
Proof. unfold isCidrChar. intros H. rewrite isSpace_ascii by lia. lia. Qed.

Lemma cidr_trimmed s : Forall isCidrChar s -> trimmed s = s.
Proof.
  intros H. apply trimmed_no_space. eapply Forall_impl; [exact H|]. apply cidrChar_not_space.
Qed.

Lemma startsWithChar_none c s : contains c s = false -> startsWithChar c s = false.
Proof. destruct s as [|x s]; [done|]. rewrite contains_cons, Z.eqb_sym. by intros [? _]%orb_false_iff. Qed.

Lemma ipListParseNetwork_cidr a p : canonNet a p ->
  ipListParseNetwork (ipListParseCidr a p) = Some (a, p).
Proof.
  intros (Ha & Hp & Hm & Hmap). pose proof (ipListParseCidr_chars a p Ha ltac:(lia)) as Hc.
  unfold ipListParseNetwork. rewrite cidr_trimmed by done.
  unfold networkParts. rewrite startsWithChar_none
    by (apply (chars_none _ _ _ Hc); unfold isCidrChar; lia).
  assert (Hbits : ipListParseBits a <= 128) by (unfold ipListParseBits; destruct (v6 a); lia).
  unfold ipListParseCidr. destruct (ipListParseBits a <=? p) eqn:E; zbool.
  - rewrite (proj2 (indexOf_None _ _)) by by apply ipListParseFormat_noSlash.
    cbn [isNil negb]. rewrite ipListParseAddress_format by done. cbn [networkPrefix].
    replace (ipListParseBits a) with p by lia. rewrite Hmap.
    replace (p =? 0) with false by lia. by rewrite Hm.
  - change ([cSlash] ++ number p) with (cSlash :: number p).
    rewrite indexOf_app_cons by by apply ipListParseFormat_noSlash.
    cbn [isNil negb]. rewrite take_app_length, drop_app_cons.
    rewrite ipListParseAddress_format by done. unfold networkPrefix.
    rewrite ipListParseDecimal_number; [|lia|apply (number_length p 3); lia].
    replace (ipListParseBits a <? p) with false by lia. rewrite Hmap.
    replace (p =? 0) with false by lia. by rewrite Hm.
Qed.

(** ** The properties *)

Lemma NormalizeCidr_canon t a p : ipListParseNetwork t = Some (a, p) ->
  canonNet a p /\ NormalizeCidr t = ipListParseCidr a p /\ NormalizeCidr t <> [].
Proof.
  intros E. pose proof (ipListParseNetwork_canon _ _ _ E) as Hc. unfold NormalizeCidr. rewrite E.
  split; [done|]. split; [done|]. intros Hn.
  pose proof (ipListParseNetwork_cidr a p Hc) as H. rewrite Hn in H. revert H.
  unfold ipListParseNetwork, trimmed. done.
Qed.

(** [NormalizeCidr] is a normal form: normalising twice changes nothing,
    and two texts with the same non-empty normal form denote the same network
    (address family, masked address and prefix length). *)
Theorem NormalizeCidr_normal_form s t :
  NormalizeCidr (NormalizeCidr t) = NormalizeCidr t /\
  (NormalizeCidr s = NormalizeCidr t -> NormalizeCidr t <> [] ->
   ipListParseNetwork s = ipListParseNetwork t).
Proof.
  assert (Hread : forall t a p, ipListParseNetwork t = Some (a, p) ->
            ipListParseNetwork (NormalizeCidr t) = Some (a, p)).
  { intros t0 a p E. destruct (NormalizeCidr_canon _ _ _ E) as (Hc & -> & _).
    by apply ipListParseNetwork_cidr. }
  split.
  - destruct (ipListParseNetwork t) as [[a p]|] eqn:E.
    + apply Hread in E as E'. unfold NormalizeCidr at 1. rewrite E'.
      unfold NormalizeCidr. by rewrite E.
    + assert (NormalizeCidr t = []) as -> by (unfold NormalizeCidr; by rewrite E).
      unfold NormalizeCidr, ipListParseNetwork. done.
  - intros Heq Hne.
    destruct (ipListParseNetwork t) as [[a p]|] eqn:Et;
      [|exfalso; apply Hne; unfold NormalizeCidr; by rewrite Et].
    destruct (ipListParseNetwork s) as [[b q]|] eqn:Es.
    + apply Hread in Et, Es. rewrite Heq in Es. congruence.
    + exfalso. apply Hne. rewrite <- Heq. unfold NormalizeCidr. by rewrite Es.
Qed.

(** [AddressCount] of a canonical network is the size of its block, saturated
    at 2^63. *)
Lemma AddressCount_cidr a p : canonNet a p ->
  AddressCount (ipListParseCidr a p) = Z.min (2 ^ 63) (blockSize (a, p)).
Proof.
  intros (Ha & Hp & _ & _). unfold AddressCount, blockSize. cbn [fst snd].
  pose proof (ipListParseFormat_nonempty a Ha) as Hne.
  pose proof (ipListParseFormat_noSlash a Ha) as Hns.
  assert (Hbits : ipListParseBits a <= 128) by (unfold ipListParseBits; destruct (v6 a); lia).
  unfold ipListParseCidr. destruct (ipListParseBits a <=? p) eqn:E; zbool.
  - rewrite isNil_false by done. rewrite (proj2 (indexOf_None _ _)) by done.
    replace (ipListParseBits a - p) with 0 by lia. done.
  - change ([cSlash] ++ number p) with (cSlash :: number p).
    rewrite isNil_false by (by destruct (ipListParseFormat a)).
    rewrite indexOf_app_cons by done. rewrite take_app_length, drop_app_cons.
    assert (Hcol : (if contains cColon (ipListParseFormat a) then 128 else 32) = ipListParseBits a).
    { unfold ipListParseBits.
      destruct (formatText a Ha) as [[-> Hc]|(-> & _ & best & len & _ & ->)].
      - by rewrite (chars_none _ _ _ Hc) by (unfold isV4Char, isDigit; lia).
      - rewrite v6Text_colon; [done|]. apply addrGroups_spec; apply wfAddr_halves in Ha; lia. }
    rewrite Hcol. rewrite ipListParseDecimal_number; [|lia|apply (number_length p 3); lia].
    replace (ipListParseBits a <? p) with false by lia. cbv zeta.
    destruct (63 <=? ipListParseBits a - p) eqn:E63; zbool.
    + change (wrap64 (Z.shiftl 1 63)) with (2 ^ 63).
      assert (2 ^ 63 <= 2 ^ (ipListParseBits a - p)) by (apply Z.pow_le_mono_r; lia). lia.
    + rewrite wrap64_shift1 by lia.
      assert (2 ^ (ipListParseBits a - p) <= 2 ^ 63) by (apply Z.pow_le_mono_r; lia). lia.
Qed.

(** [AddressCount] of what [NormalizeCidr] returns is exactly the number of
    addresses of the network, saturated at 2^63, and it is 0 for text that is
    no network. *)
Theorem AddressCount_normalized t :
  AddressCount (NormalizeCidr t) =
  match ipListParseNetwork t with
  | Some (a, p) => Z.min (2 ^ 63) (2 ^ (ipListParseBits a - p))
  | None => 0
  end.
Proof.
  destruct (ipListParseNetwork t) as [[a p]|] eqn:E.
  - destruct (NormalizeCidr_canon _ _ _ E) as (Hc & -> & _). by apply AddressCount_cidr.
  - unfold NormalizeCidr. by rewrite E.
Qed.

End Qt.

Lemma NormalizeCidr_normal_form_witness :
  NormalizeCidr (u " 10.1.2.3/9") = u "10.0.0.0/9" /\
  NormalizeCidr (u "10.0.0.0/9") = u "10.0.0.0/9" /\
  ipListParseNetwork (u " 10.1.2.3/9") = ipListParseNetwork (u "10.0.0.0/9").
Proof.
  assert (E : NormalizeCidr (u " 10.1.2.3/9") = u "10.0.0.0/9") by (vm_compute; reflexivity).
  assert (E' : NormalizeCidr (u "10.0.0.0/9") = u "10.0.0.0/9") by (vm_compute; reflexivity).
  split; [exact E|]. split; [exact E'|].
  apply (NormalizeCidr_normal_form (u " 10.1.2.3/9") (u "10.0.0.0/9")).
  - by rewrite E, E'.
  - rewrite E'. discriminate.
Defined.

Lemma AddressCount_normalized_witness :
  AddressCount (NormalizeCidr (u "2001:db8::/33")) = 2 ^ 63.
Proof.
  rewrite (AddressCount_normalized (u "2001:db8::/33")). vm_compute. reflexivity.
Defined.

(** C19: Printing an address and parsing the text gives the address back, for
    every IPv4 and IPv6 address. *)
Theorem address_text_roundtrip a :
  wfAddr a -> ipListParseAddress (ipListParseFormat a) = Some a.
Proof. apply ipListParseAddress_format. Qed.

Lemma address_text_roundtrip_witness :
  ipListParseFormat (mkAddr true 2306139568115548160 1) = u "2001:db8::1" /\
  ipListParseAddress (u "2001:db8::1") = Some (mkAddr true 2306139568115548160 1).
Proof.
  assert (E : ipListParseFormat (mkAddr true 2306139568115548160 1) = u "2001:db8::1")
    by (vm_compute; reflexivity).
  split; [exact E|]. rewrite <- E. apply (address_text_roundtrip (mkAddr true 2306139568115548160 1)).
  unfold wfAddr. simpl. lia.
Defined.

(** A mask keeps the network of an address: two addresses of one family
    have the same masked address exactly when they lie in the same aligned
    block of 2^(bits - prefix) addresses, and the masked address is the first
    one of that block. *)
Theorem mask_is_block a b p :
  wfAddr a -> wfAddr b -> v6 a = v6 b -> 0 < p <= ipListParseBits a ->
  let net := ipListParseMask a p in
  (blockSize (net, p) | addrVal net) /\ inBlock (addrVal a) (net, p) /\
  (ipListParseMask b p = net <-> inBlock (addrVal b) (net, p)).
Proof.
  intros Ha Hb Hv Hp net.
  destruct (ipListParseMask_spec a p Ha Hp) as (Hw & Hv' & Hval). fold net in Hw, Hv', Hval.
  assert (Hbb : ipListParseBits b = ipListParseBits a) by (unfold ipListParseBits; by rewrite Hv).
  assert (Hbn : ipListParseBits net = ipListParseBits a) by (unfold ipListParseBits; by rewrite Hv').
  destruct (ipListParseMask_spec b p Hb ltac:(lia)) as (Hwb & Hvb & Hvalb).
  unfold blockSize, inBlock. cbn [fst snd]. unfold blockSize. cbn [fst snd].
  rewrite Hbb in Hvalb. rewrite Hbn. set (m := 2 ^ (ipListParseBits a - p)) in *.
  assert (Hm : 0 < m) by (apply Z.pow_pos_nonneg; lia).
  pose proof (Z.div_mod (addrVal a) m ltac:(lia)) as Ea.
  pose proof (Z.div_mod (addrVal b) m ltac:(lia)) as Eb.
  pose proof (Z.mod_pos_bound (addrVal a) m Hm). pose proof (Z.mod_pos_bound (addrVal b) m Hm).
  split; [exists (addrVal a / m); lia|]. split; [lia|]. split.
  - intros E. rewrite E in Hvalb. lia.
  - intros Hin. apply addrVal_inj; [done|done|congruence|].
    rewrite Hvalb, Hval. assert (addrVal b / m = addrVal a / m); [|lia].
    symmetry. apply (Z.div_unique_pos _ _ _ (addrVal b - m * (addrVal a / m))); lia.
Qed.

Lemma mask_is_block_witness :
  ipListParseMask (mkAddr false 0 167838211) 9 = mkAddr false 0 167772160 /\
  (ipListParseMask (mkAddr false 0 167772161) 9 = mkAddr false 0 167772160 <->
   inBlock 167772161 (mkAddr false 0 167772160, 9)).
Proof.
  assert (E : ipListParseMask (mkAddr false 0 167838211) 9 = mkAddr false 0 167772160)
    by (vm_compute; reflexivity).
  split; [exact E|].
  pose proof (mask_is_block (mkAddr false 0 167838211) (mkAddr false 0 167772161) 9) as H.
  cbv zeta in H. rewrite E in H.
  apply H; unfold wfAddr, ipListParseBits; simpl; lia.
Defined.
