(* ===== verification/IpListFile.v ===== *)
(** * IpListFile: what [ParseIpListText] returns, and the trip of an entry
      through [FormatEntry] and back *)

From stdpp Require Import base list gmap strings.
From Stdlib Require Import ZArith Lia Bool.
From S2P Require Import Prelude IpListParse IpListRange IpListText.

(** ** Invariant of the line loop *)

(** Every CIDR text an entry carries prints a network: the first address of a
    block that is not the whole space, and no part of the IPv4-mapped addresses,
    but for all of them. *)
Definition network (a : IpListParseAddr) (p : Z) : Prop :=
  wfAddr a /\ 0 < p <= ipListParseBits a /\ (blockSize (a, p) | addrVal a) /\ (ipListParseIsMapped a = true -> p = 96).

Definition cidrText (s : qstr) : Prop := exists a p, network a p /\ s = ipListParseCidr a p.

(** The IPv4-mapped addresses as a range. *)
Definition mappedStart : Z := 65535 * 2 ^ 32.

Lemma mapped_range a : wfAddr a -> ipListParseIsMapped a = true <-> v6 a = true /\ mappedStart <= addrVal a < mappedStart + 2 ^ 32.
Proof.
  intros Ha. unfold ipListParseIsMapped, wfAddr, addrVal, mappedStart in *. destruct (v6 a); [|by split; [|intros [? _]]].
  rewrite Z.shiftr_div_pow2 by lia. cbn [andb]. split.
  - intros H. zbool. split; [done|]. pose proof (Z.div_mod (lo a) (2 ^ 32) ltac:(lia)). pose proof (Z.mod_pos_bound (lo a) (2 ^ 32) ltac:(lia)). lia.
  - intros [_ H]. assert (hi a = 0) as -> by lia. assert (lo a / 2 ^ 32 = 65535) as ->; [|done].
    symmetry. apply (Z.div_unique _ _ _ (lo a - 65535 * 2 ^ 32)); lia.
Qed.

(** An aligned block that begins among them is not larger. *)
Lemma mapped_block a p : wfAddr a -> 0 < p <= ipListParseBits a -> (blockSize (a, p) | addrVal a) -> ipListParseIsMapped a = true -> 96 <= p.
Proof.
  intros Ha Hp Hd Hm. apply mapped_range in Hm as [Hv Hr]; [|done]. unfold blockSize, ipListParseBits in *. cbn [fst snd] in *. rewrite Hv in *.
  destruct (decide (96 <= p)) as [|Hlt]; [done|]. exfalso.
  assert (H33 : (2 ^ 33 | addrVal a)).
  { apply (Z.divide_trans _ (2 ^ (128 - p))); [|done]. exists (2 ^ (95 - p)). rewrite <- Z.pow_add_r by lia. f_equal. lia. }
  destruct H33 as [q Hq]. unfold mappedStart in Hr. lia.
Qed.

Lemma canonNet_network a p : canonNet a p -> network a p.
Proof.
  intros (Hw & Hp & Hm & Hn). destruct (ipListParseMask_spec a p Hw Hp) as (_ & _ & Hval). rewrite Hm in Hval.
  assert (Hd : (blockSize (a, p) | addrVal a)).
  { pose proof (blockSize_pos (a, p) Hp). apply Z.mod_divide; [lia|]. unfold blockSize in *. cbn [fst snd] in *. lia. }
  split; [done|]. split; [done|]. split; [done|]. intros Hmap. pose proof (mapped_block a p Hw Hp Hd Hmap). rewrite Hmap in Hn. cbn in Hn. lia.
Qed.

(** What the parser of networks makes of such a text. *)
Lemma network_canonNet a p : network a p -> ipListParseIsMapped a = false -> canonNet a p.
Proof.
  intros (Hw & Hp & Hd & _) Hm. destruct (ipListParseMask_spec a p Hw Hp) as (Hw' & Hv' & Hval).
  split; [done|]. split; [done|]. split; [|by rewrite Hm]. apply addrVal_inj; [done|done|done|]. rewrite Hval.
  pose proof (blockSize_pos (a, p) Hp). apply Z.mod_divide in Hd; [|lia]. unfold blockSize in Hd. cbn [fst snd] in Hd. lia.
Qed.

Lemma network_mapped a p : network a p -> ipListParseIsMapped a = true -> ipListParseCidr a p = u "::ffff:0:0/96".
Proof.
  intros (Hw & Hp & Hd & Hm) Hmap. rewrite (Hm Hmap) in *. apply mapped_range in Hmap as [Hv Hr]; [|done].
  assert (a = mkAddr true 0 mappedStart) as ->; [|by vm_compute].
  apply addrVal_inj; [done|by vm_compute|by rewrite Hv|]. unfold blockSize, ipListParseBits in Hd. cbn [fst snd] in Hd. rewrite Hv in Hd.
  destruct Hd as [q Hq]. change (addrVal (mkAddr true 0 mappedStart)) with mappedStart. unfold mappedStart in *. simpl (128 - 96) in Hq. lia.
Qed.

Definition entryKey (e : IpListEntry) : qstr := cidr e ++ [cSpace] ++ number (port e).

Record resultOk (rs : ParseResult * gset qstr) : Prop := {
  ok_nodup : NoDup (map entryKey (entries (fst rs)));
  ok_seen : forall k, k ∈ snd rs <-> k ∈ map entryKey (entries (fst rs));
  ok_entries : Forall (fun e => cidrText (cidr e) /\ 0 <= port e <= 65535 /\ latencyMs e = 0)
                 (entries (fst rs));
  ok_samples : zlen (samples (fst rs)) = Z.min 5 (rejected (fst rs));
  ok_sample_len : Forall (fun s => (length s <= 64)%nat) (samples (fst rs));
  ok_duplicates : 0 <= duplicates (fst rs)
}.

Lemma reject_ok t rs : resultOk rs -> resultOk (reject t (fst rs), snd rs).
Proof.
  intros [H1 H2 H3 H4 H5 H6]. unfold reject. split; cbn [fst snd entries rejected duplicates samples]; try done.
  - unfold kIpListParseMaxSamples. destruct (_ <? 5) eqn:E; zbool.
    + rewrite zlen_app. unfold zlen at 2. simpl. lia.
    + lia.
  - destruct (_ <? _); [|done]. apply Forall_app. split; [done|].
    constructor; [|done]. rewrite length_take. unfold kIpListParseSampleChars. lia.
Qed.

Lemma rejectAll_ok ts rs : resultOk rs -> resultOk (rejectAll ts (fst rs), snd rs).
Proof.
  revert rs. unfold rejectAll. induction ts as [|t ts IH]; intros [r seen] H; [done|].
  apply (IH (reject t r, seen)). by apply (reject_ok t (r, seen)).
Qed.

Lemma addCidr_ok port c rs : 0 <= port <= 65535 -> cidrText c -> resultOk rs ->
  resultOk (addCidr port rs c).
Proof.
  intros Hp Hc H. destruct rs as [r seen]. unfold addCidr. destruct (decide _) as [Hin|Hin].
  - destruct H as [H1 H2 H3 H4 H5 H6]. split; simpl in *; try done. lia.
  - destruct H as [H1 H2 H3 H4 H5 H6]. simpl in *. rewrite H2 in Hin.
    split; cbn [fst snd entries rejected duplicates samples]; try done.
    + rewrite map_app. apply NoDup_app. split; [done|]. split; [|apply NoDup_singleton].
      intros k Hk [->|Hk']%elem_of_cons; [done|]. by apply elem_of_nil in Hk'.
    + intros k. rewrite map_app, elem_of_app, elem_of_union, elem_of_singleton, H2. simpl.
      rewrite list_elem_of_singleton. tauto.
    + apply Forall_app. split; [done|]. constructor; [|done]. simpl. by split.
Qed.

Lemma addCidrs_ok d cs port rs : 0 <= d <= 65535 -> port <= 65535 -> Forall cidrText cs ->
  resultOk rs -> resultOk (addCidrs d cs port rs).
Proof.
  intros Hd Hp Hc. unfold addCidrs.
  assert (Hport : 0 <= (if port <=? 0 then d else port) <= 65535)
    by (destruct (port <=? 0) eqn:E; zbool; lia).
  revert Hport. generalize (if port <=? 0 then d else port) as q. intros q Hq.
  revert rs. induction Hc as [|c cs Hc Hcs IH]; intros rs H; [done|].
  simpl. apply IH. by apply addCidr_ok.
Qed.

(** ** Tokens *)

Definition tokenOk (t : IpListParseToken) : Prop :=
  tkPort t <= 65535 /\ Forall cidrText (tkCidrs t) /\ (tkKind t = KPort -> 0 <= tkPort t).

Lemma ipListParsePort_bound t p : ipListParsePort t = Some p -> 0 <= p <= 65535.
Proof.
  unfold ipListParsePort. destruct (ipListParseDecimal t 5) as [v|] eqn:E; [|done].
  apply ipListParseDecimal_bound in E. destruct (65535 <? v) eqn:Ev; [done|].
  intros [= <-]. zbool. lia.
Qed.

Lemma coverRange_text first last cs : wfAddr first -> wfAddr last -> v6 first = v6 last ->
  addrVal first <= addrVal last -> ipListParseIsMapped first = false -> ipListParseIsMapped last = false ->
  ipListParseCoverRange first last = Some cs -> Forall cidrText cs.
Proof.
  intros Ha Hb Hv Hle Hf Hl. pose proof (fun bl => coverBlocks_wf first last bl Ha Hb Hv Hle) as H.
  pose proof (fun bl E R => coverBlocks_whole first last bl R Ha Hb Hv Hle E) as Hwhole.
  unfold ipListParseCoverRange. destruct (coverBlocks first last) as [bl|]; [|done]. specialize (H bl eq_refl). specialize (Hwhole bl eq_refl mappedStart).
  intros [= <-]. apply Forall_map. apply Forall_forall. intros [a p] Hin. rewrite Forall_forall in H.
  destruct (H _ Hin) as (Hw & Hp & Hd & Hfam). exists a, p. split; [|done]. split; [done|]. split; [done|]. split; [done|].
  cbn [fst snd] in *. intros Hm. pose proof (mapped_block a p Hw Hp Hd Hm). pose proof (mapped_range a Hw) as Hr. rewrite Hm in Hr.
  destruct (proj1 Hr eq_refl) as [Hv6 Hra].
  assert (Hout : forall x, wfAddr x -> v6 x = true -> ipListParseIsMapped x = false -> ~ mappedStart <= addrVal x < mappedStart + 2 ^ 32).
  { intros x Hx Hvx Hmx Hrx. pose proof (proj2 (mapped_range x Hx) (conj Hvx Hrx)). congruence. }
  rewrite Forall_forall in Hwhole.
  assert (Hbig : 2 ^ 32 <= blockSize (a, p)).
  { apply (Hwhole ltac:(by exists 65535) ltac:(apply Hout; [done|congruence|done]) ltac:(apply Hout; [done|congruence|done]) (a, p) Hin Hra). }
  unfold blockSize, ipListParseBits in Hbig, Hp. cbn [fst snd] in Hbig, Hp. rewrite Hv6 in Hbig, Hp.
  apply Z.pow_le_mono_r_iff in Hbig; lia.
Qed.

Lemma ipListParseRangeEnd_wf t a : ipListParseRangeEnd t = Some a -> wfAddr a /\ ipListParseIsMapped a = false.
Proof.
  unfold ipListParseRangeEnd. destruct (contains cSlash _); [done|].
  destruct (ipListParseAddress _) as [b|] eqn:E; [|done]. apply ipListParseAddress_wf in E.
  intros [= <-]. destruct (ipListParseIsMapped b) eqn:Em; [split; [apply unmapAddr_wf|done]|done].
Qed.

Lemma rangeLast_wf first t last : wfAddr first -> rangeLast first t = Some last ->
  wfAddr last /\ v6 last = v6 first /\ ipListParseIsMapped last = false.
Proof.
  intros Ha. unfold rangeLast.
  destruct (if negb (v6 first) then ipListParseDecimal t 3 else None) as [o|] eqn:E.
  - destruct (v6 first) eqn:Ev; [done|]. cbn [negb] in E. apply ipListParseDecimal_bound in E.
    destruct (_ || _) eqn:Eo; [done|]. zbool. intros [= <-]. split; [|split; done].
    unfold wfAddr in *. rewrite Ev in Ha. cbn [v6 hi lo]. split; [apply Ha|].
    apply lor_bound; [lia| |lia].
    assert (0 <= Z.land (lo first) (max_u64 - 255) < 2 ^ 32); [|done].
    rewrite (land_mask (lo first) _ 8 32); [apply sub_mod_bound; lia|lia|lia|lia|].
    intros i Hi. change (max_u64 - 255) with (Z.shiftl (Z.ones 56) 8).
    rewrite Z.shiftl_spec by lia. destruct (8 <=? i) eqn:E8; zbool.
    + apply Z.ones_spec_low. lia.
    + by rewrite Z.testbit_neg_r by lia.
  - destruct (ipListParseRangeEnd t) as [b|] eqn:Eb; [|done].
    destruct (Bool.eqb (v6 b) (v6 first)) eqn:Ev; [|done]. intros [= <-].
    apply eqb_prop in Ev. apply ipListParseRangeEnd_wf in Eb as [? ?]. done.
Qed.

Lemma rangeRight_port t r p : rangeRight t = Some (r, p) -> p <= 65535.
Proof.
  unfold rangeRight. destruct (startsWithChar cLBracket t).
  - destruct (indexOf cRBracket t) as [close|]; [|done].
    destruct (isNil _); [intros [= _ <-]; lia|].
    destruct (negb _); [done|]. destruct (ipListParsePort _) as [q|] eqn:E; [|done].
    intros [= _ <-]. apply ipListParsePort_bound in E. lia.
  - destruct (countChar cColon t =? 1); [|intros [= _ <-]; lia].
    destruct (indexOf cColon t); [|done]. destruct (ipListParsePort _) as [q|] eqn:E; [|done].
    intros [= _ <-]. apply ipListParsePort_bound in E. lia.
Qed.

Lemma ipListParseRangeToken_ok t cs p : ipListParseRangeToken t = Some (cs, p) ->
  Forall cidrText cs /\ p <= 65535.
Proof.
  unfold ipListParseRangeToken. destruct (indexOf cDash t) as [dash|]; [|done].
  destruct (rangeRight _) as [[r q]|] eqn:Er; [|done]. apply rangeRight_port in Er.
  destruct (ipListParseRangeEnd _) as [a|] eqn:Ea; [|done]. apply ipListParseRangeEnd_wf in Ea as [Ea Hma].
  destruct (rangeLast a r) as [b|] eqn:Eb; [|done].
  apply rangeLast_wf in Eb as (Eb & Hv & Hmb); [|done].
  rewrite ipListParseLess_spec by done.
  destruct (addrVal b <? addrVal a) eqn:El; zbool.
  - destruct (ipListParseCoverRange b a) as [xs|] eqn:Ec; [|done]. intros [= <- <-].
    split; [|done]. eapply coverRange_text; [exact Eb|exact Ea|done|lia|done|done|done].
  - destruct (ipListParseCoverRange a b) as [xs|] eqn:Ec; [|done]. intros [= <- <-].
    split; [|done]. eapply coverRange_text; [exact Ea|exact Eb|done|lia|done|done|done].
Qed.

Section Qt.
Context {Q : QtChar}.

Lemma ipListParseAddressToken_ok t cs p : ipListParseAddressToken t = Some (cs, p) ->
  Forall cidrText cs /\ p <= 65535.
Proof.
  unfold ipListParseAddressToken. destruct (isNil t); [done|].
  destruct (contains cDash t); [apply ipListParseRangeToken_ok|].
  match goal with |- match ?e with _ => _ end = _ -> _ => destruct e as [[net q]|] eqn:En end; [|done].
  destruct (ipListParseNetwork net) as [[a pfx]|] eqn:Ea; [|done]. intros [= <- <-].
  apply ipListParseNetwork_canon in Ea. split.
  { constructor; [|done]. exists a, pfx. split; [by apply canonNet_network|done]. }
  destruct (startsWithChar cLBracket t).
  - destruct (indexOf cRBracket t); [|done]. destruct (startsWithChar cColon _); [|injection En as _ <-; lia].
    destruct (ipListParsePort _) as [w|] eqn:E; [|done]. injection En as _ <-.
    apply ipListParsePort_bound in E. lia.
  - destruct (countChar cColon t =? 1); [|injection En as _ <-; lia].
    destruct (indexOf cColon t); [|done]. destruct (ipListParsePort _) as [w|] eqn:E; [|done].
    injection En as _ <-. apply ipListParsePort_bound in E. lia.
Qed.

Lemma wordToken_ok f w t : wordToken f w = Some t -> tokenOk t.
Proof.
  unfold wordToken. destruct (isNil _); [done|]. intros [= <-].
  destruct (ipListParseAddressToken _) as [[cs p]|] eqn:E.
  - apply ipListParseAddressToken_ok in E as [? ?]. by split.
  - destruct (ipListParsePort _) as [p|] eqn:Ep.
    + apply ipListParsePort_bound in Ep. split; simpl; [lia|]. split; [done|lia].
    + split; simpl; [lia|]. by split.
Qed.

Lemma lineTokens_ok f fields : Forall tokenOk (lineTokens f fields).
Proof.
  revert f. induction fields as [|x fields IH]; intros f; simpl; [done|].
  apply Forall_app. split; [|done]. unfold fieldTokens.
  apply Forall_forall. intros t Ht. apply list_elem_of_omap in Ht as (w & _ & Hw).
  by eapply wordToken_ok.
Qed.

Lemma columnPort_bound fields c f p : columnPort fields c f = Some p -> p <= 65535.
Proof.
  unfold columnPort. destruct c as [c|]; [|done]. destruct (_ && _); [|done].
  destruct (fields !! c); [|done]. intros H. apply ipListParsePort_bound in H. lia.
Qed.

Lemma emitTokens_ok d tab tabF fields col tokens rs : 0 <= d <= 65535 ->
  Forall tokenOk tokens -> resultOk rs ->
  resultOk (emitTokens d tab tabF fields col tokens rs).
Proof.
  intros Hd. remember (length tokens) as n eqn:Hn.
  assert (Hle : (length tokens <= n)%nat) by lia. clear Hn. revert tokens Hle rs.
  induction n as [|n IH]; intros [|t rest] Hle rs Ht H; [done|simpl in Hle; lia|done|].
  simpl in Hle. apply Forall_cons in Ht as [(Hp & Hc & _) Hrest]. cbn [emitTokens]. cbv zeta.
  assert (Hrej : forall b : bool, resultOk (if b then (reject (tkText t) (fst rs), snd rs) else rs)).
  { intros []; [by apply reject_ok|done]. }
  destruct (tkKind t); [|apply IH; auto; lia|apply IH; auto; lia].
  destruct ((tkPort t <? 0) && tabF).
  - apply IH; [lia|done|]. apply addCidrs_ok; try done.
    destruct (columnPort _ _ _) eqn:E; [by eapply columnPort_bound|done].
  - destruct rest as [|next rest']; [apply IH; try done; [lia|]; by apply addCidrs_ok|].
    simpl in Hle. destruct (_ && _).
    + apply Forall_cons in Hrest as [(Hp' & _) Hrest]. apply IH; [lia|done|]. by apply addCidrs_ok.
    + apply IH; [simpl; lia|done|]. by apply addCidrs_ok.
Qed.

Lemma parseLine_ok d line st : 0 <= d <= 65535 -> resultOk (psResult st, psSeen st) ->
  resultOk (psResult (parseLine d line st), psSeen (parseLine d line st)).
Proof.
  intros Hd H. unfold parseLine. cbv zeta. destruct (_ || _); [done|]. destruct (isNil _); [done|].
  match goal with |- context [emitTokens _ _ _ ?f _ ?t _] =>
    pose proof (lineTokens_ok 0 f) as Htok; generalize dependent f; intros fs Htok end.
  destruct (negb _).
  - unfold noAddressLine. destruct (_ && _); [done|]. cbv zeta. cbn [psResult psSeen].
    destruct (negb _); [by apply (rejectAll_ok _ (psResult st, psSeen st))|].
    destruct (existsb _ _); [by apply (rejectAll_ok _ (psResult st, psSeen st))|].
    by apply (reject_ok _ (psResult st, psSeen st)).
  - pose proof (emitTokens_ok d) as He.
    match goal with |- context [emitTokens ?a ?b ?c ?d ?e ?f ?g] =>
      specialize (He b c d e f g Hd Htok H); destruct (emitTokens a b c d e f g) as [r s] end.
    done.
Qed.

Lemma ParseIpListText_ok text d : exists seen, resultOk (ParseIpListText text d, seen).
Proof.
  unfold ParseIpListText. cbv zeta.
  assert (Hd : 0 <= clampDefaultPort d <= 65535).
  { unfold clampDefaultPort. destruct (_ || _) eqn:E; zbool; lia. }
  generalize (contentLines (if startsWithChar 65279 text then drop 1 text else text)) as lines.
  intros lines. set (st0 := mkState emptyResult ∅ true false None).
  assert (H0 : resultOk (psResult st0, psSeen st0)).
  { split; simpl; first [done | by constructor | intros k; rewrite elem_of_empty, elem_of_nil; tauto]. }
  revert H0. generalize st0 as st. induction lines as [|l lines IH]; intros st H.
  - by exists (psSeen st).
  - simpl. apply IH. by apply parseLine_ok.
Qed.

(** C7: Whatever text is read, the list holds no (network, port) pair twice.
    Every entry's text is the printed form of a network, the aligned first
    address of a block that is not the whole address space, and has a port from 0
    to 65535; and it is canonical: reading the text as a network gives it back,
    for every entry but the block of all IPv4-mapped addresses, which a range can
    hold and no network names.  The rejected tokens are sampled: the first five,
    64 characters each. *)
Theorem ParseIpListText_sound {QL : QtCharLaws Q} text d :
  let r := ParseIpListText text d in
  NoDup (map (fun e => (cidr e, port e)) (entries r)) /\
  Forall (fun e =>
    (exists a p, wfAddr a /\ 0 < p <= ipListParseBits a /\ (2 ^ (ipListParseBits a - p) | addrVal a) /\ cidr e = ipListParseCidr a p) /\
    (NormalizeCidr (cidr e) = cidr e \/ cidr e = u "::ffff:0:0/96") /\
    0 <= port e <= 65535 /\ latencyMs e = 0) (entries r) /\
  zlen (samples r) = Z.min 5 (rejected r) /\
  Forall (fun s => (length s <= 64)%nat) (samples r) /\ 0 <= duplicates r.
Proof.
  destruct (ParseIpListText_ok text d) as [seen [H1 H2 H3 H4 H5 H6]]. cbn [fst snd] in *.
  cbv zeta. split; [|split; [|done]].
  - apply (NoDup_fmap_1 (fun k : qstr * Z => fst k ++ [cSpace] ++ number (snd k))). by rewrite <- list_fmap_compose.
  - eapply Forall_impl; [exact H3|]. intros e ((a & p & Hn & ->) & Hport). split; [|split; [|done]].
    + destruct Hn as (? & ? & ? & _). by exists a, p.
    + destruct (ipListParseIsMapped a) eqn:Hm; [right; by apply network_mapped|left]. unfold NormalizeCidr.
      by rewrite (ipListParseNetwork_cidr a p (network_canonNet a p Hn Hm)).
Qed.

Lemma entriesLoop_spec d cs seen acc :
  NoDup (map cidr acc) -> (forall c, c ∈ seen <-> c ∈ map cidr acc) ->
  let r := entriesLoop d cs seen acc in
  NoDup (map cidr r) /\
  (forall c, c ∈ map cidr r <->
     c ∈ map cidr acc \/ c <> [] /\ exists t, t ∈ cs /\ NormalizeCidr t = c) /\
  (Forall (fun e => port e = d /\ latencyMs e = 0) acc ->
   Forall (fun e => port e = d /\ latencyMs e = 0) r).
Proof.
  revert seen acc. induction cs as [|t cs IH]; intros seen acc Hn Hs; cbv zeta; cbn [entriesLoop].
  - split; [done|]. split; [|done]. intros c. split; [by left|].
    intros [H|(_ & t & Ht & _)]; [done|by apply elem_of_nil in Ht].
  - cbv zeta. destruct (isNil (NormalizeCidr t) || bool_decide (NormalizeCidr t ∈ seen)) eqn:E.
    + destruct (IH seen acc Hn Hs) as (H1 & H2 & H3). split; [done|]. split; [|done].
      intros c. rewrite H2. split.
      * intros [H|(Hc & t' & Ht & Heq)]; [by left|]. right. split; [done|]. exists t'. split; [by right|done].
      * intros [H|(Hc & t' & Ht & Heq)]; [by left|]. apply elem_of_cons in Ht as [->|Ht]; [|eauto].
        apply orb_true_iff in E as [E|E].
        -- exfalso. apply Hc. rewrite <- Heq. by destruct (NormalizeCidr t).
        -- left. apply bool_decide_eq_true in E. rewrite <- Heq. by apply Hs.
    + apply orb_false_iff in E as [E1 E2]. apply bool_decide_eq_false in E2. rewrite Hs in E2.
      destruct (IH ({[NormalizeCidr t]} ∪ seen) (acc ++ [mkEntry (NormalizeCidr t) d 0]))
        as (H1 & H2 & H3).
      { rewrite map_app. apply NoDup_app. split; [done|]. split; [|apply NoDup_singleton].
        intros c Hc [->|Hc']%elem_of_cons; [done|]. by apply elem_of_nil in Hc'. }
      { intros c. rewrite map_app, elem_of_app, elem_of_union, elem_of_singleton, Hs. simpl.
        rewrite list_elem_of_singleton. tauto. }
      split; [done|]. split.
      * intros c. rewrite H2, map_app, elem_of_app. simpl. rewrite list_elem_of_singleton. split.
        -- intros [[H| ->]|(Hc & t' & Ht & Heq)]; [by left| |].
           ++ right. split; [intros Hnil; by rewrite Hnil in E1|]. exists t. split; [by left|done].
           ++ right. split; [done|]. exists t'. split; [by right|done].
        -- intros [H|(Hc & t' & Ht & Heq)]; [tauto|]. apply elem_of_cons in Ht as [->|Ht]; [|eauto].
           left. by right.
      * intros Hall. apply H3. apply Forall_app. split; [done|]. by constructor.
Qed.

(** [EntriesFromCidrs] lists each network once: its texts are without
    duplicates, they are exactly the non-empty normal forms of the given texts,
    and every entry has the (clamped) default port. *)
Theorem EntriesFromCidrs_spec cs d :
  let r := EntriesFromCidrs cs d in
  NoDup (map cidr r) /\
  (forall c, c ∈ map cidr r <-> c <> [] /\ exists t, t ∈ cs /\ NormalizeCidr t = c) /\
  Forall (fun e => port e = clampDefaultPort d /\ latencyMs e = 0) r.
Proof.
  unfold EntriesFromCidrs. cbv zeta.
  destruct (entriesLoop_spec (clampDefaultPort d) cs ∅ []) as (H1 & H2 & H3).
  - constructor.
  - intros c. simpl. rewrite elem_of_empty, elem_of_nil. tauto.
  - split; [done|]. split; [|by apply H3]. intros c. rewrite H2. simpl. rewrite elem_of_nil. tauto.
Qed.

(** ** One line of one entry *)

Context {QL : QtCharLaws Q}.

(** Characters of the text an entry is written as, the separator apart. *)
Definition isEntryChar (c : Z) : Prop := isCidrChar c \/ c = cLBracket \/ c = cRBracket.

Lemma entryChar_not_space c : isEntryChar c -> isSpace c = false.
Proof. unfold isEntryChar, isCidrChar. intros H. rewrite isSpace_ascii by lia. lia. Qed.

Lemma entryText_unquote s : Forall isEntryChar s -> ipListParseUnquote s = s.
Proof.
  intros H. assert (Ht : trimmed s = s).
  { apply trimmed_no_space. eapply Forall_impl; [exact H|]. apply entryChar_not_space. }
  unfold ipListParseUnquote. rewrite Ht.
  assert (Hq : Forall (fun c => isQuote c = false) s).
  { eapply Forall_impl; [exact H|]. unfold isQuote, isEntryChar, isCidrChar. intros c Hc. lia. }
  rewrite dropWhile_none, dropWhileEnd_none by done. done.
Qed.

Lemma splitBy_none f s : Forall (fun c => f c = false) s -> splitBy f s = [s].
Proof. induction 1 as [|c s Hc _ IH]; simpl; [done|]. by rewrite Hc, IH. Qed.

Lemma splitBy_app f p c s : Forall (fun c => f c = false) p -> f c = true ->
  splitBy f (p ++ c :: s) = p :: splitBy f s.
Proof. induction 1 as [|x p Hx _ IH]; intros Hc; simpl; [by rewrite Hc|]. by rewrite Hx, IH. Qed.

Lemma existsb_none {A} (f : A -> bool) l : Forall (fun x => f x = false) l -> existsb f l = false.
Proof. induction 1 as [|x l Hx _ IH]; simpl; [done|]. by rewrite Hx. Qed.

(** *** The line *)

Definition noDoubleSlash (s : qstr) : Prop := indexOfStr (u "//") s = None.

Lemma noDoubleSlash_app p s : contains cSlash p = false -> noDoubleSlash s -> noDoubleSlash (p ++ s).
Proof.
  unfold noDoubleSlash. intros Hp Hs. induction p as [|c p IH]; [done|].
  rewrite contains_cons in Hp. apply orb_false_iff in Hp as [Hc Hp].
  cbn [app]. rewrite indexOfStr_cons, (IH Hp). change (u "//") with [47; 47].
  cbn [startsWith]. by rewrite Hc.
Qed.

Lemma noDoubleSlash_none s : contains cSlash s = false -> noDoubleSlash s.
Proof. intros H. rewrite <- (app_nil_r s). by apply noDoubleSlash_app. Qed.

Lemma noDoubleSlash_one s : contains cSlash s = false -> noDoubleSlash (cSlash :: s).
Proof.
  intros H. unfold noDoubleSlash. rewrite indexOfStr_cons.
  rewrite (noDoubleSlash_none s H). change (u "//") with [47; 47]. cbn [startsWith].
  destruct s as [|d s]; [done|]. rewrite contains_cons in H.
  apply orb_false_iff in H as [H _]. by rewrite H.
Qed.

Lemma cidr_noDoubleSlash a p : wfAddr a -> 0 < p -> noDoubleSlash (ipListParseCidr a p).
Proof.
  intros Ha Hp. unfold ipListParseCidr. pose proof (ipListParseFormat_noSlash a Ha).
  destruct (_ <=? p); [by apply noDoubleSlash_none|]. apply noDoubleSlash_app; [done|].
  apply noDoubleSlash_one. apply digits_no_char; [apply number_isDigit; lia|lia].
Qed.

(** Characters of a whole entry line. *)
Definition isLineChar (c : Z) : Prop := isEntryChar c \/ c = cSpace.

Lemma lineChar_none c s : Forall isLineChar s -> ~ isLineChar c -> contains c s = false.
Proof. apply chars_none. Qed.

Ltac line_char := unfold isLineChar, isEntryChar, isCidrChar; lia.

Lemma stripLine_id s : Forall isLineChar s -> noDoubleSlash s -> trimmed s = s -> stripLine s = s.
Proof.
  intros Hs Hd Ht. unfold stripLine.
  rewrite (proj2 (indexOf_None _ _)) by (apply (lineChar_none _ _ Hs); line_char).
  cbn [cutAt]. by rewrite Hd.
Qed.

(** A text that is one entry line is read as that line alone. *)
Lemma ParseIpListText_line s d : Forall isLineChar s -> s <> [] ->
  ParseIpListText s d
  = psResult (parseLine (clampDefaultPort d) s (mkState emptyResult ∅ true false None)).
Proof.
  intros Hs Hne. unfold ParseIpListText. cbv zeta.
  rewrite startsWithChar_none by (apply (lineChar_none _ _ Hs); line_char).
  unfold contentLines. rewrite splitOn_no_sep by (apply (lineChar_none _ _ Hs); line_char).
  by destruct s.
Qed.

(** The start of [parseLine] on such a line. *)
Lemma parseLine_fields d s st : Forall isLineChar s -> s <> [] -> noDoubleSlash s ->
  trimmed s = s ->
  parseLine d s st =
  let fields := map ipListParseUnquote (ipListParseSplit s false) in
  let tokens := lineTokens 0 fields in
  if isNil tokens then st
  else
    let isAddress t := isAddressKind (tkKind t) in
    let addressShaped :=
      existsb (fun t => negb (isAddress t) && ipListParseLooksLikeAddress (tkText t)) tokens in
    let namesColumn := existsb (fun t => ipListParseIsColumnName (tkText t)) tokens in
    if negb (existsb isAddress tokens) then
      noAddressLine st s fields tokens (psTabular st) addressShaped namesColumn
    else
      let (r, seen) := emitTokens d (psTabular st) (psTabular st) fields (psPortColumn st)
                         tokens (psResult st, psSeen st) in
      mkState r seen false (psTabular st) (psPortColumn st).
Proof.
  intros Hs Hne Hd Ht. unfold parseLine. cbv zeta. rewrite stripLine_id by done.
  rewrite isNil_false by done.
  rewrite startsWithChar_none by (apply (lineChar_none _ _ Hs); line_char).
  rewrite !(lineChar_none _ _ Hs) by (unfold cEnDash; line_char). cbn [orb].
  rewrite existsb_none; [done|]. eapply Forall_impl; [exact Hs|].
  unfold ipListParseIsSeparator. intros c Hc. apply not_true_iff_false. intros E.
  rewrite !orb_true_iff, !Z.eqb_eq in E. revert Hc. line_char.
Qed.

Lemma split_single s : Forall isEntryChar s -> s <> [] -> ipListParseSplit s false = [s].
Proof.
  intros Hs Hne. unfold ipListParseSplit.
  rewrite splitBy_none by (eapply Forall_impl; [exact Hs|apply entryChar_not_space]).
  simpl. by rewrite isNil_false.
Qed.

Lemma wordToken_address f s cs p : Forall isEntryChar s -> s <> [] ->
  ipListParseAddressToken s = Some (cs, p) -> wordToken f s = Some (mkToken s f KAddress cs p).
Proof.
  intros Hs Hne E. unfold wordToken. rewrite entryText_unquote by done.
  by rewrite isNil_false, E.
Qed.

(** A line that is one address token. *)
Lemma parse_single s c p d : Forall isEntryChar s -> s <> [] -> noDoubleSlash s ->
  ipListParseAddressToken s = Some ([c], p) ->
  ParseIpListText s d
  = mkResult [mkEntry c (if p <=? 0 then clampDefaultPort d else p) 0] 0 0 [].
Proof.
  intros Hs Hne Hd E.
  assert (Hl : Forall isLineChar s) by (eapply Forall_impl; [exact Hs|by left]).
  assert (Ht : trimmed s = s).
  { apply trimmed_no_space. eapply Forall_impl; [exact Hs|]. apply entryChar_not_space. }
  rewrite ParseIpListText_line, parseLine_fields by done. rewrite split_single by done.
  cbn [map]. rewrite entryText_unquote by done. cbv zeta. cbn [lineTokens]. unfold fieldTokens.
  rewrite split_single by done. cbn [omap list_omap]. rewrite (wordToken_address _ _ _ _ Hs Hne E).
  cbn [app isNil existsb tkKind isAddressKind negb orb psTabular psResult psSeen].
  cbn [emitTokens tkKind tkPort tkCidrs]. rewrite andb_false_r.
  unfold addCidrs. cbn [fold_left]. unfold addCidr. by rewrite decide_False by apply not_elem_of_empty.
Qed.

(** A bare number is no address: it has one part where IPv4 needs four. *)
Lemma number_not_address q : 0 <= q -> ipListParseAddressToken (number q) = None.
Proof.
  intros Hq. pose proof (number_isDigit q Hq) as Hd.
  assert (Hnone : forall c, (c < 48 \/ 57 < c) -> contains c (number q) = false)
    by (intros c Hc; by apply digits_no_char).
  unfold ipListParseAddressToken. rewrite isNil_false by by apply number_nonempty.
  rewrite Hnone by lia. rewrite startsWithChar_none by (apply Hnone; lia).
  rewrite countChar_zero by (apply Hnone; lia). cbn [Z.eqb].
  unfold ipListParseNetwork. rewrite cidr_trimmed.
  2:{ eapply Forall_impl; [exact Hd|]. unfold isDigit, isCidrChar. lia. }
  unfold networkParts. rewrite startsWithChar_none by (apply Hnone; lia).
  rewrite (proj2 (indexOf_None _ _)) by (apply Hnone; lia). cbn [isNil negb].
  unfold ipListParseAddress. rewrite Hnone by lia.
  unfold ipListParseV4. rewrite splitOn_no_sep by (apply Hnone; lia). cbn [v4Loop].
  destruct (ipListParseDecimal (number q) 3); [|done].
  destruct (255 <? z); [done|]. destruct (_ && _); [done|]. done.
Qed.

Lemma wordToken_port f q : 0 <= q <= 65535 ->
  wordToken f (number q) = Some (mkToken (number q) f KPort [] q).
Proof.
  intros Hq. unfold wordToken. rewrite entryText_unquote.
  - rewrite isNil_false by (apply number_nonempty; lia).
    rewrite number_not_address by lia. by rewrite ipListParsePort_number by lia.
  - eapply Forall_impl; [apply number_isDigit; lia|]. unfold isDigit, isEntryChar, isCidrChar. lia.
Qed.

(** A line that is a network and a port. *)
Lemma parse_pair s q c d : Forall isEntryChar s -> s <> [] ->
  noDoubleSlash (s ++ [cSpace] ++ number q) ->
  ipListParseAddressToken s = Some ([c], -1) -> 0 < q <= 65535 ->
  ParseIpListText (s ++ [cSpace] ++ number q) d = mkResult [mkEntry c q 0] 0 0 [].
Proof.
  intros Hs Hne Hd E Hq.
  assert (Hn : Forall isEntryChar (number q)).
  { eapply Forall_impl; [apply number_isDigit; lia|]. unfold isDigit, isEntryChar, isCidrChar. lia. }
  pose proof (number_nonempty q ltac:(lia)) as Hqne.
  assert (Hl : Forall isLineChar (s ++ [cSpace] ++ number q)).
  { rewrite !Forall_app. split; [eapply Forall_impl; [exact Hs|by left]|].
    split; [constructor; [by right|done]|eapply Forall_impl; [exact Hn|by left]]. }
  assert (Hsp : forall t, Forall isEntryChar t -> Forall (fun c => isSpace c = false) t).
  { intros t H. eapply Forall_impl; [exact H|]. apply entryChar_not_space. }
  assert (Ht : trimmed (s ++ [cSpace] ++ number q) = s ++ [cSpace] ++ number q).
  { apply trimmed_ends; auto. }
  assert (Hsplit : ipListParseSplit (s ++ [cSpace] ++ number q) false = [s; number q]).
  { unfold ipListParseSplit. cbn [app]. rewrite splitBy_app, splitBy_none by (auto || by apply isSpace_ascii).
    simpl. by rewrite !isNil_false. }
  assert (Hline : s ++ [cSpace] ++ number q <> []) by (by destruct s).
  rewrite ParseIpListText_line, parseLine_fields by done.
  rewrite Hsplit. cbn [map]. rewrite !entryText_unquote by done. cbv zeta. cbn [lineTokens]. unfold fieldTokens.
  rewrite !split_single by done. cbn [omap list_omap]. rewrite (wordToken_address _ _ _ _ Hs Hne E).
  rewrite (wordToken_port 1 q) by lia.
  cbn [app isNil existsb tkKind isAddressKind negb orb psTabular psResult psSeen].
  cbn [emitTokens tkKind tkPort tkCidrs isPortKind andb Z.ltb Z.compare].
  unfold addCidrs. replace (q <=? 0) with false by lia. cbn [fold_left]. unfold addCidr.
  by rewrite decide_False by apply not_elem_of_empty.
Qed.

(** *** The texts [FormatEntry] writes *)

Lemma countChar_same c s : countChar c (c :: s) = 1 + countChar c s.
Proof. cbn [countChar]. by rewrite Z.eqb_refl. Qed.

Lemma countChar_format a : wfAddr a ->
  if v6 a then 2 <= countChar cColon (ipListParseFormat a)
  else countChar cColon (ipListParseFormat a) = 0.
Proof.
  intros Ha. destruct (formatText a Ha) as [[-> Hc]|(-> & _ & best & len & Hgood & ->)].
  - apply countChar_zero. apply (chars_none _ _ _ Hc). unfold isV4Char, isDigit. lia.
  - apply wfAddr_halves in Ha as [Hh Hl]. destruct (addrGroups_spec a Hh Hl) as (Hlen & _).
    assert (Hnn := countChar_nonneg cColon).
    destruct best as [s|]; unfold v6Text.
    + rewrite !countChar_app. change (countChar cColon (u "::")) with 2.
      pose proof (Hnn (hexGroups (take s (addrGroups a)))).
      pose proof (Hnn (hexGroups (drop (s + len) (addrGroups a)))). lia.
    + destruct (addrGroups a) as [|g [|g' [|g'' gs]]]; try done.
      rewrite !hexGroups_cons, countChar_app, countChar_same, countChar_app, countChar_same.
      pose proof (Hnn (numberHex g)). pose proof (Hnn (numberHex g')).
      pose proof (Hnn (hexGroups (g'' :: gs))). lia.
Qed.

Lemma contains_countChar c s : contains c s = true -> 0 < countChar c s.
Proof.
  induction s as [|x s IH]; [done|]. rewrite contains_cons. cbn [countChar].
  pose proof (countChar_nonneg c s). rewrite (Z.eqb_sym c x). destruct (x =? c); [lia|].
  intros H1. apply IH in H1. lia.
Qed.

Lemma contains_format a : wfAddr a -> contains cColon (ipListParseFormat a) = v6 a.
Proof.
  intros Ha. pose proof (countChar_format a Ha). destruct (v6 a) eqn:Ev.
  - destruct (contains _ _) eqn:E; [done|]. apply countChar_zero in E. lia.
  - destruct (contains _ _) eqn:E; [|done]. apply contains_countChar in E. lia.
Qed.

Lemma cidr_entryChars a p : wfAddr a -> 0 < p -> Forall isEntryChar (ipListParseCidr a p).
Proof. intros Ha Hp. eapply Forall_impl; [by apply ipListParseCidr_chars|]. by left. Qed.

Lemma cidr_nonempty a p : wfAddr a -> ipListParseCidr a p <> [].
Proof.
  intros Ha. pose proof (ipListParseFormat_nonempty a Ha). unfold ipListParseCidr.
  destruct (_ <=? p); [done|]. by destruct (ipListParseFormat a).
Qed.

(** Without a port: the CIDR text itself. *)
Lemma addressToken_cidr a p : canonNet a p ->
  ipListParseAddressToken (ipListParseCidr a p) = Some ([ipListParseCidr a p], -1).
Proof.
  intros Hc. pose proof Hc as (Ha & Hp & _).
  pose proof (cidr_entryChars a p Ha ltac:(lia)) as He.
  unfold ipListParseAddressToken. rewrite isNil_false by by apply cidr_nonempty.
  pose proof (ipListParseCidr_chars a p Ha ltac:(lia)) as Hch.
  rewrite (chars_none _ _ _ Hch) by (unfold isCidrChar; lia).
  rewrite startsWithChar_none by (apply (chars_none _ _ _ Hch); unfold isCidrChar; lia).
  assert (Hcount : (countChar cColon (ipListParseCidr a p) =? 1) = false).
  { pose proof (countChar_format a Ha) as H. unfold ipListParseCidr.
    assert (Hx : countChar cColon ([cSlash] ++ number p) = 0).
    { apply countChar_zero. cbn [app]. rewrite contains_cons. cbn [Z.eqb Pos.eqb orb].
      apply digits_no_char; [apply number_isDigit; lia|lia]. }
    apply Z.eqb_neq.
    destruct (_ <=? p); rewrite ?(countChar_app _ (ipListParseFormat a)), ?Hx; revert H; destruct (v6 a); lia. }
  rewrite Hcount. by rewrite ipListParseNetwork_cidr.
Qed.

(** With a port: an IPv4 host. *)
Lemma addressToken_v4_port a q : canonNet a 32 -> v6 a = false -> 0 <= q <= 65535 ->
  ipListParseAddressToken (ipListParseFormat a ++ [cColon] ++ number q)
  = Some ([ipListParseFormat a], q).
Proof.
  intros Hc Hv Hq. pose proof Hc as (Ha & Hp & _).
  assert (Hb : ipListParseBits a = 32) by (unfold ipListParseBits; by rewrite Hv).
  assert (Hcidr : ipListParseCidr a 32 = ipListParseFormat a).
  { unfold ipListParseCidr. by rewrite Hb. }
  pose proof (ipListParseFormat_chars a Ha) as Hch.
  pose proof (number_isDigit q ltac:(lia)) as Hd.
  assert (Hall : Forall isCidrChar (ipListParseFormat a ++ [cColon] ++ number q)).
  { rewrite !Forall_app. split; [done|]. split; [constructor; [unfold isCidrChar; lia|done]|].
    eapply Forall_impl; [exact Hd|]. unfold isDigit, isCidrChar. lia. }
  unfold ipListParseAddressToken.
  rewrite isNil_false by (by destruct (ipListParseFormat a)).
  rewrite (chars_none _ _ _ Hall) by (unfold isCidrChar; lia).
  rewrite startsWithChar_none by (apply (chars_none _ _ _ Hall); unfold isCidrChar; lia).
  pose proof (contains_format a Ha) as Hcf. rewrite Hv in Hcf.
  rewrite !countChar_app, countChar_zero by done.
  rewrite (countChar_zero _ (number q)) by (apply digits_no_char; [done|lia]).
  change (countChar cColon [cColon]) with 1. cbn [Z.add Z.eqb Pos.eqb].
  cbn [app]. rewrite indexOf_app_cons by done. rewrite drop_app_cons, take_app_length.
  rewrite ipListParsePort_number by done. rewrite <- Hcidr at 1.
  rewrite ipListParseNetwork_cidr by done. by rewrite Hcidr.
Qed.

(** With a port: a bracketed IPv6 host. *)
Lemma addressToken_v6_port a q : canonNet a 128 -> v6 a = true -> 0 <= q <= 65535 ->
  ipListParseAddressToken ([cLBracket] ++ ipListParseFormat a ++ u "]:" ++ number q)
  = Some ([ipListParseFormat a], q).
Proof.
  intros Hc Hv Hq. pose proof Hc as (Ha & Hp & Hm & Hmap).
  assert (Hb : ipListParseBits a = 128) by (unfold ipListParseBits; by rewrite Hv).
  pose proof (ipListParseFormat_chars a Ha) as Hch.
  pose proof (number_isDigit q ltac:(lia)) as Hd.
  assert (Hnb : contains cRBracket (cLBracket :: ipListParseFormat a) = false).
  { rewrite contains_cons. cbn [Z.eqb Pos.eqb orb]. apply (chars_none _ _ _ Hch). unfold isCidrChar. lia. }
  unfold ipListParseAddressToken. change (u "]:") with [cRBracket; cColon].
  cbn [app isNil startsWithChar Z.eqb Pos.eqb].
  change (cLBracket :: ipListParseFormat a ++ cRBracket :: cColon :: number q)
    with ((cLBracket :: ipListParseFormat a) ++ cRBracket :: cColon :: number q).
  rewrite contains_app, contains_cons, (chars_none _ _ _ Hch) by (unfold isCidrChar; lia).
  rewrite !contains_cons, (digits_no_char _ _ Hd) by lia. cbn [Z.eqb Pos.eqb orb].
  rewrite indexOf_app_cons by done. rewrite drop_app_cons.
  cbn [startsWithChar Z.eqb Pos.eqb drop]. rewrite drop_0, ipListParsePort_number by done.
  rewrite take_app_add. cbn [take].
  assert (Hnet : ipListParseNetwork ((cLBracket :: ipListParseFormat a) ++ [cRBracket]) = Some (a, 128)).
  { unfold ipListParseNetwork.
    assert (Ht : trimmed ((cLBracket :: ipListParseFormat a) ++ [cRBracket])
      = (cLBracket :: ipListParseFormat a) ++ [cRBracket]).
    { apply trimmed_no_space. eapply Forall_impl; [|apply entryChar_not_space].
      rewrite Forall_app. split; [constructor; [by right; left|]|by constructor; [right; right|]].
      eapply Forall_impl; [exact Hch|]. by left. }
    rewrite Ht. unfold networkParts. cbn [app startsWithChar Z.eqb Pos.eqb].
    change (cLBracket :: ipListParseFormat a ++ [cRBracket])
      with ((cLBracket :: ipListParseFormat a) ++ [cRBracket]).
    rewrite indexOf_app_cons, drop_app_cons by done. cbn [isNil negb andb app length drop].
    replace (S (length (ipListParseFormat a)) - 1)%nat with (length (ipListParseFormat a)) by lia.
    rewrite drop_0, take_app_length. rewrite (proj2 (indexOf_None _ _)) by by apply ipListParseFormat_noSlash.
    rewrite ipListParseAddress_format by done. cbn [networkPrefix]. rewrite Hb, Hmap.
    cbn [Z.eqb]. by rewrite Hm. }
  rewrite Hnet. unfold ipListParseCidr. by rewrite Hb.
Qed.

Lemma IsHostCidr_cidr a p : canonNet a p ->
  IsHostCidr (ipListParseCidr a p) = (ipListParseBits a <=? p).
Proof.
  intros (Ha & Hp & _). unfold IsHostCidr. rewrite isNil_false by by apply cidr_nonempty.
  pose proof (ipListParseFormat_noSlash a Ha) as Hns.
  assert (Hbits : ipListParseBits a <= 128) by (unfold ipListParseBits; destruct (v6 a); lia).
  unfold ipListParseCidr. destruct (_ <=? p) eqn:E; zbool.
  - by rewrite (proj2 (indexOf_None _ _)).
  - change ([cSlash] ++ number p) with (cSlash :: number p).
    rewrite indexOf_app_cons by done. rewrite drop_app_cons, take_app_length, contains_format by done.
    apply not_true_iff_false. intros Heq. apply eqStr_spec in Heq.
    assert (Hd := ipListParseDecimal_number p 3 ltac:(lia)).
    rewrite Heq in Hd. unfold ipListParseBits in *.
    destruct (v6 a); specialize (Hd ltac:(vm_compute; discriminate)); vm_compute in Hd; injection Hd as Hd; lia.
Qed.

Lemma number_entryChars q : 0 <= q -> Forall isEntryChar (number q).
Proof.
  intros Hq. eapply Forall_impl; [by apply number_isDigit|].
  unfold isDigit, isEntryChar, isCidrChar. lia.
Qed.

(** A host with a port, either family. *)
Lemma parse_host_port a q : canonNet a (ipListParseBits a) -> 0 < q <= 65535 ->
  ParseIpListText (FormatTarget (ipListParseFormat a) q) 0
  = mkResult [mkEntry (ipListParseFormat a) q 0] 0 0 [].
Proof.
  intros Hc Hq. pose proof Hc as (Ha & _).
  assert (Hf : Forall isEntryChar (ipListParseFormat a)).
  { eapply Forall_impl; [by apply ipListParseFormat_chars|]. by left. }
  pose proof (number_entryChars q ltac:(lia)) as Hn.
  pose proof (ipListParseFormat_noSlash a Ha) as Hns.
  assert (Hnd : contains cSlash (number q) = false)
    by (apply digits_no_char; [apply number_isDigit; lia|lia]).
  assert (Hq0 : (q <=? 0) = false) by (apply Z.leb_gt; lia).
  unfold FormatTarget. rewrite Hq0, contains_format by done.
  unfold ipListParseBits in Hc. destruct (v6 a) eqn:Ev.
  - rewrite (parse_single _ (ipListParseFormat a) q); [by rewrite Hq0|..].
    + change (u "]:") with [cRBracket; cColon].
      rewrite !Forall_app. split; [constructor; [by right; left|done]|]. split; [done|]. split; [|done].
      constructor; [by right; right|]. constructor; [left; unfold isCidrChar; lia|done].
    + done.
    + apply noDoubleSlash_none. rewrite !contains_app, Hns, Hnd. done.
    + apply addressToken_v6_port; [done|done|lia].
  - rewrite (parse_single _ (ipListParseFormat a) q); [by rewrite Hq0|..].
    + rewrite !Forall_app. split; [done|]. split; [constructor; [left; unfold isCidrChar; lia|done]|done].
    + by destruct (ipListParseFormat a).
    + apply noDoubleSlash_none. rewrite !contains_app, Hns, Hnd. done.
    + apply addressToken_v4_port; [done|done|lia].
Qed.

(** What [FormatEntry] writes for a list entry reads back as exactly that
    entry: for every canonical network (what [NormalizeCidr] returns) and every
    port, [ParseIpListText] of the written line gives the entry alone, nothing
    rejected and no duplicate. *)
Theorem FormatEntry_roundtrip a p q :
  canonNet a p -> 0 <= q <= 65535 ->
  let e := mkEntry (ipListParseCidr a p) q 0 in
  ParseIpListText (FormatEntry e) 0 = mkResult [e] 0 0 [].
Proof.
  intros Hc Hq e. pose proof Hc as (Ha & Hp & _).
  pose proof (cidr_entryChars a p Ha ltac:(lia)) as He.
  pose proof (cidr_nonempty a p Ha) as Hne.
  pose proof (cidr_noDoubleSlash a p Ha ltac:(lia)) as Hds.
  pose proof (ipListParseFormat_noSlash a Ha) as Hns.
  assert (Hbare : ParseIpListText (ipListParseCidr a p) 0
                  = mkResult [mkEntry (ipListParseCidr a p) 0 0] 0 0 []).
  { by rewrite (parse_single _ _ _ _ He Hne Hds (addressToken_cidr a p Hc)). }
  unfold FormatEntry, e. cbn [cidr port]. rewrite IsHostCidr_cidr by done.
  destruct (ipListParseBits a <=? p) eqn:E.
  - assert (Hcf : ipListParseCidr a p = ipListParseFormat a) by (unfold ipListParseCidr; by rewrite E).
    zbool. rewrite Hcf in *. rewrite (proj2 (indexOf_None _ _)) by done. cbn [cutAt].
    destruct (decide (q = 0)) as [->|Hq0]; [done|].
    apply parse_host_port; [|lia]. by replace (ipListParseBits a) with p by lia.
  - destruct (q <=? 0) eqn:Eq; zbool; [by replace q with 0 by lia|].
    apply parse_pair; [done|done| |by apply addressToken_cidr|lia].
    unfold ipListParseCidr. replace (ipListParseBits a <=? p) with false by lia.
    rewrite <- !app_assoc. apply noDoubleSlash_app; [done|]. apply noDoubleSlash_one.
    assert (Hnd : forall n, 0 <= n -> contains cSlash (number n) = false)
      by (intros n Hn; apply digits_no_char; [by apply number_isDigit|lia]).
    rewrite !contains_app, !Hnd by lia. done.
Qed.

End Qt.

Lemma FormatEntry_roundtrip_witness :
  FormatEntry (mkEntry (u "2001:db8::1") 443 0) = u "[2001:db8::1]:443" /\
  ParseIpListText (u "[2001:db8::1]:443") 0
  = mkResult [mkEntry (u "2001:db8::1") 443 0] 0 0 [].
Proof.
  assert (E : FormatEntry (mkEntry (u "2001:db8::1") 443 0) = u "[2001:db8::1]:443")
    by (vm_compute; reflexivity).
  assert (C : ipListParseCidr (mkAddr true 2306139568115548160 1) 128 = u "2001:db8::1")
    by (vm_compute; reflexivity).
  split; [exact E|].
  pose proof (FormatEntry_roundtrip (mkAddr true 2306139568115548160 1) 128 443) as H.
  cbv zeta in H. rewrite C, E in H. apply H; [|lia].
  unfold canonNet, wfAddr, ipListParseBits. simpl. repeat split; lia.
Defined.

Lemma ParseIpListText_sound_witness :
  let r := ParseIpListText (u "10.1.2.3/8,443 ::fffe:ffff:ffff-::1:0:0:0 ::ffff:1.2.3.4 nonsense") 80 in
  Forall (fun e =>
    (exists a p, wfAddr a /\ 0 < p <= ipListParseBits a /\ (2 ^ (ipListParseBits a - p) | addrVal a) /\ cidr e = ipListParseCidr a p) /\
    (NormalizeCidr (cidr e) = cidr e \/ cidr e = u "::ffff:0:0/96") /\
    0 <= port e <= 65535 /\ latencyMs e = 0) (entries r) /\
  entries r = [mkEntry (u "10.0.0.0/8") 443 0; mkEntry (u "::fffe:ffff:ffff") 80 0; mkEntry (u "::ffff:0:0/96") 80 0;
    mkEntry (u "::1:0:0:0") 80 0; mkEntry (u "1.2.3.4") 80 0].
Proof.
  intros r. split; [|by vm_compute]. destruct (ParseIpListText_sound (u "10.1.2.3/8,443 ::fffe:ffff:ffff-::1:0:0:0 ::ffff:1.2.3.4 nonsense") 80) as (_ & H & _).
  exact H.
Defined.

(** The splitter's blocks are not all canonical: a range around the IPv4-mapped
    prefix yields its whole block, whose text names no network. *)
Example mapped_block_not_canonical :
  map cidr (entries (ParseIpListText (u "::fffe:ffff:ffff-::1:0:0:0") 0))
  = [u "::fffe:ffff:ffff"; u "::ffff:0:0/96"; u "::1:0:0:0"] /\
  NormalizeCidr (u "::ffff:0:0/96") = [] /\
  entries (ParseIpListText (FormatEntry (mkEntry (u "::ffff:0:0/96") 0 0)) 0) = [].
Proof. vm_compute. repeat split. Qed.
