(* ===== verification/Json.v ===== *)
(** JSON values as Qt holds them, for the components that read and write JSON.

    A QJsonObject keeps its keys in order and once each: [objInsert] keeps the
    list of pairs sorted and [wfJson] says a value is one that Qt's text carries
    unchanged: whole numbers of 64 bits, strings of well-formed UTF-16.  The
    text form is Qt's (QJsonDocument::toJson and fromJson, outside the
    repository): the class [JsonText] is what the code uses of it, [JsonTextLaws]
    what Qt documents, and [tokenText] is an instance that shows the laws can
    hold. *)
From stdpp Require Import base list strings.
From Stdlib Require Import ZArith Lia Bool.
From S2P Require Import Prelude.

(** A whole number is kept as an integer; any other number by its text. *)
Inductive json :=
| JNull
| JBool (b : bool)
| JInt (n : Z)
| JReal (text : qstr)
| JStr (s : qstr)
| JArr (l : list json)
| JObj (o : list (qstr * json)).

Abbreviation jobject := (list (qstr * json)).

(** An induction principle that reaches into arrays and objects. *)
Section JsonInd.
Variable P : json -> Prop.
Hypothesis HNull : P JNull.
Hypothesis HBool : forall b, P (JBool b).
Hypothesis HInt : forall n, P (JInt n).
Hypothesis HReal : forall s, P (JReal s).
Hypothesis HStr : forall s, P (JStr s).
Hypothesis HArr : forall l, Forall P l -> P (JArr l).
Hypothesis HObj : forall o, Forall (fun kv => P (snd kv)) o -> P (JObj o).

Fixpoint json_rect' (j : json) : P j :=
  match j with
  | JNull => HNull
  | JBool b => HBool b
  | JInt n => HInt n
  | JReal s => HReal s
  | JStr s => HStr s
  | JArr l =>
      HArr l ((fix go l : Forall P l :=
                 match l with [] => List.Forall_nil _ | x :: l' => List.Forall_cons _ _ _ (json_rect' x) (go l') end) l)
  | JObj o =>
      HObj o ((fix go o : Forall (fun kv => P (snd kv)) o :=
                 match o with
                 | [] => List.Forall_nil _
                 | kv :: o' => List.Forall_cons _ _ _ (json_rect' (snd kv)) (go o')
                 end) o)
  end.
End JsonInd.

(** ** Reading a value *)

(** QString's operator<. *)
Fixpoint ltStr (s t : qstr) : bool :=
  match s, t with
  | _, [] => false
  | [], _ :: _ => true
  | a :: s', b :: t' => (a <? b) || ((a =? b) && ltStr s' t')
  end%bool.

(** QJsonObject::value: an absent key reads as undefined, which every
    conversion below treats as null. *)
Fixpoint objValue (o : jobject) (key : qstr) : json :=
  match o with
  | [] => JNull
  | (k, v) :: o' => if eqStr k key then v else objValue o' key
  end.

Fixpoint objContains (o : jobject) (key : qstr) : bool :=
  match o with
  | [] => false
  | (k, _) :: o' => eqStr k key || objContains o' key
  end.

Definition toIntegerOr (lo hi : Z) (j : json) (defaultValue : Z) : Z :=
  match j with
  | JInt n => if (lo <=? n) && (n <=? hi) then n else defaultValue
  | _ => defaultValue
  end%bool.

(** QJsonValue::toInt and toInteger: the default unless the value is a whole
    number of the type's range. *)
Definition min_i32 : Z := - 2 ^ 31.
Definition max_i32 : Z := 2 ^ 31 - 1.
Definition toInt (j : json) (defaultValue : Z) : Z := toIntegerOr min_i32 max_i32 j defaultValue.
Definition toInteger (j : json) (defaultValue : Z) : Z := toIntegerOr min_i64 max_i64 j defaultValue.

Definition toBool (j : json) (defaultValue : bool) : bool :=
  match j with JBool b => b | _ => defaultValue end.

Definition toStr (j : json) : qstr := match j with JStr s => s | _ => [] end.
Definition toObject (j : json) : jobject := match j with JObj o => o | _ => [] end.
Definition toArray (j : json) : list json := match j with JArr l => l | _ => [] end.

(** ** Building an object *)

Fixpoint objInsert (key : qstr) (v : json) (o : jobject) : jobject :=
  match o with
  | [] => [(key, v)]
  | (k, w) :: o' =>
      if eqStr k key then (key, v) :: o'
      else if ltStr key k then (key, v) :: o
      else (k, w) :: objInsert key v o'
  end.

(** QJsonObject{{key, value}, ...}. *)
Definition mkObject (l : jobject) : jobject :=
  fold_left (fun o kv => objInsert (fst kv) (snd kv) o) l [].

Fixpoint sortedKeys (o : jobject) : bool :=
  match o with
  | (k, _) :: (((k', _) :: _) as o') => ltStr k k' && sortedKeys o'
  | _ => true
  end%bool.

(** Well-formed UTF-16. *)
Definition highSurrogate (c : Z) : bool := (55296 <=? c) && (c <=? 56319).
Definition lowSurrogate (c : Z) : bool := (56320 <=? c) && (c <=? 57343).

Fixpoint wfUtf16 (s : qstr) : bool :=
  match s with
  | [] => true
  | c :: s' =>
      (0 <=? c) && (c <=? 65535) &&
      (if highSurrogate c
       then match s' with d :: s'' => lowSurrogate d && wfUtf16 s'' | [] => false end
       else negb (lowSurrogate c) && wfUtf16 s')
  end.

Fixpoint wfJson (j : json) : bool :=
  match j with
  | JInt n => (min_i64 <=? n) && (n <=? max_i64)
  | JReal _ => false
  | JStr s => wfUtf16 s
  | JArr l => forallb wfJson l
  | JObj o => sortedKeys o && forallb (fun kv => wfUtf16 (fst kv) && wfJson (snd kv)) o
  | _ => true
  end%bool.

(** ** The text form *)

(** An upper bound of the compact text's length in bytes: a string's character
    takes at most six (an escape), an integer at most twenty. *)
Fixpoint jsonWeight (j : json) : Z :=
  match j with
  | JNull => 4
  | JBool _ => 5
  | JInt _ => 20
  | JReal s => 2 + zlen s
  | JStr s => 2 + 6 * zlen s
  | JArr l => 2 + fold_right (fun x n => 1 + jsonWeight x + n) 0 l
  | JObj o => 2 + fold_right (fun kv n => 4 + 6 * zlen (fst kv) + jsonWeight (snd kv) + n) 0 o
  end.

Class JsonText := {
  toJsonText : json -> list Z;
  fromJsonText : list Z -> option json
}.

(** A document read back, with the line break the code appends, is the
    document; its length is bounded. *)
Class JsonTextLaws (J : JsonText) : Prop := {
  fromJson_toJson : forall o, wfJson (JObj o) = true ->
    fromJsonText (toJsonText (JObj o) ++ [cLF]) = Some (JObj o);
  toJson_size : forall j, zlen (toJsonText j) <= jsonWeight j
}.

(** ** A text form that has the laws: counted tokens *)

Definition tokenStr (s : qstr) : list Z := zlen s :: s.

Fixpoint tokens (j : json) : list Z :=
  match j with
  | JNull => [0]
  | JBool b => [1; if b then 1 else 0]
  | JInt n => [2; n]
  | JReal s => 3 :: tokenStr s
  | JStr s => 4 :: tokenStr s
  | JArr l => 5 :: zlen l :: flat_map tokens l
  | JObj o => 6 :: zlen o :: flat_map (fun kv => tokenStr (fst kv) ++ tokens (snd kv)) o
  end.

Definition readStr (t : list Z) : option (qstr * list Z) :=
  match t with
  | n :: t' => Some (take (Z.to_nat n) t', drop (Z.to_nat n) t')
  | [] => None
  end.

Fixpoint readMany {A} (read : list Z -> option (A * list Z)) (n : nat) (t : list Z)
    : option (list A * list Z) :=
  match n with
  | O => Some ([], t)
  | S n' =>
      let? p := read t in
      let? q := readMany read n' (snd p) in
      Some (fst p :: fst q, snd q)
  end.

Fixpoint readToken (fuel : nat) (t : list Z) : option (json * list Z) :=
  match fuel with
  | O => None
  | S fuel' =>
      let readPair t :=
        let? k := readStr t in
        let? v := readToken fuel' (snd k) in
        Some ((fst k, fst v), snd v) in
      match t with
      | 0 :: t' => Some (JNull, t')
      | 1 :: b :: t' => Some (JBool (b =? 1), t')
      | 2 :: n :: t' => Some (JInt n, t')
      | 3 :: t' => let? p := readStr t' in Some (JReal (fst p), snd p)
      | 4 :: t' => let? p := readStr t' in Some (JStr (fst p), snd p)
      | 5 :: n :: t' =>
          let? p := readMany (readToken fuel') (Z.to_nat n) t' in Some (JArr (fst p), snd p)
      | 6 :: n :: t' =>
          let? p := readMany readPair (Z.to_nat n) t' in Some (JObj (fst p), snd p)
      | _ => None
      end
  end.

#[export] Instance tokenText : JsonText := {|
  toJsonText := tokens;
  fromJsonText := fun t => option_map fst (readToken (length t) t)
|}.

(** ** Lemmas *)

Lemma objValue_insert key v o k :
  objValue (objInsert key v o) k = if eqStr key k then v else objValue o k.
Proof.
  induction o as [|[k' w] o IH]; simpl; [done|].
  destruct (eqStr k' key) eqn:E; simpl.
  - apply eqStr_spec in E as ->. by destruct (eqStr key k).
  - destruct (ltStr key k'); simpl; [done|]. rewrite IH.
    destruct (eqStr k' k) eqn:E1, (eqStr key k) eqn:E2; try done.
    apply eqStr_spec in E1 as ->. apply eqStr_spec in E2 as ->. by rewrite eqStr_refl in E.
Qed.

(** What an object built of pairs holds: the last pair of a key wins. *)
Fixpoint findKey (l : jobject) (key : qstr) : option json :=
  match l with
  | [] => None
  | (k, v) :: l' => match findKey l' key with Some w => Some w | None => if eqStr k key then Some v else None end
  end.

Lemma objContains_insert key v o k : objContains (objInsert key v o) k = eqStr key k || objContains o k.
Proof.
  induction o as [|[k' w] o IH]; cbn [objInsert objContains]; [done|].
  destruct (eqStr k' key) eqn:E; cbn [objContains].
  - apply eqStr_spec in E as ->. by destruct (eqStr key k).
  - destruct (ltStr key k'); cbn [objContains]; [done|]. rewrite IH. by destruct (eqStr k' k), (eqStr key k).
Qed.

Lemma mkObject_find l key :
  objValue (mkObject l) key = default JNull (findKey l key) /\
  objContains (mkObject l) key = match findKey l key with Some _ => true | None => false end.
Proof.
  unfold mkObject. enough (H : forall o,
    objValue (fold_left (fun o kv => objInsert (fst kv) (snd kv) o) l o) key = default (objValue o key) (findKey l key) /\
    objContains (fold_left (fun o kv => objInsert (fst kv) (snd kv) o) l o) key =
      match findKey l key with Some _ => true | None => objContains o key end) by exact (H []).
  induction l as [|[k v] l IH]; intros o; [done|]. cbn [fold_left findKey fst snd].
  destruct (IH (objInsert k v o)) as [-> ->]. destruct (findKey l key); [done|]. rewrite objValue_insert, objContains_insert.
  by destruct (eqStr k key).
Qed.

Lemma ltStr_total s t : eqStr s t = false -> ltStr t s = false -> ltStr s t = true.
Proof.
  revert t. induction s as [|a s IH]; intros [|b t]; cbn [eqStr ltStr]; try done. intros H1 H2.
  apply orb_false_iff in H2 as [H2 H3]. apply Z.ltb_ge in H2. destruct (decide (a = b)) as [->|Hne].
  - rewrite Z.eqb_refl in *. rewrite (IH t); [apply orb_true_r|done|done].
  - by replace (a <? b) with true by (symmetry; apply Z.ltb_lt; lia).
Qed.

(** Inserting keeps the keys in order. *)
Lemma objInsert_sorted key v o : sortedKeys o = true -> sortedKeys (objInsert key v o) = true.
Proof.
  induction o as [|[k w] o IH]; [done|]. intros Ho. cbn [objInsert]. destruct (eqStr k key) eqn:E.
  - apply eqStr_spec in E as ->. exact Ho.
  - destruct (ltStr key k) eqn:El; [cbn [sortedKeys]; rewrite El; exact Ho|].
    pose proof (ltStr_total k key E El) as Hlt. destruct o as [|[k' w'] o]; [cbn [objInsert sortedKeys]; by rewrite Hlt|].
    cbn [sortedKeys] in Ho. apply andb_true_iff in Ho as [Hk Ho]. specialize (IH Ho). cbn [objInsert] in IH |- *.
    destruct (eqStr k' key) eqn:E'; [cbn [sortedKeys] in *; rewrite Hlt; exact IH|].
    destruct (ltStr key k'); cbn [sortedKeys] in *; [by rewrite Hlt, IH|by rewrite Hk, IH].
Qed.

Lemma objInsert_forallb f key v o : f (key, v) = true -> forallb f o = true -> forallb f (objInsert key v o) = true.
Proof.
  intros Hf. induction o as [|[k w] o IH]; cbn [objInsert forallb]; [by rewrite Hf|]. intros Ho.
  apply andb_true_iff in Ho as [Hk Ho]. destruct (eqStr k key); [cbn [forallb]; by rewrite Hf|].
  destruct (ltStr key k); cbn [forallb]; [by rewrite Hf, Hk|]. by rewrite Hk, IH.
Qed.

(** An object built of values Qt can carry is one. *)
Lemma mkObject_wf l : forallb (fun kv => wfUtf16 (fst kv) && wfJson (snd kv)) l = true -> wfJson (JObj (mkObject l)) = true.
Proof.
  intros Hl. unfold mkObject. assert (H0 : wfJson (JObj []) = true) by done. revert H0. generalize (@nil (qstr * json)) as o.
  induction l as [|[k v] l IH]; intros o Ho; [exact Ho|]. cbn [forallb] in Hl. apply andb_true_iff in Hl as [Hkv Hl].
  cbn [fold_left fst snd]. apply IH; [done|]. cbn [wfJson] in Ho |- *. apply andb_true_iff in Ho as [Hs Hf].
  apply andb_true_iff. split; [by apply objInsert_sorted|by apply objInsert_forallb].
Qed.

Lemma readStr_token s r : readStr (tokenStr s ++ r) = Some (s, r).
Proof.
  unfold readStr, tokenStr, zlen. cbn [app]. rewrite Nat2Z.id.
  rewrite take_app_length, drop_app_length. done.
Qed.

Lemma readMany_flat {A} (write : A -> list Z) read l r :
  Forall (fun x => forall r, read (write x ++ r) = Some (x, r)) l ->
  readMany read (length l) (flat_map write l ++ r) = Some (l, r).
Proof.
  induction 1 as [|x l Hx _ IH]; simpl; [done|]. rewrite <- app_assoc, Hx. simpl. by rewrite IH.
Qed.

Lemma flat_map_length_le {A} (f : A -> list Z) x l :
  x ∈ l -> (length (f x) <= length (flat_map f l))%nat.
Proof.
  induction 1 as [x l|x y l _ IH]; simpl; rewrite length_app; lia.
Qed.

Lemma readToken_tokens j fuel r :
  (length (tokens j) <= fuel)%nat -> readToken fuel (tokens j ++ r) = Some (j, r).
Proof.
  revert fuel r. induction j as [|b|n|s|s|l IH|o IH] using json_rect'; intros fuel r Hf;
    cbn [tokens length] in Hf; (destruct fuel as [|fuel]; [lia|]).
  - done.
  - by destruct b.
  - done.
  - cbn [readToken tokens app]. by rewrite readStr_token.
  - cbn [readToken tokens app]. by rewrite readStr_token.
  - cbn [readToken tokens app]. unfold zlen. rewrite Nat2Z.id, readMany_flat; [done|].
    apply Forall_forall. intros x Hx r'. rewrite Forall_forall in IH. apply IH; [done|].
    pose proof (flat_map_length_le tokens x l Hx). lia.
  - cbn [readToken tokens app]. unfold zlen. rewrite Nat2Z.id.
    rewrite (readMany_flat (fun kv => tokenStr (fst kv) ++ tokens (snd kv))); [done|].
    apply Forall_forall. intros [k v] Hx r'. cbn [fst snd].
    rewrite <- app_assoc, readStr_token. cbn [snd]. rewrite Forall_forall in IH.
    specialize (IH _ Hx fuel r'). cbn [snd] in IH. rewrite IH; [done|].
    pose proof (flat_map_length_le (fun kv => tokenStr (fst kv) ++ tokens (snd kv)) (k, v) o Hx) as H.
    cbn [fst snd] in *. rewrite length_app in H. lia.
Qed.

Lemma tokens_weight j : zlen (tokens j) <= jsonWeight j.
Proof.
  unfold zlen. induction j as [|b|n|s|s|l IH|o IH] using json_rect';
    cbn [tokens length jsonWeight tokenStr]; unfold tokenStr, zlen; cbn [length]; try lia.
  - induction IH as [|x l Hx _ IH]; simpl; [lia|]. simpl in IH. rewrite length_app. lia.
  - induction IH as [|[k v] o Hx _ IH]; [simpl; lia|]. cbn [flat_map fold_right fst snd] in *.
    unfold tokenStr, zlen in *. rewrite !length_app. cbn [length] in *. lia.
Qed.

#[export] Instance tokenText_laws : JsonTextLaws tokenText.
Proof.
  split.
  - intros o _. cbn [fromJsonText toJsonText tokenText].
    rewrite readToken_tokens; [done|]. rewrite length_app. lia.
  - apply tokens_weight.
Qed.
