(* ===== verification/ResumeGuard.v ===== *)
(** The headless crash-loop guard: src/src/engine/headless/ResumeGuard.cpp.

    [RG] is the object's members together with the state file it keeps
    (headless-state.json): the record a boot leaves on disk is all the next boot
    knows.  [load] is the constructor, [save] the write, the other definitions
    are the methods of the same names.  The environment [Env] says whether the
    file can be written and what the clock shows. *)
From stdpp Require Import base list strings.
From Stdlib Require Import ZArith Lia Bool.
From S2P Require Import Prelude Json.

Definition kResumeGuardVersion : Z := 1.
Definition kResumeGuardMaxBytes : Z := 64 * 1024.
Definition kResumeGuardMaxUnstableBoots : Z := 1000000.
Definition kStrikesToSuppress : Z := 3.
Definition kUnstableBootsToStayUp : Z := 3.

(** Engine::ExitCode: the exits a profile can cause. *)
Definition CoreGaveUp : Z := 70.
Definition Stuck : Z := 71.

(** The state file: missing, present but not to be opened, or its bytes. *)
Inductive StateFile := NoFile | Unreadable | Bytes (b : list Z).

Record RG := mkRG {
  rgProfile : Z;
  rgStrikes : Z;
  rgArmed : bool;
  rgArmedAt : Z;
  rgSuppressed : bool;
  rgBootOpen : bool;
  rgUnstableBoots : Z;
  rgPreviousExit : jobject;
  rgLastExit : jobject;
  rgDisk : StateFile
}.

Record Env := mkEnv { envWritable : bool; envNow : Z }.

(** A guard without a record, over the file as it is. *)
Definition fresh (disk : StateFile) : RG := mkRG (-1) 0 false 0 false false 0 [] [] disk.

(** qBound. *)
Definition qBound (lo v hi : Z) : Z := Z.max lo (Z.min hi v).

Section Guard.
Context {J : JsonText}.

(** The document save() writes. *)
Definition resumeObject (g : RG) : jobject :=
  mkObject [(u "profile", JInt (rgProfile g)); (u "strikes", JInt (rgStrikes g));
            (u "armed", JBool (rgArmed g)); (u "armed_at", JInt (rgArmedAt g))].

Definition bootObject (g : RG) : jobject :=
  mkObject [(u "open", JBool (rgBootOpen g)); (u "unstable", JInt (rgUnstableBoots g))].

Definition saveDocument (g : RG) : jobject :=
  let root := mkObject [(u "version", JInt kResumeGuardVersion);
                        (u "resume", JObj (resumeObject g));
                        (u "boot", JObj (bootObject g))] in
  if isNil (rgLastExit g) then root else objInsert (u "last_exit") (JObj (rgLastExit g)) root.

(** QSaveFile: the file changes only when open and commit both succeed. *)
Definition save (e : Env) (g : RG) : RG :=
  if envWritable e then
    mkRG (rgProfile g) (rgStrikes g) (rgArmed g) (rgArmedAt g) (rgSuppressed g) (rgBootOpen g)
         (rgUnstableBoots g) (rgPreviousExit g) (rgLastExit g)
         (Bytes (toJsonText (JObj (saveDocument g)) ++ [cLF]))
  else g.

(** The members the constructor reads from the file's document. *)
Definition readDocument (disk : StateFile) (root : jobject) : RG :=
  let resume := toObject (objValue root (u "resume")) in
  let profile := toInt (objValue resume (u "profile")) (-1) in
  let profile := if profile <? 0 then -1 else profile in
  let strikes := qBound 0 (toInt (objValue resume (u "strikes")) 0) kStrikesToSuppress in
  let armed := (0 <=? profile) && toBool (objValue resume (u "armed")) false in
  let armedAt := if armed then toInteger (objValue resume (u "armed_at")) 0 else 0 in
  let boot := toObject (objValue root (u "boot")) in
  mkRG profile strikes armed armedAt false
       (toBool (objValue boot (u "open")) false)
       (qBound 0 (toInt (objValue boot (u "unstable")) 0) kResumeGuardMaxUnstableBoots)
       (toObject (objValue root (u "last_exit"))) [] disk.

(** The constructor. *)
Definition load (e : Env) (disk : StateFile) : RG :=
  match disk with
  | NoFile | Unreadable => fresh disk
  | Bytes b =>
      if kResumeGuardMaxBytes <? zlen b then fresh disk
      else match fromJsonText b with
           | Some (JObj root) =>
               if negb (toInt (objValue root (u "version")) 0 =? kResumeGuardVersion) then fresh disk
               else
                 let g := readDocument disk root in
                 if isNil (rgPreviousExit g) then g else save e g
           | _ => fresh disk
           end
  end.

Definition withBoot (open : bool) (unstable : Z) (g : RG) : RG :=
  mkRG (rgProfile g) (rgStrikes g) (rgArmed g) (rgArmedAt g) (rgSuppressed g) open unstable
       (rgPreviousExit g) (rgLastExit g) (rgDisk g).

(** The record's profile, strikes and arming; the suppression flag. *)
Definition withRecord (profile strikes : Z) (armed : bool) (armedAt : Z) (suppressed : bool)
    (g : RG) : RG :=
  mkRG profile strikes armed armedAt suppressed (rgBootOpen g) (rgUnstableBoots g)
       (rgPreviousExit g) (rgLastExit g) (rgDisk g).

Definition withSuppressed (b : bool) (g : RG) : RG :=
  withRecord (rgProfile g) (rgStrikes g) (rgArmed g) (rgArmedAt g) b g.

Definition withDisarmed (g : RG) : RG :=
  withRecord (rgProfile g) (rgStrikes g) false 0 (rgSuppressed g) g.

(** One more strike, disarmed. *)
Definition withStrike (g : RG) : RG :=
  withRecord (rgProfile g) (Z.min (rgStrikes g + 1) kStrikesToSuppress) false 0 (rgSuppressed g) g.

Definition settlePrevious (e : Env) (g : RG) : RG :=
  let unstable := if rgBootOpen g
                  then Z.min (rgUnstableBoots g + 1) kResumeGuardMaxUnstableBoots
                  else rgUnstableBoots g in
  let g := withBoot true unstable g in
  if negb (rgArmed g) then save e g else save e (withStrike g).

Definition unstableBoots (g : RG) : Z := rgUnstableBoots g.

Definition stayUp (g : RG) : bool := kUnstableBootsToStayUp <=? unstableBoots g.

Definition markStable (e : Env) (g : RG) : RG :=
  if negb (rgBootOpen g) && (rgUnstableBoots g =? 0) then g
  else save e (withBoot false 0 g).

(** The guard and the profile to resume, -1 for none. *)
Definition decide (e : Env) (candidateId : Z) (g : RG) : RG * Z :=
  let g := withSuppressed false g in
  if candidateId <? 0 then (g, -1)
  else if negb (candidateId =? rgProfile g) then
    let hadRecord := 0 <=? rgProfile g in
    let g' := withRecord candidateId 0 false 0 (rgSuppressed g) g in
    (if hadRecord then save e g' else g', candidateId)
  else if kStrikesToSuppress <=? rgStrikes g then (withSuppressed true g, -1)
  else (g, candidateId).

Definition liftSuppression (startedProfileId : Z) (g : RG) : RG :=
  if (0 <=? startedProfileId) && negb (startedProfileId =? rgProfile g)
  then withSuppressed false g else g.

Definition arm (e : Env) (profileId : Z) (g : RG) : RG :=
  if profileId <? 0 then g
  else
    let strikes := if negb (profileId =? rgProfile g) then 0 else rgStrikes g in
    save e (withRecord profileId strikes true (envNow e) (rgSuppressed g) g).

Definition disarm (e : Env) (g : RG) : RG :=
  if negb (rgArmed g) then g else save e (withDisarmed g).

Definition strike (e : Env) (g : RG) : RG :=
  if negb (rgArmed g) then g else save e (withStrike g).

Definition survived (e : Env) (profileId : Z) (g : RG) : RG :=
  if (profileId <? 0) || negb (profileId =? rgProfile g) then g
  else if (rgStrikes g =? 0) && negb (rgArmed g) && negb (rgSuppressed g) then g
  else save e (withRecord (rgProfile g) 0 false 0 false g).

Definition exitRecord (e : Env) (code : Z) (reason : qstr) : jobject :=
  mkObject [(u "code", JInt code); (u "reason", JStr reason); (u "at", JInt (envNow e))].

Definition noteExit (e : Env) (code : Z) (reason : qstr) (g : RG) : RG :=
  let g := mkRG (rgProfile g) (rgStrikes g) (rgArmed g) (rgArmedAt g) (rgSuppressed g) (rgBootOpen g)
                (rgUnstableBoots g) (rgPreviousExit g) (exitRecord e code reason) (rgDisk g) in
  let g := if negb (code =? CoreGaveUp) && negb (code =? Stuck) then withDisarmed g else g in
  save e g.

End Guard.
