(* ===== verification/ResumeGuardFacts.v ===== *)
(** What the crash-loop guard promises: the record stays well formed whatever
    the file holds and whatever is called, what is saved is what the next boot
    loads, and over a history of boots the resume of a profile is withheld
    exactly when three boots ended while it was armed without one in between
    that survived. *)
From stdpp Require Import base list strings.
From Stdlib Require Import ZArith Lia Bool.
From S2P Require Import Prelude Json ResumeGuard.

(** The longest exit reason considered: with it a document stays far below the
    size the constructor refuses. *)
Definition maxReason : Z := 4096.

(** A clock and an exit that fit the types of the code. *)
Definition goodEnv (e : Env) : Prop := min_i64 <= envNow e <= max_i64.

Record wfGuard (g : RG) : Prop := {
  wfProfile : -1 <= rgProfile g <= max_i32;
  wfStrikes : 0 <= rgStrikes g <= kStrikesToSuppress;
  wfUnstable : 0 <= rgUnstableBoots g <= kResumeGuardMaxUnstableBoots;
  wfArmed : rgArmed g = true -> 0 <= rgProfile g;
  wfDisarmed : rgArmed g = false -> rgArmedAt g = 0;
  wfArmedAt : min_i64 <= rgArmedAt g <= max_i64
}.

(** The exit record is one Qt can hold and of bounded size. *)
Definition wfExit (o : jobject) : Prop :=
  wfJson (JObj o) = true /\ jsonWeight (JObj o) <= 7 * maxReason.

Section Facts.
Context {J : JsonText}.

(** ** The record stays well formed *)

Inductive guardOp :=
| OpSettle | OpStable | OpDecide (id : Z) | OpLift (id : Z) | OpArm (id : Z)
| OpDisarm | OpStrike | OpSurvived (id : Z) | OpNoteExit (code : Z) (reason : qstr).

Definition runOp (g : RG) (eo : Env * guardOp) : RG :=
  let (e, op) := eo in
  match op with
  | OpSettle => settlePrevious e g
  | OpStable => markStable e g
  | OpDecide id => fst (decide e id g)
  | OpLift id => liftSuppression id g
  | OpArm id => arm e id g
  | OpDisarm => disarm e g
  | OpStrike => strike e g
  | OpSurvived id => survived e id g
  | OpNoteExit code reason => noteExit e code reason g
  end.

Definition intOp (op : guardOp) : Prop :=
  match op with
  | OpDecide id | OpLift id | OpArm id | OpSurvived id => min_i32 <= id <= max_i32
  | _ => True
  end.

Lemma save_wf e g : wfGuard g -> wfGuard (save e g).
Proof. unfold save. intros [H1 H2 H3 H4 H5 H6]. by break_if. Qed.

Lemma fresh_wf disk : wfGuard (fresh disk).
Proof. split; cbn; try done; unfold max_i32, min_i64, max_i64; lia. Qed.

Lemma toInt_range j d : min_i32 <= d <= max_i32 -> min_i32 <= toInt j d <= max_i32.
Proof. unfold toInt, toIntegerOr. intros Hd. destruct j; try done. break_if; zbool; lia. Qed.

Lemma toInteger_range j d : min_i64 <= d <= max_i64 -> min_i64 <= toInteger j d <= max_i64.
Proof. unfold toInteger, toIntegerOr. intros Hd. destruct j; try done. break_if; zbool; lia. Qed.

Lemma readDocument_wf disk root : wfGuard (readDocument disk root).
Proof.
  unfold readDocument.
  set (resume := toObject (objValue root (u "resume"))).
  pose proof (toInt_range (objValue resume (u "profile")) (-1)) as Hp.
  set (profile := toInt _ _) in *.
  unfold min_i32, max_i32 in Hp.
  assert (-1 <= (if profile <? 0 then -1 else profile) <= max_i32).
  { unfold max_i32. destruct (profile <? 0) eqn:E; lia. }
  set (a := (0 <=? _) && _).
  assert (Ha : a = true -> 0 <= if profile <? 0 then -1 else profile).
  { unfold a. intros [H1 _]%andb_true_iff. lia. }
  assert (Ht : min_i64 <= (if a then toInteger (objValue resume (u "armed_at")) 0 else 0) <= max_i64).
  { destruct a; [apply toInteger_range|]; unfold min_i64, max_i64; lia. }
  split; cbn [rgProfile rgStrikes rgUnstableBoots rgArmed rgArmedAt]; try done.
  - unfold qBound, kStrikesToSuppress. lia.
  - unfold qBound, kResumeGuardMaxUnstableBoots. lia.
  - by intros ->.
Qed.

Lemma load_wf e disk : wfGuard (load e disk).
Proof.
  unfold load. destruct disk as [| |b]; try apply fresh_wf.
  break_if; [apply fresh_wf|]. destruct (fromJsonText b) as [[]|]; try apply fresh_wf.
  break_if; [apply fresh_wf|]. cbv zeta.
  break_if; [|apply save_wf]; apply readDocument_wf.
Qed.

Lemma withRecord_wf p s a t b g :
  wfGuard g -> -1 <= p <= max_i32 -> 0 <= s <= kStrikesToSuppress ->
  (a = true -> 0 <= p) -> (a = false -> t = 0) -> min_i64 <= t <= max_i64 ->
  wfGuard (withRecord p s a t b g).
Proof. intros []. by split. Qed.

Lemma withDisarmed_wf g : wfGuard g -> wfGuard (withDisarmed g).
Proof. intros H. pose proof H as []. apply withRecord_wf; try done. Qed.

Lemma withStrike_wf g : wfGuard g -> wfGuard (withStrike g).
Proof.
  intros H. pose proof H as []. apply withRecord_wf; try done. unfold kStrikesToSuppress in *. lia.
Qed.

Lemma withSuppressed_wf b g : wfGuard g -> wfGuard (withSuppressed b g).
Proof. intros H. pose proof H as []. by apply withRecord_wf. Qed.

Lemma withBoot_wf o n g :
  wfGuard g -> 0 <= n <= kResumeGuardMaxUnstableBoots -> wfGuard (withBoot o n g).
Proof. intros []. by split. Qed.

Create HintDb guard.
Hint Resolve save_wf withDisarmed_wf withStrike_wf withSuppressed_wf : guard.

Lemma runOp_wf g e op : wfGuard g -> goodEnv e -> intOp op -> wfGuard (runOp g (e, op)).
Proof.
  intros H He Hop. pose proof H as [Hp Hs Hu Ha Hd Ht].
  destruct op; cbn [runOp intOp] in *.
  - unfold settlePrevious. set (n := if rgBootOpen g then _ else _).
    assert (wfGuard (withBoot true n g)).
    { apply withBoot_wf; [done|]. unfold n, kResumeGuardMaxUnstableBoots in *. break_if; lia. }
    break_if; auto with guard.
  - unfold markStable. break_if; [done|]. apply save_wf, withBoot_wf; [done|].
    unfold kResumeGuardMaxUnstableBoots. lia.
  - unfold decide. break_if; cbn; auto with guard. zbool.
    break_if; [|break_if; cbn; auto with guard]. cbn.
    assert (wfGuard (withRecord id 0 false 0 (rgSuppressed (withSuppressed false g)) (withSuppressed false g))).
    { apply withRecord_wf; auto with guard; try done; unfold kStrikesToSuppress, min_i64, max_i64; lia. }
    break_if; auto with guard.
  - unfold liftSuppression. break_if; auto with guard.
  - unfold arm. break_if; [done|]. zbool. apply save_wf, withRecord_wf; try done; try lia.
    break_if; [unfold kStrikesToSuppress; lia|done].
  - unfold disarm. break_if; auto with guard.
  - unfold strike. break_if; auto with guard.
  - unfold survived. break_if; [done|]. break_if; [done|]. apply save_wf, withRecord_wf; try done;
      unfold kStrikesToSuppress, min_i64, max_i64; lia.
  - unfold noteExit. apply save_wf. break_if; [apply withDisarmed_wf|]; by split.
Qed.

(** Whatever the state file holds (missing, unreadable, oversized, not JSON,
    another version, values out of range) and whatever is called afterwards, the
    record keeps its invariant: at most three strikes, a bounded boot streak,
    armed only for a profile, no arm time when disarmed. *)
Theorem ResumeGuard_invariant e disk ops :
  Forall (fun eo => goodEnv (fst eo) /\ intOp (snd eo)) ops ->
  wfGuard (fold_left runOp ops (load e disk)).
Proof.
  intros H. pose proof (load_wf e disk) as Hg. revert Hg. generalize (load e disk).
  induction H as [|[e' op] ops [He Hop] _ IH]; intros g Hg; cbn; [done|].
  apply IH, (runOp_wf g e' op); done.
Qed.

(** ** What is saved is what is loaded *)

Context {L : JsonTextLaws J}.

Lemma saveDocument_eq g :
  saveDocument g =
  (u "boot", JObj (bootObject g)) ::
  (if isNil (rgLastExit g) then [] else [(u "last_exit", JObj (rgLastExit g))]) ++
  [(u "resume", JObj (resumeObject g)); (u "version", JInt kResumeGuardVersion)].
Proof. unfold saveDocument. by destruct (rgLastExit g). Qed.

Lemma bootObject_eq g :
  bootObject g = [(u "open", JBool (rgBootOpen g)); (u "unstable", JInt (rgUnstableBoots g))].
Proof. reflexivity. Qed.

Lemma resumeObject_eq g :
  resumeObject g = [(u "armed", JBool (rgArmed g)); (u "armed_at", JInt (rgArmedAt g));
                    (u "profile", JInt (rgProfile g)); (u "strikes", JInt (rgStrikes g))].
Proof. reflexivity. Qed.

Lemma int_wf n : min_i64 <= n <= max_i64 -> wfJson (JInt n) = true.
Proof. unfold wfJson. intros H. apply andb_true_iff. lia. Qed.

Lemma resumeObject_wf g : wfGuard g -> wfJson (JObj (resumeObject g)) = true.
Proof.
  intros [Hp Hs _ _ _ Ht]. unfold kStrikesToSuppress, max_i32 in *.
  pose proof (int_wf (rgProfile g)) as H1. pose proof (int_wf (rgStrikes g)) as H2.
  pose proof (int_wf _ Ht) as H3. unfold min_i64, max_i64 in H1, H2.
  rewrite resumeObject_eq. unfold wfJson in *. cbn [forallb fst snd].
  rewrite H1, H2, H3 by lia. reflexivity.
Qed.

Lemma bootObject_wf g : wfGuard g -> wfJson (JObj (bootObject g)) = true.
Proof.
  intros [_ _ Hu _ _ _]. unfold kResumeGuardMaxUnstableBoots in *.
  pose proof (int_wf (rgUnstableBoots g)) as H1. unfold min_i64, max_i64 in H1.
  rewrite bootObject_eq. unfold wfJson in *. cbn [forallb fst snd]. rewrite H1 by lia. reflexivity.
Qed.

Lemma wfJson_obj o :
  wfJson (JObj o) = sortedKeys o && forallb (fun kv => wfUtf16 (fst kv) && wfJson (snd kv)) o.
Proof. reflexivity. Qed.

Lemma saveDocument_wf g :
  wfGuard g -> wfJson (JObj (rgLastExit g)) = true -> wfJson (JObj (saveDocument g)) = true.
Proof.
  intros Hg Hx. pose proof (resumeObject_wf g Hg) as H1. pose proof (bootObject_wf g Hg) as H2.
  rewrite saveDocument_eq, wfJson_obj.
  destruct (isNil (rgLastExit g)); cbn [app forallb fst snd]; rewrite ?H1, ?H2, ?Hx; reflexivity.
Qed.

Lemma saveDocument_weight g :
  jsonWeight (JObj (saveDocument g)) <= 1024 + jsonWeight (JObj (rgLastExit g)).
Proof.
  assert (0 <= jsonWeight (JObj (rgLastExit g))).
  { rewrite <- toJson_size. apply zlen_nonneg. }
  assert (Hr : jsonWeight (JObj (resumeObject g)) <= 400) by (rewrite resumeObject_eq; vm_compute; done).
  assert (Hb : jsonWeight (JObj (bootObject g)) <= 200) by (rewrite bootObject_eq; vm_compute; done).
  rewrite saveDocument_eq.
  destruct (isNil (rgLastExit g)); cbn [app jsonWeight fold_right fst snd] in *;
    change (zlen (u "boot")) with 4; change (zlen (u "resume")) with 6;
    change (zlen (u "version")) with 7; change (zlen (u "last_exit")) with 9; lia.
Qed.

(** The record as [save] leaves it and the next constructor finds it. *)
Definition reloaded (g : RG) (disk : StateFile) : RG :=
  mkRG (rgProfile g) (rgStrikes g) (rgArmed g) (rgArmedAt g) false (rgBootOpen g)
       (rgUnstableBoots g) (rgLastExit g) [] disk.

Lemma readDocument_save g disk :
  wfGuard g -> readDocument disk (saveDocument g) = reloaded g disk.
Proof.
  intros [Hp Hs Hu Ha Hd Ht]. unfold readDocument.
  assert (E1 : objValue (saveDocument g) (u "resume") = JObj (resumeObject g))
    by (rewrite saveDocument_eq; by destruct (isNil (rgLastExit g))).
  assert (E2 : objValue (saveDocument g) (u "boot") = JObj (bootObject g))
    by (rewrite saveDocument_eq; by destruct (isNil (rgLastExit g))).
  assert (E3 : toObject (objValue (saveDocument g) (u "last_exit")) = rgLastExit g)
    by (rewrite saveDocument_eq; by destruct (rgLastExit g)).
  rewrite E1, E2, E3. cbn [toObject].
  change (objValue (resumeObject g) (u "profile")) with (JInt (rgProfile g)).
  change (objValue (resumeObject g) (u "strikes")) with (JInt (rgStrikes g)).
  change (objValue (resumeObject g) (u "armed")) with (JBool (rgArmed g)).
  change (objValue (resumeObject g) (u "armed_at")) with (JInt (rgArmedAt g)).
  change (objValue (bootObject g) (u "open")) with (JBool (rgBootOpen g)).
  change (objValue (bootObject g) (u "unstable")) with (JInt (rgUnstableBoots g)).
  assert (Hint : forall n d lo hi, lo <= n <= hi -> toIntegerOr lo hi (JInt n) d = n).
  { intros n d lo hi Hn. unfold toIntegerOr. break_if; [done|lia]. }
  unfold toInt, toInteger, toBool, reloaded, qBound, kStrikesToSuppress, kResumeGuardMaxUnstableBoots,
    min_i32, max_i32 in *.
  rewrite !Hint by lia. f_equal; try lia.
  - break_if; lia.
  - destruct (rgArmed g); [|apply andb_false_r]. rewrite andb_true_r. apply Z.leb_le.
    specialize (Ha eq_refl). break_if; lia.
  - destruct (rgArmed g); [|rewrite andb_false_r; by rewrite Hd]. rewrite andb_true_r.
    specialize (Ha eq_refl). destruct (0 <=? _) eqn:E; [done|]. break_if; lia.
Qed.

Lemma load_saved e g :
  wfGuard g -> wfExit (rgLastExit g) ->
  let disk := Bytes (toJsonText (JObj (saveDocument g)) ++ [cLF]) in
  load e disk =
    if isNil (rgLastExit g) then reloaded g disk else save e (reloaded g disk).
Proof.
  intros Hg [Hx Hw]. cbv zeta. unfold load.
  rewrite fromJson_toJson by by apply saveDocument_wf.
  rewrite zlen_app. change (zlen [cLF]) with 1.
  pose proof (toJson_size (JObj (saveDocument g))) as H1.
  pose proof (saveDocument_weight g) as H2.
  unfold kResumeGuardMaxBytes, maxReason in *.
  destruct (_ <? _) eqn:E; [zbool; lia|].
  assert (objValue (saveDocument g) (u "version") = JInt 1) as ->
    by (rewrite saveDocument_eq; by destruct (isNil (rgLastExit g))).
  cbn [negb toInt toIntegerOr]. change (negb _) with false. cbn iota.
  by rewrite readDocument_save.
Qed.

Lemma save_disk e g :
  envWritable e = true ->
  rgDisk (save e g) = Bytes (toJsonText (JObj (saveDocument g)) ++ [cLF]).
Proof. unfold save. by intros ->. Qed.

(** The members but the two exit records and the file. *)
Definition record (g : RG) :=
  (rgProfile g, rgStrikes g, rgArmed g, rgArmedAt g, rgSuppressed g, rgBootOpen g, rgUnstableBoots g).

Lemma save_record e g : record (save e g) = record g.
Proof. unfold save. by break_if. Qed.

Lemma save_previousExit e g : rgPreviousExit (save e g) = rgPreviousExit g.
Proof. unfold save. by break_if. Qed.

(** What a boot saves is what the next boot loads: profile, strikes, arming
    and boot streak with the suppression lifted, and the exit noted as the
    previous exit; the exit is consumed, so the boot after no longer reports it. *)
Theorem ResumeGuard_save_load e e1 e2 g :
  wfGuard g -> wfExit (rgLastExit g) -> envWritable e = true -> envWritable e1 = true ->
  let g1 := load e1 (rgDisk (save e g)) in
  let g2 := load e2 (rgDisk g1) in
  record g1 = record (withSuppressed false g) /\ rgPreviousExit g1 = rgLastExit g /\
  record g2 = record (withSuppressed false g) /\ rgPreviousExit g2 = [].
Proof.
  intros Hg Hx He He1. cbv zeta. rewrite save_disk by done.
  rewrite (load_saved e1 g) by done. destruct (isNil (rgLastExit g)) eqn:E.
  - assert (Hn : rgLastExit g = []) by by destruct (rgLastExit g).
    cbn [reloaded rgDisk]. rewrite load_saved by done. rewrite E. cbn. by rewrite Hn.
  - set (g' := reloaded g _). assert (Hg' : wfGuard g') by (destruct Hg; by split).
    assert (Hx' : wfExit (rgLastExit g')) by (split; [done|]; cbn; unfold maxReason; lia).
    rewrite save_disk, load_saved by done. rewrite save_record, save_previousExit. done.
Qed.

(** ** A history of boots *)

(** How a boot ended: whether a core stayed connected for a minute, whether the
    resumed profile ran for a minute, and the exit it noted, if it got to. *)
Record BootEnd := mkEnd { beStable : bool; beSurvived : bool; beExit : option (Z * qstr) }.

Definition exitOk (b : BootEnd) : Prop :=
  match beExit b with Some (c, r) => min_i32 <= c <= max_i32 /\ zlen r <= maxReason /\ wfUtf16 r = true | None => True end.

(** The boot's own start of a profile: nothing when none is resumed. *)
Definition startBoot (e : Env) (p : Z) (disk : StateFile) : RG * Z * bool :=
  let g := settlePrevious e (load e disk) in
  let stay := stayUp g in
  let (g, d) := decide e p g in
  (if d <? 0 then g else arm e d g, d, stay).

Definition endBoot (e : Env) (d : Z) (b : BootEnd) (g : RG) : RG :=
  let g := if beSurvived b then survived e d g else g in
  let g := if beStable b then markStable e g else g in
  match beExit b with Some (c, r) => noteExit e c r g | None => g end.

(** What the profile's strikes and the boot streak should be after a boot. *)
Definition strikesAfter (n : Z) (b : BootEnd) : Z :=
  if kStrikesToSuppress <=? n then n
  else if beSurvived b then 0
  else match beExit b with
       | None => n + 1
       | Some (c, _) => if (c =? CoreGaveUp) || (c =? Stuck) then n + 1 else n
       end.

Definition unstableAfter (m : Z) (b : BootEnd) : Z :=
  if beStable b then 0 else Z.min (m + 1) kResumeGuardMaxUnstableBoots.

Definition synced (g : RG) : Prop :=
  wfGuard g /\ wfExit (rgLastExit g) /\
  rgDisk g = Bytes (toJsonText (JObj (saveDocument g)) ++ [cLF]).

Lemma save_synced e g :
  envWritable e = true -> wfGuard g -> wfExit (rgLastExit g) -> synced (save e g).
Proof.
  intros He Hg Hx. unfold save. rewrite He. split; [|split; [exact Hx|reflexivity]].
  destruct Hg. by split.
Qed.

Lemma save_fields e g :
  rgProfile (save e g) = rgProfile g /\ rgStrikes (save e g) = rgStrikes g /\
  rgArmed (save e g) = rgArmed g /\ rgSuppressed (save e g) = rgSuppressed g /\
  rgBootOpen (save e g) = rgBootOpen g /\ rgUnstableBoots (save e g) = rgUnstableBoots g /\
  rgLastExit (save e g) = rgLastExit g.
Proof. unfold save. by break_if. Qed.

(** The fields the boots depend on. *)
Definition status (g : RG) := (rgProfile g, rgStrikes g, rgArmed g, rgBootOpen g, rgUnstableBoots g).

Lemma save_status e g : status (save e g) = status g.
Proof. unfold save. by break_if. Qed.

Lemma exitRecord_ok e c r :
  goodEnv e -> min_i32 <= c <= max_i32 -> zlen r <= maxReason -> wfUtf16 r = true -> wfExit (exitRecord e c r).
Proof.
  unfold goodEnv, min_i32, max_i32, maxReason. intros He Hc Hr Hu.
  change (exitRecord e c r) with
    [(u "at", JInt (envNow e)); (u "code", JInt c); (u "reason", JStr r)].
  split.
  - rewrite wfJson_obj. cbn [forallb fst snd].
    rewrite !int_wf by (unfold min_i64, max_i64 in *; lia). cbn [wfJson]. rewrite Hu. reflexivity.
  - cbn [jsonWeight fold_right fst snd]. change (zlen (u "at")) with 2.
    change (zlen (u "code")) with 4. change (zlen (u "reason")) with 6. unfold maxReason. lia.
Qed.

Lemma markStable_synced e g :
  envWritable e = true -> synced g ->
  synced (markStable e g) /\
  status (markStable e g) = (rgProfile g, rgStrikes g, rgArmed g, false, 0).
Proof.
  intros He Hs. unfold markStable. destruct (_ && _) eqn:E.
  - split; [done|]. unfold status. zbool. by f_equal; [f_equal|].
  - pose proof Hs as (Hg & Hx & _). rewrite save_status. split; [|done].
    apply save_synced; [done| |done]. apply withBoot_wf; [done|].
    unfold kResumeGuardMaxUnstableBoots. lia.
Qed.

Lemma survived_synced e d g :
  envWritable e = true -> synced g -> 0 <= d -> rgProfile g = d ->
  synced (survived e d g) /\
  status (survived e d g) = (d, 0, false, rgBootOpen g, rgUnstableBoots g).
Proof.
  intros He Hs Hd Hp. unfold survived. destruct (_ || _) eqn:E; [lia|].
  destruct (_ && _) eqn:E2.
  - split; [done|]. unfold status. zbool. rewrite Hp. congruence.
  - pose proof Hs as (Hg & Hx & _). rewrite save_status. split; [|by rewrite <- Hp].
    apply save_synced; [done| |done]. pose proof Hg as [].
    apply withRecord_wf; try done; unfold kStrikesToSuppress, min_i64, max_i64; lia.
Qed.

Lemma noteExit_synced e c r g :
  envWritable e = true -> synced g -> wfExit (exitRecord e c r) ->
  synced (noteExit e c r g) /\
  status (noteExit e c r g) =
    (rgProfile g, rgStrikes g, rgArmed g && ((c =? CoreGaveUp) || (c =? Stuck)),
     rgBootOpen g, rgUnstableBoots g).
Proof.
  intros He (Hg & Hx & _) Hexit. unfold noteExit. rewrite save_status. split.
  - apply save_synced; [done| |by break_if].
    assert (wfGuard (mkRG (rgProfile g) (rgStrikes g) (rgArmed g) (rgArmedAt g) (rgSuppressed g)
      (rgBootOpen g) (rgUnstableBoots g) (rgPreviousExit g) (exitRecord e c r) (rgDisk g)))
      by (destruct Hg; by split).
    break_if; [by apply withDisarmed_wf|done].
  - destruct (c =? CoreGaveUp), (c =? Stuck), (rgArmed g) eqn:E; unfold status; cbn; by rewrite ?E.
Qed.

Lemma settle_synced e g :
  envWritable e = true -> wfGuard g -> wfExit (rgLastExit g) ->
  synced (settlePrevious e g) /\
  status (settlePrevious e g) =
    (rgProfile g, (if rgArmed g then Z.min (rgStrikes g + 1) kStrikesToSuppress else rgStrikes g),
     false, true,
     (if rgBootOpen g then Z.min (rgUnstableBoots g + 1) kResumeGuardMaxUnstableBoots
      else rgUnstableBoots g)).
Proof.
  intros He Hg Hx. unfold settlePrevious. set (m := if rgBootOpen g then _ else _).
  assert (Hb : wfGuard (withBoot true m g)).
  { apply withBoot_wf; [done|]. destruct Hg. unfold m, kResumeGuardMaxUnstableBoots in *.
    destruct (rgBootOpen g); lia. }
  change (rgArmed (withBoot true m g)) with (rgArmed g).
  destruct (rgArmed g) eqn:E; cbn [negb]; rewrite save_status;
    (split; [apply save_synced; auto with guard|]); unfold status; cbn; by rewrite ?E.
Qed.

(** The file represents [n] strikes of profile [p] and a streak of [m] boots. *)
Definition represents (disk : StateFile) (p n m : Z) : Prop :=
  forall e, goodEnv e -> envWritable e = true ->
  exists q, status (settlePrevious e (load e disk)) = (q, n, false, true, m) /\
    (q = p \/ q = -1 /\ n = 0).

Lemma represents_none p : represents NoFile p 0 0.
Proof. intros e _ He. exists (-1). split; [|auto]. unfold load, settlePrevious. cbn. by rewrite save_status. Qed.

Lemma represents_synced g p n m :
  synced g -> rgProfile g = p ->
  (if rgArmed g then Z.min (rgStrikes g + 1) kStrikesToSuppress else rgStrikes g) = n ->
  (if rgBootOpen g then Z.min (rgUnstableBoots g + 1) kResumeGuardMaxUnstableBoots
   else rgUnstableBoots g) = m ->
  represents (rgDisk g) p n m.
Proof.
  intros (Hg & Hx & Hd) Hp Hn Hm e He Hw. exists p. split; [|by left].
  rewrite Hd, load_saved by done.
  assert (Hr : wfGuard (reloaded g (Bytes (toJsonText (JObj (saveDocument g)) ++ [cLF])))).
  { destruct Hg. by split. }
  assert (Hx' : wfExit []) by (split; [done|]; cbn; unfold maxReason; lia).
  destruct (isNil (rgLastExit g)).
  - rewrite (proj2 (settle_synced e _ Hw Hr Hx')). cbn. congruence.
  - pose proof (save_fields e (reloaded g (Bytes (toJsonText (JObj (saveDocument g)) ++ [cLF]))))
      as (F1 & F2 & F3 & _ & F5 & F6 & F7).
    rewrite (proj2 (settle_synced e _ Hw (save_wf e _ Hr) ltac:(rewrite F7; exact Hx'))).
    rewrite F1, F2, F3, F5, F6. cbn. congruence.
Qed.

Lemma load_lastExit e disk : rgLastExit (load e disk) = [].
Proof.
  unfold load. destruct disk as [| |b]; try done. break_if; [done|].
  destruct (fromJsonText b) as [[]|]; try done. break_if; [done|]. cbv zeta.
  break_if; [done|]. unfold save. by break_if.
Qed.

Lemma nil_exit : wfExit [].
Proof. split; [done|]. cbn. unfold maxReason. lia. Qed.

Lemma withSuppressed_synced b g : synced g -> synced (withSuppressed b g).
Proof. intros (Hg & Hx & Hd). split; [by apply withSuppressed_wf|done]. Qed.

Lemma arm_synced e d g :
  goodEnv e -> envWritable e = true -> wfGuard g -> wfExit (rgLastExit g) -> 0 <= d <= max_i32 ->
  rgProfile g = d ->
  synced (arm e d g) /\ status (arm e d g) = (d, rgStrikes g, true, rgBootOpen g, rgUnstableBoots g).
Proof.
  intros Ht He Hg Hx Hd Hp. unfold arm. destruct (d <? 0) eqn:E; [lia|].
  rewrite Hp, Z.eqb_refl. cbn [negb]. rewrite save_status. split; [|done].
  apply save_synced; [done| |done]. pose proof Hg as []. by apply withRecord_wf; try lia.
Qed.

Lemma startBoot_spec e p disk n m :
  goodEnv e -> envWritable e = true -> 0 <= p <= max_i32 -> represents disk p n m ->
  let '(g, d, stay) := startBoot e p disk in
  d = (if kStrikesToSuppress <=? n then -1 else p) /\
  stay = (kUnstableBootsToStayUp <=? m) /\ synced g /\
  status g = (p, n, negb (kStrikesToSuppress <=? n), true, m).
Proof.
  intros He Hw Hp Hrep. unfold startBoot. destruct (Hrep e He Hw) as (q & Hs & Hq).
  assert (Hx : wfExit (rgLastExit (load e disk))) by (rewrite load_lastExit; apply nil_exit).
  pose proof (proj1 (settle_synced e _ Hw (load_wf e disk) Hx)) as Hy.
  set (g := settlePrevious e (load e disk)) in *. clearbody g.
  unfold status in Hs. injection Hs as Hs1 Hs2 Hs3 Hs4 Hs5.
  unfold decide, stayUp, unstableBoots. rewrite Hs5.
  destruct (p <? 0) eqn:E0; [lia|].
  pose proof (withSuppressed_synced false g Hy) as Hy0.
  change (rgProfile (withSuppressed false g)) with (rgProfile g).
  change (rgStrikes (withSuppressed false g)) with (rgStrikes g).
  rewrite Hs1, Hs2. destruct (p =? q) eqn:Eq; cbn [negb].
  - apply Z.eqb_eq in Eq as <-. destruct (kStrikesToSuppress <=? n) eqn:En; cbn [Z.ltb].
    + change (-1 <? 0) with true. split_and!; try done.
      * by apply withSuppressed_synced.
      * unfold status. cbn. by rewrite Hs1, Hs2, Hs3, Hs4, Hs5.
    + rewrite E0. destruct Hy0 as (Hg & Hx0 & _).
      destruct (arm_synced e p (withSuppressed false g) He Hw Hg Hx0 Hp Hs1) as [Ha ->].
      split_and!; try done. cbn. by rewrite Hs2, Hs4, Hs5.
  - apply Z.eqb_neq in Eq. destruct Hq as [->|[-> ->]]; [done|].
    change (0 <=? -1) with false. change (kStrikesToSuppress <=? 0) with false. cbn iota.
    rewrite E0. destruct Hy0 as (Hg & Hx0 & _).
    match goal with |- context [arm e p ?h] => set (g' := h) end.
    assert (Hg' : wfGuard g').
    { apply withRecord_wf; try done; unfold kStrikesToSuppress, min_i64, max_i64; lia. }
    destruct (arm_synced e p g' He Hw Hg' Hx0 Hp eq_refl) as [Ha ->].
    split_and!; try done. cbn. by rewrite Hs4, Hs5.
Qed.

Lemma endBoot_spec e p b g n m :
  goodEnv e -> envWritable e = true -> 0 <= p -> exitOk b -> 0 <= n <= kStrikesToSuppress ->
  0 <= m <= kResumeGuardMaxUnstableBoots -> synced g ->
  status g = (p, n, negb (kStrikesToSuppress <=? n), true, m) ->
  represents (rgDisk (endBoot e (if kStrikesToSuppress <=? n then -1 else p) b g)) p
    (strikesAfter n b) (unstableAfter m b).
Proof.
  intros He Hw Hp Hb Hn Hm Hs Hg. unfold endBoot.
  set (sv := beSurvived b && negb (kStrikesToSuppress <=? n)).
  set (g1 := if beSurvived b then _ else g).
  assert (H1 : synced g1 /\ status g1 =
    (p, (if sv then 0 else n), negb (kStrikesToSuppress <=? n) && negb sv, true, m)).
  { unfold g1, sv. destruct (beSurvived b); cbn [andb negb]; [|by rewrite andb_true_r].
    unfold status in Hg. injection Hg as G1 G2 G3 G4 G5.
    destruct (kStrikesToSuppress <=? n) eqn:En; cbn [andb negb].
    - unfold survived. cbn. split; [done|]. unfold status. rewrite G1, G2, G3, G4, G5. done.
    - destruct (survived_synced e p g Hw Hs Hp G1) as [? ->]. split; [done|]. by rewrite G4, G5. }
  clearbody g1. destruct H1 as [Hs1 Hg1].
  set (g2 := if beStable b then markStable e g1 else g1).
  assert (H2 : synced g2 /\ status g2 =
    (p, (if sv then 0 else n), negb (kStrikesToSuppress <=? n) && negb sv, negb (beStable b),
     if beStable b then 0 else m)).
  { unfold g2. unfold status in Hg1. injection Hg1 as G1 G2 G3 G4 G5. destruct (beStable b).
    - destruct (markStable_synced e g1 Hw Hs1) as [? ->]. split; [done|]. cbn. by rewrite G1, G2, G3.
    - split; [done|]. unfold status. by rewrite G1, G2, G3, G4, G5. }
  clearbody g2. destruct H2 as [Hs2 Hg2]. unfold status in Hg2. injection Hg2 as G1 G2 G3 G4 G5.
  assert (Hu : (if negb (beStable b) then Z.min ((if beStable b then 0 else m) + 1) kResumeGuardMaxUnstableBoots
            else if beStable b then 0 else m) = unstableAfter m b).
  { unfold unstableAfter. by destruct (beStable b). }
  destruct (beExit b) as [[c r]|] eqn:Ex.
  - unfold exitOk in Hb. rewrite Ex in Hb.
    destruct (noteExit_synced e c r g2 Hw Hs2 (exitRecord_ok e c r He (proj1 Hb) (proj1 (proj2 Hb)) (proj2 (proj2 Hb)))) as [Hs3 Hg3].
    unfold status in Hg3. injection Hg3 as K1 K2 K3 K4 K5.
    apply represents_synced; [done|congruence| |by rewrite K4, K5, G4, G5].
    rewrite K2, K3, G2, G3. unfold strikesAfter, sv. rewrite Ex.
    destruct (kStrikesToSuppress <=? n) eqn:En; cbn [negb andb]; rewrite ?andb_false_r; [done|].
    destruct (beSurvived b); cbn [andb negb]; [done|]. unfold kStrikesToSuppress in *.
    destruct (_ || _); [lia|done].
  - apply represents_synced; [done|congruence| |by rewrite G4, G5].
    rewrite G2, G3. unfold strikesAfter, sv. rewrite Ex.
    destruct (kStrikesToSuppress <=? n) eqn:En; cbn [negb andb]; rewrite ?andb_false_r; [done|].
    destruct (beSurvived b); cbn [andb negb]; [done|]. unfold kStrikesToSuppress in *. lia.
Qed.

(** One boot with its environment, from file to file. *)
Definition bootOnce (p : Z) (disk : StateFile) (eb : Env * BootEnd) : StateFile :=
  let '(g, d, _) := startBoot (fst eb) p disk in rgDisk (endBoot (fst eb) d (snd eb) g).

Definition goodBoot (eb : Env * BootEnd) : Prop :=
  goodEnv (fst eb) /\ envWritable (fst eb) = true /\ exitOk (snd eb).

Lemma bounds_after n m b :
  0 <= n <= kStrikesToSuppress -> 0 <= m <= kResumeGuardMaxUnstableBoots ->
  0 <= strikesAfter n b <= kStrikesToSuppress /\
  0 <= unstableAfter m b <= kResumeGuardMaxUnstableBoots.
Proof.
  unfold strikesAfter, unstableAfter, kStrikesToSuppress, kResumeGuardMaxUnstableBoots. intros Hn Hm.
  split; [|destruct (beStable b); lia]. destruct (3 <=? n) eqn:E; [lia|]. zbool.
  destruct (beSurvived b); [lia|]. destruct (beExit b) as [[c r]|]; [|lia]. destruct (_ || _); lia.
Qed.

Lemma history_represents p boots disk n m :
  0 <= p <= max_i32 -> Forall goodBoot boots -> represents disk p n m ->
  0 <= n <= kStrikesToSuppress -> 0 <= m <= kResumeGuardMaxUnstableBoots ->
  represents (fold_left (bootOnce p) boots disk) p
    (fold_left strikesAfter (map snd boots) n) (fold_left unstableAfter (map snd boots) m).
Proof.
  intros Hp H. revert disk n m. induction H as [|[e b] boots (He & Hw & Hb) _ IH];
    intros disk n m Hrep Hn Hm; cbn [fold_left map snd]; [done|].
  cbn [fst snd] in *. destruct (bounds_after n m b Hn Hm). apply IH; try done.
  unfold bootOnce. cbn [fst snd].
  pose proof (startBoot_spec e p disk n m He Hw Hp Hrep) as H'.
  destruct (startBoot e p disk) as [[g d] stay]. destruct H' as (-> & _ & Hs & Hg).
  apply endBoot_spec; try done. lia.
Qed.

(** Over any history of boots of a profile, from no state file: the next boot
    resumes the profile unless its strikes have reached three, where a boot that
    died, or exited with 70 or 71, before the profile ran for a minute adds a
    strike, one that ran for a minute clears them, any other exit leaves them,
    and a withheld resume stays withheld; and a boot stays up rather than exit
    exactly when the last three boots (or more) never became stable. *)
Theorem ResumeGuard_history p boots e :
  0 <= p <= max_i32 -> Forall goodBoot boots -> goodEnv e -> envWritable e = true ->
  let '(_, d, stay) := startBoot e p (fold_left (bootOnce p) boots NoFile) in
  d = (if kStrikesToSuppress <=? fold_left strikesAfter (map snd boots) 0 then -1 else p) /\
  stay = (kUnstableBootsToStayUp <=? fold_left unstableAfter (map snd boots) 0).
Proof.
  intros Hp H He Hw.
  pose proof (history_represents p boots NoFile 0 0 Hp H (represents_none p)
    ltac:(unfold kStrikesToSuppress; lia) ltac:(unfold kResumeGuardMaxUnstableBoots; lia)) as Hrep.
  pose proof (startBoot_spec e p _ _ _ He Hw Hp Hrep) as H'.
  destruct (startBoot e p _) as [[g d] stay]. destruct H' as (H1 & H2 & _). done.
Qed.

End Facts.

(** ** The hypotheses can hold *)

Lemma ResumeGuard_invariant_witness :
  let e := mkEnv true 1700000000 in
  let g := fold_left runOp [(e, OpSettle); (e, OpDecide 7); (e, OpArm 7); (e, OpStrike);
                            (e, OpNoteExit 0 (u "stopped"))] (load e Unreadable) in
  wfGuard g /\ rgStrikes g = 1.
Proof.
  cbv zeta. split; [|vm_compute; reflexivity]. apply ResumeGuard_invariant.
  repeat (apply Forall_cons; split; [split; cbn; unfold goodEnv, min_i64, max_i64, min_i32, max_i32; cbn; lia|]).
  apply Forall_nil. exact I.
Defined.

Lemma ResumeGuard_save_load_witness :
  let e := mkEnv true 1700000000 in
  let g := noteExit e 70 (u "gave up") (arm e 7 (fresh NoFile)) in
  let g1 := load e (rgDisk (save e g)) in
  rgArmed g1 = true /\ rgPreviousExit g1 = rgLastExit g.
Proof.
  cbv zeta. set (e := mkEnv true 1700000000).
  set (g := noteExit e 70 (u "gave up") (arm e 7 (fresh NoFile))).
  assert (Hg : wfGuard g).
  { split; vm_compute; repeat split; try discriminate; intros; discriminate. }
  assert (Hx : wfExit (rgLastExit g)) by (split; vm_compute; [reflexivity|discriminate]).
  destruct (ResumeGuard_save_load e e e g Hg Hx eq_refl eq_refl) as (H1 & H2 & _).
  split; [vm_compute; reflexivity|exact H2].
Defined.

(** Three boots that die while armed: the fourth resumes nothing; after one boot
    that ran for a minute in between, it resumes. *)
Lemma ResumeGuard_history_witness :
  let e := mkEnv true 1700000000 in
  let died := (e, mkEnd false false None) in
  let gaveUp := (e, mkEnd false false (Some (70, u "the core kept exiting"))) in
  let ran := (e, mkEnd true true (Some (0, u "stopped"))) in
  snd (fst (startBoot e 7 (fold_left (bootOnce 7) [died; gaveUp; died] NoFile))) = -1 /\
  snd (fst (startBoot e 7 (fold_left (bootOnce 7) [died; ran; gaveUp; died] NoFile))) = 7.
Proof.
  cbv zeta. set (e := mkEnv true 1700000000).
  assert (Hb : forall s r x, exitOk (mkEnd s r x) -> goodBoot (e, mkEnd s r x)).
  { intros s r x Hx. split; [split; vm_compute; discriminate|done]. }
  assert (He : goodEnv e) by (split; vm_compute; discriminate).
  split.
  - pose proof (ResumeGuard_history 7 [(e, mkEnd false false None);
      (e, mkEnd false false (Some (70, u "the core kept exiting"))); (e, mkEnd false false None)] e) as H.
    destruct (startBoot e 7 _) as [[g d] stay]. apply H; try done.
    repeat apply List.Forall_cons; try apply List.Forall_nil; apply Hb; vm_compute; repeat split; discriminate.
  - pose proof (ResumeGuard_history 7 [(e, mkEnd false false None);
      (e, mkEnd true true (Some (0, u "stopped")));
      (e, mkEnd false false (Some (70, u "the core kept exiting"))); (e, mkEnd false false None)] e) as H.
    destruct (startBoot e 7 _) as [[g d] stay]. apply H; try done.
    repeat apply List.Forall_cons; try apply List.Forall_nil; apply Hb; vm_compute; repeat split; discriminate.
Defined.
