(* ===== verification/CoreStderr.v ===== *)
(** What the core said before it exited: the stderr reassembly of
    src/src/engine/supervisor/CoreSupervisor.cpp (the anonymous namespace).

    Chunks of bytes are cut into lines; of one core generation the first panic
    line is kept, else the last line that is no goroutine header and no register
    dump.  Also the notice about a forwarding egress adapter and the window that
    limits how much of stdout is shown. *)
From stdpp Require Import base list strings.
From Stdlib Require Import ZArith Lia Bool.
From S2P Require Import Prelude.

Definition kCoreSupervisorErrorMaxChars : Z := 300.
Definition kCoreSupervisorStderrLineCap : Z := 4096.

(** ** The egress forwarding notice *)

Definition kCoreSupervisorEgressMarker : list Z :=
  u "IPv4 forwarding is enabled on the Tun egress adapter: ".

Section Stderr.
Context {Q : QtChar} {U : Utf8}.

(** The adapter named after the marker, up to the end of its line. *)
Definition coreSupervisorEgressAdapter (log : list Z) : option qstr :=
  let? at_ := indexOfStr kCoreSupervisorEgressMarker log in
  let rest := drop (at_ + length kCoreSupervisorEgressMarker) log in
  let name := match indexOf cLF rest with Some e => take e rest | None => rest end in
  Some (trimmed (fromUtf8 name)).

(** ** Lines *)

Record CoreSupervisorStderrTail := mkTail {
  tailGen : Z;
  tailPartial : list Z;
  tailPanic : qstr;
  tailLast : qstr
}.

Definition freshTail (gen : Z) : CoreSupervisorStderrTail := mkTail gen [] [] [].

Definition coreSupervisorIsPanicLine (line : qstr) : bool :=
  startsWith (u "Core panicked:") line || startsWith (u "panic:") line
  || startsWith (u "fatal error:") line.

Definition coreSupervisorOneLine (text : qstr) : qstr :=
  let text := map (fun c => if isControl c then cSpace else c) text in
  let text := simplified text in
  if kCoreSupervisorErrorMaxChars <? zlen text
  then take (Z.to_nat (kCoreSupervisorErrorMaxChars - 3)) text ++ u "..."
  else text.

(** The regular expression of Go's log stamp: dddd/dd/dd dd:dd:dd, an optional
    fraction and a space, at the start.  [stampShape] gives the fixed part, 48
    standing for a digit. *)
Definition isDigit (c : Z) : bool := (48 <=? c) && (c <=? 57).

Definition stampShape : qstr := u "0000/00/00 00:00:00".

Fixpoint matchShape (shape s : qstr) : option qstr :=
  match shape, s with
  | [], _ => Some s
  | p :: shape', c :: s' =>
      if (if p =? 48 then isDigit c else c =? p) then matchShape shape' s' else None
  | _ :: _, [] => None
  end.

(** What is left after the stamp, when there is one. *)
Definition matchStamp (s : qstr) : option qstr :=
  let? rest := matchShape stampShape s in
  match rest with
  | c :: rest' =>
      if c =? cSpace then Some rest'
      else if c =? cDot then
        let after := dropWhile isDigit rest' in
        match after with
        | d :: after' =>
            if (d =? cSpace) && (length after <? length rest')%nat then Some after' else None
        | [] => None
        end
      else None
  | [] => None
  end.

Definition removeStamp (s : qstr) : qstr :=
  match matchStamp s with Some rest => rest | None => s end.

(** ^[a-z][a-z0-9]{0,7}\s+0x[0-9a-f]+$ on a text without line breaks. *)
Definition isLower (c : Z) : bool := (97 <=? c) && (c <=? 122).
Definition isHexLower (c : Z) : bool := isDigit c || ((97 <=? c) && (c <=? 102)).
Definition isReSpace (c : Z) : bool := (c =? 32) || ((9 <=? c) && (c <=? 13)).

Definition isRegisterDump (s : qstr) : bool :=
  match s with
  | c :: s' =>
      let rest := dropWhile (fun c => isLower c || isDigit c) s' in
      let name := (length s' - length rest)%nat in
      let hex := dropWhile isReSpace rest in
      let digits := drop 2 hex in
      isLower c && (name <=? 7)%nat && (length hex <? length rest)%nat
      && startsWith (u "0x") hex && negb (isNil digits) && forallb isHexLower digits
  | [] => false
  end.

Definition coreSupervisorNoteStderrLine (tail : CoreSupervisorStderrTail) (line : list Z)
    : CoreSupervisorStderrTail :=
  if negb (isNil (tailPanic tail)) then tail
  else
    let line := if endsWithChar cCR line then removelast line else line in
    if isNil line || startsWithChar cSpace line || startsWithChar cTab line then tail
    else
      let text := coreSupervisorOneLine (removeStamp (fromUtf8 line)) in
      if isNil text then tail
      else if coreSupervisorIsPanicLine text then
        mkTail (tailGen tail) (tailPartial tail) text (tailLast tail)
      else if startsWith (u "goroutine ") text || isRegisterDump text then tail
      else mkTail (tailGen tail) (tailPartial tail) (tailPanic tail) text.

Definition withPartial (b : list Z) (tail : CoreSupervisorStderrTail) : CoreSupervisorStderrTail :=
  mkTail (tailGen tail) b (tailPanic tail) (tailLast tail).

(** The loop over the complete lines of [partial]; what is left is the partial
    line.  Its fuel is the length of the text: every round takes a line break. *)
Fixpoint noteLines (fuel : nat) (tail : CoreSupervisorStderrTail) (partial : list Z)
    : CoreSupervisorStderrTail * list Z :=
  match fuel with
  | O => (tail, partial)
  | S fuel' =>
      match indexOf cLF partial with
      | None => (tail, partial)
      | Some e =>
          noteLines fuel' (coreSupervisorNoteStderrLine tail (take e partial)) (drop (S e) partial)
      end
  end.

Definition coreSupervisorFeedStderr (tail : CoreSupervisorStderrTail) (gen : Z) (chunk : list Z)
    : CoreSupervisorStderrTail :=
  let tail := if negb (tailGen tail =? gen) then freshTail gen else tail in
  if negb (isNil (tailPanic tail)) then tail
  else
    let partial := tailPartial tail ++ chunk in
    let (tail, rest) := noteLines (length partial) tail partial in
    withPartial (if kCoreSupervisorStderrLineCap <? zlen rest then [] else rest) tail.

(** The tail and the cause of generation [gen]'s exit. *)
Definition coreSupervisorStderrCause (tail : CoreSupervisorStderrTail) (gen : Z)
    : CoreSupervisorStderrTail * qstr :=
  if negb (tailGen tail =? gen) then (tail, [])
  else
    let tail :=
      if negb (isNil (tailPartial tail)) then
        coreSupervisorNoteStderrLine (withPartial [] tail) (tailPartial tail)
      else tail in
    (tail, if isNil (tailPanic tail) then tailLast tail else tailPanic tail).

End Stderr.

(** ** How much of stdout is shown *)

Definition kLogWindowMs : Z := 1000.

Record LogWindow := mkWindow { windowStartMs : Z; windowLines : Z }.

(** One chunk read at [now]: the window after it, and whether it is shown. *)
Definition noteStdout (maxLines now : Z) (chunk : list Z) (w : LogWindow) : LogWindow * bool :=
  let w := if kLogWindowMs <=? now - windowStartMs w then mkWindow now 0 else w in
  (mkWindow (windowStartMs w) (windowLines w + countChar cLF chunk),
   negb (maxLines <? windowLines w)).
