(* ===== verification/CoreStderrFacts.v ===== *)
(** The cause reported for a core's exit does not depend on how its stderr was
    cut into chunks, and is one short line. *)
From stdpp Require Import base list strings.
From Stdlib Require Import ZArith Lia Bool.
From S2P Require Import Prelude CoreStderr.

Section Facts.
Context {Q : QtChar} {U : Utf8}.

(** ** The reference: what a list of whole lines says *)

(** The text of a line that is neither empty nor indented. *)
Definition lineText (line : list Z) : option qstr :=
  let line := if endsWithChar cCR line then removelast line else line in
  if isNil line || startsWithChar cSpace line || startsWithChar cTab line then None
  else
    let text := coreSupervisorOneLine (removeStamp (fromUtf8 line)) in
    if isNil text then None else Some text.

Definition isNoise (text : qstr) : bool := startsWith (u "goroutine ") text || isRegisterDump text.

(** The first panic line, else the last line that is no noise. *)
Definition causeOf (lines : list (list Z)) : qstr :=
  let texts := omap lineText lines in
  match List.find coreSupervisorIsPanicLine texts with
  | Some p => p
  | None => List.last (List.filter (fun t => negb (isNoise t)) texts) []
  end.

(** ** Noting a line *)

Lemma note_eq tail line :
  tailPanic tail = [] ->
  coreSupervisorNoteStderrLine tail line =
    match lineText line with
    | None => tail
    | Some t =>
        if coreSupervisorIsPanicLine t then mkTail (tailGen tail) (tailPartial tail) t (tailLast tail)
        else if isNoise t then tail
        else mkTail (tailGen tail) (tailPartial tail) (tailPanic tail) t
    end.
Proof.
  intros Hp. unfold coreSupervisorNoteStderrLine, lineText. rewrite Hp. cbn [isNil negb].
  set (l := if endsWithChar cCR line then removelast line else line). cbv zeta.
  destruct (isNil l || _ || _); [done|]. by destruct (isNil _).
Qed.

Lemma note_panicked tail line :
  tailPanic tail <> [] -> coreSupervisorNoteStderrLine tail line = tail.
Proof. intros H. unfold coreSupervisorNoteStderrLine. by destruct (tailPanic tail). Qed.

Lemma note_partial tail line b :
  coreSupervisorNoteStderrLine (withPartial b tail) line
  = withPartial b (coreSupervisorNoteStderrLine tail line).
Proof.
  destruct (decide (tailPanic tail = [])) as [H|H].
  - rewrite !note_eq by done. destruct (lineText line); [|done]. repeat break_if; done.
  - by rewrite !note_panicked.
Qed.

Lemma note_fields tail line :
  tailGen (coreSupervisorNoteStderrLine tail line) = tailGen tail /\
  tailPartial (coreSupervisorNoteStderrLine tail line) = tailPartial tail.
Proof.
  destruct (decide (tailPanic tail = [])) as [H|H]; [|by rewrite note_panicked].
  rewrite note_eq by done. destruct (lineText line); [|done]. repeat break_if; done.
Qed.

Fixpoint noteAll (tail : CoreSupervisorStderrTail) (lines : list (list Z)) {struct lines} :=
  match lines with
  | [] => tail
  | l :: ls => noteAll (coreSupervisorNoteStderrLine tail l) ls
  end.

Lemma noteAll_partial lines tail b :
  noteAll (withPartial b tail) lines = withPartial b (noteAll tail lines).
Proof. revert tail. induction lines as [|l ls IH]; intros tail; cbn [noteAll]; [done|]. by rewrite note_partial, IH. Qed.

Lemma noteAll_panicked lines tail : tailPanic tail <> [] -> noteAll tail lines = tail.
Proof. intros H. induction lines as [|l ls IH]; cbn [noteAll]; [done|]. by rewrite note_panicked. Qed.

Lemma noteAll_fields lines tail :
  tailGen (noteAll tail lines) = tailGen tail /\ tailPartial (noteAll tail lines) = tailPartial tail.
Proof.
  revert tail. induction lines as [|l ls IH]; intros tail; cbn [noteAll]; [done|].
  destruct (note_fields tail l) as [H1 H2]. destruct (IH (coreSupervisorNoteStderrLine tail l)). split; congruence.
Qed.

Definition causeOfTail (tail : CoreSupervisorStderrTail) : qstr :=
  if isNil (tailPanic tail) then tailLast tail else tailPanic tail.

Lemma lineText_nonempty l t : lineText l = Some t -> t <> [].
Proof.
  unfold lineText. set (l' := if endsWithChar cCR l then removelast l else l).
  destruct (isNil l' || _ || _); [done|]. cbv zeta.
  destruct (coreSupervisorOneLine _); cbn; [done|]. by intros [= <-].
Qed.

Lemma last_cons_default {A} (x d : A) l : List.last (x :: l) d = List.last l x.
Proof. revert x. induction l as [|y l IH]; intros x; [done|]. cbn. cbn in IH. destruct l; [done|]. by apply IH. Qed.

Lemma noteAll_cause lines tail :
  tailPanic tail = [] ->
  causeOfTail (noteAll tail lines) =
    match List.find coreSupervisorIsPanicLine (omap lineText lines) with
    | Some p => p
    | None => List.last (List.filter (fun t => negb (isNoise t)) (omap lineText lines)) (tailLast tail)
    end.
Proof.
  revert tail. induction lines as [|l ls IH]; intros tail Hp; cbn [noteAll].
  - unfold causeOfTail. cbn. by rewrite Hp.
  - rewrite note_eq by done. cbn. pose proof (lineText_nonempty l) as Hne.
    destruct (lineText l) as [t|]; [|by apply IH]. specialize (Hne t eq_refl). cbn.
    destruct (coreSupervisorIsPanicLine t) eqn:E; cbn.
    + rewrite noteAll_panicked by done. unfold causeOfTail. cbn. by destruct t.
    + destruct (isNoise t); cbn [negb]; [by apply IH|].
      rewrite last_cons_default. rewrite IH by done. done.
Qed.

(** ** Cutting into lines *)

Lemma splitOn_cons sep c s :
  splitOn sep (c :: s) =
    if c =? sep then [] :: splitOn sep s
    else match splitOn sep s with p :: ps => (c :: p) :: ps | [] => [[c]] end.
Proof. reflexivity. Qed.

Lemma splitOn_join_app sep s t :
  splitOn sep (s ++ t) =
    removelast (splitOn sep s) ++ splitOn sep (List.last (splitOn sep s) [] ++ t).
Proof.
  induction s as [|c s IH]; [done|]. cbn [app]. rewrite !splitOn_cons, IH.
  destruct (splitOn sep s) as [|p ps] eqn:E; [by apply splitOn_nonempty in E|].
  destruct (c =? sep) eqn:Ec.
  - change (removelast ([] :: p :: ps)) with (@nil Z :: removelast (p :: ps)).
    by rewrite (last_cons_default [] [] (p :: ps)).
  - destruct ps as [|q ps]; cbn [removelast app List.last].
    + by rewrite splitOn_cons, Ec.
    + done.
Qed.

Lemma indexOf_split sep s i :
  indexOf sep s = Some i -> splitOn sep s = take i s :: splitOn sep (drop (S i) s).
Proof.
  revert i. induction s as [|c s IH]; intros i H; [done|]. cbn [indexOf] in H. rewrite splitOn_cons.
  destruct (c =? sep); [by injection H as <-|].
  destruct (indexOf sep s) as [j|]; [|done]. injection H as <-. by rewrite (IH j eq_refl).
Qed.

Lemma indexOf_none_split sep s : indexOf sep s = None -> splitOn sep s = [s].
Proof. intros H. apply splitOn_no_sep. by apply indexOf_None. Qed.

Lemma noteLines_spec fuel tail p :
  (length p <= fuel)%nat ->
  noteLines fuel tail p = (noteAll tail (removelast (splitOn cLF p)), List.last (splitOn cLF p) []).
Proof.
  revert tail p. induction fuel as [|fuel IH]; intros tail p Hf.
  - destruct p; [done|]. cbn in Hf. lia.
  - cbn [noteLines]. destruct (indexOf cLF p) as [i|] eqn:E.
    + rewrite (indexOf_split _ _ _ E). rewrite IH.
      2: { rewrite length_drop. lia. }
      destruct (splitOn cLF (drop (S i) p)) as [|q qs] eqn:Eq; [by apply splitOn_nonempty in Eq|]. done.
    + by rewrite (indexOf_none_split _ _ E).
Qed.

(** ** Feeding chunks *)

(** The tail stands for the text [t] read so far. *)
Definition reads (gen : Z) (t : list Z) (tail : CoreSupervisorStderrTail) : Prop :=
  let T := noteAll (freshTail gen) (removelast (splitOn cLF t)) in
  tailGen tail = gen /\ tailPanic tail = tailPanic T /\ tailLast tail = tailLast T /\
  (tailPanic T = [] -> tailPartial tail = List.last (splitOn cLF t) []).

Lemma noteAll_app l1 l2 tail : noteAll tail (l1 ++ l2) = noteAll (noteAll tail l1) l2.
Proof. revert tail. induction l1 as [|l l1 IH]; intros tail; cbn [noteAll app]; [done|]. apply IH. Qed.

Lemma removelast_split_app sep t c :
  removelast (splitOn sep (t ++ c)) =
    removelast (splitOn sep t) ++ removelast (splitOn sep (List.last (splitOn sep t) [] ++ c)) /\
  List.last (splitOn sep (t ++ c)) [] = List.last (splitOn sep (List.last (splitOn sep t) [] ++ c)) [].
Proof.
  rewrite splitOn_join_app. set (l := splitOn sep (_ ++ c)).
  assert (Hl : l <> []) by apply splitOn_nonempty. split; [by apply removelast_app|].
  destruct l as [|x l]; [done|]. clear. induction (removelast (splitOn sep t)) as [|y ys IH]; [done|].
  cbn [app]. destruct (ys ++ x :: l) eqn:E; [by destruct ys|]. done.
Qed.

Lemma feed_reads gen t chunk tail :
  Forall (fun p => zlen p <= kCoreSupervisorStderrLineCap) (splitOn cLF (t ++ chunk)) ->
  reads gen t tail -> reads gen (t ++ chunk) (coreSupervisorFeedStderr tail gen chunk).
Proof.
  intros Hcap (Hg & Hp & Hl & Hpart). unfold reads.
  destruct (removelast_split_app cLF t chunk) as [E1 E2]. rewrite E1, E2, noteAll_app. clear E1.
  set (T := noteAll (freshTail gen) (removelast (splitOn cLF t))) in *.
  unfold coreSupervisorFeedStderr. rewrite Hg, Z.eqb_refl. cbn [negb].
  destruct (tailPanic T) as [|x xs] eqn:ET.
  - rewrite Hp. cbn [isNil negb]. rewrite Hpart by done.
    set (rest := List.last (splitOn cLF t) [] ++ chunk) in *.
    rewrite noteLines_spec by done.
    assert (Hlen : zlen (List.last (splitOn cLF rest) []) <= kCoreSupervisorStderrLineCap).
    { rewrite <- E2. rewrite Forall_forall in Hcap. apply Hcap. apply list_elem_of_In.
      pose proof (app_removelast_last [] (splitOn_nonempty cLF (t ++ chunk))) as Ha.
      rewrite Ha at 2. apply in_or_app. right. by left. }
    destruct (_ <? _) eqn:E; [zbool; lia|]. cbn [withPartial tailGen tailPanic tailLast tailPartial].
    assert (Htail : withPartial [] tail = withPartial [] T).
    { destruct (noteAll_fields (removelast (splitOn cLF t)) (freshTail gen)) as [G1 _]. fold T in G1.
      unfold withPartial. cbn in G1. rewrite Hg, Hl, Hp, G1, ET. done. }
    assert (Hn : forall ls, tailPanic (noteAll tail ls) = tailPanic (noteAll T ls) /\
                            tailLast (noteAll tail ls) = tailLast (noteAll T ls)).
    { intros ls. pose proof (noteAll_partial ls tail []) as H1. rewrite Htail, noteAll_partial in H1.
      unfold withPartial in H1. injection H1 as _ H2 H3. done. }
    destruct (Hn (removelast (splitOn cLF rest))) as [H1 H2].
    destruct (noteAll_fields (removelast (splitOn cLF rest)) tail) as [H3 _].
    rewrite H1, H2, H3. done.
  - rewrite Hp. cbn [isNil negb]. rewrite noteAll_panicked by (by rewrite ET). rewrite ET.
    split_and!; try done.
Qed.

Lemma splitOn_prefix_forall (P : list Z -> Prop) sep s t :
  (forall p q, P (p ++ q) -> P p) -> Forall P (splitOn sep (s ++ t)) -> Forall P (splitOn sep s).
Proof.
  intros HP H. rewrite splitOn_join_app in H. apply Forall_app in H as [H1 H2].
  rewrite (app_removelast_last [] (splitOn_nonempty sep s)). apply Forall_app. split; [done|].
  apply List.Forall_cons; [|apply List.Forall_nil].
  set (m := List.last (splitOn sep s) []) in *.
  assert (Hm : splitOn sep m = [m]).
  { apply splitOn_no_sep. pose proof (splitOn_parts sep s) as Hparts. rewrite Forall_forall in Hparts.
    apply Hparts, list_elem_of_In. unfold m.
    rewrite (app_removelast_last [] (splitOn_nonempty sep s)) at 2. apply in_or_app. right. by left. }
  rewrite splitOn_join_app, Hm in H2. cbn in H2.
  destruct (splitOn sep (m ++ t)) as [|p ps] eqn:Ep; [by apply splitOn_nonempty in Ep|].
  rewrite splitOn_join_app, Hm in Ep. cbn in Ep.
  assert (Hp : exists q, p = m ++ q).
  { clear -Hm Ep. assert (Hc : contains sep m = false).
    { pose proof (splitOn_parts sep m) as Hparts. rewrite Hm in Hparts. by apply Forall_inv in Hparts. }
    clear Hm. revert p ps Ep. induction m as [|c m IH]; intros p ps Ep; [by exists p|].
    rewrite contains_cons in Hc. apply orb_false_iff in Hc as [Hc1 Hc2]. cbn [app] in Ep.
    rewrite splitOn_cons in Ep. destruct (c =? sep) eqn:E; [zbool; lia|].
    destruct (splitOn sep (m ++ t)) as [|p' ps'] eqn:E'; [by apply splitOn_nonempty in E'|].
    injection Ep as <- <-. destruct (IH Hc2 p' ps' eq_refl) as [q ->]. by exists q. }
  destruct Hp as [q ->]. apply HP with q. by apply Forall_inv in H2.
Qed.

Lemma feedAll_reads gen chunks t tail :
  Forall (fun p => zlen p <= kCoreSupervisorStderrLineCap) (splitOn cLF (t ++ concat chunks)) ->
  reads gen t tail ->
  reads gen (t ++ concat chunks)
    (fold_left (fun tl c => coreSupervisorFeedStderr tl gen c) chunks tail).
Proof.
  revert t tail. induction chunks as [|c cs IH]; intros t tail Hcap Hr; cbn [concat fold_left].
  - by rewrite app_nil_r.
  - cbn [concat] in Hcap. rewrite app_assoc in *. apply IH; [done|]. apply feed_reads; [|done].
    apply splitOn_prefix_forall in Hcap; [done|]. intros p q. rewrite zlen_app. pose proof (zlen_nonneg q). lia.
Qed.

(** However a core's stderr is cut into chunks, the cause of its exit is that
    of the whole text's lines (none longer than the cap): the first panic line,
    else the last line that is not indented, a goroutine header or a register
    dump. *)
Theorem stderr_cause_chunks gen chunks :
  Forall (fun p => zlen p <= kCoreSupervisorStderrLineCap) (splitOn cLF (concat chunks)) ->
  snd (coreSupervisorStderrCause
         (fold_left (fun tl c => coreSupervisorFeedStderr tl gen c) chunks (freshTail gen)) gen)
  = causeOf (splitOn cLF (concat chunks)).
Proof.
  intros Hcap. assert (Hr0 : reads gen [] (freshTail gen)) by done.
  destruct (feedAll_reads gen chunks [] (freshTail gen) Hcap Hr0) as (Hg & Hp & Hl & Hpart).
  cbn [app] in *. set (tail := fold_left _ chunks _) in *. set (s := concat chunks) in *.
  transitivity (causeOfTail (noteAll (freshTail gen) (splitOn cLF s))).
  2: { by rewrite noteAll_cause. }
  rewrite (app_removelast_last [] (splitOn_nonempty cLF s)) at 1. rewrite noteAll_app.
  set (T := noteAll (freshTail gen) (removelast (splitOn cLF s))) in *.
  set (rest := List.last (splitOn cLF s) []) in *. cbn [noteAll].
  unfold coreSupervisorStderrCause. rewrite Hg, Z.eqb_refl. cbn [negb snd].
  destruct (decide (tailPanic T = [])) as [ET|ET].
  - specialize (Hpart ET). rewrite Hpart.
    assert (Hnote : forall b, causeOfTail (coreSupervisorNoteStderrLine (withPartial b tail) rest)
                    = causeOfTail (coreSupervisorNoteStderrLine T rest)).
    { intros b. rewrite !note_eq by (cbn; congruence). unfold causeOfTail.
      destruct (lineText rest) as [x|]; cbn; [|by rewrite Hp, Hl].
      destruct (coreSupervisorIsPanicLine x), (isNoise x); cbn; rewrite ?Hp, ?Hl; done. }
    destruct rest as [|c r] eqn:Er; cbn [isNil negb].
    + unfold causeOfTail. rewrite note_eq by done. cbn. by rewrite Hp, Hl, ET.
    + rewrite <- (Hnote []). done.
  - rewrite (note_panicked T) by done.
    assert (Hpt : tailPanic tail <> []) by congruence.
    assert (Hif : forall b l, (if b : bool then coreSupervisorNoteStderrLine (withPartial [] tail) l else tail)
       = if b then withPartial [] tail else tail).
    { intros [] l; [|done]. by apply note_panicked. }
    rewrite Hif. unfold causeOfTail. rewrite <- Hp, <- Hl. by destruct (negb _).
Qed.

(** ** One short line *)

Lemma splitSpaces_forall (P : Z -> Prop) s : Forall P s -> Forall (Forall P) (splitSpaces s).
Proof.
  induction 1 as [|c s Hc _ IH]; cbn [splitSpaces]; [by repeat constructor|].
  destruct (isSpace c); [by constructor|].
  destruct (splitSpaces s) as [|p ps]; [by repeat constructor|].
  apply Forall_cons in IH as [Hp Hps]. constructor; [by constructor|done].
Qed.

Lemma simplified_forall (P : Z -> Prop) s : P cSpace -> Forall P s -> Forall P (simplified s).
Proof.
  intros Hsp H. apply joinWith_forall; [done|]. apply splitSpaces_forall in H. unfold words.
  rewrite Forall_forall in *. intros w Hw. apply H. apply list_elem_of_In in Hw.
  apply filter_In in Hw as [Hw _]. by apply list_elem_of_In.
Qed.

Definition shortLine (s : qstr) : Prop :=
  zlen s <= kCoreSupervisorErrorMaxChars /\ Forall (fun c => isControl c = false) s.

Lemma oneLine_short s : shortLine (coreSupervisorOneLine s).
Proof.
  unfold coreSupervisorOneLine. set (t := map _ s).
  assert (Ht : Forall (fun c => isControl c = false) (simplified t)).
  { apply simplified_forall; [done|]. unfold t. apply Forall_map, Forall_forall. intros c _. cbn.
    by destruct (isControl c) eqn:E. }
  unfold shortLine, kCoreSupervisorErrorMaxChars, zlen in *. destruct (_ <? _) eqn:E; zbool.
  - split.
    + rewrite length_app, length_take. change (length (u "...")) with 3%nat. lia.
    + apply Forall_app. split; [by apply Forall_take|]. by repeat constructor.
  - done.
Qed.

Lemma note_short tail line :
  shortLine (tailPanic tail) /\ shortLine (tailLast tail) ->
  let t := coreSupervisorNoteStderrLine tail line in
  shortLine (tailPanic t) /\ shortLine (tailLast t).
Proof.
  intros [Hp Hl]. cbv zeta. destruct (decide (tailPanic tail = [])) as [E|E]; [|by rewrite note_panicked].
  rewrite note_eq by done. unfold lineText. cbv zeta.
  destruct (isNil _ || _ || _); [done|]. destruct (isNil _); [done|].
  repeat break_if; cbn; split; try done; apply oneLine_short.
Qed.

Lemma noteLines_short fuel tail p :
  shortLine (tailPanic tail) /\ shortLine (tailLast tail) ->
  let t := fst (noteLines fuel tail p) in shortLine (tailPanic t) /\ shortLine (tailLast t).
Proof.
  revert tail p. induction fuel as [|fuel IH]; intros tail p H; cbn [noteLines]; [done|].
  destruct (indexOf cLF p); [|done]. apply IH. by apply note_short.
Qed.

Lemma feed_short tail gen chunk :
  shortLine (tailPanic tail) /\ shortLine (tailLast tail) ->
  let t := coreSupervisorFeedStderr tail gen chunk in
  shortLine (tailPanic t) /\ shortLine (tailLast t).
Proof.
  intros H. cbv zeta. unfold coreSupervisorFeedStderr.
  set (tail0 := if negb _ then freshTail gen else tail).
  assert (H0 : shortLine (tailPanic tail0) /\ shortLine (tailLast tail0)).
  { unfold tail0. destruct (negb _); [|done]. by repeat split. }
  destruct (negb (isNil _)); [done|].
  pose proof (noteLines_short (length (tailPartial tail0 ++ chunk)) tail0 (tailPartial tail0 ++ chunk) H0) as Hn.
  by destruct (noteLines _ _ _) as [t r].
Qed.

(** Whatever cores write to stderr, in whatever chunks and over however many
    generations, the cause read for an exit is at most 300 characters long and
    holds no control character. *)
Theorem stderr_cause_line chunks gen :
  let tail := fold_left (fun tl gc => coreSupervisorFeedStderr tl (fst gc) (snd gc)) chunks (freshTail 0) in
  shortLine (snd (coreSupervisorStderrCause tail gen)).
Proof.
  cbv zeta.
  assert (H0 : shortLine (tailPanic (freshTail 0)) /\ shortLine (tailLast (freshTail 0))) by by repeat split.
  revert H0. generalize (freshTail 0). induction chunks as [|[g c] cs IH]; intros tail H; cbn [fold_left fst snd].
  - unfold coreSupervisorStderrCause. destruct (negb _); [by repeat split|]. cbn [snd].
    set (t := if negb _ then _ else tail).
    assert (Ht : shortLine (tailPanic t) /\ shortLine (tailLast t)).
    { unfold t. destruct (negb _); [by apply note_short|done]. }
    destruct Ht. by destruct (isNil (tailPanic t)).
  - apply IH. by apply feed_short.
Qed.

End Facts.

Lemma stderr_cause_chunks_witness :
  snd (coreSupervisorStderrCause
         (fold_left (fun tl c => coreSupervisorFeedStderr tl 3 c)
            [u "2024/05/06 07:08:09 cannot bind: a"; u "ddress in use" ++ [13; 10; 9] ++ u "at main";
             [10] ++ u "goroutine 1 [running]:" ++ [10] ++ u "rax 0x1"] (freshTail 3)) 3)
  = u "cannot bind: address in use".
Proof.
  rewrite stderr_cause_chunks; [vm_compute; reflexivity|].
  apply Forall_forall. intros p Hp. vm_compute in Hp.
  repeat (apply elem_of_cons in Hp as [->|Hp]; [vm_compute; discriminate|]).
  by apply elem_of_nil in Hp.
Defined.
