(* ===== verification/Supervisor.v ===== *)
(** The core supervisor: src/src/engine/supervisor/CoreSupervisor.cpp and the
    process it drives, CoreProcess of src/src/sys/Process.cpp.

    [Sup] holds the members of CoreSupervisor, the shared settings it reads and
    writes (started_id, core_running, prepare_exit), the kill switch's identity
    flag, the tasks posted to the DS_cores thread in order, and the trace of
    signals and calls to other components.  A method is a function on [Sup]; a
    handler of the main thread runs to its end before the next one, and
    [runTask] runs the oldest posted task, so any interleaving of the two threads
    is a sequence of [step]s.  Log lines and notices are left out. *)
From stdpp Require Import base list strings.
From Stdlib Require Import ZArith Lia Bool.
From S2P Require Import Prelude CoreStderr.

(** ** Constants *)

Definition NoProfileId : Z := -1919.
Definition kConnectTimeoutMs : Z := 20000.
Definition kStableMs : Z := 60 * 1000.
Definition kBackoffFirstMs : Z := 500.
Definition kBackoffCapMs : Z := 30000.
Definition kGiveUpAfter : Z := 5.
Definition kProfileCrashWindowMs : Z := 10000.
Definition kIntentRestartDelayMs : Z := 200.
Definition kPrivilegeProbeRetries : Z := 2.
Definition kCoreIdentityExitCode : Z := 86.

(** The platform, the front end and the installed translation. *)
Class Platform := { isWindows : bool; isGuiApp : bool; tr : qstr -> qstr }.

(** ** State *)

Inductive CoreState :=
| NotStarted | Starting | Connected | Backoff | GaveUp | ListenFailed | ShuttingDown.

#[export] Instance CoreState_eq_dec : EqDecision CoreState.
Proof. solve_decision. Defined.

(** CoreProcess: its members and whether it was asked for the guard identity. *)
Record CoreProcess := mkProcess {
  procStarted : bool;
  procGeneration : Z;
  procFailedToStart : bool;
  procGuardIdentity : bool
}.

(** The arguments of Lifecycle::StopRunningProfile. *)
Inductive StopArgs := mkStop (crash sem manual : bool).

(** What is posted to DS_cores. *)
Inductive Task :=
| TaskStart
| TaskKill (waitMs : Z)
| TaskKillGroup
| TaskReset
| TaskExpectedKill
| TaskKillGeneration (gen : Z)
| TaskRestart (before : option StopArgs).

(** Signals, and calls to components outside this one. *)
Inductive Output :=
| StateChanged (s : CoreState)
| RpcConnected
| CoreStarted (profileId : Z)
| CoreGaveUpSignal (reason : qstr)
| ListenFailedSignal
| CoreExited (wasConnected : bool)
| ResumeCancelled
| SocketRejected
| ProbeStarted (gen attempt : Z)
| ProbeRetryArmed (gen attempt : Z)
| KnownAdmin (privileged : bool)
| IdentityUnsupported (detail : qstr)
| ProfileStopped (args : StopArgs)
| CoreKilled
| CoreSpawned (gen : Z).

Record Sup := mkSup {
  supState : CoreState;
  supProc : option CoreProcess;
  supRestartTimer : option Z;
  supConnectTimer : option Z;
  expectedExitGen : Z;
  startWhenUp : Z;
  probing : bool;
  failures : Z;
  startFailures : Z;
  lastCoreError : qstr;
  lastCoreErrorGen : Z;
  handledExitGen : Z;
  acceptedGen : Z;
  connectGen : Z;
  timedOutGen : Z;
  connectedAt : option Z;
  profileCrashTimer : option Z;
  lastFailure : qstr;
  restartCount : Z;
  startedId : Z;
  coreRunning : bool;
  prepareExit : bool;
  identityUnsupported : bool;
  tasks : list Task;
  outputs : list Output
}.

Definition withState (v : CoreState) (s : Sup) : Sup :=
  mkSup v (supProc s) (supRestartTimer s) (supConnectTimer s) (expectedExitGen s) (startWhenUp
    s) (probing s) (failures s) (startFailures s) (lastCoreError s) (lastCoreErrorGen s)
    (handledExitGen s) (acceptedGen s) (connectGen s) (timedOutGen s) (connectedAt s)
    (profileCrashTimer s) (lastFailure s) (restartCount s) (startedId s) (coreRunning s)
    (prepareExit s) (identityUnsupported s) (tasks s) (outputs s).
Definition withProc (v : option CoreProcess) (s : Sup) : Sup :=
  mkSup (supState s) v (supRestartTimer s) (supConnectTimer s) (expectedExitGen s) (startWhenUp
    s) (probing s) (failures s) (startFailures s) (lastCoreError s) (lastCoreErrorGen s)
    (handledExitGen s) (acceptedGen s) (connectGen s) (timedOutGen s) (connectedAt s)
    (profileCrashTimer s) (lastFailure s) (restartCount s) (startedId s) (coreRunning s)
    (prepareExit s) (identityUnsupported s) (tasks s) (outputs s).
Definition withRestartTimer (v : option Z) (s : Sup) : Sup :=
  mkSup (supState s) (supProc s) v (supConnectTimer s) (expectedExitGen s) (startWhenUp s)
    (probing s) (failures s) (startFailures s) (lastCoreError s) (lastCoreErrorGen s)
    (handledExitGen s) (acceptedGen s) (connectGen s) (timedOutGen s) (connectedAt s)
    (profileCrashTimer s) (lastFailure s) (restartCount s) (startedId s) (coreRunning s)
    (prepareExit s) (identityUnsupported s) (tasks s) (outputs s).
Definition withConnectTimer (v : option Z) (s : Sup) : Sup :=
  mkSup (supState s) (supProc s) (supRestartTimer s) v (expectedExitGen s) (startWhenUp s)
    (probing s) (failures s) (startFailures s) (lastCoreError s) (lastCoreErrorGen s)
    (handledExitGen s) (acceptedGen s) (connectGen s) (timedOutGen s) (connectedAt s)
    (profileCrashTimer s) (lastFailure s) (restartCount s) (startedId s) (coreRunning s)
    (prepareExit s) (identityUnsupported s) (tasks s) (outputs s).
Definition withExpectedExitGen (v : Z) (s : Sup) : Sup :=
  mkSup (supState s) (supProc s) (supRestartTimer s) (supConnectTimer s) v (startWhenUp s)
    (probing s) (failures s) (startFailures s) (lastCoreError s) (lastCoreErrorGen s)
    (handledExitGen s) (acceptedGen s) (connectGen s) (timedOutGen s) (connectedAt s)
    (profileCrashTimer s) (lastFailure s) (restartCount s) (startedId s) (coreRunning s)
    (prepareExit s) (identityUnsupported s) (tasks s) (outputs s).
Definition withStartWhenUp (v : Z) (s : Sup) : Sup :=
  mkSup (supState s) (supProc s) (supRestartTimer s) (supConnectTimer s) (expectedExitGen s) v
    (probing s) (failures s) (startFailures s) (lastCoreError s) (lastCoreErrorGen s)
    (handledExitGen s) (acceptedGen s) (connectGen s) (timedOutGen s) (connectedAt s)
    (profileCrashTimer s) (lastFailure s) (restartCount s) (startedId s) (coreRunning s)
    (prepareExit s) (identityUnsupported s) (tasks s) (outputs s).
Definition withProbing (v : bool) (s : Sup) : Sup :=
  mkSup (supState s) (supProc s) (supRestartTimer s) (supConnectTimer s) (expectedExitGen s)
    (startWhenUp s) v (failures s) (startFailures s) (lastCoreError s) (lastCoreErrorGen s)
    (handledExitGen s) (acceptedGen s) (connectGen s) (timedOutGen s) (connectedAt s)
    (profileCrashTimer s) (lastFailure s) (restartCount s) (startedId s) (coreRunning s)
    (prepareExit s) (identityUnsupported s) (tasks s) (outputs s).
Definition withFailures (v : Z) (s : Sup) : Sup :=
  mkSup (supState s) (supProc s) (supRestartTimer s) (supConnectTimer s) (expectedExitGen s)
    (startWhenUp s) (probing s) v (startFailures s) (lastCoreError s) (lastCoreErrorGen s)
    (handledExitGen s) (acceptedGen s) (connectGen s) (timedOutGen s) (connectedAt s)
    (profileCrashTimer s) (lastFailure s) (restartCount s) (startedId s) (coreRunning s)
    (prepareExit s) (identityUnsupported s) (tasks s) (outputs s).
Definition withStartFailures (v : Z) (s : Sup) : Sup :=
  mkSup (supState s) (supProc s) (supRestartTimer s) (supConnectTimer s) (expectedExitGen s)
    (startWhenUp s) (probing s) (failures s) v (lastCoreError s) (lastCoreErrorGen s)
    (handledExitGen s) (acceptedGen s) (connectGen s) (timedOutGen s) (connectedAt s)
    (profileCrashTimer s) (lastFailure s) (restartCount s) (startedId s) (coreRunning s)
    (prepareExit s) (identityUnsupported s) (tasks s) (outputs s).
Definition withLastCoreError (v : qstr) (s : Sup) : Sup :=
  mkSup (supState s) (supProc s) (supRestartTimer s) (supConnectTimer s) (expectedExitGen s)
    (startWhenUp s) (probing s) (failures s) (startFailures s) v (lastCoreErrorGen s)
    (handledExitGen s) (acceptedGen s) (connectGen s) (timedOutGen s) (connectedAt s)
    (profileCrashTimer s) (lastFailure s) (restartCount s) (startedId s) (coreRunning s)
    (prepareExit s) (identityUnsupported s) (tasks s) (outputs s).
Definition withLastCoreErrorGen (v : Z) (s : Sup) : Sup :=
  mkSup (supState s) (supProc s) (supRestartTimer s) (supConnectTimer s) (expectedExitGen s)
    (startWhenUp s) (probing s) (failures s) (startFailures s) (lastCoreError s) v
    (handledExitGen s) (acceptedGen s) (connectGen s) (timedOutGen s) (connectedAt s)
    (profileCrashTimer s) (lastFailure s) (restartCount s) (startedId s) (coreRunning s)
    (prepareExit s) (identityUnsupported s) (tasks s) (outputs s).
Definition withHandledExitGen (v : Z) (s : Sup) : Sup :=
  mkSup (supState s) (supProc s) (supRestartTimer s) (supConnectTimer s) (expectedExitGen s)
    (startWhenUp s) (probing s) (failures s) (startFailures s) (lastCoreError s)
    (lastCoreErrorGen s) v (acceptedGen s) (connectGen s) (timedOutGen s) (connectedAt s)
    (profileCrashTimer s) (lastFailure s) (restartCount s) (startedId s) (coreRunning s)
    (prepareExit s) (identityUnsupported s) (tasks s) (outputs s).
Definition withAcceptedGen (v : Z) (s : Sup) : Sup :=
  mkSup (supState s) (supProc s) (supRestartTimer s) (supConnectTimer s) (expectedExitGen s)
    (startWhenUp s) (probing s) (failures s) (startFailures s) (lastCoreError s)
    (lastCoreErrorGen s) (handledExitGen s) v (connectGen s) (timedOutGen s) (connectedAt s)
    (profileCrashTimer s) (lastFailure s) (restartCount s) (startedId s) (coreRunning s)
    (prepareExit s) (identityUnsupported s) (tasks s) (outputs s).
Definition withConnectGen (v : Z) (s : Sup) : Sup :=
  mkSup (supState s) (supProc s) (supRestartTimer s) (supConnectTimer s) (expectedExitGen s)
    (startWhenUp s) (probing s) (failures s) (startFailures s) (lastCoreError s)
    (lastCoreErrorGen s) (handledExitGen s) (acceptedGen s) v (timedOutGen s) (connectedAt s)
    (profileCrashTimer s) (lastFailure s) (restartCount s) (startedId s) (coreRunning s)
    (prepareExit s) (identityUnsupported s) (tasks s) (outputs s).
Definition withTimedOutGen (v : Z) (s : Sup) : Sup :=
  mkSup (supState s) (supProc s) (supRestartTimer s) (supConnectTimer s) (expectedExitGen s)
    (startWhenUp s) (probing s) (failures s) (startFailures s) (lastCoreError s)
    (lastCoreErrorGen s) (handledExitGen s) (acceptedGen s) (connectGen s) v (connectedAt s)
    (profileCrashTimer s) (lastFailure s) (restartCount s) (startedId s) (coreRunning s)
    (prepareExit s) (identityUnsupported s) (tasks s) (outputs s).
Definition withConnectedAt (v : option Z) (s : Sup) : Sup :=
  mkSup (supState s) (supProc s) (supRestartTimer s) (supConnectTimer s) (expectedExitGen s)
    (startWhenUp s) (probing s) (failures s) (startFailures s) (lastCoreError s)
    (lastCoreErrorGen s) (handledExitGen s) (acceptedGen s) (connectGen s) (timedOutGen s) v
    (profileCrashTimer s) (lastFailure s) (restartCount s) (startedId s) (coreRunning s)
    (prepareExit s) (identityUnsupported s) (tasks s) (outputs s).
Definition withProfileCrashTimer (v : option Z) (s : Sup) : Sup :=
  mkSup (supState s) (supProc s) (supRestartTimer s) (supConnectTimer s) (expectedExitGen s)
    (startWhenUp s) (probing s) (failures s) (startFailures s) (lastCoreError s)
    (lastCoreErrorGen s) (handledExitGen s) (acceptedGen s) (connectGen s) (timedOutGen s)
    (connectedAt s) v (lastFailure s) (restartCount s) (startedId s) (coreRunning s)
    (prepareExit s) (identityUnsupported s) (tasks s) (outputs s).
Definition withLastFailure (v : qstr) (s : Sup) : Sup :=
  mkSup (supState s) (supProc s) (supRestartTimer s) (supConnectTimer s) (expectedExitGen s)
    (startWhenUp s) (probing s) (failures s) (startFailures s) (lastCoreError s)
    (lastCoreErrorGen s) (handledExitGen s) (acceptedGen s) (connectGen s) (timedOutGen s)
    (connectedAt s) (profileCrashTimer s) v (restartCount s) (startedId s) (coreRunning s)
    (prepareExit s) (identityUnsupported s) (tasks s) (outputs s).
Definition withRestartCount (v : Z) (s : Sup) : Sup :=
  mkSup (supState s) (supProc s) (supRestartTimer s) (supConnectTimer s) (expectedExitGen s)
    (startWhenUp s) (probing s) (failures s) (startFailures s) (lastCoreError s)
    (lastCoreErrorGen s) (handledExitGen s) (acceptedGen s) (connectGen s) (timedOutGen s)
    (connectedAt s) (profileCrashTimer s) (lastFailure s) v (startedId s) (coreRunning s)
    (prepareExit s) (identityUnsupported s) (tasks s) (outputs s).
Definition withStartedId (v : Z) (s : Sup) : Sup :=
  mkSup (supState s) (supProc s) (supRestartTimer s) (supConnectTimer s) (expectedExitGen s)
    (startWhenUp s) (probing s) (failures s) (startFailures s) (lastCoreError s)
    (lastCoreErrorGen s) (handledExitGen s) (acceptedGen s) (connectGen s) (timedOutGen s)
    (connectedAt s) (profileCrashTimer s) (lastFailure s) (restartCount s) v (coreRunning s)
    (prepareExit s) (identityUnsupported s) (tasks s) (outputs s).
Definition withCoreRunning (v : bool) (s : Sup) : Sup :=
  mkSup (supState s) (supProc s) (supRestartTimer s) (supConnectTimer s) (expectedExitGen s)
    (startWhenUp s) (probing s) (failures s) (startFailures s) (lastCoreError s)
    (lastCoreErrorGen s) (handledExitGen s) (acceptedGen s) (connectGen s) (timedOutGen s)
    (connectedAt s) (profileCrashTimer s) (lastFailure s) (restartCount s) (startedId s) v
    (prepareExit s) (identityUnsupported s) (tasks s) (outputs s).
Definition withPrepareExit (v : bool) (s : Sup) : Sup :=
  mkSup (supState s) (supProc s) (supRestartTimer s) (supConnectTimer s) (expectedExitGen s)
    (startWhenUp s) (probing s) (failures s) (startFailures s) (lastCoreError s)
    (lastCoreErrorGen s) (handledExitGen s) (acceptedGen s) (connectGen s) (timedOutGen s)
    (connectedAt s) (profileCrashTimer s) (lastFailure s) (restartCount s) (startedId s)
    (coreRunning s) v (identityUnsupported s) (tasks s) (outputs s).
Definition withIdentityUnsupported (v : bool) (s : Sup) : Sup :=
  mkSup (supState s) (supProc s) (supRestartTimer s) (supConnectTimer s) (expectedExitGen s)
    (startWhenUp s) (probing s) (failures s) (startFailures s) (lastCoreError s)
    (lastCoreErrorGen s) (handledExitGen s) (acceptedGen s) (connectGen s) (timedOutGen s)
    (connectedAt s) (profileCrashTimer s) (lastFailure s) (restartCount s) (startedId s)
    (coreRunning s) (prepareExit s) v (tasks s) (outputs s).
Definition withTasks (v : list Task) (s : Sup) : Sup :=
  mkSup (supState s) (supProc s) (supRestartTimer s) (supConnectTimer s) (expectedExitGen s)
    (startWhenUp s) (probing s) (failures s) (startFailures s) (lastCoreError s)
    (lastCoreErrorGen s) (handledExitGen s) (acceptedGen s) (connectGen s) (timedOutGen s)
    (connectedAt s) (profileCrashTimer s) (lastFailure s) (restartCount s) (startedId s)
    (coreRunning s) (prepareExit s) (identityUnsupported s) v (outputs s).
Definition withOutputs (v : list Output) (s : Sup) : Sup :=
  mkSup (supState s) (supProc s) (supRestartTimer s) (supConnectTimer s) (expectedExitGen s)
    (startWhenUp s) (probing s) (failures s) (startFailures s) (lastCoreError s)
    (lastCoreErrorGen s) (handledExitGen s) (acceptedGen s) (connectGen s) (timedOutGen s)
    (connectedAt s) (profileCrashTimer s) (lastFailure s) (restartCount s) (startedId s)
    (coreRunning s) (prepareExit s) (identityUnsupported s) (tasks s) v.

(** The members as the constructor leaves them, over a started profile. *)
Definition initialSup (started : Z) : Sup :=
  mkSup NotStarted None None None 0 (-1) false 0 0 [] 0 0 0 0 0 None None [] 0
    started false false false [] [].

Definition emit (o : Output) (s : Sup) : Sup := withOutputs (outputs s ++ [o]) s.
Definition post (t : Task) (s : Sup) : Sup := withTasks (tasks s ++ [t]) s.

Section Supervisor.
Context {P : Platform}.

Definition setState (st : CoreState) (s : Sup) : Sup :=
  let s' := withState st s in
  if decide (supState s = st) then s' else emit (StateChanged st) s'.

Definition exiting (s : Sup) : bool :=
  bool_decide (supState s = ShuttingDown) || prepareExit s.

Definition currentGeneration (s : Sup) : Z :=
  match supProc s with Some p => procGeneration p | None => 0 end.

Definition canStartCore (s : Sup) : bool :=
  negb (bool_decide (supState s = ListenFailed)) && negb (bool_decide (supState s = ShuttingDown)).

(** ** The process (DS_cores) *)

(** CoreProcess::Start; [guard] is the kill switch setting. *)
Definition processStart (guard : bool) (s : Sup) (p : CoreProcess) : Sup :=
  if procStarted p then withProc (Some p) s
  else
    let gen := procGeneration p + 1 in
    emit (CoreSpawned gen)
      (withProc (Some (mkProcess true gen false (guard && negb (identityUnsupported s)))) s).

(** CoreProcess::Restart. *)
Definition processRestart (guard : bool) (s : Sup) (p : CoreProcess) : Sup :=
  processStart guard (emit CoreKilled s)
    (mkProcess false (procGeneration p) (procFailedToStart p) (procGuardIdentity p)).

Definition stopProfile (before : option StopArgs) (s : Sup) : Sup :=
  match before with Some a => emit (ProfileStopped a) s | None => s end.

(** One posted task. *)
Definition runTask (guard : bool) (t : Task) (s : Sup) : Sup :=
  match t with
  | TaskStart => processStart guard s (mkProcess false 0 false false)
  | TaskRestart before =>
      match supProc s with
      | Some p => if prepareExit s then s else processRestart guard (stopProfile before s) p
      | None => s
      end
  | TaskReset =>
      match supProc s with
      | Some p =>
          let s := emit (ProfileStopped (mkStop true true true)) s in
          let s := withStartedId NoProfileId s in
          emit CoreKilled (withExpectedExitGen (procGeneration p) s)
      | None => s
      end
  | TaskExpectedKill =>
      match supProc s with
      | Some p => emit CoreKilled (withExpectedExitGen (procGeneration p) s)
      | None => s
      end
  | TaskKillGeneration gen =>
      match supProc s with
      | Some p => if procGeneration p =? gen then emit CoreKilled s else s
      | None => s
      end
  | TaskKill _ | TaskKillGroup =>
      match supProc s with Some _ => emit CoreKilled s | None => s end
  end.

(** QProcess reported NotRunning on DS_cores: [reachedRunning] is whether this
    process ran, [restarting] whether Restart() is under way.  The settings and
    the profile are cleaned up; the result is whether an exit report is posted. *)
Definition onProcessStopped (failedToStart reachedRunning restarting : bool) (s : Sup) : Sup * bool :=
  let s := withCoreRunning false s in
  if prepareExit s || restarting then (s, false)
  else
    let s := if negb failedToStart then emit (ProfileStopped (mkStop true true false)) s else s in
    (s, failedToStart || reachedRunning).

(** ** Starting, stopping and restarting (main thread) *)

Definition listen (listening : bool) (error : qstr) (s : Sup) : Sup :=
  if listening then s
  else
    let s := withLastFailure
      (tr (u "Throned could not open the local channel the core connects to (" ++ error ++
           u "), so no profile can start.")) s in
    emit ListenFailedSignal (setState ListenFailed s).

(** [haveServer]: listen() ran. *)
Definition start (haveServer : bool) (startWhenUpProfileId : Z) (s : Sup) : Sup :=
  if negb (bool_decide (supState s = NotStarted)) || negb haveServer then s
  else
    let s := if 0 <=? startWhenUpProfileId then withStartWhenUp startWhenUpProfileId s else s in
    post TaskStart (setState Starting s).

Definition stopTimers (s : Sup) : Sup := withConnectTimer None (withRestartTimer None s).

Definition shutdown (killWaitMs : Z) (s : Sup) : Sup :=
  post (TaskKill killWaitMs) (stopTimers (withProbing false (setState ShuttingDown s))).

Definition killForExit (s : Sup) : Sup :=
  post TaskKillGroup (stopTimers (withProbing false (setState ShuttingDown s))).

Definition beginRestart (s : Sup) : Sup :=
  let s := stopTimers (withProbing false s) in
  let s := withStartFailures 0 (withFailures 0 s) in
  setState Starting (withLastCoreError [] (withLastFailure [] s)).

Definition postProcessRestart (before : option StopArgs) (s : Sup) : Sup :=
  let s := withHandledExitGen (Z.max (handledExitGen s) (currentGeneration s)) s in
  post (TaskRestart before) (withRestartCount (restartCount s + 1) s).

Definition resetCore (s : Sup) : Sup * bool :=
  if negb (canStartCore s) || exiting s then (s, false)
  else
    let was := supState s in
    let s := beginRestart s in
    if bool_decide (was = Backoff) || bool_decide (was = GaveUp) then
      (postProcessRestart (Some (mkStop true true true))
         (withStartedId NoProfileId (withStartWhenUp (-1) s)), true)
    else (post TaskReset s, true).

Definition restartNotListening (profileId : Z) (s : Sup) : Sup * bool :=
  if negb (canStartCore s) || exiting s then (s, false)
  else (postProcessRestart None (withStartWhenUp profileId (beginRestart s)), true).

Definition restartForGuard (s : Sup) : Sup :=
  if negb (canStartCore s) || exiting s then s
  else postProcessRestart (Some (mkStop true true false)) (beginRestart s).

Definition restartDeadCore (startWhenUpProfileId : Z) (s : Sup) : Sup :=
  if negb (bool_decide (supState s = Backoff) || bool_decide (supState s = GaveUp)) || exiting s then s
  else postProcessRestart None (withStartWhenUp startWhenUpProfileId (beginRestart s)).

(** Any thread; [Backoff] and [GaveUp] queue [restartDeadCore] to the main
    thread, which is an event of its own: the result says whether they do. *)
Definition killForPrivilegeChange (s : Sup) : Sup * bool :=
  match supState s with
  | ListenFailed | ShuttingDown => (s, false)
  | Backoff | GaveUp => (s, true)
  | _ => (post TaskExpectedKill s, false)
  end.

Definition setStartWhenUp (profileId : Z) (s : Sup) : Sup * bool :=
  match supProc s with
  | Some _ => (withStartWhenUp profileId s, true)
  | None => (s, false)
  end.

Definition cancelResume (s : Sup) : Sup :=
  emit ResumeCancelled (withStartedId NoProfileId (withStartWhenUp (-1) s)).

(** ** Connections *)

Definition emitCoreStarted (s : Sup) : Sup :=
  let profile := startWhenUp s in
  emit (CoreStarted profile) (withStartWhenUp (-1) (withStartFailures 0 s)).

(** A connection accepted at [now]; [verified] is verifyCorePid's answer. *)
Definition onNewConnection (now : Z) (verified : bool) (s : Sup) : Sup :=
  let gen := currentGeneration s in
  if negb verified then emit SocketRejected s
  else if (gen <=? handledExitGen s) || (gen <=? timedOutGen s) then emit SocketRejected s
  else
    let s := withCoreRunning true (emit RpcConnected s) in
    if exiting s then s
    else
      let s := if acceptedGen s <? gen
               then withConnectedAt (Some now) (withAcceptedGen gen s) else s in
      let s := setState Connected (withConnectTimer None s) in
      if isWindows then emitCoreStarted s
      else emit (ProbeStarted (acceptedGen s) 0) (withProbing true s).

(** The probe's answer; [channel] is whether the RPC client is still connected. *)
Definition onPrivilegeProbed (gen : Z) (ok privileged channel : bool) (attempt : Z) (s : Sup) : Sup :=
  if ((attempt =? 0) && negb (probing s)) || negb (gen =? acceptedGen s)
     || negb (bool_decide (supState s = Connected)) || exiting s then s
  else if negb ok && negb channel then s
  else
    let s := if ok then emit (KnownAdmin privileged) s else s in
    let s := if negb ok && (attempt <? kPrivilegeProbeRetries)
             then emit (ProbeRetryArmed gen attempt) s else s in
    if 0 <? attempt then s
    else emitCoreStarted (withProbing false s).

(** The retry timer armed by a probe that got no answer. *)
Definition onProbeRetry (gen attempt : Z) (s : Sup) : Sup :=
  if (gen =? acceptedGen s) && bool_decide (supState s = Connected) && negb (exiting s)
  then emit (ProbeStarted gen (attempt + 1)) s else s.

Definition onCoreSpawned (gen : Z) (s : Sup) : Sup :=
  if negb (bool_decide (supState s = Starting)) || (gen <=? acceptedGen s) || exiting s then s
  else withConnectTimer (Some kConnectTimeoutMs) (withConnectGen gen s).

Definition onConnectTimeout (s : Sup) : Sup :=
  if negb (bool_decide (supState s = Starting)) || exiting s then s
  else
    let gen := connectGen s in
    if (gen <=? acceptedGen s) || negb (gen =? currentGeneration s) then s
    else post (TaskKillGeneration gen) (withTimedOutGen gen s).

(** ** Exits *)

Definition noteCoreError (gen : Z) (line : qstr) (s : Sup) : Sup :=
  if (gen <=? handledExitGen s) || (gen <? lastCoreErrorGen s) || (expectedExitGen s =? gen) then s
  else
    withLastCoreError
      (if (gen =? timedOutGen s) && negb (coreSupervisorIsPanicLine line)
       then u "did not connect within " ++ number (kConnectTimeoutMs / 1000) ++ u " s" else line)
      (withLastCoreErrorGen gen s).

Definition scheduleRestart (delayMs : Z) (s : Sup) : Sup :=
  withRestartTimer (Some delayMs) (setState Backoff s).

Definition backoffDelay (failures : Z) : Z :=
  Z.min (Z.shiftl kBackoffFirstMs (Z.min (failures - 1) 6)) kBackoffCapMs.

(** The profile-crash timer at the exit of a connected core at [now]: the timer
    after it, and whether the last such exit was less than the window ago. *)
Definition crashTimer (now : Z) (timer : option Z) : option Z * bool :=
  match timer with
  | None => (Some now, false)
  | Some t => if now - t <? kProfileCrashWindowMs then (None, true) else (Some now, false)
  end.

Definition giveUp (gen : Z) (wasConnected : bool) (s : Sup) : Sup :=
  let s := withStartedId NoProfileId (withStartWhenUp (-1) s) in
  let reason :=
    if isGuiApp then
      tr (u "The core keeps exiting, so it is no longer restarted. Use Restart Core to try again.")
    else
      (if negb wasConnected && (kGiveUpAfter <=? startFailures s)
       then u "the core exited " ++ number (startFailures s) ++ u " times without connecting"
       else u "the core kept exiting")
      ++ (if (lastCoreErrorGen s =? gen) && negb (isNil (lastCoreError s))
          then u "; last error: " ++ lastCoreError s else []) in
  emit (CoreGaveUpSignal reason) (setState GaveUp (withLastFailure reason s)).

(** An exit that was asked for. *)
Definition expectedExit (wasProbing : bool) (s : Sup) : Sup :=
  let s := withStartFailures 0 (withFailures 0 s) in
  let s := if negb wasProbing || (startWhenUp s <? 0) then withStartWhenUp (startedId s) s else s in
  scheduleRestart kIntentRestartDelayMs s.

(** The core could not adopt the kill switch's group. *)
Definition identityExit (gen : Z) (s : Sup) : Sup :=
  let detail := if (lastCoreErrorGen s =? gen) && negb (isNil (lastCoreError s))
                then lastCoreError s else u "kill switch: cannot adopt the guard group" in
  scheduleRestart kIntentRestartDelayMs
    (emit (IdentityUnsupported detail) (withIdentityUnsupported true s)).

(** The counters, the profile to resume and the restart of an unexpected exit. *)
Definition countExit (now : Z) (wasConnected : bool) (s : Sup) : Sup :=
  let stable := match connectedAt s with Some t => kStableMs <=? now - t | None => false end in
  let s := if wasConnected && stable then withFailures 0 s else s in
  let s := withFailures (failures s + 1) s in
  if wasConnected then s else withStartFailures (startFailures s + 1) s.

Definition chooseResume (now : Z) (wasConnected : bool) (s : Sup) : Sup :=
  let (timer, tooFrequent) :=
    if wasConnected then crashTimer now (profileCrashTimer s) else (profileCrashTimer s, false) in
  let s := withProfileCrashTimer timer s in
  if wasConnected || (startWhenUp s <? 0) then
    if tooFrequent && (0 <=? startedId s)
    then withStartedId NoProfileId (withStartWhenUp (-1) s)
    else withStartWhenUp (startedId s) s
  else s.

Definition givesUp (wasConnected : bool) (s : Sup) : bool :=
  ((kGiveUpAfter <=? failures s) && (startWhenUp s <? 0))
  || (negb wasConnected && (kGiveUpAfter <=? startFailures s)).

Definition unexpectedExit (now gen : Z) (wasConnected : bool) (s : Sup) : Sup :=
  let s := chooseResume now wasConnected (countExit now wasConnected s) in
  let s := emit (CoreExited wasConnected) s in
  if givesUp wasConnected s then giveUp gen wasConnected s
  else scheduleRestart (backoffDelay (failures s)) s.

Definition onCoreExited (now gen : Z) (failedToStart : bool) (exitCode : Z) (s : Sup) : Sup :=
  if gen <=? handledExitGen s then s
  else
    let s := withHandledExitGen gen s in
    let wasProbing := probing s && (gen =? acceptedGen s) in
    let s := if wasProbing then withProbing false s else s in
    if exiting s then s
    else
      let s := withConnectTimer None s in
      if expectedExitGen s =? gen then expectedExit wasProbing s
      else
        let wasConnected := negb failedToStart && (gen =? acceptedGen s) && negb wasProbing in
        if negb wasConnected && (exitCode =? kCoreIdentityExitCode) && negb (identityUnsupported s)
        then identityExit gen s
        else unexpectedExit now gen wasConnected s.

(** The queued report of an exit: its cause line, then the exit. *)
Definition exitReport (now gen : Z) (failedToStart : bool) (exitCode : Z) (cause : qstr) (s : Sup) : Sup :=
  onCoreExited now gen failedToStart exitCode (noteCoreError gen cause s).

Definition postRestart (s : Sup) : Sup :=
  if negb (bool_decide (supState s = Backoff)) || exiting s then s
  else postProcessRestart None (setState Starting s).

(** The single-shot timers fire. *)
Definition fireRestartTimer (s : Sup) : Sup :=
  match supRestartTimer s with
  | Some _ => postRestart (withRestartTimer None s)
  | None => s
  end.

Definition fireConnectTimer (s : Sup) : Sup :=
  match supConnectTimer s with
  | Some _ => onConnectTimeout (withConnectTimer None s)
  | None => s
  end.

(** ** Events *)

(** What can happen after listen(): requests, reports and connections on the
    main thread, the next DS_cores task, and the settings other components
    write. *)
Inductive Event :=
| EvStart (profileId : Z)
| EvShutdown (killWaitMs : Z)
| EvKillForExit
| EvResetCore
| EvRestartNotListening (profileId : Z)
| EvRestartForGuard
| EvRestartDeadCore (profileId : Z)
| EvPrivilegeChange
| EvSetStartWhenUp (profileId : Z)
| EvCancelResume
| EvConnection (now : Z) (verified : bool)
| EvProbed (gen : Z) (ok privileged channel : bool) (attempt : Z)
| EvProbeRetry (gen attempt : Z)
| EvSpawned (gen : Z)
| EvExit (now gen : Z) (failedToStart : bool) (exitCode : Z) (cause : qstr)
| EvProcessStopped (failedToStart reachedRunning restarting : bool)
| EvRestartTimer
| EvConnectTimer
| EvTask (guard : bool)
| EvStartedId (profileId : Z)
| EvPrepareExit.

Definition step (s : Sup) (e : Event) : Sup :=
  match e with
  | EvStart p => start true p s
  | EvShutdown w => shutdown w s
  | EvKillForExit => killForExit s
  | EvResetCore => fst (resetCore s)
  | EvRestartNotListening p => fst (restartNotListening p s)
  | EvRestartForGuard => restartForGuard s
  | EvRestartDeadCore p => restartDeadCore p s
  | EvPrivilegeChange => fst (killForPrivilegeChange s)
  | EvSetStartWhenUp p => fst (setStartWhenUp p s)
  | EvCancelResume => cancelResume s
  | EvConnection now v => onNewConnection now v s
  | EvProbed g ok pr ch a => onPrivilegeProbed g ok pr ch a s
  | EvProbeRetry g a => onProbeRetry g a s
  | EvSpawned g => onCoreSpawned g s
  | EvExit now g f c cause => exitReport now g f c cause s
  | EvProcessStopped f r rs => fst (onProcessStopped f r rs s)
  | EvRestartTimer => fireRestartTimer s
  | EvConnectTimer => fireConnectTimer s
  | EvTask guard =>
      match tasks s with
      | t :: ts => runTask guard t (withTasks ts s)
      | [] => s
      end
  | EvStartedId p => withStartedId p s
  | EvPrepareExit => withPrepareExit true s
  end.

Definition run (s : Sup) (events : list Event) : Sup := fold_left step events s.

End Supervisor.
