(* ===== verification/SupervisorFacts.v ===== *)
(** What the core supervisor promises over every sequence of requests, reports,
    connections and DS_cores tasks: each core's exit is counted once, a failing
    core is restarted with a bounded backoff and given up after five failures, a
    start is handed out once per connection, and after shutdown nothing is
    restarted. *)
From stdpp Require Import base list strings.
From Stdlib Require Import ZArith Lia Bool.
From S2P Require Import Prelude CoreStderr Supervisor.

Create HintDb sup.

Section Facts.
Context {P : Platform}.

(** ** Frames: what the small operations leave alone *)

Definition stateOutputs (st : CoreState) (s : Sup) : list Output :=
  if decide (supState s = st) then outputs s else outputs s ++ [StateChanged st].

(** [setState] as a plain update, so that the record's fields evaluate. *)
Lemma setState_eq st s : setState st s = withOutputs (stateOutputs st s) (withState st s).
Proof. unfold setState, stateOutputs. by destruct (decide _); destruct s. Qed.

Lemma beginRestart_eq s :
  beginRestart s =
  mkSup Starting (supProc s) None None (expectedExitGen s) (startWhenUp s) false 0 0 []
    (lastCoreErrorGen s) (handledExitGen s) (acceptedGen s) (connectGen s) (timedOutGen s)
    (connectedAt s) (profileCrashTimer s) [] (restartCount s) (startedId s) (coreRunning s)
    (prepareExit s) (identityUnsupported s) (tasks s) (stateOutputs Starting s).
Proof. unfold beginRestart. rewrite setState_eq. by destruct s. Qed.

(** Splits on every test of the operations and evaluates the records. *)
Ltac sup_split :=
  repeat (cbn in *; match goal with
  | |- context [if ?b then _ else _] => destruct b eqn:?
  | |- context [match ?e with _ => _ end] =>
      match type of e with
      | option _ => destruct e eqn:?
      | CoreState => destruct e eqn:?
      | list _ => destruct e eqn:?
      | Task => destruct e eqn:?
      end
  end).

(** ** An exit is counted once *)

Lemma noteCoreError_handled g line s : handledExitGen (noteCoreError g line s) = handledExitGen s.
Proof. unfold noteCoreError. by break_if. Qed.

Lemma postProcessRestart_handled b s :
  handledExitGen (postProcessRestart b s) = Z.max (handledExitGen s) (currentGeneration s).
Proof. reflexivity. Qed.

Lemma beginRestart_handled s : handledExitGen (beginRestart s) = handledExitGen s.
Proof. unfold beginRestart. by rewrite setState_eq. Qed.

Lemma scheduleRestart_handled d s : handledExitGen (scheduleRestart d s) = handledExitGen s.
Proof. unfold scheduleRestart. by rewrite setState_eq. Qed.

Lemma giveUp_handled g w s : handledExitGen (giveUp g w s) = handledExitGen s.
Proof. unfold giveUp. by rewrite setState_eq. Qed.

Lemma chooseResume_handled now w s : handledExitGen (chooseResume now w s) = handledExitGen s.
Proof.
  unfold chooseResume. destruct (if w then _ else _) as [t f].
  destruct (_ || _); [|done]. by destruct (f && _).
Qed.

Lemma countExit_handled now w s : handledExitGen (countExit now w s) = handledExitGen s.
Proof. unfold countExit. destruct (w && _); by destruct w. Qed.

Lemma onCoreExited_handled now g f c s :
  handledExitGen (onCoreExited now g f c s) = Z.max (handledExitGen s) g.
Proof.
  unfold onCoreExited. destruct (g <=? handledExitGen s) eqn:E; [lia|]. zbool.
  replace (Z.max (handledExitGen s) g) with g by lia.
  set (s1 := withHandledExitGen g s). change (g =? acceptedGen s1) with (g =? acceptedGen s).
  set (wp := probing s1 && _). set (s2 := if wp then withProbing false s1 else s1).
  assert (H2 : handledExitGen s2 = g) by (unfold s2; by destruct wp). clearbody s2.
  destruct (exiting s2); [done|]. set (s3 := withConnectTimer None s2).
  assert (H3 : handledExitGen s3 = g) by done. clearbody s3.
  destruct (_ =? g).
  - unfold expectedExit. rewrite scheduleRestart_handled. by destruct (_ || _).
  - destruct (_ && _ && _).
    + unfold identityExit. by rewrite scheduleRestart_handled.
    + unfold unexpectedExit. destruct (givesUp _ _).
      * rewrite giveUp_handled. cbn. by rewrite chooseResume_handled, countExit_handled.
      * rewrite scheduleRestart_handled. cbn. by rewrite chooseResume_handled, countExit_handled.
Qed.

Lemma onNewConnection_handled now v s : handledExitGen (onNewConnection now v s) = handledExitGen s.
Proof.
  unfold onNewConnection. destruct (negb v); [done|]. destruct (_ || _); [done|].
  set (s1 := withCoreRunning true _). destruct (exiting s1); [done|].
  set (s2 := if _ <? _ then _ else s1). assert (H2 : handledExitGen s2 = handledExitGen s) by (unfold s2; by break_if).
  rewrite setState_eq. by destruct isWindows.
Qed.

Lemma step_handled_mono s e : handledExitGen s <= handledExitGen (step s e).
Proof.
  destruct e; cbn [step].
  - unfold start. destruct (_ || _); [done|]. rewrite setState_eq. by destruct (0 <=? profileId).
  - unfold shutdown. by rewrite setState_eq.
  - unfold killForExit. by rewrite setState_eq.
  - unfold resetCore. rewrite beginRestart_eq. destruct s. destruct (_ || _); [done|]. destruct (_ || _); cbn; lia.
  - unfold restartNotListening. rewrite beginRestart_eq. destruct s. destruct (_ || _); [done|]. cbn. lia.
  - unfold restartForGuard. rewrite beginRestart_eq. destruct s. destruct (_ || _); [done|]. cbn. lia.
  - unfold restartDeadCore. rewrite beginRestart_eq. destruct s. destruct (_ || _); [done|]. cbn. lia.
  - unfold killForPrivilegeChange. by destruct (supState s).
  - unfold setStartWhenUp. by destruct (supProc s).
  - done.
  - by rewrite onNewConnection_handled.
  - unfold onPrivilegeProbed. destruct (_ || _); [done|]. destruct (_ && _); [done|].
    destruct ok, (attempt <? kPrivilegeProbeRetries), (0 <? attempt); done.
  - unfold onProbeRetry. by destruct (_ && _).
  - unfold onCoreSpawned. by destruct (_ || _).
  - unfold exitReport. rewrite onCoreExited_handled, noteCoreError_handled. lia.
  - unfold onProcessStopped. cbn. destruct (_ || _); [done|]. by destruct failedToStart.
  - unfold fireRestartTimer, postRestart. destruct (supRestartTimer s); [|done].
    destruct (_ || _); [done|]. rewrite setState_eq. cbn. lia.
  - unfold fireConnectTimer, onConnectTimeout. destruct (supConnectTimer s); [|done].
    destruct (_ || _); [done|]. by destruct (_ || _).
  - destruct (tasks s) as [|t ts]; [done|]. unfold runTask, processRestart, processStart, stopProfile.
    destruct t as [| | | | |g|[b|]]; cbn; try destruct (supProc s); cbn; try done;
      try (by destruct (_ =? g)); by destruct (prepareExit s).
  - done.
  - done.
Qed.

Lemma run_handled_mono events s : handledExitGen s <= handledExitGen (run s events).
Proof.
  revert s. induction events as [|e es IH]; intros s; cbn; [done|].
  pose proof (step_handled_mono s e). specialize (IH (step s e)). unfold run in IH. lia.
Qed.

Lemma exitReport_handled now g f c cause s :
  g <= handledExitGen s -> exitReport now g f c cause s = s.
Proof.
  intros H. unfold exitReport, noteCoreError.
  destruct (g <=? handledExitGen s) eqn:E; [|zbool; lia]. cbn [orb].
  unfold onCoreExited. by rewrite E.
Qed.

(** Each core's exit is handled once: after a report of generation [g], or
    after a restart was posted while [g] was the current generation, a report of
    [g] or of an older one changes nothing, whatever happened in between. *)
Theorem exit_report_once now g f c cause before s events now' g' f' c' cause' :
  g' <= g ->
  let after1 := run (exitReport now g f c cause s) events in
  let after2 := run (postProcessRestart before s) events in
  exitReport now' g' f' c' cause' after1 = after1 /\
  (g = currentGeneration s -> exitReport now' g' f' c' cause' after2 = after2).
Proof.
  intros Hg. cbv zeta. split.
  - apply exitReport_handled. pose proof (run_handled_mono events (exitReport now g f c cause s)) as H.
    unfold exitReport in H at 1. rewrite onCoreExited_handled in H. lia.
  - intros Hc. apply exitReport_handled.
    pose proof (run_handled_mono events (postProcessRestart before s)) as H.
    rewrite postProcessRestart_handled in H. lia.
Qed.

(** ** After shutdown *)

Definition isRestartTask (t : Task) : bool := match t with TaskRestart _ => true | _ => false end.
Definition restartTasks (l : list Task) : nat := length (List.filter isRestartTask l).

(** Outputs that neither announce a state, a core or an exit nor start anything. *)
Definition quiet (o : Output) : bool :=
  match o with
  | StateChanged _ | CoreStarted _ | CoreGaveUpSignal _ | ListenFailedSignal | CoreExited _
  | ProbeStarted _ _ | ProbeRetryArmed _ _ | IdentityUnsupported _ => false
  | _ => true
  end.

Record halted (s : Sup) : Prop := {
  haltedState : supState s = ShuttingDown;
  haltedRestart : supRestartTimer s = None;
  haltedConnect : supConnectTimer s = None;
  haltedProbing : probing s = false
}.

(** [s'] follows [s] with nothing restarted, armed or announced. *)
Record stillHalted (s s' : Sup) : Prop := {
  stillIs : halted s';
  stillCount : restartCount s' = restartCount s;
  stillTasks : (restartTasks (tasks s') <= restartTasks (tasks s))%nat;
  stillQuiet : exists new, outputs s' = outputs s ++ new /\ forallb quiet new = true
}.

Lemma stillHalted_trans s1 s2 s3 : stillHalted s1 s2 -> stillHalted s2 s3 -> stillHalted s1 s3.
Proof.
  intros [_ A2 A3 (n1 & A4 & A5)] [B1 B2 B3 (n2 & B4 & B5)]. split; [done|congruence|lia|].
  exists (n1 ++ n2). rewrite B4, A4, app_assoc, forallb_app, A5, B5. done.
Qed.

Lemma exiting_halted s : halted s -> exiting s = true.
Proof. intros []. unfold exiting. by rewrite bool_decide_true. Qed.

Lemma restartTasks_app l l' : restartTasks (l ++ l') = (restartTasks l + restartTasks l')%nat.
Proof. unfold restartTasks. by rewrite List.filter_app, length_app. Qed.

Lemma stillHalted_refl s : halted s -> stillHalted s s.
Proof. intros H. split; try done. exists []. by rewrite app_nil_r. Qed.

(** Updates that keep a halted supervisor halted. *)
Lemma stillHalted_intro s s' new newTasks :
  halted s -> supState s' = supState s -> supRestartTimer s' = None -> supConnectTimer s' = None ->
  probing s' = false -> restartCount s' = restartCount s -> tasks s' = tasks s ++ newTasks ->
  restartTasks newTasks = 0%nat ->
  outputs s' = outputs s ++ new -> forallb quiet new = true -> stillHalted s s'.
Proof.
  intros [H1 H2 H3 H4] E1 E2 E3 E4 E5 E6 E7 E8 E9. split; [split; congruence|done| |eauto].
  rewrite E6, restartTasks_app, E7. lia.
Qed.

Ltac still new newTasks :=
  apply (stillHalted_intro _ _ new newTasks);
  solve [assumption | done | cbn; rewrite ?app_nil_r, <- ?app_assoc; done
        | match goal with H : halted _ |- _ => destruct H; assumption end].

Lemma setState_halted s : halted s -> setState ShuttingDown s = s.
Proof.
  intros []. rewrite setState_eq. unfold stateOutputs. rewrite decide_True by done. destruct s. cbn in *. by subst.
Qed.

Lemma runTask_halted guard t s :
  halted s -> exists new, stillHalted s (runTask guard t s) /\
    outputs (runTask guard t s) = outputs s ++ new /\ tasks (runTask guard t s) = tasks s.
Proof.
  intros H.
  assert (Hstart : forall s' p new, halted s' -> stillHalted s s' -> outputs s' = outputs s ++ new ->
            tasks s' = tasks s -> exists new, stillHalted s (processStart guard s' p) /\
              outputs (processStart guard s' p) = outputs s ++ new /\
              tasks (processStart guard s' p) = tasks s).
  { intros s' p new Hs' Hst Ho Ht. unfold processStart. destruct (procStarted p).
    - exists new. split_and!; [|done|done]. eapply stillHalted_trans; [exact Hst|]. still (@nil Output) (@nil Task).
    - exists (new ++ [CoreSpawned (procGeneration p + 1)]). cbn. rewrite Ho, Ht, app_assoc. split_and!; try done.
      eapply stillHalted_trans; [exact Hst|]. still [CoreSpawned (procGeneration p + 1)] (@nil Task). }
  destruct t as [|w| | | |g|before]; cbn [runTask].
  - apply (Hstart s _ []); try done; [by apply stillHalted_refl|by rewrite app_nil_r].
  - destruct (supProc s); [exists [CoreKilled]|exists []]; rewrite ?app_nil_r; split_and!; try done;
      [still [CoreKilled] (@nil Task)|by apply stillHalted_refl].
  - destruct (supProc s); [exists [CoreKilled]|exists []]; rewrite ?app_nil_r; split_and!; try done;
      [still [CoreKilled] (@nil Task)|by apply stillHalted_refl].
  - destruct (supProc s); [exists [ProfileStopped (mkStop true true true); CoreKilled]|exists []];
      cbn; rewrite ?app_nil_r, <- ?app_assoc; split_and!; try done;
      [still [ProfileStopped (mkStop true true true); CoreKilled] (@nil Task)|by apply stillHalted_refl].
  - destruct (supProc s); [exists [CoreKilled]|exists []]; rewrite ?app_nil_r; split_and!; try done;
      [still [CoreKilled] (@nil Task)|by apply stillHalted_refl].
  - destruct (supProc s) as [p|]; [|exists []; rewrite app_nil_r; split_and!; try done; by apply stillHalted_refl].
    destruct (procGeneration p =? g); [exists [CoreKilled]|exists []]; rewrite ?app_nil_r; split_and!; try done;
      [still [CoreKilled] (@nil Task)|by apply stillHalted_refl].
  - destruct (supProc s) as [p|]; [|exists []; rewrite app_nil_r; split_and!; try done; by apply stillHalted_refl].
    destruct (prepareExit s); [exists []; rewrite app_nil_r; split_and!; try done; by apply stillHalted_refl|].
    unfold processRestart, stopProfile. destruct before as [a|].
    + apply (Hstart _ _ [ProfileStopped a; CoreKilled]); cbn; rewrite <- ?app_assoc; try done.
      * by destruct H.
      * still [ProfileStopped a; CoreKilled] (@nil Task).
    + apply (Hstart _ _ [CoreKilled]); cbn; try done.
      * by destruct H.
      * still [CoreKilled] (@nil Task).
Qed.

Lemma step_halted s e : halted s -> stillHalted s (step s e).
Proof.
  intros H. pose proof (exiting_halted s H) as Hex. pose proof H as [H1 H2 H3 H4].
  assert (Hcan : canStartCore s = false).
  { unfold canStartCore. rewrite H1. reflexivity. }
  assert (Hr : stillHalted s s) by by apply stillHalted_refl.
  destruct e; cbn [step].
  - unfold start. rewrite H1. done.
  - unfold shutdown. rewrite setState_halted by done. still (@nil Output) [TaskKill killWaitMs].
  - unfold killForExit. rewrite setState_halted by done. still (@nil Output) [TaskKillGroup].
  - unfold resetCore. by rewrite Hcan.
  - unfold restartNotListening. by rewrite Hcan.
  - unfold restartForGuard. by rewrite Hcan.
  - unfold restartDeadCore. rewrite Hex, orb_true_r. done.
  - unfold killForPrivilegeChange. by rewrite H1.
  - unfold setStartWhenUp. destruct (supProc s); [|done]. still (@nil Output) (@nil Task).
  - still [ResumeCancelled] (@nil Task).
  - unfold onNewConnection. destruct (negb verified); [still [SocketRejected] (@nil Task)|].
    destruct (_ || _); [still [SocketRejected] (@nil Task)|].
    change (exiting (withCoreRunning true (emit RpcConnected s))) with (exiting s). rewrite Hex.
    still [RpcConnected] (@nil Task).
  - unfold onPrivilegeProbed. by rewrite Hex, orb_true_r.
  - unfold onProbeRetry. by rewrite Hex, andb_false_r.
  - unfold onCoreSpawned. by rewrite Hex, orb_true_r.
  - unfold exitReport, noteCoreError.
    set (s1 := if (gen <=? handledExitGen s) || _ || _ then s else _).
    assert (Hs1 : stillHalted s s1 /\ halted s1).
    { unfold s1. destruct (_ || _ || _); [done|].
      assert (Hst : stillHalted s (withLastCoreError
        (if (gen =? timedOutGen s) && negb (coreSupervisorIsPanicLine cause)
         then u "did not connect within " ++ number (kConnectTimeoutMs / 1000) ++ u " s" else cause)
        (withLastCoreErrorGen gen s))) by still (@nil Output) (@nil Task).
      split; [exact Hst|apply Hst]. }
    clearbody s1. destruct Hs1 as [Hst Hh]. eapply stillHalted_trans; [exact Hst|].
    pose proof Hh as [_ _ _ G4].
    unfold onCoreExited. destruct (gen <=? handledExitGen s1); [by apply stillHalted_refl|].
    change (probing (withHandledExitGen gen s1)) with (probing s1). rewrite G4. cbn [andb].
    change (exiting (withHandledExitGen gen s1)) with (exiting s1). rewrite (exiting_halted _ Hh).
    still (@nil Output) (@nil Task).
  - unfold onProcessStopped. change (prepareExit (withCoreRunning false s)) with (prepareExit s).
    destruct (_ || _); [still (@nil Output) (@nil Task)|]. cbn [fst].
    destruct (negb failedToStart); [still [ProfileStopped (mkStop true true false)] (@nil Task)|
      still (@nil Output) (@nil Task)].
  - unfold fireRestartTimer. by rewrite H2.
  - unfold fireConnectTimer. by rewrite H3.
  - destruct (tasks s) as [|t ts] eqn:Et; [done|].
    assert (Hh : halted (withTasks ts s)) by done.
    destruct (runTask_halted guard t (withTasks ts s) Hh) as (new & [K1 K2 K3 K4] & Ho & Ht).
    split; [done|done| |done]. rewrite Ht, Et. cbn. unfold restartTasks. cbn. destruct (isRestartTask t); cbn; lia.
  - still (@nil Output) (@nil Task).
  - still (@nil Output) (@nil Task).
Qed.

(** Shutdown is final: from [shutdown] or [killForExit] on, whatever is
    requested or reported, the state stays ShuttingDown, no timer is armed, no
    restart is counted or posted, and no core, exit or state is announced. *)
Theorem shutdown_is_final s events w :
  stillHalted (shutdown w s) (run (shutdown w s) events) /\
  stillHalted (killForExit s) (run (killForExit s) events).
Proof.
  assert (Hrun : forall es s, halted s -> stillHalted s (run s es)).
  { induction es as [|e es IH]; intros s0 H0; cbn; [by apply stillHalted_refl|].
    pose proof (step_halted s0 e H0) as H1. eapply stillHalted_trans; [exact H1|]. apply IH, H1. }
  split; apply Hrun; [unfold shutdown|unfold killForExit]; rewrite setState_eq; by split.
Qed.

(** ** What an unexpected exit leads to *)

Lemma backoffDelay_spec n :
  1 <= n -> backoffDelay n = Z.min (500 * 2 ^ Z.min (n - 1) 6) 30000 /\ 500 <= backoffDelay n <= 30000.
Proof.
  intros Hn. assert (E : backoffDelay n = Z.min (500 * 2 ^ Z.min (n - 1) 6) 30000).
  { unfold backoffDelay, kBackoffFirstMs, kBackoffCapMs. rewrite Z.shiftl_mul_pow2 by lia. done. }
  split; [done|]. rewrite E. pose proof (Z.pow_pos_nonneg 2 (Z.min (n - 1) 6)). lia.
Qed.

Lemma noteCoreError_eq g line s :
  noteCoreError g line s =
  withLastCoreError (lastCoreError (noteCoreError g line s))
    (withLastCoreErrorGen (lastCoreErrorGen (noteCoreError g line s)) s).
Proof. unfold noteCoreError. destruct (_ || _); by destruct s. Qed.

(** The state before the outcome of the exit of [gen] is decided. *)
Definition unexpected (gen : Z) (s : Sup) : Prop :=
  handledExitGen s < gen /\ exiting s = false /\ expectedExitGen s <> gen.

(** Whether the core of [gen] had sent coreStarted. *)
Definition connectedCore (gen : Z) (failedToStart : bool) (s : Sup) : bool :=
  negb failedToStart && (gen =? acceptedGen s) && negb (probing s && (gen =? acceptedGen s)).

(** The supervisor once the exit is marked handled. *)
Definition settled (gen : Z) (cause : qstr) (s : Sup) : Sup :=
  let s1 := withHandledExitGen gen (noteCoreError gen cause s) in
  withConnectTimer None (if probing s && (gen =? acceptedGen s) then withProbing false s1 else s1).

Lemma exitReport_form now gen f code cause s :
  handledExitGen s < gen -> exiting s = false ->
  exitReport now gen f code cause s =
    let w := connectedCore gen f s in
    let t := settled gen cause s in
    if expectedExitGen s =? gen then expectedExit (probing s && (gen =? acceptedGen s)) t
    else if negb w && (code =? kCoreIdentityExitCode) && negb (identityUnsupported s)
    then identityExit gen t
    else unexpectedExit now gen w t.
Proof.
  intros Hh Hex. cbv zeta. unfold exitReport, settled, connectedCore.
  rewrite (noteCoreError_eq gen cause s). set (e1 := lastCoreError _). set (e2 := lastCoreErrorGen _).
  clearbody e1 e2. unfold onCoreExited.
  change (handledExitGen (withLastCoreError e1 _)) with (handledExitGen s).
  destruct (gen <=? _) eqn:E; [zbool; lia|]. clear E.
  set (s1 := withHandledExitGen gen (withLastCoreError e1 (withLastCoreErrorGen e2 s))).
  change (probing s1) with (probing s). change (acceptedGen s1) with (acceptedGen s).
  set (wp := probing s && _). set (s2 := if wp then withProbing false s1 else s1).
  assert (Hs2 : exiting s2 = false /\ expectedExitGen s2 = expectedExitGen s /\
    acceptedGen s2 = acceptedGen s /\ identityUnsupported s2 = identityUnsupported s).
  { unfold s2. by destruct wp. }
  destruct Hs2 as (K1 & K2 & K3 & K4). rewrite K1.
  change (expectedExitGen (withConnectTimer None s2)) with (expectedExitGen s2).
  change (acceptedGen (withConnectTimer None s2)) with (acceptedGen s2).
  change (identityUnsupported (withConnectTimer None s2)) with (identityUnsupported s2).
  by rewrite K2, K3, K4.
Qed.

(** C38: An unexpected exit either gives the core up (nothing to resume, the
    failure told) after at least five failures, or arms one restart, after a delay
    between 200 and 30000 ms, whose firing moves to Starting and posts exactly one
    restart of the process. *)
Theorem exit_restarts_or_gives_up now gen f code cause s :
  unexpected gen s -> 0 <= failures s ->
  let s' := exitReport now gen f code cause s in
  let s2 := fireRestartTimer s' in
  (supState s' = GaveUp /\ startWhenUp s' = -1 /\ startedId s' = NoProfileId /\
   5 <= Z.max (failures s') (startFailures s') /\ tasks s' = tasks s /\
   last (outputs s') = Some (CoreGaveUpSignal (lastFailure s'))) \/
  (supState s' = Backoff /\ (exists d, supRestartTimer s' = Some d /\ 200 <= d <= 30000) /\
   supState s2 = Starting /\ tasks s2 = tasks s ++ [TaskRestart None] /\
   restartCount s2 = restartCount s + 1).
Proof.
  intros Hu Hf. cbv zeta.
  assert (Hfire : forall d s0, supRestartTimer s0 = Some d -> supState s0 = Backoff -> exiting s0 = false ->
    supState (fireRestartTimer s0) = Starting /\ tasks (fireRestartTimer s0) = tasks s0 ++ [TaskRestart None] /\
    restartCount (fireRestartTimer s0) = restartCount s0 + 1).
  { intros d s0 H1 H2 H3. unfold fireRestartTimer, postRestart. rewrite H1.
    change (supState (withRestartTimer None s0)) with (supState s0). rewrite H2, bool_decide_true by done.
    change (exiting (withRestartTimer None s0)) with (exiting s0). rewrite H3. cbn [negb orb].
    rewrite setState_eq. by destruct s0. }
  assert (Hsched : forall d s0, 200 <= d <= 30000 -> prepareExit s0 = false -> tasks s0 = tasks s ->
    restartCount s0 = restartCount s -> let s' := scheduleRestart d s0 in
    supState s' = Backoff /\ (exists d, supRestartTimer s' = Some d /\ 200 <= d <= 30000) /\
    supState (fireRestartTimer s') = Starting /\
    tasks (fireRestartTimer s') = tasks s ++ [TaskRestart None] /\
    restartCount (fireRestartTimer s') = restartCount s + 1).
  { intros d s0 Hd Hp Ht Hr. cbv zeta. unfold scheduleRestart. rewrite setState_eq.
    split; [done|]. split; [by exists d|].
    destruct (Hfire d (withRestartTimer (Some d) (withOutputs (stateOutputs Backoff s0) (withState Backoff s0))))
      as (H1 & H2 & H3); try done.
    cbn in *. rewrite H1, H2, H3, Ht, Hr. done. }
  destruct Hu as (Hh & Hex & Hexp).
  assert (Hp : prepareExit s = false).
  { unfold exiting in Hex. apply orb_false_iff in Hex. tauto. }
  rewrite exitReport_form by done. cbv zeta. destruct (_ =? gen) eqn:E; [zbool; lia|]. clear E.
  set (w := connectedCore gen f s). destruct (negb w && _ && _); [right|]; clearbody w.
  { unfold identityExit. apply Hsched; [by unfold kIntentRestartDelayMs| | |]; unfold settled;
      rewrite (noteCoreError_eq gen cause s); by destruct (probing s && _). }
  - unfold unexpectedExit.
    set (s1 := emit (CoreExited w) (chooseResume now w (countExit now w (settled gen cause s)))).
    assert (H1 : prepareExit s1 = false /\ tasks s1 = tasks s /\ restartCount s1 = restartCount s /\ 1 <= failures s1).
    { unfold s1, chooseResume. destruct (if w then _ else _) as [tm fq]. unfold countExit, settled.
      rewrite (noteCoreError_eq gen cause s). destruct s. cbn in *.
      destruct w; cbn; repeat (break_if; cbn); split_and!; try done; lia. }
    destruct H1 as (K1 & K2 & K3 & K4). clearbody s1. destruct (givesUp w s1) eqn:Eg.
    + left. unfold giveUp. rewrite setState_eq. cbn.
      split_and!; try done; [|by rewrite last_snoc].
      unfold givesUp, kGiveUpAfter in Eg. apply orb_true_iff in Eg as [Eg|Eg];
        apply andb_true_iff in Eg as [Ea Eb]; [apply Z.leb_le in Ea|apply Z.leb_le in Eb];
        lia.
    + right. apply Hsched; try done. destruct (backoffDelay_spec (failures s1)); lia.
Qed.

Lemma settled_fields gen cause s :
  let t := settled gen cause s in
  supState t = supState s /\ supProc t = supProc s /\ startWhenUp t = startWhenUp s /\
  startedId t = startedId s /\ failures t = failures s /\ startFailures t = startFailures s /\
  profileCrashTimer t = profileCrashTimer s /\ connectedAt t = connectedAt s /\
  tasks t = tasks s /\ restartCount t = restartCount s /\ handledExitGen t = gen /\
  acceptedGen t = acceptedGen s /\ expectedExitGen t = expectedExitGen s /\
  prepareExit t = prepareExit s /\ identityUnsupported t = identityUnsupported s /\
  outputs t = outputs s /\ supRestartTimer t = supRestartTimer s /\
  (probing t = true -> probing s = true) /\ (probing s = false -> probing t = false).
Proof.
  cbv zeta. unfold settled. rewrite (noteCoreError_eq gen cause s).
  destruct (probing s) eqn:Ep, (gen =? acceptedGen s); cbn; rewrite ?Ep; split_and!; done.
Qed.

Lemma countExit_fields now w s :
  let t := countExit now w s in
  startWhenUp t = startWhenUp s /\ startedId t = startedId s /\
  profileCrashTimer t = profileCrashTimer s /\ prepareExit t = prepareExit s /\
  startFailures t = startFailures s + (if w then 0 else 1) /\
  failures t = (if w && match connectedAt s with Some c => kStableMs <=? now - c | None => false end
                then 1 else failures s + 1).
Proof.
  cbv zeta. unfold countExit.
  set (b := match connectedAt s with Some c => kStableMs <=? now - c | None => false end). clearbody b.
  destruct w, b; cbn; split_and!; try done; lia.
Qed.

(** When a core that had sent coreStarted exits unexpectedly, the started
    profile is resumed on the next core (and the core is not given up) unless the
    previous such exit was less than ten seconds ago: then the profile is dropped
    for good, from the settings too. *)
Theorem connected_exit_resume now gen f code cause s :
  unexpected gen s -> connectedCore gen f s = true -> 0 <= startedId s ->
  let s' := exitReport now gen f code cause s in
  match profileCrashTimer s with
  | Some t =>
      if now - t <? kProfileCrashWindowMs
      then startWhenUp s' = -1 /\ startedId s' = NoProfileId /\ profileCrashTimer s' = None
      else supState s' = Backoff /\ startWhenUp s' = startedId s /\ startedId s' = startedId s /\
           profileCrashTimer s' = Some now
  | None => supState s' = Backoff /\ startWhenUp s' = startedId s /\ startedId s' = startedId s /\
            profileCrashTimer s' = Some now
  end.
Proof.
  intros (Hh & Hex & Hexp) Hw Hs. cbv zeta. rewrite exitReport_form by done. cbv zeta. rewrite Hw. cbn [negb andb].
  destruct (_ =? gen) eqn:E; [zbool; lia|]. clear E.
  destruct (settled_fields gen cause s) as (_ & _ & F1 & F2 & _ & _ & F3 & _).
  set (t0 := settled gen cause s) in *. clearbody t0.
  unfold unexpectedExit, chooseResume.
  destruct (countExit_fields now true t0) as (G1 & G2 & G3 & _). set (t1 := countExit now true t0) in *. clearbody t1.
  cbn [orb]. rewrite G3, F3. unfold crashTimer.
  assert (Hok : forall tm, let s1 := withStartWhenUp (startedId t1) (withProfileCrashTimer tm t1) in
    let r := if givesUp true (emit (CoreExited true) s1) then giveUp gen true (emit (CoreExited true) s1)
             else scheduleRestart (backoffDelay (failures (emit (CoreExited true) s1))) (emit (CoreExited true) s1) in
    supState r = Backoff /\ startWhenUp r = startedId s /\ startedId r = startedId s /\ profileCrashTimer r = tm).
  { intros tm. cbv zeta. unfold givesUp. cbn [negb andb].
    change (startWhenUp (emit _ (withStartWhenUp ?v _))) with v.
    rewrite G2, F2. destruct (startedId s <? 0) eqn:E; [zbool; lia|]. rewrite andb_false_r. cbn [orb].
    unfold scheduleRestart. rewrite setState_eq. destruct t1. cbn in *. by subst. }
  assert (Hdrop : let s1 := withStartedId NoProfileId (withStartWhenUp (-1) (withProfileCrashTimer None t1)) in
    let r := if givesUp true (emit (CoreExited true) s1) then giveUp gen true (emit (CoreExited true) s1)
             else scheduleRestart (backoffDelay (failures (emit (CoreExited true) s1))) (emit (CoreExited true) s1) in
    startWhenUp r = -1 /\ startedId r = NoProfileId /\ profileCrashTimer r = None).
  { cbv zeta. destruct (givesUp _ _); unfold giveUp, scheduleRestart; rewrite setState_eq; by destruct t1. }
  destruct (profileCrashTimer s) as [t|]; [|apply Hok].
  destruct (now - t <? kProfileCrashWindowMs); [|apply Hok]. cbn [andb].
  change (startedId (withProfileCrashTimer None t1)) with (startedId t1). rewrite G2, F2.
  destruct (0 <=? startedId s) eqn:E; [|zbool; lia]. apply Hdrop.
Qed.

(** ** Cores that never connect *)

(** A failing core: its exit, the backoff timer and the posted restart. *)
Record Failure := mkFailure { flNow : Z; flFailedToStart : bool; flCode : Z; flCause : qstr; flGuard : bool }.

Definition failureEvents (gen : Z) (x : Failure) : list Event :=
  [EvExit (flNow x) gen (flFailedToStart x) (flCode x) (flCause x); EvRestartTimer; EvTask (flGuard x)].

Fixpoint failureCycles (gen : Z) (l : list Failure) : list Event :=
  match l with
  | [] => []
  | x :: l' => failureEvents gen x ++ failureCycles (gen + 1) l'
  end.

(** The supervisor waiting for generation [n + 1] after [n] failed ones. *)
Record failing (n : Z) (s : Sup) : Prop := {
  failingState : supState s = Starting;
  failingGen : currentGeneration s = n + 1;
  failingProc : supProc s <> None;
  failingHandled : handledExitGen s = n;
  failingAccepted : acceptedGen s = 0;
  failingExpected : expectedExitGen s = 0;
  failingFailures : failures s = n;
  failingStart : startFailures s = n;
  failingProbing : probing s = false;
  failingExit : prepareExit s = false;
  failingTasks : tasks s = [];
  failingCount : restartCount s = n;
  failingTimer : supRestartTimer s = None
}.

Lemma failing_unexpected n s : failing n s -> 0 <= n -> unexpected (n + 1) s.
Proof.
  intros [] Hn. split; [lia|]. split; [|lia]. unfold exiting. rewrite failingExit0, bool_decide_false; [done|].
  rewrite failingState0. done.
Qed.

(** The exit of generation [n + 1], as the fields evaluate. *)
Lemma failing_exit n s x :
  failing n s -> 0 <= n -> flCode x <> kCoreIdentityExitCode ->
  exists t, exitReport (flNow x) (n + 1) (flFailedToStart x) (flCode x) (flCause x) s
    = (if givesUp false (emit (CoreExited false) t) then giveUp (n + 1) false (emit (CoreExited false) t)
       else scheduleRestart (backoffDelay (n + 1)) (emit (CoreExited false) t)) /\
    supProc t = supProc s /\ handledExitGen t = n + 1 /\ acceptedGen t = 0 /\ expectedExitGen t = 0 /\
    failures t = n + 1 /\ startFailures t = n + 1 /\ probing t = false /\ prepareExit t = false /\
    tasks t = [] /\ restartCount t = n /\ supState t = Starting /\ supRestartTimer t = None.
Proof.
  intros Hf Hn Hc. destruct (failing_unexpected n s Hf Hn) as (Hh & Hex & Hexp).
  rewrite exitReport_form by done. cbv zeta. destruct Hf.
  destruct (_ =? n + 1) eqn:E; [zbool; lia|]. clear E.
  assert (Hw : connectedCore (n + 1) (flFailedToStart x) s = false).
  { unfold connectedCore. rewrite failingAccepted0. destruct (n + 1 =? 0) eqn:E; [zbool; lia|].
    by rewrite andb_false_r. }
  rewrite Hw. apply Z.eqb_neq in Hc. rewrite Hc. cbn [negb andb].
  destruct (settled_fields (n + 1) (flCause x) s) as
    (F1 & F2 & F3 & F4 & F5 & F6 & F7 & F8 & F9 & F10 & F11 & F12 & F13 & F14 & F15 & F16 & F17 & F18 & F19).
  set (t0 := settled _ _ _) in *. clearbody t0. specialize (F19 failingProbing0).
  unfold unexpectedExit. exists (chooseResume (flNow x) false (countExit (flNow x) false t0)).
  assert (Ht : forall A (f : Sup -> A), (forall tm v w z fl sf s0, f (withProfileCrashTimer tm s0) = f s0 /\
      f (withStartWhenUp v s0) = f s0 /\ f (withStartedId w s0) = f s0 /\
      f (withStartFailures sf (withFailures fl (withFailures z s0))) = f (withStartFailures sf (withFailures fl s0))) ->
      f (chooseResume (flNow x) false (countExit (flNow x) false t0))
      = f (withStartFailures (startFailures t0 + 1) (withFailures (failures t0 + 1) t0))).
  { intros A f Hfr. unfold chooseResume, countExit. cbn [andb orb].
    destruct (startWhenUp _ <? 0); [|apply (Hfr _ 0 0 0 0 0)].
    etransitivity; [apply (Hfr None _ 0 0 0 0)|]. apply (Hfr _ 0 0 0 0 0). }
  rewrite !(Ht _ supProc), !(Ht _ handledExitGen), !(Ht _ acceptedGen), !(Ht _ expectedExitGen),
    !(Ht _ probing), !(Ht _ prepareExit), !(Ht _ tasks), !(Ht _ restartCount), !(Ht _ supState),
    !(Ht _ supRestartTimer) by done.
  assert (Hfl : failures (chooseResume (flNow x) false (countExit (flNow x) false t0)) = n + 1 /\
                startFailures (chooseResume (flNow x) false (countExit (flNow x) false t0)) = n + 1).
  { rewrite (Ht _ failures), (Ht _ startFailures) by done. cbn. lia. }
  destruct Hfl as [Hfl1 Hfl2].
  split; [|split_and!; try exact Hfl1; try exact Hfl2; cbn; congruence].
  change (failures (emit (CoreExited false) ?z)) with (failures z). by rewrite Hfl1.
Qed.

(** A restart timer that fires. *)
Lemma fire_scheduled d s :
  prepareExit s = false ->
  exists O, fireRestartTimer (scheduleRestart d s)
            = postProcessRestart None (withOutputs O (withState Starting (withRestartTimer None s))).
Proof.
  intros Hp. unfold scheduleRestart. rewrite setState_eq. unfold fireRestartTimer. cbn [supRestartTimer withRestartTimer].
  unfold postRestart. cbn [supState withState withOutputs withRestartTimer]. rewrite bool_decide_true by done.
  unfold exiting. cbn [supState prepareExit withState withOutputs withRestartTimer].
  rewrite Hp, bool_decide_false by done. cbn [negb orb]. rewrite setState_eq. eexists. by destruct s.
Qed.

Lemma failing_cycle n s x :
  failing n s -> 0 <= n <= 3 -> flCode x <> kCoreIdentityExitCode ->
  failing (n + 1) (run s (failureEvents (n + 1) x)).
Proof.
  intros Hf Hn Hc. destruct (failing_exit n s x Hf ltac:(lia) Hc) as
    (t & Heq & E1 & E2 & E3 & E4 & E5 & E6 & E7 & E8 & E9 & E10 & E11 & E12).
  cbn [run failureEvents fold_left step]. rewrite Heq. destruct Hf. clear Heq.
  assert (Hg : givesUp false (emit (CoreExited false) t) = false).
  { unfold givesUp, kGiveUpAfter. change (failures (emit (CoreExited false) t)) with (failures t).
    change (startFailures (emit (CoreExited false) t)) with (startFailures t). rewrite E5, E6.
    destruct (5 <=? n + 1) eqn:E; [zbool; lia|]. done. }
  rewrite Hg.
  assert (Hp : prepareExit (emit (CoreExited false) t) = false) by done.
  destruct (fire_scheduled (backoffDelay (n + 1)) _ Hp) as [O ->].
  unfold currentGeneration in failingGen0. destruct (supProc s) as [q|] eqn:Ep; [|done].
  set (s2 := withOutputs O _).
  assert (Hs2 : supProc s2 = Some q /\ handledExitGen s2 = n + 1 /\ acceptedGen s2 = 0 /\
    expectedExitGen s2 = 0 /\ failures s2 = n + 1 /\ startFailures s2 = n + 1 /\ probing s2 = false /\
    prepareExit s2 = false /\ tasks s2 = [] /\ restartCount s2 = n /\ supState s2 = Starting /\
    supRestartTimer s2 = None) by (unfold s2; cbn; split_and!; congruence).
  clearbody s2. destruct Hs2 as (K1 & K2 & K3 & K4 & K5 & K6 & K7 & K8 & K9 & K10 & K11 & K12).
  unfold postProcessRestart, currentGeneration. cbn [tasks post withTasks withRestartCount withHandledExitGen].
  rewrite K9. cbn [app]. unfold runTask, processRestart, processStart, stopProfile. cbn. rewrite K1, K8. cbn.
  split; cbn; rewrite ?K1; try done; lia.
Qed.

(** A core that never connects is restarted with delays of 500, 1000, 2000 and
    4000 ms, each restart spawning the next generation, and given up at its fifth
    failure: from the start on, after at most four failures the next failure arms
    the next delay, and the fifth enters GaveUp with nothing to resume and no
    timer armed by it. *)
Theorem never_connecting_gives_up started p guard (l : list Failure) x :
  Forall (fun y => flCode y <> kCoreIdentityExitCode) (l ++ [x]) -> (length l <= 4)%nat ->
  let n := zlen l in
  let s := run (initialSup started) ([EvStart p; EvTask guard] ++ failureCycles 1 l) in
  let s' := step s (EvExit (flNow x) (n + 1) (flFailedToStart x) (flCode x) (flCause x)) in
  supState s = Starting /\ currentGeneration s = n + 1 /\ restartCount s = n /\
  if n <? 4 then supState s' = Backoff /\ supRestartTimer s' = Some (500 * 2 ^ n)
  else supState s' = GaveUp /\ startWhenUp s' = -1 /\ startedId s' = NoProfileId /\
       supRestartTimer s' = None.
Proof.
  intros Hall Hlen. cbv zeta. apply Forall_app in Hall as [Hl Hx]. apply Forall_inv in Hx.
  assert (H0 : failing 0 (run (initialSup started) [EvStart p; EvTask guard])).
  { cbn [run fold_left step]. unfold start. cbn [supState initialSup].
    rewrite bool_decide_true by done. cbn [negb orb]. rewrite setState_eq.
    destruct (0 <=? p); cbn; split; cbn; try done; by destruct guard. }
  assert (Hind : forall l k s, failing k s -> 0 <= k -> k + zlen l <= 4 ->
     Forall (fun y => flCode y <> kCoreIdentityExitCode) l -> failing (k + zlen l) (run s (failureCycles (k + 1) l))).
  { clear. induction l as [|y l IH]; intros k s Hk Hk0 Hle Hc; cbn [failureCycles].
    - unfold zlen. cbn. by rewrite Z.add_0_r.
    - rewrite zlen_cons in *. apply Forall_cons in Hc as [Hy Hc]. pose proof (zlen_nonneg l).
      unfold run. rewrite fold_left_app. replace (k + (1 + zlen l)) with (k + 1 + zlen l) by lia.
      apply IH; try done; try lia. apply failing_cycle; try done. lia. }
  assert (Hz : zlen l <= 4) by (unfold zlen; lia).
  pose proof (Hind l 0 _ H0 ltac:(lia) ltac:(lia) Hl) as Hs. cbn [Z.add] in Hs.
  assert (Hrun : run (initialSup started) ([EvStart p; EvTask guard] ++ failureCycles 1 l)
    = run (run (initialSup started) [EvStart p; EvTask guard]) (failureCycles 1 l)) by apply fold_left_app.
  rewrite Hrun. set (s := run (run _ _) _) in *. clearbody s. pose proof (zlen_nonneg l) as Hnn.
  destruct (failing_exit (zlen l) s x Hs Hnn Hx) as (t & Heq & _ & _ & _ & _ & E5 & E6 & _ & _ & _ & _ & _ & E12).
  cbn [step]. rewrite Heq. clear Heq. destruct Hs.
  split; [done|]. split; [done|]. split; [done|].
  unfold givesUp, kGiveUpAfter. change (failures (emit (CoreExited false) t)) with (failures t).
  change (startFailures (emit (CoreExited false) t)) with (startFailures t). rewrite E5, E6. cbn [negb andb].
  destruct (zlen l <? 4) eqn:E4; zbool.
  - destruct (5 <=? zlen l + 1) eqn:E; [zbool; lia|]. cbn [orb andb].
    unfold scheduleRestart. rewrite setState_eq. split; [done|].
    change (supRestartTimer (withRestartTimer ?v _)) with v. f_equal.
    rewrite (proj1 (backoffDelay_spec (zlen l + 1) ltac:(lia))).
    replace (Z.min (zlen l + 1 - 1) 6) with (zlen l) by lia.
    assert (zlen l = 0 \/ zlen l = 1 \/ zlen l = 2 \/ zlen l = 3) as [->|[->|[->| ->]]] by lia; done.
  - destruct (5 <=? zlen l + 1) eqn:E; [|zbool; lia]. rewrite orb_true_r.
    unfold giveUp. rewrite setState_eq. split_and!; done.
Qed.

End Facts.

(** ** The hypotheses can hold *)

Definition headlessLinux : Platform := {| isWindows := false; isGuiApp := false; tr := fun s => s |}.

(** A supervisor whose core 1 connected at 1000 and sent coreStarted for profile 4. *)
Definition upAndRunning : Sup :=
  run (P := headlessLinux) (initialSup 4)
    [EvStart 4; EvTask true; EvSpawned 1; EvConnection 1000 true; EvProbed 1 true true true 0].

Lemma exit_report_once_witness :
  let after := run (P := headlessLinux)
    (exitReport (P := headlessLinux) 5000 1 false 2 (u "panic: x") upAndRunning) [EvRestartTimer; EvTask true] in
  1 <= 1 /\ exitReport (P := headlessLinux) 6000 1 true (-1) [] after = after /\ failures after = 1.
Proof.
  cbv zeta. split; [lia|]. split; [|vm_compute; reflexivity].
  apply (exit_report_once (P := headlessLinux) 5000 1 false 2 (u "panic: x") None upAndRunning
           [EvRestartTimer; EvTask true] 6000 1 true (-1) []). lia.
Defined.

Lemma exit_restarts_or_gives_up_witness :
  let s' := exitReport (P := headlessLinux) 5000 1 false 2 (u "panic: x") upAndRunning in
  unexpected 1 upAndRunning /\ supState s' = Backoff /\
  tasks (fireRestartTimer s') = [TaskRestart None].
Proof.
  cbv zeta. assert (H : unexpected 1 upAndRunning) by (split; [vm_compute; reflexivity|split; vm_compute; done]).
  split; [exact H|]. assert (Hf : 0 <= failures upAndRunning) by (vm_compute; discriminate).
  destruct (exit_restarts_or_gives_up (P := headlessLinux) 5000 1 false 2 (u "panic: x") upAndRunning H Hf)
    as [(H1 & _)|(H1 & _ & _ & H4 & _)].
  - exfalso. vm_compute in H1. discriminate.
  - split; [exact H1|]. rewrite H4. vm_compute. reflexivity.
Defined.

Lemma connected_exit_resume_witness :
  let s1 := exitReport (P := headlessLinux) 5000 1 false 2 (u "panic: x") upAndRunning in
  let s2 := run (P := headlessLinux) s1 [EvRestartTimer; EvTask true; EvConnection 6000 true; EvProbed 2 true true true 0] in
  let s3 := exitReport (P := headlessLinux) 9000 2 false 2 (u "panic: y") s2 in
  startWhenUp s1 = 4 /\ startWhenUp s3 = -1 /\ startedId s3 = NoProfileId.
Proof.
  cbv zeta. set (s1 := exitReport 5000 1 false 2 (u "panic: x") upAndRunning).
  set (s2 := run s1 _).
  assert (H1 : unexpected 1 upAndRunning) by (split; [vm_compute; reflexivity|split; vm_compute; done]).
  assert (H2 : unexpected 2 s2) by (split; [vm_compute; reflexivity|split; vm_compute; done]).
  assert (C1 : connectedCore 1 false upAndRunning = true) by (vm_compute; reflexivity).
  assert (C2 : connectedCore 2 false s2 = true) by (vm_compute; reflexivity).
  assert (S1 : 0 <= startedId upAndRunning) by (vm_compute; discriminate).
  assert (S2 : 0 <= startedId s2) by (vm_compute; discriminate).
  pose proof (connected_exit_resume (P := headlessLinux) 5000 1 false 2 (u "panic: x") upAndRunning H1 C1 S1) as R1.
  pose proof (connected_exit_resume (P := headlessLinux) 9000 2 false 2 (u "panic: y") s2 H2 C2 S2) as R2.
  assert (T1 : profileCrashTimer upAndRunning = None) by (vm_compute; reflexivity).
  assert (T2 : profileCrashTimer s2 = Some 5000) by (vm_compute; reflexivity).
  cbv zeta in R1, R2. rewrite T1 in R1. rewrite T2 in R2. cbn [Z.ltb Z.sub] in R2.
  split; [exact (proj1 (proj2 R1))|]. change (9000 - 5000 <? kProfileCrashWindowMs) with true in R2.
  split; [exact (proj1 R2)|exact (proj1 (proj2 R2))].
Defined.

Lemma never_connecting_gives_up_witness :
  let x := mkFailure 100 true (-1) (u "no such file") true in
  let s := run (P := headlessLinux) (initialSup 4) ([EvStart 4; EvTask true] ++ failureCycles 1 [x; x; x; x]) in
  supState (step (P := headlessLinux) s (EvExit 100 5 true (-1) (u "no such file"))) = GaveUp.
Proof.
  cbv zeta. set (x := mkFailure 100 true (-1) (u "no such file") true).
  assert (Hx : Forall (fun y => flCode y <> kCoreIdentityExitCode) ([x; x; x; x] ++ [x])).
  { repeat (apply Forall_cons; split; [vm_compute; discriminate|]). by apply Forall_nil. }
  destruct (never_connecting_gives_up (P := headlessLinux) 4 4 true [x; x; x; x] x Hx ltac:(cbn; lia))
    as (_ & _ & _ & H). exact (proj1 H).
Defined.
