(* ===== verification/SupervisorCounts.v ===== *)
(** What the core supervisor announces, counted over every run: starts against
    connections, failures and give-ups against exits. *)
From stdpp Require Import base list strings.
From Stdlib Require Import ZArith Lia Bool.
From S2P Require Import Prelude CoreStderr Supervisor SupervisorFacts.

Section Counts.
Context {P : Platform}.

Fixpoint countOut (f : Output -> bool) (l : list Output) : Z :=
  match l with [] => 0 | o :: l' => (if f o then 1 else 0) + countOut f l' end.

Lemma countOut_app f l l' : countOut f (l ++ l') = countOut f l + countOut f l'.
Proof. induction l; cbn; lia. Qed.

Lemma countOut_nonneg f l : 0 <= countOut f l.
Proof. induction l as [|o l IH]; cbn; [lia|]. break_if; lia. Qed.

Definition isStarted (o : Output) : bool := match o with CoreStarted _ => true | _ => false end.
Definition isRpc (o : Output) : bool := match o with RpcConnected => true | _ => false end.
Definition isExited (o : Output) : bool := match o with CoreExited _ => true | _ => false end.
Definition isGaveUp (o : Output) : bool := match o with CoreGaveUpSignal _ => true | _ => false end.

(** At most one start per connection, the running probe's included; the failure
    counters and every give-up are backed by announced exits. *)
Record counted (s : Sup) : Prop := {
  countedStart : countOut isStarted (outputs s) + (if probing s then 1 else 0) <= countOut isRpc (outputs s);
  countedFailures : failures s <= countOut isExited (outputs s);
  countedStartFailures : startFailures s <= countOut isExited (outputs s);
  countedGaveUp : countOut isGaveUp (outputs s) <> 0 -> 5 <= countOut isExited (outputs s)
}.

(** Outputs that touch no count. *)
Definition uncounted (o : Output) : bool :=
  negb (isStarted o || isRpc o || isExited o || isGaveUp o).

Lemma countOut_uncounted l f :
  forallb uncounted l = true -> f = isStarted \/ f = isRpc \/ f = isExited \/ f = isGaveUp -> countOut f l = 0.
Proof.
  intros H Hf. induction l as [|o l IH]; [done|]. cbn in *. apply andb_true_iff in H as [Ho H].
  rewrite (IH H). unfold uncounted in Ho. destruct Hf as [->|[->|[->| ->]]]; by destruct o.
Qed.

(** A step that announces nothing counted and raises no counter. *)
Lemma counted_frame s s' new :
  counted s -> outputs s' = outputs s ++ new -> forallb uncounted new = true ->
  (probing s' = true -> probing s = true) ->
  (failures s' = failures s \/ failures s' = 0) -> (startFailures s' = startFailures s \/ startFailures s' = 0) ->
  counted s'.
Proof.
  intros [H1 H2 H3 H4] Ho Hn Hp Hf Hs.
  pose proof (countOut_nonneg isExited (outputs s)).
  assert (E : forall f, f = isStarted \/ f = isRpc \/ f = isExited \/ f = isGaveUp ->
     countOut f (outputs s') = countOut f (outputs s)).
  { intros f Hff. rewrite Ho, countOut_app, (countOut_uncounted new f Hn Hff). lia. }
  split; rewrite ?E by tauto; try lia.
  destruct (probing s'); [rewrite Hp in H1 by done; lia|]. destruct (probing s); lia.
Qed.

Lemma stateOutputs_eq st s : exists new, stateOutputs st s = outputs s ++ new /\ forallb uncounted new = true.
Proof. unfold stateOutputs. destruct (decide _); [exists []; by rewrite app_nil_r|by exists [StateChanged st]]. Qed.

Ltac quietly new := eapply (counted_frame _ _ new);
  [eassumption|cbn; rewrite ?app_nil_r, <- ?app_assoc; reflexivity|reflexivity|cbn; done|cbn; tauto|cbn; tauto].

Ltac quiet_state H st s0 :=
  destruct (stateOutputs_eq st s0) as (new & Eo & En);
  eapply (counted_frame _ _ new); [exact H|cbn; rewrite Eo; cbn; done|exact En|cbn; done|cbn; tauto|cbn; tauto].

Lemma beginRestart_counted s : counted s -> counted (beginRestart s).
Proof. intros H. rewrite beginRestart_eq. quiet_state H Starting s. Qed.

Lemma postProcessRestart_counted b s : counted s -> counted (postProcessRestart b s).
Proof. intros H. quietly (@nil Output). Qed.

Lemma withStartWhenUp_counted p s : counted s -> counted (withStartWhenUp p s).
Proof. intros H. quietly (@nil Output). Qed.

Lemma withStartedId_counted p s : counted s -> counted (withStartedId p s).
Proof. intros H. quietly (@nil Output). Qed.

Lemma post_counted t s : counted s -> counted (post t s).
Proof. intros H. quietly (@nil Output). Qed.

Lemma emit_counted o s : uncounted o = true -> counted s -> counted (emit o s).
Proof.
  intros Ho H. eapply (counted_frame _ _ [o]); [exact H|done|cbn; by rewrite Ho|done|cbn; tauto|cbn; tauto].
Qed.

Lemma setState_counted st s : counted s -> counted (setState st s).
Proof. intros H. rewrite setState_eq. quiet_state H st s. Qed.

Lemma scheduleRestart_counted d s : counted s -> counted (scheduleRestart d s).
Proof.
  intros H. unfold scheduleRestart. pose proof (setState_counted Backoff s H) as H1.
  quietly (@nil Output).
Qed.

Hint Resolve beginRestart_counted postProcessRestart_counted withStartWhenUp_counted post_counted
  emit_counted setState_counted scheduleRestart_counted withStartedId_counted : sup.

Lemma emitCoreStarted_counted s :
  counted s -> countOut isStarted (outputs s) + 1 <= countOut isRpc (outputs s) -> probing s = false ->
  counted (emitCoreStarted s).
Proof.
  intros [H1 H2 H3 H4] H Hp. unfold emitCoreStarted. pose proof (countOut_nonneg isExited (outputs s)).
  split; cbn; rewrite !countOut_app; cbn; rewrite ?Hp; lia.
Qed.

Lemma onNewConnection_counted now v s : counted s -> counted (onNewConnection now v s).
Proof.
  intros H. unfold onNewConnection. destruct (negb v); [auto with sup|]. destruct (_ || _); [auto with sup|].
  set (s1 := withCoreRunning true (emit RpcConnected s)).
  assert (H1 : counted s1 /\ countOut isStarted (outputs s1) + 1 + (if probing s then 1 else 0)
                 <= countOut isRpc (outputs s1) /\ probing s1 = probing s).
  { destruct H as [A1 A2 A3 A4]. unfold s1.
    split; [split|]; cbn; rewrite ?countOut_app; cbn; rewrite ?Z.add_0_r in *; try tauto; try lia; try done.
    split; [destruct (probing s); lia|done]. }
  clearbody s1. destruct H1 as (H1 & H2 & H3). destruct (exiting s1); [done|].
  set (s2 := if _ <? _ then _ else s1).
  assert (E : outputs s2 = outputs s1 /\ probing s2 = probing s1 /\ counted s2).
  { unfold s2. destruct (_ <? _); [|done]. split; [done|]. split; [done|]. quietly (@nil Output). }
  clearbody s2. destruct E as (E1 & E2 & E3).
  set (s3 := setState Connected (withConnectTimer None s2)).
  assert (Hs3 : counted s3 /\ countOut isStarted (outputs s3) = countOut isStarted (outputs s2) /\
                countOut isRpc (outputs s3) = countOut isRpc (outputs s2) /\ probing s3 = probing s2).
  { unfold s3. split; [apply setState_counted; quietly (@nil Output)|]. rewrite setState_eq.
    destruct (stateOutputs_eq Connected (withConnectTimer None s2)) as (new & Eo & En). cbn. rewrite Eo.
    rewrite !countOut_app, !(countOut_uncounted new) by (tauto || done). cbn. split_and!; lia || done. }
  clearbody s3. destruct Hs3 as (K1 & K2 & K3 & K4).
  destruct isWindows.
  - destruct K1 as [A1 A2 A3 A4]. unfold emitCoreStarted.
    pose proof (countOut_nonneg isExited (outputs s3)).
    split; cbn; rewrite !countOut_app; cbn; rewrite ?Z.add_0_r in *; try tauto; try lia.
    rewrite K4, E2, H3, K2, K3, E1. destruct (probing s); lia.
  - destruct K1 as [A1 A2 A3 A4]. split; cbn; rewrite !countOut_app; cbn; rewrite ?Z.add_0_r in *; try tauto; try lia.
    rewrite K2, K3, E1. destruct (probing s); lia.
Qed.

Lemma onPrivilegeProbed_counted g ok pr ch a s : 0 <= a -> counted s -> counted (onPrivilegeProbed g ok pr ch a s).
Proof.
  intros Ha H. unfold onPrivilegeProbed. destruct (_ || _ || _ || _) eqn:E; [done|]. destruct (negb ok && _); [done|].
  set (s1 := if ok then _ else s). set (s2 := if _ && _ then _ else s1).
  assert (H2 : counted s2 /\ probing s2 = probing s).
  { assert (counted s1 /\ probing s1 = probing s) by (unfold s1; destruct ok; auto with sup).
    unfold s2. destruct (negb ok && (a <? kPrivilegeProbeRetries)); [|done]. split; [apply emit_counted; tauto|tauto]. }
  clearbody s2. destruct H2 as [H2 Hp]. destruct (0 <? a) eqn:Ea; [done|].
  assert (a = 0) as -> by (zbool; lia). cbn [Z.eqb andb] in E.
  assert (Hps : probing s = true).
  { destruct (probing s); [done|]. cbn in E. discriminate. }
  rewrite <- Hp in Hps. destruct H2 as [A1 A2 A3 A4]. rewrite Hps in A1.
  apply emitCoreStarted_counted; [|cbn; lia|done]. split; cbn; lia || done.
Qed.

Lemma settled_counted g cause s : counted s -> counted (settled g cause s).
Proof.
  intros H. destruct (settled_fields g cause s) as
    (_ & _ & _ & _ & F5 & F6 & _ & _ & _ & _ & _ & _ & _ & _ & _ & F16 & _ & F18 & _).
  eapply (counted_frame _ _ []); [exact H|by rewrite F16, app_nil_r|done|exact F18|tauto|tauto].
Qed.

Lemma chooseResume_frame now w s :
  let t := chooseResume now w s in
  outputs t = outputs s /\ probing t = probing s /\ failures t = failures s /\ startFailures t = startFailures s.
Proof.
  cbv zeta. unfold chooseResume. generalize (if w then crashTimer now (profileCrashTimer s) else (profileCrashTimer s, false)).
  intros [tm fq]. destruct s. cbn. destruct (w || _); [|done]. by destruct fq, (0 <=? startedId).
Qed.

Lemma unexpectedExit_counted now g w s :
  counted s -> counted (unexpectedExit now g w s).
Proof.
  intros H. unfold unexpectedExit.
  set (s1 := emit (CoreExited w) (chooseResume now w (countExit now w s))).
  assert (H1 : counted s1 /\ (failures s1 <= countOut isExited (outputs s1)) /\
                startFailures s1 <= countOut isExited (outputs s1)).
  { destruct (countExit_fields now w s) as (_ & _ & _ & _ & E5 & E6).
    assert (Eo : outputs (countExit now w s) = outputs s /\ probing (countExit now w s) = probing s).
    { unfold countExit. destruct (w && _); by destruct w. }
    set (s0 := countExit now w s) in *. clearbody s0. destruct Eo as [Eo Ep].
    assert (E : outputs s1 = outputs s ++ [CoreExited w] /\ probing s1 = probing s /\
      failures s1 = failures s0 /\ startFailures s1 = startFailures s0).
    { unfold s1. destruct (chooseResume_frame now w s0) as (R1 & R2 & R3 & R4). cbn. rewrite R1. split_and!; congruence. }
    destruct E as (G1 & G2 & G3 & G4). destruct H as [A1 A2 A3 A4].
    pose proof (countOut_nonneg isExited (outputs s)).
    assert (failures s0 <= countOut isExited (outputs s) + 1) by (rewrite E6; destruct (w && _); lia).
    assert (startFailures s0 <= countOut isExited (outputs s) + 1) by (rewrite E5; destruct w; lia).
    split; [split|split]; rewrite ?G1, ?G2, ?G3, ?G4, ?countOut_app; cbn; try lia. }
  destruct H1 as (H1 & H2 & H3). clearbody s1. destruct (givesUp w s1) eqn:Eg; [|auto with sup].
  assert (H5 : 5 <= countOut isExited (outputs s1)).
  { unfold givesUp, kGiveUpAfter in Eg. apply orb_true_iff in Eg as [Eg|Eg];
      apply andb_true_iff in Eg as [Ea Eb]; [apply Z.leb_le in Ea|apply Z.leb_le in Eb]; lia. }
  unfold giveUp. set (reason := if isGuiApp then _ else _). clearbody reason.
  assert (H6 : counted (setState GaveUp (withLastFailure reason (withStartedId NoProfileId (withStartWhenUp (-1) s1))))).
  { apply setState_counted. quietly (@nil Output). }
  rewrite setState_eq in *. destruct H6 as [A1 A2 A3 A4]. cbn in A1, A2, A3, A4.
  match goal with H : context [stateOutputs GaveUp ?z] |- _ => set (s2 := z) in *;
    destruct (stateOutputs_eq GaveUp s2) as (new & Eo & En) end.
  assert (H7 : 5 <= countOut isExited (stateOutputs GaveUp s2)).
  { rewrite Eo, countOut_app, (countOut_uncounted new) by (tauto || done).
    change (outputs s2) with (outputs s1). lia. }
  split; cbn; rewrite !countOut_app; cbn; lia.
Qed.

Lemma onCoreExited_counted now g f c cause s : counted s -> counted (exitReport now g f c cause s).
Proof.
  intros H. destruct (decide (handledExitGen s < g)) as [Hh|Hh]; [|by rewrite exitReport_handled by lia].
  destruct (exiting s) eqn:Hex.
  - unfold exitReport, onCoreExited. rewrite (noteCoreError_eq g cause s). cbn.
    destruct (g <=? _); [quietly (@nil Output)|].
    match goal with |- context [exiting ?z] => assert (exiting z = true) as -> end.
    { by destruct (probing s && _). }
    destruct (probing s && _); [|quietly (@nil Output)]. eapply (counted_frame _ _ []); [exact H|..]; cbn;
      rewrite ?app_nil_r; tauto || done.
  - rewrite exitReport_form by done. cbv zeta. pose proof (settled_counted g cause s H) as Hs.
    destruct (_ =? g).
    + unfold expectedExit. apply scheduleRestart_counted.
      set (s1 := withStartFailures 0 (withFailures 0 (settled g cause s))).
      assert (counted s1) by quietly (@nil Output). destruct (_ || _); auto with sup.
    + destruct (_ && _ && _); [|by apply unexpectedExit_counted]. unfold identityExit.
      apply scheduleRestart_counted, emit_counted; [done|]. quietly (@nil Output).
Qed.

Lemma processStart_counted guard s p : counted s -> counted (processStart guard s p).
Proof.
  intros H. unfold processStart. destruct (procStarted p); [quietly (@nil Output)|].
  apply emit_counted; [done|]. quietly (@nil Output).
Qed.

Lemma runTask_counted guard t s : counted s -> counted (runTask guard t s).
Proof.
  intros H. unfold runTask, processRestart, stopProfile.
  destruct t as [| | | | |g|b]; try (apply processStart_counted; exact H);
    (destruct (supProc s) as [p|]; [|done]); auto with sup.
  - apply emit_counted; [done|]. quietly [ProfileStopped (mkStop true true true)].
  - apply emit_counted; [done|]. quietly (@nil Output).
  - destruct (_ =? g); auto with sup.
  - destruct (prepareExit s); [done|]. apply processStart_counted, emit_counted; [done|].
    destruct b; auto with sup.
Qed.

(** Retries of a probe carry its attempt, which starts at zero. *)
Definition realEvent (e : Event) : Prop :=
  match e with EvProbed _ _ _ _ a => 0 <= a | _ => True end.

Lemma step_counted s e : realEvent e -> counted s -> counted (step s e).
Proof.
  intros He H. destruct e; cbn [step].
  - unfold start. destruct (_ || _); [done|]. break_if; auto with sup.
  - unfold shutdown. apply post_counted. pose proof (setState_counted ShuttingDown s H). quietly (@nil Output).
  - unfold killForExit. apply post_counted. pose proof (setState_counted ShuttingDown s H). quietly (@nil Output).
  - unfold resetCore. destruct (_ || _); [done|]. cbv zeta. destruct (_ || _); cbn [fst]; auto 8 with sup.
  - unfold restartNotListening. destruct (_ || _); [done|]. cbn [fst]. auto with sup.
  - unfold restartForGuard. destruct (_ || _); [done|]. auto with sup.
  - unfold restartDeadCore. destruct (_ || _); [done|]. auto with sup.
  - unfold killForPrivilegeChange. destruct (supState s); cbn [fst]; auto with sup.
  - unfold setStartWhenUp. destruct (supProc s); cbn [fst]; auto with sup.
  - unfold cancelResume. auto with sup.
  - by apply onNewConnection_counted.
  - by apply onPrivilegeProbed_counted.
  - unfold onProbeRetry. destruct (_ && _); auto with sup.
  - unfold onCoreSpawned. destruct (_ || _); [done|]. quietly (@nil Output).
  - by apply onCoreExited_counted.
  - unfold onProcessStopped. assert (counted (withCoreRunning false s)) by quietly (@nil Output).
    destruct (_ || _); [done|]. cbn [fst]. destruct (negb _); auto with sup.
  - unfold fireRestartTimer, postRestart. destruct (supRestartTimer s); [|done].
    assert (counted (withRestartTimer None s)) by quietly (@nil Output).
    destruct (_ || _); auto with sup.
  - unfold fireConnectTimer, onConnectTimeout. destruct (supConnectTimer s); [|done].
    assert (counted (withConnectTimer None s)) by quietly (@nil Output).
    destruct (_ || _); [done|]. destruct (_ || _); [done|]. apply post_counted. quietly (@nil Output).
  - destruct (tasks s) as [|t ts]; [done|]. apply runTask_counted. quietly (@nil Output).
  - auto with sup.
  - quietly (@nil Output).
Qed.

(** Over every run of the program: coreStarted is emitted at most once per
    accepted connection, the failure counters never exceed the unexpected exits,
    and the core is never given up before five unexpected exits. *)
Theorem starts_and_giveups_counted started events :
  Forall realEvent events ->
  let s := run (initialSup started) events in
  countOut isStarted (outputs s) <= countOut isRpc (outputs s) /\
  failures s <= countOut isExited (outputs s) /\
  (countOut isGaveUp (outputs s) <> 0 -> 5 <= countOut isExited (outputs s)).
Proof.
  intros H. cbv zeta.
  assert (Hc : counted (run (initialSup started) events)).
  { assert (H0 : counted (initialSup started)) by (split; cbn; lia).
    revert H0. generalize (initialSup started). induction H as [|e es He _ IH]; intros s Hs; cbn; [done|].
    apply IH, step_counted; done. }
  destruct Hc as [A1 A2 A3 A4]. split_and!; try done. destruct (probing _); lia.
Qed.

End Counts.

(** ** The hypothesis can hold *)

Lemma starts_and_giveups_counted_witness :
  let events := [EvStart 4; EvTask true; EvSpawned 1; EvConnection 1000 true; EvProbed 1 true true true 0;
                 EvExit 5000 1 false 2 (u "panic: x")] in
  let s := run (P := headlessLinux) (initialSup 4) events in
  Forall realEvent events /\ countOut isStarted (outputs s) = 1 /\ countOut isRpc (outputs s) = 1 /\
  failures s <= countOut isExited (outputs s).
Proof.
  cbv zeta.
  assert (H : Forall realEvent [EvStart 4; EvTask true; EvSpawned 1; EvConnection 1000 true;
                EvProbed 1 true true true 0; EvExit 5000 1 false 2 (u "panic: x")]).
  { repeat (apply Forall_cons; split; [vm_compute; try discriminate; exact I|]). by apply Forall_nil. }
  split; [exact H|]. split; [vm_compute; reflexivity|]. split; [vm_compute; reflexivity|].
  apply (starts_and_giveups_counted (P := headlessLinux) 4 _ H).
Defined.
