(* ===== verification/ValidationNum.v ===== *)
(** Number, port, duration and size checks: src/src/global/Validation.cpp.

    A check takes the text of a form field and returns [None] to accept it or the
    message shown.  64-bit integers are kept at their width; the fraction of a
    duration is computed in binary64 (Stdlib's SpecFloat). *)
From stdpp Require Import base list strings.
From Stdlib Require Import ZArith Lia Bool SpecFloat.
From S2P Require Import Prelude.

Inductive EmptyRule := EmptyAllowed | EmptyRequired.

(** ** Characters *)

Definition validationDigit (c : Z) : bool := (48 <=? c) && (c <=? 57).

Definition validationHexDigit (c : Z) : bool :=
  ((48 <=? c) && (c <=? 57)) || ((97 <=? c) && (c <=? 102)) || ((65 <=? c) && (c <=? 70)).

Definition validationAsciiAlnum (c : Z) : bool :=
  ((48 <=? c) && (c <=? 57)) || ((97 <=? c) && (c <=? 122)) || ((65 <=? c) && (c <=? 90)).

Definition validationAllDigits (s : qstr) : bool := negb (isNil s) && forallb validationDigit s.

Definition validationSignedDigits (s : qstr) : bool :=
  validationAllDigits (if startsWithChar cDash s then drop 1 s else s).

(** The number a run of digits writes (toInt, toULongLong on digits only). *)
Definition digitsValue (s : qstr) : Z := fold_left (fun v c => v * 10 + (c - 48)) s 0.

(** ** Integers *)

(** The digit loop under [limit], on an unsigned 64-bit accumulator. *)
Fixpoint parseIntLoop (limit v : Z) (s : qstr) : option Z :=
  match s with
  | [] => Some v
  | c :: s' =>
      assert? validationDigit c in
      let d := c - 48 in
      assert? negb ((limit - d) / 10 <? v) in
      parseIntLoop limit (wrap64 (v * 10 + d)) s'
  end.

Definition validationParseInt (s : qstr) : option Z :=
  match s with
  | [] => None
  | c :: s' =>
      let neg := c =? cDash in
      let body := if neg then s' else s in
      assert? negb (isNil body) in
      let limit := max_i64 + (if neg then 1 else 0) in
      let? v := parseIntLoop limit 0 body in
      if negb neg then Some v
      else if v =? limit then Some min_i64 else Some (- v)
  end.

(** The loop that skips leading zeros but the last character. *)
Fixpoint skipZeros (s : qstr) : qstr :=
  match s with
  | [] => s
  | c :: s' =>
      match s' with
      | [] => s
      | _ :: _ => if c =? c0 then skipZeros s' else s
      end
  end.

Definition validationParseUint16 (s : qstr) : option Z :=
  assert? validationAllDigits s in
  let s := skipZeros s in
  assert? negb (5 <? zlen s) in
  let v := digitsValue s in
  assert? negb (65535 <? v) in
  Some v.

Section Checks.
Context {Q : QtChar}.

Definition ToInt (text : qstr) : option Z := validationParseInt (trimmed text).

Definition Required (text : qstr) : verdict :=
  if negb (isNil (trimmed text)) then None else Some (tr0 "This field is required.").

Definition validationEmpty (empty : EmptyRule) : verdict :=
  match empty with EmptyRequired => Required [] | EmptyAllowed => None end.

Definition validationShort (text : qstr) : qstr :=
  if 40 <? zlen text then take 40 text ++ [8230] else text.

Definition validationPortMessage : Message := tr0 "Must be a port number from 1 to 65535.".

Definition validationRangeMessage (min max : Z) : Message :=
  MTr (u "Must be from %1 to %2.") [MText (number min); MText (number max)].

Definition Int (text : qstr) (min max : Z) (empty : EmptyRule) : verdict :=
  let t := trimmed text in
  if isNil t then validationEmpty empty
  else match validationParseInt t with
       | None =>
           if validationSignedDigits t then Some (validationRangeMessage min max)
           else Some (tr0 "Must be a whole number.")
       | Some v =>
           if (v <? min) || (max <? v) then Some (validationRangeMessage min max) else None
       end.

(** The port test shared by [Port], [HostPort] and [Url]. *)
Definition checkPort (t : qstr) : verdict :=
  match validationParseInt t with
  | Some v => if (v <? 1) || (65535 <? v) then Some validationPortMessage else None
  | None => Some validationPortMessage
  end.

Definition Port (text : qstr) (empty : EmptyRule) : verdict :=
  let t := trimmed text in
  if isNil t then validationEmpty empty else checkPort t.

(** ** Port ranges *)

Inductive RangeSep := SepColon | SepDash.

Record PortRangeStyle := mkStyle {
  sep : RangeSep;
  allowSingle : bool;
  allowOpenEnds : bool;
  checkOrder : bool
}.

Definition isColon (s : RangeSep) : bool := match s with SepColon => true | SepDash => false end.

Definition rangeFormat (colon : bool) : Message :=
  if colon then tr0 "Use a range like 20000:30000." else tr0 "Use a range like 20000-30000.".

Definition tooLargePort : Message := tr0 "Ports must be at most 65535.".

(** One side of a range, its default when it is empty. *)
Definition rangeSide (style : PortRangeStyle) (side : qstr) (default : Z) : Message + Z :=
  let colon := isColon (sep style) in
  if isNil side then
    if negb (allowOpenEnds style) then inl (rangeFormat colon) else inr default
  else match validationParseUint16 side with
       | None => inl (if validationAllDigits side then tooLargePort else rangeFormat colon)
       | Some v => inr v
       end.

Definition PortRange (text : qstr) (style : PortRangeStyle) : verdict :=
  let t := trimmed text in
  if isNil t then None
  else
    let colon := isColon (sep style) in
    match indexOf (if colon then cColon else cDash) t with
    | None =>
        match validationParseUint16 t with
        | Some _ =>
            if allowSingle style then None
            else Some (MTr (if colon then uq "`%1` is a single port; write it as %1:%1."
                            else uq "`%1` is a single port; write it as %1-%1.") [MText t])
        | None => Some (if validationAllDigits t then tooLargePort else rangeFormat colon)
        end
    | Some at_ =>
        match rangeSide style (take at_ t) 0 with
        | inl m => Some m
        | inr start =>
            match rangeSide style (drop (S at_) t) 65535 with
            | inl m => Some m
            | inr end_ =>
                if checkOrder style && (end_ <? start)
                then Some (tr0 "The range starts after it ends, so it matches nothing.")
                else None
            end
        end
    end.

Definition withCheckOrder (b : bool) (style : PortRangeStyle) : PortRangeStyle :=
  mkStyle (sep style) (allowSingle style) (allowOpenEnds style) b.

Definition PortRangeOrder (text : qstr) (style : PortRangeStyle) : verdict :=
  match PortRange text (withCheckOrder false style) with
  | Some _ => None
  | None => PortRange text (withCheckOrder true style)
  end.

(** indexOf(c, from). *)
Definition indexOfFrom (c : Z) (from : nat) (s : qstr) : option nat :=
  Nat.add from <$> indexOf c (drop from s).

Definition rangeNumber (negative : bool) (min max : Z) (part : qstr) : Message + Z :=
  if negb (validationSignedDigits part) || (negb negative && startsWithChar cDash part)
  then inl (tr0 "Must be a whole number or a range like 10-20.")
  else match validationParseInt part with
       | Some v => if (v <? min) || (max <? v) then inl (validationRangeMessage min max) else inr v
       | None => inl (validationRangeMessage min max)
       end.

Definition IntOrRange (text : qstr) (min max : Z) (empty : EmptyRule) (allowReversed : bool) : verdict :=
  let t := trimmed text in
  if isNil t then validationEmpty empty
  else
    let negative := min <? 0 in
    let dash := indexOfFrom cDash (if negative && startsWithChar cDash t then 1 else 0) t in
    let (a, b) := match dash with
                  | None => (t, t)
                  | Some i => (take i t, drop (S i) t)
                  end in
    match rangeNumber negative min max a with
    | inl m => Some m
    | inr va =>
        match rangeNumber negative min max b with
        | inl m => Some m
        | inr vb =>
            if negb allowReversed && (vb <? va)
            then Some (tr0 "The range starts after it ends; put the smaller number first.")
            else None
        end
    end.

End Checks.

(** ** Durations *)

Definition kLimit : Z := 2 ^ 63.

(** binary64: nearest-even rounding, and the conversion back to an integer. *)
Definition toDouble (z : Z) : spec_float := binary_normalize 53 1024 z 0 false.
Definition mulDouble : spec_float -> spec_float -> spec_float := SFmul 53 1024.
Definition divDouble : spec_float -> spec_float -> spec_float := SFdiv 53 1024.

Definition truncDouble (x : spec_float) : Z :=
  match x with
  | S754_finite s m e =>
      let v := if 0 <=? e then Z.shiftl (Zpos m) e else Z.shiftr (Zpos m) (- e) in
      if s then - v else v
  | _ => 0
  end.

Definition durationUnits : list (list Z * Z) :=
  [(u "ns", 1); (u "us", 1000); ([194; 181] ++ u "s", 1000); ([206; 188] ++ u "s", 1000);
   (u "ms", 1000000); (u "s", 1000000000); (u "m", 60000000000); (u "h", 3600000000000);
   (u "d", 86400000000000)].

Fixpoint findUnit (table : list (list Z * Z)) (unit : list Z) : Z :=
  match table with
  | [] => 0
  | (name, value) :: table' => if eqStr unit name then value else findUnit table' unit
  end.

Definition validationDurationUnit (unit : list Z) : Z := findUnit durationUnits unit.

(** The digits before the point: [None] on overflow, else the value and what
    follows. *)
Fixpoint durationInt (v : Z) (s : list Z) : option (Z * list Z) :=
  match s with
  | c :: s' =>
      if validationDigit c then
        assert? negb (kLimit / 10 <? v) in
        let v := wrap64 (v * 10 + (c - 48)) in
        assert? negb (kLimit <? v) in
        durationInt v s'
      else Some (v, s)
  | [] => Some (v, s)
  end.

(** The digits after the point: what is past 2^63 is ignored. *)
Fixpoint durationFrac (f : Z) (scale : spec_float) (overflow : bool) (s : list Z)
    : Z * spec_float * list Z :=
  match s with
  | c :: s' =>
      if validationDigit c then
        if overflow then durationFrac f scale overflow s'
        else if (kLimit - 1) / 10 <? f then durationFrac f scale true s'
        else
          let y := wrap64 (f * 10 + (c - 48)) in
          if kLimit <? y then durationFrac f scale true s'
          else durationFrac y (mulDouble scale (toDouble 10)) overflow s'
      else (f, scale, s)
  | [] => (f, scale, s)
  end.

Fixpoint spanUnit (s : list Z) : list Z * list Z :=
  match s with
  | c :: s' =>
      if negb (c =? cDot) && negb (validationDigit c)
      then let (a, b) := spanUnit s' in (c :: a, b)
      else ([], s)
  | [] => ([], [])
  end.

(** One number and its unit: the nanoseconds and what follows. *)
Definition durationSegment (s : list Z) : option (Z * list Z) :=
  assert? match s with c :: _ => (c =? cDot) || validationDigit c | [] => false end in
  let? p := durationInt 0 s in
  let (v, s1) := p in
  let pre := (length s1 <? length s)%nat in
  let '(f, scale, s2, post) :=
    match s1 with
    | c :: s1' =>
        if c =? cDot then
          let '(f, scale, s2) := durationFrac 0 (toDouble 1) false s1' in
          (f, scale, s2, (length s2 <? length s1')%nat)
        else (0, toDouble 1, s1, false)
    | [] => (0, toDouble 1, s1, false)
    end in
  assert? pre || post in
  let (name, s3) := spanUnit s2 in
  assert? negb (isNil name) in
  let unit := validationDurationUnit name in
  assert? negb (unit =? 0) in
  assert? negb (kLimit / unit <? v) in
  let v := wrap64 (v * unit) in
  if 0 <? f then
    let v := wrap64 (v + wrap64 (truncDouble (mulDouble (toDouble f) (divDouble (toDouble unit) scale)))) in
    assert? negb (kLimit <? v) in
    Some (v, s3)
  else Some (v, s3).

(** The loop over the segments; every segment takes a character, so the length
    of the text is enough fuel. *)
Fixpoint durationLoop (fuel : nat) (d : Z) (s : list Z) : option Z :=
  match s with
  | [] => Some d
  | _ :: _ =>
      match fuel with
      | O => None
      | S fuel' =>
          let? p := durationSegment s in
          let d := wrap64 (d + fst p) in
          assert? negb (kLimit <? d) in
          durationLoop fuel' d (snd p)
      end
  end.

Section Duration.
Context {Q : QtChar} {U : Utf8}.

Definition parseDurationBytes (bytes : list Z) : option Z :=
  let neg := startsWithChar cDash bytes in
  let s := if neg || startsWithChar 43 bytes then drop 1 bytes else bytes in
  if eqStr s [c0] then Some 0
  else
    assert? negb (isNil s) in
    let? d := durationLoop (length s) 0 s in
    if neg then Some (if d =? kLimit then min_i64 else - d)
    else if kLimit - 1 <? d then None else Some d.

Definition ParseDurationNs (text : qstr) : option Z := parseDurationBytes (toUtf8 (trimmed text)).

Definition formatUnits : list (Z * qstr) :=
  [(3600000000000, u "h"); (60000000000, u "m"); (1000000000, u "s"); (1000000, u "ms"); (1000, u "us"); (1, u "ns")].

Fixpoint formatUnitsLoop (units : list (Z * qstr)) (v : Z) : qstr :=
  match units with
  | [] => []
  | (unit, name) :: units' =>
      let q := v / unit in
      if negb (q =? 0) then number q ++ name ++ formatUnitsLoop units' (v mod unit)
      else formatUnitsLoop units' v
  end.

Definition validationFormatDuration (ns : Z) : qstr :=
  if ns =? 0 then u "0s"
  else if ns <? 0 then u "-" ++ formatUnitsLoop formatUnits (wrap64 (0 - wrap64 ns))
  else formatUnitsLoop formatUnits (wrap64 ns).

Record DurationRule := mkDurationRule {
  durationEmpty : EmptyRule;
  allowNegative : bool;
  wholeSeconds : bool;
  minNs : option Z;
  maxNs : option Z
}.

Definition DurationCheck (text : qstr) (rule : DurationRule) : verdict :=
  let t := trimmed text in
  if isNil t then validationEmpty (durationEmpty rule)
  else match ParseDurationNs t with
       | None =>
           let bare := match indexOf cDot t with
                       | None => validationAllDigits t
                       | Some dot => validationAllDigits (take dot t) && validationAllDigits (drop (S dot) t)
                       end in
           if bare then Some (MTr (u "Add a unit: write %1ms or %1s, not %1.") [MText t])
           else Some (tr0 "Not a duration. Use a number followed by a unit (ns, us, ms, s, m, h or d), for example 500ms or 1m30s.")
       | Some ns =>
           if negb (allowNegative rule) && (ns <? 0) then Some (tr0 "Must not be negative.")
           else if wholeSeconds rule && negb (Z.rem ns 1000000000 =? 0)
           then Some (tr0 "Use whole seconds, for example 30s.")
           else match minNs rule with
                | Some lo =>
                    if ns <? lo then Some (MTr (u "Must be at least %1.") [MText (validationFormatDuration lo)])
                    else match maxNs rule with
                         | Some hi => if hi <? ns then Some (MTr (u "Must be at most %1.") [MText (validationFormatDuration hi)]) else None
                         | None => None
                         end
                | None =>
                    match maxNs rule with
                    | Some hi => if hi <? ns then Some (MTr (u "Must be at most %1.") [MText (validationFormatDuration hi)]) else None
                    | None => None
                    end
                end
       end.

End Duration.

(** ** Sizes *)

Definition memoryUnits : list (qstr * Z) :=
  [(u "b", 1); (u "k", 2 ^ 10); (u "kb", 2 ^ 10); (u "m", 2 ^ 20); (u "mb", 2 ^ 20); (u "g", 2 ^ 30);
   (u "gb", 2 ^ 30); (u "t", 2 ^ 40); (u "tb", 2 ^ 40); (u "p", 2 ^ 50); (u "pb", 2 ^ 50); (u "e", 2 ^ 60); (u "eb", 2 ^ 60)].

Definition validationMemoryUnit (unit : qstr) : Z := findUnit memoryUnits unit.

(** toULongLong on a run of digits: fails when the number does not fit. *)
Definition toULongLong (s : qstr) : option Z :=
  let v := digitsValue s in if v <=? max_u64 then Some v else None.

Fixpoint spanDigits (s : qstr) : qstr * qstr :=
  match s with
  | c :: s' => if validationDigit c then let (a, b) := spanDigits s' in (c :: a, b) else ([], s)
  | [] => ([], [])
  end.

Section Memory.
Context {Q : QtChar} {Lw : QtLower}.

Definition MemoryBytes (text : qstr) (allowBareInteger : bool) (empty : EmptyRule) : verdict :=
  let t := trimmed text in
  let wholeNumber := tr0 "Use a whole number before the unit." in
  let tooLarge := tr0 "The number is too large." in
  if isNil t then validationEmpty empty
  else
    let (num, rest) := spanDigits t in
    match rest with
    | [] =>
        if negb allowBareInteger then Some (tr0 "Add a unit, for example 8m or 512kb.")
        else match validationParseInt t with Some _ => None | None => Some tooLarge end
    | c :: after =>
        let digitNext := match after with d :: _ => validationDigit d | [] => false end in
        if isNil num then
          if (c =? cDash) && digitNext then Some (tr0 "Must not be negative.")
          else if (c =? cDot) && digitNext then Some wholeNumber
          else Some (tr0 "Not a size. Use a whole number followed by a unit, for example 8m or 512kb.")
        else if ((c =? cDot) || (c =? cComma)) && digitNext then Some wholeNumber
        else match toULongLong num with
             | None => Some tooLarge
             | Some value =>
                 let unit := trimmed rest in
                 let unitValue := validationMemoryUnit (toLower unit) in
                 if unitValue =? 0 then
                   Some (MTr (uq "Unknown unit `%1`. Use b, k, kb, m, mb, g or gb.") [MText (validationShort unit)])
                 else if max_u64 / unitValue <? value then Some tooLarge
                 else None
             end
    end.

End Memory.
