(* ===== verification/ValidationNumFacts.v ===== *)
(** What the number checks accept, stated on unbounded integers, and the round
    trip of durations. *)
From stdpp Require Import base list strings.
From Stdlib Require Import ZArith Lia Bool SpecFloat.
From S2P Require Import Prelude ValidationNum.

(** ** Digits *)

Definition foldDigits (v : Z) (s : qstr) : Z := fold_left (fun v c => v * 10 + (c - 48)) s v.

Lemma foldDigits_cons v c s : foldDigits v (c :: s) = foldDigits (v * 10 + (c - 48)) s.
Proof. reflexivity. Qed.

Lemma foldDigits_app v s t : foldDigits v (s ++ t) = foldDigits (foldDigits v s) t.
Proof. apply fold_left_app. Qed.

Lemma foldDigits_lower v s : forallb validationDigit s = true -> 0 <= v -> v * 10 ^ zlen s <= foldDigits v s.
Proof.
  revert v. induction s as [|c s IH]; intros v Hd Hv.
  - unfold zlen. cbn. lia.
  - cbn [forallb] in Hd. apply andb_true_iff in Hd as [Hc Hd]. unfold validationDigit in Hc. zbool.
    rewrite foldDigits_cons. specialize (IH (v * 10 + (c - 48)) Hd ltac:(lia)).
    rewrite zlen_cons, Z.pow_add_r by (pose proof (zlen_nonneg s); lia).
    pose proof (Z.pow_pos_nonneg 10 (zlen s) ltac:(lia) (zlen_nonneg s)).
    change (10 ^ 1) with 10. nia.
Qed.

Lemma foldDigits_ge v s : forallb validationDigit s = true -> 0 <= v -> v <= foldDigits v s.
Proof.
  intros Hd Hv. pose proof (foldDigits_lower v s Hd Hv).
  pose proof (Z.pow_pos_nonneg 10 (zlen s) ltac:(lia) (zlen_nonneg s)). nia.
Qed.

Lemma number_validDigits n : 0 <= n -> Forall (fun c => 48 <= c <= 57) (number n).
Proof.
  intros Hn. rewrite number_digits by done. apply digits_forall; [lia|done|].
  intros d Hd. unfold digitChar. break_if; zbool; lia.
Qed.

Lemma number_allDigits n : 0 <= n -> forallb validationDigit (number n) = true.
Proof.
  intros Hn. apply forallb_forall. intros c Hc.
  pose proof (number_validDigits n Hn) as H. rewrite Forall_forall in H.
  apply list_elem_of_In, H in Hc. unfold validationDigit. apply andb_true_iff. lia.
Qed.

Lemma number_value n : 0 <= n -> foldDigits 0 (number n) = n.
Proof.
  intros Hn. unfold foldDigits. rewrite number_digits by done. apply digits_fold; [lia|done|].
  intros a d Ha Hd Hle. unfold digitChar. break_if; zbool; lia.
Qed.

(** ** Integers *)

Lemma parseIntLoop_spec limit v s :
  9 <= limit <= 2 ^ 63 -> 0 <= v <= limit ->
  parseIntLoop limit v s =
    if forallb validationDigit s
    then if foldDigits v s <=? limit then Some (foldDigits v s) else None
    else None.
Proof.
  intros Hl. revert v. induction s as [|c s IH]; intros v Hv; cbn [parseIntLoop forallb].
  - unfold foldDigits. cbn. by replace (v <=? limit) with true by lia.
  - destruct (validationDigit c) eqn:Ec; cbn [andb]; [|done]. cbv zeta.
    unfold validationDigit in Ec. zbool. rewrite foldDigits_cons.
    destruct ((limit - (c - 48)) / 10 <? v) eqn:E; cbn [negb]; zbool.
    + assert (limit < v * 10 + (c - 48)).
      { apply Z.div_lt_upper_bound in E || pose proof (Z.div_lt_upper_bound (limit - (c - 48)) 10 v).
        destruct (Z.le_gt_cases (v * 10 + (c - 48)) limit) as [Hle|]; [|lia].
        assert (v <= (limit - (c - 48)) / 10) by (apply Z.div_le_lower_bound; lia). lia. }
      destruct (forallb validationDigit s) eqn:Ed; [|done].
      pose proof (foldDigits_ge (v * 10 + (c - 48)) s Ed ltac:(lia)).
      by replace (foldDigits (v * 10 + (c - 48)) s <=? limit) with false by lia.
    + assert (v * 10 + (c - 48) <= limit).
      { pose proof (Z.mul_div_le (limit - (c - 48)) 10 ltac:(lia)). lia. }
      rewrite wrap64_small by lia. apply IH. lia.
Qed.

(** The integer a text writes, without bounds: an optional minus sign, digits. *)
Definition intValue (s : qstr) : option Z :=
  let neg := startsWithChar cDash s in
  let body := if neg then drop 1 s else s in
  if validationAllDigits body
  then Some (if neg then - foldDigits 0 body else foldDigits 0 body) else None.

(** [validationParseInt] reads exactly the texts of 64-bit integers: an
    optional minus sign and decimal digits whose value, over the unbounded
    integers, lies in the type's range; the value returned is that number. *)
Theorem validationParseInt_exact s :
  validationParseInt s =
    match intValue s with
    | Some v => if (min_i64 <=? v) && (v <=? max_i64) then Some v else None
    | None => None
    end.
Proof.
  unfold validationParseInt, intValue, validationAllDigits, min_i64, max_i64.
  destruct s as [|c s]; [done|]. cbn [startsWithChar drop].
  destruct (c =? cDash); cbn [isNil negb andb].
  - destruct s as [|d s]; [done|]. change (drop 0 (d :: s)) with (d :: s). cbn [isNil negb andb].
    rewrite parseIntLoop_spec by lia. destruct (forallb validationDigit (d :: s)) eqn:Ed; [|done].
    pose proof (foldDigits_ge 0 (d :: s) Ed ltac:(lia)). set (v := foldDigits 0 (d :: s)) in *.
    destruct (v <=? 2 ^ 63 - 1 + 1) eqn:E.
    + replace ((- 2 ^ 63 <=? - v) && (- v <=? 2 ^ 63 - 1)) with true by (symmetry; apply andb_true_iff; lia).
      destruct (v =? 2 ^ 63 - 1 + 1) eqn:E2; zbool; [|done]. f_equal. lia.
    + replace ((- 2 ^ 63 <=? - v) && (- v <=? 2 ^ 63 - 1)) with false; [done|].
      symmetry. apply andb_false_iff. left. apply Z.leb_gt. zbool. lia.
  - rewrite parseIntLoop_spec by lia. destruct (forallb validationDigit (c :: s)) eqn:Ed; [|done].
    pose proof (foldDigits_ge 0 (c :: s) Ed ltac:(lia)). set (v := foldDigits 0 (c :: s)) in *.
    replace (2 ^ 63 - 1 + 0) with (2 ^ 63 - 1) by lia.
    destruct (v <=? 2 ^ 63 - 1) eqn:E.
    + by replace (- 2 ^ 63 <=? v) with true by lia.
    + by rewrite andb_false_r.
Qed.

(** ** Ports *)

Lemma skipZeros_value s : foldDigits 0 (skipZeros s) = foldDigits 0 s.
Proof.
  induction s as [|c s IH]; [done|]. cbn [skipZeros]. destruct s as [|d s]; [done|].
  destruct (c =? c0) eqn:E; [|done]. zbool. subst. rewrite IH. done.
Qed.

Lemma skipZeros_digits s : forallb validationDigit s = true -> forallb validationDigit (skipZeros s) = true.
Proof.
  induction s as [|c s IH]; [done|]. intros H. cbn [skipZeros]. destruct s as [|d s]; [done|].
  destruct (c =? c0); [|done]. apply IH. cbn [forallb] in H. by apply andb_true_iff in H as [_ H].
Qed.

Lemma skipZeros_head s : (length (skipZeros s) <= 1)%nat \/ exists c s', skipZeros s = c :: s' /\ c <> 48.
Proof.
  induction s as [|c s IH]; [left; cbn; lia|]. cbn [skipZeros]. destruct s as [|d s]; [left; cbn; lia|].
  destruct (c =? c0) eqn:E; [done|]. right. zbool. eauto.
Qed.

(** The port a text writes. *)
Definition portNumber (s : qstr) : option Z :=
  if validationAllDigits s && (foldDigits 0 s <=? 65535) then Some (foldDigits 0 s) else None.

Lemma validationParseUint16_exact s : validationParseUint16 s = portNumber s.
Proof.
  unfold validationParseUint16, portNumber. destruct (validationAllDigits s) eqn:E; [|done].
  unfold validationAllDigits in E. apply andb_true_iff in E as [_ E]. cbn [andb]. cbv zeta.
  change (digitsValue (skipZeros s)) with (foldDigits 0 (skipZeros s)).
  pose proof (skipZeros_value s) as Hv. pose proof (skipZeros_digits s E) as Hd.
  destruct (5 <? zlen (skipZeros s)) eqn:El; cbn [negb].
  - zbool. assert (65535 < foldDigits 0 s); [|by replace (foldDigits 0 s <=? 65535) with false by lia].
    destruct (skipZeros_head s) as [H|(c & s' & Hs & Hc)]; [unfold zlen in El; lia|].
    rewrite <- Hv, Hs. rewrite Hs in Hd, El. cbn [forallb] in Hd. apply andb_true_iff in Hd as [Hc2 Hd].
    unfold validationDigit in Hc2. zbool. rewrite foldDigits_cons. rewrite zlen_cons in El.
    pose proof (foldDigits_lower (0 * 10 + (c - 48)) s' Hd ltac:(lia)) as Hlow.
    assert (10 ^ 5 <= 10 ^ zlen s') by (apply Z.pow_le_mono_r; lia). nia.
  - rewrite Hv. destruct (65535 <? foldDigits 0 s) eqn:E2; cbn [negb]; zbool.
    + by replace (foldDigits 0 s <=? 65535) with false by lia.
    + by replace (foldDigits 0 s <=? 65535) with true by lia.
Qed.

Section PortRanges.
Context {Q : QtChar}.

(** The range a text writes under a style. *)
Definition sideValue (style : PortRangeStyle) (side : qstr) (default : Z) : option Z :=
  if isNil side then if allowOpenEnds style then Some default else None else portNumber side.

Definition sepChar (style : PortRangeStyle) : Z := if isColon (sep style) then cColon else cDash.

Definition rangeValue (style : PortRangeStyle) (t : qstr) : option (Z * Z) :=
  match indexOf (sepChar style) t with
  | None => if allowSingle style then let? v := portNumber t in Some (v, v) else None
  | Some i =>
      let? a := sideValue style (take i t) 0 in
      let? b := sideValue style (drop (S i) t) 65535 in
      Some (a, b)
  end.

Lemma rangeSide_value style side default :
  match rangeSide style side default with inl _ => sideValue style side default = None
                                         | inr v => sideValue style side default = Some v end.
Proof.
  unfold rangeSide, sideValue. destruct (isNil side).
  - by destruct (allowOpenEnds style).
  - rewrite validationParseUint16_exact. by destruct (portNumber side).
Qed.

(** [PortRange] accepts exactly the empty text and the texts that write a
    range of ports under the style: one separator, each side a number up to 65535
    (leading zeros allowed) or, with open ends, empty; a single port only where
    allowed; in order where the order is checked. [PortRangeOrder] complains
    exactly about the well-formed ranges that are out of order. *)
Theorem PortRange_exact text style :
  let t := trimmed text in
  (PortRange text style = None <->
   t = [] \/ exists a b, rangeValue style t = Some (a, b) /\ (checkOrder style = true -> a <= b)) /\
  (PortRangeOrder text style <> None <-> t <> [] /\ exists a b, rangeValue style t = Some (a, b) /\ b < a).
Proof.
  cbv zeta.
  assert (Hmain : forall st, PortRange text st = None <->
     trimmed text = [] \/ exists a b, rangeValue st (trimmed text) = Some (a, b) /\ (checkOrder st = true -> a <= b)).
  { intros st. unfold PortRange, rangeValue. destruct (trimmed text) as [|c t]; [cbn; tauto|].
    set (s := c :: t). change (isNil s) with false. cbv zeta iota. fold (sepChar st).
    assert (Hs : s <> []) by done. clearbody s.
    destruct (indexOf (sepChar st) s) as [i|].
    - pose proof (rangeSide_value st (take i s) 0) as Ha.
      destruct (rangeSide st (take i s) 0) as [m|a]; rewrite Ha.
      { split; [done|]. intros [?|(a & b & ? & _)]; done. }
      pose proof (rangeSide_value st (drop (S i) s) 65535) as Hb.
      destruct (rangeSide st (drop (S i) s) 65535) as [m|b]; rewrite Hb.
      { split; [done|]. intros [?|(a' & b & ? & _)]; done. }
      destruct (checkOrder st && (b <? a)) eqn:E.
      + split; [done|]. intros [?|(a' & b' & [= <- <-] & Ho)]; [done|]. zbool.
        match goal with H : checkOrder st = true |- _ => specialize (Ho H) end. lia.
      + split; [|done]. intros _. right. exists a, b. split; [done|]. intros Hc. rewrite Hc in E. cbn in E. zbool. lia.
    - rewrite validationParseUint16_exact. destruct (portNumber s) as [v|].
      + destruct (allowSingle st); split; try done.
        * intros _. right. exists v, v. split; [done|]. lia.
        * intros [?|(a & b & ? & _)]; done.
      + split; [done|]. intros [?|(a & b & H & _)]; [done|]. by destruct (allowSingle st). }
  split; [apply Hmain|]. unfold PortRangeOrder.
  assert (Hr : forall b, rangeValue (withCheckOrder b style) (trimmed text) = rangeValue style (trimmed text)) by done.
  pose proof (Hmain (withCheckOrder false style)) as H1. pose proof (Hmain (withCheckOrder true style)) as H2.
  rewrite Hr in H1, H2. cbn [checkOrder withCheckOrder] in H1, H2.
  destruct (PortRange text (withCheckOrder false style)) as [m|].
  - split; [done|]. intros (Hne & a & b & Hv & Hlt). exfalso. assert (Some m = None); [|done].
    apply H1. right. exists a, b. done.
  - destruct (proj1 H1 eq_refl) as [He|(a & b & Hv & _)].
    + split; [|tauto]. intros Hn. exfalso. apply Hn, H2. by left.
    + rewrite H2, Hv. split.
      * intros Hn. split; [intros He; apply Hn; by left|]. exists a, b. split; [done|].
        destruct (Z.lt_ge_cases b a); [done|]. exfalso. apply Hn. right. exists a, b. done.
      * intros (Hne & a1 & b1 & [= <- <-] & Hlt) [?|(a2 & b2 & [= <- <-] & Hle)]; [done|]. specialize (Hle eq_refl). lia.
Qed.

End PortRanges.

(** ** Durations *)

(** Text that a number stops at. *)
Definition noDigitHead (s : list Z) : Prop :=
  match s with [] => True | c :: _ => validationDigit c = false end.

Lemma durationInt_digits v ds rest :
  forallb validationDigit ds = true -> 0 <= v -> foldDigits v ds <= kLimit -> noDigitHead rest ->
  durationInt v (ds ++ rest) = Some (foldDigits v ds, rest).
Proof.
  revert v. induction ds as [|c ds IH]; intros v Hd Hv Hle Hr; cbn [app].
  - destruct rest as [|c r]; [done|]. cbn [durationInt]. cbn in Hr. by rewrite Hr.
  - cbn [forallb] in Hd. apply andb_true_iff in Hd as [Hc Hd]. cbn [durationInt]. rewrite Hc.
    rewrite foldDigits_cons in *. unfold validationDigit in Hc. zbool.
    pose proof (foldDigits_ge (v * 10 + (c - 48)) ds Hd ltac:(lia)). unfold kLimit in *.
    assert (v <= 2 ^ 63 / 10) by (apply Z.div_le_lower_bound; lia).
    replace (2 ^ 63 / 10 <? v) with false by (symmetry; apply Z.ltb_ge; lia). cbn [negb]. cbv zeta.
    rewrite wrap64_small by lia.
    replace (2 ^ 63 <? v * 10 + (c - 48)) with false by (symmetry; apply Z.ltb_ge; lia). cbn [negb].
    apply IH; try done; lia.
Qed.

(** Unit names: neither digits nor points. *)
Definition plainName (name : list Z) : Prop :=
  name <> [] /\ Forall (fun c => validationDigit c = false /\ c <> cDot) name.

Lemma spanUnit_name name rest :
  plainName name -> (rest = [] \/ exists c r, rest = c :: r /\ validationDigit c = true) ->
  spanUnit (name ++ rest) = (name, rest).
Proof.
  intros [_ Hn] Hr. induction Hn as [|c name [Hd Hc] _ IH]; cbn [app].
  - destruct Hr as [->|(c & r & -> & Hc)]; [done|]. cbn. by rewrite Hc, andb_false_r.
  - cbn [spanUnit]. apply Z.eqb_neq in Hc. rewrite Hc, Hd. cbn [negb andb]. by rewrite IH.
Qed.

Lemma durationSegment_number q name unit rest :
  1 <= q -> plainName name -> validationDurationUnit name = unit -> 0 < unit -> q * unit <= kLimit ->
  (rest = [] \/ exists c r, rest = c :: r /\ validationDigit c = true) ->
  durationSegment (number q ++ name ++ rest) = Some (q * unit, rest).
Proof.
  intros Hq Hn Hu Hpos Hle Hr. unfold durationSegment.
  assert (Hhead : match number q ++ name ++ rest with
    | c :: _ => (c =? cDot) || validationDigit c | [] => false end = true).
  { pose proof (number_allDigits q ltac:(lia)) as Hd. pose proof (digits_nonempty 10 q ltac:(lia) ltac:(lia)) as Hne.
    rewrite <- number_digits in Hne by lia. destruct (number q) as [|c s]; [done|]. cbn.
    cbn in Hd. apply andb_true_iff in Hd as [-> _]. apply orb_true_r. }
  rewrite Hhead. clear Hhead. unfold kLimit in *.
  rewrite durationInt_digits.
  2: { apply number_allDigits. lia. }
  2: { lia. }
  2: { rewrite number_value by lia. unfold kLimit. nia. }
  2: { destruct Hn as [Hne Hn]. destruct Hn as [|c name [Hd _] _]; [done|]. exact Hd. }
  rewrite number_value by lia. cbn [option_map]. cbv beta iota zeta.
  pose proof (digits_nonempty 10 q ltac:(lia) ltac:(lia)) as Hne2. rewrite <- number_digits in Hne2 by lia.
  assert (Hpre : (length (name ++ rest) <? length (number q ++ name ++ rest))%nat = true).
  { apply Nat.ltb_lt. rewrite (length_app (number q)). destruct (number q); [done|]. cbn. lia. }
  rewrite Hpre. destruct Hn as [Hne Hn].
  assert (Hmatch : exists c s, name ++ rest = c :: s /\ (c =? cDot) = false).
  { destruct Hn as [|c name [_ Hc] _]; [done|]. exists c, (name ++ rest). split; [done|]. by apply Z.eqb_neq. }
  destruct Hmatch as (c & s & Hcs & Hdot). rewrite Hcs, Hdot. cbn [orb]. rewrite <- Hcs.
  rewrite (spanUnit_name name rest (conj Hne Hn) Hr).
  destruct name as [|n0 name']; [done|]. cbn [isNil negb]. rewrite Hu.
  replace (unit =? 0) with false by lia. cbn [negb].
  assert (q <= 2 ^ 63 / unit) by (apply Z.div_le_lower_bound; lia).
  replace (2 ^ 63 / unit <? q) with false by (symmetry; apply Z.ltb_ge; lia). cbn [negb]. change (0 <? 0) with false. cbv iota.
  by rewrite wrap64_small by nia.
Qed.

(** A table of units that writes every number: names known to the parser,
    largest first, nanoseconds last. *)
Fixpoint goodUnits (units : list (Z * qstr)) : Prop :=
  match units with
  | [] => True
  | (unit, name) :: us =>
      0 < unit /\ plainName name /\ validationDurationUnit name = unit /\
      (us = [] -> unit = 1) /\ goodUnits us
  end.

Lemma formatUnitsLoop_head units v :
  0 <= v -> goodUnits units ->
  formatUnitsLoop units v = [] \/
  exists c r, formatUnitsLoop units v = c :: r /\ validationDigit c = true.
Proof.
  revert v. induction units as [|[unit name] us IH]; intros v Hv Hu; cbn [formatUnitsLoop]; [by left|].
  destruct Hu as (Hpos & _ & _ & _ & Hus). destruct (v / unit =? 0) eqn:E; cbn [negb]; [by apply IH|].
  right. assert (0 <= v / unit) by (apply Z.div_pos; lia). zbool.
  pose proof (number_allDigits (v / unit) ltac:(lia)) as Hd.
  pose proof (digits_nonempty 10 (v / unit) ltac:(lia) ltac:(lia)) as Hne. rewrite <- number_digits in Hne by lia.
  destruct (number (v / unit)) as [|c s]; [done|]. exists c, (s ++ name ++ formatUnitsLoop us (v mod unit)).
  split; [done|]. cbn in Hd. by apply andb_true_iff in Hd as [Hd _].
Qed.

Lemma durationLoop_format units v d fuel :
  0 <= v -> 0 <= d -> d + v <= kLimit -> goodUnits units -> (units = [] -> v = 0) ->
  (length (formatUnitsLoop units v) <= fuel)%nat ->
  durationLoop fuel d (formatUnitsLoop units v) = Some (d + v).
Proof.
  revert v d fuel. induction units as [|[unit name] us IH]; intros v d fuel Hv Hd Hle Hu Hnil Hf; cbn [formatUnitsLoop] in *.
  - rewrite (Hnil eq_refl). destruct fuel; cbn; f_equal; lia.
  - destruct Hu as (Hpos & Hn & Hun & Hlast & Hus).
    pose proof (Z.div_mod v unit ltac:(lia)) as Hdm. pose proof (Z.mod_pos_bound v unit Hpos) as Hm.
    assert (0 <= v / unit) by (apply Z.div_pos; lia).
    assert (Hnil' : us = [] -> v mod unit = 0).
    { intros Hz. rewrite (Hlast Hz). apply Z.mod_1_r. }
    destruct (v / unit =? 0) eqn:E; cbn [negb] in *; zbool.
    + apply IH; try done. intros Hz. rewrite E in Hdm. specialize (Hnil' Hz). lia.
    + set (rest := formatUnitsLoop us (v mod unit)) in *.
      pose proof (digits_nonempty 10 (v / unit) ltac:(lia) ltac:(lia)) as Hne. rewrite <- number_digits in Hne by lia.
      assert (Hseg : durationSegment (number (v / unit) ++ name ++ rest) = Some (v / unit * unit, rest)).
      { apply durationSegment_number; try done; [lia|unfold kLimit in *; nia|]. apply formatUnitsLoop_head; [lia|done]. }
      rewrite !length_app in Hf. destruct (number (v / unit)) as [|c s] eqn:En; [done|].
      destruct fuel as [|fuel]; [cbn in Hf; lia|]. cbn [app durationLoop]. change (c :: s ++ name ++ rest) with ((c :: s) ++ name ++ rest).
      rewrite Hseg. cbn [fst snd]. unfold kLimit in *. rewrite wrap64_small by nia.
      replace (2 ^ 63 <? d + v / unit * unit) with false by (symmetry; apply Z.ltb_ge; nia). cbn [negb].
      unfold rest. rewrite IH; try done; try nia; [f_equal; lia|]. cbn in Hf. fold rest. lia.
Qed.

Lemma formatUnits_good : goodUnits formatUnits.
Proof.
  assert (Hp : forall s, s <> [] -> forallb (fun c => negb (validationDigit c) && negb (c =? cDot)) s = true -> plainName s).
  { intros s Hs H. split; [done|]. apply Forall_forall. intros c Hc. rewrite forallb_forall in H.
    apply list_elem_of_In, H in Hc. zbool. done. }
  cbn [goodUnits formatUnits].
  repeat (split; [lia|split; [apply Hp; [done|reflexivity]|split; [reflexivity|split; [done|]]]]). exact I.
Qed.

(** Characters of a formatted duration: digits, lower-case letters, the sign. *)
Definition isDurationChar (c : Z) : Prop := 48 <= c <= 57 \/ 97 <= c <= 122 \/ c = cDash.

Lemma formatUnitsLoop_chars units v :
  0 <= v -> Forall (fun un => 0 < fst un /\ Forall isDurationChar (snd un)) units ->
  Forall isDurationChar (formatUnitsLoop units v).
Proof.
  intros Hv H. revert v Hv. induction H as [|[unit name] us [Hpos Hn] _ IH]; intros v Hv; cbn [formatUnitsLoop fst snd] in *; [constructor|].
  pose proof (Z.mod_pos_bound v unit Hpos). assert (0 <= v / unit) by (apply Z.div_pos; lia).
  destruct (negb _); [|by apply IH].
  apply Forall_app. split; [|apply Forall_app; split; [done|apply IH; lia]].
  eapply Forall_impl; [apply number_validDigits; lia|]. intros c Hc. by left.
Qed.

(** ** Whole numbers through a double *)

Lemma digits2_spec p : Zpos (digits2_pos p) = Z.log2 (Zpos p) + 1.
Proof.
  induction p as [p IH|p IH|]; cbn [digits2_pos]; rewrite ?Pos2Z.inj_succ, ?IH; [| |done].
  - rewrite (Pos2Z.inj_xI p), Z.log2_succ_double by lia. lia.
  - rewrite (Pos2Z.inj_xO p), Z.log2_double by lia. lia.
Qed.

Lemma iter_xO p k : Zpos (Pos.iter xO p k) = Zpos p * 2 ^ Zpos k.
Proof.
  revert p. induction k as [|k IH] using Pos.peano_ind; intros p; [cbn; lia|].
  rewrite Pos.iter_succ. rewrite (Pos2Z.inj_xO (Pos.iter xO p k)), IH, Pos2Z.inj_succ, Z.pow_succ_r by lia. lia.
Qed.

Lemma toDouble_small n : 0 < n < 2 ^ 53 -> exists m e, toDouble n = S754_finite false m e /\ e <= 0 /\ Zpos m = n * 2 ^ (- e).
Proof.
  intros Hn. destruct n as [|p|]; try lia. unfold toDouble, binary_normalize, binary_round.
  assert (Hlog : Z.log2 (Zpos p) < 53) by (apply Z.log2_lt_pow2; lia).
  pose proof (digits2_spec p) as Hd. pose proof (Z.log2_nonneg (Zpos p)).
  set (d := Zpos (digits2_pos p)) in *.
  assert (Hfexp : forall e, -1000 <= e -> fexp 53 1024 e = e - 53).
  { intros e He. unfold fexp, emin. lia. }
  rewrite Z.add_0_r, (Hfexp d) by lia. unfold shl_align. rewrite Z.sub_0_r.
  assert (Haux : forall m e, e = d - 53 -> Zpos (digits2_pos m) = 53 ->
    binary_round_aux 53 1024 false (Zpos m) e loc_Exact = S754_finite false m e).
  { intros m e -> Hm. unfold binary_round_aux, shr_fexp. cbn [Zdigits2]. rewrite Hm, Hfexp by lia.
    replace (53 + (d - 53) - 53 - (d - 53)) with 0 by lia. cbn [shr shr_record_of_loc shr_m loc_of_shr_record round_nearest_even].
    cbn [Zdigits2]. rewrite Hm, Hfexp by lia. replace (53 + (d - 53) - 53 - (d - 53)) with 0 by lia.
    cbn [shr shr_record_of_loc shr_m]. by replace (d - 53 <=? 1024 - 53) with true by (symmetry; apply Z.leb_le; lia). }
  destruct (d - 53) as [|k|k] eqn:E; [|lia|].
  - exists p, 0. rewrite Haux by lia. split; [done|]. split; [lia|]. cbn. lia.
  - exists (Pos.iter xO p k), (Zneg k). rewrite Haux; [| lia|].
    + split; [done|]. split; [lia|]. by rewrite iter_xO.
    + rewrite digits2_spec, iter_xO, Z.log2_mul_pow2 by lia. lia.
Qed.

Lemma truncDouble_small n : 0 <= n < 2 ^ 53 -> truncDouble (toDouble n) = n /\ SFeqb (toDouble n) (toDouble n) = true.
Proof.
  intros Hn. destruct (decide (n = 0)) as [->|]; [done|].
  destruct (toDouble_small n ltac:(lia)) as (m & e & -> & He & Hm). split.
  - unfold truncDouble. destruct (0 <=? e) eqn:E; zbool.
    + assert (e = 0) as -> by lia. rewrite Z.shiftl_0_r, Hm. change (2 ^ (- 0)) with 1. lia.
    + rewrite Z.shiftr_div_pow2, Hm by lia. apply Z.div_mul. apply Z.pow_nonzero; lia.
  - unfold SFeqb, SFcompare. by rewrite Z.compare_refl, Pos.compare_cont_refl.
Qed.

Section DurationRoundTrip.
Context {Q : QtChar} {QL : QtCharLaws Q} {U : Utf8} {UL : Utf8Laws U}.

Lemma formatUnits_chars v : 0 <= v -> Forall isDurationChar (formatUnitsLoop formatUnits v).
Proof.
  intros Hv. apply formatUnitsLoop_chars; [done|]. unfold formatUnits.
  repeat (apply List.Forall_cons; [split; [cbn; lia|cbn [snd]; vm_compute;
    repeat (apply List.Forall_cons; [right; left; split; discriminate|]); apply List.Forall_nil]|]).
  apply List.Forall_nil.
Qed.

Lemma durationChar_plain s : Forall isDurationChar s -> toUtf8 (trimmed s) = s.
Proof.
  intros H. rewrite trimmed_no_space.
  - apply toUtf8_ascii. eapply Forall_impl; [exact H|]. unfold isDurationChar, isAscii. lia.
  - eapply Forall_impl; [exact H|]. unfold isDurationChar. intros c Hc. rewrite isSpace_ascii by lia. lia.
Qed.

(** Every 64-bit number of nanoseconds, written by [validationFormatDuration]
    (as the bound shown in an error message is), reads back as that number. *)
Theorem Duration_roundtrip ns :
  min_i64 <= ns <= max_i64 -> ParseDurationNs (validationFormatDuration ns) = Some ns.
Proof.
  unfold min_i64, max_i64. intros Hns. unfold ParseDurationNs, validationFormatDuration.
  destruct (ns =? 0) eqn:E0; zbool.
  { subst. rewrite durationChar_plain; [reflexivity|].
    apply List.Forall_cons; [left; vm_compute; split; discriminate|]. apply List.Forall_cons; [right; left; vm_compute; split; discriminate|]. apply List.Forall_nil. }
  assert (Hloop : forall v, 0 < v <= kLimit ->
     exists c r, formatUnitsLoop formatUnits v = c :: r /\ validationDigit c = true /\ r <> [] /\
       durationLoop (length (c :: r)) 0 (c :: r) = Some v).
  { intros v Hv. destruct (formatUnitsLoop_head formatUnits v ltac:(lia) formatUnits_good) as [Hn|(c & r & Hc & Hd)].
    - pose proof (durationLoop_format formatUnits v 0 0 ltac:(lia) ltac:(lia) ltac:(lia) formatUnits_good ltac:(done)) as H.
      rewrite Hn in H. specialize (H ltac:(cbn; lia)). cbn [durationLoop] in H. injection H as H. lia.
    - exists c, r. split; [done|]. split; [done|]. rewrite <- Hc.
      rewrite durationLoop_format by (lia || done || apply formatUnits_good). split; [|f_equal; lia].
      intros ->. pose proof (durationLoop_format formatUnits v 0 1 ltac:(lia) ltac:(lia) ltac:(lia) formatUnits_good ltac:(done)) as H.
      rewrite Hc in H. specialize (H ltac:(cbn; lia)). cbn [durationLoop] in H. unfold durationSegment in H.
      rewrite Hd, orb_true_r in H. unfold validationDigit in Hd. zbool.
      cbn [durationInt] in H. unfold validationDigit in H.
      replace ((48 <=? c) && (c <=? 57)) with true in H by (symmetry; apply andb_true_iff; lia).
      change (kLimit / 10 <? 0) with false in H. cbn [negb] in H. rewrite wrap64_small in H by lia.
      replace (kLimit <? 0 * 10 + (c - 48)) with false in H by (symmetry; apply Z.ltb_ge; unfold kLimit; lia).
      cbn in H. discriminate. }
  destruct (ns <? 0) eqn:En; zbool.
  - assert (Hw : wrap64 (0 - wrap64 ns) = - ns).
    { unfold wrap64. rewrite Zminus_mod_idemp_r. apply Z.mod_small. lia. }
    rewrite Hw. destruct (Hloop (- ns) ltac:(unfold kLimit; lia)) as (c & r & Hc & Hd & Hr & Hv).
    assert (Hch : Forall isDurationChar (u "-" ++ formatUnitsLoop formatUnits (- ns))).
    { apply Forall_app. split; [|apply formatUnits_chars; lia]. apply List.Forall_cons; [by right; right|apply List.Forall_nil]. }
    rewrite durationChar_plain by done. unfold parseDurationBytes. rewrite Hc. clear Hch.
    change (u "-" ++ c :: r) with (cDash :: c :: r). cbn [startsWithChar]. change (cDash =? cDash) with true.
    cbn [orb]. change (drop 1 (cDash :: c :: r)) with (c :: r). cbv zeta.
    assert (eqStr (c :: r) [c0] = false) as -> by (cbn; destruct r; [done|]; apply andb_false_r).
    cbn [isNil negb]. rewrite Hv. unfold kLimit.
    destruct (- ns =? 2 ^ 63) eqn:E; zbool; f_equal; unfold min_i64; lia.
  - assert (Hw : wrap64 ns = ns) by (apply wrap64_small; lia).
    rewrite Hw. destruct (Hloop ns ltac:(unfold kLimit; lia)) as (c & r & Hc & Hd & Hr & Hv).
    rewrite durationChar_plain by (apply formatUnits_chars; lia). unfold parseDurationBytes. rewrite Hc.
    unfold validationDigit in Hd. zbool. cbn [startsWithChar].
    replace (c =? cDash) with false by lia. replace (c =? 43) with false by lia. cbn [orb]. cbv zeta.
    assert (eqStr (c :: r) [c0] = false) as -> by (cbn; destruct r; [done|]; apply andb_false_r).
    cbn [isNil negb]. rewrite Hv. unfold kLimit.
    destruct (2 ^ 63 - 1 <? ns) eqn:E; zbool; [lia|done].
Qed.

End DurationRoundTrip.

Lemma Duration_roundtrip_witness :
  ParseDurationNs (validationFormatDuration min_i64) = Some min_i64 /\
  validationFormatDuration 5400000000001 = u "1h30m1ns".
Proof.
  split; [|vm_compute; reflexivity]. apply Duration_roundtrip. unfold min_i64, max_i64. lia.
Defined.

(** As in Go's time.ParseDuration, two segments of 2^63 ns each wrap the 64-bit
    sum: the text is read as zero. *)
Example duration_sum_wraps :
  ParseDurationNs (u "9223372036854775808ns9223372036854775808ns") = Some 0.
Proof. vm_compute. reflexivity. Qed.
