(* ===== verification/ValidationNet.v ===== *)
(** Address, host and URL checks: src/src/global/Validation.cpp.

    The address grammars follow Go's netip, as the code's comments say; they are
    separate from the scanner's parser of src/src/scanner/IpListParse.cpp.  An
    index into the text is a natural number, -1 an absent option. *)
From stdpp Require Import base list strings.
From Stdlib Require Import ZArith Lia Bool.
From S2P Require Import Prelude ValidationNum.

(** ** Addresses *)

Inductive ValidationIpKind := IpInvalid | IpV4 | IpV6.

Record ValidationIp := mkIp { ipKind : ValidationIpKind; ipZoned : bool }.

Inductive Family := FamilyAny | FamilyV4 | FamilyV6.

(** Go netip parseIPv4Fields: the loop over the characters. [prevDot] says
    whether the character before was a point, [first] whether there is none. *)
Fixpoint ipv4Loop (first prevDot : bool) (val pos digLen : Z) (s : qstr) : bool :=
  match s with
  | [] => pos =? 3
  | c :: s' =>
      if validationDigit c then
        if (digLen =? 1) && (val =? 0) then false
        else
          let val := val * 10 + (c - 48) in
          if 255 <? val then false else ipv4Loop false false val pos (digLen + 1) s'
      else if c =? cDot then
        if first || isNil s' || prevDot then false
        else if pos =? 3 then false
        else ipv4Loop false true 0 (pos + 1) 0 s'
      else false
  end.

Definition validationIpv4Fields (s : qstr) : bool := ipv4Loop true false 0 0 0 s.

(** The hexadecimal digits of one group: the value and how many, [None] when
    there are more than four. The count tested is the one before the digit. *)
Fixpoint hexGroup (off acc : Z) (s : qstr) : option (Z * Z * qstr) :=
  match s with
  | c :: s' =>
      if validationHexDigit c then
        let acc := wrap32 (Z.shiftl acc 4 + (if c <=? 57 then c - 48 else Z.lor c 32 - 97 + 10)) in
        if (3 <? off) || (65535 <? acc) then None else hexGroup (off + 1) acc s'
      else Some (off, acc, s)
  | [] => Some (off, acc, s)
  end.

(** The loop over the groups: [i] bytes read, [ellipsis] where the double colon
    stood (-1: none). The result is the state the loop ends in: the text left,
    the bytes read and the ellipsis. Every round takes a character. *)
Fixpoint ipv6Loop (fuel : nat) (ellipsis i : Z) (s : qstr) : option (qstr * Z * Z) :=
  match fuel with
  | O => None
  | S fuel' =>
      if negb (i <? 16) then Some (s, i, ellipsis)
      else
        let? g := hexGroup 0 0 s in
        let '(off, _, rest) := g in
        assert? negb (off =? 0) in
        if startsWithChar cDot rest then
          assert? negb ((ellipsis <? 0) && negb (i =? 12)) in
          assert? negb (16 <? i + 4) in
          assert? validationIpv4Fields s in
          Some ([], i + 4, ellipsis)
        else
          let i := i + 2 in
          match rest with
          | [] => Some ([], i, ellipsis)
          | c :: rest1 =>
              assert? (c =? cColon) && negb (isNil rest1) in
              match rest1 with
              | d :: rest2 =>
                  if d =? cColon then
                    assert? negb (0 <=? ellipsis) in
                    if isNil rest2 then Some ([], i, i) else ipv6Loop fuel' i i rest2
                  else ipv6Loop fuel' ellipsis i rest1
              | [] => None
              end
          end
  end.

(** Go netip parseIPv6: whether the text is an address, and whether it is zoned. *)
Definition validationIpv6 (text : qstr) : bool * bool :=
  let '(s, zoned, badZone) :=
    match indexOf cPercent text with
    | Some pct => (take pct text, negb (isNil (drop (S pct) text)), isNil (drop (S pct) text))
    | None => (text, false, false)
    end in
  if badZone then (false, false)
  else
    let '(ellipsis, body) := if startsWith [cColon; cColon] s then (0, drop 2 s) else (-1, s) in
    if (0 <=? ellipsis) && isNil body then (true, zoned)
    else match ipv6Loop (S (length s)) ellipsis 0 body with
         | Some (rest, i, e) =>
             (if negb (isNil rest) then false else if i <? 16 then 0 <=? e else e <? 0, zoned)
         | None => (false, zoned)
         end.

(** Go netip.ParseAddr dispatches on the first point or colon. *)
Fixpoint parseIpLoop (s rest : qstr) : ValidationIp :=
  match rest with
  | [] => mkIp IpInvalid false
  | c :: rest' =>
      if c =? cDot then mkIp (if validationIpv4Fields s then IpV4 else IpInvalid) false
      else if c =? cColon then
        let (ok, zoned) := validationIpv6 s in mkIp (if ok then IpV6 else IpInvalid) zoned
      else if c =? cPercent then mkIp IpInvalid false
      else parseIpLoop s rest'
  end.

Definition validationParseIp (s : qstr) : ValidationIp := parseIpLoop s s.

Definition validationIpMessage (family : Family) : Message :=
  match family with
  | FamilyV4 => tr0 "Not a valid IPv4 address (four numbers from 0 to 255 separated by dots)."
  | FamilyV6 => tr0 "Not a valid IPv6 address."
  | FamilyAny => tr0 "Not a valid IP address."
  end.

Definition validationCheckIp (ip : ValidationIp) (family : Family) : verdict :=
  match ipKind ip, family with
  | IpInvalid, _ | IpV6, FamilyV4 | IpV4, FamilyV6 => Some (validationIpMessage family)
  | _, _ => if ipZoned ip then Some (tr0 "An IPv6 zone (the part starting with %) is not allowed here.") else None
  end.

(** ** Hosts *)

Definition validationHostMessage : Message := tr0 "Not a valid host name or IP address.".
Definition validationSchemeMessage : Message := tr0 "Enter only the host name, without a scheme such as https://.".

Definition validationZoneHasColon (s : qstr) : bool :=
  match indexOf cPercent s with Some pct => contains cColon (drop (S pct) s) | None => false end.

Definition validationIpv6Like (s : qstr) : bool :=
  let address := match indexOf cPercent s with Some pct => take pct s | None => s end in
  match indexOf cColon address with
  | None => false
  | Some colon =>
      match indexOf cDot address with
      | Some dot =>
          if (dot <? colon)%nat then false
          else forallb (fun c => validationHexDigit c || (c =? cColon) || (c =? cDot)) address
      | None => forallb (fun c => validationHexDigit c || (c =? cColon) || (c =? cDot)) address
      end
  end.

(** lastIndexOf. *)
Definition lastIndexOf (c : Z) (s : qstr) : option nat :=
  (fun i => (length s - 1 - i)%nat) <$> indexOf c (rev s).

(** The authority ends at a slash, a question mark or a hash. *)
Fixpoint spanAuthority (s : qstr) : qstr :=
  match s with
  | c :: s' => if (c =? cSlash) || (c =? 63) || (c =? cHash) then [] else c :: spanAuthority s'
  | [] => []
  end.

(** The port text of a URL's authority, empty when there is none. *)
Definition validationUrlPort (t : qstr) : qstr :=
  match indexOfStr (u "://") t with
  | None => []
  | Some sep =>
      let letterFirst := match t with
                         | c :: _ => (0 <? sep)%nat && validationAsciiAlnum c && negb (validationDigit c)
                         | [] => false
                         end in
      let schemeChar c := validationAsciiAlnum c || (c =? 43) || (c =? cDash) || (c =? cDot) in
      if negb letterFirst || negb (forallb schemeChar (take sep t)) then []
      else
        let authority := spanAuthority (drop (sep + 3) t) in
        let host := match lastIndexOf 64 authority with Some i => drop (S i) authority | None => authority end in
        if startsWithChar cLBracket host then
          match indexOf cRBracket host with
          | None => []
          | Some close =>
              match drop (S close) host with
              | c :: rest => if c =? cColon then rest else []
              | [] => []
              end
          end
        else match lastIndexOf cColon host with Some i => drop (S i) host | None => [] end
  end.

(** QUrl: its parser and the IDNA encoding are outside the repository. *)
Class QtUrl := {
  toAce : qstr -> list Z;
  urlScheme : qstr -> qstr;
  urlHost : qstr -> qstr;
  urlValid : qstr -> bool
}.

Section Checks.
Context {Q : QtChar} {L : QtUrl}.

Definition Ip (text : qstr) (family : Family) (empty : EmptyRule) : verdict :=
  let t := trimmed text in
  if isNil t then validationEmpty empty else validationCheckIp (validationParseIp t) family.

Definition Cidr (text : qstr) (family : Family) (allowBareIp : bool) (empty : EmptyRule) : verdict :=
  let t := trimmed text in
  if isNil t then validationEmpty empty
  else
    let needPrefix := tr0 "Use an address with a prefix length, for example 10.0.0.0/8 or fd00::/8." in
    match lastIndexOf cSlash t with
    | None => if allowBareIp then validationCheckIp (validationParseIp t) family else Some needPrefix
    | Some slash =>
        let ip := validationParseIp (take slash t) in
        match validationCheckIp ip family with
        | Some m => Some m
        | None =>
            let bits := drop (S slash) t in
            if contains cDot bits then Some (tr0 "Use a prefix length instead of a netmask, for example 10.0.0.0/8.")
            else if negb (validationAllDigits bits) then Some needPrefix
            else if (1 <? zlen bits) && startsWithChar c0 bits
            then Some (tr0 "Write the prefix length without leading zeros.")
            else
              let maxBits := match ipKind ip with IpV4 => 32 | _ => 128 end in
              if (3 <? zlen bits) || (maxBits <? digitsValue bits)
              then Some (MTr (u "The prefix length must be from 0 to %1.") [MText (number maxBits)])
              else None
        end
    end.

(** A label of a host name. *)
Definition goodLabel (label : list Z) : bool :=
  negb (isNil label) && (zlen label <=? 63) && negb (startsWithChar cDash label) && negb (endsWithChar cDash label)
  && forallb (fun c => validationAsciiAlnum c || (c =? cDash) || (c =? 95)) label.

Definition chopDot (name : list Z) : list Z := if endsWithChar cDot name then removelast name else name.

Definition hostName (t : qstr) : verdict :=
  let name := chopDot (toAce t) in
  if isNil name || (253 <? zlen name) then Some validationHostMessage
  else if forallb goodLabel (splitOn cDot name) then None else Some validationHostMessage.

Definition Host (text : qstr) (empty : EmptyRule) : verdict :=
  let t := trimmed text in
  let portMessage := tr0 "Enter the port in its own field." in
  if isNil t then validationEmpty empty
  else if containsStr (u "://") t then Some validationSchemeMessage
  else if existsb isSpace t then Some (tr0 "Must not contain spaces.")
  else if existsb (fun c => (c =? cSlash) || (c =? 63) || (c =? cHash) || (c =? 64)) t
  then Some (tr0 "Enter only the host name, without a path or user name.")
  else if startsWithChar cLBracket t then
    match indexOf cRBracket t with
    | None => Some validationHostMessage
    | Some close =>
        match ipKind (validationParseIp (drop 1 (take close t))) with
        | IpV6 =>
            match drop (S close) t with
            | [] => None
            | c :: rest =>
                if (c =? cColon) && validationAllDigits rest then Some portMessage else Some validationHostMessage
            end
        | _ => Some validationHostMessage
        end
    end
  else match ipKind (validationParseIp t) with
       | IpV4 | IpV6 =>
           if negb (validationZoneHasColon t) then None
           else if validationAllDigits (match lastIndexOf cColon t with Some i => drop (S i) t | None => t end)
           then Some portMessage else Some (validationIpMessage FamilyV6)
       | IpInvalid =>
           match lastIndexOf cColon t with
           | Some colon =>
               if negb (bool_decide (indexOf cColon t = Some colon)) then
                 if validationIpv6Like t then Some (validationIpMessage FamilyV6) else Some validationHostMessage
               else if validationAllDigits (drop (S colon) t) then Some portMessage
               else Some validationHostMessage
           | None =>
               if forallb (fun c => validationDigit c || (c =? cDot)) t then Some (validationIpMessage FamilyV4)
               else hostName t
           end
       end.

Definition bracketMessage : Message :=
  tr0 "Put an IPv6 address in brackets before the port, for example [2001:db8::1]:443.".

(** The port of a host and port, once the host is accepted. *)
Definition portPart (portRequired : bool) (port : option qstr) : verdict :=
  match port with
  | None => if portRequired then Some (tr0 "Add the port after a colon, for example example.com:443.") else None
  | Some p => checkPort p
  end.

Definition HostPort (text : qstr) (portRequired : bool) (empty : EmptyRule) : verdict :=
  let t := trimmed text in
  if isNil t then validationEmpty empty
  else if containsStr (u "://") t then Some validationSchemeMessage
  else if startsWithChar cLBracket t then
    match indexOf cRBracket t with
    | None => Some (validationIpMessage FamilyV6)
    | Some close =>
        match ipKind (validationParseIp (drop 1 (take close t))) with
        | IpV6 =>
            match drop (S close) t with
            | [] => portPart portRequired None
            | c :: rest => if c =? cColon then portPart portRequired (Some rest) else Some validationHostMessage
            end
        | _ => Some (validationIpMessage FamilyV6)
        end
    end
  else match ipKind (validationParseIp t) with
       | IpV6 => if portRequired || validationZoneHasColon t then Some bracketMessage else None
       | _ =>
           let '(host, port) := match lastIndexOf cColon t with
                                | Some colon => (take colon t, Some (drop (S colon) t))
                                | None => (t, None)
                                end in
           if match port with Some _ => true | None => false end && contains cColon host then
             if validationIpv6Like host then Some bracketMessage else Some validationHostMessage
           else if isNil host then Some validationHostMessage
           else match Host host EmptyRequired with
                | Some m => Some m
                | None => portPart portRequired port
                end
       end.

(** join(", "). *)
Fixpoint joinComma (l : list qstr) : qstr :=
  match l with
  | [] => []
  | [s] => s
  | s :: l' => s ++ u ", " ++ joinComma l'
  end.

Context {Lw : QtLower}.

Definition Url (text : qstr) (schemes : list qstr) (empty : EmptyRule) : verdict :=
  let t := trimmed text in
  if isNil t then validationEmpty empty
  else if existsb isSpace t then Some (tr0 "Must not contain spaces.")
  else if negb (isNil schemes) && negb (existsb (eqFold (urlScheme t)) schemes) then
    let shown := map (fun s => toLower s ++ u "://") schemes in
    let list := match shown with
                | [s] => MText s
                | _ => MTr (u "%1 or %2") [MText (joinComma (removelast shown)); MText (List.last shown [])]
                end in
    Some (MTr (u "Must be a URL starting with %1.") [list])
  else
    let port := validationUrlPort t in
    match (if isNil port then None else checkPort port) with
    | Some m => Some m
    | None =>
        if negb (urlValid t) || isNil (urlScheme t) || isNil (urlHost t) then Some (tr0 "Not a valid URL.") else None
    end.

End Checks.
