(* ===== verification/AddressAgree.v ===== *)
(** The two address parsers of the program agree: the scanner's
    (src/src/scanner/IpListParse.cpp) and the validators' (netip's grammar in
    src/src/global/Validation.cpp) accept the same texts, zones apart. *)
From stdpp Require Import base list strings.
From Stdlib Require Import ZArith Lia Bool.
From S2P Require Import Prelude IpListParse IpListText ValidationNum ValidationNumFacts ValidationNet.

(** ** IPv4 *)

(** An octet: digits without a leading zero, at most 255. *)
Definition octetPrefix (p : qstr) : Prop :=
  forallb validationDigit p = true /\ foldDigits 0 p <= 255 /\ (zlen p <= 1 \/ hd 0 p <> c0).

Definition octet (p : qstr) : Prop := p <> [] /\ octetPrefix p.

Lemma octetPrefix_short p : octetPrefix p -> zlen p <= 3.
Proof.
  intros (Hd & Hv & [Hl|Hh]); [lia|]. destruct p as [|c p]; [done|]. cbn [hd] in Hh.
  cbn [forallb] in Hd. apply andb_true_iff in Hd as [Hc Hd]. unfold validationDigit in Hc. zbool.
  rewrite foldDigits_cons in Hv. pose proof (foldDigits_lower (0 * 10 + (c - 48)) p Hd ltac:(lia)) as Hlow.
  rewrite zlen_cons. destruct (Z.le_gt_cases (zlen p) 2) as [|Hgt]; [lia|].
  assert (10 ^ 3 <= 10 ^ zlen p) by (apply Z.pow_le_mono_r; lia). nia.
Qed.

Lemma octetPrefix_app p q : octetPrefix (p ++ q) -> octetPrefix p.
Proof.
  intros (Hd & Hv & Hh). rewrite forallb_app in Hd. apply andb_true_iff in Hd as [Hp Hq].
  rewrite foldDigits_app in Hv. split; [done|]. split.
  - pose proof (foldDigits_ge 0 p Hp ltac:(lia)). pose proof (foldDigits_ge (foldDigits 0 p) q Hq ltac:(lia)). lia.
  - destruct p as [|c p]; [left; unfold zlen; cbn; lia|]. rewrite zlen_app in Hh. pose proof (zlen_nonneg q).
    destruct Hh as [Hh|Hh]; [left; lia|by right].
Qed.

Lemma decimalLoop_digits v p :
  0 <= v -> v * 10 ^ zlen p + 10 ^ zlen p <= 2 ^ 32 ->
  decimalLoop v p = if forallb validationDigit p then Some (foldDigits v p) else None.
Proof.
  revert v. induction p as [|c p IH]; intros v Hv Hb; cbn [decimalLoop forallb]; [done|].
  unfold validationDigit at 1. destruct ((c <? c0) || (c9 <? c)) eqn:E.
  - assert ((48 <=? c) && (c <=? 57) = false) as ->; [|done].
    apply orb_true_iff in E. apply andb_false_iff. destruct E as [E|E]; zbool; [left|right]; apply Z.leb_gt; lia.
  - zbool. assert ((48 <=? c) && (c <=? 57) = true) as -> by (apply andb_true_iff; lia). cbn [andb].
    rewrite zlen_cons, Z.pow_add_r in Hb by (pose proof (zlen_nonneg p); lia). change (10 ^ 1) with 10 in Hb.
    pose proof (Z.pow_pos_nonneg 10 (zlen p) ltac:(lia) (zlen_nonneg p)).
    rewrite wrap32_small by nia. rewrite IH by nia. done.
Qed.

(** One part of the scanner's IPv4 loop. *)
Lemma ipListParseDecimal_octet p :
  (exists o, ipListParseDecimal p 3 = Some o /\ (255 <? o) = false /\ (1 <? zlen p) && startsWithChar c0 p = false)
  <-> octet p.
Proof.
  unfold ipListParseDecimal, octet. split.
  - intros (o & Ho & Hle & Hz). destruct p as [|c p]; [done|]. split; [done|].
    cbn [isNil orb] in Ho. destruct (3 <? zlen (c :: p)) eqn:El; [done|]. zbool.
    assert (zlen (c :: p) <= 3) by lia.
    assert (10 ^ zlen (c :: p) <= 10 ^ 3) by (apply Z.pow_le_mono_r; lia).
    rewrite decimalLoop_digits in Ho by lia. destruct (forallb validationDigit (c :: p)) eqn:Ed; [|done].
    injection Ho as <-. split; [done|]. split; [exact Hle|].
    apply andb_false_iff in Hz as [Hz|Hz]; [left; apply Z.ltb_ge in Hz; lia|right].
    cbn in Hz |- *. by apply Z.eqb_neq in Hz.
  - intros [Hne Ho]. pose proof (octetPrefix_short p Ho) as Hl. destruct Ho as (Hd & Hv & Hh).
    exists (foldDigits 0 p). destruct p as [|c p]; [done|]. cbn [isNil orb].
    replace (3 <? zlen (c :: p)) with false by (symmetry; apply Z.ltb_ge; lia).
    assert (10 ^ zlen (c :: p) <= 10 ^ 3) by (apply Z.pow_le_mono_r; lia).
    rewrite decimalLoop_digits, Hd by lia. split; [done|]. split; [apply Z.ltb_ge; lia|].
    apply andb_false_iff. destruct Hh as [Hh|Hh]; [left; apply Z.ltb_ge; lia|right].
    cbn in Hh |- *. by apply Z.eqb_neq.
Qed.

Lemma v4Loop_octets ps v n :
  0 <= n -> ((exists w, v4Loop ps v n = Some w /\ snd w = 4) <->
    ps <> [] /\ Forall octet ps /\ n + zlen ps = 4).
Proof.
  intros Hn. revert v n Hn. induction ps as [|p ps IH]; intros v n Hn.
  - cbn. split; [by intros (w & ? & _)|]. intros [? _]. done.
  - cbn [v4Loop]. rewrite zlen_cons. pose proof (zlen_nonneg ps) as Hps.
    destruct (ipListParseDecimal p 3) as [o|] eqn:Eo.
    2: { split; [by intros (w & ? & _)|]. intros (_ & Ho & _). apply Forall_cons in Ho as [Ho _].
         apply ipListParseDecimal_octet in Ho as (o & Ho & _). congruence. }
    assert (Hoct : (255 <? o) = false /\ (1 <? zlen p) && startsWithChar c0 p = false <-> octet p).
    { rewrite <- ipListParseDecimal_octet. split; [eauto|]. intros (o' & Ho' & H). congruence. }
    destruct (255 <? o) eqn:E1.
    { split; [by intros (w & ? & _)|]. intros (_ & Ho & _). apply Forall_cons in Ho as [Ho _]. apply Hoct in Ho. by destruct Ho. }
    destruct ((1 <? zlen p) && startsWithChar c0 p) eqn:E2.
    { split; [by intros (w & ? & _)|]. intros (_ & Ho & _). apply Forall_cons in Ho as [Ho _]. apply Hoct in Ho. by destruct Ho. }
    assert (octet p) by by apply Hoct.
    destruct (4 <? n + 1) eqn:E3; zbool.
    { split; [by intros (w & ? & _)|]. intros (_ & _ & ?). lia. }
    destruct ps as [|q ps].
    + unfold zlen. cbn. split.
      * intros (w & [= <-] & Hw). cbn in Hw. split; [done|]. split; [|lia].
        apply List.Forall_cons; [done|apply List.Forall_nil].
      * intros (_ & _ & Hc). exists (Z.lor (wrap32 (Z.shiftl v 8)) o, n + 1). split; [done|]. cbn. lia.
    + rewrite IH by lia. split.
      * intros (_ & Ho & Hc). split; [done|]. split; [by apply List.Forall_cons|]. lia.
      * intros (_ & Ho & Hc). apply Forall_cons in Ho as [_ Ho]. split; [done|]. split; [done|]. lia.
Qed.

Definition dottedQuad (s : qstr) : Prop :=
  Forall octet (splitOn cDot s) /\ zlen (splitOn cDot s) = 4.

Lemma ipListParseV4_quad s : (exists v, ipListParseV4 s = Some v) <-> dottedQuad s.
Proof.
  unfold ipListParseV4, dottedQuad.
  assert (H : (exists w, v4Loop (splitOn cDot s) 0 0 = Some w /\ snd w = 4) <->
     splitOn cDot s <> [] /\ Forall octet (splitOn cDot s) /\ 0 + zlen (splitOn cDot s) = 4)
    by (apply v4Loop_octets; lia).
  rewrite Z.add_0_l in H. split.
  - intros [v Hv]. apply H. destruct (v4Loop _ 0 0) as [[w n]|]; [|done].
    destruct (negb (n =? 4)) eqn:E; [done|]. exists (w, n). split; [done|]. zbool. done.
  - intros Hq. destruct (proj2 H (conj (splitOn_nonempty cDot s) Hq)) as ([w n] & -> & Hn). cbn in Hn. subst.
    exists w. done.
Qed.

Lemma splitOn_step sep c s :
  splitOn sep (c :: s) =
    if c =? sep then [] :: splitOn sep s
    else match splitOn sep s with p :: ps => (c :: p) :: ps | [] => [[c]] end.
Proof. reflexivity. Qed.

(** The validators' loop, with the octet [q] read so far. *)
Lemma ipv4Loop_octets s q first prevDot pos :
  octetPrefix q -> first = bool_decide (q = [] /\ pos = 0) -> prevDot = bool_decide (q = [] /\ pos <> 0) ->
  (q = [] -> pos = 0 \/ s <> []) -> 0 <= pos <= 3 ->
  ipv4Loop first prevDot (foldDigits 0 q) pos (zlen q) s = true <->
  match splitOn cDot s with
  | p :: ps => octet (q ++ p) /\ Forall octet ps /\ pos + zlen ps = 3
  | [] => False
  end.
Proof.
  revert q first prevDot pos. induction s as [|c s IH]; intros q first prevDot pos Hq Hf Hp Hne Hpos; cbn [ipv4Loop].
  - cbn [splitOn]. rewrite app_nil_r. change (zlen (@nil qstr)) with 0. unfold octet. split.
    + intros E. zbool. split; [split; [|done]|split; [apply List.Forall_nil|lia]].
      intros ->. destruct (Hne eq_refl); [lia|done].
    + intros (_ & _ & E). apply Z.eqb_eq. lia.
  - rewrite splitOn_step. destruct (validationDigit c) eqn:Ec.
    + assert (c <> cDot) by (unfold validationDigit in Ec; zbool; lia).
      replace (c =? cDot) with false by (symmetry; by apply Z.eqb_neq).
      destruct (splitOn cDot s) as [|p ps] eqn:Es; [by apply splitOn_nonempty in Es|].
      replace (q ++ c :: p) with ((q ++ [c]) ++ p) by by rewrite <- app_assoc.
      destruct ((zlen q =? 1) && (foldDigits 0 q =? 0)) eqn:Ez.
      * split; [done|]. intros ((_ & Ho) & _). exfalso. apply octetPrefix_app in Ho.
        destruct Ho as (_ & _ & Hh). zbool. destruct q as [|c1 [|c2 q]]; [done| |rewrite !zlen_cons in *; pose proof (zlen_nonneg q); lia].
        unfold foldDigits in *. cbn in *. unfold zlen in Hh. cbn in Hh. lia.
      * assert (Hv : foldDigits 0 (q ++ [c]) = foldDigits 0 q * 10 + (c - 48)) by by rewrite foldDigits_app.
        assert (Hl : zlen (q ++ [c]) = zlen q + 1) by (rewrite zlen_app; done).
        cbv zeta. rewrite <- Hv, <- Hl. destruct (255 <? foldDigits 0 (q ++ [c])) eqn:E; zbool.
        -- split; [done|]. intros ((_ & Ho) & _). exfalso. apply octetPrefix_app in Ho as (_ & Ho & _). lia.
        -- assert (Hq' : octetPrefix (q ++ [c])).
           { destruct Hq as (Hd & _ & Hh). split; [rewrite forallb_app, Hd; cbn; by rewrite Ec|]. split; [lia|].
             destruct q as [|c1 q]; [left; unfold zlen; cbn; lia|]. cbn [app hd] in *.
             destruct Hh as [Hh|Hh]; [|by right]. right. intros ->. rewrite zlen_cons in *. pose proof (zlen_nonneg q).
             assert (zlen q = 0) by lia. destruct q as [|]; [|rewrite zlen_cons in *; pose proof (zlen_nonneg q); lia].
             apply andb_false_iff in Ez as [Ez|Ez]; [done|]. unfold foldDigits in Ez. cbn in Ez. done. }
           rewrite (IH (q ++ [c]) false false pos); try done.
           ++ by rewrite bool_decide_false by (intros [? _]; by destruct q).
           ++ by rewrite bool_decide_false by (intros [? _]; by destruct q).
           ++ intros Hnil. by destruct q.
    + destruct (c =? cDot) eqn:Ed.
      * rewrite app_nil_r. destruct (first || isNil s || prevDot) eqn:E.
        -- split; [done|]. intros ([Hqn _] & Ho & _). apply orb_true_iff in E as [E|E].
           ++ apply orb_true_iff in E as [E|E].
              ** rewrite Hf in E. apply bool_decide_eq_true in E. tauto.
              ** destruct s; [|done]. cbn in Ho. apply Forall_inv in Ho. by destruct Ho.
           ++ rewrite Hp in E. apply bool_decide_eq_true in E. tauto.
        -- apply orb_false_iff in E as [E E3]. apply orb_false_iff in E as [E1 E2].
           assert (q <> []).
           { intros ->. rewrite Hf in E1. rewrite Hp in E3. apply bool_decide_eq_false in E1, E3. tauto. }
           destruct (pos =? 3) eqn:E4; zbool.
           ++ split; [done|]. intros (_ & _ & Hz). pose proof (splitOn_nonempty cDot s).
              destruct (splitOn cDot s) as [|p ps]; [done|]. rewrite zlen_cons in Hz. pose proof (zlen_nonneg ps). lia.
           ++ pose proof (IH [] false true (pos + 1)) as IH'.
              change (foldDigits 0 []) with 0 in IH'. change (zlen (@nil Z)) with 0 in IH'. rewrite IH'; clear IH'.
              ** destruct (splitOn cDot s) as [|p ps] eqn:Es; [by apply splitOn_nonempty in Es|].
                 rewrite zlen_cons. cbn [app]. split.
                 --- intros (Ho & Hos & Hz). split; [done|]. split; [by apply List.Forall_cons|lia].
                 --- intros (_ & Hos & Hz). apply Forall_cons in Hos as [Ho Hos]. split; [done|]. split; [done|lia].
              ** split; [done|]. split; [unfold foldDigits; cbn; lia|]. left. unfold zlen. cbn. lia.
              ** rewrite bool_decide_false; [done|]. intros [_ ?]. lia.
              ** rewrite bool_decide_true; [done|]. split; [done|lia].
              ** intros _. right. intros ->. done.
              ** lia.
      * destruct (splitOn cDot s) as [|p ps] eqn:Es; [by apply splitOn_nonempty in Es|].
        split; [done|]. intros ((_ & Hd & _) & _). rewrite forallb_app in Hd. cbn in Hd. rewrite Ec, andb_false_r in Hd. done.
Qed.

Lemma validationIpv4Fields_quad s : validationIpv4Fields s = true <-> dottedQuad s.
Proof.
  unfold validationIpv4Fields, dottedQuad.
  change (ipv4Loop true false 0 0 0 s) with (ipv4Loop true false (foldDigits 0 []) 0 (zlen (@nil Z)) s).
  rewrite ipv4Loop_octets.
  - destruct (splitOn cDot s) as [|p ps] eqn:Es; [by apply splitOn_nonempty in Es|]. cbn [app]. rewrite zlen_cons. split.
    + intros (Ho & Hos & Hz). split; [by apply List.Forall_cons|lia].
    + intros (Hos & Hz). apply Forall_cons in Hos as [Ho Hos]. split; [done|]. split; [done|lia].
  - split; [done|]. split; [unfold foldDigits; cbn; lia|]. left. unfold zlen. cbn. lia.
  - done.
  - done.
  - by left.
  - lia.
Qed.

Lemma v4_agree s : validationIpv4Fields s = match ipListParseV4 s with Some _ => true | None => false end.
Proof.
  pose proof (validationIpv4Fields_quad s) as H1. pose proof (ipListParseV4_quad s) as H2.
  destruct (ipListParseV4 s) as [v|].
  - apply H1, H2. eauto.
  - destruct (validationIpv4Fields s); [|done]. destruct (proj2 H2 (proj1 H1 eq_refl)). done.
Qed.

(** ** Groups of hexadecimal digits *)

Definition isHex (c : Z) : Prop := validationHexDigit c = true.
Definition noHexHead (s : qstr) : Prop := match s with [] => True | c :: _ => validationHexDigit c = false end.

Lemma hexSpan s : exists h r, s = h ++ r /\ Forall isHex h /\ noHexHead r.
Proof.
  induction s as [|c s (h & r & -> & Hh & Hr)]; [by exists [], []|].
  destruct (validationHexDigit c) eqn:E.
  - exists (c :: h), r. split; [done|]. split; [by apply List.Forall_cons|done].
  - exists [], (c :: h ++ r). done.
Qed.

Lemma hexGroup_spec off acc h r :
  Forall isHex h -> noHexHead r -> 0 <= off <= 4 -> 0 <= acc < 16 ^ off ->
  if off + zlen h <=? 4 then exists acc', hexGroup off acc (h ++ r) = Some (off + zlen h, acc', r)
  else hexGroup off acc (h ++ r) = None.
Proof.
  intros Hh Hr. revert off acc. induction Hh as [|c h Hc Hh IH]; intros off acc Ho Ha.
  - cbn [app]. change (zlen (@nil Z)) with 0. rewrite Z.add_0_r. replace (off <=? 4) with true by lia.
    exists acc. destruct r as [|c r]; cbn; [done|]. cbn in Hr. by rewrite Hr.
  - cbn [app hexGroup]. unfold isHex in Hc. rewrite Hc. cbv zeta. rewrite zlen_cons. pose proof (zlen_nonneg h).
    set (d := if c <=? 57 then c - 48 else Z.lor c 32 - 97 + 10).
    assert (Hd : 0 <= d <= 15).
    { unfold d, validationHexDigit in *. apply orb_true_iff in Hc as [Hc|Hc]; [apply orb_true_iff in Hc as [Hc|Hc]|]; zbool.
      - replace (c <=? 57) with true by (symmetry; apply Z.leb_le; lia). lia.
      - replace (c <=? 57) with false by (symmetry; apply Z.leb_gt; lia).
        assert (c = 97 \/ c = 98 \/ c = 99 \/ c = 100 \/ c = 101 \/ c = 102) as [->|[->|[->|[->|[->| ->]]]]] by lia; vm_compute; split; discriminate.
      - replace (c <=? 57) with false by (symmetry; apply Z.leb_gt; lia).
        assert (c = 65 \/ c = 66 \/ c = 67 \/ c = 68 \/ c = 69 \/ c = 70) as [->|[->|[->|[->|[->| ->]]]]] by lia; vm_compute; split; discriminate. }
    clearbody d. rewrite Z.shiftl_mul_pow2 by lia. change (2 ^ 4) with 16.
    destruct (3 <? off) eqn:E3; zbool; cbn [orb].
    + replace (off + (1 + zlen h) <=? 4) with false by (symmetry; apply Z.leb_gt; lia). done.
    + assert (Hp : 16 ^ (off + 1) = 16 * 16 ^ off) by (rewrite Z.pow_add_r by lia; lia).
      assert (16 ^ (off + 1) <= 16 ^ 4) by (apply Z.pow_le_mono_r; lia).
      change (16 ^ 4) with 65536 in *.
      rewrite wrap32_small by lia.
      replace (65535 <? acc * 16 + d) with false by (symmetry; apply Z.ltb_ge; lia).
      replace (off + (1 + zlen h)) with (off + 1 + zlen h) by lia. apply IH; lia.
Qed.

Lemma hexDigit_agree c : (ipListParseHexDigit c <? 0) = negb (validationHexDigit c).
Proof.
  unfold ipListParseHexDigit, validationHexDigit.
  destruct ((48 <=? c) && (c <=? 57)) eqn:E1; cbn [orb negb]; zbool; [apply Z.ltb_ge; lia|].
  destruct ((97 <=? c) && (c <=? 102)) eqn:E2; cbn [orb negb]; zbool; [apply Z.ltb_ge; lia|].
  destruct ((65 <=? c) && (c <=? 70)) eqn:E3; cbn [orb negb]; zbool; [apply Z.ltb_ge; lia|done].
Qed.

Lemma hexLoop_hex v p : (exists w, hexLoop v p = Some w) <-> Forall isHex p.
Proof.
  revert v. induction p as [|c p IH]; intros v; cbn [hexLoop].
  - split; [by intros _; apply List.Forall_nil|eauto].
  - rewrite hexDigit_agree. unfold isHex. destruct (validationHexDigit c) eqn:E; cbn [negb]; cbv zeta.
    + rewrite IH. split; [intros H; by apply List.Forall_cons|]. intros H. by apply Forall_cons in H as [_ ?].
    + split; [by intros [? ?]|]. intros H. apply Forall_cons in H as [H _]. congruence.
Qed.

(** A group of an IPv6 address: one to four hexadecimal digits. *)
Definition group (p : qstr) : Prop := p <> [] /\ zlen p <= 4 /\ Forall isHex p.

Lemma contains_hex p c : Forall isHex p -> validationHexDigit c = false -> contains c p = false.
Proof.
  intros Hp Hc. apply contains_false. eapply Forall_impl; [exact Hp|]. intros x Hx ->. unfold isHex in Hx. congruence.
Qed.

Lemma goodGroup p qs allow acc :
  group p -> exists v, v6PartLoop (p :: qs) allow acc =
    if 8 <=? zlen acc then None
    else match qs with [] => Some (acc ++ [v]) | _ => v6PartLoop qs allow (acc ++ [v]) end.
Proof.
  intros (Hne & Hl & Hh). destruct (proj2 (hexLoop_hex 0 p) Hh) as [v Hv]. exists v. cbn [v6PartLoop].
  rewrite (contains_hex p cDot Hh eq_refl), andb_false_r. destruct p as [|c p]; [done|].
  change (isNil (c :: p)) with false. replace (4 <? zlen (c :: p)) with false by (symmetry; apply Z.ltb_ge; lia).
  cbn [orb]. destruct (8 <=? zlen acc); [done|]. rewrite Hv. by destruct qs.
Qed.

Lemma badGroup p qs allow acc : ~ group p -> allow = false \/ qs <> [] -> v6PartLoop (p :: qs) allow acc = None.
Proof.
  intros Hg Hq. cbn [v6PartLoop].
  assert (isNil qs && allow && contains cDot p = false) as ->.
  { destruct Hq as [->|Hq]; [by rewrite andb_false_r|]. by destruct qs. }
  destruct (isNil p || (4 <? zlen p) || (8 <=? zlen acc)) eqn:E; [done|].
  destruct (hexLoop 0 p) as [v|] eqn:Ev; [|done]. exfalso. apply Hg.
  apply orb_false_iff in E as [E _]. apply orb_false_iff in E as [E1 E2]. zbool.
  split; [by destruct p|]. split; [done|]. apply (hexLoop_hex 0). eauto.
Qed.

Lemma badLast p acc : ~ group p ->
  v6PartLoop [p] true acc =
    if contains cDot p then if 6 <? zlen acc then None
      else let? v4 := ipListParseV4 p in Some (acc ++ [wrap16 (Z.shiftr v4 16); wrap16 (Z.land v4 65535)])
    else None.
Proof.
  intros Hg. cbn [v6PartLoop isNil andb]. destruct (contains cDot p); [done|].
  destruct (isNil p || (4 <? zlen p) || (8 <=? zlen acc)) eqn:E; [done|].
  destruct (hexLoop 0 p) as [v|] eqn:Ev; [|done]. exfalso. apply Hg.
  apply orb_false_iff in E as [E _]. apply orb_false_iff in E as [E1 E2]. zbool.
  split; [by destruct p|]. split; [done|]. apply (hexLoop_hex 0). eauto.
Qed.

(** A dotted quad starts with one to three digits and a point. *)
Lemma quad_prefix p h r :
  dottedQuad p -> p = h ++ r -> Forall isHex h -> noHexHead r ->
  h <> [] /\ zlen h <= 3 /\ exists r', r = cDot :: r'.
Proof.
  intros [Ho Hl] -> Hh Hr. destruct (indexOf cDot (h ++ r)) as [i|] eqn:Ei.
  2: { apply indexOf_None in Ei. rewrite (splitOn_no_sep _ _ Ei) in Hl. done. }
  assert (Es : splitOn cDot (h ++ r) = take i (h ++ r) :: splitOn cDot (drop (S i) (h ++ r))).
  { clear -Ei. revert i Ei. generalize (h ++ r) as q. induction q as [|c s IH]; intros i H; [done|].
    cbn [indexOf] in H. rewrite splitOn_step. destruct (c =? cDot); [by injection H as <-|].
    destruct (indexOf cDot s) as [j|]; [|done]. injection H as <-. by rewrite (IH j eq_refl). }
  rewrite Es in Ho. apply Forall_cons in Ho as [Ho _]. set (o := take i (h ++ r)) in *.
  destruct (indexOf_Some _ _ _ Ei) as [Heq _]. fold o in Heq. set (r' := drop (S i) (h ++ r)) in *. clearbody o r'.
  assert (Hoh : Forall isHex o).
  { destruct Ho as [_ (Hd & _)]. apply Forall_forall. intros c Hc. rewrite forallb_forall in Hd.
    apply list_elem_of_In, Hd in Hc. unfold isHex, validationHexDigit, validationDigit in *. by rewrite Hc. }
  assert (o = h /\ cDot :: r' = r) as [-> <-].
  { clear -Heq Hoh Hh Hr. revert o Heq Hoh. induction Hh as [|c h Hc Hh IH]; intros o Heq Ho.
    - destruct o as [|c o]; [done|]. cbn in Heq. subst r. apply Forall_cons in Ho as [Ho _]. cbn in Hr. unfold isHex in Ho. congruence.
    - destruct o as [|d o]; cbn in Heq; injection Heq as -> Heq; [done|].
      apply Forall_cons in Ho as [_ Ho]. destruct (IH o Heq Ho) as [-> ->]. done. }
  destruct Ho as [Hne Hp]. split; [done|]. split; [by apply octetPrefix_short|]. by exists r'.
Qed.

Lemma quad_no_colon s : dottedQuad s -> contains cColon s = false.
Proof.
  intros [Ho _]. rewrite <- (join_splitOn cDot s). apply contains_false.
  apply joinWith_forall; [done|]. eapply Forall_impl; [exact Ho|]. intros p [_ (Hd & _)].
  apply Forall_forall. intros c Hc. rewrite forallb_forall in Hd. apply list_elem_of_In, Hd in Hc.
  unfold validationDigit in Hc. zbool. lia.
Qed.

(** ** The validators' IPv6 loop, over the parts between the colons *)

Definition groupb (p : qstr) : bool := negb (isNil p) && (zlen p <=? 4) && forallb validationHexDigit p.

Lemma groupb_spec p : groupb p = true <-> group p.
Proof.
  unfold groupb, group. rewrite !andb_true_iff, negb_true_iff, Z.leb_le.
  assert (forallb validationHexDigit p = true <-> Forall isHex p) as ->.
  { rewrite forallb_forall, Forall_forall. by setoid_rewrite list_elem_of_In. }
  destruct p; cbn; intuition done.
Qed.

(** [i] bytes are read, [e] is where the double colon stood. *)
Definition finished (i e : Z) : bool := if i <? 16 then 0 <=? e else e <? 0.

Fixpoint partsOK (e i : Z) (parts : list qstr) : bool :=
  match parts with
  | [] => false
  | p :: qs =>
      if negb (i <? 16) then false
      else if groupb p then
        match qs with
        | [] => finished (i + 2) e
        | [] :: qs' =>
            if 0 <=? e then false
            else match qs' with
                 | [[]] => finished (i + 2) (i + 2)
                 | _ => partsOK (i + 2) (i + 2) qs'
                 end
        | _ => partsOK e (i + 2) qs
        end
      else
        match qs with
        | [] => negb ((e <? 0) && negb (i =? 12)) && negb (16 <? i + 4) && validationIpv4Fields p && finished (i + 4) e
        | _ => false
        end
  end.

Definition resultOK (r : option (qstr * Z * Z)) : bool :=
  match r with Some (rest, i, e) => isNil rest && finished i e | None => false end.

(** The first part of a text and the others. *)
Lemma splitOn_first s : exists p, (s = p /\ contains cColon p = false /\ splitOn cColon s = [p]) \/
  exists r, s = p ++ cColon :: r /\ contains cColon p = false /\ splitOn cColon s = p :: splitOn cColon r.
Proof.
  destruct (indexOf cColon s) as [j|] eqn:E.
  - apply indexOf_Some in E as [E Hc]. exists (take j s). right. exists (drop (S j) s). split; [done|].
    split; [done|]. rewrite E at 1. by apply splitOn_app.
  - apply indexOf_None in E. exists s. left. split; [done|]. split; [done|]. by apply splitOn_no_sep.
Qed.

Lemma notGroup_app h r : noHexHead r -> r <> [] -> groupb (h ++ r) = false.
Proof.
  intros Hr Hne. destruct (groupb (h ++ r)) eqn:E; [|done]. apply groupb_spec in E as (_ & _ & E).
  apply Forall_app in E as [_ E]. destruct r as [|c r]; [done|]. apply Forall_cons in E as [E _]. cbn in Hr.
  unfold isHex in E. congruence.
Qed.

Lemma notGroup_quad h r : Forall isHex h -> noHexHead r ->
  (forall r', h <> [] -> zlen h <= 3 -> r <> cDot :: r') -> validationIpv4Fields (h ++ r) = false.
Proof.
  intros Hh Hr Hno. destruct (validationIpv4Fields (h ++ r)) eqn:E; [|done].
  apply validationIpv4Fields_quad in E. destruct (quad_prefix _ h r E eq_refl Hh Hr) as (H1 & H2 & r' & ->).
  by destruct (Hno r' H1 H2).
Qed.

Lemma partsOK_bad e i p qs : groupb p = false -> qs <> [] \/ validationIpv4Fields p = false -> partsOK e i (p :: qs) = false.
Proof.
  intros Hg Hq. cbn [partsOK]. rewrite Hg. destruct (negb (i <? 16)); [done|].
  destruct qs; [|done]. destruct Hq as [|Hq]; [done|]. by rewrite Hq, andb_false_r.
Qed.

Lemma resultOK_bad e i p qs : groupb p = false -> qs <> [] \/ validationIpv4Fields p = false ->
  resultOK None = partsOK e i (p :: qs).
Proof. intros. by rewrite partsOK_bad. Qed.

Lemma ipv6Loop_parts fuel e i s :
  (length s < fuel)%nat -> s <> [] -> resultOK (ipv6Loop fuel e i s) = partsOK e i (splitOn cColon s).
Proof.
  revert e i s. induction fuel as [|fuel IH]; intros e i s Hf Hne; [lia|]. cbn [ipv6Loop].
  destruct (splitOn_first s) as [p Hp].
  destruct (negb (i <? 16)) eqn:Ei.
  { destruct Hp as [(_ & _ & ->)|(? & _ & _ & ->)]; cbn [partsOK resultOK]; rewrite Ei; by rewrite isNil_false. }
  assert (Hstep : exists q, splitOn cColon s = p :: q) by (destruct Hp as [(_ & _ & ->)|(? & _ & _ & ->)]; eauto).
  destruct (hexSpan p) as (h & r & Ep & Hh & Hr).
  assert (Hg : groupb p = bool_decide (r = []) && negb (isNil h) && (zlen h <=? 4)).
  { destruct r as [|c r].
    - rewrite app_nil_r in Ep. subst p. rewrite bool_decide_true by done. cbn [andb]. unfold groupb.
      assert (forallb validationHexDigit h = true) as ->; [|by rewrite andb_true_r].
      apply forallb_forall. intros x Hx. rewrite Forall_forall in Hh. by apply Hh, list_elem_of_In.
    - rewrite bool_decide_false by done. rewrite Ep. cbn [andb]. by apply notGroup_app. }
  assert (Hs : exists tl, s = h ++ (r ++ tl) /\ noHexHead (r ++ tl) /\
            (tl = [] /\ splitOn cColon s = [p] \/ exists t, tl = cColon :: t /\ splitOn cColon s = p :: splitOn cColon t)).
  { destruct Hp as [(-> & _ & Es)|(t & -> & _ & Es)].
    - exists []. rewrite !app_nil_r. split; [done|]. split; [done|]. by left.
    - exists (cColon :: t). rewrite Ep, app_assoc. split; [done|]. split; [by destruct r|]. right. exists t. by rewrite <- Ep. }
  destruct Hs as (tl & Es & Hrt & Htl).
  pose proof (hexGroup_spec 0 0 h (r ++ tl) Hh Hrt ltac:(lia) ltac:(lia)) as Hx. rewrite <- Es in Hx.
  assert (Hquad : (r = [] \/ ~ (exists r', r = cDot :: r') \/ h = [] \/ 3 < zlen h) -> validationIpv4Fields p = false).
  { intros Hcase. rewrite Ep. apply notGroup_quad; [done|done|]. intros r' Hn Hl ->.
    destruct Hcase as [|[Hc|[|]]]; [done| |done|lia]. apply Hc. eauto. }
  destruct (0 + zlen h <=? 4) eqn:El; rewrite ?Z.add_0_l in *.
  2: { rewrite Hx. destruct Hstep as [q ->]. apply resultOK_bad; [by rewrite Hg, El, andb_false_r|].
       right. apply Hquad. right; right; right. zbool. lia. }
  destruct Hx as [acc' ->]. destruct (zlen h =? 0) eqn:E0; cbn [negb].
  { assert (h = []) as -> by (destruct h; [done|]; rewrite zlen_cons in E0; pose proof (zlen_nonneg h); lia).
    destruct Hstep as [q ->]. apply resultOK_bad; [rewrite Hg; cbn [isNil negb]; by rewrite andb_false_r|].
    right. apply Hquad. auto. }
  assert (Hhn : negb (isNil h) = true) by by destruct h.
  rewrite Hhn, El, !andb_true_r in Hg. destruct r as [|c r].
  - rewrite bool_decide_true in Hg by done. rewrite app_nil_r in Ep. subst p. cbn [app] in *.
    destruct Htl as [[-> ->]|(t & -> & ->)].
    + cbn [startsWithChar partsOK resultOK isNil andb]. rewrite Ei, Hg. done.
    + change (startsWithChar cDot (cColon :: t)) with false. cbv iota. rewrite Z.eqb_refl. cbn [andb].
      cbn [partsOK]. rewrite Ei, Hg. destruct t as [|d t]; [destruct (0 <=? e); done|]. cbn [isNil negb]. cbv iota.
      assert (Hlen : (S (length (d :: t)) < S fuel)%nat)
        by (rewrite Es, length_app in Hf; cbn in *; destruct h; [done|cbn in *; lia]).
      destruct (d =? cColon) eqn:Ed.
      * zbool. subst d. rewrite splitOn_step, Z.eqb_refl. destruct (0 <=? e); [done|]. cbn [negb].
        destruct t as [|d t]; [done|]. cbn [isNil]. cbn [length] in Hlen.
        rewrite IH by (cbn [length]; done || lia). destruct (splitOn_first (d :: t)) as [p [(E & _ & ->)|(t' & E & _ & ->)]].
        -- by destruct p.
        -- destruct p; [|done]. pose proof (splitOn_nonempty cColon t'). by destruct (splitOn cColon t').
      * rewrite IH by (done || lia). destruct (splitOn cColon (d :: t)) as [|[|x p] q] eqn:E; [|by rewrite splitOn_step, Ed in E; destruct (splitOn cColon t)|done].
        by apply splitOn_nonempty in E.
  - rewrite bool_decide_false in Hg by done. cbn [app startsWithChar].
    destruct (c =? cDot) eqn:Ec.
    + destruct Htl as [[-> ->]|(t & -> & Est)].
      * rewrite !app_nil_r in Es. rewrite <- Ep in Es. subst s. cbn [partsOK]. rewrite Ei, Hg.
        destruct ((e <? 0) && negb (i =? 12)); [done|]. destruct (16 <? i + 4); [done|]. cbn [negb andb].
        destruct (validationIpv4Fields p); done.
      * rewrite Est, <- resultOK_bad by (done || (left; apply splitOn_nonempty)).
        destruct ((e <? 0) && negb (i =? 12)); [done|]. destruct (16 <? i + 4); [done|]. cbn [negb].
        destruct (validationIpv4Fields s) eqn:Eq; [|done]. exfalso. apply validationIpv4Fields_quad, quad_no_colon in Eq.
        enough (contains cColon s = true) by congruence. apply contains_true, list_elem_of_In. rewrite Es.
        apply in_app_iff. right. apply in_app_iff. right. by left.
    + assert (Hc : (c =? cColon) = false).
      { destruct (c =? cColon) eqn:Ec'; [|done]. zbool. subst c. exfalso.
        assert (Hin : contains cColon p = true)
          by (apply contains_true, list_elem_of_In; rewrite Ep; apply in_app_iff; right; by left).
        destruct Hp as [(_ & Hp & _)|(? & _ & Hp & _)]; congruence. }
      rewrite Hc. cbn [andb]. destruct Hstep as [q ->]. apply resultOK_bad; [done|].
      right. apply Hquad. right. left. intros [r' [= -> ->]]. done.
Qed.

(** ** The scanner's loop over the same parts *)

Lemma v4_eq p : validationIpv4Fields p = true <-> exists v, ipListParseV4 p = Some v.
Proof. rewrite validationIpv4Fields_quad. symmetry. apply ipListParseV4_quad. Qed.

Lemma quad_dot p : validationIpv4Fields p = true -> contains cDot p = true.
Proof.
  intros H. apply validationIpv4Fields_quad in H as [_ H].
  destruct (contains cDot p) eqn:E; [done|]. rewrite (splitOn_no_sep _ _ E) in H. done.
Qed.

Lemma v6PartLoop_app ps allow acc gs :
  v6PartLoop ps allow acc = Some gs -> exists tl, gs = acc ++ tl /\ ps <> [] /\
    (allow = false -> zlen tl = zlen ps).
Proof.
  revert acc. induction ps as [|p ps IH]; intros acc H; [done|]. cbn [v6PartLoop] in H.
  destruct (isNil ps && allow && contains cDot p) eqn:E1.
  - destruct (6 <? zlen acc); [done|]. destruct (ipListParseV4 p) as [v|]; [|done]. injection H as <-. eexists.
    split; [done|]. split; [done|]. intros ->. by rewrite andb_false_r in E1.
  - destruct (isNil p || (4 <? zlen p) || (8 <=? zlen acc)); [done|]. destruct (hexLoop 0 p) as [v|]; [|done].
    destruct ps as [|q ps].
    + injection H as <-. by exists [v].
    + cbn [isNil] in H. destruct (IH _ H) as (tl & -> & _ & Hl). exists (v :: tl). rewrite <- app_assoc.
      split; [done|]. split; [done|]. intros Ha. rewrite !(zlen_cons _ tl), (zlen_cons p), Hl; done.
Qed.

(** The parts of an accepted text are not empty. *)
Lemma v6PartLoop_nonempty ps allow acc gs :
  v6PartLoop ps allow acc = Some gs -> Forall (fun p => p <> []) ps.
Proof.
  revert acc. induction ps as [|p ps IH]; intros acc H; [done|]. cbn [v6PartLoop] in H.
  destruct (isNil ps && allow && contains cDot p) eqn:E1.
  - apply andb_true_iff in E1 as [E1 E3]. apply andb_true_iff in E1 as [E1 _]. destruct ps; [|done].
    apply List.Forall_cons; [|done]. intros ->. done.
  - destruct (isNil p || (4 <? zlen p) || (8 <=? zlen acc)) eqn:E2; [done|]. zbool.
    destruct (hexLoop 0 p) as [v|]; [|done].
    apply List.Forall_cons; [by intros ->|]. destruct ps as [|q ps]; [done|]. by apply (IH (acc ++ [v])).
Qed.

(** The groups before do not matter while there is room. *)
Lemma v6PartLoop_shift ps allow acc acc' gs :
  v6PartLoop ps allow acc = Some (acc ++ gs) -> zlen acc' <= zlen acc ->
  v6PartLoop ps allow acc' = Some (acc' ++ gs).
Proof.
  revert acc acc' gs. induction ps as [|p ps IH]; intros acc acc' gs H Hl; [done|]. cbn [v6PartLoop] in *.
  destruct (isNil ps && allow && contains cDot p).
  - destruct (6 <? zlen acc) eqn:E; [done|]. zbool. replace (6 <? zlen acc') with false by (symmetry; apply Z.ltb_ge; lia).
    destruct (ipListParseV4 p) as [v|]; [|done]. injection H as H. apply app_inv_head in H. by rewrite H.
  - destruct (isNil p || (4 <? zlen p) || (8 <=? zlen acc)) eqn:E; [done|]. apply orb_false_iff in E as [-> E]. zbool.
    replace (8 <=? zlen acc') with false by (symmetry; apply Z.leb_gt; lia). cbn [orb].
    destruct (hexLoop 0 p) as [v|]; [|done]. destruct (isNil ps).
    + injection H as H. apply app_inv_head in H. by rewrite H.
    + destruct (v6PartLoop_app _ _ _ _ H) as (tl & Htl & _). rewrite <- app_assoc in Htl. apply app_inv_head in Htl. subst gs.
      assert (Ha : acc ++ [v] ++ tl = (acc ++ [v]) ++ tl) by by rewrite <- app_assoc. rewrite Ha in H.
      rewrite (IH (acc ++ [v]) (acc' ++ [v]) tl H) by (rewrite !zlen_app; lia). by rewrite <- app_assoc.
Qed.

Lemma v6PartLoop_grow ps allow acc' gs :
  v6PartLoop ps allow [] = Some gs -> zlen acc' + zlen gs <= 8 -> v6PartLoop ps allow acc' = Some (acc' ++ gs).
Proof.
  intros H. change gs with ([] ++ gs) in H. revert H. generalize (@nil Z) as acc. revert acc' gs.
  assert (G : forall acc' acc gs, v6PartLoop ps allow acc = Some (acc ++ gs) -> zlen acc' + zlen gs <= 8 ->
     v6PartLoop ps allow acc' = Some (acc' ++ gs)); [|intros; eauto].
  induction ps as [|p ps IH]; intros acc' acc gs H Hl; [done|]. cbn [v6PartLoop] in *.
  destruct (isNil ps && allow && contains cDot p).
  - destruct (6 <? zlen acc); [done|]. destruct (ipListParseV4 p) as [v|]; [|done]. injection H as H.
    apply app_inv_head in H. subst gs. rewrite !zlen_cons in Hl. change (zlen (@nil Z)) with 0 in Hl.
    by replace (6 <? zlen acc') with false by (symmetry; apply Z.ltb_ge; lia).
  - destruct (isNil p || (4 <? zlen p) || (8 <=? zlen acc)) eqn:E; [done|]. apply orb_false_iff in E as [-> _].
    destruct (hexLoop 0 p) as [v|]; [|done]. cbn [orb]. destruct (isNil ps).
    + injection H as H. apply app_inv_head in H. subst gs. rewrite zlen_cons in Hl. change (zlen (@nil Z)) with 0 in Hl.
      by replace (8 <=? zlen acc') with false by (symmetry; apply Z.leb_gt; lia).
    + destruct (v6PartLoop_app _ _ _ _ H) as (tl & Htl & _). rewrite <- app_assoc in Htl. apply app_inv_head in Htl. subst gs.
      cbn [app] in Hl. rewrite zlen_cons in Hl. pose proof (zlen_nonneg tl).
      replace (8 <=? zlen acc') with false by (symmetry; apply Z.leb_gt; lia).
      assert (Ha : acc ++ [v] ++ tl = (acc ++ [v]) ++ tl) by by rewrite <- app_assoc. rewrite Ha in H.
      rewrite (IH (acc' ++ [v]) (acc ++ [v]) tl H) by (rewrite zlen_app, zlen_cons; change (zlen (@nil Z)) with 0; lia).
      by rewrite <- app_assoc.
Qed.

Lemma v6PartLoop_one p acc : groupb p = false ->
  v6PartLoop [p] true acc =
    if validationIpv4Fields p && (zlen acc <=? 6) then
      let? v4 := ipListParseV4 p in Some (acc ++ [wrap16 (Z.shiftr v4 16); wrap16 (Z.land v4 65535)])
    else None.
Proof.
  intros Hg. rewrite badLast by (rewrite <- groupb_spec; congruence).
  destruct (contains cDot p) eqn:Ed.
  - destruct (6 <? zlen acc) eqn:E; zbool.
    + replace (zlen acc <=? 6) with false by (symmetry; apply Z.leb_gt; lia). by rewrite andb_false_r.
    + replace (zlen acc <=? 6) with true by (symmetry; apply Z.leb_le; lia). rewrite andb_true_r, v4_agree.
      by destruct (ipListParseV4 p).
  - destruct (validationIpv4Fields p) eqn:Ev; [|done]. apply quad_dot in Ev. congruence.
Qed.

Lemma v6PartLoop_full ps allow acc : 8 <= zlen acc -> v6PartLoop ps allow acc = None.
Proof.
  intros H. destruct ps as [|p ps]; [done|]. cbn [v6PartLoop].
  replace (6 <? zlen acc) with true by (symmetry; apply Z.ltb_lt; lia).
  replace (8 <=? zlen acc) with true by (symmetry; apply Z.leb_le; lia). rewrite orb_true_r. by break_if.
Qed.

(** After the double colon: at most seven groups in all. *)
Lemma partsOK_tail e k ps acc : 0 <= e -> zlen acc = k ->
  partsOK e (2 * k) ps = true <-> exists gs, v6PartLoop ps true acc = Some gs /\ zlen gs <= 7.
Proof.
  intros He. revert k acc. induction ps as [|p qs IH]; intros k acc Hk.
  { cbn. split; [done|]. by intros (? & ? & _). }
  destruct (2 * k <? 16) eqn:Ei; zbool.
  2: { cbn [partsOK]. replace (2 * k <? 16) with false by (symmetry; apply Z.ltb_ge; lia).
       rewrite v6PartLoop_full by lia. split; [done|]. by intros (? & ? & _). }
  pose proof (zlen_nonneg acc) as Hacc.
  assert (He0 : (0 <=? e) = true) by (apply Z.leb_le; lia).
  assert (He1 : (e <? 0) = false) by (apply Z.ltb_ge; lia).
  cbn [partsOK]. replace (2 * k <? 16) with true by (symmetry; apply Z.ltb_lt; lia). cbn [negb].
  destruct (groupb p) eqn:Eg.
  - destruct (goodGroup p qs true acc (proj1 (groupb_spec p) Eg)) as [v Hv]. rewrite Hv; clear Hv.
    replace (8 <=? zlen acc) with false by (symmetry; apply Z.leb_gt; lia).
    assert (Hl : zlen (acc ++ [v]) = k + 1) by (rewrite zlen_app; unfold zlen at 2; cbn; lia).
    destruct qs as [|q qs].
    + unfold finished. rewrite He0, He1. split.
      * intros Hf. exists (acc ++ [v]). split; [done|]. destruct (2 * k + 2 <? 16) eqn:E; [zbool; lia|done].
      * intros (gs & [= <-] & Hg). replace (2 * k + 2 <? 16) with true by (symmetry; apply Z.ltb_lt; lia). done.
    + destruct q as [|x q].
      * rewrite He0. split; [done|]. intros (gs & Hg & _). apply v6PartLoop_nonempty, Forall_inv in Hg. done.
      * replace (2 * k + 2) with (2 * (k + 1)) by lia. by apply IH.
  - destruct qs as [|q qs].
    + rewrite He1, (v6PartLoop_one p acc Eg), v4_agree. cbn [andb negb]. unfold finished. rewrite He0, He1.
      destruct (ipListParseV4 p) as [v|]; cbn [andb].
      2: { rewrite !andb_false_r. split; [done|]. by intros (? & ? & _). }
      destruct (zlen acc <=? 6) eqn:E6; zbool.
      * split.
        -- intros H. eexists. split; [done|]. rewrite zlen_app. change (zlen [_; _]) with 2.
           destruct (2 * k + 4 <? 16) eqn:E; [zbool; lia|]. by rewrite andb_false_r in H.
        -- intros (gs & [= <-] & Hg). rewrite zlen_app in Hg. change (zlen [_; _]) with 2 in Hg.
           replace (2 * k + 4 <? 16) with true by (symmetry; apply Z.ltb_lt; lia).
           by replace (16 <? 2 * k + 4) with false by (symmetry; apply Z.ltb_ge; lia).
      * split; [|by intros (? & ? & _)]. intros H. exfalso.
        replace (16 <? 2 * k + 4) with true in H by (symmetry; apply Z.ltb_lt; lia). done.
    + split; [done|]. intros (gs & Hg & _). rewrite badGroup in Hg; [done| |by right].
      rewrite <- groupb_spec. congruence.
Qed.

(** What the scanner wants of the parts when nothing has been read: eight
    groups, or groups, an empty part and at most seven groups in all. *)
Definition tailParts (ts : list qstr) (gh : list Z) : Prop :=
  (ts = [[]] /\ zlen gh <= 7) \/ exists gs, v6PartLoop ts true gh = Some gs /\ zlen gs <= 7.

Definition wholeParts (ps : list qstr) (acc : list Z) : Prop :=
  (exists gs, v6PartLoop ps true acc = Some gs /\ zlen gs = 8) \/
  (exists hs ts gh, ps = hs ++ [] :: ts /\ hs <> [] /\ v6PartLoop hs false acc = Some gh /\ tailParts ts gh).

Lemma wholeParts_group p q qs acc v :
  group p -> v6PartLoop (p :: q :: qs) true acc = v6PartLoop (q :: qs) true (acc ++ [v]) ->
  (forall hs, hs <> [] -> v6PartLoop (p :: hs) false acc = v6PartLoop hs false (acc ++ [v])) ->
  (q <> [] -> wholeParts (p :: q :: qs) acc <-> wholeParts (q :: qs) (acc ++ [v])).
Proof.
  intros Hg Ht Hf Hq. unfold wholeParts. rewrite Ht. split.
  - intros [H|(hs & ts & gh & E & Hne & Hh & Htl)]; [by left|]. right.
    destruct hs as [|p' hs]; [done|]. cbn in E. injection E as <- E. destruct hs as [|q' hs]; [by injection E as -> _|].
    exists (q' :: hs), ts, gh. split; [done|]. split; [done|]. by rewrite <- Hf.
  - intros [H|(hs & ts & gh & E & Hne & Hh & Htl)]; [by left|]. right.
    exists (p :: hs), ts, gh. split; [by rewrite E|]. split; [done|]. by rewrite Hf.
Qed.

(** Before the double colon. *)
Lemma partsOK_head k ps acc : zlen acc = k -> partsOK (-1) (2 * k) ps = true <-> wholeParts ps acc.
Proof.
  revert k acc. induction ps as [|p qs IH]; intros k acc Hk.
  { cbn. split; [done|]. intros [(? & ? & _)|(hs & ? & ? & E & _)]; [done|]. by destruct hs. }
  pose proof (zlen_nonneg acc) as Hacc.
  destruct (2 * k <? 16) eqn:Ei; zbool.
  2: { cbn [partsOK]. replace (2 * k <? 16) with false by (symmetry; apply Z.ltb_ge; lia).
       split; [done|]. intros [(gs & H & _)|(hs & ts & gh & _ & _ & H & _)]; rewrite v6PartLoop_full in H by lia; done. }
  cbn [partsOK]. replace (2 * k <? 16) with true by (symmetry; apply Z.ltb_lt; lia). cbn [negb].
  destruct (groupb p) eqn:Eg.
  - pose proof (proj1 (groupb_spec p) Eg) as Hg.
    assert (H8 : (8 <=? zlen acc) = false) by (apply Z.leb_gt; lia).
    destruct (proj2 (hexLoop_hex 0 p) (proj2 (proj2 Hg))) as [v Hv].
    assert (Hloop : forall qs allow, v6PartLoop (p :: qs) allow acc =
       match qs with [] => Some (acc ++ [v]) | _ => v6PartLoop qs allow (acc ++ [v]) end).
    { intros qs' allow. destruct Hg as (Hne & Hl & Hh). cbn [v6PartLoop].
      rewrite (contains_hex p cDot Hh eq_refl), andb_false_r, (isNil_false p Hne).
      replace (4 <? zlen p) with false by (symmetry; apply Z.ltb_ge; lia). rewrite H8, Hv. by destruct qs'. }
    assert (Hl : zlen (acc ++ [v]) = k + 1) by (rewrite zlen_app; unfold zlen at 2; cbn; lia).
    destruct qs as [|q qs].
    + unfold finished. change (0 <=? -1) with false. change (-1 <? 0) with true. split.
      * intros H. left. exists (acc ++ [v]). rewrite Hloop. split; [done|]. destruct (2 * k + 2 <? 16) eqn:E; [done|]. zbool. lia.
      * intros [(gs & H & H')|(hs & ts & gh & E & Hne & _)].
        -- rewrite Hloop in H. injection H as <-. replace (2 * k + 2 <? 16) with false by (symmetry; apply Z.ltb_ge; lia). done.
        -- destruct hs as [|? [|]]; done.
    + destruct q as [|x q].
      * change (0 <=? -1) with false. cbv iota.
        assert (Hw : wholeParts (p :: [] :: qs) acc <-> tailParts qs (acc ++ [v])).
        { split.
          - intros [(gs & H & _)|(hs & ts & gh & E & Hne & Hh & Ht)].
            + apply v6PartLoop_nonempty in H. apply Forall_cons in H as [_ H]. apply Forall_inv in H. done.
            + destruct hs as [|p' hs]; [done|]. injection E as <- E. destruct hs as [|q hs].
              * rewrite Hloop in Hh. injection Hh as <-. injection E as <-. done.
              * injection E as <- _. apply v6PartLoop_nonempty in Hh. apply Forall_cons in Hh as [_ Hh]. apply Forall_inv in Hh. done.
          - intros Ht. right. exists [p], qs, (acc ++ [v]). split; [done|]. split; [done|]. split; [by rewrite Hloop|done]. }
        rewrite Hw. unfold tailParts. replace (2 * k + 2) with (2 * (k + 1)) by lia.
        assert (Hfin : finished (2 * (k + 1)) (2 * (k + 1)) = true <-> zlen (acc ++ [v]) <= 7).
        { unfold finished. rewrite Hl. destruct (2 * (k + 1) <? 16) eqn:E; zbool; rewrite ?Z.leb_le, ?Z.ltb_lt; lia. }
        assert (Htail : forall qs, partsOK (2 * (k + 1)) (2 * (k + 1)) qs = true <->
           exists gs, v6PartLoop qs true (acc ++ [v]) = Some gs /\ zlen gs <= 7)
          by (intros; apply partsOK_tail; [lia|done]).
        assert (Hnil : forall l, v6PartLoop ([] :: l) true (acc ++ [v]) = None).
        { intros l. destruct (v6PartLoop ([] :: l) true (acc ++ [v])) eqn:E; [|done].
          apply v6PartLoop_nonempty, Forall_inv in E. done. }
        destruct qs as [|[|y ys] [|q' qs]]; rewrite ?Hfin, ?Htail.
        -- split; [by intros (? & ? & _)|]. intros [[? _]|]; done.
        -- split; [by left; split|]. intros [[_ H]|(gs & H & _)]; [done|]. by rewrite Hnil in H.
        -- split; [eauto|]. intros [[? _]|]; done.
        -- split; [eauto|]. intros [[? _]|]; done.
        -- split; [eauto|]. intros [[? _]|]; done.
      * replace (2 * k + 2) with (2 * (k + 1)) by lia. rewrite (IH (k + 1) (acc ++ [v]) Hl).
        symmetry. apply wholeParts_group; [done|by rewrite Hloop| |done]. intros hs Hne. rewrite Hloop. by destruct hs.
  - assert (Hng : ~ group p) by (rewrite <- groupb_spec; congruence).
    assert (Hhead : forall hs, v6PartLoop (p :: hs) false acc = None) by (intros; apply badGroup; [done|by left]).
    destruct qs as [|q qs].
    + change (-1 <? 0) with true. cbn [andb]. unfold finished. change (0 <=? -1) with false. change (-1 <? 0) with true.
      assert (Hw : wholeParts [p] acc <-> exists gs, v6PartLoop [p] true acc = Some gs /\ zlen gs = 8).
      { split; [|by left]. intros [H|(hs & ts & gh & E & Hne & _)]; [done|]. by destruct hs as [|? [|]]. }
      rewrite Hw, (v6PartLoop_one p acc Eg), v4_agree. destruct (ipListParseV4 p) as [v|]; cbn [andb].
      2: { rewrite !andb_false_r. cbn [andb]. split; [done|]. by intros (? & ? & _). }
      rewrite !andb_true_r. destruct (zlen acc <=? 6) eqn:E6; zbool.
      * split.
        -- intros H. eexists. split; [done|]. rewrite zlen_app. change (zlen [_; _]) with 2.
           zbool. lia.
        -- intros (gs & [= <-] & H). rewrite zlen_app in H. change (zlen [_; _]) with 2 in H.
           assert (k = 6) as -> by lia. done.
      * split; [|by intros (? & ? & _)]. intros H. zbool. lia.
    + split; [done|]. intros [(gs & H & _)|(hs & ts & gh & E & Hne & H & _)].
      * rewrite badGroup in H; [done|done|by right].
      * destruct hs as [|p' hs]; [done|]. injection E as <- _. by rewrite Hhead in H.
Qed.

(** ** From the parts back to the text *)

Definition plainPart (p : qstr) : Prop := p <> [] /\ contains cColon p = false.

Lemma splitOn_app_any sep a b : splitOn sep (a ++ sep :: b) = splitOn sep a ++ splitOn sep b.
Proof.
  induction a as [|c a IH]; cbn [app]; rewrite splitOn_step; [by rewrite Z.eqb_refl|].
  rewrite (splitOn_step sep c a), IH. destruct (c =? sep); [done|].
  pose proof (splitOn_nonempty sep a). by destruct (splitOn sep a).
Qed.

Lemma gap_cons c d s : indexOfStr (u "::") (c :: d :: s) =
  if (c =? cColon) && (d =? cColon) then Some 0%nat else S <$> indexOfStr (u "::") (d :: s).
Proof. rewrite indexOfStr_cons. change (u "::") with [cColon; cColon]. cbn [startsWith]. by rewrite !(Z.eqb_sym _ cColon), andb_true_r. Qed.

Lemma gap_one c : indexOfStr (u "::") [c] = None.
Proof. change (u "::") with [cColon; cColon]. cbn. by rewrite andb_false_r. Qed.

(** A part before the text moves the double colon. *)
Lemma gap_skip p s : plainPart p -> indexOfStr (u "::") (p ++ s) = (fun i => (length p + i)%nat) <$> indexOfStr (u "::") s.
Proof.
  intros [_ Hp]. induction p as [|c p IH]; cbn [app length]; [by destruct (indexOfStr _ s)|].
  rewrite contains_cons in Hp. apply orb_false_iff in Hp as [Hc Hp]. rewrite Z.eqb_sym in Hc.
  assert (indexOfStr (u "::") (c :: p ++ s) = S <$> indexOfStr (u "::") (p ++ s)) as ->.
  { rewrite indexOfStr_cons. change (u "::") with [cColon; cColon]. cbn [startsWith]. by rewrite (Z.eqb_sym _ c), Hc. }
  rewrite (IH Hp). by destruct (indexOfStr (u "::") s).
Qed.

Lemma gap_colon p s : plainPart p -> indexOfStr (u "::") (cColon :: p ++ s) = S <$> indexOfStr (u "::") (p ++ s).
Proof.
  intros [Hne Hp]. destruct p as [|c p]; [done|]. cbn [app]. rewrite gap_cons.
  rewrite contains_cons in Hp. apply orb_false_iff in Hp as [Hc _]. rewrite (Z.eqb_sym c), Hc, andb_false_r. done.
Qed.

(** Texts without empty parts have no double colon. *)
Lemma gap_none ps : Forall plainPart ps -> ps <> [] -> indexOfStr (u "::") (joinWith cColon ps) = None
  /\ indexOfStr (u "::") (cColon :: joinWith cColon ps) = None.
Proof.
  induction ps as [|p ps IH]; intros Hp Hne; [done|]. apply Forall_cons in Hp as [Hp Hps].
  assert (Hj : exists s, joinWith cColon (p :: ps) = p ++ s /\ indexOfStr (u "::") s = None).
  { destruct ps as [|q ps]; [exists []; by rewrite app_nil_r|]. exists (cColon :: joinWith cColon (q :: ps)).
    split; [done|]. by apply IH. }
  destruct Hj as (s & -> & Hs). rewrite gap_colon, gap_skip, Hs by done. done.
Qed.

(** The double colon stands after the leading parts. *)
Lemma gap_at hs t : Forall plainPart hs -> hs <> [] ->
  indexOfStr (u "::") (joinWith cColon hs ++ cColon :: cColon :: t) = Some (length (joinWith cColon hs)).
Proof.
  induction hs as [|p hs IH]; intros Hp Hne; [done|]. apply Forall_cons in Hp as [Hp Hps].
  destruct hs as [|q hs].
  - cbn [joinWith]. rewrite gap_skip by done. rewrite gap_cons. cbn. by rewrite Nat.add_0_r.
  - change (joinWith cColon (p :: q :: hs)) with (p ++ cColon :: joinWith cColon (q :: hs)).
    rewrite <- app_assoc, gap_skip by done. cbn [app].
    assert (Hj : exists s, joinWith cColon (q :: hs) = q ++ s) by (destruct hs; [exists []; by rewrite app_nil_r|eexists; done]).
    pose proof (IH Hps ltac:(done)) as IH'. destruct Hj as [s Hj]. rewrite Hj in *. rewrite <- app_assoc in *.
    apply Forall_cons in Hps as [Hq _]. rewrite gap_colon by done. rewrite IH'. cbn. f_equal.
    rewrite !length_app. cbn [length]. rewrite length_app. lia.
Qed.

Lemma splitOn_plain s : Forall (fun p => p <> []) (splitOn cColon s) -> Forall plainPart (splitOn cColon s).
Proof.
  intros H. pose proof (splitOn_parts cColon s) as H2. apply Forall_forall. intros p Hp.
  rewrite Forall_forall in H, H2. split; auto.
Qed.

(** The parser of the parts after the double colon. *)
Lemma v6Part_loop t allow : t <> [] -> ipListParseV6Part t allow = v6PartLoop (splitOn cColon t) allow [].
Proof. by destruct t. Qed.

Lemma gap_split text gap : indexOfStr (u "::") text = Some gap ->
  exists h t, text = h ++ cColon :: cColon :: t /\ gap = length h.
Proof.
  revert gap. induction text as [|c text IH]; intros gap H; [done|]. rewrite indexOfStr_cons in H.
  destruct (startsWith (u "::") (c :: text)) eqn:E.
  - injection H as <-. change (u "::") with [cColon; cColon] in E. destruct text as [|d text]; [cbn in E; by rewrite andb_false_r in E|].
    cbn [startsWith] in E. zbool. subst. by exists [], text.
  - destruct (indexOfStr (u "::") text) as [j|]; [|done]. injection H as <-.
    destruct (IH j eq_refl) as (h & t & -> & ->). by exists (c :: h), t.
Qed.


(** The scanner's parser when the double colon is known. *)
Lemma v6_gap h t : indexOfStr (u "::") (h ++ cColon :: cColon :: t) = Some (length h) ->
  isSome (ipListParseV6 (h ++ cColon :: cColon :: t)) = true <->
  containsStr (u "::") (cColon :: t) = false /\
  exists gh gt, ipListParseV6Part h false = Some gh /\ ipListParseV6Part t true = Some gt /\ zlen gh + zlen gt <= 7.
Proof.
  intros E. unfold ipListParseV6. rewrite E, !drop_app_add, take_app_length.
  change (drop 1 (cColon :: cColon :: t)) with (cColon :: drop 0 t). change (drop 2 (cColon :: cColon :: t)) with (drop 0 t).
  rewrite drop_0.
  destruct (containsStr _ _); [split; [done|by intros [? _]]|].
  destruct (ipListParseV6Part h false) as [gh|]; [|split; [done|by intros (_ & ? & ? & ? & _)]].
  destruct (ipListParseV6Part t true) as [gt|]; [|split; [done|by intros (_ & ? & ? & _ & ? & _)]].
  destruct (7 <? zlen gh + zlen gt) eqn:E7; zbool.
  - split; [done|]. intros (_ & ? & ? & [= <-] & [= <-] & ?). lia.
  - split; [|done]. intros _. split; [done|]. eauto.
Qed.

Lemma tail_text t gh : zlen gh <= 7 -> (exists gt, ipListParseV6Part t true = Some gt /\ zlen gh + zlen gt <= 7) <->
  tailParts (splitOn cColon t) gh.
Proof.
  intros Hgh. unfold tailParts. destruct t as [|c t].
  - cbn. split; [by left|]. intros _. exists []. split; [done|]. unfold zlen in *. cbn. lia.
  - rewrite v6Part_loop by done. split.
    + intros (gt & H & Hl). right. exists (gh ++ gt). split; [by apply v6PartLoop_grow; [|lia]|]. by rewrite zlen_app.
    + intros [[H _]|(gs & H & Hl)].
      * apply (f_equal (joinWith cColon)) in H. rewrite join_splitOn in H. done.
      * destruct (v6PartLoop_app _ _ _ _ H) as (gt & -> & _). exists gt. rewrite zlen_app in Hl. split; [|done].
        apply (v6PartLoop_shift _ _ _ [] gt) in H; [done|]. apply zlen_nonneg.
Qed.

Lemma tailParts_no_gap t gh : tailParts (splitOn cColon t) gh -> containsStr (u "::") (cColon :: t) = false.
Proof.
  intros H. assert (Ht : t = [] \/ Forall (fun p => p <> []) (splitOn cColon t)).
  { destruct H as [[H _]|(gs & H & _)]; [left|right; by apply v6PartLoop_nonempty in H].
    apply (f_equal (joinWith cColon)) in H. by rewrite join_splitOn in H. }
  unfold containsStr. destruct Ht as [->|Ht]; [by rewrite gap_one|].
  apply splitOn_plain in Ht. destruct (gap_none _ Ht (splitOn_nonempty _ _)) as [_ Hg].
  by rewrite join_splitOn in Hg; rewrite Hg.
Qed.

Lemma tail_bound ts gh : tailParts ts gh -> zlen gh <= 7.
Proof.
  intros [[_ H]|(gs & H & Hl)]; [done|]. destruct (v6PartLoop_app _ _ _ _ H) as (tl & -> & _).
  rewrite zlen_app in Hl. pose proof (zlen_nonneg tl). lia.
Qed.

(** After a text [h] without an empty part. *)
Lemma v6_gap_tail h t gh : indexOfStr (u "::") (h ++ cColon :: cColon :: t) = Some (length h) ->
  ipListParseV6Part h false = Some gh ->
  isSome (ipListParseV6 (h ++ cColon :: cColon :: t)) = true <-> tailParts (splitOn cColon t) gh.
Proof.
  intros E Hh. rewrite (v6_gap h t E), Hh. split.
  - intros (_ & gh' & gt & [= <-] & Ht & Hl). apply tail_text; [pose proof (zlen_nonneg gt); lia|eauto].
  - intros Ht. split; [by apply tailParts_no_gap in Ht|]. exists gh.
    apply tail_text in Ht as (gt & ? & ?); [eauto|by eapply tail_bound].
Qed.

(** A text with a colon that does not start with two. *)
Lemma v6_whole text : text <> [] -> startsWith [cColon; cColon] text = false ->
  isSome (ipListParseV6 text) = true <-> wholeParts (splitOn cColon text) [].
Proof.
  intros Hne Hs. split.
  - intros H. destruct (indexOfStr (u "::") text) as [gap|] eqn:E.
    + destruct (gap_split text gap E) as (h & t & -> & ->). assert (Hh : h <> []) by by intros ->.
      destruct (ipListParseV6Part h false) as [gh|] eqn:Eh; [|apply (v6_gap h t E) in H as (_ & ? & ? & ? & _); congruence].
      apply (v6_gap_tail h t gh E Eh) in H. right. exists (splitOn cColon h), (splitOn cColon t), gh.
      rewrite splitOn_app_any, splitOn_step, Z.eqb_refl. rewrite v6Part_loop in Eh by done.
      split; [done|]. split; [apply splitOn_nonempty|done].
    + left. unfold ipListParseV6 in H. rewrite E, v6Part_loop in H by done.
      destruct (v6PartLoop _ true []) as [gs|]; [|done]. exists gs. split; [done|].
      destruct (zlen gs =? 8) eqn:E8; [by zbool|done].
  - intros [(gs & H & H8)|(hs & ts & gh & Ep & Hn & Hh & Ht)].
    + destruct (gap_none (splitOn cColon text)) as [E _]; [by apply splitOn_plain; eapply v6PartLoop_nonempty|apply splitOn_nonempty|].
      rewrite join_splitOn in E. unfold ipListParseV6. rewrite E, v6Part_loop, H by done. by rewrite H8.
    + assert (Hp : Forall plainPart hs).
      { apply v6PartLoop_nonempty in Hh. pose proof (splitOn_parts cColon text) as Hc. rewrite Ep in Hc.
        apply Forall_app in Hc as [Hc _]. by apply Forall_and. }
      assert (Hts : ts <> []) by (intros ->; destruct Ht as [[? _]|(? & ? & _)]; done).
      assert (Et : text = joinWith cColon hs ++ cColon :: cColon :: joinWith cColon ts).
      { rewrite <- (join_splitOn cColon text), Ep. clear -Hn Hts. induction hs as [|p hs IH]; [done|].
        destruct hs as [|q hs]; [by destruct ts|]. cbn [app] in *.
        change (joinWith cColon (p :: q :: hs)) with (p ++ cColon :: joinWith cColon (q :: hs)).
        rewrite <- app_assoc. cbn [app]. rewrite <- IH by done. done. }
      assert (Htc : splitOn cColon (joinWith cColon ts) = ts).
      { apply splitOn_join; [done|]. pose proof (splitOn_parts cColon text) as Hc. rewrite Ep in Hc.
        apply Forall_app in Hc as [_ Hc]. by apply Forall_cons in Hc as [_ Hc]. }
      assert (Hhc : splitOn cColon (joinWith cColon hs) = hs)
        by (apply splitOn_join; [done|]; eapply Forall_impl; [exact Hp|]; by intros ? [_ ?]).
      rewrite Et. apply (v6_gap_tail _ _ gh); [by apply gap_at| |by rewrite Htc].
      rewrite v6Part_loop, Hhc; [done|]. intros Hj. rewrite Hj in Hhc. cbn in Hhc. subst hs.
      apply Forall_inv in Hp as [? _]. done.
Qed.

(** After a leading double colon. *)
Lemma v6_leading t : isSome (ipListParseV6 ([cColon; cColon] ++ t)) = true <-> tailParts (splitOn cColon t) [].
Proof. apply (v6_gap_tail [] t []); [|done]. cbn [app]. by rewrite gap_cons. Qed.

(** IPv6 addresses without a zone: both parsers accept the same texts. *)
Lemma v6_agree s : contains cPercent s = false -> contains cColon s = true ->
  validationIpv6 s = (isSome (ipListParseV6 s), false).
Proof.
  intros Hp Hc. unfold validationIpv6. apply indexOf_None in Hp. rewrite Hp. cbn [isNil]. cbv iota.
  assert (Hb : forall a b : bool, (a = true <-> b = true) -> a = b) by (intros [] []; intuition).
  assert (Hr : forall r : option (qstr * Z * Z), match r with
     | Some (rest, i, e) => (if negb (isNil rest) then false else if i <? 16 then 0 <=? e else e <? 0, false)
     | None => (false, false) end = (resultOK r, false)).
  { intros [[[rest i] e]|]; [|done]. unfold resultOK, finished. by destruct (isNil rest). }
  destruct (startsWith [cColon; cColon] s) eqn:E.
  - destruct s as [|c [|d t]]; [done|cbn in E; by rewrite andb_false_r in E|]. cbn [startsWith] in E. zbool. subst c d.
    change (drop 2 (cColon :: cColon :: t)) with (drop 0 t). rewrite drop_0. change (0 <=? 0) with true.
    cbn [andb]. destruct (isNil t) eqn:Et.
    + destruct t; [|done]. done.
    + rewrite Hr. f_equal. apply Hb. rewrite (v6_leading t), ipv6Loop_parts; [|cbn; lia|by intros ->].
      rewrite (partsOK_tail 0 0 _ []) by done. unfold tailParts. split; [by right|].
      intros [[H _]|H]; [|done]. apply (f_equal (joinWith cColon)) in H. rewrite join_splitOn in H. by subst.
  - change (0 <=? -1) with false. cbn [andb]. rewrite Hr. f_equal.
    assert (Hne : s <> []) by by intros ->. rewrite ipv6Loop_parts by (done || lia).
    apply Hb. rewrite (v6_whole s Hne E). apply (partsOK_head 0 _ []). done.
Qed.

(** The validator's kind of an address the scanner reads. *)
Definition kindOf (a : option IpListParseAddr) : ValidationIpKind :=
  match a with Some a => if v6 a then IpV6 else IpV4 | None => IpInvalid end.

(** Without a colon or a zone the text is read as IPv4 when it has a point. *)
Lemma parseIpLoop_v4 s rest : contains cPercent rest = false -> contains cColon rest = false ->
  parseIpLoop s rest = mkIp (if contains cDot rest && validationIpv4Fields s then IpV4 else IpInvalid) false.
Proof.
  induction rest as [|c rest IH]; intros Hp Hc; [done|]. rewrite contains_cons in *. cbn [parseIpLoop].
  rewrite (Z.eqb_sym cDot c). rewrite (Z.eqb_sym cPercent c) in Hp. rewrite (Z.eqb_sym cColon c) in Hc.
  apply orb_false_iff in Hp as [-> Hp]. apply orb_false_iff in Hc as [-> Hc].
  destruct (c =? cDot); [done|]. by apply IH.
Qed.

(** With a colon: IPv6 when the first colon is before the first point. *)
Lemma parseIpLoop_v6 s rest : contains cPercent rest = false -> contains cColon rest = true ->
  parseIpLoop s rest = (let (ok, zoned) := validationIpv6 s in mkIp (if ok then IpV6 else IpInvalid) zoned) \/
  (parseIpLoop s rest = mkIp (if validationIpv4Fields s then IpV4 else IpInvalid) false /\
   exists p q, rest = p ++ cDot :: q /\ contains cColon p = false).
Proof.
  induction rest as [|c rest IH]; intros Hp Hc; [done|]. rewrite contains_cons in *. cbn [parseIpLoop].
  rewrite (Z.eqb_sym cPercent c) in Hp. rewrite (Z.eqb_sym cColon c) in Hc.
  apply orb_false_iff in Hp as [-> Hp]. destruct (c =? cDot) eqn:Ed.
  - right. split; [done|]. zbool. subst. by exists [], rest.
  - destruct (c =? cColon) eqn:Ec; [by left|]. cbn [orb] in Hc. destruct (IH Hp Hc) as [H|[H (p & q & -> & Hpc)]]; [by left|].
    right. split; [done|]. exists (c :: p), q. split; [done|]. by rewrite contains_cons, Z.eqb_sym, Ec.
Qed.

(** A first part with a point is no group. *)
Lemma v6_dot_first p q : contains cColon p = false -> contains cColon q = true -> isSome (ipListParseV6 (p ++ cDot :: q)) = false.
Proof.
  intros Hp Hq. destruct (isSome _) eqn:E; [|done]. exfalso. revert E.
  assert (Hs : startsWith [cColon; cColon] (p ++ cDot :: q) = false).
  { destruct p as [|c p]; [done|]. rewrite contains_cons in Hp. apply orb_false_iff in Hp as [Hp _].
    cbn [app startsWith]. by rewrite Hp. }
  rewrite v6_whole by (done || by destruct p).
  rewrite <- (partsOK_head 0) by done. destruct (indexOf cColon q) as [j|] eqn:E; [|apply indexOf_None in E; congruence].
  apply indexOf_Some in E as [E Hj]. rewrite E. change (cDot :: take j q ++ cColon :: drop (S j) q) with ((cDot :: take j q) ++ cColon :: drop (S j) q).
  rewrite app_assoc, splitOn_app.
  - rewrite partsOK_bad; [done|by apply notGroup_app|]. left. apply splitOn_nonempty.
  - by rewrite contains_app, Hp, contains_cons.
Qed.

(** C36: A text without a zone is an address for the form validators (Go netip's
    grammar) exactly when the IP scanner's own parser reads it, and both see
    the same family: no address the form accepts is lost by the scanner's list
    parser, and none of the scanner's is refused by the form. *)
Theorem address_parsers_agree s : contains cPercent s = false ->
  validationParseIp s = mkIp (kindOf (ipListParseAddress s)) false.
Proof.
  intros Hp. unfold validationParseIp, ipListParseAddress. destruct (contains cColon s) eqn:Hc.
  - pose proof Hp as Hz. apply indexOf_None in Hz. rewrite Hz.
    destruct (parseIpLoop_v6 s s Hp Hc) as [->|[-> (p & q & -> & Hpc)]].
    + rewrite (v6_agree s Hp Hc). by destruct (ipListParseV6 s) as [[h l]|].
    + assert (Hq : contains cColon q = true).
      { rewrite contains_app, Hpc, contains_cons in Hc. done. }
      pose proof (v6_dot_first p q Hpc Hq) as H6. destruct (ipListParseV6 _) as [[h l]|]; [done|].
      destruct (validationIpv4Fields _) eqn:E4; [|done]. apply validationIpv4Fields_quad, quad_no_colon in E4. congruence.
  - rewrite parseIpLoop_v4 by done. rewrite v4_agree. destruct (ipListParseV4 s) as [v|] eqn:E.
    + assert (validationIpv4Fields s = true) as Hd by (apply v4_eq; eauto). by rewrite (quad_dot _ Hd).
    + by rewrite andb_false_r.
Qed.

Lemma address_parsers_agree_witness :
  validationParseIp (u "2001:db8::10.0.0.1") = mkIp IpV6 false /\ validationParseIp (u "1:2:3:4:5:6:7::8") = mkIp IpInvalid false.
Proof. split; rewrite address_parsers_agree by reflexivity; reflexivity. Defined.
