(* ===== verification/ValidationRegex.v ===== *)
(** Go regular expressions: src/src/global/Validation.cpp.

    The core compiles patterns with Go's RE2, the application only has PCRE:
    [GoRegex] judges with PCRE a copy rewritten where Go is laxer
    ([validationPcreCopy]) and then looks for what RE2 refuses
    ([validationRe2Unsupported]).  Both are scanners over the pattern [p] with an
    index [i]; a step of a scanner is one round of its while loop.  An index
    that may be -1 is an option. *)
From stdpp Require Import base list gmap strings.
From Stdlib Require Import ZArith Lia Bool.
From S2P Require Import Prelude ValidationNum.

Abbreviation cBackslash := 92.
Abbreviation cCaret := 94.
Abbreviation cLParen := 40.
Abbreviation cRParen := 41.
Abbreviation cStar := 42.
Abbreviation cPlus := 43.
Abbreviation cQMark := 63.
Abbreviation cLess := 60.
Abbreviation cEqual := 61.
Abbreviation cGreater := 62.
Abbreviation cLBrace := 123.
Abbreviation cRBrace := 125.
Abbreviation cDollar := 36.
Abbreviation cUnderscore := 95.

(** p[i] for an index in range or not, mid(i, n), mid(i), indexOf(c, from). *)
Definition charIs (p : qstr) (i : nat) (c : Z) : bool :=
  match p !! i with Some x => x =? c | None => false end.

Definition charIn (p : qstr) (i : nat) (set : qstr) : bool :=
  match p !! i with Some x => contains x set | None => false end.

Definition mid (p : qstr) (i n : nat) : qstr := take n (drop i p).

Definition indexFrom (c : Z) (p : qstr) (i : nat) : option nat := Nat.add i <$> indexOf c (drop i p).

Definition indexStrFrom (s p : qstr) (i : nat) : option nat := Nat.add i <$> indexOfStr s (drop i p).

(** ** Escapes RE2 does not know *)

Definition hexValue (s : qstr) : Z :=
  fold_left (fun v c => v * 16 + (if c <=? 57 then c - 48 else Z.lor c 32 - 97 + 10)) s 0.

Section Escape.
Context {Q : QtChar}.

(** The braced or one-letter name at [at] and the index after it. *)
Definition escapeName (p : qstr) (at_ : nat) : option (qstr * nat) :=
  if charIs p at_ cLBrace then
    let? close := indexFrom cRBrace p at_ in
    Some (mid p (at_ + 1) (close - at_ - 1), close + 1)%nat
  else if (at_ <? length p)%nat then Some (mid p at_ 1, at_ + 1)%nat
  else Some ([], at_).

Definition dropCaret (name : qstr) : qstr := if startsWithChar cCaret name then drop 1 name else name.

(** The escape at [i], bad or empty, and the index after it. *)
Definition validationRe2Escape (p : qstr) (i : nat) (inClass : bool) : qstr * nat :=
  match p !! (i + 1)%nat with
  | None => ([], i)
  | Some c =>
      let escape := [cBackslash; c] in
      let at_ := (i + 2)%nat in
      if (c <? 128) && negb (validationAsciiAlnum c) then ([], at_)
      else if contains c (u "pP") then
        match escapeName p at_ with
        | None => ([], at_)
        | Some (name, i) =>
            let name := dropWhile (fun c => (c =? cUnderscore) || (c =? cDash) || (c =? cSpace)) (dropCaret name) in
            if startsWithCI (u "X") name || contains 38 name || contains cColon name || contains cEqual name
            then (escape ++ mid p at_ (i - at_), i) else ([], i)
        end
      else if c =? 120 then
        if charIs p at_ cLBrace then
          match indexFrom cRBrace p at_ with
          | None => (escape ++ drop at_ p, length p)
          | Some close =>
              let i := (close + 1)%nat in
              let digits := mid p (at_ + 1) (close - at_ - 1) in
              if negb (isNil digits) && forallb validationHexDigit digits && (hexValue digits <=? 1114111)
              then ([], i) else (escape ++ mid p at_ (i - at_), i)
          end
        else
          match p !! at_, p !! (at_ + 1)%nat with
          | Some a, Some b =>
              if validationHexDigit a && validationHexDigit b then ([], at_ + 2)%nat
              else (escape ++ mid p at_ 2, at_)
          | _, _ => (escape ++ mid p at_ 2, at_)
          end
      else if contains c (u "dDsSwWafnrtv0") then ([], at_)
      else if contains c (u "AbBz") then (if negb inClass then [] else escape, at_)
      else if contains c (u "1234567") then (if charIn p at_ (u "01234567") then [] else escape, at_)
      else (escape, at_)
  end.

End Escape.

(** ** Groups and repeats *)

Definition validationGoCaptureName (name : qstr) : bool :=
  negb (isNil name) && forallb (fun c => validationAsciiAlnum c || (c =? cUnderscore)) name.

Record ValidationRe2Group := mkGroup { gBad : qstr; gLength : nat; gOpens : bool }.

(** The flags up to the colon or the parenthesis, [k] read so far. *)
Fixpoint flagsLoop (rest : qstr) (k : nat) (negated sawFlag : bool) (todo : qstr) : ValidationRe2Group :=
  let token n := mkGroup (u "(?" ++ take n rest) 0 true in
  match todo with
  | [] => mkGroup [] 0 true
  | f :: todo' =>
      if (f =? cColon) || (f =? cRParen) then
        if negated && negb sawFlag then token (S k) else mkGroup [] (S k) (f =? cColon)
      else if f =? cDash then
        if negated then token (S k) else flagsLoop rest (S k) true false todo'
      else if contains f (u "imsU") then flagsLoop rest (S k) negated true todo'
      else token (S k)
  end.

Definition validationRe2Group (rest : qstr) : ValidationRe2Group :=
  let at_ k := default 0 (rest !! k) in
  let token n := mkGroup (u "(?" ++ take n rest) 0 true in
  let c0 := at_ 0%nat in
  let c1 := at_ 1%nat in
  if ((c0 =? 80) && (c1 =? cLess)) || ((c0 =? cLess) && negb (c1 =? cEqual) && negb (c1 =? 33)) then
    let nameStart := if c0 =? 80 then 2%nat else 1%nat in
    match indexOf cGreater rest with
    | Some close =>
        if negb (validationGoCaptureName (mid rest nameStart (close - nameStart))) then token (close + 1)%nat
        else mkGroup [] (close + 1) true
    | None => mkGroup [] 0 true
    end
  else if (c0 =? cLess) || ((c0 =? 80) && ((c1 =? cEqual) || (c1 =? cGreater))) || ((c0 =? cDash) && validationDigit c1)
  then token 2%nat
  else if contains c0 (u "=!>(#|'R&+") || validationDigit c0 then token 1%nat
  else flagsLoop rest 0 false false rest.

Fixpoint spanDigits (s : qstr) : qstr :=
  match s with
  | c :: s' => if validationDigit c then c :: spanDigits s' else []
  | [] => []
  end.

(** Go parseInt at [j]: the number and the index after it. *)
Definition repeatNumber (p : qstr) (j : nat) : option (Z * nat) :=
  let ds := spanDigits (drop j p) in
  if isNil ds || ((1 <? zlen ds) && startsWithChar c0 ds) then None
  else Some (if 7 <? zlen ds then 100000000 else digitsValue ds, (j + length ds)%nat).

(** The index after a repeat at [i] with its bounds, a missing maximum is -1;
    [None] when the brace is a literal. *)
Definition validationRepeatEnd (p : qstr) (i : nat) : option (nat * Z * Z) :=
  let? (min, j) := repeatNumber p (i + 1) in
  let? (max, j) :=
    if charIs p j cComma then
      let j := (j + 1)%nat in
      if charIs p j cRBrace then Some (-1, j) else repeatNumber p j
    else Some (min, j) in
  assert? charIs p j cRBrace in
  Some ((j + 1)%nat, min, max).

(** ** What RE2 refuses *)

Definition unsupported (token : qstr) : Message :=
  MTr (uq "The core's regex engine (RE2) does not support `%1`.") [MText token].
Definition tooManyRepeats : Message :=
  tr0 "The core's regex engine (RE2) allows at most 1000 repetitions, counting nested repeats multiplied together.".

(** The weights of the open groups, the innermost first, and of the last atom. *)
Record Re2State := mkRe2 { rGroups : list Z; rLast : Z; rInClass : bool; rClassStart : nat; rI : nat }.

Definition commit (s : Re2State) : Re2State :=
  match rGroups s with
  | g :: gs => mkRe2 (Z.max g (rLast s) :: gs) 0 (rInClass s) (rClassStart s) (rI s)
  | [] => s
  end.

Definition atIndex (i : nat) (s : Re2State) : Re2State := mkRe2 (rGroups s) (rLast s) (rInClass s) (rClassStart s) i.
Definition withLast (last : Z) (s : Re2State) : Re2State := mkRe2 (rGroups s) last (rInClass s) (rClassStart s) (rI s).
Definition pushGroup (s : Re2State) : Re2State := mkRe2 (1 :: rGroups s) (rLast s) (rInClass s) (rClassStart s) (rI s).

(** An ordinary character: an atom of weight one. *)
Definition oneAtom (i : nat) (s : Re2State) : verdict + Re2State := inr (atIndex (S i) (withLast 1 (commit s))).

Section Re2.
Context {Q : QtChar}.

Definition re2Backslash (p : qstr) (i : nat) (s : Re2State) : verdict + Re2State :=
  if (length p <=? i + 1)%nat then inl None
  else
    let s := if negb (rInClass s) then withLast 1 (commit s) else s in
    if negb (rInClass s) && charIs p (i + 1) 81 then
      match indexStrFrom (u "\E") p (i + 2) with
      | None => inl None
      | Some e => inr (atIndex (e + 2) s)
      end
    else
      let (bad, i) := validationRe2Escape p i (rInClass s) in
      if negb (isNil bad) then inl (Some (unsupported bad)) else inr (atIndex i s).

Definition re2InClass (p : qstr) (i : nat) (c : Z) (s : Re2State) : verdict + Re2State :=
  match (if (c =? cLBracket) && charIs p (i + 1) cColon then indexStrFrom (u ":]") p (i + 2) else None) with
  | Some e => inr (atIndex (e + 2) s)
  | None =>
      let closed := (c =? cRBracket) && (rClassStart s <? i)%nat in
      inr (mkRe2 (rGroups s) (rLast s) (if closed then false else rInClass s) (rClassStart s) (S i))
  end.

Definition re2OpenGroup (p : qstr) (i : nat) (s : Re2State) : verdict + Re2State :=
  if charIs p (i + 1) cStar then
    inl (Some (unsupported match indexFrom cRParen p i with
                           | None => mid p i 2
                           | Some close => mid p i (close - i + 1)
                           end))
  else
    let s := commit s in
    if charIs p (i + 1) cQMark then
      let group := validationRe2Group (drop (i + 2) p) in
      if negb (isNil (gBad group)) then inl (Some (unsupported (gBad group)))
      else inr (atIndex (i + 2 + gLength group) (if gOpens group then pushGroup s else s))
    else inr (atIndex (S i) (pushGroup s)).

Definition re2CloseGroup (i : nat) (s : Re2State) : verdict + Re2State :=
  let s := commit s in
  match rGroups s with
  | g :: h :: gs => inr (mkRe2 (h :: gs) g (rInClass s) (rClassStart s) (S i))
  | _ => inr (atIndex (S i) s)
  end.

(** The index after an optional lazy mark. *)
Definition skipLazy (p : qstr) (i : nat) : nat := if charIs p i cQMark then S i else i.

Definition re2Repeat (p : qstr) (i : nat) (s : Re2State) : verdict + Re2State :=
  match validationRepeatEnd p i with
  | None => oneAtom i s
  | Some (e, min, max) =>
      if (1000 <? min) || (1000 <? max) then inl (Some tooManyRepeats)
      else if charIs p e cPlus then inl (Some (unsupported (mid p i (e - i + 1))))
      else
        let next last := inr (atIndex (skipLazy p e) (withLast last s)) in
        if max =? 0 then next 1
        else
          let m := if max <? 0 then min else max in
          if 1 <? m then
            if 1000 <? rLast s * m then inl (Some tooManyRepeats) else next (rLast s * m)
          else next (rLast s)
  end.

(** One round of the loop at a character [c]. *)
Definition re2Step (p : qstr) (c : Z) (s : Re2State) : verdict + Re2State :=
  let i := rI s in
  if c =? cBackslash then re2Backslash p i s
  else if rInClass s then re2InClass p i c s
  else if c =? cLBracket then
    let s := withLast 1 (commit s) in
    let start := if charIs p (i + 1) cCaret then (i + 2)%nat else (i + 1)%nat in
    inr (mkRe2 (rGroups s) (rLast s) true start start)
  else if c =? cLParen then re2OpenGroup p i s
  else if c =? cRParen then re2CloseGroup i s
  else if c =? cBar then inr (atIndex (S i) (commit s))
  else if contains c (u "*+?") then
    if charIs p (i + 1) cPlus then inl (Some (unsupported (mid p i 2)))
    else inr (atIndex (skipLazy p (S i)) s)
  else if c =? cLBrace then re2Repeat p i s
  else oneAtom i s.

(** [None]: out of fuel. *)
Fixpoint re2Loop (fuel : nat) (p : qstr) (s : Re2State) : option verdict :=
  match p !! rI s with
  | None => Some None
  | Some c =>
      match fuel with
      | O => None
      | S fuel' =>
          match re2Step p c s with
          | inl v => Some v
          | inr s' => re2Loop fuel' p s'
          end
      end
  end.

Definition re2Start : Re2State := mkRe2 [1] 0 false 0 0.

Definition validationRe2Unsupported (p : qstr) : option verdict := re2Loop (length p) p re2Start.

End Re2.

(** ** The copy for PCRE *)

Definition goOnlyNames : list qstr :=
  map u ["assigned"; "casedletter"; "closepunctuation"; "cntrl"; "combiningmark"; "connectorpunctuation"; "control";
    "currencysymbol"; "dashpunctuation"; "decimalnumber"; "digit"; "enclosingmark"; "finalpunctuation"; "format";
    "initialpunctuation"; "letter"; "letternumber"; "lineseparator"; "lowercaseletter"; "mark"; "mathsymbol";
    "modifierletter"; "modifiersymbol"; "nonspacingmark"; "number"; "openpunctuation"; "other"; "otherletter";
    "othernumber"; "otherpunctuation"; "othersymbol"; "paragraphseparator"; "privateuse"; "punct"; "punctuation";
    "separator"; "spaceseparator"; "spacingmark"; "surrogate"; "symbol"; "titlecaseletter"; "unassigned";
    "uppercaseletter"]%string.

Definition validationGoOnlyProperty (name : qstr) : bool :=
  let kept := List.filter (fun c => negb ((c =? cUnderscore) || (c =? cDash) || (c =? cSpace))) name in
  forallb validationAsciiAlnum kept && existsb (eqStr (map lowerAscii kept)) goOnlyNames.

(** The end of the flag groups that start at [i]. *)
Fixpoint flagGroupsEnd (fuel : nat) (p : qstr) (i : nat) : nat :=
  match fuel with
  | O => i
  | S fuel' =>
      if charIs p i cLParen && charIs p (i + 1) cQMark then
        let group := validationRe2Group (drop (i + 2) p) in
        if negb (isNil (gBad group)) || gOpens group then i
        else flagGroupsEnd fuel' p (i + 2 + gLength group)
      else i
  end.

Definition quantifierEnd (p : qstr) (i : nat) : option nat :=
  let? e :=
    if charIn p i (u "*+?") then Some (i + 1)%nat
    else if charIs p i cLBrace then (fun r => fst (fst r)) <$> validationRepeatEnd p i
    else None in
  Some (if charIn p e (u "?+") then (e + 1)%nat else e).

Record PcreState := mkPcre {
  pOut : qstr;
  pNames : gset qstr;
  pRenamed : Z;
  pInClass : bool;
  pAfterClass : bool;
  pClassStart : nat;
  pI : nat
}.

(** [out] appended, [i] moved. *)
Definition emit (text : qstr) (i : nat) (s : PcreState) : PcreState :=
  mkPcre (pOut s ++ text) (pNames s) (pRenamed s) (pInClass s) (pAfterClass s) (pClassStart s) i.

Definition withAfter (b : bool) (s : PcreState) : PcreState :=
  mkPcre (pOut s) (pNames s) (pRenamed s) (pInClass s) b (pClassStart s) (pI s).

(** \p and \P. *)
Definition property (p : qstr) (s : PcreState) : PcreState :=
  let i := pI s in
  let put name e := emit (if validationGoOnlyProperty (dropCaret name) then u "\pL" else mid p i (e - i)) e s in
  if charIs p (i + 2) cLBrace then
    match indexFrom cRBrace p (i + 2) with
    | None => emit (drop i p) (length p) s
    | Some close => put (mid p (i + 3) (close - i - 3)) (close + 1)%nat
    end
  else
    let e := Nat.min (length p) (i + 3) in put (mid p (i + 2) (e - i - 2)) e.

(** An assertion of [n] characters, in a group of its own when it is repeated. *)
Definition assertion (p : qstr) (n : nat) (s : PcreState) : PcreState :=
  let token := mid p (pI s) n in
  let i := (pI s + n)%nat in
  emit match quantifierEnd p (flagGroupsEnd (length p) p i) with
       | Some _ => u "(?:" ++ token ++ [cRParen]
       | None => token
       end i s.

Definition pcreInClass (p : qstr) (c : Z) (s : PcreState) : PcreState :=
  let i := pI s in
  match (if c =? cBackslash then p !! (i + 1)%nat else None) with
  | Some d =>
      if contains d (u "pP") then withAfter true (property p s)
      else withAfter (contains d (u "dDsSwW")) (emit (mid p i 2) (i + 2) s)
  | None =>
      match (if (c =? cLBracket) && charIs p (i + 1) cColon then indexStrFrom (u ":]") p (i + 2) else None) with
      | Some e => withAfter true (emit (mid p i (e + 2 - i)) (e + 2) s)
      | None =>
          withAfter false
            (if (c =? cDash) && pAfterClass s then emit [cBackslash; cDash] (i + 1) s
             else if (c =? cLBracket) && charIn p (i + 1) [cDot; cEqual] then emit [cBackslash; cLBracket] (i + 1) s
             else
               let s' := emit [c] (i + 1) s in
               if (c =? cRBracket) && (pClassStart s <? i)%nat
               then mkPcre (pOut s') (pNames s') (pRenamed s') false (pAfterClass s') (pClassStart s') (pI s')
               else s')
      end
  end.

Definition pcreBackslash (p : qstr) (d : Z) (s : PcreState) : PcreState :=
  let i := pI s in
  if d =? 81 then
    let stop := match indexStrFrom (u "\E") p (i + 2) with None => length p | Some e => (e + 2)%nat end in
    emit (mid p i (stop - i)) stop s
  else if contains d (u "pP") then property p s
  else if contains d (u "bBAz") then assertion p 2 s
  else if contains d (u "xogkN") && charIs p (i + 2) cLBrace then
    let stop := match indexFrom cRBrace p (i + 3) with None => length p | Some close => (close + 1)%nat end in
    emit (mid p i (stop - i)) stop s
  else emit (mid p i 2) (i + 2) s.

Definition pcreOpenClass (p : qstr) (s : PcreState) : PcreState :=
  let i := (pI s + 1)%nat in
  let s := emit [cLBracket] i s in
  let s := if charIs p i cCaret then emit [cCaret] (i + 1) s else s in
  let i := pI s in
  let s := if charIn p i [cColon; cDot; cEqual] then emit [cBackslash] i s else s in
  mkPcre (pOut s) (pNames s) (pRenamed s) true false i i.

(** ++renamed until the name is not taken. *)
Fixpoint freshName (fuel : nat) (names : gset qstr) (renamed : Z) : option (qstr * Z) :=
  match fuel with
  | O => None
  | S fuel' =>
      let renamed := renamed + 1 in
      let fresh := cUnderscore :: number renamed in
      if decide (fresh ∈ names) then freshName fuel' names renamed else Some (fresh, renamed)
  end.

(** Where the name of a capture group starts in [rest], 0 when there is none. *)
Definition captureStart (rest : qstr) : nat :=
  if startsWith (u "P<") rest then 2
  else if startsWithChar cLess rest && negb (startsWith (u "<=") rest) && negb (startsWith (u "<!") rest) then 1
  else 0.

(** A named group: its name kept, or replaced when PCRE would refuse it. *)
Definition pcreNamed (p : qstr) (nameStart close : nat) (s : PcreState) : option PcreState :=
  let i := pI s in
  let name := mid (drop (i + 2) p) nameStart (close - nameStart) in
  let next := (i + (2 + close + 1))%nat in
  let put text names renamed :=
    let s' := emit text next s in
    mkPcre (pOut s') names renamed (pInClass s') (pAfterClass s') (pClassStart s') (pI s') in
  if validationGoCaptureName name
     && ((match name with c :: _ => validationDigit c | [] => false end) || (32 <? zlen name) || bool_decide (name ∈ pNames s))
  then
    let? (fresh, renamed) := freshName (S (size (pNames s))) (pNames s) (pRenamed s) in
    Some (put (mid p i (2 + nameStart) ++ fresh ++ [cGreater]) ({[fresh]} ∪ pNames s) renamed)
  else Some (put (mid p i (2 + close + 1)) ({[name]} ∪ pNames s) (pRenamed s)).

Definition pcreGroup (p : qstr) (s : PcreState) : option PcreState :=
  let i := pI s in
  let flags := flagGroupsEnd (length p) p i in
  if (i <? flags)%nat then
    match quantifierEnd p flags with
    | Some repeat => Some (emit (mid p flags (repeat - flags) ++ mid p i (flags - i)) repeat s)
    | None => Some (emit (mid p i (flags - i)) flags s)
    end
  else
    let rest := drop (i + 2) p in
    let nameStart := captureStart rest in
    match (if (0 <? nameStart)%nat then indexOf cGreater rest else None) with
    | Some close => if (nameStart <? close)%nat then pcreNamed p nameStart close s else Some (emit (mid p i 2) (i + 2) s)
    | None => Some (emit (mid p i 2) (i + 2) s)
    end.

(** One round of the loop at a character [c]. *)
Definition pcreStep (p : qstr) (c : Z) (s : PcreState) : option PcreState :=
  let i := pI s in
  if pInClass s then Some (pcreInClass p c s)
  else
    match (if c =? cBackslash then p !! (i + 1)%nat else None) with
    | Some d => Some (pcreBackslash p d s)
    | None =>
        if (c =? cCaret) || (c =? cDollar) then Some (assertion p 1 s)
        else if c =? cLBracket then Some (pcreOpenClass p s)
        else if (c =? cLParen) && charIs p (i + 1) cQMark then pcreGroup p s
        else if (c =? cLBrace) && match validationRepeatEnd p i with None => true | Some _ => false end
        then Some (emit [cBackslash; cLBrace] (i + 1) s)
        else Some (emit [c] (i + 1) s)
    end.

Fixpoint pcreLoop (fuel : nat) (p : qstr) (s : PcreState) : option qstr :=
  match p !! pI s with
  | None => Some (pOut s)
  | Some c =>
      match fuel with
      | O => None
      | S fuel' => let? s' := pcreStep p c s in pcreLoop fuel' p s'
      end
  end.

Definition pcreStart : PcreState := mkPcre [] ∅ 0 false false 0 0.

Definition validationPcreCopy (p : qstr) : option qstr := pcreLoop (length p) p pcreStart.

(** ** The checks *)

(** QRegularExpression: the error of an invalid pattern. *)
Class QtRegex := { regexError : qstr -> option qstr }.

Section Checks.
Context {Q : QtChar} {R : QtRegex}.

Definition Regex (pattern : qstr) : verdict :=
  let t := trimmed pattern in
  if isNil t then None
  else match regexError t with
       | None => None
       | Some e => Some (MTr (u "Invalid regular expression: %1.") [MText e])
       end.

(** [None]: out of fuel, which [GoRegex_total] excludes. *)
Definition GoRegex (pattern : qstr) : option verdict :=
  let t := trimmed pattern in
  let? copy := validationPcreCopy t in
  match Regex copy with
  | Some m => Some (Some m)
  | None => validationRe2Unsupported t
  end.

End Checks.
