(* ===== verification/ValidationRegexFacts.v ===== *)
(** The scanners of Go regular expressions always end, and on patterns built of
    characters, alternatives, groups and counted repeats they judge the repeats
    as Go's compiler does. *)
From stdpp Require Import base list gmap strings.
From Stdlib Require Import ZArith Lia Bool.
From S2P Require Import Prelude ValidationNum ValidationNumFacts ValidationRegex.

(** ** Progress *)

Lemma indexFrom_ge c p i j : indexFrom c p i = Some j -> (i <= j)%nat.
Proof. unfold indexFrom. destruct (indexOf c (drop i p)); cbn; [|done]. intros [= <-]. lia. Qed.

Lemma indexStrFrom_ge t p i j : indexStrFrom t p i = Some j -> (i <= j)%nat.
Proof. unfold indexStrFrom. destruct (indexOfStr t (drop i p)); cbn; [|done]. intros [= <-]. lia. Qed.

Lemma spanDigits_prefix s : exists r, s = spanDigits s ++ r.
Proof.
  induction s as [|c s [r IH]]; [by exists []|]. cbn [spanDigits]. destruct (validationDigit c); [|by exists (c :: s)].
  exists r. cbn. by rewrite <- IH.
Qed.

Lemma repeatNumber_gt p j n k : repeatNumber p j = Some (n, k) -> (j < k)%nat.
Proof.
  unfold repeatNumber. destruct (spanDigits (drop j p)) as [|d ds]; [done|]. cbn [isNil orb].
  break_if; [done|]. intros [= _ <-]. cbn. lia.
Qed.

Lemma validationRepeatEnd_gt p i e n m : validationRepeatEnd p i = Some (e, n, m) -> (i < e)%nat.
Proof.
  unfold validationRepeatEnd. destruct (repeatNumber p (i + 1)) as [[min j]|] eqn:E; [|done].
  apply repeatNumber_gt in E. destruct (charIs p j cComma).
  - destruct (charIs p (j + 1) cRBrace).
    + break_if; [|done]. intros [= <- _ _]. lia.
    + destruct (repeatNumber p (j + 1)) as [[max k]|] eqn:E2; [|done]. apply repeatNumber_gt in E2.
      break_if; [|done]. intros [= <- _ _]. lia.
  - break_if; [|done]. intros [= <- _ _]. lia.
Qed.

Lemma validationRe2Escape_gt {Q : QtChar} p i b d : p !! (i + 1)%nat = Some d ->
  (i < snd (validationRe2Escape p i b))%nat.
Proof.
  intros Hd. unfold validationRe2Escape. rewrite Hd.
  assert (Hlen : (i + 1 < length p)%nat) by (apply lookup_lt_Some in Hd; done).
  destruct ((d <? 128) && _); [cbn; lia|]. destruct (contains d (u "pP")).
  - destruct (escapeName p (i + 2)) as [[name j]|] eqn:E; [|cbn; lia].
    assert (i + 2 <= j)%nat.
    { unfold escapeName in E. destruct (charIs p (i + 2) cLBrace).
      - destruct (indexFrom cRBrace p (i + 2)) as [k|] eqn:Ek; [|done]. apply indexFrom_ge in Ek. injection E as _ <-. lia.
      - destruct (i + 2 <? length p)%nat; injection E as _ <-; lia. }
    cbv zeta. destruct (_ || _ || _ || _); cbn; lia.
  - destruct (d =? 120).
    + destruct (charIs p (i + 2) cLBrace).
      * destruct (indexFrom cRBrace p (i + 2)) as [k|] eqn:Ek; [|cbn; lia]. apply indexFrom_ge in Ek.
        cbv zeta. destruct (negb _ && _ && _); cbn; lia.
      * destruct (p !! (i + 2)%nat); [|cbn; lia]. destruct (p !! (i + 2 + 1)%nat); [|cbn; lia].
        destruct (_ && _); cbn; lia.
    + repeat (break_if; [cbn; lia|]). cbn; lia.
Qed.

Section Progress.
Context {Q : QtChar}.

Lemma skipLazy_ge p i : (i <= skipLazy p i)%nat.
Proof. unfold skipLazy. destruct (charIs p i cQMark); lia. Qed.

Lemma commit_i s : rI (commit s) = rI s.
Proof. unfold commit. by destruct (rGroups s). Qed.

Lemma re2Step_progress p c s s' : re2Step p c s = inr s' -> (rI s < rI s')%nat.
Proof.
  unfold re2Step. cbv zeta. destruct (c =? cBackslash).
  { unfold re2Backslash. destruct (length p <=? rI s + 1)%nat eqn:El; [done|]. apply Nat.leb_gt in El.
    set (s1 := if negb (rInClass s) then withLast 1 (commit s) else s). cbv zeta. destruct (negb (rInClass s1) && _).
    - destruct (indexStrFrom _ p _) as [e|] eqn:E; [|done]. apply indexStrFrom_ge in E. intros [= <-]. cbn. lia.
    - destruct (lookup_lt_is_Some_2 p (rI s + 1) El) as [d Hd].
      pose proof (validationRe2Escape_gt p (rI s) (rInClass s1) d Hd) as Hg.
      destruct (validationRe2Escape p (rI s) (rInClass s1)) as [bad i]. destruct (negb (isNil bad)); [done|].
      intros [= <-]. cbn in *. lia. }
  destruct (rInClass s).
  { unfold re2InClass. destruct (if _ && _ then _ else None) as [e|] eqn:E; intros [= <-]; cbn; [|lia].
    destruct ((c =? cLBracket) && _); [|done]. apply indexStrFrom_ge in E. lia. }
  destruct (c =? cLBracket).
  { intros [= <-]. cbn. destruct (charIs p (rI s + 1) cCaret); lia. }
  destruct (c =? cLParen).
  { unfold re2OpenGroup. destruct (charIs p (rI s + 1) cStar); [done|]. cbv zeta.
    destruct (charIs p (rI s + 1) cQMark); [|intros [= <-]; cbn; lia].
    destruct (negb _); [done|]. intros [= <-]. cbn. lia. }
  destruct (c =? cRParen).
  { unfold re2CloseGroup. destruct (rGroups (commit s)) as [|g [|h gs]]; intros [= <-]; cbn; lia. }
  destruct (c =? cBar); [intros [= <-]; cbn; lia|].
  destruct (contains c (u "*+?")).
  { destruct (charIs p (rI s + 1) cPlus); [done|]. intros [= <-]. cbn. pose proof (skipLazy_ge p (S (rI s))). lia. }
  destruct (c =? cLBrace); [|unfold oneAtom; intros [= <-]; cbn; lia].
  unfold re2Repeat, oneAtom. destruct (validationRepeatEnd p (rI s)) as [[[e n] m]|] eqn:E; [|intros [= <-]; cbn; lia].
  apply validationRepeatEnd_gt in E. pose proof (skipLazy_ge p e).
  destruct ((1000 <? n) || (1000 <? m)); [done|]. destruct (charIs p e cPlus); [done|].
  destruct (m =? 0); [intros [= <-]; cbn; lia|]. cbv zeta. destruct (1 <? _); [|intros [= <-]; cbn; lia].
  destruct (1000 <? _); [done|]. intros [= <-]. cbn. lia.
Qed.

Lemma re2Loop_total fuel p s : (length p <= fuel + rI s)%nat -> exists v, re2Loop fuel p s = Some v.
Proof.
  revert s. induction fuel as [|fuel IH]; intros s Hf; cbn [re2Loop].
  - destruct (p !! rI s) eqn:E; [|eauto]. apply lookup_lt_Some in E. lia.
  - destruct (p !! rI s) as [c|]; [|eauto]. destruct (re2Step p c s) as [v|s'] eqn:E; [eauto|].
    apply re2Step_progress in E. apply IH. lia.
Qed.

Lemma re2Loop_mono f1 f2 p s v : re2Loop f1 p s = Some v -> (f1 <= f2)%nat -> re2Loop f2 p s = Some v.
Proof.
  revert f2 s. induction f1 as [|f1 IH]; intros f2 s H Hle.
  - cbn [re2Loop] in H. destruct f2; cbn [re2Loop]; by destruct (p !! rI s).
  - destruct f2 as [|f2]; [lia|]. cbn [re2Loop] in *. destruct (p !! rI s); [|done].
    destruct (re2Step p _ s); [done|]. apply IH; [done|lia].
Qed.
End Progress.

(** ** The copy ends *)

Lemma number_inj n m : 0 <= n -> 0 <= m -> number n = number m -> n = m.
Proof.
  intros Hn Hm E. apply (f_equal (foldDigits 0)) in E. by rewrite !number_value in E.
Qed.

Lemma freshName_taken fuel names r :
  freshName fuel names r = None -> forall k, 0 < k <= Z.of_nat fuel -> cUnderscore :: number (r + k) ∈ names.
Proof.
  revert r. induction fuel as [|fuel IH]; intros r H k Hk; [lia|]. cbn [freshName] in H. cbv zeta in H.
  case_decide as Hd; [|done]. destruct (decide (k = 1)) as [->|]; [done|].
  replace (r + k) with (r + 1 + (k - 1)) by lia. apply IH; [done|lia].
Qed.

Lemma freshName_spec fuel names r x r' : freshName fuel names r = Some (x, r') -> (x ∉ names) /\ r < r'.
Proof.
  revert r. induction fuel as [|fuel IH]; intros r H; [done|]. cbn [freshName] in H. cbv zeta in H.
  case_decide as Hd; [apply IH in H as [? ?]; split; [done|lia]|]. injection H as <- <-. split; [done|lia].
Qed.

(** There are more candidates than names. *)
Lemma freshName_total names r : 0 <= r -> exists x r', freshName (S (size names)) names r = Some (x, r').
Proof.
  intros Hr. destruct (freshName (S (size names)) names r) as [[x r']|] eqn:E; [eauto|]. exfalso.
  set (cand := map (fun k => cUnderscore :: number (r + Z.of_nat k)) (seq 1 (S (size names)))).
  assert (Hnd : NoDup cand).
  { unfold cand. apply NoDup_fmap_2_strong; [|apply NoDup_seq]. intros a b Ha Hb [= H].
    apply number_inj in H; lia. }
  assert (Hsub : list_to_set cand ⊆ names).
  { intros x Hx. apply elem_of_list_to_set, list_elem_of_In, in_map_iff in Hx as (k & <- & Hk).
    apply in_seq in Hk. eapply freshName_taken; [exact E|lia]. }
  apply subseteq_size in Hsub. rewrite size_list_to_set in Hsub by done.
  unfold cand in Hsub. rewrite length_map, length_seq in Hsub. lia.
Qed.

Lemma flagsLoop_length rest k neg saw todo :
  gOpens (flagsLoop rest k neg saw todo) = false -> (0 < gLength (flagsLoop rest k neg saw todo))%nat.
Proof.
  revert k neg saw. induction todo as [|f todo IH]; intros k neg saw; cbn [flagsLoop]; [done|].
  repeat (break_if; cbn; try done; try lia); apply IH.
Qed.

Lemma flagGroupsEnd_ge fuel p i : (i <= flagGroupsEnd fuel p i)%nat.
Proof.
  revert i. induction fuel as [|fuel IH]; intros i; cbn [flagGroupsEnd]; [lia|].
  destruct (_ && _); [|lia]. cbv zeta. destruct (_ || _); [lia|].
  etransitivity; [|apply IH]. lia.
Qed.

(** The fuel of the flag groups is the length of the pattern: more changes nothing. *)
Lemma flagGroupsEnd_fuel f p i : (length p <= f + i)%nat -> flagGroupsEnd (S f) p i = flagGroupsEnd f p i.
Proof.
  revert i. induction f as [|f IH]; intros i Hf.
  - cbn [flagGroupsEnd]. unfold charIs at 1. destruct (p !! i) eqn:E; [apply lookup_lt_Some in E; lia|]. done.
  - remember (S f) as f' eqn:Ef. cbn [flagGroupsEnd]. rewrite Ef at 2. cbn [flagGroupsEnd].
    destruct (_ && _); [|done]. cbv zeta. destruct (_ || _); [done|]. subst f'. apply IH. lia.
Qed.

Lemma quantifierEnd_gt p i e : quantifierEnd p i = Some e -> (i < e)%nat.
Proof.
  unfold quantifierEnd. destruct (charIn p i (u "*+?")).
  - destruct (charIn p (i + 1) (u "?+")); intros [= <-]; lia.
  - destruct (charIs p i cLBrace); [|done]. destruct (validationRepeatEnd p i) as [[[k n] m]|] eqn:E; [|done].
    apply validationRepeatEnd_gt in E. cbn [fmap option_fmap option_map fst]. destruct (charIn p k (u "?+")); intros [= <-]; lia.
Qed.

(** What a round keeps: the index moves on and the counter of new names grows. *)
Definition advanced (s s' : PcreState) : Prop := (pI s < pI s')%nat /\ pRenamed s <= pRenamed s'.

Lemma emit_advanced t i s : (pI s < i)%nat -> advanced s (emit t i s).
Proof. by split. Qed.

Lemma property_advanced p s c : p !! pI s = Some c -> advanced s (property p s).
Proof.
  intros H. apply lookup_lt_Some in H. unfold property. cbv zeta. destruct (charIs p (pI s + 2) cLBrace).
  - destruct (indexFrom cRBrace p (pI s + 2)) as [k|] eqn:E; [apply indexFrom_ge in E|]; apply emit_advanced; lia.
  - apply emit_advanced. lia.
Qed.

Lemma withAfter_advanced b s s' : advanced s s' -> advanced s (withAfter b s').
Proof. done. Qed.

Lemma pcreInClass_advanced p c s : p !! pI s = Some c -> advanced s (pcreInClass p c s).
Proof.
  intros H. unfold pcreInClass. cbv zeta. destruct (if c =? cBackslash then p !! (pI s + 1)%nat else None) as [d|].
  - destruct (contains d (u "pP")); apply withAfter_advanced; [by eapply property_advanced|apply emit_advanced; lia].
  - destruct (if (c =? cLBracket) && _ then _ else None) as [e|] eqn:E; apply withAfter_advanced.
    + apply emit_advanced. destruct ((c =? cLBracket) && charIs p (pI s + 1) cColon); [|done]. apply indexStrFrom_ge in E. lia.
    + repeat break_if; try (apply emit_advanced; lia).
Qed.

Lemma pcreBackslash_advanced p c d s : p !! pI s = Some c -> advanced s (pcreBackslash p d s).
Proof.
  intros H. pose proof (lookup_lt_Some _ _ _ H) as Hl. unfold pcreBackslash. cbv zeta. destruct (d =? 81).
  { apply emit_advanced. destruct (indexStrFrom _ _ _) eqn:E; [apply indexStrFrom_ge in E|]; lia. }
  destruct (contains d (u "pP")); [by eapply property_advanced|].
  destruct (contains d (u "bBAz")); [apply emit_advanced; lia|].
  destruct (_ && _); apply emit_advanced; [|lia].
  destruct (indexFrom _ _ _) eqn:E; [apply indexFrom_ge in E|]; lia.
Qed.

Lemma pcreNamed_advanced p n k s : 0 <= pRenamed s -> exists s', pcreNamed p n k s = Some s' /\ advanced s s'.
Proof.
  intros Hr. unfold pcreNamed. cbv zeta. break_if.
  - destruct (freshName_total (pNames s) (pRenamed s) Hr) as (x & r' & E). rewrite E.
    apply freshName_spec in E as [_ E]. eexists. split; [done|]. split; cbn; lia.
  - eexists. split; [done|]. split; cbn; lia.
Qed.

Lemma pcreGroup_advanced p s : 0 <= pRenamed s -> exists s', pcreGroup p s = Some s' /\ advanced s s'.
Proof.
  intros Hr. unfold pcreGroup. cbv zeta. destruct (pI s <? flagGroupsEnd (length p) p (pI s))%nat eqn:E.
  - apply Nat.ltb_lt in E. destruct (quantifierEnd p _) as [r|] eqn:Eq.
    + apply quantifierEnd_gt in Eq. eexists. split; [done|]. apply emit_advanced. lia.
    + eexists. split; [done|]. by apply emit_advanced.
  - assert (Hplain : advanced s (emit (mid p (pI s) 2) (pI s + 2) s)) by (apply emit_advanced; lia).
    destruct (if (0 <? captureStart (drop (pI s + 2) p))%nat then indexOf cGreater (drop (pI s + 2) p) else None) as [k|]; [|eauto].
    destruct (captureStart (drop (pI s + 2) p) <? k)%nat; [by apply pcreNamed_advanced|eauto].
Qed.

Lemma pcreStep_advanced p c s : p !! pI s = Some c -> 0 <= pRenamed s ->
  exists s', pcreStep p c s = Some s' /\ advanced s s'.
Proof.
  intros Hc Hr. unfold pcreStep. cbv zeta. destruct (pInClass s).
  { eexists. split; [done|]. by apply pcreInClass_advanced. }
  destruct (if c =? cBackslash then p !! (pI s + 1)%nat else None) as [d|].
  { eexists. split; [done|]. by eapply pcreBackslash_advanced. }
  destruct ((c =? cCaret) || (c =? cDollar)); [eexists; split; [done|]; apply emit_advanced; lia|].
  destruct (c =? cLBracket).
  { eexists. split; [done|]. unfold pcreOpenClass. cbv zeta.
    destruct (charIs p (pI s + 1) cCaret); break_if; (split; cbn; lia). }
  destruct ((c =? cLParen) && charIs p (pI s + 1) cQMark); [by apply pcreGroup_advanced|].
  destruct ((c =? cLBrace) && match validationRepeatEnd p (pI s) with None => true | Some _ => false end); eexists; (split; [done|]); apply emit_advanced; lia.
Qed.

Lemma pcreLoop_total fuel p s : (length p <= fuel + pI s)%nat -> 0 <= pRenamed s -> exists t, pcreLoop fuel p s = Some t.
Proof.
  revert s. induction fuel as [|fuel IH]; intros s Hf Hr; cbn [pcreLoop].
  - destruct (p !! pI s) eqn:E; [|eauto]. apply lookup_lt_Some in E. lia.
  - destruct (p !! pI s) as [c|] eqn:E; [|eauto]. destruct (pcreStep_advanced p c s E Hr) as (s' & -> & [H1 H2]).
    apply IH; lia.
Qed.

Lemma pcreLoop_mono f1 f2 p s t : pcreLoop f1 p s = Some t -> (f1 <= f2)%nat -> pcreLoop f2 p s = Some t.
Proof.
  revert f2 s. induction f1 as [|f1 IH]; intros f2 s H Hle.
  - cbn [pcreLoop] in H. destruct f2; cbn [pcreLoop]; by destruct (p !! pI s).
  - destruct f2 as [|f2]; [lia|]. cbn [pcreLoop] in *. destruct (p !! pI s); [|done].
    destruct (pcreStep p _ s); [|done]. apply IH; [done|lia].
Qed.

(** The check of a Go regular expression always ends with a verdict: each
    round of the rewriting loop and of the RE2 loop moves the index on, the
    search for a free group name stops, so the length of the pattern is enough
    fuel for both. *)
Theorem GoRegex_total {Q : QtChar} {R : QtRegex} pattern : exists v, GoRegex pattern = Some v.
Proof.
  unfold GoRegex. cbv zeta. set (t := trimmed pattern).
  destruct (pcreLoop_total (length t) t pcreStart) as [copy Hc]; [lia|cbn; lia|].
  unfold validationPcreCopy. rewrite Hc. destruct (Regex copy); [eauto|].
  unfold validationRe2Unsupported. apply re2Loop_total. lia.
Qed.

(** ** Counted repeats

    Patterns of ordinary characters, alternatives, groups and counted repeats. *)

Inductive count := Once | Times (n : Z) | AtLeast (n : Z) | Between (n m : Z).

#[export] Instance count_eq_dec : EqDecision count.
Proof. solve_decision. Defined.

Inductive re :=
| Empty
| Or (r : re)
| Chr (c : Z) (k : count) (r : re)
| Grp (body : re) (k : count) (r : re).

Definition countText (k : count) : qstr :=
  match k with
  | Once => []
  | Times n => cLBrace :: number n ++ [cRBrace]
  | AtLeast n => cLBrace :: number n ++ [cComma; cRBrace]
  | Between n m => cLBrace :: number n ++ cComma :: number m ++ [cRBrace]
  end.

Fixpoint reText (r : re) : qstr :=
  match r with
  | Empty => []
  | Or r => cBar :: reText r
  | Chr c k r => c :: countText k ++ reText r
  | Grp b k r => cLParen :: reText b ++ cRParen :: countText k ++ reText r
  end.

Definition ordinary (c : Z) : bool := negb (contains c (u "\[](){}|*+?^$")).

Definition wfCount (k : count) : Prop :=
  match k with Once => True | Times n | AtLeast n => 0 <= n | Between n m => 0 <= n /\ 0 <= m end.

Fixpoint wf (r : re) : Prop :=
  match r with
  | Empty => True
  | Or r => wf r
  | Chr c k r => ordinary c = true /\ wfCount k /\ wf r
  | Grp b k r => wf b /\ wfCount k /\ wf r
  end.

(** Go repeatIsValid: the weight of a pattern is the largest product of the
    counts around one of its characters, a maximum of zero leaves one. *)
Definition times (w n : Z) : Z := if n =? 0 then 1 else w * n.

Definition countWeight (w : Z) (k : count) : Z :=
  match k with
  | Once => w
  | Times n | Between _ n => times w n
  | AtLeast n => w * Z.max 1 n
  end.

Fixpoint weight (r : re) : Z :=
  match r with
  | Empty => 1
  | Or r => weight r
  | Chr c k r => Z.max (countWeight 1 k) (weight r)
  | Grp b k r => Z.max (countWeight (weight b) k) (weight r)
  end.

Definition boundsAllowed (k : count) : bool :=
  match k with
  | Once => true
  | Times n | AtLeast n => n <=? 1000
  | Between n m => (n <=? 1000) && (m <=? 1000)
  end.

Definition countAllowed (w : Z) (k : count) : bool := boundsAllowed k && (countWeight w k <=? 1000).

Fixpoint allowed (r : re) : bool :=
  match r with
  | Empty => true
  | Or r => allowed r
  | Chr c k r => countAllowed 1 k && allowed r
  | Grp b k r => allowed b && countAllowed (weight b) k && allowed r
  end.

(** ** Reading the counts *)

Definition capped (n : Z) : Z := if 7 <? zlen (number n) then 100000000 else n.

Lemma capped_le n : 0 <= n -> (1000 <? capped n) = (1000 <? n).
Proof.
  intros Hn. unfold capped. destruct (7 <? zlen (number n)) eqn:E; [|done]. zbool.
  destruct (1000 <? n) eqn:En; [done|]. zbool. exfalso.
  assert (length (number n) <= 4)%nat; [|unfold zlen in E; lia].
  rewrite number_digits by done. apply digits_length; [lia|lia| |lia]. change (10 ^ Z.of_nat 4) with 10000. lia.
Qed.

Lemma capped_small n : 0 <= n <= 1000 -> capped n = n.
Proof.
  intros Hn. unfold capped. destruct (7 <? zlen (number n)) eqn:E; [|done]. zbool. exfalso.
  assert (length (number n) <= 4)%nat; [|unfold zlen in E; lia].
  rewrite number_digits by lia. apply digits_length; [lia|lia| |lia]. change (10 ^ Z.of_nat 4) with 10000. lia.
Qed.

Lemma spanDigits_app ds c post : forallb validationDigit ds = true -> validationDigit c = false ->
  spanDigits (ds ++ c :: post) = ds.
Proof.
  intros Hd Hc. induction ds as [|d ds IH]; cbn [app spanDigits]; [by rewrite Hc|].
  cbn [forallb] in Hd. apply andb_true_iff in Hd as [-> Hd]. by rewrite IH.
Qed.

Lemma number_head n : 0 <= n -> (1 <? zlen (number n)) && startsWithChar c0 (number n) = false.
Proof.
  intros Hn. rewrite number_digits by done. destruct (decide (n < 10)).
  - rewrite digits_small by lia. done.
  - destruct (digits_head 10 n) as (d & Hd & E); [lia|lia|]. destruct (digits 10 n) as [|x l]; [done|].
    cbn in E. subst x. apply andb_false_iff. right. cbn. unfold digitChar.
    replace (d <? 10) with true by (symmetry; apply Z.ltb_lt; lia). apply Z.eqb_neq. lia.
Qed.

Lemma repeatNumber_number p j n c post : 0 <= n -> validationDigit c = false ->
  drop j p = number n ++ c :: post -> repeatNumber p j = Some (capped n, (j + length (number n))%nat).
Proof.
  intros Hn Hc E. unfold repeatNumber. rewrite E, spanDigits_app by (done || by apply number_allDigits). cbv zeta.
  rewrite number_head by done. rewrite isNil_false by (rewrite number_digits by done; apply digits_nonempty; lia).
  cbn [orb]. unfold capped. by rewrite (number_value n Hn : digitsValue (number n) = n).
Qed.

Lemma charIs_drop p j s c : drop j p = s -> charIs p j c = startsWithChar c s.
Proof.
  intros <-. unfold charIs, startsWithChar. rewrite <- (Nat.add_0_r j) at 1. rewrite <- lookup_drop.
  by destruct (drop j p).
Qed.

Lemma drop_more {A} (p : list A) j a b : drop j p = a ++ b -> drop (j + length a) p = b.
Proof. intros E. rewrite <- drop_drop, E. apply drop_app_length. Qed.

Lemma drop_next {A} (p : list A) j x b : drop j p = x :: b -> drop (j + 1) p = b.
Proof. intros E. by apply (drop_more p j [x] b). Qed.

Definition countBounds (k : count) : option (Z * Z) :=
  match k with
  | Once => None
  | Times n => Some (capped n, capped n)
  | AtLeast n => Some (capped n, -1)
  | Between n m => Some (capped n, capped m)
  end.

Lemma number_not_brace m s : 0 <= m -> startsWithChar cRBrace (number m ++ s) = false.
Proof.
  intros Hm. pose proof (number_allDigits m Hm) as Hd. destruct (number m) as [|d ds] eqn:En.
  - exfalso. rewrite number_digits in En by done. eapply digits_nonempty; [|exact Hm|exact En]. lia.
  - cbn in Hd |- *. apply andb_true_iff in Hd as [Hd _]. unfold validationDigit in Hd. zbool. apply Z.eqb_neq. lia.
Qed.

(** Looks at the next character. *)
Ltac peek E := cbv beta iota zeta; rewrite (charIs_drop _ _ _ _ E); cbn [startsWithChar app Z.eqb Pos.eqb]; cbv beta iota zeta.

Lemma repeatEnd_count p i k post : wfCount k -> drop i p = countText k ++ post -> k <> Once ->
  (fun r => ((i + length (countText k))%nat, fst r, snd r)) <$> countBounds k = validationRepeatEnd p i.
Proof.
  intros Hw E Hk. unfold validationRepeatEnd. destruct k as [|n|n|n m]; [done| | |]; cbn [countText app] in E;
    cbn [wfCount] in Hw; apply drop_next in E.
  - rewrite <- app_assoc in E. rewrite (repeatNumber_number p (i + 1) n cRBrace post Hw eq_refl E).
    apply drop_more in E. peek E. peek E. cbn. f_equal. f_equal. f_equal. rewrite length_app. cbn. lia.
  - rewrite <- app_assoc in E. rewrite (repeatNumber_number p (i + 1) n cComma _ Hw eq_refl E).
    apply drop_more in E. peek E.
    apply drop_next in E. peek E. peek E. cbn. f_equal. f_equal. f_equal. rewrite length_app. cbn. lia.
  - destruct Hw as [Hn Hm]. rewrite <- app_assoc in E. cbn [app] in E. rewrite <- app_assoc in E. cbn [app] in E.
    rewrite (repeatNumber_number p (i + 1) n cComma _ Hn eq_refl E).
    apply drop_more in E. peek E. apply drop_next in E.
    rewrite (charIs_drop _ _ _ cRBrace E), number_not_brace by done.
    rewrite (repeatNumber_number p _ m cRBrace post Hm eq_refl E).
    apply drop_more in E. peek E. cbn. f_equal. f_equal. f_equal.
    rewrite length_app. cbn. rewrite length_app. cbn. lia.
Qed.

(** ** Scanning for RE2 *)

(** The weight after a count with these bounds, [None] when it is refused. *)
Definition repeated (w min max : Z) : option Z :=
  if (1000 <? min) || (1000 <? max) then None
  else if max =? 0 then Some 1
  else
    let m := if max <? 0 then min else max in
    if 1 <? m then if 1000 <? w * m then None else Some (w * m) else Some w.

Lemma repeated_bound w n : 1 <= w <= 1000 -> 0 <= n ->
  (if 1 <? n then if 1000 <? w * n then None else Some (w * n) else Some w) =
  if w * Z.max 1 n <=? 1000 then Some (w * Z.max 1 n) else None.
Proof.
  intros Hw Hn. destruct (1 <? n) eqn:E; zbool.
  - rewrite Z.max_r by lia. destruct (1000 <? w * n) eqn:E2; zbool.
    + by replace (w * n <=? 1000) with false by (symmetry; apply Z.leb_gt; lia).
    + by replace (w * n <=? 1000) with true by (symmetry; apply Z.leb_le; lia).
  - rewrite Z.max_l, Z.mul_1_r by lia. by replace (w <=? 1000) with true by (symmetry; apply Z.leb_le; lia).
Qed.

Lemma repeated_count w k min max : 1 <= w <= 1000 -> wfCount k -> countBounds k = Some (min, max) ->
  repeated w min max = if countAllowed w k then Some (countWeight w k) else None.
Proof.
  assert (Ht : forall n, 1 <= w <= 1000 -> 0 <= n ->
    (if n =? 0 then Some 1 else if 1 <? n then if 1000 <? w * n then None else Some (w * n) else Some w) =
    if times w n <=? 1000 then Some (times w n) else None).
  { intros n Hw Hn. rewrite repeated_bound by done. unfold times. destruct (n =? 0) eqn:E; [done|]. zbool.
    by rewrite Z.max_r by lia. }
  assert (Hpos : forall n, 0 <= n -> (1000 <? n) = negb (n <=? 1000)) by (intros; lia).
  intros Hw Hk Hb. unfold repeated, countAllowed. destruct k as [|n|n|n m]; [done|..]; injection Hb as <- <-;
    cbn [wfCount boundsAllowed countWeight] in *; rewrite ?capped_le, ?Hpos by lia.
  - destruct (n <=? 1000) eqn:En; cbn [negb orb andb]; [|done]. zbool. rewrite capped_small by lia.
    rewrite <- Ht by lia. by replace (n <? 0) with false by (symmetry; apply Z.ltb_ge; lia).
  - destruct (n <=? 1000) eqn:En; cbn [negb orb andb]; [|done]. zbool. rewrite capped_small by lia.
    change (1000 <? -1) with false. change (-1 =? 0) with false. change (-1 <? 0) with true. cbv iota zeta.
    by apply repeated_bound.
  - destruct (n <=? 1000) eqn:En; cbn [negb orb andb]; [|done]. destruct (m <=? 1000) eqn:Em; cbn [negb orb andb]; [|done].
    zbool. rewrite (capped_small m) by lia. rewrite <- Ht by lia. by replace (m <? 0) with false by (symmetry; apply Z.ltb_ge; lia).
Qed.

Lemma weight_pos r : wf r -> 1 <= weight r.
Proof.
  induction r as [|r IH|c k r IH|b IHb k r IH]; cbn [weight wf]; intros H; [lia|auto| |]; destruct H as (? & ? & ?);
    specialize (IH ltac:(done)); lia.
Qed.

Lemma countWeight_pos w k : 1 <= w -> wfCount k -> 1 <= countWeight w k.
Proof. destruct k as [|n|n|n m]; cbn; unfold times; intros Hw Hk; [lia| |lia|]; break_if; zbool; nia. Qed.

Lemma allowed_weight r : allowed r = true -> weight r <= 1000.
Proof.
  induction r as [|r IH|c k r IH|b IHb k r IH]; cbn [allowed weight]; intros H; [lia|auto| |]; unfold countAllowed in H; zbool.
  - specialize (IH ltac:(done)). lia.
  - specialize (IH ltac:(done)). lia.
Qed.

(** No pattern starts with a repeat mark. *)
Lemma reText_head r post c : wf r -> contains c (u "*+?") = true -> startsWithChar c post = false ->
  startsWithChar c (reText r ++ post) = false.
Proof.
  intros Hw Hc Hp. destruct r as [|r|d k r|b k r]; [done| | |]; cbn [reText app startsWithChar].
  - apply Z.eqb_neq. intros <-. vm_compute in Hc. done.
  - destruct Hw as [Hd _]. apply Z.eqb_neq. intros ->. unfold ordinary in Hd. apply negb_true_iff in Hd.
    revert Hd Hc. change (u "*+?") with [42; 43; 63]. change (u "\[](){}|*+?^$") with [92;91;93;40;41;123;125;124;42;43;63;94;36].
    unfold contains. cbn [existsb]. rewrite !orb_false_iff, !orb_true_iff, !Z.eqb_eq, !Z.eqb_neq. intuition congruence.
  - apply Z.eqb_neq. intros <-. vm_compute in Hc. done.
Qed.

Lemma ordinary_step c : ordinary c = true -> (c =? cBackslash) = false /\ (c =? cLBracket) = false /\ (c =? cLParen) = false /\
  (c =? cRParen) = false /\ (c =? cBar) = false /\ contains c (u "*+?") = false /\ (c =? cLBrace) = false /\
  (c =? cCaret) = false /\ (c =? cDollar) = false.
Proof.
  unfold ordinary. rewrite negb_true_iff. change (u "*+?") with [42; 43; 63].
  change (u "\[](){}|*+?^$") with [92;91;93;40;41;123;125;124;42;43;63;94;36]. unfold contains. cbn [existsb]. 
  rewrite !orb_false_iff, !Z.eqb_neq. intuition congruence.
Qed.

Section Scan.
Context {Q : QtChar} (p : qstr).

Definition re2Runs (s : Re2State) (v : verdict) : Prop := exists fuel, re2Loop fuel p s = Some v.

Lemma re2Runs_step s s' c v : p !! rI s = Some c -> re2Step p c s = inr s' -> re2Runs s' v -> re2Runs s v.
Proof. intros Hc Hs [fuel H]. exists (S fuel). cbn [re2Loop]. by rewrite Hc, Hs. Qed.

Lemma re2Runs_stop s c v : p !! rI s = Some c -> re2Step p c s = inl v -> re2Runs s v.
Proof. intros Hc Hs. exists 1%nat. cbn [re2Loop]. by rewrite Hc, Hs. Qed.

Lemma re2Runs_value v : re2Runs re2Start v -> validationRe2Unsupported p = Some v.
Proof.
  intros [fuel H]. unfold validationRe2Unsupported.
  destruct (re2Loop_total (length p) p re2Start) as [w Hw]; [lia|]. rewrite Hw.
  apply (re2Loop_mono _ (fuel + length p)) in H; [|lia]. apply (re2Loop_mono _ (fuel + length p)) in Hw; [|lia]. congruence.
Qed.

(** Outside a class, with the open groups [gs], at [i]. *)
Definition re2At (cs : nat) (gs : list Z) (last : Z) (i : nat) : Re2State := mkRe2 gs last false cs i.

Lemma lookup_at i c s : drop i p = c :: s -> p !! i = Some c.
Proof. intros E. by rewrite <- (Nat.add_0_r i), <- lookup_drop, E. Qed.

(** After an atom of weight [w] comes its count. *)
Lemma re2_count cs gs w i k post v :
  1 <= w <= 1000 -> wfCount k -> drop i p = countText k ++ post ->
  startsWithChar cPlus post = false -> startsWithChar cQMark post = false ->
  if countAllowed w k
  then re2Runs (re2At cs gs (countWeight w k) (i + length (countText k))) v -> re2Runs (re2At cs gs w i) v
  else re2Runs (re2At cs gs w i) (Some tooManyRepeats).
Proof.
  intros Hw Hk E Hp Hq. destruct (decide (k = Once)) as [->|Hne].
  { cbn [countText length] in *. rewrite Nat.add_0_r. unfold countAllowed. cbn.
    by replace (w <=? 1000) with true by (symmetry; apply Z.leb_le; lia). }
  pose proof (repeatEnd_count p i k post Hk E Hne) as Hend.
  assert (Hi : p !! i = Some cLBrace) by (destruct k; [done|..]; by eapply lookup_at; rewrite E).
  pose proof (drop_more _ _ _ _ E) as E2. set (e := (i + length (countText k))%nat) in *.
  destruct (countBounds k) as [[min max]|] eqn:Eb; [|by destruct k]. cbn [fmap option_fmap option_map fst snd] in Hend.
  assert (Hstep : re2Step p cLBrace (re2At cs gs w i) =
    match repeated w min max with Some w' => inr (re2At cs gs w' e) | None => inl (Some tooManyRepeats) end).
  { change (re2Step p cLBrace (re2At cs gs w i)) with (re2Repeat p i (re2At cs gs w i)).
    unfold re2Repeat, repeated, skipLazy. rewrite <- Hend.
    rewrite (charIs_drop _ _ _ cPlus E2), Hp, (charIs_drop _ _ _ cQMark E2), Hq. cbn [rLast re2At].
    repeat (break_if; try done). }
  rewrite (repeated_count w k min max Hw Hk Eb) in Hstep.
  destruct (countAllowed w k); [intros H|]; [by eapply re2Runs_step|by eapply re2Runs_stop].
Qed.

Definition noMark (s : qstr) : Prop := forall c, contains c (u "*+?") = true -> startsWithChar c s = false.

Lemma noMark_text r post : wf r -> noMark post -> noMark (reText r ++ post).
Proof. intros Hw Hp c Hc. apply reText_head; auto. Qed.

(** A pattern adds its weight to the group it stands in. *)
Lemma re2_scan r : forall cs g gs l i post v,
  wf r -> drop i p = reText r ++ post -> noMark post -> 1 <= g -> 0 <= l ->
  if allowed r
  then (forall g' l', Z.max g' l' = Z.max (Z.max g l) (weight r) -> 1 <= g' -> 0 <= l' ->
          re2Runs (re2At cs (g' :: gs) l' (i + length (reText r))) v) ->
       re2Runs (re2At cs (g :: gs) l i) v
  else re2Runs (re2At cs (g :: gs) l i) (Some tooManyRepeats).
Proof.
  induction r as [|r IH|c k r IH|b IHb k r IH]; intros cs g gs l i post v Hw E Hp Hg Hl; cbn [allowed reText wf weight] in *.
  - intros H. cbn [length] in H. rewrite Nat.add_0_r in H. apply H; lia.
  - pose proof (lookup_at _ _ _ E) as Hi. apply drop_next in E.
    specialize (IH cs (Z.max g l) gs 0 (i + 1)%nat post). cbn [length].
    assert (Hs : re2Step p cBar (re2At cs (g :: gs) l i) = inr (re2At cs (Z.max g l :: gs) 0 (i + 1)))
      by (by rewrite Nat.add_1_r).
    destruct (allowed r); [intros H|].
    + eapply re2Runs_step; [exact Hi|exact Hs|]. apply (IH v); [done..|lia|lia|]. intros g' l' Hm Hg' Hl'.
      replace (i + 1 + length (reText r))%nat with (i + S (length (reText r)))%nat by lia. apply H; lia.
    + eapply re2Runs_step; [exact Hi|exact Hs|]. apply (IH None); [done..|lia|lia].
  - destruct Hw as (Hc & Hk & Hw). rewrite <- app_comm_cons, <- app_assoc in E.
    pose proof (lookup_at _ _ _ E) as Hi. apply drop_next in E. cbn [length]. pose proof (noMark_text r post Hw Hp) as Hm.
    assert (Hs : re2Step p c (re2At cs (g :: gs) l i) = inr (re2At cs (Z.max g l :: gs) 1 (i + 1))).
    { destruct (ordinary_step c Hc) as (H1 & H2 & H3 & H4 & H5 & H6 & H7 & _). unfold re2Step. cbn [rI re2At rInClass].
      rewrite H1, H2, H3, H4, H5, H6, H7. unfold oneAtom. cbn. by rewrite Nat.add_1_r. }
    pose proof (fun v => re2_count cs (Z.max g l :: gs) 1 (i + 1) k _ v ltac:(lia) Hk E (Hm cPlus eq_refl) (Hm cQMark eq_refl)) as Hcount.
    apply drop_more in E. pose proof (countWeight_pos 1 k ltac:(lia) Hk).
    specialize (IH cs (Z.max g l) gs (countWeight 1 k) (i + 1 + length (countText k))%nat post). destruct (countAllowed 1 k); cbn [andb].
    + destruct (allowed r); [intros H'|]; (eapply re2Runs_step; [exact Hi|exact Hs|]; apply Hcount).
      * apply (IH v Hw E Hp); [lia|lia|]. intros g' l' Hm' Hg' Hl'. rewrite length_app in H'.
        replace (i + 1 + length (countText k) + length (reText r))%nat
          with (i + S (length (countText k) + length (reText r)))%nat by lia. apply H'; lia.
      * apply (IH None Hw E Hp); lia.
    + eapply re2Runs_step; [exact Hi|exact Hs|]. apply (Hcount None).
  - destruct Hw as (Hb & Hk & Hw). rewrite <- app_comm_cons, <- app_assoc, <- app_comm_cons, <- app_assoc in E.
    pose proof (lookup_at _ _ _ E) as Hi. apply drop_next in E. cbn [length].
    pose proof (noMark_text r post Hw Hp) as Hm. assert (Hr : noMark (cRParen :: countText k ++ reText r ++ post)).
    { intros d Hd. cbn. apply Z.eqb_neq. intros <-. done. }
    pose proof (noMark_text b _ Hb Hr) as Hmb.
    assert (Hs : re2Step p cLParen (re2At cs (g :: gs) l i) = inr (re2At cs (1 :: Z.max g l :: gs) 0 (i + 1))).
    { change (re2Step p cLParen (re2At cs (g :: gs) l i)) with (re2OpenGroup p i (re2At cs (g :: gs) l i)).
      unfold re2OpenGroup. rewrite (charIs_drop _ _ _ cStar E), (Hmb cStar eq_refl).
      rewrite (charIs_drop _ _ _ cQMark E), (Hmb cQMark eq_refl). cbn. by rewrite Nat.add_1_r. }
    pose proof (fun v => IHb cs 1 (Z.max g l :: gs) 0 (i + 1)%nat _ v Hb E Hr ltac:(lia) ltac:(lia)) as Hbody.
    destruct (allowed b) eqn:Ea; cbn [andb]; [|eapply re2Runs_step; [exact Hi|exact Hs|]; exact (Hbody None)].
    pose proof (allowed_weight b Ea) as Hwb. pose proof (weight_pos b Hb) as Hwb'. clear IHb.
    apply drop_more in E. pose proof (lookup_at _ _ _ E) as Hi2. apply drop_next in E.
    set (j := (i + 1 + length (reText b))%nat) in *.
    assert (Hclose : forall v, re2Runs (re2At cs (Z.max g l :: gs) (weight b) (j + 1)) v -> re2Runs (re2At cs (g :: gs) l i) v).
    { intros w Hrun. eapply re2Runs_step; [exact Hi|exact Hs|]. apply (Hbody w). intros g' l' Hmx _ _.
      eapply re2Runs_step; [exact Hi2| |exact Hrun].
      change (re2Step p cRParen (re2At cs (g' :: Z.max g l :: gs) l' j)) with (re2CloseGroup j (re2At cs (g' :: Z.max g l :: gs) l' j)).
      unfold re2CloseGroup, re2At. cbn [commit rGroups rInClass rClassStart rLast].
      replace (Z.max g' l') with (weight b) by lia. by rewrite Nat.add_1_r. }
    pose proof (fun v => re2_count cs (Z.max g l :: gs) (weight b) (j + 1) k _ v ltac:(lia) Hk E (Hm cPlus eq_refl) (Hm cQMark eq_refl)) as Hcount.
    apply drop_more in E. pose proof (countWeight_pos (weight b) k ltac:(lia) Hk).
    specialize (IH cs (Z.max g l) gs (countWeight (weight b) k) (j + 1 + length (countText k))%nat post). destruct (countAllowed (weight b) k); cbn [andb].
    + destruct (allowed r); [intros H'|]; apply Hclose, Hcount.
      * apply (IH v Hw E Hp); [lia|lia|]. intros g' l' Hm' Hg' Hl'.
        rewrite !length_app in H'. cbn [length] in H'. rewrite !length_app in H'.
        replace (j + 1 + length (countText k) + length (reText r))%nat
          with (i + S (length (reText b) + S (length (countText k) + length (reText r))))%nat by lia. apply H'; lia.
      * apply (IH None Hw E Hp); lia.
    + apply Hclose, (Hcount None).
Qed.

Lemma re2_pattern r : wf r -> p = reText r ->
  validationRe2Unsupported p = Some (if allowed r then None else Some tooManyRepeats).
Proof.
  intros Hw Hp. apply re2Runs_value. change re2Start with (re2At 0 [1] 0 0).
  pose proof (fun v => re2_scan r 0 1 [] 0 0 [] v Hw) as H. cbv beta in H.
  assert (Hd : drop 0 p = reText r ++ []) by (rewrite app_nil_r; by destruct p).
  specialize (fun v => H v Hd (fun c _ => eq_refl) ltac:(lia) ltac:(lia)).
  destruct (allowed r); [|exact (H None)]. apply (H None). intros g' l' _ _ _. exists 0%nat. cbn [re2Loop rI re2At].
  by rewrite lookup_ge_None_2 by (rewrite Hp; cbn; lia).
Qed.
End Scan.

(** ** The copy for PCRE *)

Section Copy.
Context (p : qstr).

Definition plainState (out : qstr) (i : nat) : PcreState := mkPcre out ∅ 0 false false 0 i.

Definition pcreRuns (s : PcreState) (t : qstr) : Prop := exists fuel, pcreLoop fuel p s = Some t.

Lemma pcreRuns_char out i c s t : drop i p = c :: s ->
  pcreStep p c (plainState out i) = Some (emit [c] (i + 1) (plainState out i)) ->
  pcreRuns (plainState (out ++ [c]) (i + 1)) t -> pcreRuns (plainState out i) t.
Proof.
  intros E Hs [fuel H]. exists (S fuel). cbn [pcreLoop pI plainState].
  rewrite <- (Nat.add_0_r i) at 1. rewrite <- lookup_drop, E. cbn [lookup list_lookup].
  change (mkPcre out ∅ 0 false false 0 i) with (plainState out i). by rewrite Hs.
Qed.

(** A character without a meaning of its own is copied. *)
Definition plain (c : Z) : Prop := Forall (fun d => c <> d) [cBackslash; cCaret; cDollar; cLBracket; cLParen; cLBrace].

Lemma pcre_plain out i c : plain c -> pcreStep p c (plainState out i) = Some (emit [c] (i + 1) (plainState out i)).
Proof.
  intros H. unfold plain in H. rewrite !Forall_cons in H. rewrite <- !Z.eqb_neq in H.
  destruct H as (H1 & H2 & H3 & H4 & H5 & H6 & _). unfold pcreStep. cbn [pInClass plainState].
  by rewrite H1, H2, H3, H4, H5, H6.
Qed.

Lemma copy_plain s out i post t : drop i p = s ++ post -> Forall plain s ->
  pcreRuns (plainState (out ++ s) (i + length s)) t -> pcreRuns (plainState out i) t.
Proof.
  intros E Hs. revert out i E. induction Hs as [|c s Hc Hs IH]; intros out i E H.
  - by rewrite app_nil_r, Nat.add_0_r in H.
  - apply (pcreRuns_char _ _ _ _ _ E); [by apply pcre_plain|]. apply drop_next in E. apply (IH _ _ E).
    rewrite <- app_assoc. cbn [app]. replace (i + 1 + length s)%nat with (i + length (c :: s))%nat by (cbn; lia). done.
Qed.

Lemma number_plain n : 0 <= n -> Forall plain (number n).
Proof.
  intros Hn. eapply Forall_impl; [exact (number_validDigits n Hn)|]. intros c Hc. cbv beta in Hc. unfold plain.
  repeat (apply List.Forall_cons; [lia|]). apply List.Forall_nil.
Qed.

Lemma copy_count k out i post t : wfCount k -> drop i p = countText k ++ post ->
  pcreRuns (plainState (out ++ countText k) (i + length (countText k))) t -> pcreRuns (plainState out i) t.
Proof.
  intros Hk E H. destruct (decide (k = Once)) as [->|Hne]; [by rewrite app_nil_r, Nat.add_0_r in H|].
  pose proof (repeatEnd_count p i k post Hk E Hne) as Hend.
  assert (Ht : exists s, countText k = cLBrace :: s /\ Forall plain s).
  { assert (Hp : forall c, c = cRBrace \/ c = cComma -> plain c).
    { intros c Hc. unfold plain. repeat (apply List.Forall_cons; [lia|]). apply List.Forall_nil. }
    destruct k as [|n|n|n m]; [done|..]; cbn [countText wfCount] in *; eexists; (split; [reflexivity|]).
    - apply Forall_app. split; [by apply number_plain|]. apply List.Forall_cons; [auto|apply List.Forall_nil].
    - apply Forall_app. split; [by apply number_plain|]. repeat (apply List.Forall_cons; [auto|]). apply List.Forall_nil.
    - destruct Hk. apply Forall_app. split; [by apply number_plain|]. apply List.Forall_cons; [auto|].
      apply Forall_app. split; [by apply number_plain|]. apply List.Forall_cons; [auto|apply List.Forall_nil]. }
  destruct Ht as (s & Et & Hs). rewrite Et in *. cbn [app] in E. apply (pcreRuns_char _ _ _ _ _ E).
  - unfold pcreStep. cbn [pInClass plainState pI]. rewrite <- Hend. by destruct k.
  - apply drop_next in E. apply (copy_plain s _ _ post _ E Hs). rewrite <- app_assoc. cbn [app].
    replace (i + 1 + length s)%nat with (i + length (cLBrace :: s))%nat by (cbn; lia). done.
Qed.

Lemma ordinary_plain c : ordinary c = true -> plain c.
Proof.
  intros H. apply ordinary_step in H as (H1 & H2 & H3 & _ & _ & _ & H7 & H8 & H9). rewrite !Z.eqb_neq in *.
  unfold plain. repeat (apply List.Forall_cons; [done|]). apply List.Forall_nil.
Qed.

Lemma copy_re r : forall out i post t, wf r -> drop i p = reText r ++ post -> noMark post ->
  pcreRuns (plainState (out ++ reText r) (i + length (reText r))) t -> pcreRuns (plainState out i) t.
Proof.
  induction r as [|r IH|c k r IH|b IHb k r IH]; intros out i post t Hw E Hp H; cbn [reText wf] in *.
  - by rewrite app_nil_r, Nat.add_0_r in H.
  - apply (pcreRuns_char _ _ _ _ _ E); [apply pcre_plain; unfold plain; repeat (apply List.Forall_cons; [done|]); apply List.Forall_nil|].
    apply drop_next in E. apply (IH _ _ post _ Hw E Hp). rewrite <- app_assoc.
    by replace (i + 1 + length (reText r))%nat with (i + length (cBar :: reText r))%nat by (cbn; lia).
  - destruct Hw as (Hc & Hk & Hw). rewrite <- app_comm_cons, <- app_assoc in E.
    apply (pcreRuns_char _ _ _ _ _ E); [by apply pcre_plain, ordinary_plain|]. apply drop_next in E.
    apply (copy_count k _ _ _ _ Hk E). apply drop_more in E. apply (IH _ _ post _ Hw E Hp).
    rewrite <- !app_assoc. cbn [app].
    replace (i + 1 + length (countText k) + length (reText r))%nat with (i + length (c :: countText k ++ reText r))%nat; [done|].
    cbn. rewrite length_app. lia.
  - destruct Hw as (Hb & Hk & Hw). rewrite <- app_comm_cons, <- app_assoc, <- app_comm_cons, <- app_assoc in E.
    assert (Hr : noMark (cRParen :: countText k ++ reText r ++ post)).
    { intros d Hd. cbn. apply Z.eqb_neq. intros <-. done. }
    apply (pcreRuns_char _ _ _ _ _ E).
    { apply drop_next in E. unfold pcreStep. cbn [pInClass plainState pI].
      by rewrite (charIs_drop _ _ _ cQMark E), (noMark_text b _ Hb Hr cQMark eq_refl). }
    apply drop_next in E. apply (IHb _ _ _ _ Hb E Hr). apply drop_more in E.
    apply (pcreRuns_char _ _ _ _ _ E); [apply pcre_plain; unfold plain; repeat (apply List.Forall_cons; [done|]); apply List.Forall_nil|].
    apply drop_next in E. apply (copy_count k _ _ _ _ Hk E). apply drop_more in E. apply (IH _ _ post _ Hw E Hp).
    rewrite <- !app_assoc. cbn [app].
    replace (i + 1 + length (reText b) + 1 + length (countText k) + length (reText r))%nat
      with (i + length (cLParen :: reText b ++ cRParen :: countText k ++ reText r))%nat; [done|].
    cbn. rewrite length_app. cbn. rewrite length_app. lia.
Qed.
End Copy.

(** On a pattern of characters, alternatives, groups and counted repeats the
    rewriting for PCRE changes nothing, and RE2's limit is computed as Go does:
    the pattern is refused exactly when a count or a product of nested counts is
    over a thousand. *)
Theorem GoRegex_counts {Q : QtChar} r : wf r ->
  validationPcreCopy (reText r) = Some (reText r) /\
  validationRe2Unsupported (reText r) = Some (if allowed r then None else Some tooManyRepeats).
Proof.
  intros Hw. split; [|by apply re2_pattern].
  assert (Hd : drop 0 (reText r) = reText r ++ []) by (rewrite app_nil_r; by destruct (reText r)).
  destruct (copy_re (reText r) r [] 0 [] (reText r) Hw Hd (fun c _ => eq_refl)) as [fuel H].
  { exists 0%nat. cbn [pcreLoop plainState pI]. by rewrite lookup_ge_None_2 by (cbn; lia). }
  unfold validationPcreCopy. destruct (pcreLoop_total (length (reText r)) (reText r) pcreStart) as [t Ht]; [lia|cbn; lia|].
  rewrite Ht. apply (pcreLoop_mono _ (fuel + length (reText r))) in H; [|lia].
  apply (pcreLoop_mono _ (fuel + length (reText r))) in Ht; [|lia].
  change pcreStart with (plainState [] 0) in Ht. rewrite H in Ht. by injection Ht as ->.
Qed.

(** (ab{30}|c){40} nests 30 and 40. *)
Lemma GoRegex_counts_witness :
  validationRe2Unsupported (u "(ab{30}|c){40}") = Some (Some tooManyRepeats) /\
  validationRe2Unsupported (u "(ab{20}|c){40,}x{0}") = Some None.
Proof.
  split.
  - apply (GoRegex_counts (Grp (Chr 97 Once (Chr 98 (Times 30) (Or (Chr 99 Once Empty)))) (Times 40) Empty)).
    cbn. repeat split; done.
  - apply (GoRegex_counts (Grp (Chr 97 Once (Chr 98 (Times 20) (Or (Chr 99 Once Empty)))) (AtLeast 40) (Chr 120 (Times 0) Empty))).
    cbn. repeat split; done.
Defined.
