(* ===== verification/ValidationText.v ===== *)
(** Keys, identifiers, lists and combined rules: src/src/global/Validation.cpp. *)
From stdpp Require Import base list strings.
From Stdlib Require Import ZArith Lia Bool.
From S2P Require Import Prelude ValidationNum ValidationNet ValidationRegex.

(** ** Base64 and hexadecimal *)

(** QByteArray's Latin-1 conversion and Base64 decoder (URL alphabet or not,
    aborting on errors) are outside the repository. *)
Class QtBase64 := {
  toLatin1 : qstr -> list Z;
  fromBase64 : bool -> list Z -> option (list Z)
}.

Definition validationBase64Char (url : bool) (c : Z) : bool :=
  if validationAsciiAlnum c then true
  else if url then (c =? cDash) || (c =? 95) else (c =? 43) || (c =? cSlash).

(** The loop that pads to a multiple of four. *)
Definition padBase64 (data : list Z) : list Z := data ++ replicate (Z.to_nat ((4 - zlen data mod 4) mod 4)) cEqual.

Section Keys.
Context {Q : QtChar} {B : QtBase64}.

Definition validationDecodeBase64 (text : qstr) (url : bool) : option (list Z) := fromBase64 url (padBase64 (toLatin1 text)).

Definition Base64Key (text : qstr) (bytes : Z) (urlAlphabet padded : bool) (empty : EmptyRule) : verdict :=
  let t := trimmed text in
  if isNil t then validationEmpty empty
  else
    let remainder := Z.rem bytes 3 in
    let dataChars := Z.quot bytes 3 * 4 + (if remainder =? 0 then 0 else remainder + 1) in
    let total := dataChars + (if padded && negb (remainder =? 0) then 3 - remainder else 0) in
    let data := Z.to_nat dataChars in
    let shape := (zlen t =? total) && forallb (validationBase64Char urlAlphabet) (take data t)
                 && forallb (Z.eqb cEqual) (drop data t) in
    if (if shape then match validationDecodeBase64 t urlAlphabet with
                      | Some decoded => zlen decoded =? bytes
                      | None => false
                      end
        else false)
    then None
    else
      let template :=
        if urlAlphabet && negb padded then u "Must be a %1-byte key in URL-safe base64 without padding (%2 characters)."
        else if urlAlphabet then u "Must be a %1-byte key in URL-safe base64 (%2 characters)."
        else if negb padded then u "Must be a %1-byte key in base64 without padding (%2 characters)."
        else u "Must be a %1-byte key in base64 (%2 characters)." in
      Some (MTr template [MText (number bytes); MText (number total)]).

(** The equal signs at the end. *)
Definition trailingEquals (t : qstr) : nat := length t - length (dropWhileEnd (Z.eqb cEqual) t).

Definition Base64 (text : qstr) (empty : EmptyRule) : verdict :=
  let t := trimmed text in
  if isNil t then validationEmpty empty
  else
    let equals := Z.of_nat (trailingEquals t) in
    let data := zlen t - equals in
    let shape := (0 <? data) && (equals <=? 2)
                 && (if equals =? 0 then negb (zlen t mod 4 =? 1) else zlen t mod 4 =? 0)
                 && forallb (validationBase64Char false) (take (Z.to_nat data) t) in
    if (if shape then match validationDecodeBase64 t false with
                      | Some decoded => negb (isNil decoded)
                      | None => false
                      end
        else false)
    then None else Some (tr0 "Not valid base64.").

Definition Hex (text : qstr) (minChars maxChars : Z) (evenLength : bool) (empty : EmptyRule) : verdict :=
  let t := trimmed text in
  if isNil t then validationEmpty empty
  else if negb (forallb validationHexDigit t) then Some (tr0 "Must be hexadecimal (0-9, a-f).")
  else if evenLength && negb (zlen t mod 2 =? 0) then Some (tr0 "Must have an even number of characters.")
  else if (0 <? maxChars) && (maxChars <? zlen t)
  then Some (MTr (u "Must be at most %1 characters long.") [MText (number maxChars)])
  else if (0 <? minChars) && (zlen t <? minChars)
  then Some (MTr (u "Must be at least %1 characters long.") [MText (number minChars)])
  else None.

End Keys.

(** ** UUIDs *)

(** The loop over the characters from [i], dashed in the 36 character form. *)
Fixpoint gofrsLoop (dashed : bool) (i : Z) (b : list Z) : bool :=
  match b with
  | [] => true
  | c :: b' =>
      let dash := dashed && ((i =? 8) || (i =? 13) || (i =? 18) || (i =? 23)) in
      if (if dash then negb (c =? cDash) else negb (validationHexDigit c)) then false else gofrsLoop dashed (i + 1) b'
  end.

(** The text without braces or URN prefix, [None] when its size is wrong. *)
Definition gofrsCore (b : list Z) : option (list Z) :=
  let n := zlen b in
  if (n =? 32) || (n =? 36) then Some b
  else if (n =? 34) || (n =? 38) then
    if negb (startsWithChar 123 b) || negb (endsWithChar 125 b) then None else Some (take (length b - 2) (drop 1 b))
  else if (n =? 41) || (n =? 45) then
    if negb (startsWith (u "urn:uuid:") b) then None else Some (drop 9 b)
  else None.

Definition validationGofrsUuid (b : list Z) : bool :=
  match gofrsCore b with
  | Some core => gofrsLoop (zlen core =? 36) 0 core
  | None => false
  end.

(** The five groups, an optional dash before each. *)
Fixpoint xrayGroups (groups : list Z) (text : list Z) : bool :=
  match groups with
  | [] => true
  | group :: groups' =>
      let text := if startsWithChar cDash text then drop 1 text else text in
      if zlen text <? group then false
      else if negb (forallb validationHexDigit (take (Z.to_nat group) text)) then false
      else xrayGroups groups' (drop (Z.to_nat group) text)
  end.

Definition validationXrayUuid (text : list Z) : bool :=
  let l := zlen text in
  if (l <? 32) || (36 <? l) then negb (l =? 0) && (l <=? 30) else xrayGroups [8; 4; 4; 4; 12] text.

Section Ids.
Context {Q : QtChar} {U : Utf8}.

Definition Uuid (text : qstr) (empty : EmptyRule) : verdict :=
  let t := trimmed text in
  if isNil t then validationEmpty empty
  else if validationGofrsUuid (toUtf8 t) then None
  else Some (tr0 "Must be a UUID, for example 123e4567-e89b-12d3-a456-426614174000.").

Definition XrayId (text : qstr) (empty : EmptyRule) : verdict :=
  let t := trimmed text in
  if isNil t then validationEmpty empty
  else if validationXrayUuid (toUtf8 t) then None
  else Some (tr0 "Must be a UUID, or a custom ID of at most 30 bytes.").

(** ** Choices and tokens *)

(** The allowed values shown: at most twelve, then an ellipsis. *)
Fixpoint shownValues (shown allowed : list qstr) : list qstr :=
  match allowed with
  | [] => shown
  | value :: allowed' =>
      if isNil value then shownValues shown allowed'
      else if zlen shown =? 12 then shown ++ [[8230]]
      else shownValues (shown ++ [value]) allowed'
  end.

Definition OneOf (text : qstr) (allowed : list qstr) (empty : EmptyRule) (caseSensitive : bool) : verdict :=
  let t := trimmed text in
  if isNil t then validationEmpty empty
  else if existsb (if caseSensitive then eqStr t else eqFold t) allowed then None
  else Some (MTr (uq "Unknown value `%1`. Use one of: %2.")
               [MText (validationShort t); MText (joinComma (shownValues [] allowed))]).

Definition validationHttpTokenChar (c : Z) : bool :=
  validationAsciiAlnum c || (negb (c =? 0) && (c <? 128) && contains c (u "!#$%&'*+-.^_`|~")).

Definition HttpToken (text : qstr) (empty : EmptyRule) : verdict :=
  let t := trimmed text in
  if isNil t then validationEmpty empty
  else if forallb validationHttpTokenChar t then None else Some (tr0 "Must not contain spaces or special characters.").

(** QJsonDocument::fromJson: the error and its byte offset, or whether the
    document is an object. *)
Class QtJsonParser := { parseJson : list Z -> (qstr * Z) + bool }.
Context {J : QtJsonParser}.

(** The line of an offset and the bytes of that line before it. *)
Fixpoint locate (bytes : list Z) (line : Z) (lineBytes : list Z) : Z * list Z :=
  match bytes with
  | [] => (line, lineBytes)
  | c :: bytes' => if c =? cLF then locate bytes' (line + 1) [] else locate bytes' line (lineBytes ++ [c])
  end.

Definition JsonObject (text : qstr) (empty : EmptyRule) : verdict :=
  if isNil (trimmed text) then validationEmpty empty
  else
    let utf8 := toUtf8 text in
    match parseJson utf8 with
    | inl (error, offset) =>
        let offset := Z.max 0 (Z.min offset (zlen utf8)) in
        let (line, lineBytes) := locate (take (Z.to_nat offset) utf8) 1 [] in
        let column := zlen (fromUtf8 lineBytes) + 1 in
        Some (MTr (u "Not valid JSON: %1 (line %2, column %3).") [MText error; MText (number line); MText (number column)])
    | inr false => Some (tr0 "Must be a JSON object.")
    | inr true => None
    end.

(** ** Lists *)

Inductive Split := SplitComma | SplitNewline | SplitCommaOrNewline | SplitWhitespace.

Definition splitParts (text : qstr) (split : Split) : list qstr :=
  match split with
  | SplitComma => splitOn cComma text
  | SplitNewline => splitOn cLF text
  | SplitCommaOrNewline => splitOn cComma (map (fun c => if c =? cLF then cComma else c) text)
  | SplitWhitespace => splitOn cSpace (simplified text)
  end.

(** Trimmed, empty items dropped. *)
Definition Items (text : qstr) (split : Split) : list qstr :=
  List.filter (fun item => negb (isNil item)) (map trimmed (splitParts text split)).

Definition Rule : Type := qstr -> verdict.

(** The loop over the items, [i] of them accepted. *)
Fixpoint eachLoop (item : Rule) (echoItem : bool) (i : Z) (items : list qstr) : verdict :=
  match items with
  | [] => None
  | x :: items' =>
      match item x with
      | None => eachLoop item echoItem (i + 1) items'
      | Some message =>
          Some (if negb echoItem then MTr (u "Item %1: %2") [MText (number (i + 1)); message]
                else MTr (uq "Item %1 (`%2`): %3") [MText (number (i + 1)); MText (validationShort x); message])
      end
  end.

Definition EachItem (text : qstr) (split : Split) (item : option Rule) (empty : EmptyRule) (echoItem : bool) : verdict :=
  let items := Items text split in
  if isNil items then validationEmpty empty
  else match item with
       | None => None
       | Some item => eachLoop item echoItem 0 items
       end.

(** Rules::AllOf: the first message of the rules that are set. *)
Fixpoint AllOf (rules : list (option Rule)) (text : qstr) : verdict :=
  match rules with
  | [] => None
  | None :: rules' => AllOf rules' text
  | Some rule :: rules' =>
      match rule text with
      | Some message => Some message
      | None => AllOf rules' text
      end
  end.

End Ids.
