(* ===== verification/ValidationRules.v ===== *)
(** Rules: the checks with their arguments fixed, and what the combined checks
    and the UUID checks accept: src/src/global/Validation.cpp. *)
From stdpp Require Import base list strings.
From Stdlib Require Import ZArith Lia Bool.
From S2P Require Import Prelude ValidationNum ValidationNet ValidationRegex ValidationText.

Module Rules.
Section Rules.
Context {Q : QtChar} {W : QtLower} {U : Utf8} {L : QtUrl} {B : QtBase64} {R : QtRegex} {J : QtJsonParser}.

Definition Required : Rule := fun text => ValidationNum.Required text.
Definition Int (min max : Z) (empty : EmptyRule) : Rule := fun text => ValidationNum.Int text min max empty.
Definition Port (empty : EmptyRule) : Rule := fun text => ValidationNum.Port text empty.
Definition PortRange (style : PortRangeStyle) : Rule := fun text => ValidationNum.PortRange text style.
Definition PortRangeOrder (style : PortRangeStyle) : Rule := fun text => ValidationNum.PortRangeOrder text style.
Definition IntOrRange (min max : Z) (empty : EmptyRule) (allowReversed : bool) : Rule :=
  fun text => ValidationNum.IntOrRange text min max empty allowReversed.
Definition Duration (rule : DurationRule) : Rule := fun text => DurationCheck text rule.
Definition MemoryBytes (allowBareInteger : bool) (empty : EmptyRule) : Rule :=
  fun text => ValidationNum.MemoryBytes text allowBareInteger empty.
Definition Ip (family : Family) (empty : EmptyRule) : Rule := fun text => ValidationNet.Ip text family empty.
Definition Cidr (family : Family) (allowBareIp : bool) (empty : EmptyRule) : Rule :=
  fun text => ValidationNet.Cidr text family allowBareIp empty.
Definition Host (empty : EmptyRule) : Rule := fun text => ValidationNet.Host text empty.
Definition HostPort (portRequired : bool) (empty : EmptyRule) : Rule := fun text => ValidationNet.HostPort text portRequired empty.
Definition Base64Key (bytes : Z) (urlAlphabet padded : bool) (empty : EmptyRule) : Rule :=
  fun text => ValidationText.Base64Key text bytes urlAlphabet padded empty.
Definition Base64 (empty : EmptyRule) : Rule := fun text => ValidationText.Base64 text empty.
Definition Hex (minChars maxChars : Z) (evenLength : bool) (empty : EmptyRule) : Rule :=
  fun text => ValidationText.Hex text minChars maxChars evenLength empty.
Definition Uuid (empty : EmptyRule) : Rule := fun text => ValidationText.Uuid text empty.
Definition XrayId (empty : EmptyRule) : Rule := fun text => ValidationText.XrayId text empty.
Definition Url (schemes : list qstr) (empty : EmptyRule) : Rule := fun text => ValidationNet.Url text schemes empty.
Definition OneOf (allowed : list qstr) (empty : EmptyRule) (caseSensitive : bool) : Rule :=
  fun text => ValidationText.OneOf text allowed empty caseSensitive.
Definition HttpToken (empty : EmptyRule) : Rule := fun text => ValidationText.HttpToken text empty.
Definition Regex : Rule := fun text => ValidationRegex.Regex text.
(** The fuel of the check is always enough ([GoRegex_total]). *)
Definition GoRegex : Rule := fun text => default None (ValidationRegex.GoRegex text).
Definition JsonObject (empty : EmptyRule) : Rule := fun text => ValidationText.JsonObject text empty.
Definition List (split : Split) (item : option Rule) (empty : EmptyRule) (echoItem : bool) : Rule :=
  fun text => EachItem text split item empty echoItem.
End Rules.
End Rules.

(** ** What a list check accepts *)

Section Lists.
Context {Q : QtChar}.

(** The message of a refused item, with its number and, when echoed, its text. *)
Definition itemMessage (echoItem : bool) (k : nat) (x : qstr) (message : Message) : Message :=
  if echoItem then MTr (uq "Item %1 (`%2`): %3") [MText (number (Z.of_nat k + 1)); MText (validationShort x); message]
  else MTr (u "Item %1: %2") [MText (number (Z.of_nat k + 1)); message].

Lemma eachLoop_spec item echoItem items i :
  eachLoop item echoItem (Z.of_nat i) items = None /\ Forall (fun x => item x = None) items \/
  exists k x message, items !! k = Some x /\ item x = Some message /\ Forall (fun x => item x = None) (take k items) /\
    eachLoop item echoItem (Z.of_nat i) items = Some (itemMessage echoItem (i + k) x message).
Proof.
  revert i. induction items as [|x items IH]; intros i; cbn [eachLoop]; [by left|].
  destruct (item x) as [message|] eqn:E.
  - right. exists 0%nat, x, message. split; [done|]. split; [done|]. split; [done|].
    rewrite Nat.add_0_r. unfold itemMessage. by destruct echoItem.
  - replace (Z.of_nat i + 1) with (Z.of_nat (S i)) by lia.
    destruct (IH (S i)) as [[-> H]|(k & y & message & Hk & Hy & Hf & ->)].
    + left. split; [done|]. by apply List.Forall_cons.
    + right. exists (S k), y, message. split; [done|]. split; [done|]. split; [by apply List.Forall_cons|].
      by replace (i + S k)%nat with (S i + k)%nat by lia.
Qed.

(** A list field is accepted exactly when every item passes the item's check
    (no item: as an empty field is), and the message of a refused list is the
    one of its first bad item, with the item's number; the items are trimmed
    and none is empty. *)
Theorem EachItem_exact text split item empty echoItem :
  let items := Items text split in
  Forall (fun x => x <> [] /\ exists part, x = trimmed part) items /\
  (items = [] -> EachItem text split (Some item) empty echoItem = validationEmpty empty) /\
  (items <> [] -> EachItem text split (Some item) empty echoItem = None <-> Forall (fun x => item x = None) items) /\
  (forall m, items <> [] -> EachItem text split (Some item) empty echoItem = Some m ->
     exists k x message, items !! k = Some x /\ item x = Some message /\
       Forall (fun x => item x = None) (take k items) /\ m = itemMessage echoItem k x message).
Proof.
  intros items. unfold EachItem. fold items. split; [|split; [by intros ->|]].
  - unfold items, Items. apply Forall_forall. intros x Hx. apply list_elem_of_In, filter_In in Hx as [Hx Hn].
    apply in_map_iff in Hx as (part & <- & _). split; [by destruct (trimmed part)|eauto].
  - destruct (eachLoop_spec item echoItem items 0) as [[E H]|(k & x & message & Hk & Hx & Hf & E)];
      change (Z.of_nat 0) with 0 in E; rewrite E.
    + split; [intros Hn; by rewrite (isNil_false _ Hn)|]. intros m Hn Hm. by rewrite (isNil_false _ Hn) in Hm.
    + split.
      * intros Hn. rewrite (isNil_false _ Hn). split; [done|]. intros H. rewrite Forall_forall in H.
        apply list_elem_of_lookup_2 in Hk. apply H in Hk. congruence.
      * intros m Hn Hm. rewrite (isNil_false _ Hn) in Hm. injection Hm as <-. eauto 10.
Qed.

End Lists.

(** Two bad entries in a list of ports: the first is named. *)
Lemma EachItem_exact_witness :
  exists k x message, Items (u " 80, 0 ,x") SplitComma !! k = Some x /\ Rules.Port EmptyRequired x = Some message /\
    Forall (fun x => Rules.Port EmptyRequired x = None) (take k (Items (u " 80, 0 ,x") SplitComma)) /\
    MTr (uq "Item %1 (`%2`): %3") [MText (u "2"); MText (u "0"); validationPortMessage] = itemMessage true k x message.
Proof. apply (EachItem_exact (u " 80, 0 ,x") SplitComma (Rules.Port EmptyRequired) EmptyRequired true); [discriminate|reflexivity]. Defined.

(** ** UUIDs *)

Definition hexes (n : Z) (s : list Z) : Prop := zlen s = n /\ forallb validationHexDigit s = true.

(** Thirty-two digits, or the five groups with dashes. *)
Definition uuidCore (s : list Z) : Prop :=
  hexes 32 s \/ exists a b c d e, hexes 8 a /\ hexes 4 b /\ hexes 4 c /\ hexes 4 d /\ hexes 12 e /\
    s = a ++ [cDash] ++ b ++ [cDash] ++ c ++ [cDash] ++ d ++ [cDash] ++ e.

Lemma gofrsLoop_app dashed i s t : gofrsLoop dashed i (s ++ t) = gofrsLoop dashed i s && gofrsLoop dashed (i + zlen s) t.
Proof.
  revert i. induction s as [|c s IH]; intros i; cbn [app gofrsLoop]; [by rewrite Z.add_0_r|]. cbv zeta.
  rewrite zlen_cons, IH, Z.add_assoc. destruct (dashed && _); [destruct (negb (c =? cDash))|destruct (negb (validationHexDigit c))]; done.
Qed.

(** Between the dashes. *)
Lemma gofrsLoop_hex dashed i s :
  (forall j, i <= j < i + zlen s -> dashed && ((j =? 8) || (j =? 13) || (j =? 18) || (j =? 23)) = false) ->
  gofrsLoop dashed i s = forallb validationHexDigit s.
Proof.
  revert i. induction s as [|c s IH]; intros i H; cbn [gofrsLoop forallb]; [done|]. rewrite zlen_cons in H.
  pose proof (zlen_nonneg s). rewrite H by lia. rewrite IH by (intros j Hj; apply H; lia).
  by destruct (validationHexDigit c).
Qed.

Lemma gofrsLoop_dash i : (i =? 8) || (i =? 13) || (i =? 18) || (i =? 23) = true -> forall c, gofrsLoop true i [c] = (c =? cDash).
Proof. intros H c. cbn [gofrsLoop andb]. cbv zeta. rewrite H. by destruct (c =? cDash). Qed.

Lemma cut (s : list Z) n : 0 <= n <= zlen s -> exists a b, s = a ++ b /\ zlen a = n.
Proof.
  intros H. exists (take (Z.to_nat n) s), (drop (Z.to_nat n) s). rewrite take_drop. split; [done|].
  unfold zlen in *. rewrite length_take. lia.
Qed.

Lemma cut_one (s : list Z) : 0 < zlen s -> exists c t, s = [c] ++ t.
Proof. destruct s as [|c t]; [done|]. eauto. Qed.

Lemma gofrs_dashed s : zlen s = 36 -> gofrsLoop true 0 s = true <->
  exists a b c d e, hexes 8 a /\ hexes 4 b /\ hexes 4 c /\ hexes 4 d /\ hexes 12 e /\
    s = a ++ [cDash] ++ b ++ [cDash] ++ c ++ [cDash] ++ d ++ [cDash] ++ e.
Proof.
  intros Hl.
  assert (G : forall a b c d e x1 x2 x3 x4, zlen a = 8 -> zlen b = 4 -> zlen c = 4 -> zlen d = 4 -> zlen e = 12 ->
    gofrsLoop true 0 (a ++ [x1] ++ b ++ [x2] ++ c ++ [x3] ++ d ++ [x4] ++ e) =
    forallb validationHexDigit a && ((x1 =? cDash) && (forallb validationHexDigit b && ((x2 =? cDash) &&
    (forallb validationHexDigit c && ((x3 =? cDash) && (forallb validationHexDigit d && ((x4 =? cDash) && forallb validationHexDigit e)))))))).
  { intros a b c d e x1 x2 x3 x4 Ha Hb Hc Hd He. rewrite !gofrsLoop_app, Ha, Hb, Hc, Hd.
    change (zlen [x1]) with 1. change (zlen [x2]) with 1. change (zlen [x3]) with 1. change (zlen [x4]) with 1.
    rewrite !gofrsLoop_dash by reflexivity. rewrite !gofrsLoop_hex; [done|..]; intros j Hj; cbn; lia. }
  split.
  - intros H. destruct (cut s 8) as (a & s1 & -> & Ha); [lia|]. rewrite zlen_app in Hl.
    destruct (cut_one s1) as (x1 & s2 & ->); [lia|]. rewrite zlen_app in Hl. change (zlen [x1]) with 1 in Hl.
    destruct (cut s2 4) as (b & s3 & -> & Hb); [lia|]. rewrite zlen_app in Hl.
    destruct (cut_one s3) as (x2 & s4 & ->); [lia|]. rewrite zlen_app in Hl. change (zlen [x2]) with 1 in Hl.
    destruct (cut s4 4) as (c & s5 & -> & Hc); [lia|]. rewrite zlen_app in Hl.
    destruct (cut_one s5) as (x3 & s6 & ->); [lia|]. rewrite zlen_app in Hl. change (zlen [x3]) with 1 in Hl.
    destruct (cut s6 4) as (d & s7 & -> & Hd); [lia|]. rewrite zlen_app in Hl.
    destruct (cut_one s7) as (x4 & e & ->); [lia|]. rewrite zlen_app in Hl. change (zlen [x4]) with 1 in Hl.
    assert (He : zlen e = 12) by lia. rewrite (G a b c d e x1 x2 x3 x4 Ha Hb Hc Hd He) in H. zbool. subst x1 x2 x3 x4.
    exists a, b, c, d, e. by repeat split.
  - intros (a & b & c & d & e & [Ha Ea] & [Hb Eb] & [Hc Ec] & [Hd Ed] & [He Ee] & ->).
    rewrite (G a b c d e _ _ _ _ Ha Hb Hc Hd He), Ea, Eb, Ec, Ed, Ee. done.
Qed.

Lemma zlen_dashed a b c d e : hexes 8 a -> hexes 4 b -> hexes 4 c -> hexes 4 d -> hexes 12 e ->
  zlen (a ++ [cDash] ++ b ++ [cDash] ++ c ++ [cDash] ++ d ++ [cDash] ++ e) = 36.
Proof. intros [Ha _] [Hb _] [Hc _] [Hd _] [He _]. rewrite !zlen_app. change (zlen [cDash]) with 1. lia. Qed.

Lemma uuidCore_length s : uuidCore s -> zlen s = 32 \/ zlen s = 36.
Proof. intros [[H _]|(a & b & c & d & e & Ha & Hb & Hc & Hd & He & ->)]; [by left|right; by apply zlen_dashed]. Qed.

Lemma gofrs_core s : zlen s = 32 \/ zlen s = 36 -> gofrsLoop (zlen s =? 36) 0 s = true <-> uuidCore s.
Proof.
  intros [H|H]; rewrite H; unfold uuidCore.
  - change (32 =? 36) with false. rewrite gofrsLoop_hex by done. split; [left; by split|].
    intros [[_ E]|(a & b & c & d & e & Ha & Hb & Hc & Hd & He & E)]; [done|].
    rewrite E in H. rewrite zlen_dashed in H by done. lia.
  - rewrite gofrs_dashed by done. split; [by right|]. intros [[E _]|E]; [lia|done].
Qed.

Lemma startsWith_split p s : startsWith p s = true -> s = p ++ drop (length p) s.
Proof.
  revert s. induction p as [|c p IH]; intros [|d s]; cbn; try done. intros H. zbool. subst. by rewrite <- IH.
Qed.

Lemma braced_split b n : zlen b = n + 2 -> 0 <= n -> startsWithChar 123 b = true -> endsWithChar 125 b = true ->
  b = [123] ++ take (length b - 2) (drop 1 b) ++ [125].
Proof.
  intros Hl Hn Hs He. destruct b as [|c b]; [done|]. cbn in Hs. zbool. subst c. cbn [app]. f_equal.
  rewrite zlen_cons in Hl. destruct (decide (b = [])) as [->|Hb]; [unfold zlen in Hl; cbn in Hl; lia|].
  destruct (exists_last Hb) as (b' & x & ->). unfold endsWithChar in He.
  assert (Hlast : lastChar (123 :: b' ++ [x]) = Some x).
  { clear. generalize 123. induction b' as [|y b' IH]; intros z; [done|]. apply (IH y). }
  rewrite Hlast in He. zbool. subst x. change (drop 1 (123 :: b' ++ [125])) with (drop 0 (b' ++ [125])).
  rewrite drop_0. cbn [length]. rewrite length_app. cbn [length].
  replace (S (length b' + 1) - 2)%nat with (length b') by lia. by rewrite take_app_length.
Qed.

Lemma gofrsCore_spec b core : zlen core = 32 \/ zlen core = 36 ->
  gofrsCore b = Some core <-> b = core \/ b = [123] ++ core ++ [125] \/ b = u "urn:uuid:" ++ core.
Proof.
  intros Hc. assert (Hn : forall x, x <> zlen b -> (zlen b =? x) = false) by (intros x Hx; apply Z.eqb_neq; lia).
  unfold gofrsCore. cbv zeta. split.
  - destruct ((zlen b =? 32) || (zlen b =? 36)); [intros [= ->]; by left|].
    destruct ((zlen b =? 34) || (zlen b =? 38)) eqn:E.
    + destruct (startsWithChar 123 b) eqn:E1; [|done]. destruct (endsWithChar 125 b) eqn:E2; [|done].
      intros [= <-]. right. left. apply orb_true_iff in E. apply (braced_split b (zlen b - 2)); [lia| |done|done].
      destruct E; zbool; lia.
    + destruct ((zlen b =? 41) || (zlen b =? 45)); [|done]. destruct (startsWith (u "urn:uuid:") b) eqn:E1; [|done].
      intros [= <-]. right. right. exact (startsWith_split _ _ E1).
  - intros [->|[->| ->]].
    + destruct Hc as [-> | ->]; done.
    + assert (Hz : zlen ([123] ++ core ++ [125]) = zlen core + 2)
        by (rewrite !zlen_app; change (zlen [123]) with 1; change (zlen [125]) with 1; lia).
      assert (He : endsWithChar 125 ([123] ++ core ++ [125]) = true).
      { unfold endsWithChar. assert (Hl : lastChar ([123] ++ core ++ [125]) = Some 125); [|by rewrite Hl].
        cbn [app]. generalize 123. clear. induction core as [|y core IH]; intros z; [done|]. apply (IH y). }
      assert (Ht : take (length ([123] ++ core ++ [125]) - 2) (drop 1 ([123] ++ core ++ [125])) = core).
      { cbn [app]. change (drop 1 (123 :: core ++ [125])) with (drop 0 (core ++ [125])). rewrite drop_0. cbn [length].
        rewrite length_app. cbn [length]. replace (S (length core + 1) - 2)%nat with (length core) by lia. apply take_app_length. }
      rewrite He, Ht. change (startsWithChar 123 ([123] ++ core ++ [125])) with true. rewrite Hz.
      destruct Hc as [-> | ->]; done.
    + assert (Hz : zlen (u "urn:uuid:" ++ core) = zlen core + 9) by (rewrite zlen_app; change (zlen (u "urn:uuid:")) with 9; lia).
      rewrite startsWith_app. change (drop 9 (u "urn:uuid:" ++ core)) with (drop 0 core). rewrite drop_0, Hz.
      destruct Hc as [-> | ->]; done.
Qed.

Lemma gofrsCore_length b core : gofrsCore b = Some core -> zlen core = 32 \/ zlen core = 36.
Proof.
  unfold gofrsCore. cbv zeta. destruct ((zlen b =? 32) || (zlen b =? 36)) eqn:E.
  { intros [= <-]. apply orb_true_iff in E. destruct E; zbool; lia. }
  destruct ((zlen b =? 34) || (zlen b =? 38)) eqn:E2.
  { break_if; [done|]. intros [= <-]. apply orb_true_iff in E2. unfold zlen in *. rewrite length_take, length_drop.
    destruct E2; zbool; lia. }
  destruct ((zlen b =? 41) || (zlen b =? 45)) eqn:E3; [|done]. break_if; [done|]. intros [= <-].
  apply orb_true_iff in E3. unfold zlen in *. rewrite length_drop. destruct E3; zbool; lia.
Qed.

(** One of Xray's groups, the dash before it optional. *)
Lemma xrayGroups_step g gs x rest : 0 < g -> hexes g x ->
  xrayGroups (g :: gs) (x ++ rest) = xrayGroups gs rest /\ xrayGroups (g :: gs) (cDash :: x ++ rest) = xrayGroups gs rest.
Proof.
  intros Hg [Hx Hh]. assert (Hs : startsWithChar cDash (x ++ rest) = false).
  { destruct x as [|c x]; [unfold zlen in Hx; cbn in Hx; lia|]. cbn in Hh |- *. apply andb_true_iff in Hh as [Hh _].
    apply Z.eqb_neq. intros ->. done. }
  cbn [xrayGroups]. rewrite Hs. change (startsWithChar cDash (cDash :: x ++ rest)) with true. cbv iota zeta.
  change (drop 1 (cDash :: x ++ rest)) with (drop 0 (x ++ rest)). rewrite drop_0.
  assert (Hn : Z.to_nat g = length x) by (unfold zlen in Hx; lia).
  rewrite zlen_app, Hx, Hn, take_app_length, drop_app_length, Hh.
  replace (g + zlen rest <? g) with false by (symmetry; apply Z.ltb_ge; pose proof (zlen_nonneg rest); lia). done.
Qed.

Lemma xray_core s : uuidCore s -> validationXrayUuid s = true.
Proof.
  intros Hs. pose proof (uuidCore_length s Hs) as Hl. unfold validationXrayUuid. cbv zeta.
  replace ((zlen s <? 32) || (36 <? zlen s)) with false by (symmetry; apply orb_false_iff; rewrite !Z.ltb_ge; lia).
  destruct Hs as [[H Hh]|(a & b & c & d & e & Ha & Hb & Hc & Hd & He & ->)].
  - destruct (cut s 8) as (a & s1 & -> & Ha); [lia|]. rewrite zlen_app in H.
    destruct (cut s1 4) as (b & s2 & -> & Hb); [lia|]. rewrite zlen_app in H.
    destruct (cut s2 4) as (c & s3 & -> & Hc); [lia|]. rewrite zlen_app in H.
    destruct (cut s3 4) as (d & e & -> & Hd); [lia|]. rewrite zlen_app in H.
    rewrite !forallb_app in Hh. zbool.
    rewrite <- (app_nil_r e).
    rewrite (proj1 (xrayGroups_step 8 _ a _ ltac:(lia) ltac:(by split))).
    rewrite (proj1 (xrayGroups_step 4 _ b _ ltac:(lia) ltac:(by split))).
    rewrite (proj1 (xrayGroups_step 4 _ c _ ltac:(lia) ltac:(by split))).
    rewrite (proj1 (xrayGroups_step 4 _ d _ ltac:(lia) ltac:(by split))).
    by rewrite (proj1 (xrayGroups_step 12 _ e _ ltac:(lia) ltac:(split; [lia|done]))).
  - cbn [app]. rewrite (proj1 (xrayGroups_step 8 _ a _ ltac:(lia) Ha)).
    rewrite (proj2 (xrayGroups_step 4 _ b _ ltac:(lia) Hb)). rewrite (proj2 (xrayGroups_step 4 _ c _ ltac:(lia) Hc)).
    rewrite (proj2 (xrayGroups_step 4 _ d _ ltac:(lia) Hd)). rewrite <- (app_nil_r e).
    by rewrite (proj2 (xrayGroups_step 12 _ e _ ltac:(lia) He)).
Qed.

(** The UUID check accepts exactly the forms of gofrs/uuid: the 32 digits or
    the five dashed groups, bare, in braces or after urn:uuid:; and what it
    accepts bare Xray's parser accepts too. *)
Theorem uuid_forms b :
  (validationGofrsUuid b = true <->
     exists core, uuidCore core /\ (b = core \/ b = [123] ++ core ++ [125] \/ b = u "urn:uuid:" ++ core)) /\
  (zlen b <= 36 -> startsWithChar 123 b = false -> validationGofrsUuid b = true -> validationXrayUuid b = true).
Proof.
  assert (H : validationGofrsUuid b = true <->
     exists core, uuidCore core /\ (b = core \/ b = [123] ++ core ++ [125] \/ b = u "urn:uuid:" ++ core)).
  { unfold validationGofrsUuid. split.
    - destruct (gofrsCore b) as [core|] eqn:E; [|done]. pose proof (gofrsCore_length _ _ E) as Hl. intros H.
      exists core. split; [by apply gofrs_core|]. by apply gofrsCore_spec.
    - intros (core & Hc & Hb). pose proof (uuidCore_length _ Hc) as Hl. apply gofrsCore_spec in Hb; [|done].
      rewrite Hb. by apply gofrs_core. }
  split; [exact H|]. intros Hl Hn Hb. apply H in Hb as (core & Hc & [->|[->| ->]]); [by apply xray_core|done|].
  apply uuidCore_length in Hc. rewrite zlen_app in Hl. change (zlen (u "urn:uuid:")) with 9 in Hl. lia.
Qed.

Lemma uuid_forms_witness : validationXrayUuid (u "123e4567-e89b-12d3-a456-426614174000") = true.
Proof. apply (uuid_forms (u "123e4567-e89b-12d3-a456-426614174000")); vm_compute; done. Defined.
