(* ===== verification/Otp.v ===== *)
(** One-time passwords: src/src/global/OTP.cpp, the secrets and the codes.

    Bytes are integers from 0 to 255.  HMAC is outside the repository (Qt's
    QMessageAuthenticationCode), and so is the clock: [clock] is the current time
    in seconds, used when no time is given. *)
From stdpp Require Import base list strings.
From Stdlib Require Import ZArith Lia Bool.
From S2P Require Import Prelude.

Inductive Algorithm := SHA1 | SHA256 | SHA512.
Inductive OtpType := TOTP | HOTP.

Definition DEFAULT_DIGITS : Z := 6.
Definition DEFAULT_PERIOD : Z := 30.
Definition MIN_DIGITS : Z := 4.
Definition MAX_DIGITS : Z := 10.
Definition MIN_PERIOD : Z := 1.
Definition MAX_PERIOD : Z := 3600.
Definition MIN_BARE_SECRET_BYTES : Z := 10.

Record Entry := mkEntry {
  otpName : qstr;
  otpIssuer : qstr;
  otpSecret : qstr;
  otpAlgorithm : Algorithm;
  otpType : OtpType;
  otpDigits : Z;
  otpPeriod : Z;
  otpCounter : Z
}.

Definition defaultEntry : Entry := mkEntry [] [] [] SHA1 TOTP DEFAULT_DIGITS DEFAULT_PERIOD 0.

(** ** Base32 *)

Definition BASE32_ALPHABET : qstr := u "ABCDEFGHIJKLMNOPQRSTUVWXYZ234567".

Definition base32Char (v : Z) : Z := nth (Z.to_nat v) BASE32_ALPHABET 0.

(** The separators a printed secret may hold. *)
Definition base32Skipped (c : Z) : bool := contains c [cSpace; cDash; 95; cTab; cCR; cLF; 61].

Definition base32Value (c : Z) : option Z :=
  if (65 <=? c) && (c <=? 90) then Some (c - 65)
  else if (97 <=? c) && (c <=? 122) then Some (c - 97)
  else if (50 <=? c) && (c <=? 55) then Some (c - 50 + 26)
  else None.

(** The loop over the characters; [None] is the failed decoding. *)
Fixpoint decodeLoop (buffer bitsLeft : Z) (input : qstr) : option (list Z) :=
  match input with
  | [] => Some []
  | c :: input' =>
      if base32Skipped c then decodeLoop buffer bitsLeft input'
      else
        let? value := base32Value c in
        let buffer := Z.lor (wrap32 (Z.shiftl buffer 5)) value in
        let bitsLeft := bitsLeft + 5 in
        if 8 <=? bitsLeft then
          let bitsLeft := bitsLeft - 8 in
          let? out := decodeLoop buffer bitsLeft input' in
          Some (Z.land (Z.shiftr buffer bitsLeft) 255 :: out)
        else decodeLoop buffer bitsLeft input'
  end.

Definition Base32Decode (input : qstr) : option (list Z) := decodeLoop 0 0 input.

(** while (bitsLeft >= 5): the characters and the bits left. Twelve bits at
    most are pending, so two rounds are enough. *)
Fixpoint encodeDrain (fuel : nat) (buffer bitsLeft : Z) : qstr * Z :=
  match fuel with
  | O => ([], bitsLeft)
  | S fuel' =>
      if 5 <=? bitsLeft then
        let bitsLeft := bitsLeft - 5 in
        let (out, rest) := encodeDrain fuel' buffer bitsLeft in
        (base32Char (Z.land (Z.shiftr buffer bitsLeft) 31) :: out, rest)
      else ([], bitsLeft)
  end.

Fixpoint encodeLoop (buffer bitsLeft : Z) (input : list Z) : qstr :=
  match input with
  | [] => if 0 <? bitsLeft then [base32Char (Z.land (wrap32 (Z.shiftl buffer (5 - bitsLeft))) 31)] else []
  | c :: input' =>
      let buffer := Z.lor (wrap32 (Z.shiftl buffer 8)) c in
      let (out, bitsLeft) := encodeDrain 3 buffer (bitsLeft + 8) in
      out ++ encodeLoop buffer bitsLeft input'
  end.

Definition Base32Encode (input : list Z) : qstr := encodeLoop 0 0 input.

(** Empty when the secret is not valid. *)
Definition NormalizeSecret (secret : qstr) : qstr :=
  match Base32Decode secret with
  | Some (b :: decoded) => Base32Encode (b :: decoded)
  | _ => []
  end.

(** ** Codes *)

Class QtHmac := { hmac : Algorithm -> list Z -> list Z -> list Z }.

Section Codes.
Context {Q : QtChar} {H : QtHmac}.

Definition Validate (entry : Entry) : verdict :=
  if isNil (trimmed (otpSecret entry)) then Some (tr0 "Secret is empty")
  else match Base32Decode (otpSecret entry) with
       | None => Some (tr0 "Secret is not valid base32")
       | Some [] => Some (tr0 "Secret is too short")
       | Some _ =>
           if (otpDigits entry <? MIN_DIGITS) || (MAX_DIGITS <? otpDigits entry)
           then Some (MTr (u "Digits must be between %1 and %2") [MText (number MIN_DIGITS); MText (number MAX_DIGITS)])
           else match otpType entry with
                | TOTP =>
                    if (otpPeriod entry <? MIN_PERIOD) || (MAX_PERIOD <? otpPeriod entry)
                    then Some (MTr (u "Period must be between %1 and %2 seconds")
                                 [MText (number MIN_PERIOD); MText (number MAX_PERIOD)])
                    else None
                | HOTP => None
                end
       end.

(** The counter in eight bytes, the most significant first. *)
Fixpoint counterBytes (n : nat) (counter : Z) : list Z :=
  match n with
  | O => []
  | S n' => counterBytes n' (Z.shiftr counter 8) ++ [Z.land counter 255]
  end.

Definition byteAt (bytes : list Z) (i : Z) : Z := nth (Z.to_nat i) bytes 0.

(** RFC 4226's dynamic truncation. *)
Definition truncateMac (mac : list Z) : Z :=
  let offset := Z.land (byteAt mac (zlen mac - 1)) 15 in
  Z.lor (Z.shiftl (Z.land (byteAt mac offset) 127) 24)
    (Z.lor (Z.shiftl (byteAt mac (offset + 1)) 16)
       (Z.lor (Z.shiftl (byteAt mac (offset + 2)) 8) (byteAt mac (offset + 3)))).

(** modulus *= 10, on 64 bits. *)
Fixpoint powerOfTen (n : nat) : Z :=
  match n with
  | O => 1
  | S n' => wrap64 (powerOfTen n' * 10)
  end.

(** QString::arg with a width and zeros. *)
Definition zeroPadded (n width : Z) : qstr :=
  replicate (Z.to_nat (width - zlen (number n))) c0 ++ number n.

Definition GenerateHOTP (key : list Z) (counter : Z) (algorithm : Algorithm) (digits : Z) : qstr :=
  if isNil key || (digits <? MIN_DIGITS) || (MAX_DIGITS <? digits) then []
  else
    let mac := hmac algorithm key (counterBytes 8 counter) in
    if zlen mac <? 20 then []
    else zeroPadded (truncateMac mac mod powerOfTen (Z.to_nat digits)) digits.

Definition isHotp (t : OtpType) : bool := match t with HOTP => true | TOTP => false end.

Definition GenerateCode (clock : Z) (entry : Entry) (unixTime : Z) : qstr :=
  match Validate entry with
  | Some _ => []
  | None =>
      let key := default [] (Base32Decode (otpSecret entry)) in
      if isHotp (otpType entry)
      then GenerateHOTP key (wrap64 (otpCounter entry)) (otpAlgorithm entry) (otpDigits entry)
      else
        let now := if unixTime <? 0 then clock else unixTime in
        GenerateHOTP key (wrap64 (Z.quot now (otpPeriod entry))) (otpAlgorithm entry) (otpDigits entry)
  end.

Definition SecondsRemaining (clock : Z) (entry : Entry) (unixTime : Z) : Z :=
  if isHotp (otpType entry) || (otpPeriod entry <? MIN_PERIOD) then 0
  else
    let now := if unixTime <? 0 then clock else unixTime in
    otpPeriod entry - Z.rem now (otpPeriod entry).

End Codes.

(** ** Base32 round trip *)

Definition isByte (b : Z) : Prop := 0 <= b <= 255.

Lemma base32Char_spec v : 0 <= v < 32 ->
  base32Skipped (base32Char v) = false /\ base32Value (base32Char v) = Some v.
Proof.
  intros Hv. assert (H : forallb (fun v => negb (base32Skipped (base32Char v)) &&
      match base32Value (base32Char v) with Some w => w =? v | None => false end) (map Z.of_nat (seq 0 32)) = true)
    by (vm_compute; reflexivity).
  rewrite forallb_forall in H. specialize (H v). rewrite in_map_iff in H.
  assert (Hin : exists x, Z.of_nat x = v /\ In x (seq 0 32)) by (exists (Z.to_nat v); rewrite in_seq; lia).
  specialize (H Hin). apply andb_true_iff in H as [H1 H2]. apply negb_true_iff in H1. split; [done|].
  destruct (base32Value (base32Char v)) as [w|]; [|done]. zbool. by subst.
Qed.

(** Shifting a byte or five bits into the 32-bit buffer. *)
Lemma shift_in buffer n v : 0 <= n <= 8 -> 0 <= v < 2 ^ n ->
  Z.lor (wrap32 (Z.shiftl buffer n)) v = (buffer * 2 ^ n) mod 2 ^ 32 + v.
Proof.
  intros Hn Hv. unfold wrap32. rewrite Z.shiftl_mul_pow2 by lia.
  assert (Hm : (buffer * 2 ^ n) mod 2 ^ 32 = (buffer mod 2 ^ (32 - n)) * 2 ^ n).
  { replace (2 ^ 32) with (2 ^ (32 - n) * 2 ^ n) by (rewrite <- Z.pow_add_r by lia; f_equal; lia).
    rewrite Z.mul_mod_distr_r; [done| |]; apply Z.pow_nonzero; lia. }
  rewrite Hm, <- Z.shiftl_mul_pow2 by lia. rewrite lor_shiftl by lia. by rewrite Z.shiftl_mul_pow2 by lia.
Qed.

Lemma take_bits x i n : 0 <= i -> 0 <= n -> Z.land (Z.shiftr x i) (2 ^ n - 1) = (x / 2 ^ i) mod 2 ^ n.
Proof. intros Hi Hn. rewrite land_low by done. by rewrite Z.shiftr_div_pow2. Qed.

Lemma decode_char buffer bitsLeft v s : 0 <= v < 32 ->
  decodeLoop buffer bitsLeft (base32Char v :: s) =
    let buffer := (buffer * 32) mod 2 ^ 32 + v in
    if 8 <=? bitsLeft + 5 then
      let? out := decodeLoop buffer (bitsLeft + 5 - 8) s in
      Some (Z.land (Z.shiftr buffer (bitsLeft + 5 - 8)) 255 :: out)
    else decodeLoop buffer (bitsLeft + 5) s.
Proof.
  intros Hv. destruct (base32Char_spec v Hv) as [H1 H2]. cbn [decodeLoop]. rewrite H1, H2. cbv zeta.
  by rewrite (shift_in buffer 5 v) by lia.
Qed.

Ltac euclid := Z.to_euclidean_division_equations; lia.

Lemma mod32 x : 0 <= x mod 32 < 32.
Proof. apply Z.mod_pos_bound. lia. Qed.

(** One byte of the encoder with [k] bits pending, as numbers. *)
Lemma encode_byte bufe k c rest : isByte c -> 0 <= k <= 4 ->
  exists buf, buf = (bufe * 256) mod 2 ^ 32 + c /\
  encodeLoop bufe k (c :: rest) =
    base32Char ((buf / 2 ^ (k + 3)) mod 32) ::
      if 2 <=? k then base32Char ((buf / 2 ^ (k - 2)) mod 32) :: encodeLoop buf (k - 2) rest
      else encodeLoop buf (k + 3) rest.
Proof.
  intros Hc Hk. exists ((bufe * 256) mod 2 ^ 32 + c). split; [done|]. unfold isByte in Hc. cbn [encodeLoop].
  rewrite (shift_in bufe 8 c) by lia. change (2 ^ 8) with 256. set (buf := (bufe * 256) mod 2 ^ 32 + c). cbv zeta.
  assert (Hb : forall i, 0 <= i -> Z.land (Z.shiftr buf i) 31 = (buf / 2 ^ i) mod 32) by (intros i Hi; by apply (take_bits buf i 5)).
  cbn [encodeDrain]. rewrite (proj2 (Z.leb_le 5 (k + 8))) by lia.
  replace (k + 8 - 5) with (k + 3) by lia. rewrite (Hb (k + 3)) by lia. destruct (2 <=? k) eqn:E; zbool.
  - replace (5 <=? k + 3) with true by (symmetry; apply Z.leb_le; lia).
    replace (k + 3 - 5) with (k - 2) by lia. rewrite (Hb (k - 2)) by lia.
    by replace (5 <=? k - 2) with false by (symmetry; apply Z.leb_gt; lia).
  - by replace (5 <=? k + 3) with false by (symmetry; apply Z.leb_gt; lia).
Qed.

(** The last character holds the bits left. *)
Lemma encode_end bufe k : 1 <= k <= 4 -> exists v, 0 <= v < 32 /\ encodeLoop bufe k [] = [base32Char v] /\
  v = ((bufe mod 2 ^ k) * 2 ^ (5 - k)) mod 32.
Proof.
  intros Hk. eexists. split; [|split; [|reflexivity]]; [apply mod32|]. cbn [encodeLoop].
  replace (0 <? k) with true by (symmetry; apply Z.ltb_lt; lia). f_equal. f_equal.
  change 31 with (2 ^ 5 - 1). rewrite land_low by lia. unfold wrap32. rewrite Z.shiftl_mul_pow2 by lia.
  assert (k = 1 \/ k = 2 \/ k = 3 \/ k = 4) as [->|[->|[->| ->]]] by lia;
    cbn [Z.sub Z.pow Z.pow_pos Z.opp Z.add Z.pos_sub Pos.iter]; euclid.
Qed.

(** The decoder's bits [m] and the encoder's bits [k] make up the byte between. *)
Definition pendingByte (bufe k bufd m b : Z) : Prop :=
  1 <= k <= 4 /\ m = 8 - k /\ isByte b /\ b = (bufd mod 2 ^ m) * 2 ^ k + bufe mod 2 ^ k.

Lemma decode_pending bufe k bufd m b v s : pendingByte bufe k bufd m b -> 0 <= v < 32 -> v / 2 ^ (5 - k) = bufe mod 2 ^ k ->
  decodeLoop bufd m (base32Char v :: s) =
    (let? out := decodeLoop ((bufd * 32) mod 2 ^ 32 + v) (5 - k) s in Some (b :: out)).
Proof.
  intros (Hk & -> & Hb & Eb) Hv Ev. rewrite decode_char by done. cbv zeta.
  replace (8 <=? 8 - k + 5) with true by (symmetry; apply Z.leb_le; lia).
  replace (8 - k + 5 - 8) with (5 - k) by lia. change 255 with (2 ^ 8 - 1). rewrite take_bits by lia.
  assert (((bufd * 32) mod 2 ^ 32 + v) / 2 ^ (5 - k) mod 2 ^ 8 = b) as ->; [|done].
  subst b. rewrite <- Ev. unfold isByte in Hb. clear Hb Ev.
  assert (k = 1 \/ k = 2 \/ k = 3 \/ k = 4) as [->|[->|[->| ->]]] by lia;
    cbn [Z.sub Z.pow Z.pow_pos Z.opp Z.add Z.pos_sub Pos.iter]; euclid.
Qed.

Ltac nums := cbn [Z.sub Z.pow Z.pow_pos Z.opp Z.add Z.pos_sub Pos.iter Z.mul Pos.mul Pos.add Pos.succ Z.leb Z.compare Pos.compare Pos.compare_cont] in *.

(** The first character after a pending byte ends that byte. *)
Lemma pending_char bufe k c : 1 <= k <= 4 -> isByte c ->
  (((bufe * 256) mod 2 ^ 32 + c) / 2 ^ (k + 3)) mod 32 / 2 ^ (5 - k) = bufe mod 2 ^ k.
Proof.
  intros Hk Hc. unfold isByte in Hc.
  assert (k = 1 \/ k = 2 \/ k = 3 \/ k = 4) as [->|[->|[->| ->]]] by lia; nums; euclid.
Qed.

(** What is pending after the byte [c]: with one character, and with two. *)
Lemma pending_one bufe k c bufd : k = 0 \/ k = 1 -> isByte c ->
  pendingByte ((bufe * 256) mod 2 ^ 32 + c) (k + 3)
    ((bufd * 32) mod 2 ^ 32 + (((bufe * 256) mod 2 ^ 32 + c) / 2 ^ (k + 3)) mod 32) (5 - k) c.
Proof.
  intros Hk Hc. unfold pendingByte. split; [lia|]. split; [lia|]. split; [done|]. unfold isByte in Hc.
  destruct Hk as [-> | ->]; nums; euclid.
Qed.

Lemma pending_two bufe k c bufd : k = 3 \/ k = 4 -> isByte c ->
  let buf := (bufe * 256) mod 2 ^ 32 + c in
  pendingByte buf (k - 2)
    ((((bufd * 32) mod 2 ^ 32 + (buf / 2 ^ (k + 3)) mod 32) * 32) mod 2 ^ 32 + (buf / 2 ^ (k - 2)) mod 32) (10 - k) c.
Proof.
  intros Hk Hc buf. unfold pendingByte, buf. split; [lia|]. split; [lia|]. split; [done|]. unfold isByte in Hc.
  destruct Hk as [-> | ->]; nums; euclid.
Qed.

Lemma decode_encode_loop rest : Forall isByte rest ->
  (forall bufe bufd, decodeLoop bufd 0 (encodeLoop bufe 0 rest) = Some rest) /\
  (forall bufe k bufd m b, pendingByte bufe k bufd m b -> decodeLoop bufd m (encodeLoop bufe k rest) = Some (b :: rest)).
Proof.
  induction 1 as [|c rest Hc Hr [IH0 IH]]; split.
  - done.
  - intros bufe k bufd m b Hp. destruct (encode_end bufe k) as (v & Hv & -> & Ev); [apply Hp|].
    rewrite (decode_pending _ _ _ _ _ _ _ Hp Hv); [done|]. subst v. destruct Hp as [Hk _].
    assert (k = 1 \/ k = 2 \/ k = 3 \/ k = 4) as [->|[->|[->| ->]]] by lia; nums; euclid.
  - intros bufe bufd. destruct (encode_byte bufe 0 c rest Hc ltac:(lia)) as (buf & Eb & ->).
    change (2 <=? 0) with false. cbv iota. rewrite decode_char by apply mod32. cbv zeta.
    change (8 <=? 0 + 5) with false. cbv iota. apply IH. subst buf. apply (pending_one bufe 0); [by left|done].
  - intros bufe k bufd m b Hp. assert (Hk : 1 <= k <= 4) by apply Hp.
    destruct (encode_byte bufe k c rest Hc ltac:(lia)) as (buf & Eb & ->).
    rewrite (decode_pending _ _ _ _ _ _ _ Hp (mod32 _)) by (subst buf; by apply pending_char).
    destruct (2 <=? k) eqn:E; zbool.
    + rewrite decode_char by apply mod32. cbv zeta. destruct (decide (k = 2)) as [->|].
      * change (8 <=? 5 - 2 + 5) with true. change (5 - 2 + 5 - 8) with 0. change (2 - 2) with 0. cbv iota.
        rewrite IH0. change 255 with (2 ^ 8 - 1). rewrite take_bits by lia. do 2 f_equal.
        subst buf. unfold isByte in Hc. f_equal. nums. euclid.
      * replace (8 <=? 5 - k + 5) with false by (symmetry; apply Z.leb_gt; lia).
        replace (5 - k + 5) with (10 - k) by lia. rewrite (IH buf (k - 2) _ (10 - k) c); [done|].
        subst buf. apply pending_two; [lia|done].
    + assert (k = 1) as -> by lia. rewrite (IH buf (1 + 3) _ (5 - 1) c); [done|]. subst buf. apply (pending_one bufe 1); [by right|done].
Qed.

Lemma decodeLoop_bytes buffer bitsLeft s out : decodeLoop buffer bitsLeft s = Some out -> Forall isByte out.
Proof.
  revert buffer bitsLeft out. induction s as [|c s IH]; intros buffer bitsLeft out H; cbn [decodeLoop] in H.
  - by injection H as <-.
  - destruct (base32Skipped c); [eauto|]. destruct (base32Value c) as [v|]; [|done]. cbv zeta in H.
    destruct (8 <=? bitsLeft + 5); [|eauto]. destruct (decodeLoop _ _ s) as [o|] eqn:E; [|done]. injection H as <-.
    apply List.Forall_cons; [|eauto]. change 255 with (2 ^ 8 - 1). rewrite land_low by lia. unfold isByte.
    pose proof (Z.mod_pos_bound (Z.shiftr (Z.lor (wrap32 (Z.shiftl buffer 5)) v) (bitsLeft + 5 - 8)) (2 ^ 8)). lia.
Qed.

Lemma decode_encode bytes : Forall isByte bytes -> Base32Decode (Base32Encode bytes) = Some bytes.
Proof. intros Hb. by apply decode_encode_loop. Qed.

Lemma normalize_key secret : NormalizeSecret secret <> [] -> exists b key,
  Base32Decode secret = Some (b :: key) /\ NormalizeSecret secret = Base32Encode (b :: key) /\ Forall isByte (b :: key).
Proof.
  unfold NormalizeSecret. destruct (Base32Decode secret) as [[|b key]|] eqn:E; [done| |done]. intros _.
  exists b, key. split; [done|]. split; [done|]. by eapply decodeLoop_bytes.
Qed.

Lemma normalize_encode b key : Forall isByte (b :: key) -> NormalizeSecret (Base32Encode (b :: key)) = Base32Encode (b :: key).
Proof. intros Hb. unfold NormalizeSecret. by rewrite decode_encode. Qed.

Lemma encode_nonempty b key : Base32Encode (b :: key) <> [].
Proof. intros E. unfold Base32Encode in E. cbn in E. done. Qed.

Lemma normalize_fixed secret : NormalizeSecret (NormalizeSecret secret) = NormalizeSecret secret.
Proof.
  destruct (decide (NormalizeSecret secret = [])) as [->|Hne]; [reflexivity|].
  destruct (normalize_key secret Hne) as (b & key & _ & -> & Hb). by apply normalize_encode.
Qed.

(** Base32 encoding and decoding are inverse on every byte string, so the
    normal form of a secret is a fixed point, and it stands for the same key as
    the secret the user entered, with its spaces, dashes and lower case. *)
Theorem base32_roundtrip :
  (forall bytes, Forall isByte bytes -> Base32Decode (Base32Encode bytes) = Some bytes) /\
  (forall secret, NormalizeSecret secret <> [] ->
     Base32Decode (NormalizeSecret secret) = Base32Decode secret /\
     NormalizeSecret (NormalizeSecret secret) = NormalizeSecret secret).
Proof.
  split; [apply decode_encode|]. intros secret Hne. split; [|apply normalize_fixed].
  destruct (normalize_key secret Hne) as (b & key & -> & -> & Hb). by apply decode_encode.
Qed.

Lemma base32_roundtrip_witness :
  Base32Decode (NormalizeSecret (u "jbsw y3dp-ehpk 3pxp")) = Base32Decode (u "jbsw y3dp-ehpk 3pxp") /\
  NormalizeSecret (u "jbsw y3dp-ehpk 3pxp") = u "JBSWY3DPEHPK3PXP".
Proof. split; [apply base32_roundtrip; vm_compute; discriminate|vm_compute; reflexivity]. Defined.

(** ** Codes *)

Lemma powerOfTen_exact n : (n <= 19)%nat -> powerOfTen n = 10 ^ Z.of_nat n.
Proof.
  induction n as [|n IH]; intros Hn; [done|]. cbn [powerOfTen]. rewrite IH by lia.
  rewrite Nat2Z.inj_succ, Z.pow_succ_r, Z.mul_comm by lia. apply wrap64_small.
  pose proof (Z.pow_pos_nonneg 10 (Z.of_nat n)). assert (10 ^ Z.of_nat n <= 10 ^ 18) by (apply Z.pow_le_mono_r; lia).
  change (10 ^ 18) with 1000000000000000000 in *. lia.
Qed.

Definition isDigit (c : Z) : Prop := 48 <= c <= 57.

Definition decimalValue (s : qstr) : Z := fold_left (fun v c => v * 10 + (c - 48)) s 0.

Lemma decimalValue_zeros k s : decimalValue (replicate k c0 ++ s) = decimalValue s.
Proof. unfold decimalValue. rewrite fold_left_app. f_equal. by induction k. Qed.

Lemma zeroPadded_spec n width : 0 < width -> 0 <= n < 10 ^ width ->
  zlen (zeroPadded n width) = width /\ Forall isDigit (zeroPadded n width) /\ decimalValue (zeroPadded n width) = n.
Proof.
  intros Hw Hn. unfold zeroPadded.
  assert (Hl : zlen (number n) <= width).
  { rewrite number_digits by lia. unfold zlen. enough (length (digits 10 n) <= Z.to_nat width)%nat by lia.
    apply digits_length; [lia|lia| |lia]. rewrite Z2Nat.id by lia. apply Hn. }
  split; [|split].
  - rewrite zlen_app. unfold zlen at 1. rewrite length_replicate. lia.
  - apply Forall_app. split.
    + apply Forall_replicate. unfold isDigit. lia.
    + rewrite number_digits by lia. apply digits_forall; [lia|lia|]. intros d Hd. unfold digitChar, isDigit.
      replace (d <? 10) with true by (symmetry; apply Z.ltb_lt; lia). lia.
  - rewrite decimalValue_zeros. unfold decimalValue. rewrite number_digits by lia. apply digits_fold; [lia|lia|].
    intros a d Ha Hd _. unfold digitChar. replace (d <? 10) with true by (symmetry; apply Z.ltb_lt; lia). lia.
Qed.

(** HMAC-SHA-1, SHA-256 and SHA-512 give 20, 32 and 64 bytes. *)
Definition macSize (a : Algorithm) : Z := match a with SHA1 => 20 | SHA256 => 32 | SHA512 => 64 end.

Class QtHmacLaws (H : QtHmac) : Prop := {
  hmac_size : forall a key message, zlen (hmac a key message) = macSize a;
  hmac_bytes : forall a key message, Forall isByte (hmac a key message)
}.

(** A keyed sum in the place of HMAC, used to evaluate the model. *)
#[export] Instance sumHmac : QtHmac := {|
  hmac := fun a key message =>
    replicate (Z.to_nat (macSize a)) ((fold_right Z.add 0 key + fold_right (fun b s => b + 3 * s) 0 message) mod 256)
|}.

#[export] Instance sumHmac_laws : QtHmacLaws sumHmac.
Proof.
  split; intros a key message; cbn [hmac sumHmac].
  - unfold zlen. rewrite length_replicate. by destruct a.
  - apply Forall_replicate. unfold isByte.
    pose proof (Z.mod_pos_bound (fold_right Z.add 0 key + fold_right (fun b s => b + 3 * s) 0 message) 256). lia.
Qed.

Section CodeFacts.
Context {Q : QtChar} {H : QtHmac} {HL : QtHmacLaws H}.

Lemma byteAt_byte bytes i : Forall isByte bytes -> isByte (byteAt bytes i).
Proof.
  intros Hb. unfold byteAt. destruct (nth_in_or_default (Z.to_nat i) bytes 0) as [Hin| ->]; [|unfold isByte; lia].
  rewrite Forall_forall in Hb. by apply Hb, list_elem_of_In.
Qed.

(** The four bytes at the offset, without the top bit. *)
Lemma truncateMac_value mac : Forall isByte mac ->
  truncateMac mac =
    let offset := byteAt mac (zlen mac - 1) mod 16 in
    ((byteAt mac offset mod 128 * 256 + byteAt mac (offset + 1)) * 256 + byteAt mac (offset + 2)) * 256 + byteAt mac (offset + 3).
Proof.
  intros Hb. unfold truncateMac. cbv zeta. change 15 with (2 ^ 4 - 1). rewrite land_low by lia. change (2 ^ 4) with 16.
  set (o := byteAt mac (zlen mac - 1) mod 16). change 127 with (2 ^ 7 - 1). rewrite land_low by lia. change (2 ^ 7) with 128.
  pose proof (byteAt_byte mac o Hb) as B0. pose proof (byteAt_byte mac (o + 1) Hb) as B1.
  pose proof (byteAt_byte mac (o + 2) Hb) as B2. pose proof (byteAt_byte mac (o + 3) Hb) as B3. unfold isByte in *.
  rewrite (lor_shiftl (byteAt mac (o + 2)) (byteAt mac (o + 3)) 8) by (change (2 ^ 8) with 256; lia).
  change (2 ^ 8) with 256. rewrite (lor_shiftl (byteAt mac (o + 1)) _ 16) by (change (2 ^ 16) with 65536; lia).
  change (2 ^ 16) with 65536. rewrite lor_shiftl by (change (2 ^ 24) with 16777216; lia).
  change (2 ^ 24) with 16777216. lia.
Qed.

(** The code of a counter: its message authentication code truncated as RFC 4226
    says, modulo the power of ten, in exactly the asked number of digits. *)
Lemma GenerateHOTP_value key counter a d : key <> [] -> MIN_DIGITS <= d <= MAX_DIGITS ->
  let s := GenerateHOTP key counter a d in
  zlen s = d /\ Forall isDigit s /\ decimalValue s = truncateMac (hmac a key (counterBytes 8 counter)) mod 10 ^ d.
Proof.
  intros Hk Hd. unfold GenerateHOTP, MIN_DIGITS, MAX_DIGITS in *. cbv zeta. rewrite (isNil_false _ Hk). cbn [orb].
  replace (d <? 4) with false by (symmetry; apply Z.ltb_ge; lia). replace (10 <? d) with false by (symmetry; apply Z.ltb_ge; lia).
  cbn [orb]. rewrite hmac_size. replace (macSize a <? 20) with false by by destruct a.
  rewrite powerOfTen_exact, Z2Nat.id by lia. apply zeroPadded_spec; [lia|]. apply Z.mod_pos_bound. apply Z.pow_pos_nonneg; lia.
Qed.

Lemma Validate_ok e : Validate e = None -> exists b key, Base32Decode (otpSecret e) = Some (b :: key) /\
  MIN_DIGITS <= otpDigits e <= MAX_DIGITS /\ (otpType e = TOTP -> MIN_PERIOD <= otpPeriod e <= MAX_PERIOD).
Proof.
  unfold Validate. destruct (isNil _); [done|]. destruct (Base32Decode (otpSecret e)) as [[|b key]|]; [done| |done].
  destruct (_ || _) eqn:E; [done|]. zbool. destruct (otpType e) eqn:Et.
  - destruct ((otpPeriod e <? MIN_PERIOD) || (MAX_PERIOD <? otpPeriod e)) eqn:E2; [done|]. zbool. intros _.
    exists b, key. split; [done|]. split; [lia|]. intros _. lia.
  - intros _. exists b, key. split; [done|]. split; [lia|done].
Qed.

(** A usable time-based entry always has a code: [digits] decimal digits, the
    RFC 4226 truncation of the code of its 64-bit time step modulo the power of
    ten. The code stays the same for exactly [SecondsRemaining] seconds, between
    one and the period, and then it is the code of the next time step. *)
Theorem totp_window clock e now : Validate e = None -> otpType e = TOTP -> 0 <= now <= max_i64 - MAX_PERIOD ->
  exists key, Base32Decode (otpSecret e) = Some key /\
  let step := now / otpPeriod e in
  let left := SecondsRemaining clock e now in
  let code := GenerateCode clock e now in
  1 <= left <= otpPeriod e /\
  zlen code = otpDigits e /\ Forall isDigit code /\
  decimalValue code = truncateMac (hmac (otpAlgorithm e) key (counterBytes 8 step)) mod 10 ^ otpDigits e /\
  (forall t, now <= t < now + left -> GenerateCode clock e t = code) /\
  GenerateCode clock e (now + left) = GenerateHOTP key (step + 1) (otpAlgorithm e) (otpDigits e).
Proof.
  intros Hv Ht Hn. destruct (Validate_ok e Hv) as (b & key & Hs & Hd & Hp). specialize (Hp Ht).
  unfold MIN_PERIOD, MAX_PERIOD in *. exists (b :: key). split; [done|]. cbv zeta.
  assert (Hcode : forall t, 0 <= t <= max_i64 ->
    GenerateCode clock e t = GenerateHOTP (b :: key) (t / otpPeriod e) (otpAlgorithm e) (otpDigits e)).
  { intros t Ht0. unfold GenerateCode. rewrite Hv, Hs, Ht. cbn [default isHotp].
    replace (t <? 0) with false by (symmetry; apply Z.ltb_ge; lia). rewrite Z.quot_div_nonneg by lia.
    rewrite wrap64_small; [done|]. split; [apply Z.div_pos; lia|]. unfold max_i64 in *.
    assert (t / otpPeriod e <= t) by (apply Z.div_le_upper_bound; nia). lia. }
  assert (Hleft : SecondsRemaining clock e now = otpPeriod e - now mod otpPeriod e).
  { unfold SecondsRemaining. rewrite Ht. cbn [isHotp orb].
    replace (otpPeriod e <? MIN_PERIOD) with false by (symmetry; apply Z.ltb_ge; unfold MIN_PERIOD; lia).
    replace (now <? 0) with false by (symmetry; apply Z.ltb_ge; lia). by rewrite Z.rem_mod_nonneg by lia. }
  rewrite Hleft. pose proof (Z.mod_pos_bound now (otpPeriod e) ltac:(lia)) as Hm.
  pose proof (Z.div_mod now (otpPeriod e) ltac:(lia)) as Hdm. rewrite (Hcode now) by lia.
  split; [lia|]. destruct (GenerateHOTP_value (b :: key) (now / otpPeriod e) (otpAlgorithm e) (otpDigits e) ltac:(done) Hd) as (H1 & H2 & H3).
  split; [exact H1|]. split; [exact H2|]. split; [exact H3|]. split.
  - intros t Hrange. rewrite Hcode by lia. f_equal. symmetry. apply (Z.div_unique t (otpPeriod e) _ (t - otpPeriod e * (now / otpPeriod e))); lia.
  - rewrite Hcode by lia. f_equal. symmetry. apply (Z.div_unique _ (otpPeriod e) _ 0); lia.
Qed.

End CodeFacts.

Definition sampleEntry : Entry := mkEntry (u "alice") (u "Example") (u "JBSWY3DPEHPK3PXP") SHA1 TOTP 6 30 0.

Lemma totp_window_witness : exists key, Base32Decode (u "JBSWY3DPEHPK3PXP") = Some key /\
  (forall t, 1000000017 <= t < 1000000017 + SecondsRemaining 0 sampleEntry 1000000017 ->
     GenerateCode 0 sampleEntry t = GenerateCode 0 sampleEntry 1000000017) /\
  SecondsRemaining 0 sampleEntry 1000000017 = 3.
Proof.
  destruct (totp_window 0 sampleEntry 1000000017) as (key & Hk & _ & _ & _ & _ & H & _);
    [vm_compute; reflexivity|reflexivity|vm_compute; split; discriminate|].
  exists key. split; [exact Hk|]. split; [exact H|]. vm_compute. reflexivity.
Defined.
