(* ===== verification/OtpLink.v ===== *)
(** One-time passwords: src/src/global/OTP.cpp, the otpauth and migration links.

    The protobuf wire format of the migration payload is written out; a position
    in a payload is the text left to read.  URLs and Base64 are Qt's, outside the
    repository. *)
From stdpp Require Import base list strings.
From Stdlib Require Import ZArith Lia Bool.
From S2P Require Import Prelude Json Otp.

(** ** The protobuf wire format *)

(** do ... while (value != 0): a 64-bit value takes ten bytes at most. *)
Fixpoint writeVarint (fuel : nat) (value : Z) : list Z :=
  match fuel with
  | O => []
  | S fuel' =>
      let byte := Z.land value 127 in
      let value := Z.shiftr value 7 in
      if value =? 0 then [byte] else Z.lor byte 128 :: writeVarint fuel' value
  end.

Definition pbWriteVarint (value : Z) : list Z := writeVarint 10 value.
Definition pbWriteTag (field wireType : Z) : list Z := pbWriteVarint (Z.lor (wrap64 (Z.shiftl field 3)) wireType).
Definition pbWriteBytes (field : Z) (value : list Z) : list Z := pbWriteTag field 2 ++ pbWriteVarint (zlen value) ++ value.
Definition pbWriteUint (field value : Z) : list Z := pbWriteTag field 0 ++ pbWriteVarint value.

(** The loop of pbReadVarint: the value and the bytes after it. *)
Fixpoint readVarint (value shift : Z) (input : list Z) : option (Z * list Z) :=
  match input with
  | [] => None
  | byte :: rest =>
      let value := Z.lor value (wrap64 (Z.shiftl (Z.land byte 127) shift)) in
      if Z.land byte 128 =? 0 then Some (value, rest)
      else if 63 <? shift + 7 then None
      else readVarint value (shift + 7) rest
  end.

Definition pbReadVarint (input : list Z) : option (Z * list Z) := readVarint 0 0 input.

(** static_cast<int> of an unsigned 64-bit value. *)
Definition toInt32 (v : Z) : Z := let w := v mod 2 ^ 32 in if w <? 2 ^ 31 then w else w - 2 ^ 32.

(** A field: its number, wire type, varint or bytes, and the input after it. *)
Record PbField := mkPb { pbField : Z; pbWireType : Z; pbVarint : Z; pbBytes : list Z }.

Definition pbReadField (input : list Z) : option (PbField * list Z) :=
  let? (tag, input) := pbReadVarint input in
  let field := toInt32 (Z.shiftr tag 3) in
  let wireType := Z.land tag 7 in
  if wireType =? 0 then
    let? (varint, input) := pbReadVarint input in Some (mkPb field wireType varint [], input)
  else if wireType =? 1 then
    if zlen input <? 8 then None else Some (mkPb field wireType 0 [], drop 8 input)
  else if wireType =? 2 then
    let? (len, input) := pbReadVarint input in
    if zlen input <? len then None
    else Some (mkPb field wireType 0 (take (Z.to_nat len) input), drop (Z.to_nat len) input)
  else if wireType =? 5 then
    if zlen input <? 4 then None else Some (mkPb field wireType 0 [], drop 4 input)
  else None.

(** ** Names of algorithms and types *)

Definition migrationAlgorithm (value : Z) : option Algorithm :=
  if (value =? 0) || (value =? 1) then Some SHA1
  else if value =? 2 then Some SHA256
  else if value =? 3 then Some SHA512
  else None.

Definition migrationAlgorithmValue (algorithm : Algorithm) : Z :=
  match algorithm with SHA256 => 2 | SHA512 => 3 | SHA1 => 1 end.

Definition AlgorithmToString (algorithm : Algorithm) : qstr :=
  match algorithm with SHA256 => u "SHA256" | SHA512 => u "SHA512" | SHA1 => u "SHA1" end.

Definition TypeToString (type : OtpType) : qstr := match type with HOTP => u "hotp" | TOTP => u "totp" end.

(** ** Problems *)

Definition otpEntryLabel (e : Entry) : Message :=
  if negb (isNil (otpName e)) then MText (otpName e)
  else if negb (isNil (otpIssuer e)) then MText (otpIssuer e)
  else tr0 "Unnamed entry".

Definition otpBadAlgorithm (e : Entry) (value : qstr) : Message :=
  MTr (uq "%1: algorithm `%2` is not supported (only SHA1, SHA256 and SHA512), so its codes would be wrong.")
    [otpEntryLabel e; MText value].
Definition otpBadDigits (e : Entry) (value : qstr) : Message :=
  MTr (u "%1: %2 digits are not supported (use %3 to %4).")
    [otpEntryLabel e; MText value; MText (number MIN_DIGITS); MText (number MAX_DIGITS)].
Definition otpBadPeriod (e : Entry) (value : qstr) : Message :=
  MTr (uq "%1: a period of `%2` seconds is not supported (use %3 to %4).")
    [otpEntryLabel e; MText value; MText (number MIN_PERIOD); MText (number MAX_PERIOD)].
Definition otpBadCounter (e : Entry) (value : qstr) : Message :=
  MTr (uq "%1: the counter `%2` is not a whole number of 0 or more.") [otpEntryLabel e; MText value].
Definition otpBadType (e : Entry) (value : qstr) : Message :=
  MTr (uq "%1: type `%2` is not supported (only totp and hotp).") [otpEntryLabel e; MText value].
Definition otpNoSecret (e : Entry) : Message := MTr (u "%1: there is no secret.") [otpEntryLabel e].
Definition otpBadSecret (e : Entry) : Message :=
  MTr (u "%1: the secret is not valid base32 (letters A-Z and digits 2-7).") [otpEntryLabel e].

(** ** Entry updates *)

Definition setName v e := mkEntry v (otpIssuer e) (otpSecret e) (otpAlgorithm e) (otpType e) (otpDigits e) (otpPeriod e) (otpCounter e).
Definition setIssuer v e := mkEntry (otpName e) v (otpSecret e) (otpAlgorithm e) (otpType e) (otpDigits e) (otpPeriod e) (otpCounter e).
Definition setSecret v e := mkEntry (otpName e) (otpIssuer e) v (otpAlgorithm e) (otpType e) (otpDigits e) (otpPeriod e) (otpCounter e).
Definition setAlgorithm v e := mkEntry (otpName e) (otpIssuer e) (otpSecret e) v (otpType e) (otpDigits e) (otpPeriod e) (otpCounter e).
Definition setType v e := mkEntry (otpName e) (otpIssuer e) (otpSecret e) (otpAlgorithm e) v (otpDigits e) (otpPeriod e) (otpCounter e).
Definition setDigits v e := mkEntry (otpName e) (otpIssuer e) (otpSecret e) (otpAlgorithm e) (otpType e) v (otpPeriod e) (otpCounter e).
Definition setPeriod v e := mkEntry (otpName e) (otpIssuer e) (otpSecret e) (otpAlgorithm e) (otpType e) (otpDigits e) v (otpCounter e).
Definition setCounter v e := mkEntry (otpName e) (otpIssuer e) (otpSecret e) (otpAlgorithm e) (otpType e) (otpDigits e) (otpPeriod e) v.

(** ** URLs *)

(** What the code reads of a QUrl and writes into one: decoded components, the
    query items in order. Parsing fails on an invalid URL. *)
Record UrlParts := mkUrl { uScheme : qstr; uHost : qstr; uPath : qstr; uQuery : list (qstr * qstr) }.

Class QtUrlText := {
  parseUrl : qstr -> option UrlParts;
  writeUrl : UrlParts -> qstr
}.

(** Base64 without and with errors: QByteArray::toBase64 and fromBase64. *)
Class QtBase64Text := { toBase64 : list Z -> list Z; fromBase64Text : list Z -> list Z }.

Fixpoint hasQueryItem (query : list (qstr * qstr)) (key : qstr) : bool :=
  match query with
  | [] => false
  | (k, _) :: query' => eqStr k key || hasQueryItem query' key
  end.

(** The first item of that name, empty when there is none. *)
Fixpoint queryItemValue (query : list (qstr * qstr)) (key : qstr) : qstr :=
  match query with
  | [] => []
  | (k, v) :: query' => if eqStr k key then v else queryItemValue query' key
  end.

Section Links.
Context {Q : QtChar} {Lw : QtLower} {Up : QtUpper} {U : Utf8} {L : QtUrlText} {B : QtBase64Text}.

Definition AlgorithmFromString (name : qstr) : option Algorithm :=
  let normalized := List.filter (fun c => negb (c =? cDash)) (toUpper (trimmed name)) in
  if eqStr normalized (u "SHA256") then Some SHA256
  else if eqStr normalized (u "SHA512") then Some SHA512
  else if eqStr normalized (u "SHA1") || isNil normalized then Some SHA1
  else None.

Definition TypeFromString (name : qstr) : option OtpType :=
  let normalized := toLower (trimmed name) in
  if eqStr normalized (u "hotp") then Some HOTP
  else if eqStr normalized (u "totp") || isNil normalized then Some TOTP
  else None.

(** toInt and toLongLong: an optional sign and digits within the range. *)
Definition qtInteger (lo hi : Z) (s : qstr) : option Z :=
  let t := trimmed s in
  let neg := startsWithChar cDash t in
  let body := if neg || startsWithChar 43 t then drop 1 t else t in
  if isNil body || negb (forallb (fun c => (48 <=? c) && (c <=? 57)) body) then None
  else
    let v := if neg then - decimalValue body else decimalValue body in
    if (lo <=? v) && (v <=? hi) then Some v else None.

(** ** otpauth links *)

Definition ExportToLink (e : Entry) : qstr :=
  writeUrl (mkUrl (u "otpauth") (TypeToString (otpType e))
    (cSlash :: (if isNil (otpIssuer e) then otpName e else otpIssuer e ++ [cColon] ++ otpName e))
    ([(u "secret", otpSecret e)] ++
     (if isNil (otpIssuer e) then [] else [(u "issuer", otpIssuer e)]) ++
     [(u "algorithm", AlgorithmToString (otpAlgorithm e)); (u "digits", number (otpDigits e))] ++
     match otpType e with
     | HOTP => [(u "counter", number (otpCounter e))]
     | TOTP => [(u "period", number (otpPeriod e))]
     end)).

(** Not an otpauth link, a refused one with the reason, or the entry. *)
Inductive LinkResult := NotLink | Refused (m : Message) | Parsed (e : Entry).

(** The issuer and the name of the label and the query. *)
Definition linkNames (url : UrlParts) : Entry :=
  let label := if startsWithChar cSlash (uPath url) then drop 1 (uPath url) else uPath url in
  let e := match indexOf cColon label with
           | Some sep => setName (trimmed (drop (S sep) label)) (setIssuer (trimmed (take sep label)) defaultEntry)
           | None => setName (trimmed label) defaultEntry
           end in
  let issuer := trimmed (queryItemValue (uQuery url) (u "issuer")) in
  let e := if isNil issuer then e else setIssuer issuer e in
  if isNil (otpName e) then setName (otpIssuer e) e else e.

(** An optional query item read by [read]; the bad value is refused by [bad]. *)
Definition linkItem (query : list (qstr * qstr)) (key : qstr) (applies : bool)
    (read : qstr -> Entry -> option Entry) (bad : qstr -> Message) (e : Entry) : Message + Entry :=
  if applies && hasQueryItem query key then
    let value := queryItemValue query key in
    match read value e with
    | Some e => inr e
    | None => inl (bad value)
    end
  else inr e.

Definition readAlgorithm (value : qstr) (e : Entry) : option Entry :=
  let? a := AlgorithmFromString value in Some (setAlgorithm a e).
Definition readDigits (value : qstr) (e : Entry) : option Entry :=
  let? d := qtInteger min_i32 max_i32 (trimmed value) in
  if (d <? MIN_DIGITS) || (MAX_DIGITS <? d) then None else Some (setDigits d e).
Definition readPeriod (value : qstr) (e : Entry) : option Entry :=
  let? p := qtInteger min_i32 max_i32 (trimmed value) in
  if (p <? MIN_PERIOD) || (MAX_PERIOD <? p) then None else Some (setPeriod p e).
Definition readCounter (value : qstr) (e : Entry) : option Entry :=
  let? c := qtInteger min_i64 max_i64 (trimmed value) in
  if c <? 0 then None else Some (setCounter c e).

(** The query items after the secret. *)
Definition linkItems (query : list (qstr * qstr)) (e : Entry) : LinkResult :=
  match linkItem query (u "algorithm") true readAlgorithm (otpBadAlgorithm e) e with
  | inl m => Refused m
  | inr e =>
      match linkItem query (u "digits") true readDigits (fun v => otpBadDigits e (trimmed v)) e with
      | inl m => Refused m
      | inr e =>
          match linkItem query (u "period") (negb (isHotp (otpType e))) readPeriod (fun v => otpBadPeriod e (trimmed v)) e with
          | inl m => Refused m
          | inr e =>
              match linkItem query (u "counter") (isHotp (otpType e)) readCounter (fun v => otpBadCounter e (trimmed v)) e with
              | inl m => Refused m
              | inr e => Parsed e
              end
          end
      end
  end.

Definition ParseFromLink (link : qstr) : LinkResult :=
  match parseUrl (trimmed link) with
  | None => NotLink
  | Some url =>
      if negb (eqFold (uScheme url) (u "otpauth")) then NotLink
      else
        let e := linkNames url in
        match TypeFromString (uHost url) with
        | None => Refused (otpBadType e (uHost url))
        | Some t =>
            let e := setType t e in
            let secret := queryItemValue (uQuery url) (u "secret") in
            if isNil (trimmed secret) then Refused (otpNoSecret e)
            else
              let e := setSecret (NormalizeSecret secret) e in
              if isNil (otpSecret e) then Refused (otpBadSecret e) else linkItems (uQuery url) e
        end
  end.

(** ** Migration links *)

Definition migrationParameters (e : Entry) (key : list Z) : list Z :=
  pbWriteBytes 1 key ++ pbWriteBytes 2 (toUtf8 (otpName e)) ++
  (if isNil (otpIssuer e) then [] else pbWriteBytes 3 (toUtf8 (otpIssuer e))) ++
  pbWriteUint 4 (migrationAlgorithmValue (otpAlgorithm e)) ++
  pbWriteUint 5 (if otpDigits e =? 8 then 2 else 1) ++
  pbWriteUint 6 (if isHotp (otpType e) then 1 else 2) ++
  (if isHotp (otpType e) then pbWriteUint 7 (wrap64 (otpCounter e)) else []).

Fixpoint migrationPayload (entries : list Entry) : list Z :=
  match entries with
  | [] => []
  | e :: entries' =>
      match Base32Decode (otpSecret e) with
      | Some (b :: key) => pbWriteBytes 1 (migrationParameters e (b :: key)) ++ migrationPayload entries'
      | _ => migrationPayload entries'
      end
  end.

Definition ExportToMigrationLink (entries : list Entry) : qstr :=
  let payload := migrationPayload entries in
  if isNil payload then []
  else
    let payload := payload ++ pbWriteUint 2 1 ++ pbWriteUint 3 1 ++ pbWriteUint 4 0 in
    writeUrl (mkUrl (u "otpauth-migration") (u "offline") [] [(u "data", fromUtf8 (toBase64 payload))]).

(** The locals of the loop over the fields of one entry. *)
Record MigrationState := mkMigration {
  mgEntry : Entry;
  mgHaveSecret : bool;
  mgBadAlgorithm : option Z;
  mgBadDigits : option Z;
  mgBadType : option Z
}.

Definition withEntry (f : Entry -> Entry) (s : MigrationState) : MigrationState :=
  mkMigration (f (mgEntry s)) (mgHaveSecret s) (mgBadAlgorithm s) (mgBadDigits s) (mgBadType s).

(** static_cast<qint64>. *)
Definition toInt64 (v : Z) : Z := if v <? 2 ^ 63 then v else v - 2 ^ 64.

Definition migrationField (f : PbField) (s : MigrationState) : MigrationState :=
  let v := pbVarint f in
  let b := pbBytes f in
  let n := pbField f in
  if n =? 1 then
    mkMigration (setSecret (Base32Encode b) (mgEntry s)) (negb (isNil b)) (mgBadAlgorithm s) (mgBadDigits s) (mgBadType s)
  else if n =? 2 then withEntry (setName (fromUtf8 b)) s
  else if n =? 3 then withEntry (setIssuer (fromUtf8 b)) s
  else if n =? 4 then
    match migrationAlgorithm v with
    | Some a => withEntry (setAlgorithm a) s
    | None => mkMigration (mgEntry s) (mgHaveSecret s) (Some v) (mgBadDigits s) (mgBadType s)
    end
  else if n =? 5 then
    if v <=? 2 then withEntry (setDigits (if v =? 2 then 8 else DEFAULT_DIGITS)) s
    else mkMigration (mgEntry s) (mgHaveSecret s) (mgBadAlgorithm s) (Some v) (mgBadType s)
  else if n =? 6 then
    if v <=? 2 then withEntry (setType (if v =? 1 then HOTP else TOTP)) s
    else mkMigration (mgEntry s) (mgHaveSecret s) (mgBadAlgorithm s) (mgBadDigits s) (Some v)
  else if n =? 7 then withEntry (setCounter (toInt64 v)) s
  else s.

(** The fields of one entry; a field takes a byte at least. *)
Fixpoint migrationFields (fuel : nat) (input : list Z) (s : MigrationState) : option MigrationState :=
  match input with
  | [] => Some s
  | _ :: _ =>
      match fuel with
      | O => None
      | S fuel' =>
          let? (f, rest) := pbReadField input in
          migrationFields fuel' rest (migrationField f s)
      end
  end.

Definition migrationStart : MigrationState := mkMigration defaultEntry false None None None.

(** The entry, or why it is skipped. *)
Definition migrationEntry (s : MigrationState) : Message + Entry :=
  let e := if isNil (otpName (mgEntry s)) then setName (otpIssuer (mgEntry s)) (mgEntry s) else mgEntry s in
  if negb (mgHaveSecret s) then inl (otpNoSecret e)
  else match mgBadAlgorithm s with
       | Some a => inl (otpBadAlgorithm e (if a =? 4 then u "MD5" else number a))
       | None =>
           match mgBadDigits s with
           | Some d => inl (MTr (u "%1: the digit count code %2 is not supported.") [otpEntryLabel e; MText (number d)])
           | None =>
               match mgBadType s with
               | Some t => inl (otpBadType e (number t))
               | None => inr e
               end
           end
       end.

(** The entries and the problems of a payload; [None] is an unreadable one. *)
Fixpoint migrationLoop (fuel : nat) (input : list Z) : option (list Message * list Entry) :=
  match input with
  | [] => Some ([], [])
  | _ :: _ =>
      match fuel with
      | O => None
      | S fuel' =>
          let? (f, rest) := pbReadField input in
          if negb (pbField f =? 1) || negb (pbWireType f =? 2) then migrationLoop fuel' rest
          else
            let? s := migrationFields (length (pbBytes f)) (pbBytes f) migrationStart in
            let? (skipped, entries) := migrationLoop fuel' rest in
            match migrationEntry s with
            | inl m => Some (m :: skipped, entries)
            | inr e => Some (skipped, e :: entries)
            end
      end
  end.

(** The result, the problems added and the entries. *)
Definition ParseFromMigrationLink (link : qstr) : bool * list Message * list Entry :=
  let failed := (false, [], []) in
  match parseUrl (trimmed link) with
  | None => failed
  | Some url =>
      if negb (eqFold (uScheme url) (u "otpauth-migration")) then failed
      else
        let data := queryItemValue (uQuery url) (u "data") in
        if isNil data then failed
        else
          let payload := fromBase64Text (toUtf8 data) in
          if isNil payload then failed
          else match migrationLoop (length payload) payload with
               | None => failed
               | Some (skipped, entries) => (negb (isNil entries), skipped, entries)
               end
  end.

End Links.
