(* ===== verification/OtpLinkFacts.v ===== *)
(** What survives the links of one-time passwords: the protobuf fields read back,
    the migration link and the otpauth link round trips. *)
From stdpp Require Import base list strings.
From Stdlib Require Import ZArith Lia Bool.
From S2P Require Import Prelude Json Otp OtpLink.

(** ** Protobuf fields *)

Lemma varint_byte v : 0 <= v -> Z.land (Z.lor (Z.land v 127) 128) 127 = v mod 128 /\ Z.land (Z.lor (Z.land v 127) 128) 128 = 128
  /\ Z.land v 127 = v mod 128 /\ Z.land (Z.land v 127) 128 = 0.
Proof.
  intros Hv. assert (E : Z.land v 127 = v mod 128) by (change 127 with (2 ^ 7 - 1); rewrite land_low by lia; done).
  rewrite E. pose proof (Z.mod_pos_bound v 128 ltac:(lia)).
  assert (El : Z.lor (v mod 128) 128 = 1 * 2 ^ 7 + v mod 128).
  { rewrite Z.lor_comm. change 128 with (Z.shiftl 1 7) at 1. by rewrite lor_shiftl by (change (2 ^ 7) with 128; lia). }
  rewrite El. change 127 with (2 ^ 7 - 1). rewrite land_low by lia. change (2 ^ 7) with 128.
  split; [rewrite Z.add_comm, Z.mod_add, Z.mod_mod by lia; done|].
  assert (Hland : forall x, 0 <= x < 256 -> Z.land x 128 = if 128 <=? x then 128 else 0).
  { intros x Hx. assert (Hall : forallb (fun x => Z.land x 128 =? if 128 <=? x then 128 else 0) (map Z.of_nat (seq 0 256)) = true)
      by (vm_compute; reflexivity).
    rewrite forallb_forall in Hall. specialize (Hall x). rewrite in_map_iff in Hall.
    apply Z.eqb_eq, Hall. exists (Z.to_nat x). rewrite in_seq. lia. }
  rewrite !Hland by lia. split; [|split; [done|]].
  - by replace (128 <=? 1 * 128 + v mod 128) with true by (symmetry; apply Z.leb_le; lia).
  - by replace (128 <=? v mod 128) with false by (symmetry; apply Z.leb_gt; lia).
Qed.

Lemma readVarint_write fuel v acc shift rest :
  0 <= v -> 0 <= shift <= 63 -> v < 2 ^ (64 - shift) -> v < 2 ^ (7 * Z.of_nat fuel) -> (0 < fuel)%nat ->
  0 <= acc < 2 ^ shift -> readVarint acc shift (writeVarint fuel v ++ rest) = Some (acc + v * 2 ^ shift, rest).
Proof.
  revert v acc shift. induction fuel as [|fuel IH]; intros v acc shift Hv Hs Hb Hf Hpos Ha; [lia|].
  pose proof (varint_byte v Hv) as (L1 & L2 & L3 & L4). pose proof (Z.div_mod v 128 ltac:(lia)) as Hdm.
  pose proof (Z.mod_pos_bound v 128 ltac:(lia)) as Hm. assert (0 <= v / 128) by (apply Z.div_pos; lia).
  assert (Hp : 0 < 2 ^ shift) by (apply Z.pow_pos_nonneg; lia).
  assert (H64 : 2 ^ 64 = 2 ^ (64 - shift) * 2 ^ shift) by (rewrite <- Z.pow_add_r by lia; f_equal; lia).
  assert (Hpart : forall x, 0 <= x <= v -> Z.lor acc (wrap64 (Z.shiftl x shift)) = acc + x * 2 ^ shift).
  { intros x Hx. rewrite wrap64_small by (rewrite Z.shiftl_mul_pow2 by lia; nia).
    rewrite Z.lor_comm, lor_shiftl by lia. lia. }
  cbn [writeVarint]. cbv zeta. rewrite Z.shiftr_div_pow2 by lia. change (2 ^ 7) with 128.
  destruct (v / 128 =? 0) eqn:E; zbool; cbn [app readVarint]; cbv zeta.
  - rewrite L4, Z.eqb_refl, L3. rewrite Z.mod_small by lia.
    change 127 with (2 ^ 7 - 1). rewrite land_low by lia. rewrite Z.mod_small by (change (2 ^ 7) with 128; lia).
    by rewrite Hpart by lia.
  - rewrite L2, L1. change (128 =? 0) with false. cbv iota.
    assert (Hs7 : shift + 7 <= 63).
    { destruct (Z.le_gt_cases (shift + 7) 63) as [|Hgt]; [done|]. exfalso.
      assert (2 ^ (64 - shift) <= 2 ^ 7) by (apply Z.pow_le_mono_r; lia). change (2 ^ 7) with 128 in *. nia. }
    replace (63 <? shift + 7) with false by (symmetry; apply Z.ltb_ge; lia).
    rewrite Hpart by lia.
    assert (H7 : 2 ^ (shift + 7) = 2 ^ shift * 128) by (rewrite Z.pow_add_r by lia; done).
    rewrite IH; [f_equal; f_equal; rewrite H7; nia|done|lia| | | |rewrite H7; nia].
    + apply Z.div_lt_upper_bound; [lia|]. replace (64 - shift) with (7 + (64 - (shift + 7))) in Hb by lia.
      rewrite Z.pow_add_r in Hb by lia. exact Hb.
    + apply Z.div_lt_upper_bound; [lia|]. replace (7 * Z.of_nat (S fuel)) with (7 + 7 * Z.of_nat fuel) in Hf by lia.
      rewrite Z.pow_add_r in Hf by lia. exact Hf.
    + destruct fuel; [|lia]. change (2 ^ (7 * Z.of_nat 1)) with 128 in Hf. nia.
Qed.

Lemma pbReadVarint_write v rest : 0 <= v < 2 ^ 64 -> pbReadVarint (pbWriteVarint v ++ rest) = Some (v, rest).
Proof.
  intros Hv. unfold pbReadVarint, pbWriteVarint. rewrite readVarint_write; [|lia|lia| | |lia|change (2 ^ 0) with 1; lia].
  - f_equal. f_equal. change (2 ^ 0) with 1. lia.
  - apply Hv.
  - assert (2 ^ 64 < 2 ^ (7 * Z.of_nat 10)) by (apply Z.pow_lt_mono_r; lia). lia.
Qed.

(** The fields the program writes: 1 to 7. *)
Definition fieldNumber (n : Z) : Prop := n ∈ [1; 2; 3; 4; 5; 6; 7].

Lemma pbReadTag n w rest : fieldNumber n -> w = 0 \/ w = 2 ->
  pbReadVarint (pbWriteTag n w ++ rest) = Some (n * 8 + w, rest) /\ toInt32 (Z.shiftr (n * 8 + w) 3) = n /\ Z.land (n * 8 + w) 7 = w.
Proof.
  intros Hn Hw. unfold fieldNumber in Hn. rewrite !elem_of_cons in Hn. unfold pbWriteTag.
  assert (Htag : Z.lor (wrap64 (Z.shiftl n 3)) w = n * 8 + w).
  { destruct Hn as [->|[->|[->|[->|[->|[->|[->|Hn]]]]]]]; [..|by apply not_elem_of_nil in Hn]; destruct Hw as [-> | ->]; reflexivity. }
  rewrite Htag. rewrite pbReadVarint_write; [|rewrite elem_of_nil in Hn; lia].
  split; [done|].
  destruct Hn as [->|[->|[->|[->|[->|[->|[->|Hn]]]]]]]; [..|by apply not_elem_of_nil in Hn]; destruct Hw as [-> | ->]; split; reflexivity.
Qed.

Lemma pbReadField_bytes n b rest : fieldNumber n -> zlen b < 2 ^ 64 ->
  pbReadField (pbWriteBytes n b ++ rest) = Some (mkPb n 2 0 b, rest).
Proof.
  intros Hn Hb. unfold pbReadField, pbWriteBytes. rewrite <- !app_assoc.
  destruct (pbReadTag n 2 (pbWriteVarint (zlen b) ++ b ++ rest) Hn ltac:(by right)) as (-> & H1 & H2). rewrite H1, H2.
  cbn [Z.eqb Pos.eqb]. rewrite pbReadVarint_write by (pose proof (zlen_nonneg b); lia).
  rewrite zlen_app. replace (zlen b + zlen rest <? zlen b) with false by (symmetry; apply Z.ltb_ge; pose proof (zlen_nonneg rest); lia).
  assert (Hl : Z.to_nat (zlen b) = length b) by (unfold zlen; lia). by rewrite Hl, take_app_length, drop_app_length.
Qed.

Lemma pbReadField_uint n v rest : fieldNumber n -> 0 <= v < 2 ^ 64 ->
  pbReadField (pbWriteUint n v ++ rest) = Some (mkPb n 0 v [], rest).
Proof.
  intros Hn Hv. unfold pbReadField, pbWriteUint. rewrite <- app_assoc.
  destruct (pbReadTag n 0 (pbWriteVarint v ++ rest) Hn ltac:(by left)) as (-> & H1 & H2). rewrite H1, H2.
  cbn [Z.eqb]. by rewrite pbReadVarint_write.
Qed.

Lemma pbWriteVarint_nonempty v : (0 < length (pbWriteVarint v))%nat.
Proof. unfold pbWriteVarint. cbn [writeVarint]. cbv zeta. break_if; cbn; lia. Qed.

Lemma pbWriteTag_nonempty n w : (0 < length (pbWriteTag n w))%nat.
Proof. apply pbWriteVarint_nonempty. Qed.

(** ** The fields of one entry *)

Section Migration.
Context {Q : QtChar} {Lw : QtLower} {Up : QtUpper} {U : Utf8} {L : QtUrlText} {B : QtBase64Text}.

(** [input] reads as the fields [fs]. *)
Inductive fieldsOf : list Z -> list PbField -> Prop :=
| fields_nil : fieldsOf [] []
| fields_cons input f rest fs : input <> [] -> pbReadField input = Some (f, rest) -> (length rest < length input)%nat ->
    fieldsOf rest fs -> fieldsOf input (f :: fs).

Lemma migrationFields_of input fs : fieldsOf input fs -> forall fuel s, (length input <= fuel)%nat ->
  migrationFields fuel input s = Some (fold_left (fun s f => migrationField f s) fs s).
Proof.
  induction 1 as [|input f rest fs Hne Hf Hl _ IH]; intros fuel s Hfuel; [by destruct fuel|].
  destruct input as [|x input]; [done|]. destruct fuel as [|fuel]; [cbn in Hfuel; lia|]. cbn [migrationFields].
  rewrite Hf. apply IH. cbn [length] in *. lia.
Qed.

Lemma fields_bytes n b rest fs : fieldNumber n -> zlen b < 2 ^ 64 -> fieldsOf rest fs ->
  fieldsOf (pbWriteBytes n b ++ rest) (mkPb n 2 0 b :: fs).
Proof.
  intros Hn Hb Hr. pose proof (pbWriteTag_nonempty n 2) as Ht. eapply fields_cons; [|by apply pbReadField_bytes| |exact Hr].
  - unfold pbWriteBytes. destruct (pbWriteTag n 2); [cbn in Ht; lia|done].
  - unfold pbWriteBytes. rewrite !length_app. lia.
Qed.

Lemma fields_uint n v rest fs : fieldNumber n -> 0 <= v < 2 ^ 64 -> fieldsOf rest fs ->
  fieldsOf (pbWriteUint n v ++ rest) (mkPb n 0 v [] :: fs).
Proof.
  intros Hn Hv Hr. pose proof (pbWriteTag_nonempty n 0) as Ht. eapply fields_cons; [|by apply pbReadField_uint| |exact Hr].
  - unfold pbWriteUint. destruct (pbWriteTag n 0); [cbn in Ht; lia|done].
  - unfold pbWriteUint. rewrite !length_app. lia.
Qed.

(** A text that UTF-8 carries. *)
Definition utf8Text (s : qstr) : Prop := fromUtf8 (toUtf8 s) = s /\ Forall isByte (toUtf8 s) /\ zlen (toUtf8 s) < 2 ^ 31.

(** An entry the payload can hold at all. *)
Definition migratable (e : Entry) : Prop :=
  utf8Text (otpName e) /\ utf8Text (otpIssuer e) /\ min_i64 <= otpCounter e <= max_i64 /\ zlen (otpSecret e) < 2 ^ 31.

Definition exported (e : Entry) : bool :=
  match Base32Decode (otpSecret e) with Some (_ :: _) => true | _ => false end.

(** What the payload says of an entry: the secret in its normal form, six or
    eight digits, the default period, the counter of a counter-based entry, and
    the issuer as the name of an unnamed one. *)
Definition migrated (e : Entry) : Entry :=
  mkEntry (if isNil (otpName e) then otpIssuer e else otpName e) (otpIssuer e) (NormalizeSecret (otpSecret e))
    (otpAlgorithm e) (otpType e) (if otpDigits e =? 8 then 8 else DEFAULT_DIGITS) DEFAULT_PERIOD
    (if isHotp (otpType e) then otpCounter e else 0).

Lemma decodeLoop_length buffer bitsLeft s out : decodeLoop buffer bitsLeft s = Some out -> (length out <= length s)%nat.
Proof.
  revert buffer bitsLeft out. induction s as [|c s IH]; intros buffer bitsLeft out H; cbn [decodeLoop] in H.
  - injection H as <-. cbn. lia.
  - cbn [length]. destruct (base32Skipped c); [apply IH in H; lia|]. destruct (base32Value c); [|done]. cbv zeta in H.
    destruct (8 <=? bitsLeft + 5); [|apply IH in H; lia]. destruct (decodeLoop _ _ s) as [o|] eqn:E; [|done].
    injection H as <-. apply IH in E. cbn. lia.
Qed.

Lemma toInt64_wrap c : min_i64 <= c <= max_i64 -> toInt64 (wrap64 c) = c.
Proof.
  unfold min_i64, max_i64, toInt64, wrap64. intros Hc. destruct (Z.le_gt_cases 0 c).
  - rewrite Z.mod_small by lia. by replace (c <? 2 ^ 63) with true by (symmetry; apply Z.ltb_lt; lia).
  - replace (c mod 2 ^ 64) with (c + 2 ^ 64) by (rewrite <- (Z.mod_add c 1 (2 ^ 64)) by lia; rewrite Z.mod_small by lia; lia).
    replace (c + 2 ^ 64 <? 2 ^ 63) with false by (symmetry; apply Z.ltb_ge; lia). lia.
Qed.

Lemma wrap64_bound c : 0 <= wrap64 c < 2 ^ 64.
Proof. apply Z.mod_pos_bound. lia. Qed.

Definition readSoFar (e : Entry) : MigrationState := mkMigration e true None None None.

Ltac field_number := unfold fieldNumber; apply list_elem_of_In; cbn; auto 10.

(** The fields with numbers 4 to 7. *)
Lemma read_algorithm v a e : migrationAlgorithm v = Some a -> migrationField (mkPb 4 0 v []) (readSoFar e) = readSoFar (setAlgorithm a e).
Proof. intros H. unfold migrationField. cbn [pbField pbVarint Z.eqb Pos.eqb]. by rewrite H. Qed.

Lemma read_digits (eight : bool) e : migrationField (mkPb 5 0 (if eight then 2 else 1) []) (readSoFar e) =
  readSoFar (setDigits (if eight then 8 else DEFAULT_DIGITS) e).
Proof. by destruct eight. Qed.

Lemma read_type t e : migrationField (mkPb 6 0 (if isHotp t then 1 else 2) []) (readSoFar e) = readSoFar (setType t e).
Proof. by destruct t. Qed.

Lemma read_counter v e : migrationField (mkPb 7 0 v []) (readSoFar e) = readSoFar (setCounter (toInt64 v) e).
Proof. reflexivity. Qed.

(** The parameters of an entry read back as its migrated form. *)
Lemma migrationFields_entry e b key : migratable e -> Base32Decode (otpSecret e) = Some (b :: key) ->
  exists s, migrationFields (length (migrationParameters e (b :: key))) (migrationParameters e (b :: key)) migrationStart = Some s /\
    migrationEntry s = inr (migrated e).
Proof.
  intros ([Hn [_ Hnl]] & [Hi [_ Hil]] & Hc & Hsl) Hkey.
  assert (Hkl : zlen (b :: key) < 2 ^ 64).
  { unfold Base32Decode in Hkey. apply decodeLoop_length in Hkey. unfold zlen in *. lia. }
  assert (Ha : 0 <= migrationAlgorithmValue (otpAlgorithm e) < 2 ^ 64) by (destruct (otpAlgorithm e); cbn; lia).
  set (rest := if isHotp (otpType e) then pbWriteUint 7 (wrap64 (otpCounter e)) else []).
  set (restFields := if isHotp (otpType e) then [mkPb 7 0 (wrap64 (otpCounter e)) []] else []).
  assert (Hrest : fieldsOf rest restFields).
  { unfold rest, restFields. destruct (isHotp (otpType e)); [|constructor].
    rewrite <- (app_nil_r (pbWriteUint _ _)). apply fields_uint; [field_number|apply wrap64_bound|constructor]. }
  set (tailFields := mkPb 4 0 (migrationAlgorithmValue (otpAlgorithm e)) [] :: mkPb 5 0 (if otpDigits e =? 8 then 2 else 1) [] ::
         mkPb 6 0 (if isHotp (otpType e) then 1 else 2) [] :: restFields).
  assert (Htail : fieldsOf (pbWriteUint 4 (migrationAlgorithmValue (otpAlgorithm e)) ++
       pbWriteUint 5 (if otpDigits e =? 8 then 2 else 1) ++ pbWriteUint 6 (if isHotp (otpType e) then 1 else 2) ++ rest) tailFields).
  { apply fields_uint; [field_number|done|]. apply fields_uint; [field_number|destruct (otpDigits e =? 8); lia|].
    apply fields_uint; [field_number|destruct (isHotp (otpType e)); lia|done]. }
  set (issuerFields := if isNil (otpIssuer e) then [] else [mkPb 3 2 0 (toUtf8 (otpIssuer e))]).
  assert (Hf : fieldsOf (migrationParameters e (b :: key))
    (mkPb 1 2 0 (b :: key) :: mkPb 2 2 0 (toUtf8 (otpName e)) :: issuerFields ++ tailFields)).
  { unfold migrationParameters. apply fields_bytes; [field_number|done|]. apply fields_bytes; [field_number|lia|].
    unfold issuerFields. destruct (isNil (otpIssuer e)); [exact Htail|]. apply fields_bytes; [field_number|lia|exact Htail]. }
  eexists. split; [by apply migrationFields_of|].
  assert (Hnorm : NormalizeSecret (otpSecret e) = Base32Encode (b :: key)) by (unfold NormalizeSecret; by rewrite Hkey).
  unfold migrated. rewrite Hnorm.
  assert (Halg : migrationAlgorithm (migrationAlgorithmValue (otpAlgorithm e)) = Some (otpAlgorithm e)) by by destruct (otpAlgorithm e).
  change (fold_left (fun s f => migrationField f s) (mkPb 1 2 0 (b :: key) :: mkPb 2 2 0 (toUtf8 (otpName e)) :: issuerFields ++ tailFields) migrationStart)
    with (fold_left (fun s f => migrationField f s) (issuerFields ++ tailFields)
            (readSoFar (setName (fromUtf8 (toUtf8 (otpName e))) (setSecret (Base32Encode (b :: key)) defaultEntry)))).
  rewrite Hn, fold_left_app. set (key' := Base32Encode (b :: key)). clearbody key'.
  assert (Hissuer : fold_left (fun s f => migrationField f s) issuerFields (readSoFar (setName (otpName e) (setSecret key' defaultEntry))) =
    readSoFar (setIssuer (otpIssuer e) (setName (otpName e) (setSecret key' defaultEntry)))).
  { unfold issuerFields. destruct (otpIssuer e) as [|x issuer] eqn:Ei; [done|]. cbn [isNil fold_left].
    change (migrationField (mkPb 3 2 0 (toUtf8 (x :: issuer))) (readSoFar ?y)) with (readSoFar (setIssuer (fromUtf8 (toUtf8 (x :: issuer))) y)).
    by rewrite Hi. }
  rewrite Hissuer. unfold tailFields, restFields. clear -Halg Hc.
  destruct e as [name issuer secret a t d p c]. cbn [otpName otpIssuer otpAlgorithm otpType otpDigits otpCounter] in *.
  cbn [fold_left]. rewrite (read_algorithm _ _ _ Halg), read_digits, read_type.
  destruct t; cbn [isHotp fold_left]; [|rewrite read_counter, toInt64_wrap by done]; by destruct name.
Qed.

Lemma writeVarint_length fuel v : (length (writeVarint fuel v) <= fuel)%nat.
Proof.
  revert v. induction fuel as [|fuel IH]; intros v; cbn [writeVarint]; [done|]. cbv zeta.
  break_if; cbn [length]; [lia|]. specialize (IH (Z.shiftr v 7)). lia.
Qed.

Lemma writeBytes_length n b : zlen (pbWriteBytes n b) <= 20 + zlen b.
Proof.
  unfold pbWriteBytes, pbWriteTag, pbWriteVarint. rewrite !zlen_app. unfold zlen.
  pose proof (writeVarint_length 10 (Z.lor (wrap64 (Z.shiftl n 3)) 2)). pose proof (writeVarint_length 10 (Z.of_nat (length b))). lia.
Qed.

Lemma writeUint_length n v : zlen (pbWriteUint n v) <= 20.
Proof.
  unfold pbWriteUint, pbWriteTag, pbWriteVarint. rewrite !zlen_app. unfold zlen.
  pose proof (writeVarint_length 10 (Z.lor (wrap64 (Z.shiftl n 3)) 0)). pose proof (writeVarint_length 10 v). lia.
Qed.

Lemma parameters_length e key : migratable e -> zlen key < 2 ^ 31 -> zlen (migrationParameters e key) < 2 ^ 64.
Proof.
  intros ([_ [_ Hn]] & [_ [_ Hi]] & _) Hk. unfold migrationParameters. rewrite !zlen_app.
  pose proof (writeBytes_length 1 key). pose proof (writeBytes_length 2 (toUtf8 (otpName e))).
  pose proof (writeBytes_length 3 (toUtf8 (otpIssuer e))).
  pose proof (writeUint_length 4 (migrationAlgorithmValue (otpAlgorithm e))).
  pose proof (writeUint_length 5 (if otpDigits e =? 8 then 2 else 1)).
  pose proof (writeUint_length 6 (if isHotp (otpType e) then 1 else 2)).
  pose proof (writeUint_length 7 (wrap64 (otpCounter e))).
  assert (zlen (if isNil (otpIssuer e) then [] else pbWriteBytes 3 (toUtf8 (otpIssuer e))) <= 20 + zlen (toUtf8 (otpIssuer e))).
  { destruct (isNil (otpIssuer e)); [|done]. pose proof (zlen_nonneg (toUtf8 (otpIssuer e))). unfold zlen at 1. cbn. lia. }
  assert (zlen (if isHotp (otpType e) then pbWriteUint 7 (wrap64 (otpCounter e)) else []) <= 20).
  { destruct (isHotp (otpType e)); [done|]. unfold zlen. cbn. lia. }
  lia.
Qed.

(** Fields other than an entry are passed over. *)
Lemma migrationLoop_skip f rest input fuel : pbReadField input = Some (f, rest) -> pbField f <> 1 -> input <> [] ->
  migrationLoop (S fuel) input = migrationLoop fuel rest.
Proof.
  intros Hf Hn Hne. destruct input; [done|]. cbn [migrationLoop]. rewrite Hf.
  by replace (pbField f =? 1) with false by (symmetry; by apply Z.eqb_neq).
Qed.

Definition trailer : list Z := pbWriteUint 2 1 ++ pbWriteUint 3 1 ++ pbWriteUint 4 0.

Lemma migrationLoop_trailer fuel : (length trailer <= fuel)%nat -> migrationLoop fuel trailer = Some ([], []).
Proof.
  change (length trailer) with 6%nat. intros Hf. do 3 (destruct fuel as [|fuel]; [lia|]).
  rewrite (migrationLoop_skip (mkPb 2 0 1 []) (pbWriteUint 3 1 ++ pbWriteUint 4 0)) by (vm_compute; congruence).
  rewrite (migrationLoop_skip (mkPb 3 0 1 []) (pbWriteUint 4 0)) by (vm_compute; congruence).
  rewrite (migrationLoop_skip (mkPb 4 0 0 []) []) by (vm_compute; congruence). by destruct fuel.
Qed.

Lemma migrationLoop_entries es : forall fuel, Forall migratable es -> (length (migrationPayload es ++ trailer) <= fuel)%nat ->
  migrationLoop fuel (migrationPayload es ++ trailer) = Some ([], map migrated (List.filter exported es)).
Proof.
  induction es as [|e es IH]; intros fuel Hm Hf; [by apply migrationLoop_trailer|].
  apply Forall_cons in Hm as [He Hm]. cbn [migrationPayload List.filter] in *. unfold exported at 1.
  destruct (Base32Decode (otpSecret e)) as [[|b key]|] eqn:Ek; [by apply IH| |by apply IH].
  assert (Hkl : zlen (b :: key) < 2 ^ 31).
  { pose proof (decodeLoop_length _ _ _ _ Ek). destruct He as (_ & _ & _ & Hs). unfold zlen in *. lia. }
  pose proof (parameters_length e (b :: key) He Hkl) as Hpl.
  rewrite <- app_assoc in *. set (tail := migrationPayload es ++ trailer) in *.
  assert (Hread : pbReadField (pbWriteBytes 1 (migrationParameters e (b :: key)) ++ tail) =
    Some (mkPb 1 2 0 (migrationParameters e (b :: key)), tail)) by (apply pbReadField_bytes; [field_number|done]).
  assert (Hnn : exists x input, pbWriteBytes 1 (migrationParameters e (b :: key)) ++ tail = x :: input /\ (length tail <= length input)%nat).
  { pose proof (pbWriteTag_nonempty 1 2) as Ht. unfold pbWriteBytes. destruct (pbWriteTag 1 2) as [|x t]; [cbn in Ht; lia|].
    eexists _, _. split; [reflexivity|]. rewrite !length_app. lia. }
  destruct Hnn as (x & input & Ein & Hlen). rewrite Ein in *. destruct fuel as [|fuel]; [cbn in Hf; lia|].
  cbn [migrationLoop]. rewrite Hread. cbn [pbField pbWireType pbBytes Z.eqb Pos.eqb negb orb].
  destruct (migrationFields_entry e b key He Ek) as (s & -> & Hs).
  rewrite IH by (done || (cbn [length] in Hf; lia)). by rewrite Hs.
Qed.

(** A payload is made of bytes. *)
Lemma writeVarint_bytes fuel v : Forall isByte (writeVarint fuel v).
Proof.
  revert v. induction fuel as [|fuel IH]; intros v; cbn [writeVarint]; [by constructor|]. cbv zeta.
  assert (Hb : 0 <= Z.land v 127 < 2 ^ 7) by (change 127 with (2 ^ 7 - 1); rewrite land_low by lia; apply Z.mod_pos_bound; lia).
  change (2 ^ 7) with 128 in Hb. break_if; (apply List.Forall_cons; [|done || by constructor]); unfold isByte; [lia|].
  assert (0 <= Z.lor (Z.land v 127) 128 < 2 ^ 8) by (apply lor_bound; lia). lia.
Qed.

Lemma writeBytes_bytes n b : Forall isByte b -> Forall isByte (pbWriteBytes n b).
Proof. intros Hb. unfold pbWriteBytes. repeat (apply Forall_app; split); try apply writeVarint_bytes. done. Qed.

Lemma writeUint_bytes n v : Forall isByte (pbWriteUint n v).
Proof. apply Forall_app; split; apply writeVarint_bytes. Qed.

Lemma payload_bytes es : Forall migratable es -> Forall isByte (migrationPayload es).
Proof.
  induction 1 as [|e es (Hn & Hi & _) Hes IH]; cbn [migrationPayload]; [by constructor|].
  destruct (Base32Decode (otpSecret e)) as [[|b key]|] eqn:Ek; [done| |done].
  apply Forall_app; split; [|done]. apply writeBytes_bytes. apply decodeLoop_bytes in Ek. unfold migrationParameters.
  apply Forall_app; split; [by apply writeBytes_bytes|]. apply Forall_app; split; [apply writeBytes_bytes, Hn|].
  apply Forall_app; split; [destruct (isNil (otpIssuer e)); [by constructor|]; apply writeBytes_bytes, Hi|].
  do 3 (apply Forall_app; split; [apply writeUint_bytes|]).
  destruct (isHotp (otpType e)); [apply writeUint_bytes|by constructor].
Qed.

Lemma payload_nonempty es : existsb exported es = true -> isNil (migrationPayload es) = false.
Proof.
  induction es as [|e es IH]; cbn [existsb migrationPayload]; [done|]. unfold exported at 1.
  destruct (Base32Decode (otpSecret e)) as [[|b key]|]; [done| |done]. intros _.
  unfold pbWriteBytes. pose proof (pbWriteTag_nonempty 1 2). by destruct (pbWriteTag 1 2); [cbn in *; lia|].
Qed.
End Migration.

(** ** URLs and Base64 *)

Definition lowerWord (s : qstr) : Prop :=
  negb (isNil s) && forallb (fun c => ((97 <=? c) && (c <=? 122)) || (c =? cDash)) s = true.

(** What a QUrl carries unchanged: a scheme and a host in lower case, a path
    from the root, and query values without a percent sign, which QUrlQuery
    would read as an escape. *)
Definition carried (p : UrlParts) : Prop :=
  lowerWord (uScheme p) /\ lowerWord (uHost p) /\
  (uPath p = [] \/ startsWithChar cSlash (uPath p) = true) /\ wfUtf16 (uPath p) = true /\
  Forall (fun kv => lowerWord (fst kv) /\ wfUtf16 (snd kv) = true /\ contains cPercent (snd kv) = false) (uQuery p).

Class QtUrlLaws (Q : QtChar) (L : QtUrlText) : Prop := {
  parse_write : forall p, carried p -> parseUrl (writeUrl p) = Some p;
  write_trimmed : forall p, carried p -> trimmed (writeUrl p) = writeUrl p
}.

Class QtBase64TextLaws (B : QtBase64Text) : Prop := {
  from_toBase64 : forall b, Forall isByte b -> fromBase64Text (toBase64 b) = b;
  from_nil : fromBase64Text [] = [];
  from_bytes : forall s, Forall isByte (fromBase64Text s);
  toBase64_chars : forall b, Forall isByte b -> Forall (fun c => 43 <= c <= 122) (toBase64 b)
}.

(** Counted components, and nibbles as letters, used to evaluate the model. *)
Definition writeCounted (p : UrlParts) : list Z :=
  tokenStr (uScheme p) ++ tokenStr (uHost p) ++ tokenStr (uPath p) ++
  zlen (uQuery p) :: flat_map (fun kv => tokenStr (fst kv) ++ tokenStr (snd kv)) (uQuery p).

Definition readCounted (t : list Z) : option UrlParts :=
  let? (scheme, t) := readStr t in
  let? (host, t) := readStr t in
  let? (path, t) := readStr t in
  match t with
  | n :: t =>
      let? (query, _) := readMany (fun t => let? (k, t) := readStr t in let? (v, t) := readStr t in Some ((k, v), t)) (Z.to_nat n) t in
      Some (mkUrl scheme host path query)
  | [] => None
  end.

#[export] Instance countedUrl : QtUrlText := {|
  parseUrl := fun t => readCounted (map (fun c => c - 1000) t);
  writeUrl := fun p => map (fun c => c + 1000) (writeCounted p)
|}.

#[export] Instance nibbleBase64 : QtBase64Text := {|
  toBase64 := flat_map (fun x => [65 + x / 16; 65 + x mod 16]);
  fromBase64Text := fix go s := match s with a :: b :: s' => ((a - 65) * 16 + (b - 65)) mod 256 :: go s' | _ => [] end
|}.

#[export] Instance nibbleBase64_laws : QtBase64TextLaws nibbleBase64.
Proof.
  split; [|done| |].
  2: { assert (H : forall n s, (length s <= n)%nat -> Forall isByte (fromBase64Text s)); [|by eauto].
       induction n as [|n IH]; intros [|a [|b s]] Hl; cbn [length] in Hl; try lia; try by constructor.
       apply List.Forall_cons; [unfold isByte; euclid|]. apply IH. lia. }
  all: induction 1 as [|x b Hx Hb IH]; [by constructor || done|]; cbn [flat_map app toBase64 fromBase64Text nibbleBase64] in *;
    unfold isByte in Hx.
  - f_equal; [euclid|exact IH].
  - apply List.Forall_cons; [euclid|]. apply List.Forall_cons; [euclid|]. exact IH.
Qed.

Lemma wfUtf16_units s : wfUtf16 s = true -> Forall (fun c => 0 <= c) s.
Proof.
  assert (H : forall n s, (length s <= n)%nat -> wfUtf16 s = true -> Forall (fun c => 0 <= c) s); [|by eauto].
  induction n as [|n IH]; intros [|c s'] Hl Hw; cbn [length] in Hl; try lia; try by constructor.
  cbn [wfUtf16] in Hw. apply andb_true_iff in Hw as [Hc Hw]. zbool. apply List.Forall_cons; [lia|].
  destruct (highSurrogate c).
  - destruct s' as [|d s']; [done|]. apply andb_true_iff in Hw as [Hd Hw]. unfold lowSurrogate in Hd. zbool.
    apply List.Forall_cons; [lia|]. apply IH; [cbn [length] in Hl; lia|done].
  - zbool. apply IH; [lia|done].
Qed.

Lemma lowerWord_units s : lowerWord s -> Forall (fun c => 0 <= c) s.
Proof.
  unfold lowerWord. intros H. apply andb_true_iff in H as [_ H]. apply Forall_forall. intros c Hc.
  rewrite forallb_forall in H. apply list_elem_of_In, H in Hc. apply orb_true_iff in Hc as [Hc|Hc]; zbool; lia.
Qed.

Lemma tokenStr_units s : Forall (fun c => 0 <= c) s -> Forall (fun c => 0 <= c) (tokenStr s).
Proof. intros H. apply List.Forall_cons; [apply zlen_nonneg|done]. Qed.

#[export] Instance countedUrl_laws : QtUrlLaws asciiQt countedUrl.
Proof.
  split; intros p (Hs & Hh & _ & Hp & Hq); cbn [parseUrl writeUrl countedUrl].
  - rewrite map_map, (map_ext _ (fun c => c)), map_id by (intros; lia). unfold readCounted, writeCounted.
    rewrite !readStr_token. unfold zlen at 1. rewrite Nat2Z.id.
    rewrite <- (app_nil_r (flat_map _ _)).
    rewrite (readMany_flat (fun kv => tokenStr (fst kv) ++ tokenStr (snd kv))); [by destruct p|].
    apply Forall_forall. intros [k v] _ r. cbn [fst snd]. by rewrite <- app_assoc, !readStr_token.
  - apply trimmed_no_space. apply Forall_forall. intros c Hc. apply list_elem_of_In, in_map_iff in Hc as (d & <- & Hd).
    assert (Hall : Forall (fun c => 0 <= c) (writeCounted p)).
    { unfold writeCounted. apply Forall_app; split; [by apply tokenStr_units, lowerWord_units|].
      apply Forall_app; split; [by apply tokenStr_units, lowerWord_units|].
      apply Forall_app; split; [by apply tokenStr_units, wfUtf16_units|].
      apply List.Forall_cons; [apply zlen_nonneg|]. apply Forall_flat_map. eapply Forall_impl; [exact Hq|].
      intros [k v] (Hk & Hv & _). cbn [fst snd] in *.
      apply Forall_app; split; [by apply tokenStr_units, lowerWord_units|by apply tokenStr_units, wfUtf16_units]. }
    rewrite Forall_forall in Hall. apply list_elem_of_In in Hd. apply Hall in Hd.
    cbn [isSpace asciiQt]. apply orb_false_iff. split; [apply Z.eqb_neq; lia|]. apply andb_false_iff. right. apply Z.leb_gt. lia.
Qed.

(** ** The migration link *)

Lemma ascii_word s : Forall (fun c => 43 <= c <= 122) s -> wfUtf16 s = true /\ contains cPercent s = false /\ Forall isAscii s.
Proof.
  induction 1 as [|c s Hc Hs (IH1 & IH2 & IH3)]; [by repeat split|]. split; [|split].
  - cbn [wfUtf16]. unfold highSurrogate, lowSurrogate. rewrite IH1.
    replace (0 <=? c) with true by (symmetry; apply Z.leb_le; lia). replace (c <=? 65535) with true by (symmetry; apply Z.leb_le; lia).
    replace (55296 <=? c) with false by (symmetry; apply Z.leb_gt; lia).
    by replace (56320 <=? c) with false by (symmetry; apply Z.leb_gt; lia).
  - rewrite contains_cons, IH2. replace (cPercent =? c) with false by (symmetry; apply Z.eqb_neq; lia). done.
  - apply List.Forall_cons; [unfold isAscii; lia|done].
Qed.


Lemma word_otpauth : lowerWord (u "otpauth"). Proof. reflexivity. Qed.
Lemma word_migration : lowerWord (u "otpauth-migration"). Proof. reflexivity. Qed.
Lemma word_offline : lowerWord (u "offline"). Proof. reflexivity. Qed.
Lemma word_data : lowerWord (u "data"). Proof. reflexivity. Qed.
Lemma word_type t : lowerWord (TypeToString t). Proof. by destruct t. Qed.
Lemma word_items : Forall lowerWord [u "secret"; u "issuer"; u "algorithm"; u "digits"; u "period"; u "counter"].
Proof. repeat (apply List.Forall_cons; [reflexivity|]). apply List.Forall_nil. Qed.

Lemma eqFold_refl {Q : QtChar} s : eqFold s s = true.
Proof. apply eqStr_refl. Qed.

Lemma dropWhile_nil f s : dropWhile f s = [] -> Forall (fun c => f c = true) s.
Proof.
  induction s as [|c s IH]; cbn [dropWhile]; [by constructor|]. destruct (f c) eqn:E; [|done].
  intros H. apply List.Forall_cons; [done|auto].
Qed.

Lemma dropWhile_first f s c r : dropWhile f s = c :: r -> f c = false.
Proof. induction s as [|d s IH]; cbn [dropWhile]; [done|]. destruct (f d) eqn:E; [done|]. by intros [= -> ->]. Qed.

Lemma trimmed_nil {Q : QtChar} s : trimmed s = [] -> Forall (fun c => isSpace c = true) s.
Proof.
  unfold trimmed, dropWhileEnd. intros H. apply (f_equal (@rev Z)) in H. rewrite rev_involutive in H. cbn in H.
  apply dropWhile_nil in H. destruct (dropWhile isSpace s) as [|c r] eqn:E; [by apply dropWhile_nil|].
  pose proof (dropWhile_first _ _ _ _ E) as Hc. rewrite Forall_forall in H. exfalso.
  assert (isSpace c = true); [|congruence]. apply H. apply list_elem_of_In, in_rev. rewrite rev_involutive. by left.
Qed.

Lemma decodeLoop_spaces s : Forall (fun c => base32Skipped c = true) s -> forall buffer bitsLeft, decodeLoop buffer bitsLeft s = Some [].
Proof. induction 1 as [|c s Hc Hs IH]; intros; [done|]. cbn [decodeLoop]. by rewrite Hc. Qed.

Section LinkFacts.
Context {Q : QtChar} {QL : QtCharLaws Q} {Lw : QtLower} {LwL : QtLowerLaws Lw} {Up : QtUpper} {UpL : QtUpperLaws Up}.
Context {U : Utf8} {UL : Utf8Laws U} {L : QtUrlText} {LL : QtUrlLaws Q L} {B : QtBase64Text} {BL : QtBase64TextLaws B}.

(** A migration link reads back: every exported entry with a secret comes
    back, in order, as the payload can hold it (six or eight digits, thirty
    seconds, the secret in its normal form), and nothing is skipped. *)
Theorem migration_link_roundtrip es : Forall migratable es -> existsb exported es = true ->
  ParseFromMigrationLink (ExportToMigrationLink es) = (true, [], map migrated (List.filter exported es)).
Proof.
  intros Hm Hex. unfold ExportToMigrationLink. cbv zeta. rewrite payload_nonempty by done. fold trailer.
  set (payload := migrationPayload es ++ trailer).
  assert (Hb : Forall isByte payload).
  { apply Forall_app; split; [by apply payload_bytes|]. apply Forall_app; split; [apply writeUint_bytes|].
    apply Forall_app; split; apply writeUint_bytes. }
  destruct (ascii_word _ (toBase64_chars payload Hb)) as (Hw & Hp & Ha). rewrite (fromUtf8_ascii _ Ha).
  set (url := mkUrl (u "otpauth-migration") (u "offline") [] [(u "data", toBase64 payload)]).
  assert (Hc : carried url).
  { split; [apply word_migration|]. split; [apply word_offline|]. split; [by left|]. split; [done|].
    apply List.Forall_cons; [|apply List.Forall_nil]. split; [apply word_data|by split]. }
  unfold ParseFromMigrationLink. rewrite (write_trimmed _ Hc), (parse_write _ Hc). cbv zeta. unfold url.
  cbn [uScheme uQuery]. rewrite eqFold_refl. cbn [negb]. cbn [queryItemValue]. rewrite eqStr_refl.
  assert (Hne : payload <> []) by (unfold payload; intros E; apply app_nil in E as [_ E]; done).
  assert (isNil (toBase64 payload) = false) as ->.
  { apply isNil_false. intros E. apply Hne. rewrite <- (from_toBase64 payload Hb), E. exact from_nil. }
  rewrite (toUtf8_ascii _ Ha), (from_toBase64 _ Hb), (isNil_false _ Hne).
  unfold payload. rewrite migrationLoop_entries by done.
  assert (isNil (map migrated (List.filter exported es)) = false) as ->; [|done].
  apply existsb_exists in Hex as (e & Hin & He). apply isNil_false. intros E. apply map_eq_nil in E.
  assert (Hf : In e (List.filter exported es)) by by apply filter_In. rewrite E in Hf. done.
Qed.

(** ** The otpauth link *)

(** An entry whose link reads back: a usable one, its names without outer
    spaces, a colon only after an issuer, no percent sign in the issuer. *)
Definition linkable (e : Entry) : Prop :=
  NormalizeSecret (otpSecret e) <> [] /\ MIN_DIGITS <= otpDigits e <= MAX_DIGITS /\
  (otpType e = TOTP -> MIN_PERIOD <= otpPeriod e <= MAX_PERIOD) /\ (otpType e = HOTP -> 0 <= otpCounter e <= max_i64) /\
  trimmed (otpName e) = otpName e /\ trimmed (otpIssuer e) = otpIssuer e /\ contains cColon (otpIssuer e) = false /\
  (otpIssuer e = [] -> contains cColon (otpName e) = false) /\ contains cPercent (otpIssuer e) = false /\
  wfUtf16 (otpName e) = true /\ wfUtf16 (otpIssuer e) = true.

(** What the link keeps: all but the other type's parameter. *)
Definition linked (e : Entry) : Entry :=
  mkEntry (if isNil (otpName e) then otpIssuer e else otpName e) (otpIssuer e) (NormalizeSecret (otpSecret e))
    (otpAlgorithm e) (otpType e) (otpDigits e) (if isHotp (otpType e) then DEFAULT_PERIOD else otpPeriod e)
    (if isHotp (otpType e) then otpCounter e else 0).

Lemma isSpace_digit c : 48 <= c <= 57 -> isSpace c = false.
Proof.
  intros Hc. rewrite isSpace_ascii by lia. apply orb_false_iff. split; [apply Z.eqb_neq; lia|].
  apply andb_false_iff. right. apply Z.leb_gt. lia.
Qed.

Lemma number_trimmed n : 0 <= n -> trimmed (number n) = number n.
Proof.
  intros Hn. apply trimmed_no_space. rewrite number_digits by done. apply digits_forall; [lia|done|]. intros d Hd.
  apply isSpace_digit. unfold digitChar. replace (d <? 10) with true by (symmetry; apply Z.ltb_lt; lia). lia.
Qed.

Lemma qtInteger_number lo hi n : 0 <= n -> lo <= n <= hi -> qtInteger lo hi (number n) = Some n.
Proof.
  intros Hn Hr. unfold qtInteger. rewrite number_trimmed by done.
  assert (Hd : Forall isDigit (number n)).
  { rewrite number_digits by done. apply digits_forall; [lia|done|]. intros d Hd. unfold digitChar, isDigit.
    replace (d <? 10) with true by (symmetry; apply Z.ltb_lt; lia). lia. }
  assert (Hv : decimalValue (number n) = n).
  { unfold decimalValue. rewrite number_digits by done. apply digits_fold; [lia|done|].
    intros a d Ha Hb _. unfold digitChar. replace (d <? 10) with true by (symmetry; apply Z.ltb_lt; lia). lia. }
  assert (Hne : number n <> []) by (rewrite number_digits by done; apply digits_nonempty; lia).
  assert (Hs : forall c, ~ isDigit c -> startsWithChar c (number n) = false).
  { intros c Hc. destruct (number n) as [|x l]; [done|]. cbn. apply Forall_inv in Hd. apply Z.eqb_neq. intros ->. done. }
  rewrite (Hs cDash), (Hs 43) by (unfold isDigit; lia). cbn [orb]. cbv zeta. rewrite (isNil_false _ Hne).
  assert (forallb (fun c => (48 <=? c) && (c <=? 57)) (number n) = true) as ->.
  { apply forallb_forall. intros c Hc. rewrite Forall_forall in Hd. apply list_elem_of_In, Hd in Hc. unfold isDigit in Hc.
    apply andb_true_iff. lia. }
  cbn [negb orb]. rewrite Hv. replace (lo <=? n) with true by (symmetry; apply Z.leb_le; lia).
  by replace (n <=? hi) with true by (symmetry; apply Z.leb_le; lia).
Qed.

Lemma plain_trimmed s : forallb (fun c => (33 <=? c) && (c <=? 126)) s = true -> trimmed s = s /\ Forall isAscii s.
Proof.
  intros H. rewrite forallb_forall in H. split.
  - apply trimmed_no_space. apply Forall_forall. intros c Hc. apply list_elem_of_In, H in Hc. zbool.
    rewrite isSpace_ascii by lia. apply orb_false_iff. split; [apply Z.eqb_neq; lia|]. apply andb_false_iff. right. apply Z.leb_gt. lia.
  - apply Forall_forall. intros c Hc. apply list_elem_of_In, H in Hc. zbool. unfold isAscii. lia.
Qed.

Lemma AlgorithmFromString_text a : AlgorithmFromString (AlgorithmToString a) = Some a.
Proof.
  unfold AlgorithmFromString. destruct (plain_trimmed (AlgorithmToString a)) as [-> Ha]; [by destruct a|].
  rewrite (toUpper_ascii _ Ha). by destruct a.
Qed.

Lemma TypeFromString_text t : TypeFromString (TypeToString t) = Some t.
Proof.
  unfold TypeFromString. destruct (plain_trimmed (TypeToString t)) as [-> Ha]; [by destruct t|].
  rewrite (toLower_ascii _ Ha). by destruct t.
Qed.

(** The characters of a secret that decodes. *)
Definition secretChar (c : Z) : Prop := base32Skipped c = true \/ exists v, base32Value c = Some v.

Lemma decodeLoop_chars buffer bitsLeft s out : decodeLoop buffer bitsLeft s = Some out -> Forall secretChar s.
Proof.
  revert buffer bitsLeft out. induction s as [|c s IH]; intros buffer bitsLeft out H; [by constructor|]. cbn [decodeLoop] in H.
  destruct (base32Skipped c) eqn:E; [apply List.Forall_cons; [by left|eauto]|].
  destruct (base32Value c) as [v|] eqn:Ev; [|done]. apply List.Forall_cons; [right; eauto|]. cbv zeta in H.
  destruct (8 <=? bitsLeft + 5); [|eauto]. destruct (decodeLoop _ _ s) eqn:Es; [eauto|done].
Qed.

Lemma secretChar_range c : secretChar c -> 0 <= c <= 122 /\ c <> cPercent.
Proof.
  intros [H|[v H]].
  - unfold base32Skipped, contains in H. cbn [existsb] in H. rewrite !orb_true_iff, !Z.eqb_eq in H. intuition lia.
  - unfold base32Value in H. repeat break_if; zbool; try done; lia.
Qed.

Lemma secret_text secret : NormalizeSecret secret <> [] ->
  wfUtf16 secret = true /\ contains cPercent secret = false /\ isNil (trimmed secret) = false.
Proof.
  unfold NormalizeSecret. destruct (Base32Decode secret) as [[|b key]|] eqn:E; [done| |done]. intros _.
  pose proof (decodeLoop_chars _ _ _ _ E) as Hc.
  assert (Hr : Forall (fun c => 0 <= c <= 122 /\ c <> cPercent) secret) by (eapply Forall_impl; [exact Hc|]; exact secretChar_range).
  split; [|split].
  - clear -Hr. induction Hr as [|c s [Hc _] Hs IH]; [done|]. cbn [wfUtf16]. unfold highSurrogate, lowSurrogate. rewrite IH.
    replace (0 <=? c) with true by (symmetry; apply Z.leb_le; lia). replace (c <=? 65535) with true by (symmetry; apply Z.leb_le; lia).
    replace (55296 <=? c) with false by (symmetry; apply Z.leb_gt; lia).
    by replace (56320 <=? c) with false by (symmetry; apply Z.leb_gt; lia).
  - apply contains_false. eapply Forall_impl; [exact Hr|]. by intros c [_ ?].
  - apply isNil_false. intros Ht. assert (Hs : Forall (fun c => isSpace c = true) secret) by by apply trimmed_nil.
    unfold Base32Decode in E. rewrite (decodeLoop_spaces secret) in E; [done|].
    apply Forall_forall. intros c Hin. rewrite Forall_forall in Hs, Hc. specialize (Hs c Hin). specialize (Hc c Hin).
    pose proof (secretChar_range c Hc) as [Hrange _]. destruct Hc as [Hc|[v Hv]]; [done|]. exfalso.
    rewrite isSpace_ascii in Hs by lia. unfold base32Value in Hv.
    apply orb_true_iff in Hs as [Hs|Hs]; zbool; repeat break_if; zbool; try done; lia.
Qed.

Lemma wfUtf16_app s t : wfUtf16 s = true -> wfUtf16 t = true -> wfUtf16 (s ++ t) = true.
Proof.
  assert (H : forall n s, (length s <= n)%nat -> wfUtf16 s = true -> wfUtf16 t = true -> wfUtf16 (s ++ t) = true); [|by eauto].
  clear. induction n as [|n IH]; intros [|c s] Hl Hs Ht; cbn [length] in Hl; try lia; try done.
  cbn [app wfUtf16] in *. apply andb_true_iff in Hs as [Hc Hs]. rewrite Hc. cbn [andb]. destruct (highSurrogate c).
  - destruct s as [|d s]; [done|]. cbn [app length] in *. apply andb_true_iff in Hs as [Hd Hs]. rewrite Hd. cbn [andb].
    apply IH; [lia|done|done].
  - apply andb_true_iff in Hs as [Hd Hs]. rewrite Hd. cbn [andb]. apply IH; [lia|done|done].
Qed.

Definition linkQuery (e : Entry) : list (qstr * qstr) :=
  [(u "secret", otpSecret e)] ++
  (if isNil (otpIssuer e) then [] else [(u "issuer", otpIssuer e)]) ++
  [(u "algorithm", AlgorithmToString (otpAlgorithm e)); (u "digits", number (otpDigits e))] ++
  match otpType e with
  | HOTP => [(u "counter", number (otpCounter e))]
  | TOTP => [(u "period", number (otpPeriod e))]
  end.

Definition linkLabel (e : Entry) : qstr :=
  if isNil (otpIssuer e) then otpName e else otpIssuer e ++ [cColon] ++ otpName e.

Definition linkUrl (e : Entry) : UrlParts :=
  mkUrl (u "otpauth") (TypeToString (otpType e)) (cSlash :: linkLabel e) (linkQuery e).

(** What the items of the query say. *)
Lemma linkQuery_values e :
  queryItemValue (linkQuery e) (u "secret") = otpSecret e /\ queryItemValue (linkQuery e) (u "issuer") = otpIssuer e /\
  hasQueryItem (linkQuery e) (u "algorithm") = true /\
  queryItemValue (linkQuery e) (u "algorithm") = AlgorithmToString (otpAlgorithm e) /\
  hasQueryItem (linkQuery e) (u "digits") = true /\ queryItemValue (linkQuery e) (u "digits") = number (otpDigits e) /\
  (otpType e = TOTP -> hasQueryItem (linkQuery e) (u "period") = true /\ queryItemValue (linkQuery e) (u "period") = number (otpPeriod e)) /\
  (otpType e = HOTP -> hasQueryItem (linkQuery e) (u "counter") = true /\ queryItemValue (linkQuery e) (u "counter") = number (otpCounter e)).
Proof.
  unfold linkQuery. destruct e as [name [|x issuer] secret a [] d p c]; repeat split; done.
Qed.

Lemma linkUrl_carried e : linkable e -> carried (linkUrl e).
Proof.
  intros (Hs & Hd & Hp & Hc & _ & _ & _ & _ & Hi & Hwn & Hwi). destruct (secret_text _ Hs) as (Hws & Hps & _).
  assert (Hnum : forall n, 0 <= n -> wfUtf16 (number n) = true /\ contains cPercent (number n) = false).
  { intros n Hn. destruct (ascii_word (number n)) as (? & ? & _); [|done]. rewrite number_digits by done.
    apply digits_forall; [lia|done|]. intros k Hk. unfold digitChar.
    replace (k <? 10) with true by (symmetry; apply Z.ltb_lt; lia). lia. }
  pose proof word_items as Hw. rewrite !Forall_cons in Hw. destruct Hw as (W1 & W2 & W3 & W4 & W5 & W6 & _).
  unfold MIN_DIGITS, MIN_PERIOD in *. split; [apply word_otpauth|]. split; [apply word_type|]. split; [by right|]. split.
  - cbn [linkUrl uPath wfUtf16]. change (highSurrogate cSlash) with false. cbn [andb negb]. unfold linkLabel.
    change ((0 <=? cSlash) && (cSlash <=? 65535)) with true. change (lowSurrogate cSlash) with false. cbn [negb andb].
    destruct (isNil (otpIssuer e)); [done|]. by repeat apply wfUtf16_app.
  - cbn [linkUrl uQuery]. unfold linkQuery. apply Forall_app; split; [by repeat constructor|]. apply Forall_app; split.
    { destruct (isNil (otpIssuer e)); [constructor|]. by repeat constructor. }
    apply Forall_app; split.
    + apply List.Forall_cons; [split; [done|]; by destruct (otpAlgorithm e)|].
      apply List.Forall_cons; [split; [done|]; apply Hnum; lia|constructor].
    + destruct (otpType e); (apply List.Forall_cons; [|constructor]); (split; [done|]); apply Hnum; [specialize (Hp eq_refl)|specialize (Hc eq_refl)]; lia.
Qed.

Lemma linkNames_url e : linkable e ->
  linkNames (linkUrl e) = setName (if isNil (otpName e) then otpIssuer e else otpName e) (setIssuer (otpIssuer e) defaultEntry).
Proof.
  intros (_ & _ & _ & _ & Hn & Hi & Hic & Hnc & _). destruct (linkQuery_values e) as (_ & Hq & _).
  unfold linkNames. cbn [linkUrl uPath uQuery startsWithChar]. rewrite Z.eqb_refl, Hq, Hi. cbv zeta.
  change (drop 1 (cSlash :: linkLabel e)) with (drop 0 (linkLabel e)). rewrite drop_0. unfold linkLabel.
  destruct (isNil (otpIssuer e)) eqn:Ei.
  - assert (otpIssuer e = []) as E by by destruct (otpIssuer e). rewrite (proj2 (indexOf_None _ _) (Hnc E)), Hn, E.
    cbn [isNil setName otpName defaultEntry]. by destruct (otpName e).
  - cbn [app]. rewrite indexOf_app_cons by done. rewrite take_app_length.
    replace (S (length (otpIssuer e))) with (length (otpIssuer e) + 1)%nat by lia. rewrite drop_app_cons, Hn, Hi.
    cbn [setName setIssuer otpName otpIssuer]. by destruct (otpName e).
Qed.

(** The query items of an entry read back. *)
Lemma linkItems_query e e0 : linkable e -> otpType e0 = otpType e -> otpPeriod e0 = DEFAULT_PERIOD -> otpCounter e0 = 0 ->
  linkItems (linkQuery e) e0 =
    Parsed (setCounter (if isHotp (otpType e) then otpCounter e else 0)
      (setPeriod (if isHotp (otpType e) then DEFAULT_PERIOD else otpPeriod e)
        (setDigits (otpDigits e) (setAlgorithm (otpAlgorithm e) e0)))).
Proof.
  intros (_ & Hd & Hp & Hc & _) Ht Hp0 Hc0. destruct (linkQuery_values e) as (_ & _ & A1 & A2 & D1 & D2 & P & C).
  unfold MIN_DIGITS, MAX_DIGITS, MIN_PERIOD, MAX_PERIOD in *.
  unfold linkItems, linkItem. rewrite A1, A2. cbn [andb]. unfold readAlgorithm at 1. rewrite AlgorithmFromString_text.
  rewrite D1, D2. cbn [andb]. unfold readDigits. rewrite number_trimmed, qtInteger_number by (unfold min_i32, max_i32; lia).
  unfold MIN_DIGITS, MAX_DIGITS. replace (otpDigits e <? 4) with false by (symmetry; apply Z.ltb_ge; lia).
  replace (10 <? otpDigits e) with false by (symmetry; apply Z.ltb_ge; lia). cbn [orb].
  destruct e0 as [n0 i0 s0 a0 t0 d0 p0 c0]. cbn [otpType otpPeriod otpCounter setAlgorithm setDigits setPeriod setCounter otpName otpIssuer otpSecret otpAlgorithm otpDigits] in *. subst t0 p0 c0.
  destruct (otpType e) eqn:Et; cbn [isHotp negb andb].
  - destruct (P eq_refl) as [-> ->]. specialize (Hp eq_refl). cbn [andb]. unfold readPeriod.
    rewrite number_trimmed, qtInteger_number by (unfold min_i32, max_i32; lia). unfold MIN_PERIOD, MAX_PERIOD.
    replace (otpPeriod e <? 1) with false by (symmetry; apply Z.ltb_ge; lia).
    by replace (3600 <? otpPeriod e) with false by (symmetry; apply Z.ltb_ge; lia).
  - destruct (C eq_refl) as [-> ->]. specialize (Hc eq_refl). cbn [andb]. unfold readCounter.
    rewrite number_trimmed, qtInteger_number by (unfold min_i64; lia).
    by replace (otpCounter e <? 0) with false by (symmetry; apply Z.ltb_ge; lia).
Qed.

(** An otpauth link reads back as the entry it was made of, for every usable
    entry whose label has no stray colon: names, secret, algorithm, type,
    digits and the period or the counter. *)
Theorem otpauth_link_roundtrip e : linkable e -> ParseFromLink (ExportToLink e) = Parsed (linked e).
Proof.
  intros Hl. pose proof (linkUrl_carried e Hl) as Hc. unfold ParseFromLink.
  change (ExportToLink e) with (writeUrl (linkUrl e)). rewrite (write_trimmed _ Hc), (parse_write _ Hc).
  cbn [linkUrl uScheme uHost]. fold (linkUrl e). rewrite eqFold_refl. cbn [negb]. cbv zeta.
  rewrite linkNames_url, TypeFromString_text by done. cbn [linkUrl uQuery].
  destruct (linkQuery_values e) as (-> & _). pose proof Hl as Hl'. destruct Hl' as (Hs & _).
  destruct (secret_text _ Hs) as (_ & _ & ->). cbn [setSecret otpSecret]. rewrite (isNil_false _ Hs).
  rewrite (linkItems_query e) by done. by destruct e.
Qed.

End LinkFacts.

(** A label colon that is not the issuer's moves text from the issuer to the name. *)
Example link_issuer_colon :
  ParseFromLink (ExportToLink (mkEntry (u "alice") (u "Corp: VPN") (u "JBSWY3DPEHPK3PXP") SHA1 TOTP 6 30 0)) =
  Parsed (mkEntry (u "VPN:alice") (u "Corp: VPN") (u "JBSWY3DPEHPK3PXP") SHA1 TOTP 6 30 0).
Proof. vm_compute. reflexivity. Qed.

Lemma otpauth_link_roundtrip_witness :
  ParseFromLink (ExportToLink sampleEntry) = Parsed sampleEntry.
Proof.
  apply (otpauth_link_roundtrip sampleEntry). repeat split; try (vm_compute; done); try discriminate; cbn; lia.
Defined.

Lemma migration_link_roundtrip_witness :
  ParseFromMigrationLink (ExportToMigrationLink [sampleEntry; setType HOTP (setCounter 5 sampleEntry)]) =
    (true, [], [sampleEntry; setType HOTP (setCounter 5 sampleEntry)]).
Proof.
  apply (migration_link_roundtrip [sampleEntry; setType HOTP (setCounter 5 sampleEntry)]); [|reflexivity].
  repeat (apply List.Forall_cons; [repeat split; try (vm_compute; done); vm_compute; repeat (apply List.Forall_cons; [split; discriminate|]); apply List.Forall_nil|]).
  apply List.Forall_nil.
Defined.
