(* ===== verification/OtpText.v ===== *)
(** One-time passwords: src/src/global/OTP.cpp, the JSON export and the import of
    any text. *)
From stdpp Require Import base list strings.
From Stdlib Require Import ZArith Lia Bool SpecFloat.
From S2P Require Import Prelude Json ValidationNum Otp OtpLink.

(** QJsonDocument's text, indented; a document is an object or an array. *)
Class QtJsonDocument := {
  toJsonIndented : json -> list Z;
  fromJsonDocument : list Z -> option json
}.

(** The text of a JSON value in a message: QString::number of a number, the
    compact text of another value. *)
Class QtJsonShown := { doubleText : json -> qstr; compactText : json -> list Z }.

Section Json.
Context {Q : QtChar} {Lw : QtLower} {Up : QtUpper} {U : Utf8} {D : QtJsonDocument} {Sh : QtJsonShown}.

(** ** Numbers *)

(** toDouble and the cast back to 64 bits; out of their range the cast is
    undefined and the value is taken as no integer. *)
Definition otpJsonInteger (value : json) : option Z :=
  match value with
  | JStr s => qtInteger min_i64 max_i64 (trimmed s)
  | JInt n =>
      let double := toDouble n in
      let i := truncDouble double in
      if (i <? min_i64) || (max_i64 <? i) then None
      else if SFeqb double (toDouble i) then Some i else None
  | _ => None
  end.

Definition otpJsonText (value : json) : qstr :=
  match value with
  | JStr s => s
  | JInt _ | JReal _ => doubleText value
  | _ =>
      let text := drop 1 (fromUtf8 (compactText (JArr [value]))) in
      take 40 (take (length text - 1) text)
  end.

(** ** Entries *)

Definition kName := u "name".
Definition kIssuer := u "issuer".
Definition kSecret := u "secret".
Definition kAlgorithm := u "algorithm".
Definition kType := u "type".
Definition kDigits := u "digits".
Definition kPeriod := u "period".
Definition kCounter := u "counter".

(** An optional number of the object within its bounds. *)
Definition jsonNumber (object : jobject) (key : qstr) (applies : bool) (good : Z -> bool)
    (set : Z -> Entry -> Entry) (bad : qstr -> Message) (e : Entry) : Message + Entry :=
  if applies && objContains object key then
    match otpJsonInteger (objValue object key) with
    | Some n => if good n then inr (set n e) else inl (bad (otpJsonText (objValue object key)))
    | None => inl (bad (otpJsonText (objValue object key)))
    end
  else inr e.

Definition jsonNumbers (object : jobject) (e : Entry) : Message + Entry :=
  match jsonNumber object kDigits true (fun n => negb ((n <? MIN_DIGITS) || (MAX_DIGITS <? n))) setDigits (otpBadDigits e) e with
  | inl m => inl m
  | inr e =>
      match jsonNumber object kPeriod (negb (isHotp (otpType e)))
              (fun n => negb ((n <? MIN_PERIOD) || (MAX_PERIOD <? n))) setPeriod (otpBadPeriod e) e with
      | inl m => inl m
      | inr e => jsonNumber object kCounter (isHotp (otpType e)) (fun n => negb (n <? 0)) setCounter (otpBadCounter e) e
      end
  end.

(** The problem or the usable entry. *)
Definition entryFromJsonObject (object : jobject) : Message + Entry :=
  let e := setIssuer (toStr (objValue object kIssuer)) (setName (toStr (objValue object kName)) defaultEntry) in
  let secret := toStr (objValue object kSecret) in
  if isNil (trimmed secret) then inl (otpNoSecret e)
  else
    let e := setSecret (NormalizeSecret secret) e in
    if isNil (otpSecret e) then inl (otpBadSecret e)
    else
      let algorithm := toStr (objValue object kAlgorithm) in
      match AlgorithmFromString algorithm with
      | None => inl (otpBadAlgorithm e algorithm)
      | Some a =>
          let e := setAlgorithm a e in
          let type := toStr (objValue object kType) in
          match TypeFromString type with
          | None => inl (otpBadType e type)
          | Some t => jsonNumbers object (setType t e)
          end
      end.

Definition entryToJsonObject (e : Entry) : jobject :=
  mkObject
    ([(kName, JStr (otpName e))] ++
     (if isNil (otpIssuer e) then [] else [(kIssuer, JStr (otpIssuer e))]) ++
     [(kSecret, JStr (otpSecret e)); (kAlgorithm, JStr (AlgorithmToString (otpAlgorithm e)));
      (kType, JStr (TypeToString (otpType e))); (kDigits, JInt (otpDigits e))] ++
     match otpType e with
     | TOTP => [(kPeriod, JInt (otpPeriod e))]
     | HOTP => [(kCounter, JInt (otpCounter e))]
     end).

Definition ExportToJson (entries : list Entry) : list Z :=
  toJsonIndented (JObj (mkObject [(u "version", JInt 1); (u "otp", JArr (map (fun e => JObj (entryToJsonObject e)) entries))])).

(** The items of the array: the problems and the entries. *)
Fixpoint jsonItems (array : list json) : list Message * list Entry :=
  match array with
  | [] => ([], [])
  | value :: array' =>
      let (problems, entries) := jsonItems array' in
      match value with
      | JObj object =>
          match entryFromJsonObject object with
          | inl m => (m :: problems, entries)
          | inr e => (problems, e :: entries)
          end
      | _ => (tr0 "Skipped an item that is not an OTP entry." :: problems, entries)
      end
  end.

(** The result, the problems added and the entries. *)
Definition ParseFromJson (json : list Z) : bool * list Message * list Entry :=
  match fromJsonDocument json with
  | None => (false, [], [])
  | Some document =>
      let array := match document with
                   | JArr l => l
                   | JObj o => toArray (objValue o (u "otp"))
                   | _ => []
                   end in
      if isNil array then (false, [], [])
      else
        let (problems, entries) := jsonItems array in
        (negb (isNil entries), problems, entries)
  end.

(** ** Any text *)

(** The white space of a regular expression. *)
Definition regexSpace (c : Z) : bool := (c =? 32) || ((9 <=? c) && (c <=? 13)).

(** split at runs of such characters, empty parts skipped. *)
Definition splitSkipping (boundary : Z -> bool) (s : qstr) : list qstr :=
  List.filter (fun p => negb (isNil p)) (splitBy boundary s).

Definition LooksLikeBareSecret (line : qstr) : bool :=
  match splitSkipping (fun c => regexSpace c || (c =? cDash)) line with
  | [] => false
  | [_] => true
  | first :: groups =>
      let width := zlen first in
      if 8 <? width then false else forallb (fun g => zlen g =? width) (first :: groups)
  end.

Context {L : QtUrlText} {B : QtBase64Text}.

(** A line that is no link. *)
Definition bareLine (line : qstr) : list Message * list Entry :=
  let secret := if LooksLikeBareSecret line then NormalizeSecret line else [] in
  if negb (isNil secret) then
    if MIN_BARE_SECRET_BYTES <=? zlen (default [] (Base32Decode secret)) then ([], [setSecret secret defaultEntry])
    else ([MTr (u "Skipped a base32 secret shorter than %1 characters.") [MText (number ((MIN_BARE_SECRET_BYTES * 8 + 4) / 5))]], [])
  else if LooksLikeBareSecret line then
    ([tr0 "Skipped a secret that is not valid base32 (letters A-Z and digits 2-7)."], [])
  else ([MTr (u "Not an otpauth link or secret: %1") [MText (take 40 line)]], []).

(** One line: the problems and the entries. *)
Definition parseLine (rawLine : qstr) : list Message * list Entry :=
  let line := trimmed rawLine in
  if isNil line then ([], [])
  else if startsWithCI (u "otpauth-migration://") line then
    let '(ok, skipped, batch) := ParseFromMigrationLink line in
    if ok then (skipped, batch)
    else ((if isNil skipped then [tr0 "Unreadable migration link"] else []) ++ skipped, [])
  else match ParseFromLink line with
       | Parsed e => ([], [e])
       | Refused m => ([m], [])
       | NotLink =>
           if startsWithCI (u "otpauth://") line then ([tr0 "An otpauth link could not be read."], []) else bareLine line
       end.

Fixpoint parseLines (lines : list qstr) : list Message * list Entry :=
  match lines with
  | [] => ([], [])
  | line :: lines' =>
      let (p, e) := parseLine line in
      let (ps, es) := parseLines lines' in
      (p ++ ps, e ++ es)
  end.

Definition ParseAny (text : qstr) : list Message * list Entry :=
  let t := trimmed text in
  if isNil t then ([], [])
  else if startsWithChar cLBracket t || startsWithChar 123 t then
    let '(parsed, skipped, entries) := ParseFromJson (toUtf8 t) in
    ((if negb parsed && isNil skipped then [tr0 "Not a readable OTP export"] else []) ++ skipped,
     if parsed then entries else [])
  else parseLines (splitSkipping (fun c => (c =? cCR) || (c =? cLF)) t).

End Json.
