(* ===== verification/OtpTextFacts.v ===== *)
(** What the JSON of one-time passwords keeps, and what an import of any text
    lets through: the export reads back, and only usable entries come in. *)
From stdpp Require Import base list strings.
From Stdlib Require Import ZArith Lia Bool SpecFloat.
From S2P Require Import Prelude Json ValidationNum ValidationNumFacts Otp OtpLink OtpLinkFacts OtpText.

(** A document that is an object Qt can carry reads back. *)
Class QtJsonDocumentLaws (D : QtJsonDocument) : Prop := {
  fromJson_indented : forall o, wfJson (JObj o) = true ->
    fromJsonDocument (toJsonIndented (JObj o)) = Some (JObj o)
}.

(** Counted tokens, used to evaluate the model. *)
#[export] Instance tokenDocument : QtJsonDocument := {|
  toJsonIndented := tokens;
  fromJsonDocument := fun t => option_map fst (readToken (length t) t)
|}.

#[export] Instance tokenDocument_laws : QtJsonDocumentLaws tokenDocument.
Proof.
  split. intros o _. cbn [fromJsonDocument toJsonIndented tokenDocument].
  pose proof (readToken_tokens (JObj o) (length (tokens (JObj o))) [] ltac:(lia)) as H. rewrite app_nil_r in H. by rewrite H.
Qed.

#[export] Instance tokenShown : QtJsonShown := {|
  doubleText := fun j => match j with JInt n => number n | JReal t => t | _ => [] end;
  compactText := tokens
|}.

Section JsonFacts.
Context {Q : QtChar} {QL : QtCharLaws Q} {Lw : QtLower} {LwL : QtLowerLaws Lw} {Up : QtUpper} {UpL : QtUpperLaws Up}.
Context {U : Utf8} {D : QtJsonDocument} {DL : QtJsonDocumentLaws D} {Sh : QtJsonShown}.

Lemma otpJsonInteger_small n : 0 <= n < 2 ^ 53 -> otpJsonInteger (JInt n) = Some n.
Proof.
  intros Hn. unfold otpJsonInteger. destruct (truncDouble_small n Hn) as [-> Heq]. cbv zeta. rewrite Heq.
  unfold min_i64, max_i64. replace (n <? - 2 ^ 63) with false by (symmetry; apply Z.ltb_ge; lia).
  by replace (2 ^ 63 - 1 <? n) with false by (symmetry; apply Z.ltb_ge; lia).
Qed.

(** ** The export *)

(** A usable entry of well-formed text, its counter within a double's integers. *)
Definition storable (e : Entry) : Prop :=
  NormalizeSecret (otpSecret e) <> [] /\ MIN_DIGITS <= otpDigits e <= MAX_DIGITS /\
  (otpType e = TOTP -> MIN_PERIOD <= otpPeriod e <= MAX_PERIOD) /\ (otpType e = HOTP -> 0 <= otpCounter e < 2 ^ 53) /\
  wfUtf16 (otpName e) = true /\ wfUtf16 (otpIssuer e) = true.

(** All but the other type's parameter. *)
Definition stored (e : Entry) : Entry :=
  mkEntry (otpName e) (otpIssuer e) (NormalizeSecret (otpSecret e)) (otpAlgorithm e) (otpType e) (otpDigits e)
    (if isHotp (otpType e) then DEFAULT_PERIOD else otpPeriod e) (if isHotp (otpType e) then otpCounter e else 0).

(** The members of an exported object. *)
Lemma entryToJson_value e : let o := entryToJsonObject e in
  objValue o kName = JStr (otpName e) /\ toStr (objValue o kIssuer) = otpIssuer e /\ objValue o kSecret = JStr (otpSecret e) /\
  objValue o kAlgorithm = JStr (AlgorithmToString (otpAlgorithm e)) /\ objValue o kType = JStr (TypeToString (otpType e)) /\
  objContains o kDigits = true /\ objValue o kDigits = JInt (otpDigits e) /\
  (otpType e = TOTP -> objContains o kPeriod = true /\ objValue o kPeriod = JInt (otpPeriod e)) /\
  (otpType e = HOTP -> objContains o kCounter = true /\ objValue o kCounter = JInt (otpCounter e)).
Proof. destruct e as [name [|x issuer] secret a [] d p c]; repeat split; done. Qed.

Lemma jsonNumber_reads object key (applies : bool) good set bad e n :
  (applies = true -> objContains object key = true /\ objValue object key = JInt n /\ 0 <= n < 2 ^ 53 /\ good n = true) ->
  jsonNumber object key applies good set bad e = inr (if applies then set n e else e).
Proof.
  unfold jsonNumber. destruct applies; [|done]. intros H. destruct (H eq_refl) as (-> & -> & Hn & Hg). cbn [andb].
  by rewrite otpJsonInteger_small, Hg by done.
Qed.

Lemma within_bounds lo hi n : lo <= n <= hi -> negb ((n <? lo) || (hi <? n)) = true.
Proof.
  intros H. replace (n <? lo) with false by (symmetry; apply Z.ltb_ge; lia).
  by replace (hi <? n) with false by (symmetry; apply Z.ltb_ge; lia).
Qed.

Lemma entryFrom_entryTo e : storable e -> entryFromJsonObject (entryToJsonObject e) = inr (stored e).
Proof.
  intros (Hs & Hd & Hp & Hc & _). destruct (entryToJson_value e) as (V1 & V2 & V3 & V4 & V5 & V6 & V7 & P & C).
  unfold entryFromJsonObject. rewrite V1, V2, V3. cbn [toStr]. cbv zeta. destruct (secret_text _ Hs) as (_ & _ & ->).
  cbn [otpSecret setSecret]. rewrite (isNil_false _ Hs), V4. cbn [toStr]. rewrite AlgorithmFromString_text, V5. cbn [toStr].
  rewrite TypeFromString_text. unfold jsonNumbers.
  unfold MIN_DIGITS, MAX_DIGITS, MIN_PERIOD, MAX_PERIOD in *.
  rewrite (jsonNumber_reads _ _ _ _ _ _ _ (otpDigits e)) by (intros _; rewrite within_bounds by done; repeat split; done || lia).
  cbn [setDigits setType otpType].
  rewrite (jsonNumber_reads _ _ _ _ _ _ _ (otpPeriod e)).
  2: { intros Ht. destruct (otpType e); [|done]. specialize (Hp eq_refl). destruct (P eq_refl) as [-> ->].
       rewrite within_bounds by done. repeat split; done || lia. }
  assert (Ht : forall b x, otpType (if b : bool then setPeriod (otpPeriod e) x else x) = otpType x) by by intros [].
  rewrite Ht. cbn [otpType].
  rewrite (jsonNumber_reads _ _ _ _ _ _ _ (otpCounter e)).
  2: { intros Hh. destruct (otpType e); [done|]. specialize (Hc eq_refl). destruct (C eq_refl) as [-> ->].
       replace (otpCounter e <? 0) with false by (symmetry; apply Z.ltb_ge; lia). repeat split; done || lia. }
  unfold stored. by destruct e as [name issuer secret a [] d p c].
Qed.

Lemma entryObject_wf e : storable e -> wfJson (JObj (entryToJsonObject e)) = true.
Proof.
  intros (Hs & Hd & Hp & Hc & Hn & Hi). destruct (secret_text _ Hs) as (Hw & _).
  unfold MIN_DIGITS, MAX_DIGITS, MIN_PERIOD, MAX_PERIOD in *.
  assert (Hint : forall n, 0 <= n < 2 ^ 53 -> (min_i64 <=? n) && (n <=? max_i64) = true).
  { intros n Hb. unfold min_i64, max_i64. apply andb_true_iff. lia. }
  unfold entryToJsonObject. apply mkObject_wf. rewrite !forallb_app. cbn [forallb fst snd wfJson].
  rewrite Hn, Hw, Hint by lia. change (wfUtf16 kName && true && true) with true.
  assert (forallb (fun kv => wfUtf16 (fst kv) && wfJson (snd kv))
    (if isNil (otpIssuer e) then [] else [(kIssuer, JStr (otpIssuer e))]) = true) as ->.
  { destruct (isNil (otpIssuer e)); [done|]. cbn [forallb fst snd wfJson]. by rewrite Hi. }
  destruct (otpAlgorithm e), (otpType e); cbn [forallb fst snd wfJson]; rewrite Hint by (lia || (specialize (Hp eq_refl); lia) || (specialize (Hc eq_refl); lia)); reflexivity.
Qed.

Lemma root_wf es : Forall storable es ->
  wfJson (JObj (mkObject [(u "version", JInt 1); (u "otp", JArr (map (fun e => JObj (entryToJsonObject e)) es))])) = true.
Proof.
  intros Hes. apply mkObject_wf. cbn [forallb fst snd wfJson]. rewrite !andb_true_iff. repeat split.
  apply forallb_forall. intros j Hj. apply in_map_iff in Hj as (e & <- & He). apply entryObject_wf.
  rewrite Forall_forall in Hes. by apply Hes, list_elem_of_In.
Qed.

Lemma jsonItems_stored es : Forall storable es ->
  jsonItems (map (fun e => JObj (entryToJsonObject e)) es) = ([], map stored es).
Proof.
  induction 1 as [|e es He _ IH]; [done|]. cbn [map jsonItems]. by rewrite IH, entryFrom_entryTo.
Qed.

(** An exported list reads back entry by entry, in order, with nothing
    skipped: names, secret, algorithm, type, digits and the period or the
    counter, as long as a counter is an integer a double can hold. *)
Theorem otp_json_roundtrip es : Forall storable es -> es <> [] ->
  ParseFromJson (ExportToJson es) = (true, [], map stored es).
Proof.
  intros Hes Hne. unfold ParseFromJson, ExportToJson. rewrite fromJson_indented by by apply root_wf.
  match goal with |- context [objValue ?o (u "otp")] =>
    change (objValue o (u "otp")) with (JArr (map (fun e => JObj (entryToJsonObject e)) es)) end.
  cbn [toArray]. rewrite jsonItems_stored by done. by destruct es.
Qed.

(** ** Import of any text *)

Context {UL : Utf8Laws U} {L : QtUrlText} {B : QtBase64Text} {BL : QtBase64TextLaws B}.

Lemma Validate_usable e : NormalizeSecret (otpSecret e) <> [] -> MIN_DIGITS <= otpDigits e <= MAX_DIGITS ->
  (otpType e = TOTP -> MIN_PERIOD <= otpPeriod e <= MAX_PERIOD) -> Validate e = None.
Proof.
  intros Hs Hd Hp. unfold Validate. destruct (secret_text _ Hs) as (_ & _ & ->).
  destruct (normalize_key _ Hs) as (b & key & -> & _). rewrite (proj1 (negb_true_iff _) (within_bounds _ _ _ Hd)).
  destruct (otpType e); [|done]. by rewrite (proj1 (negb_true_iff _) (within_bounds _ _ _ (Hp eq_refl))).
Qed.

Lemma normalized_nonempty s : NormalizeSecret s <> [] -> NormalizeSecret (NormalizeSecret s) <> [].
Proof. by rewrite normalize_fixed. Qed.

(** What the readers keep true of the entry they build: default numbers, or ones
    that were checked. *)
Definition inBounds (e : Entry) : Prop :=
  MIN_DIGITS <= otpDigits e <= MAX_DIGITS /\ MIN_PERIOD <= otpPeriod e <= MAX_PERIOD.

Lemma default_inBounds e : otpDigits e = DEFAULT_DIGITS -> otpPeriod e = DEFAULT_PERIOD -> inBounds e.
Proof. unfold inBounds, DEFAULT_DIGITS, DEFAULT_PERIOD, MIN_DIGITS, MAX_DIGITS, MIN_PERIOD, MAX_PERIOD. lia. Qed.

Lemma inBounds_usable e s : inBounds e -> otpSecret e = NormalizeSecret s -> NormalizeSecret s <> [] -> Validate e = None.
Proof. intros [Hd Hp] Hs Hne. apply Validate_usable; [rewrite Hs; by apply normalized_nonempty|done|done]. Qed.

Lemma jsonNumber_keeps (P : Entry -> Prop) object key applies good set bad e e' :
  (forall n, good n = true -> P (set n e)) -> P e -> jsonNumber object key applies good set bad e = inr e' -> P e'.
Proof.
  unfold jsonNumber. intros Hset He. destruct (applies && objContains object key); [|by intros [= <-]].
  destruct (otpJsonInteger _) as [n|]; [|done]. destruct (good n) eqn:E; [|done]. intros [= <-]. by apply Hset.
Qed.

Lemma good_bounds lo hi n : negb ((n <? lo) || (hi <? n)) = true -> lo <= n <= hi.
Proof. intros H. apply negb_true_iff, orb_false_iff in H as [H1 H2]. zbool. lia. Qed.

Lemma entryFromJson_usable object e : entryFromJsonObject object = inr e -> Validate e = None.
Proof.
  unfold entryFromJsonObject. cbv zeta. destruct (isNil (trimmed _)); [done|].
  set (secret := toStr (objValue object kSecret)). cbn [setSecret otpSecret]. destruct (isNil (NormalizeSecret secret)) eqn:Es; [done|].
  assert (Hne : NormalizeSecret secret <> []) by (intros E; by rewrite E in Es).
  destruct (AlgorithmFromString _) as [a|]; [|done]. destruct (TypeFromString _) as [t|]; [|done]. unfold jsonNumbers.
  set (P := fun e => inBounds e /\ otpSecret e = NormalizeSecret secret).
  destruct (jsonNumber object kDigits _ _ _ _ _) as [|e1] eqn:E1; [done|].
  assert (H1 : P e1).
  { eapply (jsonNumber_keeps P); [| |exact E1].
    - intros n Hn%good_bounds. split; [|done]. split; [done|].
      exact (proj2 (default_inBounds defaultEntry eq_refl eq_refl)).
    - split; [|done]. by apply default_inBounds. }
  destruct (jsonNumber object kPeriod _ _ _ _ _) as [|e2] eqn:E2; [done|].
  assert (H2 : P e2).
  { eapply (jsonNumber_keeps P); [|exact H1|exact E2]. intros n Hn%good_bounds. destruct H1 as [[Hd _] Hs]. by split. }
  intros E3. assert (H3 : P e).
  { eapply (jsonNumber_keeps P); [|exact H2|exact E3]. intros n _. destruct H2 as [[Hd Hp] Hs]. by split. }
  destruct H3 as [Hb Hs]. by eapply inBounds_usable.
Qed.

Lemma jsonItems_usable array e : e ∈ snd (jsonItems array) -> Validate e = None.
Proof.
  induction array as [|value array IH]; cbn [jsonItems]; [by intros ?%not_elem_of_nil|].
  destruct (jsonItems array) as [ps es]. destruct value; try exact IH.
  destruct (entryFromJsonObject o) as [m|e'] eqn:E; [exact IH|]. cbn [snd]. intros [->|He]%elem_of_cons; [|by apply IH].
  by eapply entryFromJson_usable.
Qed.

Lemma ParseFromJson_usable json e : e ∈ snd (ParseFromJson json) -> Validate e = None.
Proof.
  unfold ParseFromJson. destruct (fromJsonDocument json); [|by intros ?%not_elem_of_nil]. cbv zeta.
  destruct (isNil _); [by intros ?%not_elem_of_nil|].
  match goal with |- context [jsonItems ?a] => pose proof (jsonItems_usable a e) as H; destruct (jsonItems a) end. exact H.
Qed.

(** One query item keeps what its reader keeps. *)
Lemma linkItem_keeps (P : Entry -> Prop) query key applies read bad e e' :
  (forall v e', read v e = Some e' -> P e') -> P e -> linkItem query key applies read bad e = inr e' -> P e'.
Proof.
  unfold linkItem. intros Hread He. destruct (applies && hasQueryItem query key); [|by intros [= <-]].
  destruct (read _ e) as [e1|] eqn:E; [|done]. intros [= <-]. by eapply Hread.
Qed.

(** The readers check what they set. *)
Lemma readDigits_bounds v e e' : inBounds e -> readDigits v e = Some e' -> inBounds e' /\ otpSecret e' = otpSecret e.
Proof.
  unfold readDigits. intros [_ Hp]. destruct (qtInteger _ _ _) as [d|]; [|done].
  destruct ((d <? MIN_DIGITS) || (MAX_DIGITS <? d)) eqn:E; [done|]. intros [= <-].
  split; [|done]. split; [|done]. apply orb_false_iff in E as [E1 E2]. zbool. cbn. lia.
Qed.

Lemma readPeriod_bounds v e e' : inBounds e -> readPeriod v e = Some e' -> inBounds e' /\ otpSecret e' = otpSecret e.
Proof.
  unfold readPeriod. intros [Hd _]. destruct (qtInteger _ _ _) as [p|]; [|done].
  destruct ((p <? MIN_PERIOD) || (MAX_PERIOD <? p)) eqn:E; [done|]. intros [= <-].
  split; [|done]. split; [done|]. apply orb_false_iff in E as [E1 E2]. zbool. cbn. lia.
Qed.

Lemma readCounter_bounds v e e' : inBounds e -> readCounter v e = Some e' -> inBounds e' /\ otpSecret e' = otpSecret e.
Proof. unfold readCounter. intros Hb. destruct (qtInteger _ _ _) as [c|]; [|done]. destruct (c <? 0); [done|]. by intros [= <-]. Qed.

Lemma readAlgorithm_bounds v e e' : inBounds e -> readAlgorithm v e = Some e' -> inBounds e' /\ otpSecret e' = otpSecret e.
Proof. unfold readAlgorithm. intros Hb. destruct (AlgorithmFromString v); [|done]. by intros [= <-]. Qed.

Lemma linkItem_bounds query key applies read bad e e' :
  (forall v e', read v e = Some e' -> inBounds e' /\ otpSecret e' = otpSecret e) -> inBounds e ->
  linkItem query key applies read bad e = inr e' -> inBounds e' /\ otpSecret e' = otpSecret e.
Proof. intros Hread He H. eapply (linkItem_keeps (fun x => inBounds x /\ otpSecret x = otpSecret e)); [exact Hread|done|exact H]. Qed.

Lemma linkItems_bounds query e e' : inBounds e -> linkItems query e = Parsed e' -> inBounds e' /\ otpSecret e' = otpSecret e.
Proof.
  intros H0. unfold linkItems.
  destruct (linkItem query (u "algorithm") _ _ _ e) as [|e1] eqn:E1; [done|].
  apply linkItem_bounds in E1 as [H1 S1]; [|intros ? ?; by apply readAlgorithm_bounds|done].
  destruct (linkItem query (u "digits") _ _ _ e1) as [|e2] eqn:E2; [done|].
  apply linkItem_bounds in E2 as [H2 S2]; [|intros ? ?; by apply readDigits_bounds|done].
  destruct (linkItem query (u "period") _ _ _ e2) as [|e3] eqn:E3; [done|].
  apply linkItem_bounds in E3 as [H3 S3]; [|intros ? ?; by apply readPeriod_bounds|done].
  destruct (linkItem query (u "counter") _ _ _ e3) as [|e4] eqn:E4; [done|].
  apply linkItem_bounds in E4 as [H4 S4]; [|intros ? ?; by apply readCounter_bounds|done].
  intros [= <-]. split; [done|congruence].
Qed.

Lemma linkNames_bounds url : inBounds (linkNames url).
Proof.
  unfold linkNames. apply default_inBounds; cbv zeta; destruct (indexOf cColon _);
    repeat match goal with |- context [isNil ?x] => destruct (isNil x) end; reflexivity.
Qed.

Lemma ParseFromLink_usable link e : ParseFromLink link = Parsed e -> Validate e = None.
Proof.
  unfold ParseFromLink. destruct (parseUrl _) as [url|]; [|done]. destruct (negb (eqFold _ _)); [done|]. cbv zeta.
  pose proof (linkNames_bounds url) as Hb. destruct (TypeFromString _) as [t|]; [|done].
  set (secret := queryItemValue (uQuery url) (u "secret")). destruct (isNil (trimmed secret)); [done|].
  cbn [setSecret otpSecret]. destruct (isNil (NormalizeSecret secret)) eqn:Es; [done|]. intros H.
  apply linkItems_bounds in H as [H1 H2]; [|exact Hb]. eapply inBounds_usable; [exact H1|exact H2|].
  intros E. by rewrite E in Es.
Qed.

(** The fields of a migration entry keep default or known numbers, and a secret
    that is the encoding of the last key. *)
Definition migrationSound (s : MigrationState) : Prop :=
  inBounds (mgEntry s) /\
  (mgHaveSecret s = true -> exists b key, otpSecret (mgEntry s) = Base32Encode (b :: key) /\ Forall isByte (b :: key)).

Lemma migrationField_sound f s : Forall isByte (pbBytes f) -> migrationSound s -> migrationSound (migrationField f s).
Proof.
  intros Hb Hs. pose proof Hs as [[Hd Hp] Hk].
  assert (Hdig : forall v, MIN_DIGITS <= (if v =? 2 then 8 else DEFAULT_DIGITS) <= MAX_DIGITS).
  { intros v. unfold MIN_DIGITS, MAX_DIGITS, DEFAULT_DIGITS. destruct (v =? 2); lia. }
  unfold migrationField. repeat match goal with |- context [if pbField f =? ?n then _ else _] => destruct (pbField f =? n) end;
    try (split; [split; assumption|exact Hk]).
  - split; [split; assumption|]. cbn [mgHaveSecret mgEntry setSecret otpSecret]. destruct (pbBytes f) as [|b key]; [done|]. by exists b, key.
  - destruct (migrationAlgorithm _); split; try exact Hk; split; assumption.
  - destruct (pbVarint f <=? 2); split; try exact Hk; (split; [|assumption]); [apply Hdig|assumption].
  - destruct (pbVarint f <=? 2); split; try exact Hk; split; assumption.
Qed.

(** The bytes of a field and the input after it are bytes. *)
Lemma readVarint_bytes input : Forall isByte input -> forall value shift v rest,
  readVarint value shift input = Some (v, rest) -> Forall isByte rest.
Proof.
  induction 1 as [|b input Hb Hi IH]; intros value shift v rest; cbn [readVarint]; [done|]. cbv zeta.
  destruct (_ =? 0); [by intros [= _ <-]|]. destruct (63 <? _); [done|]. apply IH.
Qed.

Lemma pbReadField_bytes_sound input f rest : Forall isByte input -> pbReadField input = Some (f, rest) ->
  Forall isByte (pbBytes f) /\ Forall isByte rest.
Proof.
  intros Hi. unfold pbReadField, pbReadVarint. destruct (readVarint 0 0 input) as [[tag i1]|] eqn:E1; [|done].
  pose proof (readVarint_bytes _ Hi _ _ _ _ E1) as H1. cbv zeta. set (w := Z.land tag 7).
  destruct (w =? 0); [|destruct (w =? 1); [|destruct (w =? 2); [|destruct (w =? 5); [|done]]]].
  - destruct (readVarint 0 0 i1) as [[v i2]|] eqn:E2; [|done]. intros [= <- <-]. split; [by apply List.Forall_nil|].
    by eapply readVarint_bytes.
  - destruct (zlen i1 <? 8); [done|]. intros [= <- <-]. split; [by apply List.Forall_nil|by apply Forall_drop].
  - destruct (readVarint 0 0 i1) as [[v i2]|] eqn:E2; [|done]. pose proof (readVarint_bytes _ H1 _ _ _ _ E2) as H2.
    destruct (zlen i2 <? v); [done|]. intros [= <- <-]. cbn [pbBytes]. split; [by apply Forall_take|by apply Forall_drop].
  - destruct (zlen i1 <? 4); [done|]. intros [= <- <-]. split; [by apply List.Forall_nil|by apply Forall_drop].
Qed.

Lemma migrationFields_sound fuel : forall input s s', Forall isByte input -> migrationSound s ->
  migrationFields fuel input s = Some s' -> migrationSound s'.
Proof.
  induction fuel as [|fuel IH]; intros [|x input] s s' Hi Hs; cbn [migrationFields]; try done; try (by intros [= <-]).
  destruct (pbReadField (x :: input)) as [[f rest]|] eqn:E; [|done]. destruct (pbReadField_bytes_sound _ _ _ Hi E) as [Hb Hr].
  apply IH; [done|]. by apply migrationField_sound.
Qed.

Lemma migrationEntry_usable s e : migrationSound s -> migrationEntry s = inr e -> Validate e = None.
Proof.
  intros [Hb Hk]. unfold migrationEntry. cbv zeta. destruct (mgHaveSecret s); [|done]. destruct (Hk eq_refl) as (b & key & Hs & Hbytes).
  cbn [negb]. destruct (mgBadAlgorithm s); [done|]. destruct (mgBadDigits s); [done|]. destruct (mgBadType s); [done|]. intros [= <-].
  assert (Hn : NormalizeSecret (Base32Encode (b :: key)) = Base32Encode (b :: key)) by by apply normalize_encode.
  assert (Hne : NormalizeSecret (Base32Encode (b :: key)) <> []) by (rewrite Hn; apply encode_nonempty).
  eapply inBounds_usable; [|rewrite Hn|exact Hne]; by destruct (isNil _).
Qed.

Lemma migrationLoop_usable fuel : forall input ps es e, Forall isByte input -> migrationLoop fuel input = Some (ps, es) ->
  e ∈ es -> Validate e = None.
Proof.
  induction fuel as [|fuel IH]; intros [|x input] ps es e Hi; cbn [migrationLoop]; try done;
    try (intros [= <- <-]; by intros ?%not_elem_of_nil).
  destruct (pbReadField (x :: input)) as [[f rest]|] eqn:E; [|done]. destruct (pbReadField_bytes_sound _ _ _ Hi E) as [Hb Hr].
  destruct (negb _ || negb _); [by apply IH|].
  destruct (migrationFields _ _ _) as [s|] eqn:Es; [|done].
  assert (Hs : migrationSound s).
  { eapply migrationFields_sound; [exact Hb| |exact Es]. split; [by apply default_inBounds|done]. }
  destruct (migrationLoop fuel rest) as [[ps' es']|] eqn:El; [|done].
  destruct (migrationEntry s) as [m|e'] eqn:Ee; intros [= <- <-]; [by eapply IH|].
  intros [->|He]%elem_of_cons; [by eapply migrationEntry_usable|by eapply IH].
Qed.

Lemma ParseFromMigrationLink_usable link e : e ∈ snd (ParseFromMigrationLink link) -> Validate e = None.
Proof.
  unfold ParseFromMigrationLink. cbv zeta. destruct (parseUrl _) as [url|]; [|by intros ?%not_elem_of_nil].
  destruct (negb (eqFold _ _)); [by intros ?%not_elem_of_nil|]. destruct (isNil (queryItemValue _ _)); [by intros ?%not_elem_of_nil|].
  set (payload := fromBase64Text _). destruct (isNil payload); [by intros ?%not_elem_of_nil|].
  destruct (migrationLoop _ payload) as [[ps es]|] eqn:E; [|by intros ?%not_elem_of_nil].
  intros He. eapply migrationLoop_usable; [|exact E|exact He]. apply from_bytes.
Qed.

Lemma bareLine_usable line e : e ∈ snd (bareLine line) -> Validate e = None.
Proof.
  unfold bareLine. cbv zeta. set (secret := if LooksLikeBareSecret line then NormalizeSecret line else []).
  destruct (negb (isNil secret)) eqn:En; [|destruct (LooksLikeBareSecret line); by intros ?%not_elem_of_nil].
  destruct (MIN_BARE_SECRET_BYTES <=? _); [|by intros ?%not_elem_of_nil]. intros [->|?%not_elem_of_nil]%elem_of_cons; [|done].
  unfold secret in *. destruct (LooksLikeBareSecret line); [|done].
  eapply (inBounds_usable _ line); [by apply default_inBounds|done|]. intros E. by rewrite E in En.
Qed.

Lemma parseLine_usable line e : e ∈ snd (parseLine line) -> Validate e = None.
Proof.
  unfold parseLine. cbv zeta. destruct (isNil (trimmed line)); [by intros ?%not_elem_of_nil|].
  destruct (startsWithCI (u "otpauth-migration://") _).
  - pose proof (ParseFromMigrationLink_usable (trimmed line) e) as H. destruct (ParseFromMigrationLink _) as [[ok skipped] batch].
    destruct ok; [exact H|by intros ?%not_elem_of_nil].
  - destruct (ParseFromLink (trimmed line)) as [|m|e'] eqn:E; [|by intros ?%not_elem_of_nil|].
    + destruct (startsWithCI _ _); [by intros ?%not_elem_of_nil|]. apply bareLine_usable.
    + intros [->|?%not_elem_of_nil]%elem_of_cons; [|done]. by eapply ParseFromLink_usable.
Qed.

Lemma parseLines_usable lines e : e ∈ snd (parseLines lines) -> Validate e = None.
Proof.
  induction lines as [|line lines IH]; cbn [parseLines]; [by intros ?%not_elem_of_nil|].
  pose proof (parseLine_usable line e) as H. destruct (parseLine line) as [p es]. destruct (parseLines lines) as [ps es'].
  cbn [snd] in *. intros [He|He]%elem_of_app; auto.
Qed.

(** C34: Whatever text is imported (a JSON export, links, migration links, bare
    secrets, any mixture of lines, or garbage), every entry that comes in is one
    the program itself accepts: its secret decodes to a key, its digits and
    period are in range, so a code can be generated from it. *)
Theorem ParseAny_usable text e : e ∈ snd (ParseAny text) -> Validate e = None.
Proof.
  unfold ParseAny. cbv zeta. destruct (isNil (trimmed text)); [by intros ?%not_elem_of_nil|].
  destruct (_ || _); [|apply parseLines_usable].
  pose proof (ParseFromJson_usable (toUtf8 (trimmed text)) e) as H. destruct (ParseFromJson _) as [[parsed skipped] entries].
  destruct parsed; [exact H|by intros ?%not_elem_of_nil].
Qed.
End JsonFacts.

Lemma otp_json_roundtrip_witness :
  ParseFromJson (ExportToJson [sampleEntry; setType HOTP (setCounter 9007199254740991 sampleEntry)]) =
    (true, [], [sampleEntry; setType HOTP (setCounter 9007199254740991 sampleEntry)]).
Proof.
  apply (otp_json_roundtrip [sampleEntry; setType HOTP (setCounter 9007199254740991 sampleEntry)]); [|discriminate].
  repeat (apply List.Forall_cons; [repeat split; try (vm_compute; done); vm_compute; discriminate|]). apply List.Forall_nil.
Defined.

(** Above 2^53 the double does not hold the counter, and another one is read. *)
Example json_counter_rounded :
  let e := mkEntry (u "alice") [] (u "JBSWY3DPEHPK3PXP") SHA1 HOTP 6 30 9007199254740993 in
  ParseFromJson (ExportToJson [e]) = (true, [], [setCounter 9007199254740992 e]).
Proof. vm_compute. reflexivity. Qed.

Lemma ParseAny_usable_witness :
  let e := setSecret (u "JBSWY3DPEHPK3PXPJBSWY3DPEHPK3PXP") defaultEntry in
  e ∈ snd (ParseAny (u "jbsw y3dp ehpk 3pxp jbsw y3dp ehpk 3pxp")) /\ Validate e = None.
Proof.
  assert (H : setSecret (u "JBSWY3DPEHPK3PXPJBSWY3DPEHPK3PXP") defaultEntry ∈ snd (ParseAny (u "jbsw y3dp ehpk 3pxp jbsw y3dp ehpk 3pxp"))).
  { vm_compute. by left. }
  split; [exact H|]. exact (ParseAny_usable _ _ H).
Defined.
