(* ===== verification/StableSort.v ===== *)
(** std::stable_sort: the model of the standard library's stable sort, and that it
    returns the one ordering that keeps equal elements as they were. *)
From stdpp Require Import base list sorting.
From Stdlib Require Import ZArith Lia Bool.
From S2P Require Import Prelude.

Section Stable.
Context {A : Type}.
Implicit Types (less : A -> A -> bool) (l : list A).

Fixpoint insertStable less (x : A) l : list A :=
  match l with
  | [] => [x]
  | y :: l' => if less y x then y :: insertStable less x l' else x :: l
  end.

Definition stableSort less l : list A := foldr (insertStable less) [] l.

(** The first [i] of the list comes before any [j]. *)
Definition before l (i j : A) : Prop := exists l1 l2, l = l1 ++ l2 /\ i ∈ l1 /\ j ∉ l1.

Lemma before_asym l i j : before l i j -> before l j i -> False.
Proof.
  intros (a & b & -> & Hi & Hj) (c & d & E & Hj' & Hi'). destruct (decide (length a <= length c)%nat) as [Hle|Hle].
  - apply Hi'. apply (f_equal (take (length a))) in E. rewrite take_app_length, take_app_le in E by done.
    rewrite E in Hi. apply elem_of_take in Hi as (n & Hn & _). by eapply list_elem_of_lookup_2.
  - apply Hj. apply (f_equal (take (length c))) in E. rewrite take_app_length, take_app_le in E by lia.
    rewrite <- E in Hj'. apply elem_of_take in Hj' as (n & Hn & _). by eapply list_elem_of_lookup_2.
Qed.

Lemma before_cons x l i j : j <> x -> i = x \/ before l i j -> before (x :: l) i j.
Proof.
  intros Hj [->|(a & b & -> & Hi & Hn)].
  - exists [x], l. split; [done|]. split; [by left|]. rewrite list_elem_of_singleton. done.
  - exists (x :: a), b. split; [done|]. split; [by right|]. by apply not_elem_of_cons.
Qed.

Lemma stableSort_cons less x l : stableSort less (x :: l) = insertStable less x (stableSort less l).
Proof. done. Qed.

Lemma StronglySorted_weaken (R R' : A -> A -> Prop) l :
  (forall x y, x ∈ l -> y ∈ l -> R x y -> R' x y) -> StronglySorted R l -> StronglySorted R' l.
Proof.
  intros H Hl. induction Hl as [|x l Hl IH Hx]; constructor.
  - apply IH. intros y z Hy Hz. apply H; by right.
  - rewrite Forall_forall in *. intros y Hy. apply H; [by left|by right|by apply Hx].
Qed.

Lemma insertStable_perm less x l : insertStable less x l ≡ₚ x :: l.
Proof.
  induction l as [|y l IH]; cbn [insertStable]; [done|]. destruct (less y x); [|done]. rewrite IH. constructor.
Qed.

Lemma stableSort_perm less l : stableSort less l ≡ₚ l.
Proof. induction l as [|x l IH]; [done|]. by rewrite stableSort_cons, insertStable_perm, IH. Qed.

Lemma insertStable_ext less less' x l : (forall y, y ∈ l -> less y x = less' y x) -> insertStable less x l = insertStable less' x l.
Proof.
  induction l as [|y l IH]; intros H; cbn [insertStable]; [done|]. rewrite <- (H y) by by left. rewrite IH; [done|].
  intros z Hz. apply H. by right.
Qed.

Lemma stableSort_ext less less' l : (forall x y, x ∈ l -> y ∈ l -> less x y = less' x y) -> stableSort less l = stableSort less' l.
Proof.
  induction l as [|x l IH]; intros H; [done|]. rewrite !stableSort_cons, IH by (intros; apply H; by right).
  apply insertStable_ext. intros y Hy. rewrite stableSort_perm in Hy. apply H; [by right|by left].
Qed.

(** What std::stable_sort asks of its comparison. *)
Class WeakOrder (less : A -> A -> bool) : Prop := {
  less_asym : forall x y, less x y = true -> less y x = false;
  less_negtrans : forall x y z, less x z = true -> less x y = true \/ less y z = true
}.

(** Less, or neither and earlier in the list. *)
Definition stableBefore less l (i j : A) : Prop := less i j = true \/ (less j i = false /\ before l i j).

Section Sorted.
Context (less : A -> A -> bool) `{W : !WeakOrder less}.

Lemma less_irrefl x : less x x = false.
Proof. destruct (less x x) eqn:E; [|done]. by rewrite (less_asym _ _ E) in E. Qed.

Lemma less_ge_trans x y z : less y x = false -> less z y = false -> less z x = false.
Proof. intros H1 H2. destruct (less z x) eqn:E; [|done]. destruct (less_negtrans z y x E); congruence. Qed.

Lemma insertStable_sorted (R : A -> A -> Prop) x l : (forall y z, R y z -> less z y = false) ->
  (forall y, y ∈ l -> if less y x then R y x else R x y) -> StronglySorted R l -> StronglySorted R (insertStable less x l).
Proof.
  intros HR Hx Hl. induction Hl as [|y l Hl IH Hy]; cbn [insertStable]; [repeat constructor|].
  pose proof (Hx y ltac:(by left)) as Hxy. destruct (less y x) eqn:E.
  - constructor; [apply IH; intros z Hz; apply Hx; by right|]. apply Forall_forall. intros z Hz.
    rewrite insertStable_perm in Hz. rewrite Forall_forall in Hy. apply elem_of_cons in Hz as [->|Hz]; [done|by apply Hy].
  - constructor; [by constructor|]. apply Forall_forall. intros z Hz. apply elem_of_cons in Hz as [->|Hz]; [done|].
    specialize (Hx z ltac:(by right)). destruct (less z x) eqn:Ez; [|done]. rewrite Forall_forall in Hy.
    destruct (less_negtrans z y x Ez) as [H|H]; [by rewrite (HR _ _ (Hy z Hz)) in H|congruence].
Qed.

Lemma stableSort_sorted l : NoDup l -> StronglySorted (stableBefore less l) (stableSort less l).
Proof.
  intros Hn. induction Hn as [|x l Hx Hn IH]; [constructor|]. rewrite stableSort_cons. set (sorted := stableSort _ l) in *.
  assert (Hp : sorted ≡ₚ l) by apply stableSort_perm. clearbody sorted.
  assert (Hin : forall y, y ∈ sorted -> y <> x) by (intros y Hy ->; by rewrite Hp in Hy).
  apply insertStable_sorted.
  - intros y z [H|[H _]]; [by apply less_asym|done].
  - intros y Hy. destruct (less y x) eqn:E; [by left|]. right. split; [done|]. apply before_cons; [by apply Hin|by left].
  - eapply StronglySorted_weaken; [|exact IH]. intros y z Hy Hz [H|[H1 H2]]; [by left|]. right. split; [done|].
    apply before_cons; [by apply Hin|by right].
Qed.

(** A stable sort of a sorted list changes nothing. *)
Lemma stableSort_id l : StronglySorted (fun x y => less y x = false) l -> stableSort less l = l.
Proof.
  induction 1 as [|x l _ IH Hx]; [done|]. rewrite stableSort_cons, IH. destruct l as [|y l]; [done|]. cbn [insertStable].
  by rewrite (Forall_inv Hx).
Qed.

Lemma stableSort_ordered l : StronglySorted (fun x y => less y x = false) (stableSort less l).
Proof.
  induction l as [|x l IH]; [constructor|]. rewrite stableSort_cons. apply insertStable_sorted; [done| |done].
  intros y _. destruct (less y x) eqn:E; [by apply less_asym|done].
Qed.

(** Neighbours in order make the list sorted. *)
Lemma adjacent_sorted l d : (forall i, (S i < length l)%nat -> less (nth (S i) l d) (nth i l d) = false) ->
  StronglySorted (fun x y => less y x = false) l.
Proof.
  intros H. apply Sorted_StronglySorted; [intros x y z; apply less_ge_trans|].
  induction l as [|x l IH]; [constructor|]. constructor; [apply IH; intros i Hi; apply (H (S i)); cbn; lia|].
  destruct l as [|y l]; constructor. apply (H 0%nat). cbn. lia.
Qed.

(** An element put behind its equals, where a stable sort leaves one that came last. *)
Fixpoint insertUpper (x : A) l : list A :=
  match l with
  | [] => [x]
  | y :: l' => if less x y then x :: l else y :: insertUpper x l'
  end.

Lemma insert_comm x y l : insertStable less y (insertUpper x l) = insertUpper x (insertStable less y l).
Proof.
  induction l as [|z l IH]; cbn [insertUpper insertStable].
  - by destruct (less x y) eqn:E.
  - destruct (less x z) eqn:Exz; cbn [insertStable]; destruct (less z y) eqn:Ezy; cbn [insertUpper]; rewrite ?Exz.
    + destruct (less x y) eqn:Exy; [done|]. destruct (less_negtrans x y z Exz) as [H|H]; [congruence|]. by rewrite (less_asym _ _ Ezy) in H.
    + by destruct (less x y).
    + by rewrite IH.
    + destruct (less x y) eqn:Exy; [|done]. destruct (less_negtrans x z y Exy); congruence.
Qed.

Lemma stableSort_snoc l x : stableSort less (l ++ [x]) = insertUpper x (stableSort less l).
Proof.
  induction l as [|y l IH]; [done|]. rewrite <- app_comm_cons, !stableSort_cons, IH. apply insert_comm.
Qed.

Lemma filter_insertStable (f : A -> bool) x l : StronglySorted (fun a b => less b a = false) l ->
  List.filter f (insertStable less x l) = if f x then insertStable less x (List.filter f l) else List.filter f l.
Proof.
  induction 1 as [|y l Hl IH Hy]; cbn [insertStable List.filter]; [by destruct (f x)|].
  destruct (less y x) eqn:E; cbn [List.filter]; rewrite ?IH; destruct (f y) eqn:Ey; destruct (f x) eqn:Ex; cbn [insertStable]; rewrite ?E, ?Ey; try done.
  destruct (List.filter f l) as [|z k] eqn:Ek; [done|]. cbn [insertStable].
  assert (Hz : z ∈ l). { eapply (proj1 (filter_elem f l z)). rewrite Ek. by left. }
  rewrite Forall_forall in Hy. specialize (Hy z Hz). destruct (less z x) eqn:Ez; [|done].
  destruct (less_negtrans z y x Ez); congruence.
Qed.

(** Sorting leaves a part of the list in the order its own sort gives. *)
Lemma filter_stableSort (f : A -> bool) l : List.filter f (stableSort less l) = stableSort less (List.filter f l).
Proof.
  induction l as [|x l IH]; [done|]. rewrite stableSort_cons, filter_insertStable by apply stableSort_ordered. cbn [List.filter]. rewrite IH.
  by destruct (f x).
Qed.

End Sorted.
End Stable.

(** ** Orders from orders *)

Lemma flip_weak {A} (less : A -> A -> bool) : WeakOrder less -> WeakOrder (fun x y => less y x).
Proof. intros W. split; [intros x y; apply less_asym|]. intros x y z H. destruct (less_negtrans z y x H); tauto. Qed.

Lemma on_weak {A B} (f : A -> B) (less : B -> B -> bool) : WeakOrder less -> WeakOrder (fun x y => less (f x) (f y)).
Proof. intros W. split; [intros x y; apply less_asym|intros x y z; apply less_negtrans]. Qed.

(** By one order, then by another. *)
Lemma lex_weak {A} (first second : A -> A -> bool) : WeakOrder first -> WeakOrder second ->
  WeakOrder (fun x y => first x y || (negb (first y x) && second x y)).
Proof.
  intros W1 W2. split.
  - intros x y [H|[H1 H2]%andb_true_iff]%orb_true_iff.
    + by rewrite (less_asym _ _ H), H.
    + apply negb_true_iff in H1. by rewrite H1, (less_asym _ _ H2), andb_false_r.
  - intros x y z. rewrite !orb_true_iff, !andb_true_iff, !negb_true_iff. intros [H|[H1 H2]].
    + destruct (less_negtrans x y z H); tauto.
    + destruct (first x y) eqn:Exy, (first y z) eqn:Eyz; try tauto. destruct (first y x) eqn:Eyx.
      * destruct (less_negtrans y z x Eyx); congruence.
      * destruct (first z y) eqn:Ezy; [destruct (less_negtrans z x y Ezy); congruence|]. destruct (less_negtrans x y z H2); tauto.
Qed.
