(* ===== verification/AutoSelector.v ===== *)
(** The auto selector's own settings: src/include/configs/outbounds/autoselector.h.

    [autoSelector] has the members of the class with the base's name; [Normalize]
    clamps them in the code's order, [ParseFromJson] and [ExportToJson] are its
    stored form, and the history keeps one JSON object per member ever built,
    newest first. *)
From stdpp Require Import base list gmap strings.
From Stdlib Require Import ZArith Lia Bool.
From S2P Require Import Prelude Json ValidationNum.

(** A number that is not whole, cast to 64 bits. *)
Class QtReal := { realToInt64 : qstr -> Z }.

Record autoSelector := mkAutoSelector {
  asName : qstr;
  gids : list Z;
  nameFilter : qstr;
  countryFilter : qstr;
  excludeUnavailable : bool;
  poolCap : Z;
  buildLimit : Z;
  resultValidityMins : Z;
  testURL : qstr;
  connectivityURL : qstr;
  intervalSec : Z;
  benchIntervalSec : Z;
  watchIntervalSec : Z;
  activeSize : Z;
  sampling : Z;
  toleranceMs : Z;
  maxRTTms : Z;
  expected : Z;
  dialRetries : Z;
  interruptOnSwitch : bool;
  balance : bool;
  balanceMode : qstr;
  balanceIntervalSec : Z;
  pool : list Z;
  poolRankedAt : Z;
  pinnedID : Z;
  lastBuilt : list Z;
  lastBuiltAt : Z;
  history : list json
}.

(** The class's initial values. *)
Definition newAutoSelector : autoSelector :=
  mkAutoSelector [] [] [] [] true 1000 300 1440 [] [] 300 600 15 8 10 300 0 3 2 true false (u "rotate") 30 [] 0 (-1) [] 0 [].

Definition withPool (ids : list Z) (rankedAt : Z) (s : autoSelector) : autoSelector :=
  mkAutoSelector (asName s) (gids s) (nameFilter s) (countryFilter s) (excludeUnavailable s) (poolCap s) (buildLimit s)
    (resultValidityMins s) (testURL s) (connectivityURL s) (intervalSec s) (benchIntervalSec s) (watchIntervalSec s)
    (activeSize s) (sampling s) (toleranceMs s) (maxRTTms s) (expected s) (dialRetries s) (interruptOnSwitch s) (balance s)
    (balanceMode s) (balanceIntervalSec s) ids rankedAt (pinnedID s) (lastBuilt s) (lastBuiltAt s) (history s).

Definition withHistory (h : list json) (s : autoSelector) : autoSelector :=
  mkAutoSelector (asName s) (gids s) (nameFilter s) (countryFilter s) (excludeUnavailable s) (poolCap s) (buildLimit s)
    (resultValidityMins s) (testURL s) (connectivityURL s) (intervalSec s) (benchIntervalSec s) (watchIntervalSec s)
    (activeSize s) (sampling s) (toleranceMs s) (maxRTTms s) (expected s) (dialRetries s) (interruptOnSwitch s) (balance s)
    (balanceMode s) (balanceIntervalSec s) (pool s) (poolRankedAt s) (pinnedID s) (lastBuilt s) (lastBuiltAt s) h.

(** ** Normalize *)

Definition kMaxPoolCap : Z := 3000.
Definition kMaxBuildLimit : Z := 500.
Definition kMaxHistoryEntries : nat := 2000.

Definition memZ (id : Z) (l : list Z) : bool := existsb (Z.eqb id) l.

(** The tracked groups, each once, in the user's order. *)
Fixpoint trackedGroups (l tracked : list Z) : list Z :=
  match l with
  | [] => tracked
  | gid :: l' => trackedGroups l' (if (gid >=? 0) && negb (memZ gid tracked) then tracked ++ [gid] else tracked)
  end.

Definition atLeast (lo v : Z) : Z := if v <? lo then lo else v.
Definition atMost (hi v : Z) : Z := if hi <? v then hi else v.

Definition Normalize (s : autoSelector) : autoSelector :=
  let cap := atMost kMaxPoolCap (atLeast 1 (poolCap s)) in
  let limit := atMost cap (atMost kMaxBuildLimit (atLeast 1 (buildLimit s))) in
  let validity := atLeast 0 (resultValidityMins s) in
  let interval := atLeast 10 (intervalSec s) in
  let bench := atLeast interval (benchIntervalSec s) in
  let watch := atMost interval (atLeast 5 (watchIntervalSec s)) in
  let active := atLeast 1 (activeSize s) in
  let ready := atLeast 1 (expected s) in
  let active := atMost limit (atLeast ready active) in
  let samples := atMost 60 (atLeast 2 (sampling s)) in
  let tolerance := atLeast 0 (toleranceMs s) in
  let maxRTT := atLeast 0 (maxRTTms s) in
  let ready := atMost limit ready in
  let retries := atMost 5 (atLeast 0 (dialRetries s)) in
  let balanceInterval := atLeast 5 (balanceIntervalSec s) in
  let mode := if negb (eqStr (balanceMode s) (u "connection")) then u "rotate" else balanceMode s in
  mkAutoSelector (asName s) (trackedGroups (gids s) []) (nameFilter s) (countryFilter s) (excludeUnavailable s) cap limit
    validity (testURL s) (connectivityURL s) interval bench watch active samples tolerance maxRTT ready retries
    (interruptOnSwitch s) (balance s) mode balanceInterval (pool s) (poolRankedAt s) (pinnedID s) (lastBuilt s)
    (lastBuiltAt s) (history s).

(** ** The form's cross-field checks *)

Definition AutoSelectorBuildLimit (buildLimit poolCap : Z) : verdict :=
  if buildLimit <=? poolCap then None
  else Some (MTr (u "Cannot run more profiles than are ranked (%1).") [MText (number poolCap)]).

Definition AutoSelectorBenchInterval (benchInterval interval : Z) : verdict :=
  if benchInterval >=? interval then None
  else Some (MTr (u "The full sweep cannot run more often than the check interval (%1 s).") [MText (number interval)]).

Definition AutoSelectorWatchInterval (watchInterval interval : Z) : verdict :=
  if watchInterval <=? interval then None
  else Some (MTr (u "Watching the profile in use cannot be slower than the check interval (%1 s).") [MText (number interval)]).

Definition AutoSelectorReadyCount (activeSize expected : Z) : verdict :=
  if activeSize >=? expected then None
  else Some (MTr (u "Check closely at least as many profiles as are kept ready (%1).") [MText (number expected)]).

Definition AutoSelectorCloseCount (activeSize buildLimit : Z) : verdict :=
  if activeSize <=? buildLimit then None
  else Some (MTr (u "Cannot check closely more profiles than are run (%1).") [MText (number buildLimit)]).

Definition Tracks (gid : Z) (s : autoSelector) : bool := memZ gid (gids s).

(** ** The stored form *)

Definition QJsonArray2QListInt (l : list json) : list Z := map (fun j => toInt j 0) l.
Definition QListInt2QJsonArray (l : list Z) : list json := map JInt l.

Section Stored.
Context {R : QtReal}.

(** static_cast<qint64>(toDouble()). *)
Definition toDoubleInt (j : json) : Z :=
  match j with JInt n => truncDouble (toDouble n) | JReal t => realToInt64 t | _ => 0 end.

(** QJsonValue of static_cast<double>(n): a whole number. *)
Definition fromDoubleInt (n : Z) : json := JInt (truncDouble (toDouble n)).

Definition toStrOr (j : json) (defaultValue : qstr) : qstr := match j with JStr s => s | _ => defaultValue end.

(** if (object.contains(key)) field = read(object[key]) *)
Definition readField {A} (o : jobject) (key : string) (read : json -> A) (old : A) : A :=
  if objContains o (u key) then read (objValue o (u key)) else old.

Definition readGids (o : jobject) (old : list Z) : list Z :=
  if objContains o (u "gids") then QJsonArray2QListInt (toArray (objValue o (u "gids")))
  else let gid := toInt (objValue o (u "gid")) (-1) in if gid >=? 0 then [gid] else old.

Definition toIntOr (d : Z) (j : json) : Z := toInt j d.
Definition toBoolOr (d : bool) (j : json) : bool := toBool j d.
Definition toIds (j : json) : list Z := QJsonArray2QListInt (toArray j).

(** [None] for the false it returns. *)
Definition ParseFromJson (o : jobject) (s : autoSelector) : option autoSelector :=
  if isNil o then None
  else Some (Normalize (mkAutoSelector
    (readField o "name" toStr (asName s))
    (readGids o (gids s))
    (readField o "name_filter" toStr (nameFilter s))
    (readField o "country_filter" toStr (countryFilter s))
    (readField o "exclude_unavailable" (toBoolOr true) (excludeUnavailable s))
    (readField o "pool_cap" (toIntOr 3000) (poolCap s))
    (readField o "build_limit" (toIntOr 300) (buildLimit s))
    (readField o "result_validity_mins" (toIntOr 60) (resultValidityMins s))
    (readField o "test_url" toStr (testURL s))
    (readField o "connectivity_url" toStr (connectivityURL s))
    (readField o "interval_sec" (toIntOr 60) (intervalSec s))
    (readField o "bench_interval_sec" (toIntOr 600) (benchIntervalSec s))
    (readField o "watch_interval_sec" (toIntOr 15) (watchIntervalSec s))
    (readField o "active_size" (toIntOr 10) (activeSize s))
    (readField o "sampling" (toIntOr 10) (sampling s))
    (readField o "tolerance_ms" (toIntOr 100) (toleranceMs s))
    (readField o "max_rtt_ms" (toIntOr 0) (maxRTTms s))
    (readField o "expected" (toIntOr 3) (expected s))
    (readField o "dial_retries" (toIntOr 2) (dialRetries s))
    (readField o "interrupt_on_switch" (toBoolOr true) (interruptOnSwitch s))
    (readField o "balance" (toBoolOr false) (balance s))
    (readField o "balance_mode" (fun j => toStrOr j (u "rotate")) (balanceMode s))
    (readField o "balance_interval_sec" (toIntOr 30) (balanceIntervalSec s))
    (readField o "pool" toIds (pool s))
    (readField o "pool_ranked_at" toDoubleInt (poolRankedAt s))
    (readField o "pinned_id" (toIntOr (-1)) (pinnedID s))
    (readField o "last_built" toIds (lastBuilt s))
    (readField o "last_built_at" toDoubleInt (lastBuiltAt s))
    (readField o "history" toArray (history s)))).

Definition ExportToJson (s : autoSelector) : jobject := mkObject
  [(u "name", JStr (asName s));
   (u "type", JStr (u "autoselector"));
   (u "gids", JArr (QListInt2QJsonArray (gids s)));
   (u "gid", JInt (default (-1) (head (gids s))));
   (u "name_filter", JStr (nameFilter s));
   (u "country_filter", JStr (countryFilter s));
   (u "exclude_unavailable", JBool (excludeUnavailable s));
   (u "pool_cap", JInt (poolCap s));
   (u "build_limit", JInt (buildLimit s));
   (u "result_validity_mins", JInt (resultValidityMins s));
   (u "test_url", JStr (testURL s));
   (u "connectivity_url", JStr (connectivityURL s));
   (u "interval_sec", JInt (intervalSec s));
   (u "bench_interval_sec", JInt (benchIntervalSec s));
   (u "watch_interval_sec", JInt (watchIntervalSec s));
   (u "active_size", JInt (activeSize s));
   (u "sampling", JInt (sampling s));
   (u "tolerance_ms", JInt (toleranceMs s));
   (u "max_rtt_ms", JInt (maxRTTms s));
   (u "expected", JInt (expected s));
   (u "dial_retries", JInt (dialRetries s));
   (u "interrupt_on_switch", JBool (interruptOnSwitch s));
   (u "balance", JBool (balance s));
   (u "balance_mode", JStr (balanceMode s));
   (u "balance_interval_sec", JInt (balanceIntervalSec s));
   (u "pool", JArr (QListInt2QJsonArray (pool s)));
   (u "pool_ranked_at", fromDoubleInt (poolRankedAt s));
   (u "pinned_id", JInt (pinnedID s));
   (u "last_built", JArr (QListInt2QJsonArray (lastBuilt s)));
   (u "last_built_at", fromDoubleInt (lastBuiltAt s));
   (u "history", JArr (history s))].

(** ** The usage history *)

Record HistoryEntry := mkHistoryEntry {
  hId : Z;
  hFirstUsed : Z;
  hLastUsed : Z;
  hBuilds : Z;
  hFailures : Z;
  hName : qstr
}.

Definition noEntry : HistoryEntry := mkHistoryEntry (-1) 0 0 0 0 [].

Definition readEntry (j : json) : HistoryEntry :=
  let o := toObject j in
  mkHistoryEntry (toInt (objValue o (u "id")) (-1)) (toDoubleInt (objValue o (u "first"))) (toDoubleInt (objValue o (u "last")))
    (toInt (objValue o (u "builds")) 0) (toInt (objValue o (u "fails")) 0) (toStr (objValue o (u "name"))).

Definition writeEntry (e : HistoryEntry) : json :=
  JObj (mkObject
    [(u "id", JInt (hId e)); (u "first", fromDoubleInt (hFirstUsed e)); (u "last", fromDoubleInt (hLastUsed e));
     (u "builds", JInt (hBuilds e)); (u "fails", JInt (hFailures e)); (u "name", JStr (hName e))]).

Definition HistoryEntries (s : autoSelector) : list HistoryEntry :=
  List.filter (fun e => hId e >=? 0) (map readEntry (history s)).

(** QList::removeOne. *)
Fixpoint removeOne (id : Z) (l : list Z) : list Z :=
  match l with
  | [] => []
  | x :: l' => if x =? id then l' else x :: removeOne id l'
  end.

Definition usedEntry (entry : HistoryEntry) (id : Z) (names : gmap Z qstr) (now : Z) : HistoryEntry :=
  mkHistoryEntry (if hId entry <? 0 then id else hId entry) (if hId entry <? 0 then now else hFirstUsed entry) now
    (hBuilds entry + 1) (hFailures entry) (default (hName entry) (names !! id)).

(** One built member: the map of entries and the order. *)
Definition recordUse (names : gmap Z qstr) (now : Z) (st : gmap Z HistoryEntry * list Z) (id : Z) : gmap Z HistoryEntry * list Z :=
  let '(byID, order) := st in
  let entry := default noEntry (byID !! id) in
  let order := if hId entry <? 0 then order else removeOne id order in
  (<[id := usedEntry entry id names now]> byID, id :: order).

(** while (order.size() > kMaxHistoryEntries) byID.remove(order.takeLast()), that
    many times. *)
Fixpoint trimOrder (extra : nat) (st : gmap Z HistoryEntry * list Z) : gmap Z HistoryEntry * list Z :=
  match extra with
  | O => st
  | S extra' =>
      let '(byID, order) := st in
      match last order with
      | Some id => trimOrder extra' (delete id byID, removelast order)
      | None => st
      end
  end.

Definition RecordHistory (ids : list Z) (names : gmap Z qstr) (now : Z) (s : autoSelector) : autoSelector :=
  let entries := HistoryEntries s in
  let byID := fold_left (fun m e => <[hId e := e]> m) entries ∅ in
  let st := fold_left (recordUse names now) ids (byID, map hId entries) in
  let '(byID, order) := trimOrder (length (snd st) - kMaxHistoryEntries) st in
  withHistory (map (fun id => writeEntry (default noEntry (byID !! id))) order) s.

(** The first object with the id. *)
Fixpoint countFailure (id : Z) (h : list json) : list json :=
  match h with
  | [] => []
  | j :: h' =>
      let o := toObject j in
      if negb (toInt (objValue o (u "id")) (-1) =? id) then j :: countFailure id h'
      else JObj (objInsert (u "fails") (JInt (toInt (objValue o (u "fails")) 0 + 1)) o) :: h'
  end.

Definition RecordHistoryFailure (id : Z) (s : autoSelector) : autoSelector := withHistory (countFailure id (history s)) s.

End Stored.
