(* ===== verification/AutoSelectorFacts.v ===== *)
(** What the auto selector's settings keep: the normal form, the stored form and
    the usage history. *)
From stdpp Require Import base list gmap strings.
From Stdlib Require Import ZArith Lia Bool.
From S2P Require Import Prelude Json ValidationNum ValidationNumFacts AutoSelector.

(** ** The normal form *)

(** The relations the core relies on between the settings. *)
Record wfSelector (s : autoSelector) : Prop := {
  wf_gids : NoDup (gids s) /\ Forall (fun g => 0 <= g) (gids s);
  wf_cap : 1 <= poolCap s <= kMaxPoolCap;
  wf_limit : 1 <= buildLimit s <= kMaxBuildLimit /\ buildLimit s <= poolCap s;
  wf_validity : 0 <= resultValidityMins s;
  wf_interval : 10 <= intervalSec s;
  wf_bench : intervalSec s <= benchIntervalSec s;
  wf_watch : 5 <= watchIntervalSec s <= intervalSec s;
  wf_ready : 1 <= expected s /\ expected s <= activeSize s /\ activeSize s <= buildLimit s;
  wf_sampling : 2 <= sampling s <= 60;
  wf_tolerance : 0 <= toleranceMs s;
  wf_rtt : 0 <= maxRTTms s;
  wf_retries : 0 <= dialRetries s <= 5;
  wf_balance : 5 <= balanceIntervalSec s;
  wf_mode : balanceMode s = u "connection" \/ balanceMode s = u "rotate"
}.

Lemma memZ_spec x l : memZ x l = true <-> x ∈ l.
Proof.
  unfold memZ. rewrite existsb_exists. split.
  - intros (y & Hy & E). apply Z.eqb_eq in E as ->. by apply list_elem_of_In.
  - intros Hx. exists x. split; [by apply list_elem_of_In|apply Z.eqb_refl].
Qed.

Lemma memZ_false x l : memZ x l = false <-> x ∉ l.
Proof. rewrite <- memZ_spec. destruct (memZ x l); split; congruence. Qed.

Lemma memZ_decide x l : memZ x l = bool_decide (x ∈ l).
Proof. apply eq_true_iff_eq. by rewrite bool_decide_eq_true, memZ_spec. Qed.

Definition goodGids (l : list Z) : Prop := NoDup l /\ Forall (fun g => 0 <= g) l.

Lemma trackedGroups_good l tracked : goodGids tracked -> goodGids (trackedGroups l tracked).
Proof.
  revert tracked. induction l as [|g l IH]; intros tracked Ht; cbn [trackedGroups]; [done|]. apply IH.
  destruct (_ && _) eqn:E; [|done]. zbool. apply memZ_false in H0. destruct Ht as [Hn Hf].
  split; [|apply Forall_app; auto]. apply NoDup_app. repeat split; [done| |apply NoDup_singleton].
  intros x Hx ->%list_elem_of_singleton. done.
Qed.

Lemma trackedGroups_same l tracked : goodGids (tracked ++ l) -> trackedGroups l tracked = tracked ++ l.
Proof.
  revert tracked. induction l as [|g l IH]; intros tracked Ht; cbn [trackedGroups]; [by rewrite app_nil_r|].
  destruct Ht as [Hn Hf]. assert (Hg : 0 <= g) by (rewrite Forall_forall in Hf; apply Hf, elem_of_app; right; by left).
  replace (g >=? 0) with true by (symmetry; rewrite Z.geb_leb; apply Z.leb_le; lia).
  replace (memZ g tracked) with false by (symmetry; apply memZ_false; apply NoDup_app in Hn as (_ & Hn & _);
    intros Hin; exact (Hn g Hin ltac:(by left))).
  cbn [negb andb]. rewrite IH; [by rewrite <- app_assoc|]. rewrite <- app_assoc. by split.
Qed.

Lemma atLeast_max lo v : atLeast lo v = Z.max lo v.
Proof. unfold atLeast. destruct (v <? lo) eqn:E; zbool; lia. Qed.

Lemma atMost_min hi v : atMost hi v = Z.min hi v.
Proof. unfold atMost. destruct (hi <? v) eqn:E; zbool; lia. Qed.

Lemma Normalize_wfSelector s : wfSelector (Normalize s).
Proof.
  unfold Normalize. cbv zeta. rewrite !atLeast_max, !atMost_min.
  split; cbn [gids poolCap buildLimit resultValidityMins intervalSec benchIntervalSec watchIntervalSec expected activeSize
              sampling toleranceMs maxRTTms dialRetries balanceIntervalSec balanceMode]; unfold kMaxPoolCap, kMaxBuildLimit; try lia.
  - apply trackedGroups_good. split; [constructor|done].
  - destruct (eqStr (balanceMode s) (u "connection")) eqn:E; [left; by apply eqStr_spec|by right].
Qed.

Lemma wfSelector_Normalize s : wfSelector s -> Normalize s = s.
Proof.
  intros [Hg Hc Hl Hv Hi Hb Hw Hr Hs Ht Hx Hd Hbi Hm]. unfold Normalize. cbv zeta. rewrite !atLeast_max, !atMost_min.
  destruct s; cbn in *. unfold kMaxPoolCap, kMaxBuildLimit in *. f_equal; try lia.
  - by apply (trackedGroups_same _ []).
  - by destruct Hm as [-> | ->].
Qed.

(** C40: Whatever a hand-edited profile holds, Normalize gives settings that fit
    together - every group once, the build within the pool and its caps, the
    ready set within the closely watched one, intervals in order - so that every
    cross-field check of the form passes; it changes nothing exactly when they
    already fit, and reading a profile, storing a pool or recording use keeps
    them fitting. *)
Theorem selector_normal_form {R : QtReal} s :
  wfSelector (Normalize s) /\ (wfSelector s <-> Normalize s = s) /\
  (wfSelector s ->
     AutoSelectorBuildLimit (buildLimit s) (poolCap s) = None /\
     AutoSelectorBenchInterval (benchIntervalSec s) (intervalSec s) = None /\
     AutoSelectorWatchInterval (watchIntervalSec s) (intervalSec s) = None /\
     AutoSelectorReadyCount (activeSize s) (expected s) = None /\
     AutoSelectorCloseCount (activeSize s) (buildLimit s) = None /\
     (forall ids names now id, wfSelector (withPool ids now s) /\ wfSelector (RecordHistory ids names now s) /\
        wfSelector (RecordHistoryFailure id s))) /\
  (forall o s', ParseFromJson o s = Some s' -> wfSelector s').
Proof.
  split; [apply Normalize_wfSelector|]. split; [split; [apply wfSelector_Normalize|intros <-; apply Normalize_wfSelector]|]. split.
  - intros Hs. pose proof Hs as [Hg Hc Hl Hv Hi Hb Hw Hr ? ? ? ? ? ?].
    unfold AutoSelectorBuildLimit, AutoSelectorBenchInterval, AutoSelectorWatchInterval, AutoSelectorReadyCount, AutoSelectorCloseCount.
    rewrite !Z.geb_leb. rewrite !(proj2 (Z.leb_le _ _)) by lia. repeat split_and!; try done.
    intros ids names now id. unfold RecordHistory. destruct (trimOrder _ _) as [byID order].
    by repeat split_and!; destruct s; split.
  - intros o s'. unfold ParseFromJson. destruct (isNil o); [done|]. intros [= <-]. apply Normalize_wfSelector.
Qed.

(** ** The stored form *)

Section Stored.
Context {R : QtReal}.

Definition int32 (n : Z) : Prop := min_i32 <= n <= max_i32.

(** Numbers that a double holds exactly. *)
Definition exactDouble (n : Z) : Prop := 0 <= n < 2 ^ 53.

Lemma toDoubleInt_exact n : exactDouble n -> toDoubleInt (fromDoubleInt n) = n.
Proof.
  intros Hn. unfold toDoubleInt, fromDoubleInt. destruct (truncDouble_small n Hn) as [E _]. by rewrite E, E.
Qed.

Lemma toInt_int32 n d : int32 n -> toInt (JInt n) d = n.
Proof.
  unfold int32, toInt, toIntegerOr. intros [H1 H2]. by rewrite (proj2 (Z.leb_le _ _) H1), (proj2 (Z.leb_le _ _) H2).
Qed.

Lemma ids_stored l : Forall int32 l -> toIds (JArr (QListInt2QJsonArray l)) = l.
Proof.
  intros Hl. unfold toIds, QJsonArray2QListInt, QListInt2QJsonArray. cbn [toArray]. rewrite map_map.
  induction Hl as [|n l Hn _ IH]; [done|]. cbn [map]. by rewrite IH, toInt_int32.
Qed.

(** What a selector's members hold: 32-bit numbers and exact stamps. *)
Record storableSelector (s : autoSelector) : Prop := {
  st_gids : Forall int32 (gids s);
  st_numbers : Forall int32 [poolCap s; buildLimit s; resultValidityMins s; intervalSec s; benchIntervalSec s; watchIntervalSec s;
    activeSize s; sampling s; toleranceMs s; maxRTTms s; expected s; dialRetries s; balanceIntervalSec s; pinnedID s];
  st_pool : Forall int32 (pool s);
  st_built : Forall int32 (lastBuilt s);
  st_stamps : exactDouble (poolRankedAt s) /\ exactDouble (lastBuiltAt s)
}.

(** A stored selector reads back as it was, whatever the object it is read
    into held before. *)
Theorem autoselector_json_roundtrip s s0 : wfSelector s -> storableSelector s ->
  ParseFromJson (ExportToJson s) s0 = Some s.
Proof.
  intros Hs [Hg Hn Hp Hb [Ha Hba]]. unfold ParseFromJson. change (isNil (ExportToJson s)) with false. cbv iota. f_equal.
  transitivity (Normalize s); [f_equal|by apply wfSelector_Normalize].
  repeat match goal with H : Forall int32 (_ :: _) |- _ => apply Forall_cons in H as [? H] end.
  transitivity (mkAutoSelector (asName s) (toIds (JArr (QListInt2QJsonArray (gids s)))) (nameFilter s) (countryFilter s) (excludeUnavailable s)
    (toInt (JInt (poolCap s)) 3000) (toInt (JInt (buildLimit s)) 300) (toInt (JInt (resultValidityMins s)) 60) (testURL s)
    (connectivityURL s) (toInt (JInt (intervalSec s)) 60) (toInt (JInt (benchIntervalSec s)) 600)
    (toInt (JInt (watchIntervalSec s)) 15) (toInt (JInt (activeSize s)) 10) (toInt (JInt (sampling s)) 10)
    (toInt (JInt (toleranceMs s)) 100) (toInt (JInt (maxRTTms s)) 0) (toInt (JInt (expected s)) 3)
    (toInt (JInt (dialRetries s)) 2) (interruptOnSwitch s) (balance s) (balanceMode s) (toInt (JInt (balanceIntervalSec s)) 30)
    (toIds (JArr (QListInt2QJsonArray (pool s)))) (toDoubleInt (fromDoubleInt (poolRankedAt s))) (toInt (JInt (pinnedID s)) (-1))
    (toIds (JArr (QListInt2QJsonArray (lastBuilt s)))) (toDoubleInt (fromDoubleInt (lastBuiltAt s))) (history s)); [reflexivity|].
  rewrite !toInt_int32, !ids_stored, !toDoubleInt_exact by done. by destruct s.
Qed.

(** ** The usage history *)

(** An entry that its JSON object keeps. *)
Definition goodEntry (e : HistoryEntry) : Prop :=
  0 <= hId e <= max_i32 /\ exactDouble (hFirstUsed e) /\ exactDouble (hLastUsed e) /\
  0 <= hBuilds e <= max_i32 /\ int32 (hFailures e).

Lemma nat_int32 n : 0 <= n <= max_i32 -> int32 n.
Proof. unfold int32, min_i32, max_i32. lia. Qed.

Lemma readEntry_write e : goodEntry e -> readEntry (writeEntry e) = e.
Proof.
  intros (Hi & Hf & Hl & Hb & Hx). transitivity (mkHistoryEntry (toInt (JInt (hId e)) (-1)) (toDoubleInt (fromDoubleInt (hFirstUsed e)))
    (toDoubleInt (fromDoubleInt (hLastUsed e))) (toInt (JInt (hBuilds e)) 0) (toInt (JInt (hFailures e)) 0) (hName e)); [reflexivity|].
  rewrite !toInt_int32, !toDoubleInt_exact by first [done|by apply nat_int32]. by destruct e.
Qed.

(** A history as the code writes it: each member once. *)
Definition wfHistory (s : autoSelector) : Prop :=
  exists es, history s = map writeEntry es /\ Forall goodEntry es /\ NoDup (map hId es) /\ (length es <= kMaxHistoryEntries)%nat.

Lemma HistoryEntries_written s es : history s = map writeEntry es -> Forall goodEntry es -> HistoryEntries s = es.
Proof.
  intros Hh He. unfold HistoryEntries. rewrite Hh, map_map. clear Hh. induction He as [|e es Hg _ IH]; [done|].
  cbn [map List.filter]. rewrite readEntry_write by done. destruct Hg as [[H0 _] _]. rewrite Z.geb_leb, (proj2 (Z.leb_le _ _) H0).
  by rewrite IH.
Qed.

(** The members in order of last use. *)
Definition recency (ids old : list Z) : list Z := fold_left (fun o id => id :: removeOne id o) ids old.

Definition timesUsed (id : Z) (ids : list Z) : Z := zlen (List.filter (Z.eqb id) ids).

Definition findEntry (id : Z) (es : list HistoryEntry) : option HistoryEntry := List.find (fun e => hId e =? id) es.

(** What the history says of a member after these uses. *)
Definition entryAfter (es : list HistoryEntry) (names : gmap Z qstr) (now : Z) (ids : list Z) (id : Z) : option HistoryEntry :=
  if memZ id ids then
    let old := default (mkHistoryEntry id now now 0 0 []) (findEntry id es) in
    Some (mkHistoryEntry id (hFirstUsed old) now (hBuilds old + timesUsed id ids) (hFailures old) (default (hName old) (names !! id)))
  else findEntry id es.

Lemma removeOne_elem id x l : NoDup l -> x ∈ removeOne id l <-> x ∈ l /\ x <> id.
Proof.
  intros Hn. induction Hn as [|y l Hy Hn IH]; cbn [removeOne]; [by rewrite elem_of_nil; naive_solver|].
  destruct (y =? id) eqn:E; zbool; rewrite ?elem_of_cons, ?IH.
  - subst. split; [|tauto]. intros Hx. split; [by right|]. by intros ->.
  - split; [intros [->|[? ?]]; tauto|tauto].
Qed.

Lemma removeOne_nodup id l : NoDup l -> NoDup (removeOne id l).
Proof.
  intros Hn. induction Hn as [|y l Hy Hn IH]; cbn [removeOne]; [constructor|]. destruct (y =? id); [done|].
  constructor; [|done]. rewrite removeOne_elem by done. tauto.
Qed.

Lemma removeOne_absent id l : id ∉ l -> removeOne id l = l.
Proof.
  induction l as [|y l IH]; intros Hx; cbn [removeOne]; [done|]. apply not_elem_of_cons in Hx as [H1 H2].
  rewrite (proj2 (Z.eqb_neq y id)) by done. by rewrite IH.
Qed.

Lemma findEntry_id id es e : findEntry id es = Some e -> hId e = id /\ e ∈ es.
Proof. intros H. apply find_some in H as [Hi He]. apply Z.eqb_eq in He. by rewrite list_elem_of_In. Qed.

Lemma findEntry_in id es : id ∈ map hId es <-> is_Some (findEntry id es).
Proof.
  unfold findEntry. induction es as [|e es IH]; cbn [map List.find].
  - rewrite elem_of_nil. split; [done|]. by intros [].
  - rewrite elem_of_cons, IH. destruct (hId e =? id) eqn:E; zbool.
    + split; [by eexists|]. by left.
    + split; [intros [->|?]; [done|done]|]. by right.
Qed.

(** The map of entries at the start. *)
Lemma entries_map es id : NoDup (map hId es) -> forall m : gmap Z HistoryEntry, (forall e, e ∈ es -> m !! hId e = None) ->
  fold_left (fun m e => <[hId e := e]> m) es m !! id = match findEntry id es with Some e => Some e | None => m !! id end.
Proof.
  unfold findEntry. induction es as [|e es IH]; intros Hn m Hm; [done|]. cbn [map] in Hn. apply NoDup_cons in Hn as [He Hn].
  cbn [fold_left List.find]. rewrite IH; [|done|].
  - destruct (List.find (fun e => hId e =? id) es) as [e'|] eqn:Ef.
    + destruct (hId e =? id) eqn:E; [|done]. zbool. destruct He. rewrite findEntry_in, E. by exists e'.
    + destruct (hId e =? id) eqn:E; zbool; [by rewrite E, lookup_insert_eq|by rewrite lookup_insert_ne].
  - intros e' Hin. rewrite lookup_insert_ne; [apply Hm; by right|]. intros E. destruct He. rewrite E.
    apply list_elem_of_fmap. by exists e'.
Qed.

Lemma memZ_app id l k : memZ id (l ++ k) = memZ id l || memZ id k.
Proof. apply existsb_app. Qed.

Lemma timesUsed_app id l k : timesUsed id (l ++ k) = timesUsed id l + timesUsed id k.
Proof. unfold timesUsed. by rewrite List.filter_app, zlen_app. Qed.

Lemma timesUsed_none id l : memZ id l = false -> timesUsed id l = 0.
Proof.
  unfold timesUsed, memZ. induction l as [|x l IH]; [done|]. cbn [existsb List.filter]. intros H.
  apply orb_false_iff in H as [-> H]. by apply IH.
Qed.

Lemma entryAfter_id es names now ids id e : entryAfter es names now ids id = Some e -> hId e = id.
Proof. unfold entryAfter. destruct (memZ id ids); [by intros [= <-]|]. intros H. by apply findEntry_id in H as [? _]. Qed.

(** One more use of a member. *)
Lemma entryAfter_use es names now seen id entry :
  entry = default noEntry (entryAfter es names now seen id) -> 0 <= id ->
  entryAfter es names now (seen ++ [id]) id = Some (usedEntry entry id names now).
Proof.
  intros He Hid. unfold entryAfter at 1. rewrite memZ_app, timesUsed_app. unfold memZ at 2. cbn [existsb]. rewrite Z.eqb_refl, orb_true_r.
  replace (timesUsed id [id]) with 1 by (unfold timesUsed; cbn [List.filter]; by rewrite Z.eqb_refl).
  unfold entryAfter in He. unfold usedEntry. destruct (memZ id seen) eqn:Em.
  - cbn [default from_option Datatypes.id] in He. subst entry. cbn [hId hFirstUsed hBuilds hFailures hName].
    rewrite (proj2 (Z.ltb_ge id 0)) by done. do 2 f_equal; [lia|by destruct (names !! id)].
  - rewrite (timesUsed_none id seen Em). destruct (findEntry id es) as [e|] eqn:Ef; cbn [default from_option Datatypes.id] in *; subst entry.
    + apply findEntry_id in Ef as [<- _]. rewrite (proj2 (Z.ltb_ge (hId e) 0)) by done. done.
    + done.
Qed.

Lemma entryAfter_other es names now seen id id' : id' <> id ->
  entryAfter es names now (seen ++ [id]) id' = entryAfter es names now seen id'.
Proof.
  intros Hne. unfold entryAfter. rewrite memZ_app, timesUsed_app.
  assert (E : memZ id' [id] = false) by (unfold memZ; cbn [existsb]; by rewrite (proj2 (Z.eqb_neq _ _) Hne)).
  by rewrite E, (timesUsed_none _ _ E), orb_false_r, Z.add_0_r.
Qed.

(** The map and the order after the members [seen]. *)
Definition usedState (es : list HistoryEntry) (names : gmap Z qstr) (now : Z) (seen : list Z) (st : gmap Z HistoryEntry * list Z) : Prop :=
  (forall id, fst st !! id = entryAfter es names now seen id) /\ snd st = recency seen (map hId es) /\
  NoDup (snd st) /\ (forall id, id ∈ snd st <-> is_Some (fst st !! id)).

Lemma recordUse_state es names now seen st id : 0 <= id ->
  usedState es names now seen st -> usedState es names now (seen ++ [id]) (recordUse names now st id).
Proof.
  destruct st as [byID order]. intros Hid (Hm & Ho & Hn & Hd). cbn [fst snd recordUse] in *.
  set (entry := default noEntry (byID !! id)).
  assert (Hord : (if hId entry <? 0 then order else removeOne id order) = removeOne id order).
  { destruct (hId entry <? 0) eqn:E; [|done]. zbool. symmetry. apply removeOne_absent. rewrite Hd. intros [e He].
    unfold entry in E. rewrite He in E. cbn in E. rewrite Hm in He. apply entryAfter_id in He. lia. }
  rewrite Hord. repeat split; cbn [fst snd].
  - intros id'. destruct (decide (id' = id)) as [->|Hne].
    + rewrite lookup_insert_eq. symmetry. apply entryAfter_use; [|done]. by rewrite <- Hm.
    + by rewrite lookup_insert_ne, entryAfter_other by done.
  - rewrite Ho. unfold recency. by rewrite fold_left_app.
  - constructor; [|by apply removeOne_nodup]. rewrite removeOne_elem by done. tauto.
  - rewrite elem_of_cons, removeOne_elem, Hd by done. intros Hx. destruct (decide (id0 = id)) as [->|Hne]; [by rewrite lookup_insert_eq|].
    rewrite lookup_insert_ne by done. tauto.
  - rewrite elem_of_cons, removeOne_elem, Hd by done. intros Hx. destruct (decide (id0 = id)) as [->|Hne]; [by left|].
    rewrite lookup_insert_ne in Hx by done. by right.
Qed.

Lemma recordUse_fold es names now ids seen st : Forall (fun id => 0 <= id) ids ->
  usedState es names now seen st -> usedState es names now (seen ++ ids) (fold_left (recordUse names now) ids st).
Proof.
  intros Hi. revert seen st. induction Hi as [|id ids Hid _ IH]; intros seen st Hs; [by rewrite app_nil_r|].
  cbn [fold_left]. change (id :: ids) with ([id] ++ ids). rewrite app_assoc. by apply IH, recordUse_state.
Qed.

Lemma trimOrder_spec n byID order : NoDup order -> (n <= length order)%nat ->
  let st := trimOrder n (byID, order) in
  snd st = take (length order - n) order /\ forall id, id ∈ snd st -> fst st !! id = byID !! id.
Proof.
  revert byID order. induction n as [|n IH]; intros byID order Hn Hl; cbn [trimOrder].
  - cbn [fst snd]. by rewrite Nat.sub_0_r, firstn_all.
  - destruct (last order) as [id|] eqn:E; [|apply last_None in E as ->; cbn in Hl; lia].
    apply last_Some in E as [l ->]. rewrite removelast_last. rewrite length_app in *. cbn [length] in *.
    apply NoDup_app in Hn as (Hn & Hd & _). specialize (IH (delete id byID) l Hn ltac:(lia)). cbv zeta in IH. destruct IH as [Hs Hm].
    split.
    + rewrite Hs. rewrite take_app_le by lia. f_equal. lia.
    + intros id' Hin. rewrite (Hm id' Hin). apply lookup_delete_ne. intros <-. rewrite Hs in Hin.
      apply (Hd id); [|by left]. revert Hin. apply elem_of_take_subset || (intros Hin; apply elem_of_take in Hin as (i & Hi & _); by eapply list_elem_of_lookup_2).
Qed.

Lemma timesUsed_bound id l : 0 <= timesUsed id l <= zlen l.
Proof.
  unfold timesUsed, zlen. induction l as [|x l IH]; [done|]. cbn [List.filter]. destruct (id =? x); cbn [length] in *; lia.
Qed.

Definition usableIds (ids : list Z) : Prop := Forall (fun id => 0 <= id <= max_i32) ids /\ zlen ids <= max_i32.

Lemma entryAfter_good es names now ids id e : Forall goodEntry es -> usableIds ids -> exactDouble now ->
  Forall (fun e => hBuilds e + zlen ids <= max_i32) es -> entryAfter es names now ids id = Some e -> goodEntry e.
Proof.
  intros Hes [Hi Hlen] Hnow Hb. rewrite Forall_forall in Hes. rewrite Forall_forall in Hi. rewrite Forall_forall in Hb. unfold entryAfter. destruct (memZ id ids) eqn:Em.
  - intros [= <-]. apply memZ_spec, Hi in Em. pose proof (timesUsed_bound id ids). pose proof (zlen_nonneg ids).
    destruct (findEntry id es) as [old|] eqn:Ef; cbn [default from_option Datatypes.id];
      unfold goodEntry; cbn [hId hFirstUsed hLastUsed hBuilds hFailures].
    + apply findEntry_id in Ef as [_ Hin]. destruct (Hes _ Hin) as (_ & ? & _ & ? & ?). specialize (Hb _ Hin). cbn in Hb.
      repeat split_and; try done; lia.
    + unfold int32, min_i32, max_i32 in *. repeat split_and; try done; lia.
  - intros Hf. apply findEntry_id in Hf as [_ Hin]. by apply Hes.
Qed.

Definition failedEntry (id : Z) (e : HistoryEntry) : HistoryEntry :=
  if hId e =? id then mkHistoryEntry (hId e) (hFirstUsed e) (hLastUsed e) (hBuilds e) (hFailures e + 1) (hName e) else e.

Lemma countFailure_written id es : Forall goodEntry es -> NoDup (map hId es) ->
  countFailure id (map writeEntry es) = map writeEntry (map (failedEntry id) es).
Proof.
  intros He. induction He as [|e es Hg _ IH]; intros Hn; [done|]. cbn [map] in *. apply NoDup_cons in Hn as [Hin Hn].
  cbn [countFailure]. change (toInt (objValue (toObject (writeEntry e)) (u "id")) (-1)) with (hId (readEntry (writeEntry e))).
  change (toInt (objValue (toObject (writeEntry e)) (u "fails")) 0) with (hFailures (readEntry (writeEntry e))).
  rewrite readEntry_write by done. unfold failedEntry at 1. destruct (hId e =? id) eqn:E; cbn [negb]; [|by rewrite IH].
  zbool. f_equal. rewrite map_map. apply map_ext_in. intros e' He'. unfold failedEntry.
  rewrite (proj2 (Z.eqb_neq (hId e') id)); [done|]. intros E'. apply Hin. rewrite E, <- E'. by apply list_elem_of_In, in_map.
Qed.

(** The order and the entries that are written. *)
Lemma used_order es names now ids : NoDup (map hId es) -> Forall (fun id => 0 <= id) ids ->
  let st := fold_left (recordUse names now) ids (fold_left (fun m e => <[hId e := e]> m) es ∅, map hId es) in
  let st' := trimOrder (length (snd st) - kMaxHistoryEntries) st in
  snd st' = take kMaxHistoryEntries (recency ids (map hId es)) /\ NoDup (snd st') /\
  forall id, id ∈ snd st' -> exists e, fst st' !! id = Some e /\ entryAfter es names now ids id = Some e.
Proof.
  intros Hn Hids. set (st0 := (fold_left _ es ∅, map hId es) : gmap Z HistoryEntry * list Z).
  assert (H0 : usedState es names now [] st0).
  { repeat split; unfold st0; cbn [fst snd]; [|done|..].
    - intros id. rewrite entries_map by done. unfold entryAfter. cbn. by destruct (findEntry id es).
    - intros Hin. rewrite entries_map by done. apply findEntry_in in Hin as [e ->]. by eexists.
    - rewrite entries_map by done. intros Hs. apply findEntry_in. by destruct (findEntry id es); [eexists|destruct Hs]. }
  apply (recordUse_fold es names now ids) in H0; [|done]. cbn [app] in H0. cbv zeta.
  destruct (fold_left (recordUse names now) ids st0) as [byID order]. destruct H0 as (Hm & Ho & Hnd & Hd). cbn [fst snd] in *.
  destruct (trimOrder_spec (length order - kMaxHistoryEntries) byID order Hnd ltac:(lia)) as [Ht Hk].
  destruct (trimOrder _ _) as [byID' order']. cbn [fst snd] in *.
  assert (Htake : order' = take kMaxHistoryEntries order).
  { rewrite Ht. destruct (decide (length order <= kMaxHistoryEntries)%nat); [rewrite !take_ge by lia; done|f_equal; lia]. }
  clear Ht. split; [by rewrite Htake, Ho|]. split; [rewrite Htake; eapply sublist_NoDup; [done|apply sublist_take]|].
  intros id Hin. rewrite (Hk id Hin), <- Hm. destruct (proj1 (Hd id)) as [e He]; [|by exists e].
  rewrite Htake in Hin. apply elem_of_take in Hin as (j & Hj & _). by eapply list_elem_of_lookup_2.
Qed.

Lemma RecordHistory_written s es ids names now : history s = map writeEntry es -> Forall goodEntry es -> NoDup (map hId es) ->
  usableIds ids -> exactDouble now -> Forall (fun e => hBuilds e + zlen ids <= max_i32) es ->
  exists es', history (RecordHistory ids names now s) = map writeEntry es' /\ Forall goodEntry es' /\
    map hId es' = take kMaxHistoryEntries (recency ids (map hId es)) /\ NoDup (map hId es') /\
    forall e, e ∈ es' -> entryAfter es names now ids (hId e) = Some e.
Proof.
  intros Hh Hg Hn Hids Hnow Hb. unfold RecordHistory. rewrite (HistoryEntries_written s es Hh Hg).
  pose proof (used_order es names now ids Hn ltac:(eapply Forall_impl; [apply Hids|cbn; lia])) as Hu. cbv zeta in Hu |- *.
  destruct (trimOrder _ _) as [byID order]. cbn [fst snd] in Hu. destruct Hu as (Ho & Hnd & Hent).
  exists (map (fun id => default noEntry (byID !! id)) order).
  assert (Hat : forall id, id ∈ order -> exists e, default noEntry (byID !! id) = e /\ entryAfter es names now ids id = Some e).
  { intros id Hin. destruct (Hent id Hin) as (e & -> & He). by exists e. }
  assert (Hmap : map hId (map (fun id => default noEntry (byID !! id)) order) = order).
  { rewrite map_map. etrans; [|apply map_id]. apply map_ext_in. intros id Hin%list_elem_of_In.
    destruct (Hat id Hin) as (e & -> & He). by eapply entryAfter_id. }
  rewrite Hmap. repeat split_and!; [cbn; by rewrite map_map| |done|done|].
  - apply Forall_forall. intros e He. apply list_elem_of_fmap in He as (id & -> & Hin). destruct (Hat id Hin) as (e & -> & He).
    by eapply entryAfter_good.
  - intros e He. apply list_elem_of_fmap in He as (id & -> & Hin). destruct (Hat id Hin) as (e & -> & He).
    by rewrite (entryAfter_id _ _ _ _ _ _ He).
Qed.

(** The usage history is an LRU list: recording a build puts its members in
    front, the last built first, keeps every other member in its order behind
    them, and drops the least recently used beyond two thousand; a member's
    first use, failures and name are kept and its builds counted, all other
    entries stay as they were, and what is written is a history again. A noted
    failure counts for that member alone. *)
Theorem RecordHistory_recency s ids names now : wfHistory s -> usableIds ids -> exactDouble now ->
  Forall (fun e => hBuilds e + zlen ids <= max_i32) (HistoryEntries s) ->
  let es := HistoryEntries s in let s' := RecordHistory ids names now s in
  wfHistory s' /\
  map hId (HistoryEntries s') = take kMaxHistoryEntries (recency ids (map hId es)) /\
  (forall e, e ∈ HistoryEntries s' -> entryAfter es names now ids (hId e) = Some e) /\
  (forall id, Forall (fun e => hFailures e < max_i32) es ->
     HistoryEntries (RecordHistoryFailure id s) = map (failedEntry id) es).
Proof.
  intros (es0 & Hh & Hg & Hn & Hlen) Hids Hnow Hb es s'.
  assert (Ees : es = es0) by by apply HistoryEntries_written. fold es in Hb. clearbody es. subst es0.
  destruct (RecordHistory_written s es ids names now Hh Hg Hn Hids Hnow Hb) as (es' & Hs' & Hg' & Ho & Hn' & He).
  fold s' in Hs'. rewrite (HistoryEntries_written s' es' Hs' Hg'). repeat split_and!; [|done|done|].
  - exists es'. repeat split; try done. rewrite <- (length_map hId), Ho, length_take. lia.
  - intros id Hf. apply HistoryEntries_written; [cbn; by rewrite Hh, countFailure_written|].
    apply Forall_forall. intros e Hin. apply list_elem_of_fmap in Hin as (e0 & -> & Hin). rewrite Forall_forall in Hg. rewrite Forall_forall in Hf.
    pose proof (Hg _ Hin) as (? & ? & ? & ? & ? & ?). specialize (Hf _ Hin). unfold failedEntry. destruct (hId e0 =? id); [|by apply Hg].
    unfold goodEntry, int32, exactDouble in *. cbn [hId hFirstUsed hLastUsed hBuilds hFailures]. repeat split_and!; try done; lia.
Qed.

End Stored.

(** ** On concrete selectors *)

#[export] Instance noReal : QtReal := {| realToInt64 := fun _ => 0 |}.

Definition sampleSelector : autoSelector :=
  withHistory (map writeEntry [mkHistoryEntry 4 100 200 2 1 (u "four"); mkHistoryEntry 7 50 90 1 0 (u "seven")])
    (withPool [7; 4] 300 (Normalize newAutoSelector)).

Ltac selector_ranges :=
  repeat first [apply Forall_cons; split | apply Forall_nil | split]; unfold int32, exactDouble, min_i32, max_i32 in *; try (vm_compute; congruence); try done.

Lemma sampleSelector_history : wfHistory sampleSelector.
Proof.
  eexists. split; [reflexivity|]. repeat split_and!; [..|vm_compute; repeat constructor].
  - repeat constructor; vm_compute; congruence.
  - cbn. repeat constructor; set_solver.
Qed.

Lemma autoselector_json_roundtrip_witness : ParseFromJson (ExportToJson sampleSelector) newAutoSelector = Some sampleSelector.
Proof.
  apply (autoselector_json_roundtrip sampleSelector newAutoSelector).
  - exact (Normalize_wfSelector sampleSelector).
  - split; selector_ranges.
Defined.

Lemma RecordHistory_recency_witness :
  map hId (HistoryEntries (RecordHistory [7; 9] ∅ 400 sampleSelector)) = take kMaxHistoryEntries (recency [7; 9] [4; 7]) /\
  recency [7; 9] [4; 7] = [9; 7; 4].
Proof.
  split; [|reflexivity]. apply (RecordHistory_recency sampleSelector [7; 9] ∅ 400 sampleSelector_history).
  - split; [repeat constructor; vm_compute; congruence|vm_compute; congruence].
  - vm_compute. split; congruence.
  - repeat constructor; vm_compute; congruence.
Defined.
