(* ===== verification/AutoSelectorPlan.v ===== *)
(** Which profiles an auto selector runs: src/src/configs/AutoSelectorPlan.cpp.

    [Db] is what the repositories answer at the time; a function that changes the
    selector it is given returns the changed profile.  Each call of
    currentSecsSinceEpoch is an argument of its own.  Regular expressions and
    upper case are Qt's. *)
From stdpp Require Import base list gmap strings.
From Stdlib Require Import ZArith Lia Bool.
From S2P Require Import Prelude Json AutoSelector StableSort.

(** QRegularExpression(pattern, CaseInsensitiveOption): [None] when it is not
    valid, else whether a text has a match. *)
Class QtRegex := { matcherCI : qstr -> option (qstr -> bool) }.

(** ** Profiles and groups *)

(** The classes of outbounds the plan tells apart. *)
Inductive OutboundClass :=
| ClsAutoSelector (s : autoSelector)
| ClsCustom (type config : qstr)
| ClsXrayVless
| ClsExtraCore
| ClsOther.

Record Outbound := mkOutbound { obDisplayName : qstr; obClass : OutboundClass }.

Record Profile := mkProfile {
  prId : Z;
  prType : qstr;
  prLatency : Z;
  prLatencyAt : Z;
  prTestCountry : qstr;
  prOutbound : option Outbound
}.

Record Group := mkGroup { grLandingProxyId : Z; grFrontProxyId : Z; grProfiles : list Z }.

Record Db := mkDb { dbProfiles : gmap Z Profile; dbGroups : gmap Z Group }.

Definition GetProfile (db : Db) (id : Z) : option Profile := dbProfiles db !! id.
Definition GetGroup (db : Db) (gid : Z) : option Group := dbGroups db !! gid.

Definition kCustomOutbound := u "outbound".
Definition kCustomXrayOutbound := u "xrayoutbound".
Definition kCustomXrayFullConfig := u "xrayfullconfig".

Definition IsXray (o : Outbound) : bool :=
  match obClass o with ClsXrayVless => true | ClsCustom type _ => eqStr type kCustomXrayOutbound | _ => false end.
Definition IsExtraCore (o : Outbound) : bool := match obClass o with ClsExtraCore => true | _ => false end.
Definition IsXrayFullConfig (o : Outbound) : bool :=
  match obClass o with ClsCustom type _ => eqStr type kCustomXrayFullConfig | _ => false end.

(** The selector of a profile, when it is one. *)
Definition AutoSelectorOf (ent : Profile) : option autoSelector :=
  match prOutbound ent with
  | Some o => match obClass o with ClsAutoSelector s => Some s | _ => None end
  | None => None
  end.

Definition setSelector (s : autoSelector) (ent : Profile) : Profile :=
  mkProfile (prId ent) (prType ent) (prLatency ent) (prLatencyAt ent) (prTestCountry ent)
    (option_map (fun o => mkOutbound (obDisplayName o) (ClsAutoSelector s)) (prOutbound ent)).

(** ** Why a member is left out *)

Inductive AutoSelectorSkip :=
| SkipNone | Missing | MetaType | CoreTransitions | ExtraCore | FullConfig | Malformed | Tailscale | ManagementEndpoint
| NameFilter | CountryFilter | Unavailable | XrayFullChained.

#[export] Instance AutoSelectorSkip_eq_dec : EqDecision AutoSelectorSkip.
Proof. solve_decision. Defined.

Definition skipCode (s : AutoSelectorSkip) : Z :=
  match s with
  | SkipNone => 0 | Missing => 1 | MetaType => 2 | CoreTransitions => 3 | ExtraCore => 4 | FullConfig => 5 | Malformed => 6
  | Tailscale => 7 | ManagementEndpoint => 8 | NameFilter => 9 | CountryFilter => 10 | Unavailable => 11 | XrayFullChained => 12
  end.

Definition AutoSelectorSkipReason (skip : AutoSelectorSkip) : option Message :=
  match skip with
  | SkipNone => None
  | Missing => Some (tr0 "missing profile")
  | MetaType => Some (tr0 "chain or auto selector")
  | CoreTransitions => Some (tr0 "needs too many core switches")
  | ExtraCore => Some (tr0 "extra-core profile")
  | FullConfig => Some (tr0 "full config profile")
  | Malformed => Some (tr0 "config does not parse")
  | Tailscale => Some (tr0 "Tailscale profile")
  | ManagementEndpoint => Some (tr0 "OpenVPN or OpenConnect profile")
  | NameFilter => Some (tr0 "filtered out by name")
  | CountryFilter => Some (tr0 "filtered out by country")
  | Unavailable => Some (tr0 "last test failed")
  | XrayFullChained => Some (tr0 "Xray full config cannot be combined with the group's proxies")
  end.

(** QMap<AutoSelectorSkip, int>: skips[skip] += n. *)
Fixpoint addSkips (skip : AutoSelectorSkip) (n : Z) (skips : list (AutoSelectorSkip * Z)) : list (AutoSelectorSkip * Z) :=
  match skips with
  | [] => [(skip, n)]
  | (s, m) :: skips' =>
      if skipCode skip =? skipCode s then (s, m + n) :: skips'
      else if skipCode skip <? skipCode s then (skip, n) :: skips
      else (s, m) :: addSkips skip n skips'
  end.

Record AutoSelectorPlan := mkPlan {
  plPool : list Z;
  plBuild : list Z;
  plMembersInGroups : Z;
  plMissingGroups : Z;
  plEligible : Z;
  plRankedByTest : Z;
  plKeptUnavailable : Z;
  plSkipped : list (AutoSelectorSkip * Z);
  plTruncated : bool;
  plPoolCapUsed : Z;
  plBuildLimitUsed : Z;
  plNeedsRanking : bool;
  plError : qstr
}.

Definition skippedCount (plan : AutoSelectorPlan) : Z := fold_left (fun total entry => total + snd entry) (plSkipped plan) 0.

Section Plan.
Context {Q : QtChar} {Up : QtUpper} {Rx : QtRegex} {U : Utf8} {J : JsonText}.

(** ** Eligibility *)

Record MemberFilters := mkFilters {
  fName : option (qstr -> bool);
  fCountries : gset qstr;
  fExcludedCountries : gset qstr
}.

Fixpoint countryFilters (items : list qstr) (f : MemberFilters) : MemberFilters :=
  match items with
  | [] => f
  | item :: items' =>
      let code := trimmed item in
      let exclude := startsWithChar 33 code in
      let code := if exclude then trimmed (drop 1 code) else code in
      countryFilters items'
        (if isNil code then f
         else if exclude then mkFilters (fName f) (fCountries f) ({[toUpper code]} ∪ fExcludedCountries f)
         else mkFilters (fName f) ({[toUpper code]} ∪ fCountries f) (fExcludedCountries f))
  end.

Definition buildFilters (selector : autoSelector) : MemberFilters :=
  countryFilters (List.filter (fun part => negb (isNil part)) (splitOn cComma (countryFilter selector)))
    (mkFilters (if negb (isNil (trimmed (nameFilter selector))) then matcherCI (nameFilter selector) else None) ∅ ∅).

Definition hasFreshResult (member : option Profile) (selector : autoSelector) (now : Z) : bool :=
  match member with
  | None => false
  | Some member =>
      if prLatency member =? 0 then false
      else if resultValidityMins selector <=? 0 then false
      else if prLatencyAt member <=? 0 then false
      else now - prLatencyAt member <=? resultValidityMins selector * 60
  end.

(** QString2QJsonObject(config).isEmpty() *)
Definition malformed (config : qstr) : bool :=
  isNil (match fromJsonText (toUtf8 config) with Some j => toObject j | None => [] end).

Definition eligibilityOf (member : option Profile) (selector : autoSelector) (filters : MemberFilters) (now : Z) : AutoSelectorSkip :=
  match member with
  | None => Missing
  | Some m =>
      match prOutbound m with
      | None => Missing
      | Some outbound =>
          if eqStr (prType m) (u "chain") || eqStr (prType m) (u "autoselector") then MetaType
          else if eqStr (prType m) (u "tailscale") then Tailscale
          else if eqStr (prType m) (u "openvpn") || eqStr (prType m) (u "openconnect") then ManagementEndpoint
          else if IsExtraCore outbound then ExtraCore
          else
            let custom :=
              if eqStr (prType m) (u "custom") then
                match obClass outbound with
                | ClsCustom type config =>
                    if negb (eqStr type kCustomOutbound) && negb (eqStr type kCustomXrayOutbound) && negb (eqStr type kCustomXrayFullConfig)
                    then FullConfig
                    else if malformed config then Malformed else SkipNone
                | _ => Missing
                end
              else SkipNone in
            match custom with
            | SkipNone =>
                if match fName filters with Some hasMatch => negb (hasMatch (obDisplayName outbound)) | None => false end
                then NameFilter
                else
                  let country := toUpper (trimmed (prTestCountry m)) in
                  if (bool_decide (fCountries filters ≠ ∅) || bool_decide (fExcludedCountries filters ≠ ∅)) &&
                     (isNil country || bool_decide (country ∈ fExcludedCountries filters) ||
                      (bool_decide (fCountries filters ≠ ∅) && negb (bool_decide (country ∈ fCountries filters))))
                  then CountryFilter
                  else if excludeUnavailable selector && (prLatency m <? 0) && hasFreshResult member selector now then Unavailable
                  else SkipNone
            | skip => skip
            end
      end
  end.

(** The outbound of a hop that has one. *)
Definition hopOutbound (hop : option Profile) : option Outbound := match hop with Some p => prOutbound p | None => None end.

Fixpoint hopTransitions (hops : list (option Profile)) (inXray : bool) : Z :=
  match hops with
  | [] => 0
  | hop :: hops' =>
      match hopOutbound hop with
      | None => hopTransitions hops' inXray
      | Some o => (if xorb (IsXray o) inXray then 1 else 0) + hopTransitions hops' (IsXray o)
      end
  end.

Definition coreTransitions (landing member front : option Profile) : Z := hopTransitions [landing; member; front] false.

Definition xrayFullConfigFitsChain (landing front : option Profile) : bool :=
  match front with
  | Some _ => false
  | None =>
      match hopOutbound landing with
      | None => true
      | Some o => negb (IsXray o) && negb (IsXrayFullConfig o) && negb (IsExtraCore o)
      end
  end.

(** ** Order by latency *)

Definition latencyRank (latency : Z) : Z := if latency >? 0 then 0 else if latency =? 0 then 1 else 2.

Definition effectiveLatency (member : option Profile) (selector : autoSelector) (now : Z) : Z :=
  if hasFreshResult member selector now then match member with Some m => prLatency m | None => 0 end else 0.

Definition effectiveLatencyOf (db : Db) (id : Z) (selector : autoSelector) (now : Z) : Z :=
  effectiveLatency (GetProfile db id) selector now.

Definition byLatency (leftLatency rightLatency : Z) : bool :=
  let leftRank := latencyRank leftLatency in
  let rightRank := latencyRank rightLatency in
  if negb (leftRank =? rightRank) then leftRank <? rightRank
  else if leftRank =? 0 then leftLatency <? rightLatency
  else false.

(** The latencies, read once. *)
Definition latencyTable (db : Db) (ids : list Z) (selector : autoSelector) (now : Z) (untrusted : gset Z) : gmap Z Z :=
  fold_left (fun latency id =>
    <[id := if bool_decide (id ∈ untrusted) then 0 else effectiveLatencyOf db id selector now]> latency) ids ∅.

Definition sortByLatency (db : Db) (ids : list Z) (selector : autoSelector) (now : Z) (untrusted : gset Z) : list Z :=
  let latency := latencyTable db ids selector now untrusted in
  stableSort (fun left right => byLatency (default 0 (latency !! left)) (default 0 (latency !! right))) ids.

(** ** Members *)

(** What the loops over groups and members collect. *)
Record Gathered := mkGathered {
  gaMembers : list Z;
  gaUnavailable : list Z;
  gaSeen : gset Z;
  gaSkips : list (AutoSelectorSkip * Z);
  gaCount : Z;
  gaRanked : Z
}.

Definition skipMember (skip : AutoSelectorSkip) (g : Gathered) : Gathered :=
  mkGathered (gaMembers g) (gaUnavailable g) (gaSeen g) (addSkips skip 1 (gaSkips g)) (gaCount g) (gaRanked g).

Definition gatherMember (db : Db) (entId : Z) (selector : autoSelector) (filters : MemberFilters) (now : Z)
    (landing front : option Profile) (g : Gathered) (id : Z) : Gathered :=
  if (id =? entId) || bool_decide (id ∈ gaSeen g) then g
  else
    let member := GetProfile db id in
    let g := mkGathered (gaMembers g) (gaUnavailable g) ({[id]} ∪ gaSeen g) (gaSkips g) (gaCount g + 1) (gaRanked g) in
    let skip := eligibilityOf member selector filters now in
    match skip, hopOutbound member with
    | (SkipNone | Unavailable), Some outbound =>
        if IsXrayFullConfig outbound && negb (xrayFullConfigFitsChain landing front) then skipMember XrayFullChained g
        else if negb (IsXrayFullConfig outbound) && (2 <? coreTransitions landing member front) then skipMember CoreTransitions g
        else match skip with
             | Unavailable => mkGathered (gaMembers g) (gaUnavailable g ++ [id]) (gaSeen g) (gaSkips g) (gaCount g) (gaRanked g)
             | _ => mkGathered (gaMembers g ++ [id]) (gaUnavailable g) (gaSeen g) (gaSkips g) (gaCount g)
                      (if effectiveLatency member selector now >? 0 then gaRanked g + 1 else gaRanked g)
             end
    | _, _ => skipMember skip g
    end.

Definition proxyOf (db : Db) (id : Z) : option Profile := if id >=? 0 then GetProfile db id else None.

Definition gatherGroup (db : Db) (entId : Z) (selector : autoSelector) (filters : MemberFilters) (now : Z) (g : Gathered) (group : Group) : Gathered :=
  let landing := proxyOf db (grLandingProxyId group) in
  let front := proxyOf db (grFrontProxyId group) in
  fold_left (gatherMember db entId selector filters now landing front) (grProfiles group) g.

(** The groups that exist, and how many do not. *)
Fixpoint existingGroups (db : Db) (l : list Z) : list Group * Z :=
  match l with
  | [] => ([], 0)
  | gid :: l' =>
      let '(groups, missing) := existingGroups db l' in
      match GetGroup db gid with Some group => (group :: groups, missing) | None => (groups, missing + 1) end
  end.

(** The members returned and what is written to the plan. *)
Record Eligible := mkEligible {
  elMembers : list Z;
  elError : qstr;
  elMissingGroups : Z;
  elMembersInGroups : Z;
  elRankedByTest : Z;
  elKeptUnavailable : Z;
  elSkipped : list (AutoSelectorSkip * Z)
}.

Definition eligibleMembers (db : Db) (ent : Profile) (selector : autoSelector) (now : Z) : Eligible :=
  if isNil (gids selector) then mkEligible [] (u "Auto selector tracks no group") 0 0 0 0 []
  else
    let '(groups, missing) := existingGroups db (gids selector) in
    if isNil groups then mkEligible [] (u "Auto selector points at a group that no longer exists") missing 0 0 0 []
    else
      let filters := buildFilters selector in
      let g := fold_left (gatherGroup db (prId ent) selector filters now) groups (mkGathered [] [] ∅ [] 0 0) in
      if isNil (gaMembers g) && negb (isNil (gaUnavailable g)) then
        mkEligible (gaUnavailable g) [] missing (gaCount g) (gaRanked g) (zlen (gaUnavailable g)) (gaSkips g)
      else
        let skips := if negb (isNil (gaUnavailable g)) then addSkips Unavailable (zlen (gaUnavailable g)) (gaSkips g) else gaSkips g in
        mkEligible (gaMembers g) [] missing (gaCount g) (gaRanked g) 0 skips.

(** The persisted members that are eligible, each once, in their order. *)
Fixpoint keepPlaced (eligible : gset Z) (l : list Z) (placed : gset Z) : list Z :=
  match l with
  | [] => []
  | id :: l' =>
      if negb (bool_decide (id ∈ eligible)) || bool_decide (id ∈ placed) then keepPlaced eligible l' placed
      else id :: keepPlaced eligible l' ({[id]} ∪ placed)
  end.

Definition orderMembers (db : Db) (members persistedPool : list Z) (selector : autoSelector) (now : Z) : list Z :=
  let ordered := keepPlaced (list_to_set members) persistedPool ∅ in
  let newcomers := List.filter (fun id => negb (bool_decide (id ∈ (list_to_set ordered : gset Z)))) members in
  ordered ++ sortByLatency db newcomers selector now ∅.

(** QList::mid(0, n). *)
Definition midFirst (n : Z) (l : list Z) : list Z := if n <? 0 then l else take (Z.to_nat n) l.

(** ** The plan *)

Definition failedPlan (error : qstr) : AutoSelectorPlan := mkPlan [] [] 0 0 0 0 0 [] false 0 0 false error.

(** The plan, and the profile with its selector normalised; [now] and [later]
    are the two readings of the clock. *)
Definition PlanAutoSelector (db : Db) (now later : Z) (ent : option Profile) : AutoSelectorPlan * option Profile :=
  match ent with
  | None => (failedPlan (u "Null profile passed to PlanAutoSelector"), None)
  | Some e =>
      match AutoSelectorOf e with
      | None => (failedPlan (u "Profile is not an auto selector, data is corrupted"), ent)
      | Some s =>
          let selector := Normalize s in
          let ent' := Some (setSelector selector e) in
          let el := eligibleMembers db e selector now in
          let members := elMembers el in
          let stopped error eligible :=
            mkPlan [] [] (elMembersInGroups el) (elMissingGroups el) eligible (elRankedByTest el) (elKeptUnavailable el) (elSkipped el)
              false (poolCap selector) (buildLimit selector) false error in
          if negb (isNil (elError el)) then (stopped (elError el) 0, ent')
          else if isNil members then (stopped (u "Auto selector has no usable members") 0, ent')
          else
            let ordered := orderMembers db members (pool selector) selector later in
            let truncated := poolCap selector <? zlen ordered in
            let ordered := if truncated then midFirst (poolCap selector) ordered else ordered in
            let build := midFirst (Z.min (zlen ordered) (buildLimit selector)) ordered in
            let unranked := List.filter (fun id => effectiveLatencyOf db id selector later =? 0) build in
            (mkPlan ordered build (elMembersInGroups el) (elMissingGroups el) (zlen members) (elRankedByTest el)
               (elKeptUnavailable el) (elSkipped el) truncated (poolCap selector) (buildLimit selector)
               ((buildLimit selector <? zlen ordered) && (0 <? zlen unranked)) [], ent')
      end
  end.

Definition AutoSelectorRankingCandidates (db : Db) (now : Z) (ent : option Profile) : list Z * option Profile :=
  match ent with
  | None => ([], None)
  | Some e =>
      match AutoSelectorOf e with
      | None => ([], ent)
      | Some s => (elMembers (eligibleMembers db e (Normalize s) now), Some (setSelector (Normalize s) e))
      end
  end.

(** The members to measure, and how many of the others work. *)
Fixpoint unmeasured (db : Db) (selector : autoSelector) (now : Z) (stale : gset Z) (candidates : list Z) : list Z * Z :=
  match candidates with
  | [] => ([], 0)
  | id :: candidates' =>
      let '(needed, working) := unmeasured db selector now stale candidates' in
      if bool_decide (id ∈ stale) then (id :: needed, working)
      else
        let latency := effectiveLatencyOf db id selector now in
        if latency =? 0 then (id :: needed, working)
        else if latency >? 0 then (needed, working + 1)
        else (needed, working)
  end.

Definition AutoSelectorUnmeasuredCandidates (db : Db) (now later : Z) (ent : option Profile) (stale : list Z) : (list Z * Z) * option Profile :=
  match ent with
  | None => (([], 0), None)
  | Some e =>
      match AutoSelectorOf e with
      | None => (([], 0), ent)
      | Some s =>
          let '(candidates, ent') := AutoSelectorRankingCandidates db now ent in
          (unmeasured db (Normalize s) later (list_to_set stale) candidates, ent')
      end
  end.

Definition AutoSelectorMemberWorks (ent member : option Profile) (now : Z) : bool :=
  match ent with
  | None => false
  | Some e => match AutoSelectorOf e with Some s => effectiveLatency member s now >? 0 | None => false end
  end.

Definition AutoSelectorStartQuorum (ent : option Profile) : Z * option Profile :=
  match ent with
  | None => (0, None)
  | Some e =>
      match AutoSelectorOf e with
      | None => (0, ent)
      | Some s =>
          let selector := Normalize s in
          (Z.min (Z.max (expected selector) (activeSize selector)) (buildLimit selector), Some (setSelector selector e))
      end
  end.

Definition AutoSelectorBuildChanged (db : Db) (now later last : Z) (ent : option Profile) : bool * option Profile :=
  match ent with
  | None => (false, None)
  | Some e =>
      match AutoSelectorOf e with
      | None => (false, ent)
      | Some s =>
          let '(plan, ent') := PlanAutoSelector db now later ent in
          let selector := Normalize s in
          if negb (isNil (plError plan)) then (false, ent')
          else
            let next : gset Z := list_to_set (plBuild plan) in
            let built : gset Z := list_to_set (lastBuilt selector) in
            (existsb (fun id => negb (bool_decide (id ∈ next))) (elements built) ||
             existsb (fun id => negb (bool_decide (id ∈ built)) && (effectiveLatencyOf db id selector last >? 0)) (elements next),
             ent')
      end
  end.

(** The new pool, and the profile that is saved with it. *)
Definition RerankAutoSelectorPool (db : Db) (now later stamp : Z) (ent : option Profile) (untrusted : list Z) : list Z * option Profile :=
  match ent with
  | None => ([], None)
  | Some e =>
      match AutoSelectorOf e with
      | None => ([], ent)
      | Some s =>
          let members := sortByLatency db (elMembers (eligibleMembers db e s now)) s later (list_to_set untrusted) in
          let members := if poolCap s <? zlen members then midFirst (poolCap s) members else members in
          (members, Some (setSelector (withPool members stamp s) e))
      end
  end.

End Plan.
