(* ===== verification/AutoSelectorRanking.v ===== *)
(** The ranking of an auto selector's members: stable sorting, the order by
    latency, and the one order that keeps the persisted pool in front. *)
From stdpp Require Import base list gmap strings sorting.
From Stdlib Require Import ZArith Lia Bool.
From S2P Require Import Prelude Json AutoSelector AutoSelectorFacts StableSort AutoSelectorPlan.

(** ** The order by latency *)

(** A measured latency is better than none and a smaller one than a larger; no
    result is better than a failed test. *)
Definition better (a b : Z) : Prop := (0 < a /\ (b <= 0 \/ a < b)) \/ (a = 0 /\ b < 0).

(** Better latency first, ties in the order of the list. *)
Definition faster (latency : Z -> Z) (l : list Z) (i j : Z) : Prop :=
  better (latency i) (latency j) \/ (~ better (latency i) (latency j) /\ ~ better (latency j) (latency i) /\ before l i j).

Lemma byLatency_better a b : byLatency a b = true <-> better a b.
Proof.
  unfold byLatency, better, latencyRank. cbv zeta.
  destruct (a >? 0) eqn:Ea; rewrite Z.gtb_ltb in Ea; zbool; [|destruct (a =? 0) eqn:Ea0; zbool];
    (destruct (b >? 0) eqn:Eb; rewrite Z.gtb_ltb in Eb; zbool; [|destruct (b =? 0) eqn:Eb0; zbool]);
    cbn [negb Z.eqb Z.ltb Z.compare Pos.compare Pos.compare_cont Pos.eqb]; rewrite ?Z.ltb_lt; split; try done; try lia.
Qed.

Lemma byLatency_worse a b : byLatency a b = false <-> ~ better a b.
Proof. rewrite <- byLatency_better. destruct (byLatency a b); split; congruence. Qed.

Lemma byLatency_negtrans a b c : byLatency a c = true -> byLatency a b = true \/ byLatency b c = true.
Proof. rewrite !byLatency_better. unfold better. lia. Qed.

Lemma byLatency_asym a b : byLatency a b = true -> byLatency b a = false.
Proof. rewrite byLatency_better, byLatency_worse. unfold better. lia. Qed.

#[local] Instance byLatency_weak (latency : Z -> Z) : WeakOrder (fun i j => byLatency (latency i) (latency j)).
Proof. split; [intros i j; apply byLatency_asym|intros i j k; apply byLatency_negtrans]. Qed.

Lemma stableSort_faster latency l : NoDup l ->
  StronglySorted (faster latency l) (stableSort (fun i j => byLatency (latency i) (latency j)) l).
Proof.
  intros Hn. eapply StronglySorted_weaken; [|by apply stableSort_sorted; [apply _|]]. intros i j _ _ [H|[H Hb]]; [left; by apply byLatency_better|].
  destruct (byLatency (latency i) (latency j)) eqn:E; [left; by apply byLatency_better|]. right. repeat split; [by apply byLatency_worse|by apply byLatency_worse|done].
Qed.

(** ** The ranking *)

(** Persisted members first, in their order; then the others by latency. *)
Definition precedes (persisted : list Z) (latency : Z -> Z) (members : list Z) (i j : Z) : Prop :=
  before persisted i j \/ ((i ∉ persisted) /\ (j ∉ persisted) /\ faster latency members i j).

Definition ranking (persisted : list Z) (latency : Z -> Z) (members ordered : list Z) : Prop :=
  ordered ≡ₚ members /\ StronglySorted (precedes persisted latency members) ordered.

Lemma before_in (l : list Z) i j : before l i j -> i ∈ l.
Proof. intros (a & b & -> & Hi & _). apply elem_of_app. by left. Qed.

Lemma faster_asym latency l i j : faster latency l i j -> faster latency l j i -> False.
Proof.
  intros [H|(H & H0 & Hb)] [H'|(H' & H0' & Hb')]; [unfold better in *; lia|done..|]. by eapply before_asym.
Qed.

(** There is one ranking at most. *)
Lemma ranking_unique persisted latency members l l' :
  ranking persisted latency members l -> ranking persisted latency members l' -> l = l'.
Proof.
  intros [Hp Hs] [Hp' Hs']. eapply StronglySorted_unique_strong; [|exact Hs|exact Hs'|by rewrite Hp, Hp'].
  intros i j _ _ [H|(H1 & H2 & H)] [H'|(H1' & H2' & H')]; exfalso.
  - by eapply before_asym.
  - by apply before_in in H.
  - by apply before_in in H'.
  - by eapply faster_asym.
Qed.

Lemma keepPlaced_elem eligible l placed x : x ∈ keepPlaced eligible l placed <-> x ∈ l /\ x ∈ eligible /\ x ∉ placed.
Proof.
  revert placed. induction l as [|y l IH]; intros placed; cbn [keepPlaced]; [rewrite elem_of_nil; tauto|].
  destruct (bool_decide (y ∈ eligible)) eqn:E1, (bool_decide (y ∈ placed)) eqn:E2; cbn [negb orb];
    rewrite ?bool_decide_eq_true, ?bool_decide_eq_false in *; rewrite ?elem_of_cons, IH; [..|set_solver].
  1,3: split; [intros (? & ? & ?); tauto|intros [[->|?] [? ?]]; [done|tauto]].
  rewrite not_elem_of_union, not_elem_of_singleton. split; [intros [->|?]; tauto|].
  intros [[->|?] [? ?]]; [by left|]. destruct (decide (x = y)) as [->|]; [by left|by right].
Qed.

Lemma keepPlaced_sorted eligible l placed :
  NoDup (keepPlaced eligible l placed) /\ StronglySorted (before l) (keepPlaced eligible l placed).
Proof.
  revert placed. induction l as [|y l IH]; intros placed; cbn [keepPlaced]; [split; constructor|].
  assert (Hw : forall k, StronglySorted (before l) k -> y ∉ k -> StronglySorted (before (y :: l)) k).
  { intros k Hk Hy. eapply StronglySorted_weaken; [|exact Hk]. intros i j Hi Hj Hb. apply before_cons; [congruence|by right]. }
  destruct (_ || _) eqn:E.
  - destruct (IH placed) as [Hn Hs]. split; [done|]. apply Hw; [done|]. rewrite keepPlaced_elem.
    apply orb_true_iff in E as [E|E]; [apply negb_true_iff, bool_decide_eq_false in E|apply bool_decide_eq_true in E]; tauto.
  - destruct (IH ({[y]} ∪ placed)) as [Hn Hs].
    assert (Hy : y ∉ keepPlaced eligible l ({[y]} ∪ placed)) by (rewrite keepPlaced_elem; set_solver).
    split; [by constructor|]. constructor; [by apply Hw|]. apply Forall_forall. intros z Hz. apply before_cons; [by intros ->|by left].
Qed.

Lemma keepPlaced_all eligible l placed : NoDup l -> (forall x, x ∈ l -> x ∈ eligible /\ x ∉ placed) -> keepPlaced eligible l placed = l.
Proof.
  intros Hn. revert placed. induction Hn as [|y l Hy Hn IH]; intros placed H; cbn [keepPlaced]; [done|].
  destruct (H y ltac:(by left)) as [H1 H2]. rewrite (bool_decide_eq_true_2 (y ∈ eligible)), (bool_decide_eq_false_2 (y ∈ placed)) by done.
  cbn [negb orb]. rewrite IH; [done|]. intros x Hx. destruct (H x ltac:(by right)). split; [done|]. set_solver.
Qed.

Lemma before_filter f (l : list Z) i j : f j = true -> before (List.filter f l) i j -> before l i j.
Proof.
  intros Hj. induction l as [|x l IH]; [intros (a & b & E & Hi & _); symmetry in E; apply app_nil in E as [-> _]; by apply elem_of_nil in Hi|].
  cbn [List.filter]. intros Hb. destruct (f x) eqn:Ex.
  - destruct Hb as (a & b & E & Hi & Hn). destruct a as [|y a]; [by apply elem_of_nil in Hi|]. injection E as <- E.
    apply not_elem_of_cons in Hn as [Hjx Hn]. apply before_cons; [done|]. apply elem_of_cons in Hi as [->|Hi]; [by left|right].
    apply IH. by exists a, b.
  - apply before_cons; [by intros ->; rewrite Hj in Ex|right; by apply IH].
Qed.

Section Order.
Context (db : Db) (selector : autoSelector) (now : Z).

Definition latencyOf (untrusted : gset Z) (id : Z) : Z :=
  if bool_decide (id ∈ untrusted) then 0 else effectiveLatencyOf db id selector now.

Lemma latencyTable_lookup ids untrusted id : id ∈ ids -> latencyTable db ids selector now untrusted !! id = Some (latencyOf untrusted id).
Proof.
  unfold latencyTable. enough (H : forall m : gmap Z Z, fold_left (fun latency id => <[id := latencyOf untrusted id]> latency) ids m !! id =
    if bool_decide (id ∈ ids) then Some (latencyOf untrusted id) else m !! id).
  { intros Hin. etrans; [apply H|]. by rewrite bool_decide_eq_true_2. }
  induction ids as [|x ids IH]; intros m; cbn [fold_left]; [done|]. rewrite IH.
  destruct (decide (id ∈ ids)) as [Hin|Hin].
  - rewrite !bool_decide_eq_true_2; [done|by right|done].
  - rewrite (bool_decide_eq_false_2 (id ∈ ids)) by done. destruct (decide (id = x)) as [->|Hne].
    + rewrite lookup_insert_eq, bool_decide_eq_true_2; [done|by left].
    + rewrite lookup_insert_ne, bool_decide_eq_false_2; [done| |done]. by apply not_elem_of_cons.
Qed.

Lemma sortByLatency_stable ids untrusted :
  sortByLatency db ids selector now untrusted = stableSort (fun i j => byLatency (latencyOf untrusted i) (latencyOf untrusted j)) ids.
Proof. unfold sortByLatency. cbv zeta. apply stableSort_ext. intros x y Hx Hy. by rewrite !latencyTable_lookup. Qed.

Lemma orderMembers_ranking members persisted : NoDup members ->
  ranking persisted (latencyOf ∅) members (orderMembers db members persisted selector now).
Proof.
  intros Hn. unfold orderMembers. cbv zeta. set (kept := keepPlaced _ persisted ∅).
  destruct (keepPlaced_sorted (list_to_set members) persisted ∅) as [Hnk Hsk]. fold kept in Hnk, Hsk.
  assert (Hk : forall x, x ∈ kept <-> x ∈ persisted /\ x ∈ members) by (intros x; unfold kept; rewrite keepPlaced_elem; set_solver).
  set (isNew := fun id => negb (bool_decide (id ∈ (list_to_set kept : gset Z)))).
  assert (Hnew : forall x, x ∈ List.filter isNew members <-> x ∈ members /\ x ∉ persisted).
  { intros x. rewrite list_elem_of_In, filter_In, <- list_elem_of_In. unfold isNew. rewrite negb_true_iff, bool_decide_eq_false, elem_of_list_to_set.
    specialize (Hk x). tauto. }
  rewrite sortByLatency_stable. set (sorted := stableSort _ (List.filter isNew members)).
  assert (Hp : sorted ≡ₚ List.filter isNew members) by apply stableSort_perm.
  assert (Hnn : NoDup (List.filter isNew members)) by (apply NoDup_ListNoDup, List.NoDup_filter, NoDup_ListNoDup; done).
  pose proof (stableSort_faster (latencyOf ∅) _ Hnn) as Hss. fold sorted in Hss. clearbody sorted kept. split.
  - apply NoDup_Permutation; [|done|].
    + apply NoDup_app. rewrite Hp. repeat split; try done. intros x Hx. rewrite Hp, Hnew. apply Hk in Hx. tauto.
    + intros x. rewrite elem_of_app, Hp, Hnew, Hk. destruct (decide (x ∈ persisted)); tauto.
  - apply StronglySorted_app_2.
    + intros x y Hx Hy. rewrite Hp in Hy. apply Hnew in Hy as [_ Hy]. apply Hk in Hx as [Hx _]. left. exists persisted, [].
      by rewrite app_nil_r.
    + eapply StronglySorted_weaken; [|exact Hsk]. intros x y _ _ H. by left.
    + eapply StronglySorted_weaken; [|exact Hss]. intros x y Hx Hy H. rewrite Hp in Hx, Hy. apply Hnew in Hx as [? ?].
      pose proof Hy as Hy'. apply Hnew in Hy as [? ?]. right. repeat split; try done. destruct H as [H|(? & ? & H)]; [by left|right].
      repeat split; try done. eapply before_filter; [|exact H]. rewrite list_elem_of_In, filter_In in Hy'. tauto.
Qed.

(** A sweep's order is the ranking that keeps nothing. *)
Lemma sortByLatency_ranking members untrusted : NoDup members ->
  ranking [] (latencyOf untrusted) members (sortByLatency db members selector now untrusted).
Proof.
  intros Hn. rewrite sortByLatency_stable. split; [apply stableSort_perm|].
  eapply StronglySorted_weaken; [|by apply stableSort_faster]. intros i j _ _ H. right. repeat split; by try apply not_elem_of_nil.
Qed.

(** A pool of members stays in front. *)
Lemma ranking_prefix members persisted ordered : NoDup members -> NoDup persisted -> persisted ⊆ members ->
  ranking persisted (latencyOf ∅) members ordered -> persisted `prefix_of` ordered.
Proof.
  intros Hn Hp Hsub Hr. rewrite (ranking_unique _ _ _ _ _ Hr (orderMembers_ranking members persisted Hn)).
  unfold orderMembers. cbv zeta. rewrite keepPlaced_all; [apply prefix_app_r; done|done|].
  intros x Hx. rewrite elem_of_list_to_set. split; [by apply Hsub|set_solver].
Qed.

End Order.
