(* ===== verification/AutoSelectorPlanFacts.v ===== *)
(** What an auto selector's plan promises: every member of the tracked groups is
    accounted for, and the pool is the one ranking of the usable ones. *)
From stdpp Require Import base list gmap strings sorting.
From Stdlib Require Import ZArith Lia Bool.
From S2P Require Import Prelude Json AutoSelector AutoSelectorFacts AutoSelectorPlan AutoSelectorRanking.

(** ** Members *)

(** The sum of the counts, and the count of one reason. *)
Definition skipSum (l : list (AutoSelectorSkip * Z)) : Z := fold_left (fun total entry => total + snd entry) l 0.
Definition skipsOf (skip : AutoSelectorSkip) (l : list (AutoSelectorSkip * Z)) : Z :=
  skipSum (List.filter (fun entry => bool_decide (fst entry = skip)) l).

Lemma skipSum_cons e l : skipSum (e :: l) = snd e + skipSum l.
Proof.
  unfold skipSum. cbn [fold_left]. rewrite Z.add_0_l. generalize (snd e). intros z. revert z.
  enough (H : forall l a b, fold_left (fun total entry => total + snd entry) l (a + b) =
    a + fold_left (fun total (entry : AutoSelectorSkip * Z) => total + snd entry) l b).
  { intros z. rewrite <- (Z.add_0_r z) at 1. apply H. }
  clear. induction l as [|e l IH]; intros a b; cbn [fold_left]; [done|]. by rewrite <- Z.add_assoc, IH.
Qed.

Lemma skipCode_inj s t : (skipCode s =? skipCode t) = bool_decide (s = t).
Proof. by destruct s, t. Qed.

Lemma addSkips_sum skip n l : skipSum (addSkips skip n l) = skipSum l + n.
Proof.
  induction l as [|[s m] l IH]; cbn [addSkips]; [rewrite skipSum_cons; cbn; lia|].
  destruct (skipCode skip =? skipCode s); [rewrite !skipSum_cons; cbn [snd]; lia|].
  destruct (skipCode skip <? skipCode s); rewrite !skipSum_cons; cbn [snd]; [rewrite ?skipSum_cons; cbn [snd]; lia|].
  rewrite IH. lia.
Qed.

Lemma addSkips_of skip n l r : skipsOf r (addSkips skip n l) = skipsOf r l + if bool_decide (skip = r) then n else 0.
Proof.
  unfold skipsOf. induction l as [|[s m] l IH]; cbn [addSkips List.filter fst].
  - destruct (bool_decide (skip = r)); [rewrite skipSum_cons; cbn; lia|done].
  - rewrite skipCode_inj. destruct (bool_decide (skip = s)) eqn:E.
    + apply bool_decide_eq_true in E as <-. cbn [List.filter fst]. destruct (bool_decide (skip = r)); rewrite ?skipSum_cons; cbn [snd]; lia.
    + destruct (skipCode skip <? skipCode s); cbn [List.filter fst]; destruct (bool_decide (skip = r)), (bool_decide (s = r));
        rewrite ?skipSum_cons, ?IH; cbn [snd]; lia.
Qed.

Section Members.
Context {Q : QtChar} {Up : QtUpper} {Rx : QtRegex} {U : Utf8} {J : JsonText}.
Context (db : Db) (entId : Z) (selector : autoSelector) (now : Z).

(** Why a profile is left out of the selector in this group, if it is: its own
    eligibility, then how it chains with the group's proxies. *)
Definition verdictOf (group : Group) (id : Z) : AutoSelectorSkip :=
  let member := GetProfile db id in
  let landing := proxyOf db (grLandingProxyId group) in
  let front := proxyOf db (grFrontProxyId group) in
  let skip := eligibilityOf member selector (buildFilters selector) now in
  match skip with
  | SkipNone | Unavailable =>
      let full := match hopOutbound member with Some o => IsXrayFullConfig o | None => false end in
      if full && negb (xrayFullConfigFitsChain landing front) then XrayFullChained
      else if negb full && (2 <? coreTransitions landing member front) then CoreTransitions
      else skip
  | _ => skip
  end.

(** The profiles of the groups with their group, and of those the first of each
    profile but the selector itself. *)
Definition slots (groups : list Group) : list (Group * Z) := flat_map (fun g => map (pair g) (grProfiles g)) groups.

Fixpoint firsts (l : list (Group * Z)) (seen : gset Z) : list (Group * Z) :=
  match l with
  | [] => []
  | (g, id) :: l' =>
      if (id =? entId) || bool_decide (id ∈ seen) then firsts l' seen else (g, id) :: firsts l' ({[id]} ∪ seen)
  end.

Definition trackedMembers : list (Group * Z) := firsts (slots (fst (existingGroups db (gids selector)))) ∅.

Definition judged (skip : AutoSelectorSkip) (l : list (Group * Z)) : list Z :=
  map snd (List.filter (fun s => bool_decide (verdictOf (fst s) (snd s) = skip)) l).

(** The usable members; when every one's last test failed, those. *)
Definition chosenMembers : list Z :=
  if isNil (judged SkipNone trackedMembers) then judged Unavailable trackedMembers else judged SkipNone trackedMembers.

Lemma judged_cons skip g id l :
  judged skip ((g, id) :: l) = if bool_decide (verdictOf g id = skip) then id :: judged skip l else judged skip l.
Proof. unfold judged. cbn [List.filter fst snd]. by destruct (bool_decide _). Qed.

Lemma eligible_outbound member filters :
  eligibilityOf member selector filters now = SkipNone \/ eligibilityOf member selector filters now = Unavailable ->
  is_Some (hopOutbound member).
Proof. unfold eligibilityOf. destruct member as [m|]; cbn [hopOutbound]; [|by intros [|]]. destruct (prOutbound m); [by eexists|by intros [|]]. Qed.

(** What one member adds. *)
Definition addMember (group : Group) (id : Z) (g : Gathered) : Gathered :=
  match verdictOf group id with
  | SkipNone =>
      mkGathered (gaMembers g ++ [id]) (gaUnavailable g) ({[id]} ∪ gaSeen g) (gaSkips g) (gaCount g + 1)
        (if effectiveLatencyOf db id selector now >? 0 then gaRanked g + 1 else gaRanked g)
  | Unavailable => mkGathered (gaMembers g) (gaUnavailable g ++ [id]) ({[id]} ∪ gaSeen g) (gaSkips g) (gaCount g + 1) (gaRanked g)
  | skip => mkGathered (gaMembers g) (gaUnavailable g) ({[id]} ∪ gaSeen g) (addSkips skip 1 (gaSkips g)) (gaCount g + 1) (gaRanked g)
  end.

Lemma gatherMember_verdict group g id :
  gatherMember db entId selector (buildFilters selector) now (proxyOf db (grLandingProxyId group)) (proxyOf db (grFrontProxyId group)) g id =
  if (id =? entId) || bool_decide (id ∈ gaSeen g) then g else addMember group id g.
Proof.
  unfold gatherMember, addMember, verdictOf. destruct (_ || _); [done|]. cbv zeta.
  pose proof (eligible_outbound (GetProfile db id) (buildFilters selector)) as Ho. unfold effectiveLatencyOf.
  destruct (eligibilityOf _ _ _ _); try done; destruct Ho as [o Ho]; auto; rewrite Ho; cbn [gaMembers gaUnavailable gaSeen gaSkips gaCount gaRanked];
    destruct (_ && _); try done; by destruct (_ && _).
Qed.

(** The fold over groups is the fold over their slots. *)
Lemma gatherGroups_slots groups g :
  fold_left (gatherGroup db entId selector (buildFilters selector) now) groups g =
  fold_left (fun g s => addMember (fst s) (snd s) g) (firsts (slots groups) (gaSeen g)) g.
Proof.
  unfold slots. revert g. induction groups as [|group groups IH]; intros g; [done|]. cbn [fold_left flat_map]. rewrite IH.
  unfold gatherGroup. cbv zeta. generalize (grProfiles group). clear IH. intros ids. revert g.
  induction ids as [|id ids IH]; intros g; cbn [fold_left map app firsts]; [done|]. rewrite IH, gatherMember_verdict.
  destruct ((id =? entId) || bool_decide (id ∈ gaSeen g)); [done|]. cbn [fold_left fst snd]. f_equal.
  f_equal. unfold addMember. by destruct (verdictOf group id).
Qed.

(** Compares two known reasons. *)
Ltac known_skips :=
  repeat match goal with
  | |- context [bool_decide (?a = ?b)] =>
      let v := eval vm_compute in (bool_decide (a = b)) in
      match v with true => idtac | false => idtac end; change (bool_decide (a = b)) with v; cbn [negb andb]
  end.

(** What the fold has collected. *)
Definition otherSkips (l : list (Group * Z)) : Z :=
  zlen (List.filter (fun s => negb (bool_decide (verdictOf (fst s) (snd s) = SkipNone)) && negb (bool_decide (verdictOf (fst s) (snd s) = Unavailable))) l).



Lemma addMembers_spec l g : let g' := fold_left (fun g s => addMember (fst s) (snd s) g) l g in
  gaMembers g' = gaMembers g ++ judged SkipNone l /\ gaUnavailable g' = gaUnavailable g ++ judged Unavailable l /\
  gaCount g' = gaCount g + zlen l /\ skipSum (gaSkips g') = skipSum (gaSkips g) + otherSkips l /\
  gaRanked g' = gaRanked g + zlen (List.filter (fun id => effectiveLatencyOf db id selector now >? 0) (judged SkipNone l)) /\
  forall r, r <> SkipNone -> skipsOf r (gaSkips g') = skipsOf r (gaSkips g) + if bool_decide (r = Unavailable) then 0 else zlen (judged r l).
Proof.
  revert g. induction l as [|[group id] l IH]; intros g; cbv zeta.
  - cbn [fold_left judged map List.filter]. unfold otherSkips. cbn [List.filter]. unfold zlen. cbn [length].
    rewrite !app_nil_r, !Z.add_0_r. repeat split. intros r _. destruct (bool_decide _); by rewrite Z.add_0_r.
  - cbn [fold_left fst snd]. destruct (IH (addMember group id g)) as (-> & -> & -> & -> & -> & Hr). clear IH.
    unfold otherSkips, addMember in *. rewrite !judged_cons. cbn [List.filter fst snd].
    destruct (verdictOf group id) eqn:Ev; cbn [gaMembers gaUnavailable gaSeen gaSkips gaCount gaRanked]; known_skips;
      (split; [by rewrite <- ?app_assoc|]); (split; [by rewrite <- ?app_assoc|]); (split; [rewrite zlen_cons; lia|]);
      (split; [rewrite ?addSkips_sum, ?zlen_cons; lia|]);
      (split; [cbn [List.filter]; try destruct (_ >? 0); rewrite ?zlen_cons; lia|]);
      intros r H1; rewrite Hr, judged_cons by done; cbn [gaSkips] in *; rewrite ?addSkips_of, Ev; destruct r; try done; known_skips;
      rewrite ?zlen_cons; lia.
Qed.

(** ** Each member once *)

Lemma firsts_spec l seen : NoDup (map snd (firsts l seen)) /\
  forall id, id ∈ map snd (firsts l seen) <-> id ∈ map snd l /\ id <> entId /\ id ∉ seen.
Proof.
  revert seen. induction l as [|[g x] l IH]; intros seen; cbn [firsts map snd]; [split; [constructor|intros id; rewrite elem_of_nil; tauto]|].
  destruct ((x =? entId) || bool_decide (x ∈ seen)) eqn:E.
  - destruct (IH seen) as [Hn He]. split; [done|]. intros id. rewrite He, elem_of_cons. split; [tauto|].
    intros ([->|?] & H1 & H2); [|tauto]. apply orb_true_iff in E as [E|E]; zbool; [done|]. by apply bool_decide_eq_true in E.
  - apply orb_false_iff in E as [E1 E2]. zbool. apply bool_decide_eq_false in E2. destruct (IH ({[x]} ∪ seen)) as [Hn He].
    cbn [map snd]. split; [constructor; [rewrite He; set_solver|done]|]. intros id. rewrite !elem_of_cons, He, not_elem_of_union, not_elem_of_singleton.
    destruct (decide (id = x)) as [->|]; [tauto|]. tauto.
Qed.

Lemma judged_in skip l id : id ∈ judged skip l <-> exists g, (g, id) ∈ l /\ verdictOf g id = skip.
Proof.
  unfold judged. rewrite list_elem_of_In, in_map_iff. split.
  - intros ([g x] & <- & Hin). apply filter_In in Hin as [Hin Hv]. apply bool_decide_eq_true in Hv. exists g. by rewrite list_elem_of_In.
  - intros (g & Hin & Hv). exists (g, id). split; [done|]. apply filter_In. rewrite <- list_elem_of_In. split; [done|]. by apply bool_decide_eq_true.
Qed.

Lemma judged_nodup skip l : NoDup (map snd l) -> NoDup (judged skip l).
Proof.
  induction l as [|[g id] l IH]; intros Hn; [constructor|]. cbn [map snd] in Hn. apply NoDup_cons in Hn as [Hin Hn].
  rewrite judged_cons. destruct (bool_decide _); [|by apply IH]. constructor; [|by apply IH].
  intros H. apply judged_in in H as (g' & H & _). apply Hin. apply list_elem_of_fmap. by exists (g', id).
Qed.

Lemma chosenMembers_spec : NoDup chosenMembers /\
  forall id, id ∈ chosenMembers -> id <> entId /\ exists g, (g, id) ∈ trackedMembers /\ (verdictOf g id = SkipNone \/ verdictOf g id = Unavailable).
Proof.
  unfold chosenMembers. pose proof (firsts_spec (slots (fst (existingGroups db (gids selector)))) ∅) as [Hn He].
  fold trackedMembers in Hn, He.
  assert (Hid : forall g id, (g, id) ∈ trackedMembers -> id <> entId).
  { intros g id Hin. assert (id ∈ map snd trackedMembers) as H%He by (apply list_elem_of_fmap; by exists (g, id)). tauto. }
  split; [destruct (isNil _); by apply judged_nodup|]. intros id Hin.
  destruct (isNil _); apply judged_in in Hin as (g & Hin & Hv); (split; [by eapply Hid|]); exists g; auto.
Qed.

Lemma judged_partition l : zlen l = zlen (judged SkipNone l) + zlen (judged Unavailable l) + otherSkips l.
Proof.
  unfold otherSkips. induction l as [|[g id] l IH]; [done|]. rewrite !judged_cons. cbn [List.filter fst snd]. rewrite zlen_cons.
  destruct (verdictOf g id); known_skips; rewrite ?zlen_cons; lia.
Qed.

(** What the members cost the plan. *)
Lemma eligibleMembers_spec ent : prId ent = entId -> gids selector <> [] -> fst (existingGroups db (gids selector)) <> [] ->
  let el := eligibleMembers db ent selector now in
  elError el = [] /\ elMembers el = chosenMembers /\ elMissingGroups el = snd (existingGroups db (gids selector)) /\
  elMembersInGroups el = zlen trackedMembers /\ zlen trackedMembers = zlen (elMembers el) + skipSum (elSkipped el) /\
  elRankedByTest el = zlen (List.filter (fun id => effectiveLatencyOf db id selector now >? 0) (judged SkipNone trackedMembers)) /\
  elKeptUnavailable el = (if isNil (judged SkipNone trackedMembers) then zlen chosenMembers else 0) /\
  forall r, r <> SkipNone -> skipsOf r (elSkipped el) = if bool_decide (r = Unavailable) && isNil (judged SkipNone trackedMembers) then 0 else zlen (judged r trackedMembers).
Proof.
  intros He Hg Hx. unfold eligibleMembers. rewrite He. clear He. destruct (gids selector) as [|gid0 rest] eqn:Eg; [done|]. rewrite <- Eg in *. cbn [isNil].
  replace (isNil (gids selector)) with false by by rewrite Eg. destruct (existingGroups db (gids selector)) as [groups missing] eqn:Ex.
  cbn [fst snd] in *. destruct groups as [|group groups]; [done|]. cbn [isNil]. cbv zeta. rewrite gatherGroups_slots.
  replace (firsts (slots (group :: groups)) _) with trackedMembers by (unfold trackedMembers; by rewrite Ex).
  destruct (addMembers_spec trackedMembers (mkGathered [] [] ∅ [] 0 0)) as (Hm & Hu & Hc & Hs & Hr & Ho).
  set (g := fold_left _ trackedMembers _) in *. cbn [gaMembers gaUnavailable gaSkips gaCount gaRanked app] in *.
  pose proof (judged_partition trackedMembers) as Hp. unfold chosenMembers. rewrite Hm, Hu.
  destruct (judged SkipNone trackedMembers) as [|x usable] eqn:Es; cbn [isNil negb andb].
  all: destruct (judged Unavailable trackedMembers) as [|y failed] eqn:Ef;
    cbn [isNil negb elError elMembers elMissingGroups elMembersInGroups elRankedByTest elKeptUnavailable elSkipped];
    rewrite ?addSkips_sum, ?Hs, ?Hp, ?Es, ?Ef.
  all: repeat split_and!; try done; try (cbn; lia).
  all: intros r Hr1; rewrite ?addSkips_of, Ho by done; destruct (bool_decide (r = Unavailable)) eqn:E; cbn [andb];
    [apply bool_decide_eq_true in E as ->; rewrite ?Ef; known_skips; done|
     apply bool_decide_eq_false in E; rewrite ?bool_decide_eq_false_2 by congruence; cbn; lia].
Qed.

End Members.

(** ** The plan *)

Section Planned.
Context {Q : QtChar} {Up : QtUpper} {Rx : QtRegex} {U : Utf8} {J : JsonText}.
Context (db : Db).

(** The usable members of a selector, normalised, at a time. *)
Definition usableMembers (e : Profile) (s : autoSelector) (now : Z) : list Z := chosenMembers db (prId e) (Normalize s) now.
Definition memberSlots (e : Profile) (s : autoSelector) : list (Group * Z) := trackedMembers db (prId e) (Normalize s).
Definition latencyAt (s : autoSelector) (later id : Z) : Z := latencyOf db (Normalize s) later ∅ id.

(** Without usable members no pool is left. *)
Lemma eligible_cases ent selector now :
  let el := eligibleMembers db ent selector now in
  elMembers el = chosenMembers db (prId ent) selector now /\
  (chosenMembers db (prId ent) selector now <> [] -> elError el = [] /\ gids selector <> [] /\ fst (existingGroups db (gids selector)) <> []).
Proof.
  cbv zeta. destruct (decide (gids selector = [])) as [E|Hg].
  { unfold eligibleMembers. rewrite E. cbn [isNil elMembers elError]. unfold chosenMembers, trackedMembers. rewrite E. cbn. done. }
  destruct (decide (fst (existingGroups db (gids selector)) = [])) as [E|Hx].
  { unfold eligibleMembers, chosenMembers, trackedMembers. rewrite E. destruct (gids selector) eqn:Eg; [done|]. cbn [isNil]. rewrite <- Eg in *.
    destruct (existingGroups db (gids selector)) as [groups missing]. cbn [fst] in E. subst groups. cbn. by split. }
  destruct (eligibleMembers_spec db (prId ent) selector now ent eq_refl Hg Hx) as (He & Hm & _). by rewrite He, Hm.
Qed.

Lemma take_Z n (l : list Z) : 0 <= n -> midFirst n l = take (Z.to_nat n) l.
Proof. intros Hn. unfold midFirst. by rewrite (proj2 (Z.ltb_ge n 0)). Qed.

Lemma take_cut_app n (l k : list Z) : length (take n l ++ k) = length l -> take n (take n l ++ k) = take n l.
Proof.
  rewrite length_app, length_take. intros H. destruct (decide (n <= length l)%nat).
  - rewrite take_app_le by (rewrite length_take; lia). by rewrite take_take, Nat.min_id.
  - destruct k as [|x k]; [rewrite app_nil_r, take_take; by rewrite Nat.min_id|cbn in H; lia].
Qed.

(** A list cut to at most [n]. *)
Lemma cut_take n (l : list Z) : 0 <= n -> (if n <? zlen l then midFirst n l else l) = take (Z.to_nat n) l.
Proof.
  intros Hn. rewrite take_Z by done. destruct (n <? zlen l) eqn:E; [done|]. zbool. rewrite take_ge; [done|]. unfold zlen in E. lia.
Qed.

(** The abstract contract: the pool is the cut of the ranking of the usable
    members, the build a prefix of it, and a ranking sweep is asked for when the
    build leaves out pool members while it holds an untested one. *)
Record meetsPlan (e : Profile) (s : autoSelector) (now later : Z) (plan : AutoSelectorPlan) : Prop := {
  mp_error : plError plan = [];
  mp_pool : forall ordered, ranking (pool s) (latencyAt s later) (usableMembers e s now) ordered ->
    plPool plan = take (Z.to_nat (poolCap (Normalize s))) ordered;
  mp_build : plBuild plan = take (Z.to_nat (buildLimit (Normalize s))) (plPool plan);
  mp_truncated : plTruncated plan = (poolCap (Normalize s) <? zlen (usableMembers e s now));
  mp_ranking : plNeedsRanking plan = true <->
    plBuild plan <> plPool plan /\ exists id, id ∈ plBuild plan /\ latencyAt s later id = 0
}.

Lemma build_whole n (l : list Z) : 0 <= n -> take (Z.to_nat n) l <> l <-> n < zlen l.
Proof.
  intros Hn. unfold zlen. split.
  - intros H. destruct (decide (n < Z.of_nat (length l))); [done|]. destruct H. apply take_ge. lia.
  - intros H E. apply (f_equal length) in E. rewrite length_take in E. lia.
Qed.

Lemma untested_exists (f : Z -> Z) l : (0 <? zlen (List.filter (fun id => f id =? 0) l)) = true <-> exists id, id ∈ l /\ f id = 0.
Proof.
  rewrite Z.ltb_lt. unfold zlen. split.
  - intros H. destruct (List.filter (fun id => f id =? 0) l) as [|x k] eqn:E; [cbn in H; lia|].
    assert (Hx : In x (x :: k)) by by left. rewrite <- E, filter_In in Hx. destruct Hx as [Hx Hf]. zbool.
    exists x. by rewrite list_elem_of_In.
  - intros (x & Hx & Hf). apply list_elem_of_In in Hx. assert (Hin : In x (List.filter (fun id => f id =? 0) l)) by (apply filter_In; split; [done|by apply Z.eqb_eq]).
    destruct (List.filter _ l); [done|]. cbn. lia.
Qed.

Lemma PlanAutoSelector_shape e s now later : AutoSelectorOf e = Some s -> usableMembers e s now <> [] ->
  meetsPlan e s now later (fst (PlanAutoSelector db now later (Some e))) /\
  exists ordered, ranking (pool s) (latencyAt s later) (usableMembers e s now) ordered.
Proof.
  intros He Hm. unfold PlanAutoSelector. rewrite He. unfold usableMembers in *. cbv zeta.
  destruct (eligible_cases e (Normalize s) now) as [Hel H1]. destruct (H1 Hm) as (Herr & _). cbv zeta in Hel. rewrite Herr, Hel. cbn [isNil negb].
  set (M := chosenMembers _ _ _ _) in *. replace (isNil M) with false by by destruct M.
  destruct (Normalize_wfSelector s) as [_ Hc [Hl _] _ _ _ _ _ _ _ _ _ _ _]. change (pool (Normalize s)) with (pool s).
  pose proof (orderMembers_ranking db (Normalize s) later M (pool s) (proj1 (chosenMembers_spec db (prId e) (Normalize s) now))) as Hrank.
  set (ordered := orderMembers _ _ _ _ _) in *. clearbody ordered. split; [|by exists ordered].
  assert (HlenM : zlen ordered = zlen M) by (unfold zlen; destruct Hrank as [Hp _]; by rewrite Hp).
  rewrite cut_take by lia. set (P := take _ ordered). rewrite take_Z by (unfold zlen; lia).
  assert (Hb : take (Z.to_nat (Z.min (zlen P) (buildLimit (Normalize s)))) P = take (Z.to_nat (buildLimit (Normalize s))) P).
  { unfold zlen. destruct (Z.min_spec (Z.of_nat (length P)) (buildLimit (Normalize s))) as [[? ->]|[? ->]]; [|done].
    rewrite !take_ge by lia. done. }
  rewrite Hb. split; cbn [fst plError plPool plBuild plTruncated plNeedsRanking]; try done.
  - intros o Ho. unfold P. by rewrite (ranking_unique _ _ _ _ _ Ho Hrank).
  - by rewrite HlenM.
  - rewrite andb_true_iff, Z.ltb_lt, build_whole by lia.
    rewrite (untested_exists (fun id => effectiveLatencyOf db id (Normalize s) later)). done.
Qed.

(** C29: Planning refines the abstract contract: there is one ranking of the usable
    members - those persisted in the selector's pool first, in that order, then
    the others fastest first, untested before failed, ties in the user's order -
    and the pool is its beginning up to the pool cap, the build the pool's
    beginning up to the build limit; a ranking sweep is asked for exactly when
    the build leaves pool members out while it holds an untested one. *)
Theorem PlanAutoSelector_refines e s now later : AutoSelectorOf e = Some s -> usableMembers e s now <> [] ->
  let plan := fst (PlanAutoSelector db now later (Some e)) in
  meetsPlan e s now later plan /\
  exists ordered, ranking (pool s) (latencyAt s later) (usableMembers e s now) ordered /\
    (forall other, ranking (pool s) (latencyAt s later) (usableMembers e s now) other -> other = ordered) /\
    plPool plan = take (Z.to_nat (poolCap (Normalize s))) ordered.
Proof.
  intros He Hm plan. destruct (PlanAutoSelector_shape e s now later He Hm) as (Hplan & ordered & Hr). split; [done|].
  exists ordered. split; [done|]. split; [intros other Ho; by eapply ranking_unique|]. by apply Hplan.
Qed.

(** What a plan with usable members counts. *)
Definition countsMembers (e : Profile) (s : autoSelector) (now : Z) (plan : AutoSelectorPlan) : Prop :=
  plMembersInGroups plan = zlen (memberSlots e s) /\
  plEligible plan = zlen (usableMembers e s now) /\
  plMembersInGroups plan = plEligible plan + skippedCount plan /\
  forall r, r <> SkipNone -> r <> Unavailable ->
    skipsOf r (plSkipped plan) = zlen (judged db (Normalize s) now r (memberSlots e s)).

Lemma plan_counts e s now later : AutoSelectorOf e = Some s -> usableMembers e s now <> [] ->
  countsMembers e s now (fst (PlanAutoSelector db now later (Some e))).
Proof.
  intros He Hm. unfold countsMembers, PlanAutoSelector. rewrite He. unfold usableMembers in *. cbv zeta.
  destruct (eligible_cases e (Normalize s) now) as [Hel H1]. destruct (H1 Hm) as (Herr & Hg & Hx). cbv zeta in Hel. rewrite Herr, Hel. cbn [isNil negb].
  set (M := chosenMembers _ _ _ _) in *. replace (isNil M) with false by by destruct M.
  destruct (eligibleMembers_spec db (prId e) (Normalize s) now e eq_refl Hg Hx) as (_ & Hmem & _ & Hc & Hsum & _ & _ & Ho). cbv zeta in *.
  cbn [fst plMembersInGroups plEligible plSkipped skippedCount]. unfold skippedCount. cbn [plSkipped].
  rewrite Hc. split; [done|]. split; [done|]. split; [by rewrite Hsum, Hmem|].
  intros r H2 H3. by rewrite Ho, bool_decide_eq_false_2.
Qed.

(** A plan is an error with an empty pool and build, or has members to run:
    planning succeeds exactly for a selector with a usable member in a group
    that exists, and then the build is not empty, the pool lists usable members
    of other profiles without repetition, within the caps, and every profile of
    the tracked groups is counted once - as a pool candidate or under the one
    reason it was left out for. *)
Theorem PlanAutoSelector_outcome ent now later : let plan := fst (PlanAutoSelector db now later ent) in
  (plError plan = [] <-> exists e s, ent = Some e /\ AutoSelectorOf e = Some s /\ usableMembers e s now <> []) /\
  (plError plan <> [] -> plPool plan = [] /\ plBuild plan = [] /\ plNeedsRanking plan = false) /\
  (forall e s, plError plan = [] -> ent = Some e -> AutoSelectorOf e = Some s ->
     plBuild plan <> [] /\ plBuild plan `prefix_of` plPool plan /\ NoDup (plPool plan) /\
     zlen (plPool plan) <= kMaxPoolCap /\ zlen (plBuild plan) <= kMaxBuildLimit /\
     (forall id, id ∈ plPool plan -> id ∈ usableMembers e s now /\ id <> prId e) /\
     countsMembers e s now plan).
Proof.
  cbv zeta. assert (Hok : plError (fst (PlanAutoSelector db now later ent)) = [] <->
    exists e s, ent = Some e /\ AutoSelectorOf e = Some s /\ usableMembers e s now <> []).
  { split.
    - unfold PlanAutoSelector. destruct ent as [e|]; [|done]. destruct (AutoSelectorOf e) as [s|] eqn:Es; [|done]. cbv zeta.
      pose proof (eligible_cases e (Normalize s) now) as [Hel _]. cbv zeta in Hel.
      destruct (isNil (elError _)) eqn:E1; [cbn [negb]|by cbn [negb fst plError]; destruct (elError _)].
      rewrite Hel. intros H. exists e, s. repeat split; try done. unfold usableMembers. intros E. by rewrite E in H.
    - intros (e & s & -> & Es & Hm). by destruct (PlanAutoSelector_shape e s now later Es Hm) as ([] & _). }
  split; [exact Hok|]. split.
  - intros H. unfold PlanAutoSelector in *. destruct ent as [e|]; [|done]. destruct (AutoSelectorOf e) as [s|]; [|done]. cbv zeta in *.
    destruct (negb _); [done|]. destruct (isNil _); done.
  - intros e s H -> Es. apply Hok in H as (e' & s' & [= <-] & Es' & Hm). rewrite Es in Es'. injection Es' as <-.
    destruct (PlanAutoSelector_shape e s now later Es Hm) as (Hplan & ordered & Hr). pose proof (plan_counts e s now later Es Hm) as Hcount.
    destruct Hplan as [_ Hpool Hbuild _ _]. specialize (Hpool ordered Hr). destruct Hr as [Hperm _].
    destruct (Normalize_wfSelector s) as [_ Hc [Hl Hlc] _ _ _ _ _ _ _ _ _ _ _].
    destruct (chosenMembers_spec db (prId e) (Normalize s) now) as [Hn Hin]. fold (usableMembers e s now) in Hn, Hin.
    set (plan := fst _) in *. clearbody plan. unfold zlen. rewrite Hbuild, Hpool, !length_take.
    assert (Hlen : (0 < length ordered)%nat) by (rewrite Hperm; destruct (usableMembers e s now); [done|cbn; lia]).
    split; [|split; [|split; [|split; [lia|split; [lia|split; [|exact Hcount]]]]]].
    + intros E. apply (f_equal length) in E. rewrite !length_take in E. change (length (@nil Z)) with 0%nat in E. lia.
    + apply prefix_take.
    + eapply sublist_NoDup; [|apply sublist_take]. by rewrite Hperm.
    + intros id Hid. assert (Hm' : id ∈ usableMembers e s now).
      { rewrite <- Hperm. apply elem_of_take in Hid as (j & Hj & _). by eapply list_elem_of_lookup_2. }
      split; [done|by apply Hin].
Qed.

(** A ranking sweep and the plan agree: reranking stores the usable members
    fastest first, the untrusted ones as untested, up to the pool cap, and the
    next plan of the saved profile - whatever the latencies are by then - takes
    exactly that pool, so a build never runs members in another order than the
    sweep left. *)
Theorem rerank_planned e s now later stamp untrusted : AutoSelectorOf e = Some s -> wfSelector s -> usableMembers e s now <> [] ->
  let members := fst (RerankAutoSelectorPool db now later stamp (Some e) untrusted) in
  let ent' := snd (RerankAutoSelectorPool db now later stamp (Some e) untrusted) in
  (forall ordered, ranking [] (latencyOf db s later (list_to_set untrusted)) (usableMembers e s now) ordered ->
     members = take (Z.to_nat (poolCap s)) ordered) /\
  ent' = Some (setSelector (withPool members stamp s) e) /\
  forall later', plPool (fst (PlanAutoSelector db now later' ent')) = members.
Proof.
  intros He Hs Hm. pose proof (wfSelector_Normalize s Hs) as Hns. unfold RerankAutoSelectorPool. rewrite He. cbv zeta.
  pose proof (eligible_cases e s now) as [Hel _]. cbv zeta in Hel. rewrite Hel. unfold usableMembers in *. rewrite Hns in Hm |- *.
  pose proof (chosenMembers_spec db (prId e) s now) as [Hn _]. destruct (wf_cap s Hs) as [Hcap _].
  pose proof (sortByLatency_ranking db s later _ (list_to_set untrusted) Hn) as Hrank.
  set (M := chosenMembers _ _ _ _) in *. set (sorted := sortByLatency _ _ _ _ _) in *.
  rewrite cut_take by lia. cbn [fst snd]. set (P := take _ sorted). split; [|split; [done|]].
  { intros o Ho. unfold P. by rewrite (ranking_unique _ _ _ _ _ Ho Hrank). }
  intros later'. set (e' := setSelector (withPool P stamp s) e).
  assert (He' : AutoSelectorOf e' = Some (withPool P stamp s)).
  { unfold e', AutoSelectorOf in *. cbn [prOutbound setSelector]. by destruct (prOutbound e). }
  assert (Hns' : Normalize (withPool P stamp s) = withPool P stamp s).
  { rewrite <- Hns at 2. by destruct s. }
  assert (HM : usableMembers e' (withPool P stamp s) now = M) by (unfold usableMembers; rewrite Hns'; reflexivity).
  destruct (PlanAutoSelector_shape e' (withPool P stamp s) now later' He') as (Hplan & ordered & Hr); [by rewrite HM|].
  rewrite (mp_pool _ _ _ _ _ Hplan ordered Hr), Hns'. rewrite HM in Hr. change (poolCap (withPool P stamp s)) with (poolCap s).
  destruct Hrank as [Hperm _]. assert (HnP : NoDup P) by (eapply sublist_NoDup; [|apply sublist_take]; by rewrite Hperm).
  assert (Hpre : P `prefix_of` ordered).
  { unfold latencyAt in Hr. rewrite Hns' in Hr. eapply (ranking_prefix db (withPool P stamp s) later' M P ordered Hn HnP); [|exact Hr].
    intros x Hx. rewrite <- Hperm. apply elem_of_take in Hx as (j & Hj & _). by eapply list_elem_of_lookup_2. }
  destruct Hpre as [X ->]. destruct Hr as [HpermM _]. apply Permutation_length in HpermM, Hperm. unfold P in *.
  apply take_cut_app. by rewrite HpermM, Hperm.
Qed.

End Planned.

(** ** On a concrete group *)

(** A pattern taken as literal text. *)
#[export] Instance literalRegex : QtRegex := {| matcherCI := fun pattern => Some (fun text => containsCI pattern text) |}.

Definition sampleProfile (id latency : Z) (country : string) : Profile :=
  mkProfile id (u "vless") latency 1000 (u country) (Some (mkOutbound (u "server") ClsOther)).

Definition sampleTracked : autoSelector :=
  Normalize (mkAutoSelector (u "auto") [1; 5] [] (u "!ru, de") true 2 1 60 [] [] 300 600 15 8 10 300 0 3 2 true false (u "rotate") 30
    [13] 0 (-1) [] 0 []).

Definition sampleEnt : Profile := mkProfile 99 (u "autoselector") 0 0 [] (Some (mkOutbound (u "auto") (ClsAutoSelector sampleTracked))).

Definition sampleDb : Db :=
  mkDb (list_to_map [(10, sampleProfile 10 300 "de"); (11, sampleProfile 11 120 "DE"); (12, sampleProfile 12 90 "ru");
                     (13, sampleProfile 13 0 "de"); (14, sampleProfile 14 (-1) "de"); (99, sampleEnt)])
    (list_to_map [(1, mkGroup (-1) (-1) [10; 11; 12; 13; 11; 14; 15; 99])]).

(** 13 was in the pool, 11 is the fastest of the rest; 12 is in an excluded
    country, 14 failed its last test and 15 does not exist; group 5 neither. *)
Example sample_plan :
  let plan := fst (PlanAutoSelector sampleDb 1500 1500 (Some sampleEnt)) in
  plPool plan = [13; 11] /\ plBuild plan = [13] /\ plTruncated plan = true /\ plNeedsRanking plan = true /\
  plMembersInGroups plan = 6 /\ plEligible plan = 3 /\ plMissingGroups plan = 1 /\
  plSkipped plan = [(Missing, 1); (CountryFilter, 1); (Unavailable, 1)] /\ plError plan = [].
Proof. vm_compute. repeat split. Qed.

Lemma PlanAutoSelector_refines_witness :
  meetsPlan sampleDb sampleEnt sampleTracked 1500 1500 (fst (PlanAutoSelector sampleDb 1500 1500 (Some sampleEnt))).
Proof. apply (PlanAutoSelector_refines sampleDb sampleEnt sampleTracked 1500 1500); [reflexivity|vm_compute; discriminate]. Defined.

Lemma rerank_planned_witness :
  let r := RerankAutoSelectorPool sampleDb 1500 1500 1500 (Some sampleEnt) [11] in
  fst r = [10; 11] /\ plPool (fst (PlanAutoSelector sampleDb 1500 9999 (snd r))) = fst r.
Proof.
  cbv zeta. split; [vm_compute; reflexivity|].
  apply (rerank_planned sampleDb sampleEnt sampleTracked 1500 1500 1500 [11]); [reflexivity|apply Normalize_wfSelector|vm_compute; discriminate].
Defined.
