(* ===== verification/AutoSelectorMonitor.v ===== *)
(** Watching the running auto selector:
    src/src/stats/autoselector/AutoSelectorMonitor.cpp.

    The monitor's own thread polls the core; other threads put a new build in,
    clear it or ask the core for something.  A poll is four stretches between its
    locks, so that anything can happen in between: [pollTag], [pollMembers],
    [pollDecide] and [pollAfter].  Times are milliseconds.  The profiles' results
    are [mLatencies]; the texts for the view are left out. *)
From stdpp Require Import base list gmap strings.
From Stdlib Require Import ZArith Lia Bool.
From S2P Require Import Prelude.

Definition kPollIntervalMs : Z := 2000.
Definition kPoolExhaustedGraceSecs : Z := 20.
Definition kRebuildBackoffMinSecs : Z := 60.
Definition kRebuildBackoffMaxSecs : Z := 600.
Definition kHealthPersistSecs : Z := 60.

(** ** What the core reports *)

Record MemberReport := mkMemberReport {
  mrTag : qstr; mrRank : Z; mrState : qstr; mrSelected : bool; mrSelectedUDP : bool; mrQualified : bool; mrActive : bool;
  mrAverageMs : Z; mrDeviationMs : Z; mrMinMs : Z; mrMaxMs : Z; mrSamples : Z; mrFailures : Z; mrProbes : Z;
  mrDialTotal : Z; mrDialFail : Z; mrLastOKms : Z; mrLastProbeMs : Z; mrCooldownUntilMs : Z; mrLastError : qstr
}.

Record GroupReport := mkGroupReport {
  grTag : qstr; grPhase : qstr; grSelected : qstr; grPinned : qstr; grBalance : bool; grBalanceMode : qstr;
  grSuspended : bool; grSuspendedSinceMs : Z; grMembersTotal : Z; grMembersProbed : Z; grMembersAlive : Z;
  grMembersQualified : Z; grMembersCooldown : Z; grProbesInFlight : Z; grRoundsCompleted : Z; grLastRoundMs : Z;
  grNextRoundMs : Z; grLastSwitchMs : Z; grLastSwitchReason : qstr; grMembers : list MemberReport
}.

(** ** The view *)

(** A member: what the core says of it, and the profile it was built from. *)
Record AutoSelectorMemberView := mkMemberView { mvReport : MemberReport; mvProfileID : Z; mvName : qstr; mvPinned : bool }.

Definition isDead (m : AutoSelectorMemberView) : bool := eqStr (mrState (mvReport m)) (u "dead").
Definition isUsable (m : AutoSelectorMemberView) : bool :=
  eqStr (mrState (mvReport m)) (u "ok") || eqStr (mrState (mvReport m)) (u "degraded").
Definition hasProblem (m : AutoSelectorMemberView) : bool :=
  eqStr (mrState (mvReport m)) (u "dead") || eqStr (mrState (mvReport m)) (u "cooldown") || eqStr (mrState (mvReport m)) (u "degraded").

Record AutoSelectorView := mkView {
  vwValid : bool; vwGroupTag : qstr; vwProfileID : Z; vwReport : GroupReport; vwSelectedName : qstr; vwSelectedProfileID : Z;
  vwPinnedName : qstr; vwUpdatedAtMs : Z; vwExhaustedSinceMs : Z; vwMembers : list AutoSelectorMemberView
}.

Definition noReport : GroupReport := mkGroupReport [] [] [] [] false [] false 0 0 0 0 0 0 0 0 0 0 0 [] [].
Definition startingReport (total : Z) : GroupReport := mkGroupReport [] (u "starting") [] [] false [] false 0 total 0 0 0 0 0 0 0 0 0 [] [].
Definition noView : AutoSelectorView := mkView false [] (-1) noReport [] (-1) [] 0 0 [].

(** ** State *)

(** Where the monitor's thread is. *)
Inductive PollPhase :=
| PollIdle
| PollTagged (wantedTag : qstr) (report : GroupReport)
| PollRead (next : AutoSelectorView) (usable : Z)
| PollDecided (profileID now : Z) (fire : bool).

(** [MoDecision] keeps the report that the core gave to the poll that decides. *)
Inductive MonitorOut :=
| MoBuild
| MoDecision (now : Z) (report : GroupReport)
| MoRebuild (now : Z)
| MoUpdated
| MoSaved (profiles : list Z)
| MoPoolExhausted (profileID : Z)
| MoRecheck (tag : qstr)
| MoSelect (tag member : qstr)
| MoPinned (selector member : Z).

Record Monitor := mkMonitor {
  mView : AutoSelectorView;
  mTagToProfile : gmap qstr Z;
  mTagToName : gmap qstr qstr;
  mGroupTag : qstr;
  mProfileID : Z;
  mActive : bool;
  mExhaustedSince : Z;
  mLastRebuildRequest : Z;
  mRebuildBackoffSecs : Z;
  mLastHealthPersist : Z;
  mPhase : PollPhase;
  mLatencies : gmap Z Z;
  mOut : list MonitorOut
}.

Definition nView x m := mkMonitor x (mTagToProfile m) (mTagToName m) (mGroupTag m) (mProfileID m) (mActive m) (mExhaustedSince m) (mLastRebuildRequest m) (mRebuildBackoffSecs m) (mLastHealthPersist m) (mPhase m) (mLatencies m) (mOut m).
Definition nTagToProfile x m := mkMonitor (mView m) x (mTagToName m) (mGroupTag m) (mProfileID m) (mActive m) (mExhaustedSince m) (mLastRebuildRequest m) (mRebuildBackoffSecs m) (mLastHealthPersist m) (mPhase m) (mLatencies m) (mOut m).
Definition nTagToName x m := mkMonitor (mView m) (mTagToProfile m) x (mGroupTag m) (mProfileID m) (mActive m) (mExhaustedSince m) (mLastRebuildRequest m) (mRebuildBackoffSecs m) (mLastHealthPersist m) (mPhase m) (mLatencies m) (mOut m).
Definition nGroupTag x m := mkMonitor (mView m) (mTagToProfile m) (mTagToName m) x (mProfileID m) (mActive m) (mExhaustedSince m) (mLastRebuildRequest m) (mRebuildBackoffSecs m) (mLastHealthPersist m) (mPhase m) (mLatencies m) (mOut m).
Definition nProfileID x m := mkMonitor (mView m) (mTagToProfile m) (mTagToName m) (mGroupTag m) x (mActive m) (mExhaustedSince m) (mLastRebuildRequest m) (mRebuildBackoffSecs m) (mLastHealthPersist m) (mPhase m) (mLatencies m) (mOut m).
Definition nActive x m := mkMonitor (mView m) (mTagToProfile m) (mTagToName m) (mGroupTag m) (mProfileID m) x (mExhaustedSince m) (mLastRebuildRequest m) (mRebuildBackoffSecs m) (mLastHealthPersist m) (mPhase m) (mLatencies m) (mOut m).
Definition nExhaustedSince x m := mkMonitor (mView m) (mTagToProfile m) (mTagToName m) (mGroupTag m) (mProfileID m) (mActive m) x (mLastRebuildRequest m) (mRebuildBackoffSecs m) (mLastHealthPersist m) (mPhase m) (mLatencies m) (mOut m).
Definition nLastRebuildRequest x m := mkMonitor (mView m) (mTagToProfile m) (mTagToName m) (mGroupTag m) (mProfileID m) (mActive m) (mExhaustedSince m) x (mRebuildBackoffSecs m) (mLastHealthPersist m) (mPhase m) (mLatencies m) (mOut m).
Definition nRebuildBackoffSecs x m := mkMonitor (mView m) (mTagToProfile m) (mTagToName m) (mGroupTag m) (mProfileID m) (mActive m) (mExhaustedSince m) (mLastRebuildRequest m) x (mLastHealthPersist m) (mPhase m) (mLatencies m) (mOut m).
Definition nLastHealthPersist x m := mkMonitor (mView m) (mTagToProfile m) (mTagToName m) (mGroupTag m) (mProfileID m) (mActive m) (mExhaustedSince m) (mLastRebuildRequest m) (mRebuildBackoffSecs m) x (mPhase m) (mLatencies m) (mOut m).
Definition nPhase x m := mkMonitor (mView m) (mTagToProfile m) (mTagToName m) (mGroupTag m) (mProfileID m) (mActive m) (mExhaustedSince m) (mLastRebuildRequest m) (mRebuildBackoffSecs m) (mLastHealthPersist m) x (mLatencies m) (mOut m).
Definition nLatencies x m := mkMonitor (mView m) (mTagToProfile m) (mTagToName m) (mGroupTag m) (mProfileID m) (mActive m) (mExhaustedSince m) (mLastRebuildRequest m) (mRebuildBackoffSecs m) (mLastHealthPersist m) (mPhase m) x (mOut m).
Definition nOut x m := mkMonitor (mView m) (mTagToProfile m) (mTagToName m) (mGroupTag m) (mProfileID m) (mActive m) (mExhaustedSince m) (mLastRebuildRequest m) (mRebuildBackoffSecs m) (mLastHealthPersist m) (mPhase m) (mLatencies m) x.
Definition note (o : MonitorOut) (m : Monitor) : Monitor := nOut (mOut m ++ [o]) m.

(** A build's members by tag. *)
Record BuildInfo := mkBuildInfo { biGroupTag : qstr; biProfileID : Z; biMembers : list (qstr * option (Z * qstr)) }.

Definition tagsOf (members : list (qstr * option (Z * qstr))) : gmap qstr Z :=
  fold_left (fun t x => match snd x with Some (id, _) => <[fst x := id]> t | None => t end) members ∅.
Definition namesOf (members : list (qstr * option (Z * qstr))) : gmap qstr qstr :=
  fold_left (fun t x => match snd x with Some (_, name) => <[fst x := name]> t | None => t end) members ∅.

Definition SetBuild (infos : list BuildInfo) (now : Z) (m : Monitor) : Monitor :=
  match infos with
  | [] => note MoBuild (mkMonitor noView ∅ ∅ [] (-1) false 0 (mLastRebuildRequest m) (mRebuildBackoffSecs m) (mLastHealthPersist m) (mPhase m) (mLatencies m) (mOut m))
  | info :: _ =>
      note MoBuild
        (mkMonitor (mkView true (biGroupTag info) (biProfileID info) (startingReport (zlen (biMembers info))) [] (-1) [] 0 0 [])
           (tagsOf (biMembers info)) (namesOf (biMembers info)) (biGroupTag info) (biProfileID info) true 0
           (mLastRebuildRequest m) (mRebuildBackoffSecs m) now (mPhase m) (mLatencies m) (mOut m))
  end.

(** ** Results kept *)

(** The result a member's state stands for, if it is conclusive. *)
Definition healthOf (x : AutoSelectorMemberView) : option Z :=
  if (mvProfileID x <? 0) || (mrProbes (mvReport x) =? 0) then None
  else if isUsable x && (0 <? mrAverageMs (mvReport x)) then Some (mrAverageMs (mvReport x))
  else if isDead x then Some (-1)
  else None.

(** One member: its profile gets the result if it exists and has another. *)
Definition persistMember (x : AutoSelectorMemberView) (a : gmap Z Z * list Z) : gmap Z Z * list Z :=
  let '(latencies, dirty) := a in
  match healthOf x with
  | None => a
  | Some latency =>
      match latencies !! mvProfileID x with
      | None => a
      | Some old => if old =? latency then a else (<[mvProfileID x := latency]> latencies, dirty ++ [mvProfileID x])
      end
  end.

Definition PersistHealth (now : Z) (m : Monitor) : Monitor :=
  if negb (mActive m) || negb (vwValid (mView m)) then m
  else if grSuspended (vwReport (mView m)) then m
  else
    let m := nLastHealthPersist now m in
    let '(latencies, dirty) := fold_left (fun a x => persistMember x a) (vwMembers (mView m)) (mLatencies m, []) in
    let m := nLatencies latencies m in
    if isNil dirty then m else note (MoSaved dirty) m.

Definition Clear (now : Z) (m : Monitor) : Monitor :=
  let m := PersistHealth now m in
  note MoBuild (mkMonitor noView ∅ ∅ [] (-1) false 0 (mLastRebuildRequest m) (mRebuildBackoffSecs m) (mLastHealthPersist m) (mPhase m) (mLatencies m) (mOut m)).

(** ** Requests *)

Definition RequestRecheck (m : Monitor) : Monitor := if mActive m then note (MoRecheck (mGroupTag m)) m else m.

(** The core's answer to a selection: whether it came, and its error. *)
Definition RequestSelect (member : qstr) (ok : bool) (error : qstr) (pinned : Z -> option Z) (m : Monitor) : verdict * Monitor :=
  if negb (mActive m) then (Some (tr0 "No auto selector is running."), m)
  else
    let memberID := if isNil member then -1 else default (-1) (mTagToProfile m !! member) in
    if negb (isNil member) && (memberID <? 0) then (Some (tr0 "That profile is not in the running pool."), m)
    else
      let selectorID := mProfileID m in
      let m := note (MoSelect (mGroupTag m) member) m in
      if negb ok then (Some (tr0 "Could not reach the core."), m)
      else if negb (isNil error) then (Some (MText error), m)
      else
        match pinned selectorID with
        | Some old => (None, if old =? memberID then m else note (MoPinned selectorID memberID) m)
        | None => (None, m)
        end.

(** ** A poll *)

(** The core answered; the group that runs is looked for. *)
Definition pollTag (groups : option (list GroupReport)) (m : Monitor) : Monitor :=
  match groups with
  | None => nPhase PollIdle m
  | Some groups =>
      if negb (mActive m) then nPhase PollIdle m
      else match List.find (fun g => eqStr (grTag g) (mGroupTag m)) groups with
           | None => nPhase PollIdle m
           | Some report => nPhase (PollTagged (mGroupTag m) report) m
           end
  end.

Definition memberView (m : Monitor) (pinned : qstr) (r : MemberReport) : AutoSelectorMemberView :=
  mkMemberView r (default (-1) (mTagToProfile m !! mrTag r)) (default [] (mTagToName m !! mrTag r)) (negb (isNil pinned) && eqStr (mrTag r) pinned).

(** Untested counts as usable. *)
Definition countsUsable (x : AutoSelectorMemberView) : bool := isUsable x || eqStr (mrState (mvReport x)) (u "untested").

(** The last selected and the last pinned member give the view its names. *)
Definition lastWhere (f : AutoSelectorMemberView -> bool) (l : list AutoSelectorMemberView) : option AutoSelectorMemberView :=
  fold_left (fun a x => if f x then Some x else a) l None.

Definition pollMembers (wantedTag : qstr) (report : GroupReport) (now : Z) (m : Monitor) : Monitor :=
  let members := map (memberView m (grPinned report)) (grMembers report) in
  let selected := lastWhere (fun x => mrSelected (mvReport x)) members in
  let pinned := lastWhere mvPinned members in
  let usable := zlen (List.filter countsUsable members) in
  nPhase (PollRead (mkView true wantedTag (mProfileID m) report
      (match selected with Some x => mvName x | None => [] end) (match selected with Some x => mvProfileID x | None => -1 end)
      (match pinned with Some x => mvName x | None => [] end) now 0 members) usable) m.

Definition everythingDead (next : AutoSelectorView) (usable : Z) : bool :=
  (usable =? 0) && (0 <? grMembersProbed (vwReport next)) && negb (grSuspended (vwReport next)) && negb (eqStr (grPhase (vwReport next)) (u "starting")).

Definition nextBackoff (secs : Z) : Z := if secs =? 0 then kRebuildBackoffMinSecs else Z.min (secs * 2) kRebuildBackoffMaxSecs.

Definition setExhausted (t : Z) (v : AutoSelectorView) : AutoSelectorView :=
  mkView (vwValid v) (vwGroupTag v) (vwProfileID v) (vwReport v) (vwSelectedName v) (vwSelectedProfileID v) (vwPinnedName v) (vwUpdatedAtMs v) t (vwMembers v).

Definition pollDecide (next : AutoSelectorView) (usable now : Z) (m : Monitor) : Monitor :=
  if negb (mActive m) then nPhase PollIdle m
  else
    let dead := everythingDead next usable in
    let m := note (MoDecision now (vwReport next)) m in
    let m := nExhaustedSince (if negb dead then 0 else if mExhaustedSince m =? 0 then now else mExhaustedSince m) m in
    let next := setExhausted (mExhaustedSince m) next in
    let fire :=
      negb (mExhaustedSince m =? 0) && (kPoolExhaustedGraceSecs * 1000 <=? now - mExhaustedSince m) &&
      ((mLastRebuildRequest m =? 0) || (mRebuildBackoffSecs m * 1000 <=? now - mLastRebuildRequest m)) in
    let m := if fire then note (MoRebuild now) (nExhaustedSince 0 (nRebuildBackoffSecs (nextBackoff (mRebuildBackoffSecs m)) (nLastRebuildRequest now m))) else m in
    let m := if 0 <? usable then nRebuildBackoffSecs 0 m else m in
    nPhase (PollDecided (vwProfileID next) now fire) (nView next m).

(** The locks are released; the interface is the core's answer, [None] when none
    came. *)
Definition pollAfter (profileID now : Z) (fire : bool) (iface : option qstr) (clock : Z) (m : Monitor) : Monitor :=
  let m := nPhase PollIdle (note MoUpdated m) in
  let m := if kHealthPersistSecs * 1000 <=? now - mLastHealthPersist m then PersistHealth clock m else m in
  if fire then
    match iface with
    | Some [] => m
    | _ => note (MoPoolExhausted profileID) m
    end
  else m.

(** ** Steps *)

Inductive MonitorEvent :=
| MeSetBuild (infos : list BuildInfo) (now : Z)
| MeClear (now : Z)
| MeRecheck
| MeSelect (member : qstr) (ok : bool) (error : qstr) (pinned : Z -> option Z)
| MePersist (now : Z)
| MeProfiles (latencies : gmap Z Z)
| MePoll (groups : option (list GroupReport))
| MeMembers (now : Z)
| MeDecide (now : Z)
| MeAfter (iface : option qstr) (clock : Z).

Definition monitorStep (ev : MonitorEvent) (m : Monitor) : Monitor :=
  match ev with
  | MeSetBuild infos now => SetBuild infos now m
  | MeClear now => Clear now m
  | MeRecheck => RequestRecheck m
  | MeSelect member ok error pinned => snd (RequestSelect member ok error pinned m)
  | MePersist now => PersistHealth now m
  | MeProfiles latencies => nLatencies latencies m
  | MePoll groups => match mPhase m with PollIdle => pollTag groups m | _ => m end
  | MeMembers now => match mPhase m with PollTagged tag report => pollMembers tag report now m | _ => m end
  | MeDecide now => match mPhase m with PollRead next usable => pollDecide next usable now m | _ => m end
  | MeAfter iface clock => match mPhase m with PollDecided id now fire => pollAfter id now fire iface clock m | _ => m end
  end.

Definition monitorInit (latencies : gmap Z Z) : Monitor := mkMonitor noView ∅ ∅ [] (-1) false 0 0 0 0 PollIdle latencies [].

Inductive monitorReachable : Monitor -> Prop :=
| monitor_init latencies : monitorReachable (monitorInit latencies)
| monitor_step ev m : monitorReachable m -> monitorReachable (monitorStep ev m).
