(* ===== verification/AutoSelectorMonitorFacts.v ===== *)
(** When a running pool is rebuilt: only after twenty seconds without a usable
    member, and ever more rarely while that lasts. *)
From stdpp Require Import base list gmap strings.
From Stdlib Require Import ZArith Lia Bool.
From S2P Require Import Prelude AutoSelectorMonitor.

(** ** What the trace says *)

(** The members that a report says can be used, or were not tried yet. *)
Definition canServe (r : MemberReport) : bool := existsb (eqStr (mrState r)) [u "ok"; u "degraded"; u "untested"].
Definition usableIn (r : GroupReport) : Z := zlen (List.filter canServe (grMembers r)).

(** A report that is evidence: the network is up, the pool has started, members
    were probed and none can be used. *)
Definition reportsDead (r : GroupReport) : bool :=
  negb (grSuspended r) && negb (eqStr (grPhase r) (u "starting")) && (0 <? grMembersProbed r) && forallb (fun x => negb (canServe x)) (grMembers r).

(** Every report since the one of [t0] was such evidence, with no build and no
    rebuild between. *)
Definition stillDead (o : MonitorOut) : bool :=
  match o with MoBuild | MoRebuild _ => false | MoDecision _ r => reportsDead r | _ => true end.
Definition deadStretch (t0 : Z) (out : list MonitorOut) : Prop :=
  exists pre r rest, out = pre ++ MoDecision t0 r :: rest /\ reportsDead r = true /\ forallb stillDead rest = true.

(** Every rebuild asked for has its dead stretch. *)
Definition rebuildsGrounded (out : list MonitorOut) : Prop :=
  forall pre now rest, out = pre ++ MoRebuild now :: rest -> exists t0, deadStretch t0 pre /\ kPoolExhaustedGraceSecs * 1000 <= now - t0.

(** The rebuilds since a member was last found usable, latest first. *)
Definition rebuildTimes (out : list MonitorOut) : list Z :=
  fold_left (fun l o => match o with MoRebuild t => t :: l | MoDecision _ r => if 0 <? usableIn r then [] else l | _ => l end) out [].

(** The backoff after so many rebuilds. *)
Fixpoint backoffAfter (n : nat) : Z := match n with O => 0 | S n' => nextBackoff (backoffAfter n') end.

Fixpoint spacedRebuilds (times : list Z) : Prop :=
  match times with
  | t' :: ((t :: _) as rest) => (t <> 0 -> backoffAfter (length rest) * 1000 <= t' - t) /\ spacedRebuilds rest
  | _ => True
  end.

(** Outputs that bear on neither. *)
Definition silentOut (o : MonitorOut) : bool := match o with MoBuild | MoRebuild _ | MoDecision _ _ => false | _ => true end.

Lemma deadStretch_app t0 out new : forallb stillDead new = true -> deadStretch t0 out -> deadStretch t0 (out ++ new).
Proof.
  intros Hn (pre & r & rest & -> & Hd & Hr). exists pre, r, (rest ++ new). by rewrite <- app_assoc, forallb_app, Hr, Hn.
Qed.

Lemma silent_dead new : forallb silentOut new = true -> forallb stillDead new = true.
Proof. rewrite !forallb_forall. intros Hs o Ho. specialize (Hs o Ho). by destruct o. Qed.

Lemma grounded_app out o : rebuildsGrounded out ->
  (forall now, o = MoRebuild now -> exists t0, deadStretch t0 out /\ kPoolExhaustedGraceSecs * 1000 <= now - t0) -> rebuildsGrounded (out ++ [o]).
Proof.
  intros G Ho pre now rest E. destruct (decide (rest = [])) as [->|Hr].
  - apply app_inj_tail in E as [-> ->]. by apply Ho.
  - destruct (exists_last Hr) as (rest' & x & ->). rewrite app_comm_cons, app_assoc in E. apply app_inj_tail in E as [-> _]. by apply (G _ _ rest').
Qed.

Lemma grounded_silent out new : forallb silentOut new = true -> rebuildsGrounded out -> rebuildsGrounded (out ++ new).
Proof.
  revert out. induction new as [|o new IH]; intros out Hn G; [by rewrite app_nil_r|]. cbn in Hn. apply andb_prop in Hn as [Ho Hn].
  replace (out ++ o :: new) with ((out ++ [o]) ++ new) by (by rewrite <- app_assoc). apply IH; [done|].
  apply grounded_app; [done|]. intros now ->. done.
Qed.

Lemma rebuildTimes_app out o : rebuildTimes (out ++ [o]) =
  match o with MoRebuild t => t :: rebuildTimes out | MoDecision _ r => if 0 <? usableIn r then [] else rebuildTimes out | _ => rebuildTimes out end.
Proof. unfold rebuildTimes. by rewrite fold_left_app. Qed.

Lemma rebuildTimes_silent out new : forallb silentOut new = true -> rebuildTimes (out ++ new) = rebuildTimes out.
Proof.
  revert out. induction new as [|o new IH]; intros out Hn; [by rewrite app_nil_r|]. cbn in Hn. apply andb_prop in Hn as [Ho Hn].
  replace (out ++ o :: new) with ((out ++ [o]) ++ new) by (by rewrite <- app_assoc). rewrite IH, rebuildTimes_app by done. by destruct o.
Qed.

(** ** The invariant *)

Record monitorOk (m : Monitor) : Prop := {
  mo_since : mExhaustedSince m = 0 \/ deadStretch (mExhaustedSince m) (mOut m);
  mo_grounded : rebuildsGrounded (mOut m);
  mo_backoff : mRebuildBackoffSecs m = backoffAfter (length (rebuildTimes (mOut m)));
  mo_last : match rebuildTimes (mOut m) with [] => True | t :: _ => mLastRebuildRequest m = t end;
  mo_spaced : spacedRebuilds (rebuildTimes (mOut m))
}.

(** A step that decides nothing. *)
Record aside (m m' : Monitor) : Prop := {
  as_since : mExhaustedSince m' = mExhaustedSince m;
  as_backoff : mRebuildBackoffSecs m' = mRebuildBackoffSecs m;
  as_last : mLastRebuildRequest m' = mLastRebuildRequest m;
  as_out : exists new, mOut m' = mOut m ++ new /\ forallb silentOut new = true
}.

Lemma aside_same m m' : mExhaustedSince m' = mExhaustedSince m -> mRebuildBackoffSecs m' = mRebuildBackoffSecs m ->
  mLastRebuildRequest m' = mLastRebuildRequest m -> mOut m' = mOut m -> aside m m'.
Proof. intros A B C D. split; try done. exists []. by rewrite D, app_nil_r. Qed.

Ltac same_clock := apply aside_same; reflexivity.

#[export] Instance aside_preorder : PreOrder aside.
Proof.
  split; [intros m; same_clock|]. intros m m1 m2 [A1 A2 A3 (a & A4 & A5)] [B1 B2 B3 (b & B4 & B5)]. split; try congruence.
  exists (a ++ b). by rewrite B4, A4, <- app_assoc, forallb_app, A5, B5.
Qed.

Lemma aside_note o m m1 : silentOut o = true -> aside m m1 -> aside m (note o m1).
Proof. intros Ho H1. etrans; [exact H1|]. split; try done. exists [o]. by cbn; rewrite Ho. Qed.

Lemma aside_ok m m' : aside m m' -> monitorOk m -> monitorOk m'.
Proof.
  intros [A1 A2 A3 (new & A4 & A5)] [M1 M2 M3 M4 M5]. split; rewrite ?A1, ?A2, ?A3, ?A4, ?rebuildTimes_silent by done; try done.
  - destruct M1 as [?|D]; [by left|right]. apply deadStretch_app; [by apply silent_dead|done].
  - by apply grounded_silent.
Qed.

Lemma persist_aside now m : aside m (PersistHealth now m).
Proof.
  unfold PersistHealth. destruct (_ || _); [done|]. destruct (grSuspended _); [done|]. cbv zeta.
  destruct (fold_left _ _ _) as [latencies dirty]. destruct (isNil dirty); [same_clock|]. apply aside_note; [done|]. same_clock.
Qed.

(** A build, or its end. *)
Lemma build_ok m m' : mExhaustedSince m' = 0 -> mRebuildBackoffSecs m' = mRebuildBackoffSecs m -> mLastRebuildRequest m' = mLastRebuildRequest m ->
  mOut m' = mOut m ++ [MoBuild] -> monitorOk m -> monitorOk m'.
Proof.
  intros A B C D [M1 M2 M3 M4 M5]. split; rewrite ?A, ?B, ?C, ?D, ?rebuildTimes_app; try done; [by left|]. by apply grounded_app.
Qed.

(** ** The decision *)

(** The count of a poll is that of the report it read. *)
Definition countedPhase (m : Monitor) : Prop := match mPhase m with PollRead next usable => usable = usableIn (vwReport next) | _ => True end.

Lemma counted_members tag report now m : countedPhase (pollMembers tag report now m).
Proof.
  unfold countedPhase, pollMembers, usableIn. cbn [mPhase nPhase vwReport]. induction (grMembers report) as [|r l IH]; [done|]. cbn [map List.filter].
  assert (countsUsable (memberView m (grPinned report) r) = canServe r) as ->.
  { unfold countsUsable, isUsable, memberView, canServe. cbn [existsb mvReport]. by rewrite orb_false_r, orb_assoc. }
  destruct (canServe r); [|done]. unfold zlen in *. cbn [length]. lia.
Qed.

Lemma persist_phase now m : mPhase (PersistHealth now m) = mPhase m.
Proof.
  unfold PersistHealth. destruct (_ || _); [done|]. destruct (grSuspended _); [done|]. cbv zeta. destruct (fold_left _ _ _) as [l d]. by destruct (isNil d).
Qed.

Lemma counted_step ev m : countedPhase m -> countedPhase (monitorStep ev m).
Proof.
  intros M. assert (Hs : forall m', mPhase m' = mPhase m -> countedPhase m') by (intros m' E; unfold countedPhase; by rewrite E).
  assert (Hi : forall m', mPhase m' = PollIdle -> countedPhase m') by (intros m' E; unfold countedPhase; by rewrite E).
  destruct ev; cbn [monitorStep].
  - by destruct infos; apply Hs.
  - apply Hs. unfold Clear. apply persist_phase.
  - apply Hs. unfold RequestRecheck. by destruct (mActive m).
  - apply Hs. unfold RequestSelect. by repeat case_match.
  - apply Hs, persist_phase.
  - by apply Hs.
  - destruct (mPhase m); try exact M. unfold pollTag, countedPhase. destruct groups as [gs|]; [|done]. destruct (negb _); [done|]. by destruct (List.find _ _).
  - destruct (mPhase m); try exact M. apply counted_members.
  - destruct (mPhase m); try exact M. unfold pollDecide. destruct (negb _); [by apply Hi|]. done.
  - destruct (mPhase m); try exact M. apply Hi. unfold pollAfter. cbv zeta. repeat case_match; cbn [mPhase note nOut]; rewrite ?persist_phase; done.
Qed.

(** The poll's verdict is what its report says. *)
Lemma dead_reported next usable : usable = usableIn (vwReport next) -> everythingDead next usable = reportsDead (vwReport next).
Proof.
  intros ->. unfold everythingDead, reportsDead, usableIn.
  assert ((zlen (List.filter canServe (grMembers (vwReport next))) =? 0) = forallb (fun x => negb (canServe x)) (grMembers (vwReport next))) as ->.
  { induction (grMembers (vwReport next)) as [|r l IH]; [done|]. cbn [List.filter forallb]. destruct (canServe r); cbn [negb andb]; [|done]. unfold zlen. cbn [length]. destruct (Z.eqb_spec (Z.of_nat (S (length (List.filter canServe l)))) 0); [lia|done]. }
  destruct (forallb _ _), (0 <? _), (grSuspended _), (eqStr _ _); done.
Qed.

Lemma dead_usable next usable : everythingDead next usable = true -> usable = 0.
Proof. unfold everythingDead. intros E. apply andb_prop in E as [E _]. apply andb_prop in E as [E _]. apply andb_prop in E as [E _]. by apply Z.eqb_eq. Qed.

Lemma decide_ok next usable now m : usable = usableIn (vwReport next) -> monitorOk m -> monitorOk (pollDecide next usable now m).
Proof.
  intros Hu [M1 M2 M3 M4 M5]. pose proof (dead_reported next usable Hu) as Hdead.
  unfold pollDecide. destruct (negb (mActive m)); [by apply (aside_ok m); [same_clock|split]|]. cbv zeta.
  set (dead := everythingDead next usable) in *. set (m1 := nExhaustedSince _ (note (MoDecision now (vwReport next)) m)).
  assert (O1 : mOut m1 = mOut m ++ [MoDecision now (vwReport next)]) by reflexivity.
  assert (S1 : mExhaustedSince m1 = 0 \/ (dead = true /\ deadStretch (mExhaustedSince m1) (mOut m1))).
  { destruct dead eqn:Ed; [|by left]. destruct (Z.eqb_spec (mExhaustedSince m) 0) as [E0|E0].
    - right. split; [done|]. exists (mOut m), (vwReport next), []. split; [|done]. cbn. by rewrite (proj2 (Z.eqb_eq _ _) E0).
    - right. split; [done|]. destruct M1 as [?|D]; [done|]. rewrite O1. cbn [mExhaustedSince m1 nExhaustedSince negb].
      change (mExhaustedSince (note _ m)) with (mExhaustedSince m). rewrite (proj2 (Z.eqb_neq _ _) E0). apply deadStretch_app; [|done].
      cbn [forallb stillDead]. by rewrite <- Hdead. }
  assert (G1 : rebuildsGrounded (mOut m1)) by (rewrite O1; by apply grounded_app).
  assert (T1 : rebuildTimes (mOut m1) = if 0 <? usable then [] else rebuildTimes (mOut m)) by (by rewrite O1, rebuildTimes_app, Hu).
  assert (B1 : mRebuildBackoffSecs m1 = mRebuildBackoffSecs m) by reflexivity.
  assert (L1 : mLastRebuildRequest m1 = mLastRebuildRequest m) by reflexivity.
  clearbody m1. set (fire := negb _ && _ && _). destruct fire eqn:Ef; unfold fire in Ef.
  - apply andb_prop in Ef as [Ef Ek]. apply andb_prop in Ef as [E0 Eg]. apply negb_true_iff, Z.eqb_neq in E0. apply Z.leb_le in Eg.
    destruct S1 as [?|[Hd D]]; [done|]. pose proof (dead_usable next usable Hd) as ->. cbn [Z.ltb] in *. change (0 <? 0) with false in *. cbv iota in *.
    cbn [mExhaustedSince mOut mRebuildBackoffSecs mLastRebuildRequest nPhase nView].
    apply (aside_ok (note (MoRebuild now) (nExhaustedSince 0 (nRebuildBackoffSecs (nextBackoff (mRebuildBackoffSecs m1)) (nLastRebuildRequest now m1))))); [same_clock|].
    split; cbn [mExhaustedSince mOut mRebuildBackoffSecs mLastRebuildRequest note nOut nExhaustedSince nRebuildBackoffSecs nLastRebuildRequest].
    + by left.
    + apply grounded_app; [done|]. intros t [= <-]. by exists (mExhaustedSince m1).
    + rewrite rebuildTimes_app, T1, B1, M3. done.
    + by rewrite rebuildTimes_app.
    + rewrite rebuildTimes_app, T1. destruct (rebuildTimes (mOut m)) as [|t l] eqn:El; [done|]. split; [|done]. intros Ht.
      rewrite L1, M4 in Ek. apply orb_prop in Ek as [Ek|Ek]; [by apply Z.eqb_eq in Ek|]. apply Z.leb_le in Ek. rewrite B1, M3 in Ek. exact Ek.
  - apply (aside_ok (if 0 <? usable then nRebuildBackoffSecs 0 m1 else m1)); [same_clock|].
    assert (S2 : mExhaustedSince m1 = 0 \/ deadStretch (mExhaustedSince m1) (mOut m1)) by (destruct S1 as [?|[_ ?]]; auto).
    destruct (0 <? usable); split; cbn [mExhaustedSince mOut mRebuildBackoffSecs mLastRebuildRequest nRebuildBackoffSecs]; rewrite ?T1, ?B1, ?L1; done.
Qed.

Lemma step_ok ev m : countedPhase m -> monitorOk m -> monitorOk (monitorStep ev m).
Proof.
  intros Hc M. destruct ev; cbn [monitorStep].
  - destruct infos as [|info infos]; by apply (build_ok m).
  - unfold Clear. cbv zeta. assert (M1 : monitorOk (PersistHealth now m)) by (by apply (aside_ok m), M; apply persist_aside).
    generalize dependent (PersistHealth now m). intros m1 M1. by apply (build_ok m1).
  - apply (aside_ok m), M. unfold RequestRecheck. destruct (mActive m); [by apply aside_note|done].
  - apply (aside_ok m), M. unfold RequestSelect. destruct (negb _); [done|]. cbv zeta. destruct (_ && _); [done|].
    assert (A : aside m (note (MoSelect (mGroupTag m) member) m)) by (by apply aside_note). destruct (negb ok); [exact A|].
    destruct (negb _); [exact A|]. destruct (pinned _) as [old|]; [|exact A]. cbn [snd]. destruct (old =? _); [exact A|]. by apply aside_note.
  - apply (aside_ok m), M. apply persist_aside.
  - apply (aside_ok m), M. same_clock.
  - apply (aside_ok m), M. destruct (mPhase m); try done. unfold pollTag. destruct groups as [groups|]; [|same_clock].
    destruct (negb _); [same_clock|]. destruct (List.find _ _); same_clock.
  - apply (aside_ok m), M. destruct (mPhase m); try done. same_clock.
  - unfold countedPhase in Hc. destruct (mPhase m); try done. by apply decide_ok.
  - apply (aside_ok m), M. destruct (mPhase m) as [| | |id t fire]; try done. unfold pollAfter. cbv zeta.
    set (m1 := nPhase PollIdle _). assert (A1 : aside m m1) by (transitivity (note MoUpdated m); [by apply aside_note|same_clock]). clearbody m1.
    set (m2 := if _ : bool then PersistHealth clock m1 else m1). assert (A2 : aside m m2) by (unfold m2; destruct (_ <=? _); [etrans; [exact A1|apply persist_aside]|exact A1]).
    clearbody m2. destruct fire; [|done]. destruct iface as [[|]|]; [done|by apply aside_note..].
Qed.

Lemma reachable_monitorOk m : monitorReachable m -> monitorOk m.
Proof.
  intros Hr. enough (countedPhase m /\ monitorOk m) by tauto. induction Hr as [latencies|ev m _ [Hc IH]].
  - split; [done|]. split; try done; [by left|]. intros pre now rest E. by destruct pre.
  - split; [by apply counted_step|by apply step_ok].
Qed.


(** Rebuilds back off: while no member is found usable, the next rebuild waits
    60 seconds after the first, then 120, 240, 480 and 600 for every further one. *)
Theorem rebuild_backoff m : monitorReachable m ->
  spacedRebuilds (rebuildTimes (mOut m)) /\ map backoffAfter [1; 2; 3; 4; 5; 6]%nat = [60; 120; 240; 480; 600; 600] /\
  forall n, (5 <= n)%nat -> backoffAfter n = 600.
Proof.
  intros Hr. split; [exact (mo_spaced m (reachable_monitorOk m Hr))|]. split; [reflexivity|].
  intros n Hn. replace n with (5 + (n - 5))%nat by lia. generalize (n - 5)%nat. clear. intros k. rewrite Nat.add_comm.
  induction k as [|k IH]; [reflexivity|]. cbn [backoffAfter Nat.add]. by rewrite IH.
Qed.

(** What is stored is what the core measured: a changed result is a probed
    member's average, or the mark of a dead one; a suspended core changes nothing. *)
Lemma persist_fold members latencies dirty latencies' dirty' id :
  fold_left (fun a x => persistMember x a) members (latencies, dirty) = (latencies', dirty') -> latencies' !! id <> latencies !! id ->
  exists x latency, In x members /\ mvProfileID x = id /\ healthOf x = Some latency /\ latencies' !! id = Some latency.
Proof.
  revert latencies dirty. induction members as [|x members IH]; intros latencies dirty E Hne; cbn [fold_left] in E; [by injection E as -> ->|].
  destruct (persistMember x (latencies, dirty)) as [l1 d1] eqn:Ep.
  destruct (decide (latencies' !! id = l1 !! id)) as [Hs|Hs].
  - assert (K : exists latency, mvProfileID x = id /\ healthOf x = Some latency /\ l1 !! id = Some latency).
    { unfold persistMember in Ep. destruct (healthOf x) as [h|]; [|congruence]. destruct (latencies !! mvProfileID x) as [old|] eqn:El; [|congruence].
      destruct (old =? h); [congruence|]. injection Ep as <- <-. exists h. destruct (decide (mvProfileID x = id)) as [<-|Hn]; [by rewrite lookup_insert_eq|].
      rewrite lookup_insert_ne in Hs by done. congruence. }
    destruct K as (latency & K1 & K2 & K3). exists x, latency. split_and!; [by left|done..|congruence].
  - destruct (IH _ _ E Hs) as (y & latency & Hin & K). exists y, latency. split; [by right|done].
Qed.

Lemma PersistHealth_honest now m id : mLatencies (PersistHealth now m) !! id <> mLatencies m !! id ->
  mActive m = true /\ grSuspended (vwReport (mView m)) = false /\
  exists x latency, In x (vwMembers (mView m)) /\ mvProfileID x = id /\ healthOf x = Some latency /\ mLatencies (PersistHealth now m) !! id = Some latency.
Proof.
  unfold PersistHealth. destruct (mActive m); cbn [negb orb]; [|done]. destruct (negb (vwValid _)); [done|].
  destruct (grSuspended _); [done|]. cbv zeta. destruct (fold_left _ _ _) as [latencies dirty] eqn:E. intros Hne.
  assert (EL : mLatencies (if isNil dirty then nLatencies latencies (nLastHealthPersist now m) else note (MoSaved dirty) (nLatencies latencies (nLastHealthPersist now m))) = latencies)
    by (by destruct (isNil dirty)).
  rewrite EL in *. split_and!; [done..|]. exact (persist_fold _ _ _ _ _ id E Hne).
Qed.

(** ** A pool that fails *)

Definition deadMember : MemberReport :=
  mkMemberReport (u "out-1") 1 (u "dead") false false false false 0 0 0 0 4 4 4 0 0 0 0 0 [].
Definition freshMember : MemberReport :=
  mkMemberReport (u "out-1") 1 (u "untested") false false false false 0 0 0 0 0 0 0 0 0 0 0 0 [].
Definition poolReport (member : MemberReport) (probed : Z) : GroupReport :=
  mkGroupReport (u "auto") (u "ready") [] [] false [] false 0 1 probed 0 0 0 0 1 0 0 0 [] [member].
Definition poolBuild : BuildInfo := mkBuildInfo (u "auto") 9 [(u "out-1", Some (3, u "Server"))].

Definition pollAt (member : MemberReport) (probed now : Z) : list MonitorEvent :=
  [MePoll (Some [poolReport member probed]); MeMembers now; MeDecide now; MeAfter (Some (u "eth0")) now].
Definition runMonitor (evs : list MonitorEvent) : Monitor := fold_left (fun m ev => monitorStep ev m) evs (monitorInit {[3 := 120]}).

Lemma runMonitor_reachable evs : monitorReachable (runMonitor evs).
Proof.
  unfold runMonitor. generalize (monitor_init {[3 := 120]}). generalize (monitorInit {[3 := 120]}).
  induction evs as [|ev evs IH]; intros m Hm; [done|]. cbn [fold_left]. apply IH. by constructor.
Qed.

Definition failedPool : list MonitorEvent := MeSetBuild [poolBuild] 1000 :: pollAt deadMember 1 10000 ++ pollAt deadMember 1 30000.

(** A rebuilt pool starts untested, which counts as usable: the next rebuild comes
    after the grace period alone. *)
Example backoff_reset_run :
  let evs := failedPool ++ [MeSetBuild [poolBuild] 31000] ++ pollAt freshMember 0 32000 ++ pollAt deadMember 1 34000 ++ pollAt deadMember 1 54000 in
  mRebuildBackoffSecs (runMonitor failedPool) = 60 /\ List.filter (fun o => match o with MoRebuild _ => true | _ => false end) (mOut (runMonitor evs)) = [MoRebuild 30000; MoRebuild 54000] /\
  mLatencies (runMonitor evs) !! 3 = Some 120.
Proof. vm_compute. repeat split. Qed.


Lemma rebuild_backoff_witness : spacedRebuilds (rebuildTimes (mOut (runMonitor failedPool))).
Proof. exact (proj1 (rebuild_backoff (runMonitor failedPool) (runMonitor_reachable failedPool))). Defined.
