(* ===== verification/KillSwitch.v ===== *)
(** The kill switch: src/src/sys/KillSwitch.cpp.

    [KS] holds the members of KillSwitch, the settings it reads, the API port and
    the guard processes ([ksGuards], by a number for the pointer; deleteLater
    removes one).  A method is a function on [KS]; what it does outside is the
    trace [ksOut]: signals, guard processes started, written to, closed and
    stopped, and callbacks called.  [ksStep] is one turn of the UI thread: a call
    from another component or an event of a guard process or a timer.  A callback
    and the slots of stateChanged run as turns of their own.  Log lines, and with
    them the guard's standard error, are left out. *)
From stdpp Require Import base list gmap strings.
From Stdlib Require Import ZArith Lia Bool.
From S2P Require Import Prelude Json.

(** ** Constants and data *)

Inductive Os := Windows | MacOS | Linux.

#[export] Instance Os_eq_dec : EqDecision Os.
Proof. solve_decision. Defined.

(** The platform; on Windows the absolute clean native form of a path. *)
Class Host := { hostOs : Os; cleanAbsolutePath : qstr -> qstr }.

Definition kReadyTimeoutMs : Z := 15000.
Definition kCloseGraceMs : Z := 5000.
Definition kRespawnIntervalMs : Z := 30000.

Definition kPrivilege := u "privilege".
Definition kUnsupported := u "unsupported".
Definition kConfig := u "config".
Definition kTampered := u "tampered".
Definition kInternal := u "internal".
Definition kCrash := u "crash".
Definition kTimeout := u "timeout".
Definition kOverridden := u "overridden".

Inductive KsState := Disabled | Arming | Armed | Failed.

#[export] Instance KsState_eq_dec : EqDecision KsState.
Proof. solve_decision. Defined.

(** What of the shared settings the kill switch reads and writes. *)
Record KsSettings := mkKsSettings {
  sKillSwitch : bool;
  sDisablePrivateRangeBypass : bool;
  sTunIpv4Cidr : qstr;
  sTunIpv6Cidr : qstr;
  sL3Bridge : bool;
  sExtraCorePaths : list qstr;
  sPrepareExit : bool
}.

Record GuardConfig := mkGuardConfig { gcJson : list Z; gcExtraPaths : list qstr }.

Inductive ProcState := GNotRunning | GStarting | GRunning.

(** GuardProcess with the QProcess it is: its state, the open write channel and
    the output not yet read. *)
Record Guard := mkGuard {
  gConfig : list Z;
  gLaunch : list Z;
  gExtraPaths : list qstr;
  gTimer : bool;
  gReady : bool;
  gClosing : bool;
  gProc : ProcState;
  gStdin : bool;
  gStdout : list Z
}.

Inductive Callback := CbUser (id : nat) | CbPermit (path : qstr).

Record Waiter := mkWaiter { wContext : nat; wBound : bool; wIdle : bool; wCallback : Callback }.

Inductive KsOut :=
| OStateChanged (s : KsState)
| OSpawn (i : nat)
| OWrite (i : nat) (bytes : list Z)
| OCloseWrite (i : nat)
| OStopHard (i : nat)
| OCall (id : nat) (armed : bool)
| OPermit (path : qstr) (ok : bool)
| OSaveSettings
| OQueueApiPort
| ORearmTimer.

Record KS := mkKS {
  ksState : KsState;
  ksIdentity : bool;
  ksDetail : qstr;
  ksOverride : bool;
  ksActive : option nat;
  ksPending : option nat;
  ksCode : qstr;
  ksMessage : Message;
  ksRespawn : option Z;
  ksWaiters : list Waiter;
  ksShutdown : bool;
  ksGuards : gmap nat Guard;
  ksNext : nat;
  ksApiPort : Z;
  ksSettings : KsSettings;
  ksDead : list nat;
  ksOut : list KsOut
}.

(** ** Updates *)

Definition setState v k := mkKS v (ksIdentity k) (ksDetail k) (ksOverride k) (ksActive k) (ksPending k) (ksCode k) (ksMessage k) (ksRespawn k) (ksWaiters k) (ksShutdown k) (ksGuards k) (ksNext k) (ksApiPort k) (ksSettings k) (ksDead k) (ksOut k).
Definition setIdentity v d k := mkKS (ksState k) v d (ksOverride k) (ksActive k) (ksPending k) (ksCode k) (ksMessage k) (ksRespawn k) (ksWaiters k) (ksShutdown k) (ksGuards k) (ksNext k) (ksApiPort k) (ksSettings k) (ksDead k) (ksOut k).
Definition withOverride v k := mkKS (ksState k) (ksIdentity k) (ksDetail k) v (ksActive k) (ksPending k) (ksCode k) (ksMessage k) (ksRespawn k) (ksWaiters k) (ksShutdown k) (ksGuards k) (ksNext k) (ksApiPort k) (ksSettings k) (ksDead k) (ksOut k).
Definition setActive v k := mkKS (ksState k) (ksIdentity k) (ksDetail k) (ksOverride k) v (ksPending k) (ksCode k) (ksMessage k) (ksRespawn k) (ksWaiters k) (ksShutdown k) (ksGuards k) (ksNext k) (ksApiPort k) (ksSettings k) (ksDead k) (ksOut k).
Definition setPending v k := mkKS (ksState k) (ksIdentity k) (ksDetail k) (ksOverride k) (ksActive k) v (ksCode k) (ksMessage k) (ksRespawn k) (ksWaiters k) (ksShutdown k) (ksGuards k) (ksNext k) (ksApiPort k) (ksSettings k) (ksDead k) (ksOut k).
Definition setFailure c m k := mkKS (ksState k) (ksIdentity k) (ksDetail k) (ksOverride k) (ksActive k) (ksPending k) c m (ksRespawn k) (ksWaiters k) (ksShutdown k) (ksGuards k) (ksNext k) (ksApiPort k) (ksSettings k) (ksDead k) (ksOut k).
Definition setRespawn v k := mkKS (ksState k) (ksIdentity k) (ksDetail k) (ksOverride k) (ksActive k) (ksPending k) (ksCode k) (ksMessage k) v (ksWaiters k) (ksShutdown k) (ksGuards k) (ksNext k) (ksApiPort k) (ksSettings k) (ksDead k) (ksOut k).
Definition setWaiters v k := mkKS (ksState k) (ksIdentity k) (ksDetail k) (ksOverride k) (ksActive k) (ksPending k) (ksCode k) (ksMessage k) (ksRespawn k) v (ksShutdown k) (ksGuards k) (ksNext k) (ksApiPort k) (ksSettings k) (ksDead k) (ksOut k).
Definition setShutdown v k := mkKS (ksState k) (ksIdentity k) (ksDetail k) (ksOverride k) (ksActive k) (ksPending k) (ksCode k) (ksMessage k) (ksRespawn k) (ksWaiters k) v (ksGuards k) (ksNext k) (ksApiPort k) (ksSettings k) (ksDead k) (ksOut k).
Definition setGuards v k := mkKS (ksState k) (ksIdentity k) (ksDetail k) (ksOverride k) (ksActive k) (ksPending k) (ksCode k) (ksMessage k) (ksRespawn k) (ksWaiters k) (ksShutdown k) v (ksNext k) (ksApiPort k) (ksSettings k) (ksDead k) (ksOut k).
Definition setNext v k := mkKS (ksState k) (ksIdentity k) (ksDetail k) (ksOverride k) (ksActive k) (ksPending k) (ksCode k) (ksMessage k) (ksRespawn k) (ksWaiters k) (ksShutdown k) (ksGuards k) v (ksApiPort k) (ksSettings k) (ksDead k) (ksOut k).
Definition setApiPortTo v k := mkKS (ksState k) (ksIdentity k) (ksDetail k) (ksOverride k) (ksActive k) (ksPending k) (ksCode k) (ksMessage k) (ksRespawn k) (ksWaiters k) (ksShutdown k) (ksGuards k) (ksNext k) v (ksSettings k) (ksDead k) (ksOut k).
Definition setSettings v k := mkKS (ksState k) (ksIdentity k) (ksDetail k) (ksOverride k) (ksActive k) (ksPending k) (ksCode k) (ksMessage k) (ksRespawn k) (ksWaiters k) (ksShutdown k) (ksGuards k) (ksNext k) (ksApiPort k) v (ksDead k) (ksOut k).
Definition setDead v k := mkKS (ksState k) (ksIdentity k) (ksDetail k) (ksOverride k) (ksActive k) (ksPending k) (ksCode k) (ksMessage k) (ksRespawn k) (ksWaiters k) (ksShutdown k) (ksGuards k) (ksNext k) (ksApiPort k) (ksSettings k) v (ksOut k).
Definition emit o k := mkKS (ksState k) (ksIdentity k) (ksDetail k) (ksOverride k) (ksActive k) (ksPending k) (ksCode k) (ksMessage k) (ksRespawn k) (ksWaiters k) (ksShutdown k) (ksGuards k) (ksNext k) (ksApiPort k) (ksSettings k) (ksDead k) (ksOut k ++ [o]).

Definition gSetTimer v g := mkGuard (gConfig g) (gLaunch g) (gExtraPaths g) v (gReady g) (gClosing g) (gProc g) (gStdin g) (gStdout g).
Definition gSetReady v g := mkGuard (gConfig g) (gLaunch g) (gExtraPaths g) (gTimer g) v (gClosing g) (gProc g) (gStdin g) (gStdout g).
Definition gSetClosing v g := mkGuard (gConfig g) (gLaunch g) (gExtraPaths g) (gTimer g) (gReady g) v (gProc g) (gStdin g) (gStdout g).
Definition gSetProc v g := mkGuard (gConfig g) (gLaunch g) (gExtraPaths g) (gTimer g) (gReady g) (gClosing g) v (gStdin g) (gStdout g).
Definition gSetStdin v g := mkGuard (gConfig g) (gLaunch g) (gExtraPaths g) (gTimer g) (gReady g) (gClosing g) (gProc g) v (gStdout g).
Definition gSetStdout v g := mkGuard (gConfig g) (gLaunch g) (gExtraPaths g) (gTimer g) (gReady g) (gClosing g) (gProc g) (gStdin g) v.

Definition onGuard (i : nat) (f : Guard -> Guard) (k : KS) : KS := setGuards (alter f i (ksGuards k)) k.
Definition deleteGuard (i : nat) (k : KS) : KS := setGuards (delete i (ksGuards k)) k.

Definition isState (s : KsState) (k : KS) : bool := bool_decide (ksState k = s).
(** Pointer comparison. *)
Definition isPtr (i : nat) (o : option nat) : bool := bool_decide (o = Some i).

Section KillSwitch.
Context {Q : QtChar} {U : Utf8} {J : JsonText} {H : Host}.

(** ** The guard's configuration *)

Definition tunName : qstr := match hostOs with MacOS => [] | _ => u "throne-tun" end.

Definition bridgeName (s : KsSettings) : qstr :=
  match hostOs with Linux => if sL3Bridge s then u "throne-br" else [] | _ => [] end.

Definition nativePath (path : qstr) : qstr :=
  if isNil (trimmed path) then [] else cleanAbsolutePath (trimmed path).

Definition containsPath (paths : list qstr) (path : qstr) : bool := existsb (fun p => eqFold p path) paths.
Definition listsPath (paths : list qstr) (path : qstr) : bool := containsPath paths (nativePath path).

(** The loop over the extra core paths. *)
Fixpoint extraPaths (paths : list qstr) (acc : list qstr) : list qstr :=
  match paths with
  | [] => acc
  | path :: paths' =>
      let native := nativePath path in
      extraPaths paths' (if negb (isNil native) && negb (containsPath acc native) then acc ++ [native] else acc)
  end.

Definition configObject (s : KsSettings) (apiPort : Z) (extra : list qstr) : jobject :=
  mkObject [(u "allow_lan", JBool (negb (sDisablePrivateRangeBypass s)));
            (u "tun_name", JStr tunName);
            (u "tun_cidrs", JArr [JStr (sTunIpv4Cidr s); JStr (sTunIpv6Cidr s)]);
            (u "extra_paths", JArr (map JStr extra));
            (u "bridge_name", JStr (bridgeName s));
            (u "api_port", JInt apiPort)].

Definition buildConfig (k : KS) : GuardConfig :=
  let s := ksSettings k in
  let extra := match hostOs with Windows => extraPaths (sExtraCorePaths s) [] | _ => [] end in
  mkGuardConfig (toJsonText (JObj (configObject s (ksApiPort k) extra))) extra.

(** The launch-only key of a guard that replaces a running one. *)
Definition keepStates (config : list Z) : list Z :=
  let object := match fromJsonText config with Some j => toObject j | None => [] end in
  toJsonText (JObj (objInsert (u "keep_states") (JBool true) object)).

(** ** State queries *)

Definition allowsStart (k : KS) : bool := isState Disabled k || isState Armed k.

Definition failedForPrivileges (k : KS) : bool := isState Failed k && eqStr (ksCode k) kPrivilege.

Definition failedPersistently (k : KS) : bool :=
  isState Failed k &&
  (eqStr (ksCode k) kPrivilege || eqStr (ksCode k) kUnsupported || eqStr (ksCode k) kConfig || eqStr (ksCode k) kOverridden).

Definition failedForIdentity (k : KS) : bool :=
  isState Failed k && eqStr (ksCode k) kUnsupported && ksIdentity k && (isSome (ksActive k) || isSome (ksPending k)).

(** A QString is empty, or is this literal text. *)
Definition messageEmpty (m : Message) : bool := match m with MText [] => true | _ => false end.
Definition messageIs (m : Message) (s : qstr) : bool := match m with MText t => eqStr t s | MTr _ _ => false end.

(** The parts of the text, in order. *)
Definition failureText (k : KS) : list Message :=
  let withDetails text := if messageEmpty (ksMessage k) then [text] else [text; MText [cLF; cLF]; MTr (u "Details: %1") [ksMessage k]] in
  if eqStr (ksCode k) kOverridden then [ksMessage k]
  else if eqStr (ksCode k) kPrivilege then
    withDetails (match hostOs with
                 | Windows => tr0 "The kill switch needs Throne to run as administrator."
                 | _ => tr0 "The kill switch needs the core to have root privileges."
                 end)
  else if eqStr (ksCode k) kUnsupported then
    [if messageEmpty (ksMessage k) then tr0 "The kill switch is not supported on this system." else ksMessage k]
  else if eqStr (ksCode k) kTampered then
    withDetails (tr0 "Another program removed the kill switch rules or disabled the system firewall.")
  else if eqStr (ksCode k) kConfig then withDetails (tr0 "The kill switch rejected its settings.")
  else withDetails (tr0 "The kill switch process stopped unexpectedly.").

Definition killSwitchIdentityMessage (detail : qstr) : qstr :=
  u "the core cannot adopt the kill-switch group 1950896719 here (it needs CAP_SETGID and that GID mapped in this user namespace); the kill switch keeps blocking traffic, and profiles stay refused until kill_switch is turned off" ++
  (if isNil detail then [] else u "; the core reported: " ++ detail).

Definition overriddenMessage : qstr :=
  u "turned off for this run by --no-kill-switch (THRONE_KILL_SWITCH); profiles stay refused until kill_switch is turned off".

(** ** State changes and waiters *)

Definition changeState (s : KsState) (k : KS) : KS :=
  let k := match s with Failed => k | _ => setFailure [] (MText []) k end in
  if isState s k then k else emit (OStateChanged s) (setState s k).

(** What a waiter's callback does. *)
Definition callWaiter (w : Waiter) (k : KS) : KS :=
  match wCallback w with
  | CbUser id => emit (OCall id (isState Armed k)) k
  | CbPermit path =>
      let permitted := match ksActive k with
                       | Some i => match ksGuards k !! i with Some g => listsPath (gExtraPaths g) path | None => false end
                       | None => false
                       end in
      emit (OPermit path (isState Armed k && permitted)) k
  end.

Definition stillWaits (w : Waiter) (k : KS) : bool :=
  if wIdle w then isSome (ksPending k) else isState Arming k.

Definition contextGone (w : Waiter) (k : KS) : bool := wBound w && bool_decide (wContext w ∈ ksDead k).

Fixpoint settleLoop (waiting : list Waiter) (k : KS) : KS :=
  match waiting with
  | [] => k
  | w :: waiting' =>
      settleLoop waiting'
        (if stillWaits w k then setWaiters (ksWaiters k ++ [w]) k
         else if contextGone w k then k
         else callWaiter w k)
  end.

Definition settle (k : KS) : KS := settleLoop (ksWaiters k) (setWaiters [] k).

Definition fail (code : qstr) (message : Message) (k : KS) : KS :=
  settle (changeState Failed (setFailure code message k)).

Definition failIdentity (k : KS) : KS :=
  let message := killSwitchIdentityMessage (ksDetail k) in
  settle (if negb (isState Failed k) || negb (eqStr (ksCode k) kUnsupported) || negb (messageIs (ksMessage k) message)
          then changeState Failed (setFailure kUnsupported (MText message) k)
          else k).

(** ** Guard processes *)

(** The write channel's end is what tells a guard to remove its rules. *)
Definition closeGuard (guard : option nat) (k : KS) : KS :=
  match guard with
  | None => k
  | Some i =>
      match ksGuards k !! i with
      | None => k
      | Some g =>
          if gClosing g then k
          else
            let k := onGuard i (fun g => gSetTimer false (gSetClosing true g)) k in
            match gProc g with
            | GNotRunning => deleteGuard i k
            | _ => emit (OCloseWrite i) (onGuard i (gSetStdin false) k)
            end
      end
  end.

(** closeGuard(std::exchange(pending_, nullptr)) and the same of active_. *)
Definition closePending (k : KS) : KS := closeGuard (ksPending k) (setPending None k).
Definition closeActive (k : KS) : KS := closeGuard (ksActive k) (setActive None k).

Definition spawn (config : GuardConfig) (k : KS) : KS :=
  let k := closePending k in
  let i := ksNext k in
  let launch := if isSome (ksActive k) then keepStates (gcJson config) else gcJson config in
  let guard := mkGuard (gcJson config) launch (gcExtraPaths config) true false false GStarting true [] in
  let k := setPending (Some i) (setNext (S i) k) in
  let k := if negb (isSome (ksActive k)) && negb (ksIdentity k) then changeState Arming k else k in
  emit (OSpawn i) (setGuards (<[i := guard]> (ksGuards k)) k).

(** Whether the guard runs with this configuration. *)
Definition configIs (guard : option nat) (config : GuardConfig) (k : KS) : bool :=
  match guard with
  | Some i => match ksGuards k !! i with Some g => eqStr (gConfig g) (gcJson config) | None => false end
  | None => false
  end.

Definition apply (k : KS) : KS :=
  if ksShutdown k then k
  else if negb (sKillSwitch (ksSettings k)) then
    settle (changeState Disabled (closeActive (closePending (setIdentity false [] k))))
  else if ksOverride k then
    let k := closeActive (closePending k) in
    if isState Failed k && eqStr (ksCode k) kOverridden && messageIs (ksMessage k) overriddenMessage then settle k
    else fail kOverridden (MText overriddenMessage) k
  else
    let k := if ksIdentity k && isState Armed k then failIdentity k else k in
    let config := buildConfig k in
    if configIs (ksPending k) config k then k
    else if configIs (ksActive k) config k then
      if isSome (ksPending k) then settle (closePending k) else k
    else spawn config k.

Definition armFailed (code : qstr) (message : Message) (k : KS) : KS :=
  if isSome (ksActive k) then
    settle (if negb (eqStr code kPrivilege) && negb (eqStr code kUnsupported) && negb (eqStr code kConfig)
            then emit ORearmTimer k else k)
  else fail code message k.

Definition hasExpired (now : Z) (started : option Z) (interval : Z) : bool :=
  match started with Some t => interval <? now - t | None => true end.

Definition protectionLost (now : Z) (code : qstr) (message : Message) (k : KS) : KS :=
  if ksShutdown k then k
  else if negb (sKillSwitch (ksSettings k)) then apply k
  else if isSome (ksPending k) then
    settle (if negb (ksIdentity k) then changeState Arming k else k)
  else
    let recoverable := negb (eqStr code kPrivilege) && negb (eqStr code kUnsupported) && negb (eqStr code kConfig) in
    if recoverable && hasExpired now (ksRespawn k) kRespawnIntervalMs then
      let k := setRespawn (Some now) k in spawn (buildConfig k) k
    else fail code message k.

Definition onReady (i : nat) (k : KS) : KS :=
  match ksGuards k !! i with
  | None => k
  | Some g =>
      if negb (isPtr i (ksPending k)) || gReady g then k
      else
        let previous := ksActive k in
        let k := onGuard i (fun g => gSetTimer false (gSetReady true g)) k in
        let k := closeGuard previous (setPending None (setActive (Some i) k)) in
        if ksIdentity k then failIdentity k else settle (changeState Armed k)
  end.

(** The guard is gone or given up: whichever of the two it was. *)
Definition guardLost (now : Z) (wasActive wasPending : bool) (code : qstr) (lost notArmed : Message) (k : KS) : KS :=
  if wasActive then protectionLost now code lost k
  else if wasPending then armFailed code notArmed k
  else k.

Definition forget (wasActive wasPending : bool) (k : KS) : KS :=
  let k := if wasActive then setActive None k else k in
  if wasPending then setPending None k else k.

(** QString::section(sep, 0, 0) and section(sep, 1). *)
Definition sectionHead (sep : Z) (s : qstr) : qstr := match indexOf sep s with Some i => take i s | None => s end.
Definition sectionTail (sep : Z) (s : qstr) : qstr := match indexOf sep s with Some i => drop (S i) s | None => [] end.

Definition handleLine (now : Z) (i : nat) (line : qstr) (k : KS) : KS :=
  let verb := sectionHead cSpace line in
  let rest := sectionTail cSpace line in
  if eqStr verb (u "WARN") then k
  else if eqStr verb (u "READY") then onReady i k
  else if negb (eqStr verb (u "ERROR")) && negb (eqStr verb (u "FAIL")) then k
  else match ksGuards k !! i with
       | None => k
       | Some g =>
           if gClosing g then k
           else
             let code := sectionHead cSpace rest in
             let message := MText (sectionTail cSpace rest) in
             let wasActive := isPtr i (ksActive k) in
             let wasPending := isPtr i (ksPending k) in
             let k := closeGuard (Some i) (forget wasActive wasPending k) in
             guardLost now wasActive wasPending code message message k
       end.

Definition handleText (now : Z) (i : nat) (bytes : list Z) (k : KS) : KS :=
  let line := trimmed (fromUtf8 bytes) in
  if isNil line then k else handleLine now i line k.

(** while (canReadLine()): a line takes a byte at least. *)
Fixpoint readLines (fuel : nat) (now : Z) (i : nat) (k : KS) : KS :=
  match fuel with
  | O => k
  | S fuel' =>
      match ksGuards k !! i with
      | None => k
      | Some g =>
          match indexOf cLF (gStdout g) with
          | None => k
          | Some n =>
              let k := onGuard i (gSetStdout (drop (S n) (gStdout g))) k in
              readLines fuel' now i (handleText now i (take (S n) (gStdout g)) k)
          end
      end
  end.

Definition readOutput (now : Z) (i : nat) (k : KS) : KS :=
  match ksGuards k !! i with
  | None => k
  | Some g => readLines (length (gStdout g)) now i k
  end.

Definition onReadyTimeout (i : nat) (k : KS) : KS :=
  match ksGuards k !! i with
  | None => k
  | Some g =>
      if negb (isPtr i (ksPending k)) || gReady g then k
      else
        let k := closeGuard (Some i) (setPending None k) in
        armFailed kTimeout (MTr (u "the kill switch did not respond within %1 seconds") [MText (number (kReadyTimeoutMs / 1000))])
          (emit (OStopHard i) k)
  end.

Definition onStartFailed (i : nat) (message : Message) (k : KS) : KS :=
  match ksGuards k !! i with
  | None => k
  | Some g =>
      let wasPending := negb (gClosing g) && isPtr i (ksPending k) in
      let k := deleteGuard i (forget false wasPending k) in
      if wasPending then armFailed kInternal message k else k
  end.

Definition lostText (exitCode : Z) (crashed : bool) : Message :=
  if crashed then tr0 "the kill switch process crashed"
  else MTr (u "the kill switch process exited with code %1") [MText (number exitCode)].
Definition notArmedText (exitCode : Z) (crashed : bool) : Message :=
  if crashed then tr0 "the kill switch process crashed before it was ready"
  else MTr (u "the kill switch process exited with code %1 before it was ready") [MText (number exitCode)].

(** The rest of the output is a last line. *)
Definition onFinished (now : Z) (i : nat) (exitCode : Z) (crashed : bool) (k : KS) : KS :=
  let k := readOutput now i k in
  let k := match ksGuards k !! i with
           | Some g => handleText now i (gStdout g) (onGuard i (gSetStdout []) k)
           | None => k
           end in
  match ksGuards k !! i with
  | None => k
  | Some g =>
      let wasActive := negb (gClosing g) && isPtr i (ksActive k) in
      let wasPending := negb (gClosing g) && isPtr i (ksPending k) in
      let k := deleteGuard i (forget wasActive wasPending k) in
      guardLost now wasActive wasPending kCrash (lostText exitCode crashed) (notArmedText exitCode crashed) k
  end.

(** ** Calls from other components *)

Definition noteIdentityUnsupported (detail : qstr) (k : KS) : KS := apply (setIdentity true detail k).

Definition setOverride (overridden : bool) (k : KS) : KS := withOverride overridden k.

Definition SetApiPort (port : Z) (k : KS) : KS :=
  if ksApiPort k =? port then k else emit OQueueApiPort (setApiPortTo port k).

(** What SetApiPort queues. *)
Definition apiPortChanged (k : KS) : KS :=
  if negb (isState Arming k) && negb (isState Armed k) && negb (isSome (ksActive k)) && negb (isSome (ksPending k)) then k
  else if sPrepareExit (ksSettings k) then k
  else apply k.

Definition whenSettled (context : nat) (bound : bool) (id : nat) (k : KS) : KS :=
  if negb (isState Arming k) then emit (OCall id (isState Armed k)) k
  else setWaiters (ksWaiters k ++ [mkWaiter context bound false (CbUser id)]) k.

(** The kill switch itself is the context of a permit. *)
Definition selfContext : nat := 0.

Definition whenIdle (path : qstr) (k : KS) : KS :=
  let w := mkWaiter selfContext true true (CbPermit path) in
  if negb (isSome (ksPending k)) then callWaiter w k else setWaiters (ksWaiters k ++ [w]) k.

Definition addExtraCorePath (path : qstr) (s : KsSettings) : KsSettings :=
  mkKsSettings (sKillSwitch s) (sDisablePrivateRangeBypass s) (sTunIpv4Cidr s) (sTunIpv6Cidr s) (sL3Bridge s)
    (sExtraCorePaths s ++ [path]) (sPrepareExit s).

(** The UI thread's part, on Windows. *)
Definition permitExtraCoreUi (path : qstr) (k : KS) : KS :=
  let listed := match ksActive k with
                | Some i => match ksGuards k !! i with Some g => listsPath (gExtraPaths g) path | None => false end
                | None => false
                end in
  if isState Disabled k || listed then emit (OPermit path true) k
  else
    let k := if existsb (eqStr path) (sExtraCorePaths (ksSettings k)) then k
             else emit OSaveSettings (setSettings (addExtraCorePath path (ksSettings k)) k) in
    whenIdle path (apply k).

(** The worker's part: [answer] is the promise's value within kPermitTimeoutMs. *)
Definition permitExtraCore (k : KS) (answer : option bool) : bool :=
  match hostOs with
  | Windows => isState Disabled k || default false answer
  | _ => true
  end.

(** The one-shot timer of armFailed. *)
Definition rearm (k : KS) : KS :=
  if ksShutdown k || isSome (ksPending k) || negb (isSome (ksActive k)) then k
  else if sPrepareExit (ksSettings k) then k
  else apply k.

(** The one-shot timer of closeGuard, which only a closing guard has. *)
Definition closeGrace (i : nat) (k : KS) : KS :=
  match ksGuards k !! i with
  | Some g => match gProc g with GNotRunning => k | _ => if gClosing g then emit (OStopHard i) k else k end
  | None => k
  end.

(** The loops over the guards: their input is closed; one that does not end in
    time is stopped. *)
Fixpoint shutdownClose (ids : list nat) (k : KS) : KS :=
  match ids with
  | [] => k
  | i :: ids' =>
      shutdownClose ids'
        match ksGuards k !! i with
        | None => k
        | Some g =>
            let k := onGuard i (fun g => gSetTimer false (gSetClosing true g)) k in
            match gProc g with
            | GNotRunning => k
            | _ => emit (OCloseWrite i) (onGuard i (gSetStdin false) k)
            end
        end
  end.

Fixpoint shutdownWait (ids : list nat) (inTime : nat -> bool) (k : KS) : KS :=
  match ids with
  | [] => k
  | i :: ids' =>
      shutdownWait ids' inTime
        match ksGuards k !! i with
        | None => k
        | Some g =>
            match gProc g with
            | GNotRunning => k
            | _ => if inTime i then deleteGuard i k else emit (OStopHard i) k
            end
        end
  end.

Definition shutdown (inTime : nat -> bool) (k : KS) : KS :=
  if ksShutdown k then k
  else
    let k := setPending None (setActive None (setWaiters [] (setShutdown true k))) in
    let ids := seq 0 (ksNext k) in
    shutdownWait ids inTime (shutdownClose ids k).

(** ** Turns of the UI thread *)

(** started: the configuration goes to the guard. *)
Definition onStarted (i : nat) (k : KS) : KS :=
  match ksGuards k !! i with
  | None => k
  | Some g => if gClosing g then k else emit (OWrite i (gLaunch g ++ [cLF])) k
  end.

Definition sameSwitch (old new : KsSettings) : KsSettings :=
  mkKsSettings (sKillSwitch old) (sDisablePrivateRangeBypass new) (sTunIpv4Cidr new) (sTunIpv6Cidr new) (sL3Bridge new)
    (sExtraCorePaths new) (sPrepareExit new).

(** A change of the switch comes with apply() (SettingsRegistry::Put,
    applySettingsChange, disableKillSwitch); other settings may change alone. *)
Inductive KsEvent :=
| EvSettings (s : KsSettings)
| EvOtherSettings (s : KsSettings)
| EvApply
| EvIdentity (detail : qstr)
| EvApiPort (port : Z)
| EvApiPortQueued
| EvWhenSettled (context : nat) (bound : bool) (id : nat)
| EvContextGone (context : nat)
| EvPermit (path : qstr)
| EvRearm
| EvGrace (i : nat)
| EvStarted (i : nat)
| EvStartFailed (i : nat) (message : Message)
| EvStdout (now : Z) (i : nat) (bytes : list Z)
| EvReadyTimeout (i : nat)
| EvFinished (now : Z) (i : nat) (exitCode : Z) (crashed : bool)
| EvShutdown (inTime : nat -> bool).

(** An event of a guard comes only in the state of its process that can raise it. *)
Definition guardEvent (i : nat) (ready : Guard -> bool) (f : KS -> KS) (k : KS) : KS :=
  match ksGuards k !! i with Some g => if ready g then f k else k | None => k end.

Definition isStarting (g : Guard) : bool := match gProc g with GStarting => true | _ => false end.
Definition isRunning (g : Guard) : bool := match gProc g with GRunning => true | _ => false end.

Definition ksStep (ev : KsEvent) (k : KS) : KS :=
  match ev with
  | EvSettings s => apply (setSettings s k)
  | EvOtherSettings s => setSettings (sameSwitch (ksSettings k) s) k
  | EvApply => apply k
  | EvIdentity detail => noteIdentityUnsupported detail k
  | EvApiPort port => SetApiPort port k
  | EvApiPortQueued => apiPortChanged k
  | EvWhenSettled c b id => whenSettled c b id k
  | EvContextGone c => if Nat.eqb c selfContext then k else setDead (c :: ksDead k) k
  | EvPermit path => permitExtraCoreUi path k
  | EvRearm => rearm k
  | EvGrace i => closeGrace i k
  | EvStarted i => guardEvent i isStarting (fun k => onStarted i (onGuard i (gSetProc GRunning) k)) k
  | EvStartFailed i m => guardEvent i isStarting (onStartFailed i m) k
  | EvStdout now i bytes =>
      guardEvent i isRunning (fun k => readOutput now i (onGuard i (fun g => gSetStdout (gStdout g ++ bytes) g) k)) k
  | EvReadyTimeout i => guardEvent i gTimer (fun k => onReadyTimeout i (onGuard i (gSetTimer false) k)) k
  | EvFinished now i c x => guardEvent i isRunning (fun k => onFinished now i c x (onGuard i (gSetProc GNotRunning) k)) k
  | EvShutdown inTime => shutdown inTime k
  end.

(** The process before its first apply(). *)
Definition ksInit (s : KsSettings) (apiPort : Z) : KS :=
  mkKS Disabled false [] false None None [] (MText []) None [] false ∅ 0 apiPort s [] [].

(** The engine's boot applies the switch before anything else can happen to it. *)
Definition ksBoot (s : KsSettings) (overridden : bool) (apiPort : Z) : KS := apply (setOverride overridden (ksInit s apiPort)).

Inductive ksReachable : KS -> Prop :=
| ks_boot s overridden apiPort : ksReachable (ksBoot s overridden apiPort)
| ks_step k ev : ksReachable k -> ksReachable (ksStep ev k).

End KillSwitch.
