(* ===== verification/KillSwitchFacts.v ===== *)
(** What the kill switch keeps: with the switch on, profiles start only while a
    ready guard runs; every waiter is answered; guards hand over without a gap;
    turned off, no guard keeps its rules. *)
From stdpp Require Import base list gmap strings.
From Stdlib Require Import ZArith Lia Bool.
From S2P Require Import Prelude Json KillSwitch.

Definition alive (g : Guard) : Prop := gProc g <> GNotRunning.

(** What a guard is by the two pointers: in force, coming up, or let go. *)
Definition guardOk (d : option nat) (k : KS) (i : nat) (g : Guard) : Prop :=
  (ksActive k = Some i -> gReady g = true /\ gClosing g = false /\ gStdin g = true /\ (d = Some i \/ gProc g = GRunning)) /\
  (ksPending k = Some i -> gReady g = false /\ gClosing g = false /\ gStdin g = true /\ (d = Some i \/ alive g)) /\
  (ksActive k <> Some i -> ksPending k <> Some i -> gClosing g = true /\ (alive g -> gStdin g = false)) /\
  (i < ksNext k)%nat.

(** The guards and the pointers; [d] is a guard whose process has just ended. *)
Record guardsInv (d : option nat) (k : KS) : Prop := {
  gi_ok : forall i g, ksGuards k !! i = Some g -> guardOk d k i g;
  gi_active : forall i, ksActive k = Some i -> is_Some (ksGuards k !! i);
  gi_pending : forall i, ksPending k = Some i -> is_Some (ksGuards k !! i)
}.

Definition timersInv (k : KS) : Prop :=
  forall i g, ksPending k = Some i -> ksGuards k !! i = Some g -> gTimer g = true.

(** The reported state by what the guards do. *)
Definition stateInv (k : KS) : Prop :=
  ksShutdown k = false /\ (ksOverride k = true -> ksActive k = None /\ ksPending k = None) /\
  match ksState k with
  | Disabled => ksActive k = None /\ ksPending k = None /\ ksIdentity k = false /\ sKillSwitch (ksSettings k) = false
  | Arming => ksActive k = None /\ ksPending k <> None /\ sKillSwitch (ksSettings k) = true
  | Armed => ksActive k <> None /\ ksIdentity k = false /\ sKillSwitch (ksSettings k) = true
  | Failed => (ksIdentity k = false -> ksActive k = None /\ ksPending k = None) /\ sKillSwitch (ksSettings k) = true
  end.

(** The same as apply() may find it, the switch and the identity flag changed. *)
Definition stateLoose (k : KS) : Prop :=
  ksShutdown k = false /\ (ksOverride k = true -> ksActive k = None /\ ksPending k = None) /\
  match ksState k with
  | Disabled => ksActive k = None /\ ksPending k = None /\ (ksIdentity k = false \/ sKillSwitch (ksSettings k) = false)
  | Arming => ksActive k = None /\ ksPending k <> None
  | Armed => ksActive k <> None
  | Failed => ksIdentity k = false -> ksActive k = None /\ ksPending k = None
  end.

Definition waitersInv (k : KS) : Prop := Forall (fun w => stillWaits w k = true) (ksWaiters k).

Record ksInv (d : option nat) (k : KS) : Prop := {
  inv_guards : guardsInv d k;
  inv_timers : timersInv k;
  inv_state : stateInv k;
  inv_waiters : waitersInv k
}.

(** What the waiters do not matter to. *)
Record sameCore (k k' : KS) : Prop := {
  sc_state : ksState k' = ksState k;
  sc_identity : ksIdentity k' = ksIdentity k;
  sc_override : ksOverride k' = ksOverride k;
  sc_active : ksActive k' = ksActive k;
  sc_pending : ksPending k' = ksPending k;
  sc_shutdown : ksShutdown k' = ksShutdown k;
  sc_guards : ksGuards k' = ksGuards k;
  sc_next : ksNext k' = ksNext k;
  sc_settings : ksSettings k' = ksSettings k;
  sc_dead : ksDead k' = ksDead k
}.

#[export] Instance sameCore_preorder : PreOrder sameCore.
Proof.
  split; [by split|]. intros k1 k2 k3 [] []. split; congruence.
Qed.

(** Updates and members compute. *)
Ltac ks_simpl := cbn [onGuard deleteGuard setState setIdentity withOverride setActive setPending setFailure setRespawn setWaiters setShutdown setGuards setNext setApiPortTo setSettings setDead emit
  ksState ksIdentity ksDetail ksOverride ksActive ksPending ksCode ksMessage ksRespawn ksWaiters ksShutdown ksGuards ksNext ksApiPort ksSettings ksDead ksOut] in *.

Section Facts.
Context {Q : QtChar} {U : Utf8} {J : JsonText} {H : Host}.

(** ** Waiters *)

Lemma callWaiter_core w k : sameCore k (callWaiter w k).
Proof. unfold callWaiter. destruct (wCallback w); by split. Qed.

Lemma callWaiter_waiters w k : ksWaiters (callWaiter w k) = ksWaiters k.
Proof. unfold callWaiter. by destruct (wCallback w). Qed.

Lemma stillWaits_core w k k' : sameCore k k' -> stillWaits w k' = stillWaits w k.
Proof. intros []. unfold stillWaits, isState. by rewrite sc_pending0, sc_state0. Qed.

Lemma settleLoop_core waiting : forall k, sameCore k (settleLoop waiting k).
Proof.
  induction waiting as [|w waiting IH]; intros k; cbn [settleLoop]; [done|]. etrans; [|apply IH].
  destruct (stillWaits w k); [by split|]. destruct (contextGone w k); [done|]. apply callWaiter_core.
Qed.

Lemma settle_core k : sameCore k (settle k).
Proof. unfold settle. etrans; [|apply settleLoop_core]. by split. Qed.

Lemma settleLoop_waiters waiting : forall k,
  ksWaiters (settleLoop waiting k) = ksWaiters k ++ List.filter (fun w => stillWaits w k) waiting.
Proof.
  induction waiting as [|w waiting IH]; intros k; cbn [settleLoop List.filter]; [by rewrite app_nil_r|]. rewrite IH.
  assert (Hf : forall k', sameCore k k' -> List.filter (fun w => stillWaits w k') waiting = List.filter (fun w => stillWaits w k) waiting).
  { intros k' Hk. apply List.filter_ext. intros x. by apply stillWaits_core. }
  destruct (stillWaits w k) eqn:E.
  - rewrite Hf by by split. cbn [setWaiters ksWaiters]. by rewrite <- app_assoc.
  - destruct (contextGone w k); [done|]. rewrite callWaiter_waiters, Hf; [done|]. apply callWaiter_core.
Qed.

Lemma settle_waiters k : ksWaiters (settle k) = List.filter (fun w => stillWaits w k) (ksWaiters k).
Proof.
  unfold settle. rewrite settleLoop_waiters. cbn [setWaiters ksWaiters app]. apply List.filter_ext. intros w.
  apply stillWaits_core. by split.
Qed.

(** ** The invariant under what changes no guard *)

Lemma guardsInv_core d k k' : sameCore k k' -> guardsInv d k -> guardsInv d k'.
Proof.
  intros [] [Hg Ha Hp]. split.
  - intros i g. rewrite sc_guards0. intros Hi. unfold guardOk. rewrite sc_active0, sc_pending0, sc_next0. by apply Hg.
  - intros i. rewrite sc_guards0, sc_active0. apply Ha.
  - intros i. rewrite sc_guards0, sc_pending0. apply Hp.
Qed.

Lemma timersInv_core k k' : sameCore k k' -> timersInv k -> timersInv k'.
Proof. intros [] Ht i g. rewrite sc_pending0, sc_guards0. apply Ht. Qed.

Lemma stateInv_core k k' : sameCore k k' -> stateInv k -> stateInv k'.
Proof. intros []. unfold stateInv. by rewrite sc_state0, sc_override0, sc_active0, sc_pending0, sc_identity0, sc_settings0, sc_shutdown0. Qed.

(** After settle() no waiter waits for nothing. *)
Lemma settle_inv d k : guardsInv d k -> timersInv k -> stateInv k -> ksInv d (settle k).
Proof.
  intros Hg Ht Hs. pose proof (settle_core k) as Hc. split.
  - by eapply guardsInv_core.
  - by eapply timersInv_core.
  - by eapply stateInv_core.
  - unfold waitersInv. rewrite settle_waiters. apply Forall_forall. intros w Hw.
    apply list_elem_of_In, filter_In in Hw as [_ Hw]. by rewrite (stillWaits_core w k).
Qed.

Lemma emit_core o k : sameCore k (emit o k).
Proof. by split. Qed.

Lemma setFailure_core c m k : sameCore k (setFailure c m k).
Proof. by split. Qed.

(** changeState only changes the state. *)
Lemma changeState_core s k : sameCore (setState s k) (changeState s k).
Proof.
  unfold changeState. destruct (isState s _) eqn:E.
  - apply bool_decide_eq_true in E. destruct s; split; cbn in *; done.
  - destruct s; by split.
Qed.

Lemma changeState_waiters s k : ksWaiters (changeState s k) = ksWaiters k.
Proof. unfold changeState. destruct (isState s _), s; done. Qed.

(** ** Closing a guard *)

(** All but the guards and the trace. *)
Record sameRest (k k' : KS) : Prop := {
  sr_state : ksState k' = ksState k;
  sr_identity : ksIdentity k' = ksIdentity k;
  sr_override : ksOverride k' = ksOverride k;
  sr_active : ksActive k' = ksActive k;
  sr_pending : ksPending k' = ksPending k;
  sr_shutdown : ksShutdown k' = ksShutdown k;
  sr_next : ksNext k' = ksNext k;
  sr_settings : ksSettings k' = ksSettings k;
  sr_waiters : ksWaiters k' = ksWaiters k;
  sr_dead : ksDead k' = ksDead k
}.

(** The guard table after closeGuard: told to end, or gone when it has ended. *)
Definition letGo (g : Guard) : option Guard :=
  if gClosing g then Some g
  else match gProc g with GNotRunning => None | _ => Some (gSetStdin false (gSetTimer false (gSetClosing true g))) end.

Lemma closeGuard_spec o k : sameRest k (closeGuard o k) /\
  forall j, ksGuards (closeGuard o k) !! j = if decide (o = Some j) then ksGuards k !! j ≫= letGo else ksGuards k !! j.
Proof.
  destruct o as [i|]; cbn [closeGuard]; [|split; [by split|done]]. destruct (ksGuards k !! i) as [g|] eqn:E.
  2: { split; [by split|]. intros j. case_decide as Hd; [|done]. injection Hd as <-. by rewrite E. }
  unfold letGo. destruct (gClosing g) eqn:Ec.
  { split; [by split|]. intros j. case_decide as Hd; [|done]. injection Hd as <-. rewrite E. cbn. by rewrite Ec. }
  assert (Hother : forall f (m : gmap nat Guard) j, j <> i -> alter f i m !! j = m !! j) by (intros; by apply lookup_alter_ne).
  split; [destruct (gProc g); by split|]. intros j. case_decide as Hd.
  - injection Hd as <-. rewrite E. cbn. rewrite Ec. destruct (gProc g); cbn.
    + apply lookup_delete_eq.
    + by rewrite lookup_alter_eq, lookup_alter_eq, E.
    + by rewrite lookup_alter_eq, lookup_alter_eq, E.
  - assert (j <> i) by congruence. destruct (gProc g); cbn; rewrite ?lookup_delete_ne, ?lookup_alter_ne by done; done.
Qed.

Lemma letGo_spec g g' : letGo g = Some g' -> gClosing g = true -> g' = g.
Proof. unfold letGo. intros H1 H2. rewrite H2 in H1. congruence. Qed.

(** An unclosed guard is let go by both pointers. *)
Lemma letGo_closed g g' : letGo g = Some g' -> gClosing g = false -> gClosing g' = true /\ gStdin g' = false.
Proof. unfold letGo. intros H1 H2. rewrite H2 in H1. destruct (gProc g); [done| |]; injection H1 as <-; done. Qed.

(** Clearing a pointer and closing its guard. *)
Lemma dropPending_inv d k : guardsInv d k -> guardsInv d (closePending k) /\ sameRest (setPending None k) (closePending k).
Proof.
  intros [Hg Ha Hp]. unfold closePending.
  destruct (closeGuard_spec (ksPending k) (setPending None k)) as [Hr Hl]. split; [|exact Hr]. destruct Hr.
  cbn [setPending ksActive ksPending ksNext ksGuards] in *. split.
  - intros i g. rewrite Hl. intros Hi. unfold guardOk. rewrite sr_active0, sr_pending0, sr_next0. case_decide as Hd.
    + destruct (ksGuards k !! i) as [g0|] eqn:E; [|done]. cbn in Hi. destruct (Hg i g0 E) as (H1 & H2 & H3 & H4).
      destruct (H2 Hd) as (R & C & _). destruct (letGo_closed _ _ Hi C) as [C' S'].
      split; [|by repeat split]. intros Hact. destruct (H1 Hact) as (R' & _). congruence.
    + destruct (Hg i g Hi) as (H1 & H2 & H3 & H4). split; [exact H1|]. split; [done|]. split; [|done]. intros Hact _. by apply H3.
  - intros i. rewrite sr_active0, Hl. intros Hact. case_decide as Hd; [|by apply Ha].
    exfalso. destruct (Ha i Hact) as [g E]. destruct (Hg i g E) as (H1 & H2 & _).
    destruct (H1 Hact) as (R & _). destruct (H2 Hd) as (R' & _). congruence.
  - intros i. by rewrite sr_pending0.
Qed.

Lemma dropActive_inv d k : guardsInv d k -> guardsInv d (closeActive k) /\ sameRest (setActive None k) (closeActive k).
Proof.
  intros [Hg Ha Hp]. unfold closeActive.
  destruct (closeGuard_spec (ksActive k) (setActive None k)) as [Hr Hl]. split; [|exact Hr]. destruct Hr.
  cbn [setActive ksActive ksPending ksNext ksGuards] in *. split.
  - intros i g. rewrite Hl. intros Hi. unfold guardOk. rewrite sr_active0, sr_pending0, sr_next0. case_decide as Hd.
    + destruct (ksGuards k !! i) as [g0|] eqn:E; [|done]. cbn in Hi. destruct (Hg i g0 E) as (H1 & H2 & H3 & H4).
      destruct (H1 Hd) as (R & C & _). destruct (letGo_closed _ _ Hi C) as [C' S'].
      split; [done|]. split; [|by repeat split]. intros Hpen. destruct (H2 Hpen) as (R' & _). congruence.
    + destruct (Hg i g Hi) as (H1 & H2 & H3 & H4). split; [done|]. split; [exact H2|]. split; [|done]. intros _ Hpen. by apply H3.
  - intros i. by rewrite sr_active0.
  - intros i. rewrite sr_pending0, Hl. intros Hpen. case_decide as Hd; [|by apply Hp].
    exfalso. destruct (Hp i Hpen) as [g E]. destruct (Hg i g E) as (H1 & H2 & _).
    destruct (H1 Hd) as (R & _). destruct (H2 Hpen) as (R' & _). congruence.
Qed.

(** A guard whose process ended is dropped from the table. *)
Lemma deleteGuard_inv d i k : guardsInv d k -> ksActive k <> Some i -> ksPending k <> Some i -> guardsInv d (deleteGuard i k).
Proof.
  intros [Hg Ha Hp] Hna Hnp. unfold deleteGuard. split; cbn [setGuards ksGuards ksActive ksPending].
  - intros j g Hj. apply lookup_delete_Some in Hj as [_ Hj]. exact (Hg j g Hj).
  - intros j Hj. rewrite lookup_delete_ne by congruence. by apply Ha.
  - intros j Hj. rewrite lookup_delete_ne by congruence. by apply Hp.
Qed.

(** ** Starting a guard *)

(** What is true where a guard is started: the switch is on, and the state fits
    the guard in force; the coming one is replaced. *)
Definition spawnable (k : KS) : Prop :=
  ksShutdown k = false /\ ksOverride k = false /\ sKillSwitch (ksSettings k) = true /\
  match ksState k with
  | Disabled => ksActive k = None /\ ksIdentity k = false
  | Arming => ksActive k = None
  | Armed => ksIdentity k = false
  | Failed => ksIdentity k = false -> ksActive k = None
  end.

Definition callersArming (k : KS) : Prop := Forall (fun w => wIdle w = false -> ksState k = Arming) (ksWaiters k).

(** A new coming guard. *)
Lemma newGuard_inv d g k : guardsInv d k -> ksPending k = None -> gReady g = false -> gClosing g = false -> gStdin g = true -> alive g ->
  guardsInv d (setGuards (<[ksNext k := g]> (ksGuards k)) (setPending (Some (ksNext k)) (setNext (S (ksNext k)) k))).
Proof.
  intros [Hg Ha Hp] Hpen R C S A. split; cbn [setGuards setPending setNext ksGuards ksActive ksPending ksNext].
  - intros j g' Hj. unfold guardOk. cbn [setGuards setPending setNext ksGuards ksActive ksPending ksNext].
    apply lookup_insert_Some in Hj as [[<- <-]|[Hne Hj]].
    + split; [|split; [|split]].
      * intros Hact. destruct (Ha _ Hact) as [g0 E]. destruct (Hg _ _ E) as (_ & _ & _ & Hlt). lia.
      * intros _. split; [done|]. split; [done|]. split; [done|]. by right.
      * intros _ Hn. done.
      * lia.
    + destruct (Hg j g' Hj) as (H1 & H2 & H3 & H4). split; [exact H1|]. split; [intros E; congruence|].
      split; [|lia]. intros Hact _. apply H3; [done|]. by rewrite Hpen.
  - intros j Hj. destruct (decide (j = ksNext k)) as [->|Hne]; [by rewrite lookup_insert_eq|].
    rewrite lookup_insert_ne by done. by apply Ha.
  - intros j [= <-]. by rewrite lookup_insert_eq.
Qed.

Lemma spawn_inv d c k : guardsInv d k -> spawnable k -> callersArming k -> ksInv d (spawn c k).
Proof.
  intros Hg (Hup & Ho & Hsw & Hst) Hw. destruct (dropPending_inv d k Hg) as [Hg' Hr]. destruct Hr.
  ks_simpl.
  unfold spawn. cbv zeta. set (k1 := closePending k) in *. set (g := mkGuard _ _ _ _ _ _ _ _ _).
  set (k2 := setPending (Some (ksNext k1)) (setNext (S (ksNext k1)) k1)).
  change (ksActive k2) with (ksActive k1). change (ksIdentity k2) with (ksIdentity k1). rewrite sr_active0, sr_identity0.
  assert (Hnew : guardsInv d (setGuards (<[ksNext k1 := g]> (ksGuards k2)) k2)) by by apply (newGuard_inv d g k1).
  set (arm := negb (isSome (ksActive k)) && negb (ksIdentity k)).
  set (k3 := if arm then changeState Arming k2 else k2).
  assert (Hc3 : sameCore (setState (if arm then Arming else ksState k) k2) k3).
  { unfold k3. destruct arm; [apply changeState_core|]. by split. }
  assert (Hw3 : ksWaiters k3 = ksWaiters k) by (unfold k3; destruct arm; by rewrite ?changeState_waiters).
  clearbody k3. subst k2. destruct Hc3. ks_simpl.
  assert (Hcore : sameCore (setState (ksState k3) (setGuards (<[ksNext k1 := g]> (ksGuards k1)) (setPending (Some (ksNext k1)) (setNext (S (ksNext k1)) k1))))
    (emit (OSpawn (ksNext k1)) (setGuards (<[ksNext k1 := g]> (ksGuards k3)) k3))).
  { split; cbn; congruence. }
  split.
  - eapply guardsInv_core; [exact Hcore|]. destruct Hnew. split; [exact gi_ok0|exact gi_active0|exact gi_pending0].
  - intros j g' Hj Hl. cbn in Hj, Hl. rewrite sc_pending0 in Hj. cbn in Hj. injection Hj as <-.
    rewrite lookup_insert_eq in Hl. by injection Hl as <-.
  - split; [cbn; congruence|]. split; cbn; [rewrite sc_override0; cbn; rewrite sr_override0; congruence|].
    rewrite sc_state0, sc_active0, sc_pending0, sc_identity0, sc_settings0. cbn. rewrite sr_active0, sr_identity0, sr_settings0, Hsw.
    unfold arm. destruct (ksState k), (ksActive k), (ksIdentity k); cbn in *; intuition congruence.
  - unfold waitersInv. cbn. rewrite Hw3. eapply Forall_impl; [exact Hw|]. intros w Harm. unfold stillWaits. cbn. rewrite sc_pending0. cbn.
    destruct (wIdle w) eqn:Ew; [done|]. specialize (Harm Ew). unfold isState. apply bool_decide_eq_true. cbn. rewrite sc_state0, Harm.
    by destruct arm.
Qed.

(** ** The state after an operation *)

Lemma stateInv_failed k : ksShutdown k = false -> ksActive k = None -> ksPending k = None -> sKillSwitch (ksSettings k) = true ->
  stateInv (setState Failed k).
Proof. intros Hu Ha Hp Hs. split; [done|]. by split. Qed.

(** fail(): both guards are gone. *)
Lemma fail_inv d c m k : guardsInv d k -> ksShutdown k = false -> ksActive k = None -> ksPending k = None ->
  sKillSwitch (ksSettings k) = true -> ksInv d (fail c m k).
Proof.
  intros Hg Hu Ha Hp Hs. unfold fail. pose proof (changeState_core Failed (setFailure c m k)) as Hc.
  apply settle_inv.
  - eapply guardsInv_core; [exact Hc|]. destruct Hg. split; [exact gi_ok0|exact gi_active0|exact gi_pending0].
  - intros i g Hi. destruct Hc. ks_simpl. congruence.
  - eapply stateInv_core; [exact Hc|]. by apply stateInv_failed.
Qed.

(** failIdentity(): whatever guard runs, the state is Failed. *)
Lemma failIdentity_inv d k : guardsInv d k -> timersInv k -> ksShutdown k = false ->
  (ksOverride k = true -> ksActive k = None /\ ksPending k = None) -> ksIdentity k = true ->
  sKillSwitch (ksSettings k) = true -> ksInv d (failIdentity k) /\ sameCore (setState Failed k) (failIdentity k).
Proof.
  intros Hg Ht Hu Ho Hi Hs. unfold failIdentity. cbv zeta.
  match goal with |- context [settle ?x] => set (k1 := x) end. assert (Hc : sameCore (setState Failed k) k1).
  { unfold k1. destruct (isState Failed k) eqn:E; cbn [negb orb].
    - apply bool_decide_eq_true in E. assert (Hk : sameCore (setState Failed k) k) by by split.
      destruct (_ || _); [|exact Hk]. etrans; [|apply changeState_core]. by split.
    - etrans; [|apply changeState_core]. by split. }
  clearbody k1. split; [|etrans; [exact Hc|apply settle_core]]. apply settle_inv.
  - eapply guardsInv_core; [exact Hc|]. destruct Hg. split; [exact gi_ok0|exact gi_active0|exact gi_pending0].
  - eapply timersInv_core; [exact Hc|]. exact Ht.
  - eapply stateInv_core; [exact Hc|]. split; [done|]. split; [exact Ho|]. cbn. split; [congruence|done].
Qed.

(** No callback waits for a guard to be armed but in Arming. *)
Lemma waitersInv_callers k : waitersInv k -> callersArming k.
Proof.
  intros Hw. eapply Forall_impl; [exact Hw|]. intros w Hs Hidle. unfold stillWaits in Hs. rewrite Hidle in Hs.
  by apply bool_decide_eq_true in Hs.
Qed.

(** apply() with the switch off. *)
Lemma applyOff_inv d k : guardsInv d k -> ksShutdown k = false -> sKillSwitch (ksSettings k) = false ->
  ksInv d (settle (changeState Disabled (closeActive (closePending (setIdentity false [] k))))).
Proof.
  intros Hg Hu Hsw. assert (Hg0 : guardsInv d (setIdentity false [] k)) by (destruct Hg; split; assumption).
  destruct (dropPending_inv d _ Hg0) as [Hg1 []]. destruct (dropActive_inv d _ Hg1) as [Hg2 []]. ks_simpl.
  pose proof (changeState_core Disabled (closeActive (closePending (setIdentity false [] k)))) as Hc. apply settle_inv.
  - eapply guardsInv_core; [exact Hc|]. destruct Hg2. split; assumption.
  - intros i g Hi. destruct Hc. ks_simpl. congruence.
  - eapply stateInv_core; [exact Hc|]. split; [cbn; congruence|]. split; [cbn; intros; split; congruence|].
    cbn. repeat split; congruence.
Qed.

(** With --no-kill-switch. *)
Lemma applyOverridden_inv d k : guardsInv d k -> ksShutdown k = false -> sKillSwitch (ksSettings k) = true ->
  let k2 := closeActive (closePending k) in
  ksInv d (if isState Failed k2 && eqStr (ksCode k2) kOverridden && messageIs (ksMessage k2) overriddenMessage then settle k2
           else fail kOverridden (MText overriddenMessage) k2).
Proof.
  intros Hg Hu Hsw k2. destruct (dropPending_inv d k Hg) as [Hg1 []]. destruct (dropActive_inv d _ Hg1) as [Hg2 []]. ks_simpl.
  fold k2 in Hg2, sr_state1, sr_identity1, sr_override1, sr_active1, sr_pending1, sr_shutdown1, sr_settings1.
  destruct (isState Failed k2 && _ && _) eqn:E; [|apply fail_inv; congruence].
  apply andb_true_iff in E as [E _]. apply andb_true_iff in E as [E _]. apply bool_decide_eq_true in E.
  apply settle_inv; [done| |].
  - intros i g Hi. congruence.
  - split; [congruence|]. rewrite E. split; [intros _; split; congruence|]. split; [intros _; split; congruence|congruence].
Qed.

(** Otherwise, once an armed switch whose core lacks the identity has failed. *)
Definition applying (k : KS) : Prop :=
  ksShutdown k = false /\ ksOverride k = false /\ sKillSwitch (ksSettings k) = true /\
  match ksState k with
  | Disabled => ksActive k = None /\ ksPending k = None /\ ksIdentity k = false
  | Arming => ksActive k = None /\ ksPending k <> None
  | Armed => ksActive k <> None /\ ksIdentity k = false
  | Failed => ksIdentity k = false -> ksActive k = None /\ ksPending k = None
  end.

Lemma applyIdentity d k : guardsInv d k -> timersInv k -> stateLoose k -> waitersInv k -> sKillSwitch (ksSettings k) = true ->
  ksOverride k = false -> let k1 := if ksIdentity k && isState Armed k then failIdentity k else k in
  guardsInv d k1 /\ timersInv k1 /\ waitersInv k1 /\ applying k1.
Proof.
  intros Hg Ht (Hu & Ho & Hst) Hw Hsw Hov. cbv zeta. destruct (ksIdentity k) eqn:Hid; cbn [andb].
  - destruct (isState Armed k) eqn:E.
    + destruct (failIdentity_inv d k Hg Ht Hu ltac:(congruence) Hid Hsw) as [[] []]. ks_simpl.
      repeat (split; [done || congruence|]). rewrite sc_state0. congruence.
    + repeat (split; [done|]). apply bool_decide_eq_false in E. destruct (ksState k); try done; try (by apply Hst); intuition congruence.
  - repeat (split; [done|]). destruct (ksState k); intuition congruence.
Qed.

(** The guard is kept, kept alone, or replaced. *)
Lemma applyConfig_inv d config k : guardsInv d k -> timersInv k -> waitersInv k -> applying k ->
  ksInv d (if configIs (ksPending k) config k then k
           else if configIs (ksActive k) config k then if isSome (ksPending k) then settle (closePending k) else k
           else spawn config k).
Proof.
  intros Hg Ht Hw (Hu & Hov & Hsw & Hst).
  assert (Hsp : spawnable k) by (repeat (split; [done|]); destruct (ksState k); intuition congruence).
  destruct (configIs (ksPending k) _ k) eqn:Ep.
  { assert (ksPending k <> None) by (unfold configIs in Ep; destruct (ksPending k); done). split; try done.
    split; [done|]. split; [congruence|]. destruct (ksState k); intuition congruence. }
  destruct (configIs (ksActive k) _ k) eqn:Ea; [|apply spawn_inv; try done; by apply waitersInv_callers].
  assert (Hact : ksActive k <> None) by (unfold configIs in Ea; destruct (ksActive k); done).
  destruct (isSome (ksPending k)) eqn:Eps.
  - destruct (dropPending_inv d k Hg) as [Hg1 []]. ks_simpl. apply settle_inv; [done| |].
    + intros i g Hi. congruence.
    + split; [congruence|]. split; [congruence|]. rewrite sr_state0, sr_active0, sr_pending0, sr_identity0, sr_settings0.
      destruct (ksState k); intuition congruence.
  - split; try done. split; [done|]. split; [congruence|]. destruct (ksState k); intuition congruence.
Qed.

Lemma apply_inv d k : guardsInv d k -> timersInv k -> stateLoose k -> waitersInv k -> ksInv d (apply k).
Proof.
  intros Hg Ht Hst Hw. pose proof Hst as (Hu & _). unfold apply. rewrite Hu.
  destruct (sKillSwitch (ksSettings k)) eqn:Hsw; cbn [negb]; [|by apply applyOff_inv].
  destruct (ksOverride k) eqn:Hov; [by apply applyOverridden_inv|].
  destruct (applyIdentity d k Hg Ht Hst Hw Hsw Hov) as (Hg1 & Ht1 & Hw1 & Ha1). by apply applyConfig_inv.
Qed.

(** ** A guard lost, failed or ready *)

(** The coming guard is gone; the one in force, if any, keeps the state. *)
Definition comingLost (k : KS) : Prop :=
  ksShutdown k = false /\ sKillSwitch (ksSettings k) = true /\ ksOverride k = false /\ ksPending k = None /\
  (ksActive k <> None -> match ksState k with Armed => ksIdentity k = false | Failed => ksIdentity k = true | _ => False end).

(** The guard in force is gone. *)
Definition forceLost (k : KS) : Prop :=
  ksShutdown k = false /\ sKillSwitch (ksSettings k) = true /\ ksOverride k = false /\ ksActive k = None /\
  match ksState k with Armed => ksIdentity k = false | Failed => ksIdentity k = true | _ => False end.

Lemma stateInv_comingLost k : stateInv k -> ksPending k <> None -> comingLost (setPending None k).
Proof.
  intros (Hu & Ho & Hst) Hp. unfold comingLost. ks_simpl. destruct (ksOverride k); [intuition congruence|].
  destruct (ksState k), (ksIdentity k); intuition congruence.
Qed.

Lemma stateInv_forceLost k : stateInv k -> ksActive k <> None -> forceLost (setActive None k).
Proof.
  intros (Hu & Ho & Hst) Hp. unfold forceLost. ks_simpl. destruct (ksOverride k); [intuition congruence|].
  destruct (ksState k), (ksIdentity k); intuition congruence.
Qed.

Lemma armFailed_inv d c m k : guardsInv d k -> comingLost k -> ksInv d (armFailed c m k).
Proof.
  intros Hg (Hu & Hsw & Ho & Hp & Hst). unfold armFailed. destruct (ksActive k) as [i|] eqn:Ea; cbn [isSome]; [|by apply fail_inv].
  specialize (Hst ltac:(done)).
  match goal with |- context [settle ?x] => set (k1 := x); assert (Hc : sameCore k k1) by (unfold k1; by destruct (_ && _)) end.
  clearbody k1. apply settle_inv; [by eapply guardsInv_core| |].
  - eapply timersInv_core; [exact Hc|]. intros j g Hj. congruence.
  - eapply stateInv_core; [exact Hc|]. split; [done|]. split; [congruence|]. rewrite Ea, Hp.
    destruct (ksState k); intuition congruence.
Qed.

Lemma protectionLost_inv d now c m k : guardsInv d k -> timersInv k -> waitersInv k -> forceLost k -> ksInv d (protectionLost now c m k).
Proof.
  intros Hg Ht Hw (Hu & Hsw & Ho & Ha & Hst). unfold protectionLost. rewrite Hu, Hsw. cbn [negb].
  destruct (ksPending k) as [p|] eqn:Ep; cbn [isSome].
  - match goal with |- context [settle ?x] => set (k1 := x) end.
    assert (Hc : sameCore (setState (if negb (ksIdentity k) then Arming else ksState k) k) k1).
    { unfold k1. destruct (negb (ksIdentity k)); [apply changeState_core|]. by split. }
    clearbody k1. apply settle_inv.
    + eapply guardsInv_core; [exact Hc|]. destruct Hg. split; assumption.
    + eapply timersInv_core; [exact Hc|]. exact Ht.
    + eapply stateInv_core; [exact Hc|]. split; [done|]. split; [cbn; congruence|]. ks_simpl. rewrite Ha, Ep, Hsw.
      destruct (ksIdentity k) eqn:Ei; cbn [negb]; [|by repeat split]. by destruct (ksState k).
  - cbv zeta. destruct (_ && hasExpired _ _ _).
    + apply spawn_inv.
      * destruct Hg. split; assumption.
      * repeat (split; [done|]). ks_simpl. destruct (ksState k); intuition congruence.
      * by apply waitersInv_callers.
    + by apply fail_inv.
Qed.

(** The coming guard takes over from the one in force. *)
Lemma promote_inv i g k : ksInv (Some i) k -> ksGuards k !! i = Some g -> ksPending k = Some i ->
  let k1 := setPending None (setActive (Some i) (onGuard i (fun g => gSetTimer false (gSetReady true g)) k)) in
  let k2 := closeGuard (ksActive k) k1 in guardsInv (Some i) k2 /\ sameRest k1 k2.
Proof.
  intros [[Hg Ha Hp] _ _ _] Ei Epi k1 k2. unfold k2. destruct (closeGuard_spec (ksActive k) k1) as [Hr Hl]. fold k2 in Hr, Hl |- *.
  split; [|exact Hr]. destruct Hr.
  assert (Hne : ksActive k <> Some i).
  { intros E. destruct (Hg i g Ei) as (H1 & H2 & _). destruct (H1 E) as (R & _). destruct (H2 Epi) as (R' & _). congruence. }
  unfold k1 in *. clearbody k2. ks_simpl. split.
  - intros j g' Hj. rewrite Hl in Hj. unfold guardOk. rewrite sr_active0, sr_pending0, sr_next0. split; [|split; [done|split]].
    + intros [= <-]. rewrite decide_False in Hj by done. rewrite lookup_alter_eq, Ei in Hj.
      injection Hj as <-. destruct (Hg i g Ei) as (_ & H2 & _). destruct (H2 Epi) as (_ & ? & ? & _). repeat split; auto.
    + intros Hji _. rewrite lookup_alter_ne in Hj by congruence. case_decide as Hd.
      * destruct (ksGuards k !! j) as [g0|] eqn:E; [|done]. cbn in Hj. destruct (Hg j g0 E) as (H1 & _).
        destruct (H1 Hd) as (_ & C & _). by destruct (letGo_closed _ _ Hj C).
      * destruct (Hg j g' Hj) as (_ & _ & H3 & _). apply H3; [done|congruence].
    + destruct (decide (j = i)) as [->|Hji]; [by destruct (Hg i g Ei) as (_ & _ & _ & ?)|].
      rewrite lookup_alter_ne in Hj by congruence. destruct (ksGuards k !! j) as [g0|] eqn:E; [|by destruct (decide _)].
      by destruct (Hg j g0 E) as (_ & _ & _ & ?).
  - intros j. rewrite sr_active0. intros [= <-]. rewrite Hl, decide_False by done. by rewrite lookup_alter_eq, Ei.
  - intros j. by rewrite sr_pending0.
Qed.

Lemma onReady_inv i k : ksInv (Some i) k -> ksInv (Some i) (onReady i k).
Proof.
  intros Hk. pose proof Hk as [Hg Ht (Hu & Ho & Hst) Hw]. unfold onReady.
  destruct (ksGuards k !! i) as [g|] eqn:Ei; [|done]. unfold isPtr.
  destruct (bool_decide (ksPending k = Some i)) eqn:Epi; cbn [negb orb]; [|done]. apply bool_decide_eq_true in Epi.
  destruct (gReady g); [done|]. cbv zeta. destruct (promote_inv i g k Hk Ei Epi) as [Hg2 []].
  set (k2 := closeGuard (ksActive k) _) in *. clearbody k2. ks_simpl.
  assert (Hov : ksOverride k = false) by (destruct (ksOverride k); [destruct (Ho eq_refl); congruence|done]).
  assert (Hsw : sKillSwitch (ksSettings k) = true) by (destruct (ksState k); intuition congruence).
  assert (Ht2 : timersInv k2) by (intros j g' Hj; congruence).
  rewrite sr_identity0. destruct (ksIdentity k) eqn:Hid; [apply failIdentity_inv; try done; congruence|].
  pose proof (changeState_core Armed k2) as Hc. apply settle_inv.
  - eapply guardsInv_core; [exact Hc|]. destruct Hg2. split; assumption.
  - eapply timersInv_core; [exact Hc|]. exact Ht2.
  - eapply stateInv_core; [exact Hc|]. split; [cbn; congruence|]. split; [cbn; congruence|]. cbn. rewrite sr_active0. repeat split; congruence.
Qed.

(** ** Events of a guard *)

(** A guard that is not closing is the one in force or the coming one, not both. *)
Lemma open_guard d k i g : guardsInv d k -> ksGuards k !! i = Some g -> gClosing g = false ->
  (ksActive k = Some i /\ ksPending k <> Some i) \/ (ksPending k = Some i /\ ksActive k <> Some i).
Proof.
  intros [Hg _ _] Hi Hc. destruct (Hg i g Hi) as (H1 & H2 & H3 & _).
  destruct (decide (ksActive k = Some i)) as [Ha|Ha], (decide (ksPending k = Some i)) as [Hp|Hp]; auto.
  - destruct (H1 Ha) as (R & _), (H2 Hp) as (R' & _). congruence.
  - destruct (H3 Ha Hp). congruence.
Qed.

Lemma isPtr_true i o : o = Some i -> isPtr i o = true.
Proof. intros ->. by apply bool_decide_eq_true. Qed.

Lemma isPtr_false i o : o <> Some i -> isPtr i o = false.
Proof. intros Hn. by apply bool_decide_eq_false. Qed.

Lemma sameRest_timers k k' : sameRest k k' -> (forall j g, ksPending k = Some j -> ksGuards k' !! j = Some g -> gTimer g = true) -> timersInv k'.
Proof. intros [] Ht j g. rewrite sr_pending0. apply Ht. Qed.

(** Closing the guard in force leaves the coming one alone. *)
Lemma closeActive_timers d k : guardsInv d k -> timersInv k -> timersInv (closeActive k).
Proof.
  intros Hg Ht. destruct (dropActive_inv d k Hg) as [_ Hr]. apply (sameRest_timers _ _ Hr). ks_simpl. intros j g Hj.
  unfold closeActive. destruct (closeGuard_spec (ksActive k) (setActive None k)) as [_ Hl]. rewrite Hl. ks_simpl.
  case_decide as Hd; [|by apply Ht]. destruct Hg as [Hg Ha Hp]. destruct (Hp j Hj) as [g0 E]. destruct (Hg j g0 E) as (H1 & H2 & _).
  destruct (H1 Hd) as (R & _), (H2 Hj) as (R' & _). congruence.
Qed.

Lemma waitersInv_rest k k' : sameRest k k' -> waitersInv k -> waitersInv k'.
Proof.
  intros [] Hw. unfold waitersInv. rewrite sr_waiters0. eapply Forall_impl; [exact Hw|]. intros w. unfold stillWaits, isState.
  by rewrite sr_pending0, sr_state0.
Qed.

Lemma forceLost_rest k k' : sameRest k k' -> forceLost k -> forceLost k'.
Proof. intros []. unfold forceLost. by rewrite sr_shutdown0, sr_settings0, sr_override0, sr_active0, sr_state0, sr_identity0. Qed.

Lemma comingLost_rest k k' : sameRest k k' -> comingLost k -> comingLost k'.
Proof. intros []. unfold comingLost. by rewrite sr_shutdown0, sr_settings0, sr_override0, sr_active0, sr_pending0, sr_state0, sr_identity0. Qed.

(** The guard in force reports an error and is closed. *)
Lemma closeActive_lost d now c m k : ksInv d k -> ksActive k <> None -> ksInv d (protectionLost now c m (closeActive k)).
Proof.
  intros [Hg Ht Hst Hw] Ha. destruct (dropActive_inv d k Hg) as [Hg' Hr].
  apply protectionLost_inv; [done|by eapply closeActive_timers| |].
  - eapply waitersInv_rest; [exact Hr|]. exact Hw.
  - eapply forceLost_rest; [exact Hr|]. by apply stateInv_forceLost.
Qed.

Lemma closePending_failed d c m k : ksInv d k -> ksPending k <> None -> ksInv d (armFailed c m (closePending k)).
Proof.
  intros [Hg Ht Hst Hw] Hp. destruct (dropPending_inv d k Hg) as [Hg' Hr]. apply armFailed_inv; [done|].
  eapply comingLost_rest; [exact Hr|]. by apply stateInv_comingLost.
Qed.

Lemma handleLine_inv now i line k : ksInv (Some i) k -> ksInv (Some i) (handleLine now i line k).
Proof.
  intros Hk. unfold handleLine. cbv zeta. destruct (eqStr _ (u "WARN")); [done|].
  destruct (eqStr _ (u "READY")); [by apply onReady_inv|]. destruct (_ && _); [done|].
  destruct (ksGuards k !! i) as [g|] eqn:Ei; [|done]. destruct (gClosing g) eqn:Ec; [done|].
  destruct (open_guard (Some i) k i g (inv_guards _ _ Hk) Ei Ec) as [[Ha Hp]|[Hp Ha]].
  - rewrite (isPtr_true _ _ Ha), (isPtr_false _ _ Hp). cbn [guardLost forget]. rewrite <- Ha at 2.
    apply closeActive_lost; [done|congruence].
  - rewrite (isPtr_true _ _ Hp), (isPtr_false _ _ Ha). cbn [guardLost forget]. rewrite <- Hp at 2.
    apply closePending_failed; [done|congruence].
Qed.

(** Reading the output changes nothing the invariant is about. *)
Lemma setStdout_inv d i out k : ksInv d k -> ksInv d (onGuard i (gSetStdout out) k).
Proof.
  intros [[Hg Ha Hp] Ht Hst Hw]. split; [split| | |]; ks_simpl.
  - intros j g Hj. apply lookup_alter_Some in Hj as [(<- & g0 & E & ->)|[Hne Hj]]; [exact (Hg _ _ E)|exact (Hg _ _ Hj)].
  - intros j Hj. rewrite lookup_alter_is_Some. by apply Ha.
  - intros j Hj. rewrite lookup_alter_is_Some. by apply Hp.
  - intros j g Hj Hl. ks_simpl. apply lookup_alter_Some in Hl as [(<- & g0 & E & ->)|[Hne Hl]]; [exact (Ht _ _ Hj E)|by eapply Ht].
  - exact Hst.
  - exact Hw.
Qed.

Lemma handleText_inv now i bytes k : ksInv (Some i) k -> ksInv (Some i) (handleText now i bytes k).
Proof. intros Hk. unfold handleText. cbv zeta. destruct (isNil _); [done|]. by apply handleLine_inv. Qed.

Lemma readLines_inv fuel now i : forall k, ksInv (Some i) k -> ksInv (Some i) (readLines fuel now i k).
Proof.
  induction fuel as [|fuel IH]; intros k Hk; cbn [readLines]; [done|]. destruct (ksGuards k !! i) as [g|]; [|done].
  destruct (indexOf cLF (gStdout g)); [|done]. cbv zeta. apply IH, handleText_inv. by apply setStdout_inv.
Qed.

Lemma readOutput_inv now i k : ksInv (Some i) k -> ksInv (Some i) (readOutput now i k).
Proof. intros Hk. unfold readOutput. destruct (ksGuards k !! i); [by apply readLines_inv|done]. Qed.

(** The exemption ends when the guard is gone or runs after all. *)
Lemma guardsInv_none i k : guardsInv (Some i) k -> (forall g, ksGuards k !! i = Some g -> gProc g = GRunning) -> guardsInv None k.
Proof.
  intros [Hg Ha Hp] Hi. split; [|done|done]. intros j g Hj. destruct (Hg j g Hj) as (H1 & H2 & H3).
  assert (Hd : Some i = Some j -> gProc g = GRunning) by (intros [= ->]; by apply Hi).
  split; [|split; [|exact H3]].
  - intros E. destruct (H1 E) as (? & ? & ? & [?|?]); repeat split; auto.
  - intros E. destruct (H2 E) as (? & ? & ? & [Hij|?]); repeat split; auto. right. unfold alive. by rewrite (Hd Hij).
Qed.

Lemma guardsInv_some i k : guardsInv None k -> guardsInv (Some i) k.
Proof.
  intros [Hg Ha Hp]. split; [|done|done]. intros j g Hj. destruct (Hg j g Hj) as (H1 & H2 & H3).
  split; [|split; [|exact H3]]; intros E.
  - destruct (H1 E) as (? & ? & ? & [?|?]); [done|]. repeat split; auto.
  - destruct (H2 E) as (? & ? & ? & [?|?]); [done|]. repeat split; auto.
Qed.

(** The guard whose process ended, with the pointer to it cleared. *)
Lemma dropDead_guards d i k : guardsInv d k -> d = None \/ d = Some i -> forall a p,
  (a = ksActive k \/ ksActive k = Some i /\ a = None) -> (p = ksPending k \/ ksPending k = Some i /\ p = None) ->
  a <> Some i -> p <> Some i -> guardsInv None (deleteGuard i (setPending p (setActive a k))).
Proof.
  intros [Hg Ha Hp] Hd a p Hca Hcp Hna Hnp. split; ks_simpl.
  - intros j g Hj. apply lookup_delete_Some in Hj as [Hne Hj]. destruct (Hg j g Hj) as (H1 & H2 & H3 & H4).
    assert (Hdj : d <> Some j) by (destruct Hd; congruence).
    split; [|split; [|split; [|exact H4]]]; ks_simpl.
    + intros ->. destruct Hca as [Hca|[_ ?]]; [|done]. destruct (H1 (eq_sym Hca)) as (? & ? & ? & [?|?]); [done|]. repeat split; auto.
    + intros ->. destruct Hcp as [Hcp|[_ ?]]; [|done]. destruct (H2 (eq_sym Hcp)) as (? & ? & ? & [?|?]); [done|]. repeat split; auto.
    + intros Ha' Hp'. apply H3; destruct Hca as [Hca|[Hca Hca']], Hcp as [Hcp|[Hcp Hcp']]; congruence.
  - intros j Hj. rewrite lookup_delete_ne by congruence. destruct Hca as [->|[_ ->]]; [by apply Ha|done].
  - intros j Hj. rewrite lookup_delete_ne by congruence. destruct Hcp as [->|[_ ->]]; [by apply Hp|done].
Qed.

Lemma deleteGuard_rest i k : sameRest k (deleteGuard i k).
Proof. by split. Qed.

(** Losing a guard: the end of onFinished() and onStartFailed(). *)
Lemma guardGone_inv d now i code lost notArmed k : ksInv d k -> d = None \/ d = Some i ->
  let g := ksGuards k !! i in
  let open := match g with Some g => negb (gClosing g) | None => false end in
  let a := open && isPtr i (ksActive k) in
  let p := open && isPtr i (ksPending k) in
  ksInv None (guardLost now a p code lost notArmed (deleteGuard i (forget a p k))).
Proof.
  intros Hk Hd. cbv zeta. pose proof Hk as [Hg Ht Hst Hw].
  assert (Hnone : ksActive k <> Some i -> ksPending k <> Some i -> ksInv None (deleteGuard i k)).
  { intros Ha Hp. pose proof (dropDead_guards d i k Hg Hd (ksActive k) (ksPending k) ltac:(by left) ltac:(by left) Ha Hp) as Hg'.
    split; [|intros j g Hj Hl; ks_simpl; apply lookup_delete_Some in Hl as [_ Hl]; by eapply Ht|exact Hst|exact Hw].
    destruct Hg'. split; assumption. }
  destruct (ksGuards k !! i) as [g|] eqn:Ei; cbn [andb guardLost forget].
  2: { apply Hnone; intros E; destruct Hg as [_ Ha Hp]; [destruct (Ha i E)|destruct (Hp i E)]; congruence. }
  destruct (gClosing g) eqn:Ec; cbn [negb andb guardLost forget].
  { apply Hnone; intros E; destruct Hg as [Hg _ _]; destruct (Hg i g Ei) as (H1 & H2 & _); [destruct (H1 E) as (_ & ? & _)|destruct (H2 E) as (_ & ? & _)]; congruence. }
  destruct (open_guard d k i g Hg Ei Ec) as [[Ha Hp]|[Hp Ha]].
  - rewrite (isPtr_true _ _ Ha), (isPtr_false _ _ Hp). cbn [guardLost forget].
    pose proof (dropDead_guards d i k Hg Hd None (ksPending k) ltac:(by right) ltac:(by left) ltac:(done) Hp) as Hg'.
    apply protectionLost_inv.
    + destruct Hg'. split; assumption.
    + intros j g' Hj Hl. ks_simpl. apply lookup_delete_Some in Hl as [_ Hl]. by eapply Ht.
    + eapply waitersInv_rest; [apply deleteGuard_rest|]. exact Hw.
    + eapply forceLost_rest; [apply deleteGuard_rest|]. apply stateInv_forceLost; [done|congruence].
  - rewrite (isPtr_true _ _ Hp), (isPtr_false _ _ Ha). cbn [guardLost forget].
    pose proof (dropDead_guards d i k Hg Hd (ksActive k) None ltac:(by left) ltac:(by right) Ha ltac:(done)) as Hg'.
    apply armFailed_inv.
    + destruct Hg'. split; assumption.
    + eapply comingLost_rest; [apply deleteGuard_rest|]. apply stateInv_comingLost; [done|congruence].
Qed.

Lemma onFinished_inv now i c x k : ksInv (Some i) k -> ksInv None (onFinished now i c x k).
Proof.
  intros Hk. unfold onFinished. cbv zeta. set (k1 := readOutput now i k).
  assert (H1 : ksInv (Some i) k1) by by apply readOutput_inv. clearbody k1.
  match goal with |- context [match ksGuards ?x !! i with _ => _ end] => lazymatch x with k1 => fail | _ => set (k2 := x) end end.
  assert (H2 : ksInv (Some i) k2) by (unfold k2; destruct (ksGuards k1 !! i); [by apply handleText_inv, setStdout_inv|done]). clearbody k2.
  pose proof (guardGone_inv (Some i) now i kCrash (lostText c x) (notArmedText c x) k2 H2 ltac:(by right)) as H3. cbv zeta in H3.
  destruct (ksGuards k2 !! i) as [g|] eqn:Ei; [exact H3|]. destruct H2. split; try done. apply (guardsInv_none i); [done|]. intros g. by rewrite Ei.
Qed.

(** A process that has not started is not in force. *)
Lemma onStartFailed_inv i m k : ksInv None k -> (forall g, ksGuards k !! i = Some g -> isStarting g = true) -> ksInv None (onStartFailed i m k).
Proof.
  intros Hk Hs. unfold onStartFailed. destruct (ksGuards k !! i) as [g|] eqn:Ei; [|done]. cbv zeta.
  pose proof (guardGone_inv None 0 i kInternal m m k Hk ltac:(by left)) as H3. cbv zeta in H3. rewrite Ei in H3.
  assert (Ha : ksActive k <> Some i).
  { intros E. specialize (Hs g eq_refl). destruct (gi_ok _ _ (inv_guards _ _ Hk) i g Ei) as (H1 & _).
    destruct (H1 E) as (_ & _ & _ & [?|Hr]); [done|]. unfold isStarting in Hs. by rewrite Hr in Hs. }
  rewrite (isPtr_false _ _ Ha), andb_false_r in H3. exact H3.
Qed.

Lemma onReadyTimeout_inv i k : ksInv None k -> ksInv None (onReadyTimeout i (onGuard i (gSetTimer false) k)).
Proof.
  intros [[Hg Ha Hp] Ht Hst Hw]. set (k1 := onGuard i (gSetTimer false) k).
  assert (Hg1 : guardsInv None k1).
  { split; unfold k1; ks_simpl.
    - intros j g Hj. apply lookup_alter_Some in Hj as [(<- & g0 & E & ->)|[Hne Hj]]; [exact (Hg _ _ E)|exact (Hg _ _ Hj)].
    - intros j Hj. rewrite lookup_alter_is_Some. by apply Ha.
    - intros j Hj. rewrite lookup_alter_is_Some. by apply Hp. }
  unfold onReadyTimeout. destruct (ksGuards k1 !! i) as [g|] eqn:Ei.
  - unfold isPtr. destruct (bool_decide (ksPending k1 = Some i)) eqn:Ep; cbn [negb orb].
    + apply bool_decide_eq_true in Ep. destruct (gi_ok _ _ Hg1 i g Ei) as (_ & H2 & _). destruct (H2 Ep) as (-> & _).
      destruct (dropPending_inv None k1 Hg1) as [Hg2 Hr]. unfold closePending in *. rewrite Ep in Hg2, Hr. cbv zeta.
      apply armFailed_inv; [eapply guardsInv_core; [apply emit_core|exact Hg2]|].
      assert (Hc : comingLost (closeGuard (Some i) (setPending None k1)));
        [|destruct Hc as (? & ? & ? & ? & ?); by repeat split].
      eapply comingLost_rest; [exact Hr|]. apply stateInv_comingLost; [exact Hst|congruence].
    + apply bool_decide_eq_false in Ep. split; [done| |exact Hst|exact Hw]. intros j g' Hj Hl. unfold k1 in *. ks_simpl.
      apply lookup_alter_Some in Hl as [(<- & g0 & E & ->)|[Hne Hl]]; [done|by eapply Ht].
  - split; [done| |exact Hst|exact Hw]. intros j g' Hj Hl. unfold k1 in *. ks_simpl.
    apply lookup_alter_Some in Hl as [(<- & g0 & E & ->)|[Hne Hl]]; [|by eapply Ht]. by rewrite lookup_alter_eq, E in Ei.
Qed.

(** ** What every operation keeps *)

(** The output that answers a waiter. *)
Definition answers (w : Waiter) (o : KsOut) : Prop :=
  match wCallback w, o with
  | CbUser id, OCall id' _ => id = id'
  | CbPermit path, OPermit path' _ => path = path'
  | _, _ => False
  end.

(** A guard's process, and the output not yet read of it. *)
Definition view (b : bool) (g : Guard) : ProcState * list Z := (gProc g, if b then gStdout g else []).

(** A guard keeps its process and output; a waiter stays, is answered, or its context is gone. *)
Record evolves (b : bool) (k k' : KS) : Prop := {
  ev_next : (ksNext k <= ksNext k')%nat;
  ev_proc : forall i g', ksGuards k' !! i = Some g' -> (i < ksNext k)%nat -> exists g, ksGuards k !! i = Some g /\ view b g' = view b g;
  ev_waiters : exists new, ksOut k' = ksOut k ++ new /\
    forall w, w ∈ ksWaiters k -> w ∈ ksWaiters k' \/ contextGone w k = true \/ exists o, o ∈ new /\ answers w o;
  ev_dead : ksDead k' = ksDead k;
  ev_shutdown : ksShutdown k' = ksShutdown k
}.

#[export] Instance evolves_preorder b : PreOrder (evolves b).
Proof.
  split.
  - intros k. split; [done|by eauto| |done|done]. exists []. split; [by rewrite app_nil_r|auto].
  - intros k1 k2 k3 [N1 P1 (o1 & O1 & W1) D1 S1] [N2 P2 (o2 & O2 & W2) D2 S2]. split; [lia| | |congruence|congruence].
    + intros i g3 H3 Hi. destruct (P2 i g3 H3 ltac:(lia)) as (g2 & H2 & E2). destruct (P1 i g2 H2 Hi) as (g1 & H1 & E1).
      exists g1. split; [done|congruence].
    + exists (o1 ++ o2). split; [by rewrite O2, O1, app_assoc|]. intros w Hw. destruct (W1 w Hw) as [Hw2|[Hc|(o & Ho & Ha)]].
      * destruct (W2 w Hw2) as [?|[Hc|(o & Ho & Ha)]]; [auto| |].
        -- right; left. unfold contextGone in *. by rewrite <- D1.
        -- right; right. exists o. split; [|done]. apply elem_of_app. auto.
      * auto.
      * right; right. exists o. split; [|done]. apply elem_of_app. auto.
Qed.

(** Updates of the other members. *)
Lemma evolves_quiet {b} k k' : ksNext k' = ksNext k -> ksGuards k' = ksGuards k -> ksOut k' = ksOut k -> ksWaiters k' = ksWaiters k ->
  ksDead k' = ksDead k -> ksShutdown k' = ksShutdown k -> evolves b k k'.
Proof.
  intros N G O W D S. split; [lia|rewrite G; eauto| |done|done]. exists []. split; [by rewrite app_nil_r|]. rewrite W. auto.
Qed.

Lemma evolves_emit {b} o k : evolves b k (emit o k).
Proof. split; [done|eauto| |done|done]. exists [o]. split; [done|auto]. Qed.

Lemma evolves_onGuard {b} i f k : (forall g, view b (f g) = view b g) -> evolves b k (onGuard i f k).
Proof.
  intros Hf. split; [done| | |done|done].
  - intros j g' Hj _. ks_simpl. apply lookup_alter_Some in Hj as [(<- & g & E & ->)|[_ E]]; eauto.
  - exists []. split; [by rewrite app_nil_r|auto].
Qed.

Lemma evolves_delete {b} i k : evolves b k (deleteGuard i k).
Proof.
  split; [done| | |done|done].
  - intros j g' Hj _. ks_simpl. apply lookup_delete_Some in Hj as [_ E]; eauto.
  - exists []. split; [by rewrite app_nil_r|auto].
Qed.

Ltac quiet := by apply evolves_quiet.

Lemma evolves_changeState {b} s k : evolves b k (changeState s k).
Proof. unfold changeState. destruct (isState s _); [destruct s; quiet|]. etrans; [|apply evolves_emit]. destruct s; quiet. Qed.

Lemma callWaiter_answers w k : exists o, ksOut (callWaiter w k) = ksOut k ++ [o] /\ answers w o.
Proof. unfold callWaiter, answers. destruct (wCallback w); eexists; split; reflexivity. Qed.

(** The waiters taken out of the list are put back, answered or dropped. *)
Lemma settleLoop_answers waiting : forall k, exists new, ksOut (settleLoop waiting k) = ksOut k ++ new /\
  forall w, w ∈ waiting -> w ∈ ksWaiters (settleLoop waiting k) \/ contextGone w k = true \/ exists o, o ∈ new /\ answers w o.
Proof.
  induction waiting as [|w waiting IH]; intros k; [exists []; split; [by rewrite app_nil_r|by intros ? ?%not_elem_of_nil]|].
  cbn [settleLoop]. set (k1 := if stillWaits w k then _ else _).
  assert (Hk1 : ksDead k1 = ksDead k /\ exists new, ksOut k1 = ksOut k ++ new /\
    (w ∈ ksWaiters k1 \/ contextGone w k = true \/ exists o, o ∈ new /\ answers w o)).
  { unfold k1. destruct (stillWaits w k).
    - split; [done|]. exists []. split; [by rewrite app_nil_r|]. left. cbn. apply elem_of_app. right. by apply list_elem_of_singleton.
    - destruct (contextGone w k) eqn:E.
      + split; [done|]. exists []. split; [by rewrite app_nil_r|auto].
      + split; [apply (callWaiter_core w k)|]. destruct (callWaiter_answers w k) as (o & Ho & Ha). exists [o]. split; [done|].
        right; right. exists o. split; [by apply list_elem_of_singleton|done]. }
  clearbody k1. destruct Hk1 as (Hd & new1 & O1 & W1). destruct (IH k1) as (new2 & O2 & W2).
  exists (new1 ++ new2). split; [by rewrite O2, O1, app_assoc|]. intros x [->|Hx]%elem_of_cons.
  - destruct W1 as [Hw|[Hc|(o & Ho & Ha)]]; [|auto|].
    + left. rewrite settleLoop_waiters. apply elem_of_app. by left.
    + right; right. exists o. split; [|done]. apply elem_of_app. auto.
  - destruct (W2 x Hx) as [?|[Hc|(o & Ho & Ha)]]; [auto| |].
    + right; left. unfold contextGone in *. by rewrite <- Hd.
    + right; right. exists o. split; [|done]. apply elem_of_app. auto.
Qed.

Lemma evolves_settle {b} k : evolves b k (settle k).
Proof.
  pose proof (settle_core k) as []. split; [lia|rewrite sc_guards0; eauto| |done|done].
  destruct (settleLoop_answers (ksWaiters k) (setWaiters [] k)) as (new & O & W). exists new. split; [exact O|]. exact W.
Qed.

Lemma evolves_closeGuard {b} o k : evolves b k (closeGuard o k).
Proof.
  unfold closeGuard. destruct o as [i|]; [|done]. destruct (ksGuards k !! i) as [g|]; [|done]. destruct (gClosing g); [done|]. cbv zeta.
  etrans; [apply (evolves_onGuard i (fun g => gSetTimer false (gSetClosing true g))); done|].
  destruct (gProc g); [apply evolves_delete| |]; (etrans; [|apply evolves_emit]); by apply evolves_onGuard.
Qed.

Lemma evolves_closePending {b} k : evolves b k (closePending k).
Proof. unfold closePending. etrans; [|apply evolves_closeGuard]. quiet. Qed.

Lemma evolves_closeActive {b} k : evolves b k (closeActive k).
Proof. unfold closeActive. etrans; [|apply evolves_closeGuard]. quiet. Qed.

Lemma evolves_fail {b} c m k : evolves b k (fail c m k).
Proof. unfold fail. etrans; [|apply evolves_settle]. etrans; [|apply evolves_changeState]. quiet. Qed.

Lemma evolves_failIdentity {b} k : evolves b k (failIdentity k).
Proof.
  unfold failIdentity. cbv zeta. etrans; [|apply evolves_settle]. destruct (_ || _ || _); [|done].
  etrans; [|apply evolves_changeState]. quiet.
Qed.

(** The new guard's number is fresh. *)
Lemma evolves_newGuard {b} g s k : evolves b k s -> ksNext s = S (ksNext k) -> evolves b k (setGuards (<[ksNext k := g]> (ksGuards s)) s).
Proof.
  intros [N P W D S] Hn. split; ks_simpl; [lia| |exact W|exact D|exact S]. intros i g' Hi Hlt.
  rewrite lookup_insert_ne in Hi by lia. by apply P.
Qed.

Lemma evolves_spawn {b} c k : evolves b k (spawn c k).
Proof.
  unfold spawn. cbv zeta. etrans; [apply evolves_closePending|]. set (k1 := closePending k). clearbody k1.
  etrans; [|apply evolves_emit].
  set (k2 := setPending _ _). assert (H2 : evolves b k1 k2) by (split; [cbn; lia|eauto| |done|done]; exists []; split; [by rewrite app_nil_r|auto]).
  set (k3 := if _ : bool then _ else k2).
  assert (H3 : evolves b k2 k3 /\ ksNext k3 = ksNext k2).
  { unfold k3. destruct (_ && _); [|done]. split; [apply evolves_changeState|]. apply (changeState_core Arming k2). }
  apply evolves_newGuard; [by etrans; [exact H2|apply H3]|]. by rewrite (proj2 H3).
Qed.

Lemma evolves_apply {b} k : evolves b k (apply k).
Proof.
  unfold apply. destruct (ksShutdown k); [done|]. destruct (negb _).
  { etrans; [|apply evolves_settle]. etrans; [|apply evolves_changeState]. etrans; [|apply evolves_closeActive].
    etrans; [|apply evolves_closePending]. quiet. }
  destruct (ksOverride k).
  { cbv zeta. etrans; [apply evolves_closePending|]. etrans; [apply evolves_closeActive|].
    destruct (_ && _); [apply evolves_settle|apply evolves_fail]. }
  cbv zeta. set (k1 := if _ : bool then _ else k). assert (H1 : evolves b k k1) by (unfold k1; destruct (_ && _); [apply evolves_failIdentity|done]).
  etrans; [exact H1|]. clearbody k1. destruct (configIs _ _ _); [done|]. destruct (configIs _ _ _); [|apply evolves_spawn].
  destruct (isSome _); [|done]. etrans; [apply evolves_closePending|apply evolves_settle].
Qed.

Lemma evolves_armFailed {b} c m k : evolves b k (armFailed c m k).
Proof.
  unfold armFailed. destruct (isSome _); [|apply evolves_fail]. etrans; [|apply evolves_settle].
  destruct (_ && _); [apply evolves_emit|done].
Qed.

Lemma evolves_protectionLost {b} now c m k : evolves b k (protectionLost now c m k).
Proof.
  unfold protectionLost. destruct (ksShutdown k); [done|]. destruct (negb _); [apply evolves_apply|]. destruct (isSome _).
  - etrans; [|apply evolves_settle]. destruct (negb _); [apply evolves_changeState|done].
  - cbv zeta. destruct (_ && hasExpired _ _ _); [|apply evolves_fail]. etrans; [|apply evolves_spawn]. quiet.
Qed.

Lemma evolves_onReady {b} i k : evolves b k (onReady i k).
Proof.
  unfold onReady. destruct (ksGuards k !! i) as [g|]; [|done]. destruct (_ || _); [done|]. cbv zeta.
  etrans; [apply (evolves_onGuard i (fun g => gSetTimer false (gSetReady true g))); done|].
  etrans; [|destruct (ksIdentity _); [apply evolves_failIdentity|etrans; [apply evolves_changeState|apply evolves_settle]]].
  etrans; [|apply evolves_closeGuard]. quiet.
Qed.

Lemma evolves_forget {b} a p k : evolves b k (forget a p k).
Proof. destruct a, p; quiet. Qed.

Lemma evolves_guardLost {b} now a p c m m' k : evolves b k (guardLost now a p c m m' k).
Proof. unfold guardLost. destruct a; [apply evolves_protectionLost|]. destruct p; [apply evolves_armFailed|done]. Qed.

Lemma evolves_handleLine {b} now i line k : evolves b k (handleLine now i line k).
Proof.
  unfold handleLine. cbv zeta. destruct (eqStr _ (u "WARN")); [done|]. destruct (eqStr _ (u "READY")); [apply evolves_onReady|].
  destruct (_ && _); [done|]. destruct (ksGuards k !! i) as [g|]; [|done]. destruct (gClosing g); [done|].
  etrans; [|apply evolves_guardLost]. etrans; [apply evolves_forget|apply evolves_closeGuard].
Qed.

Lemma evolves_handleText {b} now i bytes k : evolves b k (handleText now i bytes k).
Proof. unfold handleText. cbv zeta. destruct (isNil _); [done|apply evolves_handleLine]. Qed.

Lemma evolves_readLines fuel now i : forall k, evolves false k (readLines fuel now i k).
Proof.
  induction fuel as [|fuel IH]; intros k; cbn [readLines]; [done|]. destruct (ksGuards k !! i) as [g|]; [|done].
  destruct (indexOf cLF (gStdout g)) as [n|]; [|done]. cbv zeta. etrans; [|apply IH]. etrans; [|apply evolves_handleText]. by apply evolves_onGuard.
Qed.

Lemma evolves_readOutput now i k : evolves false k (readOutput now i k).
Proof. unfold readOutput. destruct (ksGuards k !! i); [apply evolves_readLines|done]. Qed.

Lemma evolves_guardGone {b} now i a p c m m' k : evolves b k (guardLost now a p c m m' (deleteGuard i (forget a p k))).
Proof. etrans; [|apply evolves_guardLost]. etrans; [apply evolves_forget|apply evolves_delete]. Qed.

Lemma evolves_onFinished now i c x k : evolves false k (onFinished now i c x k).
Proof.
  unfold onFinished. cbv zeta. etrans; [apply (evolves_readOutput now i)|]. set (k1 := readOutput now i k). clearbody k1.
  set (k2 := match ksGuards k1 !! i with Some g => _ | None => k1 end). assert (H2 : evolves false k1 k2).
  { unfold k2. destruct (ksGuards k1 !! i); [|done]. etrans; [|apply evolves_handleText]. by apply evolves_onGuard. }
  etrans; [exact H2|]. destruct (ksGuards k2 !! i); [apply evolves_guardGone|done].
Qed.

Lemma evolves_onStartFailed {b} i m k : evolves b k (onStartFailed i m k).
Proof.
  unfold onStartFailed. destruct (ksGuards k !! i) as [g|]; [|done]. cbv zeta.
  etrans; [apply (evolves_forget false (negb (gClosing g) && isPtr i (ksPending k)))|]. etrans; [apply (evolves_delete i)|].
  destruct (_ && _); [apply evolves_armFailed|done].
Qed.

Lemma evolves_onReadyTimeout {b} i k : evolves b k (onReadyTimeout i k).
Proof.
  unfold onReadyTimeout. destruct (ksGuards k !! i) as [g|]; [|done]. destruct (_ || _); [done|]. cbv zeta.
  etrans; [|apply evolves_armFailed]. etrans; [|apply evolves_emit]. etrans; [|apply evolves_closeGuard]. quiet.
Qed.

Lemma evolves_waiter {b} w k : evolves b k (setWaiters (ksWaiters k ++ [w]) k).
Proof.
  split; [done|eauto| |done|done]. exists []. split; [by rewrite app_nil_r|]. intros x Hx. left. cbn. apply elem_of_app. by left.
Qed.

Lemma evolves_whenIdle {b} path k : evolves b k (whenIdle path k).
Proof. unfold whenIdle. cbv zeta. destruct (negb _); [unfold callWaiter; cbn; apply evolves_emit|apply evolves_waiter]. Qed.

Lemma evolves_permit {b} path k : evolves b k (permitExtraCoreUi path k).
Proof.
  unfold permitExtraCoreUi. cbv zeta. destruct (_ || _); [apply evolves_emit|]. etrans; [|apply evolves_whenIdle]. etrans; [|apply evolves_apply].
  destruct (existsb _ _); [done|]. etrans; [|apply evolves_emit]. quiet.
Qed.

(** ** The steps *)

Definition isShutdown (ev : KsEvent) : bool := match ev with EvShutdown _ => true | _ => false end.

(** Only shutdown() shuts down, and that is final. *)
Lemma step_shutdown ev k : isShutdown ev = false -> ksShutdown (ksStep ev k) = ksShutdown k.
Proof.
  assert (He : forall k k', evolves false k k' -> ksShutdown k' = ksShutdown k) by (by intros ? ? []).
  assert (Hguard : forall i ready f, (forall k, ksShutdown (f k) = ksShutdown k) -> ksShutdown (guardEvent i ready f k) = ksShutdown k).
  { intros i ready f Hf. unfold guardEvent. destruct (ksGuards k !! i); [|done]. by destruct (ready _). }
  destruct ev; intros Hs; cbn [ksStep]; try done.
  - by rewrite (He _ _ (evolves_apply _)).
  - by rewrite (He _ _ (evolves_apply _)).
  - unfold noteIdentityUnsupported. by rewrite (He _ _ (evolves_apply _)).
  - unfold SetApiPort. by destruct (_ =? _).
  - unfold apiPortChanged. destruct (_ && _); [done|]. destruct (sPrepareExit _); [done|]. by rewrite (He _ _ (evolves_apply _)).
  - unfold whenSettled. by destruct (negb _).
  - by destruct (Nat.eqb _ _).
  - by rewrite (He _ _ (evolves_permit _ _)).
  - unfold rearm. destruct (_ || _); [done|]. destruct (sPrepareExit _); [done|]. by rewrite (He _ _ (evolves_apply _)).
  - unfold closeGrace. destruct (ksGuards k !! i) as [g|]; [|done]. by destruct (gProc g), (gClosing g).
  - apply Hguard. intros k'. unfold onStarted. destruct (_ !! i) as [g|]; [by destruct (gClosing g)|done].
  - apply Hguard. intros k'. by rewrite (He _ _ (evolves_onStartFailed _ _ _)).
  - apply Hguard. intros k'. by rewrite (He _ _ (evolves_readOutput _ _ _)).
  - apply Hguard. intros k'. by rewrite (He _ _ (evolves_onReadyTimeout _ _)).
  - apply Hguard. intros k'. by rewrite (He _ _ (evolves_onFinished _ _ _ _ _)).
Qed.

Lemma stateInv_loose k : stateInv k -> stateLoose k.
Proof. intros (Hu & Ho & Hst). split; [done|]. split; [done|]. destruct (ksState k); intuition congruence. Qed.

Lemma ksInv_apply k : ksInv None k -> ksInv None (apply k).
Proof. intros [Hg Ht Hst Hw]. apply apply_inv; try done. by apply stateInv_loose. Qed.

(** Settings do not matter to the guards. *)
Lemma apply_settings_inv s k : ksInv None k -> ksInv None (apply (setSettings s k)).
Proof.
  intros [Hg Ht (Hu & Ho & Hst) Hw]. apply apply_inv.
  - destruct Hg. split; assumption.
  - exact Ht.
  - split; [done|]. split; [exact Ho|]. ks_simpl. destruct (ksState k); intuition congruence.
  - exact Hw.
Qed.

Lemma noteIdentity_inv d k : ksInv None k -> ksInv None (noteIdentityUnsupported d k).
Proof.
  intros [Hg Ht (Hu & Ho & Hst) Hw]. unfold noteIdentityUnsupported. apply apply_inv.
  - destruct Hg. split; assumption.
  - exact Ht.
  - split; [done|]. split; [exact Ho|]. ks_simpl. destruct (ksState k); intuition congruence.
  - exact Hw.
Qed.

Lemma emit_inv d o k : ksInv d k -> ksInv d (emit o k).
Proof. intros [[] Ht Hst Hw]. split; [split; assumption|exact Ht|exact Hst|exact Hw]. Qed.

Lemma addWaiter_inv w k : ksInv None k -> stillWaits w k = true -> ksInv None (setWaiters (ksWaiters k ++ [w]) k).
Proof.
  intros [[] Ht Hst Hw] Hs. split; [split; assumption|exact Ht|exact Hst|]. unfold waitersInv. cbn. apply Forall_app. split; [exact Hw|].
  by apply Forall_singleton.
Qed.

Lemma callWaiter_inv w k : ksInv None k -> ksInv None (callWaiter w k).
Proof. intros Hk. unfold callWaiter. destruct (wCallback w); by apply emit_inv. Qed.

Lemma permit_inv path k : ksInv None k -> ksInv None (permitExtraCoreUi path k).
Proof.
  intros Hk. unfold permitExtraCoreUi. cbv zeta. destruct (_ || _); [by apply emit_inv|].
  match goal with |- ksInv None (whenIdle path (apply ?x)) => assert (H1 : ksInv None (apply x)); [|set (k1 := apply x) in *; clearbody k1] end.
  - apply ksInv_apply. destruct (existsb _ _); [done|]. apply emit_inv. destruct Hk as [[] Ht Hst Hw].
    split; [split; assumption|exact Ht|exact Hst|exact Hw].
  - unfold whenIdle. cbv zeta. destruct (isSome (ksPending k1)) eqn:E; cbn [negb]; [|by apply callWaiter_inv].
    by apply addWaiter_inv.
Qed.

(** A process that comes up or ends. *)
Lemma setProc_inv i p d k : ksInv None k -> (p = GRunning \/ d = Some i) -> (forall g, ksGuards k !! i = Some g -> alive g) ->
  ksInv d (onGuard i (gSetProc p) k).
Proof.
  intros [[Hg Ha Hp] Ht Hst Hw] Hc Hal. split; [split| |exact Hst|exact Hw]; ks_simpl.
  - intros j g Hj. apply lookup_alter_Some in Hj as [(<- & g0 & E & ->)|[Hne Hj]].
    + destruct (Hg _ _ E) as (H1 & H2 & H3 & H4). split; [|split; [|split; [|exact H4]]]; ks_simpl.
      * intros Hact. destruct (H1 Hact) as (? & ? & ? & _). repeat split; try done. cbn. destruct Hc as [->|?]; auto.
      * intros Hpen. destruct (H2 Hpen) as (? & ? & ? & _). repeat split; try done. destruct Hc as [->|?]; [by right|by left].
      * intros Hna Hnp. destruct (H3 Hna Hnp) as [? Hs]. split; [done|]. intros _. cbn. by apply Hs, Hal.
    + destruct (Hg _ _ Hj) as (H1 & H2 & H3 & H4). split; [|split; [|split; [exact H3|exact H4]]]; ks_simpl; intros E.
      * destruct (H1 E) as (? & ? & ? & [?|?]); [done|]. repeat split; auto.
      * destruct (H2 E) as (? & ? & ? & [?|?]); [done|]. repeat split; auto.
  - intros j Hj. rewrite lookup_alter_is_Some. by apply Ha.
  - intros j Hj. rewrite lookup_alter_is_Some. by apply Hp.
  - intros j g Hj Hl. ks_simpl. apply lookup_alter_Some in Hl as [(<- & g0 & E & ->)|[Hne Hl]]; [exact (Ht _ _ Hj E)|by eapply Ht].
Qed.

Lemma stdout_inv now i f k : ksInv None k -> (forall g, ksGuards k !! i = Some g -> gProc g = GRunning) ->
  (forall g, gProc (f g) = gProc g /\ gReady (f g) = gReady g /\ gClosing (f g) = gClosing g /\ gStdin (f g) = gStdin g /\ gTimer (f g) = gTimer g) ->
  ksInv None (readOutput now i (onGuard i f k)).
Proof.
  intros Hk Hr Hf. set (k1 := onGuard i f k). assert (H1 : ksInv None k1).
  { destruct Hk as [[Hg Ha Hp] Ht Hst Hw]. split; [split| |exact Hst|exact Hw]; unfold k1; ks_simpl.
    - intros j g Hj. apply lookup_alter_Some in Hj as [(<- & g0 & E & ->)|[Hne Hj]]; [|exact (Hg _ _ Hj)].
      unfold guardOk, alive. ks_simpl. destruct (Hf g0) as (-> & -> & -> & -> & _). exact (Hg _ _ E).
    - intros j Hj. rewrite lookup_alter_is_Some. by apply Ha.
    - intros j Hj. rewrite lookup_alter_is_Some. by apply Hp.
    - intros j g Hj Hl. ks_simpl. apply lookup_alter_Some in Hl as [(<- & g0 & E & ->)|[Hne Hl]]; [|by eapply Ht].
      destruct (Hf g0) as (_ & _ & _ & _ & ->). by eapply Ht. }
  assert (H2 : ksInv (Some i) (readOutput now i k1)).
  { apply readOutput_inv. destruct H1. split; try done. by apply guardsInv_some. }
  destruct H2. split; try done. apply (guardsInv_none i); [done|]. intros g Hg.
  destruct (decide (i < ksNext k1)%nat) as [Hlt|Hge].
  - destruct (ev_proc _ _ _ (evolves_readOutput now i k1) i g Hg Hlt) as (g0 & E & [= ->]). unfold k1 in E. ks_simpl.
    apply lookup_alter_Some in E as [(_ & g1 & E & ->)|[? _]]; [|done]. destruct (Hf g1) as (-> & _). by apply Hr.
  - exfalso. unfold readOutput in Hg. destruct (ksGuards k1 !! i) as [g1|] eqn:E; [|congruence].
    destruct (gi_ok _ _ (inv_guards _ _ H1) _ _ E) as (_ & _ & _ & ?). lia.
Qed.

(** Every turn of the UI thread but shutdown() keeps the invariant. *)
Lemma ksStep_inv ev k : ksInv None k -> isShutdown ev = false -> ksInv None (ksStep ev k).
Proof.
  intros Hk Hs. destruct ev; cbn [ksStep]; try done.
  - by apply apply_settings_inv.
  - destruct Hk as [[] Ht (Hu & Ho & Hst) Hw]. split; [split; assumption|exact Ht| |exact Hw]. by split.
  - by apply ksInv_apply.
  - by apply noteIdentity_inv.
  - unfold SetApiPort. destruct (_ =? _); [done|]. apply emit_inv. destruct Hk as [[] Ht Hst Hw].
    split; [split; assumption|exact Ht|exact Hst|exact Hw].
  - unfold apiPortChanged. destruct (_ && _); [done|]. destruct (sPrepareExit _); [done|by apply ksInv_apply].
  - unfold whenSettled. destruct (isState Arming k) eqn:E; cbn [negb]; [|by apply emit_inv]. by apply addWaiter_inv.
  - destruct (Nat.eqb _ _); [done|]. destruct Hk as [[] Ht Hst Hw]. split; [split; assumption|exact Ht|exact Hst|exact Hw].
  - by apply permit_inv.
  - unfold rearm. destruct (_ || _); [done|]. destruct (sPrepareExit _); [done|by apply ksInv_apply].
  - unfold closeGrace. destruct (ksGuards k !! i) as [g|]; [|done]. destruct (gProc g), (gClosing g); try done; by apply emit_inv.
  - unfold guardEvent. destruct (ksGuards k !! i) as [g|] eqn:E; [|done]. destruct (isStarting g) eqn:Eg; [|done].
    assert (H1 : ksInv None (onGuard i (gSetProc GRunning) k)).
    { apply setProc_inv; [done|by left|]. intros g0. rewrite E. intros [= <-]. unfold alive, isStarting in *. by destruct (gProc g). }
    unfold onStarted. destruct (ksGuards (onGuard _ _ _) !! i) as [g0|]; [|exact H1]. destruct (gClosing g0); [exact H1|by apply emit_inv].
  - unfold guardEvent. destruct (ksGuards k !! i) as [g|] eqn:E; [|done]. destruct (isStarting g) eqn:Eg; [|done].
    apply onStartFailed_inv; [done|]. intros g0. rewrite E. by intros [= <-].
  - unfold guardEvent. destruct (ksGuards k !! i) as [g|] eqn:E; [|done]. destruct (isRunning g) eqn:Eg; [|done].
    apply stdout_inv; [done| |done]. intros g0. rewrite E. intros [= <-]. unfold isRunning in Eg. by destruct (gProc g).
  - unfold guardEvent. destruct (ksGuards k !! i) as [g|] eqn:E; [|done]. destruct (gTimer g); [|done]. by apply onReadyTimeout_inv.
  - unfold guardEvent. destruct (ksGuards k !! i) as [g|] eqn:E; [|done]. destruct (isRunning g) eqn:Eg; [|done].
    apply onFinished_inv. apply setProc_inv; [done|by right|]. intros g0. rewrite E. intros [= <-]. unfold alive, isRunning in *. by destruct (gProc g).
Qed.

Lemma shutdown_final f k : ksShutdown k = true -> shutdown f k = k.
Proof. intros Hs. unfold shutdown. by rewrite Hs. Qed.

Lemma shutdownClose_shutdown ids : forall k, ksShutdown (shutdownClose ids k) = ksShutdown k.
Proof.
  induction ids as [|i ids IH]; intros k; cbn [shutdownClose]; [done|]. rewrite IH. destruct (ksGuards k !! i) as [g|]; [|done].
  cbv zeta. by destruct (gProc g).
Qed.

Lemma shutdownWait_shutdown ids f : forall k, ksShutdown (shutdownWait ids f k) = ksShutdown k.
Proof.
  induction ids as [|i ids IH]; intros k; cbn [shutdownWait]; [done|]. rewrite IH. destruct (ksGuards k !! i) as [g|]; [|done].
  destruct (gProc g); try done; by destruct (f i).
Qed.

Lemma step_up ev k : ksShutdown (ksStep ev k) = false -> isShutdown ev = false /\ ksShutdown k = false.
Proof.
  intros Hs. destruct (isShutdown ev) eqn:E.
  - exfalso. destruct ev; try done. cbn [ksStep] in Hs. destruct (ksShutdown k) eqn:Ek; [by rewrite shutdown_final, Ek in Hs|].
    unfold shutdown in Hs. rewrite Ek in Hs. cbv zeta in Hs. by rewrite shutdownWait_shutdown, shutdownClose_shutdown in Hs.
  - split; [done|]. by rewrite step_shutdown in Hs.
Qed.

Lemma ksReachable_inv k : ksReachable k -> ksShutdown k = false -> ksInv None k.
Proof.
  induction 1 as [s o p|k ev Hk IH]; intros Hs.
  - unfold ksBoot. apply apply_inv; [split; cbn; intros; done| | |].
    + intros i g Hi. done.
    + split; [done|]. split; [done|]. cbn. split; [done|]. split; [done|]. by left.
    + by apply Forall_nil.
  - destruct (step_up ev k Hs) as [He Hu]. apply ksStep_inv; [by apply IH|done].
Qed.

End Facts.
