(* ===== verification/KillSwitchSafety.v ===== *)
(** What the kill switch promises: starts are allowed only behind a ready guard,
    waiting callers are answered, guards hand over without a gap, and a switch
    turned off leaves no rules behind. *)
From stdpp Require Import base list gmap strings.
From Stdlib Require Import ZArith Lia Bool.
From S2P Require Import Prelude Json KillSwitch KillSwitchFacts.

Section Safety.
Context {Q : QtChar} {U : Utf8} {J : JsonText} {H : Host}.

(** A guard that blocks: it reported READY, runs, and was not told to end. *)
Definition blocks (i : nat) (k : KS) : Prop :=
  exists g, ksGuards k !! i = Some g /\ gReady g = true /\ gClosing g = false /\ gStdin g = true /\ gProc g = GRunning.

Lemma active_blocks k i : ksInv None k -> ksActive k = Some i -> blocks i k.
Proof.
  intros [[Hg Ha _] _ _ _] Hi. destruct (Ha i Hi) as [g E]. destruct (Hg i g E) as (H1 & _).
  destruct (H1 Hi) as (? & ? & ? & [?|?]); [done|]. by exists g.
Qed.

(** With the switch on, a start is allowed only while a guard is in force. *)
Lemma allowed_active k : ksInv None k -> sKillSwitch (ksSettings k) = true -> allowsStart k = true -> exists i, ksActive k = Some i.
Proof.
  intros Hk Hs Ha. destruct (inv_state _ _ Hk) as (_ & _ & Hst).
  unfold allowsStart, isState in Ha. apply orb_true_iff in Ha as [E|E]; apply bool_decide_eq_true in E; rewrite E in Hst.
  - destruct Hst as (_ & _ & _ & ?). congruence.
  - destruct (ksActive k) as [i|]; [by exists i|by destruct Hst].
Qed.

(** C12: Fail closed: whenever the switch is on and the engine would let a profile
    start, a guard is in force whose process runs, that reported READY and was
    not told to end. It holds after any sequence of settings changes, guard
    crashes, errors, timeouts, replacements and late output. *)
Theorem kill_switch_fail_closed k :
  ksReachable k -> ksShutdown k = false -> sKillSwitch (ksSettings k) = true -> allowsStart k = true ->
  exists i, ksActive k = Some i /\ blocks i k.
Proof.
  intros Hr Hu Hs Ha. pose proof (ksReachable_inv k Hr Hu) as Hk.
  destruct (allowed_active k Hk Hs Ha) as [i Hi]. exists i. split; [done|by apply active_blocks].
Qed.

(** A waiting caller: until it is answered there is a guard coming up. *)
Lemma waiter_pending k w : ksInv None k -> w ∈ ksWaiters k -> exists i g,
  ksPending k = Some i /\ ksGuards k !! i = Some g /\ gTimer g = true /\ gReady g = false.
Proof.
  intros [[Hg Ha Hp] Ht (_ & _ & Hst) Hw] Hin. unfold waitersInv in Hw. rewrite Forall_forall in Hw. specialize (Hw w Hin).
  assert (Hpe : ksPending k <> None).
  { unfold stillWaits in Hw. destruct (wIdle w); [by destruct (ksPending k)|]. apply bool_decide_eq_true in Hw. rewrite Hw in Hst. apply Hst. }
  destruct (ksPending k) as [i|] eqn:Ei; [|done]. destruct (Hp i eq_refl) as [g E]. exists i, g. split; [done|]. split; [done|]. split; [by eapply Ht|].
  destruct (Hg i g E) as (_ & H2 & _). by apply H2.
Qed.

(** What a step leaves of the waiters. *)
Definition served (k k' : KS) : Prop := exists new, ksOut k' = ksOut k ++ new /\
  forall w, w ∈ ksWaiters k -> w ∈ ksWaiters k' \/ contextGone w k = true \/ exists o, o ∈ new /\ answers w o.

Lemma served_evolves k k' : evolves false k k' -> served k k'.
Proof. intros He. exact (ev_waiters _ _ _ He). Qed.

Lemma served_same k k' : ksOut k' = ksOut k -> ksWaiters k' = ksWaiters k -> served k k'.
Proof. intros O W. exists []. split; [by rewrite app_nil_r|]. rewrite W. auto. Qed.

Lemma served_update k k1 k' : ksOut k1 = ksOut k -> ksWaiters k1 = ksWaiters k -> ksDead k1 = ksDead k -> evolves false k1 k' -> served k k'.
Proof.
  intros O W D He. destruct (served_evolves _ _ He) as (new & O' & W'). exists new. split; [by rewrite O', O|].
  intros w Hw. rewrite <- W in Hw. destruct (W' w Hw) as [?|[Hc|?]]; auto. right; left. unfold contextGone in *. by rewrite <- D.
Qed.

Lemma served_emit k k1 o : ksOut k1 = ksOut k -> ksWaiters k1 = ksWaiters k -> served k (emit o k1).
Proof. intros O W. exists [o]. split; [cbn; by rewrite O|]. cbn. rewrite W. auto. Qed.

Lemma served_guardEvent i ready f k : (forall g, ksGuards k !! i = Some g -> served k (f k)) -> served k (guardEvent i ready f k).
Proof.
  intros Hf. unfold guardEvent. destruct (ksGuards k !! i) as [g|]; [|by apply served_same]. destruct (ready g); [by eapply Hf|by apply served_same].
Qed.

Lemma ksStep_served ev k : isShutdown ev = false -> served k (ksStep ev k).
Proof.
  intros Hs. destruct ev; cbn [ksStep]; try done.
  - eapply served_update; [..|apply evolves_apply]; done.
  - by apply served_same.
  - eapply served_update; [..|apply evolves_apply]; done.
  - eapply (served_update _ (setIdentity true detail k)); [done..|apply evolves_apply].
  - unfold SetApiPort. destruct (_ =? _); [by apply served_same|by apply served_emit].
  - unfold apiPortChanged. destruct (_ && _); [by apply served_same|]. destruct (sPrepareExit _); [by apply served_same|].
    apply served_evolves, evolves_apply.
  - unfold whenSettled. destruct (negb _); [by apply served_emit|]. apply served_evolves, evolves_waiter.
  - destruct (Nat.eqb _ _); by apply served_same.
  - apply served_evolves, evolves_permit.
  - unfold rearm. destruct (_ || _); [by apply served_same|]. destruct (sPrepareExit _); [by apply served_same|].
    apply served_evolves, evolves_apply.
  - unfold closeGrace. destruct (ksGuards k !! i) as [g|]; [|by apply served_same].
    destruct (gProc g), (gClosing g); first [by apply served_same|by apply served_emit].
  - apply served_guardEvent. intros _ _. unfold onStarted. destruct (ksGuards (onGuard _ _ _) !! i) as [g|]; [|by apply served_same].
    destruct (gClosing g); [by apply served_same|by apply served_emit].
  - apply served_guardEvent. intros _ _. apply served_evolves, evolves_onStartFailed.
  - apply served_guardEvent. intros _ _. eapply served_update; [..|apply evolves_readOutput]; done.
  - apply served_guardEvent. intros _ _. eapply served_update; [..|apply evolves_onReadyTimeout]; done.
  - apply served_guardEvent. intros _ _. eapply served_update; [..|apply evolves_onFinished]; done.
Qed.

(** The ready timer ends the wait. *)
Lemma timeout_settles k i g : ksInv None k -> ksPending k = Some i -> ksGuards k !! i = Some g -> gTimer g = true ->
  ksPending (ksStep (EvReadyTimeout i) k) = None /\ ksState (ksStep (EvReadyTimeout i) k) <> Arming.
Proof.
  intros Hk Hp Hi Ht. cbn [ksStep]. unfold guardEvent. rewrite Hi, Ht.
  pose proof Hk as [[Hg _ _] _ (_ & _ & Hst) _]. destruct (Hg i g Hi) as (_ & H2 & _). destruct (H2 Hp) as (R & _).
  set (k1 := onGuard i (gSetTimer false) k). unfold onReadyTimeout.
  assert (E1 : ksGuards k1 !! i = Some (gSetTimer false g)) by (unfold k1; ks_simpl; by rewrite lookup_alter_eq, Hi).
  rewrite E1. cbn [gSetTimer gReady]. rewrite R. rewrite (isPtr_true i (ksPending k1)) by done. cbn [negb orb]. cbv zeta.
  destruct (closeGuard_spec (Some i) (setPending None k1)) as [[] _]. set (k2 := closeGuard _ _) in *. clearbody k2. unfold armFailed.
  change (ksActive (emit (OStopHard i) k2)) with (ksActive k2). rewrite sr_active. unfold k1 in *. ks_simpl.
  destruct (ksActive k) as [a|] eqn:Ea; cbn [isSome].
  - match goal with |- context [settle ?x] => destruct (settle_core x) as [Es _ _ _ Ep _ _ _ _ _]; rewrite Es, Ep end.
    match goal with |- context [if ?b then emit ORearmTimer _ else _] => change b with true end. cbn. rewrite sr_pending, sr_state. split; [done|]. intros E; rewrite E in Hst; destruct Hst; congruence.
  - unfold fail. match goal with |- context [settle ?x] => destruct (settle_core x) as [Es _ _ _ Ep _ _ _ _ _]; rewrite Es, Ep end.
    match goal with |- context [changeState Failed ?x] => destruct (changeState_core Failed x) as [Es' _ _ _ Ep' _ _ _ _ _]; rewrite Es', Ep' end.
    cbn. by rewrite sr_pending.
Qed.

(** C37: No caller that waits for the kill switch is forgotten: in every turn but
    the shutdown a waiting callback stays in the list, is called, or its owner is
    gone; and while one waits, a guard is coming up whose ready timer runs, and
    that timer, at the latest, empties the list. *)
Theorem kill_switch_waiters_answered k : ksReachable k -> ksShutdown k = false ->
  (forall ev, isShutdown ev = false -> served k (ksStep ev k)) /\
  (ksWaiters k <> [] -> exists i g, ksPending k = Some i /\ ksGuards k !! i = Some g /\ gTimer g = true /\
     ksWaiters (ksStep (EvReadyTimeout i) k) = [] /\ ksState (ksStep (EvReadyTimeout i) k) <> Arming).
Proof.
  intros Hr Hu. split; [intros ev; apply ksStep_served|]. intros Hne. pose proof (ksReachable_inv k Hr Hu) as Hk.
  destruct (ksWaiters k) as [|w ws] eqn:Ew; [done|].
  destruct (waiter_pending k w Hk) as (i & g & Hp & Hi & Ht & _); [rewrite Ew; by apply elem_of_cons; left|].
  exists i, g. destruct (timeout_settles k i g Hk Hp Hi Ht) as [Hp' Hs']. repeat split; try done.
  pose proof (ksStep_inv (EvReadyTimeout i) k Hk eq_refl) as Hk'. destruct (ksWaiters (ksStep (EvReadyTimeout i) k)) as [|w' ws'] eqn:E; [done|].
  destruct (waiter_pending _ w' Hk') as (? & ? & ? & _); [rewrite E; by apply elem_of_cons; left|congruence].
Qed.

(** ** Turning the switch off *)

Lemma apply_off_state k : ksShutdown k = false -> sKillSwitch (ksSettings k) = false -> ksState (apply k) = Disabled.
Proof.
  intros Hu Hs. unfold apply. rewrite Hu, Hs. cbn [negb].
  match goal with |- context [settle ?x] => destruct (settle_core x) as [-> _ _ _ _ _ _ _ _ _] end.
  match goal with |- context [changeState Disabled ?x] => by destruct (changeState_core Disabled x) as [-> _ _ _ _ _ _ _ _ _] end.
Qed.

(** A guard that is neither in force nor coming up was told to end. *)
Definition toldToEnd (g : Guard) : Prop := gClosing g = true /\ (alive g -> gStdin g = false).

(** Off is off: turning the switch off disables it in that very turn, answers
    every waiting caller, and leaves no guard with its rules: each one still
    running has its input closed, which is its signal to remove them. And at any
    time at most two guards hold rules, the one in force and the coming one. *)
Theorem kill_switch_off_releases k : ksReachable k -> ksShutdown k = false ->
  (forall i g, ksGuards k !! i = Some g -> ksActive k <> Some i -> ksPending k <> Some i -> toldToEnd g) /\
  (forall s, sKillSwitch s = false -> let k' := ksStep (EvSettings s) k in
     ksState k' = Disabled /\ allowsStart k' = true /\ ksWaiters k' = [] /\
     forall i g, ksGuards k' !! i = Some g -> toldToEnd g).
Proof.
  intros Hr Hu. pose proof (ksReachable_inv k Hr Hu) as Hk. split.
  - intros i g Hi Ha Hp. destruct (gi_ok _ _ (inv_guards _ _ Hk) i g Hi) as (_ & _ & H3 & _). by apply H3.
  - intros s Hs k'. assert (Hd : ksState k' = Disabled) by by apply apply_off_state.
    pose proof (ksStep_inv (EvSettings s) k Hk eq_refl) as Hk'. fold k' in Hk'.
    destruct (inv_state _ _ Hk') as (_ & _ & Hst). rewrite Hd in Hst. destruct Hst as (Ha & Hp & _).
    split; [done|]. split; [unfold allowsStart, isState; by rewrite Hd|]. split.
    + destruct (ksWaiters k') as [|w ws] eqn:E; [done|]. destruct (waiter_pending k' w Hk') as (? & ? & ? & _); [|congruence].
      rewrite E. apply elem_of_cons. by left.
    + intros i g Hi. destruct (gi_ok _ _ (inv_guards _ _ Hk') i g Hi) as (_ & _ & H3 & _). apply H3; congruence.
Qed.

(** ** Handing over *)

Definition verbIs (verb : string) (line : qstr) : bool := eqStr (sectionHead cSpace line) (u verb).

(** A part of the output that reads READY. *)
Definition saidReady (out : list Z) : Prop :=
  exists before line after, out = before ++ line ++ after /\ verbIs "READY" (trimmed (fromUtf8 line)) = true.

(** The output of a guard an event brings to be read. *)
Definition outputOf (ev : KsEvent) (j : nat) (k : KS) : option (list Z) :=
  match ev, ksGuards k !! j with
  | EvStdout _ i bytes, Some g => if Nat.eqb i j then Some (gStdout g ++ bytes) else None
  | EvFinished _ i _ _, Some g => if Nat.eqb i j then Some (gStdout g) else None
  | _, _ => None
  end.

(** The guard's own output and end, the switch turned off, and the shutdown. *)
Definition endsForce (i : nat) (ev : KsEvent) : bool :=
  match ev with
  | EvSettings s => negb (sKillSwitch s)
  | EvStdout _ j _ | EvFinished _ j _ _ => Nat.eqb j i
  | EvShutdown _ => true
  | _ => false
  end.

(** The switch is on, the guard [i] in force. *)
Definition inForce (i : nat) (k : KS) : Prop :=
  ksShutdown k = false /\ sKillSwitch (ksSettings k) = true /\ ksOverride k = false /\ ksActive k = Some i.

Lemma inForce_core i k k' s : sameCore (setState s k) k' -> inForce i k -> inForce i k'.
Proof. intros [] (?&?&?&?). ks_simpl. unfold inForce. by rewrite sc_shutdown, sc_settings, sc_override, sc_active. Qed.

Lemma inForce_rest i k k' : sameRest k k' -> inForce i k -> inForce i k'.
Proof. intros [] Hf. unfold inForce. by rewrite sr_shutdown, sr_settings, sr_override, sr_active. Qed.

Lemma inForce_settle i k : inForce i k -> inForce i (settle k).
Proof. intros Hf. eapply (inForce_core _ k _ (ksState k)); [|exact Hf]. etrans; [|apply settle_core]. by split. Qed.

Lemma inForce_changeState i s k : inForce i k -> inForce i (changeState s k).
Proof. apply inForce_core with (s := s). apply changeState_core. Qed.

Lemma inForce_closePending i k : inForce i k -> inForce i (closePending k).
Proof. intros Hf. unfold closePending. eapply inForce_rest; [apply closeGuard_spec|]. exact Hf. Qed.

Lemma inForce_spawn i c k : inForce i k -> inForce i (spawn c k).
Proof.
  intros Hf. apply inForce_closePending in Hf. unfold spawn. cbv zeta. set (k1 := closePending k) in *. clearbody k1.
  assert (H2 : inForce i (setPending (Some (ksNext k1)) (setNext (S (ksNext k1)) k1))) by exact Hf.
  set (k2 := setPending _ _) in *. clearbody k2. destruct (_ && _); [|exact H2].
  apply (inForce_changeState i Arming) in H2. exact H2.
Qed.

Lemma inForce_apply i k : inForce i k -> inForce i (apply k).
Proof.
  intros Hf. pose proof Hf as (Hu & Hs & Ho & Ha). unfold apply. rewrite Hu, Hs, Ho. cbn [negb]. cbv zeta.
  set (k1 := if _ : bool then _ else k). assert (H1 : inForce i k1).
  { unfold k1. destruct (_ && _); [|done]. unfold failIdentity. cbv zeta. apply inForce_settle.
    destruct (_ || _ || _); [|done]. by apply inForce_changeState. }
  clearbody k1. destruct (configIs _ _ _); [done|]. destruct (configIs _ _ _); [|by apply inForce_spawn].
  destruct (isSome _); [|done]. by apply inForce_settle, inForce_closePending.
Qed.

Lemma inForce_armFailed i c m k : inForce i k -> inForce i (armFailed c m k).
Proof.
  intros Hf. pose proof Hf as (_ & _ & _ & Ha). unfold armFailed. rewrite Ha. cbn [isSome]. apply inForce_settle.
  by destruct (_ && _).
Qed.

(** A line of another guard. *)
Lemma inForce_handleLine i j now line k : inForce i k -> j <> i -> verbIs "READY" line = false -> inForce i (handleLine now j line k).
Proof.
  intros Hf Hj Hv. unfold handleLine. cbv zeta. destruct (eqStr _ (u "WARN")); [done|]. unfold verbIs in Hv. rewrite Hv.
  destruct (_ && _); [done|]. destruct (ksGuards k !! j) as [g|]; [|done]. destruct (gClosing g); [done|].
  pose proof Hf as (_ & _ & _ & Ha). rewrite (isPtr_false j (ksActive k)) by congruence. cbn [guardLost forget].
  set (p := isPtr j (ksPending k)). assert (H1 : inForce i (closeGuard (Some j) (if p then setPending None k else k))).
  { eapply inForce_rest; [apply closeGuard_spec|]. by destruct p. }
  destruct p; [|exact H1]. by apply inForce_armFailed.
Qed.

Lemma handleText_cases i j now bytes k : inForce i k -> j <> i ->
  inForce i (handleText now j bytes k) \/ verbIs "READY" (trimmed (fromUtf8 bytes)) = true.
Proof.
  intros Hf Hj. unfold handleText. cbv zeta. destruct (isNil _); [by left|].
  destruct (verbIs "READY" (trimmed (fromUtf8 bytes))) eqn:E; [by right|]. left. by apply inForce_handleLine.
Qed.

Lemma inForce_onGuard i j f k : inForce i k -> inForce i (onGuard j f k).
Proof. done. Qed.

(** The lines of another guard's output. *)
Lemma readLines_cases i j now : j <> i -> forall fuel k g, inForce i k -> ksGuards k !! j = Some g -> (j < ksNext k)%nat ->
  inForce i (readLines fuel now j k) \/ saidReady (gStdout g).
Proof.
  intros Hj. induction fuel as [|fuel IH]; intros k g Hf Hg Hlt; cbn [readLines]; [by left|]. rewrite Hg.
  destruct (indexOf cLF (gStdout g)) as [n|]; [|by left]. cbv zeta.
  set (k1 := onGuard j (gSetStdout (drop (S n) (gStdout g))) k).
  assert (Hg1 : ksGuards k1 !! j = Some (gSetStdout (drop (S n) (gStdout g)) g)) by (unfold k1; ks_simpl; by rewrite lookup_alter_eq, Hg).
  destruct (handleText_cases i j now (take (S n) (gStdout g)) k1 Hf Hj) as [H1|Hv].
  - pose proof (evolves_handleText (b := true) now j (take (S n) (gStdout g)) k1) as He. set (k2 := handleText now j _ k1) in *. clearbody k2.
    destruct (ksGuards k2 !! j) as [g2|] eqn:Eg2.
    + destruct (ev_proc _ _ _ He j g2 Eg2 Hlt) as (g1 & E1 & [= _ Ho]). rewrite Hg1 in E1. injection E1 as <-. cbn in Ho.
      destruct (IH k2 g2 H1 Eg2) as [?|(before & line & after & Ea & Hv)]; [pose proof (ev_next _ _ _ He); cbn in *; lia|by left|].
      right. exists (take (S n) (gStdout g) ++ before), line, after. split; [|done]. rewrite <- app_assoc, <- Ea, Ho. by rewrite take_drop.
    + left. destruct fuel; cbn [readLines]; [done|]. by rewrite Eg2.
  - right. exists [], (take (S n) (gStdout g)), (drop (S n) (gStdout g)). split; [|done]. cbn [app]. by rewrite take_drop.
Qed.

Lemma readOutput_cases i j now k g : j <> i -> inForce i k -> ksGuards k !! j = Some g -> (j < ksNext k)%nat ->
  inForce i (readOutput now j k) \/ saidReady (gStdout g).
Proof. intros Hj Hf Hg Hlt. unfold readOutput. rewrite Hg. by apply readLines_cases. Qed.

Lemma guardGone_force i j now c m m' k (a p : bool) : inForce i k -> a = false ->
  inForce i (guardLost now a p c m m' (deleteGuard j (forget a p k))).
Proof. intros Hf ->. cbn [guardLost forget]. destruct p; [|exact Hf]. by apply inForce_armFailed. Qed.

(** Whatever is left of the output after its lines. *)
Lemma readLines_rest fuel now j : forall k g g', ksGuards k !! j = Some g -> (j < ksNext k)%nat ->
  ksGuards (readLines fuel now j k) !! j = Some g' -> exists before, gStdout g = before ++ gStdout g'.
Proof.
  induction fuel as [|fuel IH]; intros k g g' Hg Hlt; cbn [readLines]; [rewrite Hg; intros [= <-]; by exists []|]. rewrite Hg.
  destruct (indexOf cLF (gStdout g)) as [n|]; [|rewrite Hg; intros [= <-]; by exists []]. cbv zeta.
  set (k1 := onGuard j (gSetStdout (drop (S n) (gStdout g))) k).
  assert (Hg1 : ksGuards k1 !! j = Some (gSetStdout (drop (S n) (gStdout g)) g)) by (unfold k1; ks_simpl; by rewrite lookup_alter_eq, Hg).
  pose proof (evolves_handleText (b := true) now j (take (S n) (gStdout g)) k1) as He. set (k2 := handleText now j _ k1) in *. clearbody k2.
  intros Hg'. assert (Hlt2 : (j < ksNext k2)%nat) by (pose proof (ev_next _ _ _ He); cbn in *; lia).
  destruct (ksGuards k2 !! j) as [g2|] eqn:Eg2; [|destruct fuel; cbn [readLines] in Hg'; rewrite Eg2 in Hg'; congruence].
  destruct (ev_proc _ _ _ He j g2 Eg2 Hlt) as (g1 & E1 & [= _ Ho]). rewrite Hg1 in E1. injection E1 as <-. cbn in Ho.
  destruct (IH k2 g2 g' Eg2 Hlt2 Hg') as [before Eb]. exists (take (S n) (gStdout g) ++ before).
  by rewrite <- app_assoc, <- Eb, Ho, take_drop.
Qed.

Lemma onFinished_cases i j now c x k g : j <> i -> inForce i k -> ksGuards k !! j = Some g -> (j < ksNext k)%nat ->
  inForce i (onFinished now j c x k) \/ saidReady (gStdout g).
Proof.
  intros Hj Hf Hg Hlt. unfold onFinished. cbv zeta.
  destruct (readOutput_cases i j now k g Hj Hf Hg Hlt) as [H1|?]; [|by right].
  assert (Hrest : forall g', ksGuards (readOutput now j k) !! j = Some g' -> exists before, gStdout g = before ++ gStdout g').
  { intros g'. unfold readOutput. rewrite Hg. by apply readLines_rest. }
  set (k1 := readOutput now j k) in *. clearbody k1.
  set (k2 := match ksGuards k1 !! j with Some g => _ | None => k1 end).
  assert (H2 : inForce i k2 \/ saidReady (gStdout g)).
  { unfold k2. destruct (ksGuards k1 !! j) as [g1|] eqn:E1; [|by left]. destruct (Hrest g1 eq_refl) as [before Eb].
    destruct (handleText_cases i j now (gStdout g1) (onGuard j (gSetStdout []) k1) H1 Hj) as [?|Hv]; [by left|].
    right. exists before, (gStdout g1), []. by rewrite app_nil_r. }
  destruct H2 as [H2|?]; [|by right]. left. clearbody k2. destruct (ksGuards k2 !! j) as [g2|]; [|done].
  apply guardGone_force; [done|]. destruct H2 as (_ & _ & _ & Ha). by rewrite (isPtr_false j (ksActive k2)), andb_false_r by congruence.
Qed.

(** Events of another guard's process that bring no output. *)
Lemma inForce_guardEvent i j ready f k : inForce i k -> (inForce i (f k)) -> inForce i (guardEvent j ready f k).
Proof. intros Hf H1. unfold guardEvent. destruct (ksGuards k !! j) as [g|]; [|done]. by destruct (ready g). Qed.

Lemma inForce_startFailed i j m k : inForce i k -> j <> i -> inForce i (onStartFailed j m k).
Proof.
  intros Hf Hj. unfold onStartFailed. destruct (ksGuards k !! j) as [g|]; [|done]. cbv zeta.
  destruct (_ && _); [|exact Hf]. by apply inForce_armFailed.
Qed.

(** The ready timer of the guard in force does nothing. *)
Lemma inForce_timeout i j k : ksInv None k -> inForce i k -> inForce i (onReadyTimeout j (onGuard j (gSetTimer false) k)).
Proof.
  intros Hk Hf. unfold onReadyTimeout. destruct (ksGuards (onGuard _ _ _) !! j) as [g|]; [|exact Hf].
  destruct (_ || _); [exact Hf|]. cbv zeta. apply inForce_armFailed.
  eapply (inForce_rest i (setPending None (onGuard j (gSetTimer false) k))); [|exact Hf].
  destruct (closeGuard_spec (Some j) (setPending None (onGuard j (gSetTimer false) k))) as [[] _]. by split.
Qed.

Lemma inForce_permit i path k : inForce i k -> inForce i (permitExtraCoreUi path k).
Proof.
  intros Hf. unfold permitExtraCoreUi. cbv zeta. destruct (_ || _); [exact Hf|].
  match goal with |- inForce i (whenIdle path (apply ?x)) => assert (H1 : inForce i (apply x)); [|set (k1 := apply x) in *; clearbody k1] end.
  - apply inForce_apply. by destruct (existsb _ _).
  - unfold whenIdle. cbv zeta. destruct (negb _); exact H1.
Qed.

(** Output and end of a guard are the only events that can let go of another. *)
Definition bringsOutput (ev : KsEvent) : bool := match ev with EvStdout _ _ _ | EvFinished _ _ _ _ => true | _ => false end.

Lemma ksStep_force i ev k : ksInv None k -> inForce i k -> endsForce i ev = false -> bringsOutput ev = false -> inForce i (ksStep ev k).
Proof.
  intros Hk Hf He Hb. pose proof Hf as (Hu & Hs & Ho & Ha). destruct ev; cbn [ksStep endsForce] in *; try done.
  - apply inForce_apply. repeat split; try done. cbn. by apply negb_false_iff.
  - by apply inForce_apply.
  - by apply inForce_apply.
  - unfold SetApiPort. by destruct (_ =? _).
  - unfold apiPortChanged. destruct (_ && _); [done|]. destruct (sPrepareExit _); [done|by apply inForce_apply].
  - unfold whenSettled. by destruct (negb _).
  - by destruct (Nat.eqb _ _).
  - by apply inForce_permit.
  - unfold rearm. destruct (_ || _); [done|]. destruct (sPrepareExit _); [done|by apply inForce_apply].
  - unfold closeGrace. destruct (ksGuards k !! _) as [g|]; [|done]. by destruct (gProc g), (gClosing g).
  - apply inForce_guardEvent; [done|]. unfold onStarted. destruct (ksGuards (onGuard _ _ _) !! _) as [g|]; [|exact Hf].
    destruct (gClosing g); exact Hf.
  - unfold guardEvent. destruct (ksGuards k !! _) as [g|] eqn:E; [|done]. destruct (isStarting g) eqn:Eg; [|done].
    apply inForce_startFailed; [done|]. intros ->. destruct (gi_ok _ _ (inv_guards _ _ Hk) _ g E) as (H1 & _).
    destruct (H1 Ha) as (_ & _ & _ & [?|Hr]); [done|]. unfold isStarting in Eg. by rewrite Hr in Eg.
  - apply inForce_guardEvent; [done|]. by apply inForce_timeout.
Qed.

(** C22: No gap when settings change or a successor fails: with the switch on, the
    guard in force stays in force in every turn but its own end, the switch
    turned off and the shutdown, unless another guard's output read READY - only
    then is it let go. So while it runs, nothing that happens to other guards,
    no setting, timer, permit or port change lets traffic out. *)
Theorem kill_switch_handover k i ev :
  ksReachable k -> ksShutdown k = false -> sKillSwitch (ksSettings k) = true -> ksActive k = Some i -> endsForce i ev = false ->
  (ksActive (ksStep ev k) = Some i /\ blocks i (ksStep ev k)) \/
  exists j out, j <> i /\ outputOf ev j k = Some out /\ saidReady out.
Proof.
  intros Hr Hu Hs Ha He. pose proof (ksReachable_inv k Hr Hu) as Hk.
  assert (Hf : inForce i k).
  { split; [done|]. split; [done|]. split; [|done]. destruct (inv_state _ _ Hk) as (_ & Ho & _). destruct (ksOverride k); [|done].
    destruct (Ho eq_refl). congruence. }
  assert (Hsd : isShutdown ev = false) by by destruct ev.
  pose proof (ksStep_inv ev k Hk Hsd) as Hk'.
  enough (inForce i (ksStep ev k) \/ exists j out, j <> i /\ outputOf ev j k = Some out /\ saidReady out) as [(_ & _ & _ & Ha')|?];
    [left; split; [done|]; by apply active_blocks|by right|].
  destruct (bringsOutput ev) eqn:Eb; [|left; by apply ksStep_force].
  assert (Hlt : forall j g, ksGuards k !! j = Some g -> (j < ksNext k)%nat).
  { intros j g Hj. by destruct (gi_ok _ _ (inv_guards _ _ Hk) j g Hj) as (_ & _ & _ & ?). }
  destruct ev as [| | | | | | | | | | | | |now j bytes| |now j c x|]; try done; cbn [ksStep endsForce outputOf] in *; unfold guardEvent;
    (destruct (ksGuards k !! j) as [g|] eqn:E; [|by left]); (destruct (isRunning g); [|by left]); apply Nat.eqb_neq in He.
  - set (k1 := onGuard j _ k). assert (E1 : ksGuards k1 !! j = Some (gSetStdout (gStdout g ++ bytes) g)) by (unfold k1; ks_simpl; by rewrite lookup_alter_eq, E).
    destruct (readOutput_cases i j now k1 _ He Hf E1 (Hlt _ _ E)) as [?|?]; [by left|]. right. exists j, (gStdout g ++ bytes).
    by rewrite E, Nat.eqb_refl.
  - set (k1 := onGuard j _ k). assert (E1 : ksGuards k1 !! j = Some (gSetProc GNotRunning g)) by (unfold k1; ks_simpl; by rewrite lookup_alter_eq, E).
    destruct (onFinished_cases i j now c x k1 _ He Hf E1 (Hlt _ _ E)) as [?|?]; [by left|]. right. exists j, (gStdout g).
    by rewrite E, Nat.eqb_refl.
Qed.

End Safety.

(** ** On a concrete run *)

#[export] Instance linuxHost : Host := {| hostOs := Linux; cleanAbsolutePath := fun p => p |}.

Definition sampleKsSettings : KsSettings := mkKsSettings true false (u "172.18.0.1/30") (u "fdfe::1/126") false [] false.
Definition offSettings : KsSettings := mkKsSettings false false (u "172.18.0.1/30") (u "fdfe::1/126") false [] false.
Definition otherCidr : KsSettings := mkKsSettings true false (u "10.0.0.1/30") (u "fdfe::1/126") false [] false.

Definition runKs (evs : list KsEvent) : KS := fold_left (fun k ev => ksStep ev k) evs (ksBoot sampleKsSettings false 0).

Lemma runKs_reachable evs : ksReachable (runKs evs).
Proof.
  unfold runKs. assert (H0 : ksReachable (ksBoot sampleKsSettings false 0)) by constructor. revert H0.
  generalize (ksBoot sampleKsSettings false 0). induction evs as [|ev evs IH]; intros k Hk; [exact Hk|]. cbn [fold_left].
  apply IH. by constructor.
Qed.

Definition armedRun : list KsEvent := [EvStarted 0; EvStdout 0 0 (u "READY" ++ [cLF])].
Definition waitingRun : list KsEvent := [EvWhenSettled 1 true 7].

(** A new CIDR spawns a second guard; the first stays until the second is ready. *)
Example handover_run :
  let k1 := runKs (armedRun ++ [EvSettings otherCidr; EvStarted 1]) in
  let k2 := ksStep (EvStdout 0 1 (u "READY" ++ [cLF])) k1 in
  ksActive k1 = Some 0%nat /\ ksPending k1 = Some 1%nat /\ ksState k1 = Armed /\
  ksActive k2 = Some 1%nat /\ ksPending k2 = None /\ ksState k2 = Armed /\ (gStdin <$> ksGuards k2 !! 0%nat) = Some false.
Proof. vm_compute. repeat split. Qed.

(** A crash is followed by one respawn within thirty seconds, then by Failed. *)
Example crash_run :
  let k1 := runKs (armedRun ++ [EvFinished 1000 0 1 true]) in
  let k2 := ksStep (EvFinished 2000 1 1 true) (ksStep (EvStdout 1500 1 (u "READY" ++ [cLF])) (ksStep (EvStarted 1) k1)) in
  ksState k1 = Arming /\ ksPending k1 = Some 1%nat /\ ksState k2 = Failed /\ allowsStart k2 = false /\ ksCode k2 = kCrash.
Proof. vm_compute. repeat split. Qed.

Lemma kill_switch_fail_closed_witness :
  exists i, ksActive (runKs armedRun) = Some i /\ blocks i (runKs armedRun).
Proof.
  apply (kill_switch_fail_closed (runKs armedRun)); [apply runKs_reachable|vm_compute; reflexivity..].
Defined.

Lemma kill_switch_waiters_answered_witness : exists i g,
  ksPending (runKs waitingRun) = Some i /\ ksGuards (runKs waitingRun) !! i = Some g /\ gTimer g = true /\
  ksWaiters (ksStep (EvReadyTimeout i) (runKs waitingRun)) = [] /\ ksState (ksStep (EvReadyTimeout i) (runKs waitingRun)) <> Arming.
Proof.
  apply (kill_switch_waiters_answered (runKs waitingRun)); [apply runKs_reachable|vm_compute; reflexivity|vm_compute; discriminate].
Defined.

Lemma kill_switch_off_releases_witness :
  let k' := ksStep (EvSettings offSettings) (runKs armedRun) in
  ksState k' = Disabled /\ allowsStart k' = true /\ ksWaiters k' = [] /\ forall i g, ksGuards k' !! i = Some g -> toldToEnd g.
Proof.
  apply (kill_switch_off_releases (runKs armedRun)); [apply runKs_reachable|vm_compute; reflexivity..].
Defined.

Lemma kill_switch_handover_witness :
  let k' := ksStep (EvSettings otherCidr) (runKs armedRun) in
  (ksActive k' = Some 0%nat /\ blocks 0 k') \/
  exists j out, j <> 0%nat /\ outputOf (EvSettings otherCidr) j (runKs armedRun) = Some out /\ saidReady out.
Proof.
  apply (kill_switch_handover (runKs armedRun) 0 (EvSettings otherCidr)); [apply runKs_reachable|vm_compute; reflexivity..].
Defined.
