(* ===== verification/OtpStore.v ===== *)
(** The stored one-time passwords: src/src/database/OtpProfilesRepo.cpp and
    src/src/global/OtpPlaceholder.cpp.

    The repository keeps the table's rows and, under each id, a weak pointer to
    the profile object handed out for it: [heap] holds the objects that are alive,
    and a weak pointer locks exactly while its object is in it.  SQLite runs the
    statements; [ok n] says whether the n-th statement of the counters'
    transaction went through, and a transaction that is not committed leaves the
    rows alone.  The times of a row are left out. *)
From stdpp Require Import base list gmap sorting strings.
From Stdlib Require Import ZArith Lia Bool.
From S2P Require Import Prelude Otp.

#[export] Instance Algorithm_eq_dec : EqDecision Algorithm.
Proof. solve_decision. Defined.

Record OtpProfile := mkOtpProfile { opId : Z; opEntry : Entry }.
Record OtpRow := mkOtpRow { rowEntry : Entry; rowOrder : Z }.

Record OtpRepo := mkOtpRepo {
  rows : gmap Z OtpRow;
  otpProfileLastId : Z;
  heap : gmap nat OtpProfile;
  identityMap : gmap Z nat;
  nextObject : nat
}.

Definition putRows (v : gmap Z OtpRow) (r : OtpRepo) : OtpRepo := mkOtpRepo v (otpProfileLastId r) (heap r) (identityMap r) (nextObject r).
Definition putHeap (v : gmap nat OtpProfile) (r : OtpRepo) : OtpRepo := mkOtpRepo (rows r) (otpProfileLastId r) v (identityMap r) (nextObject r).
Definition putIdentity (v : gmap Z nat) (r : OtpRepo) : OtpRepo := mkOtpRepo (rows r) (otpProfileLastId r) (heap r) v (nextObject r).

(** ** The table *)

(** SELECT COALESCE(MAX(sort_order), 0) + 1. *)
Definition orderMax (n : Z) (m : option Z) : option Z := Some (match m with Some k => Z.max n k | None => n end).
Definition nextOrder (t : gmap Z OtpRow) : Z := default 0 (map_fold (fun _ row m => orderMax (rowOrder row) m) None t) + 1.

Definition saveToDatabase (e : Entry) (id : Z) (r : OtpRepo) : OtpRepo :=
  let order := match rows r !! id with Some row => rowOrder row | None => nextOrder (rows r) end in
  putRows (<[id := mkOtpRow e order]> (rows r)) r.

Definition NewOtpProfileID (r : OtpRepo) : Z * OtpRepo :=
  let id := otpProfileLastId r + 1 in
  (id, mkOtpRepo (rows r) id (heap r) (identityMap r) (nextObject r)).

(** ORDER BY sort_order, id. *)
Definition rowBefore (a b : Z * OtpRow) : Prop :=
  rowOrder a.2 < rowOrder b.2 \/ (rowOrder a.2 = rowOrder b.2 /\ a.1 <= b.1).

#[export] Instance rowBefore_dec a b : Decision (rowBefore a b).
Proof. unfold rowBefore. apply _. Defined.

Definition GetAllOtpProfileIds (r : OtpRepo) : list Z := (merge_sort rowBefore (map_to_list (rows r))).*1.

(** ** Objects *)

(** weak_ptr::lock on the object registered under an id. *)
Definition registered (id : Z) (r : OtpRepo) : option nat :=
  match identityMap r !! id with
  | Some o => if decide (is_Some (heap r !! o)) then Some o else None
  | None => None
  end.

(** A fresh object for a row, registered under its id. *)
Definition otpProfileFromRow (id : Z) (row : OtpRow) (r : OtpRepo) : nat * OtpRepo :=
  let o := nextObject r in
  (o, mkOtpRepo (rows r) (otpProfileLastId r) (<[o := mkOtpProfile id (rowEntry row)]> (heap r)) (<[id := o]> (identityMap r)) (S o)).

Definition GetOtpProfile (id : Z) (r : OtpRepo) : option nat * OtpRepo :=
  match registered id r with
  | Some o => (Some o, r)
  | None =>
      let r := putIdentity (delete id (identityMap r)) r in
      match rows r !! id with
      | None => (None, r)
      | Some row => let '(o, r) := otpProfileFromRow id row r in (Some o, r)
      end
  end.

(** ORDER BY id LIMIT 1. *)
Definition named (name : qstr) (p : Z * OtpRow) : Prop := otpName (rowEntry p.2) = name.
Definition idBefore (a b : Z * OtpRow) : Prop := a.1 <= b.1.

#[export] Instance named_dec name p : Decision (named name p).
Proof. unfold named. apply _. Defined.

#[export] Instance idBefore_dec a b : Decision (idBefore a b).
Proof. unfold idBefore. apply _. Defined.

Definition GetOtpProfileByName (name : qstr) (r : OtpRepo) : option nat * OtpRepo :=
  let ids := filter (named name) (map_to_list (rows r)) in
  match merge_sort idBefore ids with
  | [] => (None, r)
  | p :: _ => GetOtpProfile p.1 r
  end.

Definition loadRow (id : Z) (r : OtpRepo) : list nat * OtpRepo :=
  match registered id r with
  | Some o => ([o], r)
  | None =>
      let r := putIdentity (delete id (identityMap r)) r in
      match rows r !! id with
      | None => ([], r)
      | Some row => let '(o, r) := otpProfileFromRow id row r in ([o], r)
      end
  end.

Fixpoint loadRows (ids : list Z) (r : OtpRepo) : list nat * OtpRepo :=
  match ids with
  | [] => ([], r)
  | id :: ids' => let '(o, r) := loadRow id r in let '(os, r) := loadRows ids' r in (o ++ os, r)
  end.

Definition GetAllOtpProfiles (r : OtpRepo) : list nat * OtpRepo := loadRows (GetAllOtpProfileIds r) r.

(** ** Changes *)

Definition AddOtpProfile (o : nat) (r : OtpRepo) : bool * OtpRepo :=
  match heap r !! o with
  | None => (false, r)
  | Some p =>
      if opId p >=? 0 then (false, r)
      else
        let '(id, r) := NewOtpProfileID r in
        let r := putHeap (<[o := mkOtpProfile id (opEntry p)]> (heap r)) r in
        (true, saveToDatabase (opEntry p) id (putIdentity (<[id := o]> (identityMap r)) r))
  end.

Definition SaveOtpProfile (o : nat) (r : OtpRepo) : bool * OtpRepo :=
  match heap r !! o with
  | None => (false, r)
  | Some p =>
      if opId p <? 0 then (false, r)
      else (true, saveToDatabase (opEntry p) (opId p) (putIdentity (<[opId p := o]> (identityMap r)) r))
  end.

Definition DeleteOtpProfile (id : Z) (r : OtpRepo) : OtpRepo :=
  putRows (delete id (rows r)) (putIdentity (delete id (identityMap r)) r).

Definition DeleteOtpProfiles (ids : list Z) (r : OtpRepo) : OtpRepo :=
  fold_left (fun r id => DeleteOtpProfile id r) ids r.

Fixpoint setOrders (i : Z) (ids : list Z) (t : gmap Z OtpRow) : gmap Z OtpRow :=
  match ids with
  | [] => t
  | id :: ids' => setOrders (i + 1) ids' (alter (fun row => mkOtpRow (rowEntry row) i) id t)
  end.

Definition UpdateOtpProfilesOrder (ids : list Z) (r : OtpRepo) : OtpRepo := putRows (setOrders 1 ids (rows r)) r.

(** ** The counters *)

Inductive HotpAdvanceResult := AdvanceOk | AdvanceChanged | AdvanceStorageError.

Definition setCounter (n : Z) (e : Entry) : Entry :=
  mkEntry (otpName e) (otpIssuer e) (otpSecret e) (otpAlgorithm e) (otpType e) (otpDigits e) (otpPeriod e) n.

(** The state a code is made of, as the object holds it and as the UPDATE asks
    for it. *)
Definition matches (e snapshot : Entry) : bool :=
  isHotp (otpType e) && isHotp (otpType snapshot) && bool_decide (otpSecret e = otpSecret snapshot) &&
  bool_decide (otpAlgorithm e = otpAlgorithm snapshot) && (otpDigits e =? otpDigits snapshot) && (otpCounter e =? otpCounter snapshot).

Definition rowMatches (e snapshot : Entry) : bool :=
  isHotp (otpType e) && bool_decide (otpSecret e = otpSecret snapshot) &&
  bool_decide (otpAlgorithm e = otpAlgorithm snapshot) && (otpDigits e =? otpDigits snapshot) && (otpCounter e =? otpCounter snapshot).

(** A live object that was edited since the snapshot. *)
Definition editedSince (r : OtpRepo) (x : Z * Entry) : bool :=
  match registered x.1 r with
  | Some o => match heap r !! o with Some p => negb (matches (opEntry p) x.2) | None => false end
  | None => false
  end.

(** The UPDATE of one row; below 2^63 - 1 the counter stays an integer. *)
Definition advanceRow (x : Z * Entry) (t : gmap Z OtpRow) : option (gmap Z OtpRow) :=
  match t !! x.1 with
  | Some row =>
      if rowMatches (rowEntry row) x.2
      then Some (<[x.1 := mkOtpRow (setCounter (otpCounter (rowEntry row) + 1) (rowEntry row)) (rowOrder row)]> t)
      else None
  | None => None
  end.

(** The transaction's statements from the n-th on: a table to commit, or what
    the transaction came to. *)
Fixpoint advanceRows (ok : nat -> bool) (n : nat) (expected : list (Z * Entry)) (t : gmap Z OtpRow) : HotpAdvanceResult + gmap Z OtpRow :=
  match expected with
  | [] => if ok n then inr t else inl AdvanceStorageError
  | x :: expected' =>
      if negb (ok n) then inl AdvanceStorageError
      else
        match advanceRow x t with
        | Some t => advanceRows ok (S n) expected' t
        | None => inl (if ok (S n) then AdvanceChanged else AdvanceStorageError)
        end
  end.

Definition advanceObject (r : OtpRepo) (x : Z * Entry) : OtpRepo :=
  match registered x.1 r with
  | Some o =>
      match heap r !! o with
      | Some p =>
          if matches (opEntry p) x.2
          then putHeap (<[o := mkOtpProfile (opId p) (setCounter (otpCounter x.2 + 1) (opEntry p))]> (heap r)) r
          else r
      | None => r
      end
  | None => r
  end.

Definition AdvanceHotpCounters (ok : nat -> bool) (expected : list (Z * Entry)) (r : OtpRepo) : HotpAdvanceResult * OtpRepo :=
  if isNil expected then (AdvanceOk, r)
  else if existsb (editedSince r) expected then (AdvanceChanged, r)
  else if negb (ok 0%nat) then (AdvanceStorageError, r)
  else
    match advanceRows ok 1 expected (rows r) with
    | inl result => (result, r)
    | inr t => (AdvanceOk, fold_left advanceObject expected (putRows t r))
    end.

(** ** Codes of one config *)

Section Codes.
Context {Q : QtChar} {H : QtHmac}.

Definition CurrentCode (clock : Z) (e : Entry) : qstr := GenerateCode clock e (-1).

(** The caller lets go of the object: one made for it dies. *)
Definition release (before r : OtpRepo) (o : nat) : OtpRepo :=
  if (o =? nextObject before)%nat then putHeap (delete o (heap r)) r else r.

(** The stored entry, read through an object that is not kept. *)
Definition readEntry (id : Z) (r : OtpRepo) : option Entry * OtpRepo :=
  let '(o, r') := GetOtpProfile id r in
  match o with
  | None => (None, r')
  | Some o => (opEntry <$> heap r' !! o, release r r' o)
  end.

Definition usableEntry (id : Z) (r : OtpRepo) : option Entry * OtpRepo :=
  if id <? 0 then (None, r)
  else
    let '(e, r) := readEntry id r in
    (match e with Some e => match Validate e with Some _ => None | None => Some e end | None => None end, r).

Definition ResolveOtpCode (clock id : Z) (r : OtpRepo) : qstr * OtpRepo :=
  let '(e, r) := usableEntry id r in (match e with Some e => CurrentCode clock e | None => [] end, r).

Record OtpCodeSession := mkSession { codes : gmap Z qstr; hotpProfiles : gmap Z Entry }.
Definition newSession : OtpCodeSession := mkSession ∅ ∅.

Definition Resolve (clock id : Z) (s : OtpCodeSession) (r : OtpRepo) : qstr * OtpCodeSession * OtpRepo :=
  match codes s !! id with
  | Some code => (code, s, r)
  | None =>
      let '(e, r) := usableEntry id r in
      match e with
      | None => ([], s, r)
      | Some e =>
          let code := CurrentCode clock e in
          (code, mkSession (<[id := code]> (codes s)) (if isHotp (otpType e) then <[id := e]> (hotpProfiles s) else hotpProfiles s), r)
      end
  end.

(** QHash's order is whatever it is; this one is as good as any. *)
Definition Commit (ok : nat -> bool) (s : OtpCodeSession) (r : OtpRepo) : verdict * OtpCodeSession * OtpRepo :=
  if bool_decide (hotpProfiles s = ∅) then (None, s, r)
  else
    let '(result, r) := AdvanceHotpCounters ok (map_to_list (hotpProfiles s)) r in
    match result with
    | AdvanceChanged => (Some (tr0 "HOTP profile changed while the config was being built"), s, r)
    | AdvanceStorageError => (Some (tr0 "Could not save the HOTP counter"), s, r)
    | AdvanceOk => (None, mkSession (codes s) ∅, r)
    end.

End Codes.

(** QString::replace, from the left. *)
Fixpoint replaceAll (fuel : nat) (pattern by_ s : qstr) : qstr :=
  match fuel with
  | O => s
  | S fuel' =>
      match s with
      | [] => []
      | c :: s' =>
          if startsWith pattern s then by_ ++ replaceAll fuel' pattern by_ (skipn (length pattern) s)
          else c :: replaceAll fuel' pattern by_ s'
      end
  end.

Definition kOtpPlaceholder : qstr := u "{otp}".

Definition SubstituteOtp (text code : qstr) : qstr :=
  if isNil code || isNil text then text else replaceAll (length text) kOtpPlaceholder code text.
