(* ===== verification/OtpStoreFacts.v ===== *)
(** What a config's one-time codes come to: each is spent by its commit, or
    nothing changes. *)
From stdpp Require Import base list gmap sorting strings.
From Stdlib Require Import ZArith Lia Bool.
From S2P Require Import Prelude Otp OtpStore.

(** ** The transaction *)

Definition spent (row : OtpRow) : OtpRow := mkOtpRow (setCounter (otpCounter (rowEntry row) + 1) (rowEntry row)) (rowOrder row).

Lemma advanceRow_spec x t t' : advanceRow x t = Some t' ->
  exists row, t !! x.1 = Some row /\ rowMatches (rowEntry row) x.2 = true /\ t' = <[x.1 := spent row]> t.
Proof.
  unfold advanceRow. destruct (t !! x.1) as [row|] eqn:E; [|done]. destruct (rowMatches _ _) eqn:M; [|done].
  intros [= <-]. by exists row.
Qed.

Lemma advanceRows_spec ok n expected t t' : advanceRows ok n expected t = inr t' -> NoDup expected.*1 ->
  (forall id e, (id, e) ∈ expected -> exists row, t !! id = Some row /\ rowMatches (rowEntry row) e = true /\ t' !! id = Some (spent row)) /\
  (forall id, id ∉ expected.*1 -> t' !! id = t !! id).
Proof.
  revert n t. induction expected as [|[k x] expected IH]; intros n t Hr Hnd; cbn in Hr, Hnd.
  - destruct (ok n); [|done]. injection Hr as ->. split; [|done]. intros id e Hin. by apply elem_of_nil in Hin.
  - destruct (ok n); [|done]. destruct (advanceRow (k, x) t) as [t1|] eqn:E; [|by destruct (ok (S n))].
    apply NoDup_cons in Hnd as [Hk Hnd]. destruct (advanceRow_spec _ _ _ E) as (row & R1 & R2 & ->).
    destruct (IH _ _ Hr Hnd) as [A B]. cbn [fst snd] in *. split.
    + intros id e [[= -> ->]|Hin]%elem_of_cons.
      * exists row. split_and!; [done..|]. rewrite (B _ Hk). by rewrite lookup_insert_eq.
      * destruct (A id e Hin) as (row' & A1 & A2 & A3). exists row'. split_and!; [|done..].
        rewrite lookup_insert_ne in A1; [done|]. intros ->. apply Hk, list_elem_of_fmap. by exists (id, e).
    + intros id Hid. cbn in Hid. apply not_elem_of_cons in Hid as [Hne Hid]. rewrite (B _ Hid). by rewrite lookup_insert_ne.
Qed.

Lemma advanceObject_rows r x : rows (advanceObject r x) = rows r.
Proof. unfold advanceObject. destruct (registered _ _); [|done]. destruct (heap r !! _); [|done]. by destruct (matches _ _). Qed.

Lemma advanceObjects_rows expected r : rows (fold_left advanceObject expected r) = rows r.
Proof. revert r. induction expected as [|x expected IH]; intros r; [done|]. cbn. by rewrite IH, advanceObject_rows. Qed.

(** The table moves as a whole or not at all. *)
Lemma AdvanceHotpCounters_spec ok expected r result r' : AdvanceHotpCounters ok expected r = (result, r') -> NoDup expected.*1 ->
  match result with
  | AdvanceOk =>
      (forall id e, (id, e) ∈ expected -> exists row, rows r !! id = Some row /\ rowMatches (rowEntry row) e = true /\ rows r' !! id = Some (spent row)) /\
      (forall id, id ∉ expected.*1 -> rows r' !! id = rows r !! id)
  | _ => r' = r
  end.
Proof.
  unfold AdvanceHotpCounters. intros Hr Hnd. destruct (isNil expected) eqn:En.
  { injection Hr as <- <-. destruct expected; [|done]. split; [|done]. intros id e Hin. by apply elem_of_nil in Hin. }
  destruct (existsb _ _); [by injection Hr as <- <-|]. destruct (ok 0%nat); cbn in Hr; [|by injection Hr as <- <-].
  destruct (advanceRows ok 1 expected (rows r)) as [res|t'] eqn:E.
  - assert (Hne : res <> AdvanceOk).
    { clear Hr En Hnd. revert E. generalize 1%nat (rows r). induction expected as [|x l IH]; intros n t; cbn.
      - destruct (ok n); congruence.
      - destruct (negb (ok n)); [congruence|]. destruct (advanceRow x t); [apply IH|]. destruct (ok (S n)); congruence. }
    injection Hr as <- <-. by destruct res.
  - injection Hr as <- <-. rewrite advanceObjects_rows. exact (advanceRows_spec _ _ _ _ _ E Hnd).
Qed.

(** ** Sessions *)

Section Sessions.
Context {Q : QtChar} {H : QtHmac}.

(** The sessions a build can have: each code is resolved at its time, from the
    store as it then is. *)
Inductive sessionReachable : OtpCodeSession -> Prop :=
| session_new : sessionReachable newSession
| session_resolve s clock id r : sessionReachable s -> sessionReachable (Resolve clock id s r).1.2.

(** A code that waits for its commit is the code of the state it was taken from. *)
Definition sessionOk (s : OtpCodeSession) : Prop := forall id e, hotpProfiles s !! id = Some e ->
  isHotp (otpType e) = true /\ Validate e = None /\ forall clock, codes s !! id = Some (CurrentCode clock e).

Lemma CurrentCode_hotp clock clock' e : isHotp (otpType e) = true -> CurrentCode clock e = CurrentCode clock' e.
Proof. intros Ht. unfold CurrentCode, GenerateCode. by rewrite Ht. Qed.

Lemma usableEntry_valid id r e : (usableEntry id r).1 = Some e -> Validate e = None.
Proof.
  unfold usableEntry. destruct (id <? 0); [done|]. destruct (readEntry id r) as [[e'|] r']; [|done]. cbn.
  destruct (Validate e') eqn:E; [done|]. by intros [= <-].
Qed.

Lemma Resolve_ok clock id s r : sessionOk s -> sessionOk (Resolve clock id s r).1.2.
Proof.
  intros Hs. unfold Resolve. destruct (codes s !! id) as [c|] eqn:Ec; [done|].
  pose proof (usableEntry_valid id r) as Hv. destruct (usableEntry id r) as [[e|] r']; [|done]. specialize (Hv e eq_refl). cbn.
  intros k x Hk. cbn [hotpProfiles] in Hk. cbn [codes]. destruct (decide (k = id)) as [->|Hne].
  - rewrite lookup_insert_eq. destruct (isHotp (otpType e)) eqn:Et.
    + rewrite lookup_insert_eq in Hk. injection Hk as <-. split_and!; [done..|]. intros c. by rewrite (CurrentCode_hotp clock c e Et).
    + exfalso. destruct (Hs _ _ Hk) as (_ & _ & E). specialize (E clock). congruence.
  - rewrite lookup_insert_ne by done. apply Hs. destruct (isHotp _); [|done]. by rewrite lookup_insert_ne in Hk.
Qed.

Lemma session_ok s : sessionReachable s -> sessionOk s.
Proof. induction 1 as [|s clock id r _ IH]; [intros id e Hk; cbn in Hk; by rewrite lookup_empty in Hk|by apply Resolve_ok]. Qed.

(** The state a row must have for the snapshot's UPDATE makes the same code. *)
Lemma rowMatches_code clock e snapshot : rowMatches e snapshot = true -> isHotp (otpType snapshot) = true ->
  CurrentCode clock e = CurrentCode clock snapshot.
Proof.
  unfold rowMatches. intros M Hs. apply andb_prop in M as [M C]. apply andb_prop in M as [M D]. apply andb_prop in M as [M A].
  apply andb_prop in M as [T S]. apply bool_decide_eq_true in S, A. apply Z.eqb_eq in C, D. destruct e, snapshot. cbn in *. subst.
  destruct otpType, otpType0; try done.
Qed.

Lemma keys_nodup (m : gmap Z Entry) : NoDup (map_to_list m).*1.
Proof. apply NoDup_fst_map_to_list. Qed.

Lemma in_keys (m : gmap Z Entry) id : m !! id = None <-> id ∉ (map_to_list m).*1.
Proof.
  split.
  - intros Hn [[k e] [-> Hin]]%list_elem_of_fmap. apply elem_of_map_to_list in Hin. cbn in Hn. congruence.
  - intros Hn. destruct (m !! id) as [e|] eqn:E; [|done]. destruct Hn. apply list_elem_of_fmap. exists (id, e). by rewrite elem_of_map_to_list.
Qed.

(** Reading a code changes no row. *)
Lemma readEntry_rows id r : rows (readEntry id r).2 = rows r.
Proof.
  unfold readEntry, GetOtpProfile. destruct (registered id r) as [o|]; [unfold release; by destruct (_ =? _)%nat|]. cbn.
  destruct (rows r !! id) as [row|]; [|done]. cbn. unfold release. by destruct (_ =? _)%nat.
Qed.

Lemma ResolveOtpCode_rows clock id r : rows (ResolveOtpCode clock id r).2 = rows r.
Proof.
  unfold ResolveOtpCode, usableEntry. destruct (id <? 0); [done|]. pose proof (readEntry_rows id r) as E.
  by destruct (readEntry id r) as [[e|] r'].
Qed.

(** C25: A config's HOTP codes are spent together or not at all: when the commit
    succeeds, every HOTP code the config was built with is the code of its row as
    it was before, and that row, and no other, has moved to the next counter;
    when it fails (an edited profile, a changed row, the storage), no row, no
    object and nothing of the session has changed. *)
Theorem Commit_all_or_nothing ok s r error s' r' : sessionReachable s -> Commit ok s r = (error, s', r') ->
  match error with
  | None =>
      (forall id e, hotpProfiles s !! id = Some e -> exists row, rows r !! id = Some row /\
        (forall clock, codes s !! id = Some (CurrentCode clock (rowEntry row))) /\ rows r' !! id = Some (spent row)) /\
      (forall id, hotpProfiles s !! id = None -> rows r' !! id = rows r !! id) /\ hotpProfiles s' = ∅
  | Some _ => r' = r /\ s' = s
  end.
Proof.
  intros Hs%session_ok Hc. unfold Commit in Hc. destruct (bool_decide _) eqn:Ee.
  { injection Hc as <- <- <-. apply bool_decide_eq_true in Ee. rewrite Ee. split_and!; [|done..]. intros id e Hk. by rewrite lookup_empty in Hk. }
  destruct (AdvanceHotpCounters ok _ r) as [result r1] eqn:Ea. pose proof (AdvanceHotpCounters_spec _ _ _ _ _ Ea (keys_nodup _)) as A.
  destruct result; injection Hc as <- <- <-; [|by subst..]. destruct A as [A B]. split_and!; [| |done].
  - intros id e Hk. destruct (A id e) as (row & R1 & R2 & R3); [by apply elem_of_map_to_list|]. exists row. split_and!; [done| |done].
    intros clock. destruct (Hs id e Hk) as (Ht & _ & Hcode). rewrite (rowMatches_code clock _ _ R2 Ht). apply Hcode.
  - intros id Hk. by apply B, in_keys.
Qed.

End Sessions.

(** ** A config with two codes *)

#[export] Instance plainHmac : QtHmac := {| hmac := fun _ key message => message ++ message ++ replicate 4 5 |}.

Definition hotpEntry : Entry := mkEntry (u "bank") [] (u "JBSWY3DPEHPK3PXP") SHA1 HOTP 6 30 41.
Definition storedCodes : OtpRepo :=
  mkOtpRepo {[1 := mkOtpRow hotpEntry 1; 2 := mkOtpRow sampleEntry 2]} 2 ∅ ∅ 0.

Definition firstUse := Resolve 1000 1 newSession storedCodes.
Definition secondUse := Resolve 1000 2 firstUse.1.2 firstUse.2.
Definition builtSession : OtpCodeSession := (Resolve 1001 1 secondUse.1.2 secondUse.2).1.2.

Example commit_run :
  let '(error, s, r) := Commit (fun _ => true) builtSession storedCodes in
  error = None /\ (otpCounter ∘ rowEntry <$> rows r !! 1) = Some 42 /\
  (Resolve 1000 1 newSession r).1.1 <> (Resolve 1000 1 newSession storedCodes).1.1.
Proof. vm_compute. split_and!; [reflexivity..|discriminate]. Qed.

Lemma Commit_all_or_nothing_witness : exists row, rows storedCodes !! 1 = Some row /\
  rows (Commit (fun _ => true) builtSession storedCodes).2 !! 1 = Some (spent row).
Proof.
  assert (Hs : sessionReachable builtSession) by (repeat constructor).
  destruct (Commit (fun _ => true) builtSession storedCodes) as [[error s'] r'] eqn:E.
  pose proof (Commit_all_or_nothing (fun _ => true) builtSession storedCodes error s' r' Hs E) as K.
  assert (Ee : error = None) by (change error with (error, s', r').1.1; rewrite <- E; vm_compute; reflexivity).
  rewrite Ee in K. destruct K as (K & _). destruct (K 1 hotpEntry) as (row & K1 & _ & K2); [vm_compute; reflexivity|].
  exact (ex_intro _ row (conj K1 K2)).
Defined.
