(* ===== verification/VpnAuth.v ===== *)
(** Signing in to VPN endpoints: src/src/engine/vpn/VpnAuthController.cpp, with
    VpnEndpoints.cpp's names and texts and VpnCredentialOverride.cpp.

    [Vpn] has the controller's members, the endpoint map, the session credentials
    and the trace of what it does to others.  [VpnEnv] is what the rest answers
    during a turn: the clock in seconds, the running profile, the profiles, the
    stored one-time passwords, whether a prompt is open.  A turn is a call on the
    main thread, a tick of the poll timer, the poll's answer, the end of a
    submission, or a deadline.  Log lines are left out. *)
From stdpp Require Import base list gmap strings.
From Stdlib Require Import ZArith Lia Bool.
From S2P Require Import Prelude Supervisor Otp OtpStore.

Definition kMaxOtpRejects : Z := 3.
Definition kMaxAutoRestarts : Z := 3.
Definition kAutoRestartCooldownSecs : Z := 20.
Definition kMaxCredentialPrompts : Z := 3.

(** ** Challenges *)

Record VpnAuthField := mkField {
  fSubmissionKey : qstr; fName : qstr; fLabel : qstr; fKind : qstr; fValue : qstr; fOptions : list (qstr * qstr)
}.

Record VpnAuthChallenge := mkChallenge {
  chTag : qstr; chId : qstr; chKind : qstr; chUsername : qstr; chMessage : list Message; chBanner : qstr; chError : qstr;
  chUrl : qstr; chEcho : bool; chDeadline : Z; chFields : list VpnAuthField
}.

Record VpnEndpointState := mkEndpoint { epTag : qstr; epState : qstr; epError : qstr; epConnected : bool; epAuthFailed : bool }.

(** One result of the core's status: the endpoint and the challenge it has. *)
Record VpnStatus := mkStatus { vsEndpoint : VpnEndpointState; vsChallenge : option VpnAuthChallenge }.

Record VpnCredentials := mkCreds { crUsername : qstr; crPassword : qstr }.

Record FormEntry := mkFormEntry { feSubmissionKey : qstr; feName : qstr; feValue : qstr; fePromote : bool }.

(** The endpoint profiles that sign in. *)
Inductive VpnKind :=
| OpenVPN (otpId : Z) (creds : VpnCredentials)
| OpenConnect (otpId : Z) (creds : VpnCredentials) (entries : list FormEntry) (passwordDisabled : bool)
| NoVpn.

Record VpnProfile := mkVpnProfile { vpKind : VpnKind; vpDisplayName : qstr }.

(** ** State *)

Inductive VpnOut :=
| VoQuery
| VoSubmit (tag id username password secret : qstr) (form : gmap qstr qstr)
| VoCancel (tag id : qstr)
| VoAutoRestart (profileId at_ : Z)
| VoStart (runningId : Z)
| VoChallenge (c : VpnAuthChallenge)
| VoCredentialsRejected (profileId runningId : Z) (c : VpnAuthChallenge)
| VoCleared
| VoStopped (profileId : Z) (manual : bool)
| VoOverridesCleared
| VoRunningCleared
| VoEndpointStatus (summary detail : qstr) (problem : bool)
| VoExitState.

Record Vpn := mkVpn {
  vTimerActive : bool;
  vBusy : bool;
  vPending : list VpnAuthChallenge;
  vSeen : gset qstr;
  vEndpointState : qstr;
  vTroubleSummary : qstr;
  vTroubleDetail : qstr;
  vLastState : gmap qstr qstr;
  vOtpLastCode : gmap qstr qstr;
  vOtpRejects : gmap qstr Z;
  vAnswering : gset qstr;
  vAutoRestarts : gmap Z Z;
  vAutoRestartAt : Z;
  vPrompted : gmap Z Z;
  vAuthRestartID : Z;
  vCancelTimers : gmap qstr (qstr * qstr * Z);
  vAuthFailed : bool;
  vProfiles : gmap qstr Z;
  vOverrides : gmap Z VpnCredentials;
  vOut : list VpnOut
}.

Record VpnEnv := mkVpnEnv {
  veClock : Z;
  veStartedId : Z;
  veRunning : option Z;
  veProfile : Z -> option VpnProfile;
  veOtp : OtpRepo;
  vePromptOpen : bool
}.

Definition wTimerActive x v := mkVpn x (vBusy v) (vPending v) (vSeen v) (vEndpointState v) (vTroubleSummary v) (vTroubleDetail v) (vLastState v) (vOtpLastCode v) (vOtpRejects v) (vAnswering v) (vAutoRestarts v) (vAutoRestartAt v) (vPrompted v) (vAuthRestartID v) (vCancelTimers v) (vAuthFailed v) (vProfiles v) (vOverrides v) (vOut v).
Definition wBusy x v := mkVpn (vTimerActive v) x (vPending v) (vSeen v) (vEndpointState v) (vTroubleSummary v) (vTroubleDetail v) (vLastState v) (vOtpLastCode v) (vOtpRejects v) (vAnswering v) (vAutoRestarts v) (vAutoRestartAt v) (vPrompted v) (vAuthRestartID v) (vCancelTimers v) (vAuthFailed v) (vProfiles v) (vOverrides v) (vOut v).
Definition wPending x v := mkVpn (vTimerActive v) (vBusy v) x (vSeen v) (vEndpointState v) (vTroubleSummary v) (vTroubleDetail v) (vLastState v) (vOtpLastCode v) (vOtpRejects v) (vAnswering v) (vAutoRestarts v) (vAutoRestartAt v) (vPrompted v) (vAuthRestartID v) (vCancelTimers v) (vAuthFailed v) (vProfiles v) (vOverrides v) (vOut v).
Definition wSeen x v := mkVpn (vTimerActive v) (vBusy v) (vPending v) x (vEndpointState v) (vTroubleSummary v) (vTroubleDetail v) (vLastState v) (vOtpLastCode v) (vOtpRejects v) (vAnswering v) (vAutoRestarts v) (vAutoRestartAt v) (vPrompted v) (vAuthRestartID v) (vCancelTimers v) (vAuthFailed v) (vProfiles v) (vOverrides v) (vOut v).
Definition wEndpointState x v := mkVpn (vTimerActive v) (vBusy v) (vPending v) (vSeen v) x (vTroubleSummary v) (vTroubleDetail v) (vLastState v) (vOtpLastCode v) (vOtpRejects v) (vAnswering v) (vAutoRestarts v) (vAutoRestartAt v) (vPrompted v) (vAuthRestartID v) (vCancelTimers v) (vAuthFailed v) (vProfiles v) (vOverrides v) (vOut v).
Definition wTroubleSummary x v := mkVpn (vTimerActive v) (vBusy v) (vPending v) (vSeen v) (vEndpointState v) x (vTroubleDetail v) (vLastState v) (vOtpLastCode v) (vOtpRejects v) (vAnswering v) (vAutoRestarts v) (vAutoRestartAt v) (vPrompted v) (vAuthRestartID v) (vCancelTimers v) (vAuthFailed v) (vProfiles v) (vOverrides v) (vOut v).
Definition wTroubleDetail x v := mkVpn (vTimerActive v) (vBusy v) (vPending v) (vSeen v) (vEndpointState v) (vTroubleSummary v) x (vLastState v) (vOtpLastCode v) (vOtpRejects v) (vAnswering v) (vAutoRestarts v) (vAutoRestartAt v) (vPrompted v) (vAuthRestartID v) (vCancelTimers v) (vAuthFailed v) (vProfiles v) (vOverrides v) (vOut v).
Definition wLastState x v := mkVpn (vTimerActive v) (vBusy v) (vPending v) (vSeen v) (vEndpointState v) (vTroubleSummary v) (vTroubleDetail v) x (vOtpLastCode v) (vOtpRejects v) (vAnswering v) (vAutoRestarts v) (vAutoRestartAt v) (vPrompted v) (vAuthRestartID v) (vCancelTimers v) (vAuthFailed v) (vProfiles v) (vOverrides v) (vOut v).
Definition wOtpLastCode x v := mkVpn (vTimerActive v) (vBusy v) (vPending v) (vSeen v) (vEndpointState v) (vTroubleSummary v) (vTroubleDetail v) (vLastState v) x (vOtpRejects v) (vAnswering v) (vAutoRestarts v) (vAutoRestartAt v) (vPrompted v) (vAuthRestartID v) (vCancelTimers v) (vAuthFailed v) (vProfiles v) (vOverrides v) (vOut v).
Definition wOtpRejects x v := mkVpn (vTimerActive v) (vBusy v) (vPending v) (vSeen v) (vEndpointState v) (vTroubleSummary v) (vTroubleDetail v) (vLastState v) (vOtpLastCode v) x (vAnswering v) (vAutoRestarts v) (vAutoRestartAt v) (vPrompted v) (vAuthRestartID v) (vCancelTimers v) (vAuthFailed v) (vProfiles v) (vOverrides v) (vOut v).
Definition wAnswering x v := mkVpn (vTimerActive v) (vBusy v) (vPending v) (vSeen v) (vEndpointState v) (vTroubleSummary v) (vTroubleDetail v) (vLastState v) (vOtpLastCode v) (vOtpRejects v) x (vAutoRestarts v) (vAutoRestartAt v) (vPrompted v) (vAuthRestartID v) (vCancelTimers v) (vAuthFailed v) (vProfiles v) (vOverrides v) (vOut v).
Definition wAutoRestarts x v := mkVpn (vTimerActive v) (vBusy v) (vPending v) (vSeen v) (vEndpointState v) (vTroubleSummary v) (vTroubleDetail v) (vLastState v) (vOtpLastCode v) (vOtpRejects v) (vAnswering v) x (vAutoRestartAt v) (vPrompted v) (vAuthRestartID v) (vCancelTimers v) (vAuthFailed v) (vProfiles v) (vOverrides v) (vOut v).
Definition wAutoRestartAt x v := mkVpn (vTimerActive v) (vBusy v) (vPending v) (vSeen v) (vEndpointState v) (vTroubleSummary v) (vTroubleDetail v) (vLastState v) (vOtpLastCode v) (vOtpRejects v) (vAnswering v) (vAutoRestarts v) x (vPrompted v) (vAuthRestartID v) (vCancelTimers v) (vAuthFailed v) (vProfiles v) (vOverrides v) (vOut v).
Definition wPrompted x v := mkVpn (vTimerActive v) (vBusy v) (vPending v) (vSeen v) (vEndpointState v) (vTroubleSummary v) (vTroubleDetail v) (vLastState v) (vOtpLastCode v) (vOtpRejects v) (vAnswering v) (vAutoRestarts v) (vAutoRestartAt v) x (vAuthRestartID v) (vCancelTimers v) (vAuthFailed v) (vProfiles v) (vOverrides v) (vOut v).
Definition wAuthRestartID x v := mkVpn (vTimerActive v) (vBusy v) (vPending v) (vSeen v) (vEndpointState v) (vTroubleSummary v) (vTroubleDetail v) (vLastState v) (vOtpLastCode v) (vOtpRejects v) (vAnswering v) (vAutoRestarts v) (vAutoRestartAt v) (vPrompted v) x (vCancelTimers v) (vAuthFailed v) (vProfiles v) (vOverrides v) (vOut v).
Definition wCancelTimers x v := mkVpn (vTimerActive v) (vBusy v) (vPending v) (vSeen v) (vEndpointState v) (vTroubleSummary v) (vTroubleDetail v) (vLastState v) (vOtpLastCode v) (vOtpRejects v) (vAnswering v) (vAutoRestarts v) (vAutoRestartAt v) (vPrompted v) (vAuthRestartID v) x (vAuthFailed v) (vProfiles v) (vOverrides v) (vOut v).
Definition wAuthFailed x v := mkVpn (vTimerActive v) (vBusy v) (vPending v) (vSeen v) (vEndpointState v) (vTroubleSummary v) (vTroubleDetail v) (vLastState v) (vOtpLastCode v) (vOtpRejects v) (vAnswering v) (vAutoRestarts v) (vAutoRestartAt v) (vPrompted v) (vAuthRestartID v) (vCancelTimers v) x (vProfiles v) (vOverrides v) (vOut v).
Definition wProfiles x v := mkVpn (vTimerActive v) (vBusy v) (vPending v) (vSeen v) (vEndpointState v) (vTroubleSummary v) (vTroubleDetail v) (vLastState v) (vOtpLastCode v) (vOtpRejects v) (vAnswering v) (vAutoRestarts v) (vAutoRestartAt v) (vPrompted v) (vAuthRestartID v) (vCancelTimers v) (vAuthFailed v) x (vOverrides v) (vOut v).
Definition wOverrides x v := mkVpn (vTimerActive v) (vBusy v) (vPending v) (vSeen v) (vEndpointState v) (vTroubleSummary v) (vTroubleDetail v) (vLastState v) (vOtpLastCode v) (vOtpRejects v) (vAnswering v) (vAutoRestarts v) (vAutoRestartAt v) (vPrompted v) (vAuthRestartID v) (vCancelTimers v) (vAuthFailed v) (vProfiles v) x (vOut v).
Definition wOut x v := mkVpn (vTimerActive v) (vBusy v) (vPending v) (vSeen v) (vEndpointState v) (vTroubleSummary v) (vTroubleDetail v) (vLastState v) (vOtpLastCode v) (vOtpRejects v) (vAnswering v) (vAutoRestarts v) (vAutoRestartAt v) (vPrompted v) (vAuthRestartID v) (vCancelTimers v) (vAuthFailed v) (vProfiles v) (vOverrides v) x.

Definition emit (o : VpnOut) (v : Vpn) : Vpn := wOut (vOut v ++ [o]) v.

(** QHash::value with its default. *)
Definition valueOr {K A} `{Countable K} (d : A) (m : gmap K A) (k : K) : A := default d (m !! k).

Definition cUnit : Z := 31.
Definition challengeKey (tag id : qstr) : qstr := tag ++ [cUnit] ++ id.

(** ** Session credentials *)

Definition SetVpnCredentialOverride (profileId : Z) (c : VpnCredentials) (v : Vpn) : Vpn :=
  if profileId <? 0 then v else wOverrides (<[profileId := c]> (vOverrides v)) v.

Definition ResolveVpnCredentials (profileId : Z) (stored : VpnCredentials) (v : Vpn) : VpnCredentials :=
  if profileId >=? 0 then valueOr stored (vOverrides v) profileId else stored.

Section VpnAuth.
Context {P : Platform} {Lw : QtLower} {Q : QtChar} {H : QtHmac}.

(** ** Endpoints *)

Definition VpnEndpointProfileID (tag : qstr) (v : Vpn) : Z := valueOr (-1) (vProfiles v) tag.

Definition VpnEndpointDisplayName (e : VpnEnv) (tag : qstr) (v : Vpn) : qstr :=
  let id := VpnEndpointProfileID tag v in
  if id <? 0 then tag else match veProfile e id with Some p => vpDisplayName p | None => tag end.

Definition VpnStateText (state : qstr) : qstr :=
  if eqStr state (u "connected") then tr (u "Connected")
  else if eqStr state (u "connecting") then tr (u "Connecting" ++ [8230])
  else if eqStr state (u "auth-pending") then tr (u "Waiting for sign-in")
  else if eqStr state (u "error") then tr (u "Error")
  else if isNil state then tr (u "Unknown")
  else state.

Definition VpnExitStateText (state error : qstr) : qstr :=
  if eqStr state (u "connected") then tr (u "Connect OK")
  else if eqStr state (u "connecting") then tr (u "Connecting")
  else if eqStr state (u "auth-pending") then tr (u "Waiting for authentication")
  else if eqStr state (u "error") then
    if isNil error then tr (u "Tunnel error") else tr (u "Tunnel error") ++ u ": " ++ error
  else state.

(** The texts of the endpoints that are not connected, and whether one is in
    trouble. *)
Definition summaryPart (e : VpnEnv) (v : Vpn) (s : VpnEndpointState) : qstr :=
  VpnEndpointDisplayName e (epTag s) v ++ u ": " ++ VpnStateText (epState s).
Definition detailPart (e : VpnEnv) (v : Vpn) (s : VpnEndpointState) : qstr :=
  VpnEndpointDisplayName e (epTag s) v ++ u ": " ++ (if isNil (epError s) then VpnStateText (epState s) else epError s).
Definition inTrouble (s : VpnEndpointState) : bool := epAuthFailed s || eqStr (epState s) (u "error").

(** QStringList::join with a longer separator. *)
Fixpoint joinText (sep : qstr) (l : list qstr) : qstr :=
  match l with
  | [] => []
  | [s] => s
  | s :: l' => s ++ sep ++ joinText sep l'
  end.

Definition summaryText (problem : bool) (parts : list qstr) : qstr :=
  if isNil parts then []
  else
    (if problem then tr (u "VPN endpoint problem") else tr (u "VPN endpoint")) ++ u ": " ++ joinText (u "; ") (take 2 parts) ++
    (if (2 <? length parts)%nat then u " (+" ++ number (Z.of_nat (length parts) - 2) ++ u ")" else []).

(** The exit's state text: the last endpoint of the tag [proxy] wins. *)
Definition exitText (states : list VpnEndpointState) : qstr :=
  fold_left (fun t s => if eqStr (epTag s) (u "proxy") then VpnExitStateText (epState s) (epError s) else t) states [].

Definition updateEndpointStates (e : VpnEnv) (states : list VpnEndpointState) (v : Vpn) : Vpn :=
  let v := wAuthFailed (existsb epAuthFailed states) v in
  let v := wOtpRejects (fold_left (fun m s => if epConnected s then delete (epTag s) m else m) states (vOtpRejects v)) v in
  let v := wLastState (fold_left (fun m s => <[epTag s := epState s]> m) states ∅) v in
  let down := List.filter (fun s => negb (epConnected s)) states in
  let problem := existsb inTrouble down in
  let summary := summaryText problem (map (summaryPart e v) down) in
  let detail := joinText (u " | ") (take 3 (map (detailPart e v) down)) in
  let exitState := exitText states in
  if bool_decide (summary = vTroubleSummary v) && bool_decide (detail = vTroubleDetail v) && bool_decide (exitState = vEndpointState v) then v
  else emit VoExitState (emit (VoEndpointStatus summary detail problem)
         (wEndpointState exitState (wTroubleDetail detail (wTroubleSummary summary v)))).

(** ** Runs *)

Definition resetTracking (v : Vpn) : Vpn :=
  emit (VoEndpointStatus [] [] false)
    (mkVpn (vTimerActive v) (vBusy v) [] ∅ [] [] [] ∅ ∅ ∅ ∅ (vAutoRestarts v) (vAutoRestartAt v) (vPrompted v) (vAuthRestartID v) ∅ false
       (vProfiles v) (vOverrides v) (vOut v)).

Definition noteRunStarted (v : Vpn) : Vpn := wTimerActive true (resetTracking v).

Definition stopPoll (v : Vpn) : Vpn :=
  emit VoCleared (emit VoRunningCleared (wProfiles ∅ (resetTracking (wTimerActive false v)))).

Definition clearCredentialOverrides (v : Vpn) : Vpn :=
  let v := wOverrides (map_fold (fun id _ m => delete id m) (vOverrides v) (vPrompted v)) v in
  emit VoOverridesCleared (wAutoRestartAt 0 (wAutoRestarts ∅ (wPrompted ∅ v))).

(** The trace first notes which run was stopped, and whether by a stop or a
    restart ([manual]). *)
Definition noteRunStopped (profileId : Z) (manual : bool) (v : Vpn) : Vpn :=
  let v := emit (VoStopped profileId manual) v in
  let restartingForAuth := manual && (profileId =? vAuthRestartID v) in
  let v := wAuthRestartID (-1) v in
  let v := if manual && negb restartingForAuth then clearCredentialOverrides v else v in
  stopPoll v.

(** ** Deadlines *)

Definition clampZ (lo hi n : Z) : Z := Z.max lo (Z.min hi n).

Definition cancelAtDeadline (e : VpnEnv) (c : VpnAuthChallenge) (capSec : Z) (v : Vpn) : Vpn :=
  if isNil (chId c) then v
  else
    let key := challengeKey (chTag c) (chId c) in
    match vCancelTimers v !! key with
    | Some _ => v
    | None =>
        let cap := Z.max capSec 0 in
        let delaySec := if 0 <? chDeadline c then clampZ 0 cap (chDeadline c - veClock e) else cap in
        wCancelTimers (<[key := (chTag c, chId c, Z.min (delaySec * 1000) (2 ^ 31 - 1))]> (vCancelTimers v)) v
    end.

Definition deadline (key : qstr) (v : Vpn) : Vpn :=
  match vCancelTimers v !! key with
  | None => v
  | Some (tag, id, _) =>
      let v := wCancelTimers (delete key (vCancelTimers v)) v in
      if existsb (fun c => eqStr (chTag c) tag && eqStr (chId c) id) (vPending v) then emit (VoCancel tag id) v else v
  end.

(** ** One-time codes *)

Definition fieldHaystack (f : VpnAuthField) : qstr := toLower (fName f ++ u " " ++ fLabel f).

Definition looksLikeToken (f : VpnAuthField) : bool :=
  existsb (fun hint => containsStr hint (fieldHaystack f))
    [u "token"; u "otp"; u "passcode"; u "one-time"; u "onetime"; u "second"; u "challenge"; u "verification"; u "authenticator"].

Definition looksLikeUsername (f : VpnAuthField) : bool :=
  let haystack := fieldHaystack f in
  containsStr (u "user") haystack || containsStr (u "login") haystack || containsStr (u "account") haystack.

Definition entryFits (f : VpnAuthField) (x : FormEntry) : bool :=
  negb (fePromote x) &&
  ((negb (isNil (feSubmissionKey x)) && eqStr (feSubmissionKey x) (fSubmissionKey f)) ||
   (isNil (feSubmissionKey x) && negb (isNil (feName x)) && eqStr (feName x) (fName f) && containsStr kOtpPlaceholder (feValue x))).

(** The last entry that fits wins. *)
Definition entryValue (entries : list FormEntry) (f : VpnAuthField) (code : qstr) : option qstr :=
  fold_left (fun a x => if entryFits f x then Some (SubstituteOtp (feValue x) code) else a) entries None.

(** The answer to one field, and whether the password is used up. *)
Definition fieldAnswer (entries : list FormEntry) (creds : VpnCredentials) (code : qstr) (passwordUsed : bool) (f : VpnAuthField) : option (qstr * bool) :=
  match entryValue entries f code with
  | Some value => Some (value, passwordUsed)
  | None =>
      if eqStr (fKind f) (u "password") then
        if negb passwordUsed && negb (looksLikeToken f) && negb (isNil (crPassword creds))
        then Some (SubstituteOtp (crPassword creds) code, true)
        else Some (code, passwordUsed)
      else if looksLikeUsername f && negb (isNil (crUsername creds)) then Some (SubstituteOtp (crUsername creds) code, passwordUsed)
      else if negb (isNil (fValue f)) then Some (fValue f, passwordUsed)
      else None
  end.

Fixpoint formFields (entries : list FormEntry) (creds : VpnCredentials) (code : qstr) (passwordUsed : bool)
    (fields : list VpnAuthField) (out : gmap qstr qstr) : option (gmap qstr qstr) :=
  match fields with
  | [] => Some out
  | f :: fields' =>
      match fieldAnswer entries creds code passwordUsed f with
      | None => None
      | Some (value, used) => formFields entries creds code used fields' (<[fSubmissionKey f := value]> out)
      end
  end.

Definition BuildFormAnswer (c : VpnAuthChallenge) (entries : list FormEntry) (creds : VpnCredentials) (code : qstr) : option (gmap qstr qstr) :=
  if isNil (chFields c) then None else formFields entries creds code false (chFields c) ∅.

(** The endpoint's one-time password and stored credentials. *)
Definition otpIdOf (k : VpnKind) : Z := match k with OpenVPN id _ | OpenConnect id _ _ _ => id | NoVpn => -1 end.
Definition storedCreds (k : VpnKind) : VpnCredentials := match k with OpenVPN _ c | OpenConnect _ c _ _ => c | NoVpn => mkCreds [] [] end.

Definition submitAutoAnswer (c : VpnAuthChallenge) (username password secret : qstr) (form : gmap qstr qstr) (v : Vpn) : Vpn :=
  emit (VoSubmit (chTag c) (chId c) username password secret form) (wAnswering ({[chTag c]} ∪ vAnswering v) v).

(** The answer's shape: credentials and secret, or the form's values. *)
Definition answerOf (c : VpnAuthChallenge) (k : VpnKind) (creds : VpnCredentials) (code : qstr) : option (qstr * qstr * qstr * gmap qstr qstr) :=
  match k with
  | OpenVPN _ _ =>
      if eqStr (chKind c) (u "credentials") then Some (SubstituteOtp (crUsername creds) code, SubstituteOtp (crPassword creds) code, code, ∅)
      else Some ([], [], code, ∅)
  | OpenConnect _ _ entries _ => match BuildFormAnswer c entries creds code with Some form => Some ([], [], [], form) | None => None end
  | NoVpn => None
  end.

(** Whether the challenge is of a kind the profile can answer. *)
Definition shapeFits (c : VpnAuthChallenge) (k : VpnKind) (creds : VpnCredentials) : bool :=
  match k with
  | OpenVPN _ _ =>
      eqStr (chKind c) (u "secret") ||
      (eqStr (chKind c) (u "credentials") && negb (isNil (crUsername creds) && isNil (crPassword creds)))
  | OpenConnect _ _ _ _ => eqStr (chKind c) (u "form")
  | NoVpn => false
  end.

(** After a refusal: given up, held until the window rolls, or to be answered. *)
Inductive Refused := RefusedGiveUp | RefusedHold | RefusedRetry.

Definition afterRefusal (e : VpnEnv) (c : VpnAuthChallenge) (otp : Entry) (v : Vpn) : Refused :=
  if isNil (chError c) then RefusedRetry
  else if valueOr 0 (vOtpRejects v) (chTag c) >=? kMaxOtpRejects then RefusedGiveUp
  else if negb (isHotp (otpType otp)) && eqStr (CurrentCode (veClock e) otp) (valueOr [] (vOtpLastCode v) (chTag c)) then RefusedHold
  else RefusedRetry.

Definition autoAnswer (e : VpnEnv) (c : VpnAuthChallenge) (v : Vpn) : bool * Vpn :=
  if isNil (chId c) || negb (isSome (veRunning e)) then (false, v)
  else if bool_decide (chTag c ∈ vAnswering v) then (true, v)
  else
    let profileId := VpnEndpointProfileID (chTag c) v in
    match (if profileId <? 0 then None else veProfile e profileId) with
    | None => (false, v)
    | Some p =>
        let k := vpKind p in
        let otpId := otpIdOf k in
        if otpId <? 0 then (false, v)
        else
          match (readEntry otpId (veOtp e)).1 with
          | None => (false, v)
          | Some otp =>
              if isSome (Validate otp) then (false, v)
              else
                match afterRefusal e c otp v with
                | RefusedGiveUp => (false, v)
                | RefusedHold => (true, v)
                | RefusedRetry =>
                    let creds := ResolveVpnCredentials profileId (storedCreds k) v in
                    if negb (shapeFits c k creds) then (false, v)
                    else
                      let code := (ResolveOtpCode (veClock e) otpId (veOtp e)).1 in
                      if isNil code then (false, v)
                      else
                        match answerOf c k creds code with
                        | None => (false, v)
                        | Some (username, password, secret, form) =>
                            let v := if isNil (chError c) then v
                                     else wOtpRejects (<[chTag c := valueOr 0 (vOtpRejects v) (chTag c) + 1]> (vOtpRejects v)) v in
                            let v := wOtpLastCode (<[chTag c := code]> (vOtpLastCode v)) v in
                            (true, submitAutoAnswer c username password secret form v)
                        end
                end
          end
    end.

(** ** Refused credentials *)

(** The OTP profile an automatic restart may use. *)
Definition restartOtpId (k : VpnKind) : Z := match k with OpenConnect _ _ _ true => -1 | _ => otpIdOf k end.

Definition autoRestartForAuth (e : VpnEnv) (profileId : Z) (v : Vpn) : bool * Vpn :=
  match veProfile e profileId, veRunning e with
  | Some p, Some runningId =>
      if restartOtpId (vpKind p) <? 0 then (false, v)
      else if valueOr 0 (vAutoRestarts v) profileId >=? kMaxAutoRestarts then (false, v)
      else if veClock e - vAutoRestartAt v <? kAutoRestartCooldownSecs then (true, v)
      else
        let v := wAutoRestarts (<[profileId := valueOr 0 (vAutoRestarts v) profileId + 1]> (vAutoRestarts v)) v in
        let v := emit (VoAutoRestart profileId (veClock e)) (wAutoRestartAt (veClock e) v) in
        (true, emit (VoStart runningId) (wAuthRestartID runningId v))
  | _, _ => (false, v)
  end.

Definition showChallenge (e : VpnEnv) (c : VpnAuthChallenge) (v : Vpn) : Vpn :=
  if isNil (chId c) then v
  else
    let v := wPending (vPending v ++ [c]) v in
    if vePromptOpen e then v
    else
      let key := challengeKey (chTag c) (chId c) in
      if bool_decide (key ∈ vSeen v) then v
      else emit (VoChallenge c) (wSeen ({[key]} ∪ vSeen v) v).

(** The user name shown with the prompt. *)
Definition promptName (k : VpnKind) : option qstr :=
  match k with
  | OpenVPN _ c => Some (crUsername c)
  | OpenConnect _ c _ passwordDisabled => if passwordDisabled then None else Some (crUsername c)
  | NoVpn => None
  end.

Definition rejectedChallenge (tag username error : qstr) : VpnAuthChallenge :=
  mkChallenge tag [] (u "credentials") username
    [tr0 "The server refused the credentials saved with this profile. Enter the ones to use for this session; the profile itself is left unchanged."]
    [] error [] false 0 [].

Definition showAuthFailure (e : VpnEnv) (tag error : qstr) (v : Vpn) : Vpn :=
  match veRunning e with
  | None => v
  | Some runningId =>
      if vePromptOpen e then v
      else
        let profileId := VpnEndpointProfileID tag v in
        if profileId <? 0 then v
        else
          let key := challengeKey tag (u "auth-failed") in
          if bool_decide (key ∈ vSeen v) then v
          else
            let '(restarted, v) := autoRestartForAuth e profileId v in
            if restarted then v
            else
              let v := wSeen ({[key]} ∪ vSeen v) v in
              if valueOr 0 (vPrompted v) profileId >=? kMaxCredentialPrompts then v
              else
                match veProfile e profileId with
                | None => v
                | Some p =>
                    match promptName (vpKind p) with
                    | None => v
                    | Some username =>
                        emit (VoCredentialsRejected profileId runningId (rejectedChallenge tag username error))
                          (wPrompted (<[profileId := valueOr 0 (vPrompted v) profileId + 1]> (vPrompted v)) v)
                    end
                end
  end.

Definition retryWithCredentials (e : VpnEnv) (runningId profileId : Z) (c : VpnCredentials) (v : Vpn) : Vpn :=
  if bool_decide (veRunning e = Some runningId)
  then emit (VoStart runningId) (wAuthRestartID runningId (SetVpnCredentialOverride profileId c v))
  else v.

(** ** Polling *)

(** What the core's answer gives: the challenge's endpoint and the labels have
    their defaults. *)
Definition readField (f : VpnAuthField) : VpnAuthField :=
  mkField (fSubmissionKey f) (fName f) (if isNil (fLabel f) then fName f else fLabel f) (fKind f) (fValue f) (fOptions f).
Definition readChallenge (tag : qstr) (c : VpnAuthChallenge) : VpnAuthChallenge :=
  mkChallenge (if isNil (chTag c) then tag else chTag c) (chId c) (chKind c) (chUsername c) (chMessage c) (chBanner c) (chError c)
    (chUrl c) (chEcho c) (chDeadline c) (map readField (chFields c)).
Definition pendingOf (results : list VpnStatus) : list VpnAuthChallenge :=
  flat_map (fun s => match vsChallenge s with Some c => [readChallenge (epTag (vsEndpoint s)) c] | None => [] end) results.

Definition poll (e : VpnEnv) (v : Vpn) : Vpn :=
  if veStartedId e <? 0 then v
  else if vBusy v then v
  else emit VoQuery (wBusy true v).

Definition handleChallenge (e : VpnEnv) (v : Vpn) (c : VpnAuthChallenge) : Vpn :=
  let '(answered, v) := autoAnswer e c v in if answered then v else showChallenge e c v.

(** The answer back on the main thread; nothing came when the call failed. *)
Definition polled (e : VpnEnv) (results : list VpnStatus) (v : Vpn) : Vpn :=
  let v := wBusy false v in
  if negb (vTimerActive v) then v
  else
    let v := wPending [] (updateEndpointStates e (map vsEndpoint results) v) in
    let v := fold_left (handleChallenge e) (pendingOf results) v in
    fold_left (fun v s => showAuthFailure e (epTag s) (epError s) v) (List.filter epAuthFailed (map vsEndpoint results)) v.

(** ** Turns *)

Inductive VpnEvent :=
| VeBuilt (tags : gmap qstr Z)
| VeRunStarted
| VeRunStopped (profileId : Z) (manual : bool)
| VeTick
| VePolled (results : list VpnStatus)
| VeSubmitted (tag : qstr)
| VeCancelAtDeadline (c : VpnAuthChallenge) (capSec : Z)
| VeDeadline (key : qstr)
| VeAnswer (tag id username password secret : qstr) (form : gmap qstr qstr)
| VeCancel (tag id : qstr)
| VeRetry (runningId profileId : Z) (c : VpnCredentials).

Definition vpnStep (e : VpnEnv) (ev : VpnEvent) (v : Vpn) : Vpn :=
  match ev with
  | VeBuilt tags => wProfiles tags v
  | VeRunStarted => noteRunStarted v
  | VeRunStopped id manual => noteRunStopped id manual v
  | VeTick => if vTimerActive v then poll e v else v
  | VePolled results => if vBusy v then polled e results v else v
  | VeSubmitted tag => wAnswering (vAnswering v ∖ {[tag]}) v
  | VeCancelAtDeadline c cap => cancelAtDeadline e c cap v
  | VeDeadline key => deadline key v
  | VeAnswer tag id username password secret form => emit (VoSubmit tag id username password secret form) v
  | VeCancel tag id => emit (VoCancel tag id) v
  | VeRetry runningId profileId c => retryWithCredentials e runningId profileId c v
  end.

Definition vpnInit : Vpn :=
  mkVpn false false [] ∅ [] [] [] ∅ ∅ ∅ ∅ ∅ 0 ∅ (-1) ∅ false ∅ ∅ [].

Inductive vpnReachable : Vpn -> Prop :=
| vpn_init : vpnReachable vpnInit
| vpn_step e ev v : vpnReachable v -> vpnReachable (vpnStep e ev v).

End VpnAuth.
