(* ===== verification/VpnAuthFacts.v ===== *)
(** The sign-in's limits: automatic restarts, prompts and one-time codes. *)
From stdpp Require Import base list gmap strings.
From Stdlib Require Import ZArith Lia Bool.
From S2P Require Import Prelude Supervisor SupervisorFacts Otp OtpStore OtpStoreFacts VpnAuth.

(** ** What the trace says *)

(** What has happened since the user last stopped a run: the restart the
    controller has asked for and not seen the stop of yet, the automatic restarts
    with their profile and time and the credential prompts, latest first.  A run
    stopped by hand is the user's stop unless it is the run the controller has just
    asked to restart: a restart stops the old run first. *)
Record Account := mkAccount { acAsked : option Z; acRestarts : list (Z * Z); acPrompts : list Z }.

Definition account (a : Account) (o : VpnOut) : Account :=
  match o with
  | VoStart id => mkAccount (Some id) (acRestarts a) (acPrompts a)
  | VoStopped id manual =>
      if manual && negb (bool_decide (acAsked a = Some id)) then mkAccount None [] [] else mkAccount None (acRestarts a) (acPrompts a)
  | VoAutoRestart p t => mkAccount (acAsked a) ((p, t) :: acRestarts a) (acPrompts a)
  | VoCredentialsRejected p _ _ => mkAccount (acAsked a) (acRestarts a) (p :: acPrompts a)
  | _ => a
  end.
Definition sinceStop (out : list VpnOut) : Account := fold_left account out (mkAccount None [] []).

(** How often a profile is in a list. *)
Definition times (p : Z) (l : list Z) : Z := Z.of_nat (length (List.filter (Z.eqb p) l)).

Definition restartsSince (p : Z) (out : list VpnOut) : Z := times p (map fst (acRestarts (sinceStop out))).
Definition promptsSince (p : Z) (out : list VpnOut) : Z := times p (acPrompts (sinceStop out)).
Definition restartTimes (out : list VpnOut) : list Z := map snd (acRestarts (sinceStop out)).

Fixpoint spaced (moments : list Z) : Prop :=
  match moments with
  | t :: (t' :: _) as rest => kAutoRestartCooldownSecs <= t - t' /\ spaced rest
  | _ => True
  end.

(** An output of no concern to the budgets. *)
Definition plainOut (o : VpnOut) : bool :=
  match o with VoAutoRestart _ _ | VoCredentialsRejected _ _ _ | VoStart _ | VoStopped _ _ => false | _ => true end.

Lemma sinceStop_snoc out o : sinceStop (out ++ [o]) = account (sinceStop out) o.
Proof. unfold sinceStop. by rewrite fold_left_app. Qed.

Lemma sinceStop_plain out new : forallb plainOut new = true -> sinceStop (out ++ new) = sinceStop out.
Proof.
  revert out. induction new as [|o new IH]; intros out Hn; [by rewrite app_nil_r|]. cbn in Hn. apply andb_prop in Hn as [Ho Hn].
  replace (out ++ o :: new) with ((out ++ [o]) ++ new) by (by rewrite <- app_assoc). rewrite (IH _ Hn), sinceStop_snoc. by destruct o.
Qed.

Lemma times_cons p q l : times p (q :: l) = times p l + (if p =? q then 1 else 0).
Proof. unfold times. cbn [List.filter]. destruct (p =? q); cbn [length]; lia. Qed.

(** The state keeps what the trace has since the user's stop, or more. *)
Record keeps (v : Vpn) (a : Account) : Prop := {
  bo_asked : forall id, acAsked a = Some id -> vAuthRestartID v = id;
  bo_restarts : forall p, times p (map fst (acRestarts a)) <= valueOr 0 (vAutoRestarts v) p;
  bo_prompts : forall p, times p (acPrompts a) <= valueOr 0 (vPrompted v) p;
  bo_last : match acRestarts a with [] => True | r :: _ => vAutoRestartAt v = r.2 end;
  bo_limits : forall p, times p (map fst (acRestarts a)) <= kMaxAutoRestarts /\ times p (acPrompts a) <= kMaxCredentialPrompts;
  bo_spaced : spaced (map snd (acRestarts a))
}.

Lemma keeps_nothing v : vAutoRestarts v = ∅ -> vPrompted v = ∅ -> keeps v (mkAccount None [] []).
Proof. intros R Pr. split; try done; intros p; rewrite ?R, ?Pr; by cbn. Qed.

Definition budgetOk (v : Vpn) : Prop := keeps v (sinceStop (vOut v)).

(** A stretch that restarts, prompts, starts and stops nothing. *)
Record untouched (v v' : Vpn) : Prop := {
  un_restarts : vAutoRestarts v' = vAutoRestarts v;
  un_prompts : vPrompted v' = vPrompted v;
  un_last : vAutoRestartAt v' = vAutoRestartAt v;
  un_asked : vAuthRestartID v' = vAuthRestartID v;
  un_out : exists new, vOut v' = vOut v ++ new /\ forallb plainOut new = true
}.

#[export] Instance untouched_preorder : PreOrder untouched.
Proof.
  split; [intros v; split; try done; exists []; by rewrite app_nil_r|].
  intros v v1 v2 [A1 A2 A3 A6 (a & A4 & A5)] [B1 B2 B3 B6 (b & B4 & B5)]. split; try congruence.
  exists (a ++ b). by rewrite B4, A4, <- app_assoc, forallb_app, A5, B5.
Qed.

Lemma untouched_budget v v' : untouched v v' -> budgetOk v -> budgetOk v'.
Proof.
  intros [U1 U2 U3 U6 (new & U4 & U5)] [B1 B2 B3 B4 B5 B6]. unfold budgetOk. rewrite U4, (sinceStop_plain _ _ U5).
  split; rewrite ?U1, ?U2, ?U3, ?U6; done.
Qed.

Lemma untouched_emit o v v1 : plainOut o = true -> untouched v v1 -> untouched v (emit o v1).
Proof. intros Ho H1. etrans; [exact H1|]. split; try done. exists [o]. by cbn; rewrite Ho. Qed.

(** An update of members outside the budgets. *)
Lemma untouched_intro v v' : vAutoRestarts v' = vAutoRestarts v -> vPrompted v' = vPrompted v -> vAutoRestartAt v' = vAutoRestartAt v ->
  vAuthRestartID v' = vAuthRestartID v -> vOut v' = vOut v -> untouched v v'.
Proof. intros A B C E D. split; try done. exists []. by rewrite D, app_nil_r. Qed.

Ltac same_budget := apply untouched_intro; reflexivity.

Section Facts.
Context {P : Platform} {Lw : QtLower} {Q : QtChar} {H : QtHmac}.

Lemma untouched_states e states v : untouched v (updateEndpointStates e states v).
Proof.
  unfold updateEndpointStates. cbv zeta. set (v1 := wLastState _ _). assert (U : untouched v v1) by same_budget. clearbody v1.
  destruct (_ && _ && _); [done|]. do 2 (apply untouched_emit; [done|]). transitivity v1; [exact U|same_budget].
Qed.

Lemma untouched_reset v : untouched v (resetTracking v).
Proof. unfold resetTracking. apply untouched_emit; [done|]. same_budget. Qed.

Lemma untouched_stopPoll v : untouched v (stopPoll v).
Proof.
  unfold stopPoll. do 2 (apply untouched_emit; [done|]). transitivity (resetTracking (wTimerActive false v)); [|same_budget].
  transitivity (wTimerActive false v); [same_budget|apply untouched_reset].
Qed.

Lemma untouched_auto e c v : untouched v (autoAnswer e c v).2.
Proof.
  unfold autoAnswer. destruct (_ || _); [done|]. destruct (bool_decide _); [done|]. cbv zeta. destruct (if _ : bool then _ else _) as [p|]; [|done].
  destruct (_ <? 0); [done|]. destruct (readEntry _ _).1 as [otp|]; [|done]. destruct (isSome _); [done|].
  destruct (afterRefusal _ _ _ _); [done..|]. destruct (negb _); [done|]. destruct (isNil _); [done|].
  destruct (answerOf _ _ _ _) as [[[[user pass] secret] form]|]; [|done]. cbn [snd]. unfold submitAutoAnswer. apply untouched_emit; [done|].
  destruct (isNil (chError c)); same_budget.
Qed.

Lemma untouched_show e c v : untouched v (showChallenge e c v).
Proof.
  unfold showChallenge. destruct (isNil _); [done|]. cbv zeta. destruct (vePromptOpen e); [same_budget|].
  destruct (bool_decide _); [same_budget|]. apply untouched_emit; [done|]. same_budget.
Qed.

Lemma untouched_handle e cs v : untouched v (fold_left (handleChallenge e) cs v).
Proof.
  revert v. induction cs as [|c cs IH]; intros v; [done|]. cbn [fold_left]. etrans; [|apply IH]. unfold handleChallenge.
  pose proof (untouched_auto e c v) as U. destruct (autoAnswer e c v) as [answered v1]. destruct answered; [done|].
  etrans; [exact U|apply untouched_show].
Qed.

(** ** The steps that count *)

Lemma valueOr_insert (m : gmap Z Z) k x p : valueOr 0 (<[k := x]> m) p = if k =? p then x else valueOr 0 m p.
Proof.
  unfold valueOr. destruct (Z.eqb_spec k p) as [->|Hne]; [by rewrite lookup_insert_eq|by rewrite lookup_insert_ne].
Qed.

(** A start the controller asks for, as both a restart and new credentials do. *)
Lemma start_budget id v : budgetOk v -> budgetOk (emit (VoStart id) (wAuthRestartID id v)).
Proof.
  intros [B1 B2 B3 B4 B5 B6]. unfold budgetOk. cbn [emit wOut wAuthRestartID vOut]. rewrite sinceStop_snoc.
  split; cbn; try done. by intros x [= <-].
Qed.

Lemma counted_budget profileId now v : budgetOk v -> valueOr 0 (vAutoRestarts v) profileId < kMaxAutoRestarts ->
  kAutoRestartCooldownSecs <= now - vAutoRestartAt v ->
  budgetOk (emit (VoAutoRestart profileId now)
    (wAutoRestartAt now (wAutoRestarts (<[profileId := valueOr 0 (vAutoRestarts v) profileId + 1]> (vAutoRestarts v)) v))).
Proof.
  intros [B1 B2 B3 B4 B5 B6] Hm Hc. unfold budgetOk. cbn [emit wOut wAutoRestartAt wAutoRestarts vOut]. rewrite sinceStop_snoc.
  split; cbn [account acAsked acRestarts acPrompts map fst snd vAutoRestarts vPrompted vAutoRestartAt vAuthRestartID emit wOut wAutoRestartAt wAutoRestarts]; try done.
  - intros p. rewrite times_cons, valueOr_insert, (Z.eqb_sym p). specialize (B2 p).
    destruct (Z.eqb_spec profileId p) as [->|]; lia.
  - intros p. rewrite times_cons. specialize (B2 p). specialize (B5 p). destruct (Z.eqb_spec p profileId) as [->|]; lia.
  - destruct (acRestarts (sinceStop (vOut v))) as [|r l]; cbn [map spaced]; [done|]. split; [rewrite <- B4; lia|done].
Qed.

Lemma restart_budget e profileId v : budgetOk v -> budgetOk (autoRestartForAuth e profileId v).2.
Proof.
  intros B. unfold autoRestartForAuth. destruct (veProfile e profileId) as [p|]; [|done]. destruct (veRunning e) as [running|]; [|done].
  destruct (_ <? 0); [done|]. destruct (Z.geb_spec (valueOr 0 (vAutoRestarts v) profileId) kMaxAutoRestarts); [done|].
  destruct (Z.ltb_spec (veClock e - vAutoRestartAt v) kAutoRestartCooldownSecs) as [|Hc]; [done|]. cbn [snd]. cbv zeta.
  by apply start_budget, counted_budget; [|lia..].
Qed.

Lemma prompted_budget profileId running c v : budgetOk v -> valueOr 0 (vPrompted v) profileId < kMaxCredentialPrompts ->
  budgetOk (emit (VoCredentialsRejected profileId running c)
    (wPrompted (<[profileId := valueOr 0 (vPrompted v) profileId + 1]> (vPrompted v)) v)).
Proof.
  intros [B1 B2 B3 B4 B5 B6] Hm. unfold budgetOk. cbn [emit wOut wPrompted vOut]. rewrite sinceStop_snoc.
  split; cbn [account acAsked acRestarts acPrompts vAutoRestarts vPrompted vAutoRestartAt vAuthRestartID emit wOut wPrompted]; try done.
  - intros p. rewrite times_cons, valueOr_insert, (Z.eqb_sym p). specialize (B3 p). destruct (Z.eqb_spec profileId p) as [->|]; lia.
  - intros p. rewrite times_cons. specialize (B3 p). specialize (B5 p). destruct (Z.eqb_spec p profileId) as [->|]; lia.
Qed.

Lemma authFailure_budget e tag error v : budgetOk v -> budgetOk (showAuthFailure e tag error v).
Proof.
  intros B. unfold showAuthFailure. destruct (veRunning e) as [running|]; [|done]. destruct (vePromptOpen e); [done|]. cbv zeta.
  set (id := VpnEndpointProfileID tag v). destruct (id <? 0); [done|]. destruct (bool_decide _); [done|].
  pose proof (restart_budget e id v B) as B'. destruct (autoRestartForAuth e id v) as [restarted v1]. cbn [snd] in B'. destruct restarted; [done|].
  set (v2 := wSeen _ v1). assert (B2 : budgetOk v2) by (eapply untouched_budget; [|exact B']; same_budget). clearbody v2. clear B B' v1.
  destruct (Z.geb_spec (valueOr 0 (vPrompted v2) id) kMaxCredentialPrompts); [done|].
  destruct (veProfile e id) as [p|]; [|done]. destruct (promptName (vpKind p)) as [username|]; [|done]. by apply prompted_budget; [|lia].
Qed.

(** Only the user's stop gives the budgets back. *)
Lemma stopped_budget id manual v : budgetOk v -> budgetOk (noteRunStopped id manual v).
Proof.
  intros [B1 B2 B3 B4 B5 B6]. unfold noteRunStopped. cbv zeta. eapply untouched_budget; [apply untouched_stopPoll|]. unfold budgetOk.
  set (v0 := emit (VoStopped id manual) v). assert (E : sinceStop (vOut v0) = account (sinceStop (vOut v)) (VoStopped id manual)) by apply sinceStop_snoc.
  cbn [account] in E. change (vAuthRestartID v0) with (vAuthRestartID v).
  assert (N : forall q l, 0 <= times q l) by (intros; unfold times; lia).
  destruct (manual && negb (manual && (id =? vAuthRestartID v))) eqn:Em.
  - destruct manual; [|done]. cbn [andb] in Em, E.
    rewrite bool_decide_eq_false_2 in E by (intros Ha; by rewrite <- (B1 _ Ha), Z.eqb_refl in Em). cbn [negb] in E.
    unfold clearCredentialOverrides. cbv zeta.
    set (w := emit VoOverridesCleared _). replace (sinceStop (vOut w)) with (mkAccount None [] []); [by apply keeps_nothing|].
    rewrite <- E. symmetry. by apply (sinceStop_plain (vOut v0) [VoOverridesCleared]).
  - change (vOut (wAuthRestartID (-1) v0)) with (vOut v0). rewrite E. destruct (manual && negb (bool_decide _)); split; cbn; try done.
    all: intros p; etrans; [|first [apply B2|apply B3]]; apply N.
Qed.

Lemma vpnStep_budget e ev v : budgetOk v -> budgetOk (vpnStep e ev v).
Proof.
  intros B. destruct ev; cbn [vpnStep].
  - eapply untouched_budget; [|exact B]. same_budget.
  - eapply untouched_budget; [|exact B]. unfold noteRunStarted. transitivity (resetTracking v); [apply untouched_reset|same_budget].
  - by apply stopped_budget.
  - eapply untouched_budget; [|exact B]. destruct (vTimerActive v); [|done]. unfold poll. destruct (_ <? 0); [done|]. destruct (vBusy v); [done|].
    apply untouched_emit; [done|same_budget].
  - destruct (vBusy v); [|done]. unfold polled. cbv zeta. destruct (negb _); [eapply untouched_budget; [|exact B]; same_budget|].
    set (v1 := fold_left (handleChallenge e) _ _). assert (B1 : budgetOk v1).
    { eapply untouched_budget; [|exact B]. unfold v1. etrans; [|apply untouched_handle].
      transitivity (updateEndpointStates e (map vsEndpoint results) (wBusy false v)); [|same_budget].
      transitivity (wBusy false v); [same_budget|apply untouched_states]. }
    clearbody v1. clear B. revert v1 B1. induction (List.filter _ _) as [|s l IH]; intros v1 B1; [done|]. cbn [fold_left]. by apply IH, authFailure_budget.
  - eapply untouched_budget; [|exact B]. same_budget.
  - eapply untouched_budget; [|exact B]. unfold cancelAtDeadline. destruct (isNil _); [done|]. cbv zeta. destruct (vCancelTimers v !! _); [done|same_budget].
  - eapply untouched_budget; [|exact B]. unfold deadline. destruct (vCancelTimers v !! _) as [[[tag id] t]|]; [|done]. cbv zeta.
    destruct (existsb _ _); [apply untouched_emit; [done|]|]; same_budget.
  - eapply untouched_budget; [|exact B]. by apply untouched_emit.
  - eapply untouched_budget; [|exact B]. by apply untouched_emit.
  - unfold retryWithCredentials. destruct (bool_decide _); [|done]. apply start_budget. eapply untouched_budget; [|exact B].
    unfold SetVpnCredentialOverride. destruct (_ <? 0); same_budget.
Qed.

(** C35: Recovery from refused VPN credentials is bounded: between two stops by
    the user, whatever the core and the servers report and however often the
    profile is restarted meanwhile, each profile is restarted by itself at most
    three times and its user asked at most three times, and two automatic restarts
    are at least twenty seconds apart.  A run stopped by hand counts as the user's
    stop unless the controller asked to restart that run since the last stop: its
    own restarts never give the budgets back. *)
Theorem sign_in_budgets v p : vpnReachable v ->
  restartsSince p (vOut v) <= 3 /\ promptsSince p (vOut v) <= 3 /\ spaced (restartTimes (vOut v)).
Proof.
  intros Hr. assert (B : budgetOk v).
  { induction Hr as [|e ev v _ IH]; [by apply keeps_nothing|by apply vpnStep_budget]. }
  destruct B as [_ _ _ _ B5 B6]. by destruct (B5 p).
Qed.

(** ** One-time codes *)

(** The submission an automatic answer makes. *)
Record submission (e : VpnEnv) (c : VpnAuthChallenge) (v v' : Vpn) : Prop := {
  sm_otp : exists p otp, veProfile e (VpnEndpointProfileID (chTag c) v) = Some p /\ (readEntry (otpIdOf (vpKind p)) (veOtp e)).1 = Some otp /\
    Validate otp = None /\
    let code := CurrentCode (veClock e) otp in
    code <> [] /\ vOtpLastCode v' !! chTag c = Some code /\
    (chError c <> [] -> isHotp (otpType otp) = false -> (valueOr [] (vOtpLastCode v) (chTag c)) <> code) /\
    exists username password secret form, vOut v' = vOut v ++ [VoSubmit (chTag c) (chId c) username password secret form] /\
      (secret = code \/ (secret = [] /\ form <> ∅));
  sm_once : (chTag c ∉ vAnswering v) /\ (chTag c ∈ vAnswering v');
  sm_rejects : chError c <> [] -> valueOr 0 (vOtpRejects v) (chTag c) < kMaxOtpRejects /\
    valueOr 0 (vOtpRejects v') (chTag c) = valueOr 0 (vOtpRejects v) (chTag c) + 1
}.

Lemma formFields_nonempty entries creds code used fields out form :
  formFields entries creds code used fields out = Some form -> (fields <> [] \/ out <> ∅) -> form <> ∅.
Proof.
  revert used out. induction fields as [|f fields IH]; intros used out Hf Hne; cbn in Hf.
  - injection Hf as ->. by destruct Hne.
  - destruct (fieldAnswer _ _ _ _ f) as [[value used']|]; [|done]. apply (IH _ _ Hf). right. apply insert_non_empty.
Qed.

Lemma BuildFormAnswer_nonempty c entries creds code form : BuildFormAnswer c entries creds code = Some form -> form <> ∅.
Proof.
  unfold BuildFormAnswer. destruct (chFields c) eqn:E; cbn [isNil]; [done|]. intros Hf. eapply formFields_nonempty; [exact Hf|by left].
Qed.

Lemma answerOf_code c k creds code user pass secret form : answerOf c k creds code = Some (user, pass, secret, form) ->
  secret = code \/ (secret = [] /\ form <> ∅).
Proof.
  destruct k as [id cr|id cr entries disabled|]; cbn; [|destruct (BuildFormAnswer c entries creds code) as [f|] eqn:E; [|done]|done].
  - destruct (eqStr _ _); intros [= <- <- <- <-]; by left.
  - intros [= <- <- <- <-]. right. split; [done|]. by eapply BuildFormAnswer_nonempty.
Qed.

Lemma isNil_no {A} (l : list A) : isNil l = false -> l <> [].
Proof. by destruct l. Qed.

Lemma isSome_false {A} (o : option A) : isSome o = false -> o = None.
Proof. by destruct o. Qed.

(** The automatic answer to a sign-in challenge does nothing, or submits once,
    for the challenge's endpoint, with the current code of the endpoint's usable
    one-time password: never while an answer to that endpoint is under way, after a
    refusal at most three times and never again with the time-based code that was
    just refused. *)
Theorem auto_answer_outcome e c v answered v' : autoAnswer e c v = (answered, v') ->
  v' = v \/ (answered = true /\ submission e c v v').
Proof.
  unfold autoAnswer. destruct (_ || _); [intros [= _ <-]; by left|]. destruct (bool_decide _) eqn:Ea; [intros [= _ <-]; by left|].
  apply bool_decide_eq_false in Ea. cbv zeta. set (pid := VpnEndpointProfileID (chTag c) v).
  destruct (if pid <? 0 then None else veProfile e pid) as [p|] eqn:Ep; [|intros [= _ <-]; by left].
  assert (Ep' : veProfile e pid = Some p) by (by destruct (pid <? 0)).
  destruct (otpIdOf (vpKind p) <? 0) eqn:Eo; [intros [= _ <-]; by left|].
  destruct (readEntry (otpIdOf (vpKind p)) (veOtp e)) as [[otp|] r'] eqn:Er; cbn [fst]; [|intros [= _ <-]; by left].
  destruct (isSome (Validate otp)) eqn:Ev; [intros [= _ <-]; by left|]. apply isSome_false in Ev.
  destruct (afterRefusal e c otp v) eqn:Ef; [intros [= _ <-]; by left..|].
  destruct (negb _); [intros [= _ <-]; by left|].
  assert (Ec : (ResolveOtpCode (veClock e) (otpIdOf (vpKind p)) (veOtp e)).1 = CurrentCode (veClock e) otp)
    by (unfold ResolveOtpCode, usableEntry; rewrite Eo, Er; cbn; by rewrite Ev).
  rewrite Ec. destruct (isNil (CurrentCode _ _)) eqn:En; [intros [= _ <-]; by left|]. apply isNil_no in En.
  destruct (answerOf _ _ _ _) as [[[[user pass] secret] form]|] eqn:Eans; [|intros [= _ <-]; by left].
  apply answerOf_code in Eans. intros [= <- <-]. right. split; [done|].
  assert (R : chError c <> [] -> valueOr 0 (vOtpRejects v) (chTag c) < kMaxOtpRejects /\
    (isHotp (otpType otp) = false -> valueOr [] (vOtpLastCode v) (chTag c) <> CurrentCode (veClock e) otp)).
  { intros He. unfold afterRefusal in Ef. destruct (chError c); [done|]. cbn [isNil] in Ef.
    destruct (Z.geb_spec (valueOr 0 (vOtpRejects v) (chTag c)) kMaxOtpRejects); [done|]. split; [done|]. intros Ht Hl. rewrite Ht, Hl in Ef.
    cbn in Ef. by rewrite eqStr_refl in Ef. }
  set (v1 := if isNil (chError c) then v else _). set (v2 := wOtpLastCode _ v1).
  assert (E1 : vOut v2 = vOut v /\ vAnswering v2 = vAnswering v) by (unfold v2, v1; by destruct (isNil _)).
  destruct E1 as [E1 E2]. assert (E3 : vOtpLastCode v2 !! chTag c = Some (CurrentCode (veClock e) otp)) by (cbn; by rewrite lookup_insert_eq).
  unfold submitAutoAnswer. split; cbn [vOut vOtpLastCode vAnswering vOtpRejects emit wOut wAnswering].
  - exists p, otp. split; [done|]. split; [by rewrite Er|]. split; [done|]. cbv zeta. split; [done|]. split; [done|].
    split; [intros He Ht; by apply R|]. exists user, pass, secret, form. by rewrite E1.
  - rewrite E2. split; [done|]. set_solver.
  - intros He. destruct (R He) as [R1 _]. split; [done|]. unfold v2, v1. destruct (chError c); [done|]. cbn.
    unfold valueOr at 1. by rewrite lookup_insert_eq.
Qed.

End Facts.

(** ** An OpenVPN endpoint with an HOTP profile *)

#[export] Existing Instance headlessLinux.

Definition vpnTag : qstr := u "proxy".
Definition vpnChallenge (id error : qstr) : VpnAuthChallenge := mkChallenge vpnTag id (u "secret") [] [] [] error [] false 0 [].
Definition authPending (c : VpnAuthChallenge) : list VpnStatus :=
  [mkStatus (mkEndpoint vpnTag (u "auth-pending") [] false false) (Some c)].
Definition authRefused : list VpnStatus := [mkStatus (mkEndpoint vpnTag (u "error") (u "AUTH_FAILED") false true) None].

Definition vpnEnv (clock : Z) : VpnEnv :=
  mkVpnEnv clock 7 (Some 7) (fun id => if id =? 7 then Some (mkVpnProfile (OpenVPN 1 (mkCreds (u "alice") (u "secret"))) (u "Office")) else None)
    storedCodes false.

Definition vpnRun (clock : Z) (evs : list VpnEvent) (v : Vpn) : Vpn := fold_left (fun v ev => vpnStep (vpnEnv clock) ev v) evs v.

Lemma vpnRun_reachable clock evs v : vpnReachable v -> vpnReachable (vpnRun clock evs v).
Proof. revert v. induction evs as [|ev evs IH]; intros v Hv; [done|]. apply IH. by constructor. Qed.

Definition vpnUp : Vpn := vpnRun 1000 [VeBuilt {[vpnTag := 7]}; VeRunStarted; VeTick; VePolled (authPending (vpnChallenge (u "c1") []))] vpnInit.

(** Resolving a code for a challenge spends no counter: the next challenge is
    answered with the same HOTP code. *)
Example hotp_code_sent_again :
  let v := vpnRun 1010 [VeSubmitted vpnTag; VeTick; VePolled (authPending (vpnChallenge (u "c2") (u "refused")))] vpnUp in
  exists code, code <> [] /\ In (VoSubmit vpnTag (u "c1") [] [] code ∅) (vOut v) /\ In (VoSubmit vpnTag (u "c2") [] [] code ∅) (vOut v).
Proof.
  exists (CurrentCode 0 hotpEntry). split; [vm_compute; discriminate|]. vm_compute. split; repeat first [left; reflexivity|right].
Qed.

(** Four refusals, twenty seconds and more apart: three restarts, then the
    prompt. *)
Example refused_run :
  let tick t v := vpnRun t [VeTick; VePolled authRefused; VeRunStopped 7 true; VeBuilt {[vpnTag := 7]}; VeRunStarted] v in
  let v := tick 1090 (tick 1060 (tick 1030 vpnUp)) in
  restartsSince 7 (vOut v) = 3 /\ promptsSince 7 (vOut v) = 0 /\ promptsSince 7 (vOut (vpnRun 1120 [VeTick; VePolled authRefused] v)) = 1 /\ restartTimes (vOut v) = [1090; 1060; 1030].
Proof. vm_compute. repeat split. Qed.

Lemma sign_in_budgets_witness : restartsSince 7 (vOut vpnUp) <= 3.
Proof.
  assert (Hr : vpnReachable vpnUp) by (apply vpnRun_reachable; constructor).
  exact (proj1 (sign_in_budgets vpnUp 7 Hr)).
Defined.

Lemma auto_answer_outcome_witness :
  let c := vpnChallenge (u "c3") [] in let v := vpnRun 1020 [VeSubmitted vpnTag] vpnUp in
  submission (vpnEnv 1020) c v (autoAnswer (vpnEnv 1020) c v).2.
Proof.
  intros c v. assert (L : length (vOut (autoAnswer (vpnEnv 1020) c v).2) <> length (vOut v)) by (vm_compute; discriminate).
  destruct (auto_answer_outcome (vpnEnv 1020) c v _ _ (surjective_pairing (autoAnswer (vpnEnv 1020) c v))) as [E|[_ S]]; [|exact S].
  destruct (L (f_equal (fun v => length (vOut v)) E)).
Defined.
