(* ===== verification/ConnectionManager.v ===== *)
(** Starting, stopping and switching profiles:
    src/src/engine/connection/ConnectionManager.cpp and ConnectionModes.cpp.

    [CM] has the members of ConnectionManager, the shared settings it reads and
    writes, the two mutexes, its start and stop workers, the requests whose
    ranking it waits for, and what the workers have posted to the main thread.
    [Env] is what the other components and the core answer during one turn: the
    kill switch and the supervisor by their own states, the rest by values.  A
    turn is a call on the main thread, a posted task, or a worker's stretch
    between two waits.  What is done to other components is the trace [cmOut].
    View hints, log lines and notices are left out; a dialog is a call of the
    policy. *)
From stdpp Require Import base list strings.
From Stdlib Require Import ZArith Lia Bool.
From S2P Require Import Prelude Json Supervisor KillSwitch.

(** ** Requests *)

Record StartRequest := mkRequest { rqProfileId : Z; rqInteractive : bool; rqSerial : Z }.
Definition noRequest : StartRequest := mkRequest (-1) true 0.

Inductive StartOutcome :=
| Started | Exiting | NotFound | GroupUnavailable | KillSwitchInactive | Superseded | CoreUnavailable | BuildFailed | Busy
| ExtraCoreBlocked | GeoAssetsMissing | StrictRouteUnavailable | TunFailed | StartFailed.

Record StopOptions := mkStopOptions { soCrash : bool; soManual : bool; soInteractive : bool; soSkipTests : bool }.

Record ModeChange := mkModeChange { mcSave : bool; mcInteractive : bool; mcRestart : bool; mcRestartSerial : Z }.

Inductive ConnectionState := CsIdle | CsConnecting | CsRunning | CsStopping.

#[export] Instance ConnectionState_eq_dec : EqDecision ConnectionState.
Proof. solve_decision. Defined.

Inductive RestartReason := ReasonSettings | ReasonRouting | ReasonProfile | ReasonGroup.

#[export] Instance RestartReason_eq_dec : EqDecision RestartReason.
Proof. solve_decision. Defined.

Inductive RunMarker := MarkStarted | MarkSwitched | MarkStopped.

(** RuntimeOptions, as far as the connection manager reads them. *)
Class RuntimeOptions := {
  optHeadless : bool;
  optSystemProxy : bool;
  optTunRequired : bool;
  optBlockingPrivilegeCheck : bool
}.

(** ** The trace *)

(** Calls of EnginePolicy. *)
Inductive PolicyCall :=
| PolKillSwitchProblem
| PolKillSwitchProblemResolved
| PolExtraCoreNotPermitted
| PolStrictRouteUnavailable (error : qstr)
| PolStartFailed (r : StartRequest) (outcome : StartOutcome)
| PolStopFailed (error : qstr)
| PolRequestCorePrivileges
| PolSystemProxyNeedsMixedInbound.

Inductive CmOut :=
| OutStartFinished (serial profileId : Z) (outcome : StartOutcome) (error : list Message)
| OutStartDispatching (serial profileId : Z)
| OutStopFinished (profileId : Z)
| OutConnectionState (s : ConnectionState)
| OutRunMarker (kind : RunMarker)
| OutRestartReasons
| OutPolicy (call : PolicyCall)
| OutSetStartWhenUp (profileId : Z)
| OutRestartNotListening (profileId : Z)
| OutRestartForGuard
| OutResetCore
| OutCancelResume
| OutKillSwitchApply
| OutWhenSettled
| OutSettingsSaved
| OutTransitionGuard (on : bool)
| OutCoreStart (profileId : Z)
| OutCoreStop
| OutStopTests
| OutSystemProxy (on : bool)
| OutNoteStopped
| OutEndRun
| OutNoteRunStarted
| OutNoteRunStopped (profileId : Z) (manual : bool).

(** ** State *)

(** The shared settings read and written here. *)
Record CmSettings := mkCmSettings {
  s_prepareExit : bool;
  s_coreRunning : bool;
  s_tunMode : bool;
  s_systemProxy : bool;
  s_startedId : Z;
  s_rememberId : Z;
  s_rememberEnable : bool;
  s_rememberTun : bool;
  s_rememberSystemProxy : bool;
  s_restartTunOn : bool;
  s_currentRoute : Z;
  s_killSwitchOn : bool;
  s_disableMixedInbound : bool;
  s_resetProxyOnDisable : bool;
  s_disablePrivilegeReq : bool;
  s_tunIpv4Cidr : qstr;
  s_coreDnsInPort : Z
}.
Definition saveTunMode v c := mkCmSettings (s_prepareExit c) (s_coreRunning c) v (s_systemProxy c) (s_startedId c) (s_rememberId c) (s_rememberEnable c) (s_rememberTun c) (s_rememberSystemProxy c) (s_restartTunOn c) (s_currentRoute c) (s_killSwitchOn c) (s_disableMixedInbound c) (s_resetProxyOnDisable c) (s_disablePrivilegeReq c) (s_tunIpv4Cidr c) (s_coreDnsInPort c).
Definition saveSystemProxy v c := mkCmSettings (s_prepareExit c) (s_coreRunning c) (s_tunMode c) v (s_startedId c) (s_rememberId c) (s_rememberEnable c) (s_rememberTun c) (s_rememberSystemProxy c) (s_restartTunOn c) (s_currentRoute c) (s_killSwitchOn c) (s_disableMixedInbound c) (s_resetProxyOnDisable c) (s_disablePrivilegeReq c) (s_tunIpv4Cidr c) (s_coreDnsInPort c).
Definition saveRememberTun v c := mkCmSettings (s_prepareExit c) (s_coreRunning c) (s_tunMode c) (s_systemProxy c) (s_startedId c) (s_rememberId c) (s_rememberEnable c) v (s_rememberSystemProxy c) (s_restartTunOn c) (s_currentRoute c) (s_killSwitchOn c) (s_disableMixedInbound c) (s_resetProxyOnDisable c) (s_disablePrivilegeReq c) (s_tunIpv4Cidr c) (s_coreDnsInPort c).
Definition saveRememberSystemProxy v c := mkCmSettings (s_prepareExit c) (s_coreRunning c) (s_tunMode c) (s_systemProxy c) (s_startedId c) (s_rememberId c) (s_rememberEnable c) (s_rememberTun c) v (s_restartTunOn c) (s_currentRoute c) (s_killSwitchOn c) (s_disableMixedInbound c) (s_resetProxyOnDisable c) (s_disablePrivilegeReq c) (s_tunIpv4Cidr c) (s_coreDnsInPort c).
Definition saveRestartTunOn v c := mkCmSettings (s_prepareExit c) (s_coreRunning c) (s_tunMode c) (s_systemProxy c) (s_startedId c) (s_rememberId c) (s_rememberEnable c) (s_rememberTun c) (s_rememberSystemProxy c) v (s_currentRoute c) (s_killSwitchOn c) (s_disableMixedInbound c) (s_resetProxyOnDisable c) (s_disablePrivilegeReq c) (s_tunIpv4Cidr c) (s_coreDnsInPort c).
Definition saveCurrentRoute v c := mkCmSettings (s_prepareExit c) (s_coreRunning c) (s_tunMode c) (s_systemProxy c) (s_startedId c) (s_rememberId c) (s_rememberEnable c) (s_rememberTun c) (s_rememberSystemProxy c) (s_restartTunOn c) v (s_killSwitchOn c) (s_disableMixedInbound c) (s_resetProxyOnDisable c) (s_disablePrivilegeReq c) (s_tunIpv4Cidr c) (s_coreDnsInPort c).
Definition saveKillSwitchOn v c := mkCmSettings (s_prepareExit c) (s_coreRunning c) (s_tunMode c) (s_systemProxy c) (s_startedId c) (s_rememberId c) (s_rememberEnable c) (s_rememberTun c) (s_rememberSystemProxy c) (s_restartTunOn c) (s_currentRoute c) v (s_disableMixedInbound c) (s_resetProxyOnDisable c) (s_disablePrivilegeReq c) (s_tunIpv4Cidr c) (s_coreDnsInPort c).
Definition UpdateStartedId v c := mkCmSettings (s_prepareExit c) (s_coreRunning c) (s_tunMode c) (s_systemProxy c) v v (s_rememberEnable c) (s_rememberTun c) (s_rememberSystemProxy c) (s_restartTunOn c) (s_currentRoute c) (s_killSwitchOn c) (s_disableMixedInbound c) (s_resetProxyOnDisable c) (s_disablePrivilegeReq c) (s_tunIpv4Cidr c) (s_coreDnsInPort c).

(** What BuildSingBoxConfig gives the start. *)
Record BuildResult := mkBuild { bdError : qstr; bdTun : bool; bdExtraCore : bool }.

(** The start worker between its waits. *)
Inductive StartPhase := WorkerBegin | WorkerAwaitStop | WorkerStart.
Record StartWorker := mkStartWorker {
  swRequest : StartRequest;
  swGid : Z;
  swBuild : BuildResult;
  swPhase : StartPhase;
  swGuarded : bool;
  swSwitching : bool
}.

(** The stop worker: before and after the teardown, which waits for the main
    thread. *)
Record StopWorker := mkStopWorker { stId : Z; stOptions : StopOptions; stTornDown : bool }.

(** What a worker posts to the main thread. *)
Inductive UiTask :=
| UiFinish (r : StartRequest) (outcome : StartOutcome) (error : qstr)
| UiStarted (r : StartRequest)
| UiStartDone (started switching : bool)
| UiDisconnecting
| UiCancelResume
| UiStopFailed (error : qstr)
| UiExtraCoreDialog
| UiStrictRouteDialog (error : qstr)
| UiRetryTun (profileId : Z) (error : qstr)
| UiResetCoreOffer
| UiStartFailedDialog (r : StartRequest).

Record CM := mkCM {
  cmRunning : option (Z * Z);
  cmRunningTun : bool;
  cmLastProfileId : Z;
  cmConnecting : bool;
  cmDisconnecting : bool;
  cmLastState : ConnectionState;
  cmStartSerial : Z;
  cmKsDeferred : StartRequest;
  cmCoreRequest : StartRequest;
  cmGuardRestart : option Z;
  cmKsWasFailed : bool;
  cmKsWasArmed : bool;
  cmRestartReasons : list RestartReason;
  cmMuStarting : bool;
  cmMuStopping : bool;
  cmSwitching : bool;
  cmTunRestoreHeld : bool;
  cmTunBlockedCache : qstr;
  cmTunBlockedKey : qstr * Z;
  cmTunBlockedAt : Z;
  cmBootSerial : Z;
  cmGeoRetried : Z;
  cmGeoToken : Z;
  cmSettings : CmSettings;
  cmKsWaiting : bool;
  cmRanking : list StartRequest;
  cmStartWorker : option StartWorker;
  cmStopWorker : option StopWorker;
  cmTasks : list UiTask;
  cmOut : list CmOut
}.

Definition putRunning v c := mkCM v (cmRunningTun c) (cmLastProfileId c) (cmConnecting c) (cmDisconnecting c) (cmLastState c) (cmStartSerial c) (cmKsDeferred c) (cmCoreRequest c) (cmGuardRestart c) (cmKsWasFailed c) (cmKsWasArmed c) (cmRestartReasons c) (cmMuStarting c) (cmMuStopping c) (cmSwitching c) (cmTunRestoreHeld c) (cmTunBlockedCache c) (cmTunBlockedKey c) (cmTunBlockedAt c) (cmBootSerial c) (cmGeoRetried c) (cmGeoToken c) (cmSettings c) (cmKsWaiting c) (cmRanking c) (cmStartWorker c) (cmStopWorker c) (cmTasks c) (cmOut c).
Definition putRunningTun v c := mkCM (cmRunning c) v (cmLastProfileId c) (cmConnecting c) (cmDisconnecting c) (cmLastState c) (cmStartSerial c) (cmKsDeferred c) (cmCoreRequest c) (cmGuardRestart c) (cmKsWasFailed c) (cmKsWasArmed c) (cmRestartReasons c) (cmMuStarting c) (cmMuStopping c) (cmSwitching c) (cmTunRestoreHeld c) (cmTunBlockedCache c) (cmTunBlockedKey c) (cmTunBlockedAt c) (cmBootSerial c) (cmGeoRetried c) (cmGeoToken c) (cmSettings c) (cmKsWaiting c) (cmRanking c) (cmStartWorker c) (cmStopWorker c) (cmTasks c) (cmOut c).
Definition putLastProfileId v c := mkCM (cmRunning c) (cmRunningTun c) v (cmConnecting c) (cmDisconnecting c) (cmLastState c) (cmStartSerial c) (cmKsDeferred c) (cmCoreRequest c) (cmGuardRestart c) (cmKsWasFailed c) (cmKsWasArmed c) (cmRestartReasons c) (cmMuStarting c) (cmMuStopping c) (cmSwitching c) (cmTunRestoreHeld c) (cmTunBlockedCache c) (cmTunBlockedKey c) (cmTunBlockedAt c) (cmBootSerial c) (cmGeoRetried c) (cmGeoToken c) (cmSettings c) (cmKsWaiting c) (cmRanking c) (cmStartWorker c) (cmStopWorker c) (cmTasks c) (cmOut c).
Definition putConnecting v c := mkCM (cmRunning c) (cmRunningTun c) (cmLastProfileId c) v (cmDisconnecting c) (cmLastState c) (cmStartSerial c) (cmKsDeferred c) (cmCoreRequest c) (cmGuardRestart c) (cmKsWasFailed c) (cmKsWasArmed c) (cmRestartReasons c) (cmMuStarting c) (cmMuStopping c) (cmSwitching c) (cmTunRestoreHeld c) (cmTunBlockedCache c) (cmTunBlockedKey c) (cmTunBlockedAt c) (cmBootSerial c) (cmGeoRetried c) (cmGeoToken c) (cmSettings c) (cmKsWaiting c) (cmRanking c) (cmStartWorker c) (cmStopWorker c) (cmTasks c) (cmOut c).
Definition putDisconnecting v c := mkCM (cmRunning c) (cmRunningTun c) (cmLastProfileId c) (cmConnecting c) v (cmLastState c) (cmStartSerial c) (cmKsDeferred c) (cmCoreRequest c) (cmGuardRestart c) (cmKsWasFailed c) (cmKsWasArmed c) (cmRestartReasons c) (cmMuStarting c) (cmMuStopping c) (cmSwitching c) (cmTunRestoreHeld c) (cmTunBlockedCache c) (cmTunBlockedKey c) (cmTunBlockedAt c) (cmBootSerial c) (cmGeoRetried c) (cmGeoToken c) (cmSettings c) (cmKsWaiting c) (cmRanking c) (cmStartWorker c) (cmStopWorker c) (cmTasks c) (cmOut c).
Definition putLastState v c := mkCM (cmRunning c) (cmRunningTun c) (cmLastProfileId c) (cmConnecting c) (cmDisconnecting c) v (cmStartSerial c) (cmKsDeferred c) (cmCoreRequest c) (cmGuardRestart c) (cmKsWasFailed c) (cmKsWasArmed c) (cmRestartReasons c) (cmMuStarting c) (cmMuStopping c) (cmSwitching c) (cmTunRestoreHeld c) (cmTunBlockedCache c) (cmTunBlockedKey c) (cmTunBlockedAt c) (cmBootSerial c) (cmGeoRetried c) (cmGeoToken c) (cmSettings c) (cmKsWaiting c) (cmRanking c) (cmStartWorker c) (cmStopWorker c) (cmTasks c) (cmOut c).
Definition putStartSerial v c := mkCM (cmRunning c) (cmRunningTun c) (cmLastProfileId c) (cmConnecting c) (cmDisconnecting c) (cmLastState c) v (cmKsDeferred c) (cmCoreRequest c) (cmGuardRestart c) (cmKsWasFailed c) (cmKsWasArmed c) (cmRestartReasons c) (cmMuStarting c) (cmMuStopping c) (cmSwitching c) (cmTunRestoreHeld c) (cmTunBlockedCache c) (cmTunBlockedKey c) (cmTunBlockedAt c) (cmBootSerial c) (cmGeoRetried c) (cmGeoToken c) (cmSettings c) (cmKsWaiting c) (cmRanking c) (cmStartWorker c) (cmStopWorker c) (cmTasks c) (cmOut c).
Definition putKsDeferred v c := mkCM (cmRunning c) (cmRunningTun c) (cmLastProfileId c) (cmConnecting c) (cmDisconnecting c) (cmLastState c) (cmStartSerial c) v (cmCoreRequest c) (cmGuardRestart c) (cmKsWasFailed c) (cmKsWasArmed c) (cmRestartReasons c) (cmMuStarting c) (cmMuStopping c) (cmSwitching c) (cmTunRestoreHeld c) (cmTunBlockedCache c) (cmTunBlockedKey c) (cmTunBlockedAt c) (cmBootSerial c) (cmGeoRetried c) (cmGeoToken c) (cmSettings c) (cmKsWaiting c) (cmRanking c) (cmStartWorker c) (cmStopWorker c) (cmTasks c) (cmOut c).
Definition putCoreRequest v c := mkCM (cmRunning c) (cmRunningTun c) (cmLastProfileId c) (cmConnecting c) (cmDisconnecting c) (cmLastState c) (cmStartSerial c) (cmKsDeferred c) v (cmGuardRestart c) (cmKsWasFailed c) (cmKsWasArmed c) (cmRestartReasons c) (cmMuStarting c) (cmMuStopping c) (cmSwitching c) (cmTunRestoreHeld c) (cmTunBlockedCache c) (cmTunBlockedKey c) (cmTunBlockedAt c) (cmBootSerial c) (cmGeoRetried c) (cmGeoToken c) (cmSettings c) (cmKsWaiting c) (cmRanking c) (cmStartWorker c) (cmStopWorker c) (cmTasks c) (cmOut c).
Definition putGuardRestart v c := mkCM (cmRunning c) (cmRunningTun c) (cmLastProfileId c) (cmConnecting c) (cmDisconnecting c) (cmLastState c) (cmStartSerial c) (cmKsDeferred c) (cmCoreRequest c) v (cmKsWasFailed c) (cmKsWasArmed c) (cmRestartReasons c) (cmMuStarting c) (cmMuStopping c) (cmSwitching c) (cmTunRestoreHeld c) (cmTunBlockedCache c) (cmTunBlockedKey c) (cmTunBlockedAt c) (cmBootSerial c) (cmGeoRetried c) (cmGeoToken c) (cmSettings c) (cmKsWaiting c) (cmRanking c) (cmStartWorker c) (cmStopWorker c) (cmTasks c) (cmOut c).
Definition putKsWasFailed v c := mkCM (cmRunning c) (cmRunningTun c) (cmLastProfileId c) (cmConnecting c) (cmDisconnecting c) (cmLastState c) (cmStartSerial c) (cmKsDeferred c) (cmCoreRequest c) (cmGuardRestart c) v (cmKsWasArmed c) (cmRestartReasons c) (cmMuStarting c) (cmMuStopping c) (cmSwitching c) (cmTunRestoreHeld c) (cmTunBlockedCache c) (cmTunBlockedKey c) (cmTunBlockedAt c) (cmBootSerial c) (cmGeoRetried c) (cmGeoToken c) (cmSettings c) (cmKsWaiting c) (cmRanking c) (cmStartWorker c) (cmStopWorker c) (cmTasks c) (cmOut c).
Definition putKsWasArmed v c := mkCM (cmRunning c) (cmRunningTun c) (cmLastProfileId c) (cmConnecting c) (cmDisconnecting c) (cmLastState c) (cmStartSerial c) (cmKsDeferred c) (cmCoreRequest c) (cmGuardRestart c) (cmKsWasFailed c) v (cmRestartReasons c) (cmMuStarting c) (cmMuStopping c) (cmSwitching c) (cmTunRestoreHeld c) (cmTunBlockedCache c) (cmTunBlockedKey c) (cmTunBlockedAt c) (cmBootSerial c) (cmGeoRetried c) (cmGeoToken c) (cmSettings c) (cmKsWaiting c) (cmRanking c) (cmStartWorker c) (cmStopWorker c) (cmTasks c) (cmOut c).
Definition putRestartReasons v c := mkCM (cmRunning c) (cmRunningTun c) (cmLastProfileId c) (cmConnecting c) (cmDisconnecting c) (cmLastState c) (cmStartSerial c) (cmKsDeferred c) (cmCoreRequest c) (cmGuardRestart c) (cmKsWasFailed c) (cmKsWasArmed c) v (cmMuStarting c) (cmMuStopping c) (cmSwitching c) (cmTunRestoreHeld c) (cmTunBlockedCache c) (cmTunBlockedKey c) (cmTunBlockedAt c) (cmBootSerial c) (cmGeoRetried c) (cmGeoToken c) (cmSettings c) (cmKsWaiting c) (cmRanking c) (cmStartWorker c) (cmStopWorker c) (cmTasks c) (cmOut c).
Definition putMuStarting v c := mkCM (cmRunning c) (cmRunningTun c) (cmLastProfileId c) (cmConnecting c) (cmDisconnecting c) (cmLastState c) (cmStartSerial c) (cmKsDeferred c) (cmCoreRequest c) (cmGuardRestart c) (cmKsWasFailed c) (cmKsWasArmed c) (cmRestartReasons c) v (cmMuStopping c) (cmSwitching c) (cmTunRestoreHeld c) (cmTunBlockedCache c) (cmTunBlockedKey c) (cmTunBlockedAt c) (cmBootSerial c) (cmGeoRetried c) (cmGeoToken c) (cmSettings c) (cmKsWaiting c) (cmRanking c) (cmStartWorker c) (cmStopWorker c) (cmTasks c) (cmOut c).
Definition putMuStopping v c := mkCM (cmRunning c) (cmRunningTun c) (cmLastProfileId c) (cmConnecting c) (cmDisconnecting c) (cmLastState c) (cmStartSerial c) (cmKsDeferred c) (cmCoreRequest c) (cmGuardRestart c) (cmKsWasFailed c) (cmKsWasArmed c) (cmRestartReasons c) (cmMuStarting c) v (cmSwitching c) (cmTunRestoreHeld c) (cmTunBlockedCache c) (cmTunBlockedKey c) (cmTunBlockedAt c) (cmBootSerial c) (cmGeoRetried c) (cmGeoToken c) (cmSettings c) (cmKsWaiting c) (cmRanking c) (cmStartWorker c) (cmStopWorker c) (cmTasks c) (cmOut c).
Definition putSwitching v c := mkCM (cmRunning c) (cmRunningTun c) (cmLastProfileId c) (cmConnecting c) (cmDisconnecting c) (cmLastState c) (cmStartSerial c) (cmKsDeferred c) (cmCoreRequest c) (cmGuardRestart c) (cmKsWasFailed c) (cmKsWasArmed c) (cmRestartReasons c) (cmMuStarting c) (cmMuStopping c) v (cmTunRestoreHeld c) (cmTunBlockedCache c) (cmTunBlockedKey c) (cmTunBlockedAt c) (cmBootSerial c) (cmGeoRetried c) (cmGeoToken c) (cmSettings c) (cmKsWaiting c) (cmRanking c) (cmStartWorker c) (cmStopWorker c) (cmTasks c) (cmOut c).
Definition putTunRestoreHeld v c := mkCM (cmRunning c) (cmRunningTun c) (cmLastProfileId c) (cmConnecting c) (cmDisconnecting c) (cmLastState c) (cmStartSerial c) (cmKsDeferred c) (cmCoreRequest c) (cmGuardRestart c) (cmKsWasFailed c) (cmKsWasArmed c) (cmRestartReasons c) (cmMuStarting c) (cmMuStopping c) (cmSwitching c) v (cmTunBlockedCache c) (cmTunBlockedKey c) (cmTunBlockedAt c) (cmBootSerial c) (cmGeoRetried c) (cmGeoToken c) (cmSettings c) (cmKsWaiting c) (cmRanking c) (cmStartWorker c) (cmStopWorker c) (cmTasks c) (cmOut c).
Definition putTunBlockedCache v c := mkCM (cmRunning c) (cmRunningTun c) (cmLastProfileId c) (cmConnecting c) (cmDisconnecting c) (cmLastState c) (cmStartSerial c) (cmKsDeferred c) (cmCoreRequest c) (cmGuardRestart c) (cmKsWasFailed c) (cmKsWasArmed c) (cmRestartReasons c) (cmMuStarting c) (cmMuStopping c) (cmSwitching c) (cmTunRestoreHeld c) v (cmTunBlockedKey c) (cmTunBlockedAt c) (cmBootSerial c) (cmGeoRetried c) (cmGeoToken c) (cmSettings c) (cmKsWaiting c) (cmRanking c) (cmStartWorker c) (cmStopWorker c) (cmTasks c) (cmOut c).
Definition putTunBlockedKey v c := mkCM (cmRunning c) (cmRunningTun c) (cmLastProfileId c) (cmConnecting c) (cmDisconnecting c) (cmLastState c) (cmStartSerial c) (cmKsDeferred c) (cmCoreRequest c) (cmGuardRestart c) (cmKsWasFailed c) (cmKsWasArmed c) (cmRestartReasons c) (cmMuStarting c) (cmMuStopping c) (cmSwitching c) (cmTunRestoreHeld c) (cmTunBlockedCache c) v (cmTunBlockedAt c) (cmBootSerial c) (cmGeoRetried c) (cmGeoToken c) (cmSettings c) (cmKsWaiting c) (cmRanking c) (cmStartWorker c) (cmStopWorker c) (cmTasks c) (cmOut c).
Definition putTunBlockedAt v c := mkCM (cmRunning c) (cmRunningTun c) (cmLastProfileId c) (cmConnecting c) (cmDisconnecting c) (cmLastState c) (cmStartSerial c) (cmKsDeferred c) (cmCoreRequest c) (cmGuardRestart c) (cmKsWasFailed c) (cmKsWasArmed c) (cmRestartReasons c) (cmMuStarting c) (cmMuStopping c) (cmSwitching c) (cmTunRestoreHeld c) (cmTunBlockedCache c) (cmTunBlockedKey c) v (cmBootSerial c) (cmGeoRetried c) (cmGeoToken c) (cmSettings c) (cmKsWaiting c) (cmRanking c) (cmStartWorker c) (cmStopWorker c) (cmTasks c) (cmOut c).
Definition putBootSerial v c := mkCM (cmRunning c) (cmRunningTun c) (cmLastProfileId c) (cmConnecting c) (cmDisconnecting c) (cmLastState c) (cmStartSerial c) (cmKsDeferred c) (cmCoreRequest c) (cmGuardRestart c) (cmKsWasFailed c) (cmKsWasArmed c) (cmRestartReasons c) (cmMuStarting c) (cmMuStopping c) (cmSwitching c) (cmTunRestoreHeld c) (cmTunBlockedCache c) (cmTunBlockedKey c) (cmTunBlockedAt c) v (cmGeoRetried c) (cmGeoToken c) (cmSettings c) (cmKsWaiting c) (cmRanking c) (cmStartWorker c) (cmStopWorker c) (cmTasks c) (cmOut c).
Definition putGeoRetried v c := mkCM (cmRunning c) (cmRunningTun c) (cmLastProfileId c) (cmConnecting c) (cmDisconnecting c) (cmLastState c) (cmStartSerial c) (cmKsDeferred c) (cmCoreRequest c) (cmGuardRestart c) (cmKsWasFailed c) (cmKsWasArmed c) (cmRestartReasons c) (cmMuStarting c) (cmMuStopping c) (cmSwitching c) (cmTunRestoreHeld c) (cmTunBlockedCache c) (cmTunBlockedKey c) (cmTunBlockedAt c) (cmBootSerial c) v (cmGeoToken c) (cmSettings c) (cmKsWaiting c) (cmRanking c) (cmStartWorker c) (cmStopWorker c) (cmTasks c) (cmOut c).
Definition putGeoToken v c := mkCM (cmRunning c) (cmRunningTun c) (cmLastProfileId c) (cmConnecting c) (cmDisconnecting c) (cmLastState c) (cmStartSerial c) (cmKsDeferred c) (cmCoreRequest c) (cmGuardRestart c) (cmKsWasFailed c) (cmKsWasArmed c) (cmRestartReasons c) (cmMuStarting c) (cmMuStopping c) (cmSwitching c) (cmTunRestoreHeld c) (cmTunBlockedCache c) (cmTunBlockedKey c) (cmTunBlockedAt c) (cmBootSerial c) (cmGeoRetried c) v (cmSettings c) (cmKsWaiting c) (cmRanking c) (cmStartWorker c) (cmStopWorker c) (cmTasks c) (cmOut c).
Definition putSettings v c := mkCM (cmRunning c) (cmRunningTun c) (cmLastProfileId c) (cmConnecting c) (cmDisconnecting c) (cmLastState c) (cmStartSerial c) (cmKsDeferred c) (cmCoreRequest c) (cmGuardRestart c) (cmKsWasFailed c) (cmKsWasArmed c) (cmRestartReasons c) (cmMuStarting c) (cmMuStopping c) (cmSwitching c) (cmTunRestoreHeld c) (cmTunBlockedCache c) (cmTunBlockedKey c) (cmTunBlockedAt c) (cmBootSerial c) (cmGeoRetried c) (cmGeoToken c) v (cmKsWaiting c) (cmRanking c) (cmStartWorker c) (cmStopWorker c) (cmTasks c) (cmOut c).
Definition putKsWaiting v c := mkCM (cmRunning c) (cmRunningTun c) (cmLastProfileId c) (cmConnecting c) (cmDisconnecting c) (cmLastState c) (cmStartSerial c) (cmKsDeferred c) (cmCoreRequest c) (cmGuardRestart c) (cmKsWasFailed c) (cmKsWasArmed c) (cmRestartReasons c) (cmMuStarting c) (cmMuStopping c) (cmSwitching c) (cmTunRestoreHeld c) (cmTunBlockedCache c) (cmTunBlockedKey c) (cmTunBlockedAt c) (cmBootSerial c) (cmGeoRetried c) (cmGeoToken c) (cmSettings c) v (cmRanking c) (cmStartWorker c) (cmStopWorker c) (cmTasks c) (cmOut c).
Definition putRanking v c := mkCM (cmRunning c) (cmRunningTun c) (cmLastProfileId c) (cmConnecting c) (cmDisconnecting c) (cmLastState c) (cmStartSerial c) (cmKsDeferred c) (cmCoreRequest c) (cmGuardRestart c) (cmKsWasFailed c) (cmKsWasArmed c) (cmRestartReasons c) (cmMuStarting c) (cmMuStopping c) (cmSwitching c) (cmTunRestoreHeld c) (cmTunBlockedCache c) (cmTunBlockedKey c) (cmTunBlockedAt c) (cmBootSerial c) (cmGeoRetried c) (cmGeoToken c) (cmSettings c) (cmKsWaiting c) v (cmStartWorker c) (cmStopWorker c) (cmTasks c) (cmOut c).
Definition putStartWorker v c := mkCM (cmRunning c) (cmRunningTun c) (cmLastProfileId c) (cmConnecting c) (cmDisconnecting c) (cmLastState c) (cmStartSerial c) (cmKsDeferred c) (cmCoreRequest c) (cmGuardRestart c) (cmKsWasFailed c) (cmKsWasArmed c) (cmRestartReasons c) (cmMuStarting c) (cmMuStopping c) (cmSwitching c) (cmTunRestoreHeld c) (cmTunBlockedCache c) (cmTunBlockedKey c) (cmTunBlockedAt c) (cmBootSerial c) (cmGeoRetried c) (cmGeoToken c) (cmSettings c) (cmKsWaiting c) (cmRanking c) v (cmStopWorker c) (cmTasks c) (cmOut c).
Definition putStopWorker v c := mkCM (cmRunning c) (cmRunningTun c) (cmLastProfileId c) (cmConnecting c) (cmDisconnecting c) (cmLastState c) (cmStartSerial c) (cmKsDeferred c) (cmCoreRequest c) (cmGuardRestart c) (cmKsWasFailed c) (cmKsWasArmed c) (cmRestartReasons c) (cmMuStarting c) (cmMuStopping c) (cmSwitching c) (cmTunRestoreHeld c) (cmTunBlockedCache c) (cmTunBlockedKey c) (cmTunBlockedAt c) (cmBootSerial c) (cmGeoRetried c) (cmGeoToken c) (cmSettings c) (cmKsWaiting c) (cmRanking c) (cmStartWorker c) v (cmTasks c) (cmOut c).
Definition putTasks v c := mkCM (cmRunning c) (cmRunningTun c) (cmLastProfileId c) (cmConnecting c) (cmDisconnecting c) (cmLastState c) (cmStartSerial c) (cmKsDeferred c) (cmCoreRequest c) (cmGuardRestart c) (cmKsWasFailed c) (cmKsWasArmed c) (cmRestartReasons c) (cmMuStarting c) (cmMuStopping c) (cmSwitching c) (cmTunRestoreHeld c) (cmTunBlockedCache c) (cmTunBlockedKey c) (cmTunBlockedAt c) (cmBootSerial c) (cmGeoRetried c) (cmGeoToken c) (cmSettings c) (cmKsWaiting c) (cmRanking c) (cmStartWorker c) (cmStopWorker c) v (cmOut c).
Definition putOut v c := mkCM (cmRunning c) (cmRunningTun c) (cmLastProfileId c) (cmConnecting c) (cmDisconnecting c) (cmLastState c) (cmStartSerial c) (cmKsDeferred c) (cmCoreRequest c) (cmGuardRestart c) (cmKsWasFailed c) (cmKsWasArmed c) (cmRestartReasons c) (cmMuStarting c) (cmMuStopping c) (cmSwitching c) (cmTunRestoreHeld c) (cmTunBlockedCache c) (cmTunBlockedKey c) (cmTunBlockedAt c) (cmBootSerial c) (cmGeoRetried c) (cmGeoToken c) (cmSettings c) (cmKsWaiting c) (cmRanking c) (cmStartWorker c) (cmStopWorker c) (cmTasks c) v.

Definition putOutput (o : CmOut) (c : CM) : CM := putOut (cmOut c ++ [o]) c.
Definition post (t : UiTask) (c : CM) : CM := putTasks (cmTasks c ++ [t]) c.
Definition onSettings (f : CmSettings -> CmSettings) (c : CM) : CM := putSettings (f (cmSettings c)) c.

(** emit startFinished(...) *)
Definition finished (r : StartRequest) (outcome : StartOutcome) (error : list Message) (c : CM) : CM :=
  putOutput (OutStartFinished (rqSerial r) (rqProfileId r) outcome error) c.
Definition call (p : PolicyCall) (c : CM) : CM := putOutput (OutPolicy p) c.
Definition textOf (s : qstr) : list Message := if isNil s then [] else [MText s].

(** A request that waits for something. *)
Definition queued (r : StartRequest) : bool := rqProfileId r >=? 0.

(** The core's capability report. *)
Record Capabilities := mkCapabilities { capTunDevice : option bool; capNetAdmin : option bool; capPrivileged : bool; capDetail : qstr }.

(** One Xray config's check: whether the call came through, the error, and
    whether it was a missing geo asset. *)
Record XrayCheck := mkXrayCheck { xcOk : bool; xcError : qstr; xcGeo : bool }.

(** What the others answer during a turn. *)
Record Env := mkEnv {
  eNow : Z;
  eKillSwitch : KS;
  eSupervisor : Sup;
  eProfileGid : Z -> option Z;
  eGroupUsable : Z -> bool;
  eRankFirst : bool;
  eBuild : Z -> BuildResult;
  eXrayChecks : list XrayCheck;
  eKnownAdmin : option bool;
  eIsAdmin : bool;
  eCapabilities : option Capabilities;
  ePrivilegesGranted : bool;
  eTunConflict : qstr;
  eKeepsRoute : bool;
  ePolicyAccepts : bool
}.

(** The core's answers to a start. *)
Record StartAnswer := mkStartAnswer { saPermitted : bool; saOk : bool; saError : qstr; saGeo : bool; saOtpError : qstr }.

(** And to a stop. *)
Record StopAnswer := mkStopAnswer { spTesting : bool; spOk : bool; spError : qstr }.

Section ConnectionManager.
Context {Q : QtChar} {H : Host} {O : RuntimeOptions}.

(** ** State *)

Definition connectionState (c : CM) : ConnectionState :=
  if cmConnecting c then CsConnecting
  else if cmDisconnecting c then CsStopping
  else match cmRunning c with Some _ => CsRunning | None => CsIdle end.

Definition syncState (c : CM) : CM :=
  let s := connectionState c in
  if bool_decide (s = cmLastState c) then c
  else putOutput (OutConnectionState s) (putTunBlockedAt 0 (putLastState s c)).

(** A running profile is kept with its group. *)
Definition setRunning (profile : option (Z * Z)) (tun : bool) (c : CM) : CM :=
  putRunningTun (isSome profile && tun) (putRunning profile c).

Definition runningTun (c : CM) : bool := cmRunningTun c.

Definition nextStartSerial (c : CM) : Z * CM :=
  let serial := wrap64 (cmStartSerial c + 1) in (serial, putStartSerial serial c).

Definition resolveLastProfile (e : Env) (c : CM) : Z :=
  let known id := (id >=? 0) && isSome (eProfileGid e id) in
  if known (s_startedId (cmSettings c)) then s_startedId (cmSettings c)
  else if known (cmLastProfileId c) then cmLastProfileId c
  else if known (s_rememberId (cmSettings c)) then s_rememberId (cmSettings c)
  else -1.

Definition clearRestartNeeded (c : CM) : CM :=
  if isNil (cmRestartReasons c) then c else putOutput OutRestartReasons (putRestartReasons [] c).

Definition noteRestartNeeded (reason : RestartReason) (c : CM) : CM :=
  if (s_startedId (cmSettings c) <? 0) || bool_decide (reason ∈ cmRestartReasons c) then c
  else putOutput OutRestartReasons (putRestartReasons (cmRestartReasons c ++ [reason]) c).

Definition restartPending (c : CM) : bool := negb (isNil (cmRestartReasons c)).

(** ** The kill switch's core restart *)

Definition kGuardRestartWindowMs : Z := 15000.

Definition guardRestartPending (e : Env) (c : CM) : bool :=
  match cmGuardRestart c with Some t => negb (kGuardRestartWindowMs <? eNow e - t) | None => false end.

(** CoreSupervisor's answers. *)
Definition runningWithoutGuardIdentity (e : Env) : bool :=
  match hostOs with
  | Windows => false
  | _ =>
      if ksIdentity (eKillSwitch e) then false
      else match supProc (eSupervisor e) with
           | Some p => coreRunning (eSupervisor e) && negb (procGuardIdentity p)
           | None => false
           end
  end.
Definition awaitingCoreStarted (e : Env) : bool := probing (eSupervisor e).
Definition haveCore (e : Env) : bool := isSome (supProc (eSupervisor e)).

Definition deferStartToCore (r : StartRequest) (c : CM) : CM :=
  let c := if queued (cmCoreRequest c) then finished (cmCoreRequest c) Superseded [] c else c in
  putCoreRequest r c.

Definition restartCoreForGuard (e : Env) (r : StartRequest) (c : CM) : CM :=
  if negb (haveCore e) then finished r CoreUnavailable [] c
  else
    let c := deferStartToCore r (putOutput (OutSetStartWhenUp (rqProfileId r)) c) in
    if guardRestartPending e c then c
    else putOutput OutRestartForGuard (putGuardRestart (Some (eNow e)) c).

(** ** Start *)

Definition failStart (r : StartRequest) (outcome : StartOutcome) (error : list Message) (c : CM) : CM :=
  let c := finished r outcome error c in
  if rqInteractive r then call (PolStartFailed r outcome) c else c.

(** The first Xray config that misses a geo asset. *)
Fixpoint geoMissing (checks : list XrayCheck) : option qstr :=
  match checks with
  | [] => None
  | x :: checks' => if xcOk x && xcGeo x then Some (xcError x) else geoMissing checks'
  end.

(** From the locks on, once the config is built. *)
Definition launch (e : Env) (r : StartRequest) (gid : Z) (build : BuildResult) (c : CM) : CM :=
  if cmMuStarting c then failStart r Busy [tr0 "Another profile is starting..."] c
  else if cmMuStopping c then failStart r Busy [tr0 "Another profile is stopping..."] c
  else if awaitingCoreStarted e then putOutput (OutSetStartWhenUp (rqProfileId r)) (deferStartToCore r c)
  else if negb (s_coreRunning (cmSettings c)) then
    if negb (canStartCore (eSupervisor e)) then failStart r CoreUnavailable (textOf (lastFailure (eSupervisor e))) c
    else putOutput (OutRestartNotListening (rqProfileId r)) (deferStartToCore r c)
  else
    let c := syncState (putConnecting true (putMuStarting true c)) in
    putStartWorker (Some (mkStartWorker r gid build WorkerBegin false false)) c.

Definition buildAndLaunch (e : Env) (r : StartRequest) (gid : Z) (c : CM) : CM :=
  let build := eBuild e (rqProfileId r) in
  if negb (isNil (bdError build)) then failStart r BuildFailed (textOf (bdError build)) c
  else
    let missing := if s_coreRunning (cmSettings c) && isSome (cmRunning c) then geoMissing (eXrayChecks e) else None in
    match missing with
    | Some error => finished r GeoAssetsMissing (textOf error) c
    | None => launch e r gid build c
    end.

Definition start (e : Env) (r : StartRequest) (c : CM) : CM :=
  let c := putGeoToken (wrap64 (cmGeoToken c + 1)) c in
  let ks := eKillSwitch e in
  if s_prepareExit (cmSettings c) then finished r Exiting [] c
  else
    match (if rqProfileId r >=? 0 then eProfileGid e (rqProfileId r) else None) with
    | None => finished r NotFound [] c
    | Some gid =>
        let c := putOutput (OutStartDispatching (rqSerial r) (rqProfileId r)) (putLastProfileId (rqProfileId r) c) in
        if negb (eGroupUsable e gid) then finished r GroupUnavailable [] c
        else if isState Arming ks then
          let waiting := queued (cmKsDeferred c) in
          let c := if waiting then finished (cmKsDeferred c) Superseded [] c else c in
          let c := putKsDeferred r c in
          if waiting then c else putOutput OutWhenSettled (putKsWaiting true c)
        else if negb (allowsStart ks) then
          let c := finished r KillSwitchInactive (failureText ks) c in
          if rqInteractive r then call PolKillSwitchProblem c else c
        else if guardRestartPending e c || (isState Armed ks && runningWithoutGuardIdentity e) then restartCoreForGuard e r c
        else if eRankFirst e then putRanking (cmRanking c ++ [r]) c
        else buildAndLaunch e r gid c
    end.

(** The kill switch has settled: the callback of whenSettled. *)
Definition onKillSwitchSettled (e : Env) (c : CM) : CM :=
  let next := cmKsDeferred c in
  let c := putKsDeferred noRequest c in
  if queued next then start e next c else c.

(** ** The start worker *)

Inductive StartResult := StartedOk | NotStarted (outcome : StartOutcome) (error : qstr) (dialog : option UiTask) (coreCalls : list CmOut).

(** profile_start_stage2: the calls and what they come to. *)
Definition startStage2 (w : StartWorker) (a : StartAnswer) : StartResult :=
  let r := swRequest w in
  let id := rqProfileId r in
  if bdExtraCore (swBuild w) && negb (saPermitted a) then NotStarted ExtraCoreBlocked [] (Some UiExtraCoreDialog) []
  else if negb (saOk a) then NotStarted CoreUnavailable [] None [OutCoreStart id]
  else if negb (isNil (saError a)) then
    let error := saError a in
    if saGeo a then NotStarted GeoAssetsMissing error None [OutCoreStart id]
    else if containsCI (u "Fwpm") error then NotStarted StrictRouteUnavailable error (Some (UiStrictRouteDialog error)) [OutCoreStart id]
    else if containsStr (u "configure tun interface") error then
      NotStarted TunFailed error (Some (if containsStr (u "open existing adapter") error then UiRetryTun id error else UiResetCoreOffer)) [OutCoreStart id]
    else NotStarted StartFailed error (Some (UiStartFailedDialog r)) [OutCoreStart id]
  else if negb (isNil (saOtpError a)) then NotStarted StartFailed (saOtpError a) None [OutCoreStart id; OutCoreStop]
  else StartedOk.

(** The worker's block: the transition guard, and the stop of a running profile. *)
Definition workerBegin (stop : StopOptions -> CM -> CM) (w : StartWorker) (c : CM) : CM :=
  let guarded := s_tunMode (cmSettings c) && isSome (cmRunning c) in
  let c := if guarded then putOutput (OutTransitionGuard true) c else c in
  let switching := isSome (cmRunning c) in
  if switching then
    let c := stop (mkStopOptions false true (rqInteractive (swRequest w)) false) (putSwitching true c) in
    putStartWorker (Some (mkStartWorker (swRequest w) (swGid w) (swBuild w) WorkerAwaitStop guarded true)) c
  else putStartWorker (Some (mkStartWorker (swRequest w) (swGid w) (swBuild w) WorkerStart guarded false)) c.

(** The stop's mutex was free. *)
Definition workerStopped (w : StartWorker) (c : CM) : CM :=
  putStartWorker (Some (mkStartWorker (swRequest w) (swGid w) (swBuild w) WorkerStart (swGuarded w) (swSwitching w)))
    (putSwitching false c).

Definition workerStart (w : StartWorker) (a : StartAnswer) (c : CM) : CM :=
  let r := swRequest w in
  let id := rqProfileId r in
  let '(c, started) :=
    match startStage2 w a with
    | StartedOk =>
        let c := putOutput (OutCoreStart id) c in
        let c := setRunning (Some (id, swGid w)) (bdTun (swBuild w)) (onSettings (UpdateStartedId id) c) in
        let c := if s_systemProxy (cmSettings c) then putOutput (OutSystemProxy true) c else c in
        (post (UiStarted r) c, true)
    | NotStarted outcome error dialog calls =>
        let c := post (UiFinish r outcome error) (fold_left (fun c o => putOutput o c) calls c) in
        (match dialog with Some t => if rqInteractive r then post t c else c | None => c end, false)
    end in
  let c := post (UiStartDone started (swSwitching w)) c in
  let c := if swGuarded w then putOutput (OutTransitionGuard false) c else c in
  putMuStarting false (putStartWorker None c).

(** ** Stop *)

(** What stop() does before its worker runs; [ui] when it is called on the main
    thread, where a posted block runs at once. *)
Definition markDisconnecting (c : CM) : CM := syncState (putDisconnecting true c).

Definition stop (ui : bool) (options : StopOptions) (c : CM) : CM :=
  let c := if soManual options then putGeoToken (wrap64 (cmGeoToken c + 1)) c else c in
  match cmRunning c with
  | None =>
      if soManual options && negb (soCrash options) then (if ui then putOutput OutCancelResume c else post UiCancelResume c) else c
  | Some (id, _) =>
      if cmMuStopping c then c
      else
        let c := putMuStopping true c in
        let c := if ui then markDisconnecting c else post UiDisconnecting c in
        putStopWorker (Some (mkStopWorker id options false)) (putOutput OutNoteStopped c)
  end.

(** The worker up to the teardown on the main thread. *)
Definition stopWorkerRun (w : StopWorker) (a : StopAnswer) (c : CM) : CM :=
  let options := stOptions w in
  let c := putOutput OutEndRun c in
  let c := if negb (soSkipTests options) && spTesting a then putOutput OutStopTests c else c in
  let c := if soCrash options then c else putOutput OutCoreStop c in
  let stopped := soCrash options || (spOk a && isNil (spError a)) in
  let c := if negb (soCrash options) && spOk a && negb (isNil (spError a)) && soInteractive options then post (UiStopFailed (spError a)) c else c in
  let c := if stopped && s_systemProxy (cmSettings c) then putOutput (OutSystemProxy false) c else c in
  let c := if soManual options then onSettings (UpdateStartedId NoProfileId) c else c in
  putStopWorker (Some (mkStopWorker (stId w) options true)) (setRunning None false c).

(** The teardown. *)
Definition stopTeardown (w : StopWorker) (c : CM) : CM :=
  let c := if negb (cmSwitching c) then putOutput (OutRunMarker MarkStopped) c else c in
  let c := clearRestartNeeded (putDisconnecting false c) in
  let c := syncState (putOutput (OutNoteRunStopped (stId w) (soManual (stOptions w))) c) in
  putStopWorker None (putOutput (OutStopFinished (stId w)) (putMuStopping false c)).

(** ** Posted tasks *)

Definition retryTun (e : Env) (id : Z) (c : CM) : CM :=
  if negb (ePolicyAccepts e) then c
  else if s_prepareExit (cmSettings c) || negb (bool_decide (connectionState c = CsIdle)) then c
  else start e (mkRequest id true 0) c.

Definition runUiTask (e : Env) (t : UiTask) (c : CM) : CM :=
  match t with
  | UiFinish r outcome error => finished r outcome (textOf error) c
  | UiStarted r =>
      finished r Started [] (putOutput OutNoteRunStarted (clearRestartNeeded (putGeoRetried (-1) c)))
  | UiStartDone started switching =>
      let c := syncState (putConnecting false c) in
      if started then putOutput (OutRunMarker (if switching then MarkSwitched else MarkStarted)) c
      else if switching then putOutput (OutRunMarker MarkStopped) c
      else c
  | UiDisconnecting => markDisconnecting c
  | UiCancelResume => putOutput OutCancelResume c
  | UiStopFailed error => call (PolStopFailed error) c
  | UiExtraCoreDialog =>
      call (if isState Failed (eKillSwitch e) then PolKillSwitchProblem else PolExtraCoreNotPermitted) c
  | UiStrictRouteDialog error => call (PolStrictRouteUnavailable error) c
  | UiRetryTun id _ => retryTun e id c
  | UiResetCoreOffer => if ePolicyAccepts e then putOutput OutResetCore c else c
  | UiStartFailedDialog r => call (PolStartFailed r StartFailed) c
  end.

(** ** Restarts *)

Definition restartStartedProfile (e : Env) (interactive : bool) (restartSerial : Z) (c : CM) : bool * CM :=
  let id := s_startedId (cmSettings c) in
  if id <? 0 then (false, c) else (true, start e (mkRequest id interactive restartSerial) c).

Definition applyPendingRestart (e : Env) (c : CM) : CM :=
  let id := s_startedId (cmSettings c) in
  let c := clearRestartNeeded c in
  if id >=? 0 then start e (mkRequest id true 0) c else c.

Definition retryAfterGeoFetch (e : Env) (profileId token : Z) (c : CM) : CM :=
  if negb (token =? cmGeoToken c) then c
  else if cmGeoRetried c =? profileId then c
  else
    let c := putGeoRetried profileId c in
    if s_prepareExit (cmSettings c) || negb (bool_decide (connectionState c = CsIdle)) || negb (cmLastProfileId c =? profileId) then c
    else start e (mkRequest profileId false 0) c.

(** ** Modes *)

Definition capFalse (b : option bool) : bool := match b with Some false => true | _ => false end.

Definition tunCapsBlocker (e : Env) (canElevate : bool) : qstr :=
  match eCapabilities e with
  | None => []
  | Some caps =>
      if negb (capFalse (capTunDevice caps)) && negb (capFalse (capNetAdmin caps)) then []
      else if canElevate && negb (capPrivileged caps) then []
      else if negb (isNil (capDetail caps)) then capDetail caps
      else if capFalse (capTunDevice caps) then u "the core cannot open /dev/net/tun"
      else u "the core lacks CAP_NET_ADMIN"
  end.

Definition tunPrivileged (e : Env) : bool :=
  match hostOs with
  | Windows => eIsAdmin e
  | _ => match eKnownAdmin e with Some known => known | None => optBlockingPrivilegeCheck && eIsAdmin e end
  end.

Definition ensureTunPrivileges (e : Env) (interactive : bool) (c : CM) : bool * CM :=
  if s_disablePrivilegeReq (cmSettings c) then (true, c)
  else if negb (isNil (tunCapsBlocker e interactive)) then (false, c)
  else if tunPrivileged e then (true, c)
  else if negb interactive then (false, c)
  else (ePrivilegesGranted e, call PolRequestCorePrivileges c).

Definition kTunBlockedCacheMs : Z := 5000.

Definition sameKey (a b : qstr * Z) : bool := eqStr (fst a) (fst b) && (snd a =? snd b).

Definition tunBlockedReason (e : Env) (c : CM) : qstr * CM :=
  if s_tunMode (cmSettings c) || runningTun c then ([], c)
  else
    match connectionState c with
    | CsConnecting | CsStopping => ([], c)
    | _ =>
        let key := (s_tunIpv4Cidr (cmSettings c), if isSome (cmRunning c) then 0 else s_coreDnsInPort (cmSettings c)) in
        if negb (cmTunBlockedAt c =? 0) && sameKey key (cmTunBlockedKey c) && (eNow e - cmTunBlockedAt c <? kTunBlockedCacheMs)
        then (cmTunBlockedCache c, c)
        else
          (eTunConflict e, putTunBlockedAt (Z.max (eNow e) 1) (putTunBlockedKey key (putTunBlockedCache (eTunConflict e) c)))
    end.

Definition tunRestoreHoldReason (e : Env) (c : CM) : qstr * CM :=
  let '(why, c) := tunBlockedReason e c in
  if negb (isNil why) then (why, c)
  else
    let why := tunCapsBlocker e false in
    if negb (isNil why) then (why, c) else (u "the core lacks the privileges Tun needs", c).

Definition saveSettings (f : CmSettings -> CmSettings) (c : CM) : CM := putOutput OutSettingsSaved (onSettings f c).

Definition setSystemProxy (e : Env) (enable : bool) (change : ModeChange) (c : CM) : bool * CM :=
  if negb optSystemProxy then (false, c)
  else if enable && s_disableMixedInbound (cmSettings c) then
    (false, if mcInteractive change then call PolSystemProxyNeedsMixedInbound c else c)
  else
    let c := onSettings (saveSystemProxy enable) c in
    let '(restarted, c) :=
      match cmRunning c with
      | None => (false, c)
      | Some (id, _) =>
          let c := putOutput (OutSystemProxy enable) c in
          if negb enable && s_resetProxyOnDisable (cmSettings c) && mcRestart change
          then (true, start e (mkRequest id (mcInteractive change) (mcRestartSerial change)) c)
          else (false, c)
      end in
    (restarted, if mcSave change then saveSettings (saveRememberSystemProxy enable) c else c).

(** Whether setTun may go on: not blocked, and privileged if it is to enable. *)
Definition tunAllowed (e : Env) (enable : bool) (change : ModeChange) (c : CM) : bool * CM :=
  let '(why, c) := if enable then tunBlockedReason e c else ([], c) in
  if negb (isNil why) then (false, c)
  else if enable && (negb (tunPrivileged e) || negb (isNil (tunCapsBlocker e true)))
  then ensureTunPrivileges e (mcInteractive change) c
  else (true, c).

Definition setTun (e : Env) (enable : bool) (change : ModeChange) (c : CM) : bool * CM :=
  let c :=
    if negb enable && cmTunRestoreHeld c then
      let c := putTunRestoreHeld false c in
      if mcSave change then saveSettings (saveRememberTun false) c else c
    else c in
  if Bool.eqb enable (s_tunMode (cmSettings c)) then (false, c)
  else
    let '(allowed, c) := tunAllowed e enable change c in
    if negb allowed then (false, c)
    else
      let c := putTunBlockedAt 0 (putTunRestoreHeld false c) in
      let c := if mcSave change then saveSettings (saveRememberTun enable) c else c in
      let c := onSettings (saveTunMode enable) c in
      if negb (mcRestart change) || (s_startedId (cmSettings c) <? 0) then (false, c)
      else (true, start e (mkRequest (s_startedId (cmSettings c)) (mcInteractive change) (mcRestartSerial change)) c).

Definition chooseRoute (e : Env) (routeId : Z) (interactive : bool) (restartSerial : Z) (c : CM) : bool * CM :=
  if s_currentRoute (cmSettings c) =? routeId then (false, c)
  else
    let c := saveSettings (saveCurrentRoute routeId) c in
    if s_startedId (cmSettings c) <? 0 then (false, c)
    else if isSome (cmRunning c) && eKeepsRoute e then (false, c)
    else (true, start e (mkRequest (s_startedId (cmSettings c)) interactive restartSerial) c).

Definition disableKillSwitch (c : CM) : CM := putOutput OutKillSwitchApply (saveSettings (saveKillSwitchOn false) c).

(** ** Signals of the kill switch and the supervisor *)

Definition onKillSwitchStateChanged (e : Env) (c : CM) : CM :=
  let failed := isState Failed (eKillSwitch e) in
  let armed := isState Armed (eKillSwitch e) in
  let enteredFailed := failed && negb (cmKsWasFailed c) in
  let enteredArmed := armed && negb (cmKsWasArmed c) in
  let c := putKsWasArmed armed (putKsWasFailed failed c) in
  let c := if negb failed then call PolKillSwitchProblemResolved c else c in
  let c := if enteredFailed then call PolKillSwitchProblem c else c in
  if enteredArmed && negb (guardRestartPending e c) && runningWithoutGuardIdentity e then
    if awaitingCoreStarted e && (startWhenUp (eSupervisor e) >=? 0) then
      if queued (cmCoreRequest c) then restartCoreForGuard e (cmCoreRequest c) (putCoreRequest noRequest c)
      else restartCoreForGuard e (mkRequest (startWhenUp (eSupervisor e)) true 0) c
    else restartCoreForGuard e (mkRequest (s_startedId (cmSettings c)) true 0) c
  else c.

Definition setBootStart (r : StartRequest) (c : CM) : CM := deferStartToCore r (putBootSerial (rqSerial r) c).

(** The remembered modes, and why the Tun is held if it is. *)
Definition restoreModes (e : Env) (c : CM) : list Message * CM :=
  let s := cmSettings c in
  if optHeadless then
    let wantTun := s_rememberTun s || s_restartTunOn s in
    let c := if wantTun then onSettings (saveRestartTunOn false) (snd (setTun e true (mkModeChange false false false 0) c)) else c in
    let held := optTunRequired && wantTun && negb (s_tunMode (cmSettings c)) in
    let c := putTunRestoreHeld held c in
    if held then let '(why, c) := tunRestoreHoldReason e c in (textOf why, c) else ([], c)
  else
    let c := if s_rememberEnable s && s_rememberSystemProxy s then snd (setSystemProxy e true (mkModeChange false true true 0) c) else c in
    let c :=
      if (s_rememberEnable s && s_rememberTun s) || s_restartTunOn s
      then onSettings (saveRestartTunOn false) (snd (setTun e true (mkModeChange (s_restartTunOn s) true true 0) c))
      else c in
    ([], c).

(** The start the core's connection carries. *)
Definition startCarried (e : Env) (id : Z) (why : list Message) (c : CM) : CM :=
  let r := cmCoreRequest c in
  let bootSerial := cmBootSerial c in
  let c := putBootSerial 0 (putCoreRequest noRequest c) in
  let c := if queued r && negb (rqProfileId r =? id) then finished r Superseded [] c else c in
  if id >=? 0 then
    let next := if rqProfileId r =? id then r else mkRequest id true 0 in
    if cmTunRestoreHeld c && negb (rqSerial next =? 0) && (rqSerial next =? bootSerial) then
      finished next TunFailed [MTr (u "Tun could not be restored (%1); the profile was not started without it.") why] c
    else start e next c
  else c.

Definition onCoreStarted (e : Env) (profileId : Z) (c : CM) : CM :=
  let c := putGuardRestart None c in
  let c := if failedForPrivileges (eKillSwitch e) then putOutput OutKillSwitchApply c else c in
  let '(why, c) := restoreModes e c in
  startCarried e profileId why c.

Definition onCoreGaveUp (reason : qstr) (c : CM) : CM :=
  let c := putGuardRestart None c in
  let r := cmCoreRequest c in
  let c := putCoreRequest noRequest c in
  if queued r then finished r CoreUnavailable (textOf reason) c else c.

(** ** Turns *)

Inductive CmEvent :=
| EvStart (r : StartRequest)
| EvBootStart (r : StartRequest)
| EvRestartStarted (interactive : bool) (serial : Z)
| EvApplyPendingRestart
| EvStop (ui : bool) (options : StopOptions)
| EvSetTun (enable : bool) (change : ModeChange)
| EvSetSystemProxy (enable : bool) (change : ModeChange)
| EvChooseRoute (routeId : Z) (interactive : bool) (serial : Z)
| EvDisableKillSwitch
| EvNoteRestart (reason : RestartReason)
| EvKillSwitchChanged
| EvKillSwitchSettled
| EvCoreStarted (profileId : Z)
| EvCoreGaveUp (reason : qstr)
| EvRanked (n : nat)
| EvGeoInstalled (profileId token : Z)
| EvTunQuery
| EvSettings (s : CmSettings)
| EvWorkerBegin
| EvWorkerStopped
| EvWorkerStart (a : StartAnswer)
| EvStopWorker (a : StopAnswer)
| EvTeardown
| EvTask.

(** A worker's event comes only when it is at that point; the stop's mutex must
    be free for the start worker to pass it. *)
Definition workerEvent (p : StartPhase -> bool) (f : StartWorker -> CM -> CM) (c : CM) : CM :=
  match cmStartWorker c with Some w => if p (swPhase w) then f w c else c | None => c end.

Definition isBegin (p : StartPhase) : bool := match p with WorkerBegin => true | _ => false end.
Definition isAwait (p : StartPhase) : bool := match p with WorkerAwaitStop => true | _ => false end.
Definition isStart (p : StartPhase) : bool := match p with WorkerStart => true | _ => false end.

(** The teardown comes after what its stop posted before. *)
Definition isDisconnecting (t : UiTask) : bool := match t with UiDisconnecting => true | _ => false end.

Definition cmStep (e : Env) (ev : CmEvent) (c : CM) : CM :=
  match ev with
  | EvStart r => start e r c
  | EvBootStart r => setBootStart r c
  | EvRestartStarted interactive serial => snd (restartStartedProfile e interactive serial c)
  | EvApplyPendingRestart => applyPendingRestart e c
  | EvStop ui options => stop ui options c
  | EvSetTun enable change => snd (setTun e enable change c)
  | EvSetSystemProxy enable change => snd (setSystemProxy e enable change c)
  | EvChooseRoute routeId interactive serial => snd (chooseRoute e routeId interactive serial c)
  | EvDisableKillSwitch => disableKillSwitch c
  | EvNoteRestart reason => noteRestartNeeded reason c
  | EvKillSwitchChanged => onKillSwitchStateChanged e c
  | EvKillSwitchSettled => if cmKsWaiting c then onKillSwitchSettled e (putKsWaiting false c) else c
  | EvCoreStarted id => onCoreStarted e id c
  | EvCoreGaveUp reason => onCoreGaveUp reason c
  | EvRanked n =>
      match cmRanking c !! n with
      | Some r => start e r (putRanking (delete n (cmRanking c)) c)
      | None => c
      end
  | EvGeoInstalled id token => retryAfterGeoFetch e id token c
  | EvTunQuery => snd (tunBlockedReason e c)
  | EvSettings s => putSettings s c
  | EvWorkerBegin => workerEvent isBegin (workerBegin (stop false)) c
  | EvWorkerStopped => if cmMuStopping c then c else workerEvent isAwait workerStopped c
  | EvWorkerStart a => workerEvent isStart (fun w => workerStart w a) c
  | EvStopWorker a => match cmStopWorker c with Some w => if stTornDown w then c else stopWorkerRun w a c | None => c end
  | EvTeardown =>
      match cmStopWorker c with
      | Some w => if stTornDown w && negb (existsb isDisconnecting (cmTasks c)) then stopTeardown w c else c
      | None => c
      end
  | EvTask => match cmTasks c with t :: tasks => runUiTask e t (putTasks tasks c) | [] => c end
  end.

Definition cmInit (s : CmSettings) : CM :=
  mkCM None false (s_rememberId s) false false CsIdle 0 noRequest noRequest None false false [] false false false false
    [] ([], 0) 0 0 (-1) 0 s false [] None None [] [].

Inductive cmReachable : CM -> Prop :=
| cm_init s : cmReachable (cmInit s)
| cm_step e ev c : cmReachable c -> cmReachable (cmStep e ev c).

End ConnectionManager.
