(* ===== verification/ConnectionFacts.v ===== *)
(** The books of the connection manager: every request that was made is answered
    or waits in one place, and the core gets no start while a run is up. *)
From stdpp Require Import base list strings.
From Stdlib Require Import ZArith Lia Bool.
From S2P Require Import Prelude Json Supervisor KillSwitch ConnectionManager.

(** ** Where requests are *)

Definition count (serial : Z) (r : StartRequest) : Z := if rqSerial r =? serial then 1 else 0.
Definition inSlot (serial : Z) (r : StartRequest) : Z := if queued r then count serial r else 0.

Definition answerOf (serial : Z) (o : CmOut) : Z :=
  match o with OutStartFinished s _ _ _ => if s =? serial then 1 else 0 | _ => 0 end.
Definition taskOf (serial : Z) (t : UiTask) : Z :=
  match t with UiFinish r _ _ | UiStarted r => count serial r | _ => 0 end.
Definition workerOf (serial : Z) (w : option StartWorker) : Z :=
  match w with Some w => count serial (swRequest w) | None => 0 end.

(** How often a serial was answered, and in how many places it waits: with the
    kill switch, with the core, with a ranking, with the start worker, or as an
    answer posted to the main thread. *)
Definition answers (serial : Z) (c : CM) : Z := sumOf (answerOf serial) (cmOut c).
Definition waiting (serial : Z) (c : CM) : Z :=
  inSlot serial (cmKsDeferred c) + inSlot serial (cmCoreRequest c) + sumOf (count serial) (cmRanking c) +
  workerOf serial (cmStartWorker c) + sumOf (taskOf serial) (cmTasks c).
Definition ledger (serial : Z) (c : CM) : Z := answers serial c + waiting serial c.

(** What the start worker's phase says of the run: a start at the core finds no
    run and no stop on its way to the core. *)
Definition phaseOk (c : CM) (p : StartPhase) : Prop :=
  match p with
  | WorkerBegin => forall s, cmStopWorker c = Some s -> stTornDown s = true -> cmRunning c = None
  | WorkerAwaitStop => cmRunning c = None \/ exists s, cmStopWorker c = Some s /\ stTornDown s = false
  | WorkerStart => cmRunning c = None
  end.

(** A mutex is held exactly while its worker lives, a deferred start has its
    callback. *)
Record cmOk (c : CM) : Prop := {
  ok_starting : cmMuStarting c = isSome (cmStartWorker c);
  ok_stopping : cmMuStopping c = isSome (cmStopWorker c);
  ok_deferred : cmKsWaiting c = queued (cmKsDeferred c);
  ok_stop : forall w, cmStopWorker c = Some w -> stTornDown w = false -> cmRunning c <> None;
  ok_start : forall w, cmStartWorker c = Some w -> phaseOk c (swPhase w)
}.

Definition isCoreStart (o : CmOut) : bool := match o with OutCoreStart _ => true | _ => false end.

(** A stretch of the main thread or of a worker that takes in [n] requests of the
    serial, starts nothing at the core, and makes a start worker only if the kill
    switch lets a profile start. *)
Record books (e : Env) (serial n : Z) (c c' : CM) : Prop := {
  bk_ok : cmOk c -> cmOk c';
  bk_ledger : cmOk c -> ledger serial c' = ledger serial c + n;
  bk_out : exists new, cmOut c' = cmOut c ++ new /\ forallb (fun o => negb (isCoreStart o)) new = true;
  bk_launch : cmStartWorker c = None -> cmStartWorker c' <> None -> allowsStart (eKillSwitch e) = true
}.

(** An update that leaves the start worker. *)
Ltac same_worker := let K1 := fresh in let K2 := fresh in intros K1 K2; by destruct (K2 K1).

Lemma books_trans e serial n m c c1 c2 : books e serial n c c1 -> books e serial m c1 c2 -> books e serial (n + m) c c2.
Proof.
  intros [O1 L1 (a & A & HA) W1] [O2 L2 (b & B & HB) W2]. split; [auto|intros Hc; rewrite (L2 (O1 Hc)), (L1 Hc); lia| |].
  - exists (a ++ b). by rewrite B, A, <- app_assoc, forallb_app, HA, HB.
  - intros Hn. destruct (cmStartWorker c1); auto.
Qed.

Lemma books_refl e serial c : books e serial 0 c c.
Proof. split; [done|lia|exists []; by rewrite app_nil_r|done]. Qed.

Lemma books_n e serial n m c c' : books e serial n c c' -> n = m -> books e serial m c c'.
Proof. by intros H <-. Qed.

(** An update of members that hold no request, no worker and no lock. *)
Ltac books_same :=
  split; [intros []; by split|intros _; rewrite Z.add_0_r; reflexivity|exists []; by rewrite app_nil_r|same_worker].

Lemma books_output e serial o c : isCoreStart o = false -> books e serial (answerOf serial o) c (putOutput o c).
Proof.
  intros Ho. split; [intros []; by split| |exists [o]; split; [done|cbn; by rewrite Ho]|same_worker].
  intros _. unfold ledger, answers, waiting, putOutput. cbn [cmOut cmKsDeferred cmCoreRequest cmRanking cmStartWorker cmTasks putOut].
  rewrite sumOf_app. cbn. lia.
Qed.

Lemma books_post e serial t c : books e serial (taskOf serial t) c (post t c).
Proof.
  split; [intros []; by split| |exists []; by rewrite app_nil_r|same_worker].
  intros _. unfold ledger, answers, waiting, post. cbn [cmOut cmKsDeferred cmCoreRequest cmRanking cmStartWorker cmTasks putTasks].
  rewrite sumOf_app. cbn. lia.
Qed.

Section Books.
Context {Q : QtChar} {H : Host} {O : RuntimeOptions}.
Context (e : Env) (serial : Z).

Lemma books_finished r outcome error c : books e serial (count serial r) c (finished r outcome error c).
Proof. by apply (books_output e serial (OutStartFinished (rqSerial r) (rqProfileId r) outcome error)). Qed.

Lemma books_step n m c c1 c2 : books e serial n c c1 -> books e serial m c1 c2 -> forall k, n + m = k -> books e serial k c c2.
Proof. intros H1 H2 k <-. by eapply books_trans. Qed.

Lemma books_call p c : books e serial 0 c (call p c).
Proof. by apply (books_output e serial (OutPolicy p)). Qed.

Lemma books_sync c : books e serial 0 c (syncState c).
Proof.
  unfold syncState. destruct (bool_decide _); [apply books_refl|].
  eapply books_step; [|by apply books_output|]; [instantiate (1 := 0); books_same|done].
Qed.

Lemma books_clear c : books e serial 0 c (clearRestartNeeded c).
Proof.
  unfold clearRestartNeeded. destruct (isNil _); [apply books_refl|].
  eapply books_step; [|by apply books_output|]; [instantiate (1 := 0); books_same|done].
Qed.

(** Peeling an update off the end of a stretch. *)
Lemma books_then n m c c1 c2 : books e serial n c c1 -> books e serial m c1 c2 -> books e serial (n + m) c c2.
Proof. apply books_trans. Qed.

Lemma books_then0 n c c1 c2 : books e serial n c c1 -> books e serial 0 c1 c2 -> books e serial n c c2.
Proof. intros H1 H2. eapply books_step; [exact H1|exact H2|lia]. Qed.

Lemma books_silent n o c c1 : isCoreStart o = false -> answerOf serial o = 0 -> books e serial n c c1 -> books e serial n c (putOutput o c1).
Proof. intros Ho Ha Hb. eapply books_then0; [exact Hb|]. rewrite <- Ha. by apply books_output. Qed.

Lemma books_posted n t c c1 : taskOf serial t = 0 -> books e serial n c c1 -> books e serial n c (post t c1).
Proof. intros Ha Hb. eapply books_then0; [exact Hb|]. rewrite <- Ha. by apply books_post. Qed.

Lemma books_settings n f c c1 : books e serial n c c1 -> books e serial n c (onSettings f c1).
Proof. intros Hb. eapply books_then0; [exact Hb|]. books_same. Qed.

Lemma books_disc n v c c1 : books e serial n c c1 -> books e serial n c (putDisconnecting v c1).
Proof. intros Hb. eapply books_then0; [exact Hb|]. books_same. Qed.

(** ** Start *)

Lemma books_core r c : books e serial (inSlot serial r - inSlot serial (cmCoreRequest c)) c (putCoreRequest r c).
Proof.
  split; [intros []; by split| |exists []; by rewrite app_nil_r|same_worker]. intros _. unfold ledger, answers, waiting. cbn [cmOut cmKsDeferred cmCoreRequest cmRanking cmStartWorker cmTasks putCoreRequest]. lia.
Qed.

Lemma books_defer r c : books e serial (inSlot serial r) c (deferStartToCore r c).
Proof.
  unfold deferStartToCore. cbv zeta. destruct (queued (cmCoreRequest c)) eqn:E.
  - eapply books_step; [apply books_finished|apply books_core|]. cbn [cmCoreRequest finished putOutput putOut]. unfold inSlot at 2. rewrite E. lia.
  - eapply books_n; [apply books_core|]. unfold inSlot at 2. rewrite E. lia.
Qed.

(** A request that counts in a slot. *)
Definition countable (r : StartRequest) : Prop := queued r = true \/ rqSerial r <> serial.

Lemma countable_slot r : countable r -> inSlot serial r = count serial r.
Proof. unfold inSlot, count. intros [-> |Hne]; [done|]. rewrite (proj2 (Z.eqb_neq _ _) Hne). by destruct (queued r). Qed.

Lemma books_guard r c : countable r -> books e serial (count serial r) c (restartCoreForGuard e r c).
Proof.
  intros Hr. unfold restartCoreForGuard. cbv zeta. destruct (negb _); [apply books_finished|].
  set (c1 := deferStartToCore _ _). assert (H1 : books e serial (count serial r) c c1).
  { eapply books_step; [|apply books_defer|rewrite countable_slot by done; apply Z.add_0_l]. apply books_silent; [done..|apply books_refl]. }
  clearbody c1. destruct (guardRestartPending _ _); [done|]. apply books_silent; [done..|].
  eapply books_then0; [exact H1|books_same].
Qed.

Lemma books_failStart r outcome error c : books e serial (count serial r) c (failStart r outcome error c).
Proof.
  unfold failStart. cbv zeta. destruct (rqInteractive r); [|apply books_finished].
  eapply books_then0; [apply books_finished|apply books_call].
Qed.

(** The start worker takes the request over. *)
Lemma books_worker r gid build c : allowsStart (eKillSwitch e) = true -> cmMuStarting c = false -> cmMuStopping c = false ->
  books e serial (count serial r) c
    (putStartWorker (Some (mkStartWorker r gid build WorkerBegin false false)) (syncState (putConnecting true (putMuStarting true c)))).
Proof.
  intros Hks Hm Hm2. set (c1 := putConnecting true (putMuStarting true c)).
  assert (Hs : exists new, cmOut (syncState c1) = cmOut c ++ new /\ sumOf (answerOf serial) new = 0 /\ forallb (fun o => negb (isCoreStart o)) new = true /\
    syncState c1 = putOut (cmOut c ++ new) (putTunBlockedAt (cmTunBlockedAt (syncState c1)) (putLastState (cmLastState (syncState c1)) c1))).
  { unfold syncState. destruct (bool_decide _); [exists []|eexists [_]]; cbn; rewrite ?app_nil_r; repeat split; by destruct c. }
  destruct Hs as (new & Ho & Ha & Hn & Es). rewrite Es. split.
  - intros [H1 H2 H3 H4 H5]. split; try done. intros w [= <-] s Hs. cbn in Hs. rewrite Hs in H2. cbn in H2. congruence.
  - intros [H1 _ _ _ _]. unfold ledger, answers, waiting. cbn [cmOut cmKsDeferred cmCoreRequest cmRanking cmStartWorker cmTasks putStartWorker putOut putTunBlockedAt putLastState c1 putConnecting putMuStarting].
    rewrite sumOf_app, Ha. rewrite H1 in Hm. destruct (cmStartWorker c); [done|]. cbn [workerOf swRequest]. lia.
  - by exists new.
  - done.
Qed.

Lemma books_launch r gid build c : countable r -> allowsStart (eKillSwitch e) = true -> books e serial (count serial r) c (launch e r gid build c).
Proof.
  intros Hr Hks. unfold launch. destruct (cmMuStarting c) eqn:Em; [apply books_failStart|]. destruct (cmMuStopping c) eqn:Em2; [apply books_failStart|].
  assert (Hd : books e serial (count serial r) c (deferStartToCore r c)) by (eapply books_n; [apply books_defer|by apply countable_slot]).
  destruct (awaitingCoreStarted e); [by apply books_silent|]. destruct (negb _); [|by apply books_worker].
  destruct (negb _); [apply books_failStart|by apply books_silent].
Qed.

Lemma books_build r gid c : countable r -> allowsStart (eKillSwitch e) = true -> books e serial (count serial r) c (buildAndLaunch e r gid c).
Proof.
  intros Hr Hks. unfold buildAndLaunch. cbv zeta. destruct (negb _); [apply books_failStart|].
  destruct (if _ : bool then _ else _); [apply books_finished|by apply books_launch].
Qed.

(** Deferring to the kill switch; the slot's callback is registered once. *)
Lemma books_ksDeferred r c : queued r = true -> books e serial (count serial r) c
  (let waiting := queued (cmKsDeferred c) in
   let c1 := if waiting then finished (cmKsDeferred c) Superseded [] c else c in
   let c1 := putKsDeferred r c1 in
   if waiting then c1 else putOutput OutWhenSettled (putKsWaiting true c1)).
Proof.
  intros Hr. cbv zeta. destruct (queued (cmKsDeferred c)) eqn:E.
  - split; [intros [? ? H3 ? ?]; split; try done; cbn; by rewrite Hr, H3, E| |by eexists [_]|same_worker].
    intros _. unfold ledger, answers, waiting, finished, putOutput. cbn [cmOut cmKsDeferred cmCoreRequest cmRanking cmStartWorker cmTasks putKsDeferred putOut].
    rewrite sumOf_app. unfold inSlot, count. rewrite Hr, E. cbn. lia.
  - split; [intros [? ? H3 ? ?]; split; try done; cbn; by rewrite Hr| |by eexists [_]|same_worker].
    intros _. unfold ledger, answers, waiting, putOutput. cbn [cmOut cmKsDeferred cmCoreRequest cmRanking cmStartWorker cmTasks putKsDeferred putKsWaiting putOut].
    rewrite sumOf_app. unfold inSlot, count. rewrite Hr, E. cbn. lia.
Qed.

Lemma books_start r c : books e serial (count serial r) c (start e r c).
Proof.
  unfold start. cbv zeta. eapply books_step; [instantiate (2 := 0); instantiate (1 := putGeoToken (wrap64 (cmGeoToken c + 1)) c); books_same| |apply Z.add_0_l].
  generalize (putGeoToken (wrap64 (cmGeoToken c + 1)) c). clear c. intros c. destruct (s_prepareExit _); [apply books_finished|].
  destruct (rqProfileId r >=? 0) eqn:Eq; [|apply books_finished]. destruct (eProfileGid e (rqProfileId r)) as [gid|]; [|apply books_finished].
  assert (Hr : countable r) by (by left).
  set (c1 := putOutput _ _). assert (H1 : books e serial 0 c c1) by (apply books_silent; [done..|books_same]). clearbody c1.
  eapply books_step; [exact H1| |apply Z.add_0_l]. destruct (negb _); [apply books_finished|].
  destruct (isState Arming _); [by apply books_ksDeferred|]. destruct (allowsStart (eKillSwitch e)) eqn:Eks; cbn [negb].
  2: { destruct (rqInteractive r); [eapply books_then0; [apply books_finished|apply books_call]|apply books_finished]. }
  destruct (_ || _); [by apply books_guard|]. destruct (eRankFirst e); [|by apply books_build].
  split; [intros []; by split| |exists []; by rewrite app_nil_r|same_worker]. intros _. unfold ledger, answers, waiting.
  cbn [cmOut cmKsDeferred cmCoreRequest cmRanking cmStartWorker cmTasks putRanking]. rewrite sumOf_app. cbn. lia.
Qed.

(** The settled kill switch takes the deferred request out and starts it. *)
Lemma books_settled c : cmKsWaiting c = true -> books e serial 0 c (onKillSwitchSettled e (putKsWaiting false c)).
Proof.
  intros Hw. unfold onKillSwitchSettled. cbv zeta. change (cmKsDeferred (putKsWaiting false c)) with (cmKsDeferred c).
  set (c1 := putKsDeferred noRequest (putKsWaiting false c)).
  assert (H1 : books e serial (- inSlot serial (cmKsDeferred c)) c c1).
  { split; [intros []; by split| |exists []; by rewrite app_nil_r|same_worker]. intros _. unfold ledger, answers, waiting, c1.
    cbn [cmOut cmKsDeferred cmCoreRequest cmRanking cmStartWorker cmTasks putKsDeferred putKsWaiting].
    change (inSlot serial noRequest) with 0. lia. }
  clearbody c1. unfold inSlot in H1. destruct (queued (cmKsDeferred c)); [|exact H1].
  eapply books_step; [exact H1|apply books_start|lia].
Qed.

(** ** The workers *)

Lemma books_disconnecting c : books e serial 0 c (markDisconnecting c).
Proof. unfold markDisconnecting. eapply books_step; [|apply books_sync|apply Z.add_0_l]. books_same. Qed.

(** A stop worker begins. *)
Lemma books_stopBegin w c : cmMuStopping c = false -> cmRunning c <> None -> stTornDown w = false ->
  books e serial 0 c (putStopWorker (Some w) (putMuStopping true c)).
Proof.
  intros Hm Hr Hw. split; [|intros _; rewrite Z.add_0_r; reflexivity|exists []; by rewrite app_nil_r|same_worker].
  intros [H1 H2 H3 H4 H5]. split; try done; cbn. intros w' Hw'. specialize (H5 w' Hw').
  destruct (swPhase w'); [|right; by exists w|done]. intros s [= <-]. congruence.
Qed.

Lemma stopWorker_disconnecting w o c :
  putStopWorker w (putOutput o (markDisconnecting c)) = putOutput o (markDisconnecting (putStopWorker w c)).
Proof. unfold markDisconnecting, syncState, connectionState. cbn. by destruct (bool_decide _). Qed.

Lemma books_stop ui options c : books e serial 0 c (stop ui options c).
Proof.
  unfold stop. cbv zeta. set (c1 := if soManual options then _ else c).
  assert (H1 : books e serial 0 c c1) by (unfold c1; destruct (soManual options); [books_same|apply books_refl]).
  clearbody c1. eapply books_step; [exact H1| |apply Z.add_0_l]. clear H1 c. rename c1 into c.
  destruct (cmRunning c) as [[id gid]|] eqn:Er.
  - destruct (cmMuStopping c) eqn:Em; [apply books_refl|].
    set (w := mkStopWorker id options false).
    assert (H2 : books e serial 0 c (putStopWorker (Some w) (putMuStopping true c))) by (apply books_stopBegin; [done|by rewrite Er|done]).
    eapply books_step; [exact H2| |apply Z.add_0_l].
    destruct ui.
    + rewrite stopWorker_disconnecting. apply books_silent; [done..|apply books_disconnecting].
    + change (putStopWorker (Some w) (putOutput OutNoteStopped (post UiDisconnecting (putMuStopping true c))))
        with (putOutput OutNoteStopped (post UiDisconnecting (putStopWorker (Some w) (putMuStopping true c)))).
      apply books_silent; [done..|]. apply books_posted; [done|apply books_refl].
  - destruct (_ && _); [|apply books_refl]. destruct ui; [apply books_silent; [done..|apply books_refl]|apply books_posted; [done|apply books_refl]].
Qed.

Lemma stop_kept ui options c :
  cmStartWorker (stop ui options c) = cmStartWorker c /\ cmRunning (stop ui options c) = cmRunning c /\
  (cmMuStopping c = true -> cmStopWorker (stop ui options c) = cmStopWorker c) /\
  (cmMuStopping c = false -> cmRunning c <> None -> exists w, cmStopWorker (stop ui options c) = Some w /\ stTornDown w = false).
Proof.
  unfold stop, markDisconnecting, syncState. cbv zeta. destruct c as [[[id gid]|] ? ? ? ? ? ? ? ? ? ? ? ? ? [] ? ? ? ? ? ? ? ? ? ? ? ? ? ? ?], (soManual options); cbn;
    (try destruct ui); cbn; (try destruct (soCrash options)); cbn; (try destruct (bool_decide _)); cbn; naive_solver.
Qed.

(** The start worker goes on to another phase. *)
Lemma books_phase n c c1 w w' : books e serial n c c1 -> cmStartWorker c1 = Some w -> swRequest w' = swRequest w ->
  (cmOk c -> phaseOk c1 (swPhase w')) -> books e serial n c (putStartWorker (Some w') c1).
Proof.
  intros [B1 B2 B3 B4] Hw Er Hp. split; [|intros Hc; rewrite <- B2 by done|done|intros Hn _; apply B4; [done|by rewrite Hw]].
  - intros Hc. specialize (Hp Hc). destruct (B1 Hc) as [K1 K2 K3 K4 K5]. rewrite Hw in K1. split; try done. by intros ? [= <-].
  - unfold ledger, waiting. cbn [cmOut cmKsDeferred cmCoreRequest cmRanking cmStartWorker cmTasks putStartWorker].
    rewrite Hw. cbn. by rewrite Er.
Qed.

Lemma books_workerBegin w c : cmStartWorker c = Some w -> swPhase w = WorkerBegin -> books e serial 0 c (workerBegin (stop false) w c).
Proof.
  intros Hw Hp. unfold workerBegin. cbv zeta. set (g := s_tunMode _ && _).
  set (c1 := if g then _ else c). assert (Hc1 : books e serial 0 c c1) by (unfold c1; destruct g; [by apply books_silent, books_refl|apply books_refl]).
  assert (E : cmRunning c1 = cmRunning c /\ cmStartWorker c1 = cmStartWorker c /\ cmStopWorker c1 = cmStopWorker c /\ cmMuStopping c1 = cmMuStopping c)
    by (unfold c1; by destruct g).
  destruct E as (Er & Ew & Es & Em). clearbody c1. rewrite Er. destruct (cmRunning c) as [run|] eqn:Hr; cbn [isSome].
  - set (o := mkStopOptions _ _ _ _). pose proof (stop_kept false o (putSwitching true c1)) as (S1 & S2 & S3 & S4).
    eapply books_phase; [|by rewrite S1; cbn; rewrite Ew|done|].
    + eapply books_then0; [|apply books_stop]. eapply books_then0; [exact Hc1|books_same].
    + intros Hc. cbn [swPhase phaseOk]. right. cbn in S3, S4. destruct (cmMuStopping c1) eqn:Em1.
      * rewrite (S3 eq_refl), Es. pose proof (ok_stopping c Hc) as Hst. rewrite <- Em in Hst. destruct (cmStopWorker c) as [s|] eqn:Hs; [|done].
        exists s. split; [done|]. pose proof (ok_start c Hc w Hw) as K. rewrite Hp in K. cbn in K.
        destruct (stTornDown s) eqn:Ht; [|done]. specialize (K s Hs Ht). congruence.
      * apply S4; [done|]. by rewrite Er.
  - eapply books_phase; [exact Hc1|by rewrite Ew|done|]. intros _. cbn. by rewrite Er.
Qed.

Lemma books_workerStopped w c : cmStartWorker c = Some w -> swPhase w = WorkerAwaitStop -> cmMuStopping c = false -> books e serial 0 c (workerStopped w c).
Proof.
  intros Hw Hp Hm. unfold workerStopped. eapply books_phase; [books_same|done|done|]. intros Hc. cbn.
  pose proof (ok_start c Hc w Hw) as K. rewrite Hp in K. pose proof (ok_stopping c Hc) as Hs. rewrite Hm in Hs.
  destruct K as [K|(s & K & _)]; [done|by rewrite K in Hs].
Qed.

Lemma books_stopRun w a c : cmStopWorker c = Some w -> books e serial 0 c (stopWorkerRun w a c).
Proof.
  intros Hw. unfold stopWorkerRun. cbv zeta. set (c1 := if soManual _ then _ else _).
  assert (H1 : books e serial 0 c c1 /\ cmStopWorker c1 = cmStopWorker c).
  { unfold c1. destruct (soSkipTests (stOptions w)), (spTesting a), (soCrash (stOptions w)), (spOk a), (isNil (spError a)), (soInteractive (stOptions w)), (soManual (stOptions w)); cbn;
      destruct (s_systemProxy _); cbn.
    all: (split; [|done]; repeat first [apply books_refl|apply books_settings|apply books_silent; [done..|]|apply books_posted; [done|]]). }
  destruct H1 as [[B1 B2 B3 B4] E]. clearbody c1. split; [intros Hc; specialize (B1 Hc)|intros Hc; by rewrite <- B2 by done|done|exact B4].
  destruct B1 as [K1 K2 K3 K4 K5]. rewrite E, Hw in K2. split; try done; cbn; [by intros ? [= <-]|].
  intros w' Hw'. by destruct (swPhase w'); [|left|].
Qed.

Lemma syncState_stop c : cmStopWorker (syncState c) = cmStopWorker c.
Proof. unfold syncState. by destruct (bool_decide _). Qed.

Lemma clearRestart_stop c : cmStopWorker (clearRestartNeeded c) = cmStopWorker c.
Proof. unfold clearRestartNeeded. by destruct (isNil _). Qed.

Lemma stopWorker_output w o c : putStopWorker w (putOutput o c) = putOutput o (putStopWorker w c).
Proof. done. Qed.

(** The stop worker ends. *)
Lemma books_stopEnd w c : cmStopWorker c = Some w -> stTornDown w = true -> books e serial 0 c (putStopWorker None (putMuStopping false c)).
Proof.
  intros Hw Ht. split; [|intros _; rewrite Z.add_0_r; reflexivity|exists []; by rewrite app_nil_r|same_worker].
  intros [K1 K2 K3 K4 K5]. split; try done. cbn. intros w' Hw'. specialize (K5 w' Hw').
  destruct (swPhase w'); cbn in *; [done| |done]. left. destruct K5 as [K5|(s & K5 & K6)]; [done|]. congruence.
Qed.

Lemma books_teardown w c : cmStopWorker c = Some w -> stTornDown w = true -> books e serial 0 c (stopTeardown w c).
Proof.
  intros Hw Ht. unfold stopTeardown. cbv zeta. rewrite stopWorker_output. apply books_silent; [done..|].
  eapply books_then0; [|apply (books_stopEnd w); [|done]].
  - eapply books_then0; [|apply books_sync]. apply books_silent; [done..|]. eapply books_then0; [|apply books_clear].
    apply books_disc. destruct (negb _); [apply books_silent; [done..|]|]; apply books_refl.
  - rewrite syncState_stop. cbn [cmStopWorker putOutput putOut]. rewrite clearRestart_stop. by destruct (negb _).
Qed.

(** What the calls of a failed start come to. *)
Lemma startStage2_shape w a outcome error dialog calls : startStage2 w a = NotStarted outcome error dialog calls ->
  sumOf (answerOf serial) calls = 0 /\ match dialog with Some t => taskOf serial t = 0 | None => True end.
Proof.
  unfold startStage2. intros E.
  repeat match type of E with (if ?b then _ else _) = _ => destruct b end; simplify_eq; split; try done.
  by destruct (containsStr _ _).
Qed.

Lemma fold_outputs calls c : fold_left (fun c o => putOutput o c) calls c = putOut (cmOut c ++ calls) c.
Proof.
  revert c. induction calls as [|o calls IH]; intros c; cbn [fold_left]; [by rewrite app_nil_r; destruct c|].
  rewrite IH. unfold putOutput. cbn [cmOut putOut]. by rewrite <- app_assoc.
Qed.

(** Opening a core run: the lock goes with the worker, the request with its
    answer. *)
Lemma workerStart_books w a c : cmOk c -> cmStartWorker c = Some w ->
  cmOk (workerStart w a c) /\ ledger serial (workerStart w a c) = ledger serial c.
Proof.
  intros [K1 K2 K3 K4 K5] Hw. unfold workerStart. cbv zeta. destruct (startStage2 w a) as [|outcome error dialog calls] eqn:Es.
  - destruct (s_systemProxy _), (swGuarded w); (split; [by split|]).
    all: unfold ledger, answers, waiting; cbn -[sumOf]; rewrite ?sumOf_app, ?sumOf_one, Hw; cbn -[sumOf]; lia.
  - rewrite fold_outputs. destruct (startStage2_shape _ _ _ _ _ _ Es) as [Hc Hd].
    destruct dialog as [t|], (rqInteractive (swRequest w)), (swGuarded w); (split; [by split|]).
    all: unfold ledger, answers, waiting; cbn -[sumOf]; rewrite ?sumOf_app, ?sumOf_one, Hw, Hc; cbn -[sumOf taskOf]; rewrite ?Hd; cbn; lia.
Qed.

End Books.
