(* ===== verification/ConnectionRuns.v ===== *)
(** The turns of the connection manager over whole runs: what each event takes
    in, and the run-wide properties. *)
From stdpp Require Import base list strings.
From Stdlib Require Import ZArith Lia Bool.
From S2P Require Import Prelude Json Supervisor SupervisorFacts KillSwitch KillSwitchFacts KillSwitchSafety ConnectionManager ConnectionFacts.

Section Turns.
Context {Q : QtChar} {H : Host} {O : RuntimeOptions}.
Context (e : Env) (serial : Z).

Definition one (s : Z) : Z := if s =? serial then 1 else 0.

(** ** Modes *)

Lemma books_tunBlocked c : books e serial 0 c (snd (tunBlockedReason e c)).
Proof.
  unfold tunBlockedReason. destruct (_ || _); [apply books_refl|]. cbv zeta.
  destruct (connectionState c); cbn [snd]; try apply books_refl; (destruct (_ && _); cbn [snd]; [apply books_refl|books_same]).
Qed.

Lemma books_ensureTun i c : books e serial 0 c (snd (ensureTunPrivileges e i c)).
Proof.
  unfold ensureTunPrivileges. repeat (destruct (_ : bool); [apply books_refl|]). apply books_call.
Qed.

Lemma books_tunAllowed enable change c : books e serial 0 c (snd (tunAllowed e enable change c)).
Proof.
  unfold tunAllowed. destruct enable; [|apply books_refl]. pose proof (books_tunBlocked c) as B. destruct (tunBlockedReason e c) as [why c1].
  destruct (negb (isNil why)); [done|]. destruct (_ && _); [|done]. eapply books_then0; [exact B|apply books_ensureTun].
Qed.

Lemma books_save n f c c1 : books e serial n c c1 -> books e serial n c (saveSettings f c1).
Proof. intros B. apply books_silent; [done..|]. by apply books_settings. Qed.

Lemma books_held n v c c1 : books e serial n c c1 -> books e serial n c (putTunRestoreHeld v c1).
Proof. intros B. eapply books_then0; [exact B|books_same]. Qed.

Lemma books_blockedAt n v c c1 : books e serial n c c1 -> books e serial n c (putTunBlockedAt v c1).
Proof. intros B. eapply books_then0; [exact B|books_same]. Qed.

(** A start at the end of a turn. *)
Lemma books_endStart id i s c c1 : books e serial 0 c c1 -> books e serial (one s) c (start e (mkRequest id i s) c1).
Proof. intros B. eapply books_step; [exact B|apply books_start|done]. Qed.

Definition taken (restarted : bool) (s : Z) : Z := if restarted then one s else 0.

Lemma books_setTun enable change c :
  books e serial (taken (fst (setTun e enable change c)) (mcRestartSerial change)) c (snd (setTun e enable change c)).
Proof.
  unfold setTun. set (c1 := if negb enable && _ then _ else c). cbv zeta.
  assert (B1 : books e serial 0 c c1).
  { unfold c1. destruct (_ && _); [|apply books_refl]. destruct (mcSave change); [apply books_save|]; apply books_held, books_refl. }
  clearbody c1. destruct (Bool.eqb _ _); [exact B1|]. pose proof (books_tunAllowed enable change c1) as B2.
  destruct (tunAllowed e enable change c1) as [allowed c2]. cbn [snd] in B2. assert (B3 : books e serial 0 c c2) by (by eapply books_then0).
  destruct allowed; [|exact B3]. cbn [negb]. set (c3 := onSettings _ _).
  assert (B4 : books e serial 0 c c3).
  { unfold c3. apply books_settings. destruct (mcSave change); [apply books_save|]; by apply books_blockedAt, books_held. }
  clearbody c3. destruct (_ || _); cbn [fst snd taken]; [exact B4|]. by apply books_endStart.
Qed.

Lemma books_setSystemProxy enable change c :
  books e serial (taken (fst (setSystemProxy e enable change c)) (mcRestartSerial change)) c (snd (setSystemProxy e enable change c)).
Proof.
  unfold setSystemProxy. cbv zeta. destruct (negb _); [apply books_refl|]. destruct (enable && s_disableMixedInbound _).
  { cbn [fst snd taken]. destruct (mcInteractive change); [apply books_call|apply books_refl]. }
  set (c1 := onSettings _ c). assert (B1 : books e serial 0 c c1) by apply books_settings, books_refl. clearbody c1.
  destruct (cmRunning c1) as [[id gid]|]; [destruct (_ && mcRestart change)|]; cbn [fst snd taken];
    (destruct (mcSave change); [apply books_save|]); try exact B1; try (apply books_endStart); by apply books_silent.
Qed.

Lemma books_chooseRoute id i s c : books e serial (taken (fst (chooseRoute e id i s c)) s) c (snd (chooseRoute e id i s c)).
Proof.
  unfold chooseRoute. cbv zeta. destruct (_ =? id); [apply books_refl|]. set (c1 := saveSettings _ c).
  assert (B1 : books e serial 0 c c1) by apply books_save, books_refl. clearbody c1. destruct (_ <? 0); [exact B1|].
  destruct (_ && _); [exact B1|]. by apply books_endStart.
Qed.

Lemma books_restartStarted i s c : books e serial (taken (fst (restartStartedProfile e i s c)) s) c (snd (restartStartedProfile e i s c)).
Proof.
  unfold restartStartedProfile. cbv zeta. destruct (_ <? 0); [apply books_refl|]. apply books_endStart, books_refl.
Qed.

(** ** Calls that start for themselves, with serial 0 *)

Context (Hserial : serial <> 0).

Lemma one_zero : one 0 = 0.
Proof. unfold one. by rewrite (proj2 (Z.eqb_neq _ _) (not_eq_sym Hserial)). Qed.

Lemma books_ownStart id i c c1 : books e serial 0 c c1 -> books e serial 0 c (start e (mkRequest id i 0) c1).
Proof. intros B. eapply books_n; [by apply books_endStart|apply one_zero]. Qed.

Lemma books_applyPending c : books e serial 0 c (applyPendingRestart e c).
Proof. unfold applyPendingRestart. cbv zeta. destruct (_ >=? 0); [apply books_ownStart|]; apply books_clear. Qed.

Lemma books_geoRetry id token c : books e serial 0 c (retryAfterGeoFetch e id token c).
Proof.
  unfold retryAfterGeoFetch. cbv zeta. destruct (negb _); [apply books_refl|]. destruct (_ =? id); [apply books_refl|].
  destruct (_ || _); [|apply books_ownStart]; books_same.
Qed.

Lemma books_retryTun id c : books e serial 0 c (retryTun e id c).
Proof.
  unfold retryTun. destruct (negb _); [apply books_refl|]. destruct (_ || _); [apply books_refl|]. apply books_ownStart, books_refl.
Qed.

(** A posted task is taken out and run. *)
Lemma books_task t tasks c : cmTasks c = t :: tasks -> books e serial 0 c (runUiTask e t (putTasks tasks c)).
Proof.
  intros Et. set (c1 := putTasks tasks c).
  assert (B1 : books e serial (- taskOf serial t) c c1).
  { split; [intros []; by split| |exists []; by rewrite app_nil_r|same_worker]. intros _. unfold ledger, answers, waiting, c1.
    cbn [cmOut cmKsDeferred cmCoreRequest cmRanking cmStartWorker cmTasks putTasks]. rewrite Et. cbn. unfold sumOf. lia. }
  clearbody c1. eapply books_step; [exact B1| |apply Z.add_opp_diag_l].
  destruct t; cbn [runUiTask taskOf]; try apply books_finished; try (apply books_silent; [done..|apply books_refl]).
  - eapply books_step; [|apply books_finished|apply Z.add_0_l]. apply books_silent; [done..|]. eapply books_then0; [|apply books_clear]. books_same.
  - cbv zeta. assert (B2 : books e serial 0 c1 (syncState (putConnecting false c1))) by (eapply books_then0; [|apply books_sync]; books_same).
    destruct started; [by apply books_silent|]. destruct switching; [by apply books_silent|done].
  - apply books_disconnecting.
  - apply books_retryTun.
  - destruct (ePolicyAccepts e); [apply books_silent; [done..|]|]; apply books_refl.
Qed.

(** ** Signals *)

(** The request that waited for the core is taken out of its slot. *)
Lemma books_takeCore c : books e serial (- inSlot serial (cmCoreRequest c)) c (putCoreRequest noRequest c).
Proof. eapply books_n; [apply books_core|]. by change (inSlot serial noRequest) with 0. Qed.

Lemma books_ownGuard id i c : books e serial 0 c (restartCoreForGuard e (mkRequest id i 0) c).
Proof. eapply books_n; [apply books_guard; right; by apply not_eq_sym|apply one_zero]. Qed.

Lemma books_bootStart r c : books e serial (inSlot serial r) c (setBootStart r c).
Proof. unfold setBootStart. eapply books_step; [|apply books_defer|apply Z.add_0_l]. books_same. Qed.

Lemma books_ksChanged c : books e serial 0 c (onKillSwitchStateChanged e c).
Proof.
  unfold onKillSwitchStateChanged. cbv zeta. set (c1 := putKsWasArmed _ _). set (c2 := if _ && negb _ then call _ _ else _).
  assert (B2 : books e serial 0 c c2).
  { assert (B1 : books e serial 0 c c1) by books_same. clearbody c1. unfold c2.
    destruct (isState Failed _), (cmKsWasFailed c); cbn [negb andb]; repeat (apply books_silent; [done..|]); exact B1. }
  clearbody c2. destruct (_ && _ && _); [|done]. eapply books_step; [exact B2| |apply Z.add_0_l].
  destruct (_ && _); [|apply books_ownGuard]. destruct (queued (cmCoreRequest c2)) eqn:Eq; [|apply books_ownGuard].
  eapply books_step; [apply books_takeCore|apply books_guard; by left|]. unfold inSlot. rewrite Eq. lia.
Qed.

Lemma taken_zero b : taken b 0 = 0.
Proof. destruct b; [apply one_zero|done]. Qed.

Lemma books_restoreModes c : books e serial 0 c (snd (restoreModes e c)).
Proof.
  unfold restoreModes. cbv zeta. destruct optHeadless.
  - set (c1 := if _ || _ then _ else c). assert (B1 : books e serial 0 c c1).
    { unfold c1. destruct (_ || _); [|apply books_refl]. apply books_settings.
      eapply books_n; [apply books_setTun|apply taken_zero]. }
    clearbody c1. set (held := _ && _ && _). destruct held; [|by apply books_held]. unfold tunRestoreHoldReason.
    assert (B2 : books e serial 0 c (putTunRestoreHeld true c1)) by (by apply books_held).
    pose proof (books_tunBlocked (putTunRestoreHeld true c1)) as B3. destruct (tunBlockedReason e _) as [why c2].
    assert (B4 : books e serial 0 c c2) by (by eapply books_then0). destruct (negb (isNil why)); [done|]. by destruct (negb _).
  - cbn [snd]. set (c1 := if s_rememberEnable _ && s_rememberSystemProxy _ then _ else c). assert (B1 : books e serial 0 c c1).
    { unfold c1. destruct (_ && _); [|apply books_refl]. eapply books_n; [apply books_setSystemProxy|apply taken_zero]. }
    clearbody c1. destruct (_ || _); [|done]. apply books_settings. eapply books_then0; [exact B1|].
    eapply books_n; [apply books_setTun|apply taken_zero].
Qed.

Lemma count_own id i : count serial (mkRequest id i 0) = 0.
Proof. apply one_zero. Qed.

Lemma books_carried id why c : books e serial 0 c (startCarried e id why c).
Proof.
  unfold startCarried. cbv zeta. set (r := cmCoreRequest c). set (c1 := putBootSerial 0 _).
  assert (B1 : books e serial (- inSlot serial r) c c1) by (eapply books_then0; [apply books_takeCore|books_same]). clearbody c1.
  set (c2 := if queued r && _ then _ else c1).
  assert (B2 : books e serial (if rqProfileId r =? id then - inSlot serial r else 0) c c2).
  { unfold c2, inSlot in *. destruct (queued r), (rqProfileId r =? id); cbn [negb andb]; try exact B1.
    eapply books_step; [exact B1|apply books_finished|lia]. }
  clearbody c2. destruct (Z.geb_spec id 0) as [Hid|Hid].
  - set (next := if rqProfileId r =? id then r else mkRequest id true 0). eapply books_step; [exact B2|instantiate (1 := count serial next); destruct (_ && _ && _); [apply books_finished|apply books_start]|].
    unfold next. destruct (rqProfileId r =? id) eqn:E; [|apply count_own]. apply Z.eqb_eq in E. unfold inSlot, queued. rewrite E.
    destruct (Z.geb_spec id 0); lia.
  - destruct (rqProfileId r =? id) eqn:E; [|exact B2]. apply Z.eqb_eq in E. eapply books_n; [exact B2|]. unfold inSlot, queued. rewrite E.
    by destruct (Z.geb_spec id 0); [lia|].
Qed.

Lemma books_coreStarted id c : books e serial 0 c (onCoreStarted e id c).
Proof.
  unfold onCoreStarted. cbv zeta. set (c1 := if failedForPrivileges _ then _ else _).
  assert (B1 : books e serial 0 c c1).
  { unfold c1. destruct (failedForPrivileges _); [apply books_silent; [done..|]|]; books_same. }
  clearbody c1. pose proof (books_restoreModes c1) as B2. destruct (restoreModes e c1) as [why c2].
  eapply books_then0; [by eapply books_then0|apply books_carried].
Qed.

Lemma books_coreGaveUp reason c : books e serial 0 c (onCoreGaveUp reason c).
Proof.
  unfold onCoreGaveUp. cbv zeta. set (c1 := putGuardRestart None c). assert (B1 : books e serial 0 c c1) by books_same. clearbody c1.
  eapply books_step; [exact B1| |apply Z.add_0_l]. pose proof (books_takeCore c1) as B2. unfold inSlot in B2. destruct (queued _); [|done].
  eapply books_step; [exact B2|apply books_finished|lia].
Qed.

(** A ranking is done: its request starts. *)
Lemma books_ranked n r c : cmRanking c !! n = Some r -> books e serial 0 c (start e r (putRanking (delete n (cmRanking c)) c)).
Proof.
  intros E. eapply books_step; [|apply books_start|apply Z.add_opp_diag_l].
  split; [intros []; by split| |exists []; by rewrite app_nil_r|same_worker]. intros _. unfold ledger, answers, waiting.
  cbn [cmOut cmKsDeferred cmCoreRequest cmRanking cmStartWorker cmTasks putRanking]. rewrite (sumOf_delete _ _ _ _ E). lia.
Qed.

End Turns.

(** ** Runs *)

Section Runs.
Context {Q : QtChar} {H : Host} {O : RuntimeOptions}.

(** How many requests of the serial an event makes. *)
Definition asked (serial : Z) (e : Env) (ev : CmEvent) (c : CM) : Z :=
  match ev with
  | EvStart r => count serial r
  | EvBootStart r => inSlot serial r
  | EvRestartStarted interactive s => taken serial (fst (restartStartedProfile e interactive s c)) s
  | EvSetTun enable change => taken serial (fst (setTun e enable change c)) (mcRestartSerial change)
  | EvSetSystemProxy enable change => taken serial (fst (setSystemProxy e enable change c)) (mcRestartSerial change)
  | EvChooseRoute routeId interactive s => taken serial (fst (chooseRoute e routeId interactive s c)) s
  | _ => 0
  end.

Fixpoint cmRun (evs : list (Env * CmEvent)) (c : CM) : CM :=
  match evs with [] => c | (e, ev) :: evs' => cmRun evs' (cmStep e ev c) end.

Fixpoint askedIn (serial : Z) (evs : list (Env * CmEvent)) (c : CM) : Z :=
  match evs with [] => 0 | (e, ev) :: evs' => asked serial e ev c + askedIn serial evs' (cmStep e ev c) end.

Definition isWorkerStart (ev : CmEvent) : bool := match ev with EvWorkerStart _ => true | _ => false end.

(** Every turn but the start at the core keeps the books. *)
Lemma books_turn serial e ev c : serial <> 0 -> isWorkerStart ev = false -> books e serial (asked serial e ev c) c (cmStep e ev c).
Proof.
  intros Hs Hev. destruct ev; cbn [cmStep asked]; try done.
  - apply books_start.
  - apply books_bootStart.
  - apply books_restartStarted.
  - by apply books_applyPending.
  - apply books_stop.
  - apply books_setTun.
  - apply books_setSystemProxy.
  - apply books_chooseRoute.
  - unfold disableKillSwitch. apply books_silent; [done..|]. apply books_save, books_refl.
  - unfold noteRestartNeeded. destruct (_ || _); [apply books_refl|]. apply books_silent; [done..|]. books_same.
  - by apply books_ksChanged.
  - destruct (cmKsWaiting c) eqn:E; [by apply books_settled|apply books_refl].
  - by apply books_coreStarted.
  - apply books_coreGaveUp.
  - destruct (cmRanking c !! n) as [r|] eqn:E; [by apply books_ranked|apply books_refl].
  - by apply books_geoRetry.
  - apply books_tunBlocked.
  - books_same.
  - unfold workerEvent. destruct (cmStartWorker c) as [w|] eqn:Ew; [|apply books_refl].
    destruct (swPhase w) eqn:Ep; cbn [isBegin]; [by apply books_workerBegin|apply books_refl..].
  - destruct (cmMuStopping c) eqn:Em; [apply books_refl|]. unfold workerEvent. destruct (cmStartWorker c) as [w|] eqn:Ew; [|apply books_refl].
    destruct (swPhase w) eqn:Ep; cbn [isAwait]; [apply books_refl|by apply books_workerStopped|apply books_refl].
  - destruct (cmStopWorker c) as [w|] eqn:Ew; [|apply books_refl]. destruct (stTornDown w); [apply books_refl|by apply books_stopRun].
  - destruct (cmStopWorker c) as [w|] eqn:Ew; [|apply books_refl]. destruct (stTornDown w) eqn:Et; [|apply books_refl].
    destruct (existsb _ _); [apply books_refl|by apply books_teardown].
  - destruct (cmTasks c) as [|t tasks] eqn:Et; [apply books_refl|by apply books_task].
Qed.

Lemma turn_ledger serial e ev c : serial <> 0 -> cmOk c ->
  cmOk (cmStep e ev c) /\ ledger serial (cmStep e ev c) = ledger serial c + asked serial e ev c.
Proof.
  intros Hs Hc. destruct (isWorkerStart ev) eqn:Hev.
  - destruct ev; try done. cbn [cmStep asked]. rewrite Z.add_0_r. unfold workerEvent. destruct (cmStartWorker c) as [w|] eqn:Ew; [|done].
    destruct (swPhase w); cbn [isStart]; [done..|]. by apply workerStart_books.
  - by destruct (books_turn serial e ev c Hs Hev) as [B1 B2 _ _]; auto.
Qed.

Lemma run_ledger serial evs c : serial <> 0 -> cmOk c ->
  cmOk (cmRun evs c) /\ ledger serial (cmRun evs c) = ledger serial c + askedIn serial evs c.
Proof.
  intros Hs. revert c. induction evs as [|[e ev] evs IH]; intros c Hc; cbn [cmRun askedIn]; [split; [done|lia]|].
  destruct (turn_ledger serial e ev c Hs Hc) as [Hc1 E1]. destruct (IH _ Hc1) as [Hc2 E2]. split; [done|lia].
Qed.

Lemma cmInit_ok s : cmOk (cmInit s).
Proof. by split. Qed.

Lemma reachable_ok c : cmReachable c -> cmOk c.
Proof. induction 1 as [s|e ev c _ IH]; [apply cmInit_ok|]. by apply (turn_ledger 1). Qed.

Lemma count_nonneg serial r : 0 <= count serial r.
Proof. unfold count. destruct (_ =? _); lia. Qed.

Lemma waiting_nonneg serial c : 0 <= waiting serial c.
Proof.
  assert (S : forall r, 0 <= inSlot serial r) by (intros r; unfold inSlot; destruct (queued r); [apply count_nonneg|lia]).
  unfold waiting. pose proof (S (cmKsDeferred c)). pose proof (S (cmCoreRequest c)).
  pose proof (sumOf_nonneg (count serial) (cmRanking c) (count_nonneg serial)).
  assert (0 <= workerOf serial (cmStartWorker c)) by (destruct (cmStartWorker c); [apply count_nonneg|cbn; lia]).
  assert (0 <= sumOf (taskOf serial) (cmTasks c)) by (apply sumOf_nonneg; intros []; cbn; try lia; apply count_nonneg).
  lia.
Qed.

(** C1: However the calls, the signals, the posted tasks and the two workers
    interleave, a request that was made is answered exactly once or waits in
    exactly one place: the answers given for a serial and the places where it
    waits (the kill switch's slot, the core's slot, a ranking, the start worker,
    an answer posted to the main thread) add up to the requests made with it.
    So no request is answered twice, and one that is nowhere has its answer. *)
Theorem requests_answered_once s evs serial : serial <> 0 ->
  let c := cmRun evs (cmInit s) in
  answers serial c + waiting serial c = askedIn serial evs (cmInit s) /\
  answers serial c <= askedIn serial evs (cmInit s) /\
  (waiting serial c = 0 -> answers serial c = askedIn serial evs (cmInit s)).
Proof.
  intros Hs c. destruct (run_ledger serial evs _ Hs (cmInit_ok s)) as [_ E]. pose proof (waiting_nonneg serial c).
  change (ledger serial (cmInit s)) with 0 in E. unfold ledger in E. fold c in E. lia.
Qed.

(** Only the start worker's request is started at the core. *)
Lemma startStage2_calls w a outcome error dialog calls id : startStage2 w a = NotStarted outcome error dialog calls ->
  In (OutCoreStart id) calls -> id = rqProfileId (swRequest w).
Proof.
  unfold startStage2. intros E.
  repeat match type of E with (if ?b then _ else _) = _ => destruct b end; simplify_eq; cbn; intros Hin; repeat destruct Hin as [Hin|Hin]; try done; congruence.
Qed.

Lemma workerStart_calls w a c new id : cmOut (workerStart w a c) = cmOut c ++ new -> In (OutCoreStart id) new -> id = rqProfileId (swRequest w).
Proof.
  unfold workerStart. cbv zeta. intros E Hin.
  assert (K : forall l k, cmOut c ++ l ++ k = cmOut c ++ new -> ~ In (OutCoreStart id) k -> In (OutCoreStart id) l).
  { intros l k E' Hk. apply app_inv_head in E'. subst new. apply in_app_or in Hin. tauto. }
  destruct (startStage2 w a) as [|outcome error dialog calls] eqn:Es.
  - assert (Hl : In (OutCoreStart id) [OutCoreStart (rqProfileId (swRequest w))]); [|by destruct Hl as [[= <-]|[]]].
    destruct (s_systemProxy _), (swGuarded w); cbn in E; rewrite <- ?app_assoc in E; (eapply K; [exact E|cbn; intuition congruence]) || (eapply (K _ []); [rewrite app_nil_r; exact E|easy]).
  - rewrite fold_outputs in E. eapply startStage2_calls; [exact Es|].
    destruct dialog as [t|], (rqInteractive (swRequest w)), (swGuarded w); cbn in E; rewrite <- ?app_assoc in E;
      (eapply K; [exact E|cbn; intuition congruence]) || (eapply (K _ []); [rewrite app_nil_r; exact E|easy]).
Qed.

(** C2: One run at a time: in every reachable state, a turn that asks the core
    to start a profile is the start worker's, for the profile of its request and
    with the start's mutex held, and it finds no run: none is up, and no stop is
    on its way to the core. *)
Theorem one_run_at_a_time e ev c new id : cmReachable c -> cmOut (cmStep e ev c) = cmOut c ++ new -> In (OutCoreStart id) new ->
  cmRunning c = None /\ (forall s, cmStopWorker c = Some s -> stTornDown s = true) /\ cmMuStarting c = true /\
  exists w, cmStartWorker c = Some w /\ swPhase w = WorkerStart /\ rqProfileId (swRequest w) = id.
Proof.
  intros Hr E Hin. apply reachable_ok in Hr. destruct (isWorkerStart ev) eqn:Hev.
  - destruct ev; try done. cbn [cmStep] in E. unfold workerEvent in E.
    assert (Hne : cmOut c <> cmOut c ++ new) by (intros K; rewrite <- (app_nil_r (cmOut c)) in K at 1; apply app_inv_head in K; by subst new).
    destruct (cmStartWorker c) as [w|] eqn:Ew; [|done]. destruct (swPhase w) eqn:Ep; cbn [isStart] in E; [done..|].
    pose proof (ok_start c Hr w Ew) as K. rewrite Ep in K. cbn in K. split_and!; [done| |by rewrite (ok_starting c Hr), Ew|].
    + intros s Hs. destruct (stTornDown s) eqn:Et; [done|]. by destruct (ok_stop c Hr s Hs Et).
    + exists w. split_and!; [done..|]. symmetry. by eapply workerStart_calls.
  - destruct (books_turn 1 e ev c ltac:(done) Hev) as [_ _ (k & Ek & Hk) _]. rewrite E in Ek. apply app_inv_head in Ek. subst k.
    rewrite forallb_forall in Hk. by specialize (Hk _ Hin).
Qed.

(** C13: No start without the guard: with the kill switch on, whichever call,
    signal or posted task makes a start worker does so while a guard that
    reported READY is in force. *)
Theorem start_behind_guard e ev c : ksReachable (eKillSwitch e) -> ksShutdown (eKillSwitch e) = false ->
  sKillSwitch (ksSettings (eKillSwitch e)) = true -> cmStartWorker c = None -> cmStartWorker (cmStep e ev c) <> None ->
  exists i, ksActive (eKillSwitch e) = Some i /\ blocks i (eKillSwitch e).
Proof.
  intros Hr Hu Hs Hn Hw. pose proof (ksReachable_inv _ Hr Hu) as Hk.
  assert (Ha : allowsStart (eKillSwitch e) = true).
  { destruct (isWorkerStart ev) eqn:Hev; [|by apply (bk_launch _ _ _ _ _ (books_turn 1 e ev c ltac:(done) Hev))].
    destruct ev; try done. cbn [cmStep] in Hw. unfold workerEvent in Hw. by rewrite Hn in Hw. }
  destruct (allowed_active _ Hk Hs Ha) as [i Hi]. exists i. split; [done|by apply active_blocks].
Qed.

End Runs.

(** ** A switch from one profile to another *)

Definition desktopOptions : RuntimeOptions :=
  {| optHeadless := false; optSystemProxy := true; optTunRequired := false; optBlockingPrivilegeCheck := false |}.

Definition sampleSettings : CmSettings :=
  mkCmSettings false true true false (-1) (-1) false false false false 0 true false false false (u "172.18.0.1/30") 0.

(** The kill switch is armed and the core connected. *)
Definition sampleEnv : Env :=
  mkEnv 1000 (runKs armedRun) upAndRunning (fun id => if 0 <=? id then Some 1 else None) (fun _ => true) false
    (fun _ => mkBuild [] true false) [] (Some true) true None true [] false true.

Definition onSample (evs : list CmEvent) : list (Env * CmEvent) := map (fun ev => (sampleEnv, ev)) evs.
Definition startOk : StartAnswer := mkStartAnswer true true [] false [].
Definition stopOk : StopAnswer := mkStopAnswer false true [].

(** Profile 4 is started, then profile 5 is asked for: the worker waits for the
    stop of the first, which waits for the main thread. *)
Definition switchRun : list CmEvent :=
  [EvStart (mkRequest 4 true 1); EvWorkerBegin; EvWorkerStart startOk; EvTask; EvTask;
   EvStart (mkRequest 5 true 2); EvWorkerBegin; EvStart (mkRequest 6 true 3); EvTask; EvStopWorker stopOk; EvTeardown; EvWorkerStopped].

Definition sampleRun (evs : list CmEvent) : CM := cmRun (O := desktopOptions) (onSample evs) (cmInit sampleSettings).

Example switch_run : let c := sampleRun switchRun in
  cmRunning c = None /\ answers 1 c = 1 /\ answers 2 c = 0 /\ waiting 2 c = 1 /\ answers 3 c = 1 /\ connectionState c = CsConnecting /\
  cmRunning (sampleRun (switchRun ++ [EvWorkerStart startOk])) = Some (5, 1).
Proof. vm_compute. repeat split. Qed.

Lemma sampleRun_reachable evs : cmReachable (O := desktopOptions) (sampleRun evs).
Proof.
  unfold sampleRun. generalize (cm_init (O := desktopOptions) sampleSettings). generalize (cmInit sampleSettings).
  induction evs as [|ev evs IH]; intros c Hc; [done|]. cbn. apply IH. by constructor.
Qed.

Lemma requests_answered_once_witness :
  let c := cmRun (O := desktopOptions) (onSample (switchRun ++ [EvWorkerStart startOk; EvTask])) (cmInit sampleSettings) in
  2 <> 0 /\ waiting 2 c = 0 /\ answers 2 c = 1.
Proof.
  assert (N : 2 <> 0) by done. set (evs := onSample _). intros c.
  assert (W : waiting 2 c = 0) by (vm_compute; reflexivity).
  assert (A : askedIn (O := desktopOptions) 2 evs (cmInit sampleSettings) = 1) by (vm_compute; reflexivity).
  split; [exact N|]. split; [exact W|]. rewrite <- A.
  exact (proj2 (proj2 (requests_answered_once (O := desktopOptions) sampleSettings evs 2 N)) W).
Defined.

Lemma one_run_at_a_time_witness : exists w, cmStartWorker (sampleRun switchRun) = Some w /\ rqProfileId (swRequest w) = 5.
Proof.
  set (new := [OutCoreStart 5; OutTransitionGuard false]). set (c := sampleRun switchRun).
  assert (E : cmOut (cmStep (O := desktopOptions) sampleEnv (EvWorkerStart startOk) c) = cmOut c ++ new) by (vm_compute; reflexivity).
  assert (Hin : In (OutCoreStart 5) new) by (left; reflexivity). pose proof (sampleRun_reachable switchRun) as Hr. fold c in Hr. clearbody c.
  destruct (one_run_at_a_time (O := desktopOptions) sampleEnv (EvWorkerStart startOk) c new 5 Hr E Hin) as (_ & _ & _ & w & Hw & _ & Hp).
  by exists w.
Defined.

Lemma start_behind_guard_witness : exists i, ksActive (eKillSwitch sampleEnv) = Some i /\ blocks i (eKillSwitch sampleEnv).
Proof.
  assert (Hr : ksReachable (eKillSwitch sampleEnv)) by exact (runKs_reachable armedRun).
  assert (Hu : ksShutdown (eKillSwitch sampleEnv) = false) by (vm_compute; reflexivity).
  assert (Hs : sKillSwitch (ksSettings (eKillSwitch sampleEnv)) = true) by (vm_compute; reflexivity).
  assert (Hn : cmStartWorker (cmInit sampleSettings) = None) by reflexivity.
  assert (Hw : cmStartWorker (cmStep (O := desktopOptions) sampleEnv (EvStart (mkRequest 4 true 1)) (cmInit sampleSettings)) <> None) by (vm_compute; discriminate).
  exact (start_behind_guard (O := desktopOptions) sampleEnv _ _ Hr Hu Hs Hn Hw).
Defined.
