(* ===== verification/AutoSelectorController.v ===== *)
(** Ranking before a start, rebuilding and pruning:
    src/src/engine/autoselector/AutoSelectorController.cpp.

    The main thread's turns, the threads that rank and the test session each of
    them waits for, one step at a time.  [acObjects] are the profiles in memory
    (ProfilesRepo keeps one object per id) and [acDeleted] the ids whose rows are
    gone, so that a sweep can still hold the profile it ranks.  The connection is
    seen through its state and its running profile; a start that the controller
    asks for may come back to [rankBeforeStart] within the same turn, which is
    the [reentry] of an event.  [acMonitor] is the monitor of AutoSelectorMonitor.v,
    whose signals are queued to the main thread. *)
From stdpp Require Import base list gmap strings sorting.
From Stdlib Require Import ZArith Lia Bool.
From S2P Require Import Prelude Json ConnectionManager AutoSelector AutoSelectorPlan AutoSelectorMonitor.

(** What a sweep was made for: a start that waits for it, or an exhausted pool. *)
Inductive SweepKind := ForStart (token : nat) | ForExhausted.

(** Where the sweep's thread is. *)
Inductive SweepPhase :=
| SwBegin
| SwTests
| SwStarted
| SwWait
| SwWoken
| SwEarly (found remaining : Z) (untrusted : list Z)
| SwFinal
| SwOver.

(** Its test session: refused ones finish at once. *)
Inductive Session := NoSession | SessionRuns | SessionOver.

(** AutoSelectorSweep, with the variables of the thread that ranks. *)
Record Sweep := mkSweep {
  swEnt : Z;
  swKind : SweepKind;
  swInteractive : bool;
  swStale : list Z;
  swNeeded : list Z;
  swWake : nat;
  swMeasured : gset Z;
  swWorking : gset Z;
  swWorkingBefore : Z;
  swQuorum : Z;
  swQuorumMet : bool;
  swDone : bool;
  swStartedEarly : bool;
  swSession : Session;
  swPhase : SweepPhase
}.

Definition newSweep (ent : Z) (kind : SweepKind) (interactive : bool) : Sweep :=
  mkSweep ent kind interactive [] [] 0 ∅ ∅ 0 0 false false false NoSession SwBegin.

Definition wPhase v s := mkSweep (swEnt s) (swKind s) (swInteractive s) (swStale s) (swNeeded s) (swWake s) (swMeasured s) (swWorking s) (swWorkingBefore s) (swQuorum s) (swQuorumMet s) (swDone s) (swStartedEarly s) (swSession s) v.
Definition wWake v s := mkSweep (swEnt s) (swKind s) (swInteractive s) (swStale s) (swNeeded s) v (swMeasured s) (swWorking s) (swWorkingBefore s) (swQuorum s) (swQuorumMet s) (swDone s) (swStartedEarly s) (swSession s) (swPhase s).
Definition wStartedEarly v s := mkSweep (swEnt s) (swKind s) (swInteractive s) (swStale s) (swNeeded s) (swWake s) (swMeasured s) (swWorking s) (swWorkingBefore s) (swQuorum s) (swQuorumMet s) (swDone s) v (swSession s) (swPhase s).
Definition wSession v s := mkSweep (swEnt s) (swKind s) (swInteractive s) (swStale s) (swNeeded s) (swWake s) (swMeasured s) (swWorking s) (swWorkingBefore s) (swQuorum s) (swQuorumMet s) (swDone s) (swStartedEarly s) v (swPhase s).
Definition wPlanned stale needed before quorum s := mkSweep (swEnt s) (swKind s) (swInteractive s) stale needed (swWake s) (swMeasured s) (swWorking s) before quorum (swQuorumMet s) (swDone s) (swStartedEarly s) (swSession s) (swPhase s).
Definition wResult measured working s := mkSweep (swEnt s) (swKind s) (swInteractive s) (swStale s) (swNeeded s) (swWake s) measured working (swWorkingBefore s) (swQuorum s) (swQuorumMet s) (swDone s) (swStartedEarly s) (swSession s) (swPhase s).

(** quorumMet or done is set, and the semaphore released. *)
Definition meetQuorum s := mkSweep (swEnt s) (swKind s) (swInteractive s) (swStale s) (swNeeded s) (S (swWake s)) (swMeasured s) (swWorking s) (swWorkingBefore s) (swQuorum s) true (swDone s) (swStartedEarly s) (swSession s) (swPhase s).
Definition onFinished s := mkSweep (swEnt s) (swKind s) (swInteractive s) (swStale s) (swNeeded s) (S (swWake s)) (swMeasured s) (swWorking s) (swWorkingBefore s) (swQuorum s) (swQuorumMet s) true (swStartedEarly s) (swSession s) (swPhase s).

Definition reachedQuorum (s : Sweep) : bool := (0 <? swQuorum s) && (swQuorum s <=? swWorkingBefore s + Z.of_nat (size (swWorking s))).

Definition onResult (member : Z) (works : bool) (s : Sweep) : Sweep :=
  let s := wResult ({[member]} ∪ swMeasured s) (if works then {[member]} ∪ swWorking s else swWorking s ∖ {[member]}) s in
  if swQuorumMet s || negb (reachedQuorum s) then s else meetQuorum s.

(** The check after runUrlTests. *)
Definition checkQuorum (s : Sweep) : Sweep := if negb (swQuorumMet s) && reachedQuorum s then meetQuorum s else s.

(** ** The controller *)

Inductive AcTask :=
| TkStartEarly (ent : Z) (kind : SweepKind)
| TkRanked (ent : Z) (kind : SweepKind) (startedEarly : bool)
| TkMeasured (ent : Z) (changed : bool)
| TkPoolExhausted (id : Z)
| TkStatus.

Inductive AcOut :=
| AcMonitorLoop
| AcResume (token : nat)
| AcStart (id : Z)
| AcSaved (id : Z)
| AcStatus
| AcRefused
| AcEarly (found remaining : Z)
| AcRebuild.

(** A thread that reranks after an early start. *)
Inductive FinisherPhase := FinRerank | FinCompare | FinOver.
Record Finisher := mkFinisher { fnEnt : Z; fnPhase : FinisherPhase }.

Record Ctl := mkCtl {
  acRankingInFlight : Z;
  acRankedFor : Z;
  acMonitorLoopStarted : bool;
  acSweeps : list Sweep;
  acFinishers : list Finisher;
  acSettling : list Z;
  acTasks : list AcTask;
  acNextToken : nat;
  acConnection : ConnectionState;
  acRunning : option Z;
  acObjects : gmap Z Profile;
  acDeleted : gset Z;
  acGroups : gmap Z Group;
  acMonitor : Monitor;
  acOut : list AcOut
}.

Definition aRankingInFlight v c := mkCtl v (acRankedFor c) (acMonitorLoopStarted c) (acSweeps c) (acFinishers c) (acSettling c) (acTasks c) (acNextToken c) (acConnection c) (acRunning c) (acObjects c) (acDeleted c) (acGroups c) (acMonitor c) (acOut c).
Definition aRankedFor v c := mkCtl (acRankingInFlight c) v (acMonitorLoopStarted c) (acSweeps c) (acFinishers c) (acSettling c) (acTasks c) (acNextToken c) (acConnection c) (acRunning c) (acObjects c) (acDeleted c) (acGroups c) (acMonitor c) (acOut c).
Definition aMonitorLoopStarted v c := mkCtl (acRankingInFlight c) (acRankedFor c) v (acSweeps c) (acFinishers c) (acSettling c) (acTasks c) (acNextToken c) (acConnection c) (acRunning c) (acObjects c) (acDeleted c) (acGroups c) (acMonitor c) (acOut c).
Definition aSweeps v c := mkCtl (acRankingInFlight c) (acRankedFor c) (acMonitorLoopStarted c) v (acFinishers c) (acSettling c) (acTasks c) (acNextToken c) (acConnection c) (acRunning c) (acObjects c) (acDeleted c) (acGroups c) (acMonitor c) (acOut c).
Definition aFinishers v c := mkCtl (acRankingInFlight c) (acRankedFor c) (acMonitorLoopStarted c) (acSweeps c) v (acSettling c) (acTasks c) (acNextToken c) (acConnection c) (acRunning c) (acObjects c) (acDeleted c) (acGroups c) (acMonitor c) (acOut c).
Definition aSettling v c := mkCtl (acRankingInFlight c) (acRankedFor c) (acMonitorLoopStarted c) (acSweeps c) (acFinishers c) v (acTasks c) (acNextToken c) (acConnection c) (acRunning c) (acObjects c) (acDeleted c) (acGroups c) (acMonitor c) (acOut c).
Definition aTasks v c := mkCtl (acRankingInFlight c) (acRankedFor c) (acMonitorLoopStarted c) (acSweeps c) (acFinishers c) (acSettling c) v (acNextToken c) (acConnection c) (acRunning c) (acObjects c) (acDeleted c) (acGroups c) (acMonitor c) (acOut c).
Definition aNextToken v c := mkCtl (acRankingInFlight c) (acRankedFor c) (acMonitorLoopStarted c) (acSweeps c) (acFinishers c) (acSettling c) (acTasks c) v (acConnection c) (acRunning c) (acObjects c) (acDeleted c) (acGroups c) (acMonitor c) (acOut c).
Definition aConnection v c := mkCtl (acRankingInFlight c) (acRankedFor c) (acMonitorLoopStarted c) (acSweeps c) (acFinishers c) (acSettling c) (acTasks c) (acNextToken c) v (acRunning c) (acObjects c) (acDeleted c) (acGroups c) (acMonitor c) (acOut c).
Definition aRunning v c := mkCtl (acRankingInFlight c) (acRankedFor c) (acMonitorLoopStarted c) (acSweeps c) (acFinishers c) (acSettling c) (acTasks c) (acNextToken c) (acConnection c) v (acObjects c) (acDeleted c) (acGroups c) (acMonitor c) (acOut c).
Definition aObjects v c := mkCtl (acRankingInFlight c) (acRankedFor c) (acMonitorLoopStarted c) (acSweeps c) (acFinishers c) (acSettling c) (acTasks c) (acNextToken c) (acConnection c) (acRunning c) v (acDeleted c) (acGroups c) (acMonitor c) (acOut c).
Definition aDeleted v c := mkCtl (acRankingInFlight c) (acRankedFor c) (acMonitorLoopStarted c) (acSweeps c) (acFinishers c) (acSettling c) (acTasks c) (acNextToken c) (acConnection c) (acRunning c) (acObjects c) v (acGroups c) (acMonitor c) (acOut c).
Definition aGroups v c := mkCtl (acRankingInFlight c) (acRankedFor c) (acMonitorLoopStarted c) (acSweeps c) (acFinishers c) (acSettling c) (acTasks c) (acNextToken c) (acConnection c) (acRunning c) (acObjects c) (acDeleted c) v (acMonitor c) (acOut c).
Definition aMonitor v c := mkCtl (acRankingInFlight c) (acRankedFor c) (acMonitorLoopStarted c) (acSweeps c) (acFinishers c) (acSettling c) (acTasks c) (acNextToken c) (acConnection c) (acRunning c) (acObjects c) (acDeleted c) (acGroups c) v (acOut c).
Definition aOut v c := mkCtl (acRankingInFlight c) (acRankedFor c) (acMonitorLoopStarted c) (acSweeps c) (acFinishers c) (acSettling c) (acTasks c) (acNextToken c) (acConnection c) (acRunning c) (acObjects c) (acDeleted c) (acGroups c) (acMonitor c) v.

Definition outAc (o : AcOut) (c : Ctl) : Ctl := aOut (acOut c ++ [o]) c.
Definition postAc (t : AcTask) (c : Ctl) : Ctl := aTasks (acTasks c ++ [t]) c.

(** The profiles that exist, and the objects in memory. *)
Definition dbOf (c : Ctl) : Db := mkDb (filter (fun kv => fst kv ∉ acDeleted c) (acObjects c)) (acGroups c).
Definition objectOf (c : Ctl) (id : Z) : option Profile := acObjects c !! id.
Definition putObject (id : Z) (ent : option Profile) (c : Ctl) : Ctl :=
  match ent with Some p => aObjects (<[id := p]> (acObjects c)) c | None => c end.

(** ProfilesRepo::Save of a profile in memory: a deleted one is not stored. *)
Definition Save (id : Z) (c : Ctl) : Ctl := if bool_decide (id ∈ acDeleted c) then c else outAc (AcSaved id) c.

Definition isType (type : string) (ent : Profile) : bool := eqStr (prType ent) (u type).

(** Readings of the clock, in seconds. *)
Record Clock := mkClock { ckNow : Z; ckLater : Z; ckLast : Z }.

Section Controller.
Context {Q : QtChar} {Up : QtUpper} {Rx : QtRegex} {Utf : Utf8} {J : JsonText} {R : QtReal}.

(** ** Before a start *)

(** Whether it went off to rank, and the state. *)
Definition rankBeforeStart (t : Clock) (id : Z) (interactive : bool) (c : Ctl) : bool * Ctl :=
  let justRanked := acRankedFor c =? id in
  let c := aRankedFor (-1) c in
  match objectOf c id with
  | None => (false, c)
  | Some ent =>
      if negb (isType "autoselector" ent) || (0 <? acRankingInFlight c) || justRanked then (false, c)
      else
        let '(plan, ent') := PlanAutoSelector (dbOf c) (ckNow t) (ckLater t) (Some ent) in
        let c := putObject id ent' c in
        if negb (isNil (plError plan)) || negb (plNeedsRanking plan) then (false, c)
        else
          let token := acNextToken c in
          (true, aSweeps (acSweeps c ++ [newSweep id (ForStart token) interactive])
                   (aNextToken (S token) (aRankingInFlight (acRankingInFlight c + 1) c)))
  end.

(** A start that was asked for comes back, if it gets that far. *)
Record Reentry := mkReentry { reId : Z; reInteractive : bool; reClock : Clock }.
Definition enter (re : option Reentry) (c : Ctl) : Ctl :=
  match re with Some r => snd (rankBeforeStart (reClock r) (reId r) (reInteractive r) c) | None => c end.

Definition startRanked (id : Z) (start : Ctl -> Ctl) (c : Ctl) : Ctl := aRankedFor (-1) (start (aRankedFor id c)).

(** control_->start. *)
Definition controlStart (id : Z) (re : option Reentry) (c : Ctl) : Ctl := enter re (outAc (AcStart id) c).

(** What a sweep's end or its quorum calls: resumeRanked, or restart. *)
Definition resumeSweep (ent : Z) (kind : SweepKind) (re : option Reentry) (c : Ctl) : Ctl :=
  match kind with
  | ForStart token => startRanked ent (fun c => enter re (outAc (AcResume token) c)) c
  | ForExhausted =>
      match acRunning c with
      | Some running => if running =? ent then startRanked ent (controlStart ent re) c else c
      | None => c
      end
  end.

(** ** A sweep's thread *)

Definition rerank (t : Clock) (id : Z) (untrusted : list Z) (c : Ctl) : Ctl :=
  match objectOf c id with
  | None => c
  | Some ent =>
      let '(_, ent') := RerankAutoSelectorPool (dbOf c) (ckNow t) (ckLater t) (ckLast t) (Some ent) untrusted in
      match AutoSelectorOf ent with Some _ => Save id (putObject id ent' c) | None => c end
  end.

(** [rank] returns. *)
Definition sweepOver (i : nat) (startedEarly : bool) (s : Sweep) (c : Ctl) : Ctl :=
  postAc (TkRanked (swEnt s) (swKind s) startedEarly) (aSweeps (<[i := wPhase SwOver s]> (acSweeps c)) c).

Definition setSweep (i : nat) (s : Sweep) (c : Ctl) : Ctl := aSweeps (<[i := s]> (acSweeps c)) c.

(** The stale members of an exhausted pool are the ones it was built from. *)
Definition staleOf (s : Sweep) (ent : Profile) : list Z :=
  match swKind s with
  | ForStart _ => []
  | ForExhausted => match AutoSelectorOf ent with Some x => lastBuilt x | None => [] end
  end.

Definition sweepBegin (t : Clock) (i : nat) (s : Sweep) (c : Ctl) : Ctl :=
  match objectOf c (swEnt s) with
  | None => sweepOver i false s c
  | Some ent =>
      if negb (isType "autoselector" ent) then sweepOver i false s c
      else
        let stale := staleOf s ent in
        let '((needed, before), ent') := AutoSelectorUnmeasuredCandidates (dbOf c) (ckNow t) (ckLater t) (Some ent) stale in
        let c := putObject (swEnt s) ent' c in
        if isNil needed then sweepOver i false s (rerank t (swEnt s) [] c)
        else
          let '(quorum, ent') := AutoSelectorStartQuorum ent' in
          setSweep i (wPhase SwTests (wPlanned stale needed before quorum s)) (putObject (swEnt s) ent' c)
  end.

(** runUrlTests: a refused session has called onFinished when it returns. *)
Definition sweepTests (accepted : bool) (i : nat) (s : Sweep) (c : Ctl) : Ctl :=
  if accepted then setSweep i (wPhase SwStarted (wSession SessionRuns s)) c
  else setSweep i (wPhase SwWait (onFinished (wSession SessionOver s))) (outAc AcRefused c).

(** The loop's body behind the semaphore. *)
Definition sweepWoken (s : Sweep) : Sweep :=
  if swDone s then wPhase SwFinal s
  else if swStartedEarly s || negb (swQuorumMet s) then wPhase SwWait s
  else
    let found := swWorkingBefore s + Z.of_nat (size (swWorking s)) in
    let remaining := Z.max 0 (zlen (swNeeded s) - Z.of_nat (size (swMeasured s))) in
    let untrusted := List.filter (fun id => negb (bool_decide (id ∈ swMeasured s))) (swStale s) in
    wPhase (SwEarly found remaining untrusted) (wStartedEarly true s).

Definition sweepStep (t : Clock) (accepted : bool) (i : nat) (c : Ctl) : Ctl :=
  match acSweeps c !! i with
  | None => c
  | Some s =>
      match swPhase s with
      | SwBegin => sweepBegin t i s c
      | SwTests => sweepTests accepted i s c
      | SwStarted => setSweep i (wPhase SwWait (checkQuorum s)) c
      | SwWait => match swWake s with O => c | S n => setSweep i (wPhase SwWoken (wWake n s)) c end
      | SwWoken => setSweep i (sweepWoken s) c
      | SwEarly found remaining untrusted =>
          postAc (TkStartEarly (swEnt s) (swKind s))
            (outAc (AcEarly found remaining) (rerank t (swEnt s) untrusted (setSweep i (wPhase SwWait s) c)))
      | SwFinal => if swStartedEarly s then sweepOver i true s c else sweepOver i false s (rerank t (swEnt s) [] c)
      | SwOver => c
      end
  end.

(** The session's own steps: a result, which can come late, and its end. *)
Definition sessionResult (i : nat) (member now : Z) (c : Ctl) : Ctl :=
  match acSweeps c !! i with
  | None => c
  | Some s =>
      match swSession s with
      | NoSession => c
      | _ => setSweep i (onResult member (AutoSelectorMemberWorks (objectOf c (swEnt s)) (objectOf c member) now) s) c
      end
  end.

Definition sessionEnd (i : nat) (c : Ctl) : Ctl :=
  match acSweeps c !! i with
  | None => c
  | Some s => match swSession s with SessionRuns => setSweep i (onFinished (wSession SessionOver s)) c | _ => c end
  end.

(** ** After an early start *)

Definition finishEarlySweep (ent : Z) (c : Ctl) : Ctl :=
  if bool_decide (acConnection c = CsConnecting) then aSettling (acSettling c ++ [ent]) c
  else aFinishers (acFinishers c ++ [mkFinisher ent FinRerank]) c.

(** connectionStateChanged: the ones that wait go on, unless it connects. *)
Definition settled (state : ConnectionState) (c : Ctl) : Ctl :=
  if bool_decide (state = CsConnecting) then c
  else fold_left (fun c ent => finishEarlySweep ent c) (acSettling c) (aSettling [] c).

Definition finisherStep (t : Clock) (i : nat) (c : Ctl) : Ctl :=
  match acFinishers c !! i with
  | None => c
  | Some f =>
      let next phase c := aFinishers (<[i := mkFinisher (fnEnt f) phase]> (acFinishers c)) c in
      match fnPhase f with
      | FinRerank => next FinCompare (rerank t (fnEnt f) [] c)
      | FinCompare =>
          let '(changed, ent') := AutoSelectorBuildChanged (dbOf c) (ckNow t) (ckLater t) (ckLast t) (objectOf c (fnEnt f)) in
          postAc (TkMeasured (fnEnt f) changed) (next FinOver (putObject (fnEnt f) ent' c))
      | FinOver => c
      end
  end.

Definition measured (ent : Z) (changed : bool) (re : option Reentry) (c : Ctl) : Ctl :=
  if negb changed || negb (bool_decide (acConnection c = CsRunning)) then c
  else
    match acRunning c with
    | Some running => if running =? ent then startRanked ent (controlStart ent re) (outAc AcRebuild c) else c
    | None => c
    end.

Definition ranked (ent : Z) (kind : SweepKind) (startedEarly : bool) (re : option Reentry) (c : Ctl) : Ctl :=
  let c := aRankingInFlight (acRankingInFlight c - 1) c in
  if startedEarly then finishEarlySweep ent c else resumeSweep ent kind re c.

(** ** The pool is exhausted *)

Definition onPoolExhausted (id : Z) (c : Ctl) : Ctl :=
  match dbProfiles (dbOf c) !! id, acRunning c with
  | Some _, Some running =>
      if running =? id then
        aSweeps (acSweeps c ++ [newSweep id ForExhausted true]) (aRankingInFlight (acRankingInFlight c + 1) c)
      else c
  | _, _ => c
  end.

(** ** A subscription changed *)

Definition GetProfileIdsByType (db : Db) (type : string) : list Z :=
  merge_sort Z.le (map fst (List.filter (fun kv => isType type (snd kv)) (map_to_list (dbProfiles db)))).

Definition withMembers (poolIds built : list Z) (s : autoSelector) : autoSelector :=
  mkAutoSelector (asName s) (gids s) (nameFilter s) (countryFilter s) (excludeUnavailable s) (poolCap s) (buildLimit s)
    (resultValidityMins s) (testURL s) (connectivityURL s) (intervalSec s) (benchIntervalSec s) (watchIntervalSec s)
    (activeSize s) (sampling s) (toleranceMs s) (maxRTTms s) (expected s) (dialRetries s) (interruptOnSwitch s) (balance s)
    (balanceMode s) (balanceIntervalSec s) poolIds (poolRankedAt s) (pinnedID s) built (lastBuiltAt s) (history s).

Definition exists_ (db : Db) (id : Z) : bool := isSome (GetProfile db id).

(** One selector: its lists without the members that are gone, and whether what
    runs has to be rebuilt for it. *)
Definition pruneSelector (gid : Z) (disturbed : gset Z) (running : option Z) (id : Z) (a : Ctl * Z) : Ctl * Z :=
  let '(c, restartID) := a in
  match GetProfile (dbOf c) id with
  | None => a
  | Some ent =>
      match AutoSelectorOf ent with
      | None => a
      | Some s =>
          if negb (Tracks gid s) then a
          else
            let keptPool := List.filter (exists_ (dbOf c)) (pool s) in
            let keptBuilt := List.filter (exists_ (dbOf c)) (lastBuilt s) in
            let prunedPool := zlen (pool s) - zlen keptPool in
            let prunedBuilt := zlen (lastBuilt s) - zlen keptBuilt in
            let c := putObject id (Some (setSelector (withMembers keptPool keptBuilt s) ent)) c in
            let c := if (0 <? prunedPool) || (0 <? prunedBuilt) then Save id c else c in
            match running with
            | Some r =>
                if negb (r =? id) then (c, restartID)
                else if (0 <? prunedBuilt) || existsb (fun m => bool_decide (m ∈ disturbed)) keptBuilt then (c, id)
                else (c, restartID)
            | None => (c, restartID)
            end
      end
  end.

Definition onSubscriptionGroupChanged (gid : Z) (disturbed : list Z) (re : option Reentry) (c : Ctl) : Ctl :=
  if gid <? 0 then c
  else
    let running := acRunning c in
    let '(c, restartID) :=
      fold_left (fun a id => pruneSelector gid (list_to_set disturbed) running id a) (GetProfileIdsByType (dbOf c) "autoselector") (c, -1) in
    if restartID <? 0 then c else controlStart restartID re c.

(** ** The monitor *)

Definition startMonitorLoop (c : Ctl) : Ctl := if acMonitorLoopStarted c then c else outAc AcMonitorLoop (aMonitorLoopStarted true c).

(** Its signals since [before] are queued to the main thread. *)
Definition signals (before : nat) (outs : list MonitorOut) : list AcTask :=
  flat_map (fun o => match o with MoUpdated => [TkStatus] | MoPoolExhausted id => [TkPoolExhausted id] | _ => [] end) (drop before outs).

Definition setLatency (now : Z) (latency : Z) (p : Profile) : Profile :=
  mkProfile (prId p) (prType p) latency (if latency =? 0 then 0 else now) (prTestCountry p) (prOutbound p).

(** The results it kept are the profiles' results. *)
Definition keepResults (now : Z) (latencies : gmap Z Z) (objects : gmap Z Profile) : gmap Z Profile :=
  map_imap (fun id p => match latencies !! id with
                        | Some l => Some (if prLatency p =? l then p else setLatency now l p)
                        | None => Some p
                        end) objects.

(** A pin is kept with the selector. *)
Definition withPin (member : Z) (s : autoSelector) : autoSelector :=
  mkAutoSelector (asName s) (gids s) (nameFilter s) (countryFilter s) (excludeUnavailable s) (poolCap s) (buildLimit s)
    (resultValidityMins s) (testURL s) (connectivityURL s) (intervalSec s) (benchIntervalSec s) (watchIntervalSec s)
    (activeSize s) (sampling s) (toleranceMs s) (maxRTTms s) (expected s) (dialRetries s) (interruptOnSwitch s) (balance s)
    (balanceMode s) (balanceIntervalSec s) (pool s) (poolRankedAt s) member (lastBuilt s) (lastBuiltAt s) (history s).

Definition keepPin (objects : gmap Z Profile) (o : MonitorOut) : gmap Z Profile :=
  match o with
  | MoPinned selector member =>
      alter (fun p => match AutoSelectorOf p with Some s => setSelector (withPin member s) p | None => p end) selector objects
  | _ => objects
  end.

Definition onMonitor (now : Z) (ev : MonitorEvent) (c : Ctl) : Ctl :=
  let m := nLatencies (prLatency <$> dbProfiles (dbOf c)) (acMonitor c) in
  let m' := monitorStep ev m in
  aTasks (acTasks c ++ signals (length (mOut m)) (mOut m'))
    (aObjects (fold_left keepPin (drop (length (mOut m)) (mOut m')) (keepResults now (mLatencies m') (acObjects c))) (aMonitor m' c)).

Definition builtIDs (members : list (qstr * option (Z * qstr))) : list Z :=
  flat_map (fun m => match snd m with Some (id, _) => [id] | None => [] end) members.
Definition builtNames (members : list (qstr * option (Z * qstr))) : gmap Z qstr :=
  fold_left (fun t m => match snd m with Some (id, name) => <[id := name]> t | None => t end) members ∅.

Definition withBuilt (ids : list Z) (now : Z) (s : autoSelector) : autoSelector :=
  mkAutoSelector (asName s) (gids s) (nameFilter s) (countryFilter s) (excludeUnavailable s) (poolCap s) (buildLimit s)
    (resultValidityMins s) (testURL s) (connectivityURL s) (intervalSec s) (benchIntervalSec s) (watchIntervalSec s)
    (activeSize s) (sampling s) (toleranceMs s) (maxRTTms s) (expected s) (dialRetries s) (interruptOnSwitch s) (balance s)
    (balanceMode s) (balanceIntervalSec s) (pool s) (poolRankedAt s) (pinnedID s) ids now (history s).

Definition noteBuilt (id : Z) (builds : list BuildInfo) (nowMs now : Z) (c : Ctl) : Ctl :=
  let c := aMonitor (SetBuild builds nowMs (acMonitor c)) c in
  let c :=
    match builds, objectOf c id with
    | info :: _, Some ent =>
        match AutoSelectorOf ent with
        | Some s =>
            let ids := builtIDs (biMembers info) in
            let s := RecordHistory ids (builtNames (biMembers info)) now (withBuilt ids now s) in
            Save id (putObject id (Some (setSelector s ent)) c)
        | None => c
        end
    | _, _ => c
    end in
  outAc AcStatus c.

Definition noteStopped (nowMs now : Z) (c : Ctl) : Ctl := outAc AcStatus (onMonitor now (MeClear nowMs) c).

(** ** Turns *)

Inductive AcEvent :=
| AeMonitorLoop
| AeRank (t : Clock) (id : Z) (interactive : bool)
| AeSweep (i : nat) (t : Clock) (accepted : bool)
| AeResult (i : nat) (member now : Z)
| AeSessionEnd (i : nat)
| AeFinisher (i : nat) (t : Clock)
| AeTask (re : option Reentry)
| AeConnection (state : ConnectionState) (running : option Z)
| AeStateChanged (state : ConnectionState)
| AeSubscription (gid : Z) (disturbed : list Z) (re : option Reentry)
| AeMonitor (now : Z) (ev : MonitorEvent)
| AeBuilt (id : Z) (builds : list BuildInfo) (nowMs now : Z)
| AeStopped (nowMs now : Z)
| AeProfile (id : Z) (p : Profile)
| AeDelete (id : Z)
| AeGroups (groups : gmap Z Group).

(** The next task of the main thread's queue. *)
Definition runTask (re : option Reentry) (c : Ctl) : Ctl :=
  match acTasks c with
  | [] => c
  | task :: rest =>
      let c := aTasks rest c in
      match task with
      | TkStartEarly ent kind => resumeSweep ent kind re c
      | TkRanked ent kind startedEarly => ranked ent kind startedEarly re c
      | TkMeasured ent changed => measured ent changed re c
      | TkPoolExhausted id => onPoolExhausted id c
      | TkStatus => outAc AcStatus c
      end
  end.

Definition acTurn (ev : AcEvent) (c : Ctl) : Ctl :=
  match ev with
  | AeMonitorLoop => startMonitorLoop c
  | AeRank t id interactive => snd (rankBeforeStart t id interactive c)
  | AeSweep i t accepted => sweepStep t accepted i c
  | AeResult i member now => sessionResult i member now c
  | AeSessionEnd i => sessionEnd i c
  | AeFinisher i t => finisherStep t i c
  | AeTask re => runTask re c
  | AeConnection state running => aRunning running (aConnection state c)
  | AeStateChanged state => settled state c
  | AeSubscription gid disturbed re => onSubscriptionGroupChanged gid disturbed re c
  | AeMonitor now ev => onMonitor now ev c
  | AeBuilt id builds nowMs now => noteBuilt id builds nowMs now c
  | AeStopped nowMs now => noteStopped nowMs now c
  | AeProfile id p => aObjects (<[id := p]> (acObjects c)) c
  | AeDelete id => aDeleted ({[id]} ∪ acDeleted c) c
  | AeGroups groups => aGroups groups c
  end.

Definition acInit (objects : gmap Z Profile) (groups : gmap Z Group) : Ctl :=
  mkCtl 0 (-1) false [] [] [] [] 0 CsIdle None objects ∅ groups (monitorInit ∅) [].

Inductive acReachable : Ctl -> Prop :=
| ac_init objects groups : acReachable (acInit objects groups)
| ac_turn ev c : acReachable c -> acReachable (acTurn ev c).

End Controller.
