(* ===== verification/AutoSelectorControllerFacts.v ===== *)
(** The controller's books: how often each start that waits for a ranking is
    resumed, how many sweeps run, and what wakes them. *)
From stdpp Require Import base list gmap strings sorting.
From Stdlib Require Import ZArith Lia Bool.
From S2P Require Import Prelude Json ConnectionManager AutoSelector AutoSelectorPlan AutoSelectorMonitor AutoSelectorController.
From S2P Require Import AutoSelectorFacts AutoSelectorPlanFacts.

#[local] Arguments sumOf : simpl never.

(** ** The books *)

Definition resumed (token : nat) (o : AcOut) : Z := match o with AcResume t => Z.b2z (t =? token)%nat | _ => 0 end.

Definition waitsFor (token : nat) (kind : SweepKind) : Z := match kind with ForStart t => Z.b2z (t =? token)%nat | ForExhausted => 0 end.
Definition forStart (kind : SweepKind) : Z := match kind with ForStart _ => 1 | ForExhausted => 0 end.

(** The sweep still has to resume its start itself. *)
Definition owing (s : Sweep) : bool :=
  match swPhase s with SwOver => false | SwEarly _ _ _ => true | _ => negb (swStartedEarly s) end.
Definition live (s : Sweep) : bool := match swPhase s with SwOver => false | _ => true end.

Definition owedBySweep (token : nat) (s : Sweep) : Z := if owing s then waitsFor token (swKind s) else 0.
Definition owedByTask (token : nat) (t : AcTask) : Z :=
  match t with TkStartEarly _ kind => waitsFor token kind | TkRanked _ kind early => if early then 0 else waitsFor token kind | _ => 0 end.

Definition liveSweep (s : Sweep) : Z := Z.b2z (live s).
Definition liveTask (t : AcTask) : Z := match t with TkRanked _ _ _ => 1 | _ => 0 end.
Definition startSweep (s : Sweep) : Z := if live s then forStart (swKind s) else 0.
Definition startTask (t : AcTask) : Z := match t with TkRanked _ kind _ => forStart kind | _ => 0 end.

Definition resumes (token : nat) (c : Ctl) : Z := sumOf (resumed token) (acOut c).
Definition owed (token : nat) (c : Ctl) : Z := sumOf (owedBySweep token) (acSweeps c) + sumOf (owedByTask token) (acTasks c).

(** How far the semaphore is ahead of the thread. *)
Definition due (s : Sweep) : Z := Z.b2z (swQuorumMet s) + Z.b2z (swDone s) - Z.b2z (swStartedEarly s).

Record swOk (s : Sweep) : Prop := {
  swOk_early : swStartedEarly s = true -> swQuorumMet s = true;
  swOk_done : swDone s = true <-> swSession s = SessionOver;
  swOk_phase :
    match swPhase s with
    | SwBegin | SwTests => swSession s = NoSession /\ swQuorumMet s = false /\ swStartedEarly s = false /\ swWake s = 0%nat
    | SwStarted => swSession s <> NoSession /\ swStartedEarly s = false /\ Z.of_nat (swWake s) = due s
    | SwWait | SwEarly _ _ _ => swSession s <> NoSession /\ Z.of_nat (swWake s) = due s /\ (reachedQuorum s = true -> swQuorumMet s || swDone s = true)
    | SwWoken => swSession s <> NoSession /\ Z.of_nat (swWake s) + 1 = due s /\ (reachedQuorum s = true -> swQuorumMet s || swDone s = true)
    | SwFinal | SwOver => True
    end;
  swOk_rank : match swPhase s with SwEarly _ _ _ => swStartedEarly s = true | _ => True end
}.

(** [carried] is what a turn has taken off the books and not yet put back. *)
Record acOk (carried : nat -> Z) (c : Ctl) : Prop := {
  ok_ledger : forall token, resumes token c + owed token c + carried token = Z.b2z (token <? acNextToken c)%nat;
  ok_flight : sumOf liveSweep (acSweeps c) + sumOf liveTask (acTasks c) = acRankingInFlight c;
  ok_starts : sumOf startSweep (acSweeps c) + sumOf startTask (acTasks c) <= 1;
  ok_sweeps : Forall swOk (acSweeps c)
}.

(** Nothing the books count changes. *)
Record quiet (c c' : Ctl) : Prop := {
  q_sweeps : acSweeps c' = acSweeps c;
  q_tasks : forall f : AcTask -> Z, (forall id, f (TkPoolExhausted id) = 0) -> f TkStatus = 0 -> (forall ent b, f (TkMeasured ent b) = 0) ->
    sumOf f (acTasks c') = sumOf f (acTasks c);
  q_token : acNextToken c' = acNextToken c;
  q_flight : acRankingInFlight c' = acRankingInFlight c;
  q_for : acRankedFor c' = acRankedFor c;
  q_out : forall token, resumes token c' = resumes token c
}.

Lemma quiet_refl c : quiet c c.
Proof. by split. Qed.

Lemma quiet_trans c1 c2 c3 : quiet c1 c2 -> quiet c2 c3 -> quiet c1 c3.
Proof.
  intros [A1 A2 A3 A4 A5 A6] [B1 B2 B3 B4 B5 B6]. split; try congruence.
  intros f H1 H2 H3. by rewrite B2, A2.
Qed.

Lemma quiet_ok k c c' : quiet c c' -> acOk k c -> acOk k c'.
Proof.
  intros [E1 E2 E3 E4 E5 E6] [L F S W]. split.
  - intros t. unfold owed. rewrite E6, E1, E3, E2 by done. apply L.
  - rewrite E1, E4, E2 by done. apply F.
  - rewrite E1, E2 by done. apply S.
  - by rewrite E1.
Qed.

Ltac quiet_same := split; cbn; auto.

Lemma quiet_out o c : (forall t, resumed t o = 0) -> quiet c (outAc o c).
Proof. intros H. quiet_same. intros t. unfold resumes, outAc. cbn [acOut aOut]. rewrite sumOf_app, sumOf_one, H. lia. Qed.

Lemma quiet_post t c : liveTask t = 0 -> (forall ent k, t <> TkStartEarly ent k) -> quiet c (postAc t c).
Proof.
  intros H1 H2. quiet_same. intros f F1 F2 F3. rewrite sumOf_app, sumOf_one.
  destruct t; try done; rewrite ?F1, ?F2, ?F3; try lia. by destruct (H2 ent kind).
Qed.

Lemma quiet_object id ent c : quiet c (putObject id ent c).
Proof. destruct ent; [quiet_same|apply quiet_refl]. Qed.

Lemma quiet_save id c : quiet c (Save id c).
Proof. unfold Save. case_bool_decide; [apply quiet_refl|by apply quiet_out]. Qed.

Create HintDb books discriminated.
#[export] Hint Resolve quiet_refl quiet_object quiet_save : books.
#[export] Hint Extern 1 (quiet _ (outAc _ _)) => by apply quiet_out : books.

Section Books.
Context {Q : QtChar} {Up : QtUpper} {Rx : QtRegex} {Utf : Utf8} {J : JsonText} {R : QtReal}.

Lemma quiet_rerank t id untrusted c : quiet c (rerank t id untrusted c).
Proof.
  unfold rerank. destruct (objectOf c id) as [ent|]; [|apply quiet_refl].
  destruct (RerankAutoSelectorPool _ _ _ _ _ _) as [r ent']. destruct (AutoSelectorOf ent); [|apply quiet_refl].
  eapply quiet_trans; [apply quiet_object|apply quiet_save].
Qed.

Lemma quiet_prune gid disturbed running l c r : quiet c (fst (fold_left (fun a id => pruneSelector gid disturbed running id a) l (c, r))).
Proof.
  revert c r. induction l as [|id l IH]; intros c r; cbn [fold_left]; [apply quiet_refl|].
  destruct (pruneSelector gid disturbed running id (c, r)) as [c' r'] eqn:E. eapply quiet_trans; [|apply IH].
  unfold pruneSelector in E. revert E. destruct (GetProfile _ _) as [ent|]; [|intros [= -> ->]; apply quiet_refl].
  destruct (AutoSelectorOf ent) as [s|]; [|intros [= -> ->]; apply quiet_refl].
  destruct (negb (Tracks gid s)); [intros [= -> ->]; apply quiet_refl|]. cbv zeta. intros E.
  set (c1 := putObject _ _ c) in E. set (c2 := if _ || _ then _ else _) in E.
  assert (B : quiet c c2). { apply (quiet_trans _ c1); [apply quiet_object|]. unfold c2. destruct (_ || _); auto with books. }
  assert (E' : c' = c2) by (repeat case_match; congruence). by rewrite E'.
Qed.

Lemma quiet_signals before outs c : quiet c (aTasks (acTasks c ++ signals before outs) c).
Proof.
  quiet_same. intros f F1 F2 F3. rewrite sumOf_app. enough (sumOf f (signals before outs) = 0) by lia. apply sumOf_nil.
  apply Forall_forall. intros t Ht. apply list_elem_of_In in Ht. apply in_flat_map in Ht as (o & _ & Ho).
  destruct o; cbn in Ho; try done; destruct Ho as [<-|[]]; auto.
Qed.

Lemma quiet_monitor now ev c : quiet c (onMonitor now ev c).
Proof. destruct (quiet_signals (length (mOut (nLatencies (prLatency <$> dbProfiles (dbOf c)) (acMonitor c)))) (mOut (monitorStep ev (nLatencies (prLatency <$> dbProfiles (dbOf c)) (acMonitor c)))) c). by split. Qed.

Lemma quiet_built id builds nowMs now c : quiet c (noteBuilt id builds nowMs now c).
Proof.
  unfold noteBuilt. cbv zeta. set (c1 := aMonitor _ c). assert (B : quiet c c1) by quiet_same. clearbody c1.
  eapply quiet_trans; [|by apply quiet_out]. eapply quiet_trans; [exact B|].
  destruct builds as [|info builds]; [apply quiet_refl|]. destruct (objectOf c1 id) as [ent|]; [|apply quiet_refl].
  destruct (AutoSelectorOf ent); [|apply quiet_refl]. eapply quiet_trans; [apply quiet_object|apply quiet_save].
Qed.

(** ** Sweeps *)

Lemma b2z_nonneg (b : bool) : 0 <= Z.b2z b.
Proof. by destruct b. Qed.
Lemma waitsFor_nonneg t k : 0 <= waitsFor t k.
Proof. destruct k; cbn; [apply b2z_nonneg|done]. Qed.
Lemma liveSweep_nonneg s : 0 <= liveSweep s.
Proof. apply b2z_nonneg. Qed.
Lemma liveTask_nonneg t : 0 <= liveTask t.
Proof. by destruct t. Qed.
Lemma startSweep_live s : 0 <= startSweep s <= liveSweep s.
Proof. unfold startSweep, liveSweep. destruct (live s), (swKind s); cbn; lia. Qed.
Lemma startTask_live t : 0 <= startTask t <= liveTask t.
Proof. destruct t; cbn; try lia. destruct kind; cbn; lia. Qed.
Lemma owedBySweep_nonneg t s : 0 <= owedBySweep t s.
Proof. unfold owedBySweep. destruct (owing s); [apply waitsFor_nonneg|done]. Qed.
Lemma owedByTask_nonneg t k : 0 <= owedByTask t k.
Proof. destruct k; cbn; try done; [apply waitsFor_nonneg|]. destruct startedEarly; [done|apply waitsFor_nonneg]. Qed.

Lemma sumOf_le {A} (f g : A -> Z) l : (forall x, f x <= g x) -> sumOf f l <= sumOf g l.
Proof. intros H. induction l as [|x l IH]; [done|]. change (f x + sumOf f l <= g x + sumOf g l). specialize (H x). lia. Qed.

Lemma acOk_for k v c : acOk k c -> acOk k (aRankedFor v c).
Proof. by intros [L F S W]. Qed.

Lemma newSweep_ok ent kind b : swOk (newSweep ent kind b).
Proof. by repeat split. Qed.

(** A sweep for a start opens when none runs. *)
Lemma opened_start k id b c : acOk k c -> acRankingInFlight c <= 0 ->
  acOk k (aSweeps (acSweeps c ++ [newSweep id (ForStart (acNextToken c)) b]) (aNextToken (S (acNextToken c)) (aRankingInFlight (acRankingInFlight c + 1) c))).
Proof.
  intros [L F S W] H0. pose proof (sumOf_nonneg _ (acSweeps c) liveSweep_nonneg). pose proof (sumOf_nonneg _ (acTasks c) liveTask_nonneg).
  pose proof (sumOf_le startSweep liveSweep (acSweeps c) (fun s => proj2 (startSweep_live s))).
  pose proof (sumOf_le startTask liveTask (acTasks c) (fun s => proj2 (startTask_live s))).
  split; cbn [acSweeps acTasks acNextToken acRankingInFlight aSweeps aNextToken aRankingInFlight].
  - intros t. specialize (L t). unfold owed, resumes in *. cbn [acSweeps acTasks acOut aSweeps aNextToken aRankingInFlight].
    rewrite sumOf_app, sumOf_one. unfold owedBySweep at 2. cbn [owing newSweep swPhase swStartedEarly negb swKind waitsFor].
    destruct (Nat.eqb_spec (acNextToken c) t), (Nat.ltb_spec t (acNextToken c)), (Nat.ltb_spec t (Datatypes.S (acNextToken c))); cbn in *; lia.
  - rewrite sumOf_app, sumOf_one. change (liveSweep _) with 1 at 1. lia.
  - rewrite sumOf_app, sumOf_one. change (startSweep (newSweep _ _ _)) with 1. lia.
  - apply Forall_app. split; [done|]. apply Forall_singleton, newSweep_ok.
Qed.

Lemma opened_exhausted k id c : acOk k c -> acOk k (aSweeps (acSweeps c ++ [newSweep id ForExhausted true]) (aRankingInFlight (acRankingInFlight c + 1) c)).
Proof.
  intros [L F S W]. split; cbn [acSweeps acTasks acNextToken acRankingInFlight aSweeps aNextToken aRankingInFlight].
  - intros t. specialize (L t). unfold owed, resumes in *. cbn [acSweeps acTasks acOut aSweeps aNextToken aRankingInFlight].
    rewrite sumOf_app, sumOf_one. change (owedBySweep t (newSweep _ _ _)) with 0. cbn in *. lia.
  - rewrite sumOf_app, sumOf_one. change (liveSweep (newSweep _ _ _)) with 1. lia.
  - rewrite sumOf_app, sumOf_one. change (startSweep (newSweep _ _ _)) with 0. lia.
  - apply Forall_app. split; [done|]. apply Forall_singleton, newSweep_ok.
Qed.

Lemma rankBeforeStart_ok k t id b c : acOk k c -> acOk k (snd (rankBeforeStart t id b c)).
Proof.
  intros H. apply (acOk_for k (-1)) in H. unfold rankBeforeStart. cbv zeta. set (c1 := aRankedFor (-1) c) in *. clearbody c1.
  destruct (objectOf c1 id) as [ent|]; [|done]. destruct (negb (isType _ ent) || _ || _) eqn:E; [done|].
  destruct (PlanAutoSelector _ _ _ _) as [plan ent']. apply (quiet_ok k c1 (putObject id ent' c1)) in H; [|apply quiet_object].
  destruct (negb _ || negb _); [done|]. cbn [snd]. apply opened_start; [done|].
  rewrite !orb_false_iff in E. destruct E as [[_ E] _]. apply Z.ltb_ge in E. by rewrite (q_flight _ _ (quiet_object id ent' c1)).
Qed.

Lemma enter_ok k re c : acOk k c -> acOk k (enter re c).
Proof. intros H. destruct re; [by apply rankBeforeStart_ok|done]. Qed.

Lemma startRanked_ok k k' id start c : (forall c, acOk k c -> acOk k' (start c)) -> acOk k c -> acOk k' (startRanked id start c).
Proof. intros Hs H. unfold startRanked. apply acOk_for, Hs. by apply acOk_for. Qed.

Lemma controlStart_ok k id re c : acOk k c -> acOk k (controlStart id re c).
Proof. intros H. apply enter_ok. eapply quiet_ok; [by apply quiet_out|done]. Qed.

Lemma acOk_carried k k' c : (forall t, k t = k' t) -> acOk k c -> acOk k' c.
Proof. intros E [L F S W]. split; try done. intros t. by rewrite <- E. Qed.

(** The start that waits is resumed. *)
Lemma resume_ok k ent kind re c : acOk (fun t => waitsFor t kind + k t) c -> acOk k (resumeSweep ent kind re c).
Proof.
  destruct kind as [token|]; cbn [resumeSweep waitsFor].
  - apply startRanked_ok. intros c1 [L F S W]. apply enter_ok. split; try done. intros t. specialize (L t). unfold owed, resumes, outAc in *.
    cbn [acOut aOut acSweeps acTasks acNextToken] in *. rewrite sumOf_app, sumOf_one. cbn [resumed]. lia.
  - intros H. apply (acOk_carried _ k) in H; [|done]. destruct (acRunning c) as [r|]; [|done]. destruct (r =? ent); [|done].
    apply (startRanked_ok k); [|done]. intros c1. apply controlStart_ok.
Qed.

(** A sweep moves and keeps what it owes. *)
Lemma moved k i s s' c : acSweeps c !! i = Some s -> swOk s' -> swKind s' = swKind s -> owing s' = owing s -> live s' = live s ->
  acOk k c -> acOk k (setSweep i s' c).
Proof.
  intros E Hs Hk Ho Hl [L F S W]. split; cbn [acSweeps acTasks acNextToken acRankingInFlight aSweeps setSweep].
  - intros t. specialize (L t). unfold owed, resumes in *. cbn [acSweeps acTasks acOut aSweeps setSweep]. rewrite (sumOf_insert _ _ _ _ _ E).
    unfold owedBySweep at 2 3. rewrite Hk, Ho. lia.
  - rewrite (sumOf_insert _ _ _ _ _ E). unfold liveSweep at 2 3. rewrite Hl. lia.
  - rewrite (sumOf_insert _ _ _ _ _ E). unfold startSweep at 2 3. rewrite Hl, Hk. lia.
  - by apply Forall_insert.
Qed.

(** Its thread ends: what it owed goes with the task. *)
Lemma over_ok k i s c : acSweeps c !! i = Some s -> live s = true -> owing s = negb (swStartedEarly s) ->
  acOk k c -> acOk k (sweepOver i (swStartedEarly s) s c).
Proof.
  intros E Hl Ho [L F S W]. split; cbn [acSweeps acTasks acNextToken acRankingInFlight aSweeps aTasks sweepOver postAc].
  - intros t. specialize (L t). unfold owed, resumes in *. cbn [acSweeps acTasks acOut aSweeps aTasks sweepOver postAc]. rewrite (sumOf_insert _ _ _ _ _ E), sumOf_app, sumOf_one.
    change (owedBySweep t (wPhase SwOver s)) with 0. unfold owedBySweep at 2. rewrite Ho. cbn [owedByTask]. destruct (swStartedEarly s); cbn [negb]; lia.
  - rewrite (sumOf_insert _ _ _ _ _ E), sumOf_app, sumOf_one. unfold liveSweep at 2. rewrite Hl. cbn. lia.
  - rewrite (sumOf_insert _ _ _ _ _ E), sumOf_app, sumOf_one. unfold startSweep at 2. rewrite Hl. cbn. lia.
  - apply Forall_insert; [done|]. destruct (Forall_lookup_1 _ _ _ _ W E) as [A B _ _]. by split.
Qed.

(** ** The semaphore *)

Ltac flags s := destruct (swQuorumMet s) eqn:?, (swDone s) eqn:?, (swStartedEarly s) eqn:?.

Lemma planned_ok stale needed before quorum s : swOk s -> swPhase s = SwBegin -> swOk (wPhase SwTests (wPlanned stale needed before quorum s)).
Proof. intros [A B C _] E. rewrite E in C. by split. Qed.

Lemma accepted_ok s : swOk s -> swPhase s = SwTests -> swOk (wPhase SwStarted (wSession SessionRuns s)).
Proof.
  intros [A [B B'] C _] E. rewrite E in C. destruct C as (C1 & C2 & C3 & C4). rewrite C1 in *. split; cbn; try done.
  - split; [intros H; by apply B in H|done].
  - unfold due. cbn. flags s; try done; rewrite C4; try done. by discriminate (B eq_refl).
Qed.

Lemma refused_ok s : swOk s -> swPhase s = SwTests -> swOk (wPhase SwWait (onFinished (wSession SessionOver s))).
Proof.
  intros [A [B B'] C _] E. rewrite E in C. destruct C as (C1 & C2 & C3 & C4). split; cbn; try done.
  unfold due. cbn. rewrite C2, C3, C4. by repeat split.
Qed.

Lemma checked_ok s : swOk s -> swPhase s = SwStarted -> swOk (wPhase SwWait (checkQuorum s)).
Proof.
  intros [A B C _] E. rewrite E in C. destruct C as (C1 & C2 & C3). unfold checkQuorum, due in *. rewrite C2 in C3.
  destruct (swQuorumMet s) eqn:Eq; cbn [negb andb].
  - split; cbn; rewrite ?Eq, ?C2; try done.
    repeat split; try done. unfold due. cbn. by rewrite Eq, C2.
  - destruct (reachedQuorum s) eqn:Er.
    + split; cbn; try done. repeat split; try done. unfold due. cbn. rewrite C2. change (Z.b2z false) with 0 in *. lia.
    + split; cbn; rewrite ?Eq, ?C2; try done. split; [done|]. split; [|change (reachedQuorum (wPhase SwWait s)) with (reachedQuorum s); congruence].
      unfold due. cbn. by rewrite Eq, C2.
Qed.

Lemma acquired_ok n s : swOk s -> swPhase s = SwWait -> swWake s = S n -> swOk (wPhase SwWoken (wWake n s)).
Proof.
  intros [A B C _] E W. rewrite E in C. destruct C as (C1 & C2 & C3). split; cbn; try done. split; [done|].
  change (due (wPhase SwWoken (wWake n s))) with (due s). split; [lia|exact C3].
Qed.

(** The thread was woken for a reason. *)
Lemma woken_cases s : swOk s -> swPhase s = SwWoken -> swDone s = true \/ swQuorumMet s = true /\ swStartedEarly s = false /\ swWake s = 0%nat.
Proof.
  intros [A B C _] E. rewrite E in C. destruct C as (C1 & C2 & C3). unfold due in C2. flags s; cbn in C2; try lia; auto.
Qed.

Lemma woken_ok s : swOk s -> swPhase s = SwWoken -> swOk (sweepWoken s).
Proof.
  intros H E. destruct (woken_cases s H E) as [D|(M & S & W)]; destruct H as [A B C _]; rewrite E in C; destruct C as (C1 & C2 & C3); unfold sweepWoken.
  - rewrite D. by split.
  - destruct (swDone s) eqn:D; [split; cbn; rewrite ?D; done|]. rewrite M, S. cbn [orb negb]. split; cbn; rewrite ?D; try done.
    split; [done|]. split; [|by rewrite M]. unfold due in *. cbn. rewrite M, D, S, W in *. cbn in *. lia.
Qed.

Lemma early_ok found remaining untrusted s : swOk s -> swPhase s = SwEarly found remaining untrusted -> swOk (wPhase SwWait s).
Proof. intros [A B C _] E. rewrite E in C. by split. Qed.

Lemma met_ok s : swOk s -> swSession s <> NoSession -> swQuorumMet s = false -> swOk (meetQuorum s).
Proof.
  intros [A B C D] Hs M. assert (E : swStartedEarly s = false) by (destruct (swStartedEarly s); [by rewrite A in M|done]).
  assert (Hd : due (meetQuorum s) = due s + 1) by (unfold due; cbn; rewrite M; cbn; lia).
  split; try done. cbn [swPhase meetQuorum swSession swQuorumMet swStartedEarly swWake swDone]. rewrite Hd.
  destruct (swPhase s); cbn [orb]; intuition lia.
Qed.

Lemma result_ok member works s : swOk s -> swSession s <> NoSession -> swOk (onResult member works s).
Proof.
  intros H Hs. unfold onResult. set (measured := _ ∪ swMeasured s). set (working := if works then _ else _). cbv zeta.
  set (s1 := wResult measured working s). destruct H as [A B C D].
  assert (P : (reachedQuorum s1 = true -> swQuorumMet s1 || swDone s1 = true) -> swOk s1).
  { intros Hr. split; try done. change (swPhase s1) with (swPhase s). change (due s1) with (due s).
    destruct (swPhase s); try done; destruct C as (C1 & C2 & C3); repeat split; done. }
  destruct (swQuorumMet s1) eqn:M; cbn [orb]; [by apply P|]. destruct (reachedQuorum s1) eqn:Er; cbn [negb]; [|by apply P].
  split; try done; cbn [swPhase meetQuorum swSession swQuorumMet swStartedEarly swWake swDone].
  change (swSession s1) with (swSession s). change (swStartedEarly s1) with (swStartedEarly s). change (swWake s1) with (swWake s). change (swPhase s1) with (swPhase s).
  change (swQuorumMet s1) with (swQuorumMet s) in M.
  assert (Hd : due (meetQuorum s1) = due s + 1) by (unfold due; cbn; rewrite M; cbn; lia). rewrite Hd.
  destruct (swPhase s); cbn [orb]; intuition (try lia; congruence).
Qed.

Lemma finished_ok s : swOk s -> swSession s = SessionRuns -> swOk (onFinished (wSession SessionOver s)).
Proof.
  intros [A B C D] Hs. assert (Hn : swDone s = false) by (destruct (swDone s); [by rewrite (proj1 B eq_refl) in Hs|done]).
  assert (Hd : due (onFinished (wSession SessionOver s)) = due s + 1) by (unfold due; cbn; rewrite Hn; cbn; lia).
  split; try done; cbn [swPhase onFinished wSession swSession swQuorumMet swStartedEarly swWake swDone]. rewrite Hd, Hs in *.
  destruct (swPhase s); rewrite ?orb_true_r; intuition (try lia; congruence).
Qed.

(** ** Turns *)

Lemma sweep_ok k c i s : acOk k c -> acSweeps c !! i = Some s -> swOk s.
Proof. intros H E. exact (Forall_lookup_1 _ _ _ _ (ok_sweeps _ _ H) E). Qed.

Lemma early_false s : swOk s -> swPhase s = SwBegin -> swStartedEarly s = false.
Proof. intros [_ _ C _] E. rewrite E in C. by destruct C as (_ & _ & H & _). Qed.

Lemma quiet_lookup c c' i s : quiet c c' -> acSweeps c !! i = Some s -> acSweeps c' !! i = Some s.
Proof. intros B. by rewrite (q_sweeps _ _ B). Qed.

Lemma begin_ok k t i s c : acOk k c -> acSweeps c !! i = Some s -> swPhase s = SwBegin -> acOk k (sweepBegin t i s c).
Proof.
  intros H E P. pose proof (sweep_ok _ _ _ _ H E) as W. pose proof (early_false s W P) as Ee.
  assert (Hover : forall c', quiet c c' -> acOk k (sweepOver i false s c')).
  { intros c' B. rewrite <- Ee. apply over_ok; [by apply (quiet_lookup c)| | |by apply (quiet_ok k c)].
    - unfold live. by rewrite P.
    - unfold owing. by rewrite P. }
  unfold sweepBegin. destruct (objectOf c (swEnt s)) as [ent|]; [|apply Hover, quiet_refl].
  destruct (negb _); [apply Hover, quiet_refl|]. cbv zeta. destruct (AutoSelectorUnmeasuredCandidates _ _ _ _ _) as [[needed before] ent'].
  pose proof (quiet_object (swEnt s) ent' c) as B1. set (c1 := putObject (swEnt s) ent' c) in *. clearbody c1.
  destruct (isNil needed).
  - apply Hover. eapply quiet_trans; [exact B1|apply quiet_rerank].
  - destruct (AutoSelectorStartQuorum ent') as [quorum ent'']. pose proof (quiet_trans _ _ _ B1 (quiet_object (swEnt s) ent'' c1)) as B2.
    apply (moved k i s); [by apply (quiet_lookup c)|by apply planned_ok|done| | |by apply (quiet_ok k c)].
    + unfold owing. by rewrite P.
    + unfold live. by rewrite P.
Qed.

Lemma quiet_posted t c c' : quiet c c' -> quiet (postAc t c) (postAc t c').
Proof.
  intros [A1 A2 A3 A4 A5 A6]. split; try done. intros f F1 F2 F3. cbn [acTasks postAc aTasks]. rewrite !sumOf_app. by rewrite A2.
Qed.

Lemma start_early_ok k i s found remaining untrusted c : acOk k c -> acSweeps c !! i = Some s -> swPhase s = SwEarly found remaining untrusted ->
  acOk k (postAc (TkStartEarly (swEnt s) (swKind s)) (setSweep i (wPhase SwWait s) c)).
Proof.
  intros H E P. pose proof (sweep_ok _ _ _ _ H E) as W. pose proof (early_ok _ _ _ _ W P) as W'. destruct W as [_ _ _ D]. rewrite P in D. destruct H as [L F S A].
  split; cbn [acSweeps acTasks acNextToken acRankingInFlight aSweeps aTasks setSweep postAc].
  - intros t. specialize (L t). unfold owed, resumes in *. cbn [acSweeps acTasks acOut aSweeps aTasks setSweep postAc].
    rewrite (sumOf_insert _ _ _ _ _ E), sumOf_app, sumOf_one. unfold owedBySweep at 2 3. cbn [owedByTask]. unfold owing. rewrite P. cbn [swPhase wPhase swStartedEarly swKind].
    rewrite D. cbn [negb]. lia.
  - rewrite (sumOf_insert _ _ _ _ _ E), sumOf_app, sumOf_one. unfold liveSweep at 2 3, live. rewrite P. cbn. lia.
  - rewrite (sumOf_insert _ _ _ _ _ E), sumOf_app, sumOf_one. unfold startSweep at 2 3, live. rewrite P. cbn. lia.
  - by apply Forall_insert.
Qed.

Lemma sweepStep_ok k t a i c : acOk k c -> acOk k (sweepStep t a i c).
Proof.
  intros H. unfold sweepStep. destruct (acSweeps c !! i) as [s|] eqn:E; [|done]. pose proof (sweep_ok _ _ _ _ H E) as W.
  destruct (swPhase s) eqn:P.
  - by apply begin_ok.
  - pose proof (swOk_phase s W) as C. rewrite P in C. destruct C as (C1 & C2 & C3 & C4).
    unfold sweepTests. destruct a.
    + apply (moved k i s); [done|by apply accepted_ok|done| | |done]; unfold owing, live; by rewrite P.
    + apply (moved k i s); [done|by apply refused_ok|done| | |by apply (quiet_ok k c); [apply quiet_out|]]; unfold owing, live; by rewrite P.
  - apply (moved k i s); [done|by apply checked_ok| | | |done]; unfold owing, live, checkQuorum; rewrite ?P; by destruct (_ && _).
  - destruct (swWake s) as [|n] eqn:En; [done|]. apply (moved k i s); [done|by apply acquired_ok|done| | |done]; unfold owing, live; by rewrite P.
  - apply (moved k i s); [done|by apply woken_ok| | | |done]; unfold owing, live, sweepWoken; rewrite ?P; destruct (swDone s); [done| |done| |done|];
      destruct (swStartedEarly s) eqn:Es, (swQuorumMet s) eqn:Eq; cbn; rewrite ?Es; done.
  - eapply quiet_ok; [|by eapply start_early_ok]. apply quiet_posted. eapply quiet_trans; [apply quiet_rerank|by apply quiet_out].
  - destruct (swStartedEarly s) eqn:Ee; rewrite <- Ee; apply over_ok; try done; try (unfold owing, live; by rewrite P).
    + by apply (quiet_lookup c); [apply quiet_rerank|].
    + by apply (quiet_ok k c); [apply quiet_rerank|].
  - done.
Qed.

Lemma sessionResult_ok k i member now c : acOk k c -> acOk k (sessionResult i member now c).
Proof.
  intros H. unfold sessionResult. destruct (acSweeps c !! i) as [s|] eqn:E; [|done]. pose proof (sweep_ok _ _ _ _ H E) as W.
  assert (M : forall works, swSession s <> NoSession -> acOk k (setSweep i (onResult member works s) c)).
  { intros works Hs. apply (moved k i s); [done|by apply result_ok| | | |done]; unfold owing, live, onResult; by destruct (_ || _). }
  destruct (swSession s) eqn:Es; [done| |]; by apply M.
Qed.

Lemma sessionEnd_ok k i c : acOk k c -> acOk k (sessionEnd i c).
Proof.
  intros H. unfold sessionEnd. destruct (acSweeps c !! i) as [s|] eqn:E; [|done]. pose proof (sweep_ok _ _ _ _ H E) as W.
  destruct (swSession s) eqn:Es; try done. apply (moved k i s); [done|by apply finished_ok|done|done|done|done].
Qed.

Lemma quiet_early ent c : quiet c (finishEarlySweep ent c).
Proof. unfold finishEarlySweep. by case_bool_decide. Qed.

Lemma quiet_settled state c : quiet c (settled state c).
Proof.
  unfold settled. case_bool_decide; [apply quiet_refl|]. generalize (acSettling c). intros l. assert (B : quiet c (aSettling [] c)) by done. revert B.
  generalize (aSettling [] c). induction l as [|ent l IH]; intros c1 B; cbn [fold_left]; [done|]. apply IH. eapply quiet_trans; [exact B|apply quiet_early].
Qed.

Lemma quiet_finisher t i c : quiet c (finisherStep t i c).
Proof.
  unfold finisherStep. destruct (acFinishers c !! i) as [f|]; [|apply quiet_refl]. cbv zeta. destruct (fnPhase f).
  - eapply quiet_trans; [apply quiet_rerank|done].
  - destruct (AutoSelectorBuildChanged _ _ _ _ _) as [changed ent']. eapply quiet_trans; [apply quiet_object|].
    eapply quiet_trans; [|by apply quiet_post]. done.
  - apply quiet_refl.
Qed.

Lemma measured_ok k ent changed re c : acOk k c -> acOk k (measured ent changed re c).
Proof.
  intros H. unfold measured. destruct (_ || _); [done|]. destruct (acRunning c) as [r|]; [|done]. destruct (r =? ent); [|done].
  apply (startRanked_ok k); [intros c1; apply controlStart_ok|]. by eapply quiet_ok; [apply quiet_out|].
Qed.

Lemma onPoolExhausted_ok k id c : acOk k c -> acOk k (onPoolExhausted id c).
Proof.
  intros H. unfold onPoolExhausted. destruct (dbProfiles _ !! id); [|done]. destruct (acRunning c) as [r|]; [|done].
  destruct (r =? id); [by apply opened_exhausted|done].
Qed.

Lemma subscription_ok k gid disturbed re c : acOk k c -> acOk k (onSubscriptionGroupChanged gid disturbed re c).
Proof.
  intros H. unfold onSubscriptionGroupChanged. destruct (gid <? 0); [done|]. cbv zeta.
  pose proof (quiet_prune gid (list_to_set disturbed) (acRunning c) (GetProfileIdsByType (dbOf c) "autoselector") c (-1)) as B.
  destruct (fold_left _ _ _) as [c1 restartID]. cbn [fst] in B. apply (quiet_ok k) in B; [|done].
  destruct (restartID <? 0); [done|by apply controlStart_ok].
Qed.

(** A task comes off the queue with what it owes. *)
Lemma runTask_ok re c : acOk (fun _ => 0) c -> acOk (fun _ => 0) (runTask re c).
Proof.
  intros H. unfold runTask. destruct (acTasks c) as [|task rest] eqn:Et; [done|]. cbv zeta.
  assert (Hpop : acRankingInFlight c - liveTask task = acRankingInFlight (aRankingInFlight (acRankingInFlight c - liveTask task) (aTasks rest c))) by done.
  assert (P : acOk (fun t => owedByTask t task + 0) (aRankingInFlight (acRankingInFlight c - liveTask task) (aTasks rest c))).
  { destruct H as [L F S W]. unfold owed in L. rewrite Et in *. pose proof (startTask_live task).
    change (sumOf liveTask (task :: rest)) with (liveTask task + sumOf liveTask rest) in F.
    change (sumOf startTask (task :: rest)) with (startTask task + sumOf startTask rest) in S.
    split; cbn [acOut acSweeps acTasks acNextToken acRankingInFlight aRankingInFlight aTasks]; try done; try lia.
    intros t. specialize (L t). change (sumOf (owedByTask t) (task :: rest)) with (owedByTask t task + sumOf (owedByTask t) rest) in L. unfold owed, resumes in *. cbn [acOut acSweeps acTasks acNextToken aRankingInFlight aTasks]. lia. }
  destruct task; cbn [liveTask owedByTask] in P.
  - apply (resume_ok (fun _ => 0)). eapply (quiet_ok _ _ (aTasks rest c)) in P; [exact P|]. split; cbn; try done. lia.
  - unfold ranked. cbv zeta. change (acRankingInFlight (aTasks rest c)) with (acRankingInFlight c). destruct startedEarly.
    + eapply quiet_ok; [apply quiet_early|]. by eapply acOk_carried; [|exact P].
    + by apply (resume_ok (fun _ => 0)).
  - apply measured_ok. eapply (quiet_ok _ _ (aTasks rest c)) in P; [by eapply acOk_carried; [|exact P]|]. split; cbn; try done. lia.
  - apply onPoolExhausted_ok. eapply (quiet_ok _ _ (aTasks rest c)) in P; [by eapply acOk_carried; [|exact P]|]. split; cbn; try done. lia.
  - eapply quiet_ok; [by apply quiet_out|]. eapply (quiet_ok _ _ (aTasks rest c)) in P; [by eapply acOk_carried; [|exact P]|]. split; cbn; try done. lia.
Qed.

Lemma acTurn_ok ev c : acOk (fun _ => 0) c -> acOk (fun _ => 0) (acTurn ev c).
Proof.
  intros H. destruct ev; cbn [acTurn].
  - unfold startMonitorLoop. destruct (acMonitorLoopStarted c); [done|]. eapply quiet_ok; [by apply quiet_out|]. by eapply (quiet_ok _ c).
  - by apply rankBeforeStart_ok.
  - by apply sweepStep_ok.
  - by apply sessionResult_ok.
  - by apply sessionEnd_ok.
  - eapply quiet_ok; [apply quiet_finisher|done].
  - by apply runTask_ok.
  - by eapply (quiet_ok _ c).
  - eapply quiet_ok; [apply quiet_settled|done].
  - by apply subscription_ok.
  - eapply quiet_ok; [apply quiet_monitor|done].
  - eapply quiet_ok; [apply quiet_built|done].
  - unfold noteStopped. eapply quiet_ok; [by apply quiet_out|]. eapply quiet_ok; [apply quiet_monitor|done].
  - by eapply (quiet_ok _ c).
  - by eapply (quiet_ok _ c).
  - by eapply (quiet_ok _ c).
Qed.

Lemma acReachable_ok c : acReachable c -> acOk (fun _ => 0) c.
Proof.
  induction 1 as [objects groups|ev c _ IH]; [|by apply acTurn_ok]. by split.
Qed.

(** Between turns no start skips its ranking. *)
Lemma acTurn_for ev c : acRankedFor c = -1 -> acRankedFor (acTurn ev c) = -1.
Proof.
  assert (Hr : forall t id b c, acRankedFor (snd (rankBeforeStart t id b c)) = -1).
  { intros t id b c1. unfold rankBeforeStart. cbv zeta. destruct (objectOf _ id) as [ent|]; [|done]. destruct (_ || _); [done|].
    destruct (PlanAutoSelector _ _ _ _) as [plan ent']. destruct (_ || _); by destruct ent'. }
  assert (He : forall re c, acRankedFor c = -1 -> acRankedFor (enter re c) = -1) by (intros [r|] c1 H; [apply Hr|done]).
  assert (Hs : forall ent kind re c, acRankedFor c = -1 -> acRankedFor (resumeSweep ent kind re c) = -1).
  { intros ent kind re c1 H. destruct kind; cbn [resumeSweep]; [done|]. destruct (acRunning c1); [|done]. by destruct (_ =? _). }
  intros H. destruct ev; cbn [acTurn]; try done.
  - unfold startMonitorLoop. by destruct (acMonitorLoopStarted c).
  - unfold sweepStep. destruct (acSweeps c !! i) as [s|]; [|done]. destruct (swPhase s); try done.
    + unfold sweepBegin. destruct (objectOf c (swEnt s)) as [ent|]; [|done]. destruct (negb _); [done|]. cbv zeta.
      destruct (AutoSelectorUnmeasuredCandidates _ _ _ _ _) as [[needed before] ent']. set (c1 := putObject _ ent' c).
      assert (E : acRankedFor c1 = -1) by (unfold c1; by destruct ent'). clearbody c1. destruct (isNil needed).
      * cbn. by rewrite (q_for _ _ (quiet_rerank t (swEnt s) [] c1)).
      * destruct (AutoSelectorStartQuorum ent') as [quorum [ent''|]]; done.
    + unfold sweepTests. by destruct accepted.
    + by destruct (swWake s).
    + cbn. by rewrite (q_for _ _ (quiet_rerank t (swEnt s) _ _)).
    + destruct (swStartedEarly s); [done|]. cbn. by rewrite (q_for _ _ (quiet_rerank t (swEnt s) _ _)).
  - unfold sessionResult. destruct (acSweeps c !! i) as [s|]; [|done]. by destruct (swSession s).
  - unfold sessionEnd. destruct (acSweeps c !! i) as [s|]; [|done]. by destruct (swSession s).
  - by rewrite (q_for _ _ (quiet_finisher t i c)).
  - unfold runTask. destruct (acTasks c) as [|task rest]; [done|]. cbv zeta. destruct task; try done; [by apply Hs| | |].
    + unfold ranked. cbv zeta. destruct startedEarly; [|by apply Hs]. by rewrite (q_for _ _ (quiet_early _ _)).
    + unfold measured. destruct (_ || _); [done|]. destruct (acRunning _); [|done]. by destruct (_ =? _).
    + unfold onPoolExhausted. destruct (dbProfiles _ !! id); [|done]. destruct (acRunning _); [|done]. by destruct (_ =? _).
  - by rewrite (q_for _ _ (quiet_settled _ _)).
  - unfold onSubscriptionGroupChanged. destruct (gid <? 0); [done|]. cbv zeta.
    pose proof (quiet_prune gid (list_to_set disturbed) (acRunning c) (GetProfileIdsByType (dbOf c) "autoselector") c (-1)) as B.
    destruct (fold_left _ _ _) as [c1 restartID]. cbn [fst] in B. destruct (restartID <? 0); [by rewrite (q_for _ _ B)|].
    apply He. cbn. by rewrite (q_for _ _ B).
  - by rewrite (q_for _ _ (quiet_built id builds nowMs now c)).
Qed.

Lemma acReachable_for c : acReachable c -> acRankedFor c = -1.
Proof. induction 1 as [objects groups|ev c _ IH]; [done|by apply acTurn_for]. Qed.

(** ** A sweep comes to its end *)

Definition blocked (s : Sweep) : bool := match swPhase s with SwWait => (swWake s =? 0)%nat | _ => false end.

(** One step of sweep [i]: its thread's, or the end of the session it waits for. *)
Definition driveEvent (t : Clock) (accepted : bool) (i : nat) (c : Ctl) : AcEvent :=
  match acSweeps c !! i with Some s => if blocked s then AeSessionEnd i else AeSweep i t accepted | None => AeSweep i t accepted end.

Definition togo (s : Sweep) : nat :=
  let more := if swDone s then 0%nat else 5%nat in
  match swPhase s with
  | SwBegin => 9 + more
  | SwTests => 8 + more
  | SwStarted => 4 * swWake s + 7 + more
  | SwWait => 4 * swWake s + 2 + more
  | SwWoken => 4 * swWake s + 5 + more
  | SwEarly _ _ _ => 4 * swWake s + 3 + more
  | SwFinal => 1
  | SwOver => 0
  end.

Lemma blocked_session s : swOk s -> blocked s = true -> swSession s = SessionRuns /\ swDone s = false /\ (reachedQuorum s = true -> swStartedEarly s = true).
Proof.
  intros [A B C _] Hb. unfold blocked in Hb. destruct (swPhase s); try done. apply Nat.eqb_eq in Hb. destruct C as (C1 & C2 & C3). rewrite Hb in C2. unfold due in C2.
  assert (D : swDone s = false) by (flags s; cbn in *; try done; by specialize (A eq_refl)). rewrite D in *. split; [|split; [done|]].
  - destruct (swSession s); try done. destruct B as [_ B]. by specialize (B eq_refl).
  - intros Hr. specialize (C3 Hr). rewrite orb_false_r in C3. rewrite C3 in C2. by destruct (swStartedEarly s).
Qed.

Lemma quiet_sweeps_insert i s c c' : quiet c c' -> <[i := s]> (acSweeps c') = <[i := s]> (acSweeps c).
Proof. intros B. by rewrite (q_sweeps _ _ B). Qed.

Lemma drive_less t a i s c : swOk s -> acSweeps c !! i = Some s -> live s = true ->
  exists s', acSweeps (acTurn (driveEvent t a i c) c) = <[i := s']> (acSweeps c) /\ (togo s' < togo s)%nat /\ swKind s' = swKind s.
Proof.
  intros W E Hl. unfold driveEvent. rewrite E. destruct (blocked s) eqn:Hb.
  { destruct (blocked_session s W Hb) as (Hs & Hd & _). cbn [acTurn]. unfold sessionEnd. rewrite E, Hs. eexists. split; [done|]. split; [|done].
    unfold blocked in Hb. unfold togo. cbn. rewrite Hd. destruct (swPhase s); try done. apply Nat.eqb_eq in Hb. rewrite Hb. lia. }
  cbn [acTurn]. unfold sweepStep. rewrite E. unfold live in Hl. pose proof (swOk_phase s W) as C. unfold togo. destruct (swPhase s) eqn:P; try done.
  - assert (Hover : forall c', quiet c c' -> exists s', acSweeps (sweepOver i false s c') = <[i := s']> (acSweeps c) /\ (togo s' < 9 + (if swDone s then 0 else 5))%nat /\ swKind s' = swKind s).
    { intros c' B. exists (wPhase SwOver s). split; [by apply (quiet_sweeps_insert i (wPhase SwOver s))|]. split; [cbn; lia|done]. }
    unfold sweepBegin. destruct (objectOf c (swEnt s)) as [ent|]; [|apply Hover, quiet_refl]. destruct (negb _); [apply Hover, quiet_refl|]. cbv zeta.
    destruct (AutoSelectorUnmeasuredCandidates _ _ _ _ _) as [[needed before] ent']. destruct (isNil needed).
    + apply Hover. eapply quiet_trans; [apply quiet_object|apply quiet_rerank].
    + destruct (AutoSelectorStartQuorum ent') as [quorum ent'']. set (s1 := wPhase SwTests _). exists s1. split; [|split; [|done]].
      * apply (quiet_sweeps_insert i s1). eapply quiet_trans; apply quiet_object.
      * cbn. lia.
  - destruct C as (_ & _ & _ & C4). unfold sweepTests. destruct a; eexists; (split; [done|]; split; [|done]); cbn; rewrite C4; destruct (swDone s); lia.
  - eexists. split; [done|]. unfold checkQuorum. destruct (_ && _); (split; [|done]); cbn; lia.
  - unfold blocked in Hb. rewrite P in Hb. destruct (swWake s) as [|n] eqn:En; [done|]. eexists. split; [done|]. split; [|done]. cbn. lia.
  - eexists. split; [done|]. unfold sweepWoken. destruct (swDone s) eqn:D; [split; [cbn; lia|done]|].
    destruct (swStartedEarly s || negb (swQuorumMet s)); (split; [|done]); cbn; rewrite D; lia.
  - exists (wPhase SwWait s). split; [exact (q_sweeps _ _ (quiet_rerank t (swEnt s) untrusted (setSweep i (wPhase SwWait s) c)))|].
    split; [|done]. cbn. lia.
  - exists (wPhase SwOver s). destruct (swStartedEarly s); (split; [|by split; [cbn; lia|]]); [done|]. by apply (quiet_sweeps_insert i (wPhase SwOver s)), quiet_rerank.
Qed.

Fixpoint driveEvents (t : Clock) (accepted : bool) (i n : nat) (c : Ctl) : list AcEvent :=
  match n with
  | O => []
  | S n' => let ev := driveEvent t accepted i c in ev :: driveEvents t accepted i n' (acTurn ev c)
  end.

Definition acRun (evs : list AcEvent) (c : Ctl) : Ctl := fold_left (fun c ev => acTurn ev c) evs c.

Lemma acRun_app evs evs' c : acRun (evs ++ evs') c = acRun evs' (acRun evs c).
Proof. apply fold_left_app. Qed.

Lemma acRun_ok k evs c : k = (fun _ => 0) -> acOk k c -> acOk k (acRun evs c).
Proof. intros -> H. revert c H. induction evs as [|ev evs IH]; intros c H; [done|]. apply IH. by apply acTurn_ok. Qed.

Lemma drive_over t a i s c : acOk (fun _ => 0) c -> acSweeps c !! i = Some s ->
  exists n s', acSweeps (acRun (driveEvents t a i n c) c) = <[i := s']> (acSweeps c) /\ live s' = false /\ swKind s' = swKind s.
Proof.
  intros H E. remember (togo s) as m eqn:Em. revert c s H E Em. induction m as [m IH] using lt_wf_ind. intros c s H E ->.
  destruct (live s) eqn:Hl; [|exists 0%nat, s; by rewrite list_insert_id].
  destruct (drive_less t a i s c (sweep_ok _ _ _ _ H E) E Hl) as (s1 & E1 & Hm & Hk). pose proof (lookup_lt_Some _ _ _ E) as Hlt.
  destruct (IH (togo s1) Hm (acTurn (driveEvent t a i c) c) s1) as (n & s2 & E2 & Hl2 & Hk2).
  - by apply acTurn_ok.
  - rewrite E1. by apply list_lookup_insert_eq.
  - done.
  - exists (Datatypes.S n), s2. cbn [driveEvents acRun fold_left]. unfold acRun in E2. rewrite E2, E1, list_insert_insert_eq. by rewrite Hk2.
Qed.

Lemma driven_token t a i n c : acNextToken (acRun (driveEvents t a i n c) c) = acNextToken c.
Proof.
  revert c. induction n as [|n IH]; intros c; [done|]. cbn [driveEvents acRun fold_left]. unfold acRun in IH. rewrite IH. clear IH.
  assert (Q2 : forall c', quiet c c' -> acNextToken c' = acNextToken c) by (intros c' B; apply (q_token _ _ B)).
  unfold driveEvent. destruct (acSweeps c !! i) as [s|] eqn:E; [destruct (blocked s)|]; cbn [acTurn]; unfold sessionEnd, sweepStep; rewrite ?E; [|clear E|done].
  - by destruct (swSession s).
  - destruct (swPhase s); try done.
    + unfold sweepBegin. destruct (objectOf c (swEnt s)) as [ent|]; [|done]. destruct (negb _); [done|]. cbv zeta.
      destruct (AutoSelectorUnmeasuredCandidates _ _ _ _ _) as [[needed before] ent']. destruct (isNil needed).
      * cbn [acNextToken sweepOver setSweep postAc outAc aTasks aSweeps aOut]. apply Q2. eapply quiet_trans; [apply quiet_object|apply quiet_rerank].
      * destruct (AutoSelectorStartQuorum ent') as [quorum ent'']. cbn [acNextToken sweepOver setSweep postAc outAc aTasks aSweeps aOut]. apply Q2.
        eapply quiet_trans; apply quiet_object.
    + unfold sweepTests. by destruct a.
    + by destruct (swWake s).
    + cbn [acNextToken sweepOver setSweep postAc outAc aTasks aSweeps aOut]. exact (q_token _ _ (quiet_rerank t (swEnt s) untrusted (setSweep i (wPhase SwWait s) c))).
    + destruct (swStartedEarly s); [done|]. cbn [acNextToken sweepOver setSweep postAc outAc aTasks aSweeps aOut]. apply Q2, quiet_rerank.
Qed.

(** Without a start coming back, the queue runs empty. *)
Lemma runTask_none c token : acTasks (runTask None c) = List.tl (acTasks c) /\
  sumOf (owedBySweep token) (acSweeps (runTask None c)) = sumOf (owedBySweep token) (acSweeps c).
Proof.
  unfold runTask. destruct (acTasks c) as [|task rest] eqn:Et; [by rewrite Et|]. cbv zeta. destruct task; cbn [List.tl].
  - unfold resumeSweep. destruct kind; [done|]. cbn [acRunning aTasks]. destruct (acRunning c); [|done]. by destruct (_ =? _).
  - unfold ranked, finishEarlySweep, resumeSweep. cbv zeta. destruct startedEarly; [by case_bool_decide|]. destruct kind; [done|].
    cbn [acRunning aRankingInFlight aTasks]. destruct (acRunning c); [|done]. by destruct (_ =? _).
  - unfold measured. destruct (_ || _); [done|]. cbn [acRunning aTasks]. destruct (acRunning c); [|done]. by destruct (_ =? _).
  - unfold onPoolExhausted. destruct (dbProfiles _ !! id); [|done]. cbn [acRunning aTasks]. destruct (acRunning c); [|done]. destruct (_ =? _); [|done].
    split; [done|]. cbn [acSweeps aSweeps aRankingInFlight aTasks]. rewrite sumOf_app, sumOf_one. cbn. lia.
  - done.
Qed.

Lemma drain_queue n c token : (length (acTasks c) <= n)%nat ->
  acTasks (acRun (repeat (AeTask None) n) c) = [] /\
  sumOf (owedBySweep token) (acSweeps (acRun (repeat (AeTask None) n) c)) = sumOf (owedBySweep token) (acSweeps c).
Proof.
  revert c. induction n as [|n IH]; intros c Hn; cbn [repeat acRun fold_left].
  - destruct (acTasks c); [done|cbn in Hn; lia].
  - destruct (runTask_none c token) as [E1 E2]. destruct (IH (runTask None c)) as [F1 F2].
    + rewrite E1. destruct (acTasks c); cbn in *; lia.
    + split; [done|]. cbn [acTurn]. rewrite <- E2. exact F2.
Qed.

Lemma drained_token n c : acNextToken (acRun (repeat (AeTask None) n) c) = acNextToken c.
Proof.
  revert c. induction n as [|n IH]; intros c; [done|]. cbn [repeat acRun fold_left]. unfold acRun in IH. rewrite IH. cbn [acTurn]. clear IH.
  unfold runTask. destruct (acTasks c) as [|task rest]; [done|]. cbv zeta. destruct task; try done.
  - unfold resumeSweep. destruct kind; [done|]. destruct (acRunning _); [|done]. by destruct (_ =? _).
  - unfold ranked, finishEarlySweep, resumeSweep. cbv zeta. destruct startedEarly; [by case_bool_decide|]. destruct kind; [done|].
    destruct (acRunning _); [|done]. by destruct (_ =? _).
  - unfold measured. destruct (_ || _); [done|]. destruct (acRunning _); [|done]. by destruct (_ =? _).
  - unfold onPoolExhausted. destruct (dbProfiles _ !! id); [|done]. destruct (acRunning _); [|done]. by destruct (_ =? _).
Qed.

(** ** Results *)

Lemma resumes_bounds token c : acOk (fun _ => 0) c -> 0 <= resumes token c /\ 0 <= owed token c.
Proof.
  intros H. split; [apply sumOf_nonneg; intros []; cbn; try done; apply b2z_nonneg|].
  unfold owed. pose proof (sumOf_nonneg _ (acSweeps c) (owedBySweep_nonneg token)). pose proof (sumOf_nonneg _ (acTasks c) (owedByTask_nonneg token)). lia.
Qed.

Lemma owing_live token s : owedBySweep token s <> 0 -> live s = true.
Proof. unfold owedBySweep, owing, live. by destruct (swPhase s). Qed.

(** C3: a start that went off to rank is resumed exactly once: at every moment it
    has either been resumed or is still owed, by one sweep or one task of the
    main thread, and never both; and the steps of one sweep's thread, the end
    of its test session and the tasks of the queue get it resumed, whatever
    the clock reads and whether or not the session is accepted. *)
Theorem ranked_start_resumed c token t accepted : acReachable c -> (token < acNextToken c)%nat ->
  resumes token c + owed token c = 1 /\ (resumes token c = 0 \/ owed token c = 0) /\
  exists i n k, let evs := driveEvents t accepted i n c ++ repeat (AeTask None) k in
    resumes token (acRun evs c) = 1 /\ owed token (acRun evs c) = 0.
Proof.
  intros Hr Hn. pose proof (acReachable_ok c Hr) as H. pose proof (ok_ledger _ _ H token) as L. apply Nat.ltb_lt in Hn. rewrite Hn in L. cbn [Z.b2z] in L.
  destruct (resumes_bounds token c H) as [B1 B2]. split; [lia|]. split; [lia|].
  assert (Hd : exists i n, sumOf (owedBySweep token) (acSweeps (acRun (driveEvents t accepted i n c) c)) = 0 /\ acNextToken (acRun (driveEvents t accepted i n c) c) = acNextToken c).
  { destruct (decide (0 < sumOf (owedBySweep token) (acSweeps c))) as [Hs|Hs].
    - destruct (sumOf_pos _ _ (owedBySweep_nonneg token) Hs) as (i & s & E & Hp).
      destruct (drive_over t accepted i s c H E) as (n & s' & E' & Hl & Hk). exists i, n. split; [|by apply driven_token].
      assert (Hz : owedBySweep token s' = 0) by (destruct (decide (owedBySweep token s' = 0)) as [|Hz]; [done|apply owing_live in Hz; congruence]).
      rewrite E', (sumOf_insert _ _ _ _ _ E), Hz.
      pose proof (sumOf_ge _ _ _ _ (owedBySweep_nonneg token) E). unfold owed in *. pose proof (sumOf_nonneg _ (acTasks c) (owedByTask_nonneg token)). lia.
    - exists 0%nat, 0%nat. split; [|done]. pose proof (sumOf_nonneg _ (acSweeps c) (owedBySweep_nonneg token)). cbn [driveEvents acRun fold_left]. lia. }
  destruct Hd as (i & n & Hs & Ht). set (c1 := acRun (driveEvents t accepted i n c) c) in *.
  exists i, n, (length (acTasks c1)). cbv zeta. rewrite acRun_app. fold c1.
  destruct (drain_queue (length (acTasks c1)) c1 token (le_n _)) as [F1 F2]. set (c2 := acRun _ c1) in *.
  assert (H2 : acOk (fun _ => 0) c2) by (by apply acRun_ok, acRun_ok).
  pose proof (ok_ledger _ _ H2 token) as L2. unfold owed in *. rewrite F1, F2, Hs in *. change (sumOf (owedByTask token) []) with 0 in *.
  assert (En : acNextToken c2 = acNextToken c) by (rewrite <- Ht; apply drained_token). rewrite En, Hn in L2. cbn [Z.b2z] in L2. lia.
Qed.

(** C14: no wake-up is lost: while the thread of a sweep sleeps on its semaphore,
    its test session is still running and will call back, and if enough
    members are known to work the start has already been let go. *)
Theorem no_lost_wakeup c i s : acReachable c -> acSweeps c !! i = Some s -> swPhase s = SwWait -> swWake s = 0%nat ->
  swSession s = SessionRuns /\ swDone s = false /\ (reachedQuorum s = true -> swStartedEarly s = true).
Proof.
  intros Hr E P W. apply (blocked_session s (sweep_ok _ _ _ _ (acReachable_ok c Hr) E)). unfold blocked. by rewrite P, W.
Qed.

(** The counter of running sweeps counts exactly the sweeps whose thread has
    not ended and the ends the main thread has not seen; at most one of them
    was made for a start; between turns no start skips its ranking; and the
    start a sweep resumes builds instead of ranking its selector again. *)
Theorem one_ranking_at_a_time c : acReachable c ->
  sumOf liveSweep (acSweeps c) + sumOf liveTask (acTasks c) = acRankingInFlight c /\
  sumOf startSweep (acSweeps c) + sumOf startTask (acTasks c) <= 1 /\
  acRankedFor c = -1 /\
  (forall ent token r, reId r = ent -> acSweeps (resumeSweep ent (ForStart token) (Some r) c) = acSweeps c).
Proof.
  intros Hr. destruct (acReachable_ok c Hr) as [_ F S _]. split; [done|]. split; [done|]. split; [by apply acReachable_for|].
  intros ent token r <-. cbn [resumeSweep]. unfold startRanked, enter, rankBeforeStart. cbn [acRankedFor aRankedFor outAc aOut acOut]. rewrite Z.eqb_refl.
  cbv zeta. destruct (objectOf _ _); [|done]. by rewrite orb_true_r.
Qed.

End Books.

#[export] Hint Resolve quiet_rerank : books.

(** The sample selector has an untested member in a build of one: its start goes
    off to rank, and its sweep sleeps on the semaphore after the early start. *)
Definition sampleClock : Clock := mkClock 1500 1500 1500.
Definition sweeping : Ctl :=
  acRun (AeRank sampleClock 99 true :: repeat (AeSweep 0 sampleClock true) 7) (acInit (dbProfiles sampleDb) (dbGroups sampleDb)).

Lemma acRun_reachable evs c : acReachable c -> acReachable (acRun evs c).
Proof. revert c. induction evs as [|ev evs IH]; intros c H; [done|]. by apply IH, ac_turn. Qed.

Lemma sweeping_reachable : acReachable sweeping.
Proof. apply acRun_reachable, ac_init. Qed.

Definition sleeping : Sweep := mkSweep 99 (ForStart 0) true [] [13] 0 ∅ ∅ 2 1 true false true SessionRuns SwWait.

Lemma ranked_start_resumed_witness :
  owed 0 sweeping = 1 /\ exists i n k, let evs := driveEvents sampleClock true i n sweeping ++ repeat (AeTask None) k in
    resumes 0 (acRun evs sweeping) = 1 /\ owed 0 (acRun evs sweeping) = 0.
Proof.
  split; [vm_compute; reflexivity|]. assert (H : (0 < acNextToken sweeping)%nat) by (apply Nat.ltb_lt; vm_compute; reflexivity).
  exact (proj2 (proj2 (ranked_start_resumed sweeping 0 sampleClock true sweeping_reachable H))).
Defined.

Lemma no_lost_wakeup_witness : acSweeps sweeping !! 0%nat = Some sleeping /\
  swSession sleeping = SessionRuns /\ swDone sleeping = false /\ (reachedQuorum sleeping = true -> swStartedEarly sleeping = true).
Proof.
  assert (E : acSweeps sweeping !! 0%nat = Some sleeping) by (vm_compute; reflexivity). split; [exact E|].
  exact (no_lost_wakeup sweeping 0 sleeping sweeping_reachable E eq_refl eq_refl).
Defined.

Lemma one_ranking_at_a_time_witness : acRankingInFlight sweeping = 1 /\
  sumOf liveSweep (acSweeps sweeping) + sumOf liveTask (acTasks sweeping) = acRankingInFlight sweeping /\
  sumOf startSweep (acSweeps sweeping) + sumOf startTask (acTasks sweeping) <= 1 /\ acRankedFor sweeping = -1 /\
  (forall ent token r, reId r = ent -> acSweeps (resumeSweep ent (ForStart token) (Some r) sweeping) = acSweeps sweeping).
Proof. split; [vm_compute; reflexivity|]. exact (one_ranking_at_a_time sweeping sweeping_reachable). Defined.
