(* ===== verification/AutoSelectorPruneFacts.v ===== *)
(** What a changed subscription does to the selectors that track it. *)
From stdpp Require Import base list gmap strings sorting.
From Stdlib Require Import ZArith Lia Bool.
From S2P Require Import Prelude Json ConnectionManager AutoSelector AutoSelectorPlan AutoSelectorMonitor AutoSelectorController.
From S2P Require Import AutoSelectorFacts AutoSelectorPlanFacts.

(** ** Lists *)

Lemma filter_shorter {A} (p : A -> bool) l : (0 <? zlen l - zlen (List.filter p l)) = existsb (fun x => negb (p x)) l.
Proof.
  assert (H : forall l, zlen (List.filter p l) <= zlen l /\ (0 <? zlen l - zlen (List.filter p l)) = existsb (fun x => negb (p x)) l).
  { intros k. induction k as [|x k [IH1 IH2]]; [done|]. cbn [List.filter existsb]. rewrite <- IH2. destruct (p x); cbn [negb orb]; rewrite !zlen_cons; split; try lia. }
  apply H.
Qed.

Lemma existsb_filter {A} (p f : A -> bool) l : existsb f (List.filter p l) = existsb (fun x => p x && f x) l.
Proof. induction l as [|x l IH]; [done|]. cbn [List.filter existsb]. destruct (p x); cbn [existsb andb orb]; by rewrite IH. Qed.

Lemma existsb_same {A} (f g : A -> bool) l : (forall x, f x = g x) -> existsb f l = existsb g l.
Proof. intros E. induction l as [|x l IH]; [done|]. cbn [existsb]. by rewrite E, IH. Qed.

Lemma filter_same {A} (f g : A -> bool) l : (forall x, f x = g x) -> List.filter f l = List.filter g l.
Proof. intros E. induction l as [|x l IH]; [done|]. cbn [List.filter]. by rewrite E, IH. Qed.

Section Prune.
Context {Q : QtChar} {Up : QtUpper} {Rx : QtRegex} {Utf : Utf8} {J : JsonText} {R : QtReal}.
Context (c : Ctl) (gid : Z) (disturbed : gset Z).

(** The selector with an id, if it exists and tracks the group. *)
Definition trackedSelector (id : Z) : option (Profile * autoSelector) :=
  match GetProfile (dbOf c) id with
  | Some ent =>
      if isType "autoselector" ent then
        match AutoSelectorOf ent with Some s => if Tracks gid s then Some (ent, s) else None | None => None end
      else None
  | None => None
  end.

Definition there : Z -> bool := exists_ (dbOf c).
Definition lost (l : list Z) : bool := existsb (fun m => negb (there m)) l.

(** A selector after the change: without the members that are gone. *)
Definition prunedObject (id : Z) : option Profile :=
  match trackedSelector id with
  | Some (ent, s) => Some (setSelector (withMembers (List.filter there (pool s)) (List.filter there (lastBuilt s)) s) ent)
  | None => acObjects c !! id
  end.

Definition pruneSaves (id : Z) : list AcOut :=
  match trackedSelector id with Some (_, s) => if lost (pool s) || lost (lastBuilt s) then [AcSaved id] else [] | None => [] end.

(** Whether a running selector lost, or got replaced, a member it was built from. *)
Definition wantsRestart (id : Z) : bool :=
  match trackedSelector id with
  | Some (_, s) => lost (lastBuilt s) || existsb (fun m => there m && bool_decide (m ∈ disturbed)) (lastBuilt s)
  | None => false
  end.

Definition pruneRestart (l : list Z) : Z :=
  match acRunning c with Some r => if bool_decide (r ∈ l) && wantsRestart r then r else -1 | None => -1 end.

(** The state after the selectors of a list were pruned. *)
Record pruned (l : list Z) (c' : Ctl) : Prop := {
  pr_objects : forall id, acObjects c' !! id = if bool_decide (id ∈ l) then prunedObject id else acObjects c !! id;
  pr_deleted : acDeleted c' = acDeleted c;
  pr_groups : acGroups c' = acGroups c;
  pr_out : acOut c' = acOut c ++ flat_map pruneSaves l
}.

Lemma getProfile_dbOf c1 id : GetProfile (dbOf c1) id = if bool_decide (id ∈ acDeleted c1) then None else acObjects c1 !! id.
Proof.
  unfold GetProfile, dbOf. cbn [dbProfiles]. case_bool_decide as H.
  - apply map_lookup_filter_None. right. intros x _ Hx. by apply Hx.
  - destruct (acObjects c1 !! id) as [p|] eqn:E; [by apply map_lookup_filter_Some|]. apply map_lookup_filter_None. by left.
Qed.

Lemma prunedObject_there id : isSome (prunedObject id) = isSome (acObjects c !! id).
Proof.
  unfold prunedObject, trackedSelector. rewrite getProfile_dbOf. case_bool_decide; [done|]. destruct (acObjects c !! id) as [ent|] eqn:E; [|by rewrite ?E].
  destruct (isType _ ent); [|by rewrite ?E]. destruct (AutoSelectorOf ent) as [s|]; [|by rewrite ?E]. destruct (Tracks gid s); [done|by rewrite ?E].
Qed.

Lemma pruned_there l c' m : pruned l c' -> exists_ (dbOf c') m = there m.
Proof.
  intros [O D G _]. unfold there, exists_. rewrite !getProfile_dbOf, D, O. case_bool_decide; [done|]. case_bool_decide; [apply prunedObject_there|done].
Qed.

Lemma pruned_getProfile l c' id : pruned l c' -> id ∉ l -> GetProfile (dbOf c') id = GetProfile (dbOf c) id.
Proof. intros [O D _ _] H. rewrite !getProfile_dbOf, D, O. by rewrite (bool_decide_false (id ∈ l)). Qed.

Lemma pruneSelector_step l c' id : pruned l c' -> id ∉ l -> (exists ent, GetProfile (dbOf c) id = Some ent /\ isType "autoselector" ent = true) ->
  exists c2, pruneSelector gid disturbed (acRunning c) id (c', pruneRestart l) = (c2, pruneRestart (l ++ [id])) /\ pruned (l ++ [id]) c2.
Proof.
  intros H Hl (ent & Eg & Ht). pose proof H as [O D G U]. unfold pruneSelector. rewrite (pruned_getProfile l c' id H Hl), Eg.
  assert (Hsplit : forall x, bool_decide (x ∈ l ++ [id]) = bool_decide (x ∈ l) || (x =? id)).
  { intros x. destruct (Z.eqb_spec x id) as [->|Hx]; [rewrite orb_true_r; apply bool_decide_true; set_solver|]. rewrite orb_false_r. apply bool_decide_ext. set_solver. }
  assert (Hid : acObjects c !! id = Some ent). { rewrite getProfile_dbOf in Eg. by destruct (bool_decide _). }
  assert (Hnone : trackedSelector id = None -> pruned (l ++ [id]) c' /\ pruneRestart (l ++ [id]) = pruneRestart l).
  { intros En. split.
    - split; try done.
      + intros x. rewrite Hsplit, O. destruct (bool_decide (x ∈ l)); [done|]. cbn [orb]. destruct (Z.eqb_spec x id) as [->|]; [|done].
        unfold prunedObject. by rewrite En.
      + rewrite U, flat_map_app. cbn [flat_map]. unfold pruneSaves at 3. by rewrite En, !app_nil_r.
    - unfold pruneRestart. destruct (acRunning c) as [r|]; [|done]. rewrite Hsplit. destruct (Z.eqb_spec r id) as [->|]; [|by rewrite orb_false_r].
      unfold wantsRestart. rewrite En. by rewrite !andb_false_r. }
  assert (Et : trackedSelector id = match AutoSelectorOf ent with Some s => if Tracks gid s then Some (ent, s) else None | None => None end).
  { unfold trackedSelector. by rewrite Eg, Ht. }
  destruct (AutoSelectorOf ent) as [s|]; [|destruct (Hnone Et) as [P ->]; by exists c'].
  destruct (Tracks gid s); cbn [negb]; [|destruct (Hnone Et) as [P ->]; by exists c']. cbv zeta.
  rewrite !filter_shorter, !(existsb_same _ (fun m => negb (there m)) _ (fun m => f_equal negb (pruned_there l c' m H))).
  rewrite !(filter_same _ there _ (fun m => pruned_there l c' m H)). fold (lost (pool s)) (lost (lastBuilt s)).
  rewrite existsb_filter. set (obj := setSelector _ ent). set (c2 := if lost (pool s) || lost (lastBuilt s) then _ else _).
  assert (Hdel : bool_decide (id ∈ acDeleted c) = false). { rewrite getProfile_dbOf in Eg. by destruct (bool_decide _). }
  exists c2. split.
  - unfold pruneRestart, wantsRestart. destruct (acRunning c) as [r|]; [|done]. rewrite Hsplit. destruct (Z.eqb_spec r id) as [->|Hr].
    + rewrite (bool_decide_false (id ∈ l)) by done. cbn [negb orb andb]. rewrite Et. by destruct (lost (lastBuilt s) || existsb _ (lastBuilt s)).
    + cbn [negb]. by rewrite orb_false_r.
  - assert (Hc2 : acObjects c2 = <[id := obj]> (acObjects c') /\ acDeleted c2 = acDeleted c' /\ acGroups c2 = acGroups c' /\
      acOut c2 = acOut c' ++ (if lost (pool s) || lost (lastBuilt s) then [AcSaved id] else [])).
    { unfold c2. destruct (lost (pool s) || lost (lastBuilt s)); [|by rewrite app_nil_r]. unfold Save. cbn [putObject aObjects acDeleted]. by rewrite D, Hdel. }
    destruct Hc2 as (C1 & C2 & C3 & C4). split; [|congruence|congruence|].
    + intros x. rewrite C1, Hsplit. destruct (Z.eqb_spec x id) as [->|Hx].
      * rewrite lookup_insert_eq, orb_true_r. unfold prunedObject. by rewrite Et.
      * rewrite lookup_insert_ne by done. by rewrite O, orb_false_r.
    + rewrite C4, U, flat_map_app, <- app_assoc. cbn [flat_map]. unfold pruneSaves at 3. by rewrite Et, app_nil_r.
Qed.

Lemma prune_fold k l c' : pruned k c' -> NoDup (k ++ l) -> Forall (fun id => exists ent, GetProfile (dbOf c) id = Some ent /\ isType "autoselector" ent = true) l ->
  exists c2, fold_left (fun a id => pruneSelector gid disturbed (acRunning c) id a) l (c', pruneRestart k) = (c2, pruneRestart (k ++ l)) /\ pruned (k ++ l) c2.
Proof.
  revert k c'. induction l as [|id l IH]; intros k c' H Hn Ha; cbn [fold_left]; [exists c'; by rewrite app_nil_r|].
  apply Forall_cons in Ha as [Hid Ha]. apply NoDup_app in Hn as Hn'. destruct Hn' as (_ & Hk & Hl).
  destruct (pruneSelector_step k c' id H) as (c1 & -> & H1); [intros Hin; by apply (Hk id Hin), list_elem_of_here|done|].
  destruct (IH (k ++ [id]) c1 H1) as (c2 & E & H2); [by rewrite <- app_assoc|done|]. exists c2. by rewrite <- app_assoc in *.
Qed.

Lemma selectors_listed : NoDup (GetProfileIdsByType (dbOf c) "autoselector") /\
  forall id, id ∈ GetProfileIdsByType (dbOf c) "autoselector" <-> exists ent, GetProfile (dbOf c) id = Some ent /\ isType "autoselector" ent = true.
Proof.
  unfold GetProfileIdsByType. set (l := map fst _). pose proof (merge_sort_Permutation Z.le l) as P. split.
  - rewrite P. unfold l. pose proof (NoDup_fst_map_to_list (dbProfiles (dbOf c))) as N. revert N. generalize (map_to_list (dbProfiles (dbOf c))).
    intros k. change (NoDup (map fst k) -> NoDup (map fst (List.filter (fun kv => isType "autoselector" (snd kv)) k))).
    induction k as [|[i p] k IH]; [done|]. cbn [map fst List.filter snd]. intros N. apply NoDup_cons in N as [N1 N2].
    destruct (isType _ p); [|by apply IH]. cbn [map fst]. apply NoDup_cons. split; [|by apply IH].
    intros Hin. apply N1. apply list_elem_of_In in Hin. apply in_map_iff in Hin as (x & <- & Hx). apply filter_In in Hx as [Hx _]. by apply list_elem_of_In, in_map.
  - intros id. rewrite P. unfold l. rewrite list_elem_of_In, in_map_iff. split.
    + intros ([i p] & <- & Hx). apply filter_In in Hx as [Hx Ht]. exists p. split; [|done]. apply list_elem_of_In, elem_of_map_to_list in Hx. done.
    + intros (ent & Eg & Ht). exists (id, ent). split; [done|]. apply filter_In. split; [|done]. by apply list_elem_of_In, elem_of_map_to_list.
Qed.

Lemma pruned_none : pruned [] c.
Proof. split; try done. by rewrite app_nil_r. Qed.

End Prune.

Section Pruning.
Context {Q : QtChar} {Up : QtUpper} {Rx : QtRegex} {Utf : Utf8} {J : JsonText} {R : QtReal}.

(** C28: a subscription that changed leaves in every selector that tracks it just
    the members that still exist, in their order, and touches no other profile;
    a selector is stored when it lost a member, in the order of the ids; and
    the running profile is started again exactly when it is such a selector
    that lost, or had replaced, a member it was built from. *)
Theorem subscription_prunes c gid disturbed : 0 <= gid -> (forall r, acRunning c = Some r -> 0 <= r) ->
  let c' := onSubscriptionGroupChanged gid disturbed None c in
  let restart r := wantsRestart c gid (list_to_set disturbed) r in
  (forall id, acObjects c' !! id = prunedObject c gid id) /\ acDeleted c' = acDeleted c /\
  acOut c' = acOut c ++ flat_map (pruneSaves c gid) (GetProfileIdsByType (dbOf c) "autoselector") ++
    match acRunning c with Some r => if restart r then [AcStart r] else [] | None => [] end.
Proof.
  intros Hg Hr. cbv zeta. unfold onSubscriptionGroupChanged. rewrite (proj2 (Z.ltb_ge gid 0) Hg). cbv zeta.
  destruct (selectors_listed c) as [Hn Hl]. set (ids := GetProfileIdsByType (dbOf c) "autoselector") in *.
  destruct (prune_fold c gid (list_to_set disturbed) [] ids c (pruned_none c gid)) as (c2 & E & [O D G U]).
  { done. } { apply Forall_forall. intros id. apply Hl. }
  assert (E0 : pruneRestart c gid (list_to_set disturbed) [] = -1) by (unfold pruneRestart; by destruct (acRunning c)). rewrite E0 in E. rewrite E.
  cbn [app] in *. assert (Hid : forall id, (trackedSelector c gid id <> None -> id ∈ ids)).
  { intros id Ht. apply Hl. unfold trackedSelector in Ht. destruct (GetProfile (dbOf c) id) as [ent|] eqn:Eg; [|done].
    destruct (isType _ ent) eqn:Ei; [by exists ent|done]. }
  assert (O' : forall id, acObjects c2 !! id = prunedObject c gid id).
  { intros id. rewrite O. case_bool_decide as Hin; [done|]. unfold prunedObject. destruct (trackedSelector c gid id) as [[ent s]|] eqn:Et; [|done].
    by destruct Hin; apply Hid; rewrite Et. }
  assert (Es : pruneRestart c gid (list_to_set disturbed) ids = match acRunning c with Some r => if wantsRestart c gid (list_to_set disturbed) r then r else -1 | None => -1 end).
  { unfold pruneRestart. destruct (acRunning c) as [r|]; [|done]. destruct (wantsRestart c gid _ r) eqn:Ew; [|by rewrite andb_false_r].
    rewrite bool_decide_true; [done|]. apply Hid. unfold wantsRestart in Ew. by destruct (trackedSelector c gid r). }
  rewrite Es. destruct (acRunning c) as [r|] eqn:Er; [destruct (wantsRestart c gid _ r)|].
  - rewrite (proj2 (Z.ltb_ge r 0) (Hr r eq_refl)). cbn. by rewrite U, app_assoc.
  - cbn. by rewrite U, app_nil_r.
  - cbn. by rewrite U, app_nil_r.
Qed.

End Pruning.

(** Profile 12 is gone from the sample; the selector 99 runs and was built from 11. *)
Definition prunedSample : Ctl :=
  let ent := setSelector (withMembers [13; 12; 11] [11; 12] sampleTracked) sampleEnt in
  aRunning (Some 99) (aConnection CsRunning
    (acTurn (AeDelete 12) (acTurn (AeProfile 99 ent) (acInit (dbProfiles sampleDb) (dbGroups sampleDb))))).

Lemma subscription_prunes_witness :
  let c' := onSubscriptionGroupChanged 1 [] None prunedSample in
  acOut c' = [AcSaved 99; AcStart 99] /\
  (forall id, acObjects c' !! id = prunedObject prunedSample 1 id) /\ acDeleted c' = acDeleted prunedSample /\
  acOut c' = acOut prunedSample ++ flat_map (pruneSaves prunedSample 1) (GetProfileIdsByType (dbOf prunedSample) "autoselector") ++
    match acRunning prunedSample with Some r => if wantsRestart prunedSample 1 (list_to_set []) r then [AcStart r] else [] | None => [] end.
Proof.
  cbv zeta. split; [vm_compute; reflexivity|].
  apply (subscription_prunes prunedSample 1 []); [discriminate|]. intros r E. assert (E' : acRunning prunedSample = Some 99) by reflexivity.
  rewrite E' in E. injection E as <-. discriminate.
Defined.
