(* ===== verification/ProfileStore.v ===== *)
(** Profiles and the groups that list them: src/src/database/ProfilesRepo.cpp,
    GroupsRepo.cpp and the list operations of entities/Group.cpp.

    [Store] is the profiles table, the ids handed out, the groups in memory with
    their lists, the tab order and the settings the repositories read.  SQLite
    runs the statements: [ok n] says whether the n-th insert or deletion goes
    through.  An insert that fails is only reported ([execBatchInsertProfiles]
    catches), a transaction that fails changes nothing.  The ids come from an
    update of entity_ids; while it does not go through ([stCounter] is false) the
    repositories hand out 0, or 0 to n-1.  What an outbound exports is an
    interface, [Outbounds]: the classes of src/src/configs/outbounds.  The
    groups stay in memory once read (memMap), so a save of a group or a profile
    that fails is seen by the next start only; what a start reads is left out. *)
From stdpp Require Import base list gmap strings sorting.
From Stdlib Require Import ZArith Lia Bool.
From S2P Require Import Prelude.

(** What the stored profiles ask of an outbound. *)
Class Outbounds := {
  outbound : Type;
  contentDigest : outbound -> list Z;
  identityDigest : qstr -> outbound -> list Z;
  exportLink : bool -> outbound -> list Z;
  displayType : outbound -> qstr;
  displayTypeAndName : outbound -> qstr;
  effectiveAddress : outbound -> qstr;
  outboundName : outbound -> qstr;
  securityLevel : outbound -> Z;
  securityText : outbound -> qstr;
  isInsecure : outbound -> bool
}.

Definition kLatencyConnectOnly : Z := -2.

Section Rows.
Context {O : Outbounds}.

(** A row of the table, and the same profile in memory: what is read here. *)
Record Row := mkRow {
  rwType : qstr;
  rwName : qstr;
  rwGid : Z;
  rwLatency : Z;
  rwDlSpeed : qstr;
  rwUlSpeed : qstr;
  rwIpOut : qstr;
  rwDownlink : Z;
  rwUplink : Z;
  rwOutbound : outbound;
  rwStamp : Z
}.

Definition rGid v r := mkRow (rwType r) (rwName r) v (rwLatency r) (rwDlSpeed r) (rwUlSpeed r) (rwIpOut r) (rwDownlink r) (rwUplink r) (rwOutbound r) (rwStamp r).
Definition rStamp v r := mkRow (rwType r) (rwName r) (rwGid r) (rwLatency r) (rwDlSpeed r) (rwUlSpeed r) (rwIpOut r) (rwDownlink r) (rwUplink r) (rwOutbound r) v.
Definition rOutbound o stamp name r := mkRow (rwType r) name (rwGid r) (rwLatency r) (rwDlSpeed r) (rwUlSpeed r) (rwIpOut r) (rwDownlink r) (rwUplink r) o stamp.

(** A profile that is not stored yet, of no group. *)
Definition newProfile (type : qstr) (out : outbound) : Row := mkRow type (outboundName out) (-1) 0 [] [] [] 0 0 out (-1).

Definition IsWorking (r : Row) : bool := (0 <? rwLatency r) || (rwLatency r =? kLatencyConnectOnly).
Definition IsUnavailable (r : Row) : bool := (rwLatency r <? 0) && negb (rwLatency r =? kLatencyConnectOnly).

Record Store := mkStore {
  stRows : gmap Z Row;
  stLastId : Z;
  stTombstones : gset Z;
  stGroups : gmap Z (list Z);
  stGroupLastId : Z;
  stTabOrder : list Z;
  stCurrent : Z;
  stStarted : Z;
  stStops : list Z;
  stWrites : nat;
  stCounter : bool
}.

Definition sRows v s := mkStore v (stLastId s) (stTombstones s) (stGroups s) (stGroupLastId s) (stTabOrder s) (stCurrent s) (stStarted s) (stStops s) (stWrites s) (stCounter s).
Definition sLastId v s := mkStore (stRows s) v (stTombstones s) (stGroups s) (stGroupLastId s) (stTabOrder s) (stCurrent s) (stStarted s) (stStops s) (stWrites s) (stCounter s).
Definition sTombstones v s := mkStore (stRows s) (stLastId s) v (stGroups s) (stGroupLastId s) (stTabOrder s) (stCurrent s) (stStarted s) (stStops s) (stWrites s) (stCounter s).
Definition sGroups v s := mkStore (stRows s) (stLastId s) (stTombstones s) v (stGroupLastId s) (stTabOrder s) (stCurrent s) (stStarted s) (stStops s) (stWrites s) (stCounter s).
Definition sStopped started id s := mkStore (stRows s) (stLastId s) (stTombstones s) (stGroups s) (stGroupLastId s) (stTabOrder s) (stCurrent s) started (stStops s ++ [id]) (stWrites s) (stCounter s).
Definition sWritten s := mkStore (stRows s) (stLastId s) (stTombstones s) (stGroups s) (stGroupLastId s) (stTabOrder s) (stCurrent s) (stStarted s) (stStops s) (S (stWrites s)) (stCounter s).

(** ** A group's list *)

Definition HasProfile (id : Z) (l : list Z) : bool := bool_decide (id ∈ l).

Definition listAdd (id : Z) (l : list Z) : list Z := if HasProfile id l then l else l ++ [id].

(** AddProfileBatch: the ids not there when it began. *)
Definition listAddBatch (ids : list Z) (l : list Z) : list Z := l ++ List.filter (fun id => negb (HasProfile id l)) ids.

Definition listRemove (id : Z) (l : list Z) : list Z := List.filter (fun x => negb (x =? id)) l.
Definition listRemoveBatch (ids : list Z) (l : list Z) : list Z := List.filter (fun x => negb (bool_decide (x ∈ ids))) l.

(** QList::insert at an index of the list. *)
Definition insertAt (n : nat) (x : Z) (l : list Z) : list Z := take n l ++ x :: drop n l.

Definition listSwap (i j : nat) (l : list Z) : option (list Z) :=
  match l !! i, l !! j with
  | Some x, Some y => Some (<[i := y]> (<[j := x]> l))
  | _, _ => None
  end.

Definition listEmplace (i j : nat) (l : list Z) : option (list Z) :=
  match l !! i, l !! j with
  | Some x, Some _ =>
      let l := insertAt (S j) x l in
      Some (if (i <? j)%nat then delete i l else delete (S i) l)
  | _, _ => None
  end.

(** A group read from its row: each id once, the first time. *)
Fixpoint uniqueIds (seen : gset Z) (l : list Z) : list Z :=
  match l with
  | [] => []
  | id :: l' => if bool_decide (id ∈ seen) then uniqueIds seen l' else id :: uniqueIds ({[id]} ∪ seen) l'
  end.

(** ** Reading *)

Definition GetProfile (s : Store) (id : Z) : option Row := stRows s !! id.
Definition GetProfileBatch (s : Store) (ids : list Z) : list (Z * Row) := omap (fun id => option_map (pair id) (stRows s !! id)) ids.
Definition GetGroup (s : Store) (gid : Z) : option (list Z) := stGroups s !! gid.
Definition ofType (type : string) (r : Row) : bool := eqStr (rwType r) (u type).
Definition GetProfileIdsByType (type : string) (s : Store) : list Z :=
  merge_sort Z.le (map fst (List.filter (fun kv => ofType type (snd kv)) (map_to_list (stRows s)))).

(** ** Writing *)

Section Writes.
Context (ok : nat -> bool).
Context (afterStop : Z -> Z).

(** NewProfileIDRange: the first of [n] new ids, 0 when the counter could not be
    moved; NewProfileID is that of one. *)
Definition NewProfileIDRange (n : Z) (s : Store) : Z * Store :=
  if stCounter s then (stLastId s + 1, sLastId (stLastId s + n) s) else (0, s).

(** One statement's rows: an id that is there fails the whole of it. *)
Definition insertChunk (rows : list (Z * Row)) (s : Store) : Store :=
  let s' := sWritten s in
  if ok (stWrites s) && forallb (fun x => negb (isSome (stRows s !! fst x))) rows then sRows (list_to_map rows ∪ stRows s) s' else s'.

(** saveToDatabase of a new profile: a row that has its id is overwritten. *)
Definition insertRow (x : Z * Row) (s : Store) : Store :=
  let s' := sWritten s in if ok (stWrites s) then sRows (<[fst x := snd x]> (stRows s)) s' else s'.

(** execBatchInsertProfiles: 15 parameters a row, [BATCH_LIMIT_WRITE] a statement. *)
Definition insertLimit : nat := 100.

Fixpoint insertRowsF (fuel : nat) (rows : list (Z * Row)) (s : Store) : Store :=
  match fuel, rows with
  | 0%nat, _ | _, [] => s
  | S fuel', _ => insertRowsF fuel' (drop insertLimit rows) (insertChunk (take insertLimit rows) s)
  end.

Definition insertRows (rows : list (Z * Row)) (s : Store) : Store := insertRowsF (length rows) rows s.

Fixpoint numbered {A} (id : Z) (l : list A) : list (Z * A) :=
  match l with [] => [] | x :: l' => (id, x) :: numbered (id + 1) l' end.

Definition rowOf (gid : Z) (x : Z * Row) : Z * Row := (fst x, rStamp (fst x) (rGid gid (snd x))).

Definition targetGroup (gid : Z) (s : Store) : Z := if gid <? 0 then stCurrent s else gid.

(** The ids the profiles got, when their group exists. *)
Definition AddProfileBatch (profiles : list Row) (gid : Z) (s : Store) : option (list Z) * Store :=
  let gid := targetGroup gid s in
  match GetGroup s gid with
  | None => (None, s)
  | Some listed =>
      match profiles with
      | [] => (Some [], s)
      | _ =>
          let '(first, s) := NewProfileIDRange (zlen profiles) s in
          let rows := map (rowOf gid) (numbered first profiles) in
          let s := insertRows rows s in
          (Some (map fst rows), sGroups (<[gid := listAddBatch (map fst rows) listed]> (stGroups s)) s)
      end
  end.

(** The id is handed out before the group is looked for. *)
Definition AddProfile (p : Row) (gid : Z) (s : Store) : option Z * Store :=
  let '(id, s) := NewProfileIDRange 1 s in
  let gid := targetGroup gid s in
  match GetGroup s gid with
  | None => (None, s)
  | Some listed =>
      let s := insertRow (rowOf gid (id, p)) s in
      (Some id, sGroups (<[gid := listAdd id listed]> (stGroups s)) s)
  end.

(** DeleteAndForget: rows, identities and tombstones, or nothing. *)
Definition deleteRows (ids existing : list Z) (s : Store) : bool * Store :=
  let s' := sWritten s in
  if ok (stWrites s) then
    (true, sTombstones (list_to_set existing ∪ stTombstones s') (sRows (foldr delete (stRows s') ids) s'))
  else (false, s').

(** The rows go first, then their places in the lists. *)
Definition deleteListed (ids : list Z) (s : Store) : bool * list Z * Store :=
  match ids with
  | [] => (true, [], s)
  | _ =>
      let profiles := GetProfileBatch s ids in
      let groups : gset Z := list_to_set (map (fun x => rwGid (snd x)) profiles) in
      let '(deleted, s) := deleteRows ids (map fst profiles) s in
      if deleted then (true, ids, sGroups (map_imap (fun gid l => Some (if bool_decide (gid ∈ groups) then listRemoveBatch ids l else l)) (stGroups s)) s)
      else (false, ids, s)
  end.

(** The running profile is stopped, or left out of [ids], which the caller gets
    back. *)
Definition BatchDeleteProfiles (ids : list Z) (stopRunning : bool) (s : Store) : bool * list Z * Store :=
  if bool_decide (stStarted s ∈ ids) then
    if stopRunning then deleteListed ids (sStopped (afterStop (stStarted s)) (stStarted s) s) else deleteListed (listRemove (stStarted s) ids) s
  else deleteListed ids s.

(** NewGroupID: 0 when the counter could not be moved. *)
Definition NewGroupID (s : Store) : Z := if stCounter s then stGroupLastId s + 1 else 0.

Definition AddGroup (s : Store) : Z * Store :=
  let id := NewGroupID s in
  (id, mkStore (stRows s) (stLastId s) (stTombstones s) (<[id := []]> (stGroups s)) (if stCounter s then id else stGroupLastId s) (stTabOrder s ++ [id])
         (stCurrent s) (stStarted s) (stStops s) (stWrites s) (stCounter s)).

(** The group with its profiles, listed in it or not. *)
Definition DeleteGroup (gid : Z) (s : Store) : bool * Store :=
  let listed := default [] (GetGroup s gid) in
  let owned := map fst (List.filter (fun kv => rwGid (snd kv) =? gid) (map_to_list (stRows s))) in
  let '(deleted, s) := deleteRows (listed ++ owned) (listed ++ owned) s in
  if deleted then
    (true, mkStore (stRows s) (stLastId s) (stTombstones s) (delete gid (stGroups s)) (stGroupLastId s) (List.filter (fun x => negb (x =? gid)) (stTabOrder s))
             (stCurrent s) (stStarted s) (stStops s) (stWrites s) (stCounter s))
  else (false, s).

(** Save of a profile in memory: not when its id was deleted. *)
Definition SaveProfile (id : Z) (r : Row) (s : Store) : Store :=
  if (id <? 0) || bool_decide (id ∈ stTombstones s) then s else sRows (<[id := r]> (stRows s)) s.

(** An order that was set for a group by hand or by sorting. *)
Definition setListed (gid : Z) (l : list Z) (s : Store) : Store :=
  match GetGroup s gid with Some _ => sGroups (<[gid := l]> (stGroups s)) s | None => s end.

(** ** Steps *)

Inductive StoreEvent :=
| SeAddGroup
| SeAddProfile (p : Row) (gid : Z)
| SeAddBatch (ps : list Row) (gid : Z)
| SeDelete (ids : list Z) (stopRunning : bool)
| SeDeleteGroup (gid : Z)
| SeSave (id : Z) (r : Row)
| SeSwap (gid : Z) (i j : nat)
| SeEmplace (gid : Z) (i j : nat)
| SeOrder (gid : Z) (l : list Z)
| SeSettings (current started : Z)
| SeCounter (works : bool).

(** An object in memory is of the group its row is of. *)
Definition storeStep (ev : StoreEvent) (s : Store) : Store :=
  match ev with
  | SeAddGroup => snd (AddGroup s)
  | SeAddProfile p gid => snd (AddProfile p gid s)
  | SeAddBatch ps gid => snd (AddProfileBatch ps gid s)
  | SeDelete ids stop => snd (BatchDeleteProfiles ids stop s)
  | SeDeleteGroup gid => snd (DeleteGroup gid s)
  | SeSave id r => match GetProfile s id with Some old => SaveProfile id (rGid (rwGid old) r) s | None => s end
  | SeSwap gid i j => match (let? l := GetGroup s gid in listSwap i j l) with Some l => setListed gid l s | None => s end
  | SeEmplace gid i j => match (let? l := GetGroup s gid in listEmplace i j l) with Some l => setListed gid l s | None => s end
  | SeOrder gid l => match GetGroup s gid with Some old => if bool_decide (l ≡ₚ old) then setListed gid l s else s | None => s end
  | SeSettings current started => mkStore (stRows s) (stLastId s) (stTombstones s) (stGroups s) (stGroupLastId s) (stTabOrder s) current started (stStops s) (stWrites s) (stCounter s)
  | SeCounter works => mkStore (stRows s) (stLastId s) (stTombstones s) (stGroups s) (stGroupLastId s) (stTabOrder s) (stCurrent s) (stStarted s) (stStops s) (stWrites s) works
  end.

Definition emptyStore : Store := mkStore ∅ 0 ∅ ∅ 0 [] 0 (-1919) [] 0 true.

(** By events that never take the id counter down. *)
Inductive storeReachable : Store -> Prop :=
| store_empty : storeReachable emptyStore
| store_step ev s : storeReachable s -> ev <> SeCounter false -> storeReachable (storeStep ev s).

End Writes.

(** ** ProfileFilter *)

Definition keyOf (ignoreMetadata : bool) (p : Z * Row) : list Z := exportLink ignoreMetadata (rwOutbound (snd p)).

(** The first of each key, or with [keepLast] the last, in its place. *)
Fixpoint Uniq (keepLast ignoreMetadata : bool) (seen : gmap (list Z) Z) (profiles out : list (Z * Row)) : list (Z * Row) :=
  match profiles with
  | [] => out
  | p :: profiles' =>
      let key := keyOf ignoreMetadata p in
      match seen !! key with
      | Some old =>
          if keepLast then Uniq keepLast ignoreMetadata (<[key := fst p]> seen) profiles' (List.filter (fun x => negb (fst x =? old)) out ++ [p])
          else Uniq keepLast ignoreMetadata seen profiles' out
      | None => Uniq keepLast ignoreMetadata (<[key := fst p]> seen) profiles' (out ++ [p])
      end
  end.

(** Pairs of equal profiles, each of [src] claimed once. *)
Fixpoint Common (ignoreMetadata : bool) (src dst : list (Z * Row)) : list ((Z * Row) * (Z * Row)) :=
  match dst with
  | [] => []
  | d :: dst' =>
      match list_find (fun s => keyOf ignoreMetadata s = keyOf ignoreMetadata d) src with
      | Some (i, s) => (s, d) :: Common ignoreMetadata (delete i src) dst'
      | None => Common ignoreMetadata src dst'
      end
  end.

Definition OnlyInSrc (ignoreMetadata : bool) (src dst : list (Z * Row)) : list (Z * Row) :=
  List.filter (fun s => negb (bool_decide (keyOf ignoreMetadata s ∈ map (keyOf ignoreMetadata) dst))) src.

End Rows.
