(* ===== verification/ProfileStoreFacts.v ===== *)
(** Every stored profile is listed exactly once, in its own group. *)
From stdpp Require Import base list gmap strings sorting.
From Stdlib Require Import ZArith Lia Bool.
From S2P Require Import Prelude ProfileStore.

Section Facts.
Context {O : Outbounds}.

(** No profile is lost or listed twice: a row's group exists and lists it, and a
    listed row is of that group, and new ids come from the counter.  An id
    without a row (its insert failed) can stay listed. *)
Record storeOk (s : Store) : Prop := {
  so_ids : forall id r, stRows s !! id = Some r -> 0 < id <= stLastId s;
  so_listed : forall id r, stRows s !! id = Some r -> exists l, stGroups s !! rwGid r = Some l /\ id ∈ l;
  so_once : forall gid l, stGroups s !! gid = Some l -> NoDup l /\ Forall (fun id => 0 < id <= stLastId s) l;
  so_group : forall gid l id r, stGroups s !! gid = Some l -> id ∈ l -> stRows s !! id = Some r -> rwGid r = gid;
  so_groupIds : forall gid l, stGroups s !! gid = Some l -> gid <= stGroupLastId s;
  so_last : 0 <= stLastId s;
  so_counter : stCounter s = true
}.

(** ** Lists *)

Lemma HasProfile_spec id l : HasProfile id l = true <-> id ∈ l.
Proof. unfold HasProfile. apply bool_decide_eq_true. Qed.

Lemma listAddBatch_elem ids l id : id ∈ listAddBatch ids l <-> id ∈ l \/ id ∈ ids.
Proof.
  unfold listAddBatch. rewrite elem_of_app, filter_elem, negb_true_iff. split; [tauto|]. intros [H|H]; [by left|].
  destruct (HasProfile id l) eqn:E; [left; by apply HasProfile_spec|by right].
Qed.

Lemma listAddBatch_nodup ids l : NoDup ids -> NoDup l -> NoDup (listAddBatch ids l).
Proof.
  intros Hi Hl. unfold listAddBatch. apply NoDup_app. split; [done|]. split; [|by apply filter_nodup].
  intros id H. rewrite filter_elem, negb_true_iff. intros [_ E]. apply HasProfile_spec in H. congruence.
Qed.

Lemma listRemoveBatch_elem ids l id : id ∈ listRemoveBatch ids l <-> id ∈ l /\ id ∉ ids.
Proof. unfold listRemoveBatch. rewrite filter_elem, negb_true_iff, bool_decide_eq_false. tauto. Qed.

Lemma insertAt_perm n x l : insertAt n x l ≡ₚ x :: l.
Proof. unfold insertAt. by rewrite <- Permutation_middle, take_drop. Qed.

Lemma listSwap_perm i j l l' : listSwap i j l = Some l' -> l' ≡ₚ l.
Proof.
  unfold listSwap. destruct (l !! i) as [x|] eqn:Ei; [|done]. destruct (l !! j) as [y|] eqn:Ej; [|done]. intros [= <-].
  pose proof (lookup_lt_Some _ _ _ Ei) as Hi. pose proof (lookup_lt_Some _ _ _ Ej) as Hj.
  apply Permutation_inj. split; [by rewrite !length_insert|].
  exists (fun k => if decide (k = i) then j else if decide (k = j) then i else k). split.
  - intros a b. repeat case_decide; congruence.
  - intros k. repeat case_decide; subst.
    + by rewrite list_lookup_insert_eq by (by rewrite length_insert).
    + by rewrite list_lookup_insert_ne, list_lookup_insert_eq.
    + by rewrite !list_lookup_insert_ne.
Qed.

Lemma listEmplace_perm i j l l' : listEmplace i j l = Some l' -> l' ≡ₚ l.
Proof.
  unfold listEmplace. destruct (l !! i) as [x|] eqn:Ei; [|done]. destruct (l !! j) as [y|] eqn:Ej; [|done]. intros [= <-].
  pose proof (lookup_lt_Some _ _ _ Ei) as Hi. pose proof (lookup_lt_Some _ _ _ Ej) as Hj.
  apply (Permutation_cons_inv (a := x)). rewrite <- (insertAt_perm (S j) x l). symmetry. destruct (Nat.ltb_spec i j).
  - apply delete_Permutation. unfold insertAt. rewrite lookup_app_l by (rewrite length_take; lia). by rewrite lookup_take_lt by lia.
  - apply delete_Permutation. unfold insertAt. destruct (decide (i = j)) as [->|Hij].
    + rewrite lookup_app_r by (rewrite length_take; lia). rewrite length_take. by replace (S j - (S j) `min` length l)%nat with 0%nat by lia.
    + rewrite lookup_app_r by (rewrite length_take; lia). rewrite length_take.
      replace (S i - (S j) `min` length l)%nat with (S (i - S j))%nat by lia.
      change ((x :: drop (S j) l) !! S (i - S j)) with (drop (S j) l !! (i - S j)%nat). rewrite lookup_drop. by replace (S j + (i - S j))%nat with i by lia.
Qed.

Lemma uniqueIds_spec seen l : NoDup (uniqueIds seen l) /\ forall id, id ∈ uniqueIds seen l <-> id ∈ l /\ id ∉ seen.
Proof.
  revert seen. induction l as [|x l IH]; intros seen; cbn [uniqueIds]; [split; [constructor|set_solver]|].
  case_bool_decide as Hx.
  - destruct (IH seen) as [I1 I2]. split; [done|]. intros id. rewrite I2. set_solver.
  - destruct (IH ({[x]} ∪ seen)) as [I1 I2]. split.
    + constructor; [|done]. rewrite I2. set_solver.
    + intros id. rewrite !elem_of_cons, I2, elem_of_union, elem_of_singleton. destruct (decide (id = x)) as [->|]; tauto.
Qed.

Lemma numbered_fst {A} n (l : list A) : map fst (numbered n l) = seqZ n (zlen l).
Proof.
  revert n. induction l as [|x l IH]; intros n; [done|]. cbn [numbered map fst]. pose proof (zlen_nonneg l). rewrite IH, zlen_cons, (seqZ_cons n) by lia.
  replace (Z.succ n) with (n + 1) by lia. by replace (Z.pred (1 + zlen l)) with (zlen l) by lia.
Qed.

Lemma rows_fst gid (n : Z) (l : list Row) : map fst (map (rowOf gid) (numbered n l)) = seqZ n (zlen l).
Proof. by rewrite map_map, <- numbered_fst. Qed.

Lemma seqZ_bounds n m k : k ∈ seqZ n m <-> n <= k < n + m.
Proof. apply elem_of_seqZ. Qed.

(** ** Every operation keeps the listing *)

Section Kept.
Context (ok : nat -> bool) (afterStop : Z -> Z).

Lemma insertChunk_same rows s : stGroups (insertChunk ok rows s) = stGroups s /\ stLastId (insertChunk ok rows s) = stLastId s /\
  stGroupLastId (insertChunk ok rows s) = stGroupLastId s /\ stTombstones (insertChunk ok rows s) = stTombstones s /\
  stCounter (insertChunk ok rows s) = stCounter s.
Proof. unfold insertChunk. by destruct (_ && _). Qed.

Lemma insertChunk_rows rows s id r : stRows (insertChunk ok rows s) !! id = Some r -> (id, r) ∈ rows \/ stRows s !! id = Some r.
Proof.
  unfold insertChunk. destruct (_ && _); cbn [stRows sRows sWritten]; [|by right].
  rewrite lookup_union_Some_raw. intros [H|[_ H]]; [left; by apply elem_of_list_to_map_2|by right].
Qed.

(** An insert adds some of its rows, and nothing else changes. *)
Lemma insertRows_same rows s : stGroups (insertRows ok rows s) = stGroups s /\ stLastId (insertRows ok rows s) = stLastId s /\
  stGroupLastId (insertRows ok rows s) = stGroupLastId s /\ stTombstones (insertRows ok rows s) = stTombstones s /\
  stCounter (insertRows ok rows s) = stCounter s.
Proof.
  unfold insertRows. generalize (length rows) as fuel. intros fuel. revert rows s. induction fuel as [|fuel IH]; intros rows s; [done|].
  cbn [insertRowsF]. destruct rows as [|x rows]; [done|]. destruct (IH (drop insertLimit (x :: rows)) (insertChunk ok (take insertLimit (x :: rows)) s)) as (-> & -> & -> & -> & ->).
  apply insertChunk_same.
Qed.

Lemma insertRows_rows rows s id r : stRows (insertRows ok rows s) !! id = Some r -> (id, r) ∈ rows \/ stRows s !! id = Some r.
Proof.
  unfold insertRows. generalize (length rows) as fuel. intros fuel. revert rows s. induction fuel as [|fuel IH]; intros rows s; [by right|].
  cbn [insertRowsF]. destruct rows as [|x rows]; [by right|]. intros [H|H]%IH.
  - left. eapply elem_of_submseteq, submseteq_drop. exact H.
  - apply insertChunk_rows in H as [H|H]; [|by right]. left. eapply elem_of_submseteq, submseteq_take. exact H.
Qed.

(** What an insert of [rows] can leave. *)
Definition insertedInto (rows : list (Z * Row)) (s s' : Store) : Prop :=
  (stGroups s' = stGroups s /\ stLastId s' = stLastId s /\ stGroupLastId s' = stGroupLastId s /\ stTombstones s' = stTombstones s /\
   stCounter s' = stCounter s) /\
  forall id r, stRows s' !! id = Some r -> (id, r) ∈ rows \/ stRows s !! id = Some r.

Lemma insertRows_into rows s : insertedInto rows s (insertRows ok rows s).
Proof. split; [apply insertRows_same|apply insertRows_rows]. Qed.

Lemma insertRow_into x s : insertedInto [x] s (insertRow ok x s).
Proof.
  unfold insertRow. destruct (ok _); (split; [done|]); [|by right]. intros id r. cbn [stRows sRows sWritten]. destruct (decide (id = fst x)) as [->|Hne].
  - rewrite lookup_insert_eq. intros [= <-]. left. destruct x. apply list_elem_of_here.
  - rewrite lookup_insert_ne by done. by right.
Qed.

(** Rows of one group, under new ids that the group's list now holds. *)
Lemma inserted gid listed rows s s' n : storeOk s -> stGroups s !! gid = Some listed -> 0 <= n ->
  map fst rows = seqZ (stLastId s + 1) n -> Forall (fun x => rwGid (snd x) = gid) rows -> insertedInto rows (sLastId (stLastId s + n) s) s' ->
  storeOk (sGroups (<[gid := listAddBatch (map fst rows) listed]> (stGroups s)) s').
Proof.
  intros [A B C D G L K] Eg Hn Er Hr [(_ & Hst & Hgl & _ & Hcnt) Hi]. set (l' := listAddBatch (map fst rows) listed). cbn [stLastId sLastId stGroupLastId stRows stCounter] in *.
  assert (Hids : forall id, id ∈ map fst rows -> stLastId s < id <= stLastId s + n) by (intros id; rewrite Er, seqZ_bounds; lia).
  assert (Hrows : forall id r, stRows s' !! id = Some r -> (id ∈ map fst rows /\ rwGid r = gid) \/ stRows s !! id = Some r).
  { intros id r [H|H]%Hi; [left|by right]. rewrite Forall_forall in Hr. split; [apply list_elem_of_fmap; by exists (id, r)|apply (Hr _ H)]. }
  split; cbn [stRows stGroups stLastId stGroupLastId stCounter sGroups]; rewrite ?Hst, ?Hgl, ?Hcnt; [| | | | |lia|done].
  - intros id r H. destruct (Hrows id r H) as [[Hk _]|Ho]; [specialize (Hids id Hk); lia|]. specialize (A id r Ho). lia.
  - intros id r H. destruct (Hrows id r H) as [[Hk Eq]|Ho].
    + exists l'. rewrite Eq, lookup_insert_eq. split; [done|]. apply listAddBatch_elem. by right.
    + destruct (B id r Ho) as (l & El & Hl). destruct (decide (rwGid r = gid)) as [Eq|Hne].
      * exists l'. rewrite Eq, lookup_insert_eq. split; [done|]. apply listAddBatch_elem. left. congruence.
      * exists l. by rewrite lookup_insert_ne.
  - intros g l. destruct (decide (g = gid)) as [->|Hne].
    + rewrite lookup_insert_eq. intros [= <-]. destruct (C gid listed Eg) as [C1 C2]. split.
      * apply listAddBatch_nodup; [|done]. rewrite Er. apply NoDup_seqZ.
      * apply Forall_forall. intros id. unfold l'. rewrite listAddBatch_elem. intros [H|H]; [|specialize (Hids id H); lia].
        rewrite Forall_forall in C2. specialize (C2 id H). lia.
    + rewrite lookup_insert_ne by done. intros H. destruct (C g l H) as [C1 C2]. split; [done|]. eapply Forall_impl; [exact C2|]. intros id Hid. cbn in *. lia.
  - intros g l id r. destruct (decide (g = gid)) as [->|Hne].
    + rewrite lookup_insert_eq. intros [= <-] Hin H. destruct (Hrows id r H) as [[_ Eq]|Ho]; [done|]. apply listAddBatch_elem in Hin as [Hin|Hin].
      * by apply (D gid listed id r).
      * specialize (Hids id Hin). specialize (A id r Ho). lia.
    + rewrite lookup_insert_ne by done. intros El Hin H. destruct (Hrows id r H) as [[Hk _]|Ho]; [|by apply (D g l id r)].
      destruct (C g l El) as [_ C2]. rewrite Forall_forall in C2. specialize (C2 id Hin). specialize (Hids id Hk). cbn in C2. lia.
  - intros g l. destruct (decide (g = gid)) as [->|Hne]; [intros _; by apply (G gid listed)|]. rewrite lookup_insert_ne by done. apply G.
Qed.

Lemma rows_gid gid (n : Z) (l : list Row) : Forall (fun x => rwGid (snd x) = gid) (map (rowOf gid) (numbered n l)).
Proof. apply Forall_forall. intros x Hx. apply list_elem_of_fmap in Hx as (y & -> & _). done. Qed.

Lemma NewProfileIDRange_counts n s : storeOk s -> NewProfileIDRange n s = (stLastId s + 1, sLastId (stLastId s + n) s).
Proof. intros H. unfold NewProfileIDRange. by rewrite (so_counter s H). Qed.

(** Ids that are handed out and not used. *)
Lemma raised_ok n s : 0 <= n -> storeOk s -> storeOk (sLastId (stLastId s + n) s).
Proof.
  intros Hn [A B C D G L K]. split; cbn [stRows stGroups stLastId stGroupLastId stCounter sLastId]; [| | | |done|lia|done].
  - intros id r H. specialize (A id r H). lia.
  - done.
  - intros g l H. destruct (C g l H) as [C1 C2]. split; [done|]. eapply Forall_impl; [exact C2|]. intros id Hid. cbn in *. lia.
  - done.
Qed.

Lemma AddProfileBatch_ok profiles gid s : storeOk s -> storeOk (snd (AddProfileBatch ok profiles gid s)).
Proof.
  intros H. unfold AddProfileBatch. cbv zeta. destruct (GetGroup s (targetGroup gid s)) as [listed|] eqn:E; [|done]. destruct profiles as [|p ps]; [done|].
  set (l := p :: ps). rewrite NewProfileIDRange_counts by done. cbn [snd].
  destruct (insertRows_into (map (rowOf (targetGroup gid s)) (numbered (stLastId s + 1) l)) (sLastId (stLastId s + zlen l) s)) as [(Eg & Q) H1]. rewrite Eg.
  apply (inserted _ listed _ s _ (zlen l)); [done|done|apply zlen_nonneg|apply rows_fst|apply rows_gid|by split].
Qed.

Lemma AddProfile_ok p gid s : storeOk s -> storeOk (snd (AddProfile ok p gid s)).
Proof.
  intros H. unfold AddProfile. cbv zeta. rewrite NewProfileIDRange_counts by done. change (GetGroup (sLastId (stLastId s + 1) s)) with (GetGroup s).
  change (targetGroup gid (sLastId (stLastId s + 1) s)) with (targetGroup gid s).
  destruct (GetGroup s (targetGroup gid s)) as [listed|] eqn:E; cbn [snd]; [|by apply raised_ok]. set (row := rowOf _ _).
  destruct (insertRow_into row (sLastId (stLastId s + 1) s)) as [(Eg & Q) H1]. rewrite Eg.
  assert (El : listAdd (stLastId s + 1) listed = listAddBatch (map fst [row]) listed).
  { unfold listAdd, listAddBatch, row. cbn [map fst rowOf List.filter]. destruct (HasProfile _ listed); cbn [negb]; by rewrite ?app_nil_r. }
  rewrite El. apply (inserted _ listed [row] s _ 1); [done|done|done| |by repeat constructor|by split]. cbn. rewrite seqZ_cons by done. by rewrite seqZ_nil.
Qed.

Lemma foldr_delete_rows (rows : gmap Z Row) ids id r : foldr delete rows ids !! id = Some r <-> rows !! id = Some r /\ id ∉ ids.
Proof. rewrite lookup_foldr_delete_Some. apply and_comm. Qed.

(** Rows leave with their places in the lists. *)
Lemma deleted_ok (ids : list Z) (groups : gset Z) s : storeOk s ->
  (forall id r, stRows s !! id = Some r -> id ∈ ids -> rwGid r ∈ groups) ->
  storeOk (sGroups (map_imap (fun gid l => Some (if bool_decide (gid ∈ groups) then listRemoveBatch ids l else l)) (stGroups s))
             (sRows (foldr delete (stRows s) ids) s)).
Proof.
  intros [A B C D G L K] Hg.
  assert (Hrow := foldr_delete_rows (stRows s) ids).
  assert (Hl : forall g l, map_imap (fun gid l => Some (if bool_decide (gid ∈ groups) then listRemoveBatch ids l else l)) (stGroups s) !! g = Some l ->
    exists l0, stGroups s !! g = Some l0 /\ l = if bool_decide (g ∈ groups) then listRemoveBatch ids l0 else l0).
  { intros g l. rewrite map_lookup_imap. destruct (stGroups s !! g) as [l0|]; cbn; [|done]. intros [= <-]. by exists l0. }
  split; cbn [stRows stGroups stLastId stGroupLastId sGroups sRows]; [| | | | |done|done].
  - intros id r H. apply Hrow in H as [H _]. by apply (A id r).
  - intros id r H. apply Hrow in H as [H Hni]. destruct (B id r H) as (l & El & Hl'). rewrite map_lookup_imap, El. cbn. eexists. split; [done|].
    case_bool_decide; [by apply listRemoveBatch_elem|done].
  - intros g l H. apply Hl in H as (l0 & E & ->). destruct (C g l0 E) as [C1 C2]. case_bool_decide; [|done]. split; [by apply filter_nodup|].
    apply Forall_forall. intros id Hid. apply listRemoveBatch_elem in Hid as [Hid _]. rewrite Forall_forall in C2. by apply C2.
  - intros g l id r H Hin Hr. apply Hl in H as (l0 & E & ->). apply Hrow in Hr as [Hr Hni]. apply (D g l0 id r E); [|done].
    case_bool_decide; [by apply listRemoveBatch_elem in Hin as [Hin _]|done].
  - intros g l H. apply Hl in H as (l0 & E & _). by apply (G g l0).
Qed.

Lemma GetProfileBatch_elem s ids id r : (id, r) ∈ GetProfileBatch s ids <-> id ∈ ids /\ stRows s !! id = Some r.
Proof.
  unfold GetProfileBatch. rewrite list_elem_of_omap. split.
  - intros (x & Hx & E). destruct (stRows s !! x) as [r'|] eqn:Er; [|done]. cbn in E. by injection E as <- <-.
  - intros [Hi E]. exists id. by rewrite E.
Qed.

Lemma storeOk_same s s' : stRows s' = stRows s -> stGroups s' = stGroups s -> stLastId s' = stLastId s -> stGroupLastId s' = stGroupLastId s ->
  stCounter s' = stCounter s -> storeOk s -> storeOk s'.
Proof. intros E1 E2 E3 E4 E5 [A B C D G L K]. split; rewrite ?E1, ?E2, ?E3, ?E4, ?E5; done. Qed.

Lemma deleteListed_ok ids s : storeOk s -> storeOk (snd (deleteListed ok ids s)).
Proof.
  intros H. unfold deleteListed. destruct ids as [|i ids']; [done|]. set (ids := i :: ids'). cbv zeta. unfold deleteRows. destruct (ok (stWrites s)).
  - cbn [snd]. set (groups := list_to_set _ : gset Z).
    assert (Hg : forall id r, stRows s !! id = Some r -> id ∈ ids -> rwGid r ∈ groups).
    { intros id r E Hin. apply elem_of_list_to_set, list_elem_of_fmap. exists (id, r). split; [done|]. by apply GetProfileBatch_elem. }
    pose proof (deleted_ok ids groups s H Hg) as H'. by eapply storeOk_same; [..|exact H'].
  - cbn [snd]. by eapply storeOk_same; [..|exact H].
Qed.

Lemma BatchDeleteProfiles_ok ids stop s : storeOk s -> storeOk (snd (BatchDeleteProfiles ok afterStop ids stop s)).
Proof.
  intros H. unfold BatchDeleteProfiles. destruct (bool_decide _); [destruct stop|]; apply deleteListed_ok; [|done|done]. by eapply storeOk_same; [..|exact H].
Qed.

Lemma AddGroup_ok s : storeOk s -> storeOk (snd (AddGroup s)).
Proof.
  intros [A B C D G L K]. unfold AddGroup, NewGroupID. rewrite K. cbn [snd].
  assert (Hnew : stGroups s !! (stGroupLastId s + 1) = None).
  { destruct (stGroups s !! (stGroupLastId s + 1)) as [l|] eqn:E; [|done]. specialize (G _ _ E). lia. }
  split; cbn [stRows stGroups stLastId stGroupLastId]; [done| | | | |done|done].
  - intros id r H. destruct (B id r H) as (l & E & Hl). exists l. rewrite lookup_insert_ne by congruence. done.
  - intros g l. destruct (decide (g = stGroupLastId s + 1)) as [->|Hne]; [rewrite lookup_insert_eq; intros [= <-]; by repeat constructor|].
    rewrite lookup_insert_ne by done. apply C.
  - intros g l id r. destruct (decide (g = stGroupLastId s + 1)) as [->|Hne]; [rewrite lookup_insert_eq; by intros [= <-] Hin%elem_of_nil|].
    rewrite lookup_insert_ne by done. apply D.
  - intros g l. destruct (decide (g = stGroupLastId s + 1)) as [->|Hne]; [lia|]. rewrite lookup_insert_ne by done. intros E. specialize (G g l E). lia.
Qed.

Lemma DeleteGroup_ok gid s : storeOk s -> storeOk (snd (DeleteGroup ok gid s)).
Proof.
  intros [A B C D G L K]. unfold DeleteGroup. cbv zeta. unfold deleteRows. destruct (ok (stWrites s)); cbn [snd]; [|by split].
  set (ids := default [] (GetGroup s gid) ++ _).
  assert (Hown : forall id r, stRows s !! id = Some r -> id ∈ ids <-> rwGid r = gid).
  { intros id r H. unfold ids. rewrite elem_of_app. split.
    - intros [Hin|Hin].
      + unfold GetGroup in Hin. destruct (stGroups s !! gid) as [l|] eqn:E; [by apply (D gid l id r)|by apply elem_of_nil in Hin].
      + apply list_elem_of_fmap in Hin as ([i r'] & -> & Hin). apply filter_elem in Hin as [Hin E]. apply elem_of_map_to_list in Hin. cbn in *.
        assert (r' = r) by congruence. subst. by apply Z.eqb_eq.
    - intros E. right. apply list_elem_of_fmap. exists (id, r). split; [done|]. apply filter_elem. split; [by apply elem_of_map_to_list|]. by apply Z.eqb_eq. }
  assert (Hrow := foldr_delete_rows (stRows s) ids).
  split; cbn [stRows stGroups stLastId stGroupLastId sTombstones sRows sWritten]; [| | | | |done|done].
  - intros id r H. apply Hrow in H as [H _]. by apply (A id r).
  - intros id r H. apply Hrow in H as [H Hni]. destruct (B id r H) as (l & E & Hl). exists l. split; [|done]. rewrite lookup_delete_ne; [done|].
    intros Eq. apply Hni, (Hown id r H). by rewrite Eq.
  - intros g l H. apply lookup_delete_Some in H as [_ H]. by apply (C g).
  - intros g l id r H Hin Hr. apply lookup_delete_Some in H as [_ H]. apply Hrow in Hr as [Hr _]. by apply (D g l id r).
  - intros g l H. apply lookup_delete_Some in H as [_ H]. by apply (G g l).
Qed.

(** A saved profile stays in its group. *)
Lemma SaveProfile_ok id r r0 s : storeOk s -> stRows s !! id = Some r0 -> rwGid r = rwGid r0 -> storeOk (SaveProfile id r s).
Proof.
  intros H E Eg. unfold SaveProfile. destruct (_ || _); [done|]. destruct H as [A B C D G L K].
  split; cbn [stRows stGroups stLastId stGroupLastId sRows]; [| |done| |done|done|done].
  - intros i x. destruct (decide (i = id)) as [->|Hne]; [|rewrite lookup_insert_ne by done; apply A]. intros _. by apply (A id r0).
  - intros i x. destruct (decide (i = id)) as [->|Hne]; [|rewrite lookup_insert_ne by done; apply B]. rewrite lookup_insert_eq. intros [= <-]. rewrite Eg. by apply (B id r0).
  - intros g l i x El Hin. destruct (decide (i = id)) as [->|Hne]; [|rewrite lookup_insert_ne by done; by apply (D g l)].
    rewrite lookup_insert_eq. intros [= <-]. rewrite Eg. by apply (D g l id r0).
Qed.

Lemma setListed_ok gid l l' s : storeOk s -> stGroups s !! gid = Some l -> l' ≡ₚ l -> storeOk (setListed gid l' s).
Proof.
  intros H E P. unfold setListed, GetGroup. rewrite E. destruct H as [A B C D G L K]. split; cbn [stRows stGroups stLastId stGroupLastId sGroups]; [done| | | | |done|done].
  - intros id r H. destruct (B id r H) as (k & Ek & Hk). destruct (decide (rwGid r = gid)) as [Eq|Hne].
    + exists l'. rewrite Eq, lookup_insert_eq. split; [done|]. rewrite P. congruence.
    + exists k. by rewrite lookup_insert_ne.
  - intros g k. destruct (decide (g = gid)) as [->|Hne]; [|rewrite lookup_insert_ne by done; apply C]. rewrite lookup_insert_eq. intros [= <-].
    destruct (C gid l E) as [C1 C2]. rewrite P. by split.
  - intros g k id r. destruct (decide (g = gid)) as [->|Hne]; [|rewrite lookup_insert_ne by done; apply D]. rewrite lookup_insert_eq. intros [= <-] Hin.
    rewrite P in Hin. by apply (D gid l).
  - intros g k. destruct (decide (g = gid)) as [->|Hne]; [intros _; by apply (G gid l)|rewrite lookup_insert_ne by done; apply G].
Qed.

(** ** Deleted profiles *)

Definition tombsOk (s : Store) : Prop := forall id, id ∈ stTombstones s -> stRows s !! id = None /\ id <= stLastId s.

Lemma inserted_tombs rows s s' : insertedInto rows s s' -> (forall id, id ∈ map fst rows -> id ∉ stTombstones s) -> tombsOk s -> tombsOk s'.
Proof.
  intros [(_ & El & _ & Et & _) Hi] Hn H id Hid. rewrite Et in Hid. rewrite El. destruct (H id Hid) as [H1 H2]. split; [|done].
  destruct (stRows s' !! id) as [r|] eqn:E; [|done]. apply Hi in E as [E|E]; [|congruence]. destruct (Hn id); [|done].
  apply list_elem_of_fmap. by exists (id, r).
Qed.

Lemma listed_bound gid s id : storeOk s ->
  id ∈ default [] (GetGroup s gid) ++ map fst (List.filter (fun kv => rwGid (snd kv) =? gid) (map_to_list (stRows s))) -> id <= stLastId s.
Proof.
  intros W. rewrite elem_of_app. intros [H|H].
  - unfold GetGroup in H. destruct (stGroups s !! gid) as [l|] eqn:E; [|by apply elem_of_nil in H]. destruct (so_once s W gid l E) as [_ F].
    rewrite Forall_forall in F. by apply F.
  - apply list_elem_of_fmap in H as ([i r] & -> & H). apply filter_elem in H as [H _]. apply elem_of_map_to_list in H. by apply (so_ids s W i r).
Qed.

Lemma storeStep_tombs ev s : storeOk s -> tombsOk s -> tombsOk (storeStep ok afterStop ev s).
Proof.
  intros W H. assert (Hraise : forall n, 0 <= n -> tombsOk (sLastId (stLastId s + n) s)).
  { intros n Hn id Hid. destruct (H id Hid) as [H1 H2]. split; [done|]. cbn. lia. }
  assert (Hdel : forall ids existing s, tombsOk s -> (forall id, id ∈ existing -> id ∈ ids /\ id <= stLastId s) -> tombsOk (snd (deleteRows ok ids existing s))).
  { intros ids existing s1 H1 He. unfold deleteRows. destruct (ok _); cbn [snd]; [|done]. intros id Hid. cbn [stTombstones sTombstones stRows sRows stLastId sWritten] in *.
    apply elem_of_union in Hid as [Hid|Hid].
    - apply elem_of_list_to_set in Hid. destruct (He id Hid) as [Hi Hl]. split; [by apply lookup_foldr_delete|done].
    - destruct (H1 id Hid) as [H2 H3]. split; [|done]. destruct (foldr delete (stRows s1) ids !! id) as [r|] eqn:E; [|done]. apply foldr_delete_rows in E as [E _]. congruence. }
  destruct ev; cbn [storeStep]; try done.
  - unfold AddProfile. cbv zeta. rewrite NewProfileIDRange_counts by done. destruct (GetGroup _ _); cbn [snd]; [|by apply Hraise]. refine (inserted_tombs _ _ _ (insertRow_into _ _) _ _); [|by apply Hraise].
    intros id Hid%list_elem_of_singleton Ht. destruct (H id Ht) as [_ Hl]. cbn in Hid. lia.
  - unfold AddProfileBatch. cbv zeta. destruct (GetGroup _ _); [|done]. destruct ps as [|p ps]; [done|]. rewrite NewProfileIDRange_counts by done. cbn [snd]. refine (inserted_tombs _ _ _ (insertRows_into _ _) _ _); [|apply Hraise, zlen_nonneg].
    intros id Hid Ht. rewrite rows_fst, seqZ_bounds in Hid. destruct (H id Ht) as [_ Hl]. cbn in Hl. lia.
  - assert (Hb : forall ids s, tombsOk s -> storeOk s -> tombsOk (snd (deleteListed ok ids s))).
    { clear -Hdel. intros ids s H W. unfold deleteListed. destruct ids as [|i ids']; [done|]. set (ids := i :: ids'). cbv zeta.
      specialize (Hdel ids (map fst (GetProfileBatch s ids)) s H). destruct (deleteRows ok ids _ s) as [[] s1]; cbn [snd] in *; apply Hdel;
        intros id Hid; apply list_elem_of_fmap in Hid as ([k r] & -> & Hid); apply GetProfileBatch_elem in Hid as [Hi Er]; (split; [done|]; destruct (so_ids s W k r Er); cbn [fst]; lia). }
    unfold BatchDeleteProfiles. destruct (bool_decide _); [destruct stopRunning|]; apply Hb; try done. by eapply storeOk_same; [..|exact W].
  - unfold DeleteGroup. cbv zeta. set (ids := _ ++ _). specialize (Hdel ids ids s H).
    destruct (deleteRows ok ids ids s) as [[] s1]; cbn [snd] in *.
    + intros id Hid. cbn in *. apply Hdel; [|done]. intros i Hi. split; [done|]. by apply (listed_bound gid s i W).
    + apply Hdel. intros i Hi. split; [done|]. by apply (listed_bound gid s i W).
  - destruct (GetProfile s id); [|done]. unfold SaveProfile. case_bool_decide as Ht; [by rewrite orb_true_r|]. rewrite orb_false_r. destruct (id <? 0); [done|].
    intros i Hi. cbn in *. destruct (H i Hi) as [H1 H2]. split; [|done]. rewrite lookup_insert_ne; [done|]. by intros ->.
  - destruct (let? l := _ in _) as [l|]; [|done]. unfold setListed. by destruct (GetGroup s gid).
  - destruct (let? l := _ in _) as [l|]; [|done]. unfold setListed. by destruct (GetGroup s gid).
  - destruct (GetGroup s gid) eqn:E; [|done]. case_bool_decide; [|done]. unfold setListed. by rewrite E.
Qed.

(** The listing and the deleted ids hold wherever the store has come. *)
Lemma storeReachable_ok s : storeReachable ok afterStop s -> storeOk s /\ tombsOk s.
Proof.
  induction 1 as [|ev s _ [W H] Hev]; [split; [split|intros id Hid]; set_solver|]. split; [|by apply storeStep_tombs].
  destruct ev; cbn [storeStep]; [by apply AddGroup_ok|by apply AddProfile_ok|by apply AddProfileBatch_ok|by apply BatchDeleteProfiles_ok|by apply DeleteGroup_ok| | | | | |].
  - unfold GetProfile. destruct (stRows s !! id) as [r0|] eqn:E; [|done]. by apply (SaveProfile_ok _ _ r0).
  - unfold GetGroup. destruct (stGroups s !! gid) as [l|] eqn:E; [|done]. cbn. destruct (listSwap i j l) as [l'|] eqn:El; [|done].
    apply (setListed_ok _ l); [done|done|by apply (listSwap_perm i j)].
  - unfold GetGroup. destruct (stGroups s !! gid) as [l|] eqn:E; [|done]. cbn. destruct (listEmplace i j l) as [l'|] eqn:El; [|done].
    apply (setListed_ok _ l); [done|done|by apply (listEmplace_perm i j)].
  - unfold GetGroup. destruct (stGroups s !! gid) as [l'|] eqn:E; [|done]. case_bool_decide; [|done]. by apply (setListed_ok _ l').
  - by eapply storeOk_same; [..|exact W].
  - destruct works; [|done]. eapply storeOk_same; [..|exact W]; try done. symmetry. apply (so_counter s W).
Qed.

End Kept.

(** C21: While the process runs and the id counter works, however the store is
    changed, and whichever inserts and deletions fail, every stored profile is
    listed exactly once, in the group its row names and in no other, and an id
    that was deleted has no profile again. *)
Theorem profiles_listed ok afterStop s : storeReachable ok afterStop s ->
  (forall id r, GetProfile s id = Some r -> exists l, GetGroup s (rwGid r) = Some l /\ id ∈ l) /\
  (forall gid l, GetGroup s gid = Some l -> NoDup l) /\
  (forall gid l id r, GetGroup s gid = Some l -> id ∈ l -> GetProfile s id = Some r -> rwGid r = gid) /\
  forall id, id ∈ stTombstones s -> GetProfile s id = None.
Proof.
  intros R. destruct (storeReachable_ok ok afterStop s R) as [[A B C D G L K] H]. repeat split.
  - exact B.
  - intros gid l E. by destruct (C gid l E).
  - exact D.
  - intros id Hid. by destruct (H id Hid).
Qed.

End Facts.

(** ** A small store *)

(** An outbound that is only its name. *)
#[export] Instance namedOutbounds : Outbounds := {|
  outbound := qstr;
  contentDigest o := o;
  identityDigest type o := type ++ [124] ++ take 1 o;
  exportLink _ o := o;
  displayType o := [];
  displayTypeAndName o := o;
  effectiveAddress o := o;
  outboundName o := o;
  securityLevel o := 0;
  securityText o := [];
  isInsecure o := false
|}.

Definition named (name : string) : Row := newProfile (u "vless") (u name).

(** A group, two profiles, a batch whose insert fails, a delete and a move. *)
Definition sampleEvents : list StoreEvent :=
  [SeAddGroup; SeAddProfile (named "a") 1; SeAddBatch [named "b"; named "c"] 1; SeAddBatch [named "d"] 1;
   SeDelete [2] true; SeSwap 1 0 1; SeSave 2 (named "b")].

Definition sampleStore : Store := fold_left (fun s ev => storeStep (fun n => negb (n =? 2)%nat) (fun z => z) ev s) sampleEvents emptyStore.

Lemma folded_reachable ok afterStop evs s : storeReachable ok afterStop s -> Forall (fun ev => ev <> SeCounter false) evs ->
  storeReachable ok afterStop (fold_left (fun s ev => storeStep ok afterStop ev s) evs s).
Proof. intros H Hevs. revert s H. induction Hevs as [|ev evs Hev _ IH]; intros s H; [done|]. by apply IH, store_step. Qed.

(** Without the counter, profiles added to two groups one after the other get the
    same id: the first loses its row to the second, whose id both groups list. *)
Example same_id_in_two_groups :
  let evs := [SeAddGroup; SeAddGroup; SeCounter false; SeAddProfile (named "a") 1; SeAddProfile (named "b") 2] in
  let s := fold_left (fun s ev => storeStep (fun _ => true) (fun z => z) ev s) evs emptyStore in
  GetGroup s 1 = Some [0] /\ GetGroup s 2 = Some [0] /\ option_map rwGid (GetProfile s 0) = Some 2.
Proof. vm_compute. repeat split. Qed.

Lemma profiles_listed_witness : GetGroup sampleStore 1 = Some [3; 1; 4] /\ GetProfile sampleStore 2 = None /\ GetProfile sampleStore 4 = None /\
  forall gid l, GetGroup sampleStore gid = Some l -> NoDup l.
Proof.
  split; [vm_compute; reflexivity|]. split; [vm_compute; reflexivity|]. split; [vm_compute; reflexivity|].
  refine (proj1 (proj2 (profiles_listed (fun n => negb (n =? 2)%nat) (fun z => z) sampleStore _))). apply folded_reachable; [constructor|by repeat constructor].
Defined.
