(* ===== verification/GroupSort.v ===== *)
(** The order a group keeps its profiles in: the sorts of
    src/src/database/entities/Group.cpp.

    A group sorted by a column re-sorts itself when what the column shows
    changes, and moves only the rows that changed when they are few.  The keys
    are read without the group's lock, so the lists are sorted over a snapshot
    that is committed only when it is still the group's: [others n] is what other
    threads do to the group before its lock is taken for the n-th time, and
    [load n] the profiles the n-th attempt reads. *)
From stdpp Require Import base list gmap strings sorting.
From Stdlib Require Import ZArith Lia Bool.
From S2P Require Import Prelude Json StableSort ProfileStore.

(** A double that is not NaN. *)
Class Doubles := {
  double : Type;
  doubleLess : double -> double -> bool;
  ofInteger : Z -> double;
  toDouble : qstr -> double;
  timesPowerOfTen : double -> Z -> double
}.

Class DoublesOk (D : Doubles) : Prop := {
  double_order : WeakOrder doubleLess;
  double_total : forall a b, doubleLess a b = false -> doubleLess b a = false -> a = b
}.

Inductive GroupSortMethod := Raw | ByType | ByAddress | ByName | ByTestResult | ById | ByTraffic | BySecurity | ByLatency.

Record GroupSortAction := mkAction { method : GroupSortMethod; descending : bool }.

#[export] Instance GroupSortMethod_eq : EqDecision GroupSortMethod.
Proof. solve_decision. Defined.

#[export] Instance GroupSortAction_eq : EqDecision GroupSortAction.
Proof. solve_decision. Defined.

Inductive SortInput := Membership | Config | TestResult | Traffic.
Inductive testBy := testBy_latency | testBy_dlSpeed | testBy_ulSpeed | testBy_ipOut.
Inductive trafficBy := trafficBy_total | trafficBy_dl | trafficBy_ul.
Inductive typeBy := typeBy_byType | typeBy_bySecurity.

(** What a group shows in the columns that show one of several things. *)
Record SortColumns := mkColumns { test_sort_by : testBy; traffic_sort_by : trafficBy; type_sort_by : typeBy }.

Definition sortReads (m : GroupSortMethod) (input : SortInput) : bool :=
  match m, input with
  | (Raw | ById), _ => false
  | _, Membership => true
  | (ByTestResult | ByLatency), TestResult => true
  | ByTraffic, Traffic => true
  | (ByType | ByAddress | ByName | BySecurity), Config => true
  | _, _ => false
  end.

Definition KeepsSorted (a : GroupSortAction) : bool := sortReads (method a) Membership.

Section Rules.
Context {O : Outbounds} {D : Doubles} {Q : QtChar}.

Definition bitrateToBps (str : qstr) : double :=
  let withUnit unit := endsWith (map foldCase (u unit)) (map foldCase str) in
  let value := toDouble (take (length str - 4) str) in
  if withUnit "Gbps"%string then timesPowerOfTen value 9
  else if withUnit "Mbps"%string then timesPowerOfTen value 6
  else if withUnit "Kbps"%string then timesPowerOfTen value 3
  else if eqStr str (u "N/A") then ofInteger (-1)
  else ofInteger 0.

(** Fields a method leaves unset stay equal. *)
Record SortKey := mkKey { missing : bool; level : Z; num : double; text : qstr }.

Definition latencyForSort (ms : Z) : Z := if ms =? 0 then 100000 else if ms <? 0 then 99999 else ms.

Record SortRule := mkRule { ruleMethod : GroupSortMethod; ruleDescending : bool; ruleByLatency : bool; ruleColumns : SortColumns }.

Definition newSortRule (show_config_security : bool) (columns : SortColumns) (action : GroupSortAction) : SortRule :=
  let bySec := match type_sort_by columns with typeBy_bySecurity => show_config_security | typeBy_byType => false end in
  let m := match method action with ByType | BySecurity => if bySec then BySecurity else ByType | m => m end in
  mkRule m (descending action)
    (match m, test_sort_by columns with ByLatency, _ | ByTestResult, testBy_latency => true | _, _ => false end) columns.

Definition keyOf (rule : SortRule) (profile : option Row) : SortKey :=
  let numbered n := mkKey false 0 n [] in
  let texted t := mkKey false 0 (ofInteger 0) t in
  match profile with
  | None => mkKey true 0 (ofInteger 0) []
  | Some p =>
      match ruleMethod rule with
      | ByType => texted (displayType (rwOutbound p))
      | ByName => texted (outboundName (rwOutbound p))
      | ByAddress => texted (effectiveAddress (rwOutbound p))
      | BySecurity => mkKey false (securityLevel (rwOutbound p)) (ofInteger 0) (securityText (rwOutbound p))
      | ByLatency => numbered (ofInteger (latencyForSort (rwLatency p)))
      | ByTestResult =>
          match test_sort_by (ruleColumns rule) with
          | testBy_latency => numbered (ofInteger (latencyForSort (rwLatency p)))
          | testBy_dlSpeed => numbered (bitrateToBps (rwDlSpeed p))
          | testBy_ulSpeed => numbered (bitrateToBps (rwUlSpeed p))
          | testBy_ipOut => texted (rwIpOut p)
          end
      | ByTraffic =>
          match traffic_sort_by (ruleColumns rule) with
          | trafficBy_dl => numbered (ofInteger (rwDownlink p))
          | trafficBy_ul => numbered (ofInteger (rwUplink p))
          | trafficBy_total => numbered (ofInteger (rwDownlink p + rwUplink p))
          end
      | Raw | ById => texted []
      end
  end.

Definition ascending (a b : SortKey) : bool :=
  if negb (level a =? level b) then level a <? level b
  else if doubleLess (num a) (num b) || doubleLess (num b) (num a) then doubleLess (num a) (num b)
  else ltStr (text a) (text b).

Definition keyLess (rule : SortRule) (a b : SortKey) : bool :=
  if negb (Bool.eqb (missing a) (missing b)) then missing b
  else if ruleDescending rule then ascending b a else ascending a b.

(** ** Sorting a group *)

Record SortState := mkSort { ssProfiles : list Z; ssSort : GroupSortAction }.

Definition kSortAttempts : nat := 3.

Inductive Commit := Moved | Unchanged | Stale.

Definition commit (snapshot : list Z) (action : GroupSortAction) (order : list Z) (g : SortState) : Commit * SortState :=
  if bool_decide (ssProfiles g = snapshot) && bool_decide (ssSort g = action) then
    if bool_decide (order = ssProfiles g) then (Unchanged, g) else (Moved, mkSort order (ssSort g))
  else (Stale, g).

Section Sorts.
Context (show_config_security : bool) (columns : SortColumns).
Context (load : nat -> Z -> option Row).
Context (others : nat -> SortState -> SortState).

Definition idLess (k : nat) (action : GroupSortAction) (i j : Z) : bool :=
  let rule := newSortRule show_config_security columns action in
  keyLess rule (keyOf rule (load k i)) (keyOf rule (load k j)).

Fixpoint resortFrom (attempts k : nat) (g : SortState) : bool * SortState :=
  match attempts with
  | 0%nat => (false, g)
  | S attempts' =>
      let g := others (2 * k) g in
      if KeepsSorted (ssSort g) then
        let order := stableSort (idLess k (ssSort g)) (ssProfiles g) in
        match commit (ssProfiles g) (ssSort g) order (others (2 * k + 1) g) with
        | (Moved, g) => (true, g)
        | (Unchanged, g) => (false, g)
        | (Stale, g) => resortFrom attempts' (S k) g
        end
      else (false, g)
  end.

Definition Resort (k : nat) (g : SortState) : bool * SortState := resortFrom kSortAttempts k g.

Definition SetSort (action : GroupSortAction) (g : SortState) : SortState := mkSort (ssProfiles g) action.

Definition SortProfiles (k : nat) (action : GroupSortAction) (g : SortState) : bool * SortState := Resort k (SetSort action g).

Definition bitWidth (n : nat) : nat := match n with 0%nat => 0 | S _ => S (Nat.log2 n) end.

Definition changedPositions (changed : list Z) (snapshot : list Z) : list nat :=
  List.filter (fun i => bool_decide (nth i snapshot 0 ∈ changed)) (seq 0 (length snapshot)).

Definition manyChanged (positions : list nat) (count : nat) : bool := (count <=? length positions * (bitWidth count + 4))%nat.

(** Every changed row fits between its neighbours. *)
Definition inPlace (less : Z -> Z -> bool) (snapshot : list Z) (positions : list nat) : bool :=
  forallb (fun i =>
    ((i =? 0)%nat || negb (less (nth i snapshot 0) (nth (i - 1) snapshot 0))) &&
    ((S i =? length snapshot)%nat || negb (less (nth (S i) snapshot 0) (nth i snapshot 0)))) positions.

(** std::upper_bound. *)
Fixpoint upperBound (less : Z -> Z -> bool) (x : Z) (l : list Z) : nat :=
  match l with
  | [] => 0
  | y :: l' => if less x y then 0 else S (upperBound less x l')
  end.

(** The changed rows are lifted out and put back one by one. *)
Definition reinserted (less : Z -> Z -> bool) (changed snapshot : list Z) (positions : list nat) : list Z :=
  fold_left (fun order i => let id := nth i snapshot 0 in insertAt (upperBound less id order) id order) positions
    (List.filter (fun id => negb (bool_decide (id ∈ changed))) snapshot).

Fixpoint repositionFrom (attempts k : nat) (changed : list Z) (g : SortState) : bool * SortState :=
  match attempts with
  | 0%nat => (false, g)
  | S attempts' =>
      let g := others (2 * k) g in
      if KeepsSorted (ssSort g) then
        let snapshot := ssProfiles g in
        let positions := changedPositions changed snapshot in
        if isNil positions then (false, g)
        else if manyChanged positions (length snapshot) then Resort (S k) g
        else
          let less := idLess k (ssSort g) in
          if inPlace less snapshot positions then (false, g)
          else
            match commit snapshot (ssSort g) (reinserted less changed snapshot positions) (others (2 * k + 1) g) with
            | (Moved, g) => (true, g)
            | (Unchanged, g) => (false, g)
            | (Stale, g) => repositionFrom attempts' (S k) changed g
            end
      else (false, g)
  end.

Definition Reposition (changed : list Z) (g : SortState) : bool * SortState :=
  match changed with [] => (false, g) | _ => repositionFrom kSortAttempts 0 changed g end.

End Sorts.
End Rules.
