(* ===== verification/GroupSortFacts.v ===== *)
(** A kept sort: a whole sort and a move of the changed rows agree. *)
From stdpp Require Import base list gmap strings sorting.
From Stdlib Require Import ZArith Lia Bool.
From S2P Require Import Prelude Json StableSort ProfileStore ProfileStoreFacts GroupSort.

#[local] Notation sorted less := (StronglySorted (fun i j => less j i = false)).

(** ** The order of the keys *)

Lemma ltStr_weak : WeakOrder ltStr.
Proof.
  split.
  - induction x as [|a s IH]; intros [|b t]; cbn [ltStr]; try done. rewrite orb_true_iff, andb_true_iff, Z.ltb_lt, Z.eqb_eq.
    intros [H|[-> H]]; [|by rewrite Z.ltb_irrefl, Z.eqb_refl, IH]. rewrite (proj2 (Z.ltb_ge b a)), (proj2 (Z.eqb_neq b a)) by lia. done.
  - intros x y. revert x. induction y as [|b t IH]; intros [|a s] [|c r]; cbn [ltStr]; try tauto.
    rewrite !orb_true_iff, !andb_true_iff, !Z.ltb_lt, !Z.eqb_eq. specialize (IH s r).
    intros [H|[-> H]]; [destruct (Z.lt_trichotomy a b) as [|[->|]]; lia|].
    destruct (Z.lt_trichotomy c b) as [|[->|]]; [lia|destruct (IH H); tauto|lia].
Qed.

Lemma ltb_weak : WeakOrder Z.ltb.
Proof. split; intros; rewrite ?Z.ltb_lt, ?Z.ltb_ge in *; lia. Qed.

Lemma boolLess_weak : WeakOrder (fun a b => negb a && b).
Proof. split; [by intros [] []|]. intros [] [] []; tauto. Qed.

Section Facts.
Context {O : Outbounds} {D : Doubles} {Q : QtChar} {DOk : DoublesOk D}.

Lemma WeakOrder_ext {A} (f g : A -> A -> bool) : (forall x y, f x y = g x y) -> WeakOrder f -> WeakOrder g.
Proof. intros E W. split; [intros x y; rewrite <- !E; apply less_asym|intros x y z; rewrite <- !E; apply less_negtrans]. Qed.

Lemma ascending_weak : WeakOrder ascending.
Proof.
  pose proof double_order as Wd.
  eapply WeakOrder_ext; [|apply (lex_weak (fun a b => level a <? level b)); [exact (on_weak level _ ltb_weak)|];
    apply (lex_weak (fun a b => doubleLess (num a) (num b))); [exact (on_weak num _ Wd)|exact (on_weak text _ ltStr_weak)]].
  intros a b. unfold ascending. destruct (Z.eqb_spec (level a) (level b)) as [->|Hne]; cbn [negb].
  - rewrite Z.ltb_irrefl. cbn [negb orb andb]. destruct (doubleLess (num a) (num b)) eqn:E; [done|]. by destruct (doubleLess (num b) (num a)).
  - destruct (Z.ltb_spec (level a) (level b)); [done|]. by rewrite (proj2 (Z.ltb_lt _ _)) by lia.
Qed.

#[export] Instance keyLess_weak rule : WeakOrder (keyLess rule).
Proof.
  eapply WeakOrder_ext; [|apply (lex_weak (fun a b => negb (missing a) && missing b)); [exact (on_weak missing _ boolLess_weak)|];
    instantiate (1 := fun a b => if ruleDescending rule then ascending b a else ascending a b);
    destruct (ruleDescending rule); [apply flip_weak|]; apply ascending_weak].
  intros a b. unfold keyLess. by destruct (missing a), (missing b).
Qed.

#[export] Instance idLess_weak sec columns load k action : WeakOrder (idLess sec columns load k action).
Proof. exact (on_weak (fun i => keyOf (newSortRule sec columns action) (load k i)) _ (keyLess_weak _)). Qed.

(** ** Putting changed rows back *)

Section Less.
Context (less : Z -> Z -> bool) {W : WeakOrder less}.

Lemma insertAt_upper x l : insertAt (upperBound less x l) x l = insertUpper less x l.
Proof.
  unfold insertAt. induction l as [|y l IH]; cbn [upperBound insertUpper]; [done|]. destruct (less x y); [done|]. cbn [take drop app]. by rewrite IH.
Qed.

Definition isChanged (changed : list Z) (id : Z) : bool := bool_decide (id ∈ changed).

Lemma positions_ids changed snapshot :
  map (fun i => nth i snapshot 0) (changedPositions changed snapshot) = List.filter (isChanged changed) snapshot.
Proof.
  unfold changedPositions. enough (H : forall pre l, map (fun i => nth i (pre ++ l) 0) (List.filter (fun i => bool_decide (nth i (pre ++ l) 0 ∈ changed)) (seq (length pre) (length l)))
    = List.filter (isChanged changed) l) by apply (H []).
  intros pre l. revert pre. induction l as [|x l IH]; intros pre; [done|]. cbn [length seq List.filter].
  specialize (IH (pre ++ [x])). rewrite <- app_assoc, length_app, Nat.add_comm in IH. cbn [length app Nat.add] in IH.
  assert (E : nth (length pre) (pre ++ x :: l) 0 = x) by (rewrite app_nth2, Nat.sub_diag by lia; done).
  rewrite E. unfold isChanged at 1. destruct (bool_decide (x ∈ changed)); cbn [map]; rewrite IH, ?E; done.
Qed.

(** Putting the rows back one by one is a stable sort with them last. *)
Lemma reinserted_sorts changed snapshot : sorted less (List.filter (fun id => negb (isChanged changed id)) snapshot) ->
  reinserted less changed snapshot (changedPositions changed snapshot) =
  stableSort less (List.filter (fun id => negb (isChanged changed id)) snapshot ++ List.filter (isChanged changed) snapshot).
Proof.
  intros H. rewrite <- (positions_ids changed snapshot). unfold reinserted.
  enough (E : forall ps rest, fold_left (fun order i => insertAt (upperBound less (nth i snapshot 0) order) (nth i snapshot 0) order) ps (stableSort less rest) =
    stableSort less (rest ++ map (fun i => nth i snapshot 0) ps)) by (rewrite <- E, stableSort_id by done; done).
  clear H. induction ps as [|i ps IH]; intros rest; cbn [fold_left map]; [by rewrite app_nil_r|].
  by rewrite insertAt_upper, <- stableSort_snoc, IH, <- app_assoc.
Qed.

(** A list whose changed rows fit their neighbours is sorted when the rest is. *)
Lemma inPlace_sorted changed snapshot : sorted less (List.filter (fun id => negb (isChanged changed id)) snapshot) ->
  inPlace less snapshot (changedPositions changed snapshot) = true -> sorted less snapshot.
Proof.
  intros Hr Hp. unfold inPlace in Hp. rewrite forallb_forall in Hp. apply (adjacent_sorted less _ 0). intros i Hi.
  assert (Hin : forall j, (j < length snapshot)%nat -> isChanged changed (nth j snapshot 0) = true -> In j (changedPositions changed snapshot)).
  { intros j Hj Hc. apply filter_In. split; [apply in_seq; lia|done]. }
  destruct (isChanged changed (nth i snapshot 0)) eqn:Ei; [|destruct (isChanged changed (nth (S i) snapshot 0)) eqn:Ej].
  - specialize (Hp i (Hin i ltac:(lia) Ei)). apply andb_true_iff in Hp as [_ Hp]. apply orb_true_iff in Hp as [Hp|Hp]; [apply Nat.eqb_eq in Hp; lia|by apply negb_true_iff].
  - specialize (Hp (S i) (Hin (S i) Hi Ej)). apply andb_true_iff in Hp as [Hp _]. cbn [Nat.eqb orb] in Hp. apply negb_true_iff in Hp.
    by replace (S i - 1)%nat with i in Hp by lia.
  - assert (Hn : forall j, (j < length snapshot)%nat -> snapshot !! j = Some (nth j snapshot 0)).
    { intros j Hj. destruct (nth_lookup_or_length snapshot j 0); [done|lia]. }
    assert (Hsplit : snapshot = take i snapshot ++ nth i snapshot 0 :: nth (S i) snapshot 0 :: drop (S (S i)) snapshot).
    { rewrite <- (take_drop i snapshot) at 1. f_equal. rewrite (drop_S snapshot (nth i snapshot 0)) by (apply Hn; lia).
      f_equal. apply drop_S. apply Hn. lia. }
    rewrite Hsplit, List.filter_app in Hr. cbn [List.filter] in Hr. rewrite Ei, Ej in Hr. cbn [negb] in Hr.
    apply StronglySorted_app_1_r in Hr. inversion Hr as [|? ? _ Hf]. by apply Forall_inv in Hf.
Qed.

End Less.

(** ** Other threads *)

(** What every change other threads make keeps, and does not depend on the
    order, the sorts keep. *)
Lemma resortFrom_keeps sec columns load others (P : list Z -> Prop) attempts k g :
  (forall l l', l ≡ₚ l' -> P l -> P l') -> (forall n g, P (ssProfiles g) -> P (ssProfiles (others n g))) ->
  P (ssProfiles g) -> P (ssProfiles (snd (resortFrom sec columns load others attempts k g))).
Proof.
  intros Hp Ho. revert k g. induction attempts as [|attempts IH]; intros k g H; [done|]. cbn [resortFrom].
  pose proof (Ho (2 * k)%nat g H) as H1. set (g1 := others (2 * k)%nat g) in *. clearbody g1. destruct (KeepsSorted (ssSort g1)); [|done].
  pose proof (Ho (2 * k + 1)%nat g1 H1) as H2. set (g2 := others (2 * k + 1)%nat g1) in *. clearbody g2. unfold commit.
  case_bool_decide as E1; [case_bool_decide as E2|]; cbn [andb]; [|by apply IH|by apply IH].
  case_bool_decide; cbn [snd]; [done|]. cbn [ssProfiles]. eapply Hp; [|exact H1]. symmetry. apply stableSort_perm.
Qed.

Lemma reinserted_perm less changed snapshot :
  reinserted less changed snapshot (changedPositions changed snapshot) ≡ₚ snapshot.
Proof.
  unfold reinserted. fold (isChanged changed).
  enough (E : forall ps rest, fold_left (fun order i => insertAt (upperBound less (nth i snapshot 0) order) (nth i snapshot 0) order) ps rest ≡ₚ
    rest ++ map (fun i => nth i snapshot 0) ps).
  - rewrite E, positions_ids. change (List.filter (fun id => negb (bool_decide (id ∈ changed))) snapshot) with (List.filter (fun id => negb (isChanged changed id)) snapshot).
    clear E. induction snapshot as [|x l IH]; [done|]. cbn [List.filter]. destruct (isChanged changed x); cbn [negb]; [by rewrite <- Permutation_middle, IH|].
    cbn [app]. by rewrite IH.
  - induction ps as [|i ps IH]; intros rest; cbn [fold_left map]; [by rewrite app_nil_r|]. rewrite IH, insertAt_perm, <- Permutation_middle. done.
Qed.

Lemma repositionFrom_keeps sec columns load others (P : list Z -> Prop) attempts k changed g :
  (forall l l', l ≡ₚ l' -> P l -> P l') -> (forall n g, P (ssProfiles g) -> P (ssProfiles (others n g))) ->
  P (ssProfiles g) -> P (ssProfiles (snd (repositionFrom sec columns load others attempts k changed g))).
Proof.
  intros Hp Ho. revert k g. induction attempts as [|attempts IH]; intros k g H; [done|]. cbn [repositionFrom].
  pose proof (Ho (2 * k)%nat g H) as H1. set (g1 := others (2 * k)%nat g) in *. clearbody g1. destruct (KeepsSorted (ssSort g1)); [|done].
  destruct (isNil _); [done|]. destruct (manyChanged _ _); [by apply (resortFrom_keeps _ _ _ _ P)|]. destruct (inPlace _ _ _); [done|].
  pose proof (Ho (2 * k + 1)%nat g1 H1) as H2. set (g2 := others (2 * k + 1)%nat g1) in *. clearbody g2. unfold commit.
  case_bool_decide as E1; [case_bool_decide as E2|]; cbn [andb]; [|by apply IH|by apply IH].
  case_bool_decide; cbn [snd]; [done|]. cbn [ssProfiles]. eapply Hp; [|exact H1]. symmetry. apply reinserted_perm.
Qed.

(** ** What the sorts do *)

Lemma Resort_quiet sec columns load k g :
  Resort sec columns load (fun _ g => g) k g =
  if KeepsSorted (ssSort g) then
    let order := stableSort (idLess sec columns load k (ssSort g)) (ssProfiles g) in
    (negb (bool_decide (order = ssProfiles g)), mkSort order (ssSort g))
  else (false, g).
Proof.
  unfold Resort, kSortAttempts. cbn [resortFrom]. destruct (KeepsSorted (ssSort g)); [|done]. cbv zeta. unfold commit.
  rewrite !bool_decide_eq_true_2 by done. cbn [andb]. case_bool_decide as E; [|done]. rewrite E. by destruct g.
Qed.

(** A whole sort of a group that no other thread touches leaves its profiles
    stably sorted under the kept order, and says whether that moved any; the sort
    loses or repeats none whatever other threads do meanwhile. *)
Theorem Resort_sorts sec columns load k g : KeepsSorted (ssSort g) = true -> NoDup (ssProfiles g) ->
  let less := idLess sec columns load k (ssSort g) in
  let '(moved, g') := Resort sec columns load (fun _ g => g) k g in
  ssProfiles g' ≡ₚ ssProfiles g /\ StronglySorted (stableBefore less (ssProfiles g)) (ssProfiles g') /\
  (moved = true <-> ssProfiles g' <> ssProfiles g) /\
  forall others (P : list Z -> Prop), (forall l l', l ≡ₚ l' -> P l -> P l') -> (forall n g, P (ssProfiles g) -> P (ssProfiles (others n g))) ->
    P (ssProfiles g) -> P (ssProfiles (snd (Resort sec columns load others k g))).
Proof.
  intros Hk Hn. cbv zeta. rewrite Resort_quiet, Hk. cbv zeta. cbn [ssProfiles]. repeat split.
  - apply stableSort_perm.
  - by apply stableSort_sorted; [apply _|].
  - by intros H%negb_true_iff%bool_decide_eq_false.
  - intros H. by apply negb_true_iff, bool_decide_eq_false.
  - intros others P Hp Ho H. by apply (resortFrom_keeps _ _ _ _ P).
Qed.

(** A sorted order of the same profiles, those that did not change in the order
    they had; [moved] says whether it is another one. *)
Definition keptSorted (less : Z -> Z -> bool) (changed old new : list Z) (moved : bool) : Prop :=
  new ≡ₚ old /\ StronglySorted (fun i j => less j i = false) new /\
  List.filter (fun id => negb (isChanged changed id)) new = List.filter (fun id => negb (isChanged changed id)) old /\
  (moved = true <-> new <> old).

Lemma keptSorted_same less changed l : StronglySorted (fun i j => less j i = false) l -> keptSorted less changed l l false.
Proof. by repeat split. Qed.

Lemma keptSorted_new less changed l l' : l' ≡ₚ l -> StronglySorted (fun i j => less j i = false) l' ->
  List.filter (fun id => negb (isChanged changed id)) l' = List.filter (fun id => negb (isChanged changed id)) l ->
  keptSorted less changed l l' (negb (bool_decide (l' = l))).
Proof.
  intros Hp Hs Hf. split; [done|]. split; [done|]. split; [done|]. split; [by intros H%negb_true_iff%bool_decide_eq_false|].
  intros H. by apply negb_true_iff, bool_decide_eq_false.
Qed.

Lemma filter_all {A} (f : A -> bool) l : List.filter (fun x => negb (f x)) l = [] -> List.filter f l = l.
Proof. induction l as [|x l IH]; cbn [List.filter]; [done|]. destruct (f x); cbn [negb]; [|done]. intros H. by rewrite IH. Qed.

Lemma filter_twice {A} (f : A -> bool) l : List.filter f (List.filter (fun x => negb (f x)) l) = [].
Proof. induction l as [|x l IH]; cbn [List.filter]; [done|]. destruct (f x) eqn:E; cbn [negb List.filter]; [done|]. by rewrite E. Qed.

Lemma filter_filter {A} (f : A -> bool) l : List.filter f (List.filter f l) = List.filter f l.
Proof. induction l as [|x l IH]; cbn [List.filter]; [done|]. destruct (f x) eqn:E; [cbn [List.filter]; by rewrite E, IH|done]. Qed.

Lemma negb_filter {A} (f : A -> bool) l : List.filter (fun x => negb (negb (f x))) l = List.filter f l.
Proof. apply List.filter_ext. intros x. apply negb_involutive. Qed.

Section Kept.
Context (less : Z -> Z -> bool) {W : WeakOrder less} (changed l : list Z).
Hypothesis Hrest : StronglySorted (fun i j => less j i = false) (List.filter (fun id => negb (isChanged changed id)) l).

Lemma keptSorted_resort : keptSorted less changed l (stableSort less l) (negb (bool_decide (stableSort less l = l))).
Proof.
  apply keptSorted_new; [apply stableSort_perm|apply (stableSort_ordered less)|]. by rewrite (filter_stableSort less), (stableSort_id less).
Qed.

Lemma keptSorted_reinsert (order := reinserted less changed l (changedPositions changed l)) :
  keptSorted less changed l order (negb (bool_decide (order = l))).
Proof.
  subst order. apply keptSorted_new; [apply reinserted_perm| |]; rewrite (reinserted_sorts less) by done; [apply (stableSort_ordered less)|].
  rewrite (filter_stableSort less), List.filter_app, filter_filter. rewrite <- (negb_filter (isChanged changed) l), (filter_twice (fun id => negb (isChanged changed id)) l), app_nil_r.
  by apply (stableSort_id less).
Qed.

Lemma nothing_changed : changedPositions changed l = [] -> StronglySorted (fun i j => less j i = false) l.
Proof.
  intros E. pose proof (positions_ids changed l) as H. rewrite E in H. symmetry in H. cbn [map] in H.
  rewrite (filter_all (fun id => negb (isChanged changed id))) in Hrest; [done|]. by rewrite negb_filter.
Qed.

End Kept.

Lemma changedPositions_nil l : changedPositions [] l = [].
Proof. unfold changedPositions. generalize (seq 0 (length l)). induction l0 as [|i l0 IH]; [done|]. cbn [List.filter]. by rewrite bool_decide_eq_false_2 by apply not_elem_of_nil. Qed.

(** C31: When only some rows of a kept order changed, moving just those leaves a
    sorted group of the same profiles, the others in the order they had, and says
    whether anything moved; and it is always to where a stable sort with the
    changed rows last would put them, when few changed. *)
Theorem Reposition_sorts sec columns load changed g : (forall k i, load k i = load 0%nat i) -> KeepsSorted (ssSort g) = true ->
  let less := idLess sec columns load 0 (ssSort g) in
  let rest := List.filter (fun id => negb (isChanged changed id)) (ssProfiles g) in
  StronglySorted (fun i j => less j i = false) rest ->
  let '(moved, g') := Reposition sec columns load (fun _ g => g) changed g in
  ssSort g' = ssSort g /\ keptSorted less changed (ssProfiles g) (ssProfiles g') moved /\
  (manyChanged (changedPositions changed (ssProfiles g)) (length (ssProfiles g)) = false -> moved = true ->
   ssProfiles g' = stableSort less (rest ++ List.filter (isChanged changed) (ssProfiles g))).
Proof.
  intros Hl Hk. cbv zeta. set (less := idLess sec columns load 0 (ssSort g)). intros Hr. unfold Reposition.
  destruct changed as [|c changed']; [split; [done|]; split; [|done]; by apply keptSorted_same, (nothing_changed less []), changedPositions_nil|].
  set (changed := c :: changed') in *. unfold kSortAttempts. cbn [repositionFrom]. rewrite Hk. cbv zeta. fold less.
  destruct (isNil (changedPositions changed (ssProfiles g))) eqn:En.
  { split; [done|]. split; [|done]. apply keptSorted_same, (nothing_changed less changed); [done|]. by destruct (changedPositions _ _). }
  destruct (manyChanged _ _).
  - rewrite Resort_quiet, Hk. cbv zeta. split; [done|]. cbn [ssProfiles]. split; [|done].
    rewrite (stableSort_ext (idLess sec columns load 1 (ssSort g)) less) by (intros x y _ _; unfold less, idLess; cbv zeta; by rewrite !(Hl 1%nat)).
    by apply keptSorted_resort; [apply _|].
  - destruct (inPlace less _ _) eqn:Ei; [split; [done|]; split; [|done]; by apply keptSorted_same, (inPlace_sorted less changed)|].
    unfold commit. rewrite !bool_decide_eq_true_2 by done. cbn [andb].
    pose proof (keptSorted_reinsert less changed (ssProfiles g) Hr) as H. pose proof (reinserted_sorts less changed (ssProfiles g) Hr) as Ho.
    cbv zeta in H. case_bool_decide as E.
    + split; [done|]. split; [|done]. rewrite E in H. by destruct H as (_ & Hs & _ & _); apply keptSorted_same.
    + split; [done|]. by split.
Qed.

End Facts.

(** ** A group by latency *)

(** Integers stand for the doubles. *)
#[export] Instance integerDoubles : Doubles := {|
  double := Z;
  doubleLess := Z.ltb;
  ofInteger z := z;
  toDouble s := fold_left (fun n c => 10 * n + (c - 48)) s 0;
  timesPowerOfTen a n := a * 10 ^ n
|}.

#[export] Instance integerDoubles_ok : DoublesOk integerDoubles.
Proof. split; [exact ltb_weak|]. cbn. intros a b Ha%Z.ltb_ge Hb%Z.ltb_ge. lia. Qed.

(** Profiles 1 to 40 with latencies 10 to 400, and 3 at 255. *)
Definition measuredRow (k : nat) (id : Z) : option Row :=
  Some (mkRow (u "vless") [] 1 (if id =? 3 then 255 else 10 * id) [] [] [] 0 0 [] 0).

Definition measuredGroup : SortState := mkSort (seqZ 1 40) (mkAction ByLatency false).
Definition plainColumns : SortColumns := mkColumns testBy_latency trafficBy_total typeBy_byType.

Lemma Resort_sorts_witness :
  fst (Resort false plainColumns measuredRow (fun _ g => g) 0 measuredGroup) = true /\
  StronglySorted (stableBefore (idLess false plainColumns measuredRow 0 (mkAction ByLatency false)) (seqZ 1 40))
    (ssProfiles (snd (Resort false plainColumns measuredRow (fun _ g => g) 0 measuredGroup))).
Proof.
  split; [vm_compute; reflexivity|].
  pose proof (Resort_sorts false plainColumns measuredRow 0 measuredGroup eq_refl (NoDup_seqZ 1 40)) as H. cbv zeta in H.
  destruct (Resort false plainColumns measuredRow (fun _ g => g) 0 measuredGroup) as [moved g']. exact (proj1 (proj2 H)).
Defined.

Lemma Reposition_sorts_witness :
  snd (Reposition false plainColumns measuredRow (fun _ g => g) [3] measuredGroup) =
    mkSort (1 :: 2 :: seqZ 4 22 ++ 3 :: seqZ 26 15) (mkAction ByLatency false) /\
  keptSorted (idLess false plainColumns measuredRow 0 (mkAction ByLatency false)) [3] (seqZ 1 40)
    (1 :: 2 :: seqZ 4 22 ++ 3 :: seqZ 26 15) true.
Proof.
  assert (E : Reposition false plainColumns measuredRow (fun _ g => g) [3] measuredGroup =
    (true, mkSort (1 :: 2 :: seqZ 4 22 ++ 3 :: seqZ 26 15) (mkAction ByLatency false))) by (vm_compute; reflexivity).
  split; [by rewrite E|].
  pose proof (Reposition_sorts false plainColumns measuredRow [3] measuredGroup (fun k i => eq_refl) eq_refl) as H. cbv zeta in H. rewrite E in H.
  refine (proj1 (proj2 (H _))). apply (adjacent_sorted _ _ 0). vm_compute length. intros i Hi.
  do 39 (destruct i as [|i]; [vm_compute; reflexivity|]). lia.
Defined.
