(* ===== verification/Reconcile.v ===== *)
(** The diff of a subscription refresh: src/src/configs/sub/SubscriptionReconcile.cpp
    over digests of the profiles a group has and of those that arrive.

    [ContentIndex] hands the old profile with an arrival's content to it, each at
    most once; [Reconcile] then pairs what is left by identity and answers the
    new order, the rows to update and the rows that are stale.  What the diff
    guarantees follows the definitions. *)
From stdpp Require Import base list gmap strings.
From Stdlib Require Import ZArith Lia Bool.
From S2P Require Import Prelude.

Definition digest : Type := list Z.

Record OldEntry := mkOldEntry { oeId : Z; oeContent : digest; oeIdentity : digest; oeDisplay : qstr }.

Record NewEntry := mkNewEntry {
  neId : Z;
  neReused : bool;
  neContentKnown : bool;
  neContent : digest;
  neIdentity : digest;
  neDisplay : qstr
}.

Definition withId (id : Z) (e : NewEntry) : NewEntry := mkNewEntry id (neReused e) (neContentKnown e) (neContent e) (neIdentity e) (neDisplay e).

Record ContentIndex := mkIndex {
  unclaimed : gmap digest (list Z);
  known : gset digest;
  arrivals : gset digest;
  claimedIds : gset Z
}.

(** QHash's operator[] appended to. *)
Definition appendAt (key : digest) (id : Z) (m : gmap digest (list Z)) : gmap digest (list Z) := <[key := default [] (m !! key) ++ [id]]> m.

Definition indexEntry (ix : ContentIndex) (e : OldEntry) : ContentIndex :=
  mkIndex (appendAt (oeContent e) (oeId e) (unclaimed ix)) ({[oeContent e]} ∪ known ix) (arrivals ix) (claimedIds ix).

Definition newContentIndex (old : list OldEntry) : ContentIndex := fold_left indexEntry old (mkIndex ∅ ∅ ∅ ∅).

Definition knows (content : digest) (ix : ContentIndex) : bool := bool_decide (content ∈ known ix).
Definition noteArrival (content : digest) (ix : ContentIndex) : ContentIndex := mkIndex (unclaimed ix) (known ix) ({[content]} ∪ arrivals ix) (claimedIds ix).
Definition arrived (content : digest) (ix : ContentIndex) : bool := bool_decide (content ∈ arrivals ix).
Definition isClaimed (id : Z) (ix : ContentIndex) : bool := bool_decide (id ∈ claimedIds ix).

Definition claim (content : digest) (ix : ContentIndex) : option Z * ContentIndex :=
  match unclaimed ix !! content with
  | Some (id :: ids) => (Some id, mkIndex (<[content := ids]> (unclaimed ix)) (known ix) (arrivals ix) ({[id]} ∪ claimedIds ix))
  | _ => (None, ix)
  end.

Record ReconcilePlan := mkReconcile {
  order : list Z;
  updates : list (Z * Z);
  stale : list Z;
  added : list qstr;
  updated : list qstr;
  deleted : list qstr
}.

(** Old entries whose content neither was claimed nor arrived, by identity. *)
Definition isLeftover (index : ContentIndex) (e : OldEntry) : bool := negb (isClaimed (oeId e) index || arrived (oeContent e) index).

Definition leftoverByIdentity (old : list OldEntry) (index : ContentIndex) : gmap digest (list Z) :=
  fold_left (fun m e => if isLeftover index e then appendAt (oeIdentity e) (oeId e) m else m) old ∅.

Record Pairing := mkPairing {
  pgLeft : gmap digest (list Z);
  pgUpdates : list (Z * Z);
  pgUpdated : list qstr;
  pgSupersededBy : gmap Z Z;
  pgMatchedOld : gset Z
}.

Definition pairEntry (g : Pairing) (e : NewEntry) : Pairing :=
  if (neId e <? 0) || neReused e || neContentKnown e then g
  else
    match pgLeft g !! neIdentity e with
    | Some (oldId :: ids) =>
        mkPairing (<[neIdentity e := ids]> (pgLeft g)) (pgUpdates g ++ [(oldId, neId e)]) (pgUpdated g ++ [neDisplay e])
          (<[neId e := oldId]> (pgSupersededBy g)) ({[oldId]} ∪ pgMatchedOld g)
    | _ => g
    end.

Definition isGone (index : ContentIndex) (matched : gset Z) (e : OldEntry) : bool :=
  negb (isClaimed (oeId e) index || bool_decide (oeId e ∈ matched)).

Definition placeEntry (superseded : gmap Z Z) (p : ReconcilePlan) (e : NewEntry) : ReconcilePlan :=
  if neId e <? 0 then p
  else if neReused e then mkReconcile (order p ++ [neId e]) (updates p) (stale p) (added p) (updated p) (deleted p)
  else
    match superseded !! neId e with
    | Some oldId => mkReconcile (order p ++ [oldId]) (updates p) (stale p ++ [neId e]) (added p) (updated p) (deleted p)
    | None => mkReconcile (order p ++ [neId e]) (updates p) (stale p) (added p ++ [neDisplay e]) (updated p) (deleted p)
    end.

Definition Reconcile (old : list OldEntry) (incoming : list NewEntry) (index : ContentIndex) : ReconcilePlan :=
  let g := fold_left pairEntry incoming (mkPairing (leftoverByIdentity old index) [] [] ∅ ∅) in
  let gone := List.filter (isGone index (pgMatchedOld g)) old in
  fold_left (placeEntry (pgSupersededBy g)) incoming
    (mkReconcile [] (pgUpdates g) (map oeId gone) [] (pgUpdated g) (map oeDisplay gone)).

(** ** What it guarantees: lists by key *)

Lemma appendAt_lookup key id m k : default [] (appendAt key id m !! k) = default [] (m !! k) ++ (if decide (k = key) then [id] else []).
Proof.
  unfold appendAt. destruct (decide (k = key)) as [->|Hne]; [by rewrite lookup_insert_eq|]. rewrite lookup_insert_ne by done. by rewrite app_nil_r.
Qed.

(** The ids of the entries [f] accepts whose [key] is [k], in order. *)
Definition idsAt (key : OldEntry -> digest) (f : OldEntry -> bool) (old : list OldEntry) (k : digest) : list Z :=
  map oeId (List.filter (fun e => f e && bool_decide (key e = k)) old).

Lemma idsAt_snoc key f old e k : idsAt key f (old ++ [e]) k = idsAt key f old k ++ (if f e && bool_decide (key e = k) then [oeId e] else []).
Proof. unfold idsAt. rewrite List.filter_app, map_app. cbn [List.filter]. by destruct (f e && bool_decide (key e = k)). Qed.

Lemma idsAt_elem key f old k id : id ∈ idsAt key f old k <-> exists e, e ∈ old /\ f e = true /\ key e = k /\ oeId e = id.
Proof.
  unfold idsAt. rewrite list_elem_of_fmap. split.
  - intros (e & -> & [Hin H]%filter_elem). apply andb_true_iff in H as [H1 H2%bool_decide_eq_true]. by exists e.
  - intros (e & Hin & Hf & <- & <-). exists e. split; [done|]. apply filter_elem. split; [done|]. by rewrite Hf, bool_decide_eq_true_2.
Qed.

Lemma idsAt_nodup key f old k : NoDup (map oeId old) -> NoDup (idsAt key f old k).
Proof.
  unfold idsAt. induction old as [|e old IH]; [constructor|]. cbn [map]. intros [Hne Hn]%NoDup_cons. cbn [List.filter].
  destruct (f e && bool_decide (key e = k)); [|by apply IH]. cbn [map]. constructor; [|by apply IH].
  intros (e' & Ee & [Hin _]%filter_elem)%list_elem_of_fmap. apply Hne, list_elem_of_fmap. by exists e'.
Qed.

Lemma same_entry old e e' : NoDup (map oeId old) -> e ∈ old -> e' ∈ old -> oeId e = oeId e' -> e = e'.
Proof.
  induction old as [|x old IH]; intros Hn He He' E; [by apply elem_of_nil in He|]. cbn [map] in Hn. apply NoDup_cons in Hn as [Hx Hn].
  assert (Hmem : forall y, y ∈ old -> oeId y ∈ map oeId old) by (intros y Hy; apply list_elem_of_fmap; by exists y).
  apply elem_of_cons in He as [->|He], He' as [->|He']; [done| | |by apply IH].
  - destruct Hx. rewrite E. by apply Hmem.
  - destruct Hx. rewrite <- E. by apply Hmem.
Qed.

Lemma newContentIndex_at old k : default [] (unclaimed (newContentIndex old) !! k) = idsAt oeContent (fun _ => true) old k.
Proof.
  unfold newContentIndex. induction old as [|e old IH] using rev_ind; [cbn; by rewrite ?lookup_empty|].
  rewrite fold_left_app. cbn [fold_left indexEntry unclaimed]. rewrite appendAt_lookup, IH, idsAt_snoc. f_equal. cbn [andb].
  destruct (decide (k = oeContent e)) as [->|Hne]; [by rewrite bool_decide_eq_true_2|by rewrite bool_decide_eq_false_2].
Qed.

Lemma newContentIndex_rest old : known (newContentIndex old) = list_to_set (map oeContent old) /\ arrivals (newContentIndex old) = ∅ /\
  claimedIds (newContentIndex old) = ∅.
Proof.
  unfold newContentIndex. induction old as [|e old (IH1 & IH2 & IH3)] using rev_ind; [done|]. rewrite fold_left_app. cbn [fold_left indexEntry known arrivals claimedIds].
  split; [|done]. rewrite IH1, map_app, list_to_set_app_L. cbn. set_solver.
Qed.

Lemma leftover_at old index k : default [] (leftoverByIdentity old index !! k) = idsAt oeIdentity (isLeftover index) old k.
Proof.
  unfold leftoverByIdentity. induction old as [|e old IH] using rev_ind; [cbn; by rewrite ?lookup_empty|].
  rewrite fold_left_app. cbn [fold_left]. rewrite idsAt_snoc. destruct (isLeftover index e); cbn [andb]; [|by rewrite IH, app_nil_r].
  rewrite appendAt_lookup, IH. f_equal.
  destruct (decide (k = oeIdentity e)) as [->|Hne]; [by rewrite bool_decide_eq_true_2|by rewrite bool_decide_eq_false_2].
Qed.

(** ** Pairing by identity *)

(** Stored and not one of the old profiles. *)
Definition isFresh (e : NewEntry) : bool := negb (neId e <? 0) && negb (neReused e).
Definition isReused (e : NewEntry) : bool := negb (neId e <? 0) && neReused e.
Definition freshIds (l : list NewEntry) : list Z := map neId (List.filter isFresh l).
Definition reusedIds (l : list NewEntry) : list Z := map neId (List.filter isReused l).

Section Pairs.
Context (old : list OldEntry) (index : ContentIndex).
Hypothesis old_nodup : NoDup (map oeId old).

(** An old profile that gets the new settings of an arrival. *)
Definition paired (o n : Z) (seen : list NewEntry) : Prop :=
  exists oe ne, oe ∈ old /\ ne ∈ seen /\ oeId oe = o /\ neId ne = n /\ isLeftover index oe = true /\ isFresh ne = true /\
    neContentKnown ne = false /\ oeIdentity oe = neIdentity ne.

Record pairingOk (seen : list NewEntry) (g : Pairing) : Prop := {
  pk_left : forall k, default [] (pgLeft g !! k) = List.filter (fun id => negb (bool_decide (id ∈ map fst (pgUpdates g)))) (idsAt oeIdentity (isLeftover index) old k);
  pk_matched : pgMatchedOld g = list_to_set (map fst (pgUpdates g));
  pk_superseded : forall n o, pgSupersededBy g !! n = Some o <-> (o, n) ∈ pgUpdates g;
  pk_fst : NoDup (map fst (pgUpdates g));
  pk_snd : NoDup (map snd (pgUpdates g));
  pk_pairs : forall o n, (o, n) ∈ pgUpdates g -> paired o n seen
}.

Lemma pairing_start : pairingOk [] (mkPairing (leftoverByIdentity old index) [] [] ∅ ∅).
Proof.
  split; cbn [pgLeft pgUpdates pgMatchedOld pgSupersededBy map]; [|done| |constructor|constructor|].
  - intros k. rewrite leftover_at. symmetry. induction (idsAt _ _ _ _) as [|x l IH]; [done|]. cbn [List.filter].
    rewrite bool_decide_eq_false_2 by apply not_elem_of_nil. cbn [negb]. by rewrite IH.
  - intros n o. rewrite lookup_empty. split; [done|]. by intros ?%elem_of_nil.
  - by intros o n ?%elem_of_nil.
Qed.

Lemma paired_more o n seen e : paired o n seen -> paired o n (seen ++ [e]).
Proof. intros (oe & ne & H1 & H2 & H). exists oe, ne. split; [done|]. split; [|done]. apply elem_of_app. by left. Qed.

Lemma filter_head_once (o : Z) (l ids : list Z) (f : Z -> bool) : NoDup l -> List.filter f l = o :: ids ->
  List.filter (fun id => f id && negb (bool_decide (id = o))) l = ids.
Proof.
  revert ids. induction l as [|x l IH]; intros ids Hn E; [done|]. apply NoDup_cons in Hn as [Hx Hn]. cbn [List.filter] in *. destruct (f x) eqn:Ef; cbn [andb].
  - injection E as -> E. rewrite bool_decide_eq_true_2 by done. cbn [negb]. rewrite <- E. apply List.filter_ext_in. intros y Hy.
    rewrite bool_decide_eq_false_2, andb_true_r; [done|]. intros ->. by apply Hx, list_elem_of_In.
  - by apply IH.
Qed.

Lemma pairing_step seen e g : NoDup (freshIds (seen ++ [e])) -> pairingOk seen g -> pairingOk (seen ++ [e]) (pairEntry g e).
Proof.
  intros Hf [A B C D E F]. unfold pairEntry.
  assert (Hskip : pairingOk (seen ++ [e]) g) by (split; try done; intros o n H; by apply paired_more, F).
  destruct ((neId e <? 0) || neReused e || neContentKnown e) eqn:Eg; [done|]. apply orb_false_iff in Eg as [Eg Ek]. apply orb_false_iff in Eg as [Ei Er].
  destruct (pgLeft g !! neIdentity e) as [[|o ids]|] eqn:El; [done| |done].
  assert (Al : o :: ids = List.filter (fun id => negb (bool_decide (id ∈ map fst (pgUpdates g)))) (idsAt oeIdentity (isLeftover index) old (neIdentity e)))
    by (rewrite <- A, El; done).
  assert (Ho : o ∈ idsAt oeIdentity (isLeftover index) old (neIdentity e) /\ o ∉ map fst (pgUpdates g)).
  { assert (H : o ∈ o :: ids) by by left. rewrite Al in H. apply filter_elem in H as [H1 H2]. split; [done|].
    by apply negb_true_iff, bool_decide_eq_false in H2. }
  destruct Ho as [Ho Hnew]. apply idsAt_elem in Ho as (oe & Hoe & Hl & Hid & Heo).
  assert (Hfresh : neId e ∉ map snd (pgUpdates g)).
  { intros ([o' n] & En & Hin)%list_elem_of_fmap. cbn in En. apply F in Hin as (oe' & ne & _ & Hne & _ & Hn & _ & Hfr & _).
    unfold freshIds in Hf. rewrite List.filter_app, map_app in Hf. apply NoDup_app in Hf as (_ & Hf & _).
    apply (Hf (neId ne)).
    - apply list_elem_of_fmap. exists ne. split; [done|]. by apply filter_elem.
    - cbn [List.filter]. unfold isFresh at 1. rewrite Ei, Er. cbn [negb andb map]. rewrite Hn, <- En. by left. }
  split; cbn [pgLeft pgUpdates pgMatchedOld pgSupersededBy].
  - intros k. rewrite map_app. cbn [map fst].
    rewrite (List.filter_ext (fun id => negb (bool_decide (id ∈ map fst (pgUpdates g) ++ [o]))) (fun id => negb (bool_decide (id ∈ map fst (pgUpdates g))) && negb (bool_decide (id = o)))).
    2:{ intros id. rewrite <- negb_orb. f_equal. apply eq_true_iff_eq. rewrite orb_true_iff, !bool_decide_eq_true, elem_of_app, list_elem_of_singleton. done. }
    destruct (decide (k = neIdentity e)) as [->|Hne].
    + rewrite lookup_insert_eq. cbn [default]. symmetry. apply filter_head_once; [by apply idsAt_nodup|]. by rewrite <- Al.
    + rewrite lookup_insert_ne, A by done. apply List.filter_ext_in. intros id Hin. rewrite (bool_decide_eq_false_2 (id = o)); [by rewrite andb_true_r|].
      intros ->. apply list_elem_of_In, idsAt_elem in Hin as (oe' & Hoe' & _ & Hid' & Heo'). apply Hne.
      rewrite <- Hid, <- Hid'. f_equal. apply (same_entry old); congruence.
  - rewrite map_app, list_to_set_app_L, B. cbn. set_solver.
  - intros n o'. rewrite elem_of_app, list_elem_of_singleton. destruct (decide (n = neId e)) as [->|Hne].
    + rewrite lookup_insert_eq. split; [intros [= <-]; by right|]. intros [H|[= ->]]; [|done]. destruct Hfresh. apply list_elem_of_fmap. by exists (o', neId e).
    + rewrite lookup_insert_ne, C by done. split; [tauto|]. intros [H|[= -> ->]]; [done|by destruct Hne].
  - rewrite map_app. apply NoDup_app. split; [done|]. split; [|apply NoDup_singleton]. cbn. intros x Hx ->%list_elem_of_singleton. done.
  - rewrite map_app. apply NoDup_app. split; [done|]. split; [|apply NoDup_singleton]. cbn. intros x Hx ->%list_elem_of_singleton. done.
  - intros o' n [H|[= -> ->]%list_elem_of_singleton]%elem_of_app; [by apply paired_more, F|]. exists oe, e. repeat split; try done.
    + apply elem_of_app. right. by left.
    + unfold isFresh. by rewrite Ei, Er.
Qed.

Lemma pairing_all incoming : NoDup (freshIds incoming) ->
  pairingOk incoming (fold_left pairEntry incoming (mkPairing (leftoverByIdentity old index) [] [] ∅ ∅)).
Proof.
  induction incoming as [|e l IH] using rev_ind; intros Hf; [apply pairing_start|]. rewrite fold_left_app. cbn [fold_left].
  apply pairing_step; [done|]. apply IH. unfold freshIds in *. rewrite List.filter_app, map_app in Hf. by apply NoDup_app in Hf as (Hf & _).
Qed.

End Pairs.

(** ** The plan *)

Definition isStored (e : NewEntry) : bool := negb (neId e <? 0).
Definition hasUpdate (superseded : gmap Z Z) (e : NewEntry) : bool := isSome (superseded !! neId e).
Definition placedId (superseded : gmap Z Z) (e : NewEntry) : Z := if neReused e then neId e else default (neId e) (superseded !! neId e).

Lemma placed_all superseded incoming p : let q := fold_left (placeEntry superseded) incoming p in
  order q = order p ++ map (placedId superseded) (List.filter isStored incoming) /\
  stale q = stale p ++ map neId (List.filter (hasUpdate superseded) (List.filter isFresh incoming)) /\
  updates q = updates p.
Proof.
  cbv zeta. induction incoming as [|e l IH] using rev_ind; [by rewrite !app_nil_r|]. rewrite fold_left_app. cbn [fold_left].
  destruct IH as (I1 & I2 & I3). set (q := fold_left _ l p) in *. clearbody q. rewrite !List.filter_app, !map_app, ?List.filter_app, ?map_app, !app_assoc, <- I1, <- I2.
  unfold placeEntry, isStored, isFresh, hasUpdate, placedId. cbn [List.filter].
  destruct (neId e <? 0); cbn [negb andb]; [by rewrite !app_nil_r|].
  destruct (neReused e) eqn:Er; cbn [negb List.filter map order stale updates]; [by rewrite Er, app_nil_r|].
  rewrite Er. by destruct (superseded !! neId e); cbn [isSome default map order stale updates from_option]; rewrite ?app_nil_r.
Qed.

(** The entries a refresh gives to [Reconcile]: what was claimed, and new rows. *)
Record incomingOk (old : list OldEntry) (incoming : list NewEntry) (index : ContentIndex) : Prop := {
  ik_old : NoDup (map oeId old);
  ik_reused : NoDup (reusedIds incoming);
  ik_claimed : forall id, id ∈ claimedIds index <-> id ∈ reusedIds incoming;
  ik_sub : forall id, id ∈ reusedIds incoming -> id ∈ map oeId old;
  ik_fresh : NoDup (freshIds incoming);
  ik_new : forall id, id ∈ freshIds incoming -> id ∉ map oeId old
}.

Lemma filter_split {A} (f : A -> bool) (l : list A) : l ≡ₚ List.filter f l ++ List.filter (fun x => negb (f x)) l.
Proof.
  induction l as [|x l IH]; [done|]. cbn [List.filter]. destruct (f x); cbn [negb app]; [by constructor|]. by rewrite <- Permutation_middle, <- IH.
Qed.

Lemma filter_and {A} (f g : A -> bool) (l : list A) : List.filter g (List.filter f l) = List.filter (fun x => f x && g x) l.
Proof. induction l as [|x l IH]; [done|]. cbn [List.filter]. destruct (f x); cbn [List.filter andb]; by rewrite IH. Qed.

Section Plan.
Context (old : list OldEntry) (incoming : list NewEntry) (index : ContentIndex).
Hypothesis Hin : incomingOk old incoming index.

Definition thePairing : Pairing := fold_left pairEntry incoming (mkPairing (leftoverByIdentity old index) [] [] ∅ ∅).

Lemma thePairing_ok : pairingOk old index incoming thePairing.
Proof. apply pairing_all; [by destruct Hin|by destruct Hin]. Qed.

Lemma fresh_nodup_entries : NoDup (List.filter isFresh incoming).
Proof. eapply NoDup_fmap_1. exact (ik_fresh _ _ _ Hin). Qed.

(** The new rows that carry an update are the pairs. *)
Lemma carriers_pairs :
  map (fun e => (placedId (pgSupersededBy thePairing) e, neId e)) (List.filter (hasUpdate (pgSupersededBy thePairing)) (List.filter isFresh incoming)) ≡ₚ
  pgUpdates thePairing.
Proof.
  destruct thePairing_ok as [A B C D E F]. set (g := thePairing) in *. apply NoDup_Permutation.
  - apply (NoDup_fmap_1 snd). rewrite <- list_fmap_compose. change (snd ∘ (fun e => (placedId (pgSupersededBy g) e, neId e))) with neId.
    pose proof (ik_fresh _ _ _ Hin) as Hf. unfold freshIds in Hf. revert Hf. generalize (List.filter isFresh incoming) as l.
    induction l as [|e l IH]; [constructor|]. cbn [map List.filter]. intros [Hx Hn]%NoDup_cons. destruct (hasUpdate _ e); [|by apply IH].
    cbn. constructor; [|by apply IH]. intros (e' & Ee & [Hin' _]%filter_elem)%list_elem_of_fmap. apply Hx, list_elem_of_fmap. by exists e'.
  - by apply (NoDup_fmap_1 fst).
  - intros [o n]. rewrite list_elem_of_fmap. split.
    + intros (e & [= -> ->] & [Hm Hu]%filter_elem). apply filter_elem in Hm as [_ Hf]. unfold isFresh in Hf. apply andb_true_iff in Hf as [_ Hr%negb_true_iff].
      unfold hasUpdate in Hu. unfold placedId. rewrite Hr. destruct (pgSupersededBy g !! neId e) as [o|] eqn:Es; [|done]. by apply C.
    + intros H. pose proof (F o n H) as (oe & ne & _ & Hne & _ & <- & _ & Hf & _). apply C in H. exists ne. unfold hasUpdate, placedId. rewrite H. split.
      * f_equal. unfold isFresh in Hf. apply andb_true_iff in Hf as [_ Hr%negb_true_iff]. by rewrite Hr.
      * apply filter_elem. split; [by apply filter_elem|]. by rewrite H.
Qed.

(** What leaves the group: old profiles neither claimed nor updated. *)
Definition goneIds : list Z := map oeId (List.filter (isGone index (pgMatchedOld thePairing)) old).

Lemma old_split : map oeId old ≡ₚ reusedIds incoming ++ map fst (pgUpdates thePairing) ++ goneIds.
Proof.
  destruct thePairing_ok as [A B C D E F]. destruct Hin as [K1 K2 K3 K4 K5 K6]. set (g := thePairing) in *. unfold goneIds. fold g.
  assert (Hold : forall id, id ∈ map fst (pgUpdates g) -> id ∈ map oeId old /\ id ∉ claimedIds index).
  { intros id ([o n] & -> & H)%list_elem_of_fmap. apply F in H as (oe & ne & Ho & _ & <- & _ & Hl & _). split; [apply list_elem_of_fmap; by exists oe|].
    unfold isLeftover, isClaimed in Hl. apply negb_true_iff, orb_false_iff in Hl as [Hl _]. by apply bool_decide_eq_false in Hl. }
  assert (Hgone : forall e, isGone index (pgMatchedOld g) e = true <-> oeId e ∉ reusedIds incoming /\ oeId e ∉ map fst (pgUpdates g)).
  { intros e. unfold isGone, isClaimed. rewrite negb_true_iff, orb_false_iff, !bool_decide_eq_false, B, elem_of_list_to_set, K3. done. }
  apply NoDup_Permutation; [done| |].
  - apply NoDup_app. split; [done|]. split.
    + intros id Hr. rewrite elem_of_app. intros [H|(e & -> & [_ H]%filter_elem)%list_elem_of_fmap].
      * apply Hold in H as [_ H]. by apply H, K3.
      * by apply Hgone in H as [H _].
    + apply NoDup_app. split; [done|]. split.
      * intros id H (e & -> & [_ H']%filter_elem)%list_elem_of_fmap. by apply Hgone in H' as [_ H'].
      * revert K1. clear. induction old as [|e l IH]; [constructor|]. cbn [map List.filter]. intros [Hx Hn]%NoDup_cons.
        destruct (isGone _ _ e); [|by apply IH]. cbn. constructor; [|by apply IH].
        intros (e' & Ee & [Hin' _]%filter_elem)%list_elem_of_fmap. apply Hx, list_elem_of_fmap. by exists e'.
  - intros id. rewrite !elem_of_app. split.
    + intros (e & -> & He)%list_elem_of_fmap. destruct (decide (oeId e ∈ reusedIds incoming)); [by left|].
      destruct (decide (oeId e ∈ map fst (pgUpdates g))); [by right; left|]. right. right. apply list_elem_of_fmap. exists e. split; [done|].
      apply filter_elem. split; [done|]. by apply Hgone.
    + intros [H|[H|H]]; [by apply K4|by apply Hold|]. apply list_elem_of_fmap in H as (e & -> & [H _]%filter_elem). apply list_elem_of_fmap. by exists e.
Qed.

Lemma order_split : map (placedId (pgSupersededBy thePairing)) (List.filter isStored incoming) ≡ₚ
  reusedIds incoming ++ map fst (pgUpdates thePairing) ++
  map neId (List.filter (fun e => negb (hasUpdate (pgSupersededBy thePairing) e)) (List.filter isFresh incoming)).
Proof.
  rewrite (filter_split neReused (List.filter isStored incoming)), map_app, (filter_and isStored neReused), (filter_and isStored (fun x => negb (neReused x))).
  change (List.filter (fun x => isStored x && neReused x) incoming) with (List.filter isReused incoming).
  change (List.filter (fun x => isStored x && negb (neReused x)) incoming) with (List.filter isFresh incoming).
  apply Permutation_app.
  - unfold reusedIds. apply Permutation_refl', map_ext_in. intros e He. apply filter_In in He as [_ He]. unfold isReused in He.
    apply andb_true_iff in He as [_ He]. unfold placedId. by rewrite He.
  - rewrite (filter_split (hasUpdate (pgSupersededBy thePairing)) (List.filter isFresh incoming)) at 1. rewrite map_app. apply Permutation_app.
    + rewrite <- carriers_pairs, map_map. done.
    + apply Permutation_refl', map_ext_in. intros e He. apply filter_In in He as [_ He]. unfold hasUpdate in He. unfold placedId.
      destruct (pgSupersededBy thePairing !! neId e); [done|]. by destruct (neReused e).
Qed.

(** Every old profile and every new row is in the new order or stale, once. *)
Lemma Reconcile_partition : let plan := Reconcile old incoming index in order plan ++ stale plan ≡ₚ map oeId old ++ freshIds incoming.
Proof.
  cbv zeta. unfold Reconcile. cbv zeta. fold thePairing. set (p0 := mkReconcile _ _ _ _ _ _).
  destruct (placed_all (pgSupersededBy thePairing) incoming p0) as (-> & -> & _). cbn [order stale p0 app]. fold goneIds.
  rewrite order_split, old_split. unfold freshIds. rewrite (filter_split (hasUpdate (pgSupersededBy thePairing)) (List.filter isFresh incoming)) at 3.
  rewrite map_app, <- !app_assoc. do 2 apply Permutation_app_head. rewrite (app_assoc goneIds). apply Permutation_app_comm.
Qed.

End Plan.
