(* ===== verification/Refresh.v ===== *)
(** A subscription refresh applied to its group, and imports: GroupUpdater in
    src/src/configs/sub/GroupUpdater.cpp, once the document is downloaded.

    What the document's parser yields is an argument.  [ok] and [afterStop] are
    those of the store: which writes go through, and the running profile after it
    was stopped; [isValid] is the core's verdict on a profile, None when it cannot
    be reached.  The report texts and what a group shows of its provider are not
    in the model.  A refresh runs alone on the updater's worker; what the window
    changes meanwhile is left out. *)
From stdpp Require Import base list gmap strings.
From Stdlib Require Import ZArith Lia Bool.
From S2P Require Import Prelude StableSort ProfileStore GroupSort Reconcile.

Record SubscriptionOptions := mkOptions {
  keep_working : bool;
  remove_duplicates : bool;
  remove_insecure : bool;
  remove_invalid : bool;
  url_test : bool;
  remove_unavailable : bool;
  sort_by_latency : bool
}.

Record RefreshSettings := mkSettings { sub_clear : bool; allow_stopping_active_profile : bool; show_config_security : bool }.

Inductive Failure := NoFailure | NoGroup | Fetch | EmptyDocument | Database | Internal.

Record UpdateOutcome := mkOutcome { failure : Failure; addedIds : list Z; nAdded : Z; nUpdated : Z; nRemoved : Z; nKept : Z }.

Inductive UpdateEvent :=
| SubscriptionFinished (count : Z)
| SubscriptionGroupChanged (gid : Z) (disturbed : list Z)
| SubscriptionReplacedRunning (id : Z)
| StartUrlTest (ids : list Z).

Section Refresh.
Context {O : Outbounds} {D : Doubles} {Q : QtChar}.
Context (ok : nat -> bool) (afterStop : Z -> Z) (isValid : Z * Row -> option bool).

(** ** The sink *)

Record ImportSink := mkSink {
  skGid : Z;
  skDestination : Z;
  skAdded : list Z;
  skIndex : option ContentIndex;
  skChunk : list Row;
  skEntryIndex : list nat;
  skEntries : list NewEntry
}.

Definition kInsertChunk : nat := 500.

Definition newSink (gid : Z) (index : option ContentIndex) : ImportSink := mkSink gid (-1) [] index [] [] [].

Definition setIds (at_ : list nat) (ids : list Z) (entries : list NewEntry) : list NewEntry :=
  fold_left (fun es x => alter (withId (snd x)) (fst x) es) (zip at_ ids) entries.

Definition flush (sk : ImportSink) (s : Store) : ImportSink * Store :=
  match skChunk sk with
  | [] => (sk, s)
  | _ =>
      match AddProfileBatch ok (skChunk sk) (skGid sk) s with
      | (Some ids, s') =>
          (mkSink (skGid sk) (targetGroup (skGid sk) s) (skAdded sk ++ ids) (skIndex sk) [] [] (setIds (skEntryIndex sk) ids (skEntries sk)), s')
      | (None, s') => (mkSink (skGid sk) (skDestination sk) (skAdded sk) (skIndex sk) [] [] (skEntries sk), s')
      end
  end.

(** An arrival that becomes a row. *)
Definition chunkEntry (entry : NewEntry) (ent : Row) (sk : ImportSink) (s : Store) : ImportSink * Store :=
  let sk := mkSink (skGid sk) (skDestination sk) (skAdded sk) (skIndex sk) (skChunk sk ++ [ent]) (skEntryIndex sk ++ [length (skEntries sk)]) (skEntries sk ++ [entry]) in
  if (kInsertChunk <=? length (skChunk sk))%nat then flush sk s else (sk, s).

Definition withSinkIndex (index : ContentIndex) (sk : ImportSink) : ImportSink :=
  mkSink (skGid sk) (skDestination sk) (skAdded sk) (Some index) (skChunk sk) (skEntryIndex sk) (skEntries sk).

Definition sinkAdd (x : ImportSink * Store) (ent : Row) : ImportSink * Store :=
  let '(sk, s) := x in
  let display := displayTypeAndName (rwOutbound ent) in
  match skIndex sk with
  | None => chunkEntry (mkNewEntry (-1) false false [] [] display) ent sk s
  | Some index =>
      let content := contentDigest (rwOutbound ent) in
      let index := noteArrival content index in
      let contentKnown := knows content index in
      match claim content index with
      | (Some oldId, index) =>
          let sk := withSinkIndex index sk in
          (mkSink (skGid sk) (skDestination sk) (skAdded sk) (skIndex sk) (skChunk sk) (skEntryIndex sk)
             (skEntries sk ++ [mkNewEntry oldId true contentKnown content [] display]), s)
      | (None, index) =>
          let identity := if contentKnown then [] else identityDigest (rwType ent) (rwOutbound ent) in
          chunkEntry (mkNewEntry (-1) false contentKnown content identity display) ent (withSinkIndex index sk) s
      end
  end.

Definition storedIds (sk : ImportSink) : list Z := map neId (List.filter (fun e => 0 <=? neId e) (skEntries sk)).
Definition stored (sk : ImportSink) : Z := zlen (storedIds sk).

(** ** Deleting *)

Section Settings.
Context (settings : RefreshSettings) (columns : SortColumns).

Record DeleteOutcome := mkDelete { doOk : bool; doDeleted : list Z; doKept : list Z; doStopped : option Row }.

Definition deleteProfiles (ids : list Z) (s : Store) : DeleteOutcome * Store :=
  let startedId := stStarted s in
  let running := if allow_stopping_active_profile settings && bool_decide (startedId ∈ ids) then GetProfile s startedId else None in
  let '(done_, deleted, s) := BatchDeleteProfiles ok afterStop ids (allow_stopping_active_profile settings) s in
  let kept := List.filter (fun id => negb (bool_decide (id ∈ deleted))) (remove_dups ids) in
  (mkDelete done_ deleted kept (if done_ && bool_decide (startedId ∈ deleted) then running else None), s).

Definition selectorIds (s : Store) : list Z := GetProfileIdsByType "autoselector" s.
Definition withoutSelectors (s : Store) (ids : list Z) : list Z := List.filter (fun id => negb (bool_decide (id ∈ selectorIds s))) ids.

Definition nothingDeleted : DeleteOutcome := mkDelete true [] [] None.

(** One action's profiles, those an earlier one claimed left out. *)
Definition collect (matches : Z * Row -> bool) (profiles : list (Z * Row)) (doomed : list Z) : list Z :=
  fold_left (fun doomed p => if bool_decide (fst p ∈ doomed) || negb (matches p) then doomed else doomed ++ [fst p]) profiles doomed.

(** The ids the core finds invalid, or None when it cannot be asked. *)
Definition invalidProfiles (profiles : list (Z * Row)) : option (list Z) :=
  if forallb (fun p => isSome (isValid p)) profiles then
    Some (map fst (List.filter (fun p => match isValid p with Some valid => negb valid | None => false end) profiles))
  else None.

Definition flaggedIds (profiles : list (Z * Row)) (options : SubscriptionOptions) : list Z :=
  let doomed :=
    if remove_duplicates options then
      let keep := map fst (Uniq false false ∅ profiles []) in
      collect (fun p => negb (bool_decide (fst p ∈ keep))) profiles []
    else [] in
  let doomed := if remove_insecure options then collect (fun p => isInsecure (rwOutbound (snd p))) profiles doomed else doomed in
  if remove_invalid options then
    match invalidProfiles (List.filter (fun p => negb (bool_decide (fst p ∈ doomed))) profiles) with
    | None => doomed
    | Some invalid => collect (fun p => bool_decide (fst p ∈ invalid)) profiles doomed
    end
  else doomed.

Definition removeFlagged (ids : list Z) (options : SubscriptionOptions) (s : Store) : DeleteOutcome * Store :=
  if negb (remove_duplicates options) && negb (remove_insecure options) && negb (remove_invalid options) then (nothingDeleted, s)
  else
    match flaggedIds (GetProfileBatch s ids) options with
    | [] => (nothingDeleted, s)
    | doomed => deleteProfiles doomed s
    end.

Definition listOf (s : Store) (gid : Z) : list Z := default [] (GetGroup s gid).

(** The group's kept sort re-applied, and its profiles sorted another way. *)
Definition resortGroup (sort : GroupSortAction) (gid : Z) (s : Store) : Store :=
  setListed gid (ssProfiles (snd (Resort (show_config_security settings) columns (fun _ id => GetProfile s id) (fun _ g => g) 0 (mkSort (listOf s gid) sort)))) s.

Definition sortByLatency (gid : Z) (s : Store) : Store := resortGroup (mkAction ByLatency false) gid s.

Definition removeUnavailableAndSort (gid : Z) (options : SubscriptionOptions) (s : Store) : list Z * Store :=
  let '(deleted, s) :=
    if remove_unavailable options then
      match map fst (List.filter (fun p => IsUnavailable (snd p)) (GetProfileBatch s (withoutSelectors s (listOf s gid)))) with
      | [] => ([], s)
      | doomed => let '(outcome, s) := deleteProfiles doomed s in (doDeleted outcome, s)
      end
    else ([], s) in
  (deleted, if sort_by_latency options then sortByLatency gid s else s).

(** ** Applying a document *)

(** The one profile of the new list with the stopped one's type and name. *)
Definition reconnectSuccessor (ids : list Z) (stopped : Row) (s : Store) : list UpdateEvent :=
  let name := outboundName (rwOutbound stopped) in
  let same p := eqStr (rwType (snd p)) (rwType stopped) && eqStr (outboundName (rwOutbound (snd p))) name in
  match (if isNil name then [] else List.filter same (GetProfileBatch s ids)) with
  | [(id, _)] => [SubscriptionReplacedRunning id]
  | _ => []
  end.

(** An auto selector keeps its row in the listing. *)
Definition stickyOf (selectors l : list Z) : list (nat * Z) :=
  List.filter (fun x => bool_decide (snd x ∈ selectors)) (zip (seq 0 (length l)) l).

Definition membersOf (sticky : list (nat * Z)) (l : list Z) : list Z := List.filter (fun id => negb (bool_decide (id ∈ map snd sticky))) l.

Definition withSticky (sticky : list (nat * Z)) (l : list Z) : list Z :=
  fold_left (fun l x => insertAt (Nat.min (fst x) (length l)) (snd x) l) sticky l.

Definition oldEntryOf (p : Z * Row) : OldEntry :=
  mkOldEntry (fst p) (contentDigest (rwOutbound (snd p))) (identityDigest (rwType (snd p)) (rwOutbound (snd p))) (displayTypeAndName (rwOutbound (snd p))).

(** The new settings under the old id. *)
Definition applyUpdate (s : Store) (pair : Z * Z) : Store :=
  match GetProfile s (fst pair), GetProfile s (snd pair) with
  | Some oldEnt, Some newEnt =>
      SaveProfile (fst pair) (rOutbound (rwOutbound newEnt) (fst pair) (outboundName (rwOutbound newEnt)) oldEnt) s
  | _, _ => s
  end.

(** A survivor goes back where it was. *)
Definition restore (previousOrder l : list Z) (id : Z) : list Z :=
  if HasProfile id l then l
  else
    match indexOf id previousOrder with
    | Some position => insertAt (Nat.min position (length l)) id l
    | None => insertAt (length l) id l
    end.

Record Applied := mkApplied {
  apOutcome : UpdateOutcome;
  apDisturbed : list Z;
  apKept : gset Z;
  apDeleteFailed : bool;
  apStopped : option Row
}.

(** What is left of the group after the settings cleared it. *)
Record Cleared := mkCleared { clDisturbed : list Z; clStopped : option Row; clRemoved : Z; clCleared : bool }.

Definition clearGroup (gid : Z) (sticky : list (nat * Z)) (options : SubscriptionOptions) (s : Store) : option Cleared * Store :=
  if sub_clear settings then
    let doomed := membersOf sticky (listOf s gid) in
    let working := if keep_working options then map fst (List.filter (fun p => IsWorking (snd p)) (GetProfileBatch s doomed)) else [] in
    let doomed := List.filter (fun id => negb (bool_decide (id ∈ working))) doomed in
    let '(outcome, s) := deleteProfiles doomed s in
    if doOk outcome then
      (Some (mkCleared (doDeleted outcome) (doStopped outcome) (zlen (doDeleted outcome)) (isNil (membersOf sticky (listOf s gid)))), s)
    else (None, s)
  else (Some (mkCleared [] None 0 false), s).

(** The diff against what the group had. *)
Definition applyPlan (gid : Z) (sticky : list (nat * Z)) (old : list OldEntry) (working : list Z) (entries : list NewEntry) (index : ContentIndex)
  (c : Cleared) (s : Store) : Applied * Store :=
  let plan := Reconcile old entries index in
  let s := fold_left applyUpdate (updates plan) s in
  let keptWorking := List.filter (fun id => bool_decide (id ∈ working)) (stale plan) in
  let doomed := List.filter (fun id => negb (bool_decide (id ∈ working))) (stale plan) in
  let previousOrder := listOf s gid in
  let s := setListed gid (withSticky sticky (order plan)) s in
  let '(outcome, s) := deleteProfiles doomed s in
  let removed := zlen (List.filter (fun e => bool_decide (oeId e ∈ doDeleted outcome)) old) in
  let s := setListed gid (fold_left (restore previousOrder) (doKept outcome ++ keptWorking) (listOf s gid)) s in
  (mkApplied (mkOutcome NoFailure [] (zlen (added plan)) (zlen (updates plan)) (clRemoved c + removed) 0)
     (clDisturbed c ++ map fst (updates plan) ++ doDeleted outcome)
     (list_to_set (doKept outcome ++ keptWorking)) (negb (doOk outcome))
     (match doStopped outcome with Some p => Some p | None => clStopped c end), s).

(** A group that was emptied just takes the new profiles. *)
Definition applyCleared (sk : ImportSink) (c : Cleared) : Applied :=
  mkApplied (mkOutcome NoFailure [] (stored sk) 0 (clRemoved c) 0) (clDisturbed c) ∅ false (clStopped c).

(** The flagged profiles go, the kept sort is re-applied, and the others are
    told. *)
Definition finishRefresh (gid : Z) (sort : GroupSortAction) (sticky : list (nat * Z)) (options : SubscriptionOptions) (a : Applied) (s : Store) :
  UpdateOutcome * list UpdateEvent * Store :=
  let '(flagged, s) := removeFlagged (membersOf sticky (listOf s gid)) options s in
  let o := apOutcome a in
  let keptIds := apKept a ∪ list_to_set (doKept flagged) in
  let failed := apDeleteFailed a || negb (doOk flagged) in
  let outcome := mkOutcome (if failed then Database else failure o) (addedIds o) (nAdded o) (nUpdated o) (nRemoved o + zlen (doDeleted flagged)) (Z.of_nat (size keptIds)) in
  let s := resortGroup sort gid s in
  let members := membersOf sticky (listOf s gid) in
  let stopped := match doStopped flagged with Some p => Some p | None => apStopped a end in
  (outcome,
   match stopped with Some p => reconnectSuccessor members p s | None => [] end
     ++ [SubscriptionGroupChanged gid (apDisturbed a ++ doDeleted flagged); SubscriptionFinished (-1)]
     ++ (if url_test options then [StartUrlTest members] else []), s).

Definition failed (f : Failure) : UpdateOutcome := mkOutcome f [] 0 0 0 0.

(** A group: its url and when it was last updated, the kept sort and the
    subscription's options. *)
Record SubscribedGroup := mkSubscribed { sgId : Z; sgUrl : qstr; sgSort : GroupSortAction; sgOptions : SubscriptionOptions }.

(** The document the download gave: what its parser yields, and whether it came
    to the end. *)
Record Document := mkDocument { docProfiles : list Row; docComplete : bool }.

(** [Some] of the outcome's time when the group counts as updated. *)
Definition applyRefresh (g : SubscribedGroup) (url : qstr) (doc : Document) (s : Store) : UpdateOutcome * bool * list UpdateEvent * Store :=
  let gid := sgId g in
  let options := sgOptions g in
  if negb (eqStr (trimmed (sgUrl g)) url) then (failed Fetch, false, [], s)
  else if isNil (docProfiles doc) then (failed EmptyDocument, false, [SubscriptionFinished (-1)], s)
  else if negb (docComplete doc) then (failed EmptyDocument, false, [SubscriptionFinished (-1)], s)
  else
    let sticky := stickyOf (selectorIds s) (listOf s gid) in
    match clearGroup gid sticky options s with
    | (None, s) => (failed Database, false, [], s)
    | (Some c, s) =>
        let oldRows := if clCleared c then [] else GetProfileBatch s (membersOf sticky (listOf s gid)) in
        let old := map oldEntryOf oldRows in
        let working := if keep_working options then map fst (List.filter (fun p => IsWorking (snd p)) oldRows) else [] in
        let '(sk, s) := fold_left sinkAdd (docProfiles doc) (newSink gid (if clCleared c then None else Some (newContentIndex old)), s) in
        let '(sk, s) := flush sk s in
        if isNil (skEntries sk) && negb (isNil old) then (failed EmptyDocument, false, [SubscriptionFinished (-1)], s)
        else
          let '(a, s) :=
            match skIndex sk with
            | None => (applyCleared sk c, s)
            | Some index => applyPlan gid sticky old working (skEntries sk) index c s
            end in
          let '(outcome, events, s) := finishRefresh gid (sgSort g) sticky options a s in
          (outcome, true, events, s)
    end.

(** The follow-up of a refresh's URL test. *)
Definition afterUrlTest (gid : Z) (archive : bool) (options : SubscriptionOptions) (s : Store) : list UpdateEvent * Store :=
  match GetGroup s gid with
  | None => ([], s)
  | Some _ =>
      if archive || negb (url_test options) || (negb (remove_unavailable options) && negb (sort_by_latency options)) then ([], s)
      else
        let '(deleted, s) := removeUnavailableAndSort gid options s in
        ([SubscriptionGroupChanged gid deleted; SubscriptionFinished (-1)], s)
  end.

(** ** Imports *)

(** finish: the new profiles are moved into the kept order of their group. *)
Definition finishImport (sortOf : Z -> GroupSortAction) (sk : ImportSink) (s : Store) : ImportSink * Store :=
  let '(sk, s) := flush sk s in
  let gid := skDestination sk in
  match GetGroup s gid with
  | None => (sk, s)
  | Some l => (sk, setListed gid (ssProfiles (snd (Reposition (show_config_security settings) columns (fun _ id => GetProfile s id) (fun _ g => g) (skAdded sk) (mkSort l (sortOf gid))))) s)
  end.

Definition importDocuments (sortOf : Z -> GroupSortAction) (gid : Z) (documents : list Document) (s : Store) : UpdateOutcome * Store :=
  let '(sk, s) := fold_left sinkAdd (concat (map docProfiles documents)) (newSink gid None, s) in
  let '(sk, s) := finishImport sortOf sk s in
  (if bool_decide (0 <= gid) && negb (isSome (GetGroup s gid)) then failed NoGroup
   else if stored sk =? 0 then failed EmptyDocument
   else mkOutcome NoFailure (storedIds sk) 0 0 0 0, s).

End Settings.
End Refresh.
