(* ===== verification/RefreshSink.v ===== *)
(** What the deletes and the stores of a refresh leave, and the import sink: every
    arrival has its entry, reused or with the row that was stored for it, and the
    group lists what it got. *)
From stdpp Require Import base list gmap strings sorting.
From Stdlib Require Import ZArith Lia Bool.
From S2P Require Import Prelude StableSort ProfileStore ProfileStoreFacts GroupSort GroupSortFacts Reconcile Refresh.

Section Facts.
Context {O : Outbounds}.

(** ** Deleting *)

(** What a delete that went through left: the rows without those deleted, and
    those in no list of their groups. *)
Record deletedFrom (deleted : list Z) (s s' : Store) : Prop := {
  df_rows : forall id r, stRows s' !! id = Some r <-> stRows s !! id = Some r /\ id ∉ deleted;
  df_groups : exists cleaned : Z -> bool, forall g, stGroups s' !! g = (fun l => if cleaned g then listRemoveBatch deleted l else l) <$> stGroups s !! g;
  df_last : stLastId s' = stLastId s;
  df_groupLast : stGroupLastId s' = stGroupLastId s
}.

Lemma deletedFrom_none s : deletedFrom [] s s.
Proof.
  split; [|exists (fun _ => false)|done|done].
  - intros id r. split; [intros H; split; [done|apply not_elem_of_nil]|by intros [H _]].
  - intros g. by destruct (stGroups s !! g).
Qed.

Section Deletes.
Context (ok : nat -> bool) (afterStop : Z -> Z) (settings : RefreshSettings).

Lemma deleteListed_from ids s : let '(done_, ids', s') := deleteListed ok ids s in
  ids' = ids /\ if done_ then deletedFrom ids s s' else stRows s' = stRows s /\ stGroups s' = stGroups s /\ stLastId s' = stLastId s /\ stGroupLastId s' = stGroupLastId s.
Proof.
  unfold deleteListed. destruct ids as [|i ids']; [split; [done|apply deletedFrom_none]|]. set (ids := i :: ids'). cbv zeta. unfold deleteRows.
  destruct (ok (stWrites s)); [|done]. split; [done|]. set (groups := list_to_set _ : gset Z). split; cbn [stRows sRows sTombstones sGroups sWritten stLastId stGroupLastId stGroups].
  - intros id r. apply foldr_delete_rows.
  - exists (fun g => bool_decide (g ∈ groups)). intros g. rewrite map_lookup_imap. by destruct (stGroups s !! g).
  - done.
  - done.
Qed.

Lemma deletedFrom_stopped deleted x y s s' : deletedFrom deleted (sStopped x y s) s' -> deletedFrom deleted s s'.
Proof. intros [A B C E]. by split. Qed.

Lemma deleteProfiles_spec ids s : let '(o, s') := deleteProfiles ok afterStop settings ids s in
  (forall id, id ∈ ids <-> id ∈ doDeleted o \/ id ∈ doKept o) /\
  if doOk o then deletedFrom (doDeleted o) s s' else stRows s' = stRows s /\ stGroups s' = stGroups s /\ stLastId s' = stLastId s /\ stGroupLastId s' = stGroupLastId s.
Proof.
  unfold deleteProfiles. cbv zeta. unfold BatchDeleteProfiles.
  assert (Hall : forall deleted : list Z, (forall id, id ∈ deleted -> id ∈ ids) ->
    forall id, id ∈ ids <-> id ∈ deleted \/ id ∈ List.filter (fun id => negb (bool_decide (id ∈ deleted))) (remove_dups ids)).
  { intros deleted Hd id. rewrite filter_elem, elem_of_remove_dups, negb_true_iff, bool_decide_eq_false. split; [|intros [H|[H _]]; auto].
    intros H. destruct (decide (id ∈ deleted)); tauto. }
  destruct (bool_decide (stStarted s ∈ ids)); [destruct (allow_stopping_active_profile settings)|].
  - pose proof (deleteListed_from ids (sStopped (afterStop (stStarted s)) (stStarted s) s)) as H.
    destruct (deleteListed ok ids _) as [[done_ ids'] s']. destruct H as [-> H]. cbn [doOk doDeleted doKept]. split; [by apply Hall|].
    destruct done_; [by eapply deletedFrom_stopped|exact H].
  - pose proof (deleteListed_from (listRemove (stStarted s) ids) s) as H.
    destruct (deleteListed ok _ _) as [[done_ ids'] s']. destruct H as [-> H]. cbn [doOk doDeleted doKept]. split; [|done].
    apply Hall. unfold listRemove. intros id [H' _]%filter_elem. done.
  - pose proof (deleteListed_from ids s) as H. destruct (deleteListed ok ids s) as [[done_ ids'] s']. destruct H as [-> H]. cbn [doOk doDeleted doKept]. split; [by apply Hall|done].
Qed.

(** A delete keeps every listing right. *)
Lemma deleteProfiles_ok ids s : storeOk s -> storeOk (snd (deleteProfiles ok afterStop settings ids s)).
Proof.
  intros W. unfold deleteProfiles. cbv zeta. pose proof (BatchDeleteProfiles_ok ok afterStop ids (allow_stopping_active_profile settings) s W) as H.
  by destruct (BatchDeleteProfiles _ _ _ _ s) as [[done_ deleted] s'].
Qed.

Lemma deleteProfiles_counter ids s : stCounter (snd (deleteProfiles ok afterStop settings ids s)) = stCounter s.
Proof.
  assert (Hl : forall ids s, stCounter (snd (deleteListed ok ids s)) = stCounter s).
  { clear. intros ids s. unfold deleteListed, deleteRows. destruct ids; [done|]. cbv zeta. by destruct (ok _). }
  unfold deleteProfiles, BatchDeleteProfiles. cbv zeta. destruct (bool_decide _); [destruct (allow_stopping_active_profile _)|].
  all: match goal with |- context [deleteListed ok ?i ?x] => specialize (Hl i x); by destruct (deleteListed ok i x) as [[? ?] ?] end.
Qed.

End Deletes.

(** ** A group's list replaced *)

(** Rows went, one group's list was replaced by part of it: nothing is lost when
    the new list has the rows that stayed. *)
Lemma relisted_ok gid l final s s' : storeOk s -> stGroups s !! gid = Some l ->
  (forall id r, stRows s' !! id = Some r -> exists r0, stRows s !! id = Some r0 /\ rwGid r = rwGid r0) ->
  (forall g, g <> gid -> forall l', stGroups s' !! g = Some l' -> exists l0, stGroups s !! g = Some l0 /\ NoDup l' /\ forall id, id ∈ l' -> id ∈ l0) ->
  (forall id r, stRows s' !! id = Some r -> rwGid r <> gid -> exists l', stGroups s' !! rwGid r = Some l' /\ id ∈ l') ->
  stGroups s' !! gid = Some final -> NoDup final -> (forall id, id ∈ final -> id ∈ l) ->
  (forall id r, stRows s' !! id = Some r -> rwGid r = gid -> id ∈ final) ->
  stLastId s' = stLastId s -> stGroupLastId s' = stGroupLastId s -> stCounter s' = stCounter s -> storeOk s'.
Proof.
  intros [A B C E G L K] El Hrows Hgroups Hothers Ef Hn Hsub Hall Hlast Hglast Hcnt.
  assert (Hlist : forall g l', stGroups s' !! g = Some l' -> exists l0, stGroups s !! g = Some l0 /\ NoDup l' /\ forall id, id ∈ l' -> id ∈ l0).
  { intros g l' H. destruct (decide (g = gid)) as [->|Hne]; [|by apply (Hgroups g)]. exists l. assert (l' = final) by congruence. by subst. }
  split; rewrite ?Hlast, ?Hglast, ?Hcnt; try done.
  - intros id r H. destruct (Hrows id r H) as (r0 & H0 & _). by apply (A id r0).
  - intros id r H. destruct (decide (rwGid r = gid)) as [Eg|Hne]; [|by apply Hothers]. exists final. rewrite Eg. split; [done|]. by apply (Hall id r).
  - intros g l' H. destruct (Hlist g l' H) as (l0 & H0 & Hn' & Hs). split; [done|]. destruct (C g l0 H0) as [_ C2]. rewrite Forall_forall in *.
    intros id Hid. by apply C2, Hs.
  - intros g l' id r H Hin Hr. destruct (Hlist g l' H) as (l0 & H0 & _ & Hs). destruct (Hrows id r Hr) as (r0 & Hr0 & ->). apply (E g l0 id r0); auto.
  - intros g l' H. destruct (Hlist g l' H) as (l0 & H0 & _). by apply (G g l0).
Qed.

Lemma setListed_groups gid l l' s g : stGroups s !! gid = Some l -> stGroups (setListed gid l' s) !! g = if decide (g = gid) then Some l' else stGroups s !! g.
Proof.
  intros E. unfold setListed, GetGroup. rewrite E. cbn [stGroups sGroups]. destruct (decide (g = gid)) as [->|Hne]; [by rewrite lookup_insert_eq|].
  by rewrite lookup_insert_ne.
Qed.

Lemma setListed_counter gid l' s : stCounter (setListed gid l' s) = stCounter s.
Proof. unfold setListed. by destruct (GetGroup s gid). Qed.

Lemma setListed_rest gid l' s : stRows (setListed gid l' s) = stRows s /\ stLastId (setListed gid l' s) = stLastId s /\ stGroupLastId (setListed gid l' s) = stGroupLastId s /\
  stStarted (setListed gid l' s) = stStarted s.
Proof. unfold setListed. by destruct (GetGroup s gid). Qed.

(** ** Survivors restored *)

Lemma withSticky_perm sticky l : withSticky sticky l ≡ₚ map snd sticky ++ l.
Proof.
  unfold withSticky. revert l. induction sticky as [|x sticky IH]; intros l; [done|]. cbn [fold_left map app]. rewrite IH, insertAt_perm.
  symmetry. apply Permutation_middle.
Qed.

Lemma restore_spec previous l id : NoDup l -> NoDup (restore previous l id) /\ forall x, x ∈ restore previous l id <-> x ∈ l \/ x = id.
Proof.
  intros Hn. unfold restore. destruct (HasProfile id l) eqn:E.
  - apply HasProfile_spec in E. split; [done|]. intros x. split; [tauto|]. by intros [H| ->].
  - assert (Hni : id ∉ l) by (intros H; apply HasProfile_spec in H; congruence).
    assert (H : forall n, NoDup (insertAt n id l) /\ forall x, x ∈ insertAt n id l <-> x ∈ l \/ x = id).
    { intros n. split; [rewrite insertAt_perm; by constructor|]. intros x. rewrite insertAt_perm, elem_of_cons. tauto. }
    destruct (indexOf id previous); apply H.
Qed.

Lemma restored_spec previous ids l : NoDup l ->
  NoDup (fold_left (restore previous) ids l) /\ forall x, x ∈ fold_left (restore previous) ids l <-> x ∈ l \/ x ∈ ids.
Proof.
  revert l. induction ids as [|id ids IH]; intros l Hn; cbn [fold_left].
  - split; [done|]. intros x. split; [tauto|]. intros [H|H]; [done|by apply elem_of_nil in H].
  - destruct (restore_spec previous l id Hn) as [Hn' Hx]. destruct (IH _ Hn') as [IH1 IH2]. split; [done|]. intros x. rewrite IH2, Hx, elem_of_cons. tauto.
Qed.

End Facts.

Section Sink.
Context {O : Outbounds} {D : Doubles} {Q : QtChar}.
Context (ok : nat -> bool).

(** ** A batch of new rows *)

Lemma insertChunk_other rows s id : id ∉ map fst rows -> stRows (insertChunk ok rows s) !! id = stRows s !! id.
Proof.
  intros H. unfold insertChunk. destruct (_ && _); cbn [stRows sRows sWritten]; [|done].
  rewrite lookup_union_r; [done|]. by apply not_elem_of_list_to_map.
Qed.

Lemma insertChunk_all rows s id r : (forall n, ok n = true) -> NoDup (map fst rows) ->
  (forall id, id ∈ map fst rows -> stRows s !! id = None) -> (id, r) ∈ rows -> stRows (insertChunk ok rows s) !! id = Some r.
Proof.
  intros Hok Hn Hfree H. unfold insertChunk. rewrite Hok.
  assert (Hf : forallb (fun x => negb (isSome (stRows s !! fst x))) rows = true).
  { apply forallb_forall. intros x Hx%list_elem_of_In. rewrite Hfree; [done|]. apply list_elem_of_fmap. by exists x. }
  rewrite Hf. cbn [andb stRows sRows sWritten]. apply lookup_union_Some_l, elem_of_list_to_map_1; done.
Qed.

Lemma insertRows_other rows s id : id ∉ map fst rows -> stRows (insertRows ok rows s) !! id = stRows s !! id.
Proof.
  unfold insertRows. generalize (length rows) as fuel. intros fuel. revert rows s. induction fuel as [|fuel IH]; intros rows s H; [done|].
  cbn [insertRowsF]. destruct rows as [|x rows]; [done|]. set (l := x :: rows) in *. rewrite <- (take_drop insertLimit l), map_app in H.
  apply not_elem_of_app in H as [H1 H2]. rewrite IH by done. by apply insertChunk_other.
Qed.

Lemma insertRows_all rows s id r : (forall n, ok n = true) -> NoDup (map fst rows) ->
  (forall id, id ∈ map fst rows -> stRows s !! id = None) -> (id, r) ∈ rows -> stRows (insertRows ok rows s) !! id = Some r.
Proof.
  intros Hok. unfold insertRows. assert (Hf : (length rows <= length rows)%nat) by lia. revert Hf. generalize (length rows) at 2 3 as fuel. intros fuel.
  revert rows s. induction fuel as [|fuel IH]; intros rows s Hf Hn Hfree H; [destruct rows; [by apply elem_of_nil in H|cbn in Hf; lia]|].
  cbn [insertRowsF]. destruct rows as [|x rows]; [by apply elem_of_nil in H|]. set (l := x :: rows) in *.
  pose proof Hn as Hn'. rewrite <- (take_drop insertLimit l), map_app in Hn'. apply NoDup_app in Hn' as (N1 & N2 & N3).
  assert (Hl : forall i, i ∈ map fst (take insertLimit l) \/ i ∈ map fst (drop insertLimit l) -> i ∈ map fst l)
    by (intros i Hi; rewrite <- (take_drop insertLimit l), map_app, elem_of_app; exact Hi).
  rewrite <- (take_drop insertLimit l) in H. apply elem_of_app in H as [H|H].
  - assert (Hni : id ∉ map fst (drop insertLimit l)) by (apply N2, list_elem_of_fmap; by exists (id, r)).
    rewrite <- (insertChunk_all (take insertLimit l) s id r Hok N1 (fun i Hi => Hfree i (Hl i (or_introl Hi))) H). set (s1 := insertChunk _ _ _). clearbody s1. clear -Hni.
    revert Hni. generalize (drop insertLimit l) as k. intros k. clear l. revert k s1. induction fuel as [|fuel IH]; intros k s1 H; [done|].
    cbn [insertRowsF]. destruct k as [|y k]; [done|]. set (m := y :: k) in *. rewrite <- (take_drop insertLimit m), map_app in H.
    apply not_elem_of_app in H as [H1 H2]. rewrite IH by done. by apply insertChunk_other.
  - apply IH; [|done| |done].
    + rewrite length_drop. change (length l) with (S (length rows)) in *. unfold insertLimit. lia.
    + intros i Hi. rewrite insertChunk_other; [auto|]. intros Hi'. by apply (N2 i Hi').
Qed.

Lemma insertRows_started rows s : stStarted (insertRows ok rows s) = stStarted s.
Proof.
  unfold insertRows. generalize (length rows) as fuel. intros fuel. revert rows s. induction fuel as [|fuel IH]; intros rows s; [done|].
  cbn [insertRowsF]. destruct rows as [|x rows]; [done|]. rewrite IH. unfold insertChunk. by destruct (_ && _).
Qed.

(** The rows a batch stores: each profile under the next id, of the group. *)
Definition newRows (gid last : Z) (chunk : list Row) : list (Z * Row) := map (rowOf gid) (numbered (last + 1) chunk).

Lemma newRows_fst gid last chunk : map fst (newRows gid last chunk) = seqZ (last + 1) (zlen chunk).
Proof. apply rows_fst. Qed.

Lemma AddProfileBatch_spec chunk gid s listed : storeOk s -> 0 <= gid -> stGroups s !! gid = Some listed -> chunk <> [] ->
  let rows := newRows gid (stLastId s) chunk in
  exists s', AddProfileBatch ok chunk gid s = (Some (map fst rows), s') /\ storeOk s' /\
    stGroups s' = <[gid := listed ++ map fst rows]> (stGroups s) /\ stLastId s' = stLastId s + zlen chunk /\ stGroupLastId s' = stGroupLastId s /\
    stTombstones s' = stTombstones s /\ stStarted s' = stStarted s /\
    (forall id, id <= stLastId s -> stRows s' !! id = stRows s !! id) /\
    (forall id r, stRows s' !! id = Some r -> (id, r) ∈ rows \/ stRows s !! id = Some r) /\
    ((forall n, ok n = true) -> forall id r, (id, r) ∈ rows -> stRows s' !! id = Some r).
Proof.
  intros W Hg El Hc rows. pose proof (AddProfileBatch_ok ok chunk gid s W) as W'. revert W'. unfold AddProfileBatch. cbv zeta.
  assert (Et : targetGroup gid s = gid) by (unfold targetGroup; destruct (Z.ltb_spec gid 0); [lia|done]). rewrite !Et.
  unfold GetGroup. rewrite El. destruct chunk as [|c chunk]; [done|]. set (l := c :: chunk) in *.
  rewrite NewProfileIDRange_counts by done. cbn [snd]. fold (newRows gid (stLastId s) l). fold rows.
  set (s0 := sLastId (stLastId s + zlen l) s). destruct (insertRows_same ok rows s0) as (G1 & G2 & G3 & G4 & _). intros W'. eexists. split; [done|]. split; [done|].
  cbn [stGroups sGroups stLastId stGroupLastId stTombstones stRows stStarted]. rewrite G1, G2, G3, G4, insertRows_started. split; [|do 4 (split; [done|]); split; [|split]].
  - unfold listAddBatch. cbn [stGroups s0 sLastId]. do 2 f_equal.
    assert (Hn : forall id, id ∈ map fst rows -> HasProfile id listed = false).
    { intros id Hid. unfold rows in Hid. rewrite newRows_fst, seqZ_bounds in Hid. destruct (HasProfile id listed) eqn:E; [|done]. apply HasProfile_spec in E.
      destruct (so_once s W gid listed El) as [_ F]. rewrite Forall_forall in F. specialize (F id E). cbn in F. lia. }
    revert Hn. generalize (map fst rows) as ids. induction ids as [|id ids IH]; intros Hn; [done|]. cbn [List.filter]. rewrite Hn by by left. cbn [negb].
    f_equal. apply IH. intros i Hi. apply Hn. by right.
  - intros id Hid. change (stRows s !! id) with (stRows s0 !! id). apply insertRows_other. unfold rows. rewrite newRows_fst, seqZ_bounds. lia.
  - intros id r H. apply (insertRows_rows ok rows s0 id r) in H. exact H.
  - intros Hok id r H. apply insertRows_all; [done| | |done]; unfold rows; rewrite newRows_fst; [apply NoDup_seqZ|].
    intros i. rewrite seqZ_bounds. intros Hi. cbn [stRows s0 sLastId]. destruct (stRows s !! i) as [x|] eqn:E; [|done].
    destruct (so_ids s W i x E). cbn in *. lia.
Qed.

(** ** Ids for the waiting entries *)

Definition isPending (e : NewEntry) : bool := (neId e <? 0) && negb (neReused e).

Definition pendingPos (es : list NewEntry) : list nat := List.filter (fun i => match es !! i with Some e => isPending e | None => false end) (seq 0 (length es)).

Fixpoint fill (ids : list Z) (es : list NewEntry) : list NewEntry :=
  match es with
  | [] => []
  | e :: es' =>
      if isPending e then match ids with [] => e :: fill [] es' | id :: ids' => withId id e :: fill ids' es' end
      else e :: fill ids es'
  end.

Lemma pendingPos_cons e es : pendingPos (e :: es) = (if isPending e then [0%nat] else []) ++ map S (pendingPos es).
Proof.
  unfold pendingPos. cbn [length seq List.filter]. change ((e :: es) !! 0%nat) with (Some e).
  assert (E : List.filter (fun i => match (e :: es) !! i with Some e => isPending e | None => false end) (seq 1 (length es)) =
    map S (List.filter (fun i => match es !! i with Some e => isPending e | None => false end) (seq 0 (length es)))).
  { rewrite <- seq_shift. generalize (seq 0 (length es)) as l. induction l as [|i l IH]; [done|]. cbn [map List.filter].
    change ((e :: es) !! S i) with (es !! i). destruct (match es !! i with Some e => isPending e | None => false end); cbn [map]; by rewrite IH. }
  rewrite E. by destruct (isPending e).
Qed.

Lemma setIds_shift at_ ids e es : setIds (map S at_) ids (e :: es) = e :: setIds at_ ids es.
Proof.
  unfold setIds. revert ids es. induction at_ as [|i at_ IH]; intros [|id ids] es; try done. cbn [map zip zip_with fold_left fst snd].
  change (alter (withId id) (S i) (e :: es)) with (e :: alter (withId id) i es). apply IH.
Qed.

Lemma setIds_fill ids es : length ids = length (pendingPos es) -> setIds (pendingPos es) ids es = fill ids es.
Proof.
  revert ids. induction es as [|e es IH]; intros ids H; [done|]. rewrite pendingPos_cons in *. cbn [fill]. destruct (isPending e) eqn:Ep.
  - destruct ids as [|id ids]; [done|]. cbn [app] in *. change (setIds (0%nat :: map S (pendingPos es)) (id :: ids) (e :: es)) with
      (setIds (map S (pendingPos es)) ids (withId id e :: es)). rewrite setIds_shift, IH; [done|]. cbn [length] in H. rewrite length_map in H. lia.
  - cbn [app] in *. rewrite setIds_shift, IH; [done|]. by rewrite length_map in H.
Qed.

Lemma pendingPos_length es : length (pendingPos es) = length (List.filter isPending es).
Proof.
  induction es as [|e es IH]; [done|]. rewrite pendingPos_cons. cbn [List.filter]. destruct (isPending e); rewrite length_app, length_map, IH; done.
Qed.

Lemma pendingPos_snoc es e : pendingPos (es ++ [e]) = pendingPos es ++ (if isPending e then [length es] else []).
Proof.
  induction es as [|x es IH]; [cbn [app]; by rewrite pendingPos_cons; destruct (isPending e)|]. rewrite <- app_comm_cons, !pendingPos_cons, IH, map_app, app_assoc.
  f_equal. by destruct (isPending e).
Qed.

(** The arrivals with their entries; the sink keeps them apart. *)
Fixpoint fillPairs (ids : list Z) (z : list (Row * NewEntry)) : list (Row * NewEntry) :=
  match z with
  | [] => []
  | (ent, e) :: z' =>
      if isPending e then match ids with [] => (ent, e) :: fillPairs [] z' | id :: ids' => (ent, withId id e) :: fillPairs ids' z' end
      else (ent, e) :: fillPairs ids z'
  end.

Definition waiting (z : list (Row * NewEntry)) : list (Row * NewEntry) := List.filter (fun x => isPending (snd x)) z.

Lemma fillPairs_snd ids z : map snd (fillPairs ids z) = fill ids (map snd z).
Proof. revert ids. induction z as [|[ent e] z IH]; intros ids; [done|]. cbn [fillPairs map snd fill]. destruct (isPending e), ids; cbn [map snd]; by rewrite IH. Qed.

Lemma fillPairs_fst ids z : map fst (fillPairs ids z) = map fst z.
Proof. revert ids. induction z as [|[ent e] z IH]; intros ids; [done|]. cbn [fillPairs map fst]. destruct (isPending e), ids; cbn [map fst]; by rewrite IH. Qed.

Lemma pending_class e : isPending e = true -> isFresh e = false /\ isReused e = false.
Proof. unfold isPending, isFresh, isReused. intros [-> H%negb_true_iff]%andb_true_iff. by rewrite H. Qed.

Lemma withId_class id e : isPending e = true -> 0 <= id ->
  isPending (withId id e) = false /\ isFresh (withId id e) = true /\ isReused (withId id e) = false.
Proof.
  unfold isPending, isFresh, isReused. cbn [neId neReused withId]. intros [_ H%negb_true_iff]%andb_true_iff Hid. rewrite H.
  by rewrite (proj2 (Z.ltb_ge id 0)) by lia.
Qed.

(** Filled entries keep everything but their id. *)
Lemma fillPairs_elem ids z ent e : (ent, e) ∈ fillPairs ids z -> length ids = length (waiting z) ->
  ((ent, e) ∈ z /\ isPending e = false) \/
  exists id e0, (ent, e0) ∈ z /\ isPending e0 = true /\ e = withId id e0 /\ (id, ent) ∈ zip ids (map fst (waiting z)).
Proof.
  revert ids. induction z as [|[ent' e'] z IH]; intros ids H Hl; [by apply elem_of_nil in H|]. cbn [fillPairs] in H. unfold waiting in *. cbn [List.filter snd] in *.
  destruct (isPending e') eqn:Ep.
  - destruct ids as [|id ids]; [done|]. apply elem_of_cons in H as [[= -> ->]|H].
    + right. exists id, e'. split; [by left|]. split; [done|]. split; [done|]. by left.
    + destruct (IH ids H) as [[H1 H2]|(i & e0 & H1 & H2 & H3 & H4)]; [by injection Hl|left; split; [by right|done]|].
      right. exists i, e0. split; [by right|]. split; [done|]. split; [done|]. by right.
  - apply elem_of_cons in H as [[= -> ->]|H]; [left; split; [by left|done]|].
    destruct (IH ids H Hl) as [[H1 H2]|(i & e0 & H1 & H2 & H3 & H4)]; [left; split; [by right|done]|].
    right. exists i, e0. split; [by right|]. done.
Qed.

Lemma fillPairs_fresh ids z : Forall (fun id => 0 <= id) ids -> length ids = length (waiting z) ->
  freshIds (map snd (fillPairs ids z)) ≡ₚ freshIds (map snd z) ++ ids.
Proof.
  revert ids. induction z as [|[ent e] z IH]; intros ids Hi Hl; unfold waiting in *; cbn [List.filter snd fillPairs] in *; [by destruct ids|].
  unfold freshIds in *. destruct (isPending e) eqn:Ep.
  - destruct ids as [|id ids]; [done|]. apply Forall_cons in Hi as [Hi His]. cbn [map snd List.filter].
    destruct (withId_class id e Ep Hi) as (_ & -> & _). destruct (pending_class e Ep) as [-> _]. cbn [map neId withId].
    rewrite (IH ids His) by (by injection Hl). apply Permutation_middle.
  - cbn [map snd List.filter]. destruct (isFresh e); cbn [map app]; by rewrite (IH ids Hi Hl).
Qed.

Lemma fillPairs_reused ids z : Forall (fun id => 0 <= id) ids -> reusedIds (map snd (fillPairs ids z)) = reusedIds (map snd z).
Proof.
  revert ids. induction z as [|[ent e] z IH]; intros ids Hi; [done|]. cbn [fillPairs]. unfold reusedIds in *. destruct (isPending e) eqn:Ep.
  - destruct ids as [|id ids]; cbn [map snd List.filter]; destruct (pending_class e Ep) as [_ ->]; [by apply IH|].
    apply Forall_cons in Hi as [Hi His]. destruct (withId_class id e Ep Hi) as (_ & _ & ->). by apply IH.
  - cbn [map snd List.filter]. destruct (isReused e); cbn [map]; by rewrite IH.
Qed.

Lemma fillPairs_waiting ids z : Forall (fun id => 0 <= id) ids -> length ids = length (waiting z) -> waiting (fillPairs ids z) = [].
Proof.
  unfold waiting. revert ids. induction z as [|[ent e] z IH]; intros ids Hi Hl; [done|]. cbn [fillPairs List.filter snd] in *. destruct (isPending e) eqn:Ep.
  - destruct ids as [|id ids]; [done|]. apply Forall_cons in Hi as [Hi His]. cbn [List.filter snd]. destruct (withId_class id e Ep Hi) as (-> & _). apply IH; [done|by injection Hl].
  - cbn [List.filter snd]. rewrite Ep. by apply IH.
Qed.

Lemma waiting_pending z : List.filter isPending (map snd z) = map snd (waiting z).
Proof. unfold waiting. induction z as [|[ent e] z IH]; [done|]. cbn [map snd List.filter]. destruct (isPending e); cbn [map snd]; by rewrite IH. Qed.

Lemma waiting_none z : waiting z = [] -> pendingPos (map snd z) = [].
Proof. intros H. apply length_zero_iff_nil. by rewrite pendingPos_length, waiting_pending, H. Qed.

Lemma fillPairs_contents ids z : map (fun x => neContent (snd x)) (fillPairs ids z) = map (fun x => neContent (snd x)) z.
Proof. revert ids. induction z as [|[ent e] z IH]; intros ids; [done|]. cbn [fillPairs]. destruct (isPending e), ids; cbn [map snd neContent withId]; by rewrite IH. Qed.

Lemma freshIds_elem (ent : Row) e z : (ent, e) ∈ z -> isFresh e = true -> neId e ∈ freshIds (map snd z).
Proof.
  intros Hin Hf. unfold freshIds. apply list_elem_of_fmap. exists e. split; [done|]. apply filter_elem. split; [|done].
  apply list_elem_of_fmap. by exists (ent, e).
Qed.

Lemma zip_seqZ {A} n (l : list A) : zip (seqZ n (zlen l)) l = numbered n l.
Proof.
  revert n. induction l as [|x l IH]; intros n; [by destruct (seqZ n (zlen []))|]. pose proof (zlen_nonneg l). rewrite zlen_cons, (seqZ_cons n) by lia.
  cbn [zip zip_with numbered]. f_equal. replace (Z.succ n) with (n + 1) by lia. replace (Z.pred (1 + zlen l)) with (zlen l) by lia. apply IH.
Qed.

(** ** The index while documents arrive *)

(** What the index knows of the old profiles, some of them reused for arrivals
    with the contents [contents]. *)
Record indexOk (old : list OldEntry) (contents : list digest) (reused : list Z) (ix : ContentIndex) : Prop := {
  ix_at : forall k, default [] (unclaimed ix !! k) = List.filter (fun id => negb (bool_decide (id ∈ reused))) (idsAt oeContent (fun _ => true) old k);
  ix_claimed : forall id, id ∈ claimedIds ix <-> id ∈ reused;
  ix_known : forall k, k ∈ known ix <-> k ∈ map oeContent old;
  ix_arrivals : forall k, k ∈ arrivals ix <-> k ∈ contents
}.

Lemma indexOk_start old : indexOk old [] [] (newContentIndex old).
Proof.
  destruct (newContentIndex_rest old) as (E1 & E2 & E3). split.
  - intros k. rewrite newContentIndex_at. symmetry. induction (idsAt _ _ _ _) as [|x l IH]; [done|]. cbn [List.filter].
    rewrite bool_decide_eq_false_2 by apply not_elem_of_nil. cbn [negb]. by rewrite IH.
  - intros id. rewrite E3. set_solver.
  - intros k. rewrite E1. by rewrite elem_of_list_to_set.
  - intros k. rewrite E2. set_solver.
Qed.

Lemma indexOk_note old contents reused ix content : indexOk old contents reused ix -> indexOk old (contents ++ [content]) reused (noteArrival content ix).
Proof.
  intros [A B C E]. split; cbn [unclaimed noteArrival claimedIds known arrivals]; try done. intros k.
  rewrite elem_of_union, elem_of_singleton, E, elem_of_app, list_elem_of_singleton. tauto.
Qed.

(** A claim gives the first profile with the content that no arrival has. *)
Lemma claim_ok old contents reused ix content : NoDup (map oeId old) -> indexOk old contents reused ix ->
  match claim content ix with
  | (Some id, ix') => indexOk old contents (reused ++ [id]) ix' /\ id ∉ reused /\ exists oe, oe ∈ old /\ oeId oe = id /\ oeContent oe = content
  | (None, ix') => ix' = ix /\ forall id, id ∈ idsAt oeContent (fun _ => true) old content -> id ∈ reused
  end.
Proof.
  intros Hn [A B C E]. unfold claim. pose proof (A content) as Al. destruct (unclaimed ix !! content) as [[|id ids]|] eqn:El.
  - split; [done|]. intros id Hid. cbn in Al. destruct (decide (id ∈ reused)); [done|]. exfalso. apply (not_elem_of_nil (A := Z) id).
    assert (Hf : id ∈ List.filter (fun i => negb (bool_decide (i ∈ reused))) (idsAt oeContent (fun _ => true) old content)).
    { apply filter_elem. split; [done|]. by apply negb_true_iff, bool_decide_eq_false. }
    rewrite <- Al in Hf. exact Hf.
  - assert (Al' : id :: ids = List.filter (fun i => negb (bool_decide (i ∈ reused))) (idsAt oeContent (fun _ => true) old content)) by (rewrite <- A, El; done).
    assert (Hid : id ∈ idsAt oeContent (fun _ => true) old content /\ id ∉ reused).
    { assert (H : id ∈ id :: ids) by by left. rewrite Al' in H. apply filter_elem in H as [H1 H2]. split; [done|]. by apply negb_true_iff, bool_decide_eq_false in H2. }
    destruct Hid as [Hid Hnr]. split; [|split; [done|]].
    + split; cbn [unclaimed claimedIds known arrivals]; [|..|done|done].
      * intros k.
        rewrite (List.filter_ext (fun i => negb (bool_decide (i ∈ reused ++ [id]))) (fun i => negb (bool_decide (i ∈ reused)) && negb (bool_decide (i = id)))).
        2:{ intros i. rewrite <- negb_orb. f_equal. apply eq_true_iff_eq. rewrite orb_true_iff, !bool_decide_eq_true, elem_of_app, list_elem_of_singleton. done. }
        destruct (decide (k = content)) as [->|Hne].
        -- rewrite lookup_insert_eq. cbn [default]. symmetry. apply filter_head_once; [by apply idsAt_nodup|]. by rewrite <- Al'.
        -- rewrite lookup_insert_ne, A by done. apply List.filter_ext_in. intros i Hin. rewrite (bool_decide_eq_false_2 (i = id)); [by rewrite andb_true_r|].
           intros ->. apply list_elem_of_In, idsAt_elem in Hin as (oe & Hoe & _ & Hk & Hi). apply idsAt_elem in Hid as (oe' & Hoe' & _ & Hk' & Hi').
           apply Hne. rewrite <- Hk, <- Hk'. f_equal. apply (same_entry old); congruence.
      * intros i. rewrite elem_of_union, elem_of_singleton, B, elem_of_app, list_elem_of_singleton. tauto.
    + apply idsAt_elem in Hid as (oe & Hoe & _ & Hk & Hi). by exists oe.
  - split; [done|]. intros id Hid. cbn in Al. destruct (decide (id ∈ reused)); [done|]. exfalso. apply (not_elem_of_nil (A := Z) id).
    assert (Hf : id ∈ List.filter (fun i => negb (bool_decide (i ∈ reused))) (idsAt oeContent (fun _ => true) old content)).
    { apply filter_elem. split; [done|]. by apply negb_true_iff, bool_decide_eq_false. }
    rewrite <- Al in Hf. exact Hf.
Qed.

(** ** The sink *)

Section Run.
Context (gid : Z) (s0 : Store) (l0 : list Z) (old : list OldEntry) (indexed : bool).

Definition storedFor (s : Store) (ent : Row) (e : NewEntry) : Prop :=
  let row := snd (rowOf gid (neId e, ent)) in
  stLastId s0 < neId e /\ (forall r, stRows s !! neId e = Some r -> r = row) /\ ((forall n, ok n = true) -> stRows s !! neId e = Some row).

(** The keys of an arrival when there is something to compare with. *)
Definition keyed (ent : Row) (e : NewEntry) : Prop :=
  neContent e = contentDigest (rwOutbound ent) /\ (neContentKnown e = true <-> neContent e ∈ map oeContent old) /\
  (neReused e = false -> neContentKnown e = false -> neIdentity e = identityDigest (rwType ent) (rwOutbound ent)).

Record sinkOk (z : list (Row * NewEntry)) (sk : ImportSink) (s : Store) : Prop := {
  k_store : storeOk s;
  k_gid : skGid sk = gid;
  k_groups : stGroups s = <[gid := l0 ++ skAdded sk]> (stGroups s0);
  k_last : stLastId s = stLastId s0 + zlen (skAdded sk);
  k_groupLast : stGroupLastId s = stGroupLastId s0;
  k_tombs : stTombstones s = stTombstones s0;
  k_started : stStarted s = stStarted s0;
  k_rows : forall id, id <= stLastId s0 -> stRows s !! id = stRows s0 !! id;
  k_added : skAdded sk = seqZ (stLastId s0 + 1) (zlen (skAdded sk));
  k_entries : skEntries sk = map snd z;
  k_chunk : skChunk sk = map fst (waiting z);
  k_pos : skEntryIndex sk = pendingPos (map snd z);
  k_fresh : freshIds (map snd z) ≡ₚ skAdded sk;
  k_stored : forall ent e, (ent, e) ∈ z -> isFresh e = true -> storedFor s ent e;
  k_class : forall ent e, (ent, e) ∈ z -> neReused e = true -> exists oe, oe ∈ old /\ oeId oe = neId e /\ oeContent oe = neContent e;
  k_reused : NoDup (reusedIds (map snd z));
  k_keyed : indexed = true -> forall ent e, (ent, e) ∈ z -> keyed ent e;
  k_index : match skIndex sk with
            | Some ix => indexed = true /\ indexOk old (map (fun x => neContent (snd x)) z) (reusedIds (map snd z)) ix
            | None => indexed = false
            end
}.

Hypothesis W0 : storeOk s0.
Hypothesis gid_nonneg : 0 <= gid.
Hypothesis group_there : stGroups s0 !! gid = Some l0.

Lemma sink_start : sinkOk [] (newSink gid (if indexed then Some (newContentIndex old) else None)) s0.
Proof.
  split; cbn [newSink skGid skAdded skEntries skChunk skEntryIndex skIndex map waiting pendingPos length seq List.filter]; try done.
  - by rewrite app_nil_r, insert_id.
  - unfold zlen. cbn [length]. lia.
  - by intros ent e ?%elem_of_nil.
  - by intros ent e ?%elem_of_nil.
  - constructor.
  - by intros _ ent e ?%elem_of_nil.
  - destruct indexed; [split; [done|apply indexOk_start]|done].
Qed.

Lemma sink_flush z sk s : sinkOk z sk s ->
  let '(sk', s') := flush ok sk s in exists z', map fst z' = map fst z /\ sinkOk z' sk' s' /\ waiting z' = [].
Proof.
  intros H. destruct H as [K1 K2 K3 K4 K5 K6 Ks K7 K8 K9 K10 K11 K12 K13 K14 K15 K16 K17] eqn:EH. clear EH. unfold flush.
  destruct (skChunk sk) as [|c chunk'] eqn:Ec.
  { exists z. split; [done|]. split; [by split; rewrite ?Ec|]. by destruct (waiting z). }
  assert (El : stGroups s !! skGid sk = Some (l0 ++ skAdded sk)) by (rewrite K2, K3; by rewrite lookup_insert_eq).
  pose proof (AddProfileBatch_spec (c :: chunk') (skGid sk) s _ K1 ltac:(rewrite K2; exact gid_nonneg) El ltac:(done)) as Hs. cbv zeta in Hs.
  set (chunk := c :: chunk') in *. set (rows := newRows (skGid sk) (stLastId s) chunk) in *.
  destruct Hs as (s' & E & W' & Hg & Hl & Hgl & Ht & Hst & Hold & Hrow & Hall). rewrite E. set (ids := map fst rows) in *.
  assert (Hids : ids = seqZ (stLastId s + 1) (zlen chunk)) by apply newRows_fst.
  assert (Hpos : Forall (fun id => 0 <= id) ids).
  { rewrite Hids. apply Forall_forall. intros id Hid. apply seqZ_bounds in Hid. pose proof (so_last s K1). lia. }
  assert (Hlen : length ids = length (waiting z)).
  { rewrite Hids, length_seqZ. unfold zlen. rewrite Nat2Z.id, K10. apply length_map. }
  assert (Hlen' : length ids = length (pendingPos (map snd z))) by (by rewrite pendingPos_length, waiting_pending, length_map).
  pose proof (zlen_nonneg (skAdded sk)) as Hna. pose proof (zlen_nonneg chunk) as Hnc.
  exists (fillPairs ids z). split; [apply fillPairs_fst|].
  assert (Hw : waiting (fillPairs ids z) = []) by (by apply fillPairs_waiting). split; [|done].
  split; cbn [skGid skAdded skEntries skChunk skEntryIndex skIndex]; try done.
  - rewrite Hg, K2, K3, insert_insert_eq, <- app_assoc. done.
  - rewrite zlen_app, Hl, K4. assert (Ez : zlen ids = zlen chunk) by (rewrite Hids; unfold zlen; rewrite length_seqZ, Nat2Z.id; done). lia.
  - by rewrite Hgl.
  - by rewrite Ht.
  - by rewrite Hst.
  - intros id Hid. rewrite Hold by lia. by apply K7.
  - rewrite zlen_app. assert (Ez : zlen ids = zlen chunk) by (rewrite Hids; unfold zlen; rewrite length_seqZ, Nat2Z.id; done).
    rewrite Ez, seqZ_app, <- K8 by done. f_equal. rewrite Hids. f_equal. lia.
  - rewrite K11, fillPairs_snd, K9. by apply setIds_fill.
  - by rewrite Hw.
  - by rewrite waiting_none.
  - rewrite fillPairs_fresh, K12 by done. done.
  - intros ent e Hin Hf. apply fillPairs_elem in Hin as [[Hin _]|(id & e0 & Hin & Hp & -> & Hz)]; [| |done].
    + destruct (K13 ent e Hin Hf) as (S1 & S2 & S3). split; [done|]. split.
      * intros r Hr. apply Hrow in Hr as [Hr|Hr]; [|by apply S2]. exfalso.
        assert (Hi : neId e ∈ ids) by (apply list_elem_of_fmap; by exists (neId e, r)). rewrite Hids, seqZ_bounds in Hi.
        assert (Ha : neId e ∈ skAdded sk) by (rewrite <- K12; by apply (freshIds_elem ent)).
        rewrite K8, seqZ_bounds in Ha. lia.
      * intros Hok. specialize (S3 Hok). rewrite <- S3. apply Hold.
        assert (Ha : neId e ∈ skAdded sk) by (rewrite <- K12; by apply (freshIds_elem ent)).
        rewrite K8, seqZ_bounds in Ha. lia.
    + rewrite <- K10, Hids, zip_seqZ in Hz. cbn [neId withId]. assert (Hin' : (id, snd (rowOf gid (id, ent))) ∈ rows).
      { unfold rows, newRows. rewrite K2. apply list_elem_of_fmap. by exists (id, ent). }
      assert (Hi : id ∈ ids) by (apply list_elem_of_fmap; eexists; split; [|exact Hin']; done). pose proof Hi as Hb. rewrite Hids, seqZ_bounds in Hb.
      split; [cbn [neId withId]; lia|]. cbn [neId withId]. split; [|intros Hok; by apply Hall].
      intros r Hr. apply Hrow in Hr as [Hr|Hr].
      * assert (Hnd : NoDup (map fst rows)) by (fold ids; rewrite Hids; apply NoDup_seqZ).
        pose proof (elem_of_list_to_map_1 (M := gmap Z) rows id r Hnd Hr) as R1. pose proof (elem_of_list_to_map_1 (M := gmap Z) rows id _ Hnd Hin') as R2. congruence.
      * destruct (so_ids s K1 id r Hr). lia.
  - intros ent e Hin Hr. apply fillPairs_elem in Hin as [[Hin _]|(id & e0 & Hin & Hp & -> & _)]; [by apply (K14 ent)| |done].
    cbn [neReused withId] in Hr. unfold isPending in Hp. rewrite Hr in Hp. by rewrite andb_false_r in Hp.
  - by rewrite fillPairs_reused.
  - intros Hi ent e Hin. apply fillPairs_elem in Hin as [[Hin _]|(id & e0 & Hin & Hp & -> & _)]; [by apply K16| |done]. exact (K16 Hi ent e0 Hin).
  - destruct (skIndex sk) as [ix|]; [|done]. destruct K17 as [Hi Hx]. split; [done|]. rewrite fillPairs_reused by done.
    by rewrite fillPairs_contents.
Qed.

Lemma filter_snoc {A} (f : A -> bool) (l : list A) x : List.filter f (l ++ [x]) = List.filter f l ++ (if f x then [x] else []).
Proof. rewrite List.filter_app. cbn [List.filter]. by destruct (f x). Qed.

(** An entry added at the end, waiting for its row or reused. *)
Lemma sink_more z sk s ent e ix chunk pos : sinkOk z sk s -> isFresh e = false ->
  (neReused e = true -> exists oe, oe ∈ old /\ oeId oe = neId e /\ oeContent oe = neContent e) ->
  NoDup (reusedIds (map snd z ++ [e])) -> (indexed = true -> keyed ent e) ->
  chunk = skChunk sk ++ (if isPending e then [ent] else []) -> pos = skEntryIndex sk ++ (if isPending e then [length (skEntries sk)] else []) ->
  match ix with
  | Some ix => indexed = true /\ indexOk old (map (fun x => neContent (snd x)) z ++ [neContent e]) (reusedIds (map snd z ++ [e])) ix
  | None => indexed = false
  end ->
  sinkOk (z ++ [(ent, e)]) (mkSink (skGid sk) (skDestination sk) (skAdded sk) ix chunk pos (skEntries sk ++ [e])) s.
Proof.
  intros [K1 K2 K3 K4 K5 K6 Ks K7 K8 K9 K10 K11 K12 K13 K14 K15 K16 K17] Hf Hr Hn Hk Ec Ep Hi.
  assert (Hin : forall ent' e', (ent', e') ∈ z ++ [(ent, e)] -> (ent', e') ∈ z \/ (ent' = ent /\ e' = e)).
  { intros ent' e' [H|[= -> ->]%list_elem_of_singleton]%elem_of_app; [by left|by right]. }
  split; cbn [skGid skAdded skEntries skChunk skEntryIndex skIndex]; rewrite ?map_app; cbn [map snd]; try done.
  - by rewrite K9.
  - rewrite Ec, K10. unfold waiting. rewrite filter_snoc, map_app. cbn [snd]. by destruct (isPending e).
  - by rewrite Ep, K11, pendingPos_snoc, K9.
  - unfold freshIds in *. rewrite filter_snoc, Hf, app_nil_r. exact K12.
  - intros ent' e' [H|[-> ->]]%Hin; [by apply K13|congruence].
  - intros ent' e' [H|[-> ->]]%Hin; [by apply (K14 ent')|done].
  - intros H ent' e' [H'|[-> ->]]%Hin; [by apply K16|by apply Hk].
Qed.

Lemma reusedIds_snoc es e : reusedIds (es ++ [e]) = reusedIds es ++ (if isReused e then [neId e] else []).
Proof. unfold reusedIds. rewrite filter_snoc, map_app. by destruct (isReused e). Qed.

Hypothesis old_nodup : NoDup (map oeId old).
Hypothesis old_positive : forall oe, oe ∈ old -> 0 <= oeId oe.

Lemma chunkEntry_ok z sk s ent e : sinkOk (z ++ [(ent, e)])
    (mkSink (skGid sk) (skDestination sk) (skAdded sk) (skIndex sk) (skChunk sk ++ [ent]) (skEntryIndex sk ++ [length (skEntries sk)]) (skEntries sk ++ [e])) s ->
  let '(sk', s') := chunkEntry ok e ent sk s in exists z', map fst z' = map fst z ++ [ent] /\ sinkOk z' sk' s'.
Proof.
  intros H. unfold chunkEntry. cbv zeta. destruct (_ <=? _)%nat.
  - pose proof (sink_flush _ _ _ H) as Hf. destruct (flush ok _ s) as [sk' s']. destruct Hf as (z' & Ez & Hz & _). exists z'. split; [|done].
    by rewrite Ez, map_app.
  - exists (z ++ [(ent, e)]). split; [by rewrite map_app|done].
Qed.

Lemma sink_add z sk s ent : sinkOk z sk s ->
  let '(sk', s') := sinkAdd ok (sk, s) ent in exists z', map fst z' = map fst z ++ [ent] /\ sinkOk z' sk' s'.
Proof.
  intros H. pose proof (k_index _ _ _ H) as Hix. pose proof (k_reused _ _ _ H) as Hre. unfold sinkAdd. cbv zeta. destruct (skIndex sk) as [ix|] eqn:Ei.
  - destruct Hix as [Hi Hix]. set (content := contentDigest (rwOutbound ent)).
    pose proof (indexOk_note _ _ _ _ content Hix) as Hnote. pose proof (claim_ok _ _ _ _ content old_nodup Hnote) as Hc.
    assert (Hkn : knows content (noteArrival content ix) = true <-> content ∈ map oeContent old).
    { unfold knows. rewrite bool_decide_eq_true. apply (ix_known _ _ _ _ Hnote). }
    destruct (claim content (noteArrival content ix)) as [[id|] ix'].
    + destruct Hc as (Hx & Hnew & oe & Hoe & Hid & Hct). set (e := mkNewEntry id true _ content [] _).
      assert (Hpos : isReused e = true). { unfold isReused. cbn [neId neReused e]. rewrite (proj2 (Z.ltb_ge id 0)); [done|]. rewrite <- Hid. by apply old_positive. }
      exists (z ++ [(ent, e)]). split; [by rewrite map_app|].
      assert (Ep : isPending e = false) by (unfold isPending; apply andb_false_r).
      apply (sink_more z sk s); rewrite ?Ep, ?app_nil_r, ?reusedIds_snoc, ?Hpos; try done.
      * unfold isFresh. apply andb_false_r.
      * intros _. by exists oe.
      * apply NoDup_app. split; [done|]. split; [|apply NoDup_singleton]. by intros i Hin' ->%list_elem_of_singleton.
    + destruct Hc as [-> Hall]. apply (chunkEntry_ok z (withSinkIndex (noteArrival content ix) sk)).
      set (e := mkNewEntry (-1) false _ content _ _).
      cbn [skGid skDestination skAdded skIndex skChunk skEntryIndex skEntries withSinkIndex].
      apply (sink_more z sk s); rewrite ?reusedIds_snoc, ?app_nil_r; try done.
      intros _. split; [done|]. split; [exact Hkn|]. intros _ Hk. cbn [neContentKnown neIdentity e] in *. by rewrite Hk.
  - apply (chunkEntry_ok z sk). rewrite Ei. apply (sink_more z sk s); rewrite ?reusedIds_snoc, ?app_nil_r; try done. rewrite Hix. done.
Qed.

(** The arrivals, all stored. *)
Lemma sink_all docs : let '(sk, s) := fold_left (sinkAdd ok) docs (newSink gid (if indexed then Some (newContentIndex old) else None), s0) in
  exists z, map fst z = docs /\ sinkOk z sk s.
Proof.
  induction docs as [|ent docs IH] using rev_ind; [exists []; split; [done|apply sink_start]|]. rewrite fold_left_app. cbn [fold_left].
  destruct (fold_left (sinkAdd ok) docs _) as [sk s]. destruct IH as (z & Ez & Hz). pose proof (sink_add z sk s ent Hz) as H.
  destruct (sinkAdd ok (sk, s) ent) as [sk' s']. destruct H as (z' & Ez' & Hz'). exists z'. split; [by rewrite Ez', Ez|done].
Qed.

Lemma sink_done docs : let '(sk, s) := fold_left (sinkAdd ok) docs (newSink gid (if indexed then Some (newContentIndex old) else None), s0) in
  let '(sk, s) := flush ok sk s in exists z, map fst z = docs /\ sinkOk z sk s /\ waiting z = [].
Proof.
  pose proof (sink_all docs) as H. destruct (fold_left _ docs _) as [sk s]. destruct H as (z & Ez & Hz). pose proof (sink_flush z sk s Hz) as Hf.
  destruct (flush ok sk s) as [sk' s']. destruct Hf as (z' & Ez' & Hz' & Hw). exists z'. split; [by rewrite Ez'|done].
Qed.

(** Nothing waits: the entries are what a reconciliation takes. *)
Lemma sink_incoming z sk s ix : sinkOk z sk s -> skIndex sk = Some ix -> (forall oe, oe ∈ old -> oeId oe <= stLastId s0) -> incomingOk old (skEntries sk) ix.
Proof.
  intros [K1 K2 K3 K4 K5 K6 Ks K7 K8 K9 K10 K11 K12 K13 K14 K15 K16 K17] Ei Hb. rewrite Ei in K17. destruct K17 as [Hi [A B C E]]. rewrite K9. split; try done.
  - intros id (e & -> & [Hin Hr]%filter_elem)%list_elem_of_fmap. unfold isReused in Hr. apply andb_true_iff in Hr as [_ Hr].
    apply list_elem_of_fmap in Hin as ([ent e'] & Ee & Hin). cbn in Ee. subst e'. destruct (K14 ent e Hin Hr) as (oe & Hoe & <- & _).
    apply list_elem_of_fmap. by exists oe.
  - rewrite K12, K8. apply NoDup_seqZ.
  - intros id Hid. rewrite K12, K8, seqZ_bounds in Hid. intros (oe & -> & Hoe)%list_elem_of_fmap. specialize (Hb oe Hoe). lia.
Qed.

End Run.
End Sink.
