(* ===== verification/RefreshSafety.v ===== *)
(** A refresh as a whole: nothing stored is left out of its group. *)
From stdpp Require Import base list gmap strings sorting.
From Stdlib Require Import ZArith Lia Bool.
From S2P Require Import Prelude StableSort ProfileStore ProfileStoreFacts GroupSort GroupSortFacts Reconcile Refresh RefreshSink.

Section Facts.
Context {O : Outbounds} {D : Doubles} {Q : QtChar} {DOk : DoublesOk D}.
Context (ok : nat -> bool) (afterStop : Z -> Z) (isValid : Z * Row -> option bool) (settings : RefreshSettings) (columns : SortColumns).

(** ** Updates in place *)

(** The same ids, in the same groups and lists. *)
Record sameShape (s s' : Store) : Prop := {
  ss_rows : forall id, rwGid <$> stRows s' !! id = rwGid <$> stRows s !! id;
  ss_groups : stGroups s' = stGroups s;
  ss_last : stLastId s' = stLastId s;
  ss_groupLast : stGroupLastId s' = stGroupLastId s;
  ss_counter : stCounter s' = stCounter s
}.

Lemma applyUpdate_shape s p : sameShape s (applyUpdate s p).
Proof.
  unfold applyUpdate, GetProfile. destruct (stRows s !! fst p) as [o|] eqn:Eo; [|done]. destruct (stRows s !! snd p) as [n|]; [|done].
  unfold SaveProfile. destruct (_ || _); [done|]. split; cbn [stRows sRows stGroups stLastId stGroupLastId]; try done. intros id.
  destruct (decide (id = fst p)) as [->|Hne]; [by rewrite lookup_insert_eq, Eo|by rewrite lookup_insert_ne].
Qed.

Lemma applyUpdates_shape ps s : sameShape s (fold_left applyUpdate ps s).
Proof.
  revert s. induction ps as [|p ps IH]; intros s; [done|]. cbn [fold_left]. destruct (applyUpdate_shape s p) as [A B C E K].
  destruct (IH (applyUpdate s p)) as [A' B' C' E' K']. split; [|congruence..]. intros id. by rewrite A', A.
Qed.

Lemma sameShape_row s s' id r : sameShape s s' -> stRows s' !! id = Some r -> exists r0, stRows s !! id = Some r0 /\ rwGid r = rwGid r0.
Proof.
  intros [A _ _ _] E. specialize (A id). rewrite E in A. destruct (stRows s !! id) as [r0|]; [|done]. exists r0. split; [done|]. by injection A.
Qed.

(** ** The new order *)

Lemma stickyOf_snd selectors l : map snd (stickyOf selectors l) = List.filter (fun id => bool_decide (id ∈ selectors)) l.
Proof.
  unfold stickyOf. generalize 0%nat as n. induction l as [|x l IH]; intros n; [done|]. cbn [length seq zip zip_with List.filter snd].
  destruct (bool_decide (x ∈ selectors)); cbn [map snd]; by rewrite IH.
Qed.

Lemma listOf_group s gid l : stGroups s !! gid = Some l -> listOf s gid = l.
Proof. intros E. unfold listOf, GetGroup. by rewrite E. Qed.

Section Plan.
Context (gid : Z) (s0 : Store) (l0 : list Z) (sticky : list (nat * Z)).
Hypothesis W0 : storeOk s0.
Hypothesis gid_nonneg : 0 <= gid.
Hypothesis group_there : stGroups s0 !! gid = Some l0.
Hypothesis sticky_nodup : NoDup (map snd sticky).
Hypothesis sticky_sub : forall id, id ∈ map snd sticky -> id ∈ l0.

Definition theOldRows : list (Z * Row) := GetProfileBatch s0 (membersOf sticky l0).
Definition theOld : list OldEntry := map oldEntryOf theOldRows.

Lemma theOld_elem id : id ∈ map oeId theOld <-> id ∈ l0 /\ id ∉ map snd sticky /\ exists r, stRows s0 !! id = Some r.
Proof.
  unfold theOld. rewrite map_map, list_elem_of_fmap. split.
  - intros ([i r] & -> & Hin). apply GetProfileBatch_elem in Hin as [Hm Hr]. unfold membersOf in Hm. apply filter_elem in Hm as [Hm Hs].
    apply negb_true_iff, bool_decide_eq_false in Hs. split; [done|]. split; [done|]. by exists r.
  - intros (Hm & Hs & r & Hr). exists (id, r). split; [done|]. apply GetProfileBatch_elem. split; [|done]. unfold membersOf. apply filter_elem.
    split; [done|]. by apply negb_true_iff, bool_decide_eq_false.
Qed.

Lemma theOld_nodup : NoDup (map oeId theOld).
Proof.
  unfold theOld, theOldRows. rewrite map_map. cbn [oldEntryOf oeId].
  assert (Hn : NoDup (membersOf sticky l0)) by (apply filter_nodup; by destruct (so_once s0 W0 gid l0 group_there)).
  revert Hn. generalize (membersOf sticky l0) as l. unfold GetProfileBatch. induction l as [|id l IH]; [constructor|]. intros [Hx Hn]%NoDup_cons.
  cbn [omap list_omap]. destruct (stRows s0 !! id) as [r|]; [|by apply IH]. cbn [option_map map fst]. constructor; [|by apply IH].
  intros ([i r'] & -> & Hin)%list_elem_of_fmap. apply list_elem_of_omap in Hin as (y & Hy & E). destruct (stRows s0 !! y); [|done]. by injection E as -> ->.
Qed.

Lemma theOld_bounds oe : oe ∈ theOld -> 0 <= oeId oe <= stLastId s0.
Proof.
  intros H. assert (Hid : oeId oe ∈ map oeId theOld) by (apply list_elem_of_fmap; by exists oe). apply theOld_elem in Hid as (_ & _ & r & Hr).
  destruct (so_ids s0 W0 _ r Hr). lia.
Qed.

(** The plan places every old profile and every new row, none of them sticky. *)
Lemma plan_ids z sk s ix : sinkOk ok gid s0 l0 theOld true z sk s -> skIndex sk = Some ix ->
  let plan := Reconcile theOld (skEntries sk) ix in
  NoDup (order plan ++ stale plan) /\
  (forall id, id ∈ order plan \/ id ∈ stale plan <-> id ∈ map oeId theOld \/ id ∈ skAdded sk) /\
  forall id, id ∈ order plan \/ id ∈ stale plan -> id ∈ l0 ++ skAdded sk /\ id ∉ map snd sticky.
Proof.
  intros Hz Ei plan. pose proof (sink_incoming ok gid s0 l0 theOld true theOld_nodup z sk s ix Hz Ei (fun oe H => proj2 (theOld_bounds oe H))) as Hin.
  pose proof (Reconcile_partition theOld (skEntries sk) ix Hin) as Hpart. cbv zeta in Hpart. fold plan in Hpart.
  rewrite (k_entries _ _ _ _ _ _ _ _ _ Hz), (k_fresh _ _ _ _ _ _ _ _ _ Hz) in Hpart. pose proof (k_added _ _ _ _ _ _ _ _ _ Hz) as K8.
  assert (Hmem : forall id, id ∈ order plan \/ id ∈ stale plan <-> id ∈ map oeId theOld \/ id ∈ skAdded sk) by (intros id; by rewrite <- !elem_of_app, Hpart).
  split; [|split; [done|]].
  - rewrite Hpart, K8. apply NoDup_app. split; [exact theOld_nodup|]. split; [|apply NoDup_seqZ]. intros id (oe & -> & Hoe)%list_elem_of_fmap.
    rewrite seqZ_bounds. pose proof (theOld_bounds oe Hoe). lia.
  - intros id H. apply Hmem in H as [H|H]; [apply theOld_elem in H as (H1 & H2 & _); split; [apply elem_of_app; by left|done]|].
    split; [apply elem_of_app; by right|]. intros Hs. apply sticky_sub in Hs. destruct (so_once s0 W0 gid l0 group_there) as [_ F].
    rewrite Forall_forall in F. specialize (F id Hs). rewrite K8, seqZ_bounds in H. cbn in F. lia.
Qed.

Lemma applyPlan_ok z sk s ix working c : sinkOk ok gid s0 l0 theOld true z sk s -> skIndex sk = Some ix ->
  let '(a, s') := applyPlan ok afterStop settings gid sticky theOld working (skEntries sk) ix c s in
  apDeleteFailed a = false -> storeOk s'.
Proof.
  intros Hz Ei. unfold applyPlan. cbv zeta. destruct (plan_ids z sk s ix Hz Ei) as (Hnd & Hmem & Hl). set (plan := Reconcile theOld (skEntries sk) ix) in *.
  destruct Hz as [K1 K2 K3 K4 K5 K6 Ks K7 K8 K9 K10 K11 K12 K13 K14 K15 K16 K17]. set (l := l0 ++ skAdded sk) in *.
  assert (El : stGroups s !! gid = Some l) by (by rewrite K3, lookup_insert_eq). apply NoDup_app in Hnd as (No & _ & _).
  pose proof (applyUpdates_shape (updates plan) s) as Hsh. set (s2 := fold_left applyUpdate (updates plan) s) in *. clearbody s2.
  assert (E2 : stGroups s2 !! gid = Some l) by (by rewrite (ss_groups _ _ Hsh)).
  set (new := withSticky sticky (order plan)). set (doomed := List.filter (fun id => negb (bool_decide (id ∈ working))) (stale plan)).
  set (keptWorking := List.filter (fun id => bool_decide (id ∈ working)) (stale plan)).
  pose proof (deleteProfiles_spec ok afterStop settings doomed (setListed gid new s2)) as Hdel.
  pose proof (deleteProfiles_counter ok afterStop settings doomed (setListed gid new s2)) as Hcnt.
  destruct (deleteProfiles ok afterStop settings doomed (setListed gid new s2)) as [o s4]. destruct Hdel as [Hids Hdel]. cbn [snd] in Hcnt.
  cbn [apDeleteFailed]. intros Hok%negb_false_iff. rewrite Hok in Hdel. destruct Hdel as [Drows [cleaned Dgroups] Dlast Dglast].
  destruct (setListed_rest gid new s2) as (R1 & R2 & R3 & _). rewrite R1 in Drows. rewrite R2 in Dlast. rewrite R3 in Dglast.
  assert (E4 : stGroups s4 !! gid = Some (if cleaned gid then listRemoveBatch (doDeleted o) new else new)).
  { rewrite Dgroups, (setListed_groups gid l) by done. by rewrite decide_True. }
  set (l4 := if cleaned gid then listRemoveBatch (doDeleted o) new else new) in *. rewrite (listOf_group s4 gid l4 E4).
  assert (Nnew : NoDup new).
  { unfold new. rewrite withSticky_perm. apply NoDup_app. split; [done|]. split; [|done]. intros id Hs Ho. by apply (proj2 (Hl id (or_introl Ho))). }
  assert (Hnew : forall id, id ∈ new <-> id ∈ map snd sticky \/ id ∈ order plan) by (intros id; unfold new; by rewrite withSticky_perm, elem_of_app).
  assert (Hl4 : NoDup l4 /\ forall id, (id ∈ l4 -> id ∈ new) /\ (id ∈ new -> id ∉ doDeleted o -> id ∈ l4)).
  { unfold l4. destruct (cleaned gid); [|by split]. split; [by apply filter_nodup|]. intros id. rewrite listRemoveBatch_elem. tauto. }
  destruct Hl4 as [Nl4 Hl4].
  destruct (restored_spec (listOf s2 gid) (doKept o ++ keptWorking) l4 Nl4) as [Nf Hf]. set (final := fold_left _ _ l4) in *.
  destruct (setListed_rest gid final s4) as (F1 & F2 & F3 & _).
  assert (Hstale : forall id, id ∈ doomed \/ id ∈ keptWorking <-> id ∈ stale plan).
  { intros id. unfold doomed, keptWorking. rewrite !filter_elem. destruct (bool_decide (id ∈ working)); cbn [negb]; split; [intros [[H _]|[H _]]; done|..]; [tauto|intros [[H _]|[H _]]; done|tauto]. }
  apply (relisted_ok gid l final s).
  - exact K1.
  - exact El.
  - intros id r. rewrite F1. intros [H _]%Drows. by apply (sameShape_row s s2).
  - intros g Hne l'. rewrite (setListed_groups gid l4) by done. rewrite decide_False by done. rewrite Dgroups, (setListed_groups gid l) by done.
    rewrite decide_False, (ss_groups _ _ Hsh) by done. destruct (stGroups s !! g) as [lg|] eqn:Eg; [|done]. cbn. intros [= <-]. exists lg. split; [done|].
    destruct (so_once s K1 g lg Eg) as [Ng _]. destruct (cleaned g); [|done]. split; [by apply filter_nodup|]. intros id Hid. by apply listRemoveBatch_elem in Hid as [Hid _].
  - intros id r. rewrite F1. intros [H Hnd]%Drows Hg. apply (sameShape_row s s2) in H as (r0 & H0 & Eg); [|done]. rewrite Eg in *.
    destruct (so_listed s K1 id r0 H0) as (lg & Elg & Hlg). exists (if cleaned (rwGid r0) then listRemoveBatch (doDeleted o) lg else lg).
    rewrite (setListed_groups gid l4) by done. rewrite decide_False by done. rewrite Dgroups, (setListed_groups gid l) by done.
    rewrite decide_False, (ss_groups _ _ Hsh), Elg by done. split; [done|]. destruct (cleaned (rwGid r0)); [by apply listRemoveBatch_elem|done].
  - rewrite (setListed_groups gid l4) by done. by rewrite decide_True.
  - exact Nf.
  - intros id [H|H]%Hf.
    + apply Hl4, Hnew in H as [H|H]; [apply elem_of_app; left; by apply sticky_sub|apply (Hl id); by left].
    + apply (Hl id). right. apply Hstale. apply elem_of_app in H as [H|H]; [left; apply Hids; by right|by right].
  - intros id r. rewrite F1. intros [H Hnd]%Drows Hg. apply Hf. apply (sameShape_row s s2) in H as (r0 & H0 & Eg); [|done]. rewrite Hg in Eg.
    destruct (so_listed s K1 id r0 H0) as (lg & Elg & Hlg). rewrite <- Eg, El in Elg. injection Elg as <-.
    destruct (decide (id ∈ map snd sticky)) as [Hs|Hs]; [left; apply Hl4; [apply Hnew; by left|done]|].
    assert (Hos : id ∈ order plan \/ id ∈ stale plan).
    { apply Hmem. apply elem_of_app in Hlg as [Hlg|Hlg]; [left|by right]. apply theOld_elem. split; [done|]. split; [done|]. exists r0. rewrite <- H0. symmetry. apply K7.
      destruct (so_once s0 W0 gid l0 group_there) as [_ F]. rewrite Forall_forall in F. specialize (F id Hlg). cbn in F. lia. }
    destruct Hos as [Ho|Ho]; [left; apply Hl4; [apply Hnew; by right|done]|]. right. apply elem_of_app. apply Hstale in Ho as [Ho|Ho]; [|by right].
    left. by apply Hids in Ho as [Ho|Ho].
  - rewrite F2, Dlast. apply (ss_last _ _ Hsh).
  - rewrite F3, Dglast. apply (ss_groupLast _ _ Hsh).
  - rewrite !setListed_counter, Hcnt, setListed_counter. apply (ss_counter _ _ Hsh).
Qed.

End Plan.

(** ** The stages *)

Lemma removeFlagged_ok ids options s : storeOk s -> storeOk (snd (removeFlagged ok afterStop isValid settings ids options s)).
Proof.
  intros W. unfold removeFlagged. destruct (_ && _); [done|]. destruct (flaggedIds isValid _ _); [done|]. by apply deleteProfiles_ok.
Qed.

Lemma resortGroup_ok sort gid s : storeOk s -> storeOk (resortGroup settings columns sort gid s).
Proof.
  intros W. unfold resortGroup. destruct (stGroups s !! gid) as [l|] eqn:E; [|unfold setListed, GetGroup; by rewrite E].
  rewrite (listOf_group s gid l E). apply (setListed_ok gid l); [done|done|].
  apply (resortFrom_keeps _ _ _ _ (fun l' => l' ≡ₚ l)); [intros x y <- H; exact H|done|done].
Qed.

Lemma finishRefresh_ok gid sort sticky options a s : storeOk s ->
  storeOk (snd (finishRefresh ok afterStop isValid settings columns gid sort sticky options a s)).
Proof.
  intros W. unfold finishRefresh. pose proof (removeFlagged_ok (membersOf sticky (listOf s gid)) options s W) as H.
  destruct (removeFlagged _ _ _ _ _ options s) as [flagged s']. cbn [snd] in *. by apply resortGroup_ok.
Qed.

Lemma finishRefresh_failed gid sort sticky options a s :
  failure (fst (fst (finishRefresh ok afterStop isValid settings columns gid sort sticky options a s))) <> Database -> apDeleteFailed a = false.
Proof.
  unfold finishRefresh. destruct (removeFlagged _ _ _ _ _ options s) as [flagged s']. cbn [fst failure].
  destruct (apDeleteFailed a); cbn [orb]; [done|]. done.
Qed.

Lemma clearGroup_ok gid sticky options s l : storeOk s -> stGroups s !! gid = Some l -> NoDup (map snd sticky) -> (forall id, id ∈ map snd sticky -> id ∈ l) ->
  let '(c, s') := clearGroup ok afterStop settings gid sticky options s in
  c <> None -> storeOk s' /\ exists l', stGroups s' !! gid = Some l' /\ forall id, id ∈ map snd sticky -> id ∈ l'.
Proof.
  intros W E Hn Hs. unfold clearGroup. destruct (sub_clear settings); [|intros _; split; [done|by exists l]]. cbv zeta.
  set (doomed := List.filter _ (membersOf sticky (listOf s gid))).
  assert (Hdoomed : forall id, id ∈ doomed -> id ∉ map snd sticky).
  { unfold doomed, membersOf. intros id [H _]%filter_elem. apply filter_elem in H as [_ H]. by apply negb_true_iff, bool_decide_eq_false in H. }
  pose proof (deleteProfiles_ok ok afterStop settings doomed s W) as W'. pose proof (deleteProfiles_spec ok afterStop settings doomed s) as Hd.
  destruct (deleteProfiles ok afterStop settings doomed s) as [o s']. cbn [snd] in W'. destruct Hd as [Hids Hd]. destruct (doOk o); [|done]. intros _. split; [done|].
  destruct (df_groups _ _ _ Hd) as [cleaned Hg]. specialize (Hg gid). rewrite E in Hg. cbn in Hg. eexists. split; [exact Hg|]. intros id Hid.
  destruct (cleaned gid); [|by apply Hs]. apply listRemoveBatch_elem. split; [by apply Hs|]. intros Hx. apply (Hdoomed id); [|done]. apply Hids. by left.
Qed.

(** C11: A refresh whose deletes the database takes leaves no stored profile out of
    its group's list: every row is listed exactly once, in its own group, whatever
    the document holds, with the running profile, the working ones and the
    selectors that are kept. *)
Theorem refresh_orphans_none g url doc s l : storeOk s -> 0 <= sgId g -> GetGroup s (sgId g) = Some l ->
  let '(outcome, _, _, s') := applyRefresh ok afterStop isValid settings columns g url doc s in
  failure outcome <> Database -> storeOk s'.
Proof.
  intros W Hg El. unfold applyRefresh. cbv zeta. destruct (negb (eqStr _ url)); [done|]. destruct (isNil (docProfiles doc)); [done|].
  destruct (negb (docComplete doc)); [done|]. set (sticky := stickyOf (selectorIds s) (listOf s (sgId g))).
  assert (Es : map snd sticky = List.filter (fun id => bool_decide (id ∈ selectorIds s)) l).
  { unfold sticky. rewrite stickyOf_snd. by rewrite (listOf_group s _ l El). }
  assert (Hn : NoDup (map snd sticky)) by (rewrite Es; apply filter_nodup; by destruct (so_once s W _ l El)).
  assert (Hs : forall id, id ∈ map snd sticky -> id ∈ l) by (rewrite Es; by intros id [H _]%filter_elem).
  pose proof (clearGroup_ok (sgId g) sticky (sgOptions g) s l W El Hn Hs) as Hc. clearbody sticky.
  destruct (clearGroup ok afterStop settings (sgId g) sticky (sgOptions g) s) as [[c|] s0]; [|done]. destruct (Hc ltac:(done)) as [W0 (l0 & E0 & Hs0)].
  rewrite (listOf_group s0 _ l0 E0). fold (theOldRows s0 l0 sticky).
  assert (Hsink : forall old (indexed : bool), NoDup (map oeId old) -> (forall oe, oe ∈ old -> 0 <= oeId oe) ->
    let '(sk, s1) := fold_left (sinkAdd ok) (docProfiles doc) (newSink (sgId g) (if indexed then Some (newContentIndex old) else None), s0) in
    let '(sk, s1) := flush ok sk s1 in exists z, sinkOk ok (sgId g) s0 l0 old indexed z sk s1).
  { intros old indexed H1 H2. pose proof (sink_done ok (sgId g) s0 l0 old indexed W0 Hg E0 H1 H2 (docProfiles doc)) as H.
    destruct (fold_left _ _ _) as [sk s1]. destruct (flush ok sk s1) as [sk' s1']. destruct H as (z & _ & H & _). by exists z. }
  destruct (clCleared c).
  - assert (He : forall oe : OldEntry, oe ∈ [] -> 0 <= oeId oe) by (intros oe H; by apply elem_of_nil in H).
    specialize (Hsink [] false (NoDup_nil_2 (A := Z)) He). cbn [map]. destruct (fold_left _ _ _) as [sk s1].
    destruct (flush ok sk s1) as [sk' s1']. destruct Hsink as (z & H). pose proof (k_store _ _ _ _ _ _ _ _ _ H) as W1. pose proof (k_index _ _ _ _ _ _ _ _ _ H) as Hi.
    destruct (isNil _ && _); [done|]. destruct (skIndex sk') as [ix|]; [by destruct Hi|].
    pose proof (finishRefresh_ok (sgId g) (sgSort g) sticky (sgOptions g) (applyCleared sk' c) s1' W1) as Hf.
    destruct (finishRefresh _ _ _ _ _ _ _ _ _ _ s1') as [[o ev] s2]. by intros _.
  - fold (theOld s0 l0 sticky). set (old := theOld s0 l0 sticky) in *.
    specialize (Hsink old true (theOld_nodup (sgId g) s0 l0 sticky W0 E0) (fun oe H => proj1 (theOld_bounds s0 l0 sticky W0 oe H))).
    destruct (fold_left _ _ _) as [sk s1]. destruct (flush ok sk s1) as [sk' s1']. destruct Hsink as (z & H). pose proof (k_store _ _ _ _ _ _ _ _ _ H) as W1.
    destruct (isNil _ && _); [done|]. pose proof (k_index _ _ _ _ _ _ _ _ _ H) as Hi. destruct (skIndex sk') as [ix|] eqn:Ei; [|done].
    set (working := if keep_working (sgOptions g) then _ else _). clearbody working.
    pose proof (applyPlan_ok (sgId g) s0 l0 sticky W0 E0 Hn Hs0 z sk' s1' ix working c H Ei) as Hp. unfold old.
    destruct (applyPlan _ _ _ _ _ _ _ _ _ _ s1') as [a s2].
    pose proof (finishRefresh_ok (sgId g) (sgSort g) sticky (sgOptions g) a s2) as Hf.
    pose proof (finishRefresh_failed (sgId g) (sgSort g) sticky (sgOptions g) a s2) as Hx.
    destruct (finishRefresh _ _ _ _ _ _ _ _ _ a s2) as [[o ev] s3]. cbn [fst snd] in *. intros Hfail. by apply Hf, Hp, Hx.
Qed.

End Facts.
