(* ===== verification/RefreshListing.v ===== *)
(** After a refresh the group lists what the document holds. *)
From stdpp Require Import base list gmap strings sorting.
From Stdlib Require Import ZArith Lia Bool.
From S2P Require Import Prelude StableSort ProfileStore ProfileStoreFacts GroupSort GroupSortFacts Reconcile Refresh RefreshSink RefreshSafety.

Section Facts.
Context {O : Outbounds} {D : Doubles} {Q : QtChar} {DOk : DoublesOk D}.

(** What a profile's settings digest to. *)
Definition contentOf (s : Store) (id : Z) : option digest := (fun r => contentDigest (rwOutbound r)) <$> GetProfile s id.

(** ** Updates in place *)

(** Each old row takes the outbound of its new row; the others stay. *)
Lemma applyUpdates_rows ps s : NoDup (map fst ps) -> (forall n, n ∈ map snd ps -> n ∉ map fst ps) ->
  (forall o n, (o, n) ∈ ps -> 0 <= o /\ o ∉ stTombstones s /\ (exists r, stRows s !! o = Some r) /\ exists r, stRows s !! n = Some r) ->
  let s' := fold_left applyUpdate ps s in
  (forall id, id ∉ map fst ps -> stRows s' !! id = stRows s !! id) /\
  (forall o n, (o, n) ∈ ps -> contentOf s' o = contentOf s n).
Proof.
  cbv zeta. revert s. induction ps as [|[o n] ps IH]; intros s Hn Hd Hp; [split; [done|]; by intros o n ?%elem_of_nil|].
  cbn [map fst snd fold_left] in *. apply NoDup_cons in Hn as [Ho Hn]. destruct (Hp o n ltac:(by left)) as (Hpos & Ht & (ro & Eo) & (rn & En)).
  set (s1 := applyUpdate s (o, n)).
  assert (E1 : s1 = sRows (<[o := rOutbound (rwOutbound rn) o (outboundName (rwOutbound rn)) ro]> (stRows s)) s).
  { unfold s1, applyUpdate, GetProfile. cbn [fst snd]. rewrite Eo, En. unfold SaveProfile. rewrite (proj2 (Z.ltb_ge o 0)) by lia. by rewrite bool_decide_eq_false_2. }
  assert (Hne : forall n', n' ∈ map snd ps -> n' <> o) by (intros n' H ->; apply (Hd o); [by right|by left]).
  assert (Hon : n <> o) by (intros ->; apply (Hd o); by left).
  destruct (IH s1 Hn) as [H1 H2].
  - intros n' H. assert (H' : n' ∉ o :: map fst ps) by (apply Hd; by right). by apply not_elem_of_cons in H' as [_ H'].
  - intros o' n' H. destruct (Hp o' n' ltac:(by right)) as (P1 & P2 & P3 & P4). rewrite E1. cbn [stTombstones stRows sRows].
    assert (o' <> o) by (intros ->; apply Ho, list_elem_of_fmap; by exists (o, n')).
    assert (n' <> o) by (apply Hne, list_elem_of_fmap; by exists (o', n')). rewrite !lookup_insert_ne by done. done.
  - split.
    + intros id Hid. apply not_elem_of_cons in Hid as [Hid Hid']. rewrite H1 by done. rewrite E1. cbn [stRows sRows]. by rewrite lookup_insert_ne.
    + intros o' n' [[= -> ->]|H]%elem_of_cons.
      * unfold contentOf, GetProfile. rewrite H1 by done. rewrite E1. cbn [stRows sRows]. by rewrite lookup_insert_eq, En.
      * rewrite (H2 o' n' H). unfold contentOf, GetProfile. rewrite E1. cbn [stRows sRows].
        rewrite lookup_insert_ne; [done|]. intros ->. apply (Hne n'); [apply list_elem_of_fmap; by exists (o', n')|done].
Qed.

Lemma membersOf_sticky sticky l : (forall id, id ∈ l -> id ∉ map snd sticky) -> membersOf sticky (withSticky sticky l) = l.
Proof.
  intros H. unfold withSticky. enough (E : forall st l, (forall x, x ∈ st -> x ∈ sticky) -> membersOf sticky (fold_left (fun l x => insertAt (Nat.min (fst x) (length l)) (snd x) l) st l) = membersOf sticky l).
  - rewrite (E sticky l (fun x Hx => Hx)). unfold membersOf. clear E. induction l as [|id l IH]; [done|]. cbn [List.filter]. rewrite bool_decide_eq_false_2 by (apply H; by left).
    cbn [negb]. rewrite IH; [done|]. intros x Hx. apply H. by right.
  - clear. induction st as [|x st IH]; intros l Hs; [done|]. cbn [fold_left]. rewrite IH by (intros y Hy; apply Hs; by right).
    unfold membersOf, insertAt. set (n := Nat.min (fst x) (length l)). rewrite <- (take_drop n l) at 3. rewrite !List.filter_app. f_equal. cbn [List.filter].
    rewrite bool_decide_eq_true_2; [done|]. apply list_elem_of_fmap. exists x. split; [done|]. apply Hs. by left.
Qed.

Lemma filter_none {A} (f : A -> bool) l : (forall x, x ∈ l -> f x = false) -> List.filter f l = [].
Proof. induction l as [|x l IH]; intros H; [done|]. cbn [List.filter]. rewrite H by by left. apply IH. intros y Hy. apply H. by right. Qed.

Lemma filter_full {A} (f : A -> bool) l : (forall x, x ∈ l -> f x = true) -> List.filter f l = l.
Proof. induction l as [|x l IH]; intros H; [done|]. cbn [List.filter]. rewrite H by by left. f_equal. apply IH. intros y Hy. apply H. by right. Qed.

(** ** The plan's order is the document's *)

Section Plan.
Context (ok : nat -> bool) (gid : Z) (s0 : Store) (l0 : list Z) (sticky : list (nat * Z)).
Hypothesis W0 : storeOk s0.
Hypothesis T0 : tombsOk s0.
Hypothesis group_there : stGroups s0 !! gid = Some l0.
Hypothesis sticky_nodup : NoDup (map snd sticky).
Hypothesis sticky_sub : forall id, id ∈ map snd sticky -> id ∈ l0.
Hypothesis all_ok : forall n, ok n = true.

Notation old := (theOld s0 l0 sticky).

Lemma old_content oe : oe ∈ old -> contentOf s0 (oeId oe) = Some (oeContent oe).
Proof.
  intros H. apply list_elem_of_fmap in H as ([id r] & -> & H). apply GetProfileBatch_elem in H as [_ H]. unfold contentOf, GetProfile. cbn. by rewrite H.
Qed.

(** The plan's updates: old rows that no arrival claimed take over new rows. *)
Lemma updates_apply z sk s ix : sinkOk ok gid s0 l0 old true z sk s -> skIndex sk = Some ix ->
  let ps := pgUpdates (thePairing old (skEntries sk) ix) in
  let s2 := fold_left applyUpdate ps s in
  (forall id, id ∈ map fst ps -> id <= stLastId s0 /\ id ∉ reusedIds (map snd z)) /\
  (forall id, id ∉ map fst ps -> contentOf s2 id = contentOf s id) /\
  (forall o n, (o, n) ∈ ps -> contentOf s2 o = contentOf s n).
Proof.
  intros Hz Ei. pose proof (theOld_nodup gid s0 l0 sticky W0 group_there) as Hon. pose proof (theOld_bounds s0 l0 sticky W0) as Hob.
  pose proof (sink_incoming ok gid s0 l0 old true Hon z sk s ix Hz Ei (fun oe H => proj2 (Hob oe H))) as Hin. cbv zeta.
  destruct (thePairing_ok old (skEntries sk) ix Hin) as [_ _ _ E F G]. set (ps := pgUpdates _) in *.
  destruct Hz as [K1 K2 K3 K4 K5 K6 Ks K7 K8 K9 K10 K11 K12 K13 K14 K15 K16 K17].
  assert (Hpairs : forall o n, (o, n) ∈ ps -> exists oe ent e, oe ∈ old /\ oeId oe = o /\ (ent, e) ∈ z /\ neId e = n /\ isFresh e = true /\ isLeftover ix oe = true).
  { intros o n H. destruct (G o n H) as (oe & ne & H1 & H2 & H3 & H4 & H5 & H6 & _). rewrite K9 in H2.
    apply list_elem_of_fmap in H2 as ([ent e] & -> & H2). by exists oe, ent, e. }
  assert (Hold : forall id, id ∈ map fst ps -> id <= stLastId s0 /\ id ∉ reusedIds (map snd z)).
  { intros id ([o n] & -> & H)%list_elem_of_fmap. destruct (Hpairs o n H) as (oe & _ & _ & H1 & <- & _ & _ & _ & Hleft). split; [by apply Hob|].
    unfold isLeftover in Hleft. apply negb_true_iff, orb_false_iff in Hleft as [Hleft _]. unfold isClaimed in Hleft. apply bool_decide_eq_false in Hleft.
    intros Hr. apply Hleft, (ik_claimed _ _ _ Hin). by rewrite K9. }
  destruct (applyUpdates_rows ps s E) as [U1 U2].
  - intros n Hn Hf. apply Hold in Hf as [Hf _]. apply list_elem_of_fmap in Hn as ([o n'] & -> & H). destruct (Hpairs o n' H) as (_ & ent & e & _ & _ & He & <- & Hfr & _).
    destruct (K13 ent e He Hfr) as [Hlt _]. cbn in Hf. lia.
  - intros o n H. destruct (Hpairs o n H) as (oe & ent & e & H1 & <- & He & <- & Hfr & _). destruct (Hob oe H1) as [Hp Hl]. split; [done|].
    assert (Hid : oeId oe ∈ map oeId old) by (apply list_elem_of_fmap; by exists oe). apply theOld_elem in Hid as (_ & _ & r & Hr).
    rewrite K6. split; [intros Ht; destruct (T0 _ Ht); congruence|]. split; [exists r; by rewrite K7|].
    destruct (K13 ent e He Hfr) as (_ & _ & Hs). eexists. by apply Hs.
  - split; [done|]. split; [|done]. intros id Hid. unfold contentOf, GetProfile. by rewrite U1.
Qed.

(** Once nothing waits, every entry is reused or new. *)
Lemma all_entries z sk s ent e : sinkOk ok gid s0 l0 old true z sk s -> waiting z = [] -> (ent, e) ∈ z ->
  isStored e = true /\ (neReused e = false -> isFresh e = true) /\ (neReused e = true -> isReused e = true).
Proof.
  intros Hz Hw He. assert (Hi : isStored e = true).
  { unfold isStored. apply negb_true_iff. destruct (neReused e) eqn:Er.
    - apply Z.ltb_ge. destruct (k_class _ _ _ _ _ _ _ _ _ Hz ent e He Er) as (oe & Hoe & <- & _). by apply (theOld_bounds s0 l0 sticky W0).
    - destruct (neId e <? 0) eqn:En; [|done]. exfalso. apply (not_elem_of_nil (A := Row * NewEntry) (ent, e)). rewrite <- Hw. unfold waiting. apply filter_elem.
      split; [done|]. unfold isPending. cbn. by rewrite En, Er. }
  split; [done|]. unfold isStored in Hi. unfold isFresh, isReused. rewrite Hi. split; intros ->; done.
Qed.

(** Every arrival's settings are in its row once the updates are applied. *)
Lemma arrivals_placed z sk s ix : sinkOk ok gid s0 l0 old true z sk s -> waiting z = [] -> skIndex sk = Some ix ->
  let plan := Reconcile old (skEntries sk) ix in
  let s2 := fold_left applyUpdate (updates plan) s in
  map (contentOf s2) (order plan) = map (fun ent => Some (contentDigest (rwOutbound ent))) (map fst z).
Proof.
  intros Hz Hw Ei plan. destruct (updates_apply z sk s ix Hz Ei) as (Hold & U1 & U2).
  pose proof (theOld_nodup gid s0 l0 sticky W0 group_there) as Hon. pose proof (theOld_bounds s0 l0 sticky W0) as Hob.
  pose proof (sink_incoming ok gid s0 l0 old true Hon z sk s ix Hz Ei (fun oe H => proj2 (Hob oe H))) as Hin.
  pose proof (pk_superseded _ _ _ _ (thePairing_ok old (skEntries sk) ix Hin)) as Hsup.
  set (g := thePairing old (skEntries sk) ix) in *. cbv zeta.
  assert (Eupd : updates plan = pgUpdates g) by exact (proj2 (proj2 (placed_all (pgSupersededBy g) (skEntries sk) (mkReconcile _ (pgUpdates g) _ _ _ _)))).
  assert (Eorder : order plan = map (placedId (pgSupersededBy g)) (List.filter isStored (skEntries sk))) by exact (proj1 (placed_all (pgSupersededBy g) (skEntries sk) (mkReconcile [] _ _ _ _ _))).
  rewrite Eupd. set (s2 := fold_left applyUpdate (pgUpdates g) s) in *.
  assert (Hst : List.filter isStored (map snd z) = map snd z).
  { apply filter_full. intros e ([ent e'] & -> & He)%list_elem_of_fmap. by apply (all_entries z sk s ent). }
  rewrite Eorder, (k_entries _ _ _ _ _ _ _ _ _ Hz), Hst, !map_map. apply map_ext_in. intros [ent e] He%list_elem_of_In. cbn [snd fst].
  destruct (all_entries z sk s ent e Hz Hw He) as (_ & Hfr & Hre). destruct (k_keyed _ _ _ _ _ _ _ _ _ Hz eq_refl ent e He) as (Hkey & _).
  unfold placedId. destruct (neReused e) eqn:Er.
  - destruct (k_class _ _ _ _ _ _ _ _ _ Hz ent e He Er) as (oe & Hoe & Eid & Ect).
    rewrite U1 by (intros Hid; apply (proj2 (Hold _ Hid)); unfold reusedIds; apply list_elem_of_fmap; exists e; split; [done|];
      apply filter_elem; split; [apply list_elem_of_fmap; by exists (ent, e)|by apply Hre]).
    unfold contentOf, GetProfile. rewrite (k_rows _ _ _ _ _ _ _ _ _ Hz) by (rewrite <- Eid; by apply Hob). rewrite <- Hkey, <- Ect, <- Eid. by apply old_content.
  - destruct (k_stored _ _ _ _ _ _ _ _ _ Hz ent e He (Hfr eq_refl)) as (Hlt & _ & Hs). specialize (Hs all_ok).
    assert (Hnew : contentOf s (neId e) = Some (contentDigest (rwOutbound ent))) by (unfold contentOf, GetProfile; by rewrite Hs).
    destruct (pgSupersededBy g !! neId e) as [o|] eqn:Es; cbn [default]; [apply Hsup in Es; rewrite <- Hnew; by apply U2|].
    rewrite U1; [exact Hnew|]. intros H%Hold. cbn in H. lia.
Qed.

End Plan.

(** ** The whole refresh *)

Section Whole.
Context (ok : nat -> bool) (afterStop : Z -> Z) (isValid : Z * Row -> option bool) (settings : RefreshSettings) (columns : SortColumns).

Lemma deleteProfiles_all ids s : (forall n, ok n = true) -> allow_stopping_active_profile settings = true \/ stStarted s ∉ ids ->
  let '(o, s') := deleteProfiles ok afterStop settings ids s in doOk o = true /\ doDeleted o = ids /\ doKept o = [].
Proof.
  intros Hok Hs. assert (Hd : forall s, let '(done_, ids', _) := deleteListed ok ids s in done_ = true /\ ids' = ids).
  { intros s1. unfold deleteListed. destruct ids as [|i ids']; [done|]. unfold deleteRows. by rewrite Hok. }
  assert (Hk : List.filter (fun id => negb (bool_decide (id ∈ ids))) (remove_dups ids) = []).
  { apply filter_none. intros id Hid. rewrite elem_of_remove_dups in Hid. by rewrite bool_decide_eq_true_2. }
  unfold deleteProfiles, BatchDeleteProfiles. cbv zeta. destruct (bool_decide (stStarted s ∈ ids)) eqn:Es.
  - destruct Hs as [->|Hs]; [|by apply bool_decide_eq_true in Es].
    specialize (Hd (sStopped (afterStop (stStarted s)) (stStarted s) s)). destruct (deleteListed ok ids _) as [[done_ ids'] s']. destruct Hd as [-> ->].
    cbn [doOk doDeleted doKept]. by rewrite Hk.
  - specialize (Hd s). destruct (deleteListed ok ids s) as [[done_ ids'] s']. destruct Hd as [-> ->]. cbn [doOk doDeleted doKept]. by rewrite Hk.
Qed.

(** A refresh that only applies the document: nothing of the group is cleared,
    kept, flagged or sorted, the writes go through and the running profile may go. *)
Record plainRefresh (g : SubscribedGroup) (url : qstr) (doc : Document) (s : Store) (l : list Z) : Prop := {
  pr_ok : forall n, ok n = true;
  pr_url : eqStr (trimmed (sgUrl g)) url = true;
  pr_some : docProfiles doc <> [];
  pr_complete : docComplete doc = true;
  pr_clear : sub_clear settings = false;
  pr_working : keep_working (sgOptions g) = false;
  pr_duplicates : remove_duplicates (sgOptions g) = false;
  pr_insecure : remove_insecure (sgOptions g) = false;
  pr_invalid : remove_invalid (sgOptions g) = false;
  pr_unsorted : KeepsSorted (sgSort g) = false;
  pr_running : allow_stopping_active_profile settings = true \/ (stStarted s ∉ l /\ stStarted s <= stLastId s)
}.

Lemma finishRefresh_plain gid sort sticky options a s : remove_duplicates options = false -> remove_insecure options = false -> remove_invalid options = false ->
  KeepsSorted sort = false -> let '(o, _, s') := finishRefresh ok afterStop isValid settings columns gid sort sticky options a s in
  s' = setListed gid (listOf s gid) s /\ failure o = (if apDeleteFailed a then Database else failure (apOutcome a)) /\
  nAdded o = nAdded (apOutcome a) /\ nUpdated o = nUpdated (apOutcome a) /\ nRemoved o = nRemoved (apOutcome a).
Proof.
  intros H1 H2 H3 H4. unfold finishRefresh, removeFlagged. rewrite H1, H2, H3. cbn [negb andb nothingDeleted doKept doOk doDeleted doStopped].
  split; [|cbn [failure nAdded nUpdated nRemoved]; change (zlen []) with 0; by rewrite orb_false_r, Z.add_0_r].
  unfold resortGroup. rewrite Resort_quiet. cbn [ssSort]. by rewrite H4.
Qed.

Lemma setListed_same gid l s : stGroups s !! gid = Some l -> forall id, GetProfile (setListed gid l s) id = GetProfile s id.
Proof. intros E id. unfold GetProfile. by destruct (setListed_rest gid l s) as (-> & _). Qed.

(** The diff of a plain refresh, applied. *)
Lemma applyPlan_lists gid s0 l0 sticky z sk s ix c : storeOk s0 -> tombsOk s0 -> stGroups s0 !! gid = Some l0 -> NoDup (map snd sticky) ->
  (forall id, id ∈ map snd sticky -> id ∈ l0) -> (forall n, ok n = true) ->
  allow_stopping_active_profile settings = true \/ (stStarted s0 ∉ l0 /\ stStarted s0 <= stLastId s0) ->
  sinkOk ok gid s0 l0 (theOld s0 l0 sticky) true z sk s -> waiting z = [] -> skIndex sk = Some ix ->
  let plan := Reconcile (theOld s0 l0 sticky) (skEntries sk) ix in
  let '(a, s') := applyPlan ok afterStop settings gid sticky (theOld s0 l0 sticky) [] (skEntries sk) ix c s in
  apDeleteFailed a = false /\ failure (apOutcome a) = NoFailure /\
  stGroups s' !! gid = Some (withSticky sticky (order plan)) /\
  (forall id, id ∈ order plan -> GetProfile s' id = GetProfile (fold_left applyUpdate (updates plan) s) id) /\
  (forall id, id ∈ map oeId (theOld s0 l0 sticky) -> id ∉ order plan -> GetProfile s' id = None) /\
  forall id r, GetProfile s' id = Some r -> exists r0, stRows s !! id = Some r0.
Proof.
  intros W0 T0 E0 Hn Hs Hok Hrun Hz Hw Ei plan.
  destruct (plan_ids ok gid s0 l0 sticky W0 E0 Hs z sk s ix Hz Ei) as (Hnd & Hmem & Hl). fold plan in Hnd, Hmem, Hl.
  apply NoDup_app in Hnd as (No & Hdisj & _). unfold applyPlan. cbv zeta. fold plan.
  assert (Hst : List.filter (fun id => negb (bool_decide (id ∈ []))) (stale plan) = stale plan).
  { apply filter_full. intros id _. apply negb_true_iff, bool_decide_eq_false, not_elem_of_nil. }
  assert (Hkw : List.filter (fun id => bool_decide (id ∈ [])) (stale plan) = []).
  { apply filter_none. intros id _. apply bool_decide_eq_false, not_elem_of_nil. }
  rewrite Hst, Hkw. pose proof (applyUpdates_shape (updates plan) s) as Hsh.
  assert (Hstarted : stStarted (fold_left applyUpdate (updates plan) s) = stStarted s0).
  { rewrite <- (k_started _ _ _ _ _ _ _ _ _ Hz). clear. generalize (updates plan) as ps. intros ps. revert s. induction ps as [|p ps IH]; intros s; [done|].
    cbn [fold_left]. rewrite IH. unfold applyUpdate, SaveProfile. destruct (GetProfile s (fst p)), (GetProfile s (snd p)); try done. by destruct (_ || _). }
  set (s2 := fold_left applyUpdate (updates plan) s) in *. clearbody s2.
  assert (El : stGroups s2 !! gid = Some (l0 ++ skAdded sk)) by (rewrite (ss_groups _ _ Hsh), (k_groups _ _ _ _ _ _ _ _ _ Hz); by rewrite lookup_insert_eq).
  set (new := withSticky sticky (order plan)). destruct (setListed_rest gid new s2) as (R1 & _ & _ & R4).
  pose proof (deleteProfiles_spec ok afterStop settings (stale plan) (setListed gid new s2)) as Hdel.
  assert (Hstop : allow_stopping_active_profile settings = true \/ stStarted (setListed gid new s2) ∉ stale plan).
  { destruct Hrun as [?|[Hr Hb]]; [by left|]. right. rewrite R4, Hstarted. intros H. destruct (Hl (stStarted s0)) as [H' _]; [by right|].
    apply elem_of_app in H' as [H'|H']; [done|]. rewrite (k_added _ _ _ _ _ _ _ _ _ Hz), seqZ_bounds in H'. lia. }
  pose proof (deleteProfiles_all (stale plan) (setListed gid new s2) Hok Hstop) as Hall.
  destruct (deleteProfiles ok afterStop settings (stale plan) (setListed gid new s2)) as [o s4]. destruct Hall as (A1 & A2 & A3).
  destruct Hdel as [_ Hdel]. rewrite A1, A2 in Hdel. destruct Hdel as [Drows [cleaned Dgroups] _ _]. rewrite R1 in Drows. rewrite A1, A3.
  assert (E4 : stGroups s4 !! gid = Some new).
  { rewrite Dgroups, (setListed_groups gid (l0 ++ skAdded sk)) by done. rewrite decide_True by done. cbn. f_equal. destruct (cleaned gid); [|done].
    apply filter_full. intros id Hid. apply negb_true_iff, bool_decide_eq_false. intros Hx. unfold new in Hid. rewrite withSticky_perm, elem_of_app in Hid.
    destruct Hid as [Hid|Hid]; [by destruct (Hl id (or_intror Hx))|by apply (Hdisj id)]. }
  rewrite (listOf_group s4 gid new E4). cbn [app fold_left apDeleteFailed apOutcome failure negb]. destruct (setListed_rest gid new s4) as (F1 & _).
  split; [done|]. split; [done|]. split; [rewrite (setListed_groups gid new) by done; by rewrite decide_True|]. unfold GetProfile. rewrite F1. split; [|split].
  - intros id Hid. apply option_eq. intros r. rewrite Drows. split; [tauto|]. intros H. split; [done|]. intros Hx. by apply (Hdisj id).
  - intros id Ho Hno. destruct (stRows s4 !! id) as [r|] eqn:Er; [|done]. apply Drows in Er as [_ Hx]. destruct Hx.
    assert (H : id ∈ order plan \/ id ∈ stale plan) by (apply Hmem; by left). tauto.
  - intros id r [H _]%Drows. destruct (sameShape_row _ _ _ _ Hsh H) as (r0 & H0 & _). by exists r0.
Qed.

(** C10: A refresh that only applies the document leaves the group listing, apart
    from its selectors, one profile for each profile of the document, in the
    document's order and with its settings; the selectors stay listed and the old
    profiles that are not listed any more are deleted. *)
Theorem refresh_lists_document g url doc s l : storeOk s -> tombsOk s -> 0 <= sgId g -> GetGroup s (sgId g) = Some l -> plainRefresh g url doc s l ->
  let '(outcome, updated, _, s') := applyRefresh ok afterStop isValid settings columns g url doc s in
  let sticky := stickyOf (selectorIds s) l in
  failure outcome = NoFailure /\ updated = true /\
  map (contentOf s') (membersOf sticky (listOf s' (sgId g))) = map (fun ent => Some (contentDigest (rwOutbound ent))) (docProfiles doc) /\
  (forall id, id ∈ l -> id ∈ selectorIds s -> id ∈ listOf s' (sgId g)) /\
  forall id, id ∈ l -> id ∉ listOf s' (sgId g) -> GetProfile s' id = None.
Proof.
  intros W T Hg El [P1 P2 P3 P4 P5 P6 P7 P8 P9 P10 P11]. unfold applyRefresh. cbv zeta. rewrite P2, P4, P6. cbn [negb].
  rewrite isNil_false by done. rewrite (listOf_group s _ l El). set (sticky := stickyOf (selectorIds s) l).
  assert (Es : map snd sticky = List.filter (fun id => bool_decide (id ∈ selectorIds s)) l) by apply stickyOf_snd.
  assert (Hn : NoDup (map snd sticky)) by (rewrite Es; apply filter_nodup; by destruct (so_once s W _ l El)).
  assert (Hs : forall id, id ∈ map snd sticky -> id ∈ l) by (rewrite Es; by intros id [H _]%filter_elem).
  assert (Hsel : forall id, id ∈ l -> id ∈ selectorIds s -> id ∈ map snd sticky).
  { intros id H1 H2. rewrite Es. apply filter_elem. split; [done|]. by apply bool_decide_eq_true. }
  clearbody sticky. unfold clearGroup. rewrite P5. cbn [clCleared]. rewrite (listOf_group s _ l El). fold (theOldRows s l sticky). fold (theOld s l sticky).
  pose proof (theOld_nodup (sgId g) s l sticky W El) as Hon. pose proof (theOld_bounds s l sticky W) as Hob.
  pose proof (sink_done ok (sgId g) s l (theOld s l sticky) true W Hg El Hon (fun oe H => proj1 (Hob oe H)) (docProfiles doc)) as Hsink.
  destruct (fold_left _ _ _) as [sk s1]. destruct (flush ok sk s1) as [sk' s1']. destruct Hsink as (z & Ez & H & Hw).
  assert (Hne : isNil (skEntries sk') = false).
  { apply isNil_false. rewrite (k_entries _ _ _ _ _ _ _ _ _ H). intros E. apply P3. rewrite <- Ez. by destruct z. }
  rewrite Hne. cbn [andb]. pose proof (k_index _ _ _ _ _ _ _ _ _ H) as Hi. destruct (skIndex sk') as [ix|] eqn:Ei; [|done].
  pose proof (applyPlan_lists (sgId g) s l sticky z sk' s1' ix (mkCleared [] None 0 false) W T El Hn Hs P1 P11 H Hw Ei) as Hp.
  pose proof (arrivals_placed ok (sgId g) s l sticky W T El P1 z sk' s1' ix H Hw Ei) as Hc. cbv zeta in Hp, Hc.
  destruct (plan_ids ok (sgId g) s l sticky W El Hs z sk' s1' ix H Ei) as (_ & Hmem & Hl).
  set (plan := Reconcile (theOld s l sticky) (skEntries sk') ix) in *.
  destruct (applyPlan _ _ _ _ _ _ _ _ _ _ s1') as [a s2]. destruct Hp as (A1 & A2 & A3 & A4 & A5 & A6).
  pose proof (finishRefresh_plain (sgId g) (sgSort g) sticky (sgOptions g) a s2 P7 P8 P9 P10) as Hf.
  destruct (finishRefresh _ _ _ _ _ _ _ _ _ a s2) as [[o ev] s3]. destruct Hf as (-> & Ef & _). rewrite A1, A2 in Ef. split; [done|]. split; [done|].
  rewrite (listOf_group s2 _ _ A3). set (final := withSticky sticky (order plan)) in *.
  assert (E3 : stGroups (setListed (sgId g) final s2) !! sgId g = Some final) by (rewrite (setListed_groups (sgId g) final) by done; by rewrite decide_True).
  rewrite (listOf_group _ _ _ E3). pose proof (setListed_same (sgId g) final s2 A3) as Hget.
  assert (Hfin : forall id, id ∈ final <-> id ∈ map snd sticky \/ id ∈ order plan) by (intros id; unfold final; by rewrite withSticky_perm, elem_of_app).
  split; [|split].
  - unfold final. rewrite membersOf_sticky by (intros id Hid; apply (Hl id); by left). rewrite <- Ez, <- Hc. apply map_ext_in. intros id Hid%list_elem_of_In.
    unfold contentOf. by rewrite Hget, A4.
  - intros id H1 H2. apply Hfin. left. by apply Hsel.
  - intros id H1 H2. rewrite Hget. destruct (GetProfile s id) as [r|] eqn:Er.
    + apply A5; [|intros Hx; apply H2, Hfin; by right]. apply theOld_elem. split; [done|]. split; [intros Hx; apply H2, Hfin; by left|]. by exists r.
    + destruct (GetProfile s2 id) as [r|] eqn:E2; [|done]. apply A6 in E2 as (r0 & E2). rewrite (k_rows _ _ _ _ _ _ _ _ _ H) in E2; [unfold GetProfile in Er; congruence|].
      destruct (so_once s W _ l El) as [_ F]. rewrite Forall_forall in F. specialize (F id H1). cbn in F. lia.
Qed.

(** C30: A refresh either applies a complete document with at least one profile that
    was downloaded from the group's own url, or it says why not and leaves every
    row and every listing as it was. *)
Theorem refresh_all_or_nothing g url doc s l : storeOk s -> 0 <= sgId g -> GetGroup s (sgId g) = Some l ->
  let '(outcome, applied, events, s') := applyRefresh ok afterStop isValid settings columns g url doc s in
  (applied = true -> eqStr (trimmed (sgUrl g)) url = true /\ docProfiles doc <> [] /\ docComplete doc = true /\
     exists disturbed, SubscriptionGroupChanged (sgId g) disturbed ∈ events) /\
  (applied = false -> stRows s' = stRows s /\ stGroups s' = stGroups s /\ failure outcome <> NoFailure /\
     forall gid disturbed, SubscriptionGroupChanged gid disturbed ∉ events).
Proof.
  intros W Hg El. unfold applyRefresh. cbv zeta.
  assert (Hev : forall gid disturbed, SubscriptionGroupChanged gid disturbed ∉ [SubscriptionFinished (-1)]) by (intros gid ds H; by apply list_elem_of_singleton in H).
  assert (Hnil : forall gid disturbed, SubscriptionGroupChanged gid disturbed ∉ []) by (intros gid ds; apply not_elem_of_nil).
  destruct (eqStr (trimmed (sgUrl g)) url) eqn:Eu; cbn [negb]; [|by split].
  destruct (isNil (docProfiles doc)) eqn:En; [by split|]. destruct (docComplete doc) eqn:Ed; cbn [negb]; [|by split].
  assert (Hne : docProfiles doc <> []) by (intros E; by rewrite E in En).
  set (sticky := stickyOf (selectorIds s) (listOf s (sgId g))).
  assert (Es : map snd sticky = List.filter (fun id => bool_decide (id ∈ selectorIds s)) l) by (unfold sticky; rewrite stickyOf_snd; by rewrite (listOf_group s _ l El)).
  assert (Hn : NoDup (map snd sticky)) by (rewrite Es; apply filter_nodup; by destruct (so_once s W _ l El)).
  assert (Hs : forall id, id ∈ map snd sticky -> id ∈ l) by (rewrite Es; by intros id [H _]%filter_elem).
  pose proof (clearGroup_ok ok afterStop settings (sgId g) sticky (sgOptions g) s l W El Hn Hs) as Hc. clearbody sticky.
  destruct (clearGroup ok afterStop settings (sgId g) sticky (sgOptions g) s) as [[c|] s0] eqn:Ec.
  - destruct (Hc ltac:(done)) as [W0 (l0 & E0 & Hs0)]. rewrite (listOf_group s0 _ l0 E0). fold (theOldRows s0 l0 sticky).
    set (oldRows := if clCleared c then [] else theOldRows s0 l0 sticky). set (old := map oldEntryOf oldRows).
    assert (Hold : NoDup (map oeId old) /\ forall oe, oe ∈ old -> 0 <= oeId oe).
    { unfold old, oldRows. destruct (clCleared c); [split; [constructor|by intros oe ?%elem_of_nil]|].
      split; [exact (theOld_nodup (sgId g) s0 l0 sticky W0 E0)|]. intros oe H. by apply (theOld_bounds s0 l0 sticky W0). }
    pose proof (sink_done ok (sgId g) s0 l0 old (negb (clCleared c)) W0 Hg E0 (proj1 Hold) (proj2 Hold) (docProfiles doc)) as Hsink.
    replace (if negb (clCleared c) then Some (newContentIndex old) else None) with (if clCleared c then None else Some (newContentIndex old)) in Hsink by (by destruct (clCleared c)).
    destruct (fold_left _ _ _) as [sk s1]. destruct (flush ok sk s1) as [sk' s1']. destruct Hsink as (z & Ez & H & _).
    assert (He : isNil (skEntries sk') = false).
    { apply isNil_false. rewrite (k_entries _ _ _ _ _ _ _ _ _ H). intros E. apply Hne. rewrite <- Ez. by destruct z. }
    rewrite He. cbn [andb]. destruct (match skIndex sk' with Some _ => _ | None => _ end) as [a s2]. unfold finishRefresh.
    destruct (removeFlagged _ _ _ _ _ _ _) as [flagged s3]. split; [|done]. intros _. split; [done|]. split; [done|]. split; [done|].
    eexists. apply elem_of_app. right. by left.
  - split; [done|]. intros _. unfold clearGroup in Ec. destruct (sub_clear settings); [|done]. cbv zeta in Ec.
    set (doomed := List.filter _ (membersOf _ _)) in Ec. pose proof (deleteProfiles_spec ok afterStop settings doomed s) as Hd.
    destruct (deleteProfiles ok afterStop settings doomed s) as [o s4]. destruct Hd as [_ Hd]. destruct (doOk o); [done|]. injection Ec as <-.
    destruct Hd as (-> & -> & _). done.
Qed.

End Whole.
End Facts.

(** ** A small subscription *)

(** Profiles alpha, beta, a selector and gamma; beta is served with new settings
    first, then alpha as it was and delta. *)
Definition servedStore : Store :=
  fold_left (fun s ev => storeStep (fun _ => true) (fun z => z) ev s)
    [SeAddGroup; SeAddBatch [named "alpha"; named "beta"; newProfile (u "autoselector") (u "fastest"); named "gamma"] 1] emptyStore.

Definition servedOptions : SubscriptionOptions := mkOptions false false false false false false false.
Definition servedGroup : SubscribedGroup := mkSubscribed 1 (u " https://a.example/s ") (mkAction Raw false) servedOptions.
Definition servedSettings : RefreshSettings := mkSettings false false false.
Definition servedDocument : Document := mkDocument [named "beta2"; named "alpha"; named "delta"] true.
Definition servedRefresh : UpdateOutcome * bool * list UpdateEvent * Store :=
  applyRefresh (fun _ => true) (fun z => z) (fun _ => None) servedSettings plainColumns servedGroup (u "https://a.example/s") servedDocument servedStore.

Lemma servedStore_ok : storeOk servedStore /\ tombsOk servedStore.
Proof. apply (storeReachable_ok (fun _ => true) (fun z => z)), folded_reachable; [constructor|by repeat constructor]. Qed.

Lemma refresh_lists_document_witness :
  GetGroup servedStore 1 = Some [1; 2; 3; 4] /\ listOf (snd servedRefresh) 1 = [2; 1; 3; 6] /\
  map (contentOf (snd servedRefresh)) (membersOf (stickyOf (selectorIds servedStore) [1; 2; 3; 4]) (listOf (snd servedRefresh) 1)) =
    [Some (u "beta2"); Some (u "alpha"); Some (u "delta")].
Proof.
  split; [vm_compute; reflexivity|]. split; [vm_compute; reflexivity|].
  pose proof (refresh_lists_document (fun _ => true) (fun z => z) (fun _ => None) servedSettings plainColumns servedGroup (u "https://a.example/s") servedDocument servedStore
    [1; 2; 3; 4] (proj1 servedStore_ok) (proj2 servedStore_ok) ltac:(cbn; lia) ltac:(vm_compute; reflexivity)) as H.
  assert (P : plainRefresh (fun _ => true) servedSettings servedGroup (u "https://a.example/s") servedDocument servedStore [1; 2; 3; 4]).
  { assert (Hr : stStarted servedStore ∉ [1; 2; 3; 4] /\ stStarted servedStore <= stLastId servedStore).
    { assert (Est : stStarted servedStore = -1919) by (vm_compute; reflexivity). rewrite Est.
      split; [intros Hx%list_elem_of_In; cbn in Hx; lia|vm_compute; discriminate]. }
    split; [reflexivity|vm_compute; reflexivity|discriminate|reflexivity..|right; exact Hr]. }
  specialize (H P). fold servedRefresh in H. destruct servedRefresh as [[[o b] ev] s']. destruct H as (_ & _ & H & _). exact H.
Defined.

Lemma refresh_all_or_nothing_witness :
  snd (fst (fst servedRefresh)) = true /\ exists disturbed, SubscriptionGroupChanged 1 disturbed ∈ snd (fst servedRefresh).
Proof.
  assert (E : snd (fst (fst servedRefresh)) = true) by (vm_compute; reflexivity). split; [exact E|].
  pose proof (refresh_all_or_nothing (fun _ => true) (fun z => z) (fun _ => None) servedSettings plainColumns servedGroup (u "https://a.example/s") servedDocument servedStore
    [1; 2; 3; 4] (proj1 servedStore_ok) ltac:(cbn; lia) ltac:(vm_compute; reflexivity)) as H.
  fold servedRefresh in H. destruct servedRefresh as [[[o b] ev] s']. cbn [fst snd] in *. destruct H as [H _]. destruct (H E) as (_ & _ & _ & H'). exact H'.
Defined.

Lemma refresh_orphans_none_witness :
  failure (fst (fst (fst servedRefresh))) = NoFailure /\ storeOk (snd servedRefresh).
Proof.
  assert (E : failure (fst (fst (fst servedRefresh))) = NoFailure) by (vm_compute; reflexivity). split; [exact E|].
  pose proof (refresh_orphans_none (fun _ => true) (fun z => z) (fun _ => None) servedSettings plainColumns servedGroup (u "https://a.example/s") servedDocument servedStore
    [1; 2; 3; 4] (proj1 servedStore_ok) ltac:(cbn; lia) ltac:(vm_compute; reflexivity)) as H.
  fold servedRefresh in H. destruct servedRefresh as [[[o b] ev] s']. cbn [fst snd] in *. apply H. rewrite E. discriminate.
Defined.
