(* ===== verification/Updater.v ===== *)
(** When subscriptions are refreshed, and the queue their jobs go through:
    GroupUpdater in src/src/configs/sub/GroupUpdater.cpp.

    Jobs run one at a time on a worker thread that lives while there is something
    to do.  [turn] is one atomic step: a caller's request while it holds the
    updater's mutex, what a caller does after letting it go, the worker's next
    stretch between two locks, or something its job does meanwhile.  Callbacks are
    numbers; [upCalls] are the calls made, in order.  A job is its group, its batch
    mark, its callback and whether it is SubscribeUrl's, which makes a group and
    refreshes it in the same run: what a run does is in Refresh and its result an
    argument ([Internal] when it throws). *)
From stdpp Require Import base list gmap strings.
From Stdlib Require Import ZArith Lia Bool.
From S2P Require Import Prelude Refresh.

(** ** When *)

(** What the schedule reads of a group. *)
Record Schedule := mkSchedule {
  scId : Z;
  scUrl : qstr;
  scArchive : bool;
  scSkipAutoUpdate : bool;
  scLastUpdate : Z;
  scServerInterval : Z;
  scProviderMinutes : Z;
  scIntervalFromProvider : bool;
  scRespectServer : option bool;
  scUpdateInterval : Z
}.

Inductive Source := off | global | ownGroup | server.

Record AutoUpdatePlan := mkPlan { interval : Z; source : Source }.

Record ScheduleSettings := mkScheduleSettings { sub_auto_update : Z; sub_respect_server_interval : bool }.

Section Schedules.
Context (settings : ScheduleSettings).

Definition ResolveAutoUpdate (g : Schedule) : AutoUpdatePlan :=
  if isNil (scUrl g) || scArchive g || scSkipAutoUpdate g || (sub_auto_update settings <? 30) then mkPlan 0 off
  else
    let respectServer := match scRespectServer g with Some b => b | None => scIntervalFromProvider g || sub_respect_server_interval settings end in
    let serverMinutes := if 0 <? scServerInterval g then scServerInterval g * 60 else if scIntervalFromProvider g then scProviderMinutes g else 0 in
    if respectServer && (0 <? serverMinutes) then mkPlan (serverMinutes * 60) server
    else if 0 <? scUpdateInterval g then mkPlan (Z.max (scUpdateInterval g) 30 * 60) ownGroup
    else if negb (scIntervalFromProvider g) && (0 <? scProviderMinutes g) then mkPlan (scProviderMinutes g * 60) ownGroup
    else mkPlan (sub_auto_update settings * 60) global.

(** The time of the last update or attempt, plus the interval; 0 when there was
    none. *)
Definition autoUpdateDue (attempts : gmap Z Z) (g : Schedule) (interval : Z) : Z :=
  let last := Z.max (scLastUpdate g) (default 0 (attempts !! scId g)) in
  if last <=? 0 then 0 else last + interval.

Definition isDue (attempts : gmap Z Z) (now : Z) (g : Schedule) : bool :=
  let plan := ResolveAutoUpdate g in negb ((interval plan <=? 0) || (now <? autoUpdateDue attempts g (interval plan))).

(** The groups refreshed, in tab order, and the attempts noted. *)
Fixpoint CheckAutoUpdate (groups : list Schedule) (now : Z) (attempts : gmap Z Z) : list Z * gmap Z Z :=
  match groups with
  | [] => ([], attempts)
  | g :: groups' =>
      if isDue attempts now g then
        let '(gids, attempts) := CheckAutoUpdate groups' now (<[scId g := now]> attempts) in (scId g :: gids, attempts)
      else CheckAutoUpdate groups' now attempts
  end.

Definition earlier (attempts : gmap Z Z) (next : Z) (g : Schedule) : Z :=
  let plan := ResolveAutoUpdate g in
  if interval plan <=? 0 then next
  else let due := autoUpdateDue attempts g (interval plan) in if (next <? 0) || (due <? next) then due else next.

Definition NextAutoUpdate (groups : list Schedule) (attempts : gmap Z Z) : Z := fold_left (earlier attempts) groups (-1).

Definition subscriptionDue (now : Z) (g : Schedule) : bool :=
  let minutes := if 0 <? scProviderMinutes g then scProviderMinutes g else sub_auto_update settings in
  (0 <? minutes) && (minutes * 60 <=? now - scLastUpdate g + 30).

(** The groups RefreshAll asks for. *)
Definition wanted (onlyAllowed : bool) (now : Z) (g : Schedule) : bool :=
  negb (isNil (scUrl g) || scArchive g || (onlyAllowed && (scSkipAutoUpdate g || negb (subscriptionDue now g)))).

End Schedules.

(** ** The queue *)

Record Job := mkJob { jobGid : Z; jobBatch : bool; jobSubscribe : bool; jobFinish : option nat }.

(** Where the worker thread is: about to take a job, in its run (with the group
    the run made), past it with the outcome, past the callback, or handing the
    outcome to those who waited. *)
Inductive Worker :=
| NoWorker
| Taking
| InRun (j : Job) (made : option Z)
| AtFinish (j : Job) (o : Failure)
| AtClear (j : Job) (o : Failure)
| Answering (waiting : list nat) (o : Failure).

Inductive Call := Finished (f : nat) | Answered (done_ : nat) (o : Failure).

(** [upLate] are the callbacks of callers who were turned away and have let go of
    the mutex, but have not called them yet. *)
Record Updater := mkUpdater {
  upQueue : list Job;
  upPending : gset Z;
  upWaiters : gmap Z (list nat);
  upPendingBatch : Z;
  upRunning : bool;
  upWorker : Worker;
  upLate : list nat;
  upCalls : list Call
}.

Definition newUpdater : Updater := mkUpdater [] ∅ ∅ 0 false NoWorker [] [].

Definition uWaiters v s := mkUpdater (upQueue s) (upPending s) v (upPendingBatch s) (upRunning s) (upWorker s) (upLate s) (upCalls s).
Definition uPending v s := mkUpdater (upQueue s) v (upWaiters s) (upPendingBatch s) (upRunning s) (upWorker s) (upLate s) (upCalls s).
Definition uBatch v s := mkUpdater (upQueue s) (upPending s) (upWaiters s) v (upRunning s) (upWorker s) (upLate s) (upCalls s).
Definition uWorker v s := mkUpdater (upQueue s) (upPending s) (upWaiters s) (upPendingBatch s) (upRunning s) v (upLate s) (upCalls s).
Definition uLate v s := mkUpdater (upQueue s) (upPending s) (upWaiters s) (upPendingBatch s) (upRunning s) (upWorker s) v (upCalls s).
Definition uCall c s := mkUpdater (upQueue s) (upPending s) (upWaiters s) (upPendingBatch s) (upRunning s) (upWorker s) (upLate s) (upCalls s ++ [c]).

(** runOnNewThread starts the worker when none runs. *)
Definition enqueueLocked (j : Job) (s : Updater) : Updater :=
  mkUpdater (upQueue s ++ [j]) (upPending s) (upWaiters s) (upPendingBatch s) true (if upRunning s then upWorker s else Taking) (upLate s) (upCalls s).

Definition callFinish (f : option nat) (s : Updater) : Updater := match f with Some f => uCall (Finished f) s | None => s end.

(** A group already pending: the mutex is let go and the callback comes later
    ([callLate]). *)
Definition RefreshGroup (gid : Z) (finish : option nat) (s : Updater) : Updater :=
  if bool_decide (gid ∈ upPending s) then uLate (upLate s ++ option_list finish) s
  else enqueueLocked (mkJob gid false false finish) (uPending ({[gid]} ∪ upPending s) s).

Definition RefreshWithOutcome (gid : Z) (done_ : option nat) (s : Updater) : Updater :=
  if gid <? 0 then match done_ with Some d => uCall (Answered d NoGroup) s | None => s end
  else
    let s := match done_ with Some d => uWaiters (<[gid := default [] (upWaiters s !! gid) ++ [d]]> (upWaiters s)) s | None => s end in
    if bool_decide (gid ∈ upPending s) then s
    else enqueueLocked (mkJob gid false false None) (uPending ({[gid]} ∪ upPending s) s).

Definition batchOne (s : Updater) (gid : Z) : Updater :=
  if bool_decide (gid ∈ upPending s) then s
  else enqueueLocked (mkJob gid true false None) (uBatch (upPendingBatch s + 1) (uPending ({[gid]} ∪ upPending s) s)).

Definition RefreshAll (gids : list Z) (s : Updater) : Updater :=
  if 0 <? upPendingBatch s then s else fold_left batchOne gids s.

Fixpoint takeOne (f : nat) (l : list nat) : option (list nat) :=
  match l with [] => None | g :: l' => if (f =? g)%nat then Some l' else option_map (cons g) (takeOne f l') end.

(** A caller who was turned away calls back. *)
Definition callLate (f : nat) (s : Updater) : Updater :=
  match takeOne f (upLate s) with Some late => uCall (Finished f) (uLate late s) | None => s end.

(** A job of no group: an import, a copy, or SubscribeUrl's. *)
Definition enqueue (subscribe : bool) (finish : option nat) (s : Updater) : Updater := enqueueLocked (mkJob (-1) false subscribe finish) s.

Definition SubscribeUrl (finish : option nat) (s : Updater) : Updater := enqueue true finish s.

(** No payloads, no job and no callback. *)
Definition ImportBatch (payloads : list qstr) (finish : option nat) (s : Updater) : Updater :=
  if isNil payloads then s else enqueue false finish s.

Definition IsBusy (gid : Z) (s : Updater) : bool := bool_decide (gid ∈ upPending s).

(** SubscribeUrl's run has made its group, which it goes on to refresh. *)
Definition groupMade (gid : Z) (s : Updater) : Updater :=
  match upWorker s with InRun j None => if jobSubscribe j then uWorker (InRun j (Some gid)) s else s | _ => s end.

Definition IsIdle (s : Updater) : bool := negb (upRunning s) && isNil (upQueue s).

(** drain: takes a job or ends, runs it, calls its callback, clears its marks
    with those who wait, and answers them. *)
Definition work (result : Failure) (s : Updater) : Updater :=
  match upWorker s with
  | NoWorker => s
  | Taking =>
      match upQueue s with
      | [] => mkUpdater [] (upPending s) (upWaiters s) (upPendingBatch s) false NoWorker (upLate s) (upCalls s)
      | j :: queue => mkUpdater queue (upPending s) (upWaiters s) (upPendingBatch s) (upRunning s) (InRun j None) (upLate s) (upCalls s)
      end
  | InRun j _ => uWorker (AtFinish j result) s
  | AtFinish j o => uWorker (AtClear j o) (callFinish (jobFinish j) s)
  | AtClear j o =>
      let batch := if jobBatch j then upPendingBatch s - 1 else upPendingBatch s in
      if 0 <=? jobGid j then
        mkUpdater (upQueue s) (upPending s ∖ {[jobGid j]}) (delete (jobGid j) (upWaiters s)) batch (upRunning s)
          (Answering (default [] (upWaiters s !! jobGid j)) o) (upLate s) (upCalls s)
      else mkUpdater (upQueue s) (upPending s) (upWaiters s) batch (upRunning s) (Answering [] o) (upLate s) (upCalls s)
  | Answering [] o => uWorker Taking s
  | Answering (d :: waiting) o => uWorker (Answering waiting o) (uCall (Answered d o) s)
  end.

Inductive UpdaterEvent :=
| AskRefresh (gid : Z) (finish : option nat)
| AskOutcome (gid : Z) (done_ : option nat)
| AskAll (gids : list Z)
| AskImport (finish : option nat)
| AskBatch (payloads : list qstr) (finish : option nat)
| AskSubscribe (finish : option nat)
| CallLate (f : nat)
| GroupMade (gid : Z)
| WorkerStep (result : Failure).

Definition turn (s : Updater) (ev : UpdaterEvent) : Updater :=
  match ev with
  | AskRefresh gid finish => RefreshGroup gid finish s
  | AskOutcome gid done_ => RefreshWithOutcome gid done_ s
  | AskAll gids => RefreshAll gids s
  | AskImport finish => enqueue false finish s
  | AskBatch payloads finish => ImportBatch payloads finish s
  | AskSubscribe finish => SubscribeUrl finish s
  | CallLate f => callLate f s
  | GroupMade gid => groupMade gid s
  | WorkerStep result => work result s
  end.

Definition run (evs : list UpdaterEvent) : Updater := fold_left turn evs newUpdater.
