(* ===== verification/UpdaterFacts.v ===== *)
(** The update queue: one job at a time, every callback once, nothing left
    waiting; and the schedule agrees with itself. *)
From stdpp Require Import base list gmap strings.
From Stdlib Require Import ZArith Lia Bool.
From S2P Require Import Prelude Refresh Updater.

(** ** The schedule *)

Section Schedules.
Context (settings : ScheduleSettings).

Lemma ResolveAutoUpdate_interval g : 0 <= interval (ResolveAutoUpdate settings g).
Proof.
  unfold ResolveAutoUpdate. cbv zeta. destruct (isNil (scUrl g) || scArchive g || scSkipAutoUpdate g || (sub_auto_update settings <? 30)) eqn:E; [done|]. apply orb_false_iff in E as [_ E%Z.ltb_ge].
  set (sm := if 0 <? scServerInterval g then _ else _). set (rs := match scRespectServer g with Some b => b | None => _ end). clearbody sm rs.
  destruct (rs && (0 <? sm)) eqn:E1; [apply andb_true_iff in E1 as [_ E1%Z.ltb_lt]; cbn [interval]; lia|].
  destruct (0 <? scUpdateInterval g); [cbn [interval]; lia|].
  destruct (negb (scIntervalFromProvider g) && (0 <? scProviderMinutes g)) eqn:E2; [apply andb_true_iff in E2 as [_ E2%Z.ltb_lt]|]; cbn [interval]; lia.
Qed.

Lemma isDue_spec attempts now g : isDue settings attempts now g = true <->
  0 < interval (ResolveAutoUpdate settings g) /\ autoUpdateDue attempts g (interval (ResolveAutoUpdate settings g)) <= now.
Proof. unfold isDue. cbv zeta. rewrite negb_true_iff, orb_false_iff, Z.leb_gt, Z.ltb_ge. done. Qed.

Lemma autoUpdateDue_nonneg attempts g i : 0 <= i -> 0 <= autoUpdateDue attempts g i.
Proof. intros H. unfold autoUpdateDue. cbv zeta. destruct (Z.leb_spec (Z.max (scLastUpdate g) (default 0 (attempts !! scId g))) 0); lia. Qed.

(** The earliest time a group is due, or -1. *)
Lemma NextAutoUpdate_fold attempts groups next : -1 <= next ->
  let r := fold_left (earlier settings attempts) groups next in
  -1 <= r /\
  (forall now, 0 <= r <= now <-> 0 <= next <= now \/ exists g, g ∈ groups /\ isDue settings attempts now g = true).
Proof.
  cbv zeta. revert next. induction groups as [|g groups IH]; intros next Hn; cbn [fold_left].
  - split; [done|]. intros now. split; [by left|]. intros [H|(g & H & _)]; [done|by apply elem_of_nil in H].
  - pose proof (ResolveAutoUpdate_interval g) as Hi. set (i := interval (ResolveAutoUpdate settings g)) in *.
    pose proof (autoUpdateDue_nonneg attempts g i Hi) as Hd.
    assert (Hstep : -1 <= earlier settings attempts next g /\ forall now, 0 <= earlier settings attempts next g <= now <-> 0 <= next <= now \/ isDue settings attempts now g = true).
    { unfold earlier. cbv zeta. fold i. destruct (Z.leb_spec i 0) as [Hz|Hz].
      - split; [done|]. intros now. rewrite isDue_spec. fold i. split; [by left|]. intros [H|H]; [done|lia].
      - destruct (Z.ltb_spec next 0); cbn [orb]; [split; [lia|]; intros now; rewrite isDue_spec; fold i; lia|].
        destruct (Z.ltb_spec (autoUpdateDue attempts g i) next); (split; [lia|]); intros now; rewrite isDue_spec; fold i; lia. }
    destruct Hstep as [Hlo Hstep]. destruct (IH _ Hlo) as [H1 H2]. split; [done|]. intros now. rewrite H2, Hstep. split.
    + intros [[H|H]|(g' & Hg & H)]; [by left|right; exists g; split; [by left|done]|right; exists g'; split; [by right|done]].
    + intros [H|(g' & [->|Hg]%elem_of_cons & H)]; [by left; left|by left; right|right; by exists g'].
Qed.

Lemma isDue_other attempts id now t g : scId g <> id -> isDue settings (<[id := t]> attempts) now g = isDue settings attempts now g.
Proof. intros H. unfold isDue, autoUpdateDue. cbv zeta. by rewrite lookup_insert_ne by done. Qed.

Lemma CheckAutoUpdate_spec groups now attempts : NoDup (map scId groups) ->
  let '(gids, attempts') := CheckAutoUpdate settings groups now attempts in
  gids = map scId (List.filter (isDue settings attempts now) groups) /\
  forall id, attempts' !! id = if decide (id ∈ gids) then Some now else attempts !! id.
Proof.
  revert attempts. induction groups as [|g groups IH]; intros attempts Hn; cbn [CheckAutoUpdate List.filter].
  - split; [done|]. intros id. case_decide as H; [by apply elem_of_nil in H|done].
  - cbn [map] in Hn. apply NoDup_cons in Hn as [Hg Hn]. destruct (isDue settings attempts now g).
    + specialize (IH (<[scId g := now]> attempts) Hn). destruct (CheckAutoUpdate _ groups now _) as [gids attempts']. destruct IH as [-> IH].
      assert (Ef : List.filter (isDue settings (<[scId g := now]> attempts) now) groups = List.filter (isDue settings attempts now) groups).
      { apply List.filter_ext_in. intros g' Hg'%list_elem_of_In. apply isDue_other. intros E. apply Hg. rewrite <- E. apply list_elem_of_fmap. by exists g'. }
      rewrite Ef in *. cbn [map]. split; [done|]. intros id. rewrite IH. destruct (decide (id = scId g)) as [->|Hne].
      * rewrite (decide_True (P := _ ∈ scId g :: _)) by by left. destruct (decide _); [done|]. by rewrite lookup_insert_eq.
      * rewrite lookup_insert_ne by done. destruct (decide (id ∈ map scId _)) as [H|H]; [by rewrite decide_True by (by right)|].
        case_decide as H'; [|done]. by apply elem_of_cons in H' as [->|H'].
    + by apply IH.
Qed.

(** The next automatic refresh announced is the time from which a poll
    refreshes something: at a time at or after it a group is due, before it none
    is, and right after a poll nothing is due again. *)
Theorem schedule_agrees groups attempts now : NoDup (map scId groups) -> 0 < now ->
  let next := NextAutoUpdate settings groups attempts in
  let '(gids, attempts') := CheckAutoUpdate settings groups now attempts in
  (gids <> [] <-> 0 <= next <= now) /\
  (forall id, id ∈ gids <-> exists g, g ∈ groups /\ scId g = id /\ isDue settings attempts now g = true) /\
  let next' := NextAutoUpdate settings groups attempts' in next' = -1 \/ now < next'.
Proof.
  intros Hn Hnow. cbv zeta. pose proof (CheckAutoUpdate_spec groups now attempts Hn) as H. destruct (CheckAutoUpdate settings groups now attempts) as [gids attempts'].
  destruct H as [-> Ha].
  assert (Hin : forall id, id ∈ map scId (List.filter (isDue settings attempts now) groups) <-> exists g, g ∈ groups /\ scId g = id /\ isDue settings attempts now g = true).
  { intros id. rewrite list_elem_of_fmap. split; [intros (g & -> & [Hg Hd]%filter_elem); by exists g|].
    intros (g & Hg & <- & Hd). exists g. split; [done|]. by apply filter_elem. }
  destruct (NextAutoUpdate_fold attempts groups (-1) ltac:(lia)) as [H1 H2]. destruct (NextAutoUpdate_fold attempts' groups (-1) ltac:(lia)) as [H3 H4].
  fold (NextAutoUpdate settings groups attempts) in H1, H2. fold (NextAutoUpdate settings groups attempts') in H3, H4. split; [|split; [done|]].
  - rewrite H2. split.
    + intros Hne. right. destruct (map scId (List.filter (isDue settings attempts now) groups)) as [|id l] eqn:E; [done|]. destruct (proj1 (Hin id)) as (g & Hg & _ & Hd); [by left|]. by exists g.
    + intros [H|(g & Hg & Hd)]; [lia|]. intros E. assert (Hx : scId g ∈ map scId (List.filter (isDue settings attempts now) groups)) by (apply Hin; by exists g).
      rewrite E in Hx. by apply elem_of_nil in Hx.
  - destruct (Z.le_gt_cases (NextAutoUpdate settings groups attempts') now) as [Hle|]; [|by right].
    destruct (Z.eq_dec (NextAutoUpdate settings groups attempts') (-1)) as [|Hne]; [by left|]. exfalso.
    destruct (proj1 (H4 now)) as [H|(g & Hg & Hd)]; [lia|lia|]. apply isDue_spec in Hd as [Hi Hd].
    set (i := interval (ResolveAutoUpdate settings g)) in *. unfold autoUpdateDue in Hd. cbv zeta in Hd. rewrite Ha in Hd.
    destruct (decide (scId g ∈ map scId _)) as [Hg'|Hg'].
    + change (default 0 (Some now)) with now in Hd. revert Hd; destruct (Z.leb_spec (Z.max (scLastUpdate g) now) 0); lia.
    + apply Hg', Hin. exists g. split; [done|]. split; [done|]. apply isDue_spec. split; [done|]. unfold autoUpdateDue. cbv zeta. fold i. exact Hd.
Qed.

End Schedules.

(** ** The queue *)

(** Jobs asked for and not yet cleared, and those whose callback is to come. *)
Definition current (w : Worker) : list Job := match w with InRun j _ | AtFinish j _ | AtClear j _ => [j] | _ => [] end.
Definition beforeFinish (w : Worker) : list Job := match w with InRun j _ | AtFinish j _ => [j] | _ => [] end.
Definition answering (w : Worker) : list nat := match w with Answering l _ => l | _ => [] end.
Definition active (s : Updater) : list Job := current (upWorker s) ++ upQueue s.

(** The groups with a refresh that was not cleared. *)
Definition busyGids (s : Updater) : list Z := List.filter (fun gid => 0 <=? gid) (map jobGid (active s)).

Record updaterOk (s : Updater) : Prop := {
  uo_running : upRunning s = true <-> upWorker s <> NoWorker;
  uo_queue : upQueue s <> [] -> upRunning s = true;
  uo_batch : upPendingBatch s = zlen (List.filter jobBatch (active s));
  uo_pending : forall gid, 0 <= gid -> gid ∈ upPending s <-> gid ∈ busyGids s;
  uo_once : NoDup (busyGids s);
  uo_waiters : forall gid l, upWaiters s !! gid = Some l -> 0 <= gid /\ gid ∈ upPending s
}.

Lemma busyGids_app s j : List.filter (fun gid => 0 <=? gid) (map jobGid (active s ++ [j])) = busyGids s ++ (if 0 <=? jobGid j then [jobGid j] else []).
Proof. unfold busyGids. rewrite map_app, List.filter_app. cbn [map List.filter]. by destruct (0 <=? jobGid j). Qed.

Lemma active_enqueue j s : updaterOk s -> active (enqueueLocked j s) = active s ++ [j].
Proof.
  intros [A B _ _ _ _]. unfold active, enqueueLocked. cbn [upWorker upQueue]. rewrite app_assoc. f_equal. f_equal.
  destruct (upRunning s) eqn:E; [done|]. destruct (upWorker s); try done; exfalso; assert (H : false = true) by (by apply A); done.
Qed.

(** A job of a group that is not pending yet. *)
Lemma enqueue_ok j s : updaterOk s -> (0 <= jobGid j -> jobGid j ∉ upPending s) ->
  updaterOk (enqueueLocked j (uBatch (upPendingBatch s + (if jobBatch j then 1 else 0)) (uPending ({[jobGid j]} ∪ upPending s) s))).
Proof.
  intros W Hn. set (s1 := uBatch _ _).
  assert (Ea : active (enqueueLocked j s1) = active s ++ [j]).
  { transitivity (active (enqueueLocked j s)); [done|by apply active_enqueue]. }
  assert (Eb : busyGids (enqueueLocked j s1) = busyGids s ++ (if 0 <=? jobGid j then [jobGid j] else [])) by (unfold busyGids at 1; rewrite Ea; apply busyGids_app).
  destruct W as [A B C D E F]. split; rewrite ?Eb, ?Ea; cbn [upRunning upWorker upQueue upPendingBatch upPending upWaiters enqueueLocked s1 uBatch uPending].
  - split; [|done]. intros _. destruct (upRunning s) eqn:Er; [by apply A|done].
  - done.
  - rewrite List.filter_app, zlen_app, C. cbn [List.filter]. by destruct (jobBatch j).
  - intros gid Hg. rewrite elem_of_union, elem_of_singleton, D, elem_of_app by done. destruct (Z.leb_spec 0 (jobGid j)).
    + rewrite list_elem_of_singleton. tauto.
    + split; [intros [->|Hx]; [lia|by left]|intros [Hx|Hx]; [by right|by apply elem_of_nil in Hx]].
  - destruct (Z.leb_spec 0 (jobGid j)); [|by rewrite app_nil_r]. apply NoDup_app. split; [done|]. split; [|apply NoDup_singleton].
    intros gid Hg Hx%list_elem_of_singleton. subst gid. apply (Hn ltac:(assumption)). by apply D.
  - intros gid l H. destruct (F gid l H) as [F1 F2]. split; [exact F1|]. apply elem_of_union. by right.
Qed.

Lemma uBatch_zero s : uBatch (upPendingBatch s + 0) s = s.
Proof. rewrite Z.add_0_r. by destruct s. Qed.

Lemma uPending_same gid s : gid ∈ upPending s -> uPending ({[gid]} ∪ upPending s) s = s.
Proof. intros H. replace ({[gid]} ∪ upPending s) with (upPending s) by set_solver. by destruct s. Qed.

Lemma plain_enqueue_ok j s : updaterOk s -> jobBatch j = false -> (0 <= jobGid j -> jobGid j ∉ upPending s) ->
  updaterOk (enqueueLocked j (uPending ({[jobGid j]} ∪ upPending s) s)).
Proof. intros W Hb Hn. pose proof (enqueue_ok j s W Hn) as H. rewrite Hb in H. change (upPendingBatch s) with (upPendingBatch (uPending ({[jobGid j]} ∪ upPending s) s)) in H. by rewrite uBatch_zero in H. Qed.

Lemma callFinish_ok f s : updaterOk s -> updaterOk (callFinish f s).
Proof. intros [A B C D E F]. by destruct f; split. Qed.

Lemma import_ok j s : updaterOk s -> jobBatch j = false -> jobGid j < 0 -> updaterOk (enqueueLocked j s).
Proof.
  intros W Hb Hg. pose proof (plain_enqueue_ok j s W Hb ltac:(lia)) as [A B C D E F]. split; try done.
  - intros gid Hgid. rewrite <- (D gid Hgid). cbn [upPending enqueueLocked uPending]. set_solver by lia.
  - intros gid l H. destruct (F gid l H) as [H1 H2]. split; [done|]. cbn [upPending enqueueLocked uPending] in *. apply elem_of_union in H2 as [->%elem_of_singleton|H2]; [lia|done].
Qed.

Lemma batches_ok gids s : updaterOk s -> updaterOk (fold_left batchOne gids s).
Proof.
  revert s. induction gids as [|gid gids IH]; intros s W; [done|]. cbn [fold_left]. apply IH. unfold batchOne.
  case_bool_decide as Hp; [done|]. by apply (enqueue_ok (mkJob gid true false None) s W).
Qed.

Lemma work_ok result s : updaterOk s -> updaterOk (work result s).
Proof.
  intros W. unfold work. destruct (upWorker s) as [| |j m|j o|j o|[|d l] o] eqn:Ew; [done|..].
  - destruct W as [A B C D E F]. unfold active in *. unfold busyGids, active in D, E. rewrite Ew in *. cbn [current app] in *. destruct (upQueue s) as [|j q] eqn:Eq.
    + split; cbn [upRunning upWorker upQueue upPendingBatch upPending upWaiters]; unfold busyGids, active; cbn [current upWorker upQueue app]; try done; by split.
    + split; cbn [upRunning upWorker upQueue upPendingBatch upPending upWaiters]; unfold busyGids, active; cbn [current upWorker upQueue app]; try done.
      * split; [done|]. intros _. by apply A.
      * intros _. by apply A.
  - destruct W as [A B C D E F]. unfold active, busyGids, active in *. rewrite Ew in *. cbn [current app] in *.
    split; unfold busyGids, active; cbn [upRunning upWorker upQueue upPendingBatch upPending upWaiters uWorker current app]; try done. split; [done|]. intros _. by apply A.
  - destruct (callFinish_ok (jobFinish j) s W) as [A B C D E F]. assert (Ew' : upWorker (callFinish (jobFinish j) s) = AtFinish j o) by (by destruct (jobFinish j)).
    set (s1 := callFinish (jobFinish j) s) in *. clearbody s1. unfold active, busyGids, active in *. rewrite Ew' in *. cbn [current app] in *.
    split; unfold busyGids, active; cbn [upRunning upWorker upQueue upPendingBatch upPending upWaiters uWorker current app]; try done. split; [done|]. intros _. by apply A.
  - destruct W as [A B C D E F]. unfold active, busyGids, active in *. rewrite Ew in *. cbn [current app map List.filter] in *.
    assert (Hrun : upRunning s = true) by (by apply A).
    assert (Hb : (if jobBatch j then upPendingBatch s - 1 else upPendingBatch s) = zlen (List.filter jobBatch (upQueue s))).
    { rewrite C. destruct (jobBatch j); [rewrite zlen_cons; lia|done]. }
    destruct (0 <=? jobGid j) eqn:Eg; split; unfold busyGids, active; cbn [upRunning upWorker upQueue upPendingBatch upPending upWaiters current app]; try done.
    + apply Z.leb_le in Eg. apply NoDup_cons in E as [Ej E]. intros gid Hg. rewrite elem_of_difference, elem_of_singleton, D, elem_of_cons by done.
      split; [intros [[->|H] Hne]; [done|done]|]. intros H. split; [by right|]. intros ->. done.
    + by apply NoDup_cons in E as [_ E].
    + intros gid l [Hne H]%lookup_delete_Some. destruct (F gid l H) as [H1 H2]. split; [done|]. apply elem_of_difference. split; [done|]. intros Hx%elem_of_singleton. congruence.
  - destruct W as [A B C D E F]. unfold active, busyGids, active in *. rewrite Ew in *. cbn [current app] in *.
    split; unfold busyGids, active; cbn [upRunning upWorker upQueue upPendingBatch upPending upWaiters uWorker current app]; try done. split; [done|]. intros _. by apply A.
  - destruct W as [A B C D E F]. unfold active, busyGids, active in *. rewrite Ew in *. cbn [current app] in *.
    split; unfold busyGids, active; cbn [upRunning upWorker upQueue upPendingBatch upPending upWaiters uWorker uCall current app]; try done. split; [done|]. intros _. by apply A.
Qed.

Lemma turn_ok ev s : updaterOk s -> updaterOk (turn s ev).
Proof.
  intros W. destruct ev as [gid f|gid d|gids|f|payloads f|f|f|gid|r]; cbn [turn].
  - unfold RefreshGroup. case_bool_decide as Hp; [by destruct W; split|]. by apply (plain_enqueue_ok (mkJob gid false false f) s W).
  - unfold RefreshWithOutcome. destruct (Z.ltb_spec gid 0) as [Hg|Hg]; [destruct d; [by destruct W; split|done]|]. cbv zeta.
    set (s1 := match d with Some d => _ | None => s end).
    assert (E1 : upPending s1 = upPending s) by (unfold s1; by destruct d). rewrite E1.
    assert (Hw : forall gid' l, upWaiters s1 !! gid' = Some l -> 0 <= gid' /\ (gid' = gid \/ gid' ∈ upPending s)).
    { intros gid' l. unfold s1. destruct d as [d|]; [|intros H; destruct (uo_waiters s W gid' l H); tauto]. cbn [upWaiters uWaiters].
      destruct (decide (gid' = gid)) as [->|Hne]; [intros _; by split; [|left]|]. rewrite lookup_insert_ne by done. intros H. destruct (uo_waiters s W gid' l H); tauto. }
    case_bool_decide as Hp.
    + assert (H : forall gid' l, upWaiters s1 !! gid' = Some l -> 0 <= gid' /\ gid' ∈ upPending s1).
      { intros gid' l H. destruct (Hw gid' l H) as [H1 [->|H2]]; split; rewrite ?E1; done. }
      destruct W as [A B C D E F]. unfold s1 in *. by destruct d; split.
    + pose proof (plain_enqueue_ok (mkJob gid false false None) s W eq_refl (fun _ => Hp)) as [A B C D E F]. cbn [jobGid] in *.
      assert (H : forall gid' l, upWaiters s1 !! gid' = Some l -> 0 <= gid' /\ gid' ∈ {[gid]} ∪ upPending s).
      { intros gid' l H. destruct (Hw gid' l H) as [H1 [->|H2]]; split; try done; set_solver. }
      rewrite <- E1 in *. unfold s1 in *. by destruct d; split.
  - unfold RefreshAll. destruct (0 <? upPendingBatch s); [done|]. by apply batches_ok.
  - by apply import_ok.
  - unfold ImportBatch. destruct (isNil payloads); [done|by apply import_ok].
  - by apply import_ok.
  - unfold callLate. destruct (takeOne f (upLate s)); [by destruct W; split|done].
  - unfold groupMade. destruct (upWorker s) as [| |j [|]|j o|j o|l o] eqn:Ew; try done. destruct (jobSubscribe j); [|done].
    destruct W as [A B C D E F]. unfold active, busyGids, active in *. rewrite Ew in *. cbn [current app] in *.
    split; unfold busyGids, active; cbn [upRunning upWorker upQueue upPendingBatch upPending upWaiters uWorker current app]; try done. split; [done|]. intros _. by apply A.
  - by apply work_ok.
Qed.

Lemma run_ok evs : updaterOk (run evs).
Proof.
  unfold run. assert (H0 : updaterOk newUpdater) by (split; try done; [by intros gid _; set_solver|constructor]). revert H0. generalize newUpdater as s.
  induction evs as [|ev evs IH]; intros s W; [done|]. cbn [fold_left]. by apply IH, turn_ok.
Qed.

(** ** Every callback once *)

Definition countIn (d : nat) (l : list nat) : Z := zlen (List.filter (Nat.eqb d) l).
Definition waitingIn (d : nat) (m : gmap Z (list nat)) : Z := sumOf (fun kv => countIn d (snd kv)) (map_to_list m).
Definition hasFinish (f : nat) (j : Job) : bool := match jobFinish j with Some g => f =? g | None => false end%nat.

(** What is still to be called for a callback, of a job or of a caller turned away,
    or for one who waits. *)
Definition owedFinish (f : nat) (s : Updater) : Z := zlen (List.filter (hasFinish f) (beforeFinish (upWorker s) ++ upQueue s)) + countIn f (upLate s).
Definition owedAnswer (d : nat) (s : Updater) : Z := countIn d (answering (upWorker s)) + waitingIn d (upWaiters s).
Definition finishedCalls (f : nat) (s : Updater) : Z := zlen (List.filter (fun c => match c with Finished g => f =? g | _ => false end%nat) (upCalls s)).
Definition answeredCalls (d : nat) (s : Updater) : Z := zlen (List.filter (fun c => match c with Answered e _ => d =? e | _ => false end%nat) (upCalls s)).

Definition isSomeOf (f : nat) (o : option nat) : Z := match o with Some g => if (f =? g)%nat then 1 else 0 | None => 0 end.
Definition givenFinish (f : nat) (ev : UpdaterEvent) : Z := match ev with
  | AskRefresh _ o | AskImport o | AskSubscribe o => isSomeOf f o
  | AskBatch payloads o => if isNil payloads then 0 else isSomeOf f o
  | _ => 0
  end.
Definition givenAnswer (d : nat) (ev : UpdaterEvent) : Z := match ev with AskOutcome _ o => isSomeOf d o | _ => 0 end.

Lemma sumOf_perm {A} (f : A -> Z) l k : l ≡ₚ k -> sumOf f l = sumOf f k.
Proof. induction 1 as [|x l k _ IH|x y l|l m k _ IH1 _ IH2]; cbn [sumOf fold_right] in *; unfold sumOf in *; lia. Qed.

Lemma waitingIn_split d g m : waitingIn d m = countIn d (default [] (m !! g)) + waitingIn d (delete g m).
Proof.
  unfold waitingIn. destruct (m !! g) as [l|] eqn:E.
  - rewrite <- (sumOf_perm _ _ _ (map_to_list_delete m g l E)). done.
  - rewrite delete_id by done. done.
Qed.

Lemma waitingIn_insert d g l m : waitingIn d (<[g := l]> m) = countIn d l + waitingIn d (delete g m).
Proof. rewrite (waitingIn_split d g), lookup_insert_eq, delete_insert_eq. done. Qed.

Lemma countIn_app d l k : countIn d (l ++ k) = countIn d l + countIn d k.
Proof. unfold countIn. by rewrite List.filter_app, zlen_app. Qed.

Lemma countIn_one d e : countIn d [e] = isSomeOf d (Some e).
Proof. unfold countIn. cbn [List.filter isSomeOf]. by destruct (d =? e)%nat. Qed.

Lemma hasFinish_one f j : zlen (List.filter (hasFinish f) [j]) = isSomeOf f (jobFinish j).
Proof. cbn [List.filter]. unfold hasFinish. destruct (jobFinish j); [|done]. cbn [isSomeOf]. by destruct (f =? n)%nat. Qed.

Lemma enqueue_worker j s : updaterOk s ->
  beforeFinish (upWorker (enqueueLocked j s)) = beforeFinish (upWorker s) /\ answering (upWorker (enqueueLocked j s)) = answering (upWorker s).
Proof.
  intros [A _ _ _ _ _]. cbn [upWorker enqueueLocked]. destruct (upRunning s) eqn:E; [done|]. destruct (upWorker s); try done; exfalso; assert (H : false = true) by (by apply A); done.
Qed.

Lemma owed_enqueue f d j s : updaterOk s -> owedFinish f (enqueueLocked j s) = owedFinish f s + isSomeOf f (jobFinish j) /\ owedAnswer d (enqueueLocked j s) = owedAnswer d s.
Proof.
  intros W. destruct (enqueue_worker j s W) as [E1 E2]. unfold owedFinish, owedAnswer. rewrite E1, E2. cbn [upQueue upWaiters upLate enqueueLocked].
  split; [|done]. rewrite app_assoc, List.filter_app, zlen_app, hasFinish_one. lia.
Qed.

Lemma called_finish f d o s : finishedCalls f (callFinish o s) = finishedCalls f s + isSomeOf f o /\ answeredCalls d (callFinish o s) = answeredCalls d s.
Proof.
  destruct o as [g|]; [|by rewrite Z.add_0_r]. unfold finishedCalls, answeredCalls. cbn [callFinish uCall upCalls]. rewrite !List.filter_app, !zlen_app. cbn [List.filter isSomeOf].
  split; [by destruct (f =? g)%nat|apply Z.add_0_r].
Qed.

Lemma called_answer f d e o s : finishedCalls f (uCall (Answered e o) s) = finishedCalls f s /\ answeredCalls d (uCall (Answered e o) s) = answeredCalls d s + isSomeOf d (Some e).
Proof.
  unfold finishedCalls, answeredCalls. cbn [uCall upCalls]. rewrite !List.filter_app, !zlen_app. cbn [List.filter isSomeOf].
  split; [apply Z.add_0_r|by destruct (d =? e)%nat].
Qed.

(** What is owed and what was called, in all. *)
Definition ledger (f d : nat) (s : Updater) : Z * Z := (owedFinish f s + finishedCalls f s, owedAnswer d s + answeredCalls d s).

Lemma batches_ledger f d gids s : updaterOk s -> ledger f d (fold_left batchOne gids s) = ledger f d s.
Proof.
  revert s. induction gids as [|gid gids IH]; intros s W; [done|]. cbn [fold_left]. unfold batchOne at 2. case_bool_decide as Hp; [by apply IH|].
  set (s1 := uBatch _ _). set (j := mkJob gid true false None). pose proof (enqueue_ok j s W (fun _ => Hp)) as W1. fold s1 in W1. cbn [jobGid jobBatch j] in W1. fold s1 in W1. rewrite IH by done.
  destruct (enqueue_worker j s W) as [E1 E2]. unfold ledger, owedFinish, owedAnswer. change (upWorker (enqueueLocked j s1)) with (upWorker (enqueueLocked j s)). rewrite E1, E2.
  cbn [upQueue upWaiters upLate enqueueLocked s1 uBatch uPending]. rewrite app_assoc, List.filter_app, zlen_app, hasFinish_one. cbn [j jobFinish isSomeOf].
  unfold finishedCalls, answeredCalls. cbn [upCalls enqueueLocked s1 uBatch uPending]. f_equal. lia.
Qed.

Lemma work_ledger f d r s : ledger f d (work r s) = ledger f d s.
Proof.
  unfold work. destruct (upWorker s) as [| |j m|j o|j o|[|e l] o] eqn:Ew; [done|..]; unfold ledger, owedFinish, owedAnswer; rewrite ?Ew.
  - destruct (upQueue s) as [|j q] eqn:Eq; cbn [upWorker upQueue upWaiters upLate beforeFinish answering app]; rewrite ?Eq; done.
  - done.
  - destruct (called_finish f d (jobFinish j) s) as [E1 E2]. change (finishedCalls f (uWorker (AtClear j o) (callFinish (jobFinish j) s))) with (finishedCalls f (callFinish (jobFinish j) s)).
    change (answeredCalls d (uWorker (AtClear j o) (callFinish (jobFinish j) s))) with (answeredCalls d (callFinish (jobFinish j) s)). rewrite E1, E2.
    assert (Eq : upQueue (callFinish (jobFinish j) s) = upQueue s /\ upWaiters (callFinish (jobFinish j) s) = upWaiters s /\ upLate (callFinish (jobFinish j) s) = upLate s) by (by destruct (jobFinish j)). destruct Eq as (Eq1 & Eq2 & Eq3).
    cbn [upWorker upQueue upWaiters upLate uWorker beforeFinish answering app]. rewrite Eq1, Eq2, Eq3. f_equal. change (j :: upQueue s) with ([j] ++ upQueue s).
    rewrite List.filter_app, zlen_app, hasFinish_one. lia.
  - destruct (0 <=? jobGid j); cbn [upWorker upQueue upWaiters upLate beforeFinish answering app]; [|done]. f_equal.
    rewrite (waitingIn_split d (jobGid j) (upWaiters s)). unfold countIn at 2. cbn [List.filter]. change (zlen []) with 0. unfold answeredCalls. cbn [upCalls]. lia.
  - done.
  - destruct (called_answer f d e o s) as [E1 E2]. change (finishedCalls f (uWorker (Answering l o) (uCall (Answered e o) s))) with (finishedCalls f (uCall (Answered e o) s)).
    change (answeredCalls d (uWorker (Answering l o) (uCall (Answered e o) s))) with (answeredCalls d (uCall (Answered e o) s)). rewrite E1, E2.
    cbn [upWorker upQueue upWaiters upLate uWorker uCall beforeFinish answering app]. f_equal. change (e :: l) with ([e] ++ l). rewrite countIn_app, countIn_one. lia.
Qed.

Lemma countIn_option f o : countIn f (option_list o) = isSomeOf f o.
Proof. destruct o; [apply countIn_one|done]. Qed.

Lemma takeOne_count f g l l' : takeOne g l = Some l' -> countIn f l = countIn f l' + isSomeOf f (Some g).
Proof.
  revert l'. induction l as [|e l IH]; intros l' H; [done|]. cbn [takeOne] in H. destruct (Nat.eqb_spec g e) as [<-|Hne].
  - injection H as <-. change (g :: l) with ([g] ++ l). rewrite countIn_app, countIn_one. lia.
  - destruct (takeOne g l) as [k|]; [|done]. injection H as <-. change (e :: l) with ([e] ++ l). change (e :: k) with ([e] ++ k).
    rewrite !countIn_app, (IH k eq_refl). lia.
Qed.

Lemma enqueue_ledger f d b o s : updaterOk s -> ledger f d (enqueue b o s) = (fst (ledger f d s) + isSomeOf f o, snd (ledger f d s) + 0).
Proof.
  intros W. unfold enqueue. set (j := mkJob (-1) false b o). destruct (owed_enqueue f d j s W) as [E1 E2]. unfold ledger. rewrite E1, E2. cbn [fst snd].
  change (finishedCalls f (enqueueLocked j s)) with (finishedCalls f s). change (answeredCalls d (enqueueLocked j s)) with (answeredCalls d s). cbn [j jobFinish]. f_equal; lia.
Qed.

Lemma callLate_ledger f d g s : ledger f d (callLate g s) = ledger f d s.
Proof.
  unfold callLate. destruct (takeOne g (upLate s)) as [l|] eqn:E; [|done]. unfold ledger. destruct (called_finish f d (Some g) (uLate l s)) as [E1 E2].
  cbn [callFinish] in E1, E2. rewrite E1, E2. unfold owedFinish. cbn [upWorker upQueue upLate uCall uLate]. rewrite (takeOne_count f g _ l E).
  change (owedAnswer d (uCall _ _)) with (owedAnswer d s). change (finishedCalls f (uLate l s)) with (finishedCalls f s). change (answeredCalls d (uLate l s)) with (answeredCalls d s).
  f_equal. lia.
Qed.

Lemma groupMade_ledger f d gid s : ledger f d (groupMade gid s) = ledger f d s.
Proof. unfold groupMade. destruct (upWorker s) as [| |j [|]|j o|j o|l o] eqn:Ew; try done. destruct (jobSubscribe j); [|done]. unfold ledger, owedFinish, owedAnswer. rewrite Ew. done. Qed.

Lemma uTurn_ledger f d ev s : updaterOk s ->
  ledger f d (turn s ev) = (fst (ledger f d s) + givenFinish f ev, snd (ledger f d s) + givenAnswer d ev).
Proof.
  intros W. destruct ev as [gid o|gid o|gids|o|payloads o|o|g|gid|r]; cbn [turn givenFinish givenAnswer]; rewrite ?Z.add_0_r.
  - unfold RefreshGroup. case_bool_decide as Hp.
    + unfold ledger, owedFinish. cbn [upWorker upQueue upLate uLate]. rewrite countIn_app, countIn_option.
      change (owedAnswer d (uLate _ s)) with (owedAnswer d s). change (finishedCalls f (uLate _ s)) with (finishedCalls f s). change (answeredCalls d (uLate _ s)) with (answeredCalls d s).
      cbn [fst snd]. f_equal. lia.
    + set (j := mkJob gid false false o). destruct (owed_enqueue f d j s W) as [E1 E2]. unfold ledger. cbn [fst snd].
      change (owedFinish f (enqueueLocked j (uPending ({[gid]} ∪ upPending s) s))) with (owedFinish f (enqueueLocked j s)).
      change (owedAnswer d (enqueueLocked j (uPending ({[gid]} ∪ upPending s) s))) with (owedAnswer d (enqueueLocked j s)). rewrite E1, E2.
      change (finishedCalls f (enqueueLocked j _)) with (finishedCalls f s). change (answeredCalls d (enqueueLocked j _)) with (answeredCalls d s). cbn [j jobFinish]. f_equal. lia.
  - unfold RefreshWithOutcome. destruct (gid <? 0).
    + destruct o as [e|]; [|by cbn [isSomeOf]; rewrite Z.add_0_r; destruct (ledger f d s)]. unfold ledger. destruct (called_answer f d e NoGroup s) as [-> ->].
      cbn [fst snd]. change (owedFinish f (uCall _ s)) with (owedFinish f s). change (owedAnswer d (uCall _ s)) with (owedAnswer d s). f_equal. lia.
    + cbv zeta. set (s1 := match o with Some e => _ | None => s end).
      assert (L1 : ledger f d s1 = (fst (ledger f d s), snd (ledger f d s) + isSomeOf d o)).
      { unfold s1. destruct o as [e|]; [|cbn [isSomeOf]; by rewrite Z.add_0_r; destruct (ledger f d s)]. unfold ledger. cbn [fst snd].
        unfold owedAnswer, owedFinish. cbn [upWorker upQueue upWaiters upLate uWaiters]. rewrite waitingIn_insert, countIn_app, countIn_one, (waitingIn_split d gid (upWaiters s)).
        change (finishedCalls f (uWaiters _ s)) with (finishedCalls f s). change (answeredCalls d (uWaiters _ s)) with (answeredCalls d s). f_equal. lia. }
      assert (W1 : updaterOk (turn s (AskOutcome gid o))) by (by apply turn_ok). clear W1. rewrite <- L1.
      assert (Er : upRunning s1 = true <-> upWorker s1 <> NoWorker) by (unfold s1; destruct o; apply (uo_running s W)).
      case_bool_decide as Hp; [done|]. unfold ledger, owedFinish, owedAnswer. cbn [upRunning upWorker upQueue upWaiters upLate enqueueLocked uPending].
      assert (Ew : beforeFinish (if upRunning s1 then upWorker s1 else Taking) = beforeFinish (upWorker s1) /\ answering (if upRunning s1 then upWorker s1 else Taking) = answering (upWorker s1)).
      { destruct (upRunning s1) eqn:E; [done|]. destruct (upWorker s1); try done; exfalso; assert (H : false = true) by (by apply Er); done. }
      destruct Ew as [-> ->]. rewrite app_assoc, List.filter_app, zlen_app, hasFinish_one. cbn [jobFinish isSomeOf].
      change (finishedCalls f (enqueueLocked _ _)) with (finishedCalls f s1). change (answeredCalls d (enqueueLocked _ _)) with (answeredCalls d s1). f_equal. lia.
  - unfold RefreshAll. destruct (0 <? upPendingBatch s); [by destruct (ledger f d s)|]. rewrite batches_ledger by done. by destruct (ledger f d s).
  - rewrite (enqueue_ledger f d false o s W). by rewrite Z.add_0_r.
  - unfold ImportBatch. destruct (isNil payloads); [rewrite Z.add_0_r; by destruct (ledger f d s)|]. rewrite (enqueue_ledger f d false o s W). by rewrite Z.add_0_r.
  - unfold SubscribeUrl. rewrite (enqueue_ledger f d true o s W). by rewrite Z.add_0_r.
  - rewrite callLate_ledger. by destruct (ledger f d s).
  - rewrite groupMade_ledger. by destruct (ledger f d s).
  - rewrite work_ledger. by destruct (ledger f d s).
Qed.

Lemma run_ledger_updater f d evs : ledger f d (run evs) = (sumOf (givenFinish f) evs, sumOf (givenAnswer d) evs).
Proof.
  induction evs as [|ev evs IH] using rev_ind; [done|]. unfold run in *. rewrite fold_left_app. cbn [fold_left]. rewrite uTurn_ledger by apply run_ok.
  rewrite IH, !sumOf_app, !sumOf_one. done.
Qed.

(** Nothing is owed once the updater is idle. *)
Lemma idle_owes s : updaterOk s -> IsIdle s = true ->
  upQueue s = [] /\ upWorker s = NoWorker /\ upPendingBatch s = 0 /\ upWaiters s = ∅ /\ (forall gid, 0 <= gid -> gid ∉ upPending s).
Proof.
  intros [A B C D E F] H. unfold IsIdle in H. apply andb_true_iff in H as [H1%negb_true_iff H2].
  assert (Eq : upQueue s = []) by (by destruct (upQueue s)).
  assert (Ew : upWorker s = NoWorker) by (destruct (upWorker s); try done; exfalso; assert (X : upRunning s = true) by (by apply A); congruence).
  assert (Hp : forall gid, 0 <= gid -> gid ∉ upPending s).
  { intros gid Hg Hin. apply D in Hin; [|done]. unfold busyGids, active in Hin. rewrite Ew, Eq in Hin. by apply elem_of_nil in Hin. }
  split; [done|]. split; [done|]. split; [rewrite C; unfold active; by rewrite Ew, Eq|]. split; [|done].
  apply map_eq. intros gid. rewrite lookup_empty. destruct (upWaiters s !! gid) as [l|] eqn:El; [|done]. destruct (F gid l El) as [F1 F2]. by destruct (Hp gid F1).
Qed.

(** C16: Every callback given with a refresh or an import, and every caller who
    waits for an outcome, is called once for each time it was given: what was not
    called yet is held by a queued or running job, among its group's waiters, or by
    a caller who was turned away and is about to call it.  Once the updater is idle
    everything was called but what such callers hold.  A batch of no payloads gives
    no callback: ImportBatch returns at once. *)
Theorem updates_answered_once evs f d :
  owedFinish f (run evs) + finishedCalls f (run evs) = sumOf (givenFinish f) evs /\
  owedAnswer d (run evs) + answeredCalls d (run evs) = sumOf (givenAnswer d) evs /\
  0 <= owedFinish f (run evs) /\ 0 <= owedAnswer d (run evs) /\
  (IsIdle (run evs) = true -> countIn f (upLate (run evs)) + finishedCalls f (run evs) = sumOf (givenFinish f) evs /\ answeredCalls d (run evs) = sumOf (givenAnswer d) evs).
Proof.
  pose proof (run_ledger_updater f d evs) as H. unfold ledger in H. injection H as H1 H2. split; [done|]. split; [done|].
  split; [unfold owedFinish, countIn; pose proof (zlen_nonneg (List.filter (Nat.eqb f) (upLate (run evs)))); pose proof (zlen_nonneg (List.filter (hasFinish f) (beforeFinish (upWorker (run evs)) ++ upQueue (run evs)))); lia|]. split.
  - unfold owedAnswer, countIn, waitingIn. assert (0 <= sumOf (fun kv : Z * list nat => countIn d (snd kv)) (map_to_list (upWaiters (run evs)))) by (apply sumOf_nonneg; intros kv; apply zlen_nonneg).
    pose proof (zlen_nonneg (List.filter (Nat.eqb d) (answering (upWorker (run evs))))). lia.
  - intros Hi. destruct (idle_owes _ (run_ok evs) Hi) as (Eq & Ew & _ & Et & _). unfold owedFinish in H1. rewrite Eq, Ew in H1.
    unfold owedAnswer in H2. rewrite Ew, Et in H2. cbn [beforeFinish app List.filter answering] in *. split; [change (zlen []) with 0 in H1; lia|]. unfold waitingIn in H2. rewrite map_to_list_empty in H2.
    unfold countIn in H2. cbn [List.filter] in H2. change (zlen []) with 0 in *. cbn [sumOf fold_right] in H2. lia.
Qed.

(** ** SubscribeUrl's refresh *)

(** The group that is being refreshed now. *)
Definition refreshing (s : Updater) : list Z :=
  match upWorker s with InRun j made => if 0 <=? jobGid j then [jobGid j] else option_list made | _ => [] end.

(** A job that makes its own group was asked for with no group. *)
Record subscribeOk (s : Updater) : Prop := {
  sb_jobs : Forall (fun j => jobSubscribe j = true -> jobGid j = -1) (active s);
  sb_made : forall j gid, upWorker s = InRun j (Some gid) -> jobSubscribe j = true
}.

Lemma subscribe_enqueue j s s' : updaterOk s -> subscribeOk s -> (jobSubscribe j = true -> jobGid j = -1) ->
  upQueue s' = upQueue (enqueueLocked j s) -> upWorker s' = upWorker (enqueueLocked j s) -> subscribeOk s'.
Proof.
  intros W [S1 S2] Hj Eq Ew. split.
  - unfold active. rewrite Eq, Ew. fold (active (enqueueLocked j s)). rewrite active_enqueue by done. apply Forall_app. split; [done|by constructor].
  - intros j' gid. rewrite Ew. cbn [upWorker enqueueLocked]. destruct (upRunning s); [apply S2|done].
Qed.

Lemma subscribe_batches gids s : updaterOk s -> subscribeOk s -> subscribeOk (fold_left batchOne gids s).
Proof.
  revert s. induction gids as [|gid gids IH]; intros s W S; [done|]. cbn [fold_left]. apply IH; [by apply (batches_ok [gid])|].
  unfold batchOne. case_bool_decide; [done|]. by eapply (subscribe_enqueue (mkJob gid true false None) s).
Qed.

Lemma subscribe_work r s : subscribeOk s -> subscribeOk (work r s).
Proof.
  intros [S1 S2]. unfold work, active in *. destruct (upWorker s) as [| |j m|j o|j o|[|d l] o] eqn:Ew.
  - split; unfold active; by rewrite Ew.
  - destruct (upQueue s) as [|j q] eqn:Eq; split; unfold active; cbn [upQueue upWorker current app] in *; done.
  - split; unfold active; cbn [upQueue upWorker uWorker current app] in *; done.
  - split; unfold active; destruct (jobFinish j); cbn [upQueue upWorker uWorker callFinish uCall current app] in *; done.
  - cbn [current app] in S1. apply Forall_cons in S1 as [_ S1]. destruct (0 <=? jobGid j); split; unfold active; cbn [upQueue upWorker current app]; done.
  - split; unfold active; cbn [upQueue upWorker uWorker current app] in *; done.
  - split; unfold active; cbn [upQueue upWorker uWorker uCall current app] in *; done.
Qed.

Lemma subscribe_turn ev s : updaterOk s -> subscribeOk s -> subscribeOk (turn s ev).
Proof.
  intros W S. destruct ev as [gid f|gid d|gids|f|payloads f|f|f|gid|r]; cbn [turn].
  - unfold RefreshGroup. case_bool_decide; [by destruct S; split|]. by eapply (subscribe_enqueue (mkJob gid false false f) s).
  - unfold RefreshWithOutcome. destruct (gid <? 0); [by destruct d; destruct S; split|]. destruct d; cbv zeta; case_bool_decide; try (by destruct S; split);
      by eapply (subscribe_enqueue (mkJob gid false false None) s).
  - unfold RefreshAll. destruct (0 <? upPendingBatch s); [done|]. by apply subscribe_batches.
  - by eapply (subscribe_enqueue (mkJob (-1) false false f) s).
  - unfold ImportBatch. destruct (isNil payloads); [done|]. by eapply (subscribe_enqueue (mkJob (-1) false false f) s).
  - by eapply (subscribe_enqueue (mkJob (-1) false true f) s).
  - unfold callLate. destruct (takeOne f (upLate s)); [by destruct S; split|done].
  - unfold groupMade. destruct (upWorker s) as [| |j [|]|j o|j o|l o] eqn:Ew; try done. destruct (jobSubscribe j) eqn:Ej; [|done].
    destruct S as [S1 S2]. unfold active in *. rewrite Ew in S1. split; [done|]. intros j' gid' [= <- _]. done.
  - by apply subscribe_work.
Qed.

Lemma run_subscribeOk evs : subscribeOk (run evs).
Proof.
  induction evs as [|ev evs IH] using rev_ind; [split; [by constructor|done]|]. unfold run in *. rewrite fold_left_app. cbn [fold_left].
  apply subscribe_turn; [apply run_ok|done].
Qed.

Lemma busyGids_spec s gid : 0 <= gid -> gid ∈ busyGids s <-> exists j, j ∈ active s /\ jobGid j = gid.
Proof.
  intros Hg. unfold busyGids. rewrite filter_elem, list_elem_of_fmap, Z.leb_le. split; [intros [(j & -> & Hj) _]; by exists j|].
  intros (j & Hj & <-). split; [by exists j|done].
Qed.

(** C27: A group is busy exactly while one refresh asked for it, and only one, is
    queued or not yet cleared.  What the worker refreshes at any moment is one
    group at most: one that is busy so, or the group that a SubscribeUrl has just
    made, whose first refresh runs inside the subscription's own job.  That
    refresh does not make the group busy: one asked for meanwhile is queued, and
    is then what makes it busy.  The batch in progress is counted exactly, and
    something queued always has a worker. *)
Theorem one_refresh_per_group evs (s := run evs) :
  NoDup (busyGids s) /\ (forall gid, 0 <= gid -> IsBusy gid s = true <-> gid ∈ busyGids s) /\
  (forall gid, gid ∈ refreshing s -> 0 <= gid -> IsBusy gid s = true \/ exists j, upWorker s = InRun j (Some gid) /\ jobSubscribe j = true /\ jobGid j = -1) /\
  (forall j gid, upWorker s = InRun j (Some gid) -> 0 <= gid -> refreshing s = [gid] /\ (IsBusy gid s = true <-> exists j', j' ∈ upQueue s /\ jobGid j' = gid)) /\
  upPendingBatch s = zlen (List.filter jobBatch (active s)) /\ (upRunning s = true <-> upWorker s <> NoWorker) /\
  (upQueue s <> [] -> upWorker s <> NoWorker) /\ (IsIdle s = true -> forall gid, 0 <= gid -> IsBusy gid s = false).
Proof.
  subst s. pose proof (run_ok evs) as W. pose proof (idle_owes _ W) as Hi. destruct (run_subscribeOk evs) as [S1 S2]. destruct W as [A B C D E F].
  set (s := run evs) in *. clearbody s.
  assert (Hb : forall gid, 0 <= gid -> IsBusy gid s = true <-> gid ∈ busyGids s) by (intros gid Hg; unfold IsBusy; rewrite bool_decide_eq_true; by apply D).
  assert (Hm : forall j gid, upWorker s = InRun j (Some gid) -> jobSubscribe j = true /\ jobGid j = -1).
  { intros j gid Ew. pose proof (S2 j gid Ew) as Hj. split; [done|]. unfold active in S1. rewrite Ew in S1. apply Forall_cons in S1 as [S1 _]. by apply S1. }
  split; [done|]. split; [done|]. split; [|split; [|split; [done|split; [done|split; [intros H; by apply A, B|]]]]].
  - intros gid Hin Hg. unfold refreshing in Hin. destruct (upWorker s) as [| |j m|j o|j o|l o] eqn:Ew; try (by apply elem_of_nil in Hin). destruct (Z.leb_spec 0 (jobGid j)).
    + apply list_elem_of_singleton in Hin as ->. left. apply Hb, busyGids_spec; [done..|]. exists j. split; [|done]. unfold active. rewrite Ew. by left.
    + destruct m as [m|]; [|by apply elem_of_nil in Hin]. apply list_elem_of_singleton in Hin as ->. right. exists j. split; [done|]. by apply (Hm j m).
  - intros j gid Ew Hg. destruct (Hm j gid Ew) as [_ Hj]. split; [unfold refreshing; rewrite Ew, Hj; done|]. rewrite Hb, busyGids_spec by done.
    unfold active. rewrite Ew. cbn [current app]. split; [|intros (j' & Hj' & Hg'); exists j'; split; [by right|done]].
    intros (j' & [->|Hin]%elem_of_cons & Hg'); [lia|by exists j'].
  - intros H gid Hg. apply bool_decide_eq_false. by apply Hi.
Qed.

(** A refresh asked for while SubscribeUrl refreshes its new group 5 is queued
    after it; the group was not busy before. *)
Example refresh_behind_a_subscription :
  let evs := [AskSubscribe None; WorkerStep NoFailure; GroupMade 5] in
  refreshing (run evs) = [5] /\ IsBusy 5 (run evs) = false /\
  upQueue (run (evs ++ [AskRefresh 5 None])) = [mkJob 5 false false None] /\ IsBusy 5 (run (evs ++ [AskRefresh 5 None])) = true.
Proof. repeat split; vm_compute; reflexivity. Qed.

(** ** The worker gets to the end *)

Definition waitersCount (s : Updater) : nat := list_sum (map (fun kv => length (snd kv)) (map_to_list (upWaiters s))).

Definition workLeft (s : Updater) : nat :=
  5 * length (upQueue s) + waitersCount s +
  match upWorker s with NoWorker => 0 | Taking => 1 | Answering l _ => 2 + length l | AtClear _ _ => 3 | AtFinish _ _ => 4 | InRun _ _ => 5 end.

Lemma waitersCount_delete g (m : gmap Z (list nat)) :
  list_sum (map (fun kv => length (snd kv)) (map_to_list m)) = (length (default [] (m !! g)) + list_sum (map (fun kv => length (snd kv)) (map_to_list (delete g m))))%nat.
Proof.
  destruct (m !! g) as [l|] eqn:E.
  - assert (Hp : forall x y : list (Z * list nat), x ≡ₚ y -> list_sum (map (fun kv => length (snd kv)) x) = list_sum (map (fun kv => length (snd kv)) y)).
    { induction 1 as [|x k1 k2 _ IH|x y k|k1 k2 k3 _ IH1 _ IH2]; [done|unfold list_sum in *; cbn [map fold_right]; by rewrite IH|unfold list_sum; cbn [map fold_right]; apply Nat.add_shuffle3|by rewrite IH1]. }
    rewrite <- (Hp _ _ (map_to_list_delete m g l E)). done.
  - by rewrite delete_id.
Qed.

Lemma work_decreases r s : upWorker s <> NoWorker -> (workLeft (work r s) < workLeft s)%nat.
Proof.
  intros Hw. unfold work, workLeft. destruct (upWorker s) as [| |j m|j o|j o|[|e l] o] eqn:Ew; [done|..].
  - destruct (upQueue s) as [|j q] eqn:Eq; cbn [upWorker upQueue]; unfold waitersCount; cbn [upWaiters length]; lia.
  - cbn [upWorker upQueue uWorker]. unfold waitersCount. cbn [upWaiters uWorker]. lia.
  - cbn [upWorker upQueue uWorker]. unfold waitersCount. destruct (jobFinish j); cbn [callFinish uCall upQueue upWaiters uWorker]; lia.
  - destruct (0 <=? jobGid j); cbn [upWorker upQueue]; unfold waitersCount; cbn [upWaiters]; [|cbn [length]; lia].
    rewrite (waitersCount_delete (jobGid j) (upWaiters s)). lia.
  - cbn [upWorker upQueue uWorker]. unfold waitersCount. cbn [upWaiters uWorker length]. lia.
  - cbn [upWorker upQueue uWorker uCall length]. unfold waitersCount. cbn [upWaiters uWorker uCall]. lia.
Qed.

(** C33: With no new request the worker ends after at most [workLeft] steps, whatever
    its jobs return: the updater is idle, and by then it has called everybody. *)
Theorem updater_drains evs results : (workLeft (run evs) <= length results)%nat ->
  IsIdle (run (evs ++ map WorkerStep results)) = true.
Proof.
  unfold run. rewrite fold_left_app. pose proof (run_ok evs) as W. unfold run in W. set (s := fold_left turn evs newUpdater) in *. clearbody s. clear evs.
  revert s W. induction results as [|r results IH]; intros s W Hl.
  - cbn [map fold_left]. destruct (upWorker s) eqn:Ew; unfold workLeft in Hl; rewrite Ew in Hl; cbn [length] in Hl; try lia.
    unfold IsIdle. destruct (upRunning s) eqn:Er; [exfalso; by apply (proj1 (uo_running s W) Er)|]. cbn [negb andb]. destruct (upQueue s); [done|cbn [length] in Hl; lia].
  - cbn [map fold_left turn]. apply IH; [by apply work_ok|]. assert (Hc : upWorker s = NoWorker \/ upWorker s <> NoWorker) by (destruct (upWorker s); [by left|by right..]). destruct Hc as [Ew|Hw].
    + unfold work. rewrite Ew. assert (Hq : upQueue s = []).
      { destruct (upQueue s) eqn:Eq; [done|]. exfalso. apply (proj1 (uo_running s W)); [|done]. apply (uo_queue s W). by rewrite Eq. }
      assert (Ht : waitersCount s = 0%nat).
      { assert (Hi : IsIdle s = true). { unfold IsIdle. destruct (upRunning s) eqn:Er; [exfalso; by apply (proj1 (uo_running s W) Er)|]. by rewrite Hq. }
        destruct (idle_owes s W Hi) as (_ & _ & _ & Et & _). unfold waitersCount. rewrite Et. by rewrite map_to_list_empty. }
      unfold workLeft. rewrite Ew, Hq, Ht. cbn [length]. lia.
    + pose proof (work_decreases r s Hw). cbn [length] in Hl. lia.
Qed.

(** Two callers share one refresh of group 3, a third is turned away and calls its
    own callback, an import follows. *)
Definition updateEvents : list UpdaterEvent :=
  [AskOutcome 3 (Some 7%nat); AskRefresh 3 (Some 8%nat); AskImport (Some 9%nat); WorkerStep NoFailure; AskOutcome 3 (Some 10%nat); CallLate 8].

Lemma updater_drains_witness :
  workLeft (run updateEvents) = 12%nat /\ IsIdle (run (updateEvents ++ map WorkerStep (repeat NoFailure 12))) = true /\
  upCalls (run (updateEvents ++ map WorkerStep (repeat NoFailure 12))) = [Finished 8; Answered 7 NoFailure; Answered 10 NoFailure; Finished 9].
Proof.
  split; [vm_compute; reflexivity|]. split; [|vm_compute; reflexivity]. apply updater_drains. vm_compute. lia.
Defined.

Lemma schedule_agrees_witness :
  let settings := mkScheduleSettings 60 false in
  let g := mkSchedule 1 (u "https://a.example/s") false false 100 0 0 false None 0 in
  NextAutoUpdate settings [g] ∅ = 3700 /\ NextAutoUpdate settings [g] (snd (CheckAutoUpdate settings [g] 3700 ∅)) = 7300 /\
  fst (CheckAutoUpdate settings [g] 3700 ∅) <> [].
Proof.
  cbv zeta. split; [vm_compute; reflexivity|]. split; [vm_compute; reflexivity|].
  pose proof (schedule_agrees (mkScheduleSettings 60 false) [mkSchedule 1 (u "https://a.example/s") false false 100 0 0 false None 0] ∅ 3700) as H. cbv zeta in H.
  assert (Hn : NoDup (map scId [mkSchedule 1 (u "https://a.example/s") false false 100 0 0 false None 0])) by (apply NoDup_singleton).
  specialize (H Hn ltac:(lia)). destruct (CheckAutoUpdate _ _ 3700 ∅) as [gids attempts]. destruct H as [H _]. apply H. vm_compute. split; discriminate.
Defined.
