(* ===== verification/TestResults.v ===== *)
(** What a test writes into a profile: the result handlers of
    src/src/engine/tests/TestRunner.cpp and the latency stamp of
    src/src/database/entities/Profile.cpp.

    The core's answers are records of the fields the handlers read.  The clock,
    the country table and QUrl are arguments. *)
From stdpp Require Import base list gmap strings.
From Stdlib Require Import ZArith Lia Bool.
From S2P Require Import Prelude.

(** ** Profiles as the tests see them *)

Record Tested := mkTested {
  tsGid : Z;
  tsType : qstr;
  tsLatency : Z;
  tsLatencyAt : Z;
  tsIpOut : qstr;
  tsCountry : qstr;
  tsDlSpeed : qstr;
  tsUlSpeed : qstr;
  tsUdpAvg : Z;
  tsUdpJitter : Z;
  tsUdpLoss : Z;
  tsUdpError : qstr;
  tsUplink : Z;
  tsDownlink : Z
}.

Definition kLatencyConnectOnly : Z := -2.

(** 0 means never measured, so a reset clears the stamp. *)
Definition SetLatency (now ms : Z) (t : Tested) : Tested :=
  mkTested (tsGid t) (tsType t) ms (if ms =? 0 then 0 else now) (tsIpOut t) (tsCountry t) (tsDlSpeed t) (tsUlSpeed t)
    (tsUdpAvg t) (tsUdpJitter t) (tsUdpLoss t) (tsUdpError t) (tsUplink t) (tsDownlink t).

Definition withIp (ip country : qstr) (t : Tested) : Tested :=
  mkTested (tsGid t) (tsType t) (tsLatency t) (tsLatencyAt t) ip country (tsDlSpeed t) (tsUlSpeed t)
    (tsUdpAvg t) (tsUdpJitter t) (tsUdpLoss t) (tsUdpError t) (tsUplink t) (tsDownlink t).

Definition withUdp (avg jitter loss : Z) (error : qstr) (t : Tested) : Tested :=
  mkTested (tsGid t) (tsType t) (tsLatency t) (tsLatencyAt t) (tsIpOut t) (tsCountry t) (tsDlSpeed t) (tsUlSpeed t)
    avg jitter loss error (tsUplink t) (tsDownlink t).

Definition withSpeed (dl ul country : qstr) (t : Tested) : Tested :=
  mkTested (tsGid t) (tsType t) (tsLatency t) (tsLatencyAt t) (tsIpOut t) country dl ul
    (tsUdpAvg t) (tsUdpJitter t) (tsUdpLoss t) (tsUdpError t) (tsUplink t) (tsDownlink t).

Definition withTraffic (up down : Z) (t : Tested) : Tested :=
  mkTested (tsGid t) (tsType t) (tsLatency t) (tsLatencyAt t) (tsIpOut t) (tsCountry t) (tsDlSpeed t) (tsUlSpeed t)
    (tsUdpAvg t) (tsUdpJitter t) (tsUdpLoss t) (tsUdpError t) (tsUplink t + up) (tsDownlink t + down).

Definition IsWorking (t : Tested) : bool := (0 <? tsLatency t) || (tsLatency t =? kLatencyConnectOnly).
Definition IsUnavailable (t : Tested) : bool := (tsLatency t <? 0) && negb (tsLatency t =? kLatencyConnectOnly).

(** ** The core's answers *)

Record URLTestResp := mkUrlResp { urTag : qstr; urLatencyMs : Z; urError : qstr }.
Record IPTestRes := mkIpRes { irTag : qstr; irIp : qstr; irCountryCode : qstr; irError : qstr }.
Record UDPTestRes := mkUdpRes { drTag : qstr; drSent : Z; drReceived : Z; drAvgMs : Z; drJitterMs : Z; drError : qstr }.
Record SpeedTestResult := mkSpeedRes {
  spTag : qstr;
  spDlSpeed : qstr;
  spUlSpeed : qstr;
  spLatency : Z;
  spServerCountry : qstr;
  spError : qstr;
  spCancelled : bool;
  spDlBytes : Z;
  spUlBytes : Z
}.

Record SiteVerdict := mkVerdict { svStatus : Z; svLatencyMs : Z; svError : qstr }.
Record SiteTestRes := mkSiteRes { siTag : qstr; siError : qstr; siProbes : list SiteVerdict }.

Definition reached (v : SiteVerdict) : bool := 0 <? svStatus v.
Definition served (v : SiteVerdict) : bool := (200 <=? svStatus v) && (svStatus v <? 400).

Definition testRunnerIsTestAborted (error : qstr) : bool :=
  containsStr (u "test aborted") error || containsStr (u "context canceled") error.

Definition testRunnerIsVpnProfile (t : Tested) : bool := eqStr (tsType t) (u "openvpn") || eqStr (tsType t) (u "openconnect").

(** ** Handlers *)

(** [vpnConnected] is absent while results stream in and known at the end. *)
Definition applyUrlResult (now : Z) (res : URLTestResp) (vpnConnected : option (gmap qstr bool)) (t : Tested) : Tested :=
  if isNil (urError res) then SetLatency now (urLatencyMs res) t
  else if testRunnerIsTestAborted (urError res) then SetLatency now 0 t
  else match vpnConnected with
       | Some connected =>
           if testRunnerIsVpnProfile t && default false (connected !! urTag res) then SetLatency now kLatencyConnectOnly t else SetLatency now (-1) t
       | None => SetLatency now (-1) t
       end.

Definition applyIpResult (res : IPTestRes) (t : Tested) : Tested :=
  if isNil (irError res) then withIp (irIp res) (irCountryCode res) t else withIp [] [] t.

Definition applyUdpResult (res : UDPTestRes) (t : Tested) : Tested :=
  if negb (isNil (drError res)) || (drReceived res =? 0) then withUdp (-1) 0 100 (drError res) t
  else withUdp (drAvgMs res) (drJitterMs res)
         (if 0 <? drSent res then ((drSent res - drReceived res) * 100) ÷ drSent res else 0) [] t.

Section Speed.
Context (CountryNameToCode : qstr -> qstr).

Definition orKept (shown kept : qstr) : qstr := if isNil shown then kept else shown.
Definition countryOf (name kept : qstr) : qstr := if isNil name then kept else CountryNameToCode name.

Definition firstLatency (now ms : Z) (t : Tested) : Tested :=
  if (tsLatency t <=? 0) && (0 <? ms) then SetLatency now ms t else t.

(** The task a speed poll posts. *)
Definition showSpeed (now : Z) (res : SpeedTestResult) (t : Tested) : Tested :=
  if isNil (spError res) && negb (spCancelled res) then
    let t := firstLatency now (spLatency res) t in
    withSpeed (orKept (spDlSpeed res) (tsDlSpeed t)) (orKept (spUlSpeed res) (tsUlSpeed t)) (countryOf (spServerCountry res) (tsCountry t)) t
  else t.

(** The task a country poll posts. *)
Definition showCountry (now : Z) (res : SpeedTestResult) (t : Tested) : Tested :=
  if isNil (spError res) && negb (spCancelled res) then
    let t := firstLatency now (spLatency res) t in withSpeed (tsDlSpeed t) (tsUlSpeed t) (countryOf (spServerCountry res) (tsCountry t)) t
  else t.

Definition applySpeedResult (now : Z) (res : SpeedTestResult) (t : Tested) : Tested :=
  if isNil (spError res) then
    let t := firstLatency now (spLatency res) t in
    withSpeed (spDlSpeed res) (spUlSpeed res) (countryOf (spServerCountry res) (tsCountry t)) t
  else withSpeed (u "N/A") (u "N/A") [] (SetLatency now (-1) t).

End Speed.

(** ** Targets and deadlines *)

(** Full configs have no map and answer for the profile they were made of. *)
Definition testRunnerResolveEntID (tag2entID : gmap qstr Z) (tag : qstr) (fallback : Z) : Z :=
  if bool_decide (tag2entID = ∅) then fallback else default (-1) (tag2entID !! tag).

Definition testRunnerWithoutAutoSelectors (selectors profileIDs : list Z) : list Z :=
  if isNil selectors then profileIDs else List.filter (fun id => negb (bool_decide (id ∈ selectors))) profileIDs.

Record TestSettings := mkTestSettings {
  test_concurrent : Z;
  url_test_timeout_ms : Z;
  disable_traffic_stats : bool;
  speed_country : bool;
  site_test_targets : list qstr
}.

Definition testRunnerConcurrency (settings : TestSettings) : Z :=
  if (test_concurrent settings <=? 0) || (500 <=? test_concurrent settings) then 100 else test_concurrent settings.

Definition testRunnerBatchRpcTimeoutMs (settings : TestSettings) (tagCount requestsPerTag : Z) : Z :=
  let concurrency := testRunnerConcurrency settings in
  let timeoutMs := if 0 <? url_test_timeout_ms settings then url_test_timeout_ms settings else 3000 in
  let rounds := (Z.max tagCount 1 + concurrency - 1) ÷ concurrency in
  Z.min (rounds * (10000 + requestsPerTag * timeoutMs + 5000) + 30000) (2 ^ 31 - 1).

(** ** Sites *)

Section Sites.
Context {Q : QtChar} (urlHost : qstr -> qstr).

Definition siteLine (line : qstr) : option (qstr * qstr) :=
  let entry := trimmed line in
  if isNil entry || startsWithChar 35 entry then None
  else
    let '(name, url) :=
      match indexOf 124 entry with
      | None => (urlHost entry, entry)
      | Some bar => (trimmed (take bar entry), trimmed (drop (bar + 1) entry))
      end in
    if isNil url then None else Some (if isNil name then url else name, url).

Definition configuredSites (settings : TestSettings) : list (qstr * qstr) := omap siteLine (site_test_targets settings).

End Sites.
