(* ===== verification/TestRunner.v ===== *)
(** The sessions that test profiles: TestRunner in
    src/src/engine/tests/TestRunner.cpp.

    Callers' threads, the session threads, the probes on the pool, the poll
    threads and the tasks posted to the UI thread, cut where they read or write
    what they share: the session mutex, the generation, the stop flag, the
    batch's semaphore, the traffic credits and the profiles.  [trHolder] is the
    session that holds the mutex.  The build of a batch and the core's answers
    are arguments of the steps.  Repaints are left out; the observer's other
    calls, saved rows and finished callbacks go to [trOut], with two notes that
    the code does not make: [OBatch], which names the profiles' tags when a
    generation starts, and [OLive], for a polled result that reached a profile,
    with the generation at which the core served it. *)
From stdpp Require Import base list gmap strings.
From Stdlib Require Import ZArith Lia Bool.
From S2P Require Import Prelude TestResults.

Definition kTestRunnerBatchSize : nat := 100.

Inductive SessionKind := KUrl | KIp | KUdp | KSpeed | KCurrent | KSite.

Definition isLatency (k : SessionKind) : bool := match k with KUrl | KIp | KUdp => true | _ => false end.
Definition isSpeed (k : SessionKind) : bool := match k with KSpeed | KCurrent => true | _ => false end.
Definition isUrl (k : SessionKind) : bool := match k with KUrl => true | _ => false end.
Definition isSite (k : SessionKind) : bool := match k with KSite => true | _ => false end.

(** BuildTestConfigResult, as far as the runner looks at it. *)
Record BuildObject := mkBuild { boError : qstr; boFullConfigs : list Z; boOutboundTags : list qstr; boTag2entID : gmap qstr Z }.

Record Target := mkTarget { tgTag2entID : gmap qstr Z; tgEntID : Z; tgTestCurrent : bool }.

Definition targetsOf (b : BuildObject) : list Target :=
  map (fun id => mkTarget ∅ id false) (boFullConfigs b) ++ (if isNil (boOutboundTags b) then [] else [mkTarget (boTag2entID b) (-1) false]).

(** The columns are the names of [configuredSites]. *)
Record SiteReport := mkReport { srRows : gmap Z (list SiteVerdict); srErrors : gmap Z qstr; srSkipped : list Z; srError : qstr }.

(** Where a session's thread is.  [Asked] and [Waiting] are the thread of
    queueUrlTests; [Join] waits for a batch's probes, [Sequence] runs the targets
    one after another and [JoinOne] waits for the one that runs. *)
Inductive Stage :=
| Asked
| Waiting
| Begin
| Baselines
| Next (i : nat)
| Prepare (i : nat)
| Join (i : nat) (need : nat) (ids : list Z)
| Sequence (i : nat) (rest : list Target)
| JoinOne (i : nat) (rest : list Target)
| Closing
| Unlocking
| Finishing
| Ended.

Record Session := mkSession {
  seKind : SessionKind;
  seIds : list Z;
  seFinish : option nat;
  seInteractive : bool;
  seHook : bool;
  seStage : Stage;
  seReleased : nat;
  seTested : list (Z * Z);
  seGroup : option Z;
  seReport : SiteReport
}.

Definition se_Ids v s := mkSession (seKind s) v (seFinish s) (seInteractive s) (seHook s) (seStage s) (seReleased s) (seTested s) (seGroup s) (seReport s).
Definition se_Stage v s := mkSession (seKind s) (seIds s) (seFinish s) (seInteractive s) (seHook s) v (seReleased s) (seTested s) (seGroup s) (seReport s).
Definition se_Released v s := mkSession (seKind s) (seIds s) (seFinish s) (seInteractive s) (seHook s) (seStage s) v (seTested s) (seGroup s) (seReport s).
Definition se_Tested v s := mkSession (seKind s) (seIds s) (seFinish s) (seInteractive s) (seHook s) (seStage s) (seReleased s) v (seGroup s) (seReport s).
Definition se_Group v s := mkSession (seKind s) (seIds s) (seFinish s) (seInteractive s) (seHook s) (seStage s) (seReleased s) (seTested s) v (seReport s).
Definition se_Report v s := mkSession (seKind s) (seIds s) (seFinish s) (seInteractive s) (seHook s) (seStage s) (seReleased s) (seTested s) (seGroup s) v.

Inductive Result :=
| RUrl (r : URLTestResp)
| RIp (r : IPTestRes)
| RUdp (r : UDPTestRes)
| RSpeed (r : SpeedTestResult)
| RSite (r : SiteTestRes).

Definition resultTag (r : Result) : qstr :=
  match r with RUrl r => urTag r | RIp r => irTag r | RUdp r => drTag r | RSpeed r => spTag r | RSite r => siTag r end.

(** What an RPC brings back. *)
Record Answer := mkAnswer { anOk : bool; anError : qstr; anResults : list Result; anVpn : gmap qstr bool; anFlushDue : bool }.

Inductive ProbeStage :=
| PrQueued
| PrChecked
| PrAsked (poller : option nat)
| PrFlush (a : Answer)
| PrApply (rs : list Result) (vpn : gmap qstr bool)
| PrDone.

Record Probe := mkProbe { prSession : nat; prTarget : Target; prStage : ProbeStage }.

(** A poll thread; what it applies was served at generation [served]. *)
Inductive PollStage :=
| PoSleeping
| PoTick
| PoAsking
| PoServed (served : Z) (a : Answer)
| PoApply (served : Z) (rs : list Result) (updated : list Z)
| PoGone.

Record Poller := mkPoller {
  poKind : SessionKind;
  poHook : bool;
  poTag2entID : gmap qstr Z;
  poGen : Z;
  poStopped : bool;
  poStage : PollStage
}.

Definition po_Stage v p := mkPoller (poKind p) (poHook p) (poTag2entID p) (poGen p) (poStopped p) v.
Definition po_Stopped v p := mkPoller (poKind p) (poHook p) (poTag2entID p) (poGen p) v (poStage p).

Inductive UiTask :=
| TkTestedChanged (ids : list Z)
| TkShowSpeed (id : Z) (res : SpeedTestResult)
| TkShowCountry (id : Z) (res : SpeedTestResult)
| TkReport (done_ : option nat) (report : SiteReport)
| TkRemoveUnavailable (ids : list Z).

Inductive TestOut :=
| OFinished (done_ : nat)
| OReport (done_ : nat) (report : SiteReport)
| OBusy
| OSeeded (count : Z)
| OProgressed
| OCleared
| OTestedChanged (ids : list Z)
| OSaved (id : Z)
| OHook (id : Z)
| ORpc (session : nat)
| OGeoError (error : qstr)
| OConfigDelta (id up down : Z)
| OAppDelta (tag : qstr) (up down : Z)
| OTrafficSaved (ids : list Z)
| OReposition (tested : list (Z * Z))
| ORemoveUnavailable (ids : list Z)
| OStopTests
| OUdpColumn
| OBatch (gen : Z) (tag2entID : gmap qstr Z)
| OLive (id served : Z) (tag : qstr).

Record TestRunner := mkTestRunner {
  trHolder : option nat;
  trGen : Z;
  trStop : bool;
  trInteractive : bool;
  trTestingCurrent : bool;
  trSessions : list Session;
  trProbes : list Probe;
  trPollers : list Poller;
  trTasks : list UiTask;
  trProfiles : gmap Z Tested;
  trRunning : option Z;
  trCredited : gmap qstr (Z * Z);
  trPending : gset Z;
  trOut : list TestOut
}.

Definition tr_Holder v r := mkTestRunner v (trGen r) (trStop r) (trInteractive r) (trTestingCurrent r) (trSessions r) (trProbes r) (trPollers r) (trTasks r) (trProfiles r) (trRunning r) (trCredited r) (trPending r) (trOut r).
Definition tr_Gen v r := mkTestRunner (trHolder r) v (trStop r) (trInteractive r) (trTestingCurrent r) (trSessions r) (trProbes r) (trPollers r) (trTasks r) (trProfiles r) (trRunning r) (trCredited r) (trPending r) (trOut r).
Definition tr_Stop v r := mkTestRunner (trHolder r) (trGen r) v (trInteractive r) (trTestingCurrent r) (trSessions r) (trProbes r) (trPollers r) (trTasks r) (trProfiles r) (trRunning r) (trCredited r) (trPending r) (trOut r).
Definition tr_Interactive v r := mkTestRunner (trHolder r) (trGen r) (trStop r) v (trTestingCurrent r) (trSessions r) (trProbes r) (trPollers r) (trTasks r) (trProfiles r) (trRunning r) (trCredited r) (trPending r) (trOut r).
Definition tr_TestingCurrent v r := mkTestRunner (trHolder r) (trGen r) (trStop r) (trInteractive r) v (trSessions r) (trProbes r) (trPollers r) (trTasks r) (trProfiles r) (trRunning r) (trCredited r) (trPending r) (trOut r).
Definition tr_Sessions v r := mkTestRunner (trHolder r) (trGen r) (trStop r) (trInteractive r) (trTestingCurrent r) v (trProbes r) (trPollers r) (trTasks r) (trProfiles r) (trRunning r) (trCredited r) (trPending r) (trOut r).
Definition tr_Probes v r := mkTestRunner (trHolder r) (trGen r) (trStop r) (trInteractive r) (trTestingCurrent r) (trSessions r) v (trPollers r) (trTasks r) (trProfiles r) (trRunning r) (trCredited r) (trPending r) (trOut r).
Definition tr_Pollers v r := mkTestRunner (trHolder r) (trGen r) (trStop r) (trInteractive r) (trTestingCurrent r) (trSessions r) (trProbes r) v (trTasks r) (trProfiles r) (trRunning r) (trCredited r) (trPending r) (trOut r).
Definition tr_Tasks v r := mkTestRunner (trHolder r) (trGen r) (trStop r) (trInteractive r) (trTestingCurrent r) (trSessions r) (trProbes r) (trPollers r) v (trProfiles r) (trRunning r) (trCredited r) (trPending r) (trOut r).
Definition tr_Profiles v r := mkTestRunner (trHolder r) (trGen r) (trStop r) (trInteractive r) (trTestingCurrent r) (trSessions r) (trProbes r) (trPollers r) (trTasks r) v (trRunning r) (trCredited r) (trPending r) (trOut r).
Definition tr_Running v r := mkTestRunner (trHolder r) (trGen r) (trStop r) (trInteractive r) (trTestingCurrent r) (trSessions r) (trProbes r) (trPollers r) (trTasks r) (trProfiles r) v (trCredited r) (trPending r) (trOut r).
Definition tr_Credited v r := mkTestRunner (trHolder r) (trGen r) (trStop r) (trInteractive r) (trTestingCurrent r) (trSessions r) (trProbes r) (trPollers r) (trTasks r) (trProfiles r) (trRunning r) v (trPending r) (trOut r).
Definition tr_Pending v r := mkTestRunner (trHolder r) (trGen r) (trStop r) (trInteractive r) (trTestingCurrent r) (trSessions r) (trProbes r) (trPollers r) (trTasks r) (trProfiles r) (trRunning r) (trCredited r) v (trOut r).
Definition tr_Out v r := mkTestRunner (trHolder r) (trGen r) (trStop r) (trInteractive r) (trTestingCurrent r) (trSessions r) (trProbes r) (trPollers r) (trTasks r) (trProfiles r) (trRunning r) (trCredited r) (trPending r) v.

Definition outTr (o : TestOut) (r : TestRunner) : TestRunner := tr_Out (trOut r ++ [o]) r.
Definition postTr (t : UiTask) (r : TestRunner) : TestRunner := tr_Tasks (trTasks r ++ [t]) r.
Definition setSession (n : nat) (s : Session) (r : TestRunner) : TestRunner := tr_Sessions (<[n := s]> (trSessions r)) r.
Definition setProbe (n : nat) (p : Probe) (r : TestRunner) : TestRunner := tr_Probes (<[n := p]> (trProbes r)) r.
Definition setPoller (n : nat) (p : Poller) (r : TestRunner) : TestRunner := tr_Pollers (<[n := p]> (trPollers r)) r.
Definition putTested (id : Z) (t : Tested) (r : TestRunner) : TestRunner := tr_Profiles (<[id := t]> (trProfiles r)) r.

Definition newTestRunner (profiles : gmap Z Tested) : TestRunner :=
  mkTestRunner None 0 false true false [] [] [] [] profiles None ∅ ∅ [].

Definition emptyReport : SiteReport := mkReport ∅ ∅ [] [].
Definition reportError (id : Z) (error : qstr) (rep : SiteReport) : SiteReport := mkReport (srRows rep) (<[id := error]> (srErrors rep)) (srSkipped rep) (srError rep).
Definition reportRow (id : Z) (row : list SiteVerdict) (rep : SiteReport) : SiteReport := mkReport (<[id := row]> (srRows rep)) (srErrors rep) (srSkipped rep) (srError rep).
Definition reportOver (error : qstr) (rep : SiteReport) : SiteReport := mkReport (srRows rep) (srErrors rep) (srSkipped rep) error.

Definition newSession (kind : SessionKind) (ids : list Z) (finish : option nat) (interactive hook : bool) (stage : Stage) : Session :=
  mkSession kind ids finish interactive hook stage 0 [] None emptyReport.

Section Runner.
Context {Q : QtChar} (urlHost : qstr -> qstr) (CountryNameToCode : qstr -> qstr) (settings : TestSettings) (groups : gmap Z bool).

(** ** Traffic *)

Definition flushTrafficCredits (r : TestRunner) : TestRunner :=
  match List.filter (fun id => 0 <=? id) (elements (trPending r)) with
  | [] => tr_Pending ∅ r
  | ids => outTr (OTrafficSaved ids) (tr_Pending ∅ r)
  end.

(** What the counter gained; one that fell started over. *)
Definition gained (base cur : Z) : Z := if base <=? cur then cur - base else cur.

Definition creditTraffic (id : Z) (tag : qstr) (curUp curDown : Z) (flushDue : bool) (r : TestRunner) : TestRunner :=
  if isNil tag || disable_traffic_stats settings then r
  else
    let base := default (0, 0) (trCredited r !! tag) in
    let dUp := gained (fst base) curUp in
    let dDown := gained (snd base) curDown in
    let r := tr_Credited (<[tag := (curUp, curDown)]> (trCredited r)) r in
    if (dUp <=? 0) && (dDown <=? 0) then r
    else
      let r := outTr (OAppDelta tag dUp dDown) (outTr (OConfigDelta id dUp dDown) r) in
      let r := tr_Pending ({[id]} ∪ trPending r) (tr_Profiles (alter (withTraffic dUp dDown) id (trProfiles r)) r) in
      if flushDue then flushTrafficCredits r else r.

(** ** Asking for tests *)

Definition selectorsOf (r : TestRunner) : list Z :=
  map fst (List.filter (fun kv => eqStr (tsType (snd kv)) (u "autoselector")) (map_to_list (trProfiles r))).

Definition testable (r : TestRunner) (ids : list Z) : list Z := testRunnerWithoutAutoSelectors (selectorsOf r) ids.

Definition finished (f : option nat) (r : TestRunner) : TestRunner := match f with Some f => outTr (OFinished f) r | None => r end.
Definition reported (f : option nat) (rep : SiteReport) (r : TestRunner) : TestRunner := match f with Some f => outTr (OReport f rep) r | None => r end.

(** The mutex is taken: a new generation, and a stop counts from here on. *)
Definition lockSession (n : nat) (interactive : bool) (r : TestRunner) : TestRunner :=
  tr_Interactive interactive (tr_Stop false (tr_Gen (trGen r + 1) (tr_Holder (Some n) r))).

Definition openSession (s : Session) (r : TestRunner) : TestRunner :=
  lockSession (length (trSessions r)) (seInteractive s) (tr_Sessions (trSessions r ++ [s]) r).

Definition runLatencyGroup (kind : SessionKind) (requestedIDs : list Z) (finish : option nat) (interactive hook : bool) (r : TestRunner) : TestRunner :=
  let profileIDs := testable r requestedIDs in
  if isNil profileIDs then finished finish r
  else match trHolder r with
       | Some _ => finished finish (outTr OBusy r)
       | None => openSession (newSession kind profileIDs finish interactive hook Begin) r
       end.

Definition queueUrlTests (requestedIDs : list Z) (finish : option nat) (interactive : bool) (r : TestRunner) : TestRunner :=
  tr_Sessions (trSessions r ++ [newSession KUrl requestedIDs finish interactive false Asked]) r.

Definition runSpeedTests (requestedIDs : list Z) (testCurrent : bool) (finish : option nat) (interactive : bool) (r : TestRunner) : TestRunner :=
  let profileIDs := if testCurrent then requestedIDs else testable r requestedIDs in
  if isNil profileIDs && negb testCurrent then finished finish r
  else match trHolder r with
       | Some _ => finished finish (outTr OBusy r)
       | None => tr_TestingCurrent testCurrent (openSession (newSession (if testCurrent then KCurrent else KSpeed) profileIDs finish interactive false Begin) r)
       end.

Definition runSiteTests (requestedIDs : list Z) (finish : option nat) (r : TestRunner) : TestRunner :=
  let sites := configuredSites urlHost settings in
  let profileIDs := testable r requestedIDs in
  let initialReport := mkReport ∅ ∅ (List.filter (fun id => negb (bool_decide (id ∈ profileIDs))) requestedIDs) [] in
  if isNil sites || isNil profileIDs then
    reported finish (if isNil sites then reportOver (u "No sites are configured to check. Add some in Basic Settings.") initialReport else initialReport) r
  else match trHolder r with
       | Some _ => reported finish (reportOver (u "Another test is still running. Wait for it to finish.") initialReport) (outTr OBusy r)
       | None => openSession (se_Report initialReport (newSession KSite profileIDs finish true false Begin)) r
       end.

Definition stop (r : TestRunner) : TestRunner := outTr OStopTests (tr_Stop true r).
Definition isRunning (r : TestRunner) : bool := isSome (trHolder r).

(** ** Sessions *)

Definition stepSize (kind : SessionKind) : nat := if isSpeed kind && negb (speed_country settings) then 1 else kTestRunnerBatchSize.

Definition profilesOf (r : TestRunner) (ids : list Z) : list (Z * Tested) := omap (fun id => option_map (pair id) (trProfiles r !! id)) ids.

Definition launch (n : nat) (ts : list Target) (r : TestRunner) : TestRunner := tr_Probes (trProbes r ++ map (fun t => mkProbe n t PrQueued) ts) r.

(** A generation with the tags that belong to it. *)
Definition newBatch (tag2entID : gmap qstr Z) (r : TestRunner) : TestRunner :=
  outTr (OBatch (trGen r + 1) tag2entID) (tr_Gen (trGen r + 1) r).

Definition groupTested (s : Session) (profiles : list (Z * Tested)) : option Z :=
  match seGroup s, profiles with
  | None, (_, t) :: _ => if isUrl (seKind s) && isSome (groups !! tsGid t) then Some (tsGid t) else None
  | g, _ => g
  end.

Definition prepare (n : nat) (s : Session) (i : nat) (b : BuildObject) (r : TestRunner) : TestRunner :=
  let ids := take (stepSize (seKind s)) (drop i (seIds s)) in
  let next := (i + stepSize (seKind s))%nat in
  let profiles := profilesOf r ids in
  let s := se_Group (groupTested s profiles) (se_Tested (if isSite (seKind s) then [] else seTested s ++ map (fun p => (tsGid (snd p), fst p)) profiles) s) in
  let r := if isLatency (seKind s) then newBatch (boTag2entID b) r else r in
  if negb (isNil (boError b)) then
    let s := if isSite (seKind s) then se_Report (fold_right (fun id rep => reportError id (boError b) rep) (seReport s) ids) s else s in
    setSession n (se_Stage (Next next) s) r
  else if isSpeed (seKind s) then setSession n (se_Stage (Sequence next (targetsOf b)) s) r
  else if isLatency (seKind s) && isNil (targetsOf b) then setSession n (se_Stage (Next next) s) r
  else setSession n (se_Stage (Join next (length (targetsOf b)) ids) (se_Released 0 s)) (launch n (targetsOf b) r).

Definition begin (n : nat) (s : Session) (r : TestRunner) : TestRunner :=
  if isSpeed (seKind s) then setSession n (se_Stage Baselines s) (flushTrafficCredits r)
  else if isSite (seKind s) then setSession n (se_Stage (Next 0) s) r
  else setSession n (se_Stage (Next 0) s) (outTr (OSeeded (zlen (seIds s))) r).

(** Fresh byte baselines for a speed session. *)
Definition baselines (n : nat) (s : Session) (r : TestRunner) : TestRunner :=
  let r := tr_Pending ∅ (tr_Credited ∅ r) in
  match seKind s with
  | KCurrent => setSession n (se_Stage (Sequence 0 [mkTarget ∅ (-1) true]) s) (outTr (OSeeded 1) r)
  | _ => setSession n (se_Stage (Next 0) s) (outTr (OSeeded (zlen (seIds s))) r)
  end.

(** The last target of a speed batch is done. *)
Definition sequenceOver (n : nat) (s : Session) (i : nat) (r : TestRunner) : TestRunner :=
  match seKind s with
  | KCurrent =>
      let tested := match trRunning r with Some id => match trProfiles r !! id with Some t => [(tsGid t, id)] | None => [] end | None => [] end in
      setSession n (se_Stage Closing (se_Tested (seTested s ++ tested) s)) (tr_TestingCurrent false r)
  | _ => setSession n (se_Stage (Next i) s) r
  end.

Definition closing (n : nat) (s : Session) (r : TestRunner) : TestRunner :=
  if isSpeed (seKind s) then setSession n (se_Stage Unlocking s) (flushTrafficCredits r)
  else if isSite (seKind s) then
    setSession n (se_Stage Unlocking (if trStop r then se_Report (reportOver (u "Test cancelled.") (seReport s)) s else s)) r
  else setSession n (se_Stage Unlocking s) r.

Definition unlocking (n : nat) (s : Session) (r : TestRunner) : TestRunner :=
  setSession n (se_Stage Finishing s)
    (tr_Holder None (if isSite (seKind s) then r else outTr OCleared (outTr (OReposition (seTested s)) r))).

Definition clearsUnavailable (s : Session) : bool := match seGroup s with Some gid => default false (groups !! gid) | None => false end.

Definition finishing (n : nat) (s : Session) (r : TestRunner) : TestRunner :=
  let r := setSession n (se_Stage Ended s) r in
  if isSite (seKind s) then postTr (TkReport (seFinish s) (seReport s)) r
  else
    let r := finished (seFinish s) r in
    if isSpeed (seKind s) then postTr (TkTestedChanged (seIds s)) r
    else if clearsUnavailable s then postTr (TkRemoveUnavailable (seIds s)) r else r.

Definition sessionStep (n : nat) (b : BuildObject) (r : TestRunner) : TestRunner :=
  match trSessions r !! n with
  | None => r
  | Some s =>
      match seStage s with
      | Asked =>
          let ids := testable r (seIds s) in
          if isNil ids then finished (seFinish s) (setSession n (se_Stage Ended s) r) else setSession n (se_Stage Waiting (se_Ids ids s)) r
      | Waiting => match trHolder r with Some _ => r | None => lockSession n (seInteractive s) (setSession n (se_Stage Begin s) r) end
      | Begin => begin n s r
      | Baselines => baselines n s r
      | Next i => setSession n (se_Stage (if (i <? length (seIds s))%nat && negb (trStop r) then Prepare i else Closing) s) r
      | Prepare i => prepare n s i b r
      | Join i need ids =>
          if (seReleased s =? need)%nat then
            setSession n (se_Stage (Next i) s) (if isLatency (seKind s) then postTr (TkTestedChanged ids) r else r)
          else r
      | Sequence i [] => sequenceOver n s i r
      | Sequence i (t :: rest) => setSession n (se_Stage (JoinOne i rest) (se_Released 0 s)) (launch n [t] r)
      | JoinOne i rest => if (seReleased s =? 1)%nat then setSession n (se_Stage (Sequence i rest) s) r else r
      | Closing => closing n s r
      | Unlocking => unlocking n s r
      | Finishing => finishing n s r
      | Ended => r
      end
  end.

(** ** Probes *)

Definition release (n : nat) (r : TestRunner) : TestRunner :=
  match trSessions r !! n with Some s => setSession n (se_Released (S (seReleased s)) s) r | None => r end.

Definition report (n : nat) (f : SiteReport -> SiteReport) (r : TestRunner) : TestRunner :=
  match trSessions r !! n with Some s => setSession n (se_Report (f (seReport s)) s) r | None => r end.

Definition probeDone (k : nat) (p : Probe) (r : TestRunner) : TestRunner :=
  release (prSession p) (setProbe k (mkProbe (prSession p) (prTarget p) PrDone) r).

Definition probeAt (k : nat) (p : Probe) (stage : ProbeStage) (r : TestRunner) : TestRunner :=
  setProbe k (mkProbe (prSession p) (prTarget p) stage) r.

Definition saved (hook : bool) (id : Z) (t : Tested) (r : TestRunner) : TestRunner :=
  let r := outTr (OSaved id) (putTested id t r) in if hook then outTr (OHook id) r else r.

(** Results of a finished RPC, for the profile they name. *)
Definition finalUrl (hook : bool) (entid : Z) (vpn : gmap qstr bool) (now : Z) (res : URLTestResp) (r : TestRunner) : TestRunner :=
  match trProfiles r !! entid with Some ent => saved hook entid (applyUrlResult now res (Some vpn) ent) r | None => r end.

Definition finalIp (entid : Z) (res : IPTestRes) (r : TestRunner) : TestRunner :=
  match trProfiles r !! entid with Some ent => saved false entid (applyIpResult res ent) r | None => r end.

Definition finalUdp (entid : Z) (res : UDPTestRes) (r : TestRunner) : TestRunner :=
  match trProfiles r !! entid with Some ent => putTested entid (applyUdpResult res ent) (outTr OUdpColumn r) | None => r end.

Definition finalSpeed (entid : Z) (flushDue : bool) (now : Z) (res : SpeedTestResult) (r : TestRunner) : TestRunner :=
  match trProfiles r !! entid with
  | None => r
  | Some _ =>
      let r := creditTraffic entid (spTag res) (spUlBytes res) (spDlBytes res) flushDue r in
      match trProfiles r !! entid with
      | Some ent => if spCancelled res then r else saved false entid (applySpeedResult CountryNameToCode now res ent) r
      | None => r
      end
  end.

Definition finalSite (n : nat) (entid : Z) (res : SiteTestRes) (r : TestRunner) : TestRunner :=
  if negb (isNil (siError res)) then report n (reportError entid (siError res)) r
  else if negb (length (siProbes res) =? length (configuredSites urlHost settings))%nat then
    report n (reportError entid (u "The core returned an incomplete site test result.")) r
  else report n (reportRow entid (siProbes res)) r.

(** The profile a result is for: the running one, the one its tag names, or the
    one a full config was made of. *)
Definition applyFinal (s : Session) (p : Probe) (vpn : gmap qstr bool) (flushDue : bool) (now : Z) (x : Result) (r : TestRunner) : TestRunner :=
  let target := prTarget p in
  let entid :=
    if tgTestCurrent target then default (-1) (trRunning r)
    else testRunnerResolveEntID (tgTag2entID target) (resultTag x) (tgEntID target) in
  if entid =? -1 then r
  else
    match x with
    | RUrl res => finalUrl (seHook s) entid vpn now res r
    | RIp res => finalIp entid res r
    | RUdp res => finalUdp entid res r
    | RSpeed res => finalSpeed entid flushDue now res r
    | RSite res => finalSite (prSession p) entid res r
    end.

Definition siteFailed (p : Probe) (error : qstr) (r : TestRunner) : TestRunner :=
  let error := if isNil error then u "The core did not return site test results." else error in
  let ids := if bool_decide (tgTag2entID (prTarget p) = ∅) then [tgEntID (prTarget p)] else map snd (map_to_list (tgTag2entID (prTarget p))) in
  report (prSession p) (fun rep => fold_right (fun id rep => reportError id error rep) rep ids) r.

Definition conclude (k : nat) (s : Session) (p : Probe) (a : Answer) (r : TestRunner) : TestRunner :=
  if negb (anOk a) then
    let r := outTr (OGeoError (anError a)) r in
    probeDone k p (if isSite (seKind s) then siteFailed p (anError a) r else r)
  else if isNil (anResults a) then probeDone k p r
  else probeAt k p (PrApply (anResults a) (anVpn a)) r.

Definition stopPoller (k : option nat) (r : TestRunner) : TestRunner :=
  match k with
  | Some k => match trPollers r !! k with Some p => setPoller k (po_Stopped true p) r | None => r end
  | None => r
  end.

(** The probe's RPC, with its poll thread unless sites are tested. *)
Definition ask (k : nat) (s : Session) (p : Probe) (r : TestRunner) : TestRunner :=
  if isSite (seKind s) then probeAt k p (PrAsked None) (outTr (ORpc (prSession p)) r)
  else
    let r := if isSpeed (seKind s) then newBatch (tgTag2entID (prTarget p)) r else r in
    let r := if isSpeed (seKind s) && negb (speed_country settings) then outTr OProgressed r else r in
    let po := mkPoller (seKind s) (seHook s) (tgTag2entID (prTarget p)) (trGen r) false PoSleeping in
    probeAt k p (PrAsked (Some (length (trPollers r)))) (outTr (ORpc (prSession p)) (tr_Pollers (trPollers r ++ [po]) r)).

Definition probeStep (k : nat) (a : Answer) (now : Z) (r : TestRunner) : TestRunner :=
  match trProbes r !! k with
  | None => r
  | Some p =>
      match trSessions r !! prSession p with
      | None => r
      | Some s =>
          match prStage p with
          | PrQueued => if trStop r then probeDone k p r else probeAt k p PrChecked r
          | PrChecked => ask k s p r
          | PrAsked po =>
              let r := stopPoller po r in
              if isSpeed (seKind s) then probeAt k p (PrFlush a) r else conclude k s p a r
          | PrFlush a => conclude k s p a (flushTrafficCredits r)
          | PrApply [] _ => probeDone k p r
          | PrApply (x :: rs) vpn => probeAt k p (PrApply rs vpn) (applyFinal s p vpn (anFlushDue a) now x r)
          | PrDone => r
          end
      end
  end.

(** ** Poll threads *)

Definition stale (gen : Z) (r : TestRunner) : bool := negb (trGen r =? gen).

Definition pollUrl (hook : bool) (entid now : Z) (res : URLTestResp) (ent : Tested) (r : TestRunner) : TestRunner :=
  saved hook entid (applyUrlResult now res None ent) r.
Definition pollIp (entid : Z) (res : IPTestRes) (ent : Tested) (r : TestRunner) : TestRunner := saved false entid (applyIpResult res ent) r.
Definition pollUdp (entid : Z) (res : UDPTestRes) (ent : Tested) (r : TestRunner) : TestRunner := putTested entid (applyUdpResult res ent) (outTr OUdpColumn r).

Definition pollSpeedTest (entid : Z) (flushDue : bool) (res : SpeedTestResult) (r : TestRunner) : TestRunner :=
  postTr (TkShowSpeed entid res) (creditTraffic entid (spTag res) (spUlBytes res) (spDlBytes res) flushDue r).
Definition pollCountryTest (entid : Z) (res : SpeedTestResult) (r : TestRunner) : TestRunner := postTr (TkShowCountry entid res) r.

(** One polled result: the profiles it changed, and the runner. *)
Definition pollApply (p : Poller) (served : Z) (flushDue : bool) (now : Z) (x : Result) (r : TestRunner) : list Z * TestRunner :=
  let current := match poKind p with KCurrent => true | _ => false end in
  let entid := if current then default (-1) (trRunning r) else default (-1) (poTag2entID p !! resultTag x) in
  let live r := if current then r else outTr (OLive entid served (resultTag x)) r in
  let r := match x with RSpeed _ => if speed_country settings then outTr OProgressed r else r | RSite _ => r | _ => outTr OProgressed r end in
  if entid =? -1 then ([], r)
  else
    match trProfiles r !! entid with
    | None => ([], r)
    | Some ent =>
        match x with
        | RUrl res => ([entid], live (pollUrl (poHook p) entid now res ent r))
        | RIp res => ([entid], live (pollIp entid res ent r))
        | RUdp res => ([entid], live (pollUdp entid res ent r))
        | RSpeed res => ([], live (if speed_country settings then pollCountryTest entid res r else pollSpeedTest entid flushDue res r))
        | RSite _ => ([], r)
        end
    end.

Definition pollerStep (k : nat) (a : Answer) (now : Z) (r : TestRunner) : TestRunner :=
  match trPollers r !! k with
  | None => r
  | Some p =>
      match poStage p with
      | PoSleeping => setPoller k (po_Stage (if poStopped p then PoGone else PoTick) p) r
      | PoTick => setPoller k (po_Stage (if stale (poGen p) r then PoSleeping else PoAsking) p) r
      | PoAsking => setPoller k (po_Stage (PoServed (trGen r) a) p) r
      | PoServed served a =>
          setPoller k (po_Stage (if stale (poGen p) r || negb (anOk a) || isNil (anResults a) then PoSleeping else PoApply served (anResults a) []) p) r
      | PoApply served (x :: rs) updated =>
          let '(ids, r) := pollApply p served (anFlushDue a) now x r in
          setPoller k (po_Stage (PoApply served rs (updated ++ ids)) p) r
      | PoApply served [] updated => setPoller k (po_Stage PoSleeping p) (if isNil updated then r else postTr (TkTestedChanged updated) r)
      | PoGone => r
      end
  end.

(** ** The UI thread *)

Definition shown (id : Z) (res : SpeedTestResult) (f : Tested -> Tested) (r : TestRunner) : TestRunner :=
  if isNil (spError res) && negb (spCancelled res) then outTr (OTestedChanged [id]) (tr_Profiles (alter f id (trProfiles r)) r) else r.

Definition runTask (now : Z) (r : TestRunner) : TestRunner :=
  match trTasks r with
  | [] => r
  | task :: tasks =>
      let r := tr_Tasks tasks r in
      match task with
      | TkTestedChanged ids => outTr (OTestedChanged ids) r
      | TkShowSpeed id res => shown id res (showSpeed CountryNameToCode now res) r
      | TkShowCountry id res => shown id res (showCountry CountryNameToCode now res) r
      | TkReport done_ rep => reported done_ rep r
      | TkRemoveUnavailable ids => outTr (ORemoveUnavailable (map fst (List.filter (fun p => IsUnavailable (snd p)) (profilesOf r ids)))) r
      end
  end.

(** ** Turns *)

Inductive TestEvent :=
| AskLatency (kind : SessionKind) (ids : list Z) (finish : option nat) (interactive hook : bool)
| AskQueued (ids : list Z) (finish : option nat) (interactive : bool)
| AskSpeed (ids : list Z) (testCurrent : bool) (finish : option nat) (interactive : bool)
| AskSites (ids : list Z) (finish : option nat)
| AskStop
| SessionStep (n : nat) (b : BuildObject)
| ProbeStep (k : nat) (a : Answer) (now : Z)
| PollerStep (k : nat) (a : Answer) (now : Z)
| TaskStep (now : Z)
| Others (profiles : gmap Z Tested) (running : option Z).

Definition testTurn (r : TestRunner) (ev : TestEvent) : TestRunner :=
  match ev with
  | AskLatency kind ids finish interactive hook =>
      if isLatency kind then runLatencyGroup kind ids finish interactive (isUrl kind && hook) r else r
  | AskQueued ids finish interactive => queueUrlTests ids finish interactive r
  | AskSpeed ids testCurrent finish interactive => runSpeedTests ids testCurrent finish interactive r
  | AskSites ids finish => runSiteTests ids finish r
  | AskStop => stop r
  | SessionStep n b => sessionStep n b r
  | ProbeStep k a now => probeStep k a now r
  | PollerStep k a now => pollerStep k a now r
  | TaskStep now => runTask now r
  | Others profiles running => tr_Running running (tr_Profiles profiles r)
  end.

Definition testRun (evs : list TestEvent) (r : TestRunner) : TestRunner := fold_left testTurn evs r.

End Runner.
