(* ===== verification/TestRunnerFacts.v ===== *)
(** The runner's invariant: one session at a time, every batch's probes counted,
    and what pollers apply belongs to the batch it was served in. *)
From stdpp Require Import base list gmap strings.
From Stdlib Require Import ZArith Lia Bool.
From S2P Require Import Prelude TestResults TestRunner.

#[local] Arguments sumOf : simpl never.

(** ** Who holds the session *)

Definition holding (st : Stage) : bool := match st with Asked | Waiting | Finishing | Ended => false | _ => true end.

Definition live (p : Probe) : bool := match prStage p with PrDone => false | _ => true end.
Definition liveOf (n : nat) (p : Probe) : Z := if (prSession p =? n)%nat && live p then 1 else 0.
Definition liveProbes (n : nat) (ps : list Probe) : Z := sumOf (liveOf n) ps.

(** The probes a session waits for. *)
Definition awaited (s : Session) : Z :=
  match seStage s with
  | Join _ need _ => Z.of_nat need - Z.of_nat (seReleased s)
  | JoinOne _ _ => 1 - Z.of_nat (seReleased s)
  | _ => 0
  end.

(** Only speed sessions run their targets one after another. *)
Definition stageOk (s : Session) : Prop :=
  match seStage s with Sequence _ _ | JoinOne _ _ | Baselines => isSpeed (seKind s) = true | _ => True end.

Record sessionsOk (holder : option nat) (ss : list Session) (ps : list Probe) : Prop := {
  ok_holder : forall n, holder = Some n <-> exists s, ss !! n = Some s /\ holding (seStage s) = true;
  ok_awaited : forall n s, ss !! n = Some s -> liveProbes n ps = awaited s;
  ok_owner : forall k p, ps !! k = Some p -> (prSession p < length ss)%nat;
  ok_stage : forall n s, ss !! n = Some s -> stageOk s
}.

(** ** Whose results are applied *)

(** The tags of generation [g]. *)
Definition namedIn (g : Z) (m : gmap qstr Z) (outs : list TestOut) : Prop := exists full, OBatch g full ∈ outs /\ (m = ∅ \/ m = full).

Definition pollOk (gen : Z) (outs : list TestOut) (p : Poller) : Prop :=
  poGen p <= gen /\ namedIn (poGen p) (poTag2entID p) outs /\
  match poStage p with
  | PoServed served _ => poGen p <= served <= gen
  | PoApply served _ _ => served = poGen p
  | _ => True
  end.

Record batchesOk (r : TestRunner) : Prop := {
  ok_gens : forall g m, OBatch g m ∈ trOut r -> g <= trGen r;
  ok_names : forall g m m', OBatch g m ∈ trOut r -> OBatch g m' ∈ trOut r -> m = m';
  ok_probes : forall k p s, trProbes r !! k = Some p -> live p = true -> trSessions r !! prSession p = Some s ->
    isLatency (seKind s) = true -> namedIn (trGen r) (tgTag2entID (prTarget p)) (trOut r);
  ok_pollers : forall k p, trPollers r !! k = Some p -> pollOk (trGen r) (trOut r) p;
  ok_live : forall id g tag, OLive id g tag ∈ trOut r -> exists m, OBatch g m ∈ trOut r /\ m !! tag = Some id
}.

Record trOk (r : TestRunner) : Prop := { ok_sessions : sessionsOk (trHolder r) (trSessions r) (trProbes r); ok_batches : batchesOk r }.

(** ** Steps that concern nobody's session *)

Definition plainOut (o : TestOut) : bool := match o with OBatch _ _ | OLive _ _ _ | OFinished _ | OReport _ _ => false | _ => true end.
Definition plainTask (t : UiTask) : bool := match t with TkReport _ _ => false | _ => true end.

Record quietTr (r r' : TestRunner) : Prop := {
  q_holder : trHolder r' = trHolder r;
  q_gen : trGen r' = trGen r;
  q_stop : trStop r' = trStop r;
  q_sessions : trSessions r' = trSessions r;
  q_probes : trProbes r' = trProbes r;
  q_pollers : trPollers r' = trPollers r;
  q_out : exists os, trOut r' = trOut r ++ os /\ Forall (fun o => plainOut o = true) os;
  q_tasks : exists ts, trTasks r' = trTasks r ++ ts /\ Forall (fun t => plainTask t = true) ts
}.

Lemma quietTr_refl r : quietTr r r.
Proof. split; try done; exists []; by rewrite app_nil_r. Qed.

Lemma quietTr_trans r1 r2 r3 : quietTr r1 r2 -> quietTr r2 r3 -> quietTr r1 r3.
Proof.
  intros [A1 A2 A3 A4 A5 A6 (os & A7 & A8) (ts & A9 & A10)] [B1 B2 B3 B4 B5 B6 (os' & B7 & B8) (ts' & B9 & B10)].
  split; try congruence.
  - exists (os ++ os'). rewrite B7, A7, app_assoc. split; [done|]. by apply Forall_app.
  - exists (ts ++ ts'). rewrite B9, A9, app_assoc. split; [done|]. by apply Forall_app.
Qed.

Lemma quiet_outTr o r : plainOut o = true -> quietTr r (outTr o r).
Proof. intros H. split; try done; [by exists [o]; repeat constructor|]. exists []. by rewrite app_nil_r. Qed.

Lemma quiet_postTr t r : plainTask t = true -> quietTr r (postTr t r).
Proof. intros H. split; try done; [|by exists [t]; repeat constructor]. exists []. by rewrite app_nil_r. Qed.

Lemma quiet_profiles m r : quietTr r (tr_Profiles m r).
Proof. split; try done; exists []; by rewrite app_nil_r. Qed.
Lemma quiet_running v r : quietTr r (tr_Running v r).
Proof. split; try done; exists []; by rewrite app_nil_r. Qed.
Lemma quiet_credited v r : quietTr r (tr_Credited v r).
Proof. split; try done; exists []; by rewrite app_nil_r. Qed.
Lemma quiet_pending v r : quietTr r (tr_Pending v r).
Proof. split; try done; exists []; by rewrite app_nil_r. Qed.
Lemma quiet_testingCurrent v r : quietTr r (tr_TestingCurrent v r).
Proof. split; try done; exists []; by rewrite app_nil_r. Qed.

Create HintDb quiet.
#[export] Hint Resolve quietTr_refl quiet_profiles quiet_running quiet_credited quiet_pending quiet_testingCurrent : quiet.
#[export] Hint Extern 1 (quietTr _ (outTr _ _)) => eapply quietTr_trans; [|by apply quiet_outTr] : quiet.
#[export] Hint Extern 1 (quietTr _ (postTr _ _)) => eapply quietTr_trans; [|by apply quiet_postTr] : quiet.
#[export] Hint Extern 1 (quietTr _ (tr_Profiles _ _)) => eapply quietTr_trans; [|by apply quiet_profiles] : quiet.
#[export] Hint Extern 1 (quietTr _ (tr_Credited _ _)) => eapply quietTr_trans; [|by apply quiet_credited] : quiet.
#[export] Hint Extern 1 (quietTr _ (tr_Pending _ _)) => eapply quietTr_trans; [|by apply quiet_pending] : quiet.
#[export] Hint Extern 1 (quietTr _ (putTested _ _ _)) => unfold putTested : quiet.

Lemma quiet_flush r : quietTr r (flushTrafficCredits r).
Proof. unfold flushTrafficCredits. destruct (List.filter _ _); auto with quiet. Qed.
#[export] Hint Resolve quiet_flush : quiet.

Lemma quiet_credit settings id tag up down due r : quietTr r (creditTraffic settings id tag up down due r).
Proof.
  unfold creditTraffic. destruct (isNil tag || disable_traffic_stats settings); [auto with quiet|].
  destruct ((_ <=? 0) && _); [auto with quiet|].
  destruct due; [eapply quietTr_trans; [|apply quiet_flush]|]; auto 8 with quiet.
Qed.
#[export] Hint Resolve quiet_credit : quiet.

Lemma quiet_saved hook id t r : quietTr r (saved hook id t r).
Proof. unfold saved. destruct hook; auto 8 with quiet. Qed.
#[export] Hint Resolve quiet_saved : quiet.

(** A result that concerns no report. *)
Lemma quiet_finals settings CountryNameToCode vpn due now entid r :
  (forall hook res, quietTr r (finalUrl hook entid vpn now res r)) /\ (forall res, quietTr r (finalIp entid res r)) /\
  (forall res, quietTr r (finalUdp entid res r)) /\ (forall res, quietTr r (finalSpeed CountryNameToCode settings entid due now res r)).
Proof.
  unfold finalUrl, finalIp, finalUdp, finalSpeed. split; [|split; [|split]]; intros; destruct (trProfiles r !! entid) as [ent|]; auto with quiet.
  set (r1 := creditTraffic _ _ _ _ _ _ _). destruct (trProfiles r1 !! entid); [|apply quiet_credit].
  destruct (spCancelled res); [apply quiet_credit|]. eapply quietTr_trans; [apply quiet_credit|apply quiet_saved].
Qed.

Lemma quiet_polls settings hook due now entid ent r :
  (forall res, quietTr r (pollUrl hook entid now res ent r)) /\ (forall res, quietTr r (pollIp entid res ent r)) /\
  (forall res, quietTr r (pollUdp entid res ent r)) /\ (forall res, quietTr r (pollCountryTest entid res r)) /\
  (forall res, quietTr r (pollSpeedTest settings entid due res r)).
Proof. unfold pollUrl, pollIp, pollUdp, pollCountryTest, pollSpeedTest. repeat split_and!; intros; auto with quiet. Qed.

(** ** Frames *)

Lemma plain_keeps os o : Forall (fun o => plainOut o = true) os -> plainOut o = false -> o ∉ os.
Proof. intros H Ho Hin. rewrite Forall_forall in H. by rewrite (H o Hin) in Ho. Qed.

Lemma plain_added o (outs os : list TestOut) : Forall (fun o => plainOut o = true) os -> plainOut o = false -> o ∈ outs ++ os -> o ∈ outs.
Proof. intros H Ho Hin. apply elem_of_app in Hin as [?|?]; [done|]. exfalso. by eapply plain_keeps. Qed.

Lemma namedIn_more g m outs os : namedIn g m outs -> namedIn g m (outs ++ os).
Proof. intros (full & H & E). exists full. split; [|done]. apply elem_of_app. by left. Qed.

Lemma pollOk_more gen outs os p : pollOk gen outs p -> pollOk gen (outs ++ os) p.
Proof. intros (A & B & C). split; [done|]. split; [by apply namedIn_more|done]. Qed.

Lemma quietTr_ok r r' : trOk r -> quietTr r r' -> trOk r'.
Proof.
  intros [S [G N P L V]] [A1 A2 A3 A4 A5 A6 (os & A7 & A8) A9]. split; [by rewrite A1, A4, A5|].
  assert (Hb : forall g m, OBatch g m ∈ trOut r' -> OBatch g m ∈ trOut r).
  { intros g m H. rewrite A7 in H. by eapply plain_added. }
  split.
  - intros g m H. rewrite A2. by apply (G g m), Hb.
  - intros g m m' H H'. by apply (N g); apply Hb.
  - intros k p s Hp Hl Hs Hk. rewrite A2, A7. apply namedIn_more. rewrite A5 in Hp. rewrite A4 in Hs. by eapply P.
  - intros k p Hp. rewrite A6 in Hp. rewrite A2, A7. apply pollOk_more. by eapply L.
  - intros id g tag H. rewrite A7 in H. apply (plain_added (OLive id g tag) _ _ A8 eq_refl) in H. destruct (V id g tag H) as (m & Hm & E).
    exists m. split; [|done]. rewrite A7. apply elem_of_app. by left.
Qed.

(** ** Sessions that move *)

Lemma liveOf_nonneg n p : 0 <= liveOf n p.
Proof. unfold liveOf. destruct (_ && _); lia. Qed.

Lemma liveProbes_nonneg n ps : 0 <= liveProbes n ps.
Proof. apply sumOf_nonneg, liveOf_nonneg. Qed.

Lemma live_counted n ps k p : ps !! k = Some p -> live p = true -> prSession p = n -> 0 < liveProbes n ps.
Proof.
  intros E Hl <-. pose proof (sumOf_ge (liveOf (prSession p)) ps k p (liveOf_nonneg _) E) as H.
  unfold liveOf in H at 1. rewrite Nat.eqb_refl, Hl in H. cbn in H. unfold liveProbes. lia.
Qed.

Lemma awaited_holding s : 0 < awaited s -> holding (seStage s) = true.
Proof. unfold awaited. destruct (seStage s); try done; lia. Qed.

(** A probe that lives belongs to the session that holds the mutex. *)
Lemma live_holder r k p : trOk r -> trProbes r !! k = Some p -> live p = true ->
  exists s, trSessions r !! prSession p = Some s /\ trHolder r = Some (prSession p) /\ holding (seStage s) = true /\ 0 < awaited s.
Proof.
  intros [[H A O K] _] E Hl. destruct (lookup_lt_is_Some_2 (trSessions r) (prSession p) (O k p E)) as [s Hs].
  pose proof (live_counted (prSession p) _ k p E Hl eq_refl) as Hc. rewrite (A _ s Hs) in Hc.
  exists s. split; [done|]. pose proof (awaited_holding s Hc) as Hh. split; [|done]. apply H. by exists s.
Qed.

Lemma no_live r n : trOk r -> (forall s, trSessions r !! n = Some s -> awaited s = 0) -> (forall m s, trHolder r = Some m -> trSessions r !! m = Some s -> m = n) ->
  forall k p, trProbes r !! k = Some p -> live p = false.
Proof.
  intros W Ha Hh k p E. destruct (live p) eqn:Hl; [|done]. destruct (live_holder r k p W E Hl) as (s & Hs & Hho & _ & Hw).
  pose proof (Hh _ s Hho Hs) as <-. rewrite (Ha s Hs) in Hw. lia.
Qed.

Lemma sessionsOk_set holder holder' ss ps ps' n s s' : sessionsOk holder ss ps -> ss !! n = Some s ->
  (forall m, m <> n -> liveProbes m ps' = liveProbes m ps) -> liveProbes n ps' = awaited s' ->
  (forall k p, ps' !! k = Some p -> (prSession p < length ss)%nat) ->
  holder' = (if holding (seStage s') then Some n else if holding (seStage s) then None else holder) ->
  (holding (seStage s') = true -> holder = None \/ holder = Some n) -> stageOk s' ->
  sessionsOk holder' (<[n := s']> ss) ps'.
Proof.
  intros [H A O K] E Hps Ha Ho Hh Hfree Hst. pose proof (lookup_lt_Some _ _ _ E) as Hlt. split.
  - intros m. destruct (decide (m = n)) as [->|Hm].
    + rewrite list_lookup_insert_eq by done. rewrite Hh. split.
      * intros Hs. exists s'. split; [done|]. destruct (holding (seStage s')); [done|]. destruct (holding (seStage s)) eqn:Eh; [done|].
        apply H in Hs as (s0 & E0 & H0). rewrite E in E0. injection E0 as <-. congruence.
      * intros (s0 & [= <-] & ->). done.
    + rewrite list_lookup_insert_ne by congruence. rewrite <- H, Hh. destruct (holding (seStage s')) eqn:E'.
      * split; [intros [= ->]; done|]. intros Hs. destruct (Hfree eq_refl) as [F|F]; rewrite F in Hs; [done|]. by injection Hs as ->.
      * destruct (holding (seStage s)) eqn:E1; [|done]. split; [done|]. intros Hs. enough (holder = Some n) by congruence. apply H. by exists s.
  - intros m s0 H0. destruct (decide (m = n)) as [->|Hm].
    + rewrite list_lookup_insert_eq in H0 by done. by injection H0 as <-.
    + rewrite list_lookup_insert_ne in H0 by congruence. rewrite Hps by done. by apply A.
  - intros k p Hp. rewrite length_insert. by eapply Ho.
  - intros m s0 H0. destruct (decide (m = n)) as [->|Hm].
    + rewrite list_lookup_insert_eq in H0 by done. by injection H0 as <-.
    + rewrite list_lookup_insert_ne in H0 by congruence. by eapply K.
Qed.

(** A session of the same kind in the same place. *)
Lemma batchesOk_set r n s s' holder : batchesOk r -> trSessions r !! n = Some s -> seKind s' = seKind s ->
  batchesOk (tr_Holder holder (setSession n s' r)).
Proof.
  intros [G N P L V] E Hk. split; try done. intros k p s0 Hp Hl Hs Hlat. cbn [trSessions tr_Holder setSession tr_Sessions trProbes trGen trOut] in *.
  destruct (decide (prSession p = n)) as [En|En].
  - rewrite En, list_lookup_insert_eq in Hs by (by eapply lookup_lt_Some). injection Hs as <-. apply (P k p s); [done|done|by rewrite En|by rewrite <- Hk].
  - rewrite list_lookup_insert_ne in Hs by congruence. by eapply P.
Qed.

Lemma moved_ok r n s s' holder : trOk r -> trSessions r !! n = Some s -> seKind s' = seKind s -> liveProbes n (trProbes r) = awaited s' ->
  holder = (if holding (seStage s') then Some n else if holding (seStage s) then None else trHolder r) ->
  (holding (seStage s') = true -> trHolder r = None \/ trHolder r = Some n) -> stageOk s' ->
  trOk (tr_Holder holder (setSession n s' r)).
Proof.
  intros [S B] E Hk Ha Hh Hf Hst. split; [|by eapply batchesOk_set]. cbn [trHolder trSessions trProbes tr_Holder setSession tr_Sessions].
  eapply sessionsOk_set; try done. apply (ok_owner _ _ _ S).
Qed.

Lemma setSession_holder n s r : setSession n s r = tr_Holder (trHolder r) (setSession n s r).
Proof. by destruct r. Qed.

(** A holder keeps the mutex. *)
Lemma kept_ok r n s s' : trOk r -> trSessions r !! n = Some s -> seKind s' = seKind s -> liveProbes n (trProbes r) = awaited s' ->
  holding (seStage s) = true -> holding (seStage s') = true -> stageOk s' -> trOk (setSession n s' r).
Proof.
  intros W E Hk Ha H1 H2 Hst. assert (Hh : trHolder r = Some n) by (apply (ok_holder _ _ _ (ok_sessions r W)); by exists s).
  rewrite setSession_holder. eapply moved_ok; try done; [by rewrite H2, Hh|by right].
Qed.

(** ** Generations *)

Lemma gen_ok r : trOk r -> (forall k p, trProbes r !! k = Some p -> live p = true -> forall s, trSessions r !! prSession p = Some s -> isLatency (seKind s) = false) ->
  trOk (tr_Gen (trGen r + 1) r).
Proof.
  intros [S [G N P L V]] Hn. split; [done|]. split; try done.
  - intros g m H. specialize (G g m H). cbn. lia.
  - intros k p s Hp Hl Hs Hk. specialize (Hn k p Hp Hl s Hs). congruence.
  - intros k p Hp. destruct (L k p Hp) as (A & B & C). split; [cbn; lia|]. split; [done|]. destruct (poStage p); try done. cbn. lia.
Qed.

Lemma newBatch_ok m r : trOk r -> (forall k p, trProbes r !! k = Some p -> live p = true -> forall s, trSessions r !! prSession p = Some s -> isLatency (seKind s) = false) ->
  trOk (newBatch m r).
Proof.
  intros W Hn. pose proof (ok_gens r (ok_batches r W)) as Hold. destruct (gen_ok r W Hn) as [S [G N P L V]].
  split; [done|]. unfold newBatch. set (r1 := tr_Gen (trGen r + 1) r) in *. cbn [trOut trGen trProbes trSessions trPollers outTr tr_Out] in *. split; cbn [trOut trGen trProbes trSessions trPollers outTr tr_Out].
  - intros g m' H. apply elem_of_app in H as [H|H]; [by eapply G|]. apply list_elem_of_singleton in H. injection H as -> ->. done.
  - intros g m1 m2 H1 H2. apply elem_of_app in H1 as [H1|H1], H2 as [H2|H2]; try (apply list_elem_of_singleton in H1); try (apply list_elem_of_singleton in H2).
    + by eapply N.
    + injection H2 as -> ->. specialize (Hold _ _ H1). lia.
    + injection H1 as -> ->. specialize (Hold _ _ H2). lia.
    + congruence.
  - intros k p s Hp Hl Hs Hk. specialize (Hn k p Hp Hl s Hs). congruence.
  - intros k p Hp. apply pollOk_more. by eapply L.
  - intros id g tag H. apply elem_of_app in H as [H|H]; [|by apply list_elem_of_singleton in H].
    destruct (V id g tag H) as (m1 & H1 & E). exists m1. split; [|done]. apply elem_of_app. by left.
Qed.

Lemma newBatch_named m r : namedIn (trGen (newBatch m r)) m (trOut (newBatch m r)).
Proof. exists m. split; [|by right]. cbn. apply elem_of_app. right. by apply list_elem_of_singleton. Qed.

(** ** Probes that move *)

Lemma liveProbes_insert n ps k p p' : ps !! k = Some p -> liveProbes n (<[k := p']> ps) = liveProbes n ps - liveOf n p + liveOf n p'.
Proof. intros E. unfold liveProbes. by rewrite (sumOf_insert _ _ _ _ _ E). Qed.

Lemma liveProbes_app n ps qs : liveProbes n (ps ++ qs) = liveProbes n ps + liveProbes n qs.
Proof. apply sumOf_app. Qed.

Lemma liveProbes_launch n m ts : liveProbes n (map (fun t => mkProbe m t PrQueued) ts) = if (m =? n)%nat then Z.of_nat (length ts) else 0.
Proof.
  induction ts as [|t ts IH]; [by destruct (m =? n)%nat|].
  change (liveOf n (mkProbe m t PrQueued) + liveProbes n (map (fun t => mkProbe m t PrQueued) ts) = if (m =? n)%nat then Z.of_nat (S (length ts)) else 0).
  rewrite IH. unfold liveOf. cbn. destruct (m =? n)%nat; cbn; lia.
Qed.

(** Its session, its target and its life are the same. *)
Lemma probe_moved r k p p' : trOk r -> trProbes r !! k = Some p -> prSession p' = prSession p -> prTarget p' = prTarget p -> live p' = live p ->
  trOk (setProbe k p' r).
Proof.
  intros [[H A O K] [G N P L V]] E Hs Ht Hl. pose proof (lookup_lt_Some _ _ _ E) as Hlt. split; split; try done; cbn [trProbes setProbe tr_Probes trSessions].
  - intros n s Hn. rewrite (liveProbes_insert _ _ _ _ _ E). unfold liveOf. rewrite Hs, Hl. rewrite (A n s Hn). lia.
  - intros j q Hq. destruct (decide (j = k)) as [->|Hj].
    + rewrite list_lookup_insert_eq in Hq by done. injection Hq as <-. rewrite Hs. by eapply O.
    + rewrite list_lookup_insert_ne in Hq by congruence. by eapply O.
  - intros j q s Hq. destruct (decide (j = k)) as [->|Hj].
    + rewrite list_lookup_insert_eq in Hq by done. injection Hq as <-. rewrite Hl, Hs, Ht. by apply (P k p s).
    + rewrite list_lookup_insert_ne in Hq by congruence. by eapply P.
Qed.

Lemma probeAt_ok r k p stage : trOk r -> trProbes r !! k = Some p -> live p = true -> stage <> PrDone -> trOk (probeAt k p stage r).
Proof. intros W E Hl Hs. unfold probeAt. eapply probe_moved; try done. rewrite Hl. by destruct stage. Qed.

Lemma awaited_released s : 0 < awaited s -> awaited (se_Released (S (seReleased s)) s) = awaited s - 1.
Proof. unfold awaited. cbn [seStage se_Released seReleased]. destruct (seStage s); try done; lia. Qed.

Lemma probeDone_ok r k p : trOk r -> trProbes r !! k = Some p -> live p = true -> trOk (probeDone k p r).
Proof.
  intros W E Hl. pose proof (live_holder r k p W E Hl) as (s & Hs & Hh & Hho & Haw). destruct W as [[H A O K] [G N P L V]].
  pose proof (lookup_lt_Some _ _ _ E) as Hlt. pose proof (lookup_lt_Some _ _ _ Hs) as Hlt'.
  unfold probeDone, release. cbn [trSessions setProbe tr_Probes]. rewrite Hs. split; split; try done; cbn [trHolder trProbes trSessions setSession tr_Sessions setProbe tr_Probes].
  - intros n. rewrite H. destruct (decide (n = prSession p)) as [->|Hn].
    + rewrite list_lookup_insert_eq by done. split; [|by eauto]. intros (s0 & E0 & H0). rewrite Hs in E0. injection E0 as <-. by eexists.
    + by rewrite list_lookup_insert_ne by congruence.
  - intros n s0 H0. rewrite (liveProbes_insert _ _ _ _ _ E). unfold liveOf. rewrite Hl. cbn [prSession live prStage]. destruct (decide (n = prSession p)) as [->|Hn].
    + rewrite list_lookup_insert_eq in H0 by done. injection H0 as <-. rewrite Nat.eqb_refl, (awaited_released s Haw), <- (A _ s Hs). cbn. lia.
    + rewrite list_lookup_insert_ne in H0 by congruence. rewrite <- (A n s0 H0). destruct (Nat.eqb_spec (prSession p) n); [congruence|]. cbn. lia.
  - intros j q Hq. rewrite length_insert. destruct (decide (j = k)) as [->|Hj].
    + rewrite list_lookup_insert_eq in Hq by done. injection Hq as <-. done.
    + rewrite list_lookup_insert_ne in Hq by congruence. by eapply O.
  - intros n s0 H0. destruct (decide (n = prSession p)) as [->|Hn].
    + rewrite list_lookup_insert_eq in H0 by done. injection H0 as <-. exact (K _ s Hs).
    + rewrite list_lookup_insert_ne in H0 by congruence. by eapply K.
  - intros j q s0 Hq Hl0 Hs0. destruct (decide (j = k)) as [->|Hj].
    + rewrite list_lookup_insert_eq in Hq by done. by injection Hq as <-.
    + rewrite list_lookup_insert_ne in Hq by congruence. destruct (decide (prSession q = prSession p)) as [En|En].
      * rewrite En, list_lookup_insert_eq in Hs0 by done. injection Hs0 as <-. apply (P j q s); [done|done|by rewrite En].
      * rewrite list_lookup_insert_ne in Hs0 by congruence. by apply (P j q s0).
Qed.

(** A session whose report changes. *)
Lemma report_ok r n f : trOk r -> trOk (report n f r).
Proof.
  intros [[H A O K] [G N P L V]]. unfold report. destruct (trSessions r !! n) as [s|] eqn:E; [|done]. pose proof (lookup_lt_Some _ _ _ E) as Hlt.
  split; split; try done; cbn [trHolder trProbes trSessions setSession tr_Sessions].
  - intros m. rewrite H. destruct (decide (m = n)) as [->|Hm].
    + rewrite list_lookup_insert_eq by done. rewrite E. split; intros (s0 & [= <-] & H0); by eexists.
    + by rewrite list_lookup_insert_ne by congruence.
  - intros m s0 H0. destruct (decide (m = n)) as [->|Hm].
    + rewrite list_lookup_insert_eq in H0 by done. injection H0 as <-. by rewrite (A n s E).
    + rewrite list_lookup_insert_ne in H0 by congruence. by apply A.
  - intros j q Hq. rewrite length_insert. by eapply O.
  - intros m s0 H0. destruct (decide (m = n)) as [->|Hm].
    + rewrite list_lookup_insert_eq in H0 by done. injection H0 as <-. exact (K _ s E).
    + rewrite list_lookup_insert_ne in H0 by congruence. by eapply K.
  - intros j q s0 Hq Hl0 Hs0. destruct (decide (prSession q = n)) as [En|En].
    + rewrite En, list_lookup_insert_eq in Hs0 by done. injection Hs0 as <-. apply (P j q s); [done|done|by rewrite En].
    + rewrite list_lookup_insert_ne in Hs0 by congruence. by apply (P j q s0).
Qed.

(** ** Poll threads that move *)

Lemma setPoller_ok r k p : trOk r -> pollOk (trGen r) (trOut r) p -> trOk (setPoller k p r).
Proof.
  intros [S [G N P L V]] Hp. split; [done|]. split; try done. intros j q Hq. cbn [trPollers setPoller tr_Pollers] in Hq.
  destruct (decide (j = k)) as [->|Hj].
  - destruct (decide (k < length (trPollers r))%nat) as [Hlt|Hlt].
    + rewrite list_lookup_insert_eq in Hq by done. by injection Hq as <-.
    + rewrite list_insert_ge in Hq by lia. by eapply L.
  - rewrite list_lookup_insert_ne in Hq by congruence. by eapply L.
Qed.

Lemma newPoller_ok r p : trOk r -> pollOk (trGen r) (trOut r) p -> trOk (tr_Pollers (trPollers r ++ [p]) r).
Proof.
  intros [S [G N P L V]] Hp. split; [done|]. split; try done. intros j q Hq. cbn [trPollers tr_Pollers] in Hq.
  apply lookup_app_Some in Hq as [Hq|[_ Hq]]; [by eapply L|]. apply list_lookup_singleton_Some in Hq as [_ <-]. done.
Qed.

Lemma stopPoller_ok r k : trOk r -> trOk (stopPoller k r).
Proof.
  intros W. unfold stopPoller. destruct k as [k|]; [|done]. destruct (trPollers r !! k) as [p|] eqn:E; [|done].
  apply setPoller_ok; [done|]. exact (ok_pollers r (ok_batches r W) k p E).
Qed.

Lemma stopPoller_probes k r : trProbes (stopPoller k r) = trProbes r /\ trSessions (stopPoller k r) = trSessions r.
Proof. unfold stopPoller. destruct k; [|done]. by destruct (trPollers r !! n). Qed.

Lemma OLive_ok r id g tag m : trOk r -> OBatch g m ∈ trOut r -> m !! tag = Some id -> trOk (outTr (OLive id g tag) r).
Proof.
  intros [S [G N P L V]] Hb Hm. split; [done|]. split; try done; cbn [trOut outTr tr_Out trGen trPollers].
  - intros g' m' H. apply elem_of_app in H as [H|H%list_elem_of_singleton]; [by eapply G|done].
  - intros g' m1 m2 H1 H2. apply elem_of_app in H1 as [H1|H1%list_elem_of_singleton]; [|done].
    apply elem_of_app in H2 as [H2|H2%list_elem_of_singleton]; [|done]. by eapply N.
  - intros k p s Hp Hl Hs Hk. apply namedIn_more. by eapply P.
  - intros k p Hp. apply pollOk_more. by eapply L.
  - intros id' g' tag' H. apply elem_of_app in H as [H|H%list_elem_of_singleton].
    + destruct (V id' g' tag' H) as (m' & H1 & H2). exists m'. split; [|done]. apply elem_of_app. by left.
    + injection H as -> -> ->. exists m. split; [|done]. apply elem_of_app. by left.
Qed.

(** [OFinished] and [OReport] only add to the books. *)
Lemma finishing_ok r o : trOk r -> (match o with OFinished _ | OReport _ _ => True | _ => False end) -> trOk (outTr o r).
Proof.
  intros [S [G N P L V]] Ho. split; [done|]. assert (Hin : forall o', plainOut o' = false -> (match o' with OBatch _ _ | OLive _ _ _ => True | _ => False end) -> o' ∈ trOut r ++ [o] -> o' ∈ trOut r).
  { intros o' _ Ho' H. apply elem_of_app in H as [H|H%list_elem_of_singleton]; [done|]. subst o'. by destruct o. }
  split; try done; cbn [trOut outTr tr_Out trGen trPollers].
  - intros g m H. apply (G g m). by apply Hin.
  - intros g m1 m2 H1 H2. apply (N g); by apply Hin.
  - intros k p s Hp Hl Hs Hk. apply namedIn_more. by eapply P.
  - intros k p Hp. apply pollOk_more. by eapply L.
  - intros id g tag H. apply Hin in H; [|done..]. destruct (V id g tag H) as (m & H1 & H2). exists m. split; [|done]. apply elem_of_app. by left.
Qed.

Lemma finishedTr_ok f r : trOk r -> trOk (finished f r).
Proof. intros W. destruct f; [by apply finishing_ok|done]. Qed.

Lemma reported_ok f rep r : trOk r -> trOk (reported f rep r).
Proof. intros W. destruct f; [by apply finishing_ok|done]. Qed.

Lemma report_task_ok f rep r : trOk r -> trOk (postTr (TkReport f rep) r).
Proof. by intros [S [G N P L V]]. Qed.

(** ** Opening and closing *)

Lemma free_live r k p : trOk r -> trHolder r = None -> trProbes r !! k = Some p -> live p = false.
Proof.
  intros W Hn E. destruct (live p) eqn:Hl; [|done]. destruct (live_holder r k p W E Hl) as (s & _ & Hh & _). congruence.
Qed.

Lemma add_ok r s : trOk r -> holding (seStage s) = false -> stageOk s -> trOk (tr_Sessions (trSessions r ++ [s]) r).
Proof.
  intros W Hs Hst. destruct W as [[H A O K] [G N P L V]].
  assert (Hz : liveProbes (length (trSessions r)) (trProbes r) = 0).
  { apply sumOf_nil, Forall_forall. intros p Hp. apply list_elem_of_lookup in Hp as [k Hk]. unfold liveOf.
    pose proof (O k p Hk). destruct (Nat.eqb_spec (prSession p) (length (trSessions r))); [lia|done]. }
  split; split; try done; cbn [trHolder trSessions trProbes tr_Sessions].
  - intros n. rewrite H. split; intros (s0 & H0 & H1).
    + exists s0. split; [|done]. by apply lookup_app_l_Some.
    + apply lookup_app_Some in H0 as [H0|[_ H0]]; [by exists s0|]. apply list_lookup_singleton_Some in H0 as [_ <-]. congruence.
  - intros n s0 H0. apply lookup_app_Some in H0 as [H0|[Hge H0]]; [by apply A|]. apply list_lookup_singleton_Some in H0 as [Hi <-].
    replace n with (length (trSessions r)) by lia. rewrite Hz. unfold awaited. by destruct (seStage s).
  - intros k p Hp. rewrite length_app. specialize (O k p Hp). lia.
  - intros n s0 H0. apply lookup_app_Some in H0 as [H0|[_ H0]]; [by eapply K|]. by apply list_lookup_singleton_Some in H0 as [_ <-].
  - intros k p s0 Hp Hl H0 Hk. specialize (O k p Hp). rewrite lookup_app_l in H0 by done. by apply (P k p s0).
Qed.

(** The flags, which the invariant does not mention. *)
Lemma flags_ok r v w : trOk r -> trOk (tr_Interactive v (tr_Stop w r)).
Proof. by intros [S [G N P L V]]. Qed.

(** A session that takes the mutex. *)
Lemma lock_ok r n s s' : trOk r -> trHolder r = None -> trSessions r !! n = Some s -> seKind s' = seKind s -> holding (seStage s') = true -> awaited s' = 0 -> stageOk s' ->
  trOk (lockSession n (seInteractive s) (setSession n s' r)).
Proof.
  intros W Hn E Hk Hh Ha Hst. unfold lockSession. apply flags_ok.
  assert (Hz : liveProbes n (trProbes r) = 0).
  { rewrite (ok_awaited _ _ _ (ok_sessions r W) n s E). destruct (Z.eq_dec (awaited s) 0); [done|].
    assert (0 < awaited s) as Hw. { rewrite <- (ok_awaited _ _ _ (ok_sessions r W) n s E) in *. pose proof (liveProbes_nonneg n (trProbes r)). lia. }
    enough (trHolder r = Some n) by congruence. apply (ok_holder _ _ _ (ok_sessions r W)). exists s. split; [done|]. by apply awaited_holding. }
  assert (W' : trOk (tr_Holder (Some n) (setSession n s' r))).
  { eapply moved_ok; try done; [by rewrite Hz, Ha|by rewrite Hh|by left]. }
  change (trGen (setSession n s' r)) with (trGen (tr_Holder (Some n) (setSession n s' r))). apply gen_ok; [done|].
  intros k p Hp Hl. pose proof (free_live r k p W Hn Hp). congruence.
Qed.

Lemma open_ok r s : trOk r -> trHolder r = None -> holding (seStage s) = true -> awaited s = 0 -> stageOk s -> trOk (openSession s r).
Proof.
  intros W Hn Hh Ha Hst. unfold openSession. set (n := length (trSessions r)).
  pose proof (add_ok r (se_Stage Ended s) W eq_refl I) as W1.
  assert (E : (trSessions r ++ [se_Stage Ended s]) !! n = Some (se_Stage Ended s)) by (rewrite lookup_app_r by lia; by rewrite Nat.sub_diag).
  pose proof (lock_ok _ n (se_Stage Ended s) s W1 Hn E eq_refl Hh Ha Hst) as W2.
  unfold setSession in W2. cbn [trSessions tr_Sessions seInteractive se_Stage] in W2. rewrite insert_app_r_alt in W2 by lia. by rewrite Nat.sub_diag in W2.
Qed.

Lemma launch_ok r n ts s s' : trOk r -> trSessions r !! n = Some s -> trHolder r = Some n -> holding (seStage s) = true -> awaited s = 0 -> seKind s' = seKind s ->
  holding (seStage s') = true -> awaited s' = Z.of_nat (length ts) ->
  (isLatency (seKind s) = true -> forall t, t ∈ ts -> namedIn (trGen r) (tgTag2entID t) (trOut r)) -> stageOk s' ->
  trOk (setSession n s' (launch n ts r)).
Proof.
  intros W E Hh Hs Ha Hk Hs' Ha' Hn Hst.
  assert (Hnone : forall k p, trProbes r !! k = Some p -> live p = false).
  { apply (no_live r n W); [intros s0 E0; congruence|]. intros m s0 Hm _. congruence. }
  destruct W as [S B]. pose proof (ok_awaited _ _ _ S n s E) as Hz. pose proof (lookup_lt_Some _ _ _ E) as Hlt.
  assert (Hnew : forall k p, (trProbes r ++ map (fun t => mkProbe n t PrQueued) ts) !! k = Some p -> live p = true -> prSession p = n /\ prTarget p ∈ ts).
  { intros k p Hp Hl. apply lookup_app_Some in Hp as [Hp|[_ Hp]]; [by rewrite (Hnone k p Hp) in Hl|].
    apply list_elem_of_lookup_2, list_elem_of_In, in_map_iff in Hp as (t & <- & Ht). by rewrite list_elem_of_In. }
  split.
  - rewrite setSession_holder. cbn [trHolder trSessions trProbes tr_Holder setSession tr_Sessions launch tr_Probes].
    eapply (sessionsOk_set (trHolder r)); [done|done| | | |by rewrite Hs', Hh|by right|done].
    + intros m Hm. rewrite liveProbes_app, liveProbes_launch. destruct (Nat.eqb_spec n m); [congruence|lia].
    + rewrite liveProbes_app, liveProbes_launch, Nat.eqb_refl. lia.
    + intros k p Hp. destruct (live p) eqn:Hl; [by destruct (Hnew k p Hp Hl) as [-> _]|].
      apply lookup_app_Some in Hp as [Hp|[_ Hp]]; [by apply (ok_owner _ _ _ S k p)|].
      apply list_elem_of_lookup_2, list_elem_of_In, in_map_iff in Hp as (t & <- & Ht). done.
  - destruct B as [G N P L V]. split; try done. cbn [trSessions trProbes setSession tr_Sessions launch tr_Probes trGen trOut].
    intros k p s0 Hp Hl H0 Hlat. destruct (Hnew k p Hp Hl) as [Ep Ht]. rewrite Ep, list_lookup_insert_eq in H0 by done. injection H0 as <-.
    apply Hn; [by rewrite <- Hk|done].
Qed.

Lemma targetsOf_named b t : t ∈ targetsOf b -> tgTag2entID t = ∅ \/ tgTag2entID t = boTag2entID b.
Proof.
  unfold targetsOf. intros H. apply elem_of_app in H as [H|H].
  - apply list_elem_of_In, in_map_iff in H as (id & <- & _). by left.
  - destruct (isNil (boOutboundTags b)); [by apply not_elem_of_nil in H|]. apply list_elem_of_singleton in H as ->. by right.
Qed.

(** ** Every step keeps the invariant *)

Section Steps.
Context {Q : QtChar} (urlHost : qstr -> qstr) (CountryNameToCode : qstr -> qstr) (settings : TestSettings) (groups : gmap Z bool).

Lemma moved_quiet r r' n s s' : trOk r -> quietTr r r' -> trSessions r !! n = Some s -> seKind s' = seKind s -> liveProbes n (trProbes r) = awaited s' ->
  holding (seStage s) = true -> holding (seStage s') = true -> stageOk s' -> trOk (setSession n s' r').
Proof.
  intros W K E Hk Ha H1 H2 Hst. apply (kept_ok r' n s); [by eapply quietTr_ok| |done| |done|done|done].
  - by rewrite (q_sessions _ _ K).
  - by rewrite (q_probes _ _ K).
Qed.

Lemma prepare_ok r n s i b : trOk r -> trSessions r !! n = Some s -> seStage s = Prepare i -> trOk (prepare settings groups n s i b r).
Proof.
  intros W E St. assert (Hh : trHolder r = Some n) by (apply (ok_holder _ _ _ (ok_sessions r W)); exists s; by rewrite St).
  pose proof (ok_awaited _ _ _ (ok_sessions r W) n s E) as Hz. assert (Ha : awaited s = 0) by (unfold awaited; by rewrite St).
  assert (Hnone : forall k p, trProbes r !! k = Some p -> live p = false).
  { apply (no_live r n W); [intros s0 E0; congruence|]. intros m s0 Hm _. congruence. }
  unfold prepare. set (ids := take _ _). set (s1 := se_Group _ _). set (r1 := if isLatency (seKind s) then newBatch (boTag2entID b) r else r).
  assert (K1 : seKind s1 = seKind s) by done. assert (S1 : seStage s1 = Prepare i) by done.
  assert (W1 : trOk r1 /\ trSessions r1 = trSessions r /\ trProbes r1 = trProbes r /\ trHolder r1 = trHolder r).
  { unfold r1. destruct (isLatency (seKind s)); [|done]. split; [|done]. apply newBatch_ok; [done|]. intros k p Hp Hl. by rewrite (Hnone k p Hp) in Hl. }
  destruct W1 as (W1 & E1 & P1 & H1). rewrite <- E1 in E.
  assert (Hnext : forall s', seKind s' = seKind s -> holding (seStage s') = true -> awaited s' = 0 -> stageOk s' -> trOk (setSession n s' r1)).
  { intros s' Hk Hh' Ha' Hst. apply (kept_ok r1 n s); try done; [by rewrite P1, Hz, Ha, Ha'|by rewrite St]. }
  change (seKind s1) with (seKind s). fold r1. destruct (negb (isNil (boError b))).
  { destruct (isSite (seKind s)); by apply Hnext. }
  destruct (isSpeed (seKind s)) eqn:Esp; [by apply Hnext|]. destruct (isLatency (seKind s) && isNil (targetsOf b)); [by apply Hnext|].
  eapply (launch_ok r1 n _ s); try done; [by rewrite H1|by rewrite St| |].
  - unfold awaited. cbn [seStage se_Stage se_Released seReleased]. lia.
  - intros Hl t Ht. unfold r1. rewrite Hl. destruct (newBatch_named (boTag2entID b) r) as (full & Hf & _).
    exists (boTag2entID b). split; [cbn; apply elem_of_app; right; by apply list_elem_of_singleton|]. by apply targetsOf_named.
Qed.

Lemma sessionStep_ok r n b : trOk r -> trOk (sessionStep settings groups n b r).
Proof.
  intros W. unfold sessionStep. destruct (trSessions r !! n) as [s|] eqn:E; [|done].
  pose proof (ok_awaited _ _ _ (ok_sessions r W) n s E) as Hz. unfold awaited in Hz.
  assert (Hh : holding (seStage s) = true -> trHolder r = Some n) by (intros Hs; apply (ok_holder _ _ _ (ok_sessions r W)); by exists s).
  assert (Hq : forall r' s', quietTr r r' -> seKind s' = seKind s -> awaited s' = liveProbes n (trProbes r) -> holding (seStage s) = true -> holding (seStage s') = true -> stageOk s' -> trOk (setSession n s' r')).
  { intros r' s' K Hk Ha H1 H2 Hst. by apply (moved_quiet r r' n s). }
  assert (Hidle : forall s', seKind s' = seKind s -> liveProbes n (trProbes r) = 0 -> awaited s' = 0 -> holding (seStage s) = false -> holding (seStage s') = false -> stageOk s' -> trOk (setSession n s' r)).
  { intros s' Hk Hl Ha H1 H2 Hst. rewrite setSession_holder. eapply moved_ok; try done; [congruence|by rewrite H1, H2|congruence]. }
  destruct (seStage s) as [| | | |i|i|i need ids|i rest|i rest| | | |] eqn:St.
  - destruct (isNil (testable r (seIds s))); [apply finishedTr_ok|]; by apply Hidle.
  - destruct (trHolder r) eqn:Hn; [done|]. by eapply lock_ok.
  - unfold begin. destruct (isSpeed (seKind s)) eqn:Esp; [apply Hq; try done; auto with quiet|]. destruct (isSite (seKind s)); apply Hq; try done; auto with quiet.
  - unfold baselines. pose proof (ok_stage _ _ _ (ok_sessions r W) n s E) as Hst. unfold stageOk in Hst. rewrite St in Hst.
    destruct (seKind s) eqn:Ek; apply Hq; try done; auto with quiet; unfold stageOk; cbn; by rewrite Ek.
  - apply Hq; try done; auto with quiet; unfold awaited, stageOk; cbn [seStage se_Stage]; destruct (_ && _); auto.
  - by apply prepare_ok.
  - destruct (Nat.eqb_spec (seReleased s) need) as [E1|]; [|done].
    apply Hq; [destruct (isLatency (seKind s)); auto with quiet|done|cbn; lia|done..].
  - destruct rest as [|t rest].
    + unfold sequenceOver. destruct (seKind s) eqn:Ek; apply Hq; try done; auto with quiet.
    + pose proof (ok_stage _ _ _ (ok_sessions r W) n s E) as Hst. unfold stageOk in Hst. rewrite St in Hst.
      eapply (launch_ok r n _ s); try done; [by apply Hh|by rewrite St|unfold awaited; by rewrite St|].
      intros Hl. by destruct (seKind s).
  - destruct (Nat.eqb_spec (seReleased s) 1) as [E1|]; [|done].
    pose proof (ok_stage _ _ _ (ok_sessions r W) n s E) as Hst. unfold stageOk in Hst. rewrite St in Hst.
    apply Hq; try done; [auto with quiet|cbn; lia].
  - unfold closing. destruct (isSpeed (seKind s)); [apply Hq; try done; auto with quiet|]. destruct (isSite (seKind s)); [|apply Hq; try done; auto with quiet].
    destruct (trStop r); apply Hq; try done; auto with quiet.
  - unfold unlocking. set (r1 := if isSite (seKind s) then r else _).
    assert (K : quietTr r r1) by (unfold r1; destruct (isSite (seKind s)); auto with quiet).
    change (setSession n (se_Stage Finishing s) (tr_Holder None r1)) with (tr_Holder None (setSession n (se_Stage Finishing s) r1)).
    eapply moved_ok; [by eapply quietTr_ok|by rewrite (q_sessions _ _ K)|done|by rewrite (q_probes _ _ K)|by rewrite St|done|done].
  - unfold finishing. assert (W1 : trOk (setSession n (se_Stage Ended s) r)) by by apply Hidle.
    destruct (isSite (seKind s)); [by apply report_task_ok|].
    assert (W2 : trOk (finished (seFinish s) (setSession n (se_Stage Ended s) r))) by by apply finishedTr_ok.
    destruct (isSpeed (seKind s)); [eapply quietTr_ok; [done|by apply quiet_postTr]|].
    destruct (clearsUnavailable groups s); [eapply quietTr_ok; [done|by apply quiet_postTr]|done].
  - done.
Qed.

(** A final result changes a report, or concerns nobody's session. *)
Lemma applyFinal_cases s p vpn due now x r :
  (exists f, applyFinal urlHost CountryNameToCode settings s p vpn due now x r = report (prSession p) f r) \/
  quietTr r (applyFinal urlHost CountryNameToCode settings s p vpn due now x r).
Proof.
  unfold applyFinal. set (entid := if tgTestCurrent (prTarget p) then _ else _). destruct (entid =? -1); [right; apply quietTr_refl|].
  pose proof (quiet_finals settings CountryNameToCode vpn due now entid r) as (A & B & C & D).
  destruct x as [res|res|res|res|res]; [by right..|]. left. unfold finalSite. destruct (negb _); [by eexists|]. destruct (negb _); by eexists.
Qed.

Lemma applyFinal_ok r s p vpn due now x : trOk r -> trOk (applyFinal urlHost CountryNameToCode settings s p vpn due now x r).
Proof. intros W. destruct (applyFinal_cases s p vpn due now x r) as [[f ->]|K]; [by apply report_ok|by eapply quietTr_ok]. Qed.

Lemma applyFinal_probes r s p vpn due now x : trProbes (applyFinal urlHost CountryNameToCode settings s p vpn due now x r) = trProbes r.
Proof.
  destruct (applyFinal_cases s p vpn due now x r) as [[f ->]|K]; [|apply (q_probes _ _ K)]. unfold report. by destruct (trSessions r !! prSession p).
Qed.

Lemma conclude_ok r k s p a : trOk r -> trProbes r !! k = Some p -> live p = true -> trOk (conclude k s p a r).
Proof.
  intros W E Hl. unfold conclude. destruct (negb (anOk a)).
  - assert (W1 : trOk (outTr (OGeoError (anError a)) r)) by (eapply quietTr_ok; [done|by apply quiet_outTr]).
    destruct (isSite (seKind s)); [|by apply probeDone_ok]. apply probeDone_ok; [by apply report_ok| |done].
    unfold siteFailed, report. by destruct (trSessions _ !! _).
  - destruct (isNil (anResults a)); [by apply probeDone_ok|]. by apply probeAt_ok.
Qed.

Lemma ask_ok r k s p : trOk r -> trProbes r !! k = Some p -> live p = true -> trSessions r !! prSession p = Some s -> trOk (ask settings k s p r).
Proof.
  intros W E Hl Hs. unfold ask. destruct (isSite (seKind s)) eqn:Es.
  { apply probeAt_ok; try done. eapply quietTr_ok; [done|by apply quiet_outTr]. }
  set (r1 := if isSpeed (seKind s) then newBatch (tgTag2entID (prTarget p)) r else r).
  destruct (live_holder r k p W E Hl) as (s0 & Hs0 & Hh & _). rewrite Hs in Hs0. injection Hs0 as <-.
  assert (W1 : trOk r1 /\ namedIn (trGen r1) (tgTag2entID (prTarget p)) (trOut r1) /\ trProbes r1 = trProbes r).
  { unfold r1. destruct (isSpeed (seKind s)) eqn:Esp.
    - split; [|split; [apply newBatch_named|done]]. apply newBatch_ok; [done|]. intros j q Hq Hlq s1 Hs1.
      destruct (live_holder r j q W Hq Hlq) as (s2 & Hs2 & Hh2 & _). assert (s1 = s) as -> by congruence. by destruct (seKind s).
    - split; [done|]. split; [|done]. apply (ok_probes r (ok_batches r W) k p s); try done. by destruct (seKind s). }
  destruct W1 as (W1 & Hn & E1). set (r2 := if isSpeed (seKind s) && negb (speed_country settings) then outTr OProgressed r1 else r1).
  assert (K : quietTr r1 r2) by (unfold r2; destruct (_ && _); auto with quiet).
  pose proof (quietTr_ok _ _ W1 K) as W2. pose proof (q_probes _ _ K) as E2. pose proof (q_gen _ _ K) as G2. destruct (q_out _ _ K) as (os & O2 & _).
  assert (W3 : trOk (tr_Pollers (trPollers r2 ++ [mkPoller (seKind s) (seHook s) (tgTag2entID (prTarget p)) (trGen r2) false PoSleeping]) r2)).
  { apply newPoller_ok; [done|]. split; [cbn; lia|]. split; [|done]. cbn [poGen poTag2entID]. rewrite G2, O2. by apply namedIn_more. }
  apply probeAt_ok; [eapply quietTr_ok; [exact W3|by apply quiet_outTr]| |done|done].
  cbn [trProbes outTr tr_Out tr_Pollers]. by rewrite E2, E1.
Qed.

Lemma probeStep_ok r k a now : trOk r -> trOk (probeStep urlHost CountryNameToCode settings k a now r).
Proof.
  intros W. unfold probeStep. destruct (trProbes r !! k) as [p|] eqn:E; [|done]. destruct (trSessions r !! prSession p) as [s|] eqn:Es; [|done].
  destruct (prStage p) as [| |po|a'|rs vpn|] eqn:St; try done.
  all: assert (Hl : live p = true) by (unfold live; by rewrite St).
  - destruct (trStop r); [by apply probeDone_ok|by apply probeAt_ok].
  - by apply ask_ok.
  - pose proof (stopPoller_ok r po W) as W1. destruct (stopPoller_probes po r) as [P1 _]. rewrite <- P1 in E.
    destruct (isSpeed (seKind s)); [by apply probeAt_ok|by apply conclude_ok].
  - pose proof (quietTr_ok _ _ W (quiet_flush r)) as W1. apply conclude_ok; [done| |done]. by rewrite (q_probes _ _ (quiet_flush r)).
  - destruct rs as [|x rs]; [by apply probeDone_ok|]. apply probeAt_ok; [by apply applyFinal_ok|by rewrite applyFinal_probes|done|done].
Qed.

(** ** Poll threads *)

(** The runner goes on with the same generation and more notes. *)
Definition carriesOn (r r' : TestRunner) : Prop := trOk r' /\ trGen r' = trGen r /\ exists os, trOut r' = trOut r ++ os.

Lemma quiet_carries r r' : trOk r -> quietTr r r' -> carriesOn r r'.
Proof. intros W K. split; [by eapply quietTr_ok|]. split; [apply K|]. destruct (q_out _ _ K) as (os & E & _). by exists os. Qed.

Lemma live_carries r r' p served tag id : carriesOn r r' -> pollOk (trGen r) (trOut r) p -> poGen p = served -> poTag2entID p !! tag = Some id ->
  carriesOn r (outTr (OLive id served tag) r').
Proof.
  intros (W & G & os & O) (_ & (full & Hf & Hm) & _) <- E. split.
  - apply (OLive_ok r' id (poGen p) tag full); [done|rewrite O; apply elem_of_app; by left|]. destruct Hm as [Hm|Hm]; [by rewrite Hm, lookup_empty in E|by rewrite <- Hm].
  - split; [done|]. exists (os ++ [OLive id (poGen p) tag]). cbn. by rewrite O, app_assoc.
Qed.

Lemma pollApply_ok r p served due now x : trOk r -> pollOk (trGen r) (trOut r) p -> poGen p = served ->
  carriesOn r (snd (pollApply settings p served due now x r)).
Proof.
  intros W Hp Hg. unfold pollApply. set (current := match poKind p with KCurrent => true | _ => false end).
  set (entid := if current then _ else _).
  set (r1 := match x with RSpeed _ => _ | RSite _ => _ | _ => _ end). assert (K : quietTr r r1) by (unfold r1; destruct x, (speed_country settings); auto with quiet).
  destruct (Z.eqb_spec entid (-1)) as [|Hne]; [by apply quiet_carries|]. destruct (trProfiles r1 !! entid) as [ent|] eqn:E; [|by apply quiet_carries].
  assert (Hlive : forall r', quietTr r1 r' -> carriesOn r (if current then r' else outTr (OLive entid served (resultTag x)) r')).
  { intros r' K'. pose proof (quiet_carries r r' W (quietTr_trans _ _ _ K K')) as C. destruct current; [done|].
    apply (live_carries r r' p); try done. unfold entid in *. destruct (poTag2entID p !! resultTag x); [done|]. cbn in Hne. lia. }
  pose proof (quiet_polls settings (poHook p) due now entid ent r1) as (Q1 & Q2 & Q3 & Q4 & Q5).
  destruct x as [res|res|res|res|res]; cbn [snd]; [by apply Hlive..| |by apply quiet_carries].
  apply Hlive. by destruct (speed_country settings).
Qed.

Lemma pollOk_carried r r' p : pollOk (trGen r) (trOut r) p -> carriesOn r r' -> pollOk (trGen r') (trOut r') p.
Proof. intros H (_ & G & os & O). rewrite G, O. by apply pollOk_more. Qed.

Lemma pollerStep_ok r k a now : trOk r -> trOk (pollerStep settings k a now r).
Proof.
  intros W. unfold pollerStep. destruct (trPollers r !! k) as [p|] eqn:E; [|done].
  pose proof (ok_pollers r (ok_batches r W) k p E) as (Hge & Hn & Hst).
  destruct (poStage p) as [| | |served a'|served rs updated|] eqn:St; [| | | | |done].
  - apply setPoller_ok; [done|]. split; [done|]. split; [done|]. by destruct (poStopped p).
  - apply setPoller_ok; [done|]. split; [done|]. split; [done|]. by destruct (stale (poGen p) r).
  - apply setPoller_ok; [done|]. split; [done|]. split; [done|]. cbn. lia.
  - apply setPoller_ok; [done|]. split; [done|]. split; [done|]. cbn [poStage po_Stage]. unfold stale.
    destruct (Z.eqb_spec (trGen r) (poGen p)) as [G|]; [|done]. cbn [negb orb]. destruct (negb (anOk a') || isNil (anResults a')); [done|]. cbn. lia.
  - destruct rs as [|x rs].
    + apply setPoller_ok.
      * destruct (isNil updated); [done|]. eapply quietTr_ok; [done|by apply quiet_postTr].
      * destruct (isNil updated); by split.
    + assert (Hp : pollOk (trGen r) (trOut r) p) by (split; [done|]; split; [done|]; by rewrite St).
      pose proof (pollApply_ok r p served (anFlushDue a) now x W Hp (eq_sym Hst)) as C.
      destruct (pollApply settings p served (anFlushDue a) now x r) as [ids r']. cbn [snd] in C. apply setPoller_ok; [apply C|].
      destruct (pollOk_carried r r' p Hp C) as (A & B & _). split; [done|]. by split.
Qed.

(** ** Asking *)

Lemma uiTask_ok r now : trOk r -> trOk (runTask CountryNameToCode now r).
Proof.
  intros W. unfold runTask. destruct (trTasks r) as [|task tasks]; [done|]. set (r1 := tr_Tasks tasks r).
  assert (W1 : trOk r1) by (by destruct W as [S [G N P L V]]).
  destruct task as [ids|id res|id res|f rep|ids].
  1: eapply quietTr_ok; [done|by apply quiet_outTr].
  1: unfold shown; destruct (_ && _); [eapply quietTr_ok; [done|]; auto with quiet|done].
  1: unfold shown; destruct (_ && _); [eapply quietTr_ok; [done|]; auto with quiet|done].
  1: by apply reported_ok.
  eapply quietTr_ok; [done|by apply quiet_outTr].
Qed.

Lemma testTurn_ok r ev : trOk r -> trOk (testTurn urlHost CountryNameToCode settings groups r ev).
Proof.
  intros W. assert (Wb : trOk (outTr OBusy r)) by (eapply quietTr_ok; [done|by apply quiet_outTr]).
  destruct ev as [kind ids f inter hook|ids f inter|ids cur f inter|ids f| |n b|k a now|k a now|now|ps run]; cbn [testTurn].
  - destruct (isLatency kind); [|done]. unfold runLatencyGroup. destruct (isNil _); [by apply finishedTr_ok|].
    destruct (trHolder r) eqn:Hn; [by apply finishedTr_ok|]. by apply open_ok.
  - by apply add_ok.
  - unfold runSpeedTests. destruct (isNil _ && negb cur); [by apply finishedTr_ok|]. destruct (trHolder r) eqn:Hn; [by apply finishedTr_ok|].
    eapply quietTr_ok; [|apply quiet_testingCurrent]. by apply open_ok.
  - unfold runSiteTests. destruct (_ || _); [by apply reported_ok|]. destruct (trHolder r) eqn:Hn; [by apply reported_ok|]. by apply open_ok.
  - unfold stop. eapply quietTr_ok; [|by apply quiet_outTr]. by destruct W as [S [G N P L V]].
  - by apply sessionStep_ok.
  - by apply probeStep_ok.
  - by apply pollerStep_ok.
  - by apply uiTask_ok.
  - eapply quietTr_ok; [exact W|]. eapply quietTr_trans; [apply quiet_profiles|apply quiet_running].
Qed.

Lemma newTestRunner_ok profiles : trOk (newTestRunner profiles).
Proof.
  split; split; cbn; try done.
  - intros n. split; [done|]. by intros (s & Hs & _).
  - by intros g m H%not_elem_of_nil.
  - by intros g m m' H%not_elem_of_nil.
  - by intros id g tag H%not_elem_of_nil.
Qed.

Lemma testRun_ok evs profiles : trOk (testRun urlHost CountryNameToCode settings groups evs (newTestRunner profiles)).
Proof.
  unfold testRun. pose proof (newTestRunner_ok profiles) as W. revert W. generalize (newTestRunner profiles). induction evs as [|ev evs IH]; intros r W; [done|].
  cbn [fold_left]. by apply IH, testTurn_ok.
Qed.
End Steps.
