(* ===== verification/TestRunnerRuns.v ===== *)
(** What the runner promises its callers: one session at a time, live results
    that reach the right profile, every caller told once that its tests are over,
    and sessions that end. *)
From stdpp Require Import base list gmap strings.
From Stdlib Require Import ZArith Lia Bool Wellfounded.
From S2P Require Import Prelude TestResults TestRunner TestRunnerFacts.

#[local] Arguments sumOf : simpl never.

Section Runs.
Context {Q : QtChar} (urlHost : qstr -> qstr) (CountryNameToCode : qstr -> qstr) (settings : TestSettings) (groups : gmap Z bool).

Notation turn := (testTurn urlHost CountryNameToCode settings groups).
Notation run profiles evs := (testRun urlHost CountryNameToCode settings groups evs (newTestRunner profiles)).

(** Whatever callers, sessions, probes, poll threads and the UI thread do in
    whatever order: while a session holds the mutex it is the only one, every
    probe that has not finished is its own, and it waits for exactly those; when
    none does, no probe is left. *)
Theorem one_test_session evs profiles :
  let r := run profiles evs in
  (forall n m s s', trSessions r !! n = Some s -> trSessions r !! m = Some s' -> holding (seStage s) = true -> holding (seStage s') = true -> n = m) /\
  (isRunning r = false -> forall k p, trProbes r !! k = Some p -> live p = false) /\
  (forall n s, trSessions r !! n = Some s -> liveProbes n (trProbes r) = awaited s) /\
  (forall k p, trProbes r !! k = Some p -> live p = true -> trHolder r = Some (prSession p)).
Proof.
  intros r. pose proof (testRun_ok urlHost CountryNameToCode settings groups evs profiles) as W. fold r in W. pose proof (ok_sessions r W) as S. split; [|split; [|split]].
  - intros n m s s' Hn Hm H1 H2. assert (A : trHolder r = Some n) by (apply (ok_holder _ _ _ S); by exists s).
    assert (B : trHolder r = Some m) by (apply (ok_holder _ _ _ S); by exists s'). congruence.
  - intros Hr k p Hp. apply (free_live r k p W); [|done]. unfold isRunning in Hr. by destruct (trHolder r).
  - apply (ok_awaited _ _ _ S).
  - intros k p Hp Hl. by destruct (live_holder r k p W Hp Hl) as (s & _ & H & _).
Qed.

(** C18: A result that a poll thread wrote into a profile was served by the core in a
    generation whose tags, which are one batch's, name that profile: however late
    a poll comes back, no result reaches a profile of another batch. *)
Theorem live_results_own_batch evs profiles id g tag :
  OLive id g tag ∈ trOut (run profiles evs) ->
  exists m, OBatch g m ∈ trOut (run profiles evs) /\ m !! tag = Some id /\ forall m', OBatch g m' ∈ trOut (run profiles evs) -> m' = m.
Proof.
  pose proof (testRun_ok urlHost CountryNameToCode settings groups evs profiles) as W. intros H.
  destruct (ok_live _ (ok_batches _ W) id g tag H) as (m & Hm & E). exists m. split; [done|]. split; [done|].
  intros m' Hm'. exact (ok_names _ (ok_batches _ W) g m' m Hm' Hm).
Qed.

(** ** The books *)

Definition isToken (f : nat) (o : option nat) : Z := match o with Some g => if (g =? f)%nat then 1 else 0 | None => 0 end.

Definition toldOut (f : nat) (o : TestOut) : Z := match o with OFinished g | OReport g _ => isToken f (Some g) | _ => 0 end.
Definition owedBySession (f : nat) (s : Session) : Z := match seStage s with Ended => 0 | _ => isToken f (seFinish s) end.
Definition owedByUi (f : nat) (t : UiTask) : Z := match t with TkReport g _ => isToken f g | _ => 0 end.

Definition told (f : nat) (r : TestRunner) : Z := sumOf (toldOut f) (trOut r).
Definition owedTests (f : nat) (r : TestRunner) : Z := sumOf (owedBySession f) (trSessions r) + sumOf (owedByUi f) (trTasks r).
Definition askedBy (f : nat) (ev : TestEvent) : Z :=
  match ev with
  | AskLatency kind _ g _ _ => if isLatency kind then isToken f g else 0
  | AskQueued _ g _ | AskSpeed _ _ g _ | AskSites _ g => isToken f g
  | _ => 0
  end.

(** What the books say of [f]. *)
Definition books (f : nat) (r : TestRunner) : Z := told f r + owedTests f r.

Lemma isToken_nonneg f o : 0 <= isToken f o.
Proof. unfold isToken. destruct o; [|done]. destruct (_ =? _)%nat; lia. Qed.

Lemma books_quiet f r r' : quietTr r r' -> books f r' = books f r.
Proof.
  intros [_ _ _ E _ _ (os & O & Ho) (ts & T & Ht)]. unfold books, told, owedTests. rewrite O, T, E, !sumOf_app.
  rewrite (sumOf_nil (toldOut f) os), (sumOf_nil (owedByUi f) ts); [lia| |].
  - eapply Forall_impl; [exact Ht|]. by intros [].
  - eapply Forall_impl; [exact Ho|]. by intros [].
Qed.

Lemma books_set f r n s s' : trSessions r !! n = Some s -> books f (setSession n s' r) = books f r - owedBySession f s + owedBySession f s'.
Proof. intros E. unfold books, told, owedTests. cbn [trOut trSessions trTasks setSession tr_Sessions]. rewrite (sumOf_insert _ _ _ _ _ E). lia. Qed.

Lemma booksTr_finished f g r : books f (finished g r) = books f r + isToken f g.
Proof. destruct g as [g|]; [|cbn; lia]. unfold books, told, owedTests. cbn [trOut trSessions trTasks finished outTr tr_Out]. rewrite sumOf_app, sumOf_one. cbn [toldOut]. lia. Qed.

Lemma books_reported f g rep r : books f (reported g rep r) = books f r + isToken f g.
Proof. destruct g as [g|]; [|cbn; lia]. unfold books, told, owedTests. cbn [trOut trSessions trTasks reported outTr tr_Out]. rewrite sumOf_app, sumOf_one. cbn [toldOut]. lia. Qed.

Lemma books_report_task f g rep r : books f (postTr (TkReport g rep) r) = books f r + isToken f g.
Proof. unfold books, told, owedTests. cbn [trOut trSessions trTasks postTr tr_Tasks]. rewrite sumOf_app, sumOf_one. cbn [owedByUi]. lia. Qed.

Lemma books_add f s r : books f (tr_Sessions (trSessions r ++ [s]) r) = books f r + owedBySession f s.
Proof. unfold books, told, owedTests. cbn [trOut trSessions trTasks tr_Sessions]. rewrite sumOf_app, sumOf_one. lia. Qed.

Lemma books_open f s r : books f (openSession s r) = books f r + owedBySession f s.
Proof. exact (books_add f s r). Qed.

(** A session that goes on owes what it owed. *)
Lemma books_on f r r' n s s' : trSessions r !! n = Some s -> quietTr r r' -> seFinish s' = seFinish s -> seStage s <> Ended -> seStage s' <> Ended ->
  books f (setSession n s' r') = books f r.
Proof.
  intros E K Hf H1 H2. rewrite (books_set f r' n s); [|by rewrite (q_sessions _ _ K)]. rewrite (books_quiet f r r' K).
  unfold owedBySession. rewrite Hf. destruct (seStage s), (seStage s'); try done; lia.
Qed.

Lemma books_prepare f r n s i b : trSessions r !! n = Some s -> seStage s = Prepare i -> books f (prepare settings groups n s i b r) = books f r.
Proof.
  intros E St. unfold prepare. set (ids := take _ _). set (s1 := se_Group _ _). change (seKind s1) with (seKind s).
  set (r1 := if isLatency (seKind s) then newBatch (boTag2entID b) r else r).
  assert (B1 : books f r1 = books f r).
  { unfold r1. destruct (isLatency (seKind s)); [|done]. unfold books, told, owedTests. cbn [trOut trSessions trTasks newBatch outTr tr_Out tr_Gen]. rewrite sumOf_app, sumOf_one. cbn [toldOut]. lia. }
  assert (E1 : trSessions r1 !! n = Some s) by (unfold r1; by destruct (isLatency (seKind s))).
  rewrite <- B1. destruct (negb (isNil (boError b))).
  { destruct (isSite (seKind s)); apply (books_on f r1 r1 n s); try done; [apply quietTr_refl|by rewrite St|apply quietTr_refl|by rewrite St]. }
  destruct (isSpeed (seKind s)); [apply (books_on f r1 r1 n s); try done; [apply quietTr_refl|by rewrite St]|].
  destruct (isLatency (seKind s) && isNil (targetsOf b)); apply (books_on f r1 r1 n s); try done; try (by rewrite St); apply quietTr_refl.
Qed.

Lemma books_session f r n b : books f (sessionStep settings groups n b r) = books f r.
Proof.
  unfold sessionStep. destruct (trSessions r !! n) as [s|] eqn:E; [|done].
  assert (Hon : forall r' s', quietTr r r' -> seFinish s' = seFinish s -> seStage s <> Ended -> seStage s' <> Ended -> books f (setSession n s' r') = books f r)
    by (intros r' s'; by apply books_on).
  assert (Hend : seStage s <> Ended -> books f (setSession n (se_Stage Ended s) r) + isToken f (seFinish s) = books f r).
  { intros Hs. rewrite (books_set f r n s _ E). unfold owedBySession. cbn [seStage se_Stage]. destruct (seStage s); try done; lia. }
  destruct (seStage s) as [| | | |i|i|i need ids|i rest|i rest| | | |] eqn:St.
  - destruct (isNil _); [rewrite booksTr_finished; by apply Hend|]. apply Hon; try done. apply quietTr_refl.
  - destruct (trHolder r); [done|]. change (books f (setSession n (se_Stage Begin s) r) = books f r). apply Hon; try done. apply quietTr_refl.
  - unfold begin. destruct (isSpeed _); [apply Hon; auto with quiet|]. destruct (isSite _); apply Hon; auto with quiet.
  - unfold baselines. destruct (seKind s); apply Hon; auto with quiet.
  - apply Hon; auto with quiet. cbn [seStage se_Stage]. by destruct (_ && _).
  - by apply books_prepare.
  - destruct (_ =? _)%nat; [|done]. apply Hon; try done. destruct (isLatency _); auto with quiet.
  - destruct rest as [|t rest].
    + unfold sequenceOver. destruct (seKind s); apply Hon; auto with quiet.
    + change (books f (setSession n (se_Stage (JoinOne i rest) (se_Released 0 s)) r) = books f r). apply Hon; auto with quiet.
  - destruct (_ =? _)%nat; [|done]. apply Hon; auto with quiet.
  - unfold closing. destruct (isSpeed _); [apply Hon; auto with quiet|]. destruct (isSite _); [|apply Hon; auto with quiet]. destruct (trStop r); apply Hon; auto with quiet.
  - unfold unlocking. destruct (isSite _).
    + change (books f (setSession n (se_Stage Finishing s) r) = books f r). apply Hon; auto with quiet.
    + change (books f (setSession n (se_Stage Finishing s) (outTr OCleared (outTr (OReposition (seTested s)) r))) = books f r). apply Hon; auto with quiet.
  - specialize (Hend ltac:(done)). unfold finishing. set (r1 := setSession n (se_Stage Ended s) r) in *.
    destruct (isSite _); [rewrite books_report_task; lia|].
    destruct (isSpeed _); [rewrite (books_quiet f (finished (seFinish s) r1)) by (by apply quiet_postTr); rewrite booksTr_finished; lia|].
    destruct (clearsUnavailable groups s); [rewrite (books_quiet f (finished (seFinish s) r1)) by (by apply quiet_postTr)|]; rewrite booksTr_finished; lia.
  - done.
Qed.

Lemma books_report f n g r : books f (report n g r) = books f r.
Proof.
  unfold report. destruct (trSessions r !! n) as [s|] eqn:E; [|done]. rewrite (books_set f r n s _ E). unfold owedBySession. cbn [seStage seFinish se_Report]. lia.
Qed.

Lemma books_done f k p r : books f (probeDone k p r) = books f r.
Proof.
  unfold probeDone, release. cbn [trSessions setProbe tr_Probes]. destruct (trSessions r !! prSession p) as [s|] eqn:E; [|done].
  rewrite (books_set f (setProbe k _ r) (prSession p) s _ E). unfold owedBySession. cbn [seStage seFinish se_Released]. change (books f (setProbe k _ r)) with (books f r). lia.
Qed.

Lemma books_final f s p vpn due now x r : books f (applyFinal urlHost CountryNameToCode settings s p vpn due now x r) = books f r.
Proof. destruct (applyFinal_cases urlHost CountryNameToCode settings s p vpn due now x r) as [[g ->]|K]; [apply books_report|by apply books_quiet]. Qed.

Lemma books_geo f e r : books f (outTr (OGeoError e) r) = books f r.
Proof. apply books_quiet. by apply quiet_outTr. Qed.

Lemma books_conclude f k s p a r : books f (conclude k s p a r) = books f r.
Proof.
  unfold conclude. destruct (negb (anOk a)).
  - rewrite books_done. destruct (isSite _); [unfold siteFailed; rewrite books_report|]; apply books_geo.
  - destruct (isNil _); [apply books_done|done].
Qed.

Lemma books_ask f k s p r : books f (ask settings k s p r) = books f r.
Proof.
  unfold ask. destruct (isSite _); [apply (books_quiet f r (outTr (ORpc (prSession p)) r)); by apply quiet_outTr|].
  set (r1 := if isSpeed (seKind s) then newBatch (tgTag2entID (prTarget p)) r else r).
  assert (B1 : books f r1 = books f r).
  { unfold r1. destruct (isSpeed (seKind s)); [|done]. unfold books, told, owedTests. cbn [trOut trSessions trTasks newBatch outTr tr_Out tr_Gen]. rewrite sumOf_app, sumOf_one. cbn [toldOut]. lia. }
  set (r2 := if isSpeed (seKind s) && negb (speed_country settings) then outTr OProgressed r1 else r1).
  assert (B2 : books f r2 = books f r1) by (apply books_quiet; unfold r2; destruct (_ && _); auto with quiet).
  rewrite <- B1, <- B2. apply (books_quiet f r2 (outTr (ORpc (prSession p)) r2)). by apply quiet_outTr.
Qed.

Lemma books_stopPoller f po r : books f (stopPoller po r) = books f r.
Proof. unfold stopPoller. destruct po; [|done]. by destruct (trPollers r !! n). Qed.

Lemma books_probe f r k a now : books f (probeStep urlHost CountryNameToCode settings k a now r) = books f r.
Proof.
  unfold probeStep. destruct (trProbes r !! k) as [p|]; [|done]. destruct (trSessions r !! prSession p) as [s|]; [|done].
  destruct (prStage p) as [| |po|a'|rs vpn|].
  - destruct (trStop r); [apply books_done|done].
  - apply books_ask.
  - rewrite <- (books_stopPoller f po r). destruct (isSpeed _); [done|apply books_conclude].
  - rewrite books_conclude. apply books_quiet, quiet_flush.
  - destruct rs as [|x rs]; [apply books_done|]. exact (books_final f s p vpn (anFlushDue a) now x r).
  - done.
Qed.

Lemma books_live f id g tag r : books f (outTr (OLive id g tag) r) = books f r.
Proof. unfold books, told, owedTests. cbn [trOut trSessions trTasks outTr tr_Out]. rewrite sumOf_app, sumOf_one. cbn [toldOut]. lia. Qed.

Lemma books_pollApply f p served due now x r : books f (snd (pollApply settings p served due now x r)) = books f r.
Proof.
  unfold pollApply. set (current := match poKind p with KCurrent => true | _ => false end). set (entid := if current then _ else _).
  set (r1 := match x with RSpeed _ => _ | RSite _ => _ | _ => _ end). assert (K : quietTr r r1) by (unfold r1; destruct x, (speed_country settings); auto with quiet).
  destruct (entid =? -1); [by apply books_quiet|]. destruct (trProfiles r1 !! entid) as [ent|]; [|by apply books_quiet].
  assert (Hl : forall r', quietTr r1 r' -> books f (if current then r' else outTr (OLive entid served (resultTag x)) r') = books f r).
  { intros r' K'. rewrite <- (books_quiet f r r' (quietTr_trans _ _ _ K K')). destruct current; [done|apply books_live]. }
  pose proof (quiet_polls settings (poHook p) due now entid ent r1) as (Q1 & Q2 & Q3 & Q4 & Q5).
  destruct x as [res|res|res|res|res]; cbn [snd]; [by apply Hl..| |by apply books_quiet].
  apply Hl. by destruct (speed_country settings).
Qed.

Lemma books_poller f r k a now : books f (pollerStep settings k a now r) = books f r.
Proof.
  unfold pollerStep. destruct (trPollers r !! k) as [p|]; [|done]. destruct (poStage p) as [| | | |served rs updated|]; try done.
  destruct rs as [|x rs].
  - change (books f (if isNil updated then r else postTr (TkTestedChanged updated) r) = books f r). destruct (isNil updated); [done|]. apply books_quiet. by apply quiet_postTr.
  - pose proof (books_pollApply f p served (anFlushDue a) now x r) as B. by destruct (pollApply settings p served (anFlushDue a) now x r) as [ids r'].
Qed.

Lemma booksTr_task f now r : books f (runTask CountryNameToCode now r) = books f r.
Proof.
  unfold runTask. destruct (trTasks r) as [|task tasks] eqn:T; [done|]. set (r1 := tr_Tasks tasks r).
  assert (B : books f r1 + owedByUi f task = books f r).
  { unfold books, told, owedTests. rewrite T. change (sumOf (owedByUi f) (task :: tasks)) with (owedByUi f task + sumOf (owedByUi f) tasks). cbn [trOut trSessions trTasks r1 tr_Tasks]. lia. }
  destruct task as [ids|id res|id res|g rep|ids]; cbn [owedByUi] in B.
  1: rewrite (books_quiet f r1) by (by apply quiet_outTr); lia.
  1: unfold shown; destruct (_ && _); [rewrite (books_quiet f r1) by auto with quiet|]; lia.
  1: unfold shown; destruct (_ && _); [rewrite (books_quiet f r1) by auto with quiet|]; lia.
  1: rewrite books_reported; lia.
  rewrite (books_quiet f r1) by (by apply quiet_outTr). lia.
Qed.

Lemma booksTr_turn f r ev : books f (turn r ev) = books f r + askedBy f ev.
Proof.
  assert (Bb : books f (outTr OBusy r) = books f r) by (apply books_quiet; by apply quiet_outTr).
  destruct ev as [kind ids g inter hook|ids g inter|ids cur g inter|ids g| |n b|k a now|k a now|now|ps running]; cbn [testTurn askedBy]; try rewrite Z.add_0_r.
  - destruct (isLatency kind); [|lia]. unfold runLatencyGroup. destruct (isNil _); [apply booksTr_finished|].
    destruct (trHolder r); [rewrite booksTr_finished, Bb; lia|apply books_open].
  - apply books_add.
  - unfold runSpeedTests. destruct (isNil _ && negb cur); [apply booksTr_finished|]. destruct (trHolder r); [rewrite booksTr_finished, Bb; lia|].
    exact (books_open f (newSession (if cur then KCurrent else KSpeed) (if cur then ids else testable r ids) g inter false Begin) r).
  - unfold runSiteTests. destruct (_ || _); [apply books_reported|]. destruct (trHolder r); [rewrite books_reported, Bb; lia|apply books_open].
  - apply (books_quiet f (tr_Stop true r)). by apply quiet_outTr.
  - apply books_session.
  - apply books_probe.
  - apply books_poller.
  - apply booksTr_task.
  - apply books_quiet. eapply quietTr_trans; [apply quiet_profiles|apply quiet_running].
Qed.

Lemma books_run f evs r : books f (testRun urlHost CountryNameToCode settings groups evs r) = books f r + sumOf (askedBy f) evs.
Proof.
  revert r. induction evs as [|ev evs IH]; intros r; [change (books f r = books f r + 0); lia|].
  change (testRun urlHost CountryNameToCode settings groups (ev :: evs) r) with (testRun urlHost CountryNameToCode settings groups evs (turn r ev)).
  rewrite IH, booksTr_turn. change (sumOf (askedBy f) (ev :: evs)) with (askedBy f ev + sumOf (askedBy f) evs). lia.
Qed.

(** C15: A callback given with a request, refused or not, is called exactly as often as
    it was given, less the sessions and posted reports that still owe it: never
    more, and exactly that often once every session has ended and no report is
    posted. *)
Theorem tests_finish_once evs profiles f :
  told f (run profiles evs) + owedTests f (run profiles evs) = sumOf (askedBy f) evs /\
  0 <= owedTests f (run profiles evs) /\
  (Forall (fun s => seStage s = Ended) (trSessions (run profiles evs)) -> trTasks (run profiles evs) = [] -> told f (run profiles evs) = sumOf (askedBy f) evs).
Proof.
  pose proof (books_run f evs (newTestRunner profiles)) as B. change (books f (newTestRunner profiles)) with 0 in B. unfold books in B.
  set (r := run profiles evs) in *. split; [lia|]. split.
  - unfold owedTests. pose proof (sumOf_nonneg (owedBySession f) (trSessions r)). pose proof (sumOf_nonneg (owedByUi f) (trTasks r)).
    assert (forall s, 0 <= owedBySession f s) by (intros s; unfold owedBySession; destruct (seStage s); try done; apply isToken_nonneg).
    assert (forall t, 0 <= owedByUi f t) by (intros []; cbn [owedByUi]; try done; apply isToken_nonneg). intuition lia.
  - intros He Ht. enough (owedTests f r = 0) by lia. unfold owedTests. rewrite Ht, sumOf_nil; [done|].
    eapply Forall_impl; [exact He|]. intros s Hs. unfold owedBySession. by rewrite Hs.
Qed.
End Runs.
