(* ===== verification/TestRunnerEnds.v ===== *)
(** Test sessions end: a measure that every step of a session or a probe lowers,
    whatever the core answers and whatever the poll threads do meanwhile, and a
    step that is always possible until every session has ended. *)
From stdpp Require Import base list gmap strings.
From Stdlib Require Import ZArith Lia Bool Wellfounded Relation_Operators.
From S2P Require Import Prelude TestResults TestRunner TestRunnerFacts.

#[local] Arguments sumOf : simpl never.

(** ** Who can move *)

Definition canStep (r : TestRunner) (s : Session) : bool :=
  match seStage s with
  | Ended => false
  | Waiting => negb (isSome (trHolder r))
  | Join _ need _ => (seReleased s =? need)%nat
  | JoinOne _ _ => (seReleased s =? 1)%nat
  | _ => true
  end.

(** A step of a session's thread that is not blocked, or of a probe that lives. *)
Definition advancing (r : TestRunner) (ev : TestEvent) : bool :=
  match ev with
  | SessionStep n _ => match trSessions r !! n with Some s => canStep r s | None => false end
  | ProbeStep k _ _ => match trProbes r !! k with Some p => live p && isSome (trSessions r !! prSession p) | None => false end
  | _ => false
  end.

(** What may happen in between. *)
Definition aside (ev : TestEvent) : bool :=
  match ev with AskStop | PollerStep _ _ _ | TaskStep _ | Others _ _ => true | _ => false end.

(** ** The measure *)

Definition stageWeight (len : nat) (st : Stage) : Z :=
  match st with
  | Asked => 9 + 4 * Z.of_nat len
  | Waiting => 8 + 4 * Z.of_nat len
  | Begin => 7 + 4 * Z.of_nat len
  | Baselines => 6 + 4 * Z.of_nat len
  | Next i => 4 + 4 * Z.of_nat (len - i)
  | Prepare i => 6 + 4 * Z.of_nat (len - S i)
  | Join i _ _ | Sequence i _ | JoinOne i _ => 5 + 4 * Z.of_nat (len - i)
  | Closing => 3
  | Unlocking => 2
  | Finishing => 1
  | Ended => 0
  end.

Definition sessionWeight (s : Session) : Z := stageWeight (length (seIds s)) (seStage s).

Definition restWeight (s : Session) : Z :=
  match seStage s with
  | Sequence _ rest => 7 * zlen rest
  | JoinOne _ rest => 7 * zlen rest + 1
  | _ => 0
  end.

Definition probeWeight (p : Probe) : Z :=
  match prStage p with PrQueued => 5 | PrChecked => 4 | PrAsked _ => 3 | PrFlush _ => 2 | PrApply _ _ => 1 | PrDone => 0 end.

Definition resultsWeight (p : Probe) : Z := match prStage p with PrApply rs _ => zlen rs | _ => 0 end.

Definition level1 (r : TestRunner) : nat := Z.to_nat (sumOf sessionWeight (trSessions r)).
Definition level2 (r : TestRunner) : nat := Z.to_nat (sumOf restWeight (trSessions r) + sumOf probeWeight (trProbes r)).
Definition level3 (r : TestRunner) : nat := Z.to_nat (sumOf resultsWeight (trProbes r)).
Definition workLeft (r : TestRunner) : nat * (nat * nat) := (level1 r, (level2 r, level3 r)).

Notation less := (slexprod nat (nat * nat) lt (slexprod nat nat lt lt)).

Lemma less_wf : well_founded less.
Proof. apply wf_slexprod; [apply lt_wf|]. apply wf_slexprod; apply lt_wf. Qed.

Lemma sessionWeight_nonneg s : 0 <= sessionWeight s.
Proof. unfold sessionWeight, stageWeight. destruct (seStage s); lia. Qed.
Lemma restWeight_nonneg s : 0 <= restWeight s.
Proof. unfold restWeight, zlen. destruct (seStage s); lia. Qed.
Lemma probeWeight_nonneg p : 0 <= probeWeight p.
Proof. unfold probeWeight. destruct (prStage p); lia. Qed.
Lemma resultsWeight_nonneg p : 0 <= resultsWeight p.
Proof. unfold resultsWeight, zlen. destruct (prStage p); lia. Qed.

Lemma level1_less r r' : sumOf sessionWeight (trSessions r') < sumOf sessionWeight (trSessions r) -> less (workLeft r') (workLeft r).
Proof. intros H. left. unfold level1. pose proof (sumOf_nonneg _ (trSessions r') sessionWeight_nonneg). lia. Qed.

Lemma level2_less r r' : sumOf sessionWeight (trSessions r') = sumOf sessionWeight (trSessions r) ->
  sumOf restWeight (trSessions r') + sumOf probeWeight (trProbes r') < sumOf restWeight (trSessions r) + sumOf probeWeight (trProbes r) ->
  less (workLeft r') (workLeft r).
Proof.
  intros E H. unfold workLeft, level1. rewrite E. right. left. unfold level2.
  pose proof (sumOf_nonneg _ (trSessions r') restWeight_nonneg). pose proof (sumOf_nonneg _ (trProbes r') probeWeight_nonneg). lia.
Qed.

Lemma level3_less r r' : sumOf sessionWeight (trSessions r') = sumOf sessionWeight (trSessions r) ->
  sumOf restWeight (trSessions r') + sumOf probeWeight (trProbes r') = sumOf restWeight (trSessions r) + sumOf probeWeight (trProbes r) ->
  sumOf resultsWeight (trProbes r') < sumOf resultsWeight (trProbes r) -> less (workLeft r') (workLeft r).
Proof.
  intros E1 E2 H. unfold workLeft, level1, level2. rewrite E1, E2. right. right. unfold level3.
  pose proof (sumOf_nonneg _ (trProbes r') resultsWeight_nonneg). lia.
Qed.

(** ** Sessions *)

Section Ends.
Context {Q : QtChar} (urlHost : qstr -> qstr) (CountryNameToCode : qstr -> qstr) (settings : TestSettings) (groups : gmap Z bool).

Notation turn := (testTurn urlHost CountryNameToCode settings groups).

Lemma stepSize_pos k : (1 <= stepSize settings k)%nat.
Proof. unfold stepSize, kTestRunnerBatchSize. destruct (_ && _); lia. Qed.

Lemma session_less r r' n s s' : trSessions r !! n = Some s -> trSessions r' = <[n := s']> (trSessions r) -> sessionWeight s' < sessionWeight s ->
  less (workLeft r') (workLeft r).
Proof. intros E E' H. apply level1_less. rewrite E', (sumOf_insert _ _ _ _ _ E). lia. Qed.

Lemma testable_shorter r ids : (length (testable r ids) <= length ids)%nat.
Proof. unfold testable, testRunnerWithoutAutoSelectors. destruct (isNil _); [lia|]. apply List.filter_length_le. Qed.

Lemma prepare_sessions r n s i b : exists s', trSessions (prepare settings groups n s i b r) = <[n := s']> (trSessions r) /\
  seIds s' = seIds s /\
  (exists j, (j = i + stepSize settings (seKind s))%nat /\ ((exists need ids, seStage s' = Join j need ids) \/ (exists rest, seStage s' = Sequence j rest) \/ seStage s' = Next j)).
Proof.
  unfold prepare. set (ids := take _ _). set (s1 := se_Group _ _). change (seKind s1) with (seKind s).
  set (r1 := if isLatency (seKind s) then newBatch (boTag2entID b) r else r).
  assert (E1 : trSessions r1 = trSessions r) by (unfold r1; by destruct (isLatency (seKind s))). rewrite <- E1.
  destruct (negb (isNil (boError b))).
  { destruct (isSite (seKind s)); eexists; (split; [reflexivity|]); (split; [done|]); eauto 8. }
  destruct (isSpeed (seKind s)); [eexists; (split; [reflexivity|]); (split; [done|]); eauto 8|].
  destruct (isLatency (seKind s) && isNil (targetsOf b)); eexists; (split; [reflexivity|]); (split; [done|]); eauto 8.
Qed.

Lemma sessionStep_less r n b s : trSessions r !! n = Some s -> canStep r s = true -> less (workLeft (sessionStep settings groups n b r)) (workLeft r).
Proof.
  intros E H. assert (Hl : forall r' s', trSessions r' = <[n := s']> (trSessions r) -> sessionWeight s' < sessionWeight s -> less (workLeft r') (workLeft r))
    by (intros r' s'; by apply (session_less r r' n s s')).
  assert (Hq : forall r1 r' s', trSessions r1 = trSessions r -> trSessions r' = trSessions (setSession n s' r1) -> sessionWeight s' < sessionWeight s -> less (workLeft r') (workLeft r)).
  { intros r1 r' s' E1 E2. apply Hl. by rewrite E2, <- E1. }
  assert (Hf : trSessions (flushTrafficCredits r) = trSessions r) by apply (q_sessions _ _ (quiet_flush r)).
  unfold sessionStep. rewrite E. unfold canStep in H. unfold sessionWeight in Hl, Hq.
  destruct (seStage s) as [| | | |i|i|i need ids|i rest|i rest| | | |] eqn:St; try discriminate.
  - destruct (isNil _).
    + apply (Hl _ (se_Stage Ended s)); [by destruct (seFinish s)|]. cbn [seIds seStage se_Stage stageWeight]. lia.
    + apply (Hl _ (se_Stage Waiting (se_Ids (testable r (seIds s)) s))); [done|]. cbn [seIds seStage se_Stage se_Ids stageWeight].
      pose proof (testable_shorter r (seIds s)). lia.
  - destruct (trHolder r); [done|]. apply (Hl _ (se_Stage Begin s)); [done|]. cbn [seIds seStage se_Stage stageWeight]. lia.
  - unfold begin. destruct (isSpeed _); [apply (Hq (flushTrafficCredits r) _ (se_Stage Baselines s) Hf); [done|]; cbn [seIds seStage se_Stage stageWeight]; lia|].
    destruct (isSite _); apply (Hl _ (se_Stage (Next 0) s)); try done; cbn [seIds seStage se_Stage stageWeight]; lia.
  - unfold baselines. assert (Hb : less (workLeft (setSession n (se_Stage (Next 0) s) (outTr (OSeeded (zlen (seIds s))) (tr_Pending ∅ (tr_Credited ∅ r))))) (workLeft r)).
    { apply (Hl _ (se_Stage (Next 0) s)); [done|]. cbn [seIds seStage se_Stage stageWeight]. lia. }
    destruct (seKind s); try exact Hb. apply (Hl _ (se_Stage (Sequence 0 [mkTarget ∅ (-1) true]) s)); [done|]. cbn [seIds seStage se_Stage stageWeight]. lia.
  - eapply Hl; [done|]. cbn [seIds seStage se_Stage]. destruct (Nat.ltb_spec i (length (seIds s))); [destruct (trStop r)|]; cbn [negb andb stageWeight]; lia.
  - destruct (prepare_sessions r n s i b) as (s' & E' & Hids & j & Hj & Hst). pose proof (stepSize_pos (seKind s)). apply (Hl _ s' E'). rewrite Hids.
    destruct Hst as [(need & ids & Es)|[(rest & Es)|Es]]; rewrite Es; cbn [stageWeight]; lia.
  - rewrite H. eapply Hl; [by destruct (isLatency _)|]. cbn [seIds seStage se_Stage stageWeight]. lia.
  - destruct rest as [|t rest].
    + unfold sequenceOver. assert (Hb : less (workLeft (setSession n (se_Stage (Next i) s) r)) (workLeft r)).
      { eapply Hl; [done|]. cbn [seIds seStage se_Stage stageWeight]. lia. }
      destruct (seKind s); try exact Hb. eapply Hl; [reflexivity|]. cbn [seIds seStage se_Stage se_Tested stageWeight]. lia.
    + apply level2_less.
      * cbn [trSessions setSession tr_Sessions launch tr_Probes]. rewrite (sumOf_insert _ _ _ _ _ E). unfold sessionWeight at 2 3. rewrite St. cbn [seIds seStage se_Stage se_Released stageWeight]. lia.
      * cbn [trSessions trProbes setSession tr_Sessions launch tr_Probes map]. rewrite (sumOf_insert _ _ _ _ _ E), sumOf_app, sumOf_one. unfold restWeight at 2 3. rewrite St.
        cbn [seStage se_Stage probeWeight prStage]. rewrite zlen_cons. lia.
  - rewrite H. apply level2_less.
    + cbn [trSessions setSession tr_Sessions]. rewrite (sumOf_insert _ _ _ _ _ E). unfold sessionWeight at 2 3. rewrite St. cbn [seIds seStage se_Stage stageWeight]. lia.
    + cbn [trSessions trProbes setSession tr_Sessions]. rewrite (sumOf_insert _ _ _ _ _ E). unfold restWeight at 2 3. rewrite St. cbn [seStage se_Stage]. lia.
  - unfold closing. destruct (isSpeed _); [apply (Hq (flushTrafficCredits r) _ (se_Stage Unlocking s) Hf); [done|]; cbn [seIds seStage se_Stage stageWeight]; lia|].
    destruct (isSite _); [|apply (Hl _ (se_Stage Unlocking s)); [done|]; cbn [seIds seStage se_Stage stageWeight]; lia].
    eapply Hl; [reflexivity|]. destruct (trStop r); cbn [seIds seStage se_Stage stageWeight]; lia.
  - unfold unlocking. apply (Hl _ (se_Stage Finishing s)); [by destruct (isSite _)|]. cbn [seIds seStage se_Stage stageWeight]. lia.
  - unfold finishing. apply (Hl _ (se_Stage Ended s)); [|cbn [seIds seStage se_Stage stageWeight]; lia].
    destruct (isSite _); [done|]. destruct (isSpeed _); [by destruct (seFinish s)|]. destruct (clearsUnavailable groups s); by destruct (seFinish s).
Qed.

(** ** Probes *)

(** The sessions stand where they stood. *)
Definition sameStages (r r' : TestRunner) : Prop :=
  sumOf sessionWeight (trSessions r') = sumOf sessionWeight (trSessions r) /\ sumOf restWeight (trSessions r') = sumOf restWeight (trSessions r).

Lemma sameStages_set r n s s' : trSessions r !! n = Some s -> seIds s' = seIds s -> seStage s' = seStage s -> sameStages r (setSession n s' r).
Proof.
  intros E H1 H2. split; cbn [trSessions setSession tr_Sessions]; rewrite (sumOf_insert _ _ _ _ _ E); unfold sessionWeight, restWeight; rewrite ?H1, H2; lia.
Qed.

Lemma sameStages_report r n f : sameStages r (report n f r).
Proof. unfold report. destruct (trSessions r !! n) as [s|] eqn:E; [by eapply sameStages_set|done]. Qed.

Lemma sameStages_quiet r r' : quietTr r r' -> sameStages r r'.
Proof. intros K. unfold sameStages. by rewrite (q_sessions _ _ K). Qed.

Lemma sameStages_trans r1 r2 r3 : sameStages r1 r2 -> sameStages r2 r3 -> sameStages r1 r3.
Proof. unfold sameStages. intuition congruence. Qed.

Lemma sameStages_release r n : sameStages r (release n r).
Proof. unfold release. destruct (trSessions r !! n) as [s|] eqn:E; [by eapply sameStages_set|done]. Qed.

(** The probe is at [stage], everything else about probes as it was. *)
Lemma probe_less r r' k p stage : trProbes r !! k = Some p -> sameStages r r' -> trProbes r' = <[k := mkProbe (prSession p) (prTarget p) stage]> (trProbes r) ->
  probeWeight (mkProbe (prSession p) (prTarget p) stage) < probeWeight p -> less (workLeft r') (workLeft r).
Proof. intros E [S1 S2] Hp H. apply level2_less; [done|]. rewrite S2, Hp, (sumOf_insert _ _ _ _ _ E). lia. Qed.

Lemma probeDone_less r r1 k p : trProbes r !! k = Some p -> sameStages r r1 -> trProbes r1 = trProbes r -> 0 < probeWeight p -> less (workLeft (probeDone k p r1)) (workLeft r).
Proof.
  intros E S1 E1 H. apply (probe_less r _ k p PrDone E); [|unfold probeDone, release; destruct (trSessions _ !! _); by rewrite <- E1|done].
  eapply sameStages_trans; [exact S1|]. unfold probeDone. exact (sameStages_release (setProbe k (mkProbe (prSession p) (prTarget p) PrDone) r1) (prSession p)).
Qed.

Lemma applyFinal_stages s p vpn due now x r : sameStages r (applyFinal urlHost CountryNameToCode settings s p vpn due now x r).
Proof. destruct (applyFinal_cases urlHost CountryNameToCode settings s p vpn due now x r) as [[g ->]|K]; [apply sameStages_report|by apply sameStages_quiet]. Qed.

Lemma conclude_less r r1 k s p a : trProbes r !! k = Some p -> sameStages r r1 -> trProbes r1 = trProbes r -> 1 < probeWeight p ->
  less (workLeft (conclude k s p a r1)) (workLeft r).
Proof.
  intros E S1 E1 H. unfold conclude. destruct (negb (anOk a)).
  - set (r2 := outTr (OGeoError (anError a)) r1). assert (S2 : sameStages r r2) by exact S1.
    destruct (isSite (seKind s)); [|apply (probeDone_less r); [done|exact S2|exact E1|lia]].
    apply (probeDone_less r); [done|eapply sameStages_trans; [exact S2|apply sameStages_report]| |lia].
    unfold siteFailed, report. by destruct (trSessions r2 !! prSession p).
  - destruct (isNil (anResults a)); [apply (probeDone_less r); [done..|lia]|].
    eapply (probe_less r _ k p); [done|exact S1|cbn; by rewrite E1|cbn; lia].
Qed.

Lemma stopPoller_stages po r : sameStages r (stopPoller po r).
Proof. unfold sameStages. by destruct (stopPoller_probes po r) as [_ ->]. Qed.

Lemma ask_shape k s p r : trSessions (ask settings k s p r) = trSessions r /\
  exists po, trProbes (ask settings k s p r) = <[k := mkProbe (prSession p) (prTarget p) (PrAsked po)]> (trProbes r).
Proof.
  unfold ask. destruct (isSite (seKind s)); [by split; [|exists None]|].
  destruct (isSpeed (seKind s)); [destruct (negb (speed_country settings))|]; (split; [done|by eexists]).
Qed.

Lemma probeStep_less r k a now p : trProbes r !! k = Some p -> live p && isSome (trSessions r !! prSession p) = true ->
  less (workLeft (probeStep urlHost CountryNameToCode settings k a now r)) (workLeft r).
Proof.
  intros E H. unfold probeStep. rewrite E. unfold live in H. destruct (trSessions r !! prSession p) as [s|] eqn:Es; [|by destruct (prStage p)].
  assert (Hw : probeWeight p = match prStage p with PrQueued => 5 | PrChecked => 4 | PrAsked _ => 3 | PrFlush _ => 2 | PrApply _ _ => 1 | PrDone => 0 end) by done.
  destruct (prStage p) as [| |po|a'|rs vpn|] eqn:St; try done.
  - destruct (trStop r); [apply (probeDone_less r); [done..|lia]|]. eapply (probe_less r _ k p); [done..|cbn; lia].
  - destruct (ask_shape k s p r) as [S1 [po P1]]. apply (probe_less r _ k p (PrAsked po)); [done|unfold sameStages; by rewrite S1|done|rewrite Hw; cbn; lia].
  - destruct (stopPoller_probes po r) as [P1 _]. destruct (isSpeed (seKind s)).
    + eapply (probe_less r _ k p); [done|apply stopPoller_stages|cbn; by rewrite P1|cbn; lia].
    + apply conclude_less; [done|apply stopPoller_stages|done|lia].
  - apply conclude_less; [done|apply sameStages_quiet, quiet_flush|apply (q_probes _ _ (quiet_flush r))|lia].
  - destruct rs as [|x rs]; [apply (probeDone_less r); [done..|lia]|].
    pose proof (applyFinal_stages s p vpn (anFlushDue a) now x r) as [S1 S2]. pose proof (applyFinal_probes urlHost CountryNameToCode settings r s p vpn (anFlushDue a) now x) as P1.
    apply level3_less; cbn [probeAt trSessions trProbes setProbe tr_Probes]; [done| |]; rewrite P1, (sumOf_insert _ _ _ _ _ E).
    + rewrite S2, Hw. cbn. lia.
    + unfold resultsWeight at 2 3. rewrite St. cbn [prStage]. rewrite zlen_cons. lia.
Qed.

(** ** Asides *)

Lemma pollApply_stages p served due now x r : trSessions (snd (pollApply settings p served due now x r)) = trSessions r /\ trProbes (snd (pollApply settings p served due now x r)) = trProbes r.
Proof.
  unfold pollApply. set (current := match poKind p with KCurrent => true | _ => false end). set (entid := if current then _ else _).
  set (r1 := match x with RSpeed _ => _ | RSite _ => _ | _ => _ end). assert (K : quietTr r r1) by (unfold r1; destruct x, (speed_country settings); auto with quiet).
  assert (Hk : forall r', quietTr r1 r' -> trSessions (if current then r' else outTr (OLive entid served (resultTag x)) r') = trSessions r /\ trProbes (if current then r' else outTr (OLive entid served (resultTag x)) r') = trProbes r).
  { intros r' K'. pose proof (quietTr_trans _ _ _ K K') as K2. rewrite <- (q_sessions _ _ K2), <- (q_probes _ _ K2). by destruct current. }
  destruct (entid =? -1); [by split; apply K|]. destruct (trProfiles r1 !! entid) as [ent|]; [|by split; apply K].
  pose proof (quiet_polls settings (poHook p) due now entid ent r1) as (Q1 & Q2 & Q3 & Q4 & Q5).
  destruct x; cbn [snd]; [by apply Hk..| |by split; apply K]. apply Hk. by destruct (speed_country settings).
Qed.

Lemma aside_work r ev : aside ev = true -> workLeft (turn r ev) = workLeft r.
Proof.
  enough (E : aside ev = true -> trSessions (turn r ev) = trSessions r /\ trProbes (turn r ev) = trProbes r).
  { intros H. destruct (E H) as [E1 E2]. unfold workLeft, level1, level2, level3. by rewrite E1, E2. }
  destruct ev as [| | | | | | |k a now|now|ps running]; intros H; try discriminate; cbn [testTurn]; [done| | |done].
  - unfold pollerStep. destruct (trPollers r !! k) as [p|]; [|done]. destruct (poStage p) as [| | | |served rs updated|]; try done.
    destruct rs as [|x rs]; [by destruct (isNil updated)|]. pose proof (pollApply_stages p served (anFlushDue a) now x r) as Hk.
    by destruct (pollApply settings p served (anFlushDue a) now x r) as [ids r'].
  - unfold runTask. destruct (trTasks r) as [|task tasks]; [done|].
    destruct task as [ids|id res|id res|g rep|ids]; try done; [unfold shown; by destruct (_ && _)..|by destruct g].
Qed.

Lemma asides_work evs r : Forall (fun ev => aside ev = true) evs -> workLeft (testRun urlHost CountryNameToCode settings groups evs r) = workLeft r.
Proof.
  intros H. revert r. induction H as [|ev evs Hev _ IH]; intros r; [done|].
  change (testRun urlHost CountryNameToCode settings groups (ev :: evs) r) with (testRun urlHost CountryNameToCode settings groups evs (turn r ev)).
  rewrite IH. by apply aside_work.
Qed.

Lemma advancing_less r ev : advancing r ev = true -> less (workLeft (turn r ev)) (workLeft r).
Proof.
  destruct ev as [| | | | |n b|k a now| | |]; intros H; try discriminate; cbn [testTurn advancing] in *.
  - destruct (trSessions r !! n) as [s|] eqn:E; [|done]. by apply (sessionStep_less r n b s).
  - destruct (trProbes r !! k) as [p|] eqn:E; [|done]. by apply (probeStep_less r k a now p).
Qed.

(** After anything that is not a new request, a step of a session or a probe. *)
Definition advances (r' r : TestRunner) : Prop :=
  exists evs ev, Forall (fun ev => aside ev = true) evs /\ advancing (testRun urlHost CountryNameToCode settings groups evs r) ev = true /\
    r' = turn (testRun urlHost CountryNameToCode settings groups evs r) ev.

Lemma advances_wf : well_founded advances.
Proof.
  apply (wf_incl _ _ (fun r' r => less (workLeft r') (workLeft r))); [|exact (wf_inverse_image _ _ less workLeft less_wf)].
  intros r' r (evs & ev & Ha & Hv & ->). rewrite <- (asides_work evs r Ha). by apply advancing_less.
Qed.

(** A session that holds the mutex can move, or one of its probes can. *)
Lemma holder_moves r n s : trOk r -> trSessions r !! n = Some s -> holding (seStage s) = true -> exists ev, advancing r ev = true.
Proof.
  intros W E Hh. destruct (canStep r s) eqn:Ec.
  { exists (SessionStep n (mkBuild [] [] [] ∅)). cbn [advancing]. by rewrite E. }
  pose proof (ok_awaited _ _ _ (ok_sessions r W) n s E) as Ha. pose proof (liveProbes_nonneg n (trProbes r)) as Hn.
  assert (Hl : 0 < liveProbes n (trProbes r)).
  { unfold canStep in Ec. unfold awaited in Ha. destruct (seStage s) as [| | | |i|i|i need ids|i rest|i rest| | | |]; try discriminate;
      apply Nat.eqb_neq in Ec; lia. }
  destruct (sumOf_pos (liveOf n) (trProbes r) (liveOf_nonneg n) Hl) as (k & p & Hk & Hp). unfold liveOf in Hp.
  destruct (Nat.eqb_spec (prSession p) n) as [En|]; [|done]. destruct (live p) eqn:El; [|done].
  exists (ProbeStep k (mkAnswer false [] [] ∅ false) 0). cbn [advancing]. by rewrite Hk, El, En, E.
Qed.

(** C32: From any state the runner can be in: without new requests every schedule of
    sessions, probes, poll threads and posted tasks has only finitely many steps
    of sessions and probes, whatever the core answers; and until every session
    has ended one of them can move, so none waits forever. *)
Theorem test_sessions_end evs profiles :
  let r := testRun urlHost CountryNameToCode settings groups evs (newTestRunner profiles) in
  Acc advances r /\ (Forall (fun s => seStage s = Ended) (trSessions r) \/ exists ev, advancing r ev = true).
Proof.
  intros r. split; [apply advances_wf|]. pose proof (testRun_ok urlHost CountryNameToCode settings groups evs profiles) as W. fold r in W.
  destruct (decide (Forall (fun s => negb (match seStage s with Ended => true | _ => false end) = false) (trSessions r))) as [Hf|Hf].
  { left. eapply Forall_impl; [exact Hf|]. intros s H0. cbn in H0. by destruct (seStage s). }
  right. apply not_Forall_Exists in Hf; [|apply _]. apply Exists_exists in Hf as (s & Hin & Hs). apply list_elem_of_lookup in Hin as [n E].
  destruct (canStep r s) eqn:Ec; [exists (SessionStep n (mkBuild [] [] [] ∅)); cbn [advancing]; by rewrite E|].
  destruct (holding (seStage s)) eqn:Hh; [by apply (holder_moves r n s)|].
  unfold canStep in Ec. cbn in Hs. destruct (seStage s); try done. destruct (trHolder r) as [m|] eqn:Hm; [|done].
  apply (ok_holder _ _ _ (ok_sessions r W)) in Hm as (s' & E' & H'). by apply (holder_moves r m s').
Qed.
End Ends.
