(* ===== verification/TestTraffic.v ===== *)
(** The bytes a speed test moved and who is credited for them; runs of the whole
    runner on small inputs. *)
From stdpp Require Import base list gmap strings.
From Stdlib Require Import ZArith Lia Bool.
From S2P Require Import Prelude TestResults TestRunner TestRunnerFacts TestRunnerRuns.

#[local] Arguments sumOf : simpl never.

Section Traffic.
Context (settings : TestSettings).

(** One reading of a tag's counters, by a poll or by the final result. *)
Record Reading := mkReading { rdUp : Z; rdDown : Z; rdFlushDue : bool }.

Definition readings (id : Z) (tag : qstr) (l : list Reading) (r : TestRunner) : TestRunner :=
  fold_left (fun r x => creditTraffic settings id tag (rdUp x) (rdDown x) (rdFlushDue x) r) l r.

(** Counters that only grow, from [base]. *)
Fixpoint grows (up down : Z) (l : list Reading) : Prop :=
  match l with [] => True | x :: l => up <= rdUp x /\ down <= rdDown x /\ grows (rdUp x) (rdDown x) l end.

Definition lastReading (up down : Z) (l : list Reading) : Z * Z := fold_left (fun _ x => (rdUp x, rdDown x)) l (up, down).

(** What the statistics were told of a profile. *)
Definition toldStats (id : Z) (o : TestOut) : Z * Z := match o with OConfigDelta i up down => if i =? id then (up, down) else (0, 0) | _ => (0, 0) end.
Definition statsUp (id : Z) (r : TestRunner) : Z := sumOf (fun o => fst (toldStats id o)) (trOut r).
Definition statsDown (id : Z) (r : TestRunner) : Z := sumOf (fun o => snd (toldStats id o)) (trOut r).

Definition trafficOf (id : Z) (r : TestRunner) : option (Z * Z) := (fun t => (tsUplink t, tsDownlink t)) <$> trProfiles r !! id.

Lemma flush_keeps r : trProfiles (flushTrafficCredits r) = trProfiles r /\ trCredited (flushTrafficCredits r) = trCredited r /\
  (forall id, statsUp id (flushTrafficCredits r) = statsUp id r /\ statsDown id (flushTrafficCredits r) = statsDown id r).
Proof.
  unfold flushTrafficCredits. destruct (List.filter _ _); [done|]. split; [done|]. split; [done|]. intros id.
  unfold statsUp, statsDown. cbn [trOut outTr tr_Out tr_Pending]. rewrite !sumOf_app, !sumOf_one. cbn. lia.
Qed.

Lemma credit_step id tag up down x r : tag <> [] -> disable_traffic_stats settings = false -> default (0, 0) (trCredited r !! tag) = (up, down) ->
  up <= rdUp x -> down <= rdDown x -> forall a b, trafficOf id r = Some (a, b) ->
  let r' := creditTraffic settings id tag (rdUp x) (rdDown x) (rdFlushDue x) r in
  default (0, 0) (trCredited r' !! tag) = (rdUp x, rdDown x) /\ trafficOf id r' = Some (a + (rdUp x - up), b + (rdDown x - down)) /\
  statsUp id r' = statsUp id r + (rdUp x - up) /\ statsDown id r' = statsDown id r + (rdDown x - down).
Proof.
  intros Ht Hs Hb Hu Hd a b Hp. cbv zeta. unfold creditTraffic. destruct (isNil tag) eqn:En; [by destruct tag|]. rewrite Hs, Hb. cbn [orb fst snd].
  unfold gained. destruct (Z.leb_spec up (rdUp x)); [|lia]. destruct (Z.leb_spec down (rdDown x)); [|lia].
  destruct (Z.leb_spec (rdUp x - up) 0), (Z.leb_spec (rdDown x - down) 0); cbn [andb].
  1: { cbn [trCredited tr_Credited]. rewrite lookup_insert_eq. split; [done|]. change (trafficOf id (tr_Credited _ r)) with (trafficOf id r).
       rewrite Hp. split; [f_equal; f_equal; lia|]. unfold statsUp, statsDown. cbn [trOut tr_Credited]. lia. }
  all: set (r1 := tr_Pending _ _).
  all: assert (Hr : default (0, 0) (trCredited r1 !! tag) = (rdUp x, rdDown x) /\ trafficOf id r1 = Some (a + (rdUp x - up), b + (rdDown x - down)) /\
    statsUp id r1 = statsUp id r + (rdUp x - up) /\ statsDown id r1 = statsDown id r + (rdDown x - down)).
  1, 3, 5: cbn [r1 trCredited tr_Pending tr_Profiles outTr tr_Out tr_Credited]; rewrite lookup_insert_eq; (split; [done|]);
    unfold trafficOf in *; cbn [r1 trProfiles tr_Pending tr_Profiles outTr tr_Out tr_Credited]; rewrite lookup_alter_eq; destruct (trProfiles r !! id) as [t|]; [|done];
    cbn in Hp |- *; injection Hp as <- <-; (split; [done|]); unfold statsUp, statsDown; cbn [r1 trOut tr_Pending tr_Profiles outTr tr_Out tr_Credited];
    rewrite !sumOf_app, !sumOf_one; cbn [toldStats]; rewrite Z.eqb_refl; cbn [fst snd]; lia.
  all: destruct (rdFlushDue x); [|exact Hr]; destruct (flush_keeps r1) as (F1 & F2 & F3); destruct (F3 id) as [F4 F5];
    unfold trafficOf; rewrite F1, F2, F4, F5; exact Hr.
Qed.

(** C24: However often a tag's counters were read between the start of a test and its
    end, and whenever the credits were written to the database: counters that
    only grow credit the profile, and tell the statistics, exactly what the last
    reading added to the baseline. *)
Theorem speed_bytes_credited id tag l r up down a b :
  tag <> [] -> disable_traffic_stats settings = false -> default (0, 0) (trCredited r !! tag) = (up, down) -> grows up down l -> trafficOf id r = Some (a, b) ->
  let '(lastUp, lastDown) := lastReading up down l in
  trafficOf id (readings id tag l r) = Some (a + (lastUp - up), b + (lastDown - down)) /\
  statsUp id (readings id tag l r) = statsUp id r + (lastUp - up) /\ statsDown id (readings id tag l r) = statsDown id r + (lastDown - down).
Proof.
  intros Ht Hs. revert r up down a b. induction l as [|x l IH]; intros r up down a b Hb Hg Hp.
  - cbn. rewrite Hp, !Z.sub_diag, !Z.add_0_r. done.
  - destruct Hg as (Hu & Hd & Hg). pose proof (credit_step id tag up down x r Ht Hs Hb Hu Hd a b Hp) as (B1 & P1 & U1 & D1).
    specialize (IH _ _ _ _ _ B1 Hg P1). change (lastReading up down (x :: l)) with (lastReading (rdUp x) (rdDown x) l).
    change (readings id tag (x :: l) r) with (readings id tag l (creditTraffic settings id tag (rdUp x) (rdDown x) (rdFlushDue x) r)).
    destruct (lastReading (rdUp x) (rdDown x) l) as [lu ld]. destruct IH as (I1 & I2 & I3). rewrite I1, I2, I3, U1, D1. split; [f_equal; f_equal; lia|lia].
Qed.
End Traffic.

(** ** Runs *)

Definition sampleTested : Tested := mkTested 0 (u "vless") 0 0 [] [] [] [] 0 0 0 [] 0 0.
Definition sampleSettings : TestSettings := mkTestSettings 0 0 false false [].
Definition sampleBuild (id : Z) : BuildObject := mkBuild [] [] [u "test-1"] {[u "test-1" := id]}.
Definition noBuild : BuildObject := mkBuild [] [] [] ∅.
Definition noAnswer : Answer := mkAnswer false [] [] ∅ false.
Definition sampleProfiles : gmap Z Tested := <[1 := sampleTested]> {[2 := sampleTested]}.

Notation sampleRun evs := (testRun (fun _ => []) (fun c => c) sampleSettings ∅ evs (newTestRunner sampleProfiles)).

(** A latency test of profile 1 whose result arrives while the test runs. *)
Definition polledRun : list TestEvent :=
  [AskLatency KUrl [1] (Some 7%nat) true false; SessionStep 0 noBuild; SessionStep 0 noBuild; SessionStep 0 (sampleBuild 1);
   ProbeStep 0 noAnswer 0; ProbeStep 0 noAnswer 0; PollerStep 0 noAnswer 0; PollerStep 0 noAnswer 0;
   PollerStep 0 (mkAnswer true [] [RUrl (mkUrlResp (u "test-1") 80 [])] ∅ false) 0; PollerStep 0 noAnswer 0; PollerStep 0 noAnswer 5].

Lemma live_results_own_batch_witness :
  OLive 1 2 (u "test-1") ∈ trOut (sampleRun polledRun) /\
  exists m, OBatch 2 m ∈ trOut (sampleRun polledRun) /\ m !! u "test-1" = Some 1 /\ forall m', OBatch 2 m' ∈ trOut (sampleRun polledRun) -> m' = m.
Proof.
  assert (H : OLive 1 2 (u "test-1") ∈ trOut (sampleRun polledRun)).
  { apply (list_elem_of_lookup_2 _ 5). vm_compute. reflexivity. }
  split; [exact H|]. exact (live_results_own_batch (fun _ => []) (fun c => c) sampleSettings ∅ polledRun sampleProfiles 1 2 (u "test-1") H).
Defined.

Lemma speed_bytes_credited_witness :
  let l := [mkReading 10 100 false; mkReading 10 250 true; mkReading 30 400 false] in
  let r := readings sampleSettings 1 (u "test-1") l (newTestRunner sampleProfiles) in
  grows 0 0 l /\ trafficOf 1 r = Some (30, 400) /\ statsUp 1 r = 30 /\ statsDown 1 r = 400.
Proof.
  intros l r. assert (G : grows 0 0 l) by (cbn; lia). split; [exact G|].
  exact (speed_bytes_credited sampleSettings 1 (u "test-1") l (newTestRunner sampleProfiles) 0 0 0 0 ltac:(discriminate) eq_refl eq_refl G eq_refl).
Defined.

(** One speed session over two profiles, one after the other.  The tags of a
    batch start over, so both are "test-1": the second profile, which moved 500
    bytes, is credited the 200 by which it passed the first one's 300. *)
Definition speedProbe (k : nat) (down : Z) : list TestEvent :=
  let a := mkAnswer true [] [RSpeed (mkSpeedRes (u "test-1") [] [] 0 [] [] false down 0)] ∅ false in
  [ProbeStep k noAnswer 0; ProbeStep k noAnswer 0; ProbeStep k a 0; ProbeStep k noAnswer 0; ProbeStep k noAnswer 0; ProbeStep k noAnswer 0].

Definition speedRun : list TestEvent :=
  [AskSpeed [1; 2] false None true; SessionStep 0 noBuild; SessionStep 0 noBuild; SessionStep 0 noBuild; SessionStep 0 (sampleBuild 1); SessionStep 0 noBuild]
  ++ speedProbe 0 300 ++ [SessionStep 0 noBuild; SessionStep 0 noBuild; SessionStep 0 noBuild; SessionStep 0 (sampleBuild 2); SessionStep 0 noBuild] ++ speedProbe 1 500.

Example baseline_of_another_profile : trafficOf 1 (sampleRun speedRun) = Some (0, 300) /\ trafficOf 2 (sampleRun speedRun) = Some (0, 200).
Proof. vm_compute. done. Qed.
