(* ===== verification/IpScan.v ===== *)
(** The settings and the state of an IP scan:
    src/include/database/entities/IpScan.h and src/src/database/entities/IpScan.cpp.

    [FromJson] takes the settings it is called on as its last argument.  A JSON
    number that is not a whole number is kept by its text in [JReal]; what
    static_cast<int> makes of it is [realTrunc]. *)
From stdpp Require Import base list strings.
From Stdlib Require Import ZArith Lia Bool.
From S2P Require Import Prelude Json.

(** ** Data *)

Record ScanIcmpOptions := mkIcmp { icEnabled : bool; icTimeoutMs : Z; icCount : Z }.
Record ScanTcpOptions := mkTcp { tcEnabled : bool; tcTimeoutMs : Z; tcAttempts : Z }.

Record ScanHttpOptions := mkHttp {
  hpEnabled : bool;
  hpTls : bool;
  hpServerName : qstr;
  hpHost : qstr;
  hpPath : qstr;
  hpMethod : qstr;
  hpHttpVersion : qstr;
  hpAlpn : list qstr;
  hpMinVersion : qstr;
  hpMaxVersion : qstr;
  hpFingerprint : qstr;
  hpInsecure : bool;
  hpDisableSni : bool;
  hpFragment : bool;
  hpFragmentFallbackDelayMs : Z;
  hpRecordFragment : bool;
  hpMixedCaseSni : bool;
  hpTimeoutMs : Z
}.

Record ScanConfigTestOptions := mkConfigTest {
  ctEnabled : bool;
  ctProfileId : Z;
  ctUrl : qstr;
  ctTimeoutMs : Z;
  ctWarmLatency : bool
}.

Record ScanWarpOptions := mkWarp {
  waMode : qstr;
  waHttpMode : Z;
  waIdentity : qstr;
  waProfileId : Z;
  waGeneratedIdentity : jobject;
  waGeneratedMode : qstr;
  waMtu : Z;
  waSni : qstr;
  waJc : Z;
  waJmin : Z;
  waJmax : Z;
  waI1 : qstr;
  waI2 : qstr;
  waI3 : qstr;
  waI4 : qstr;
  waI5 : qstr;
  waUrl : qstr;
  waTimeoutMs : Z;
  waWarmLatency : bool
}.

Inductive PortMode := Ignore | Merge | PortList.

Record ScanConfig := mkScanConfig {
  scPorts : list Z;
  scPortMode : PortMode;
  scShuffle : bool;
  scScanIPv6 : bool;
  scStopAfter : Z;
  scConcurrency : Z;
  scSpawnIntervalMs : Z;
  scIcmp : ScanIcmpOptions;
  scTcp : ScanTcpOptions;
  scHttp : ScanHttpOptions;
  scConfig : ScanConfigTestOptions;
  scWarp : ScanWarpOptions
}.

Inductive ScanKind := Generic | Warp.
Inductive ScanStatus := Idle | Running | Paused | Completed | Failed.
Inductive ScanMode := Initial | RescanResult.

#[export] Instance ScanStatus_eq_dec : EqDecision ScanStatus.
Proof. solve_decision. Defined.
#[export] Instance ScanMode_eq_dec : EqDecision ScanMode.
Proof. solve_decision. Defined.
#[export] Instance ScanKind_eq_dec : EqDecision ScanKind.
Proof. solve_decision. Defined.

Record IpScan := mkIpScan {
  isId : Z;
  isName : qstr;
  isKind : ScanKind;
  base_list_id : Z;
  result_list_id : Z;
  isConfig : ScanConfig;
  isStatus : ScanStatus;
  isMode : ScanMode;
  snapshot_list_id : Z;
  seed : Z;
  cursor : Z;
  total : Z;
  spec_hash : qstr;
  rescan_snapshot_list_id : Z;
  rescan_cursor : Z;
  rescan_total : Z;
  found : Z;
  removed : Z;
  last_error : option Message;
  started_at : Z;
  finished_at : Z
}.

Definition ActiveCursor (s : IpScan) : Z := match isMode s with RescanResult => rescan_cursor s | Initial => cursor s end.
Definition ActiveTotal (s : IpScan) : Z := match isMode s with RescanResult => rescan_total s | Initial => total s end.
Definition CanResumeInitial (s : IpScan) : bool := (0 <=? snapshot_list_id s) && (0 <? total s) && (cursor s <? total s).

(** ** Settings of a new scan *)

Definition newIcmp : ScanIcmpOptions := mkIcmp false 1000 1.
Definition newTcp : ScanTcpOptions := mkTcp true 2000 1.
Definition newHttp : ScanHttpOptions :=
  mkHttp false true [] [] (u "/") (u "GET") (u "1.1") [] [] [] [] false false false 0 false false 3000.
Definition newConfigTest : ScanConfigTestOptions := mkConfigTest false (-1) [] 3000 true.
Definition newWarp : ScanWarpOptions :=
  mkWarp (u "wireguard") 0 (u "generated") (-1) [] [] 1280 [] 0 0 0 [] [] [] [] [] [] 5000 true.

Definition kWireGuardPorts : list Z := [2408; 500; 1701; 4500].

Definition DefaultConfig (kind : ScanKind) : ScanConfig :=
  let tcp := match kind with Warp => mkTcp false 2000 1 | Generic => newTcp end in
  match kind with
  | Warp => mkScanConfig kWireGuardPorts Merge true false 10 16 2 newIcmp tcp newHttp newConfigTest newWarp
  | Generic => mkScanConfig [] Merge true false 0 64 2 newIcmp tcp newHttp newConfigTest newWarp
  end.

(** ** JSON *)

Definition kIpScanMinTimeoutMs : Z := 100.
Definition kIpScanMaxTimeoutMs : Z := 60000.

Definition PortModeKey (c : ScanConfig) : qstr :=
  match scPortMode c with Ignore => u "ignore" | PortList => u "list" | Merge => u "merge" end.

Definition ipScanCleanPorts (ports : list Z) : list Z :=
  fold_left (fun out port => if (1 <=? port) && (port <=? 65535) && negb (existsb (Z.eqb port) out) then out ++ [port] else out)
    ports [].

Definition icmpToJson (i : ScanIcmpOptions) : jobject := mkObject
  [(u "enabled", JBool (icEnabled i)); (u "timeoutMs", JInt (icTimeoutMs i)); (u "count", JInt (icCount i))].

Definition tcpToJson (t : ScanTcpOptions) : jobject := mkObject
  [(u "enabled", JBool (tcEnabled t)); (u "timeoutMs", JInt (tcTimeoutMs t)); (u "attempts", JInt (tcAttempts t))].

Definition httpToJson (h : ScanHttpOptions) : jobject := mkObject
  [(u "enabled", JBool (hpEnabled h));
   (u "tls", JBool (hpTls h));
   (u "serverName", JStr (hpServerName h));
   (u "host", JStr (hpHost h));
   (u "path", JStr (hpPath h));
   (u "method", JStr (hpMethod h));
   (u "httpVersion", JStr (hpHttpVersion h));
   (u "alpn", JArr (map JStr (hpAlpn h)));
   (u "minVersion", JStr (hpMinVersion h));
   (u "maxVersion", JStr (hpMaxVersion h));
   (u "fingerprint", JStr (hpFingerprint h));
   (u "insecure", JBool (hpInsecure h));
   (u "disableSni", JBool (hpDisableSni h));
   (u "fragment", JBool (hpFragment h));
   (u "fragmentFallbackDelayMs", JInt (hpFragmentFallbackDelayMs h));
   (u "recordFragment", JBool (hpRecordFragment h));
   (u "mixedCaseSni", JBool (hpMixedCaseSni h));
   (u "timeoutMs", JInt (hpTimeoutMs h))].

Definition configTestToJson (c : ScanConfigTestOptions) : jobject := mkObject
  [(u "enabled", JBool (ctEnabled c));
   (u "profileId", JInt (ctProfileId c));
   (u "url", JStr (ctUrl c));
   (u "timeoutMs", JInt (ctTimeoutMs c));
   (u "warmLatency", JBool (ctWarmLatency c))].

Definition warpToJson (w : ScanWarpOptions) : jobject := mkObject
  [(u "mode", JStr (waMode w));
   (u "httpMode", JInt (waHttpMode w));
   (u "identity", JStr (waIdentity w));
   (u "profileId", JInt (waProfileId w));
   (u "generatedIdentity", JObj (waGeneratedIdentity w));
   (u "generatedMode", JStr (waGeneratedMode w));
   (u "mtu", JInt (waMtu w));
   (u "sni", JStr (waSni w));
   (u "jc", JInt (waJc w));
   (u "jmin", JInt (waJmin w));
   (u "jmax", JInt (waJmax w));
   (u "i1", JStr (waI1 w));
   (u "i2", JStr (waI2 w));
   (u "i3", JStr (waI3 w));
   (u "i4", JStr (waI4 w));
   (u "i5", JStr (waI5 w));
   (u "url", JStr (waUrl w));
   (u "timeoutMs", JInt (waTimeoutMs w));
   (u "warmLatency", JBool (waWarmLatency w))].

Definition ToJson (c : ScanConfig) : jobject := mkObject
  [(u "ports", JArr (map JInt (scPorts c)));
   (u "portMode", JStr (PortModeKey c));
   (u "shuffle", JBool (scShuffle c));
   (u "ipv6", JBool (scScanIPv6 c));
   (u "stopAfter", JInt (scStopAfter c));
   (u "concurrency", JInt (scConcurrency c));
   (u "spawnIntervalMs", JInt (scSpawnIntervalMs c));
   (u "icmp", JObj (icmpToJson (scIcmp c)));
   (u "tcp", JObj (tcpToJson (scTcp c)));
   (u "http", JObj (httpToJson (scHttp c)));
   (u "config", JObj (configTestToJson (scConfig c)));
   (u "warp", JObj (warpToJson (scWarp c)))].

Definition isDouble (j : json) : bool := match j with JInt _ | JReal _ => true | _ => false end.

Definition ipScanReadBool (o : jobject) (key : string) (value : bool) : bool :=
  match objValue o (u key) with JBool b => b | _ => value end.

Definition ipScanReadString (o : jobject) (key : string) (value : qstr) : qstr :=
  match objValue o (u key) with JStr s => s | _ => value end.

Section Reading.
Context {Q : QtChar} (realTrunc : qstr -> Z).

Definition ipScanReadInt (o : jobject) (key : string) (value min max : Z) : Z :=
  let clamp n := Z.max min (Z.min n max) in
  match objValue o (u key) with JInt n => clamp n | JReal t => clamp (realTrunc t) | _ => value end.

(** The first of the allowed texts that the value equals, whatever its case. *)
Definition ipScanReadChoice (o : jobject) (key : string) (value : qstr) (allowed : list string) : qstr :=
  match objValue o (u key) with
  | JStr s => default value (find (eqFold (trimmed s)) (map u allowed))
  | _ => value
  end.

Definition readPorts (o : jobject) (ports : list Z) : list Z :=
  match objValue o (u "ports") with
  | JArr l => ipScanCleanPorts (map (fun item => toInt item 0) (List.filter isDouble l))
  | _ => ports
  end.

Definition readPortMode (o : jobject) (mode : PortMode) : PortMode :=
  let text := toStr (objValue o (u "portMode")) in
  if isNil text then mode
  else if eqStr text (u "ignore") then Ignore
  else if eqStr text (u "list") then PortList
  else Merge.

Definition readAlpn (o : jobject) (alpn : list qstr) : list qstr :=
  match objValue o (u "alpn") with
  | JArr l =>
      fold_left (fun out item =>
        let value := trimmed (toStr item) in
        if negb (isNil value) && negb (existsb (eqStr value) out) then out ++ [value] else out) l []
  | _ => alpn
  end.

Definition icmpFromJson (o : jobject) (i : ScanIcmpOptions) : ScanIcmpOptions :=
  mkIcmp (ipScanReadBool o "enabled" (icEnabled i))
    (ipScanReadInt o "timeoutMs" (icTimeoutMs i) kIpScanMinTimeoutMs kIpScanMaxTimeoutMs)
    (ipScanReadInt o "count" (icCount i) 1 10).

Definition tcpFromJson (o : jobject) (t : ScanTcpOptions) : ScanTcpOptions :=
  mkTcp (ipScanReadBool o "enabled" (tcEnabled t))
    (ipScanReadInt o "timeoutMs" (tcTimeoutMs t) kIpScanMinTimeoutMs kIpScanMaxTimeoutMs)
    (ipScanReadInt o "attempts" (tcAttempts t) 1 10).

Definition httpFromJson (o : jobject) (h : ScanHttpOptions) : ScanHttpOptions :=
  mkHttp (ipScanReadBool o "enabled" (hpEnabled h))
    (ipScanReadBool o "tls" (hpTls h))
    (ipScanReadString o "serverName" (hpServerName h))
    (ipScanReadString o "host" (hpHost h))
    (ipScanReadString o "path" (hpPath h))
    (ipScanReadChoice o "method" (hpMethod h) ["GET"; "HEAD"; "NONE"])
    (ipScanReadChoice o "httpVersion" (hpHttpVersion h) ["1.1"; "2"; "3"])
    (readAlpn o (hpAlpn h))
    (ipScanReadChoice o "minVersion" (hpMinVersion h) [""; "1.0"; "1.1"; "1.2"; "1.3"])
    (ipScanReadChoice o "maxVersion" (hpMaxVersion h) [""; "1.0"; "1.1"; "1.2"; "1.3"])
    (ipScanReadString o "fingerprint" (hpFingerprint h))
    (ipScanReadBool o "insecure" (hpInsecure h))
    (ipScanReadBool o "disableSni" (hpDisableSni h))
    (ipScanReadBool o "fragment" (hpFragment h))
    (ipScanReadInt o "fragmentFallbackDelayMs" (hpFragmentFallbackDelayMs h) 0 kIpScanMaxTimeoutMs)
    (ipScanReadBool o "recordFragment" (hpRecordFragment h))
    (ipScanReadBool o "mixedCaseSni" (hpMixedCaseSni h))
    (ipScanReadInt o "timeoutMs" (hpTimeoutMs h) kIpScanMinTimeoutMs kIpScanMaxTimeoutMs).

Definition configTestFromJson (o : jobject) (c : ScanConfigTestOptions) : ScanConfigTestOptions :=
  mkConfigTest (ipScanReadBool o "enabled" (ctEnabled c))
    (ipScanReadInt o "profileId" (ctProfileId c) (-1) max_i32)
    (ipScanReadString o "url" (ctUrl c))
    (ipScanReadInt o "timeoutMs" (ctTimeoutMs c) kIpScanMinTimeoutMs kIpScanMaxTimeoutMs)
    (ipScanReadBool o "warmLatency" (ctWarmLatency c)).

Definition warpFromJson (o : jobject) (w : ScanWarpOptions) : ScanWarpOptions :=
  mkWarp (ipScanReadChoice o "mode" (waMode w) ["wireguard"; "amneziawg"; "masque"])
    (ipScanReadInt o "httpMode" (waHttpMode w) 0 2)
    (ipScanReadChoice o "identity" (waIdentity w) ["generated"; "profile"; "builtin"])
    (ipScanReadInt o "profileId" (waProfileId w) (-1) max_i32)
    (match objValue o (u "generatedIdentity") with JObj i => i | _ => waGeneratedIdentity w end)
    (ipScanReadChoice o "generatedMode" (waGeneratedMode w) [""; "wireguard"; "masque"])
    (ipScanReadInt o "mtu" (waMtu w) 576 9000)
    (ipScanReadString o "sni" (waSni w))
    (ipScanReadInt o "jc" (waJc w) 0 128)
    (ipScanReadInt o "jmin" (waJmin w) 0 1280)
    (ipScanReadInt o "jmax" (waJmax w) 0 1280)
    (ipScanReadString o "i1" (waI1 w))
    (ipScanReadString o "i2" (waI2 w))
    (ipScanReadString o "i3" (waI3 w))
    (ipScanReadString o "i4" (waI4 w))
    (ipScanReadString o "i5" (waI5 w))
    (ipScanReadString o "url" (waUrl w))
    (ipScanReadInt o "timeoutMs" (waTimeoutMs w) kIpScanMinTimeoutMs kIpScanMaxTimeoutMs)
    (ipScanReadBool o "warmLatency" (waWarmLatency w)).

Definition FromJson (o : jobject) (c : ScanConfig) : ScanConfig :=
  mkScanConfig (readPorts o (scPorts c))
    (readPortMode o (scPortMode c))
    (ipScanReadBool o "shuffle" (scShuffle c))
    (ipScanReadBool o "ipv6" (scScanIPv6 c))
    (ipScanReadInt o "stopAfter" (scStopAfter c) 0 1000000000)
    (ipScanReadInt o "concurrency" (scConcurrency c) 1 1000)
    (ipScanReadInt o "spawnIntervalMs" (scSpawnIntervalMs c) 0 1000)
    (icmpFromJson (toObject (objValue o (u "icmp"))) (scIcmp c))
    (tcpFromJson (toObject (objValue o (u "tcp"))) (scTcp c))
    (httpFromJson (toObject (objValue o (u "http"))) (scHttp c))
    (configTestFromJson (toObject (objValue o (u "config"))) (scConfig c))
    (warpFromJson (toObject (objValue o (u "warp"))) (scWarp c)).
End Reading.

(** What decides the order of the targets; [sha1] is QCryptographicHash in hex. *)
Definition targetSpecText (c : ScanConfig) (baseListId : Z) : qstr :=
  joinWith cBar
    [number baseListId;
     joinWith cComma (map number (ipScanCleanPorts (scPorts c)));
     PortModeKey c;
     number (if scShuffle c then 1 else 0);
     number (if scScanIPv6 c then 1 else 0)].

Definition TargetSpecHash (sha1 : qstr -> qstr) (c : ScanConfig) (baseListId : Z) : qstr :=
  sha1 (targetSpecText c baseListId).
