(* ===== verification/IpScanFacts.v ===== *)
(** Settings of a scan read from any JSON are within their bounds, and are read
    back unchanged from what they are stored as. *)
From stdpp Require Import base list strings.
From Stdlib Require Import ZArith Lia Bool.
From S2P Require Import Prelude Json IpScan.

#[local] Arguments mkObject : simpl never.
#[local] Arguments objValue : simpl never.

(** ** Bounds *)

Definition within (lo hi n : Z) : Prop := lo <= n <= hi.
Definition timeout (n : Z) : Prop := within kIpScanMinTimeoutMs kIpScanMaxTimeoutMs n.
Definition oneOf (allowed : list string) (s : qstr) : Prop := s ∈ map u allowed.

Definition httpVersions : list string := ["1.1"; "2"; "3"].
Definition tlsVersions : list string := [""; "1.0"; "1.1"; "1.2"; "1.3"].
Definition warpModes : list string := ["wireguard"; "amneziawg"; "masque"].
Definition identities : list string := ["generated"; "profile"; "builtin"].
Definition generatedModes : list string := [""; "wireguard"; "masque"].

Section Valid.
Context {Q : QtChar} {QL : QtCharLaws Q}.

Definition portsValid (l : list Z) : Prop := NoDup l /\ Forall (within 1 65535) l.
Definition alpnValid (l : list qstr) : Prop := NoDup l /\ Forall (fun a => a <> [] /\ trimmed a = a) l.

Definition httpValid (h : ScanHttpOptions) : Prop :=
  oneOf ["GET"; "HEAD"; "NONE"] (hpMethod h) /\ oneOf httpVersions (hpHttpVersion h) /\ alpnValid (hpAlpn h) /\
  oneOf tlsVersions (hpMinVersion h) /\ oneOf tlsVersions (hpMaxVersion h) /\
  within 0 kIpScanMaxTimeoutMs (hpFragmentFallbackDelayMs h) /\ timeout (hpTimeoutMs h).

Definition warpValid (w : ScanWarpOptions) : Prop :=
  oneOf warpModes (waMode w) /\ within 0 2 (waHttpMode w) /\ oneOf identities (waIdentity w) /\
  within (-1) max_i32 (waProfileId w) /\ oneOf generatedModes (waGeneratedMode w) /\ within 576 9000 (waMtu w) /\
  within 0 128 (waJc w) /\ within 0 1280 (waJmin w) /\ within 0 1280 (waJmax w) /\ timeout (waTimeoutMs w).

(** What FromJson promises. *)
Definition configValid (c : ScanConfig) : Prop :=
  portsValid (scPorts c) /\ within 0 1000000000 (scStopAfter c) /\ within 1 1000 (scConcurrency c) /\
  within 0 1000 (scSpawnIntervalMs c) /\
  timeout (icTimeoutMs (scIcmp c)) /\ within 1 10 (icCount (scIcmp c)) /\
  timeout (tcTimeoutMs (scTcp c)) /\ within 1 10 (tcAttempts (scTcp c)) /\
  httpValid (scHttp c) /\
  within (-1) max_i32 (ctProfileId (scConfig c)) /\ timeout (ctTimeoutMs (scConfig c)) /\
  warpValid (scWarp c).

(** ** Lists without repetition *)

(** A loop that appends what passes a test and is not there yet. *)
Definition collect {A} (ok : A -> bool) (eqb : A -> A -> bool) (l out : list A) : list A :=
  fold_left (fun out x => if ok x && negb (existsb (eqb x) out) then out ++ [x] else out) l out.

Lemma collect_spec {A} (ok : A -> bool) eqb (l out : list A) : (forall x y, eqb x y = true <-> x = y) ->
  NoDup out -> Forall (fun x => ok x = true) out ->
  NoDup (collect ok eqb l out) /\ Forall (fun x => ok x = true) (collect ok eqb l out).
Proof.
  intros Heq. unfold collect. revert out. induction l as [|x l IH]; intros out Hn Hf; [done|]. cbn [fold_left].
  destruct (ok x) eqn:Hx; cbn [andb]; [|by apply IH]. destruct (existsb (eqb x) out) eqn:He; cbn [negb]; [by apply IH|].
  apply IH; [|by apply Forall_app_2; [|constructor]]. apply NoDup_app. split; [done|]. split; [|apply NoDup_singleton].
  intros y Hy ->%list_elem_of_singleton. assert (H : existsb (eqb x) out = true); [|congruence].
  apply existsb_exists. exists x. split; [by apply list_elem_of_In|by apply Heq].
Qed.

Lemma collect_id {A} (ok : A -> bool) eqb (l out : list A) : (forall x y, eqb x y = true <-> x = y) ->
  NoDup (out ++ l) -> Forall (fun x => ok x = true) l -> collect ok eqb l out = out ++ l.
Proof.
  intros Heq. unfold collect. revert out. induction l as [|x l IH]; intros out Hn Hf; [by rewrite app_nil_r|].
  inversion Hf as [|? ? Hx Hl]; subst. cbn [fold_left]. rewrite Hx. cbn [andb].
  destruct (existsb (eqb x) out) eqn:He; cbn [negb].
  - exfalso. apply existsb_exists in He as (y & Hy & <-%Heq). apply NoDup_app in Hn as (_ & Hn & _).
    apply (Hn x); [by apply list_elem_of_In|by left].
  - rewrite IH, <- app_assoc; [done| |done]. by rewrite <- app_assoc.
Qed.

Lemma cleanPorts_collect l :
  ipScanCleanPorts l = collect (fun p => (1 <=? p) && (p <=? 65535)) Z.eqb l [].
Proof. reflexivity. Qed.

Lemma cleanPorts_valid l : portsValid (ipScanCleanPorts l).
Proof.
  rewrite cleanPorts_collect. destruct (collect_spec (fun p => (1 <=? p) && (p <=? 65535)) Z.eqb l []) as [Hn Hf];
    [apply Z.eqb_eq|constructor|constructor|]. split; [done|]. eapply Forall_impl; [exact Hf|]. intros p Hp. cbv beta in Hp. unfold within. lia.
Qed.

Lemma cleanPorts_id l : portsValid l -> ipScanCleanPorts l = l.
Proof.
  intros [Hn Hf]. rewrite cleanPorts_collect. apply collect_id; [apply Z.eqb_eq|done|].
  eapply Forall_impl; [exact Hf|]. unfold within. intros p Hp. cbv beta in *. lia.
Qed.

(** ** Texts *)

Lemma dropWhile_head f s c t : dropWhile f s = c :: t -> f c = false.
Proof. induction s as [|d s IH]; cbn [dropWhile]; [done|]. destruct (f d) eqn:E; [done|]. by intros [= -> ->]. Qed.

Lemma dropWhileEnd_last f s : dropWhileEnd f s = [] \/ exists t c, dropWhileEnd f s = t ++ [c] /\ f c = false.
Proof.
  unfold dropWhileEnd. destruct (dropWhile f (rev s)) as [|c t] eqn:E; [by left|]. right. exists (rev t), c.
  split; [done|by eapply dropWhile_head].
Qed.

Lemma dropWhileEnd_prefix f s : exists t, s = dropWhileEnd f s ++ t.
Proof.
  unfold dropWhileEnd. enough (H : forall l, exists t, l = t ++ dropWhile f l).
  { destruct (H (rev s)) as [t Ht]. exists (rev t). rewrite <- rev_app_distr, <- Ht. by rewrite rev_involutive. }
  induction l as [|c l [t IH]]; [by exists []|]. cbn [dropWhile]. destruct (f c); [|by exists []]. exists (c :: t). cbn. by f_equal.
Qed.

Lemma trimmed_twice s : trimmed (trimmed s) = trimmed s.
Proof.
  unfold trimmed. set (d := dropWhile isSpace s). destruct (dropWhileEnd_prefix isSpace d) as [t Ht].
  destruct (dropWhileEnd_last isSpace d) as [->|(p & c & He & Hc)]; [done|]. rewrite He in *.
  assert (Hd : dropWhile isSpace (p ++ [c]) = p ++ [c]).
  { destruct p as [|a p]; cbn [app dropWhile]; [by rewrite Hc|]. 
    rewrite (dropWhile_head isSpace s a ((p ++ [c]) ++ t)) by exact Ht. done. }
  rewrite Hd. unfold dropWhileEnd. rewrite rev_app_distr. cbn [rev app dropWhile]. rewrite Hc. cbn [rev]. by rewrite rev_involutive.
Qed.

Lemma alpn_collect l out :
  fold_left (fun out item => let value := trimmed (toStr item) in
    if negb (isNil value) && negb (existsb (eqStr value) out) then out ++ [value] else out) l out =
  collect (fun a => negb (isNil a)) eqStr (map (fun j => trimmed (toStr j)) l) out.
Proof. unfold collect. revert out. induction l as [|j l IH]; intros out; [done|]. cbn [fold_left map]. by rewrite IH. Qed.

Lemma readAlpn_valid o l : alpnValid l -> alpnValid (readAlpn o l).
Proof.
  intros Hl. unfold readAlpn. destruct (objValue o (u "alpn")) as [| | | | |items|]; try exact Hl. rewrite alpn_collect.
  destruct (collect_spec (fun a => negb (isNil a)) eqStr (map (fun j => trimmed (toStr j)) items) []) as [Hn Hf];
    [apply eqStr_spec|constructor|constructor|]. split; [done|].
  enough (Ht : Forall (fun a => trimmed a = a) (collect (fun a => negb (isNil a)) eqStr (map (fun j => trimmed (toStr j)) items) [])).
  { apply Forall_and. split; [|done]. eapply Forall_impl; [exact Hf|]. by intros []. }
  clear. unfold collect. enough (H : forall out, Forall (fun a => trimmed a = a) out -> Forall (fun a => trimmed a = a)
    (fold_left (fun out x => if negb (isNil x) && negb (existsb (eqStr x) out) then out ++ [x] else out)
       (map (fun j => trimmed (toStr j)) items) out)) by (apply H; constructor).
  induction items as [|j items IH]; intros out Ho; [done|]. cbn [map fold_left]. apply IH. destruct (_ && _); [|done].
  apply Forall_app_2; [done|]. constructor; [apply trimmed_twice|constructor].
Qed.

Lemma readAlpn_stored o l d : objValue o (u "alpn") = JArr (map JStr l) -> alpnValid l -> readAlpn o d = l.
Proof.
  intros Ho [Hn Hf]. unfold readAlpn. rewrite Ho, alpn_collect. rewrite map_map.
  assert (Hm : map (fun x => trimmed (toStr (JStr x))) l = l).
  { clear Hn Ho. induction Hf as [|a l [_ Ha] _ IH]; [done|]. cbn [map toStr] in *. by rewrite Ha, IH. }
  rewrite Hm. apply (collect_id _ _ _ []); [apply eqStr_spec|done|]. eapply Forall_impl; [exact Hf|]. by intros [|? ?] [? _].
Qed.

(** Two ASCII texts are equal up to case when their lower forms agree. *)
Lemma foldCase_lower s : Forall isAscii s -> map foldCase s = map lowerAscii s.
Proof. induction 1 as [|c s Hc _ IH]; [done|]. cbn [map]. rewrite IH. by rewrite foldCase_ascii by exact Hc. Qed.

Definition choicesOk (allowed : list string) : bool :=
  forallb (fun a => forallb (fun c => (0 <=? c) && (c <=? 127) && negb ((c =? 32) || ((9 <=? c) && (c <=? 13)))) (u a)) allowed
  && bool_decide (NoDup (map (fun a => map lowerAscii (u a)) allowed)).

Lemma find_choice allowed v : choicesOk allowed = true -> oneOf allowed v -> find (eqFold (trimmed v)) (map u allowed) = Some v.
Proof.
  unfold choicesOk, oneOf. intros [Ha Hn%bool_decide_eq_true]%andb_true_iff Hv. rewrite forallb_forall in Ha.
  assert (Hascii : forall a, a ∈ map u allowed -> Forall isAscii a).
  { intros a (b & <- & Hb)%list_elem_of_In%in_map_iff. apply List.Forall_forall. intros c Hc. specialize (Ha b Hb). rewrite forallb_forall in Ha. specialize (Ha c Hc). unfold isAscii. lia. }
  assert (Htrim : trimmed v = v).
  { apply trimmed_no_space. apply list_elem_of_In, in_map_iff in Hv as (b & <- & Hb). apply List.Forall_forall. intros c Hc. specialize (Ha b Hb). rewrite forallb_forall in Ha. specialize (Ha c Hc).
    rewrite isSpace_ascii by lia. lia. }
  rewrite Htrim. clear Ha Htrim. pose proof (Hascii v Hv) as Hav. induction allowed as [|a l IH]; [by apply not_elem_of_nil in Hv|].
  cbn [map] in Hn, Hv |- *. cbn [find]. inversion Hn as [|? ? Hna Hnl]; subst.
  assert (Hf : eqFold v (u a) = eqStr (map lowerAscii v) (map lowerAscii (u a))).
  { unfold eqFold. rewrite (foldCase_lower v) by done. rewrite (foldCase_lower (u a)) by (apply Hascii; by left). done. }
  rewrite Hf.
  destruct (eqStr (map lowerAscii v) (map lowerAscii (u a))) eqn:E.
  - apply eqStr_spec in E. inversion Hv as [|? ? ? Hv']; subst; [done|]. rename Hv' into Hv1. exfalso. apply Hna.
    apply list_elem_of_In, in_map_iff in Hv1 as (b & <- & Hb). rewrite <- E. apply list_elem_of_In, in_map_iff. by exists b.
  - inversion Hv as [|? ? ? Hv']; subst; [by rewrite eqStr_refl in E|]. apply IH; [done|done|]. intros b Hb. apply Hascii. by right.
Qed.

Lemma find_oneOf f allowed v d : find f (map u allowed) = Some v -> oneOf allowed (default d (Some v)).
Proof. intros [Hv _]%find_some. by apply list_elem_of_In. Qed.

Lemma readChoice_valid o key v allowed : oneOf allowed v -> oneOf allowed (ipScanReadChoice o key v allowed).
Proof.
  intros Hv. unfold ipScanReadChoice. destruct (objValue o (u key)) as [| | | |s| |]; try exact Hv.
  destruct (find _ _) eqn:E; [by eapply find_oneOf|done].
Qed.

Lemma readChoice_stored o key v d allowed : choicesOk allowed = true -> oneOf allowed v ->
  objValue o (u key) = JStr v -> ipScanReadChoice o key d allowed = v.
Proof. intros Hc Hv Ho. unfold ipScanReadChoice. by rewrite Ho, find_choice. Qed.

Context (realTrunc : qstr -> Z).

Lemma readInt_within o key v lo hi : lo <= hi -> within lo hi v -> within lo hi (ipScanReadInt realTrunc o key v lo hi).
Proof. unfold within, ipScanReadInt. intros Hlh Hv. destruct (objValue o (u key)); lia. Qed.

Lemma readInt_stored o key v d lo hi : within lo hi v -> objValue o (u key) = JInt v -> ipScanReadInt realTrunc o key d lo hi = v.
Proof. unfold within, ipScanReadInt. intros Hv ->. lia. Qed.

Lemma readPorts_valid o l : portsValid l -> portsValid (readPorts o l).
Proof. intros Hl. unfold readPorts. destruct (objValue o (u "ports")); try exact Hl. apply cleanPorts_valid. Qed.

Lemma readPorts_stored o l d : objValue o (u "ports") = JArr (map JInt l) -> portsValid l -> readPorts o d = l.
Proof.
  intros Ho Hl. unfold readPorts. rewrite Ho. transitivity (ipScanCleanPorts l); [f_equal|by apply cleanPorts_id].
  destruct Hl as [_ Hf]. clear Ho. induction Hf as [|p l Hp _ IH]; [done|]. cbn [map List.filter isDouble]. cbn [map]. rewrite IH. f_equal.
  unfold within in Hp. unfold toInt, toIntegerOr, min_i32, max_i32. break_if; [done|lia].
Qed.

(** ** Reading anything *)

Lemma timeout_bounds : kIpScanMinTimeoutMs <= kIpScanMaxTimeoutMs.
Proof. done. Qed.

Lemma httpFromJson_valid o h : httpValid h -> httpValid (httpFromJson realTrunc o h).
Proof.
  intros (? & ? & ? & ? & ? & ? & ?). unfold httpValid, httpFromJson. cbn.
  repeat split; try (apply readChoice_valid; assumption); try (apply readInt_within; [done|assumption]); by apply readAlpn_valid.
Qed.

Lemma warpFromJson_valid o w : warpValid w -> warpValid (warpFromJson realTrunc o w).
Proof.
  intros (? & ? & ? & ? & ? & ? & ? & ? & ? & ?). unfold warpValid, warpFromJson. cbn.
  repeat split; try (apply readChoice_valid; assumption); apply readInt_within; done.
Qed.

Lemma FromJson_valid o c : configValid c -> configValid (FromJson realTrunc o c).
Proof.
  intros (? & ? & ? & ? & ? & ? & ? & ? & ? & ? & ? & ?). unfold configValid, FromJson. cbn.
  repeat split; try (apply readInt_within; done); first [by apply readPorts_valid|by apply httpFromJson_valid|by apply warpFromJson_valid].
Qed.

(** ** Reading back what was stored *)

Ltac stored := rewrite (proj1 (mkObject_find _ _)); reflexivity.

Lemma readBool_stored o key b d : objValue o (u key) = JBool b -> ipScanReadBool o key d = b.
Proof. unfold ipScanReadBool. by intros ->. Qed.

Lemma readString_stored o key s d : objValue o (u key) = JStr s -> ipScanReadString o key d = s.
Proof. unfold ipScanReadString. by intros ->. Qed.

Ltac readBack :=
  first [apply readBool_stored; stored
        |apply readString_stored; stored
        |apply readInt_stored; [done|stored]
        |apply readChoice_stored; [vm_compute; reflexivity|done|stored]].

Lemma icmp_stored i d : timeout (icTimeoutMs i) -> within 1 10 (icCount i) -> icmpFromJson realTrunc (icmpToJson i) d = i.
Proof. intros ? ?. destruct i. unfold icmpFromJson, icmpToJson. cbn in *. f_equal; readBack. Qed.

Lemma tcp_stored t d : timeout (tcTimeoutMs t) -> within 1 10 (tcAttempts t) -> tcpFromJson realTrunc (tcpToJson t) d = t.
Proof. intros ? ?. destruct t. unfold tcpFromJson, tcpToJson. cbn in *. f_equal; readBack. Qed.

Lemma configTest_stored c d : within (-1) max_i32 (ctProfileId c) -> timeout (ctTimeoutMs c) ->
  configTestFromJson realTrunc (configTestToJson c) d = c.
Proof. intros ? ?. destruct c. unfold configTestFromJson, configTestToJson. cbn in *. f_equal; readBack. Qed.

Lemma http_stored h d : httpValid h -> httpFromJson realTrunc (httpToJson h) d = h.
Proof.
  intros (? & ? & ? & ? & ? & ? & ?). destruct h. unfold httpFromJson, httpToJson. cbn in *.
  f_equal; first [readBack|apply readAlpn_stored; [stored|done]].
Qed.

Lemma warp_stored w d : warpValid w -> warpFromJson realTrunc (warpToJson w) d = w.
Proof.
  intros (? & ? & ? & ? & ? & ? & ? & ? & ? & ?). destruct w. unfold warpFromJson, warpToJson. cbn in *.
  f_equal; first [readBack|rewrite (proj1 (mkObject_find _ _)); reflexivity].
Qed.

Lemma portMode_stored c d o : objValue o (u "portMode") = JStr (PortModeKey c) -> readPortMode o d = scPortMode c.
Proof. unfold readPortMode, PortModeKey. intros ->. by destruct (scPortMode c). Qed.

(** Settings within their bounds are read back as they were, whatever was there. *)
Lemma FromJson_stored c d : configValid c -> FromJson realTrunc (ToJson c) d = c.
Proof.
  intros (? & ? & ? & ? & ? & ? & ? & ? & ? & ? & ? & ?).
  transitivity (mkScanConfig (scPorts c) (scPortMode c) (scShuffle c) (scScanIPv6 c) (scStopAfter c) (scConcurrency c)
    (scSpawnIntervalMs c) (scIcmp c) (scTcp c) (scHttp c) (scConfig c) (scWarp c)); [|by destruct c].
  assert (Hobj : forall key o, objValue (ToJson c) (u key) = JObj o -> toObject (objValue (ToJson c) (u key)) = o) by (by intros ? ? ->).
  unfold FromJson. f_equal; try (unfold ToJson; readBack).
  - apply readPorts_stored; [unfold ToJson; stored|done].
  - apply portMode_stored. unfold ToJson. stored.
  - rewrite (Hobj "icmp"%string (icmpToJson (scIcmp c))) by (unfold ToJson; stored). by apply icmp_stored.
  - rewrite (Hobj "tcp"%string (tcpToJson (scTcp c))) by (unfold ToJson; stored). by apply tcp_stored.
  - rewrite (Hobj "http"%string (httpToJson (scHttp c))) by (unfold ToJson; stored). by apply http_stored.
  - rewrite (Hobj "config"%string (configTestToJson (scConfig c))) by (unfold ToJson; stored). by apply configTest_stored.
  - rewrite (Hobj "warp"%string (warpToJson (scWarp c))) by (unfold ToJson; stored). by apply warp_stored.
Qed.

Definition configValidb (c : ScanConfig) : bool :=
  let inside lo hi n := (lo <=? n) && (n <=? hi) in
  let time := inside kIpScanMinTimeoutMs kIpScanMaxTimeoutMs in
  let one allowed s := bool_decide (s ∈ map u allowed) in
  let h := scHttp c in let w := scWarp c in
  bool_decide (NoDup (scPorts c)) && forallb (inside 1 65535) (scPorts c) && inside 0 1000000000 (scStopAfter c) &&
  inside 1 1000 (scConcurrency c) && inside 0 1000 (scSpawnIntervalMs c) &&
  time (icTimeoutMs (scIcmp c)) && inside 1 10 (icCount (scIcmp c)) &&
  time (tcTimeoutMs (scTcp c)) && inside 1 10 (tcAttempts (scTcp c)) &&
  one ["GET"; "HEAD"; "NONE"] (hpMethod h) && one httpVersions (hpHttpVersion h) && isNil (hpAlpn h) &&
  one tlsVersions (hpMinVersion h) && one tlsVersions (hpMaxVersion h) && inside 0 kIpScanMaxTimeoutMs (hpFragmentFallbackDelayMs h) &&
  time (hpTimeoutMs h) && inside (-1) max_i32 (ctProfileId (scConfig c)) && time (ctTimeoutMs (scConfig c)) &&
  one warpModes (waMode w) && inside 0 2 (waHttpMode w) && one identities (waIdentity w) && inside (-1) max_i32 (waProfileId w) &&
  one generatedModes (waGeneratedMode w) && inside 576 9000 (waMtu w) && inside 0 128 (waJc w) && inside 0 1280 (waJmin w) &&
  inside 0 1280 (waJmax w) && time (waTimeoutMs w).

Lemma configValidb_sound c : configValidb c = true -> configValid c.
Proof.
  unfold configValidb, configValid, httpValid, warpValid, portsValid, alpnValid, timeout, within, oneOf.
  rewrite !andb_true_iff, !bool_decide_eq_true, !forallb_forall, !Z.leb_le. intros H. destruct_and! H.
  repeat split; try assumption; try lia.
  - apply List.Forall_forall. intros p Hp. match goal with H : forall _, _ -> _ |- _ => specialize (H p Hp) end. lia.
  - match goal with H : isNil ?l = true |- _ => destruct l; [constructor|done] end.
  - match goal with H : isNil ?l = true |- _ => destruct l; [constructor|done] end.
Qed.

Lemma DefaultConfig_valid kind : configValid (DefaultConfig kind).
Proof. apply configValidb_sound. by destruct kind; vm_compute. Qed.

(** C26: The settings of a scan are the defaults with any number of JSON objects
    read on top.  Such settings are always within the bounds the code promises
    (ports, counts, time limits, the known choices), and storing them and
    reading them back, over whatever settings, gives them back unchanged. *)
Theorem scan_settings_roundtrip kind (docs : list jobject) d :
  let c := fold_left (fun c o => FromJson realTrunc o c) docs (DefaultConfig kind) in
  configValid c /\ FromJson realTrunc (ToJson c) d = c.
Proof.
  intros c. assert (Hc : configValid c).
  { subst c. generalize (DefaultConfig_valid kind). generalize (DefaultConfig kind) as c. induction docs as [|o docs IH]; intros c Hc; [done|].
    cbn [fold_left]. apply IH. by apply FromJson_valid. }
  split; [done|by apply FromJson_stored].
Qed.
End Valid.

Lemma scan_settings_roundtrip_witness :
  let doc := mkObject [(u "ports", JArr [JInt 0; JInt 443; JInt 443; JInt 70000]); (u "concurrency", JInt 5000)] in
  let c := fold_left (fun c o => FromJson (fun _ => 0) o c) [doc] (DefaultConfig Warp) in
  scPorts c = [443] /\ scConcurrency c = 1000 /\ configValid c /\
  FromJson (fun _ => 0) (ToJson c) (DefaultConfig Generic) = c.
Proof.
  intros doc c. split; [by vm_compute|]. split; [by vm_compute|].
  exact (scan_settings_roundtrip (Q := asciiQt) (QL := asciiQt_laws) (fun _ => 0) Warp [doc] (DefaultConfig Generic)).
Defined.
