(* ===== verification/IpListStore.v ===== *)
(** The IP lists as the scanner sees them: what a call of
    src/src/database/IpListsRepo.cpp that succeeds does to the rows a reader gets.

    A list is its role, the scan it belongs to and its entries in order; a
    target (an address and a port) is in a list at most once.  IpLists keeps the
    rows in generations, as the code does, and IpListsRuns shows that its readers
    see this store. *)
From stdpp Require Import base list gmap strings.
From Stdlib Require Import ZArith Lia Bool.
From S2P Require Import Prelude IpListParse.

Inductive ListRole := User | ScanResult | ScanSnapshot.

#[export] Instance ListRole_eq_dec : EqDecision ListRole.
Proof. solve_decision. Defined.

Record IpList := mkIpList { ilRole : ListRole; ilRelated : Z; ilEntries : list IpListEntry }.

(** [lsLast] is ip_list_last_id of the table entity_ids. *)
Record IpListStore := mkListStore { lsLists : gmap Z IpList; lsLast : Z }.

(** ** Targets *)

Definition target (e : IpListEntry) : qstr * Z := (cidr e, port e).
Definition sameTarget (a b : IpListEntry) : bool := bool_decide (target a = target b).
Definition holds (l : list IpListEntry) (e : IpListEntry) : bool := existsb (sameTarget e) l.

(** Entries without an address are dropped, and all but the first of a target. *)
Definition ipListsRepoUnique (l : list IpListEntry) : list IpListEntry :=
  fold_left (fun unique e => if isNil (cidr e) || holds unique e then unique else unique ++ [e]) l [].

Definition setLatency (e x : IpListEntry) : IpListEntry :=
  if sameTarget e x then mkEntry (cidr x) (port x) (latencyMs e) else x.

(** One row of UpsertEntries: a new target goes to the end, a known one gets the
    latency. *)
Definition upsertEntry (l : list IpListEntry) (e : IpListEntry) : list IpListEntry :=
  if isNil (cidr e) then l else if holds l e then map (setLatency e) l else l ++ [e].

Definition upsertAll (l es : list IpListEntry) : list IpListEntry := fold_left upsertEntry es l.
Definition removeAll (l es : list IpListEntry) : list IpListEntry := List.filter (fun x => negb (holds es x)) l.

(** ** The calls *)

Definition GetIpList (id : Z) (s : IpListStore) : option IpList := lsLists s !! id.
Definition GetEntries (id : Z) (s : IpListStore) : list IpListEntry := match GetIpList id s with Some l => ilEntries l | None => [] end.
Definition EntryCount (id : Z) (s : IpListStore) : Z := zlen (GetEntries id s).

Definition setEntries (id : Z) (f : list IpListEntry -> list IpListEntry) (s : IpListStore) : IpListStore :=
  mkListStore (alter (fun l => mkIpList (ilRole l) (ilRelated l) (f (ilEntries l))) id (lsLists s)) (lsLast s).

Definition AddIpList (role : ListRole) (related : Z) (es : list IpListEntry) (s : IpListStore) : Z * IpListStore :=
  let id := lsLast s + 1 in
  (id, mkListStore (<[id := mkIpList role related (ipListsRepoUnique es)]> (lsLists s)) id).

(** With the number of entries that are new. *)
Definition UpsertEntries (id : Z) (es : list IpListEntry) (s : IpListStore) : Z * IpListStore :=
  if id <? 0 then (0, s)
  else let s' := setEntries id (fun l => upsertAll l es) s in (EntryCount id s' - EntryCount id s, s').

(** With the number of entries that went. *)
Definition RemoveEntries (id : Z) (es : list IpListEntry) (s : IpListStore) : Z * IpListStore :=
  if id <? 0 then (0, s)
  else let s' := setEntries id (fun l => removeAll l es) s in (EntryCount id s - EntryCount id s', s').

Definition ClearEntries (id : Z) (s : IpListStore) : IpListStore :=
  if id <? 0 then s else setEntries id (fun _ => []) s.

Definition ReplaceEntries (id : Z) (es : list IpListEntry) (s : IpListStore) : IpListStore :=
  if id <? 0 then s else setEntries id (fun _ => ipListsRepoUnique es) s.

Definition DeleteIpList (id : Z) (s : IpListStore) : IpListStore :=
  if id <? 0 then s else mkListStore (delete id (lsLists s)) (lsLast s).

(** ** Lemmas *)

Lemma sameTarget_spec a b : sameTarget a b = true <-> target a = target b.
Proof. apply bool_decide_eq_true. Qed.

Lemma holds_spec l e : holds l e = true <-> target e ∈ map target l.
Proof.
  unfold holds. rewrite existsb_exists, list_elem_of_In, in_map_iff. split.
  - intros (x & Hx & He%sameTarget_spec). by exists x.
  - intros (x & He & Hx). exists x. split; [done|]. by apply sameTarget_spec.
Qed.

Lemma holds_false l e : holds l e = false <-> target e ∉ map target l.
Proof. rewrite <- holds_spec. by destruct (holds l e). Qed.

Lemma setLatency_target e l : map target (map (setLatency e) l) = map target l.
Proof. rewrite map_map. apply map_ext. intros x. unfold setLatency, target. by destruct (sameTarget e x). Qed.

Lemma upsertEntry_targets l e :
  map target (upsertEntry l e) = map target l \/ map target (upsertEntry l e) = map target l ++ [target e] /\ target e ∉ map target l.
Proof.
  unfold upsertEntry. destruct (isNil (cidr e)); [by left|]. destruct (holds l e) eqn:E; [left; apply setLatency_target|].
  right. rewrite map_app. split; [done|]. by apply holds_false.
Qed.

Lemma upsertEntry_elem l e t : t ∈ map target (upsertEntry l e) <-> t ∈ map target l \/ (t = target e /\ cidr e <> []).
Proof.
  unfold upsertEntry. destruct (cidr e) as [|c s] eqn:Hc; cbn [isNil]; [naive_solver|].
  destruct (holds l e) eqn:E; [|rewrite map_app; cbn [map]; rewrite elem_of_app, list_elem_of_singleton; naive_solver].
  rewrite setLatency_target. apply holds_spec in E. naive_solver.
Qed.

Lemma upsertAll_elem l es t : t ∈ map target (upsertAll l es) <-> t ∈ map target l \/ exists e, e ∈ es /\ t = target e /\ cidr e <> [].
Proof.
  unfold upsertAll. revert l. induction es as [|e es IH]; intros l; cbn [fold_left].
  - split; [by left|]. intros [H|(e & He & _)]; [done|]. by apply not_elem_of_nil in He.
  - rewrite IH, upsertEntry_elem. set_solver.
Qed.

Lemma upsertAll_nodup l es : NoDup (map target l) -> NoDup (map target (upsertAll l es)).
Proof.
  unfold upsertAll. revert l. induction es as [|e es IH]; intros l Hl; [done|]. cbn [fold_left]. apply IH.
  destruct (upsertEntry_targets l e) as [->|[-> He]]; [done|]. apply NoDup_app. split; [done|]. split; [by intros t Ht ->%list_elem_of_singleton|apply NoDup_singleton].
Qed.

Lemma removeAll_elem l es x : x ∈ removeAll l es <-> x ∈ l /\ target x ∉ map target es.
Proof.
  unfold removeAll. rewrite filter_elem. split; intros [Hx Hn]; (split; [done|]).
  - apply negb_true_iff in Hn. by apply holds_false.
  - apply negb_true_iff. by apply holds_false.
Qed.

Lemma removeAll_target l es t : t ∈ map target (removeAll l es) <-> t ∈ map target l /\ t ∉ map target es.
Proof.
  rewrite !list_elem_of_In, !in_map_iff. split.
  - intros (x & <- & [Hx Hn]%list_elem_of_In%removeAll_elem). split; [|by rewrite <- in_map_iff, <- list_elem_of_In].
    exists x. split; [done|]. by apply list_elem_of_In.
  - intros [(x & <- & Hx) Hn]. exists x. split; [done|]. apply list_elem_of_In, removeAll_elem. split; [by apply list_elem_of_In|].
    by rewrite list_elem_of_In, in_map_iff.
Qed.

Lemma removeAll_nodup l es : NoDup (map target l) -> NoDup (map target (removeAll l es)).
Proof.
  unfold removeAll. induction l as [|x l IH]; [done|]. cbn [map List.filter]. intros Hn. inversion Hn as [|? ? Hx Hl]; subst.
  destruct (negb (holds es x)); [|by apply IH]. cbn [map]. constructor; [|by apply IH]. contradict Hx.
  change (target x ∈ map target (removeAll l es)) in Hx. by apply removeAll_target in Hx as [? _].
Qed.
