(* ===== verification/ScanWorker.v ===== *)
(** A run of an IP scan: ScanWorker in src/src/scanner/ScanWorker.cpp.

    Here its data, the poll thread, and the helpers; the run thread is file
    ScanRun.

    The run thread is a program in the monad [M] of functions on the worker's
    state.  Before each of its reads or writes of something shared (the atomic
    flags, the database, a call to the core) the other threads may act: [tick]
    applies what [swAsync] lists for that point in time (a pause, the
    end of saving, an answer to the poll thread, another writer of the lists or
    of the scan's row).  What the core, the builder of test configurations and
    the clock answer is given per point in time too.  [swOut] records the calls
    to the core with their answers, the writes to the database, the hooks and
    the log, with three notes that the code does not make: [ABuilt] for what the
    builder answered, [APersistOff] when saving ends and [ASeen] for what a
    reader of the live state got.  hooks.progress (a repaint) is left out.
    Exceptions are not modelled. *)
From stdpp Require Import base list gmap strings.
From Stdlib Require Import ZArith Lia Bool.
From S2P Require Import Prelude IpListParse IpScan IpListStore.

Definition kScanWorkerCountTimeoutMs : Z := 60000.
Definition kScanWorkerNetworkCheckTimeoutMs : Z := 3000.
Definition kScanWorkerTunnelHandshakeMs : Z := 10000.
Definition kScanWorkerTunnelStartupMs : Z := 5000.
Definition kScanWorkerCoreMaxConcurrency : Z := 100.
Definition kScanWorkerFallbackPort : Z := 443.
Definition kScanWorkerPlainHttpPort : Z := 80.
Definition kScanWorkerRescanRetries : nat := 5.
Definition kScanWorkerRetryDelayMs : Z := 1000.
Definition kScanWorkerRpcSlackMs : Z := 30000.
Definition kLogLines : nat := 3.

Definition kScanWorkerNetworkCheckTargets : list qstr :=
  map u ["1.1.1.1:443"; "8.8.8.8:443"; "9.9.9.9:443"; "223.5.5.5:443"; "77.88.8.8:443"].
Definition kScanWorkerNetworkCheckTargetsV6 : list qstr :=
  map u ["[2606:4700:4700::1111]:443"; "[2001:4860:4860::8888]:443"; "[2620:fe::fe]:443"].

(** ** What is asked of the core, and its answers *)

Record ScanTargetSpec := mkSpec {
  tsEntries : list (qstr * Z);
  tsPorts : list Z;
  tsPortMode : qstr;
  tsShuffle : bool;
  tsSeed : Z
}.

Definition emptySpec : ScanTargetSpec := mkSpec [] [] [] true 0.

Record ScanProbeRequest := mkProbeRequest {
  pqSpec : ScanTargetSpec;
  pqCursor : Z;
  pqMaxTargets : Z;
  pqConcurrency : Z;
  pqSpawnIntervalMs : Z;
  pqIcmp : option ScanIcmpOptions;
  pqTcp : option ScanTcpOptions;
  pqHttp : option ScanHttpOptions;
  pqFallbackPort : Z;
  pqTimeoutMs : Z
}.

Record ScanProbeResult := mkProbeResult {
  prAddress : qstr;
  prPort : Z;
  prProbePort : Z;
  prPassed : bool;
  prLocalFailure : bool;
  prIcmpMs : Z;
  prTcpMs : Z;
  prTlsMs : Z;
  prHttpMs : Z
}.

(** When the call fails ([pyOk] false) there is no answer but [pyCoreError]. *)
Record ProbeReply := mkProbeReply {
  pyOk : bool;
  pyCoreError : qstr;
  pyError : qstr;
  pyTotal : Z;
  pyInvalid : Z;
  pyNextCursor : Z;
  pyAborted : bool;
  pyResults : list ScanProbeResult
}.

(** BuildScanTestConfig: [sbBuilt] when there is a configuration. *)
Record ScanTestBuild := mkTestBuild {
  sbError : option Message;
  sbUnsupported : list Z;
  sbBuilt : bool;
  sbOutboundTags : list qstr;
  sbTag2target : gmap qstr Z;
  sbVpnEndpointTags : list qstr
}.

Record ScanWorkerConfigTest := mkConfigTestRun {
  wtUrl : qstr;
  wtTimeoutMs : Z;
  wtConcurrency : Z;
  wtWarmLatency : bool;
  wtSubBatch : Z
}.

Record ScanURLTestRequest := mkUrlRequest {
  uqBuild : ScanTestBuild;
  uqLabels : list qstr;
  uqTest : ScanWorkerConfigTest;
  uqTimeoutMs : Z
}.

Record UrlResult := mkUrlResult { urOutboundTag : qstr; urLatencyMs : Z; urError : qstr }.

Record UrlReply := mkUrlReply {
  uyOk : bool;
  uyCoreError : qstr;
  uyResults : list UrlResult;
  uyConnected : list qstr
}.

Record NetworkReply := mkNetworkReply { nyOk : bool; nyUp : bool; nyDetail : qstr }.

Record ScanCounters := mkCounters { coProbed : Z; coProbePassed : Z; coUrlTested : Z }.

Record ScanEvent := mkScanEvent { evKind : qstr; evPhase : qstr; evTarget : qstr; evLatencyMs : Z; evError : qstr }.

Record QueryReply := mkQueryReply { qyOk : bool; qyLastSeq : Z; qyCounters : ScanCounters; qyEvents : list ScanEvent }.

(** ** The worker *)

Inductive StartMode := Resume | FromInitial | RescanResults.
Inductive WorkerStage := Preparing | Probing | TestingConfigs | CheckingNetwork.

#[export] Instance WorkerStage_eq_dec : EqDecision WorkerStage.
Proof. solve_decision. Defined.

Record ProbeOutcome := mkOutcome { poAddress : qstr; poPort : Z; poProbePort : Z; poLatencyMs : Z }.

Record ChunkResult := mkChunkResult {
  crHits : list IpListEntry;
  crFailures : list IpListEntry;
  crLocalFailures : list IpListEntry;
  crReplaced : list IpListEntry;
  crAborted : bool;
  crError : option Message
}.

Definition cr_Hits v r := mkChunkResult v (crFailures r) (crLocalFailures r) (crReplaced r) (crAborted r) (crError r).
Definition cr_Failures v r := mkChunkResult (crHits r) v (crLocalFailures r) (crReplaced r) (crAborted r) (crError r).
Definition cr_LocalFailures v r := mkChunkResult (crHits r) (crFailures r) v (crReplaced r) (crAborted r) (crError r).
Definition cr_Replaced v r := mkChunkResult (crHits r) (crFailures r) (crLocalFailures r) v (crAborted r) (crError r).
Definition cr_Aborted v r := mkChunkResult (crHits r) (crFailures r) (crLocalFailures r) (crReplaced r) v (crError r).
Definition cr_Error v r := mkChunkResult (crHits r) (crFailures r) (crLocalFailures r) (crReplaced r) (crAborted r) v.
Definition emptyChunk : ChunkResult := mkChunkResult [] [] [] [] false None.

Record ScanLiveState := mkLive {
  lvRunning : bool;
  lvStopping : bool;
  lvTested : Z;
  lvTotal : Z;
  lvFound : Z;
  lvRemoved : Z;
  lvStage : WorkerStage;
  lvLog : list Message;
  lvError : option Message
}.

Definition lv_Running v s := mkLive v (lvStopping s) (lvTested s) (lvTotal s) (lvFound s) (lvRemoved s) (lvStage s) (lvLog s) (lvError s).
Definition lv_Stopping v s := mkLive (lvRunning s) v (lvTested s) (lvTotal s) (lvFound s) (lvRemoved s) (lvStage s) (lvLog s) (lvError s).
Definition lv_Tested v s := mkLive (lvRunning s) (lvStopping s) v (lvTotal s) (lvFound s) (lvRemoved s) (lvStage s) (lvLog s) (lvError s).
Definition lv_Total v s := mkLive (lvRunning s) (lvStopping s) (lvTested s) v (lvFound s) (lvRemoved s) (lvStage s) (lvLog s) (lvError s).
Definition lv_Found v s := mkLive (lvRunning s) (lvStopping s) (lvTested s) (lvTotal s) v (lvRemoved s) (lvStage s) (lvLog s) (lvError s).
Definition lv_Removed v s := mkLive (lvRunning s) (lvStopping s) (lvTested s) (lvTotal s) (lvFound s) v (lvStage s) (lvLog s) (lvError s).
Definition lv_Stage v s := mkLive (lvRunning s) (lvStopping s) (lvTested s) (lvTotal s) (lvFound s) (lvRemoved s) v (lvLog s) (lvError s).
Definition lv_Log v s := mkLive (lvRunning s) (lvStopping s) (lvTested s) (lvTotal s) (lvFound s) (lvRemoved s) (lvStage s) v (lvError s).
Definition lv_Error v s := mkLive (lvRunning s) (lvStopping s) (lvTested s) (lvTotal s) (lvFound s) (lvRemoved s) (lvStage s) (lvLog s) v.

(** What the poll thread and the run thread share about the chunk in work. *)
Record ChunkView := mkChunkView {
  cvActive : bool;
  cvStart : Z;
  cvSize : Z;
  cvBaseProbed : Z;
  cvBaseProbeFailed : Z;
  cvBaseUrlTested : Z;
  cvLast : ScanCounters
}.

Definition cv_Active v c := mkChunkView v (cvStart c) (cvSize c) (cvBaseProbed c) (cvBaseProbeFailed c) (cvBaseUrlTested c) (cvLast c).
Definition cv_Last v c := mkChunkView (cvActive c) (cvStart c) (cvSize c) (cvBaseProbed c) (cvBaseProbeFailed c) (cvBaseUrlTested c) v.

Inductive ScanAct :=
| AProbe (request : ScanProbeRequest) (reply : ProbeReply)
| AUrlTest (batch : list ProbeOutcome) (request : ScanURLTestRequest) (reply : UrlReply)
| ABuilt (batch : list ProbeOutcome) (build : ScanTestBuild)
| ANetwork (ipv6 up : bool)
| ABegin (chunkStart : Z)
| AAdd (role : ListRole) (listId : option Z)
| AClear (listId : Z)
| ADelete (listId : Z)
| AUpsert (listId : Z) (es : list IpListEntry) (stored : bool)
| ARemove (listId : Z) (es : list IpListEntry)
| ASaveProgress (mode : ScanMode) (cursor total found removed : Z)
| ASaveRow (row : IpScan)
| AResults
| AListsChanged
| ALog (text : Message)
| AFinished
| AStopScan
| APersistOff
| ASeen (state : ScanLiveState).

Record ScanWorker := mkScanWorker {
  swScan : IpScan;
  swSpec : ScanTargetSpec;
  swBasePort : Z;
  swListsTouched : bool;
  swStop : bool;
  swPersist : bool;
  swPollStop : bool;
  swFinalized : bool;
  swLive : ScanLiveState;
  swChunk : ChunkView;
  swLastSeq : Z;
  swPolled : option (ScanCounters * list Message);
  swStore : IpListStore;
  swRow : option IpScan;
  swTick : nat;
  swOut : list ScanAct
}.

Definition sw_Scan v s := mkScanWorker v (swSpec s) (swBasePort s) (swListsTouched s) (swStop s) (swPersist s) (swPollStop s) (swFinalized s) (swLive s) (swChunk s) (swLastSeq s) (swPolled s) (swStore s) (swRow s) (swTick s) (swOut s).
Definition sw_Spec v s := mkScanWorker (swScan s) v (swBasePort s) (swListsTouched s) (swStop s) (swPersist s) (swPollStop s) (swFinalized s) (swLive s) (swChunk s) (swLastSeq s) (swPolled s) (swStore s) (swRow s) (swTick s) (swOut s).
Definition sw_BasePort v s := mkScanWorker (swScan s) (swSpec s) v (swListsTouched s) (swStop s) (swPersist s) (swPollStop s) (swFinalized s) (swLive s) (swChunk s) (swLastSeq s) (swPolled s) (swStore s) (swRow s) (swTick s) (swOut s).
Definition sw_ListsTouched v s := mkScanWorker (swScan s) (swSpec s) (swBasePort s) v (swStop s) (swPersist s) (swPollStop s) (swFinalized s) (swLive s) (swChunk s) (swLastSeq s) (swPolled s) (swStore s) (swRow s) (swTick s) (swOut s).
Definition sw_Stop v s := mkScanWorker (swScan s) (swSpec s) (swBasePort s) (swListsTouched s) v (swPersist s) (swPollStop s) (swFinalized s) (swLive s) (swChunk s) (swLastSeq s) (swPolled s) (swStore s) (swRow s) (swTick s) (swOut s).
Definition sw_Persist v s := mkScanWorker (swScan s) (swSpec s) (swBasePort s) (swListsTouched s) (swStop s) v (swPollStop s) (swFinalized s) (swLive s) (swChunk s) (swLastSeq s) (swPolled s) (swStore s) (swRow s) (swTick s) (swOut s).
Definition sw_PollStop v s := mkScanWorker (swScan s) (swSpec s) (swBasePort s) (swListsTouched s) (swStop s) (swPersist s) v (swFinalized s) (swLive s) (swChunk s) (swLastSeq s) (swPolled s) (swStore s) (swRow s) (swTick s) (swOut s).
Definition sw_Finalized v s := mkScanWorker (swScan s) (swSpec s) (swBasePort s) (swListsTouched s) (swStop s) (swPersist s) (swPollStop s) v (swLive s) (swChunk s) (swLastSeq s) (swPolled s) (swStore s) (swRow s) (swTick s) (swOut s).
Definition sw_Live v s := mkScanWorker (swScan s) (swSpec s) (swBasePort s) (swListsTouched s) (swStop s) (swPersist s) (swPollStop s) (swFinalized s) v (swChunk s) (swLastSeq s) (swPolled s) (swStore s) (swRow s) (swTick s) (swOut s).
Definition sw_Chunk v s := mkScanWorker (swScan s) (swSpec s) (swBasePort s) (swListsTouched s) (swStop s) (swPersist s) (swPollStop s) (swFinalized s) (swLive s) v (swLastSeq s) (swPolled s) (swStore s) (swRow s) (swTick s) (swOut s).
Definition sw_LastSeq v s := mkScanWorker (swScan s) (swSpec s) (swBasePort s) (swListsTouched s) (swStop s) (swPersist s) (swPollStop s) (swFinalized s) (swLive s) (swChunk s) v (swPolled s) (swStore s) (swRow s) (swTick s) (swOut s).
Definition sw_Polled v s := mkScanWorker (swScan s) (swSpec s) (swBasePort s) (swListsTouched s) (swStop s) (swPersist s) (swPollStop s) (swFinalized s) (swLive s) (swChunk s) (swLastSeq s) v (swStore s) (swRow s) (swTick s) (swOut s).
Definition sw_Store v s := mkScanWorker (swScan s) (swSpec s) (swBasePort s) (swListsTouched s) (swStop s) (swPersist s) (swPollStop s) (swFinalized s) (swLive s) (swChunk s) (swLastSeq s) (swPolled s) v (swRow s) (swTick s) (swOut s).
Definition sw_Row v s := mkScanWorker (swScan s) (swSpec s) (swBasePort s) (swListsTouched s) (swStop s) (swPersist s) (swPollStop s) (swFinalized s) (swLive s) (swChunk s) (swLastSeq s) (swPolled s) (swStore s) v (swTick s) (swOut s).
Definition sw_Tick v s := mkScanWorker (swScan s) (swSpec s) (swBasePort s) (swListsTouched s) (swStop s) (swPersist s) (swPollStop s) (swFinalized s) (swLive s) (swChunk s) (swLastSeq s) (swPolled s) (swStore s) (swRow s) v (swOut s).
Definition sw_Out v s := mkScanWorker (swScan s) (swSpec s) (swBasePort s) (swListsTouched s) (swStop s) (swPersist s) (swPollStop s) (swFinalized s) (swLive s) (swChunk s) (swLastSeq s) (swPolled s) (swStore s) (swRow s) (swTick s) v.

Definition is_result_list_id v s := mkIpScan (isId s) (isName s) (isKind s) (base_list_id s) v (isConfig s) (isStatus s) (isMode s) (snapshot_list_id s) (seed s) (cursor s) (total s) (spec_hash s) (rescan_snapshot_list_id s) (rescan_cursor s) (rescan_total s) (found s) (removed s) (last_error s) (started_at s) (finished_at s).
Definition is_Status v s := mkIpScan (isId s) (isName s) (isKind s) (base_list_id s) (result_list_id s) (isConfig s) v (isMode s) (snapshot_list_id s) (seed s) (cursor s) (total s) (spec_hash s) (rescan_snapshot_list_id s) (rescan_cursor s) (rescan_total s) (found s) (removed s) (last_error s) (started_at s) (finished_at s).
Definition is_Mode v s := mkIpScan (isId s) (isName s) (isKind s) (base_list_id s) (result_list_id s) (isConfig s) (isStatus s) v (snapshot_list_id s) (seed s) (cursor s) (total s) (spec_hash s) (rescan_snapshot_list_id s) (rescan_cursor s) (rescan_total s) (found s) (removed s) (last_error s) (started_at s) (finished_at s).
Definition is_snapshot_list_id v s := mkIpScan (isId s) (isName s) (isKind s) (base_list_id s) (result_list_id s) (isConfig s) (isStatus s) (isMode s) v (seed s) (cursor s) (total s) (spec_hash s) (rescan_snapshot_list_id s) (rescan_cursor s) (rescan_total s) (found s) (removed s) (last_error s) (started_at s) (finished_at s).
Definition is_seed v s := mkIpScan (isId s) (isName s) (isKind s) (base_list_id s) (result_list_id s) (isConfig s) (isStatus s) (isMode s) (snapshot_list_id s) v (cursor s) (total s) (spec_hash s) (rescan_snapshot_list_id s) (rescan_cursor s) (rescan_total s) (found s) (removed s) (last_error s) (started_at s) (finished_at s).
Definition is_cursor v s := mkIpScan (isId s) (isName s) (isKind s) (base_list_id s) (result_list_id s) (isConfig s) (isStatus s) (isMode s) (snapshot_list_id s) (seed s) v (total s) (spec_hash s) (rescan_snapshot_list_id s) (rescan_cursor s) (rescan_total s) (found s) (removed s) (last_error s) (started_at s) (finished_at s).
Definition is_total v s := mkIpScan (isId s) (isName s) (isKind s) (base_list_id s) (result_list_id s) (isConfig s) (isStatus s) (isMode s) (snapshot_list_id s) (seed s) (cursor s) v (spec_hash s) (rescan_snapshot_list_id s) (rescan_cursor s) (rescan_total s) (found s) (removed s) (last_error s) (started_at s) (finished_at s).
Definition is_spec_hash v s := mkIpScan (isId s) (isName s) (isKind s) (base_list_id s) (result_list_id s) (isConfig s) (isStatus s) (isMode s) (snapshot_list_id s) (seed s) (cursor s) (total s) v (rescan_snapshot_list_id s) (rescan_cursor s) (rescan_total s) (found s) (removed s) (last_error s) (started_at s) (finished_at s).
Definition is_rescan_snapshot_list_id v s := mkIpScan (isId s) (isName s) (isKind s) (base_list_id s) (result_list_id s) (isConfig s) (isStatus s) (isMode s) (snapshot_list_id s) (seed s) (cursor s) (total s) (spec_hash s) v (rescan_cursor s) (rescan_total s) (found s) (removed s) (last_error s) (started_at s) (finished_at s).
Definition is_rescan_cursor v s := mkIpScan (isId s) (isName s) (isKind s) (base_list_id s) (result_list_id s) (isConfig s) (isStatus s) (isMode s) (snapshot_list_id s) (seed s) (cursor s) (total s) (spec_hash s) (rescan_snapshot_list_id s) v (rescan_total s) (found s) (removed s) (last_error s) (started_at s) (finished_at s).
Definition is_rescan_total v s := mkIpScan (isId s) (isName s) (isKind s) (base_list_id s) (result_list_id s) (isConfig s) (isStatus s) (isMode s) (snapshot_list_id s) (seed s) (cursor s) (total s) (spec_hash s) (rescan_snapshot_list_id s) (rescan_cursor s) v (found s) (removed s) (last_error s) (started_at s) (finished_at s).
Definition is_found v s := mkIpScan (isId s) (isName s) (isKind s) (base_list_id s) (result_list_id s) (isConfig s) (isStatus s) (isMode s) (snapshot_list_id s) (seed s) (cursor s) (total s) (spec_hash s) (rescan_snapshot_list_id s) (rescan_cursor s) (rescan_total s) v (removed s) (last_error s) (started_at s) (finished_at s).
Definition is_removed v s := mkIpScan (isId s) (isName s) (isKind s) (base_list_id s) (result_list_id s) (isConfig s) (isStatus s) (isMode s) (snapshot_list_id s) (seed s) (cursor s) (total s) (spec_hash s) (rescan_snapshot_list_id s) (rescan_cursor s) (rescan_total s) (found s) v (last_error s) (started_at s) (finished_at s).
Definition is_last_error v s := mkIpScan (isId s) (isName s) (isKind s) (base_list_id s) (result_list_id s) (isConfig s) (isStatus s) (isMode s) (snapshot_list_id s) (seed s) (cursor s) (total s) (spec_hash s) (rescan_snapshot_list_id s) (rescan_cursor s) (rescan_total s) (found s) (removed s) v (started_at s) (finished_at s).
Definition is_started_at v s := mkIpScan (isId s) (isName s) (isKind s) (base_list_id s) (result_list_id s) (isConfig s) (isStatus s) (isMode s) (snapshot_list_id s) (seed s) (cursor s) (total s) (spec_hash s) (rescan_snapshot_list_id s) (rescan_cursor s) (rescan_total s) (found s) (removed s) (last_error s) v (finished_at s).
Definition is_finished_at v s := mkIpScan (isId s) (isName s) (isKind s) (base_list_id s) (result_list_id s) (isConfig s) (isStatus s) (isMode s) (snapshot_list_id s) (seed s) (cursor s) (total s) (spec_hash s) (rescan_snapshot_list_id s) (rescan_cursor s) (rescan_total s) (found s) (removed s) (last_error s) (started_at s) v.

(** What other threads may do between two steps of the run: RequestStop,
    DisablePersist, a reader's LiveState, the poll thread's two halves of
    pollOnce, and anybody's writes to the lists and to the scan's row. *)
Inductive Async :=
| ARequestStop
| ADisablePersist
| ALiveState
| APollAnswered (reply : QueryReply)
| APollApply
| AStore (write : IpListStore -> IpListStore)
| ARow (write : option IpScan -> option IpScan).

(** What is outside the run, at each point in time. *)
Record World := mkWorld {
  swAsync : nat -> list Async;
  swProbe : nat -> ScanProbeRequest -> ProbeReply;
  swUrlTest : nat -> ScanURLTestRequest -> UrlReply;
  swNetwork : nat -> bool -> NetworkReply;
  swQuery : nat -> option ScanCounters;
  swBuild : nat -> list (qstr * Z) -> ScanTestBuild;
  swDbOk : nat -> bool;
  swDbDone : nat -> nat;
  swNow : nat -> Z;
  swSeed : nat -> Z
}.

(** What stays the same during a run. [rcBase] is whether there is a profile,
    [rcBaseError] what ValidateScanBase says, [rcDialedPort] the port the
    profile dials, when it can be cloned. *)
Record RunConst := mkRunConst {
  rcScanId : Z;
  rcMode : StartMode;
  rcBase : bool;
  rcBaseError : option Message;
  rcDialedPort : option Z;
  rcConfigPhase : bool;
  rcInitialStatus : ScanStatus;
  rcTestUrl : qstr;
  rcTestTimeoutMs : Z;
  rcSha1 : qstr -> qstr
}.

Definition outSw (a : ScanAct) (w : ScanWorker) : ScanWorker := sw_Out (swOut w ++ [a]) w.
Definition onLive (f : ScanLiveState -> ScanLiveState) (w : ScanWorker) : ScanWorker := sw_Live (f (swLive w)) w.
Definition onScan (f : IpScan -> IpScan) (w : ScanWorker) : ScanWorker := sw_Scan (f (swScan w)) w.
Definition onChunk (f : ChunkView -> ChunkView) (w : ScanWorker) : ScanWorker := sw_Chunk (f (swChunk w)) w.

Definition scanRescanPass (s : IpScan) : bool := match isMode s with RescanResult => true | Initial => false end.
Definition rescanResumable (s : IpScan) : bool :=
  scanRescanPass s && (0 <=? rescan_snapshot_list_id s) && (rescan_cursor s <? rescan_total s).

(** ** Helpers *)

Definition scanWorkerClampTimeout (ms : Z) : Z := Z.min ms (2 ^ 31 - 1).

Definition scanWorkerIsAborted (error : qstr) : bool :=
  containsStr (u "test aborted") error || containsStr (u "context canceled") error.
Definition scanWorkerIsStopped (error : qstr) : bool := containsStr (u "scan stopped") error.

Definition scanWorkerPhaseName (phase : qstr) : Message :=
  if eqStr phase (u "icmp") then MText (u "ICMP")
  else if eqStr phase (u "tcp") then MText (u "TCP")
  else if eqStr phase (u "tls") then MText (u "TLS")
  else if eqStr phase (u "http") then MText (u "HTTP")
  else if eqStr phase (u "url") then tr0 "config test"
  else MText phase.

Definition scanWorkerFormatEvent (e : ScanEvent) : option Message :=
  let phase := evPhase e in
  let target := MText (evTarget e) in
  let ms := MText (number (evLatencyMs e)) in
  if eqStr (evKind e) (u "start") then Some (MTr (u "Scanning %1 with %2") [target; scanWorkerPhaseName phase])
  else if eqStr (evKind e) (u "fail") then Some (MTr (u "%1 failed %2: %3") [target; scanWorkerPhaseName phase; MText (evError e)])
  else if negb (eqStr (evKind e) (u "ok")) then None
  else if eqStr phase (u "tcp") then Some (MTr (u "Connected to %1 with TCP (%2 ms)") [target; ms])
  else if eqStr phase (u "icmp") then Some (MTr (u "%1 replied to ping (%2 ms)") [target; ms])
  else if eqStr phase (u "tls") then Some (MTr (u "TLS handshake with %1 succeeded (%2 ms)") [target; ms])
  else if eqStr phase (u "http") then Some (MTr (u "%1 answered over HTTP (%2 ms)") [target; ms])
  else if eqStr phase (u "url") then Some (MTr (u "%1 passed the config test (%2 ms)") [target; ms])
  else None.

Definition scanWorkerIsIpv6 (e : IpListEntry) : bool := contains cColon (cidr e).
Definition scanWorkerHasFamily (l : list IpListEntry) (ipv6 : bool) : bool := existsb (fun e => eqb (scanWorkerIsIpv6 e) ipv6) l.
Definition scanWorkerFamilyFilter (l : list IpListEntry) (ipv6 : bool) : list IpListEntry :=
  if ipv6 then l else List.filter (fun e => negb (scanWorkerIsIpv6 e)) l.

Definition scanWorkerBuildSpec (l : list IpListEntry) (ports : list Z) (portMode : qstr) (shuffle : bool) (seed : Z) : ScanTargetSpec :=
  mkSpec (map target l) ports portMode shuffle seed.

Definition scanWorkerEntry (address : qstr) (port latencyMs : Z) : IpListEntry :=
  let canonical := NormalizeCidr address in mkEntry (if isNil canonical then address else canonical) port latencyMs.

Definition scanWorkerProbeLatency (r : ScanProbeResult) (c : ScanConfig) : Z :=
  let rest := if tcEnabled (scTcp c) && (0 <? prTcpMs r) then prTcpMs r else if icEnabled (scIcmp c) then prIcmpMs r else 0 in
  if hpEnabled (scHttp c) then
    if 0 <? prHttpMs r then prHttpMs r else if 0 <? prTlsMs r then prTlsMs r else rest
  else rest.

Definition scanWorkerUrlTestTimeoutMs (tagCount : Z) (t : ScanWorkerConfigTest) : Z :=
  let concurrency := if (wtConcurrency t <=? 0) || (500 <=? wtConcurrency t) then kScanWorkerCoreMaxConcurrency else wtConcurrency t in
  let requests := if wtWarmLatency t then 2 else 1 in
  let rounds := Z.quot (Z.max tagCount 1 + concurrency - 1) concurrency in
  scanWorkerClampTimeout
    (rounds * (kScanWorkerTunnelHandshakeMs + requests * wtTimeoutMs t + kScanWorkerTunnelStartupMs) + kScanWorkerRpcSlackMs).

Definition probePhaseEnabled (c : ScanConfig) : bool := icEnabled (scIcmp c) || tcEnabled (scTcp c) || hpEnabled (scHttp c).

Definition probeTimeoutMs (c : ScanConfig) (chunkSize : Z) : Z :=
  let perTarget :=
    (if icEnabled (scIcmp c) then icCount (scIcmp c) * icTimeoutMs (scIcmp c) else 0) +
    (if tcEnabled (scTcp c) then tcAttempts (scTcp c) * tcTimeoutMs (scTcp c) else 0) +
    (if hpEnabled (scHttp c) then 2 * hpTimeoutMs (scHttp c) else 0) in
  let perTarget := Z.max perTarget 1000 in
  let concurrency := Z.max 1 (scConcurrency c) in
  let rounds := Z.quot (Z.max chunkSize 1 + concurrency - 1) concurrency in
  scanWorkerClampTimeout (rounds * perTarget + chunkSize * Z.max 0 (scSpawnIntervalMs c) + kScanWorkerRpcSlackMs).

(** The request of runChunk, as fillProbeRequest completes it. *)
Definition fillProbeRequest (c : ScanConfig) (spec : ScanTargetSpec) (chunkStart maxTargets : Z) : ScanProbeRequest :=
  let fallbackPort := if hpEnabled (scHttp c) && negb (hpTls (scHttp c)) then kScanWorkerPlainHttpPort else kScanWorkerFallbackPort in
  mkProbeRequest spec chunkStart maxTargets (scConcurrency c) (scSpawnIntervalMs c) (Some (scIcmp c)) (Some (scTcp c)) (Some (scHttp c))
    fallbackPort (probeTimeoutMs c maxTargets).

(** The request of countTargets. *)
Definition countRequest (spec : ScanTargetSpec) : ScanProbeRequest :=
  mkProbeRequest spec 0 0 0 0 None None None kScanWorkerFallbackPort kScanWorkerCountTimeoutMs.

(** ** The poll thread *)

Definition logLine (line : Message) (l : ScanLiveState) : ScanLiveState :=
  let log := lvLog l ++ [line] in lv_Log (drop (length log - kLogLines) log) l.

Definition maxCounters (a b : ScanCounters) : ScanCounters :=
  mkCounters (Z.max (coProbed a) (coProbed b)) (Z.max (coProbePassed a) (coProbePassed b)) (Z.max (coUrlTested a) (coUrlTested b)).

(** What of the chunk the counters say is finished. *)
Definition finishedInChunk (configPhase : bool) (c : ChunkView) : Z :=
  let last := cvLast c in
  let finished :=
    if configPhase
    then (coProbed last - coProbePassed last - cvBaseProbeFailed c) + (coUrlTested last - cvBaseUrlTested c)
    else coProbed last - cvBaseProbed c in
  Z.max 0 (Z.min finished (cvSize c)).

(** pollOnce before it takes the mutex, and under it. *)
Definition pollAnswered (r : QueryReply) (w : ScanWorker) : ScanWorker :=
  if negb (qyOk r) || swPollStop w then w
  else
    let events := drop (length (qyEvents r) - kLogLines) (qyEvents r) in
    sw_Polled (Some (qyCounters r, omap scanWorkerFormatEvent events))
      (sw_LastSeq (if qyLastSeq r <? swLastSeq w then 0 else qyLastSeq r) w).

Definition pollApply (configPhase : bool) (w : ScanWorker) : ScanWorker :=
  match swPolled w with
  | None => w
  | Some (counters, lines) =>
      let w := sw_Polled None w in
      let w := onChunk (fun c => cv_Last (maxCounters (cvLast c) counters) c) w in
      let w := onLive (fun l => fold_left (fun l line => logLine line l) lines l) w in
      let c := swChunk w in
      if cvActive c && (lvTested (swLive w) <? cvStart c + finishedInChunk configPhase c)
      then onLive (lv_Tested (cvStart c + finishedInChunk configPhase c)) w else w
  end.

Definition RequestStop (w : ScanWorker) : ScanWorker := onLive (lv_Stopping true) (sw_Stop true w).
Definition DisablePersist (w : ScanWorker) : ScanWorker := sw_Persist false w.

Definition LiveState (w : ScanWorker) : ScanLiveState := lv_Stopping (swStop w) (swLive w).

Definition applyAsync (configPhase : bool) (w : ScanWorker) (a : Async) : ScanWorker :=
  match a with
  | ARequestStop => RequestStop w
  | ADisablePersist => outSw APersistOff (DisablePersist w)
  | ALiveState => outSw (ASeen (LiveState w)) w
  | APollAnswered r => pollAnswered r w
  | APollApply => pollApply configPhase w
  | AStore write => sw_Store (write (swStore w)) w
  | ARow write => sw_Row (write (swRow w)) w
  end.
