(* ===== verification/ScanRun.v ===== *)
(** The run thread of a scan: ScanWorker::run and what it calls, in
    src/src/scanner/ScanWorker.cpp.

    An operation is a function on the worker's state; [tick] is where the other
    threads act.  The C++ early returns are the branches of if; an error is
    [Some] message where the code returns a text that is not empty. *)
From stdpp Require Import base list gmap strings.
From Stdlib Require Import ZArith Lia Bool.
From S2P Require Import Prelude IpListParse IpScan IpListStore ScanWorker.

(** ** The run thread *)

Definition M (A : Type) : Type := ScanWorker -> A * ScanWorker.

Definition ret {A} (a : A) : M A := fun w => (a, w).
Definition bind {A B} (m : M A) (f : A -> M B) : M B := fun w => let '(a, w') := m w in f a w'.

Declare Scope scan_scope.
Notation "x ← y ; z" := (bind y (fun x : _ => z)) (at level 20, y at level 100, z at level 200) : scan_scope.
#[local] Open Scope scan_scope.

Definition gets {A} (f : ScanWorker -> A) : M A := fun w => (f w, w).
Definition modify (f : ScanWorker -> ScanWorker) : M unit := fun w => (tt, f w).
Definition when (b : bool) (m : M unit) : M unit := if b then m else ret tt.

Section Run.
Context {Q : QtChar} (W : World) (C : RunConst).

(** The other threads' turn; the time that has come. *)
Definition tick : M nat := fun w =>
  let w := fold_left (applyAsync (rcConfigPhase C)) (swAsync W (swTick w)) w in
  (swTick w, sw_Tick (S (swTick w)) w).

Definition stop_ : M bool := _ ← tick; gets swStop.
Definition persist_ : M bool := _ ← tick; gets swPersist.
Definition setStop : M unit := _ ← tick; modify (sw_Stop true).

(** !persist_ || stop_ *)
Definition halted : M bool := p ← persist_; if negb p then ret true else stop_.

Definition underMutex (f : ScanWorker -> ScanWorker) : M unit := _ ← tick; modify f.
Definition scan_ : M IpScan := gets swScan.
Definition rescanPass : M bool := s ← scan_; ret (scanRescanPass s).
Definition mwLog (text : Message) : M unit := modify (outSw (ALog text)).
Definition note (a : ScanAct) : M unit := modify (outSw a).

Definition setStage (stage : WorkerStage) : M unit :=
  underMutex (fun w => if decide (lvStage (swLive w) = stage) then w else onLive (lv_Stage stage) w).
Definition setTested (tested total : Z) : M unit := underMutex (onLive (fun l => lv_Tested tested (lv_Total total l))).
Definition pushLog (line : Message) : M unit := underMutex (onLive (logLine line)).

(** *** Calls to the core *)

Definition ScanProbe (q : ScanProbeRequest) : M ProbeReply :=
  t ← tick; let r := swProbe W t q in _ ← note (AProbe q r); ret r.

Definition ScanURLTest (batch : list ProbeOutcome) (q : ScanURLTestRequest) : M UrlReply :=
  t ← tick; let r := swUrlTest W t q in _ ← note (AUrlTest batch q r); ret r.

Definition networkUp (ipv6 : bool) : M (bool * qstr) :=
  _ ← setStage CheckingNetwork;
  _ ← pushLog (tr0 "Checking the network…");
  t ← tick;
  let r := swNetwork W t ipv6 in
  let up := nyOk r && nyUp r in
  _ ← note (ANetwork ipv6 up); ret (up, nyDetail r).

(** *** The database *)

(** A call that writes to a list.  It is one action, noted with whether all of
    it was done; in the code a long one is a row of transactions, between which
    other threads go on, and which ends at the first that fails: [f] is given how
    much of a call that failed was done. *)
Definition dbWrite {A} (listId : Z) (a : bool -> ScanAct) (f : option nat -> IpListStore -> A * IpListStore) : M A :=
  t ← tick;
  known ← gets (fun w => isSome (GetIpList listId (swStore w)));
  let stored := known && swDbOk W t in
  _ ← note (a stored);
  r ← gets (fun w => f (if stored then None else Some (swDbDone W t)) (swStore w));
  _ ← modify (sw_Store (snd r)); ret (fst r).

(** The entries that a call got to. *)
Definition doneOf (done : option nat) (es : list IpListEntry) : list IpListEntry :=
  match done with Some n => take n es | None => es end.

Definition upsertCall (listId : Z) (es : list IpListEntry) : M Z :=
  dbWrite listId (AUpsert listId es) (fun done => UpsertEntries listId (doneOf done es)).
Definition removeCall (listId : Z) (es : list IpListEntry) : M Z :=
  dbWrite listId (fun _ => ARemove listId es) (fun done => RemoveEntries listId (doneOf done es)).
(** The rows are out of sight after the first transaction, and the list itself
    goes with the last. *)
Definition clearCall (listId : Z) : M unit :=
  dbWrite listId (fun _ => AClear listId) (fun done s => (tt, match done with Some O => s | _ => ClearEntries listId s end)).
Definition deleteCall (listId : Z) : M unit :=
  dbWrite listId (fun _ => ADelete listId)
    (fun done s => (tt, match done with None => DeleteIpList listId s | Some O => s | Some (S _) => ClearEntries listId s end)).

Definition dbRead {A} (failed : A) (f : IpListStore -> A) : M A :=
  t ← tick; if swDbOk W t then gets (fun w => f (swStore w)) else ret failed.

Definition addList (role : ListRole) (es : list IpListEntry) : M (option Z) :=
  t ← tick;
  if swDbOk W t
  then r ← gets (fun w => AddIpList role (rcScanId C) es (swStore w));
       _ ← modify (sw_Store (snd r)); _ ← note (AAdd role (Some (fst r))); ret (Some (fst r))
  else _ ← note (AAdd role None); ret None.

Definition deleteList (listId : Z) : M unit :=
  if listId <? 0 then ret tt
  else p ← persist_;
    if negb p then ret tt
    else _ ← deleteCall listId; modify (sw_ListsTouched true).

(** The run owns only the columns of the pass. *)
Definition passColumns (s row : IpScan) : IpScan :=
  mkIpScan (isId row) (isName row) (isKind row) (base_list_id row) (result_list_id s) (isConfig row) (isStatus s) (isMode s)
    (snapshot_list_id s) (seed s) (cursor s) (total s) (spec_hash s) (rescan_snapshot_list_id s) (rescan_cursor s) (rescan_total s)
    (found s) (removed s) (last_error s) (started_at s) (finished_at s).

Definition persistPassState : M unit :=
  p ← persist_;
  if negb p then ret tt
  else
    t ← tick;
    row ← gets swRow;
    match if swDbOk W t then row else None with
    | None => ret tt
    | Some row =>
        s ← scan_;
        t ← tick;
        let saved := passColumns s row in
        _ ← note (ASaveRow saved);
        if swDbOk W t then modify (fun w => match swRow w with Some _ => sw_Row (Some saved) w | None => w end) else ret tt
    end.

(** SaveProgress of src/src/database/IpScansRepo.cpp. *)
Definition progressColumns (mode : ScanMode) (c t f r : Z) (row : IpScan) : IpScan :=
  let row := is_Mode mode (is_found f (is_removed r row)) in
  match mode with
  | RescanResult => is_rescan_cursor c (is_rescan_total t row)
  | Initial => is_cursor c (is_total t row)
  end.

Definition saveProgress : M unit :=
  p ← persist_;
  if negb p then ret tt
  else
    s ← scan_;
    t ← tick;
    _ ← note (ASaveProgress (isMode s) (ActiveCursor s) (ActiveTotal s) (found s) (removed s));
    if swDbOk W t
    then modify (fun w => sw_Row (progressColumns (isMode s) (ActiveCursor s) (ActiveTotal s) (found s) (removed s) <$> swRow w) w)
    else ret tt.

(** The scan's own result list, made when it is gone; negative when it could not
    be. *)
Definition EnsureScanResultList : M Z :=
  s ← scan_;
  owned ← (if 0 <=? result_list_id s
           then dbRead false (fun store => match GetIpList (result_list_id s) store with
                  | Some l => bool_decide (ilRole l = ScanResult) && (ilRelated l =? isId s)
                  | None => false
                  end)
           else ret false);
  if owned then ret (result_list_id s)
  else
    added ← addList ScanResult [];
    match added with
    | None => ret (-1)
    | Some id => _ ← modify (onScan (is_result_list_id id)); ret id
    end.

(** *** Preparing the pass *)

(** The number of targets, or the error, which is none when the scan was
    stopped. *)
Definition countTargets (spec : ScanTargetSpec) : M (Z + option Message) :=
  r ← ScanProbe (countRequest spec);
  let error := if pyOk r then pyError r else pyCoreError r in
  if negb (pyOk r) || negb (isNil error) then
    _ ← (if scanWorkerIsStopped error then setStop else ret tt);
    s ← stop_;
    if s then ret (inr None)
    else ret (inr (Some (if isNil error then tr0 "The core did not answer the probe request" else MText error)))
  else
    _ ← when (0 <? pyInvalid r) (pushLog (MTr (u "Skipped %n invalid entry(ies)") [MText (number (pyInvalid r))]));
    ret (inl (pyTotal r)).

Definition failWith (text : string) : M (option Message) := ret (Some (tr0 text)).

Definition prepareInitial : M (option Message) :=
  s ← scan_;
  base ← dbRead None (GetIpList (base_list_id s));
  match base with
  | None => failWith "The base IP list no longer exists"
  | Some base =>
  if isNil (ilEntries base) then failWith "The base IP list is empty" else
  let baseEntries := scanWorkerFamilyFilter (ilEntries base) (scScanIPv6 (isConfig s)) in
  if isNil baseEntries then failWith "The base IP list holds only IPv6 ranges; enable IPv6 scanning" else
  h ← halted;
  if h then ret None else
  resultId ← EnsureScanResultList;
  if resultId <? 0 then failWith "The result list could not be created" else
  p ← persist_;
  if negb p then ret None else
  _ ← clearCall resultId;
  _ ← modify (sw_ListsTouched true);
  _ ← deleteList (snapshot_list_id s);
  _ ← deleteList (rescan_snapshot_list_id s);
  now ← tick;
  _ ← modify (onScan (fun s =>
        is_snapshot_list_id (-1) (is_rescan_snapshot_list_id (-1) (is_rescan_cursor 0 (is_rescan_total 0 (is_Mode Initial
        (is_cursor 0 (is_total 0 (is_found 0 (is_removed 0 (is_started_at (swNow W now) (is_finished_at 0 (is_last_error None s)))))))))))));
  _ ← underMutex (onLive (fun l => lv_Found 0 (lv_Removed 0 l)));
  _ ← note AResults;
  p ← persist_;
  if negb p then ret None else
  added ← addList ScanSnapshot baseEntries;
  match added with
  | None => failWith "The base IP list could not be copied"
  | Some snapshotId =>
  _ ← modify (sw_ListsTouched true);
  random ← tick;
  _ ← modify (onScan (fun s =>
        is_spec_hash (TargetSpecHash (rcSha1 C) (isConfig s) (base_list_id s)) (is_seed (swSeed W random) (is_snapshot_list_id snapshotId s))));
  s ← scan_;
  let spec := scanWorkerBuildSpec baseEntries (scPorts (isConfig s)) (PortModeKey (isConfig s)) (scShuffle (isConfig s)) (seed s) in
  _ ← modify (sw_Spec spec);
  counted ← countTargets spec;
  match counted with
  | inr error => ret error
  | inl count =>
  _ ← modify (onScan (is_total count));
  _ ← persistPassState;
  if count =? 0 then failWith "The base IP list holds no valid target"
  else _ ← setTested 0 count; ret None
  end end end.

Definition prepareRescan : M (option Message) :=
  h ← halted;
  if h then ret None else
  s ← scan_;
  _ ← deleteList (rescan_snapshot_list_id s);
  _ ← modify (onScan (fun s => is_rescan_snapshot_list_id (-1) (is_rescan_cursor 0 (is_rescan_total 0 s))));
  let previousResultId := result_list_id s in
  resultId ← EnsureScanResultList;
  if resultId <? 0 then failWith "The result list could not be created" else
  _ ← when (negb (resultId =? previousResultId)) (modify (sw_ListsTouched true));
  allEntries ← dbRead [] (GetEntries resultId);
  if isNil allEntries then _ ← persistPassState; failWith "The result list is empty" else
  let entries := scanWorkerFamilyFilter allEntries (scScanIPv6 (isConfig s)) in
  if isNil entries then _ ← persistPassState; failWith "The result list holds only IPv6 entries; enable IPv6 scanning" else
  p ← persist_;
  if negb p then ret None else
  added ← addList ScanSnapshot entries;
  match added with
  | None => failWith "The result list could not be copied"
  | Some snapshotId =>
  _ ← modify (sw_ListsTouched true);
  _ ← modify (onScan (fun s => is_rescan_snapshot_list_id snapshotId (is_Mode RescanResult (is_removed 0 (is_last_error None s)))));
  _ ← underMutex (onLive (lv_Removed 0));
  let spec := scanWorkerBuildSpec entries [] (u "list") false 0 in
  _ ← modify (sw_Spec spec);
  counted ← countTargets spec;
  match counted with
  | inr error => ret error
  | inl count =>
  _ ← modify (onScan (is_rescan_total count));
  _ ← persistPassState;
  if count =? 0 then failWith "The result list holds no valid target"
  else _ ← setTested 0 count; ret None
  end end.

Definition preparePass : M (option Message) :=
  match rcMode C with
  | FromInitial => prepareInitial
  | RescanResults => prepareRescan
  | Resume =>
      s ← scan_;
      if negb (rescanResumable s) && negb (CanResumeInitial s) then prepareInitial
      else
        _ ← when (negb (rescanResumable s)) (modify (onScan (is_Mode Initial)));
        h ← halted;
        if h then ret None
        else
          let previous := result_list_id s in
          resultId ← EnsureScanResultList;
          if resultId <? 0 then failWith "The result list could not be created"
          else
            _ ← when (negb (resultId =? previous)) (_ ← modify (sw_ListsTouched true); persistPassState);
            ret None
  end.

Definition loadSpec : M (option Message) :=
  spec ← gets swSpec;
  if negb (isNil (tsEntries spec)) then ret None
  else
    s ← scan_;
    if scanRescanPass s then
      entries ← dbRead [] (GetEntries (rescan_snapshot_list_id s));
      if isNil entries
      then _ ← modify (onScan (is_rescan_snapshot_list_id (-1))); failWith "The copy of the result list is gone; rescan the results again"
      else _ ← modify (sw_Spec (scanWorkerBuildSpec entries [] (u "list") false 0)); ret None
    else
      entries ← dbRead [] (GetEntries (snapshot_list_id s));
      if isNil entries
      then _ ← modify (onScan (is_snapshot_list_id (-1))); failWith "The copy of the base IP list is gone; restart the scan"
      else
        _ ← modify (sw_Spec (scanWorkerBuildSpec entries (scPorts (isConfig s)) (PortModeKey (isConfig s)) (scShuffle (isConfig s)) (seed s)));
        ret None.

(** *** A chunk *)

Definition scanWorkerConfigTest (s : IpScan) : ScanWorkerConfigTest :=
  let concurrency := Z.max 1 (scConcurrency (isConfig s)) in
  let clamp lo hi n := Z.max lo (Z.min n hi) in
  let orUrl url := if isNil (trimmed url) then rcTestUrl C else url in
  let orTimeout ms := if ms <=? 0 then rcTestTimeoutMs C else ms in
  match isKind s with
  | Warp =>
      let warp := scWarp (isConfig s) in
      mkConfigTestRun (orUrl (waUrl warp)) (orTimeout (waTimeoutMs warp)) concurrency (waWarmLatency warp) (clamp 8 32 (concurrency * 4))
  | Generic =>
      let config := scConfig (isConfig s) in
      mkConfigTestRun (orUrl (ctUrl config)) (orTimeout (ctTimeoutMs config)) concurrency (ctWarmLatency config) (clamp 8 100 (concurrency * 4))
  end.

(** A hit under another port replaces the row it was tested from. *)
Definition addHit (rescan : bool) (r : ChunkResult) (candidate : ProbeOutcome) (port latencyMs : Z) : ChunkResult :=
  let r := cr_Hits (crHits r ++ [scanWorkerEntry (poAddress candidate) port latencyMs]) r in
  if rescan && negb (port =? poPort candidate)
  then cr_Replaced (crReplaced r ++ [scanWorkerEntry (poAddress candidate) (poPort candidate) 0]) r else r.

Definition addFailure (r : ChunkResult) (candidate : ProbeOutcome) : ChunkResult :=
  cr_Failures (crFailures r ++ [scanWorkerEntry (poAddress candidate) (poPort candidate) 0]) r.

Definition configPort (basePort : Z) (candidate : ProbeOutcome) : Z := if 0 <? poPort candidate then poPort candidate else basePort.

(** One result of the config test; [reported] are the candidates that have
    theirs. *)
Definition applyUrlResult (rescan : bool) (basePort : Z) (batch : list ProbeOutcome) (tag2target : gmap qstr Z) (tunnelsUp : list qstr)
    (st : ChunkResult * list Z) (item : UrlResult) : ChunkResult * list Z :=
  let '(r, reported) := st in
  let index := default (-1) (tag2target !! urOutboundTag item) in
  match (if index <? 0 then None else batch !! Z.to_nat index) with
  | None => st
  | Some candidate =>
      if existsb (Z.eqb index) reported then st
      else
        let r :=
          if isNil (urError item) then addHit rescan r candidate (configPort basePort candidate) (urLatencyMs item)
          else if scanWorkerIsAborted (urError item) then cr_Aborted true r
          else if existsb (eqStr (urOutboundTag item)) tunnelsUp then addHit rescan r candidate (configPort basePort candidate) 0
          else addFailure r candidate in
        (r, reported ++ [index])
  end.

Definition applyUrlReply (rescan : bool) (basePort : Z) (batch : list ProbeOutcome) (build : ScanTestBuild) (reply : UrlReply)
    (r : ChunkResult) : ChunkResult :=
  let '(r, reported) := fold_left (applyUrlResult rescan basePort batch (sbTag2target build) (uyConnected reply)) (uyResults reply) (r, []) in
  if forallb (fun p => existsb (Z.eqb (snd p)) reported) (map_to_list (sbTag2target build)) then r else cr_Aborted true r.

Definition addUnsupported (batch : list ProbeOutcome) (r : ChunkResult) (index : Z) : ChunkResult :=
  match (if index <? 0 then None else batch !! Z.to_nat index) with Some candidate => addFailure r candidate | None => r end.

Definition targetLabel (batch : list ProbeOutcome) (build : ScanTestBuild) (tag : qstr) : qstr :=
  let index := default (-1) (sbTag2target build !! tag) in
  match (if index <? 0 then None else batch !! Z.to_nat index) with
  | Some candidate => FormatTarget (poAddress candidate) (poPort candidate)
  | None => tag
  end.

(** The loop of testConfigs over the candidates that are left; the error is the
    one it returns. *)
Fixpoint testBatches (fuel : nat) (t : ScanWorkerConfigTest) (rest : list ProbeOutcome) (r : ChunkResult) : M (ChunkResult * option Message) :=
  match fuel, rest with
  | O, _ | _, [] => ret (r, None)
  | S fuel', _ =>
      s ← stop_;
      if s then ret (cr_Aborted true r, None)
      else
        let batch := take (Z.to_nat (wtSubBatch t)) rest in
        let rest' := drop (Z.to_nat (wtSubBatch t)) rest in
        now ← tick;
        let build := swBuild W now (map (fun c => (poAddress c, poPort c)) batch) in
        _ ← note (ABuilt batch build);
        match sbError build with
        | Some error => ret (r, Some error)
        | None =>
        let r := fold_left (addUnsupported batch) (sbUnsupported build) r in
        if negb (sbBuilt build) || isNil (sbOutboundTags build) then testBatches fuel' t rest' r
        else
          let request := mkUrlRequest build (map (targetLabel batch build) (sbOutboundTags build)) t
            (scanWorkerUrlTestTimeoutMs (zlen (sbOutboundTags build)) t) in
          reply ← ScanURLTest batch request;
          if negb (uyOk reply) then
            _ ← when (scanWorkerIsStopped (uyCoreError reply)) setStop;
            s ← stop_;
            if s then ret (cr_Aborted true r, None)
            else ret (r, Some (if isNil (uyCoreError reply) then tr0 "The core did not answer the config test" else MText (uyCoreError reply)))
          else
            rescan ← rescanPass;
            basePort ← gets swBasePort;
            testBatches fuel' t rest' (applyUrlReply rescan basePort batch build reply r)
        end
  end.

Definition testConfigs (candidates : list ProbeOutcome) (r : ChunkResult) : M (ChunkResult * option Message) :=
  _ ← setStage TestingConfigs;
  _ ← pushLog (MTr (u "Testing %n candidate(s) through the config…") [MText (number (zlen candidates))]);
  s ← scan_;
  testBatches (length candidates) (scanWorkerConfigTest s) candidates r.

Definition probeOutcome (c : ScanConfig) (item : ScanProbeResult) : ProbeOutcome :=
  mkOutcome (prAddress item) (prPort item) (prProbePort item) (scanWorkerProbeLatency item c).

(** The results of a probe: the candidates that passed, and the failures. *)
Definition sortOutcomes (c : ScanConfig) (items : list ScanProbeResult) : list ProbeOutcome * ChunkResult :=
  fold_left (fun (st : list ProbeOutcome * ChunkResult) item =>
    let '(candidates, r) := st in
    let outcome := probeOutcome c item in
    if prPassed item then (candidates ++ [outcome], r)
    else if prLocalFailure item
         then (candidates, cr_LocalFailures (crLocalFailures r ++ [scanWorkerEntry (poAddress outcome) (poPort outcome) 0]) r)
         else (candidates, addFailure r outcome))
    items ([], emptyChunk).

Definition probeHitPort (candidate : ProbeOutcome) : Z := if 0 <? poProbePort candidate then poProbePort candidate else poPort candidate.

Definition addProbeHits (rescan : bool) (candidates : list ProbeOutcome) (r : ChunkResult) : ChunkResult :=
  fold_left (fun r candidate => addHit rescan r candidate (probeHitPort candidate) (poLatencyMs candidate)) candidates r.

(** With the position reached, [next] when there is no answer. *)
Definition runChunk (spec : ScanTargetSpec) (chunkStart maxTargets next : Z) : M (ChunkResult * Z) :=
  s ← scan_;
  let config := isConfig s in
  let rescan := scanRescanPass s in
  _ ← setStage (if probePhaseEnabled config then Probing else TestingConfigs);
  reply ← ScanProbe (fillProbeRequest config spec chunkStart maxTargets);
  let '(candidates, r) := sortOutcomes config (if pyOk reply then pyResults reply else []) in
  if negb (pyOk reply) || negb (isNil (pyError reply)) then
    let r := cr_LocalFailures [] (cr_Failures [] r) in
    let r := if rcConfigPhase C then r else addProbeHits rescan candidates r in
    let error := if pyOk reply then pyError reply else pyCoreError reply in
    _ ← when (scanWorkerIsStopped error) setStop;
    s ← stop_;
    if s then ret (cr_Aborted true r, next)
    else ret (cr_Error (Some (if isNil error then tr0 "The core did not answer the probe request" else MText error)) r, next)
  else
    let next := Z.max chunkStart (pyNextCursor reply) in
    let r := cr_Aborted (pyAborted reply) r in
    if negb (rcConfigPhase C) then ret (addProbeHits rescan candidates r, next)
    else if isNil candidates then ret (r, next)
    else
      s ← (if crAborted r then ret true else stop_);
      if (s : bool) then ret (cr_Aborted true r, next)
      else
        tested ← testConfigs candidates r;
        ret (cr_Error (snd tested) (fst tested), next).

(** The second before a retry, in steps of 100 ms. *)
Fixpoint retryDelay (steps : nat) : M unit :=
  match steps with
  | O => ret tt
  | S steps' => s ← stop_; if (s : bool) then ret tt else retryDelay steps'
  end.

Definition retrySteps : nat := Z.to_nat (kScanWorkerRetryDelayMs / 100).

Fixpoint confirmRounds (rounds : nat) (r : ChunkResult) (chunkStart next : Z) : M (ChunkResult * Z) :=
  match rounds with
  | O => ret (r, next)
  | S rounds' =>
      if isNil (crFailures r) then ret (r, next)
      else
        _ ← retryDelay retrySteps;
        s ← stop_;
        if (s : bool) then ret (cr_Aborted true (cr_Failures [] r), chunkStart)
        else
          _ ← pushLog (MTr (u "Re-testing %n failed result(s)…") [MText (number (zlen (crFailures r)))]);
          let spec := scanWorkerBuildSpec (crFailures r) [] (u "list") false 0 in
          answer ← runChunk spec 0 (zlen (crFailures r)) 0;
          let retry := fst answer in
          if isSome (crError retry) || crAborted retry then
            let r := cr_Failures [] r in
            s ← stop_;
            if (s : bool) then ret (cr_Aborted true r, chunkStart) else ret (r, next)
          else
            confirmRounds rounds'
              (mkChunkResult (crHits r ++ crHits retry) (crFailures retry) (crLocalFailures r ++ crLocalFailures retry)
                 (crReplaced r ++ crReplaced retry) (crAborted r) (crError r))
              chunkStart next
  end.

Definition confirmFailures (r : ChunkResult) (chunkStart next : Z) : M (ChunkResult * Z) :=
  answer ← confirmRounds kScanWorkerRescanRetries r chunkStart next;
  let rescued := zlen (crHits (fst answer)) - zlen (crHits r) in
  _ ← when (0 <? rescued)
        (pushLog (MTr (u "%n result(s) passed only on a retry; the network fails some attempts at random") [MText (number rescued)]));
  ret answer.

Definition beginChunk (chunkStart chunkSize : Z) : M unit :=
  t ← tick;
  _ ← note (ABegin chunkStart);
  underMutex (fun w =>
    let last := match swQuery W t with Some counters => counters | None => cvLast (swChunk w) end in
    onLive (lv_Tested chunkStart)
      (sw_Chunk (mkChunkView true chunkStart (Z.max chunkSize 0) (coProbed last) (coProbed last - coProbePassed last) (coUrlTested last) last) w)).

(** What the network check says of a chunk: whether it is set aside, the error
    that pauses the scan, and the families that are up. *)
Record Verdict := mkVerdict { vdUnverified : bool; vdError : option Message; vdIpv4Up : bool; vdIpv6Up : bool }.

Definition familyUnproven (r : ChunkResult) : bool :=
  (scanWorkerHasFamily (crFailures r) false && negb (scanWorkerHasFamily (crHits r) false)) ||
  (scanWorkerHasFamily (crFailures r) true && negb (scanWorkerHasFamily (crHits r) true)).

Definition isGuarded (rescan : bool) (r : ChunkResult) : bool :=
  negb (isSome (crError r)) && (negb (isNil (crFailures r)) || negb (isNil (crLocalFailures r))) &&
  (rescan || isNil (crHits r) || familyUnproven r).

Definition checkNetwork (rescan : bool) (r : ChunkResult) : M Verdict :=
  s ← stop_;
  if (s : bool) then ret (mkVerdict true None false false)
  else
    let ipv4Failed := scanWorkerHasFamily (crFailures r) false in
    let ipv6Failed := scanWorkerHasFamily (crFailures r) true in
    let ipv6Any := ipv6Failed || scanWorkerHasFamily (crLocalFailures r) true in
    let ipv6Unproven := ipv6Failed && negb (scanWorkerHasFamily (crHits r) true) in
    v4 ← networkUp false;
    let ipv4Up := fst v4 in
    let ipv4Blocks := negb rescan && negb ipv4Up && ipv4Failed in
    v6 ← (if negb ipv4Blocks && ((rescan && ipv6Failed) || (negb rescan && ipv6Unproven) || (negb ipv4Up && ipv6Any))
          then networkUp true else ret (false, []));
    let ipv6Up := fst v6 in
    let ipv6Blocks := negb rescan && negb ipv6Up && ipv6Unproven in
    if (negb ipv4Up && negb ipv6Up) || ipv4Blocks || ipv6Blocks then
      _ ← when (negb (isNil (snd v4))) (mwLog (MTr (u "Scan %1: network check failed: %2") [MText (number (rcScanId C)); MText (snd v4)]));
      ret (mkVerdict true
             (Some (if ipv4Up && ipv6Blocks
                    then tr0 "IPv6 is unreachable from this network; scan paused (turn off IPv6 scanning to go on)"
                    else tr0 "Network appears to be down; scan paused"))
             ipv4Up ipv6Up)
    else
      _ ← when (rescan && negb ipv4Up && ipv4Failed) (pushLog (tr0 "IPv4 is unreachable from this network; IPv4 results were kept"));
      _ ← when (rescan && negb ipv6Up && ipv6Failed) (pushLog (tr0 "IPv6 is unreachable from this network; IPv6 results were kept"));
      ret (mkVerdict false None ipv4Up ipv6Up).

(** The failures that a rescan removes. *)
Definition deadEntries (r : ChunkResult) (v : Verdict) : list IpListEntry :=
  List.filter (fun e => if scanWorkerIsIpv6 e then vdIpv6Up v else vdIpv4Up v) (crFailures r).

(** Writes a chunk's results; true when the result list changed. *)
Definition storeResults (rescan guarded : bool) (resultId : Z) (r : ChunkResult) (v : Verdict) : M bool :=
  p ← persist_;
  if negb p || (resultId <? 0) then ret false
  else
    _ ← when (negb (isNil (crHits r)))
          (_ ← upsertCall resultId (crHits r);
           when (rescan && negb (isNil (crReplaced r))) (_ ← removeCall resultId (crReplaced r); ret tt));
    let dead := if rescan && guarded && negb (vdUnverified v) then deadEntries r v else [] in
    gone ← (if isNil dead then ret 0 else removeCall resultId dead);
    _ ← when (0 <? gone) (modify (onScan (fun s => is_removed (removed s + gone) s)));
    count ← dbRead 0 (EntryCount resultId);
    _ ← modify (onScan (is_found count));
    ret (negb (isNil (crHits r)) || (0 <? gone)).

(** Where the pass goes on after the chunk. *)
Definition nextCursor (r : ChunkResult) (unverified : bool) (chunkStart next total : Z) : Z :=
  Z.min total
    (if isSome (crError r) || unverified then chunkStart
     else if crAborted r then (if rcConfigPhase C then chunkStart else next) else next).

Definition setCursor (rescan : bool) (c : Z) (s : IpScan) : IpScan := if rescan then is_rescan_cursor c s else is_cursor c s.

Definition stopAfterReached (s : IpScan) : bool :=
  negb (scanRescanPass s) && (0 <? scStopAfter (isConfig s)) && (scStopAfter (isConfig s) <=? found s).

(** [None]: another chunk follows. *)
Definition chunkEnd (r : ChunkResult) (v : Verdict) (chunkStart total : Z) : M (option (bool * option Message)) :=
  s ← scan_;
  if isSome (crError r) then ret (Some (false, crError r))
  else if isSome (vdError v) then ret (Some (false, vdError v))
  else if vdUnverified v then ret (Some (false, None))
  else if (total <=? ActiveCursor s) || stopAfterReached s then ret None
  else
    st ← stop_;
    if (st : bool) then ret (Some (false, None))
    else if crAborted r then ret (Some (false, Some (tr0 "The core ended the scan session early")))
    else if ActiveCursor s =? chunkStart then ret (Some (false, Some (tr0 "The core made no progress on the scan")))
    else ret None.

(** One round of the loop of runChunks; [Some] with the outcome it returns. *)
Definition chunkRound (resultId chunkSize : Z) : M (option (bool * option Message)) :=
  s ← scan_;
  let rescan := scanRescanPass s in
  let total := ActiveTotal s in
  let chunkStart := ActiveCursor s in
  if stopAfterReached s then
    _ ← pushLog (MTr (u "Found %n result(s); stopping as configured") [MText (number (found s))]); ret (Some (true, None))
  else if total <=? chunkStart then ret (Some (true, None))
  else
    st ← stop_;
    if (st : bool) then ret (Some (false, None))
    else
      _ ← beginChunk chunkStart (Z.min chunkSize (total - chunkStart));
      spec ← gets swSpec;
      answer ← runChunk spec chunkStart chunkSize chunkStart;
      answer ← (let r := fst answer in
        if rescan && negb (isSome (crError r)) && negb (crAborted r) && negb (isNil (crFailures r))
        then confirmFailures r chunkStart (snd answer) else ret answer);
      let r := fst answer in
      let guarded := isGuarded rescan r in
      v ← (if guarded then checkNetwork rescan r else ret (mkVerdict false None false false));
      changed ← storeResults rescan guarded resultId r v;
      _ ← modify (onScan (setCursor rescan (nextCursor r (vdUnverified v) chunkStart (snd answer) total)));
      s ← scan_;
      _ ← underMutex (fun w => onChunk (cv_Active false) (onLive (fun l => lv_Found (found s) (lv_Removed (removed s) l)) w));
      _ ← saveProgress;
      _ ← setTested (ActiveCursor s) total;
      _ ← when changed (note AResults);
      chunkEnd r v chunkStart total.

Fixpoint chunkLoop (fuel : nat) (resultId chunkSize : Z) : M (option (bool * option Message)) :=
  match fuel with
  | O => ret None
  | S fuel' =>
      outcome ← chunkRound resultId chunkSize;
      match outcome with Some o => ret (Some o) | None => chunkLoop fuel' resultId chunkSize end
  end.

(** Every round but the last moves the cursor on. *)
Definition chunkFuel (s : IpScan) : nat := S (S (Z.to_nat (ActiveTotal s - ActiveCursor s))).

Definition chunkSizeOf (s : IpScan) : Z :=
  if probePhaseEnabled (isConfig s) then Z.max 32 (Z.min (scConcurrency (isConfig s) * 4) 2048) else wtSubBatch (scanWorkerConfigTest s).

Definition runChunks : M (option (bool * option Message)) :=
  s ← scan_;
  let resultId := result_list_id s in
  p ← persist_;
  _ ← when (p && (0 <=? resultId))
        (count ← dbRead 0 (EntryCount resultId);
         _ ← modify (onScan (is_found count));
         underMutex (onLive (lv_Found count)));
  s ← scan_;
  _ ← setTested (ActiveCursor s) (ActiveTotal s);
  chunkLoop (chunkFuel s) resultId (chunkSizeOf s).

(** *** The whole run *)

(** [None] would be a loop that did not end; else whether the pass is complete,
    and the error. *)
Definition execute : M (option (bool * option Message)) :=
  _ ← setStage Preparing;
  _ ← pushLog (tr0 "Preparing targets…");
  let fails error := ret (Some (false, error)) in
  if rcConfigPhase C && negb (rcBase C) then fails (Some (tr0 "The scan has no profile for the config test"))
  else if rcConfigPhase C && isSome (rcBaseError C) then fails (rcBaseError C)
  else
    _ ← when (rcConfigPhase C) (match rcDialedPort C with Some p => modify (sw_BasePort p) | None => ret tt end);
    s ← stop_;
    if (s : bool) then fails None
    else
      error ← preparePass;
      if isSome error then fails error
      else
        touched ← gets swListsTouched;
        _ ← when touched (_ ← modify (sw_ListsTouched false); note AListsChanged);
        s ← stop_;
        if (s : bool) then fails None
        else
          error ← loadSpec;
          if isSome error then fails error else runChunks.

Definition finishPass (completed : bool) (error : option Message) : M unit :=
  s ← scan_;
  _ ← (if completed then
         _ ← (if scanRescanPass s then
                _ ← deleteList (rescan_snapshot_list_id s);
                _ ← modify (onScan (is_rescan_snapshot_list_id (-1)));
                if CanResumeInitial s then modify (onScan (fun s => is_Mode Initial (is_Status Paused s)))
                else now ← tick; modify (onScan (fun s => is_Status Completed (is_finished_at (swNow W now) s)))
              else
                _ ← deleteList (snapshot_list_id s);
                now ← tick;
                modify (onScan (fun s => is_snapshot_list_id (-1) (is_Status Completed (is_finished_at (swNow W now) s)))));
         modify (onScan (is_last_error None))
       else
         let resumable := rescanResumable s in
         _ ← when (scanRescanPass s && negb resumable && CanResumeInitial s) (modify (onScan (is_Mode Initial)));
         modify (onScan (fun s =>
           is_Status (if resumable || CanResumeInitial s then Paused
                      else if isSome error then Failed
                      else if decide (rcInitialStatus C = Completed) then Completed else Idle)
             (is_last_error error s))));
  _ ← persistPassState;
  _ ← tick;
  _ ← modify (sw_Finalized true);
  p ← persist_;
  _ ← when p (note AListsChanged);
  s ← scan_;
  _ ← match error with Some e => mwLog (MTr (u "Scan %1 stopped: %2") [MText (isName s); e]) | None => ret tt end;
  underMutex (onLive (fun l =>
    lv_Error (last_error s) (lv_Tested (ActiveCursor s) (lv_Total (ActiveTotal s) (lv_Found (found s) (lv_Removed (removed s) l)))))).

(** True when the run came to its end. *)
Definition run : M bool :=
  outcome ← execute;
  match outcome with
  | None => ret false
  | Some (completed, error) =>
      st ← stop_;
      _ ← finishPass completed (if st && negb completed then None else error);
      _ ← tick;
      _ ← modify (sw_PollStop true);
      _ ← underMutex (onChunk (cv_Active false));
      _ ← note AFinished;
      _ ← tick;
      _ ← note AStopScan;
      ret true
  end.
End Run.

(** ** A new worker *)

Definition configPhaseOf (scan : IpScan) : bool :=
  match isKind scan with Warp => true | Generic => ctEnabled (scConfig (isConfig scan)) end.

(** A WARP scan has no TCP or HTTP phase. *)
Definition workerConfig (scan : IpScan) : ScanConfig :=
  let c := isConfig scan in
  match isKind scan with
  | Generic => c
  | Warp =>
      let t := scTcp c in let h := scHttp c in
      mkScanConfig (scPorts c) (scPortMode c) (scShuffle c) (scScanIPv6 c) (scStopAfter c) (scConcurrency c) (scSpawnIntervalMs c)
        (scIcmp c) (mkTcp false (tcTimeoutMs t) (tcAttempts t))
        (mkHttp false (hpTls h) (hpServerName h) (hpHost h) (hpPath h) (hpMethod h) (hpHttpVersion h) (hpAlpn h) (hpMinVersion h)
           (hpMaxVersion h) (hpFingerprint h) (hpInsecure h) (hpDisableSni h) (hpFragment h) (hpFragmentFallbackDelayMs h)
           (hpRecordFragment h) (hpMixedCaseSni h) (hpTimeoutMs h))
        (scConfig c) (scWarp c)
  end.

Definition newLive (scan : IpScan) (mode : StartMode) : ScanLiveState :=
  mkLive true false
    (match mode with Resume => ActiveCursor scan | _ => 0 end)
    (match mode with Resume => ActiveTotal scan | _ => 0 end)
    (match mode with FromInitial => 0 | _ => found scan end)
    (match mode with Resume => removed scan | _ => 0 end)
    Preparing [] None.

Definition newChunkView : ChunkView := mkChunkView false 0 0 0 0 0 (mkCounters 0 0 0).

Definition newScanWorker (scan : IpScan) (mode : StartMode) (store : IpListStore) (row : option IpScan) : ScanWorker :=
  let own := mkIpScan (isId scan) (isName scan) (isKind scan) (base_list_id scan) (result_list_id scan) (workerConfig scan) Running
    (isMode scan) (snapshot_list_id scan) (seed scan) (cursor scan) (total scan) (spec_hash scan) (rescan_snapshot_list_id scan)
    (rescan_cursor scan) (rescan_total scan) (found scan) (removed scan) None (started_at scan) (finished_at scan) in
  mkScanWorker own emptySpec 0 false false true false false (newLive scan mode) newChunkView 0 None store row 0 [].

Definition newRunConst (scan : IpScan) (mode : StartMode) (base : bool) (baseError : option Message) (dialedPort : option Z)
    (testUrl : qstr) (testTimeoutMs : Z) (sha1 : qstr -> qstr) : RunConst :=
  mkRunConst (isId scan) mode base baseError dialedPort (configPhaseOf scan) (isStatus scan) testUrl testTimeoutMs sha1.
