(* ===== verification/ScanRunFacts.v ===== *)
(** Reasoning about the run thread of a scan: what an operation appends to the
    worker's record, and how the state before and after relate.

    [wp m Q w] says that from [w] the operation [m] appends some actions [t] and
    ends in a state such that [Q] holds of its result, [t] and that state.
    [within R P m] is the common case: states related by [R], actions in [P]. *)
From stdpp Require Import base list gmap strings.
From Stdlib Require Import ZArith Lia Bool.
From S2P Require Import Prelude IpListParse IpScan IpListStore ScanWorker ScanRun.

Open Scope scan_scope.

(** ** Operations and their records *)

Definition wp {A} (m : M A) (post : A -> list ScanAct -> ScanWorker -> Prop) (w : ScanWorker) : Prop :=
  exists t, swOut (snd (m w)) = swOut w ++ t /\ post (fst (m w)) t (snd (m w)).

Lemma wp_ret {A} (a : A) post w : post a [] w -> wp (ret a) post w.
Proof. exists []. by rewrite app_nil_r. Qed.

Lemma wp_gets {A} (f : ScanWorker -> A) post w : post (f w) [] w -> wp (gets f) post w.
Proof. exists []. by rewrite app_nil_r. Qed.

Lemma wp_modify f post w : swOut (f w) = swOut w -> post tt [] (f w) -> wp (modify f) post w.
Proof. intros Ho Hp. exists []. by rewrite app_nil_r. Qed.

Lemma wp_note a post w : post tt [a] (outSw a w) -> wp (note a) post w.
Proof. by exists [a]. Qed.

Lemma wp_bind {A B} (m : M A) (f : A -> M B) post w :
  wp m (fun a t1 w1 => wp (f a) (fun b t2 w2 => post b (t1 ++ t2) w2) w1) w -> wp (bind m f) post w.
Proof.
  intros (t1 & H1 & t2 & H2 & Hp). unfold wp, bind in *. destruct (m w) as [a w1] eqn:E. cbn [fst snd] in *.
  exists (t1 ++ t2). by rewrite H2, H1, app_assoc.
Qed.

Lemma wp_mono {A} (m : M A) (post post' : A -> list ScanAct -> ScanWorker -> Prop) w :
  wp m post w -> (forall a t w', post a t w' -> post' a t w') -> wp m post' w.
Proof. intros (t & Ht & Hp) H. exists t. auto. Qed.

Lemma wp_conj {A} (m : M A) (p q : A -> list ScanAct -> ScanWorker -> Prop) w :
  wp m p w -> wp m q w -> wp m (fun a t w' => p a t w' /\ q a t w') w.
Proof.
  intros (t & Ht & Hp) (t' & Ht' & Hq). assert (t' = t) as -> by (rewrite Ht in Ht'; by apply app_inv_head in Ht'). by exists t.
Qed.

Lemma wp_bind_with {A B} (m : M A) (f : A -> M B) mid post w :
  wp m mid w -> (forall a t1 w1, mid a t1 w1 -> wp (f a) (fun b t2 w2 => post b (t1 ++ t2) w2) w1) -> wp (bind m f) post w.
Proof. intros Hm Hf. apply wp_bind. eapply wp_mono; [exact Hm|]. cbv beta. auto. Qed.

Lemma wp_assoc {A B D} (m : M A) (f : A -> M B) (k : B -> M D) post w :
  wp (bind (bind m f) k) post w -> wp (bind m (fun a => bind (f a) k)) post w.
Proof. unfold wp, bind. destruct (m w) as [a w1]. by destruct (f a w1). Qed.

(** ** How states relate *)

(** The flags only go one way. *)
Record Onward (w w' : ScanWorker) : Prop := {
  on_stop : swStop w = true -> swStop w' = true;
  on_persist : swPersist w = false -> swPersist w' = false
}.

(** The run's own data is as it was. *)
Record Framed (w w' : ScanWorker) : Prop := {
  fr_onward : Onward w w';
  fr_scan : swScan w' = swScan w;
  fr_spec : swSpec w' = swSpec w;
  fr_basePort : swBasePort w' = swBasePort w
}.

(** A relation that the other threads' steps are in. *)
Class StepRel (R : ScanWorker -> ScanWorker -> Prop) : Prop := {
  sr_refl : forall w, R w w;
  sr_trans : forall a b c, R a b -> R b c -> R a c;
  sr_async : forall p w a, R w (applyAsync p w a);
  sr_tick : forall n w, R w (sw_Tick n w);
  sr_out : forall a w, R w (outSw a w)
}.

Lemma onLive_fields f w : swStop (onLive f w) = swStop w /\ swPersist (onLive f w) = swPersist w /\ swScan (onLive f w) = swScan w /\
  swSpec (onLive f w) = swSpec w /\ swBasePort (onLive f w) = swBasePort w /\ swOut (onLive f w) = swOut w.
Proof. done. Qed.

Lemma pollApply_fields p w : swStop (pollApply p w) = swStop w /\ swPersist (pollApply p w) = swPersist w /\ swScan (pollApply p w) = swScan w /\
  swSpec (pollApply p w) = swSpec w /\ swBasePort (pollApply p w) = swBasePort w /\ swOut (pollApply p w) = swOut w.
Proof. unfold pollApply. destruct (swPolled w) as [[c l]|]; [|done]. cbv zeta. by destruct (_ && _). Qed.

Lemma pollAnswered_fields r w : swStop (pollAnswered r w) = swStop w /\ swPersist (pollAnswered r w) = swPersist w /\
  swScan (pollAnswered r w) = swScan w /\ swSpec (pollAnswered r w) = swSpec w /\ swBasePort (pollAnswered r w) = swBasePort w /\
  swOut (pollAnswered r w) = swOut w.
Proof. unfold pollAnswered. by destruct (_ || _). Qed.

Lemma applyAsync_onward p w a : Onward w (applyAsync p w a).
Proof.
  destruct a as [| | |r| |f|f]; cbn [applyAsync]; try done.
  - destruct (pollAnswered_fields r w) as (H1 & H2 & _). split; by rewrite ?H1, ?H2.
  - destruct (pollApply_fields p w) as (H1 & H2 & _). split; by rewrite ?H1, ?H2.
Qed.

Lemma applyAsync_framed p w a : Framed w (applyAsync p w a).
Proof.
  split; [apply applyAsync_onward| | |]; destruct a as [| | |r| |f|f]; cbn [applyAsync]; try done;
    [destruct (pollAnswered_fields r w) as (_ & _ & H1 & H2 & H3 & _)|destruct (pollApply_fields p w) as (_ & _ & H1 & H2 & H3 & _)
    |destruct (pollAnswered_fields r w) as (_ & _ & H1 & H2 & H3 & _)|destruct (pollApply_fields p w) as (_ & _ & H1 & H2 & H3 & _)
    |destruct (pollAnswered_fields r w) as (_ & _ & H1 & H2 & H3 & _)|destruct (pollApply_fields p w) as (_ & _ & H1 & H2 & H3 & _)]; done.
Qed.

#[export] Instance Onward_steps : StepRel Onward.
Proof. split; try done; [intros a b c [] []; split; auto|apply applyAsync_onward]. Qed.

#[export] Instance Framed_steps : StepRel Framed.
Proof.
  split; try done; [intros a b c [? ? ? ?] [? ? ? ?]; split; [by eapply sr_trans|congruence|congruence|congruence]|apply applyAsync_framed].
Qed.

(** ** Kinds of actions *)

(** What the other threads note. *)
Definition ambient (a : ScanAct) : Prop := match a with APersistOff | ASeen _ => True | _ => False end.

Class Actions (P : ScanAct -> Prop) : Prop := actions_ambient : forall a, ambient a -> P a.

Lemma applyAsync_out p w a : exists t, swOut (applyAsync p w a) = swOut w ++ t /\ Forall ambient t.
Proof.
  destruct a as [| | |r| |f|f]; cbn [applyAsync].
  - exists []. by rewrite app_nil_r.
  - exists [APersistOff]. split; [done|]. by repeat constructor.
  - exists [ASeen (LiveState w)]. split; [done|]. by repeat constructor.
  - exists []. rewrite app_nil_r. destruct (pollAnswered_fields r w) as (_ & _ & _ & _ & _ & ->). done.
  - exists []. rewrite app_nil_r. destruct (pollApply_fields p w) as (_ & _ & _ & _ & _ & ->). done.
  - exists []. by rewrite app_nil_r.
  - exists []. by rewrite app_nil_r.
Qed.

(** ** The common case *)

Definition within (R : ScanWorker -> ScanWorker -> Prop) (P : ScanAct -> Prop) {A} (m : M A) : Prop :=
  forall w, wp m (fun _ t w' => R w w' /\ Forall P t) w.

Section Within.
Context {R : ScanWorker -> ScanWorker -> Prop} {RS : StepRel R} {P : ScanAct -> Prop} {PA : Actions P}.

Lemma within_ret {A} (a : A) : within R P (ret a).
Proof. intros w. apply wp_ret. split; [apply sr_refl|constructor]. Qed.

Lemma within_gets {A} (f : ScanWorker -> A) : within R P (gets f).
Proof. intros w. apply wp_gets. split; [apply sr_refl|constructor]. Qed.

Lemma within_bind {A B} (m : M A) (f : A -> M B) : within R P m -> (forall a, within R P (f a)) -> within R P (bind m f).
Proof.
  intros Hm Hf w. eapply wp_bind_with; [apply Hm|]. intros a t1 w1 [H1 H1']. cbv beta. eapply wp_mono; [apply Hf|].
  intros b t2 w2 [H2 H2']. cbv beta in *. split; [by eapply sr_trans|by apply Forall_app_2].
Qed.

Lemma within_modify f : (forall w, R w (f w) /\ swOut (f w) = swOut w) -> within R P (modify f).
Proof. intros H w. destruct (H w). apply wp_modify; [done|]. split; [done|constructor]. Qed.

Lemma within_note a : P a -> within R P (note a).
Proof. intros H w. apply wp_note. split; [apply sr_out|by repeat constructor]. Qed.

Lemma within_mwLog text : P (ALog text) -> within R P (mwLog text).
Proof. exact (within_note (ALog text)). Qed.

Lemma within_tick {Q : QtChar} W C : within R P (tick W C).
Proof.
  intros w. unfold tick, wp. cbn [fst snd].
  enough (H : forall l w, exists t, swOut (fold_left (applyAsync (rcConfigPhase C)) l w) = swOut w ++ t /\ Forall ambient t /\
    R w (fold_left (applyAsync (rcConfigPhase C)) l w)).
  { destruct (H (swAsync W (swTick w)) w) as (t & Ht & Ha & Hr). exists t. split; [exact Ht|].
    split; [eapply sr_trans; [exact Hr|apply sr_tick]|]. eapply Forall_impl; [exact Ha|]. apply actions_ambient. }
  clear w. induction l as [|a l IH]; intros w; cbn [fold_left].
  - exists []. rewrite app_nil_r. repeat split; [constructor|apply sr_refl].
  - destruct (applyAsync_out (rcConfigPhase C) w a) as (t1 & Ht1 & Ha1).
    destruct (IH (applyAsync (rcConfigPhase C) w a)) as (t2 & Ht2 & Ha2 & Hr). exists (t1 ++ t2).
    rewrite Ht2, Ht1, app_assoc. repeat split; [by apply Forall_app_2|eapply sr_trans; [apply sr_async|exact Hr]].
Qed.

Lemma within_if {A} (b : bool) (m n : M A) : within R P m -> within R P n -> within R P (if b then m else n).
Proof. by destruct b. Qed.

Lemma within_when b m : within R P m -> within R P (when b m).
Proof. intros H. unfold when. destruct b; [done|apply within_ret]. Qed.

Lemma within_option {A B} (o : option B) (m : M A) (f : B -> M A) :
  within R P m -> (forall b, within R P (f b)) -> within R P (match o with Some b => f b | None => m end).
Proof. by destruct o. Qed.
End Within.

Lemma within_weaken {A} (R R' : ScanWorker -> ScanWorker -> Prop) (P P' : ScanAct -> Prop) (m : M A) :
  within R P m -> (forall w w', R w w' -> R' w w') -> (forall a, P a -> P' a) -> within R' P' m.
Proof.
  intros H HR HP w. eapply wp_mono; [apply H|]. intros a t w' [H1 H2]. cbv beta in *. split; [auto|]. by eapply Forall_impl.
Qed.

Create HintDb scanrun.
#[export] Hint Resolve @within_ret @within_gets @within_tick @within_note : scanrun.

(** Decomposes an operation into its steps. *)
Ltac within_step :=
  lazymatch goal with
  | |- within _ _ (bind _ _) => apply within_bind; [|intros ?]
  | |- within _ _ (if _ then _ else _) => apply within_if
  | |- within _ _ (when _ _) => apply within_when
  | |- within _ _ (let '(_, _) := ?p in _) => destruct p
  | |- within _ _ (match ?o with Some _ => _ | None => _ end) => apply within_option; [|intros ?]
  | |- within _ _ (match ?o with _ => _ end) => destruct o
  end.
Ltac within_auto := repeat (cbv zeta; first [solve [auto with scanrun typeclass_instances]|within_step]).
