(* ===== verification/ScanChunkFacts.v ===== *)
(** What a chunk of a scan finds, and on what evidence: every failure in the
    result of runChunk was reported by the core, every candidate that passed the
    probe is accounted for, and a chunk is only cut short by a pause or by the
    core. *)
From stdpp Require Import base list gmap strings.
From Stdlib Require Import ZArith Lia Bool.
From S2P Require Import Prelude IpListParse IpScan IpListStore ScanWorker ScanRun ScanRunFacts.

(** ** Evidence *)

Definition entryOf (c : ProbeOutcome) : IpListEntry := scanWorkerEntry (poAddress c) (poPort c) 0.
Definition hitOf (c : ProbeOutcome) (h : IpListEntry) : Prop := exists p l, h = scanWorkerEntry (poAddress c) p l.

(** An answer of the probe that counts. *)
Definition answered (y : ProbeReply) : Prop := pyOk y = true /\ pyError y = [].

(** The candidate that a tag of the config test stands for. *)
Definition tested (batch : list ProbeOutcome) (b : ScanTestBuild) (tag : qstr) (c : ProbeOutcome) : Prop :=
  exists i, sbTag2target b !! tag = Some i /\ 0 <= i /\ batch !! Z.to_nat i = Some c.

(** The core, or the builder of the configuration, said that the entry fails. *)
Definition refutes (e : IpListEntry) (a : ScanAct) : Prop :=
  match a with
  | AProbe _ y => answered y /\ exists item, item ∈ pyResults y /\ prPassed item = false /\ prLocalFailure item = false /\
      e = scanWorkerEntry (prAddress item) (prPort item) 0
  | AUrlTest batch q y => uyOk y = true /\ exists item c, item ∈ uyResults y /\ tested batch (uqBuild q) (urOutboundTag item) c /\
      urError item <> [] /\ scanWorkerIsAborted (urError item) = false /\ urOutboundTag item ∉ uyConnected y /\ e = entryOf c
  | ABuilt batch b => exists i c, i ∈ sbUnsupported b /\ 0 <= i /\ batch !! Z.to_nat i = Some c /\ e = entryOf c
  | _ => False
  end.

(** The core ended a call before it was done. *)
Definition cutShort (a : ScanAct) : Prop :=
  match a with
  | AProbe _ y => answered y /\ pyAborted y = true
  | AUrlTest batch q y => uyOk y = true /\
      ((exists item, item ∈ uyResults y /\ scanWorkerIsAborted (urError item) = true) \/
       exists tag i, sbTag2target (uqBuild q) !! tag = Some i /\
         ~ exists item, item ∈ uyResults y /\ sbTag2target (uqBuild q) !! urOutboundTag item = Some i /\ 0 <= i /\ is_Some (batch !! Z.to_nat i))
  | _ => False
  end.

(** The builder gave the candidate no outbound. *)
Definition leftOut (c : ProbeOutcome) (a : ScanAct) : Prop :=
  match a with
  | ABuilt batch b => exists k, batch !! k = Some c /\
      (sbBuilt b = false \/ sbOutboundTags b = [] \/ forall tag, sbTag2target b !! tag <> Some (Z.of_nat k))
  | _ => False
  end.

(** How a result grew from [r0] to [r], given the actions [t]; [S] says that the
    scan was paused. *)
Record Explained (S : Prop) (t : list ScanAct) (r0 r : ChunkResult) : Prop := {
  ex_hits : crHits r0 ⊆ crHits r;
  ex_failures : forall e, e ∈ crFailures r -> e ∈ crFailures r0 \/ Exists (refutes e) t;
  ex_replaced : forall e, e ∈ crReplaced r -> e ∈ crReplaced r0 \/ exists h, h ∈ crHits r /\ cidr h = cidr e /\ port h <> port e;
  ex_aborted : crAborted r = true -> crAborted r0 = true \/ S \/ Exists cutShort t;
  ex_still : crAborted r0 = true -> crAborted r = true
}.

Lemma explained_refl S t r : Explained S t r r.
Proof. split; auto. Qed.

Lemma explained_trans (S S' : Prop) t t' a b c : (S -> S') -> Explained S t a b -> Explained S' t' b c -> Explained S' (t ++ t') a c.
Proof.
  intros HS [h1 f1 r1 a1 s1] [h2 f2 r2 a2 s2]. split; [| | | |auto].
  - set_solver.
  - intros e He. rewrite Exists_app. destruct (f2 e He) as [H|H]; [destruct (f1 e H)|]; auto.
  - intros e He. destruct (r2 e He) as [H|H]; [|by right]. destruct (r1 e H) as [H'|(h & Hh & H')]; [by left|]. right. exists h. auto.
  - intros Ha. rewrite Exists_app. destruct (a2 Ha) as [H|[H|H]]; [destruct (a1 H) as [?|[?|?]]|..]; auto.
Qed.

Lemma explained_weaken (S S' : Prop) t t' r0 r : (S -> S') -> t ⊆ t' -> Explained S t r0 r -> Explained S' t' r0 r.
Proof.
  intros HS Ht [h f p a s]. split; [done| |done| |done].
  - intros e He. destruct (f e He) as [H|H]; [by left|right]. apply Exists_exists in H as (x & Hx & H). apply Exists_exists. exists x. auto.
  - intros Ha. destruct (a Ha) as [H|[H|H]]; auto. right; right. apply Exists_exists in H as (x & Hx & H). apply Exists_exists. exists x. auto.
Qed.

(** ** Hits and failures *)

Lemma entry_cidr address p l p' l' : cidr (scanWorkerEntry address p l) = cidr (scanWorkerEntry address p' l').
Proof. done. Qed.

Lemma addHit_spec rescan r c p l : Explained False [] r (addHit rescan r c p l) /\ scanWorkerEntry (poAddress c) p l ∈ crHits (addHit rescan r c p l) /\
  crAborted (addHit rescan r c p l) = crAborted r /\ crError (addHit rescan r c p l) = crError r.
Proof.
  unfold addHit. destruct (rescan && negb (p =? poPort c)) eqn:E; cbn.
  - split; [|set_solver]. split; cbn; [set_solver|by left| |by left|done]. intros e He. apply elem_of_app in He as [He|He%list_elem_of_singleton]; [by left|].
    right. exists (scanWorkerEntry (poAddress c) p l). subst. cbn. split; [set_solver|]. split; [done|].
    apply andb_true_iff in E as [_ E]. lia.
  - split; [|set_solver]. split; cbn; [set_solver|by left|by left|by left|done].
Qed.

Lemma addFailure_spec r c t : Exists (refutes (entryOf c)) t -> Explained False t r (addFailure r c).
Proof.
  intros Ht. split; cbn; [done| |by left|by left|done]. intros e [He|He%list_elem_of_singleton]%elem_of_app; [by left|]. right. by subst.
Qed.

Lemma addProbeHits_spec rescan cs r : Explained False [] r (addProbeHits rescan cs r) /\
  Forall (fun c => scanWorkerEntry (poAddress c) (probeHitPort c) (poLatencyMs c) ∈ crHits (addProbeHits rescan cs r)) cs /\
  crAborted (addProbeHits rescan cs r) = crAborted r /\ crError (addProbeHits rescan cs r) = crError r /\
  crFailures (addProbeHits rescan cs r) = crFailures r.
Proof.
  unfold addProbeHits. revert r. induction cs as [|c cs IH]; intros r; cbn [fold_left]; [split; [apply explained_refl|done]|].
  destruct (addHit_spec rescan r c (probeHitPort c) (poLatencyMs c)) as (H1 & H2 & H3 & H4).
  destruct (IH (addHit rescan r c (probeHitPort c) (poLatencyMs c))) as (H5 & H6 & -> & -> & ->). split; [|split; [|split; [|split]]].
  - exact (explained_trans _ _ [] [] _ _ _ id H1 H5).
  - constructor; [|done]. by apply (ex_hits _ _ _ _ H5).
  - done.
  - done.
  - unfold addHit. by destruct (_ && _).
Qed.

(** ** The results of a probe *)

Definition passedOutcomes (c : ScanConfig) (items : list ScanProbeResult) : list ProbeOutcome :=
  map (probeOutcome c) (List.filter prPassed items).

Lemma sortOutcomes_spec c items q y : answered y -> pyResults y = items ->
  fst (sortOutcomes c items) = passedOutcomes c items /\ Explained False [AProbe q y] emptyChunk (snd (sortOutcomes c items)) /\
  crAborted (snd (sortOutcomes c items)) = false /\ crError (snd (sortOutcomes c items)) = None /\ crHits (snd (sortOutcomes c items)) = [].
Proof.
  intros Hy Hitems. unfold sortOutcomes, passedOutcomes.
  set (step := fun (st : list ProbeOutcome * ChunkResult) item => _).
  enough (H : forall l st, l ⊆ items -> fst (fold_left step l st) = fst st ++ map (probeOutcome c) (List.filter prPassed l) /\
    Explained False [AProbe q y] (snd st) (snd (fold_left step l st)) /\ crAborted (snd (fold_left step l st)) = crAborted (snd st) /\
    crError (snd (fold_left step l st)) = crError (snd st) /\ crHits (snd (fold_left step l st)) = crHits (snd st)) by exact (H items ([], emptyChunk) ltac:(done)).
  induction l as [|item l IH]; intros [cs r] Hl; cbn [fold_left List.filter map fst snd].
  { rewrite app_nil_r. repeat split; auto. }
  assert (Hin : item ∈ items) by (apply Hl; by left). assert (Hl' : l ⊆ items) by set_solver.
  unfold step at 2 4 6 8 10. destruct (prPassed item) eqn:Hp; [|destruct (prLocalFailure item) eqn:Hf];
    match goal with |- context [fold_left step l ?st] => destruct (IH st Hl') as (-> & H2 & H3) end; cbn [fst snd map] in *.
  - by rewrite <- app_assoc.
  - split; [done|]. split; [|done]. by destruct H2; split.
  - split; [done|]. split; [|done].
    eapply explained_weaken; [exact id| |eapply (explained_trans _ _ [AProbe q y] _ _ _ _ id); [|exact H2]]; [set_solver|].
    apply addFailure_spec. apply Exists_cons_hd. split; [done|]. exists item. by rewrite Hitems.
Qed.

(** ** The results of a config test *)

(** A candidate has its hit, or was refuted. *)
Definition settledIn (hits : list IpListEntry) (t : list ScanAct) (c : ProbeOutcome) : Prop :=
  (exists h, h ∈ hits /\ hitOf c h) \/ Exists (refutes (entryOf c)) t.

Lemma settledIn_mono hits hits' t t' c : hits ⊆ hits' -> t ⊆ t' -> settledIn hits t c -> settledIn hits' t' c.
Proof.
  intros Hh Ht [(h & H & Hc)|H]; [left; exists h; auto|right]. apply Exists_exists in H as (x & Hx & H). apply Exists_exists. exists x. auto.
Qed.

(** The candidate that an index stands for. *)
Definition candidateAt (batch : list ProbeOutcome) (index : Z) : option ProbeOutcome :=
  if index <? 0 then None else batch !! Z.to_nat index.

Lemma candidateAt_some batch i c : candidateAt batch i = Some c <-> 0 <= i /\ batch !! Z.to_nat i = Some c.
Proof. unfold candidateAt. destruct (i <? 0) eqn:E; [split; [done|lia]|]. split; [intros; split; [lia|done]|by intros [_ ?]]. Qed.

Lemma candidateAt_nat batch k c : batch !! k = Some c -> candidateAt batch (Z.of_nat k) = Some c.
Proof. intros H. apply candidateAt_some. split; [lia|]. by rewrite Nat2Z.id. Qed.

Section UrlReply.
Context (rescan : bool) (basePort : Z) (batch : list ProbeOutcome) (q : ScanURLTestRequest) (y : UrlReply) (Hy : uyOk y = true).
Let build := uqBuild q.
Let note := AUrlTest batch q y.
Let step := applyUrlResult rescan basePort batch (sbTag2target build) (uyConnected y).

Lemma applyUrlResult_spec r reported item : item ∈ uyResults y ->
  let st := step (r, reported) item in
  Explained False [note] r (fst st) /\ crError (fst st) = crError r /\
  (forall i, i ∈ snd st -> i ∈ reported \/ sbTag2target build !! urOutboundTag item = Some i /\ exists c, candidateAt batch i = Some c /\
     (crAborted (fst st) = true \/ settledIn (crHits (fst st)) [note] c)) /\
  (forall i, sbTag2target build !! urOutboundTag item = Some i -> is_Some (candidateAt batch i) -> i ∈ snd st) /\
  reported ⊆ snd st.
Proof.
  intros Hitem. unfold step, applyUrlResult. cbv zeta.
  fold (candidateAt batch (default (-1) (sbTag2target build !! urOutboundTag item))).
  destruct (sbTag2target build !! urOutboundTag item) as [i|] eqn:Htag; cbn [from_option]; unfold id; [|cbn; split; [apply explained_refl|]; split; [done|]; split; [by left|done]].
  destruct (candidateAt batch i) as [c|] eqn:Hc; [|cbn; split; [apply explained_refl|]; split; [done|]; split; [by left|]; split; [|done]; intros j [= <-] [c' Hc']; congruence].
  destruct (existsb (Z.eqb i) reported) eqn:Hrep.
  { cbn. split; [apply explained_refl|]. split; [done|]. split; [by left|]. split; [|done]. intros ? [= <-] _. apply existsb_exists in Hrep as (x & Hx & ->%Z.eqb_eq). by apply list_elem_of_In. }
  assert (Hdone : forall r' : ChunkResult, crAborted r' = true \/ settledIn (crHits r') [note] c ->
    (forall j, j ∈ reported ++ [i] -> j ∈ reported \/ Some i = Some j /\ exists c, candidateAt batch j = Some c /\
       (crAborted r' = true \/ settledIn (crHits r') [note] c)) /\
    (forall j, Some i = Some j -> is_Some (candidateAt batch j) -> j ∈ reported ++ [i]) /\ reported ⊆ reported ++ [i]).
  { intros r' Hr. split; [|split; [intros ? [= <-] _; set_solver|set_solver]].
    intros j [Hj| ->%list_elem_of_singleton]%elem_of_app; [by left|]. right. split; [done|]. by exists c. }
  assert (Hmono : forall r', Explained False [] r r' -> Explained False [note] r r').
  { intros r' H. eapply explained_weaken; [exact id| |exact H]. set_solver. }
  destruct (isNil (urError item)) eqn:He; [|destruct (scanWorkerIsAborted (urError item)) eqn:Ha; [|destruct (existsb _ (uyConnected y)) eqn:Hup]];
    cbn [fst snd].
  - destruct (addHit_spec rescan r c (configPort basePort c) (urLatencyMs item)) as (H1 & H2 & H3 & H4).
    split; [by apply Hmono|]. split; [done|]. apply Hdone. right. left. eexists. split; [exact H2|]. by eexists _, _.
  - split; [|split; [done|apply Hdone; by left]]. split; cbn; [done|by left|by left| |done]. intros _. right; right. apply Exists_cons_hd.
    split; [done|]. left. by exists item.
  - destruct (addHit_spec rescan r c (configPort basePort c) 0) as (H1 & H2 & H3 & H4).
    split; [by apply Hmono|]. split; [done|]. apply Hdone. right. left. eexists. split; [exact H2|]. by eexists _, _.
  - assert (Hr : Exists (refutes (entryOf c)) [note]).
    { apply Exists_cons_hd. split; [done|]. exists item, c. split; [done|]. split; [exists i; split; [done|by apply candidateAt_some]|].
      split; [by intros H; rewrite H in He|]. split; [done|]. split; [|done]. intros Hin.
      assert (Ht : existsb (eqStr (urOutboundTag item)) (uyConnected y) = true); [|congruence].
      apply existsb_exists. exists (urOutboundTag item). split; [by apply list_elem_of_In|apply eqStr_refl]. }
    split; [by apply addFailure_spec|]. split; [done|]. apply Hdone. right. by right.
Qed.

Lemma applyUrlReply_spec r : let r' := applyUrlReply rescan basePort batch build y r in
  Explained False [note] r r' /\ crError r' = crError r /\
  (crAborted r' = false -> forall k c tag, batch !! k = Some c -> sbTag2target build !! tag = Some (Z.of_nat k) -> settledIn (crHits r') [note] c).
Proof.
  unfold applyUrlReply. fold step.
  enough (H : forall l st, l ⊆ uyResults y -> let st' := fold_left step l st in
    Explained False [note] (fst st) (fst st') /\ crError (fst st') = crError (fst st) /\ snd st ⊆ snd st' /\
    (forall i, i ∈ snd st' -> i ∈ snd st \/ exists item c, item ∈ l /\ sbTag2target build !! urOutboundTag item = Some i /\
       candidateAt batch i = Some c /\ (crAborted (fst st') = true \/ settledIn (crHits (fst st')) [note] c)) /\
    (forall item i, item ∈ l -> sbTag2target build !! urOutboundTag item = Some i -> is_Some (candidateAt batch i) -> i ∈ snd st')).
  { specialize (H (uyResults y) (r, []) ltac:(done)). cbv zeta in H. destruct (fold_left step (uyResults y) (r, [])) as [r1 reported] eqn:E.
    cbn [fst snd] in H. destruct H as (H1 & H2 & _ & H4 & H5). destruct (forallb _ _) eqn:Hf.
    - split; [done|]. split; [done|]. intros Ha k c tag Hk Htag. rewrite forallb_forall in Hf.
      specialize (Hf (tag, Z.of_nat k) ltac:(by apply list_elem_of_In, elem_of_map_to_list)). cbn [snd] in Hf.
      apply existsb_exists in Hf as (i & Hi & <-%Z.eqb_eq). apply list_elem_of_In in Hi.
      destruct (H4 _ Hi) as [Hn|(item & c' & Hitem & Htag' & Hc' & Hdone)]; [by apply not_elem_of_nil in Hn|].
      rewrite (candidateAt_nat _ _ _ Hk) in Hc'. injection Hc' as <-. destruct Hdone as [?|?]; [congruence|done].
    - cbn [crAborted crHits crError]. split; [|split; [exact H2|done]]. destruct H1 as [h f p a s]. split; cbn; [done|done|done| |done].
      intros _. right; right. apply Exists_cons_hd. split; [done|]. right.
      assert (Hex : existsb (fun p => negb (existsb (Z.eqb (snd p)) reported)) (map_to_list (sbTag2target build)) = true).
      { clear -Hf. induction (map_to_list _) as [|p l IH]; [done|]. cbn [forallb existsb] in *.
        destruct (existsb (Z.eqb p.2) reported); cbn [negb andb orb] in *; auto. }
      apply existsb_exists in Hex as ([tag i] & Hp & Hi). apply list_elem_of_In, elem_of_map_to_list in Hp. cbn [snd] in Hi.
      exists tag, i. split; [done|]. intros (item & Hitem & Htag & Hi0 & c & Hc).
      assert (Hin : i ∈ reported) by (eapply H5; [done|done|exists c; by apply candidateAt_some]).
      apply negb_true_iff in Hi. assert (Ht : existsb (Z.eqb i) reported = true); [|congruence].
      apply existsb_exists. exists i. split; [by apply list_elem_of_In|apply Z.eqb_refl]. }
  induction l as [|item l IH]; intros [r0 rep] Hl; cbn [fold_left fst snd].
  { split; [apply explained_refl|]. split; [done|]. split; [done|]. split; [by left|]. by intros ? ? ?%not_elem_of_nil. }
  destruct (applyUrlResult_spec r0 rep item ltac:(apply Hl; by left)) as (H1 & H2 & H3 & H4 & H5).
  destruct (step (r0, rep) item) as [r1 rep1]. cbn [fst snd] in *. destruct (IH (r1, rep1) ltac:(set_solver)) as (H6 & H7 & H8 & H9 & H10).
  cbn [fst snd] in *. split; [|split; [congruence|split; [set_solver|split]]].
  - eapply explained_weaken; [exact id| |exact (explained_trans _ _ _ _ _ _ _ id H1 H6)]. set_solver.
  - intros i Hi. destruct (H9 i Hi) as [Hr|(it & c & Hit & Hrest)]; [|right; exists it, c; split; [by right|done]].
    destruct (H3 i Hr) as [?|(Htag & c & Hc & Hdone)]; [by left|]. right. exists item, c. split; [by left|]. split; [done|]. split; [done|].
    destruct Hdone as [Ha|Hs]; [|right; eapply settledIn_mono; [apply (ex_hits _ _ _ _ H6)|done|done]]. left.
    by apply (ex_still _ _ _ _ H6).
  - intros it i [->|Hit]%elem_of_cons Htag Hc; [apply H8; by eapply H4|by eapply H10].
Qed.
End UrlReply.

Lemma addUnsupported_spec batch b l r : l ⊆ sbUnsupported b ->
  Explained False [ABuilt batch b] r (fold_left (addUnsupported batch) l r) /\
  crError (fold_left (addUnsupported batch) l r) = crError r.
Proof.
  revert r. induction l as [|i l IH]; intros r Hl; cbn [fold_left]; [split; [apply explained_refl|done]|].
  destruct (IH (addUnsupported batch r i) ltac:(set_solver)) as [H1 ->].
  enough (H : Explained False [ABuilt batch b] r (addUnsupported batch r i) /\ crError (addUnsupported batch r i) = crError r).
  { destruct H as [H2 H3]. split; [|done]. eapply explained_weaken; [exact id| |exact (explained_trans _ _ _ _ _ _ _ id H2 H1)]. set_solver. }
  unfold addUnsupported. fold (candidateAt batch i). destruct (candidateAt batch i) as [c|] eqn:Hc; [|split; [apply explained_refl|done]].
  split; [|done]. apply addFailure_spec. apply Exists_cons_hd. exists i, c. apply candidateAt_some in Hc as [? ?].
  split; [apply Hl; by left|done].
Qed.

(** Whose failures a step adds. *)
Definition failuresFrom (cs : list ProbeOutcome) (r0 r : ChunkResult) : Prop :=
  forall e, e ∈ crFailures r -> e ∈ crFailures r0 \/ exists c, c ∈ cs /\ e = entryOf c.

Lemma failuresFrom_trans cs cs' cs'' a b c : cs ⊆ cs'' -> cs' ⊆ cs'' -> failuresFrom cs a b -> failuresFrom cs' b c -> failuresFrom cs'' a c.
Proof. intros H1 H2 Hab Hbc e He. destruct (Hbc e He) as [H|(x & Hx & ->)]; [destruct (Hab e H) as [?|(x & Hx & ->)]|]; eauto. Qed.

Lemma failuresFrom_weaken cs cs' a b : cs ⊆ cs' -> failuresFrom cs a b -> failuresFrom cs' a b.
Proof. intros H Hab e He. destruct (Hab e He) as [?|(x & Hx & ->)]; eauto. Qed.

Lemma addHit_failures rescan r c p l : crFailures (addHit rescan r c p l) = crFailures r.
Proof. unfold addHit. by destruct (_ && _). Qed.

Lemma addFailure_from batch r i c : candidateAt batch i = Some c -> failuresFrom batch r (addFailure r c).
Proof.
  intros [_ Hc]%candidateAt_some e. cbn. intros [He| ->%list_elem_of_singleton]%elem_of_app; [by left|]. right. exists c.
  split; [by eapply list_elem_of_lookup_2|done].
Qed.

Lemma addUnsupported_from batch l r : failuresFrom batch r (fold_left (addUnsupported batch) l r).
Proof.
  revert r. induction l as [|i l IH]; intros r; cbn [fold_left]; [by left|].
  eapply (failuresFrom_trans batch batch); [done|done| |apply IH]. unfold addUnsupported. fold (candidateAt batch i).
  destruct (candidateAt batch i) eqn:E; [by eapply addFailure_from|by left].
Qed.

Lemma applyUrlReply_from rescan basePort batch build y r : failuresFrom batch r (applyUrlReply rescan basePort batch build y r).
Proof.
  unfold applyUrlReply. set (step := applyUrlResult _ _ _ _ _).
  enough (H : forall l st, failuresFrom batch (fst st) (fst (fold_left step l st))).
  { specialize (H (uyResults y) (r, [])). destruct (fold_left step (uyResults y) (r, [])) as [r1 rep]. by destruct (forallb _ _). }
  induction l as [|item l IH]; intros [r0 rep]; cbn [fold_left fst]; [by left|].
  eapply (failuresFrom_trans batch batch); [done|done| |apply IH]. unfold step, applyUrlResult.
  fold (candidateAt batch (default (-1) (sbTag2target build !! urOutboundTag item))).
  destruct (candidateAt batch _) as [c|] eqn:E; [|by left]. destruct (existsb _ rep); [by left|]. cbn [fst].
  destruct (isNil _); [intros e; rewrite addHit_failures; by left|]. destruct (scanWorkerIsAborted _); [by left|].
  destruct (existsb _ _); [intros e; rewrite addHit_failures; by left|by eapply addFailure_from].
Qed.

(** ** Calls to the core and to the builder *)

Definition chunkCall (a : ScanAct) : Prop :=
  match a with AProbe _ _ | AUrlTest _ _ _ | ABuilt _ _ => True | _ => ambient a end.

#[export] Instance chunkCall_actions : Actions chunkCall.
Proof. intros []; done. Qed.

Section Chunk.
Context {Q : QtChar} (W : World) (C : RunConst).

Lemma stop_spec w : wp (stop_ W C) (fun b t w' => Framed w w' /\ Forall chunkCall t /\ swStop w' = b) w.
Proof.
  unfold stop_. eapply wp_bind_with; [apply (within_tick (R := Framed) (P := chunkCall))|]. intros n t1 w1 [H1 H2]. cbv beta in *.
  apply wp_gets. by rewrite app_nil_r.
Qed.

Lemma setStop_spec w : wp (setStop W C) (fun _ t w' => Framed w w' /\ Forall chunkCall t /\ swStop w' = true) w.
Proof.
  unfold setStop. eapply wp_bind_with; [apply (within_tick (R := Framed) (P := chunkCall))|]. intros n t1 w1 [H1 H2]. cbv beta in *.
  apply wp_modify; [done|]. rewrite app_nil_r. split; [|done]. eapply sr_trans; [exact H1|]. by split; [split| | |].
Qed.

Lemma within_stop {R} {RS : StepRel R} {P} {PA : Actions P} : within R P (stop_ W C).
Proof. unfold stop_. within_auto. Qed.

Lemma within_persist {R} {RS : StepRel R} {P} {PA : Actions P} : within R P (persist_ W C).
Proof. unfold persist_. within_auto. Qed.

Lemma within_underMutex {R} {RS : StepRel R} {P} {PA : Actions P} f :
  (forall w, R w (f w) /\ swOut (f w) = swOut w) -> within R P (underMutex W C f).
Proof. intros H. unfold underMutex. within_auto. by apply within_modify. Qed.

Lemma framed_onLive f w : Framed w (onLive f w) /\ swOut (onLive f w) = swOut w.
Proof. done. Qed.

Lemma framed_stage stage w :
  let w' := if decide (lvStage (swLive w) = stage) then w else onLive (lv_Stage stage) w in Framed w w' /\ swOut w' = swOut w.
Proof. cbv zeta. destruct (decide _); [split; [apply sr_refl|done]|apply framed_onLive]. Qed.

Section Framed.
Context {P : ScanAct -> Prop} {PA : Actions P}.

Lemma framed_setStop : within Framed P (setStop W C).
Proof. unfold setStop. within_auto. apply within_modify. intros w. split; [|done]. by split; [split| | |]. Qed.

Lemma framed_setStage stage : within Framed P (setStage W C stage).
Proof. apply within_underMutex, framed_stage. Qed.

Lemma framed_setTested a b : within Framed P (setTested W C a b).
Proof. apply within_underMutex. intros w. apply framed_onLive. Qed.

Lemma framed_pushLog line : within Framed P (pushLog W C line).
Proof. apply within_underMutex. intros w. apply framed_onLive. Qed.

Lemma framed_scan : within Framed P scan_.
Proof. apply within_gets. Qed.

Lemma framed_rescanPass : within Framed P rescanPass.
Proof. unfold rescanPass. within_auto. apply framed_scan. Qed.
End Framed.

Lemma ScanProbe_spec q w : wp (ScanProbe W C q) (fun y t w' => Framed w w' /\ Forall chunkCall t /\ AProbe q y ∈ t /\ exists n, y = swProbe W n q) w.
Proof.
  unfold ScanProbe. eapply wp_bind_with; [apply (within_tick (R := Framed) (P := chunkCall))|]. intros n t1 w1 [H1 H2]. cbv beta zeta in *.
  apply wp_bind, wp_note, wp_ret. cbv beta. rewrite app_nil_r. split; [eapply sr_trans; [exact H1|apply sr_out]|].
  split; [apply Forall_app_2; [done|by repeat constructor]|]. split; [set_solver|by exists n].
Qed.

Lemma ScanURLTest_spec batch q w :
  wp (ScanURLTest W C batch q) (fun y t w' => Framed w w' /\ Forall chunkCall t /\ AUrlTest batch q y ∈ t) w.
Proof.
  unfold ScanURLTest. eapply wp_bind_with; [apply (within_tick (R := Framed) (P := chunkCall))|]. intros n t1 w1 [H1 H2]. cbv beta zeta in *.
  apply wp_bind, wp_note, wp_ret. cbv beta. rewrite app_nil_r. split; [eapply sr_trans; [exact H1|apply sr_out]|].
  split; [apply Forall_app_2; [done|by repeat constructor]|set_solver].
Qed.

(** A call that says that the scan was stopped sets the flag. *)
Lemma whenStop_spec b w : wp (when b (setStop W C)) (fun _ t w' => Framed w w' /\ Forall chunkCall t) w.
Proof. apply within_when, framed_setStop. Qed.
End Chunk.

#[export] Hint Resolve @within_stop @within_persist @framed_setStop @framed_setStage @framed_setTested @framed_pushLog
  @framed_scan @framed_rescanPass : scanrun.

(** ** The config test *)

Section ConfigTest.
Context {Q : QtChar} (W : World) (C : RunConst).

(** Accounted for: a hit, refuted, or never given an outbound. *)
Definition accounted (hits : list IpListEntry) (t : list ScanAct) (c : ProbeOutcome) : Prop :=
  settledIn hits t c \/ Exists (leftOut c) t.

Lemma accounted_mono hits hits' t t' c : hits ⊆ hits' -> t ⊆ t' -> accounted hits t c -> accounted hits' t' c.
Proof.
  intros Hh Ht [H|H]; [left; by eapply settledIn_mono|right]. apply Exists_exists in H as (x & Hx & H). apply Exists_exists. exists x. auto.
Qed.

Definition stopped (w : ScanWorker) : Prop := swStop w = true.

Lemma framed_stopped w w' : Framed w w' -> stopped w -> stopped w'.
Proof. intros H. apply (on_stop _ _ (fr_onward _ _ H)). Qed.

(** The spec of testBatches from [rest] and [r]. *)
Definition batchesPost (rest : list ProbeOutcome) (r : ChunkResult) (w : ScanWorker) (o : ChunkResult * option Message)
    (t : list ScanAct) (w' : ScanWorker) : Prop :=
  Framed w w' /\ Forall chunkCall t /\ (Explained (stopped w') t r (fst o) /\ failuresFrom rest r (fst o)) /\ crError (fst o) = crError r /\
  (snd o = None -> crAborted (fst o) = false -> Forall (accounted (crHits (fst o)) t) rest).

Lemma explained_abort S t r : S \/ Exists cutShort t -> Explained S t r (cr_Aborted true r).
Proof. intros HS. split; cbn; auto. Qed.

Lemma tagged_dec (m : gmap qstr Z) n : (exists tag, m !! tag = Some n) \/ forall tag, m !! tag <> Some n.
Proof.
  destruct (existsb (fun p => Z.eqb (snd p) n) (map_to_list m)) eqn:E.
  - left. apply existsb_exists in E as ([tag i] & Hin & Hi%Z.eqb_eq). cbn [snd] in Hi. subst i. exists tag. by apply elem_of_map_to_list, list_elem_of_In.
  - right. intros tag Htag. assert (H : existsb (fun p => Z.eqb (snd p) n) (map_to_list m) = true); [|congruence].
    apply existsb_exists. exists (tag, n). split; [by apply list_elem_of_In, elem_of_map_to_list|apply Z.eqb_refl].
Qed.

(** One batch that was built and answered. *)
Lemma batch_accounted rescan basePort batch q y r : uyOk y = true -> sbBuilt (uqBuild q) = true ->
  let r' := applyUrlReply rescan basePort batch (uqBuild q) y r in
  crAborted r' = false -> Forall (accounted (crHits r') [ABuilt batch (uqBuild q); AUrlTest batch q y]) batch.
Proof.
  intros Hy Hb r' Ha. apply Forall_forall. intros c Hc. apply list_elem_of_lookup in Hc as [k Hk].
  destruct (tagged_dec (sbTag2target (uqBuild q)) (Z.of_nat k)) as [[tag Htag]|Hno].
  - destruct (applyUrlReply_spec rescan basePort batch q y Hy r) as (_ & _ & H). left.
    eapply settledIn_mono; [done| |by eapply H]. set_solver.
  - right. apply Exists_cons_hd. exists k. auto.
Qed.

Lemma batchesPost_nil r w : batchesPost [] r w (r, None) [] w.
Proof. split; [apply sr_refl|]. split; [constructor|]. split; [split; [apply explained_refl|by left]|]. split; [done|]. intros _ _. constructor. Qed.

Lemma testBatches_spec t fuel rest r w : 1 <= wtSubBatch t -> (length rest <= fuel)%nat ->
  wp (testBatches W C fuel t rest r) (batchesPost rest r w) w.
Proof.
  intros Hsub. revert rest r w. induction fuel as [|fuel IH]; intros rest r w Hfuel.
  { destruct rest; [|cbn in Hfuel; lia]. apply wp_ret, batchesPost_nil. }
  destruct rest as [|c0 rest]; [apply wp_ret, batchesPost_nil|]. cbn [testBatches].
  eapply wp_bind_with; [apply stop_spec|]. intros s t1 w1 (F1 & P1 & Hs). cbv beta. destruct s.
  { apply wp_ret. rewrite app_nil_r. split; [done|]. split; [done|]. split; [split; [apply explained_abort; by left|by left]|]. done. }
  eapply wp_bind_with; [apply (within_tick (R := Framed) (P := chunkCall))|]. intros now t2 w2 [F2 P2]. cbv beta zeta.
  set (all := c0 :: rest) in *. set (batch := take _ all). set (rest' := drop _ all). set (build := swBuild W now _).
  apply wp_bind, wp_note.
  assert (F3 : Framed w (outSw (ABuilt batch build) w2)) by (eapply sr_trans; [exact F1|]; eapply sr_trans; [exact F2|apply sr_out]).
  destruct (sbError build) as [error|].
  { apply wp_ret. split; [done|]. split; [repeat (apply Forall_app_2; [done|]); by repeat constructor|]. split; [split; [apply explained_refl|by left]|]. done. }
  destruct (addUnsupported_spec batch build (sbUnsupported build) r ltac:(done)) as [E1 R1].
  pose proof (addUnsupported_from batch (sbUnsupported build) r) as G1. set (r1 := fold_left _ _ r) in *.
  assert (Hrest : (length rest' <= fuel)%nat) by (unfold rest'; rewrite length_drop; unfold all in *; cbn [length] in *; lia).
  assert (Hall : batch ++ rest' = all) by apply take_drop.
  assert (Hb1 : batch ⊆ all) by (rewrite <- Hall; set_solver). assert (Hb2 : rest' ⊆ all) by (rewrite <- Hall; set_solver).
  destruct (negb (sbBuilt build) || isNil (sbOutboundTags build)) eqn:Hb.
  - eapply wp_mono; [apply IH; exact Hrest|]. intros o t4 w4 (F4 & P4 & [E4 G4] & R4 & A4). cbv beta.
    split; [by eapply sr_trans|]. split; [repeat (apply Forall_app_2; [done|]); by repeat constructor|].
    split; [split|split; [congruence|]].
    + eapply explained_weaken; [exact id| |eapply (explained_trans False); [done|exact E1|exact E4]]. set_solver.
    + exact (failuresFrom_trans _ _ _ _ _ _ Hb1 Hb2 G1 G4).
    + intros Ho Ha. rewrite <- Hall. apply Forall_app_2.
      * apply Forall_forall. intros c Hc. right. apply Exists_app. right. apply Exists_app. right. apply Exists_cons_hd.
        apply list_elem_of_lookup in Hc as [k Hk]. exists k. split; [done|].
        apply orb_true_iff in Hb as [Hb|Hb]; [left; by apply negb_true_iff|right; left; by destruct (sbOutboundTags build)].
      * eapply Forall_impl; [by apply A4|]. intros c. apply accounted_mono; set_solver.
  - apply orb_false_iff in Hb as [Hb Ht]. apply negb_false_iff in Hb.
    eapply wp_bind_with; [apply ScanURLTest_spec|]. intros y t4 w4 (F4 & P4 & Hy4). cbv beta. destruct (uyOk y) eqn:Hy; cbn [negb].
    + eapply wp_bind_with; [apply (framed_rescanPass (P := chunkCall))|]. intros rescan t5 w5 [F5 P5]. cbv beta.
      eapply wp_bind_with; [apply (within_gets (R := Framed) (P := chunkCall))|]. intros basePort t6 w6 [F6 P6]. cbv beta.
      set (q := mkUrlRequest build _ _ _) in *.
      destruct (applyUrlReply_spec rescan basePort batch q y Hy r1) as (E5 & R5 & _).
      pose proof (batch_accounted rescan basePort batch q y r1 Hy Hb) as B5. cbv zeta in B5. change (uqBuild q) with build in *.
      eapply wp_mono; [apply IH; exact Hrest|]. intros o t7 w7 (F7 & P7 & [E7 G7] & R7 & A7). cbv beta.
      split; [repeat (eapply sr_trans; [eassumption|]); apply sr_refl|].
      split; [repeat (apply Forall_app_2; [first [done|by repeat constructor]|]); done|]. split; [split|split; [congruence|]].
      * eapply explained_weaken; [exact id| |eapply (explained_trans False); [done|exact E1|eapply (explained_trans False); [done|exact E5|exact E7]]].
        set_solver.
      * eapply (failuresFrom_trans _ _ _ _ _ _ Hb1 Hb2); [|exact G7].
        exact (failuresFrom_trans batch batch batch _ _ _ ltac:(done) ltac:(done) G1 (applyUrlReply_from rescan basePort batch build y r1)).
      * intros Ho Ha. specialize (A7 Ho Ha). rewrite <- Hall. apply Forall_app_2; [|eapply Forall_impl; [exact A7|]; intros c; apply accounted_mono; set_solver].
        assert (Ha5 : crAborted (applyUrlReply rescan basePort batch build y r1) = false).
        { destruct (crAborted (applyUrlReply rescan basePort batch build y r1)) eqn:Hx; [|done]. rewrite (ex_still _ _ _ _ E7 Hx) in Ha. done. }
        eapply Forall_impl; [by apply B5|]. intros c. apply accounted_mono; [apply (ex_hits _ _ _ _ E7)|set_solver].
    + eapply wp_bind_with; [apply whenStop_spec|]. intros [] t5 w5 [F5 P5]. cbv beta.
      eapply wp_bind_with; [apply stop_spec|]. intros s t6 w6 (F6 & P6 & Hs6). cbv beta.
      assert (F : Framed w w6) by (repeat (eapply sr_trans; [eassumption|]); apply sr_refl).
      assert (PP : Forall chunkCall (t1 ++ t2 ++ [ABuilt batch build] ++ t4 ++ t5 ++ t6 ++ [])).
      { rewrite app_nil_r. repeat (apply Forall_app_2; [first [done|by repeat constructor]|]). done. }
      assert (E : Explained (stopped w6) (t1 ++ t2 ++ [ABuilt batch build] ++ t4 ++ t5 ++ t6 ++ []) r r1).
      { eapply explained_weaken; [|  |exact E1]; [done|set_solver]. }
      destruct s; apply wp_ret.
      * split; [done|]. split; [done|]. split; [split; [|exact (failuresFrom_weaken _ _ _ _ Hb1 G1)]|split; [done|done]].
        eapply (explained_weaken _ _ ((t1 ++ t2 ++ [ABuilt batch build] ++ t4 ++ t5 ++ t6 ++ []) ++ [])); [exact id|by rewrite app_nil_r|].
        eapply (explained_trans _ _ _ []); [exact id|exact E|]. apply explained_abort. by left.
      * split; [done|]. split; [done|]. split; [split; [exact E|exact (failuresFrom_weaken _ _ _ _ Hb1 G1)]|]. split; [done|done].
Qed.

Lemma subBatch_pos s : 1 <= wtSubBatch (scanWorkerConfigTest C s).
Proof. unfold scanWorkerConfigTest. destruct (isKind s); cbn [wtSubBatch]; lia. Qed.

Lemma testConfigs_spec cs r w : wp (testConfigs W C cs r) (batchesPost cs r w) w.
Proof.
  unfold testConfigs. eapply wp_bind_with; [apply (framed_setStage W C (P := chunkCall))|]. intros _ t1 w1 [F1 P1]. cbv beta.
  eapply wp_bind_with; [apply (framed_pushLog W C (P := chunkCall))|]. intros _ t2 w2 [F2 P2]. cbv beta.
  eapply wp_bind_with; [apply (within_gets (R := Framed) (P := chunkCall))|]. intros s t3 w3 [F3 P3]. cbv beta.
  eapply wp_mono; [apply testBatches_spec; [apply subBatch_pos|done]|]. intros o t4 w4 (F4 & P4 & [E4 G4] & R4 & A4). cbv beta.
  split; [repeat (eapply sr_trans; [eassumption|]); apply sr_refl|]. split; [repeat (apply Forall_app_2; [done|]); done|].
  split; [split; [eapply explained_weaken; [exact id| |exact E4]; set_solver|exact G4]|]. split; [done|].
  intros Ho Ha. eapply Forall_impl; [by apply A4|]. intros c. apply accounted_mono; set_solver.
Qed.

(** ** A chunk *)

(** The position a chunk reached, with what became of what passed. *)
Definition probedTo (spec : ScanTargetSpec) (chunkStart next : Z) (config : ScanConfig) (hits : list IpListEntry) (t : list ScanAct) : Prop :=
  exists q y, AProbe q y ∈ t /\ pqSpec q = spec /\ pqCursor q = chunkStart /\ answered y /\ next = Z.max chunkStart (pyNextCursor y) /\
    Forall (accounted hits t) (passedOutcomes config (pyResults y)).

Lemma probedTo_mono spec a n config hits hits' t t' : hits ⊆ hits' -> t ⊆ t' -> probedTo spec a n config hits t -> probedTo spec a n config hits' t'.
Proof.
  intros Hh Ht (q & y & H1 & H2 & H3 & H4 & H5 & H6). exists q, y. repeat split; try done; [by apply Ht|apply H4|apply H4|].
  eapply Forall_impl; [exact H6|]. intros c. by apply accounted_mono.
Qed.

(** A chunk that moves the cursor: no error, and what it was cut short of, if
    anything, is not what passed the probe. *)
Definition moves (r : ChunkResult) : Prop := crError r = None /\ (rcConfigPhase C = true -> crAborted r = false).

(** The core was asked about [spec] and answered about this address and port. *)
Definition reported (spec : ScanTargetSpec) (e : IpListEntry) : Prop :=
  exists n q item, pqSpec q = spec /\ item ∈ pyResults (swProbe W n q) /\ e = scanWorkerEntry (prAddress item) (prPort item) 0.

Record ChunkPost (spec : ScanTargetSpec) (chunkStart next0 : Z) (w : ScanWorker) (o : ChunkResult * Z) (t : list ScanAct) (w' : ScanWorker) : Prop := {
  cp_framed : Framed w w';
  cp_calls : Forall chunkCall t;
  cp_explained : Explained (stopped w') t emptyChunk (fst o);
  cp_reported : forall e, e ∈ crFailures (fst o) -> reported spec e;
  cp_next : moves (fst o) -> snd o = next0 \/ probedTo spec chunkStart (snd o) (isConfig (swScan w)) (crHits (fst o)) t
}.

Lemma explained_setError S t r0 r e : Explained S t r0 r -> Explained S t r0 (cr_Error e r).
Proof. by intros [h f p a s]; split. Qed.

(** A probe that failed proves nothing, but what passed is kept. *)
Lemma probeFailed_spec rescan config q y t w r0 :
  sortOutcomes config (if pyOk y then pyResults y else []) = r0 -> AProbe q y ∈ t ->
  let r := cr_LocalFailures [] (cr_Failures [] (snd r0)) in
  Explained (stopped w) t emptyChunk (if rcConfigPhase C then r else addProbeHits rescan (fst r0) r).
Proof.
  intros Hr0 Hq r.
  assert (Hr : Explained (stopped w) [] emptyChunk r /\ crHits r = []).
  { subst r r0. unfold sortOutcomes. set (step := fun (st : list ProbeOutcome * ChunkResult) item => _).
    enough (H : forall l st, crReplaced (snd st) = [] /\ crAborted (snd st) = false /\ crHits (snd st) = [] ->
      let st' := fold_left step l st in crReplaced (snd st') = [] /\ crAborted (snd st') = false /\ crHits (snd st') = []).
    { destruct (H (if pyOk y then pyResults y else []) ([], emptyChunk) ltac:(done)) as (H1 & H2 & H3). split; [|exact H3].
      split; cbn; [set_solver|by intros e ?%not_elem_of_nil|rewrite H1; by intros e ?%not_elem_of_nil|by rewrite H2|done]. }
    induction l as [|item l IH]; intros [cs r] H; [done|]. apply IH. unfold step. cbn [snd] in *. by destruct (prPassed item), (prLocalFailure item). }
  destruct Hr as [Hr _]. destruct (rcConfigPhase C); [eapply explained_weaken; [exact id| |exact Hr]; set_solver|].
  destruct (addProbeHits_spec rescan (fst r0) r) as [H1 _].
  eapply explained_weaken; [exact id| |exact (explained_trans _ _ _ _ _ _ _ id Hr (explained_weaken _ _ _ [] _ _ (False_ind _) ltac:(done) H1))].
  set_solver.
Qed.

(** Every failure of a probe, and every candidate, is an address it answered for. *)
Definition answeredFor (items : list ScanProbeResult) (e : IpListEntry) : Prop :=
  exists item, item ∈ items /\ e = scanWorkerEntry (prAddress item) (prPort item) 0.

Lemma passed_answeredFor config items c : c ∈ passedOutcomes config items -> answeredFor items (entryOf c).
Proof.
  unfold passedOutcomes. intros (item & <- & Hi)%list_elem_of_In%in_map_iff. apply list_elem_of_In, filter_elem in Hi as [Hi _]. by exists item.
Qed.

Lemma sorted_answeredFor config items e : e ∈ crFailures (snd (sortOutcomes config items)) -> answeredFor items e.
Proof.
  unfold sortOutcomes. set (step := fun (st : list ProbeOutcome * ChunkResult) item => _).
  enough (H : forall l st, l ⊆ items -> (forall e, e ∈ crFailures (snd st) -> answeredFor items e) ->
    forall e, e ∈ crFailures (snd (fold_left step l st)) -> answeredFor items e) by (apply (H items ([], emptyChunk)); [done|cbn; intros x Hx; by apply not_elem_of_nil in Hx]).
  induction l as [|item l IH]; intros [cs r] Hl Hst; [done|]. cbn [fold_left]. apply IH; [set_solver|].
  unfold step. destruct (prPassed item); [done|]. destruct (prLocalFailure item); [done|].
  cbn. intros x [Hx| ->%list_elem_of_singleton]%elem_of_app; [by apply Hst|]. exists item. split; [apply Hl; by left|done].
Qed.

Lemma explained_setAborted (S : Prop) t r0 r b : (b = true -> S \/ Exists cutShort t) -> crAborted r0 = false ->
  Explained S t r0 r -> Explained S t r0 (cr_Aborted b r).
Proof. intros Hb H0 [h f p a s]. split; cbn; auto. by rewrite H0. Qed.

(** The answer counts: what runChunk does from there. *)
Lemma answeredChunk_spec spec chunkStart q y config rescan next0 w0 t0 w : isConfig (swScan w0) = config -> Framed w0 w -> Forall chunkCall t0 ->
  AProbe q y ∈ t0 -> pqSpec q = spec -> pqCursor q = chunkStart -> answered y -> (exists n, y = swProbe W n q) ->
  let sorted := sortOutcomes config (pyResults y) in
  let next := Z.max chunkStart (pyNextCursor y) in
  let r := cr_Aborted (pyAborted y) (snd sorted) in
  wp (if negb (rcConfigPhase C) then ret (addProbeHits rescan (fst sorted) r, next)
      else if isNil (fst sorted) then ret (r, next)
      else s ← (if crAborted r then ret true else stop_ W C);
           if (s : bool) then ret (cr_Aborted true r, next)
           else tested ← testConfigs W C (fst sorted) r; ret (cr_Error (snd tested) (fst tested), next))
    (fun o t w' => ChunkPost spec chunkStart next0 w0 o (t0 ++ t) w') w.
Proof.
  intros Hconfig F0 P0 Hq Hspec Hcur Hy [n Hn] sorted next r. subst sorted.
  destruct (sortOutcomes_spec config (pyResults y) q y Hy eq_refl) as (Hc & E0 & A0 & R0 & H0).
  set (r0 := snd (sortOutcomes config (pyResults y))) in *. rewrite Hc.
  assert (E : forall S t, AProbe q y ∈ t -> Explained S t emptyChunk r).
  { intros S t Ht. apply explained_setAborted; [|done|eapply explained_weaken; [| |exact E0]; [done|set_solver]].
    intros Ha. right. apply Exists_exists. exists (AProbe q y). by repeat split; try apply Hy. }
  assert (Hmoves : forall hits t, AProbe q y ∈ t -> Forall (accounted hits t) (passedOutcomes config (pyResults y)) ->
    probedTo spec chunkStart next (isConfig (swScan w0)) hits t).
  { intros hits t Ht Hall. exists q, y. rewrite Hconfig. by repeat split; try apply Hy. }
  assert (Hans : forall e, answeredFor (pyResults y) e -> reported spec e).
  { intros e (item & Hitem & ->). exists n, q, item. by rewrite <- Hn. }
  assert (Hrep : forall e, e ∈ crFailures r -> reported spec e) by (intros e He; apply Hans; exact (sorted_answeredFor config _ e He)).
  destruct (rcConfigPhase C) eqn:Hphase; cbn [negb].
  - destruct (isNil (passedOutcomes config (pyResults y))) eqn:Hnil.
    { apply wp_ret. rewrite app_nil_r. split; [done|done|by apply E|done|]. intros _. right. apply Hmoves; [done|].
      by destruct (passedOutcomes config (pyResults y)). }
    apply wp_bind.
    assert (Hstop : wp (if crAborted r then ret true else stop_ W C) (fun b t w' => Framed w w' /\ Forall chunkCall t /\
      (b = true -> crAborted r = true \/ stopped w')) w).
    { destruct (crAborted r); [apply wp_ret; repeat split; auto; apply sr_refl|]. eapply wp_mono; [apply stop_spec|].
      intros b t w' (F & P & Hb). cbv beta. split; [done|]. split; [done|]. intros ->. by right. }
    eapply wp_mono; [exact Hstop|]. intros b t1 w1 (F1 & P1 & Hb). cbv beta. destruct b.
    + apply wp_ret. rewrite app_nil_r. split; cbn [fst snd]; [by eapply sr_trans|by apply Forall_app_2| |done|intros [_ Hm]; by specialize (Hm Hphase)].
      assert (E1 : Explained (stopped w1) (t0 ++ t1) emptyChunk r) by (apply E; set_solver).
      apply explained_setAborted; [|done|done]. intros _. destruct (Hb eq_refl) as [Ha|Hs]; [|by left].
      destruct (ex_aborted _ _ _ _ E1 Ha) as [?|H]; [done|exact H].
    + eapply wp_bind_with; [apply testConfigs_spec|]. intros o t2 w2 (F2 & P2 & [E2 G2] & R2 & A2). cbv beta. apply wp_ret. rewrite !app_nil_r.
      split; cbn [fst snd]; [by repeat (eapply sr_trans; [eassumption|]); apply sr_refl|by repeat apply Forall_app_2| | |].
      * apply explained_setError. eapply explained_weaken; [exact id| |eapply (explained_trans False _ t0 t2); [done|by apply E|exact E2]]. set_solver.
      * intros e He. destruct (G2 e He) as [?|(c & Hin & ->)]; [by apply Hrep|]. by eapply Hans, passed_answeredFor.
      * intros [Ho Ha]. right. apply Hmoves; [set_solver|]. cbn [crHits cr_Error].
        eapply Forall_impl; [apply A2; [done|by apply Ha]|]. intros c. apply accounted_mono; [done|set_solver].
  - apply wp_ret. rewrite app_nil_r. destruct (addProbeHits_spec rescan (passedOutcomes config (pyResults y)) r) as (H1 & H2 & _ & _ & H3).
    split; cbn [fst snd]; [done|done| |by rewrite H3|].
    + eapply explained_weaken; [exact id| |eapply (explained_trans False _ t0 []); [done|by apply E|]]; [by rewrite app_nil_r|].
      eapply explained_weaken; [| |exact H1]; done.
    + intros _. right. apply Hmoves; [done|]. eapply Forall_impl; [exact H2|]. intros c Hh. left. left. eexists. split; [exact Hh|]. by eexists _, _.
Qed.

Lemma runChunk_spec spec chunkStart maxTargets next0 w :
  wp (runChunk W C spec chunkStart maxTargets next0) (ChunkPost spec chunkStart next0 w) w.
Proof.
  unfold runChunk. apply wp_bind, wp_gets. cbv beta zeta.
  eapply wp_bind_with; [apply (framed_setStage W C (P := chunkCall))|]. intros _ t1 w1 [F1 P1]. cbv beta.
  set (q := fillProbeRequest _ _ _ _). eapply wp_bind_with; [apply ScanProbe_spec|]. intros y t2 w2 (F2 & P2 & Hq & Hn). cbv beta.
  assert (F : Framed w w2) by (by eapply sr_trans).
  destruct (sortOutcomes (isConfig (swScan w)) (if pyOk y then pyResults y else [])) as [cs r] eqn:Hs.
  destruct (negb (pyOk y) || negb (isNil (pyError y))) eqn:Hy.
  - pose proof (fun w' => probeFailed_spec (scanRescanPass (swScan w)) _ q y (t1 ++ t2) w' _ Hs ltac:(set_solver)) as Hfail. cbv zeta in Hfail. cbn [fst snd] in Hfail.
    assert (Hno : forall e, e ∉ crFailures (if rcConfigPhase C then cr_LocalFailures [] (cr_Failures [] r)
      else addProbeHits (scanRescanPass (swScan w)) cs (cr_LocalFailures [] (cr_Failures [] r)))).
    { intros e. destruct (rcConfigPhase C); [apply not_elem_of_nil|].
      destruct (addProbeHits_spec (scanRescanPass (swScan w)) cs (cr_LocalFailures [] (cr_Failures [] r))) as (_ & _ & _ & _ & ->).
      apply not_elem_of_nil. }
    eapply wp_bind_with; [apply whenStop_spec|]. intros _ t3 w3 [F3 P3]. cbv beta.
    eapply wp_bind_with; [apply stop_spec|]. intros b t4 w4 (F4 & P4 & Hb). cbv beta.
    assert (F' : Framed w w4) by (by repeat (eapply sr_trans; [eassumption|]); apply sr_refl).
    destruct b; apply wp_ret; cbn [app]; split; cbn [fst snd]; try exact F'; try (by repeat apply Forall_app_2); try (intros _; by left); try (intros e He; by destruct (Hno e He)).
    + apply explained_setAborted; [by left|done|]. eapply explained_weaken; [exact id| |apply (Hfail w4)]. set_solver.
    + apply explained_setError. eapply explained_weaken; [exact id| |apply (Hfail w4)]. set_solver.
  - apply orb_false_iff in Hy as [Hok Herr]. apply negb_false_iff in Hok, Herr.
    assert (Ha : answered y) by (split; [done|by destruct (pyError y)]). rewrite Hok in Hs.
    pose proof (answeredChunk_spec spec chunkStart q y (isConfig (swScan w)) (scanRescanPass (swScan w)) next0 w (t1 ++ t2) w2
      eq_refl F ltac:(by apply Forall_app_2) ltac:(set_solver) eq_refl eq_refl Ha Hn) as H.
    rewrite Hs in H. cbv zeta in H. cbn [fst snd] in H. eapply wp_mono; [exact H|]. intros o t w' H'. cbv beta. cbn [app]. by rewrite app_assoc.
Qed.
End ConfigTest.
