(* ===== verification/ScanRounds.v ===== *)
(** The rounds of a scan: the retries of a rescan, the network check and the
    writes, and what of it the record of a run shows. *)
From stdpp Require Import base list gmap strings.
From Stdlib Require Import ZArith Lia Bool.
From S2P Require Import Prelude IpListParse IpScan IpListStore ScanWorker ScanRun ScanRunFacts ScanChunkFacts.

Open Scope scan_scope.

(** ** Retries *)

(** The entry was refuted at least [n] times. *)
Definition timesRefuted (n : nat) (e : IpListEntry) (t : list ScanAct) : Prop :=
  exists l, l `sublist_of` t /\ length l = n /\ Forall (refutes e) l.

Lemma timesRefuted_once e t : Exists (refutes e) t -> timesRefuted 1 e t.
Proof.
  intros (a & Ha & He)%Exists_exists. exists [a]. split; [by apply singleton_sublist_l|]. split; [done|by repeat constructor].
Qed.

Lemma timesRefuted_app n m e t t' : timesRefuted n e t -> timesRefuted m e t' -> timesRefuted (n + m) e (t ++ t').
Proof.
  intros (l & H1 & H2 & H3) (k & K1 & K2 & K3). exists (l ++ k). split; [by apply sublist_app|]. rewrite length_app.
  split; [lia|by apply Forall_app_2].
Qed.

Lemma timesRefuted_weaken n m e t t' : (m <= n)%nat -> t `sublist_of` t' -> timesRefuted n e t -> timesRefuted m e t'.
Proof.
  intros Hmn Ht (l & H1 & H2 & H3). exists (take m l). split; [|split; [rewrite length_take; lia|by apply Forall_take]].
  transitivity l; [apply sublist_take|by transitivity t].
Qed.

(** What the core promises of its answers: addresses of single hosts, and for a
    list of hosts and ports only those (libcore.proto: port mode list). *)
Record HonestCore (W : World) : Prop := {
  hc_hosts : forall n q item, item ∈ pyResults (swProbe W n q) ->
    IsHostCidr (cidr (scanWorkerEntry (prAddress item) (prPort item) 0)) = true;
  hc_listed : forall n q item, tsPortMode (pqSpec q) = u "list" -> tsPorts (pqSpec q) = [] ->
    Forall (fun t => IsHostCidr (fst t) = true) (tsEntries (pqSpec q)) -> item ∈ pyResults (swProbe W n q) ->
    target (scanWorkerEntry (prAddress item) (prPort item) 0) ∈ tsEntries (pqSpec q)
}.

Definition hostFailure (e : IpListEntry) : Prop := IsHostCidr (cidr e) = true /\ latencyMs e = 0.

Section Rounds.
Context {Q : QtChar} (W : World) (C : RunConst).

Lemma reported_host spec e : HonestCore W -> reported W spec e -> hostFailure e.
Proof. intros HC (n & q & item & _ & Hi & ->). split; [by eapply hc_hosts|done]. Qed.

(** A retry only hears of what it asked for. *)
Lemma reported_retry l e : HonestCore W -> Forall hostFailure l -> reported W (scanWorkerBuildSpec l [] (u "list") false 0) e -> e ∈ l.
Proof.
  intros HC Hl (n & q & item & Hq & Hi & ->). set (e := scanWorkerEntry _ _ _) in *.
  assert (Ht : target e ∈ map target l).
  { pose proof (hc_listed W HC n q item) as H. rewrite Hq in H. apply H; [done|done| |done]. cbn [tsEntries scanWorkerBuildSpec].
    apply Forall_forall. intros t (x & <- & Hx)%list_elem_of_In%in_map_iff. rewrite Forall_forall in Hl. by apply Hl, list_elem_of_In. }
  apply list_elem_of_In, in_map_iff in Ht as (x & Hx & Hin). apply list_elem_of_In in Hin. rewrite Forall_forall in Hl. destruct (Hl x Hin) as [_ H0].
  enough (x = e) as <- by done. destruct x as [c p l0]. unfold e, target in *. cbn in *. injection Hx as -> ->. by rewrite H0.
Qed.

Lemma framed_retryDelay {P} {PA : Actions P} n : within Framed P (retryDelay W C n).
Proof. induction n as [|n IH]; cbn [retryDelay]; [apply within_ret|]. within_auto. Qed.

Record RoundsPost (n : nat) (r : ChunkResult) (chunkStart next : Z) (w : ScanWorker) (o : ChunkResult * Z) (t : list ScanAct) (w' : ScanWorker) : Prop := {
  rp_framed : Framed w w';
  rp_calls : Forall chunkCall t;
  rp_hits : crHits r ⊆ crHits (fst o);
  rp_failures : HonestCore W -> Forall hostFailure (crFailures r) -> forall e, e ∈ crFailures (fst o) -> e ∈ crFailures r /\ timesRefuted n e t;
  rp_replaced : forall e, e ∈ crReplaced (fst o) -> e ∈ crReplaced r \/ exists h, h ∈ crHits (fst o) /\ cidr h = cidr e /\ port h <> port e;
  rp_aborted : crAborted (fst o) = true -> crAborted r = true \/ stopped w';
  rp_error : crError (fst o) = crError r;
  rp_next : snd o = next \/ snd o = chunkStart
}.

Lemma roundsPost_cleared n r chunkStart next w t w' b p : Framed w w' -> Forall chunkCall t -> (b = true -> crAborted r = true \/ stopped w') ->
  p = next \/ p = chunkStart -> RoundsPost n r chunkStart next w (cr_Aborted b (cr_Failures [] r), p) t w'.
Proof. intros F P Hb Hp. split; cbn; auto. by intros _ _ e ?%not_elem_of_nil. Qed.

Lemma confirmRounds_spec n r chunkStart next w :
  wp (confirmRounds W C n r chunkStart next) (RoundsPost n r chunkStart next w) w.
Proof.
  revert r w. induction n as [|n IH]; intros r w; cbn [confirmRounds].
  { apply wp_ret. split; cbn; auto; [apply sr_refl|]. intros _ _ e He. split; [done|]. exists []. by split. }
  destruct (isNil (crFailures r)) eqn:Hnil.
  { apply wp_ret. split; cbn; auto; [apply sr_refl|]. destruct (crFailures r); [|done]. by intros _ _ e ?%not_elem_of_nil. }
  eapply wp_bind_with; [apply (framed_retryDelay (P := chunkCall))|]. intros _ t1 w1 [F1 P1]. cbv beta.
  eapply wp_bind_with; [apply stop_spec|]. intros s t2 w2 (F2 & P2 & Hs). cbv beta. assert (F12 : Framed w w2) by (by eapply sr_trans).
  destruct s.
  { apply wp_ret. rewrite app_nil_r. apply roundsPost_cleared; [done|by apply Forall_app_2|intros _; by right|by right]. }
  eapply wp_bind_with; [apply (framed_pushLog W C (P := chunkCall))|]. intros _ t3 w3 [F3 P3]. cbv beta zeta.
  eapply wp_bind_with; [apply runChunk_spec|]. intros o t4 w4 [F4 P4 E4 G4 _]. cbv beta.
  assert (F14 : Framed w w4) by (by repeat (eapply sr_trans; [eassumption|]); apply sr_refl).
  assert (PP : Forall chunkCall (t1 ++ t2 ++ t3 ++ t4)) by (by repeat apply Forall_app_2).
  destruct (isSome (crError (fst o)) || crAborted (fst o)) eqn:Hend.
  - eapply wp_bind_with; [apply stop_spec|]. intros s t5 w5 (F5 & P5 & Hs5). cbv beta.
    assert (F15 : Framed w w5) by (by eapply sr_trans).
    assert (PP5 : Forall chunkCall (t1 ++ t2 ++ t3 ++ t4 ++ t5 ++ [])) by (rewrite app_nil_r; by repeat apply Forall_app_2).
    destruct s; apply wp_ret; [apply roundsPost_cleared; auto|].
    destruct (roundsPost_cleared (S n) r chunkStart next w _ w5 (crAborted r) next F15 PP5 ltac:(by left) ltac:(by left)).
    by split.
  - set (r' := mkChunkResult _ _ _ _ _ _). eapply wp_mono; [apply (IH r' w4)|]. intros o5 t5 w5 [F5 P5 h5 f5 p5 a5 e5 n5]. cbv beta.
    split; [by eapply sr_trans|by repeat apply Forall_app_2|set_solver| | |done|done|done].
    + intros HC Hr e He.
      assert (Hf : forall e, e ∈ crFailures (fst o) -> e ∈ crFailures r) by (intros x Hx; by apply reported_retry, G4).
      assert (Hhost : Forall hostFailure (crFailures (fst o))).
      { apply Forall_forall. intros x Hx. rewrite Forall_forall in Hr. by apply Hr, Hf. }
      destruct (f5 HC Hhost e He) as [He' Ht]. cbn [r' crFailures] in He'. split; [by apply Hf|].
      destruct (ex_failures _ _ _ _ E4 e He') as [H|H]; [by apply not_elem_of_nil in H|].
      eapply (timesRefuted_weaken (1 + n)); [lia| |exact (timesRefuted_app _ _ _ _ _ (timesRefuted_once _ _ H) Ht)].
      rewrite !app_assoc. rewrite <- (app_assoc _ t4 t5). apply sublist_inserts_l. done.
    + intros e He. destruct (p5 e He) as [H|H]; [|by right]. cbn [r' crReplaced] in H. apply elem_of_app in H as [H|H]; [by left|].
      destruct (ex_replaced _ _ _ _ E4 e H) as [H'|(h & Hh & H')]; [by apply not_elem_of_nil in H'|].
      right. exists h. split; [apply h5; cbn [r' crHits]; set_solver|done].
Qed.

Lemma confirmFailures_spec r chunkStart next w :
  wp (confirmFailures W C r chunkStart next) (RoundsPost kScanWorkerRescanRetries r chunkStart next w) w.
Proof.
  unfold confirmFailures. eapply wp_bind_with; [by apply confirmRounds_spec|]. intros o t1 w1 H. cbv beta zeta.
  eapply wp_bind_with; [apply (within_when _ _ (framed_pushLog W C (P := chunkCall) _))|]. intros _ t2 w2 [F2 P2]. cbv beta.
  apply wp_ret. rewrite app_nil_r. destruct H as [F P h f p a e n]. split; try done.
  - by eapply sr_trans.
  - by apply Forall_app_2.
  - intros HC Hr x Hx. destruct (f HC Hr x Hx) as [Hin Ht]. split; [done|]. eapply timesRefuted_weaken; [done| |exact Ht]. by apply sublist_inserts_r.
  - intros Ha. destruct (a Ha) as [?|?]; [by left|right; by eapply framed_stopped].
Qed.
End Rounds.

(** ** The network check *)

Definition netCall (a : ScanAct) : Prop := match a with ANetwork _ _ | ALog _ => True | _ => ambient a end.

#[export] Instance netCall_actions : Actions netCall.
Proof. intros []; done. Qed.

Section Network.
Context {Q : QtChar} (W : World) (C : RunConst).

Lemma networkUp_spec ipv6 w : wp (networkUp W C ipv6) (fun p t w' => Framed w w' /\ Forall netCall t /\ ANetwork ipv6 (fst p) ∈ t) w.
Proof.
  unfold networkUp. eapply wp_bind_with; [apply (framed_setStage W C (P := netCall))|]. intros _ t1 w1 [F1 P1]. cbv beta.
  eapply wp_bind_with; [apply (framed_pushLog W C (P := netCall))|]. intros _ t2 w2 [F2 P2]. cbv beta.
  eapply wp_bind_with; [apply (within_tick (R := Framed) (P := netCall))|]. intros n t3 w3 [F3 P3]. cbv beta zeta.
  apply wp_bind, wp_note, wp_ret. cbn [fst]. rewrite app_nil_r.
  split; [repeat (eapply sr_trans; [eassumption|]); apply sr_out|]. split; [|set_solver].
  repeat (apply Forall_app_2; [done|]). by repeat constructor.
Qed.

Definition Checked (w : ScanWorker) (v : Verdict) (t : list ScanAct) (w' : ScanWorker) : Prop :=
  Framed w w' /\ Forall netCall t /\
  (vdUnverified v = false -> ~ stopped w /\ vdError v = None /\ (vdIpv4Up v = true -> ANetwork false true ∈ t) /\ (vdIpv6Up v = true -> ANetwork true true ∈ t)).

Lemma checkNetwork_spec rescan r w : wp (checkNetwork W C rescan r) (Checked w) w.
Proof.
  unfold checkNetwork. eapply wp_bind_with; [apply (wp_conj _ _ _ _ (stop_spec W C w) (within_stop W C (R := Framed) (P := netCall) w))|].
  intros s t1 w1 [(F1 & _ & Hs) [_ P1]]. cbv beta. destruct s; [by apply wp_ret; rewrite app_nil_r|].
  assert (Hgo : ~ stopped w) by (intros H; apply (framed_stopped _ _ F1) in H; unfold stopped in H; congruence).
  cbv zeta. eapply wp_bind_with; [apply networkUp_spec|]. intros v4 t2 w2 (F2 & P2 & N2). cbv beta.
  apply wp_bind.
  assert (H6 : wp (if negb (negb rescan && negb (fst v4) && scanWorkerHasFamily (crFailures r) false) &&
        ((rescan && scanWorkerHasFamily (crFailures r) true) ||
         (negb rescan && (scanWorkerHasFamily (crFailures r) true && negb (scanWorkerHasFamily (crHits r) true))) ||
         (negb (fst v4) && (scanWorkerHasFamily (crFailures r) true || scanWorkerHasFamily (crLocalFailures r) true)))
      then networkUp W C true else ret (false, []))
    (fun p t w' => Framed w2 w' /\ Forall netCall t /\ (fst p = true -> ANetwork true true ∈ t)) w2).
  { destruct (_ && _); [|apply wp_ret; split; [apply sr_refl|by split]]. eapply wp_mono; [apply networkUp_spec|].
    intros p t w' (F & P & N). cbv beta. split; [done|]. split; [done|]. intros Hp. by rewrite Hp in N. }
  eapply wp_mono; [exact H6|]. intros v6 t3 w3 (F3 & P3 & N3). cbv beta.
  assert (F13 : Framed w w3) by (by repeat (eapply sr_trans; [eassumption|]); apply sr_refl).
  assert (P13 : Forall netCall (t1 ++ t2 ++ t3)) by (by repeat apply Forall_app_2).
  match goal with |- wp (if ?c then _ else _) _ _ => destruct c end.
  - eapply wp_bind_with; [apply (within_when (R := Framed) (P := netCall) _ _ (within_mwLog _ I))|]. intros _ t4 w4 [F4 P4]. cbv beta.
    apply wp_ret. split; [by eapply sr_trans|]. split; [rewrite app_nil_r; by repeat apply Forall_app_2|done].
  - eapply wp_bind_with; [apply (within_when (R := Framed) (P := netCall) _ _ (framed_pushLog W C _))|]. intros _ t4 w4 [F4 P4]. cbv beta.
    eapply wp_bind_with; [apply (within_when (R := Framed) (P := netCall) _ _ (framed_pushLog W C _))|]. intros _ t5 w5 [F5 P5]. cbv beta.
    apply wp_ret. split; [by repeat (eapply sr_trans; [eassumption|]); apply sr_refl|].
    split; [rewrite app_nil_r; by repeat apply Forall_app_2|]. cbn [vdUnverified vdError vdIpv4Up vdIpv6Up]. intros _. split; [done|]. split; [done|].
    split; intros Hup; [rewrite Hup in N2|specialize (N3 Hup)]; set_solver.
Qed.
End Network.

(** ** The writes *)

(** Only the counts of the scan change. *)
Record Counted (w w' : ScanWorker) : Prop := {
  ct_onward : Onward w w';
  ct_scan : exists f g, swScan w' = is_found f (is_removed g (swScan w));
  ct_spec : swSpec w' = swSpec w;
  ct_basePort : swBasePort w' = swBasePort w
}.

Lemma counts_id s : s = is_found (found s) (is_removed (removed s) s).
Proof. by destruct s. Qed.

Lemma framed_counted w w' : Framed w w' -> Counted w w'.
Proof. intros [? Hs ? ?]. split; try done. exists (found (swScan w)), (removed (swScan w)). rewrite Hs. apply counts_id. Qed.

#[export] Instance Counted_steps : StepRel Counted.
Proof.
  split; try (intros; apply framed_counted; first [apply sr_refl|apply sr_async|apply sr_tick|apply sr_out]).
  intros a b c [? (f & g & H) ? ?] [? (f' & g' & H') ? ?]. split; [by eapply sr_trans| |congruence|congruence].
  exists f', g'. rewrite H', H. by destruct (swScan a).
Qed.

Definition storeAct (a : ScanAct) : Prop := match a with AUpsert _ _ _ | ARemove _ _ => True | _ => ambient a end.

#[export] Instance storeAct_actions : Actions storeAct.
Proof. intros []; done. Qed.

#[export] Instance ambient_actions : Actions ambient.
Proof. intros a Ha. exact Ha. Qed.

Section Writes.
Context {Q : QtChar} (W : World) (C : RunConst).

(** The record of a write: what the others noted, then the write. *)
Lemma dbWrite_spec {A} id a (f : option nat -> IpListStore -> A * IpListStore) w :
  wp (dbWrite W C id a f) (fun _ t w' => Framed w w' /\ exists stored t1, t = t1 ++ [a stored] /\ Forall ambient t1) w.
Proof.
  unfold dbWrite. eapply wp_bind_with; [apply (within_tick (R := Framed) (P := ambient))|]. intros n t1 w1 [F1 P1]. cbv beta.
  apply wp_bind, wp_gets. cbv zeta. set (stored := _ && _). apply wp_bind, wp_note. cbn [app].
  apply wp_bind, wp_gets, wp_bind, wp_modify; [done|]. apply wp_ret. rewrite !app_nil_r. split; [|by exists stored, t1].
  eapply sr_trans; [exact F1|]. by split; [split| | |].
Qed.

Lemma framed_dbWrite {P} {PA : Actions P} {A} id a (f : option nat -> IpListStore -> A * IpListStore) :
  (forall stored, P (a stored)) -> within Framed P (dbWrite W C id a f).
Proof.
  intros Ha w. eapply wp_mono; [apply dbWrite_spec|]. intros r t w' (F & stored & t1 & -> & P1). cbv beta. split; [done|].
  apply Forall_app_2; [eapply Forall_impl; [exact P1|apply actions_ambient]|by constructor].
Qed.

Lemma framed_dbRead {P} {PA : Actions P} {A} (failed : A) f : within Framed P (dbRead W C failed f).
Proof. unfold dbRead. within_auto. Qed.

Lemma framed_addList {P} {PA : Actions P} role es : (forall id, P (AAdd role id)) -> within Framed P (addList W C role es).
Proof.
  intros Ha. unfold addList. within_auto. apply within_modify. intros w. split; [|done]. by split; [split| | |].
Qed.

Lemma framed_touched {P} {PA : Actions P} b : within Framed P (modify (sw_ListsTouched b)).
Proof. apply within_modify. intros w. split; [|done]. by split; [split| | |]. Qed.
End Writes.

#[export] Hint Resolve @framed_dbRead @framed_touched : scanrun.
