(* ===== verification/ScanHistory.v ===== *)
(** What the record of a run says about each removal and each saved position:
    the rounds of runChunks, from their writes. *)
From stdpp Require Import base list gmap strings.
From Stdlib Require Import ZArith Lia Bool.
From S2P Require Import Prelude IpListParse IpScan IpListStore ScanWorker ScanRun ScanRunFacts ScanChunkFacts ScanRounds.

Open Scope scan_scope.

(** ** Cutting a record *)

Definition noRemove (a : ScanAct) : Prop := match a with ARemove _ _ => False | _ => True end.
Definition noBegin (a : ScanAct) : Prop := match a with ABegin _ => False | _ => True end.
Definition noProgress (a : ScanAct) : Prop := match a with ASaveProgress _ _ _ _ _ => False | _ => True end.

#[export] Instance noRemove_actions : Actions noRemove.
Proof. intros []; done. Qed.
#[export] Instance noBegin_actions : Actions noBegin.
Proof. intros []; done. Qed.
#[export] Instance noProgress_actions : Actions noProgress.
Proof. intros []; done. Qed.

(** An action that is not in the first part is in the second. *)
Lemma cut_after (P : ScanAct -> Prop) t mid pre a post : Forall P t -> ~ P a -> t ++ mid = pre ++ a :: post ->
  exists pre', pre = t ++ pre' /\ mid = pre' ++ a :: post.
Proof.
  intros HP Ha. revert pre. induction HP as [|x t Hx _ IH]; intros pre; cbn [app]; [by exists pre|].
  destruct pre as [|y pre]; cbn [app]; intros [= -> H]; [done|]. destruct (IH pre H) as (pre' & -> & ->). by exists pre'.
Qed.

Lemma cut_none (P : ScanAct -> Prop) t pre a post : Forall P t -> ~ P a -> t <> pre ++ a :: post.
Proof. intros HP Ha ->. apply Forall_app in HP as [_ HP]. by inversion HP. Qed.

Lemma is_removal i es : ~ noRemove (ARemove i es).
Proof. auto. Qed.

(** Of each removal, what was noted before it, from which list and what goes. *)
Definition Removes (K : list ScanAct -> Z -> list IpListEntry -> Prop) (t : list ScanAct) : Prop :=
  forall pre i es post, t = pre ++ ARemove i es :: post -> K pre i es.

Lemma removes_none K t : Forall noRemove t -> Removes K t.
Proof. intros H pre i es post Ht. destruct (cut_none noRemove t pre (ARemove i es) post H (is_removal _ _) Ht). Qed.

Lemma removes_app (K K1 K2 : list ScanAct -> Z -> list IpListEntry -> Prop) t t' : Removes K1 t -> Removes K2 t' ->
  (forall pre i es, K1 pre i es -> K pre i es) -> (forall pre i es, K2 pre i es -> K (t ++ pre) i es) -> Removes K (t ++ t').
Proof.
  intros H1 H2 HK1 HK2 pre i es post Ht. destruct (app_eq_inv _ _ _ _ Ht) as [(k & -> & Hk)|(k & -> & Hk)]; [|by eapply HK2, H2].
  destruct k as [|a k]; [|injection Hk as <- ->; by eapply HK1, H1]. rewrite app_nil_r in *.
  rewrite <- (app_nil_r pre). by eapply HK2, (H2 []).
Qed.

Lemma removes_one K i es t1 t2 : Forall noRemove t1 -> Forall noRemove t2 -> K t1 i es -> Removes K (t1 ++ ARemove i es :: t2).
Proof.
  intros H1 H2 HK pre i' es' post Ht. destruct (cut_after noRemove t1 _ pre _ post H1 (is_removal _ _) Ht) as (p & -> & Hp).
  destruct p as [|a p]; [injection Hp as <- <- <-; by rewrite app_nil_r|]. injection Hp as <- Hp.
  destruct (cut_none noRemove t2 p _ post H2 (is_removal _ _) Hp).
Qed.

Lemma ambient_all {P} {PA : Actions P} t : Forall ambient t -> Forall P t.
Proof. intros H. eapply Forall_impl; [exact H|apply actions_ambient]. Qed.

(** ** Removals *)

Definition upIn (e : IpListEntry) (since : list ScanAct) : Prop := ANetwork (scanWorkerIsIpv6 e) true ∈ since.

(** The entry's address was written to the list under another port; [stored] is
    whether all of that write was done. *)
Definition relisted (listId : Z) (e : IpListEntry) (stored : bool) (since : list ScanAct) : Prop :=
  exists hits h, AUpsert listId hits stored ∈ since /\ h ∈ hits /\ cidr h = cidr e /\ port h <> port e.

(** Why an entry may go, given what was noted since the chunk began: refuted by
    the probe and by every retry, or refuted once and the core ended the chunk
    early, with its family reachable each time; or its address passed on another
    port. *)
Definition removable (listId : Z) (since : list ScanAct) (e : IpListEntry) : Prop :=
  (timesRefuted (S kScanWorkerRescanRetries) e since /\ upIn e since) \/
  (timesRefuted 1 e since /\ Exists cutShort since /\ upIn e since) \/
  exists stored, relisted listId e stored since.

Definition removalsOk : list ScanAct -> Prop :=
  Removes (fun pre i es => exists before chunkStart since,
    pre = before ++ ABegin chunkStart :: since /\ Forall noBegin since /\ Forall (removable i since) es).

Lemma removalsOk_app t t' : removalsOk t -> removalsOk t' -> removalsOk (t ++ t').
Proof.
  intros H H'. eapply removes_app; [exact H|exact H'|done|]. intros pre i es (before & c & since & -> & Hn & Hr).
  exists (t ++ before), c, since. by rewrite <- app_assoc.
Qed.

(** ** The writes of a round *)

Section Store.
Context {Q : QtChar} (W : World) (C : RunConst).

Lemma persist_spec {P} {PA : Actions P} w : wp (persist_ W C) (fun b t w' => Framed w w' /\ Forall P t /\ swPersist w' = b) w.
Proof.
  unfold persist_. eapply wp_bind_with; [apply (within_tick (R := Framed) (P := P))|]. intros n t1 w1 [H1 H2]. cbv beta in *.
  apply wp_gets. by rewrite app_nil_r.
Qed.

(** What the writes of a round show. *)
Record Stored (rescan guarded : bool) (resultId : Z) (r : ChunkResult) (v : Verdict) (w : ScanWorker) (t : list ScanAct) (w' : ScanWorker) : Prop := {
  st_counted : Counted w w';
  st_acts : Forall storeAct t;
  st_removals : Removes (fun pre i es => rescan = true /\ i = resultId /\
    ((es = crReplaced r /\ exists stored, AUpsert resultId (crHits r) stored ∈ pre) \/ (guarded = true /\ vdUnverified v = false /\ es = deadEntries r v))) t;
  st_hits : swPersist w' = true -> 0 <= resultId -> crHits r = [] \/ exists stored, AUpsert resultId (crHits r) stored ∈ t
}.

(** The first half: the hits, and in a rescan the rows they replace. *)
Definition storeHits (rescan : bool) (resultId : Z) (r : ChunkResult) : M unit :=
  when (negb (isNil (crHits r)))
    (_ ← upsertCall W C resultId (crHits r);
     when (rescan && negb (isNil (crReplaced r))) (_ ← removeCall W C resultId (crReplaced r); ret tt)).

Lemma storeHits_spec rescan resultId r w : wp (storeHits rescan resultId r) (fun _ t w' => Framed w w' /\ Forall storeAct t /\
  Removes (fun pre i es => rescan = true /\ i = resultId /\ es = crReplaced r /\ exists stored, AUpsert resultId (crHits r) stored ∈ pre) t /\
  (crHits r = [] \/ exists stored, AUpsert resultId (crHits r) stored ∈ t)) w.
Proof.
  unfold storeHits. destruct (crHits r) as [|h hits] eqn:Hh; cbn [isNil negb when].
  { apply wp_ret. split; [apply sr_refl|]. split; [constructor|]. split; [by apply removes_none|by left]. }
  rewrite <- Hh in *. eapply wp_bind_with; [apply dbWrite_spec|]. intros _ t w1 (F1 & stored & t1 & -> & P1). cbv beta.
  assert (Hin : exists stored, AUpsert resultId (crHits r) stored ∈ t1 ++ [AUpsert resultId (crHits r) stored]) by (exists stored; set_solver).
  destruct (rescan && negb (isNil (crReplaced r))) eqn:Hr; cbn [when].
  - apply andb_true_iff in Hr as [-> _]. eapply wp_bind_with; [apply dbWrite_spec|]. intros _ t w2 (F2 & gone & t3 & -> & P3). cbv beta.
    apply wp_ret. rewrite app_nil_r. split; [by eapply sr_trans|]. split; [|split; [|right; exists stored; set_solver]].
    + repeat first [apply Forall_app_2|constructor]; auto; by apply ambient_all.
    + rewrite app_assoc. apply removes_one; [|constructor|split; [done|split; [done|split; [done|exists stored; set_solver]]]].
      repeat first [apply Forall_app_2|constructor]; auto; by apply ambient_all.
  - apply wp_ret. rewrite app_nil_r. split; [done|]. split; [|split; [|right; exists stored; set_solver]].
    + repeat first [apply Forall_app_2|constructor]; auto; by apply ambient_all.
    + apply removes_none. repeat first [apply Forall_app_2|constructor]; auto; by apply ambient_all.
Qed.

Lemma counted_modify {P} {PA : Actions P} f : (forall s, exists a b, f s = is_found a (is_removed b s)) -> within Counted P (modify (onScan f)).
Proof. intros H. apply within_modify. intros w. split; [|done]. split; [by split|apply H|done|done]. Qed.

Lemma dead_spec resultId dead w :
  wp (if isNil dead then ret 0 else removeCall W C resultId dead)
    (fun _ t w' => Framed w w' /\ Forall storeAct t /\ Removes (fun _ i es => i = resultId /\ es = dead /\ dead <> []) t) w.
Proof.
  destruct dead as [|e dead]; [apply wp_ret; split; [apply sr_refl|]; split; [constructor|by apply removes_none]|].
  eapply wp_mono; [apply dbWrite_spec|]. intros n t w' (F & stored & t1 & -> & P1). cbv beta. split; [done|].
  split; [apply Forall_app_2; [by apply ambient_all|]; by constructor|]. by apply removes_one; [apply ambient_all| |].
Qed.

Lemma storeResults_spec rescan guarded resultId r v w :
  wp (storeResults W C rescan guarded resultId r v) (fun _ t w' => Stored rescan guarded resultId r v w t w') w.
Proof.
  unfold storeResults. eapply wp_bind_with; [apply (persist_spec (P := ambient))|]. intros p t1 w1 (F1 & P1 & Hp). cbv beta.
  destruct (negb p || (resultId <? 0)) eqn:Hoff.
  { apply wp_ret. rewrite app_nil_r. split; [by apply framed_counted|by apply ambient_all|by apply removes_none, ambient_all|].
    intros Hw Hid. rewrite Hw in Hp. subst p. cbn in Hoff. lia. }
  eapply wp_bind_with; [apply (storeHits_spec rescan resultId r)|]. intros _ t2 w2 (F2 & P2 & R2 & H2). cbv beta zeta.
  set (dead := if rescan && guarded && negb (vdUnverified v) then deadEntries r v else []).
  eapply wp_bind_with; [apply dead_spec|]. intros gone t3 w3 (F3 & P3 & R3). cbv beta.
  assert (Hgone : within Counted ambient (when (0 <? gone) (modify (onScan (fun s => is_removed (removed s + gone) s))))).
  { apply within_when, counted_modify. intros s. exists (found s), (removed s + gone). by destruct s. }
  assert (Hcount : forall n, within Counted ambient (modify (onScan (is_found n)))).
  { intros n. apply counted_modify. intros s. exists n, (removed s). by destruct s. }
  eapply wp_bind_with; [apply Hgone|]. intros _ t4 w4 [F4 P4]. cbv beta.
  eapply wp_bind_with; [apply (framed_dbRead W C (P := ambient))|]. intros count t5 w5 [F5 P5]. cbv beta.
  eapply wp_bind_with; [apply Hcount|].
  intros _ t6 w6 [F6 P6]. cbv beta. apply wp_ret. rewrite app_nil_r.
  assert (Hrest : Forall ambient (t4 ++ t5 ++ t6)) by (by repeat apply Forall_app_2). split.
  - eapply sr_trans; [by apply framed_counted|]. eapply sr_trans; [by apply framed_counted|]. eapply sr_trans; [by apply framed_counted|].
    eapply sr_trans; [exact F4|]. eapply sr_trans; [by apply framed_counted|exact F6].
  - repeat first [apply Forall_app_2|done]; by apply ambient_all.
  - match goal with |- Removes ?k _ => set (K := k) end.
    assert (HK : forall t pre i es, K pre i es -> K (t ++ pre) i es).
    { intros t pre i es (Hr & Hi & [[He [stored Hin]]|Hd]); (split; [done|split; [done|]]); [left|by right]. split; [done|exists stored; set_solver]. }
    eapply (removes_app K K K); [by apply removes_none, ambient_all| |done|by intros; apply HK].
    eapply removes_app; [exact R2| |intros pre i es (-> & -> & -> & Hin); split; [done|split; [done|by left]]|by intros; apply HK].
    eapply (removes_app _ _ (fun _ _ _ => False)); [exact R3|by apply removes_none, ambient_all| |done].
    intros pre i es (-> & -> & Hne). subst dead. destruct (rescan && guarded && negb (vdUnverified v)) eqn:Hc; [|done].
    apply andb_true_iff in Hc as [[-> ->]%andb_true_iff Hv]. split; [done|]. split; [done|]. right. split; [done|]. split; [by apply negb_true_iff|done].
  - intros _ _. destruct H2 as [?|[stored H2]]; [by left|right; exists stored; set_solver].
Qed.
End Store.

(** ** A round *)

(** The positions from [a] up that the core finished, chunk by chunk; what
    passed is accounted for and the hits were written. *)
Inductive covers (spec : ScanTargetSpec) (config : ScanConfig) (resultId total : Z) (t : list ScanAct) (a : Z) : Z -> Prop :=
| covers_start : covers spec config resultId total t a a
| covers_chunk b n hits :
    covers spec config resultId total t a b ->
    probedTo spec b n config hits t ->
    (hits = [] \/ exists stored, AUpsert resultId hits stored ∈ t) ->
    covers spec config resultId total t a (Z.min total n).

Lemma covers_mono spec config resultId total t t' a b : t ⊆ t' -> covers spec config resultId total t a b -> covers spec config resultId total t' a b.
Proof.
  intros Ht. induction 1 as [|b n hits _ IH Hp Hh]; [constructor|]. econstructor; [exact IH|by eapply probedTo_mono|]. destruct Hh as [?|[stored ?]]; eauto.
Qed.

Lemma covers_trans spec config resultId total t a b c :
  covers spec config resultId total t a b -> covers spec config resultId total t b c -> covers spec config resultId total t a c.
Proof. intros Hab. induction 1; [done|]. by econstructor. Qed.

(** Of each saved position, what was noted before it. *)
Definition Saves (K : list ScanAct -> ScanMode -> Z -> Z -> Prop) (t : list ScanAct) : Prop :=
  forall pre m c tot f r post, t = pre ++ ASaveProgress m c tot f r :: post -> K pre m c tot.

Lemma is_progress m c tot f r : ~ noProgress (ASaveProgress m c tot f r).
Proof. auto. Qed.

Lemma saves_none K t : Forall noProgress t -> Saves K t.
Proof. intros H pre m c tot f r post Ht. destruct (cut_none noProgress t pre _ post H (is_progress _ _ _ _ _) Ht). Qed.

Lemma saves_app (K K1 K2 : list ScanAct -> ScanMode -> Z -> Z -> Prop) t t' : Saves K1 t -> Saves K2 t' ->
  (forall pre m c tot, K1 pre m c tot -> K pre m c tot) -> (forall pre m c tot, K2 pre m c tot -> K (t ++ pre) m c tot) -> Saves K (t ++ t').
Proof.
  intros H1 H2 HK1 HK2 pre m c tot f r post Ht. destruct (app_eq_inv _ _ _ _ Ht) as [(k & -> & Hk)|(k & -> & Hk)]; [|by eapply HK2, H2].
  destruct k as [|a k]; [|injection Hk as <- ->; by eapply HK1, H1]. rewrite app_nil_r in *.
  rewrite <- (app_nil_r pre). by eapply HK2, (H2 []).
Qed.

Lemma saves_one K m c tot f r t1 t2 : Forall noProgress t1 -> Forall noProgress t2 -> K t1 m c tot -> Saves K (t1 ++ ASaveProgress m c tot f r :: t2).
Proof.
  intros H1 H2 HK pre m' c' tot' f' r' post Ht. destruct (cut_after noProgress t1 _ pre _ post H1 (is_progress _ _ _ _ _) Ht) as (p & -> & Hp).
  destruct p as [|a p]; [injection Hp as <- <- <- <- <- <-; by rewrite app_nil_r|]. injection Hp as <- Hp.
  destruct (cut_none noProgress t2 p _ post H2 (is_progress _ _ _ _ _) Hp).
Qed.

(** The position of the pass that is not in work. *)
Definition otherCursor (s : IpScan) : Z := if scanRescanPass s then cursor s else rescan_cursor s.

(** The pass is the same, at another position and with other counts. *)
Definition samePass (s s' : IpScan) : Prop :=
  s' = is_found (found s') (is_removed (removed s') (is_cursor (cursor s') (is_rescan_cursor (rescan_cursor s') s))).

Lemma samePass_refl s : samePass s s.
Proof. by destruct s. Qed.

Lemma samePass_trans a b c : samePass a b -> samePass b c -> samePass a c.
Proof. unfold samePass. intros -> ->. by destruct a. Qed.

Lemma samePass_total s s' : samePass s s' -> ActiveTotal s' = ActiveTotal s /\ scanRescanPass s' = scanRescanPass s /\ isConfig s' = isConfig s /\
  result_list_id s' = result_list_id s /\ isMode s' = isMode s.
Proof. intros ->. by destruct s. Qed.

Record Moved (w w' : ScanWorker) : Prop := {
  mv_onward : Onward w w';
  mv_pass : samePass (swScan w) (swScan w');
  mv_other : otherCursor (swScan w') = otherCursor (swScan w);
  mv_spec : swSpec w' = swSpec w;
  mv_basePort : swBasePort w' = swBasePort w
}.

Lemma counted_moved w w' : Counted w w' -> Moved w w' /\ ActiveCursor (swScan w') = ActiveCursor (swScan w).
Proof. intros [? (f & g & Hs) ? ?]. split; [split; try done|]; rewrite Hs; by destruct (swScan w). Qed.

Lemma framed_moved w w' : Framed w w' -> Moved w w'.
Proof. intros H. by apply counted_moved, framed_counted. Qed.

#[export] Instance Moved_steps : StepRel Moved.
Proof.
  split; try (intros; apply framed_moved; first [apply sr_refl|apply sr_async|apply sr_tick|apply sr_out]).
  intros a b c [? ? ? ? ?] [? ? ? ? ?]. split; [by eapply sr_trans|by eapply samePass_trans|congruence..].
Qed.

Section Round.
Context {Q : QtChar} (W : World) (C : RunConst).

(** A chunk that was tested, a rescan's failures again and again. *)
Record Tested (spec : ScanTargetSpec) (chunkStart : Z) (rescan : bool) (w : ScanWorker) (o : ChunkResult * Z) (t : list ScanAct) (w' : ScanWorker) : Prop := {
  te_framed : Framed w w';
  te_calls : Forall chunkCall t;
  te_once : HonestCore W -> forall e, e ∈ crFailures (fst o) -> timesRefuted 1 e t;
  te_again : HonestCore W -> rescan = true -> crError (fst o) = None -> crAborted (fst o) = false ->
    forall e, e ∈ crFailures (fst o) -> timesRefuted (S kScanWorkerRescanRetries) e t;
  te_aborted : crAborted (fst o) = true -> stopped w' \/ Exists cutShort t;
  te_replaced : forall e, e ∈ crReplaced (fst o) -> exists h, h ∈ crHits (fst o) /\ cidr h = cidr e /\ port h <> port e;
  te_next : moves C (fst o) -> snd o = chunkStart \/ probedTo spec chunkStart (snd o) (isConfig (swScan w)) (crHits (fst o)) t
}.

Definition testChunk (rescan : bool) (spec : ScanTargetSpec) (chunkStart chunkSize : Z) : M (ChunkResult * Z) :=
  answer ← runChunk W C spec chunkStart chunkSize chunkStart;
  let r := fst answer in
  if rescan && negb (isSome (crError r)) && negb (crAborted r) && negb (isNil (crFailures r))
  then confirmFailures W C r chunkStart (snd answer) else ret answer.

Lemma chunk_once spec chunkStart w o t w' : ChunkPost W C spec chunkStart chunkStart w o t w' ->
  forall e, e ∈ crFailures (fst o) -> timesRefuted 1 e t.
Proof.
  intros H e He. destruct (ex_failures _ _ _ _ (cp_explained _ _ _ _ _ _ _ _ _ H) e He) as [Hn|Hr]; [by apply not_elem_of_nil in Hn|].
  by apply timesRefuted_once.
Qed.

Lemma chunk_replaced spec chunkStart w o t w' : ChunkPost W C spec chunkStart chunkStart w o t w' ->
  forall e, e ∈ crReplaced (fst o) -> exists h, h ∈ crHits (fst o) /\ cidr h = cidr e /\ port h <> port e.
Proof.
  intros H e He. destruct (ex_replaced _ _ _ _ (cp_explained _ _ _ _ _ _ _ _ _ H) e He) as [Hn|Hr]; [by apply not_elem_of_nil in Hn|done].
Qed.

Lemma testChunk_spec rescan spec chunkStart chunkSize w :
  wp (testChunk rescan spec chunkStart chunkSize) (Tested spec chunkStart rescan w) w.
Proof.
  unfold testChunk. eapply wp_bind_with; [apply runChunk_spec|]. intros o t1 w1 H1. cbv beta zeta.
  pose proof (chunk_once _ _ _ _ _ _ H1) as Honce. pose proof (chunk_replaced _ _ _ _ _ _ H1) as Hrepl.
  destruct H1 as [F1 P1 E1 G1 N1].
  assert (Habort : crAborted (fst o) = true -> stopped w1 \/ Exists cutShort t1).
  { intros Ha. by destruct (ex_aborted _ _ _ _ E1 Ha). }
  destruct (rescan && negb (isSome (crError (fst o))) && negb (crAborted (fst o)) && negb (isNil (crFailures (fst o)))) eqn:Hc.
  - apply andb_true_iff in Hc as [[[-> Herr]%andb_true_iff Hab]%andb_true_iff _].
    apply negb_true_iff in Hab. assert (He : crError (fst o) = None) by (by destruct (crError (fst o))).
    assert (Hhost : HonestCore W -> Forall hostFailure (crFailures (fst o))).
    { intros HC. apply Forall_forall. intros e Hin. eapply reported_host; [exact HC|by apply G1]. }
    eapply wp_mono; [apply confirmFailures_spec|]. intros o2 t2 w2 [F2 P2 h2 f2 p2 a2 e2 n2]. cbv beta. split.
    + by eapply sr_trans.
    + by apply Forall_app_2.
    + intros HC e Hin. destruct (f2 HC (Hhost HC) e Hin) as [Hin' _]. eapply timesRefuted_weaken; [done| |by apply Honce]. by apply sublist_inserts_r.
    + intros HC _ _ _ e Hin. destruct (f2 HC (Hhost HC) e Hin) as [Hin' Ht]. exact (timesRefuted_app 1 _ _ _ _ (Honce e Hin') Ht).
    + intros Ha. destruct (a2 Ha) as [?|?]; [congruence|by left].
    + intros e Hin. destruct (p2 e Hin) as [Hin'|?]; [|done]. destruct (Hrepl e Hin') as (h & Hh & ?). exists h. auto.
    + intros [_ _]. destruct n2 as [->| ->]; [|by left]. destruct (N1 (conj He (fun _ => Hab))) as [?|Hp]; [by left|right].
      eapply probedTo_mono; [exact h2| |exact Hp]. set_solver.
  - apply wp_ret. rewrite app_nil_r. split; try done. intros _ -> He Ha e Hin. rewrite He, Ha in Hc. cbn in Hc.
    apply negb_false_iff in Hc. destruct (crFailures (fst o)); [by apply not_elem_of_nil in Hin|done].
Qed.

Lemma sublist_in (l k : list ScanAct) a : sublist l k -> a ∈ l -> a ∈ k.
Proof. intros Hs Ha. eapply elem_of_submseteq; [exact Ha|by apply sublist_submseteq]. Qed.

(** What may go after such a chunk. *)
Lemma dead_removable spec chunkStart rescan w o t w' v t' w'' i since : HonestCore W -> Tested spec chunkStart rescan w o t w' -> Checked w' v t' w'' ->
  rescan = true -> crError (fst o) = None -> vdUnverified v = false -> sublist (t ++ t') since ->
  Forall (removable i since) (deadEntries (fst o) v).
Proof.
  intros HC [F P T1 T6 Ta _ _] (_ & _ & Hv) -> He Hu Hs. destruct (Hv Hu) as (Hgo & _ & H4 & H6). apply Forall_forall. intros e Hin.
  unfold deadEntries in Hin. apply filter_elem in Hin as [Hin Hup].
  assert (Hnet : upIn e since).
  { apply (sublist_in _ _ _ Hs), elem_of_app. right. destruct (scanWorkerIsIpv6 e) eqn:E6; [by apply H6|by apply H4]. }
  assert (Ht : sublist t since) by (transitivity (t ++ t'); [by apply sublist_inserts_r|done]).
  destruct (crAborted (fst o)) eqn:Ha.
  - right. left. split; [eapply timesRefuted_weaken; [done|exact Ht|by apply T1]|]. split; [|done].
    destruct (Ta eq_refl) as [?|Hcut]; [done|]. apply Exists_exists in Hcut as (a & Hin' & Hcut). apply Exists_exists. exists a.
    split; [by eapply sublist_in|done].
  - left. split; [|done]. eapply timesRefuted_weaken; [done|exact Ht|by apply T6].
Qed.

Lemma replaced_removable spec chunkStart rescan w o t w' id stored since : Tested spec chunkStart rescan w o t w' ->
  AUpsert id (crHits (fst o)) stored ∈ since -> Forall (removable id since) (crReplaced (fst o)).
Proof.
  intros H Hin. apply Forall_forall. intros e He. right. right. destruct (te_replaced _ _ _ _ _ _ _ H e He) as (h & ? & ? & ?).
  by exists stored, (crHits (fst o)), h.
Qed.

Lemma saveProgress_spec w : wp (saveProgress W C) (fun _ t w' => Framed w w' /\ Forall noRemove t /\
  (Forall ambient t \/ swPersist w = true /\ exists t1 t2 f r, Forall ambient t1 /\ Forall ambient t2 /\
     t = t1 ++ ASaveProgress (isMode (swScan w)) (ActiveCursor (swScan w)) (ActiveTotal (swScan w)) f r :: t2)) w.
Proof.
  unfold saveProgress. eapply wp_bind_with; [apply (persist_spec W C (P := ambient))|]. intros p t1 w1 (F1 & P1 & Hp). cbv beta.
  destruct p; cbn [negb].
  - apply wp_bind, wp_gets. eapply wp_bind_with; [apply (within_tick (R := Framed) (P := ambient))|]. intros n t2 w2 [F2 P2]. cbv beta.
    apply wp_bind, wp_note. rewrite (fr_scan _ _ F1).
    assert (Hon : swPersist w = true) by (destruct (swPersist w) eqn:E; [done|]; by rewrite (on_persist _ _ (fr_onward _ _ F1) E) in Hp).
    assert (Hrest : forall w', Framed w w' -> Framed w w' /\
      Forall noRemove (t1 ++ t2 ++ [ASaveProgress (isMode (swScan w)) (ActiveCursor (swScan w)) (ActiveTotal (swScan w)) (found (swScan w)) (removed (swScan w))]) /\
      (Forall ambient (t1 ++ t2 ++ [ASaveProgress (isMode (swScan w)) (ActiveCursor (swScan w)) (ActiveTotal (swScan w)) (found (swScan w)) (removed (swScan w))]) \/
       swPersist w = true /\ exists k1 k2 f r, Forall ambient k1 /\ Forall ambient k2 /\
         t1 ++ t2 ++ [ASaveProgress (isMode (swScan w)) (ActiveCursor (swScan w)) (ActiveTotal (swScan w)) (found (swScan w)) (removed (swScan w))] =
         k1 ++ ASaveProgress (isMode (swScan w)) (ActiveCursor (swScan w)) (ActiveTotal (swScan w)) f r :: k2)).
    { intros w' Hw. split; [done|]. split.
      - apply Forall_app_2; [by apply ambient_all|]. apply Forall_app_2; [by apply ambient_all|by repeat constructor].
      - right. split; [done|]. exists (t1 ++ t2), [], (found (swScan w)), (removed (swScan w)). rewrite <- app_assoc. split; [by apply Forall_app_2|done]. }
    assert (F3 : Framed w w2) by (by eapply sr_trans).
    destruct (swDbOk W n); [apply wp_modify; [done|]|apply wp_ret]; cbn [app]; apply Hrest; [|eapply sr_trans; [exact F3|apply sr_out]].
    eapply sr_trans; [exact F3|]. by split; [split| | |].
  - apply wp_ret. rewrite app_nil_r. split; [done|]. split; [by apply ambient_all|by left].
Qed.

Lemma beginChunk_spec chunkStart size w : wp (beginChunk W C chunkStart size) (fun _ t w' => Framed w w' /\
  exists t1 t2, t = t1 ++ ABegin chunkStart :: t2 /\ Forall ambient t1 /\ Forall ambient t2) w.
Proof.
  unfold beginChunk. eapply wp_bind_with; [apply (within_tick (R := Framed) (P := ambient))|]. intros n t1 w1 [F1 P1]. cbv beta.
  apply wp_bind, wp_note. eapply wp_mono; [apply (within_underMutex W C (R := Framed) (P := ambient))|].
  - intros x. split; [|by destruct (swQuery W n)]. by destruct (swQuery W n); (split; [split| | |]).
  - intros _ t2 w2 [F2 P2]. cbv beta. split; [eapply sr_trans; [exact F1|eapply sr_trans; [apply sr_out|exact F2]]|]. by exists t1, t2.
Qed.

(** The position after a chunk: where it began, or as far as the core went. *)
Lemma nextCursor_at r (b : bool) a n total : a < total ->
  nextCursor C r b a n total = a \/ moves C r /\ nextCursor C r b a n total = Z.min total n.
Proof.
  intros Ha. unfold nextCursor, moves. destruct (crError r); [left; cbn; lia|]. destruct b; [left; cbn; lia|]. cbn [isSome orb].
  destruct (crAborted r); [destruct (rcConfigPhase C); [left; lia|]|]; right; by split.
Qed.

Lemma nextCursor_covers spec chunkStart rescan w o t w' guarded resultId v ws ts ws' total T :
  Tested spec chunkStart rescan w o t w' -> Stored rescan guarded resultId (fst o) v ws ts ws' -> swPersist ws' = true -> 0 <= resultId ->
  chunkStart < total -> t ⊆ T -> ts ⊆ T ->
  covers spec (isConfig (swScan w)) resultId total T chunkStart (nextCursor C (fst o) (vdUnverified v) chunkStart (snd o) total).
Proof.
  intros HT HS Hp Hid Hlt Ht Hts.
  destruct (nextCursor_at (fst o) (vdUnverified v) chunkStart (snd o) total Hlt) as [->|[Hm ->]]; [constructor|].
  destruct (te_next _ _ _ _ _ _ _ HT Hm) as [->|Hprobed]; [replace (Z.min total chunkStart) with chunkStart by lia; constructor|].
  apply (covers_chunk _ _ _ _ _ _ chunkStart _ (crHits (fst o))); [apply covers_start|exact (probedTo_mono _ _ _ _ _ _ _ _ ltac:(reflexivity) Ht Hprobed)|].
  destruct (st_hits _ _ _ _ _ _ _ _ HS Hp Hid) as [?|[stored ?]]; [by left|right; exists stored; by apply Hts].
Qed.

Lemma nextCursor_bounds spec start rescan w o t w' (b : bool) total : Tested spec start rescan w o t w' -> start < total ->
  start <= nextCursor C (fst o) b start (snd o) total <= total.
Proof.
  intros HT Hlt. destruct (nextCursor_at (fst o) b start (snd o) total Hlt) as [->|[Hm ->]]; [lia|].
  destruct (te_next _ _ _ _ _ _ _ HT Hm) as [->|(q & y & _ & _ & _ & _ & -> & _)]; lia.
Qed.

Lemma chunkEnd_spec r v chunkStart total w : wp (chunkEnd W C r v chunkStart total) (fun o t w' => Framed w w' /\ Forall ambient t /\
  (o = None -> total <= ActiveCursor (swScan w) \/ stopAfterReached (swScan w) = true \/ ActiveCursor (swScan w) <> chunkStart) /\
  (forall e, o <> Some (true, e))) w.
Proof.
  unfold chunkEnd. apply wp_bind, wp_gets. cbn [app]. set (s := swScan w).
  assert (Hend : forall e : option Message, wp (ret (Some (false, e))) (fun o t w' => Framed w w' /\ Forall ambient t /\
    (o = None -> total <= ActiveCursor s \/ stopAfterReached s = true \/ ActiveCursor s <> chunkStart) /\ (forall e, o <> Some (true, e))) w).
  { intros e. apply wp_ret. split; [apply sr_refl|]. by repeat split. }
  destruct (isSome (crError r)); [apply Hend|]. destruct (isSome (vdError v)); [apply Hend|]. destruct (vdUnverified v); [apply Hend|].
  destruct ((total <=? ActiveCursor s) || stopAfterReached s) eqn:E.
  { apply wp_ret. split; [apply sr_refl|]. split; [constructor|]. split; [|done]. intros _. apply orb_true_iff in E as [E|E]; [left; lia|auto]. }
  eapply wp_bind_with; [apply (within_stop W C (R := Framed) (P := ambient))|]. intros b t1 w1 [F1 P1]. cbv beta.
  assert (Hend1 : forall o : option (bool * option Message), (o = None -> ActiveCursor s <> chunkStart) -> (forall e, o <> Some (true, e)) -> wp (ret o) (fun o t w' => Framed w w' /\ Forall ambient (t1 ++ t) /\
    (o = None -> total <= ActiveCursor s \/ stopAfterReached s = true \/ ActiveCursor s <> chunkStart) /\ (forall e, o <> Some (true, e))) w1).
  { intros o Ho Hne. apply wp_ret. rewrite app_nil_r. split; [done|]. split; [done|]. split; [|done]. intros Hn. right; right. auto. }
  destruct b; [by apply Hend1|]. destruct (crAborted r); [by apply Hend1|].
  destruct (ActiveCursor s =? chunkStart) eqn:Ec; apply Hend1; try done. intros _. lia.
Qed.

Lemma setCursor_pass rescan c s : samePass s (setCursor rescan c s).
Proof. unfold samePass, setCursor. destruct rescan; by destruct s. Qed.

Lemma setCursor_other s c : otherCursor (setCursor (scanRescanPass s) c s) = otherCursor s.
Proof. unfold otherCursor, setCursor, scanRescanPass. destruct s as [? ? ? ? ? ? ? []]; done. Qed.

Lemma setCursor_active s c : ActiveCursor (setCursor (scanRescanPass s) c s) = c.
Proof. unfold ActiveCursor, setCursor, scanRescanPass. destruct s as [? ? ? ? ? ? ? []]; done. Qed.

(** After the writes: the position is set, shown and saved. *)
Lemma roundTail_spec rescan r v chunkStart total next changed w : rescan = scanRescanPass (swScan w) -> total = ActiveTotal (swScan w) ->
  let c := nextCursor C r (vdUnverified v) chunkStart next total in
  wp (_ ← modify (onScan (setCursor rescan c));
      s ← scan_;
      _ ← underMutex W C (fun w => onChunk (cv_Active false) (onLive (fun l => lv_Found (found s) (lv_Removed (removed s) l)) w));
      _ ← saveProgress W C;
      _ ← setTested W C (ActiveCursor s) total;
      _ ← when changed (note AResults);
      chunkEnd W C r v chunkStart total)
    (fun o t w' => Moved w w' /\ Forall noRemove t /\ ActiveCursor (swScan w') = c /\
       (forall K, (swPersist w = true -> forall pre, K pre (isMode (swScan w)) c total) -> Saves K t) /\
       (o = None -> total <= c \/ stopAfterReached (swScan w') = true \/ c <> chunkStart) /\ (forall e, o <> Some (true, e))) w.
Proof.
  intros -> -> c. apply wp_bind, wp_modify; [done|]. set (w1 := onScan _ w). set (s1 := swScan w1).
  assert (M1 : Moved w w1) by (split; [by split|apply setCursor_pass|apply setCursor_other|done|done]).
  assert (Hc : ActiveCursor s1 = c) by apply setCursor_active.
  apply wp_bind, wp_gets. fold s1.
  assert (Hmutex : within Framed ambient (underMutex W C (fun w => onChunk (cv_Active false) (onLive (fun l => lv_Found (found s1) (lv_Removed (removed s1) l)) w)))).
  { apply (within_underMutex W C (R := Framed) (P := ambient)). intros x. split; [|done]. by split; [split| | |]. }
  eapply wp_bind_with; [apply Hmutex|]. intros _ t2 w2 [F2 P2]. cbv beta.
  eapply wp_bind_with; [apply saveProgress_spec|]. intros _ t3 w3 (F3 & N3 & S3). cbv beta.
  eapply wp_bind_with; [apply (framed_setTested W C (P := ambient))|]. intros _ t4 w4 [F4 P4]. cbv beta.
  assert (Hres : within Framed (fun a => noRemove a /\ noProgress a) (when changed (note AResults))).
  { assert (Actions (fun a => noRemove a /\ noProgress a)) by (by intros []). apply within_when. by apply within_note. }
  eapply wp_bind_with; [apply Hres|]. intros _ t5 w5 [F5 P5]. cbv beta.
  eapply wp_mono; [apply chunkEnd_spec|]. intros o t6 w6 (F6 & P6 & O6 & O6'). cbv beta. cbn [app].
  assert (F26 : Framed w1 w6) by (by repeat (eapply sr_trans; [eassumption|]); apply sr_refl).
  assert (Hs5 : swScan w5 = s1) by (rewrite (fr_scan _ _ F5), (fr_scan _ _ F4), (fr_scan _ _ F3); apply (fr_scan _ _ F2)).
  assert (Hs6 : swScan w6 = s1) by apply (fr_scan _ _ F26).
  assert (P5r : Forall noRemove t5) by (eapply Forall_impl; [exact P5|]; by intros ? []).
  assert (P5p : Forall noProgress t5) by (eapply Forall_impl; [exact P5|]; by intros ? []).
  split; [eapply sr_trans; [exact M1|by apply framed_moved]|]. split; [repeat apply Forall_app_2; try done; by apply ambient_all|].
  split; [by rewrite Hs6|]. split; [|split; [|done]].
  - intros K HK. assert (Hamb : forall l, Forall ambient l -> Saves K l) by (intros l Hl; by apply saves_none, ambient_all).
    assert (Hm1 : isMode (swScan w2) = isMode (swScan w)) by (rewrite (fr_scan _ _ F2); apply (samePass_total _ _ (mv_pass _ _ M1))).
    assert (Ht1 : ActiveTotal (swScan w2) = ActiveTotal (swScan w)) by (rewrite (fr_scan _ _ F2); apply (samePass_total _ _ (mv_pass _ _ M1))).
    assert (Hc2 : ActiveCursor (swScan w2) = c) by (by rewrite (fr_scan _ _ F2)).
    destruct S3 as [P3|(Hon & k1 & k2 & f & g & K1 & K2 & ->)].
    + apply saves_none. repeat apply Forall_app_2; try done; by apply ambient_all.
    + rewrite Hm1, Ht1, Hc2. rewrite !app_assoc. rewrite <- !app_assoc. cbn [app].
      assert (HonW : swPersist w = true).
      { destruct (swPersist w) eqn:E; [done|]. assert (H1 : swPersist w1 = false) by done. by rewrite (on_persist _ _ (fr_onward _ _ F2) H1) in Hon. }
      rewrite app_assoc. apply saves_one; [by apply Forall_app_2; apply ambient_all| |by apply HK].
      repeat apply Forall_app_2; try done; by apply ambient_all.
  - intros Ho. destruct (O6 Ho) as [H|[H|H]]; rewrite ?Hs5 in H; rewrite ?Hs6; rewrite ?Hc in H; auto.
Qed.

(** A position, saved or reached, is covered when the positions before were. *)
Definition Covered (resultId : Z) (w : ScanWorker) (tr : list ScanAct) (a c : Z) : Prop :=
  covers (swSpec w) (isConfig (swScan w)) resultId (ActiveTotal (swScan w)) tr a c.

Record RoundOk (resultId : Z) (w : ScanWorker) (o : option (bool * option Message)) (t : list ScanAct) (w' : ScanWorker) : Prop := {
  ro_moved : Moved w w';
  ro_removals : HonestCore W -> removalsOk t;
  ro_saves : (swPersist w = true -> 0 <= resultId) -> forall tr a, (swPersist w = true -> Covered resultId w tr a (ActiveCursor (swScan w))) ->
    Saves (fun pre m c tot => m = isMode (swScan w) /\ tot = ActiveTotal (swScan w) /\ Covered resultId w (tr ++ pre) a c) t /\
    (swPersist w' = true -> Covered resultId w (tr ++ t) a (ActiveCursor (swScan w')));
  ro_more : o = None -> ActiveTotal (swScan w) <= ActiveCursor (swScan w') \/ stopAfterReached (swScan w') = true \/
    ActiveCursor (swScan w) < ActiveCursor (swScan w');
  ro_grows : ActiveCursor (swScan w) <= ActiveCursor (swScan w');
  ro_bounded : ActiveCursor (swScan w) <= ActiveTotal (swScan w) -> ActiveCursor (swScan w') <= ActiveTotal (swScan w);
  ro_last : o = None -> ActiveCursor (swScan w) < ActiveTotal (swScan w) /\ stopAfterReached (swScan w) = false;
  ro_done : forall e, o = Some (true, e) -> e = None /\ (ActiveTotal (swScan w) <= ActiveCursor (swScan w') \/ stopAfterReached (swScan w') = true)
}.

(** A round that ends before it tests anything. *)
Lemma roundOk_idle resultId w o t w' : Framed w w' -> Forall ambient t -> o <> None ->
  (forall e, o = Some (true, e) -> e = None /\ (ActiveTotal (swScan w) <= ActiveCursor (swScan w) \/ stopAfterReached (swScan w) = true)) ->
  RoundOk resultId w o t w'.
Proof.
  intros F P Ho Hd. split; try rewrite (fr_scan _ _ F); [by apply framed_moved|intros _; by apply removes_none, ambient_all| |done|lia|lia|done|done].
  intros Hid tr a Hcov. split; [by apply saves_none, ambient_all|]. intros Hp. unfold Covered. eapply covers_mono; [|apply Hcov].
  - set_solver.
  - destruct (swPersist w) eqn:E; [done|]. by rewrite (on_persist _ _ (fr_onward _ _ F) E) in Hp.
Qed.

Lemma calls_quiet t : Forall chunkCall t -> Forall noRemove t /\ Forall noBegin t /\ Forall noProgress t.
Proof. intros H. repeat split; (eapply Forall_impl; [exact H|]); by intros []. Qed.

Lemma nets_quiet t : Forall netCall t -> Forall noRemove t /\ Forall noBegin t /\ Forall noProgress t.
Proof. intros H. repeat split; (eapply Forall_impl; [exact H|]); by intros []. Qed.

Lemma stores_quiet t : Forall storeAct t -> Forall noBegin t /\ Forall noProgress t.
Proof. intros H. split; (eapply Forall_impl; [exact H|]); by intros []. Qed.

(** The removals of a round. *)
Lemma round_removals b1 start tb spec rescan w o tt w3 tn w4 v guarded resultId ts w5 t6 : HonestCore W -> Forall noRemove b1 -> Forall ambient tb ->
  Tested spec start rescan w o tt w3 -> Forall netCall tn -> (guarded = true -> crError (fst o) = None /\ Checked w3 v tn w4) ->
  Stored rescan guarded resultId (fst o) v w4 ts w5 -> Forall noRemove t6 -> removalsOk (b1 ++ ABegin start :: (tb ++ tt ++ tn ++ ts ++ t6)).
Proof.
  intros HC Hb1 Htb HT Hn HV HS H6 pre i es post Ht.
  destruct (calls_quiet _ (te_calls _ _ _ _ _ _ _ HT)) as (Qt & Bt & _). destruct (nets_quiet _ Hn) as (Qn & Bn & _).
  destruct (stores_quiet _ (st_acts _ _ _ _ _ _ _ _ HS)) as [Bs _].
  assert (Hq : Forall noRemove (b1 ++ ABegin start :: tb ++ tt ++ tn)).
  { apply Forall_app_2; [done|]. constructor; [done|]. repeat apply Forall_app_2; try done. by apply ambient_all. }
  assert (Hcut : (b1 ++ ABegin start :: tb ++ tt ++ tn) ++ (ts ++ t6) = pre ++ ARemove i es :: post)
    by (rewrite <- Ht; cbn; by rewrite <- !app_assoc; cbn; rewrite <- !app_assoc).
  destruct (cut_after noRemove _ _ _ _ _ Hq (is_removal _ _) Hcut) as (p & -> & Hp).
  exists b1, start, (tb ++ tt ++ tn ++ p). split; [cbn; by rewrite <- !app_assoc; cbn; rewrite <- !app_assoc|].
  assert (exists post', ts = p ++ ARemove i es :: post') as (post' & Hts).
  { destruct (app_eq_inv _ _ _ _ Hp) as [(k & -> & Hk)|(k & -> & Hk)].
    - destruct k as [|x k]; [|injection Hk as <- ->; by eexists]. destruct (cut_none noRemove t6 [] (ARemove i es) post H6 (is_removal _ _) (eq_sym Hk)).
    - destruct (cut_none noRemove t6 k (ARemove i es) post H6 (is_removal _ _) Hk). }
  split.
  { rewrite Hts in Bs. apply Forall_app in Bs as [Bp _]. repeat apply Forall_app_2; try done. by apply ambient_all. }
  destruct (st_removals _ _ _ _ _ _ _ _ HS _ _ _ _ Hts) as (Hr & -> & [[-> [stored Hup]]|(Hg & Hu & ->)]).
  - apply (replaced_removable _ _ _ _ _ _ _ resultId stored _ HT). rewrite !elem_of_app. auto.
  - destruct (HV Hg) as [He Hc]. eapply dead_removable; try done. apply sublist_inserts_l. rewrite app_assoc. by apply sublist_inserts_r.
Qed.

Lemma onward_persist w w' : Onward w w' -> swPersist w' = true -> swPersist w = true.
Proof. intros [_ H] Hp. destruct (swPersist w); [done|]. by rewrite (H eq_refl) in Hp. Qed.

Lemma guarded_error rescan r : isGuarded rescan r = true -> crError r = None.
Proof. unfold isGuarded. by destruct (crError r). Qed.

(** The position after a round is covered once its writes are noted. *)
Lemma round_covers resultId w w2 o tt w3 v guarded w4 ts w5 tr a T : Framed w w2 -> Moved w w5 ->
  Tested (swSpec w) (ActiveCursor (swScan w)) (scanRescanPass (swScan w)) w2 o tt w3 ->
  Stored (scanRescanPass (swScan w)) guarded resultId (fst o) v w4 ts w5 -> (swPersist w = true -> 0 <= resultId) ->
  ActiveCursor (swScan w) < ActiveTotal (swScan w) -> (swPersist w = true -> Covered resultId w tr a (ActiveCursor (swScan w))) ->
  tt ⊆ T -> ts ⊆ T -> swPersist w5 = true ->
  Covered resultId w (tr ++ T) a (nextCursor C (fst o) (vdUnverified v) (ActiveCursor (swScan w)) (snd o) (ActiveTotal (swScan w))).
Proof.
  intros F2 M5 HT HS Hid Hlt Hcov Htt Hts Hp. assert (Hp0 : swPersist w = true) by (by eapply onward_persist; [apply (mv_onward _ _ M5)|]).
  eapply covers_trans; [eapply covers_mono; [|exact (Hcov Hp0)]; set_solver|].
  unfold Covered. replace (isConfig (swScan w)) with (isConfig (swScan w2)) by (by rewrite (fr_scan _ _ F2)).
  eapply nextCursor_covers; [exact HT|exact HS|done|by apply Hid|done| |]; set_solver.
Qed.

(** What the network check of a round shows. *)
Lemma verdict_spec rescan r w :
  wp (if isGuarded rescan r then checkNetwork W C rescan r else ret (mkVerdict false None false false))
    (fun v t w' => Framed w w' /\ Forall netCall t /\ (isGuarded rescan r = true -> crError r = None /\ Checked w v t w')) w.
Proof.
  destruct (isGuarded rescan r) eqn:Hg; [|by apply wp_ret; split; [apply sr_refl|]]. eapply wp_mono; [apply checkNetwork_spec|].
  intros v t w' H. cbv beta. split; [apply H|]. split; [apply H|]. intros _. split; [by eapply guarded_error|done].
Qed.

(** The positions that a round saves. *)
Lemma round_saves resultId w tr a c front t6 w5 w6 : Forall noProgress front ->
  (forall K, (swPersist w5 = true -> forall pre, K pre (isMode (swScan w)) c (ActiveTotal (swScan w))) -> Saves K t6) ->
  Onward w5 w6 -> ActiveCursor (swScan w6) = c -> (forall T, front ⊆ T -> swPersist w5 = true -> Covered resultId w (tr ++ T) a c) ->
  Saves (fun pre m c tot => m = isMode (swScan w) /\ tot = ActiveTotal (swScan w) /\ Covered resultId w (tr ++ pre) a c) (front ++ t6) /\
  (swPersist w6 = true -> Covered resultId w (tr ++ front ++ t6) a (ActiveCursor (swScan w6))).
Proof.
  intros Hfront Hsaves Hon Hc Hnow. split.
  - eapply (saves_app _ (fun _ _ _ _ => False)
      (fun pre m c' tot => m = isMode (swScan w) /\ tot = ActiveTotal (swScan w) /\ c' = c /\ swPersist w5 = true));
      [by apply saves_none|by apply Hsaves|done|].
    intros pre m c' tot (-> & -> & -> & Hp). split; [done|]. split; [done|]. apply Hnow; [set_solver|done].
  - intros Hp. rewrite Hc. apply Hnow; [set_solver|]. by eapply onward_persist.
Qed.

Lemma chunkRound_spec resultId chunkSize w : wp (chunkRound W C resultId chunkSize) (RoundOk resultId w) w.
Proof.
  unfold chunkRound. apply wp_bind, wp_gets. cbv beta zeta. set (s := swScan w).
  destruct (stopAfterReached s) eqn:Hsa.
  { eapply wp_bind_with; [apply (framed_pushLog W C (P := ambient))|]. intros _ t1 w1 [F1 P1]. cbv beta. apply wp_ret. cbn [app]. rewrite app_nil_r.
    apply roundOk_idle; [done|done|done|]. intros e [= <-]. auto. }
  destruct (ActiveTotal s <=? ActiveCursor s) eqn:Hfull.
  { apply wp_ret. apply roundOk_idle; [apply sr_refl|constructor|done|]. intros e [= <-]. split; [done|left; fold s; lia]. }
  eapply wp_bind_with; [apply (within_stop W C (R := Framed) (P := ambient))|]. intros st t1 w1 [F1 P1]. cbv beta. destruct st.
  { apply wp_ret. cbn [app]. rewrite app_nil_r. by apply roundOk_idle. }
  eapply wp_bind_with; [apply beginChunk_spec|]. intros _ tb w2 (F2 & tb1 & tb2 & -> & PB1 & PB2). cbv beta.
  apply wp_bind, wp_gets. rewrite (fr_spec _ _ F2), (fr_spec _ _ F1). set (rescan := scanRescanPass s). set (start := ActiveCursor s). set (total := ActiveTotal s).
  apply wp_assoc. eapply wp_bind_with; [apply (testChunk_spec rescan)|]. intros o tt w3 HT. cbv beta zeta.
  eapply wp_bind_with; [apply verdict_spec|]. intros v tn w4 (F4 & PN & HV). cbv beta.
  eapply wp_bind_with; [apply storeResults_spec|]. intros changed ts w5 HS. cbv beta.
  pose proof (counted_moved _ _ (st_counted _ _ _ _ _ _ _ _ HS)) as [M5 C5].
  assert (F04 : Framed w w4) by (repeat (eapply sr_trans; [eassumption|]); eapply sr_trans; [exact (te_framed _ _ _ _ _ _ _ HT)|exact F4]).
  assert (M05 : Moved w w5) by (eapply sr_trans; [by apply framed_moved|exact M5]).
  destruct (samePass_total _ _ (mv_pass _ _ M05)) as (HT5 & HR5 & HC5 & _ & HM5).
  eapply wp_mono; [apply (roundTail_spec rescan (fst o) v start total (snd o) changed w5); by symmetry|].
  intros e t6 w6 (M6 & R6 & Cur6 & Sv6 & More6 & Nd6). cbv beta.
  set (c := nextCursor C (fst o) (vdUnverified v) start (snd o) total) in *.
  assert (Hc : start <= c <= total) by (eapply nextCursor_bounds; [exact HT|lia]).
  match goal with |- RoundOk _ _ _ ?T _ => replace T with ((t1 ++ tb1) ++ ABegin start :: (tb2 ++ tt ++ tn ++ ts ++ t6)) end.
  2: { cbn [app]. by rewrite <- !app_assoc. }
  assert (M06 : Moved w w6) by (by eapply sr_trans).
  split.
  - exact M06.
  - intros HC. eapply round_removals; [exact HC|by apply Forall_app_2; apply ambient_all|done|exact HT|exact PN|exact HV|exact HS|done].
  - intros Hid tr a Hcov. set (front := (t1 ++ tb1) ++ ABegin start :: tb2 ++ tt ++ tn ++ ts).
    assert (Hfront : (t1 ++ tb1) ++ ABegin start :: tb2 ++ tt ++ tn ++ ts ++ t6 = front ++ t6)
      by (unfold front; rewrite <- !app_assoc; cbn [app]; by rewrite <- !app_assoc).
    rewrite Hfront. eapply round_saves; [|by rewrite HM5 in Sv6; exact Sv6|apply (mv_onward _ _ M6)|done|].
    + destruct (calls_quiet _ (te_calls _ _ _ _ _ _ _ HT)) as (_ & _ & Qt). destruct (nets_quiet _ PN) as (_ & _ & Qn).
      destruct (stores_quiet _ (st_acts _ _ _ _ _ _ _ _ HS)) as [_ Qs].
      repeat first [apply Forall_app_2|apply Forall_cons_2]; try done; by apply ambient_all.
    + intros T HT' Hp. eapply (round_covers resultId w w2 o); [exact (sr_trans _ _ _ F1 F2)|exact M05|exact HT|exact HS|done|fold s; lia|done| | |done];
        unfold front in HT'; set_solver.
  - intros ->. destruct (More6 eq_refl) as [H|[H|H]]; rewrite ?Cur6; auto. right. right. fold s. fold start. lia.
  - rewrite Cur6. apply Hc.
  - intros _. rewrite Cur6. apply Hc.
  - intros _. split; [fold s; lia|done].
  - intros e0 ->. destruct (Nd6 e0 eq_refl).
Qed.
End Round.
