(* ===== verification/ScanPass.v ===== *)
(** A whole run: the loop of runChunks comes to an end and what its rounds promise
    holds of it as a whole, what comes before the chunks and after them keeps out
    of the chunks' business, every run ends, and how it leaves the scan. *)
From stdpp Require Import base list gmap strings.
From Stdlib Require Import ZArith Lia Bool.
From S2P Require Import Prelude IpListParse IpScan IpListStore ScanWorker ScanRun ScanRunFacts ScanChunkFacts ScanRounds ScanHistory.

Open Scope scan_scope.

(** ** Rounds in sequence *)

Lemma covered_moved resultId w w' tr a c : Moved w w' -> Covered resultId w' tr a c = Covered resultId w tr a c.
Proof. intros M. unfold Covered. destruct (samePass_total _ _ (mv_pass _ _ M)) as (-> & _ & -> & _). by rewrite (mv_spec _ _ M). Qed.

Lemma stopAfter_moved w w' : Moved w w' -> isMode (swScan w') = isMode (swScan w) /\ ActiveTotal (swScan w') = ActiveTotal (swScan w).
Proof. intros M. by destruct (samePass_total _ _ (mv_pass _ _ M)) as (-> & _ & _ & _ & ->). Qed.

Section Loop.
Context {Q : QtChar} (W : World) (C : RunConst).

Lemma rounds_app resultId w t1 w1 o t2 w2 : RoundOk W resultId w None t1 w1 -> RoundOk W resultId w1 o t2 w2 ->
  RoundOk W resultId w o (t1 ++ t2) w2.
Proof.
  intros [M1 R1 S1 A1 G1 B1 L1 _] [M2 R2 S2 A2 G2 B2 L2 D2]. destruct (stopAfter_moved _ _ M1) as [Hm Ht]. rewrite Ht in *. split.
  - by eapply sr_trans.
  - intros HC. apply removalsOk_app; auto.
  - intros Hid tr a Hcov. destruct (S1 Hid tr a Hcov) as [H1 H1'].
    destruct (S2 (fun Hp => Hid (onward_persist _ _ (mv_onward _ _ M1) Hp)) (tr ++ t1) a) as [H2 H2']; [intros Hp; rewrite (covered_moved _ _ _ _ _ _ M1); by apply H1'|]. split.
    + eapply saves_app; [exact H1|exact H2|done|]. intros pre m c tot (-> & -> & Hc). rewrite Hm. split; [done|]. split; [done|].
      rewrite app_assoc. by rewrite <- (covered_moved _ _ _ _ _ _ M1).
    + intros Hp. rewrite app_assoc, <- (covered_moved _ _ _ _ _ _ M1). by apply H2'.
  - intros Ho. destruct (A2 Ho) as [?|[?|?]]; auto. right. right. lia.
  - lia.
  - intros H. auto.
  - intros Ho. by apply L1.
  - exact D2.
Qed.

(** Rounds that are left: two when the cursor is at the end or enough is found. *)
Definition enoughFuel (fuel : nat) (w : ScanWorker) : Prop :=
  2 + Z.max 0 (ActiveTotal (swScan w) - ActiveCursor (swScan w)) <= Z.of_nat fuel \/
  (1 <= fuel)%nat /\ (ActiveTotal (swScan w) <= ActiveCursor (swScan w) \/ stopAfterReached (swScan w) = true).

Lemma enoughFuel_next resultId fuel w t w' : enoughFuel (S fuel) w -> RoundOk W resultId w None t w' -> enoughFuel fuel w'.
Proof.
  intros Hf [M _ _ A G _ L _]. destruct (stopAfter_moved _ _ M) as [_ Ht]. destruct (L eq_refl) as [Hlt Hsa]. unfold enoughFuel in *. rewrite Ht.
  destruct Hf as [Hf|[_ [H|H]]]; [|lia|congruence]. destruct (A eq_refl) as [H|[H|H]]; [right; split; [lia|auto]..|]. left. lia.
Qed.

Lemma chunkLoop_spec resultId chunkSize fuel w : enoughFuel fuel w ->
  wp (chunkLoop W C fuel resultId chunkSize) (fun o t w' => is_Some o /\ RoundOk W resultId w o t w') w.
Proof.
  revert w. induction fuel as [|fuel IH]; intros w Hf; cbn [chunkLoop].
  { exfalso. unfold enoughFuel in Hf. lia. }
  eapply wp_bind_with; [apply (chunkRound_spec W C resultId)|]. intros o t1 w1 H1. cbv beta. destruct o as [o|].
  - apply wp_ret. rewrite app_nil_r. by split.
  - eapply wp_mono; [apply IH; by eapply enoughFuel_next|]. intros o t2 w2 [Ho H2]. cbv beta. split; [done|]. by eapply rounds_app.
Qed.

(** runChunks: the count of what is found, the live state, and the loop. *)
Record ChunksOk (w : ScanWorker) (o : option (bool * option Message)) (t : list ScanAct) (w' : ScanWorker) : Prop := {
  ck_some : is_Some o;
  ck_moved : Moved w w';
  ck_removals : HonestCore W -> removalsOk t;
  ck_saves : (swPersist w = true -> 0 <= result_list_id (swScan w)) ->
    Saves (fun pre m c tot => m = isMode (swScan w) /\ tot = ActiveTotal (swScan w) /\
      Covered (result_list_id (swScan w)) w pre (ActiveCursor (swScan w)) c) t /\
    (swPersist w' = true -> Covered (result_list_id (swScan w)) w t (ActiveCursor (swScan w)) (ActiveCursor (swScan w')));
  ck_grows : ActiveCursor (swScan w) <= ActiveCursor (swScan w');
  ck_done : forall e, o = Some (true, e) -> e = None /\
    (ActiveTotal (swScan w) <= ActiveCursor (swScan w') \/ stopAfterReached (swScan w') = true)
}.

Lemma foundCount_spec {P} {PA : Actions P} b resultId : within Counted P
  (when b (count ← dbRead W C 0 (EntryCount resultId);
           _ ← modify (onScan (is_found count));
           underMutex W C (onLive (lv_Found count)))).
Proof.
  assert (Hlive : forall f, within Counted P (underMutex W C (onLive f))).
  { intros f. apply (within_weaken Framed Counted P P); [|apply framed_counted|done]. apply (within_underMutex W C). intros x. apply framed_onLive. }
  assert (Hread : within Counted P (dbRead W C 0 (EntryCount resultId))).
  { apply (within_weaken Framed Counted P P); [apply (framed_dbRead W C)|apply framed_counted|done]. }
  assert (Hfound : forall n, within Counted P (modify (onScan (is_found n)))).
  { intros n. apply counted_modify. intros s. exists n, (removed s). by destruct s. }
  within_auto.
Qed.

Lemma rounds_chunks w t0 w1 o t w' : Counted w w1 -> Forall ambient t0 -> is_Some o -> RoundOk W (result_list_id (swScan w)) w1 o t w' ->
  ChunksOk w o (t0 ++ t) w'.
Proof.
  intros HC Ha Ho [M R S A G B L D]. destruct (counted_moved _ _ HC) as [M1 Hcur]. destruct (stopAfter_moved _ _ M1) as [Hm Ht].
  rewrite Hcur, Ht in *. split.
  - done.
  - by eapply sr_trans.
  - intros Hcore. apply removalsOk_app; [by apply removes_none, ambient_all|auto].
  - intros Hid. destruct (S (fun Hp => Hid (onward_persist _ _ (mv_onward _ _ M1) Hp)) [] (ActiveCursor (swScan w))) as [HS HR]; [intros _; constructor|].
    split; [|intros Hp; rewrite <- (covered_moved _ _ _ _ _ _ M1); eapply covers_mono; [|by apply HR]; set_solver].
    eapply (saves_app _ (fun _ _ _ _ => False)); [by apply saves_none, ambient_all|exact HS|done|].
    intros pre m c tot (-> & -> & Hc). split; [done|]. split; [done|]. rewrite (covered_moved _ _ _ _ _ _ M1) in Hc.
    unfold Covered in *. eapply covers_mono; [|exact Hc]. set_solver.
  - done.
  - exact D.
Qed.

Lemma chunkFuel_enough w : enoughFuel (chunkFuel (swScan w)) w.
Proof. left. unfold chunkFuel. lia. Qed.

Lemma runChunks_ok w : wp (runChunks W C) (ChunksOk w) w.
Proof.
  unfold runChunks. apply wp_bind, wp_gets. cbv beta zeta. cbn [app]. set (id := result_list_id (swScan w)).
  eapply wp_bind_with; [apply (within_persist W C (R := Counted) (P := ambient))|]. intros p t1 w1 [F1 P1]. cbv beta.
  eapply wp_bind_with; [apply (foundCount_spec (P := ambient))|]. intros _ t2 w2 [F2 P2]. cbv beta.
  apply wp_bind, wp_gets. cbn [app].
  eapply wp_bind_with; [apply (framed_setTested W C (P := ambient))|]. intros _ t3 w3 [F3 P3]. cbv beta.
  assert (F : Counted w w3) by (eapply sr_trans; [exact F1|]; eapply sr_trans; [exact F2|by apply framed_counted]).
  rewrite <- (fr_scan _ _ F3).
  eapply wp_mono; [apply (chunkLoop_spec id), chunkFuel_enough|]. intros o t w' [Ho H]. cbv beta.
  rewrite !app_assoc. apply (rounds_chunks w _ w3); try done. rewrite <- app_assoc. by repeat apply Forall_app_2.
Qed.
End Loop.

(** ** Before and after the chunks *)

(** What is noted outside the chunks, before the run says that it is over. *)
Definition passAct (a : ScanAct) : Prop :=
  match a with ARemove _ _ | ABegin _ | ASaveProgress _ _ _ _ _ | AFinished | AStopScan => False | _ => True end.

#[export] Instance passAct_actions : Actions passAct.
Proof. intros []; done. Qed.

Lemma pass_quiet t : Forall passAct t -> Forall noRemove t /\ Forall noProgress t.
Proof. intros H. split; (eapply Forall_impl; [exact H|]; by intros []). Qed.

Section Pass.
Context {Q : QtChar} (W : World) (C : RunConst).

Lemma onward_of {A} (m : M A) : within Framed passAct m -> within Onward passAct m.
Proof. intros H. eapply within_weaken; [exact H|apply fr_onward|done]. Qed.

Lemma onward_modify f : (forall w, swStop (f w) = swStop w /\ swPersist (f w) = swPersist w /\ swOut (f w) = swOut w) -> within Onward passAct (modify f).
Proof. intros H. apply within_modify. intros w. destruct (H w) as (H1 & H2 & H3). split; [|done]. split; by rewrite ?H1, ?H2. Qed.

#[local] Hint Resolve onward_of : scanrun.
#[local] Hint Extern 1 (within Onward passAct (modify _)) => (apply onward_modify; intros; repeat case_match; by repeat split) : scanrun.
#[local] Hint Extern 1 (within Onward passAct (underMutex _ _ _)) => (apply (within_underMutex _ _); intros; by repeat split) : scanrun.
#[local] Hint Extern 1 (passAct _) => exact I : scanrun.

Ltac onward_auto := repeat (cbv zeta; first [solve [auto 6 with scanrun typeclass_instances]|within_step]).

Lemma onward_dbWrite {A} id a (f : option nat -> IpListStore -> A * IpListStore) : (forall stored, passAct (a stored)) -> within Onward passAct (dbWrite W C id a f).
Proof. intros H. exact (onward_of _ (framed_dbWrite W C id a f H)). Qed.

Lemma onward_clearCall id : within Onward passAct (clearCall W C id).
Proof. by apply onward_dbWrite. Qed.

Lemma onward_deleteCall id : within Onward passAct (deleteCall W C id).
Proof. by apply onward_dbWrite. Qed.

Lemma onward_addList role es : within Onward passAct (addList W C role es).
Proof. exact (onward_of _ (framed_addList W C role es (fun _ => I))). Qed.

#[local] Hint Resolve onward_clearCall onward_deleteCall onward_addList : scanrun.

Lemma onward_deleteList id : within Onward passAct (deleteList W C id).
Proof. unfold deleteList. onward_auto. Qed.

Lemma onward_persistPassState : within Onward passAct (persistPassState W C).
Proof. unfold persistPassState. onward_auto. Qed.

Lemma onward_Ensure : within Onward passAct (EnsureScanResultList W C).
Proof. unfold EnsureScanResultList, scan_. onward_auto. Qed.

#[local] Hint Resolve onward_deleteList onward_persistPassState onward_Ensure : scanrun.

Lemma onward_countTargets spec : within Onward passAct (countTargets W C spec).
Proof. unfold countTargets, ScanProbe. onward_auto. Qed.

#[local] Hint Resolve onward_countTargets : scanrun.

Lemma onward_prepareInitial : within Onward passAct (prepareInitial W C).
Proof. unfold prepareInitial, halted, failWith, scan_. onward_auto. Qed.

Lemma onward_prepareRescan : within Onward passAct (prepareRescan W C).
Proof. unfold prepareRescan, halted, failWith, scan_. onward_auto. Qed.

#[local] Hint Resolve onward_prepareInitial onward_prepareRescan : scanrun.

Lemma onward_preparePass : within Onward passAct (preparePass W C).
Proof. unfold preparePass, halted, failWith, scan_. onward_auto. Qed.

Lemma onward_loadSpec : within Onward passAct (loadSpec W C).
Proof. unfold loadSpec, failWith, scan_. onward_auto. Qed.

(** ** The chunks say nothing of the end *)

Definition noFinish (a : ScanAct) : Prop := match a with AFinished | AStopScan => False | _ => True end.

#[local] Instance noFinish_actions : Actions noFinish.
Proof. intros []; done. Qed.

(** What is noted in the chunks. *)
Definition roundAct (a : ScanAct) : Prop := match a with AFinished | AStopScan | ASaveRow _ => False | _ => True end.

#[local] Instance roundAct_actions : Actions roundAct.
Proof. intros []; done. Qed.

Lemma quiet_of {A} (m : M A) (post : ScanWorker -> A -> list ScanAct -> ScanWorker -> Prop) : (forall w, wp m (post w) w) ->
  (forall w a t w', post w a t w' -> Onward w w' /\ Forall roundAct t) -> within Onward roundAct m.
Proof. intros Hm Hp w. eapply wp_mono; [apply Hm|]. intros a t w' H. exact (Hp w a t w' H). Qed.

Lemma quiet_framed {A} (m : M A) : within Framed roundAct m -> within Onward roundAct m.
Proof. intros H. eapply within_weaken; [exact H|apply fr_onward|done]. Qed.

Lemma quiet_runChunk spec a n next : within Onward roundAct (runChunk W C spec a n next).
Proof.
  eapply quiet_of; [intros w; apply (runChunk_spec W C spec a n next w)|]. intros w o t w' [F P _ _ _]. split; [apply F|].
  eapply Forall_impl; [exact P|]. by intros [].
Qed.

Lemma quiet_confirmFailures r a next : within Onward roundAct (confirmFailures W C r a next).
Proof.
  eapply quiet_of; [intros w; apply (confirmFailures_spec W C r a next w)|]. intros w o t w' [F P _ _ _ _ _ _]. split; [apply F|].
  eapply Forall_impl; [exact P|]. by intros [].
Qed.

Lemma quiet_checkNetwork rescan r : within Onward roundAct (checkNetwork W C rescan r).
Proof.
  eapply quiet_of; [intros w; apply (checkNetwork_spec W C rescan r w)|]. intros w o t w' (F & P & _). split; [apply F|].
  eapply Forall_impl; [exact P|]. by intros [].
Qed.

Lemma quiet_storeResults rescan guarded id r v : within Onward roundAct (storeResults W C rescan guarded id r v).
Proof.
  eapply quiet_of; [intros w; apply (storeResults_spec W C rescan guarded id r v w)|]. intros w o t w' [F P _ _]. split; [apply F|].
  eapply Forall_impl; [exact P|]. by intros [].
Qed.

Lemma quiet_saveProgress : within Onward roundAct (saveProgress W C).
Proof.
  eapply quiet_of; [intros w; apply (saveProgress_spec W C w)|]. intros w o t w' (F & _ & [P|(_ & t1 & t2 & f & r & P1 & P2 & ->)]);
    (split; [apply F|]); [by apply ambient_all|]. apply Forall_app_2; [by apply ambient_all|constructor; [done|by apply ambient_all]].
Qed.

Lemma quiet_beginChunk a n : within Onward roundAct (beginChunk W C a n).
Proof.
  eapply quiet_of; [intros w; apply (beginChunk_spec W C a n w)|]. intros w o t w' (F & t1 & t2 & -> & P1 & P2). split; [apply F|].
  apply Forall_app_2; [by apply ambient_all|constructor; [done|by apply ambient_all]].
Qed.

#[local] Hint Resolve quiet_runChunk quiet_confirmFailures quiet_checkNetwork quiet_storeResults quiet_saveProgress quiet_beginChunk : scanrun.
#[local] Hint Resolve quiet_framed : scanrun.
#[local] Hint Extern 1 (roundAct _) => exact I : scanrun.

Lemma quiet_onScan f : within Onward roundAct (modify (onScan f)).
Proof. apply within_modify. by repeat split. Qed.

Lemma quiet_underMutex f : (forall w, Framed w (f w) /\ swOut (f w) = swOut w) -> within Onward roundAct (underMutex W C f).
Proof. intros H. by apply quiet_framed, (within_underMutex W C). Qed.

#[local] Hint Resolve quiet_onScan : scanrun.

Lemma quiet_chunkRound id size : within Onward roundAct (chunkRound W C id size).
Proof.
  unfold chunkRound, chunkEnd, scan_. within_auto. apply quiet_underMutex. intros w. split; [|done]. by split; [split| | |].
Qed.

Lemma quiet_chunkLoop fuel id size : within Onward roundAct (chunkLoop W C fuel id size).
Proof. induction fuel as [|fuel IH]; cbn [chunkLoop]; [apply within_ret|]. apply within_bind; [apply quiet_chunkRound|]. intros []; [apply within_ret|done]. Qed.

Lemma quiet_runChunks : within Onward roundAct (runChunks W C).
Proof.
  unfold runChunks, scan_. within_auto; try apply quiet_chunkLoop. apply quiet_underMutex. intros w. apply framed_onLive.
Qed.

(** ** The end of a run *)

(** How a run leaves the scan: paused exactly when it can be resumed. *)
Definition Settled (s : IpScan) : Prop :=
  isStatus s <> Running /\ (isStatus s = Paused <-> rescanResumable s = true \/ CanResumeInitial s = true).

Lemma framed_deleteList {P} {PA : Actions P} id : P (ADelete id) -> within Framed P (deleteList W C id).
Proof.
  intros HP. assert (within Framed P (deleteCall W C id)) by by apply (framed_dbWrite W C).
  unfold deleteList. within_auto.
Qed.

Lemma framed_row {P} {PA : Actions P} f : (forall w, exists row, f w = sw_Row row w) -> within Framed P (modify f).
Proof. intros H. apply within_modify. intros w. destruct (H w) as [row ->]. split; [|done]. by split; [split| | |]. Qed.

Lemma framed_persistPassState : within Framed passAct (persistPassState W C).
Proof.
  unfold persistPassState, scan_. within_auto; try done. apply framed_row. intros w. destruct (swRow w) eqn:E; [by eexists|].
  exists None. rewrite <- E. by destruct w.
Qed.

Definition settle (completed : bool) (error : option Message) : M unit :=
  s ← scan_;
  if completed then
    _ ← (if scanRescanPass s then
           _ ← deleteList W C (rescan_snapshot_list_id s);
           _ ← modify (onScan (is_rescan_snapshot_list_id (-1)));
           if CanResumeInitial s then modify (onScan (fun s => is_Mode Initial (is_Status Paused s)))
           else now ← tick W C; modify (onScan (fun s => is_Status Completed (is_finished_at (swNow W now) s)))
         else
           _ ← deleteList W C (snapshot_list_id s);
           now ← tick W C;
           modify (onScan (fun s => is_snapshot_list_id (-1) (is_Status Completed (is_finished_at (swNow W now) s)))));
    modify (onScan (is_last_error None))
  else
    let resumable := rescanResumable s in
    _ ← when (scanRescanPass s && negb resumable && CanResumeInitial s) (modify (onScan (is_Mode Initial)));
    modify (onScan (fun s =>
      is_Status (if resumable || CanResumeInitial s then Paused
                 else if isSome error then Failed
                 else if decide (rcInitialStatus C = Completed) then Completed else Idle)
        (is_last_error error s))).

Lemma settled_paused s e : scanRescanPass s = true -> CanResumeInitial s = true ->
  Settled (is_last_error e (is_Mode Initial (is_Status Paused (is_rescan_snapshot_list_id (-1) s)))).
Proof. intros Hr Hc. destruct s. split; [done|]. by split; [right|]. Qed.

Lemma settled_rescanned s e now : CanResumeInitial s = false ->
  Settled (is_last_error e (is_Status Completed (is_finished_at now (is_rescan_snapshot_list_id (-1) s)))).
Proof.
  intros Hc. destruct s. split; [done|]. split; [done|]. intros [H|H]; [|by unfold CanResumeInitial in *; cbn in *; congruence]. unfold rescanResumable in H. cbn in H.
  by rewrite andb_false_r in H.
Qed.

Lemma settled_completed s e now : scanRescanPass s = false ->
  Settled (is_last_error e (is_snapshot_list_id (-1) (is_Status Completed (is_finished_at now s)))).
Proof. intros Hr. destruct s as [? ? ? ? ? ? ? [] ? ? ? ? ? ? ? ? ? ? ? ? ?]; [|done]. split; [done|]. split; [done|]. by intros [H|H]. Qed.

Lemma paused_iff st (b c : bool) : st ∉ [Running; Paused] -> let st' := if b || c then Paused else st in
  st' <> Running /\ (st' = Paused <-> b = true \/ c = true).
Proof. intros H. destruct b, c; cbn; (split; [set_solver|split; auto]); [set_solver|by intros [?|?]]. Qed.

Lemma settled_ended s e initial : let s' := if scanRescanPass s && negb (rescanResumable s) && CanResumeInitial s then is_Mode Initial s else s in
  Settled (is_Status (if rescanResumable s || CanResumeInitial s' then Paused
    else if isSome e then Failed else if decide (initial = Completed) then Completed else Idle) (is_last_error e s')).
Proof.
  assert (Hend : (if isSome e then Failed else if decide (initial = Completed) then Completed else Idle) ∉ [Running; Paused]).
  { destruct (isSome e), (decide (initial = Completed)); set_solver. }
  destruct s as [? ? ? ? ? ? ? mode snap ? cur tot ? rsnap rcur rtot ? ? ? ? ?].
  unfold Settled, scanRescanPass, rescanResumable, CanResumeInitial. cbn.
  destruct mode; cbn; [|destruct ((0 <=? rsnap) && (rcur <? rtot)) eqn:Hr; cbn]; destruct ((0 <=? snap) && (0 <? tot) && (cur <? tot)) eqn:Hc; cbn; rewrite ?Hc, ?Hr;
    first [exact (paused_iff _ true true Hend)|exact (paused_iff _ true false Hend)|exact (paused_iff _ false true Hend)
          |exact (paused_iff _ false false Hend)].
Qed.

Lemma settle_spec completed error w : wp (settle completed error) (fun _ t w' => Onward w w' /\ Forall passAct t /\ Settled (swScan w')) w.
Proof.
  unfold settle. apply wp_bind, wp_gets. set (s := swScan w). destruct completed.
  - apply wp_bind. destruct (scanRescanPass s) eqn:Hr.
    + eapply wp_bind_with; [by apply (framed_deleteList (P := passAct))|]. intros _ t1 w1 [F1 P1]. cbv beta. apply wp_bind, wp_modify; [done|].
      destruct (CanResumeInitial s) eqn:Hc.
      * apply wp_modify; [done|]. apply wp_modify; [done|]. rewrite !app_nil_r. split; [by destruct F1 as [[] _ _ _]; split|]. split; [done|].
        cbn. rewrite (fr_scan _ _ F1). by apply settled_paused.
      * eapply wp_bind_with; [apply (within_tick (R := Framed) (P := passAct))|]. intros n t2 w2 [F2 P2]. cbv beta.
        apply wp_modify; [done|]. apply wp_modify; [done|]. cbn [app]. rewrite !app_nil_r. split; [|split; [by apply Forall_app_2|]].
        -- destruct F1 as [[] _ _ _], F2 as [[] _ _ _]. by split; cbn in *; auto.
        -- cbn. rewrite (fr_scan _ _ F2). cbn. rewrite (fr_scan _ _ F1). by apply settled_rescanned.
    + eapply wp_bind_with; [by apply (framed_deleteList (P := passAct))|]. intros _ t1 w1 [F1 P1]. cbv beta.
      eapply wp_bind_with; [apply (within_tick (R := Framed) (P := passAct))|]. intros n t2 w2 [F2 P2]. cbv beta.
      apply wp_modify; [done|]. apply wp_modify; [done|]. cbn [app]. rewrite !app_nil_r.
      assert (F : Framed w w2) by exact (sr_trans _ _ _ F1 F2). split; [by destruct F as [[] _ _ _]; split|]. split; [by apply Forall_app_2|].
      cbn. rewrite (fr_scan _ _ F). by apply settled_completed.
  - apply wp_bind. pose proof (settled_ended s error (rcInitialStatus C)) as Hs. cbv zeta in Hs.
    destruct (scanRescanPass s && negb (rescanResumable s) && CanResumeInitial s); cbn [when].
    + apply wp_modify; [done|]. apply wp_modify; [done|]. split; [by split|]. split; [constructor|exact Hs].
    + apply wp_ret. apply wp_modify; [done|]. split; [by split|]. split; [constructor|exact Hs].
Qed.

Lemma framed_finalized {P} {PA : Actions P} : within Framed P (modify (sw_Finalized true)).
Proof. apply within_modify. intros w. split; [|done]. by split; [split| | |]. Qed.

Lemma finishPass_spec completed error w :
  wp (finishPass W C completed error) (fun _ t w' => Onward w w' /\ Forall passAct t /\ Settled (swScan w')) w.
Proof.
  unfold finishPass. apply wp_assoc. eapply wp_bind_with; [apply (settle_spec completed error)|]. intros _ t1 w1 (O1 & P1 & S1). cbv beta.
  match goal with |- wp ?m _ _ => assert (Hrest : within Framed passAct m) end.
  { apply within_bind; [apply framed_persistPassState|intros _]. apply within_bind; [apply within_tick|intros _].
    apply within_bind; [apply framed_finalized|intros _]. unfold scan_. within_auto; [exact (within_mwLog _ I)|].
    apply (within_underMutex W C). intros x. apply framed_onLive. }
  eapply wp_mono; [apply Hrest|]. intros _ t2 w2 [F2 P2]. cbv beta. split; [eapply sr_trans; [exact O1|apply F2]|].
  split; [by apply Forall_app_2|]. by rewrite (fr_scan _ _ F2).
Qed.

(** What happens up to the end of the pass. *)
Record Executed (w : ScanWorker) (o : option (bool * option Message)) (t : list ScanAct) (w' : ScanWorker) : Prop := {
  xe_some : is_Some o;
  xe_onward : Onward w w';
  xe_quiet : Forall noFinish t;
  xe_removals : HonestCore W -> removalsOk t
}.

Lemma pass_noFinish t : Forall passAct t -> Forall noFinish t.
Proof. intros H. eapply Forall_impl; [exact H|]. by intros []. Qed.

Lemma executed_pass w o t w' : is_Some o -> Onward w w' -> Forall passAct t -> Executed w o t w'.
Proof. intros Ho H P. split; [done|done|by apply pass_noFinish|]. intros _. by apply removes_none, pass_quiet. Qed.

Lemma executed_after w t1 w1 o t2 w2 : Onward w w1 -> Forall passAct t1 -> Executed w1 o t2 w2 -> Executed w o (t1 ++ t2) w2.
Proof.
  intros H P [S O Qt R]. split; [done|by eapply sr_trans|apply Forall_app_2; [by apply pass_noFinish|done]|].
  intros HC. apply removalsOk_app; [by apply removes_none, pass_quiet|auto].
Qed.

Lemma runChunks_executed w : wp (runChunks W C) (Executed w) w.
Proof.
  eapply wp_mono; [exact (wp_conj _ _ _ _ (runChunks_ok W C w) (quiet_runChunks w))|].
  intros o t w' [H [_ Hq]]. cbv beta in *. split; [apply H|apply (mv_onward _ _ (ck_moved _ _ _ _ _ H))| |apply H].
  eapply Forall_impl; [exact Hq|]. by intros [].
Qed.

(** A step outside the chunks, then what follows. *)
Lemma executed_step {A} (m : M A) f w : within Onward passAct m -> (forall a w1, wp (f a) (Executed w1) w1) -> wp (bind m f) (Executed w) w.
Proof.
  intros Hm Hf. eapply wp_bind_with; [apply Hm|]. intros a t1 w1 [O P]. cbv beta. eapply wp_mono; [apply Hf|].
  intros o t2 w2 H. by eapply executed_after.
Qed.

Lemma executed_ret o w : is_Some o -> wp (ret o) (Executed w) w.
Proof. intros Ho. apply wp_ret, executed_pass; [done|apply sr_refl|constructor]. Qed.

Lemma execute_spec w : wp (execute W C) (Executed w) w.
Proof.
  unfold execute. cbv zeta. do 2 (apply executed_step; [onward_auto|intros _ ?]).
  destruct (rcConfigPhase C && negb (rcBase C)); [by apply executed_ret|]. destruct (rcConfigPhase C && isSome (rcBaseError C)); [by apply executed_ret|].
  apply executed_step; [onward_auto|intros _ ?]. apply executed_step; [onward_auto|intros [] ?]; [by apply executed_ret|].
  apply executed_step; [apply onward_preparePass|intros [e|] ?]; [by apply executed_ret|]. cbn [isSome].
  apply executed_step; [onward_auto|intros touched ?]. apply executed_step; [onward_auto|intros _ ?].
  apply executed_step; [onward_auto|intros [] ?]; [by apply executed_ret|].
  apply executed_step; [apply onward_loadSpec|intros [e|] ?]; [by apply executed_ret|apply runChunks_executed].
Qed.

(** A run ends, says so once, and leaves the scan as it is to be resumed. *)
Record RunOk (w : ScanWorker) (b : bool) (t : list ScanAct) (w' : ScanWorker) : Prop := {
  ru_ends : b = true;
  ru_settled : Settled (swScan w');
  ru_finished : exists t1 t2, t = t1 ++ AFinished :: t2 ++ [AStopScan] /\ Forall noFinish t1 /\ Forall ambient t2;
  ru_removals : HonestCore W -> removalsOk t
}.

Lemma scan_run_ok w : wp (run W C) (RunOk w) w.
Proof.
  unfold run. eapply wp_bind_with; [apply execute_spec|]. intros o t1 w1 [[[completed error] ->] O1 Q1 R1]. cbv beta iota.
  eapply wp_bind_with; [apply (within_stop W C (R := Framed) (P := passAct))|]. intros st t2 w2 [F2 P2]. cbv beta.
  eapply wp_bind_with; [apply finishPass_spec|]. intros _ t3 w3 (O3 & P3 & S3). cbv beta.
  eapply wp_bind_with; [apply (within_tick (R := Framed) (P := ambient))|]. intros n t4 w4 [F4 P4]. cbv beta. apply wp_bind, wp_modify; [done|].
  eapply wp_bind_with; [apply (within_underMutex W C (R := Framed) (P := ambient)); intros x; by split; [split; [split| | |]|]|]. intros _ t5 w5 [F5 P5]. cbv beta.
  apply wp_bind, wp_note. eapply wp_bind_with; [apply (within_tick (R := Framed) (P := ambient))|]. intros m t6 w6 [F6 P6]. cbv beta.
  apply wp_bind, wp_note, wp_ret. cbn [app]. rewrite ?app_nil_r. split.
  - done.
  - cbn. rewrite (fr_scan _ _ F6). cbn. rewrite (fr_scan _ _ F5). cbn. by rewrite (fr_scan _ _ F4).
  - exists (t1 ++ t2 ++ t3 ++ t4 ++ t5), t6. split; [by rewrite <- !app_assoc|]. split; [|done].
    repeat apply Forall_app_2; first [done|by apply pass_noFinish|by apply ambient_all].
  - intros HC. apply removalsOk_app; [auto|]. apply removes_none. repeat first [apply Forall_app_2|apply Forall_cons_2]; try done;
      first [by apply pass_quiet|by apply ambient_all].
Qed.
End Pass.

(** ** Saved positions *)

Definition posOf (m : ScanMode) (s : IpScan) : Z := match m with Initial => cursor s | RescanResult => rescan_cursor s end.
Definition totOf (m : ScanMode) (s : IpScan) : Z := match m with Initial => total s | RescanResult => rescan_total s end.

(** An action that saves position [c] of [tot] for the pass [m]: a row has the
    positions of both. *)
Inductive savedAt : ScanAct -> ScanMode -> Z -> Z -> Prop :=
| saved_progress m c tot f r : savedAt (ASaveProgress m c tot f r) m c tot
| saved_row row m : savedAt (ASaveRow row) m (posOf m row) (totOf m row).

Definition noSave (a : ScanAct) : Prop := match a with ASaveProgress _ _ _ _ _ | ASaveRow _ => False | _ => True end.

#[export] Instance noSave_actions : Actions noSave.
Proof. intros []; done. Qed.

Lemma noSave_saved a m c tot : noSave a -> savedAt a m c tot -> False.
Proof. intros H Hs. by destruct Hs. Qed.

(** What holds after an operation when [J] holds before it. *)
Definition hoare {A} (J : ScanWorker -> Prop) (m : M A) (K : A -> ScanWorker -> Prop) : Prop := forall w, J w -> K (fst (m w)) (snd (m w)).

Lemma hoare_bind {A B} J (m : M A) (f : A -> M B) K L : hoare J m K -> (forall a, hoare (K a) (f a) L) -> hoare J (bind m f) L.
Proof. intros Hm Hf w H. unfold bind. specialize (Hm w H). destruct (m w) as [a w1]. exact (Hf a w1 Hm). Qed.

Lemma hoare_weaken {A} (J J' : ScanWorker -> Prop) (m : M A) (K K' : A -> ScanWorker -> Prop) :
  hoare J' m K' -> (forall w, J w -> J' w) -> (forall a w, K' a w -> K a w) -> hoare J m K.
Proof. intros Hm HJ HK w H. apply HK, Hm, HJ, H. Qed.

Lemma hoare_wp {A} J (m : M A) (post : ScanWorker -> A -> list ScanAct -> ScanWorker -> Prop) K : (forall w, wp m (post w) w) ->
  (forall w a t w', J w -> swOut w' = swOut w ++ t -> post w a t w' -> K a w') -> hoare J m K.
Proof. intros Hm HK w HJ. destruct (Hm w) as (t & Ht & Hp). by eapply HK. Qed.

Section Saves.
Context {Q : QtChar} (W : World) (C : RunConst) (scan0 : IpScan) (cfg : ScanConfig).

(** A position that the core got to from where the pass began: from nothing, or
    from where the scan was when the run began, in the same pass. *)
Definition Reached (T : list ScanAct) (m : ScanMode) (c tot : Z) : Prop :=
  exists start spec listId, (start = 0 \/ start = posOf m scan0 /\ tot = totOf m scan0) /\ covers spec cfg listId tot T start c.

Definition SavesOk (T : list ScanAct) : Prop := forall pre a post m c tot, T = pre ++ a :: post -> savedAt a m c tot -> Reached pre m c tot.

(** Nothing was done in the pass yet. *)
Definition AtStart (m : ScanMode) (s : IpScan) : Prop := posOf m s = 0 \/ posOf m s = posOf m scan0 /\ totOf m s = totOf m scan0.

Definition AllReached (w : ScanWorker) : Prop := forall m, Reached (swOut w) m (posOf m (swScan w)) (totOf m (swScan w)).

Lemma reached_start m s T : AtStart m s -> Reached T m (posOf m s) (totOf m s).
Proof. intros H. exists (posOf m s), emptySpec, 0. split; [exact H|constructor]. Qed.

Lemma reached_mono T T' m c tot : T ⊆ T' -> Reached T m c tot -> Reached T' m c tot.
Proof. intros HT (start & spec & id & Hs & Hc). exists start, spec, id. split; [done|by eapply covers_mono]. Qed.

Lemma savesOk_app T t : SavesOk T -> Forall noSave t -> SavesOk (T ++ t).
Proof.
  intros HT Ht pre a post m c tot Heq Hs. destruct (app_eq_inv _ _ _ _ Heq) as [(k & -> & Hk)|(k & -> & Hk)].
  - destruct k as [|x k]; [|injection Hk as <- ->; by eapply HT]. cbn in Hk. subst t. apply Forall_cons in Ht as [Ha _]. by destruct (noSave_saved a m c tot).
  - subst t. apply Forall_app in Ht as [_ [Ha _]%Forall_cons]. by destruct (noSave_saved a m c tot).
Qed.

Lemma savesOk_snoc T a : SavesOk T -> (forall m c tot, savedAt a m c tot -> Reached T m c tot) -> SavesOk (T ++ [a]).
Proof.
  intros HT Ha pre x post m c tot Heq Hs. destruct post as [|y post] using rev_ind; [apply app_inj_tail in Heq as [-> ->]; auto|].
  rewrite app_comm_cons, app_assoc in Heq. apply app_inj_tail in Heq as [Heq _]. by eapply HT.
Qed.

(** *** Before the chunks *)

(** [z] is a pass known to be at nothing; [R] is more about the flags and the
    result list. *)
Record Inv (z : option ScanMode) (R : ScanWorker -> Prop) (w : ScanWorker) : Prop := {
  iv_config : isConfig (swScan w) = cfg;
  iv_start : forall m, AtStart m (swScan w);
  iv_saves : SavesOk (swOut w);
  iv_zero : forall m, z = Some m -> posOf m (swScan w) = 0;
  iv_ready : R w
}.

Class Stays (R : ScanWorker -> Prop) : Prop :=
  stays : forall w w', Onward w w' -> result_list_id (swScan w') = result_list_id (swScan w) -> R w -> R w'.

Definition anyhow (w : ScanWorker) : Prop := True.
(** Results can be written, or nothing is. *)
Definition writable (w : ScanWorker) : Prop := swPersist w = false \/ 0 <= result_list_id (swScan w).
Definition ready (w : ScanWorker) : Prop := swStop w = true \/ writable w.

#[local] Instance anyhow_stays : Stays anyhow.
Proof. done. Qed.
#[local] Instance writable_stays : Stays writable.
Proof. intros w w' [_ H2] Hid [?|?]; [left; auto|right; by rewrite Hid]. Qed.
#[local] Instance ready_stays : Stays ready.
Proof. intros w w' H Hid [?|?]; [left; by apply (on_stop _ _ H)|right; by eapply writable_stays]. Qed.

Lemma inv_weaken z R w : Inv z R w -> Inv None anyhow w.
Proof. intros [H1 H2 H3 _ _]. by split. Qed.

Section Keeps.
Context {z : option ScanMode} {R : ScanWorker -> Prop} {SR : Stays R}.

Lemma inv_framed {A} (m : M A) : within Framed noSave m -> hoare (Inv z R) m (fun _ => Inv z R).
Proof.
  intros Hm. eapply hoare_wp; [exact Hm|]. intros w _ t w' [H1 H2 H3 H4 H5] Ht [F P]. pose proof (fr_scan _ _ F) as Hs.
  split; rewrite ?Hs, ?Ht; auto; [by apply savesOk_app|]. eapply stays; [apply F|by rewrite Hs|done].
Qed.

Lemma inv_bind {A B} (m : M A) (f : A -> M B) K : hoare (Inv z R) m (fun _ => Inv z R) -> (forall a, hoare (Inv z R) (f a) K) ->
  hoare (Inv z R) (bind m f) K.
Proof. intros Hm Hf. by eapply hoare_bind. Qed.

(** A change of the scan that leaves the positions, or goes back to nothing. *)
Lemma inv_onScan_with z' f : (forall w, R w -> R (onScan f w)) ->
  (forall s, isConfig (f s) = isConfig s /\
    (forall m, posOf m (f s) = 0 \/ posOf m (f s) = posOf m s /\ (totOf m (f s) = totOf m s \/ z = Some m)) /\
    (forall m, z' = Some m -> posOf m (f s) = 0 \/ z = Some m)) ->
  hoare (Inv z R) (modify (onScan f)) (fun _ => Inv z' R).
Proof.
  intros HR Hf w [H1 H2 H3 H4 H5]. cbn [modify fst snd]. destruct (Hf (swScan w)) as (F1 & F2 & F3).
  assert (Hz : forall m, z = Some m -> posOf m (f (swScan w)) = 0) by (intros m Hm; destruct (F2 m) as [?|[-> _]]; auto).
  split; cbn [swScan onScan swOut sw_Scan]; [by rewrite F1| |done| |by apply HR].
  - intros m. destruct (F2 m) as [?|[Hp [Ht|Hm]]]; [by left| |left; auto]. unfold AtStart. rewrite Hp, Ht. apply H2.
  - intros m Hm. destruct (F3 m Hm); auto.
Qed.

Lemma inv_onScan z' f : (forall s, isConfig (f s) = isConfig s /\ result_list_id (f s) = result_list_id s /\
    (forall m, posOf m (f s) = 0 \/ posOf m (f s) = posOf m s /\ (totOf m (f s) = totOf m s \/ z = Some m)) /\
    (forall m, z' = Some m -> posOf m (f s) = 0 \/ z = Some m)) ->
  hoare (Inv z R) (modify (onScan f)) (fun _ => Inv z' R).
Proof.
  intros Hf. apply inv_onScan_with; [|intros s; destruct (Hf s) as (? & _ & ? & ?); auto].
  intros w. apply stays; [by split|]. by destruct (Hf (swScan w)) as (_ & ? & _).
Qed.

(** A change outside the scan. *)
Lemma inv_modify f : (forall w, swScan (f w) = swScan w /\ swOut (f w) = swOut w /\ swStop (f w) = swStop w /\ swPersist (f w) = swPersist w) ->
  hoare (Inv z R) (modify f) (fun _ => Inv z R).
Proof.
  intros Hf w [H1 H2 H3 H4 H5]. cbn [modify fst snd]. destruct (Hf w) as (F1 & F2 & F3 & F4).
  split; rewrite ?F1, ?F2; auto. eapply stays; [|by rewrite F1|exact H5]. by split; rewrite ?F3, ?F4.
Qed.

Lemma inv_ret {A} (a : A) : hoare (Inv z R) (ret a) (fun _ => Inv z R).
Proof. by intros w H. Qed.

Lemma inv_gets {A} (f : ScanWorker -> A) : hoare (Inv z R) (gets f) (fun _ => Inv z R).
Proof. by intros w H. Qed.
End Keeps.

(** A row is saved with the positions that the scan has. *)
Lemma saved_row_spec w : wp (persistPassState W C) (fun _ t w' => Framed w w' /\
  (Forall noSave t \/ swPersist w = true /\ exists t1 row, t = t1 ++ [ASaveRow (passColumns (swScan w) row)] /\ Forall noSave t1)) w.
Proof.
  unfold persistPassState. eapply wp_bind_with; [apply (persist_spec W C (P := noSave))|]. intros p t1 w1 (F1 & P1 & Hp). cbv beta.
  destruct p; cbn [negb]; [|apply wp_ret; rewrite app_nil_r; split; [done|by left]].
  eapply wp_bind_with; [apply (within_tick (R := Framed) (P := noSave))|]. intros n t2 w2 [F2 P2]. cbv beta. apply wp_bind, wp_gets.
  assert (Hno : wp (ret ()) (fun _ t w' => Framed w w' /\ (Forall noSave (t1 ++ t2 ++ [] ++ t) \/ swPersist w = true /\
    exists k row, t1 ++ t2 ++ [] ++ t = k ++ [ASaveRow (passColumns (swScan w) row)] /\ Forall noSave k)) w2).
  { apply wp_ret. rewrite !app_nil_r. split; [by eapply sr_trans|left; by apply Forall_app_2]. }
  destruct (if swDbOk W n then swRow w2 else None) as [row|]; [|exact Hno].
  apply wp_bind, wp_gets. eapply wp_bind_with; [apply (within_tick (R := Framed) (P := noSave))|]. intros n' t3 w3 [F3 P3]. cbv beta zeta.
  apply wp_bind, wp_note. assert (F : Framed w w3) by (eapply sr_trans; [exact F1|by eapply sr_trans]).
  rewrite (fr_scan _ _ F2), (fr_scan _ _ F1).
  assert (Hon : swPersist w = true) by (by eapply onward_persist; [apply (fr_onward _ _ F1)|]).
  assert (Hyes : forall w', Framed w3 w' -> Framed w w' /\ (Forall noSave (t1 ++ t2 ++ [] ++ [] ++ t3 ++ [ASaveRow (passColumns (swScan w) row)] ++ []) \/ swPersist w = true /\
    exists k r, t1 ++ t2 ++ [] ++ [] ++ t3 ++ [ASaveRow (passColumns (swScan w) row)] ++ [] = k ++ [ASaveRow (passColumns (swScan w) r)] /\ Forall noSave k)).
  { intros w' F'. split; [by eapply sr_trans|]. right. split; [done|]. exists (t1 ++ t2 ++ t3), row. rewrite app_nil_r, <- !app_assoc. split; [done|].
    by repeat apply Forall_app_2. }
  destruct (swDbOk W n'); [|apply wp_ret, Hyes, sr_out].
  apply wp_modify; [by destruct (swRow _)|]. apply Hyes. destruct (swRow _); by (split; [split| | |]).
Qed.

Lemma passColumns_positions s row m : posOf m (passColumns s row) = posOf m s /\ totOf m (passColumns s row) = totOf m s.
Proof. by destruct m. Qed.

Lemma row_saves w t w' : SavesOk (swOut w) -> (swPersist w = true -> AllReached w) ->
  (Forall noSave t \/ swPersist w = true /\ exists t1 row, t = t1 ++ [ASaveRow (passColumns (swScan w) row)] /\ Forall noSave t1) ->
  swOut w' = swOut w ++ t -> SavesOk (swOut w').
Proof.
  intros HS HR [P|(Hon & t1 & row & -> & P)] ->; [by apply savesOk_app|]. rewrite app_assoc. apply savesOk_snoc; [by apply savesOk_app|].
  intros m c tot Hsv. inversion Hsv; subst. destruct (passColumns_positions (swScan w) row m) as [-> ->].
  eapply reached_mono; [|apply (HR Hon)]. set_solver.
Qed.

Lemma inv_persistPassState {z R} `{!Stays R} : hoare (Inv z R) (persistPassState W C) (fun _ => Inv z R).
Proof.
  eapply hoare_wp; [exact saved_row_spec|]. intros w _ t w' [H1 H2 H3 H4 H5] Ht [F P]. pose proof (fr_scan _ _ F) as Hs.
  split; rewrite ?Hs; auto; [|by eapply stays; [apply F|rewrite Hs|]].
  eapply row_saves; [exact H3| |exact P|exact Ht]. intros _ m. by apply reached_start.
Qed.

(** *** Preparing *)

Lemma nosave_countTargets spec : within Framed noSave (countTargets W C spec).
Proof.
  unfold countTargets, ScanProbe, setStop, stop_, scan_. within_auto; [by apply within_note|].
  apply within_modify. intros w. split; [|done]. by split; [split| | |].
Qed.

Lemma nosave_halted : within Framed noSave (halted W C).
Proof. unfold halted, persist_, stop_. within_auto. Qed.

Ltac nosave := apply inv_framed; first
  [ apply within_tick | apply (framed_dbRead W C) | by apply (framed_addList W C) | by apply (framed_deleteList W C) | apply nosave_countTargets
  | apply nosave_halted | apply (within_persist W C) | apply (within_stop W C) | apply (framed_pushLog W C) | apply (framed_setTested W C) | apply (framed_setStage W C)
  | by apply within_note | by apply (framed_dbWrite W C)
  | apply (within_underMutex W C); intros ?; apply framed_onLive ].

(** The scan keeps its positions, or they are nothing. *)
Ltac same_positions := intros []; (split; [reflexivity|]); (split; [reflexivity|]); (split; [intros []; cbn; auto|intros ?; auto]).

Ltac inv_step := cbv zeta; lazymatch goal with
  | |- hoare _ (bind _ _) _ => apply inv_bind; [|intros ?]
  | |- hoare _ (if ?b then _ else _) _ => destruct b
  | |- hoare _ (when ?b _) _ => unfold when; destruct b
  | |- hoare _ (match ?o with _ => _ end) _ => destruct o
  | |- hoare _ (ret _) _ => apply inv_ret
  | |- hoare _ (gets _) _ => apply inv_gets
  | |- hoare _ scan_ _ => apply inv_gets
  | |- hoare _ (failWith _) _ => apply inv_ret
  | |- hoare _ (persistPassState _ _) _ => apply inv_persistPassState
  | |- hoare _ (modify (onScan _)) _ => apply inv_onScan; same_positions
  | |- hoare _ (modify _) _ => apply inv_modify; by intros ?
  | |- hoare _ _ _ => nosave
  end.

Lemma halted_spec z : hoare (Inv z anyhow) (halted W C) (fun h w => Inv z anyhow w /\ (h = true -> ready w)).
Proof.
  intros w Hw. split; [by apply (inv_framed _ nosave_halted)|]. unfold halted, bind. destruct (persist_ W C w) as [p w1] eqn:Ep.
  destruct (persist_spec W C (P := noSave) w) as (t & _ & _ & _ & Hp). rewrite Ep in Hp. cbn [fst snd] in Hp.
  destruct p; cbn [negb fst snd]; [|intros _; right; by left].
  unfold stop_, bind, gets. destruct (tick W C w1) as [n w2]. cbn [fst snd]. by left.
Qed.

Lemma Ensure_spec z : hoare (Inv z anyhow) (EnsureScanResultList W C) (fun id w => Inv z anyhow w /\ (0 <= id -> 0 <= result_list_id (swScan w))).
Proof.
  unfold EnsureScanResultList. apply (hoare_bind _ _ _ (fun s w => Inv z anyhow w /\ s = swScan w)); [by intros w|]. intros s.
  apply (hoare_bind _ _ _ (fun b w => Inv z anyhow w /\ s = swScan w /\ (b = true -> 0 <= result_list_id s))).
  { intros w [H ->]. destruct (Z.leb_spec 0 (result_list_id (swScan w))) as [Hid|Hid]; [|by split].
    match goal with |- context [dbRead W C false ?f] => pose proof (framed_dbRead W C (P := noSave) false f) as F end.
    split; [exact (inv_framed _ F w H)|]. destruct (F w) as (t & _ & [F' _]). by rewrite (fr_scan _ _ F'). }
  intros []; [intros w (H & -> & Hid); split; auto|].
  apply (hoare_bind _ _ _ (fun _ => Inv z anyhow)).
  { apply (hoare_weaken _ (Inv z anyhow) _ _ (fun _ => Inv z anyhow)); [nosave|by intros w [H _]|done]. }
  intros [id|]; [|intros w H; split; [done|cbn; lia]].
  apply (hoare_bind _ _ _ (fun _ w => Inv z anyhow w /\ result_list_id (swScan w) = id)).
  { intros w H. split; [|by destruct (swScan w)]. revert w H. apply (inv_onScan_with z); [done|]. intros s'. destruct s'. split; [done|]. split; [intros []; cbn; auto|auto]. }
  intros _ w [H <-]. by split.
Qed.

(** What a preparation leaves: without an error, results can be written. *)
Definition Prepared (e : option Message) (w : ScanWorker) : Prop := Inv None anyhow w /\ (e = None -> ready w).

Lemma prepared_inv {z R} `{!Stays R} (m : M (option Message)) : (forall w, R w -> ready w) -> hoare (Inv z R) m (fun _ => Inv z R) -> hoare (Inv z R) m Prepared.
Proof. intros HR Hm. eapply hoare_weaken; [exact Hm|done|]. intros e w H. split; [exact (inv_weaken _ _ _ H)|]. intros _. by apply HR, (iv_ready _ _ _ H). Qed.

Lemma prepared_fail z text : hoare (Inv z anyhow) (failWith text) Prepared.
Proof. intros w H. split; [exact (inv_weaken _ _ _ H)|done]. Qed.

(** After a look at the flags: nothing more is done, or the pass goes on. *)
Lemma prepared_halted z (m : M (option Message)) : hoare (Inv z anyhow) m Prepared ->
  hoare (Inv z anyhow) (h ← halted W C; if (h : bool) then ret None else m) Prepared.
Proof.
  intros Hm. eapply hoare_bind; [apply halted_spec|]. intros [].
  - intros w [H Hr]. split; [exact (inv_weaken _ _ _ H)|auto].
  - intros w [H _]. by apply Hm.
Qed.

(** The result list is there, or the pass ends. *)
Lemma prepared_list z (m : Z -> M (option Message)) : (forall id, hoare (Inv z ready) (m id) (fun _ => Inv z ready)) ->
  hoare (Inv z anyhow) (id ← EnsureScanResultList W C; if id <? 0 then failWith "The result list could not be created" else m id) Prepared.
Proof.
  intros Hm. eapply hoare_bind; [apply Ensure_spec|]. intros id w [H Hid]. destruct (Z.ltb_spec id 0); [by apply (prepared_fail z)|].
  apply (prepared_inv (z := z) (R := ready)); [done|apply Hm|]. destruct H as [H1 H2 H3 H4 _]. split; auto. right. right. auto.
Qed.

Lemma inv_shift {A B} {z z' R} (m : M A) (f : A -> M B) : hoare (Inv z R) m (fun _ => Inv z' R) -> (forall a, hoare (Inv z' R) (f a) (fun _ => Inv z' R)) ->
  hoare (Inv z R) (bind m f) (fun _ => Inv None R).
Proof.
  intros Hm Hf. eapply hoare_bind; [exact Hm|]. intros a. eapply hoare_weaken; [apply Hf|done|]. intros b w [H1 H2 H3 H4 H5]. by split.
Qed.

Lemma prepareInitial_spec : hoare (Inv None anyhow) (prepareInitial W C) Prepared.
Proof.
  unfold prepareInitial. apply inv_bind; [apply inv_gets|intros s]. apply inv_bind; [nosave|intros [base|]]; [|apply prepared_fail].
  destruct (isNil (ilEntries base)); [apply prepared_fail|]. cbv zeta. destruct (isNil _); [apply prepared_fail|].
  apply prepared_halted, prepared_list. intros id. inv_step; [nosave|]. inv_step; [inv_step|]. do 5 (inv_step; [inv_step|]). apply (inv_shift (z' := Some Initial)).
  - apply inv_onScan. intros s'. destruct s'. split; [done|]. split; [done|]. split; [intros []; by left|intros m [= <-]; by left].
  - intros _. repeat inv_step.
Qed.

Lemma prepareRescan_spec : hoare (Inv None anyhow) (prepareRescan W C) Prepared.
Proof.
  unfold prepareRescan. apply prepared_halted. apply inv_bind; [apply inv_gets|intros s]. apply inv_bind; [nosave|intros _].
  apply (hoare_bind _ _ _ (fun _ => Inv (Some RescanResult) anyhow)).
  { apply inv_onScan. intros s'. destruct s'. split; [done|]. split; [done|]. split; [intros []; cbn; auto|intros m [= <-]; by left]. }
  intros _. cbv zeta. apply prepared_list. intros id. repeat inv_step.
Qed.

Lemma preparePass_spec : hoare (Inv None anyhow) (preparePass W C) Prepared.
Proof.
  unfold preparePass. destruct (rcMode C); [|apply prepareInitial_spec|apply prepareRescan_spec].
  apply inv_bind; [apply inv_gets|intros s]. destruct (_ && _); [apply prepareInitial_spec|].
  apply inv_bind; [repeat inv_step|intros _]. apply prepared_halted. cbv zeta. apply prepared_list. intros id. repeat inv_step.
Qed.

Lemma inv_loadSpec {z R} `{!Stays R} : hoare (Inv z R) (loadSpec W C) (fun _ => Inv z R).
Proof. unfold loadSpec. repeat inv_step. Qed.

(** *** The chunks and after *)

(** Of what is saved, and of where the scan is while it can be saved. *)
Definition Sound (w : ScanWorker) : Prop := SavesOk (swOut w) /\ (swPersist w = true -> AllReached w).

Lemma inv_sound z R w : Inv z R w -> Sound w.
Proof. intros [_ H2 H3 _ _]. split; [done|]. intros _ m. by apply reached_start. Qed.

Lemma posOf_active s m : isMode s = m -> posOf m s = ActiveCursor s /\ totOf m s = ActiveTotal s.
Proof. intros <-. unfold ActiveCursor, ActiveTotal. by destruct (isMode s). Qed.

Lemma posOf_other s m : isMode s <> m -> posOf m s = otherCursor s.
Proof. unfold otherCursor, scanRescanPass. by destruct (isMode s), m. Qed.

(** The pass in work goes on from its start. *)
Lemma covers_reached w0 m c tot T listId spec : AtStart m (swScan w0) -> tot = totOf m (swScan w0) ->
  covers spec cfg listId tot T (posOf m (swScan w0)) c -> Reached T m c tot.
Proof. intros Hs -> Hc. exists (posOf m (swScan w0)), spec, listId. split; [|done]. by destruct Hs as [?|[? ?]]; auto. Qed.

(** A position that a row saves is one that the chunks save, in the record of
    the chunks. *)
Lemma round_saved T t pre a post m c tot : SavesOk T -> Forall roundAct t -> T ++ t = pre ++ a :: post -> savedAt a m c tot ->
  Reached pre m c tot \/ exists k f r, pre = T ++ k /\ t = k ++ ASaveProgress m c tot f r :: post.
Proof.
  intros HT Ht Heq Hsv. assert (Hin : forall k, t = k ++ a :: post -> exists f r, a = ASaveProgress m c tot f r).
  { intros k ->. apply Forall_app in Ht as [_ [Ha _]%Forall_cons]. destruct Hsv; [by eexists _, _|done]. }
  destruct (app_eq_inv _ _ _ _ Heq) as [(k & -> & Hk)|(k & -> & Hk)].
  - destruct k as [|x k]; [|injection Hk as <- ->; left; by eapply HT]. right. destruct (Hin [] (eq_sym Hk)) as (f & r & ->).
    exists [], f, r. by rewrite !app_nil_r in *.
  - right. destruct (Hin k Hk) as (f & r & ->). by exists k, f, r.
Qed.

Lemma runChunks_sound : hoare (Inv None writable) (runChunks W C) (fun _ => Sound).
Proof.
  eapply hoare_wp; [intros w; exact (wp_conj _ _ _ _ (runChunks_ok W C w) (quiet_runChunks W C w))|].
  intros w o t w' [H1 H2 H3 _ H5] Ht [[_ M _ Hsaves _ _] [_ Hq]]. cbv beta in *.
  destruct (samePass_total _ _ (mv_pass _ _ M)) as (Tt & _ & _ & _ & Md).
  destruct Hsaves as [HS HR]; [intros Hp; destruct H5 as [H5|]; [congruence|done]|]. unfold Covered in *. rewrite H1 in HS, HR.
  destruct (posOf_active (swScan w) _ eq_refl) as [Hpos Htot]. rewrite <- Hpos, <- Htot in *. split; [rewrite Ht|].
  - intros pre a post m c tot Heq Hsv. destruct (round_saved _ _ _ _ _ _ _ _ H3 Hq Heq Hsv) as [?|(k & f & r & -> & Hk)]; [done|].
    destruct (HS _ _ _ _ _ _ _ Hk) as (-> & -> & Hc). eapply reached_mono; [|by eapply (covers_reached w)]. set_solver.
  - intros Hp m. rewrite Ht. destruct (decide (isMode (swScan w) = m)) as [<-|Hm].
    + destruct (posOf_active (swScan w') _ Md) as [-> ->]. rewrite Tt.
      eapply reached_mono; [|eapply (covers_reached w); [done|done|by apply HR]]. set_solver.
    + assert (E : posOf m (swScan w') = posOf m (swScan w) /\ totOf m (swScan w') = totOf m (swScan w)).
      { rewrite !posOf_other by congruence. split; [apply M|]. rewrite (mv_pass _ _ M). by destruct m, (swScan w). }
      destruct E as [-> ->]. by apply reached_start.
Qed.

Lemma sound_framed {A} (m : M A) : within Framed noSave m -> hoare Sound m (fun _ => Sound).
Proof.
  intros Hm. eapply hoare_wp; [exact Hm|]. intros w _ t w' [HS HR] Ht [F P]. split; [rewrite Ht; by apply savesOk_app|].
  intros Hp m'. rewrite (fr_scan _ _ F). eapply reached_mono; [|apply HR; by eapply onward_persist; [apply F|]]. rewrite Ht. set_solver.
Qed.

Lemma sound_onScan f : (forall s m, posOf m (f s) = posOf m s /\ totOf m (f s) = totOf m s) -> hoare Sound (modify (onScan f)) (fun _ => Sound).
Proof. intros Hf w [HS HR]. split; [done|]. intros Hp m. cbn. destruct (Hf (swScan w) m) as [-> ->]. by apply HR. Qed.

Lemma sound_persistPassState : hoare Sound (persistPassState W C) (fun _ => Sound).
Proof.
  eapply hoare_wp; [exact saved_row_spec|]. intros w _ t w' [HS HR] Ht [F P]. split; [by eapply row_saves|].
  intros Hp m. rewrite (fr_scan _ _ F), Ht. eapply reached_mono; [|apply HR; by eapply onward_persist; [apply F|]]. set_solver.
Qed.

Lemma sound_bind {A B} (m : M A) (f : A -> M B) K : hoare Sound m (fun _ => Sound) -> (forall a, hoare Sound (f a) K) -> hoare Sound (bind m f) K.
Proof. intros Hm Hf. by eapply hoare_bind. Qed.

Lemma sound_ret {A} (a : A) : hoare Sound (ret a) (fun _ => Sound).
Proof. by intros w H. Qed.

Lemma sound_gets {A} (f : ScanWorker -> A) : hoare Sound (gets f) (fun _ => Sound).
Proof. by intros w H. Qed.

Ltac sound_step := cbv zeta; lazymatch goal with
  | |- hoare _ (bind _ _) _ => apply sound_bind; [|intros ?]
  | |- hoare _ (if _ then _ else _) _ => case_match
  | |- hoare _ (when ?b _) _ => unfold when; destruct b
  | |- hoare _ (match ?o with _ => _ end) _ => destruct o
  | |- hoare _ (ret _) _ => apply sound_ret
  | |- hoare _ (gets _) _ => apply sound_gets
  | |- hoare _ scan_ _ => apply sound_gets
  | |- hoare _ (persistPassState _ _) _ => apply sound_persistPassState
  | |- hoare _ (modify (onScan _)) _ => apply sound_onScan; by intros [] []
  | |- hoare _ _ _ => apply sound_framed; first
      [ apply within_tick | by apply (framed_deleteList W C) | apply (within_persist W C) | apply (within_stop W C) | by apply within_note
      | by apply within_mwLog | apply framed_finalized | apply within_modify; intros ?; (split; [|done]); by (split; [split| | |])
      | apply (within_underMutex W C); intros ?; (split; [|done]); by (split; [split| | |]) ]
  end.

Lemma finishPass_sound completed error : hoare Sound (finishPass W C completed error) (fun _ => Sound).
Proof. unfold finishPass. repeat sound_step. Qed.

Lemma execute_sound : hoare (Inv None anyhow) (execute W C) (fun _ => Sound).
Proof.
  assert (Hret : forall R (o : option (bool * option Message)), hoare (Inv None R) (ret o) (fun _ => Sound)) by (intros R o w H; by eapply inv_sound).
  unfold execute. cbv zeta. do 2 (apply inv_bind; [inv_step|intros _]). destruct (_ && _); [apply Hret|]. destruct (_ && _); [apply Hret|].
  apply inv_bind; [repeat inv_step|intros _]. apply inv_bind; [inv_step|intros []]; [apply Hret|].
  eapply hoare_bind; [apply preparePass_spec|]. intros [e|]; [intros w [H _]; by apply (Hret anyhow)|]. cbn [isSome].
  apply (hoare_weaken _ (Inv None ready) _ _ (fun _ => Sound)); [|intros w [[H1 H2 H3 H4 _] Hr]; split; auto|done].
  do 2 (apply inv_bind; [repeat inv_step|intros ?]).
  apply (hoare_bind _ _ _ (fun st w => Inv None ready w /\ (st = false -> writable w))).
  { eapply hoare_wp; [intros w; exact (wp_conj _ _ _ _ (stop_spec W C w) (within_stop W C (R := Framed) (P := noSave) w))|].
    intros w b t w' Hw Ht [(F & _ & Hb) [_ P]]. cbv beta in *.
    assert (Hr : Inv None ready w').
    { destruct Hw as [H1 H2 H3 H4 H5]. pose proof (fr_scan _ _ F) as Hs. split; rewrite ?Hs, ?Ht; auto; [by apply savesOk_app|].
      eapply stays; [apply F|by rewrite Hs|done]. }
    split; [done|]. intros ->. by destruct (iv_ready _ _ _ Hr) as [?|?]; [congruence|]. }
  intros []; [intros w [H _]; by apply (Hret ready)|].
  apply (hoare_weaken _ (Inv None writable) _ _ (fun _ => Sound)); [|intros w [[H1 H2 H3 H4 _] Hr]; split; auto|done].
  apply inv_bind; [apply inv_loadSpec|intros [e|]]; [apply Hret|apply runChunks_sound].
Qed.

Lemma run_sound : hoare (Inv None anyhow) (run W C) (fun _ => Sound).
Proof.
  unfold run. eapply hoare_bind; [apply execute_sound|]. intros [[completed error]|]; [|apply sound_ret].
  apply sound_bind; [sound_step|intros st]. apply sound_bind; [apply finishPass_sound|intros _]. repeat sound_step.
Qed.

End Saves.
