(* ===== verification/ScanOff.v ===== *)
(** Writes after saving has ended: how many a run still makes once
    DisablePersist was called, from the places where it reads the flag. *)
From stdpp Require Import base list gmap strings.
From Stdlib Require Import ZArith Lia Bool.
From S2P Require Import Prelude IpListParse IpScan IpListStore ScanWorker ScanRun ScanRunFacts ScanChunkFacts ScanRounds ScanHistory ScanPass.

Open Scope scan_scope.

(** ** Writes *)

Definition isWrite (a : ScanAct) : bool :=
  match a with
  | AAdd _ _ | AClear _ | ADelete _ | AUpsert _ _ _ | ARemove _ _ | ASaveProgress _ _ _ _ _ | ASaveRow _ => true
  | _ => false
  end.

Definition isOff (a : ScanAct) : bool := match a with APersistOff => true | _ => false end.

Definition writes (t : list ScanAct) : nat := length (List.filter isWrite t).

(** The writes after saving ended for the first time. *)
Fixpoint writesAfterOff (t : list ScanAct) : nat :=
  match t with
  | [] => 0
  | a :: t' => if isOff a then writes t' else writesAfterOff t'
  end.

Lemma writes_app t t' : writes (t ++ t') = (writes t + writes t')%nat.
Proof. unfold writes. by rewrite List.filter_app, length_app. Qed.

Lemma after_app_on t t' : existsb isOff t = false -> writesAfterOff (t ++ t') = writesAfterOff t'.
Proof. induction t as [|a t IH]; [done|]. cbn. destruct (isOff a); [done|]. exact IH. Qed.

Lemma after_app_off t t' : existsb isOff t = true -> writesAfterOff (t ++ t') = (writesAfterOff t + writes t')%nat.
Proof. induction t as [|a t IH]; [done|]. cbn. destruct (isOff a); cbn; [intros _; apply writes_app|exact IH]. Qed.

Lemma after_le t : (writesAfterOff t <= writes t)%nat.
Proof. induction t as [|a t IH]; [done|]. unfold writes in *. destruct a; cbn; unfold writes; lia. Qed.

(** ** Budgets *)

(** At most [n] writes once saving ends in [m], and at most [k] when it had
    ended before. *)
Definition Spent (n k : nat) (w : ScanWorker) (t : list ScanAct) (w' : ScanWorker) : Prop :=
  (swPersist w = false -> swPersist w' = false /\ (writes t <= k)%nat) /\
  (swPersist w = true -> swPersist w' = negb (existsb isOff t) /\ (writesAfterOff t <= n)%nat).

Definition budget {A} (n k : nat) (m : M A) : Prop := forall w, wp m (fun _ t w' => Spent n k w t w') w.

Lemma spent_app n1 k1 n2 k2 w t1 w1 t2 w2 : Spent n1 k1 w t1 w1 -> Spent n2 k2 w1 t2 w2 ->
  Spent (Nat.max (n1 + k2) n2) (k1 + k2) w (t1 ++ t2) w2.
Proof.
  intros [F1 T1] [F2 T2]. split; intros Hp.
  - destruct (F1 Hp) as [H1 L1]. destruct (F2 H1) as [H2 L2]. rewrite writes_app. split; [done|lia].
  - destruct (T1 Hp) as [H1 L1]. rewrite existsb_app. destruct (existsb isOff t1) eqn:E; cbn [negb orb] in *.
    + destruct (F2 H1) as [H2 L2]. rewrite after_app_off by done. split; [done|lia].
    + destruct (T2 H1) as [H2 L2]. rewrite after_app_on by done. split; [done|lia].
Qed.

Lemma spent_weaken n k n' k' w t w' : (n <= n')%nat -> (k <= k')%nat -> Spent n k w t w' -> Spent n' k' w t w'.
Proof. intros Hn Hk [F T]. split; intros Hp; [destruct (F Hp)|destruct (T Hp)]; (split; [done|lia]). Qed.

Lemma budget_weaken {A} n k n' k' (m : M A) : budget n k m -> (n <= n')%nat -> (k <= k')%nat -> budget n' k' m.
Proof. intros H Hn Hk w. eapply wp_mono; [apply H|]. intros a t w'. by apply spent_weaken. Qed.

Lemma budget_bind {A B} n1 k1 n2 k2 n k (m : M A) (f : A -> M B) : budget n1 k1 m -> (forall a, budget n2 k2 (f a)) ->
  (Nat.max (n1 + k2) n2 <= n)%nat -> (k1 + k2 <= k)%nat -> budget n k (bind m f).
Proof.
  intros Hm Hf Hn Hk w. eapply wp_bind_with; [apply Hm|]. intros a t1 w1 H1. cbv beta. eapply wp_mono; [apply Hf|].
  intros b t2 w2 H2. cbv beta. eapply spent_weaken; [exact Hn|exact Hk|]. exact (spent_app _ _ _ _ _ _ _ _ _ H1 H2).
Qed.

Lemma spent_idle n k w t w' : swPersist w' = swPersist w -> existsb isOff t = false -> writes t = 0%nat -> Spent n k w t w'.
Proof.
  intros Hp Ht H0. assert (writesAfterOff t = 0%nat) by (pose proof (after_le t); lia). split; intros Hw; rewrite Hp, Hw, ?Ht; (split; [done|lia]).
Qed.

Section Steps.
Context {Q : QtChar} (W : World) (C : RunConst).

Lemma budget_ret {A} n k (a : A) : budget n k (ret a).
Proof. intros w. apply wp_ret. by apply spent_idle. Qed.

Lemma budget_gets {A} n k (f : ScanWorker -> A) : budget n k (gets f).
Proof. intros w. apply wp_gets. by apply spent_idle. Qed.

Lemma budget_modify n k f : (forall w, swPersist (f w) = swPersist w /\ swOut (f w) = swOut w) -> budget n k (modify f).
Proof. intros H w. destruct (H w). apply wp_modify; [done|]. by apply spent_idle. Qed.

Lemma budget_note n k a : isWrite a = false -> isOff a = false -> budget n k (note a).
Proof. intros H1 H2 w. apply wp_note. apply spent_idle; [done|by cbn; rewrite H2|]. unfold writes. cbn. by rewrite H1. Qed.

(** A write: it may come after the end of saving, once. *)
Lemma budget_write n k a : isOff a = false -> (1 <= k)%nat -> budget n k (note a).
Proof.
  intros H2 Hk w. apply wp_note. split; intros Hp; cbn; rewrite ?H2; (split; [done|]); [|lia].
  unfold writes. cbn. destruct (isWrite a); cbn; lia.
Qed.

Lemma applyAsync_spent n k w a : exists t, swOut (applyAsync (rcConfigPhase C) w a) = swOut w ++ t /\ Spent n k w t (applyAsync (rcConfigPhase C) w a).
Proof.
  assert (Hidle : forall w', swOut w' = swOut w -> swPersist w' = swPersist w -> exists t, swOut w' = swOut w ++ t /\ Spent n k w t w').
  { intros w' Ho Hp. exists []. rewrite app_nil_r. split; [done|]. by apply spent_idle. }
  destruct a as [| | |r| |f|f]; cbn [applyAsync]; try (by apply Hidle).
  - exists [APersistOff]. split; [done|]. split; intros _; (split; [done|]); cbn; lia.
  - exists [ASeen (LiveState w)]. split; [done|]. by apply spent_idle.
  - destruct (pollAnswered_fields r w) as (_ & H1 & _ & _ & _ & H2). by apply Hidle.
  - destruct (pollApply_fields (rcConfigPhase C) w) as (_ & H1 & _ & _ & _ & H2). by apply Hidle.
Qed.

Lemma budget_tick n k : budget n k (tick W C).
Proof.
  apply (budget_weaken 0 0); [|lia|lia]. intros w. unfold tick, wp. cbn [fst snd].
  enough (H : forall l w, exists t, swOut (fold_left (applyAsync (rcConfigPhase C)) l w) = swOut w ++ t /\
    Spent 0 0 w t (fold_left (applyAsync (rcConfigPhase C)) l w)) by exact (H _ w).
  clear w. induction l as [|a l IH]; intros w; cbn [fold_left]; [exists []; rewrite app_nil_r; split; [done|by apply spent_idle]|].
  destruct (applyAsync_spent 0 0 w a) as (t1 & Ht1 & H1). destruct (IH (applyAsync (rcConfigPhase C) w a)) as (t2 & Ht2 & H2).
  exists (t1 ++ t2). rewrite Ht2, Ht1, app_assoc. split; [done|]. exact (spent_app 0 0 0 0 _ _ _ _ _ H1 H2).
Qed.

(** The flag is read: what follows when it is down only counts when it is. *)
Lemma budget_flag {A} n k na ka nb kb (m : M bool) (f : bool -> M A) : budget 0 0 m ->
  (forall w, wp m (fun p _ w' => p = swPersist w') w) -> (ka <= n)%nat -> (ka <= k)%nat -> (nb <= n)%nat ->
  budget na ka (f false) -> budget nb kb (f true) -> budget n k (bind m f).
Proof.
  intros Hm Hflag Hn Hk Hb Hfalse Htrue w. eapply wp_bind_with; [exact (wp_conj _ _ _ _ (Hm w) (Hflag w))|]. intros p t1 w1 [[F1 T1] ->]. cbv beta.
  destruct (swPersist w1) eqn:Hp.
  - eapply wp_mono; [apply Htrue|]. intros a t2 w2 [_ T2]. cbv beta. destruct (T2 Hp) as [H2 L2]. split; intros Hw; [by destruct (F1 Hw)|].
    destruct (T1 Hw) as [H1 L1]. assert (Hoff : existsb isOff t1 = false) by (destruct (existsb isOff t1); [done|done]).
    rewrite existsb_app, Hoff, after_app_on by done. split; [done|lia].
  - eapply wp_mono; [apply Hfalse|]. intros a t2 w2 [F2 _]. cbv beta. destruct (F2 Hp) as [H2 L2]. split; intros Hw.
    + destruct (F1 Hw) as [H1 L1]. rewrite writes_app. split; [done|lia].
    + destruct (T1 Hw) as [H1 L1]. assert (Hoff : existsb isOff t1 = true) by (destruct (existsb isOff t1); [done|done]).
      rewrite existsb_app, Hoff, after_app_off by done. split; [done|lia].
Qed.

Lemma budget_persist_ n k : budget n k (persist_ W C).
Proof. unfold persist_. eapply (budget_bind 0 0 0 0); [apply budget_tick|intros _; apply budget_gets|lia|lia]. Qed.

Lemma persist_value w : wp (persist_ W C) (fun p _ w' => p = swPersist w') w.
Proof. eapply wp_mono; [apply (persist_spec W C (P := noRemove))|]. intros p t w' (_ & _ & H). done. Qed.

(** The flag is read: what follows when it is down only counts when it is. *)
Lemma budget_persist {A} n k na ka nb kb (f : bool -> M A) : (ka <= n)%nat -> (ka <= k)%nat -> (nb <= n)%nat ->
  budget na ka (f false) -> budget nb kb (f true) -> budget n k (p ← persist_ W C; f p).
Proof. intros. by eapply (budget_flag n k na ka nb kb); [apply budget_persist_|apply persist_value|..]. Qed.

Lemma budget_stop_ n k : budget n k (stop_ W C).
Proof. unfold stop_. eapply (budget_bind 0 0 0 0); [apply budget_tick|intros _; apply budget_gets|lia|lia]. Qed.

Lemma budget_assoc {A B D} n k (m : M A) (f : A -> M B) (g : B -> M D) :
  budget n k (bind m (fun a => bind (f a) g)) -> budget n k (bind (bind m f) g).
Proof. intros H w. destruct (H w) as (t & Ht & Hs). exists t. unfold bind in *. destruct (m w) as [a w1]. by destruct (f a w1). Qed.

Lemma budget_halted {A} n k na ka nb kb (f : bool -> M A) : (ka <= n)%nat -> (ka <= k)%nat -> (na <= n)%nat -> (nb <= n)%nat -> (kb <= n)%nat ->
  budget na ka (f true) -> budget nb kb (f false) -> budget n k (h ← halted W C; f h).
Proof.
  intros H1 H2 H3 H4 H5 Ht Hf. unfold halted. apply budget_assoc. eapply (budget_persist n k na ka n n); [lia|lia|lia|exact Ht|].
  eapply (budget_bind 0 0 n n); [apply budget_stop_| |lia|lia]. intros []; eapply budget_weaken; eauto.
Qed.

(** *** What writes nothing *)

Definition free {A} (m : M A) : Prop := budget 0 0 m.

Lemma free_budget {A} n k (m : M A) : free m -> budget n k m.
Proof. intros H. eapply budget_weaken; [exact H|lia|lia]. Qed.

Lemma free_bind {A B} (m : M A) (f : A -> M B) : free m -> (forall a, free (f a)) -> free (bind m f).
Proof. intros Hm Hf. by eapply (budget_bind 0 0 0 0); [exact Hm|exact Hf|lia|lia]. Qed.

Lemma free_underMutex f : (forall w, swPersist (f w) = swPersist w /\ swOut (f w) = swOut w) -> free (underMutex W C f).
Proof. intros H. apply free_bind; [apply budget_tick|intros _; by apply budget_modify]. Qed.
End Steps.

Create HintDb spend.
#[export] Hint Resolve budget_ret budget_gets budget_tick budget_persist_ budget_stop_ : spend.
#[export] Hint Extern 1 (free _) => unfold free : spend.
#[export] Hint Extern 1 (budget _ _ (modify _)) => (apply budget_modify; intros; repeat case_match; by split) : spend.
#[export] Hint Extern 1 (budget _ _ (underMutex _ _ _)) => (apply (free_underMutex _ _); intros; repeat case_match; by split) : spend.
#[export] Hint Extern 1 (budget _ _ (note _)) => (by apply budget_note) : spend.
#[export] Hint Extern 1 (budget _ _ (mwLog _)) => (by apply budget_note) : spend.

Ltac free_step :=
  lazymatch goal with
  | |- free (bind _ _) => apply free_bind; [|intros ?]
  | |- free (if ?b then _ else _) => destruct b
  | |- free (when ?b _) => unfold when; destruct b
  | |- free (let '(_, _) := ?p in _) => destruct p
  | |- free (match ?o with _ => _ end) => destruct o
  end.
Ltac free_auto := cbn [negb orb]; repeat (cbv zeta; first [solve [auto with spend]|free_step]).
(** Steps that write nothing, within any budget. *)
Ltac free_now := solve [apply free_budget; free_auto].

Section Free.
Context {Q : QtChar} (W : World) (C : RunConst).

Lemma free_setStop : free (setStop W C).
Proof. unfold setStop. free_auto. Qed.
Lemma free_setStage st : free (setStage W C st).
Proof. unfold setStage. free_auto. Qed.
Lemma free_pushLog line : free (pushLog W C line).
Proof. unfold pushLog. free_auto. Qed.
Lemma free_setTested a b : free (setTested W C a b).
Proof. unfold setTested. free_auto. Qed.
Lemma free_ScanProbe q : free (ScanProbe W C q).
Proof. unfold ScanProbe. free_auto. Qed.
Lemma free_ScanURLTest batch q : free (ScanURLTest W C batch q).
Proof. unfold ScanURLTest. free_auto. Qed.
Lemma free_dbRead {A} (failed : A) f : free (dbRead W C failed f).
Proof. unfold dbRead. free_auto. Qed.

#[local] Hint Resolve free_setStop free_setStage free_pushLog free_setTested free_ScanProbe free_ScanURLTest free_dbRead : spend.

Lemma free_networkUp b : free (networkUp W C b).
Proof. unfold networkUp. free_auto. Qed.
Lemma free_countTargets spec : free (countTargets W C spec).
Proof. unfold countTargets. free_auto. Qed.
#[local] Hint Resolve free_networkUp free_countTargets : spend.

Lemma free_testBatches fuel t rest r : free (testBatches W C fuel t rest r).
Proof.
  revert rest r. induction fuel as [|fuel IH]; intros rest r; cbn [testBatches]; [auto with spend|]. unfold rescanPass, scan_.
  free_auto; apply IH.
Qed.

#[local] Hint Resolve free_testBatches : spend.

Lemma free_runChunk spec a n next : free (runChunk W C spec a n next).
Proof. unfold runChunk, testConfigs, scan_. free_auto. Qed.

Lemma free_retryDelay n : free (retryDelay W C n).
Proof. induction n as [|n IH]; cbn [retryDelay]; free_auto. Qed.

#[local] Hint Resolve free_runChunk free_retryDelay : spend.

Lemma free_confirmFailures r a next : free (confirmFailures W C r a next).
Proof.
  assert (H : forall n r, free (confirmRounds W C n r a next)).
  { induction n as [|n IH]; intros x; cbn [confirmRounds]; free_auto. }
  unfold confirmFailures. free_auto.
Qed.

Lemma free_beginChunk a n : free (beginChunk W C a n).
Proof. unfold beginChunk. free_auto. Qed.

Lemma free_checkNetwork rescan r : free (checkNetwork W C rescan r).
Proof. unfold checkNetwork. free_auto. Qed.

Lemma free_chunkEnd r v a total : free (chunkEnd W C r v a total).
Proof. unfold chunkEnd, scan_. free_auto. Qed.

Lemma free_loadSpec : free (loadSpec W C).
Proof. unfold loadSpec, failWith, scan_. free_auto. Qed.

#[local] Hint Resolve free_confirmFailures free_beginChunk free_checkNetwork free_chunkEnd free_loadSpec : spend.

(** *** What writes *)

Lemma budget_dbWrite {A} id a (f : option nat -> IpListStore -> A * IpListStore) : (forall stored, isOff (a stored) = false) ->
  budget 1 1 (dbWrite W C id a f).
Proof.
  intros Ha. unfold dbWrite. do 2 (eapply (budget_bind 0 0 1 1); [free_now|intros ?|lia|lia]).
  eapply (budget_bind 1 1 0 0); [by apply budget_write|intros _; free_now|lia|lia].
Qed.

Lemma budget_addList role es : budget 1 1 (addList W C role es).
Proof.
  unfold addList. eapply (budget_bind 0 0 1 1); [free_now|intros t|lia|lia].
  destruct (swDbOk W t); [do 2 (eapply (budget_bind 0 0 1 1); [free_now|intros ?|lia|lia])|];
    (eapply (budget_bind 1 1 0 0); [by apply budget_write|intros _; free_now|lia|lia]).
Qed.

Lemma budget_deleteList id : budget 1 0 (deleteList W C id).
Proof.
  unfold deleteList. destruct (id <? 0); [free_now|]. eapply (budget_persist W C 1 0 0 0 1 1); [lia|lia|lia|free_now|].
  cbn [negb]. eapply (budget_bind 1 1 0 0); [by apply budget_dbWrite|intros _; free_now|lia|lia].
Qed.

Lemma budget_persistPassState : budget 1 0 (persistPassState W C).
Proof.
  unfold persistPassState. eapply (budget_persist W C 1 0 0 0 1 1); [lia|lia|lia|free_now|]. cbn [negb].
  do 2 (eapply (budget_bind 0 0 1 1); [free_now|intros ?|lia|lia]). destruct (if swDbOk W _ then _ else _); [|free_now].
  unfold scan_. do 2 (eapply (budget_bind 0 0 1 1); [free_now|intros ?|lia|lia]).
  eapply (budget_bind 1 1 0 0); [by apply budget_write|intros _; free_now|lia|lia].
Qed.

Lemma budget_saveProgress : budget 1 0 (saveProgress W C).
Proof.
  unfold saveProgress. eapply (budget_persist W C 1 0 0 0 1 1); [lia|lia|lia|free_now|]. cbn [negb].
  unfold scan_. do 2 (eapply (budget_bind 0 0 1 1); [free_now|intros ?|lia|lia]).
  eapply (budget_bind 1 1 0 0); [by apply budget_write|intros _; free_now|lia|lia].
Qed.

Lemma budget_Ensure : budget 1 1 (EnsureScanResultList W C).
Proof.
  unfold EnsureScanResultList, scan_. eapply (budget_bind 0 0 1 1); [free_now|intros s|lia|lia].
  eapply (budget_bind 0 0 1 1); [free_now|intros [|]|lia|lia]; [free_now|].
  eapply (budget_bind 1 1 0 0); [apply budget_addList|intros [id|]; free_now|lia|lia].
Qed.

(** One step of each kind, in front of the rest. *)
Ltac step_free n k := eapply (budget_bind 0 0 n k); [free_now|intros ?|lia|lia].
Ltac step_write n H := eapply (budget_bind 1 1 n 0); [H|intros ?|lia|lia].
Ltac step_guarded n H := eapply (budget_bind 1 0 n 0); [H|intros ?|lia|lia].

Ltac step_check := cbv zeta; lazymatch goal with |- budget _ _ (if ?b then _ else _) => destruct b; [free_now|] end.
Ltac step_persist n k := eapply (budget_persist W C n k 0 0 n n); [lia|lia|lia|free_now|cbn [negb]].
Ltac step_halted n k := eapply (budget_halted W C n k 0 0 n n); [lia|lia|lia|lia|lia|free_now|].
Ltac step_option := lazymatch goal with |- budget _ _ (match ?o with _ => _ end) => destruct o; try free_now end.

Lemma budget_prepareInitial : budget 1 0 (prepareInitial W C).
Proof.
  unfold prepareInitial, failWith, scan_. do 2 step_free 1%nat 0%nat. step_option. do 2 step_check. step_halted 1%nat 0%nat.
  step_write 1%nat ltac:(apply budget_Ensure). step_check. step_persist 1%nat 0%nat.
  step_write 1%nat ltac:(by apply budget_dbWrite). step_free 1%nat 0%nat. do 2 step_guarded 1%nat ltac:(apply budget_deleteList).
  do 4 step_free 1%nat 0%nat. step_persist 1%nat 0%nat. step_write 1%nat ltac:(apply budget_addList). step_option.
  do 5 step_free 1%nat 0%nat. step_free 1%nat 0%nat. step_option. step_free 1%nat 0%nat.
  step_guarded 1%nat ltac:(apply budget_persistPassState). free_now.
Qed.

Lemma budget_prepareRescan : budget 2 0 (prepareRescan W C).
Proof.
  unfold prepareRescan, failWith, scan_. step_halted 2%nat 0%nat. step_free 2%nat 1%nat.
  eapply (budget_bind 1 0 2 1); [apply budget_deleteList|intros _|lia|lia]. step_free 2%nat 1%nat. cbv zeta.
  step_write 2%nat ltac:(apply budget_Ensure). step_check. do 2 step_free 2%nat 0%nat.
  do 2 (cbv zeta; lazymatch goal with |- budget _ _ (if ?b then _ else _) => destruct b end;
    [step_guarded 2%nat ltac:(apply budget_persistPassState); free_now|]).
  step_persist 2%nat 0%nat. step_write 2%nat ltac:(apply budget_addList). step_option. do 3 step_free 2%nat 0%nat. cbv zeta.
  do 2 step_free 2%nat 0%nat. step_option. step_free 2%nat 0%nat.
  step_guarded 2%nat ltac:(apply budget_persistPassState). free_now.
Qed.

Lemma budget_preparePass : budget 2 0 (preparePass W C).
Proof.
  unfold preparePass, failWith, scan_. destruct (rcMode C).
  - step_free 2%nat 0%nat. destruct (negb (rescanResumable a) && negb (CanResumeInitial a)).
    { eapply budget_weaken; [apply budget_prepareInitial|lia|lia]. }
    step_free 2%nat 0%nat. step_halted 2%nat 0%nat.
    step_write 2%nat ltac:(apply budget_Ensure). step_check. eapply (budget_bind 1 0 0 0); [|intros _; free_now|lia|lia].
    unfold when. destruct (negb _); [|free_now]. step_free 1%nat 0%nat. apply budget_persistPassState.
  - eapply budget_weaken; [apply budget_prepareInitial|lia|lia].
  - apply budget_prepareRescan.
Qed.

(** The results of a chunk are written after one look at the flag. *)
Lemma budget_storeResults rescan guarded id r v : budget 3 0 (storeResults W C rescan guarded id r v).
Proof.
  unfold storeResults, when. apply (budget_flag 3 0 0 0 3 3); [apply budget_persist_|apply persist_value|lia|lia|lia|free_now|]. cbn [negb orb].
  destruct (id <? 0); [free_now|].
  eapply (budget_bind 2 2 1 1); [|intros _|lia|lia].
  - destruct (negb (isNil (crHits r))); [|free_now]. eapply (budget_bind 1 1 1 1); [by apply budget_dbWrite|intros _|lia|lia].
    destruct (rescan && negb (isNil (crReplaced r))); [|free_now]. eapply (budget_bind 1 1 0 0); [by apply budget_dbWrite|intros _; free_now|lia|lia].
  - cbv zeta. eapply (budget_bind 1 1 0 0); [|intros ?; free_now|lia|lia].
    destruct (isNil _); [free_now|by apply budget_dbWrite].
Qed.

Lemma budget_chunkRound id size : budget 3 0 (chunkRound W C id size).
Proof.
  unfold chunkRound, scan_. step_free 3%nat 0%nat. do 2 step_check. step_free 3%nat 0%nat. step_check.
  do 5 step_free 3%nat 0%nat. eapply (budget_bind 3 0 1 0); [apply budget_storeResults|intros ?|lia|lia].
  do 3 step_free 1%nat 0%nat. step_guarded 1%nat ltac:(apply budget_saveProgress). free_now.
Qed.

Lemma budget_runChunks : budget 3 0 (runChunks W C).
Proof.
  assert (Hloop : forall fuel id size, budget 3 0 (chunkLoop W C fuel id size)).
  { induction fuel as [|fuel IH]; intros id size; cbn [chunkLoop]; [free_now|].
    eapply (budget_bind 3 0 3 0); [apply budget_chunkRound|intros []; [free_now|apply IH]|lia|lia]. }
  unfold runChunks, scan_. do 5 step_free 3%nat 0%nat. apply Hloop.
Qed.

Lemma budget_execute : budget 3 0 (execute W C).
Proof.
  unfold execute. cbv zeta. do 2 step_free 3%nat 0%nat. do 2 step_check. do 2 step_free 3%nat 0%nat. step_check.
  eapply (budget_bind 2 0 3 0); [apply budget_preparePass|intros ?|lia|lia]. step_check. do 3 step_free 3%nat 0%nat. step_check.
  step_free 3%nat 0%nat. step_check. apply budget_runChunks.
Qed.

Lemma budget_finishPass completed error : budget 1 0 (finishPass W C completed error).
Proof.
  unfold finishPass, scan_. step_free 1%nat 0%nat. eapply (budget_bind 1 0 1 0); [|intros _|lia|lia].
  - destruct completed; [|free_now]. eapply (budget_bind 1 0 0 0); [|intros _; free_now|lia|lia].
    destruct (scanRescanPass a); step_guarded 1%nat ltac:(apply budget_deleteList); free_now.
  - step_guarded 1%nat ltac:(apply budget_persistPassState). free_now.
Qed.

Lemma budget_run : budget 3 0 (run W C).
Proof.
  unfold run. eapply (budget_bind 3 0 3 0); [apply budget_execute|intros [[completed error]|]|lia|lia]; [|free_now].
  step_free 3%nat 0%nat. eapply (budget_bind 1 0 3 0); [apply budget_finishPass|intros _; free_now|lia|lia].
Qed.
End Free.
