(* ===== verification/ScanClaims.v ===== *)
(** What a scan promises, about its whole record: what a rescan removes, how far
    the saved position is, that a run ends, and what is written after saving
    ended. *)
From stdpp Require Import base list gmap strings.
From Stdlib Require Import ZArith Lia Bool.
From S2P Require Import Prelude IpListParse IpScan IpListStore ScanWorker ScanRun ScanRunFacts ScanChunkFacts ScanRounds ScanHistory ScanPass ScanOff.

(** ** A core to run against *)

(** Only addresses that are as the code would write them. *)
Definition hostTarget (e : qstr * Z) : bool := eqStr (cidr (scanWorkerEntry (fst e) 0 0)) (fst e) && IsHostCidr (fst e).

(** 10.0.0.2 does not answer; 10.0.0.1 does, on another port; [cut] ends each
    call early. *)
Definition trialProbe (cut : bool) (t : nat) (q : ScanProbeRequest) : ProbeReply :=
  let n := zlen (tsEntries (pqSpec q)) in
  if pqMaxTargets q =? 0 then mkProbeReply true [] [] n 0 0 false []
  else mkProbeReply true [] [] n 0 (Z.min n (pqCursor q + pqMaxTargets q)) cut
    (map (fun e => mkProbeResult (fst e) (snd e) 8443 (negb (eqStr (fst e) (u "10.0.0.2"))) false 5 5 5 5)
      (List.filter hostTarget (tsEntries (pqSpec q)))).

Definition failingWorld (cut : bool) (async : nat -> list Async) (dbOk : nat -> bool) : World :=
  mkWorld async (trialProbe cut) (fun _ _ => mkUrlReply false [] [] []) (fun _ _ => mkNetworkReply true true []) (fun _ => None)
    (fun _ _ => mkTestBuild None [] false [] ∅ []) dbOk (fun _ => 0%nat) Z.of_nat (fun _ => 7).
Definition trialWorld (cut : bool) (async : nat -> list Async) : World := failingWorld cut async (fun _ => true).

Lemma trial_honest cut async dbOk : HonestCore (failingWorld cut async dbOk).
Proof.
  assert (H : forall n q item, item ∈ pyResults (trialProbe cut n q) -> exists e, e ∈ tsEntries (pqSpec q) /\
    cidr (scanWorkerEntry (prAddress item) (prPort item) 0) = fst e /\ prPort item = snd e /\ IsHostCidr (fst e) = true).
  { intros n q item Hi. unfold trialProbe in Hi. destruct (pqMaxTargets q =? 0); [by apply not_elem_of_nil in Hi|]. cbn [pyResults] in Hi.
    apply list_elem_of_In, in_map_iff in Hi as (e & <- & Hi). apply filter_In in Hi as [Hi Hh]. exists e. apply list_elem_of_In in Hi.
    apply andb_true_iff in Hh as [Hc Hh]. apply eqStr_spec in Hc. by repeat split. }
  split; cbn [swProbe failingWorld].
  - intros n q item Hi. by destruct (H n q item Hi) as (e & _ & -> & _ & ?).
  - intros n q item _ _ _ Hi. destruct (H n q item Hi) as (e & He & Hc & Hp & _). unfold target. rewrite Hc. cbn [port scanWorkerEntry].
    rewrite Hp. by destruct e.
Qed.

(** A scan with a base list of three addresses and two results. *)
Definition trialScan : IpScan :=
  mkIpScan 1 (u "s") Generic 1 2 (DefaultConfig Generic) Idle Initial (-1) 0 0 0 [] (-1) 0 0 0 0 None 0 0.
Definition trialStore : IpListStore :=
  mkListStore {[1 := mkIpList User (-1) [mkEntry (u "10.0.0.1") 0 0; mkEntry (u "10.0.0.2") 0 0; mkEntry (u "10.0.0.3") 8080 0];
                2 := mkIpList ScanResult 1 [mkEntry (u "10.0.0.1") 443 5; mkEntry (u "10.0.0.2") 443 5]]} 2.
Definition trialWorker (mode : StartMode) : ScanWorker := newScanWorker trialScan mode trialStore (Some trialScan).
Definition trialConst (mode : StartMode) : RunConst := newRunConst trialScan mode true None None [] 1000 (fun s => s).
Definition quiet : nat -> list Async := fun _ => [].

(** Where an action that is wanted first stands. *)
Fixpoint cutAt (f : ScanAct -> bool) (t : list ScanAct) : option (list ScanAct * ScanAct * list ScanAct) :=
  match t with
  | [] => None
  | a :: t' =>
      if f a then Some ([], a, t')
      else match cutAt f t' with Some (pre, x, post) => Some (a :: pre, x, post) | None => None end
  end.

Lemma cutAt_some f t pre a post : cutAt f t = Some (pre, a, post) -> t = pre ++ a :: post.
Proof.
  revert pre. induction t as [|x t IH]; intros pre; cbn [cutAt]; [done|]. destruct (f x); [by intros [= <- <- <-]|].
  destruct (cutAt f t) as [[[p y] q]|]; [|done]. intros [= <- <- <-]. cbn. by rewrite <- (IH p eq_refl).
Qed.

Definition removesHost (host : qstr) (a : ScanAct) : bool :=
  match a with ARemove _ es => existsb (fun e => eqStr (cidr e) host) es | _ => false end.

(** ** Rescans *)

(** The core ended no call of the stretch early. *)
Definition uncut (a : ScanAct) : Prop := ~ cutShort a.
(** A write of hits was done in full. *)
Definition hitsStored (a : ScanAct) : Prop := match a with AUpsert _ _ stored => stored = true | _ => True end.

(** C5: A rescan removes a result only on evidence that stands in the same
    chunk.  Of every removal in the record of a run: since its chunk began, each
    removed entry was refuted by the core, with its address family found
    reachable, or its address passed on another port.  And unless the core ended a
    call of that chunk early or a write of its hits failed, each entry was refuted
    in the first test and in all five retries, with its family found reachable,
    or a hit for its address on another port had been stored in the same list
    before.  Assumes of the core that it answers for single hosts, and for a list
    of hosts only about those. *)
Theorem rescan_removes_dead {Q : QtChar} W C scan mode store row pre listId es post : HonestCore W ->
  swOut (snd (run W C (newScanWorker scan mode store row))) = pre ++ ARemove listId es :: post ->
  exists before chunkStart since, pre = before ++ ABegin chunkStart :: since /\ Forall noBegin since /\
    Forall (fun e => (timesRefuted 1 e since /\ ANetwork (scanWorkerIsIpv6 e) true ∈ since) \/ exists stored, relisted listId e stored since) es /\
    (Forall uncut since -> Forall hitsStored since ->
     Forall (fun e => (timesRefuted (S kScanWorkerRescanRetries) e since /\ ANetwork (scanWorkerIsIpv6 e) true ∈ since) \/
       relisted listId e true since) es).
Proof.
  intros HC Hout. destruct (scan_run_ok W C (newScanWorker scan mode store row)) as (t & Ht & [_ _ _ Hrem]). rewrite Ht in Hout.
  destruct (Hrem HC pre listId es post Hout) as (before & start & since & -> & Hn & Hes). exists before, start, since. split; [done|]. split; [done|].
  split; [|intros Hcut Hst]; (eapply Forall_impl; [exact Hes|]); intros e [[Ht' Hup]|[(Ht' & Hc & Hup)|(stored & Hr)]]; auto.
  - left. split; [|done]. eapply timesRefuted_weaken; [|reflexivity|exact Ht']. lia.
  - right. by exists stored.
  - exfalso. rewrite Forall_forall in Hcut. apply Exists_exists in Hc as (a & Ha & Hc). exact (Hcut a Ha Hc).
  - right. destruct Hr as (hits & h & Hin & Hr). rewrite Forall_forall in Hst. pose proof (Hst _ Hin) as Hs. cbn in Hs. subst stored. by exists hits, h.
Qed.

Lemma rescan_removes_dead_witness :
  let W := trialWorld false quiet in let C := trialConst RescanResults in let w := trialWorker RescanResults in
  exists pre listId post, let es := [mkEntry (u "10.0.0.2") 443 0] in
    HonestCore W /\ swOut (snd (run W C w)) = pre ++ ARemove listId es :: post /\
    exists before chunkStart since, pre = before ++ ABegin chunkStart :: since /\ Forall noBegin since /\
      Forall (fun e => (timesRefuted 1 e since /\ ANetwork (scanWorkerIsIpv6 e) true ∈ since) \/ exists stored, relisted listId e stored since) es /\
      (Forall uncut since -> Forall hitsStored since ->
       Forall (fun e => (timesRefuted (S kScanWorkerRescanRetries) e since /\ ANetwork (scanWorkerIsIpv6 e) true ∈ since) \/
         relisted listId e true since) es).
Proof.
  intros W C w.
  destruct (cutAt (removesHost (u "10.0.0.2")) (swOut (snd (run W C w)))) as [[[pre a] post]|] eqn:Hcut; [|exfalso; by vm_compute in Hcut].
  assert (Ha : a = ARemove 2 [mkEntry (u "10.0.0.2") 443 0]) by (vm_compute in Hcut; by injection Hcut as _ <- _). subst a.
  apply cutAt_some in Hcut. exists pre, 2, post. split; [apply trial_honest|]. split; [exact Hcut|].
  exact (rescan_removes_dead W C _ _ _ _ pre 2 _ post (trial_honest _ _ _) Hcut).
Defined.

(** The old rows go also when the write of the hits that replace them fails: the
    result is then in the list under neither port. *)
Example replaced_rows_go_after_a_failed_write :
  let lists n := swStore (snd (run (failingWorld false quiet (fun t => negb (Nat.eqb t n))) (trialConst RescanResults) (trialWorker RescanResults))) in
  map target (GetEntries 2 (lists 0%nat)) = [(u "10.0.0.1", 8443)] /\ exists n, GetEntries 2 (lists n) = [].
Proof. split; [vm_compute; reflexivity|]. exists 100%nat. vm_compute. reflexivity. Qed.

(** The retries are left out when the core ends the first test of a chunk early
    without a pause: what it reported as failed until then goes after that one
    test, and the pass counts as complete. *)
Example cut_rescan_removes_at_once :
  let out := swOut (snd (run (trialWorld true quiet) (trialConst RescanResults) (trialWorker RescanResults))) in
  match cutAt (removesHost (u "10.0.0.2")) out with
  | Some (pre, _, _) => length (List.filter (fun a => match a with AProbe q _ => negb (pqMaxTargets q =? 0) | _ => false end) pre) = 1%nat
  | None => False
  end.
Proof. vm_compute. reflexivity. Qed.

(** ** The position *)

(** C8: The position that a scan saves is never ahead of its work, in the
    progress of a chunk and in the row of the scan alike.  Every position that a
    run saves, for the first pass and for the rescan, is reached by chunks of one
    list of targets: from nothing, or from where the scan was in the same pass
    when the run began.  The core was asked for each chunk at exactly the position
    before, and its answer ends at the next one; everything that passed the probe
    in it is a hit, was refuted by the config test or got no test configuration;
    and the hits had been handed to the database before the position was.  The
    chunks themselves are those of the worker's own targets and result list.  A
    pass counts as complete only at its end or when enough was found. *)
Theorem progress_never_ahead {Q : QtChar} W C scan mode store row :
  (forall pre a post m c tot, swOut (snd (run W C (newScanWorker scan mode store row))) = pre ++ a :: post -> savedAt a m c tot ->
     exists start spec listId, (start = 0 \/ start = posOf m scan /\ tot = totOf m scan) /\
       covers spec (workerConfig scan) listId tot pre start c) /\
  (forall w pre m c tot f r post, (swPersist w = true -> 0 <= result_list_id (swScan w)) ->
     swOut (snd (runChunks W C w)) = swOut w ++ pre ++ ASaveProgress m c tot f r :: post ->
     m = isMode (swScan w) /\ tot = ActiveTotal (swScan w) /\
     covers (swSpec w) (isConfig (swScan w)) (result_list_id (swScan w)) tot pre (ActiveCursor (swScan w)) c) /\
  (forall w e, fst (runChunks W C w) = Some (true, e) -> let s' := swScan (snd (runChunks W C w)) in
     e = None /\ (ActiveTotal (swScan w) <= ActiveCursor s' \/ stopAfterReached s' = true)).
Proof.
  split; [|split].
  - intros pre a post m c tot Hout Hsv.
    assert (H0 : Inv scan (workerConfig scan) None anyhow (newScanWorker scan mode store row)).
    { split; try done; [intros m'; right; by destruct m'|]. by intros []. }
    destruct (run_sound W C scan (workerConfig scan) _ H0) as [HS _]. exact (HS _ _ _ _ _ _ Hout Hsv).
  - intros w pre m c tot f r post Hid Hout. destruct (runChunks_ok W C w) as (t & Ht & [_ _ _ Hsaves _ _]). rewrite Ht in Hout. apply app_inv_head in Hout.
    destruct (Hsaves Hid) as [HS _]. destruct (HS _ _ _ _ _ _ _ Hout) as (-> & -> & Hc). by split.
  - intros w e He. destruct (runChunks_ok W C w) as (t & Ht & [_ _ _ _ _ Hdone]). by apply Hdone.
Qed.

(** A first pass over three addresses, of which two pass. *)
Definition trialPass : ScanWorker :=
  let w := onScan (is_total 3) (trialWorker Resume) in
  sw_Spec (scanWorkerBuildSpec [mkEntry (u "10.0.0.1") 443 0; mkEntry (u "10.0.0.2") 443 0; mkEntry (u "10.0.0.3") 443 0] [] (u "list") false 0) w.

(** The row of a first pass that is over. *)
Definition rowAt (n : Z) (a : ScanAct) : bool := match a with ASaveRow row => cursor row =? n | _ => false end.

Lemma progress_never_ahead_witness :
  let W := trialWorld false quiet in let C := trialConst FromInitial in let w := trialWorker FromInitial in
  exists pre row post spec listId, swOut (snd (run W C w)) = pre ++ ASaveRow row :: post /\ cursor row = 3 /\ total row = 3 /\
    covers spec (workerConfig trialScan) listId 3 pre 0 3.
Proof.
  intros W C w. destruct (progress_never_ahead W C trialScan FromInitial trialStore (Some trialScan)) as [Hsaves _].
  destruct (cutAt (rowAt 3) (swOut (snd (run W C w)))) as [[[pre a] post]|] eqn:Hcut; [|exfalso; by vm_compute in Hcut].
  assert (Ha : exists row, a = ASaveRow row /\ cursor row = 3 /\ total row = 3).
  { vm_compute in Hcut. injection Hcut as _ <- _. eexists. by split. }
  destruct Ha as (row & -> & Hc & Ht). apply cutAt_some in Hcut.
  destruct (Hsaves _ _ _ Initial 3 3 Hcut) as (start & spec & listId & Hs & Hcov).
  { rewrite <- Hc at 1. rewrite <- Ht. exact (saved_row row Initial). }
  exists pre, row, post, spec, listId. assert (start = 0) as -> by (by destruct Hs as [?|[? ?]]). by repeat split.
Defined.

(** ** The end *)

(** C17: Every run ends: whatever the core, the database and the other threads
    do, run comes to its end, says that it is finished exactly once, then ends
    its session with the core and does nothing else; and it leaves the scan not
    running, and paused exactly when it can be resumed. *)
Theorem scan_run_ends {Q : QtChar} W C scan mode store row :
  let w' := snd (run W C (newScanWorker scan mode store row)) in
  fst (run W C (newScanWorker scan mode store row)) = true /\
  isStatus (swScan w') <> Running /\
  (isStatus (swScan w') = Paused <-> rescanResumable (swScan w') = true \/ CanResumeInitial (swScan w') = true) /\
  exists before after, swOut w' = before ++ AFinished :: after ++ [AStopScan] /\ Forall noFinish before /\ Forall ambient after.
Proof.
  intros w'. destruct (scan_run_ok W C (newScanWorker scan mode store row)) as (t & Ht & [Hend [Hs1 Hs2] Hfin _]).
  subst w'. rewrite Ht. by repeat split; try apply Hs2.
Qed.

(** ** Saving *)

(** C23: Once saving has ended (DisablePersist), a run starts at most three more
    calls of the repositories that write, whenever saving ends and whatever the
    pass is: the flag is read once before the writes of a chunk's results and
    before each other write or group of them.  A call counts when it is started
    and as one; on a long list it is a row of transactions. *)
Theorem writes_after_saving_ended {Q : QtChar} W C scan mode store row :
  (writesAfterOff (swOut (snd (run W C (newScanWorker scan mode store row)))) <= 3)%nat.
Proof.
  destruct (budget_run W C (newScanWorker scan mode store row)) as (t & Ht & [_ Hon]). rewrite Ht. by apply Hon.
Qed.

(** The three are made when saving ends before a rescan writes a chunk with a
    hit on another port and a removal. *)
Example three_writes_after_saving_ended :
  exists n, writesAfterOff (swOut (snd (run (trialWorld false (fun t => if Nat.eqb t n then [ADisablePersist] else []))
    (trialConst RescanResults) (trialWorker RescanResults)))) = 3%nat.
Proof. exists 100%nat. vm_compute. reflexivity. Qed.
