(* ===== verification/IpLists.v ===== *)
(** The IP lists as they are stored: src/src/database/IpListsRepo.cpp.

    A list is a header row and its entries, kept in generations; readers see the
    generation the header names.  A write that changes the generation claims its
    list, works in transactions of at most [chunkRows] rows (20000 in the code)
    and lets other threads in between; upserts and removals work on the
    generation in force, a chunk at a time, without a claim.

    A call is a [RepoTask] that stands at the transaction it makes next; [taskStep]
    makes it, or fails it when the database does ([ok] false), and says with an
    [Effect] what it did to what readers see.  Rows are kept per list and
    generation in ascending order, as the primary key has them.  Names,
    sources and the order of the lists are left out. *)
From stdpp Require Import base list gmap strings.
From Stdlib Require Import ZArith Lia Bool.
From S2P Require Import Prelude IpListParse IpListStore.

Record ListHeader := mkHeader { lhRole : ListRole; lhRelated : Z; lhGeneration : Z }.

(** entry_order and the entry. *)
Definition ListRow : Type := Z * IpListEntry.

Record ListDb := mkDb {
  dbHeaders : gmap Z ListHeader;
  dbRows : gmap (Z * Z) (list ListRow);
  dbLast : Z
}.

Definition rowsOf (id generation : Z) (db : ListDb) : list ListRow := default [] (dbRows db !! (id, generation)).
Definition setRows (id generation : Z) (l : list ListRow) (db : ListDb) : ListDb :=
  mkDb (dbHeaders db) (<[(id, generation) := l]> (dbRows db)) (dbLast db).

(** ** Statements *)

Definition ipListsRepoGeneration (id : Z) (db : ListDb) : Z :=
  match dbHeaders db !! id with Some h => lhGeneration h | None => -1 end.

Definition setGeneration (id generation : Z) (db : ListDb) : ListDb :=
  mkDb (alter (fun h => mkHeader (lhRole h) (lhRelated h) generation) id (dbHeaders db)) (dbRows db) (dbLast db).

Definition setOwner (id : Z) (role : ListRole) (related : Z) (db : ListDb) : ListDb :=
  mkDb (alter (fun h => mkHeader role related (lhGeneration h)) id (dbHeaders db)) (dbRows db) (dbLast db).

(** The rows go with the header (ON DELETE CASCADE). *)
Definition deleteHeader (id : Z) (db : ListDb) : ListDb :=
  mkDb (delete id (dbHeaders db)) (filter (fun p => p.1.1 <> id) (dbRows db)) (dbLast db).

(** INSERT OR IGNORE: neither the place nor the target may be taken. *)
Fixpoint insertRow (r : ListRow) (l : list ListRow) : list ListRow :=
  match l with
  | [] => [r]
  | x :: l' => if fst r <? fst x then r :: l else x :: insertRow r l'
  end.

Definition rowTaken (r : ListRow) (l : list ListRow) : bool := existsb (fun x => (fst x =? fst r) || sameTarget (snd r) (snd x)) l.

Definition insertOrIgnore (r : ListRow) (l : list ListRow) : list ListRow := if rowTaken r l then l else insertRow r l.

(** ipListsRepoInsertEntries: the entries from [begin] on, at their places. *)
Definition ipListsRepoInsertEntries (begin : nat) (es : list IpListEntry) (l : list ListRow) : list ListRow :=
  fst (fold_left (fun (st : list ListRow * Z) e => (insertOrIgnore (snd st, e) (fst st), snd st + 1)) es (l, Z.of_nat begin)).

Definition setRowLatency (e : IpListEntry) (r : ListRow) : ListRow := (fst r, setLatency e (snd r)).

(** A row of UpsertEntries; with the next place and the number of new rows. *)
Definition upsertRow (st : list ListRow * Z * Z) (e : IpListEntry) : list ListRow * Z * Z :=
  let '(l, order, appended) := st in
  if isNil (cidr e) then st
  else if rowTaken (order, e) l then (map (setRowLatency e) l, order, appended)
  else (insertRow (order, e) l, order + 1, appended + 1).

Definition nextPlace (l : list ListRow) : Z := match last l with Some r => fst r + 1 | None => 0 end.

Definition upsertRows (es : list IpListEntry) (l : list ListRow) : list ListRow * Z :=
  let '(l', _, appended) := fold_left upsertRow es (l, nextPlace l, 0) in (l', appended).

Definition removeRows (es : list IpListEntry) (l : list ListRow) : list ListRow := List.filter (fun r => negb (holds es (snd r))) l.

(** The generations of a list that have rows; the code takes one of them, and it
    does not matter which. *)
Definition generationsOf (id : Z) (db : ListDb) : list Z :=
  omap (fun p : Z * Z * list ListRow => if (fst (fst p) =? id) && negb (isNil (snd p)) then Some (snd (fst p)) else None) (map_to_list (dbRows db)).

(** ** What readers see *)

Definition viewOf (db : ListDb) (id : Z) (h : ListHeader) : IpList := mkIpList (lhRole h) (lhRelated h) (map snd (rowsOf id (lhGeneration h) db)).
Definition readersView (db : ListDb) : IpListStore := mkListStore (map_imap (fun id h => Some (viewOf db id h)) (dbHeaders db)) (dbLast db).

(** ** Calls *)

(** ipListsRepoPurgeExcept, and the ipListsRepoPurgeGeneration within it. *)
Inductive PurgeSweep := SwFind | SwPurge (stale : Z).

Inductive ReplaceAt :=
| RpClaim | RpRead
| RpSweep (current : Z) (s : PurgeSweep)
| RpStage (current : Z) (begin : nat)
| RpPurge (generation : Z) (result : bool).

Inductive DeleteAt := DlClaim | DlBump | DlSweep (fresh : Z) (s : PurgeSweep) | DlDrop (fresh : Z).
Inductive ClearAt := ClClaim | ClBump | ClSweep (fresh : Z) (s : PurgeSweep).
Inductive AddAt := AdHeader | AdClaim (id : Z) | AdStage (id : Z) (begin : nat) | AdSweep (id : Z) (s : PurgeSweep) | AdDrop (id : Z).
Inductive CopyAt :=
| CpClaim | CpHeader
| CpTarget (generation id : Z)
| CpChunk (generation id after : Z)
| CpSweep (id : Z) (s : PurgeSweep)
| CpDrop (id : Z).

Inductive RepoTask :=
| OpReplaceEntries (id : Z) (unique : list IpListEntry) (p : ReplaceAt)
| OpUpsertEntries (id : Z) (rest : list IpListEntry) (pinned appended : Z)
| OpRemoveEntries (id : Z) (rest : list IpListEntry) (pinned removed : Z)
| OpClearEntries (id : Z) (p : ClearAt)
| OpDeleteIpList (id : Z) (onlyIfDetached : bool) (p : DeleteAt)
| OpAddIpList (role : ListRole) (related : Z) (unique : list IpListEntry) (p : AddAt)
| OpCopyAsUserList (source : Z) (p : CopyAt)
| OpDetachIpList (id : Z)
| OpSaveHeader (id : Z) (role : ListRole) (related : Z)
| OpFinished (result : Z).

(** What a step does to what readers see, and what it finds out. *)
Inductive Effect :=
| ENone
| EReplace (id : Z) (es : list IpListEntry)
| EUpsert (id : Z) (es : list IpListEntry) (appended : Z)
| ERemove (id : Z) (es : list IpListEntry) (removed : Z)
| EClear (id : Z)
| EDelete (id : Z)
| EAdd (id : Z) (role : ListRole) (related : Z) (es : list IpListEntry)
| EOwner (id : Z) (role : ListRole) (related : Z) (found : bool).

Section Calls.
Context (chunkRows : nat).

(** *** Parts of a call *)

(** One transaction of ipListsRepoPurgeGeneration; [None]: there are more rows. *)
Definition purgeChunk (ok : bool) (id generation : Z) (db : ListDb) : ListDb * option bool :=
  if negb ok || (ipListsRepoGeneration id db =? generation) then (db, Some false)
  else
    let l := rowsOf id generation db in
    match l !! (chunkRows - 1)%nat with
    | Some bound => (setRows id generation (List.filter (fun r => fst bound <? fst r) l) db, None)
    | None => (setRows id generation [] db, Some true)
    end.

(** A step of ipListsRepoPurgeExcept; [inr] with its result. *)
Definition purgeSweepStep (ok : bool) (id keep : Z) (s : PurgeSweep) (db : ListDb) : ListDb * (PurgeSweep + bool) :=
  match s with
  | SwFind =>
      if negb ok then (db, inr false)
      else
        let gs := generationsOf id db in
        match find (fun g => g <? keep) gs with
        | Some g => (db, inl (SwPurge g))
        | None => match find (fun g => keep <? g) gs with Some g => (db, inl (SwPurge g)) | None => (db, inr true) end
        end
  | SwPurge g =>
      match purgeChunk ok id g db with
      | (db, None) => (db, inl (SwPurge g))
      | (db, Some true) => (db, inl SwFind)
      | (db, Some false) => (db, inr false)
      end
  end.

(** The new generation, unless the list is gone or not as required. *)
Definition ipListsRepoBumpGeneration (ok : bool) (id : Z) (requireDetached : bool) (db : ListDb) : option (Z * ListDb) :=
  match (if ok then dbHeaders db !! id else None) with
  | None => None
  | Some h =>
      if requireDetached && negb (bool_decide (lhRole h = ScanSnapshot) && (lhRelated h =? -1)) then None
      else let fresh := foldr Z.max (lhGeneration h) (generationsOf id db) + 1 in Some (fresh, setGeneration id fresh db)
  end.

(** One transaction of ipListsRepoStage; with whether it was the last. *)
Definition stageChunk (ok : bool) (id current target : Z) (es : list IpListEntry) (begin : nat) (db : ListDb) : option (bool * ListDb) :=
  if negb ok || negb (ipListsRepoGeneration id db =? current) then None
  else
    let part := take chunkRows (drop begin es) in
    let db := setRows id target (ipListsRepoInsertEntries begin part (rowsOf id target db)) db in
    if (begin + length part =? length es)%nat then Some (true, setGeneration id target db) else Some (false, db).

Definition NewIpListID (db : ListDb) : Z * ListDb := (dbLast db + 1, mkDb (dbHeaders db) (dbRows db) (dbLast db + 1)).

(** The new list's header; none when its id is taken. *)
Definition ipListsRepoInsertHeader (id : Z) (role : ListRole) (related : Z) (db : ListDb) : option ListDb :=
  match dbHeaders db !! id with
  | Some _ => None
  | None => Some (mkDb (<[id := mkHeader role related 0]> (dbHeaders db)) (dbRows db) (dbLast db))
  end.

Definition addHeader (ok : bool) (role : ListRole) (related : Z) (db : ListDb) : option (Z * ListDb) :=
  let '(id, db) := NewIpListID db in
  if negb ok || (id <=? 0) then None else (fun db => (id, db)) <$> ipListsRepoInsertHeader id role related db.

(** The rows of the source that the next chunk of a copy takes, and the place
    it ends at, if there is more. *)
Definition copyPart (source generation after : Z) (db : ListDb) : list ListRow * option Z :=
  let l := List.filter (fun r => after <? fst r) (rowsOf source generation db) in
  match l !! (chunkRows - 1)%nat with
  | Some bound => (List.filter (fun r => fst r <=? fst bound) l, Some (fst bound))
  | None => (l, None)
  end.

(** A plain INSERT: the whole chunk fails when a place or a target is taken. *)
Definition insertListRows (rs l : list ListRow) : option (list ListRow) :=
  fold_left (fun (o : option (list ListRow)) r => match o with Some l => if rowTaken r l then None else Some (insertRow r l) | None => None end) rs (Some l).

Definition copyChunk (ok : bool) (source generation id after : Z) (db : ListDb) : option (option Z * ListDb) :=
  if negb ok || negb (ipListsRepoGeneration id db =? 0) then None
  else
    let '(part, bound) := copyPart source generation after db in
    match insertListRows part (rowsOf id 1 db) with
    | None => None
    | Some l =>
        let db := setRows id 1 l db in
        Some (bound, match bound with Some _ => db | None => setGeneration id 1 db end)
    end.

Definition entriesAt (id generation : Z) (db : ListDb) : list IpListEntry := map snd (rowsOf id generation db).

(** *** A step of a call *)

Definition Turn : Type := RepoTask * gset Z * ListDb * Effect.

(** [None] while another call has the claim. *)
Definition takeClaim (id : Z) (next : RepoTask) (claims : gset Z) (db : ListDb) : option Turn :=
  if decide (id ∈ claims) then None else Some (next, {[id]} ∪ claims, db, ENone).

Definition replaceStep (ok : bool) (id : Z) (unique : list IpListEntry) (p : ReplaceAt) (claims : gset Z) (db : ListDb) : option Turn :=
  let at_ p claims db e : option Turn := Some (OpReplaceEntries id unique p, claims, db, e) in
  let return_ (result : bool) claims db : option Turn := Some (OpFinished (if result then 1 else 0), claims ∖ {[id]}, db, ENone) in
  match p with
  | RpClaim => takeClaim id (OpReplaceEntries id unique RpRead) claims db
  | RpRead =>
      let current := if ok then ipListsRepoGeneration id db else -1 in
      if current <? 0 then return_ false claims db else at_ (RpSweep current SwFind) claims db ENone
  | RpSweep current s =>
      match purgeSweepStep ok id current s db with
      | (db, inl s) => at_ (RpSweep current s) claims db ENone
      | (db, inr true) => at_ (RpStage current 0) claims db ENone
      | (db, inr false) => return_ false claims db
      end
  | RpStage current begin =>
      match stageChunk ok id current (current + 1) unique begin db with
      | None => at_ (RpPurge (current + 1) false) claims db ENone
      | Some (false, db) => at_ (RpStage current (begin + length (take chunkRows (drop begin unique)))) claims db ENone
      | Some (true, db) => at_ (RpPurge current true) claims db (EReplace id (entriesAt id (current + 1) db))
      end
  | RpPurge generation result =>
      match purgeChunk ok id generation db with
      | (db, None) => at_ (RpPurge generation result) claims db ENone
      | (db, Some _) => return_ result claims db
      end
  end.

(** The part of the entries that the next transaction takes. *)
Definition chunkOf (rest : list IpListEntry) : list IpListEntry := take chunkRows rest.

Definition pinnedTo (ok : bool) (id pinned : Z) (db : ListDb) : option Z :=
  let generation := ipListsRepoGeneration id db in
  if negb ok || (generation <? 0) || ((0 <=? pinned) && negb (generation =? pinned)) then None else Some generation.

Definition upsertStep (ok : bool) (id : Z) (rest : list IpListEntry) (pinned appended : Z) (claims : gset Z) (db : ListDb) : option Turn :=
  if isNil rest then Some (OpFinished appended, claims, db, ENone)
  else match pinnedTo ok id pinned db with
  | None => Some (OpFinished appended, claims, db, ENone)
  | Some generation =>
      let '(l, n) := upsertRows (chunkOf rest) (rowsOf id generation db) in
      Some (OpUpsertEntries id (drop chunkRows rest) generation (appended + n), claims, setRows id generation l db, EUpsert id (chunkOf rest) n)
  end.

Definition removeStep (ok : bool) (id : Z) (rest : list IpListEntry) (pinned removed : Z) (claims : gset Z) (db : ListDb) : option Turn :=
  if isNil rest then Some (OpFinished removed, claims, db, ENone)
  else match pinnedTo ok id pinned db with
  | None => Some (OpFinished removed, claims, db, ENone)
  | Some generation =>
      let l := rowsOf id generation db in
      let l' := removeRows (chunkOf rest) l in
      let n := zlen l - zlen l' in
      Some (OpRemoveEntries id (drop chunkRows rest) generation (removed + n), claims, setRows id generation l' db, ERemove id (chunkOf rest) n)
  end.

Definition clearStep (ok : bool) (id : Z) (p : ClearAt) (claims : gset Z) (db : ListDb) : option Turn :=
  let return_ claims db : option Turn := Some (OpFinished 0, claims ∖ {[id]}, db, ENone) in
  match p with
  | ClClaim => takeClaim id (OpClearEntries id ClBump) claims db
  | ClBump =>
      match ipListsRepoBumpGeneration ok id false db with
      | None => return_ claims db
      | Some (fresh, db) => Some (OpClearEntries id (ClSweep fresh SwFind), claims, db, EClear id)
      end
  | ClSweep fresh s =>
      match purgeSweepStep ok id fresh s db with
      | (db, inl s) => Some (OpClearEntries id (ClSweep fresh s), claims, db, ENone)
      | (db, inr _) => return_ claims db
      end
  end.

Definition deleteStep (ok : bool) (id : Z) (onlyIfDetached : bool) (p : DeleteAt) (claims : gset Z) (db : ListDb) : option Turn :=
  let at_ p db e : option Turn := Some (OpDeleteIpList id onlyIfDetached p, claims, db, e) in
  let return_ db e : option Turn := Some (OpFinished 0, claims ∖ {[id]}, db, e) in
  match p with
  | DlClaim => takeClaim id (OpDeleteIpList id onlyIfDetached DlBump) claims db
  | DlBump =>
      match ipListsRepoBumpGeneration ok id onlyIfDetached db with
      | None => return_ db ENone
      | Some (fresh, db) => at_ (DlSweep fresh SwFind) db (EClear id)
      end
  | DlSweep fresh s =>
      match purgeSweepStep ok id fresh s db with
      | (db, inl s) => at_ (DlSweep fresh s) db ENone
      | (db, inr true) => at_ (DlDrop fresh) db ENone
      | (db, inr false) => return_ db ENone
      end
  | DlDrop fresh =>
      if ok && (ipListsRepoGeneration id db =? fresh) then return_ (deleteHeader id db) (EDelete id) else return_ db ENone
  end.

Definition addStep (ok : bool) (role : ListRole) (related : Z) (unique : list IpListEntry) (p : AddAt) (claims : gset Z) (db : ListDb) : option Turn :=
  let at_ p claims db e : option Turn := Some (OpAddIpList role related unique p, claims, db, e) in
  let return_ (result : Z) claims db e : option Turn := Some (OpFinished result, claims, db, e) in
  match p with
  | AdHeader =>
      match addHeader ok role related db with
      | None => return_ (-1) claims db ENone
      | Some (id, db) =>
          if (chunkRows <? length unique)%nat then at_ (AdClaim id) claims db (EAdd id role related [])
          else return_ id claims (setRows id 0 (ipListsRepoInsertEntries 0 unique (rowsOf id 0 db)) db) (EAdd id role related unique)
      end
  | AdClaim id => takeClaim id (OpAddIpList role related unique (AdStage id 0)) claims db
  | AdStage id begin =>
      match stageChunk ok id 0 1 unique begin db with
      | None => at_ (AdSweep id SwFind) claims db ENone
      | Some (false, db) => at_ (AdStage id (begin + length (take chunkRows (drop begin unique)))) claims db ENone
      | Some (true, db) => return_ id (claims ∖ {[id]}) db (EReplace id (entriesAt id 1 db))
      end
  | AdSweep id s =>
      match purgeSweepStep ok id (-1) s db with
      | (db, inl s) => at_ (AdSweep id s) claims db ENone
      | (db, inr _) => at_ (AdDrop id) claims db ENone
      end
  | AdDrop id =>
      if ok then return_ (-1) (claims ∖ {[id]}) (deleteHeader id db) (EDelete id) else return_ (-1) (claims ∖ {[id]}) db ENone
  end.

Definition copyStep (ok : bool) (source : Z) (p : CopyAt) (claims : gset Z) (db : ListDb) : option Turn :=
  let at_ p db e : option Turn := Some (OpCopyAsUserList source p, claims, db, e) in
  match p with
  | CpClaim => takeClaim source (OpCopyAsUserList source CpHeader) claims db
  | CpHeader =>
      match (if 0 <=? ipListsRepoGeneration source db then addHeader ok User (-1) db else None) with
      | None => Some (OpFinished (-1), claims ∖ {[source]}, db, ENone)
      | Some (id, db') => at_ (CpTarget (ipListsRepoGeneration source db) id) db' (EAdd id User (-1) [])
      end
  | CpTarget generation id => takeClaim id (OpCopyAsUserList source (CpChunk generation id (-1))) claims db
  | CpChunk generation id after =>
      match copyChunk ok source generation id after db with
      | None => at_ (CpSweep id SwFind) db ENone
      | Some (Some bound, db) => at_ (CpChunk generation id bound) db ENone
      | Some (None, db) => Some (OpFinished id, claims ∖ {[source; id]}, db, EReplace id (entriesAt id 1 db))
      end
  | CpSweep id s =>
      match purgeSweepStep ok id (-1) s db with
      | (db, inl s) => at_ (CpSweep id s) db ENone
      | (db, inr _) => at_ (CpDrop id) db ENone
      end
  | CpDrop id =>
      if ok then Some (OpFinished (-1), claims ∖ {[source; id]}, deleteHeader id db, EDelete id)
      else Some (OpFinished (-1), claims ∖ {[source; id]}, db, ENone)
  end.

(** DetachIpList and SaveHeader: one statement. *)
Definition ownerStep (ok : bool) (id : Z) (role : ListRole) (related : Z) (result : bool -> Z) (claims : gset Z) (db : ListDb) : option Turn :=
  if ok then
    let found := isSome (dbHeaders db !! id) in
    Some (OpFinished (result found), claims, setOwner id role related db, EOwner id role related found)
  else Some (OpFinished 0, claims, db, ENone).

Definition taskStep (ok : bool) (t : RepoTask) (claims : gset Z) (db : ListDb) : option Turn :=
  match t with
  | OpReplaceEntries id unique p => replaceStep ok id unique p claims db
  | OpUpsertEntries id rest pinned appended => upsertStep ok id rest pinned appended claims db
  | OpRemoveEntries id rest pinned removed => removeStep ok id rest pinned removed claims db
  | OpClearEntries id p => clearStep ok id p claims db
  | OpDeleteIpList id only p => deleteStep ok id only p claims db
  | OpAddIpList role related unique p => addStep ok role related unique p claims db
  | OpCopyAsUserList source p => copyStep ok source p claims db
  | OpDetachIpList id => ownerStep ok id ScanSnapshot (-1) (fun _ => 0) claims db
  | OpSaveHeader id role related => ownerStep ok id role related (fun found : bool => if found then 1 else 0) claims db
  | OpFinished _ => None
  end.
End Calls.

(** *** Calls as they are made *)

Definition ReplaceEntriesCall (id : Z) (es : list IpListEntry) : RepoTask :=
  if id <? 0 then OpFinished 0 else OpReplaceEntries id (ipListsRepoUnique es) RpClaim.
Definition UpsertEntriesCall (id : Z) (es : list IpListEntry) : RepoTask :=
  if (id <? 0) || isNil es then OpFinished 0 else OpUpsertEntries id es (-1) 0.
Definition RemoveEntriesCall (id : Z) (es : list IpListEntry) : RepoTask :=
  if (id <? 0) || isNil es then OpFinished 0 else OpRemoveEntries id es (-1) 0.
Definition ClearEntriesCall (id : Z) : RepoTask := if id <? 0 then OpFinished 0 else OpClearEntries id ClClaim.
Definition DeleteIpListCall (id : Z) (onlyIfDetached : bool) : RepoTask := if id <? 0 then OpFinished 0 else OpDeleteIpList id onlyIfDetached DlClaim.
Definition AddIpListCall (role : ListRole) (related : Z) (es : list IpListEntry) : RepoTask := OpAddIpList role related (ipListsRepoUnique es) AdHeader.
Definition CopyAsUserListCall (source : Z) : RepoTask := if source <? 0 then OpFinished (-1) else OpCopyAsUserList source CpClaim.
Definition DetachIpListCall (id : Z) : RepoTask := if id <? 0 then OpFinished 0 else OpDetachIpList id.
Definition SaveHeaderCall (id : Z) (role : ListRole) (related : Z) : RepoTask := if id <? 0 then OpFinished 0 else OpSaveHeader id role related.

(** ** Threads *)

Inductive RepoCall :=
| RcReplaceEntries (id : Z) (es : list IpListEntry)
| RcUpsertEntries (id : Z) (es : list IpListEntry)
| RcRemoveEntries (id : Z) (es : list IpListEntry)
| RcClearEntries (id : Z)
| RcDeleteIpList (id : Z) (onlyIfDetached : bool)
| RcAddIpList (role : ListRole) (related : Z) (es : list IpListEntry)
| RcCopyAsUserList (source : Z)
| RcDetachIpList (id : Z)
| RcSaveHeader (id : Z) (role : ListRole) (related : Z).

Definition startOf (c : RepoCall) : RepoTask :=
  match c with
  | RcReplaceEntries id es => ReplaceEntriesCall id es
  | RcUpsertEntries id es => UpsertEntriesCall id es
  | RcRemoveEntries id es => RemoveEntriesCall id es
  | RcClearEntries id => ClearEntriesCall id
  | RcDeleteIpList id only => DeleteIpListCall id only
  | RcAddIpList role related es => AddIpListCall role related es
  | RcCopyAsUserList source => CopyAsUserListCall source
  | RcDetachIpList id => DetachIpListCall id
  | RcSaveHeader id role related => SaveHeaderCall id role related
  end.

(** The calls by number with where they are, and what each step did, with the
    call that did it. *)
Record IpListsRepo := mkRepo { lrDb : ListDb; lrClaims : gset Z; lrTasks : gmap nat (RepoCall * RepoTask); lrLog : list (nat * Effect) }.

Inductive RepoEvent := RCall (n : nat) (c : RepoCall) | RTurn (n : nat) (ok : bool).

Definition repoTurn (chunkRows : nat) (e : RepoEvent) (s : IpListsRepo) : IpListsRepo :=
  match e with
  | RCall n c =>
      match lrTasks s !! n with
      | Some _ => s
      | None => mkRepo (lrDb s) (lrClaims s) (<[n := (c, startOf c)]> (lrTasks s)) (lrLog s)
      end
  | RTurn n ok =>
      match lrTasks s !! n with
      | None => s
      | Some (c, t) =>
          match taskStep chunkRows ok t (lrClaims s) (lrDb s) with
          | None => s
          | Some (t', claims, db, e) => mkRepo db claims (<[n := (c, t')]> (lrTasks s)) (lrLog s ++ [(n, e)])
          end
      end
  end.

Definition repoRun (chunkRows : nat) (events : list RepoEvent) (s : IpListsRepo) : IpListsRepo :=
  fold_left (fun s e => repoTurn chunkRows e s) events s.

(** ipListsRepoPurgeLeftovers: before any writer, all rows but those in force go. *)
Definition ipListsRepoPurgeLeftovers (db : ListDb) : ListDb :=
  mkDb (dbHeaders db) (filter (fun p => p.1.2 = ipListsRepoGeneration p.1.1 db) (dbRows db)) (dbLast db).

(** ** Reading *)

Section Reading.
Context (chunkRows : nat) (id : Z).

(** ipListsRepoReadGeneration: page after page, [db page] being the database at
    that page's transaction.  [Some None] when the generation changed on the
    way, [None] when the fuel ends. *)
Fixpoint ipListsRepoReadGeneration (fuel : nat) (generation after : Z) (db : nat -> ListDb) (page : nat) : option (option (list ListRow)) :=
  match fuel with
  | O => None
  | S fuel' =>
      if negb (ipListsRepoGeneration id (db page) =? generation) then Some None
      else
        let l := take chunkRows (List.filter (fun r => after <? fst r) (rowsOf id generation (db page))) in
        if (length l <? chunkRows)%nat then Some (Some l)
        else match last l with
             | None => Some (Some l)
             | Some r => option_map (option_map (fun rest => l ++ rest)) (ipListsRepoReadGeneration fuel' generation (fst r) db (S page))
             end
  end.

(** GetEntries of all the entries, when the database answers: the generation is read from [db 0], the pages
    from then on; a second attempt finds [still] all the while. *)
Definition readEntries (fuel : nat) (db : nat -> ListDb) (still : ListDb) : option (list IpListEntry) :=
  let generation := ipListsRepoGeneration id (db 0%nat) in
  if generation <? 0 then Some []
  else match ipListsRepoReadGeneration fuel generation (-1) db 1 with
       | None => None
       | Some (Some l) => Some (map snd l)
       | Some None =>
           let generation := ipListsRepoGeneration id still in
           if generation <? 0 then Some []
           else match ipListsRepoReadGeneration fuel generation (-1) (fun _ => still) 0 with
                | None => None
                | Some (Some l) => Some (map snd l)
                | Some None => Some []
                end
       end.

End Reading.
