(* ===== verification/IpListsFacts.v ===== *)
(** The stored IP lists refine the list store: whatever the threads do between
    each other's transactions, each step changes what readers see the way one
    call of the store does, or not at all. *)
From stdpp Require Import base list gmap strings.
From Stdlib Require Import ZArith Lia Bool Sorted.
From S2P Require Import Prelude IpListParse IpListStore IpLists.

(** ** Rows *)

Definition byOrder (a b : ListRow) : Prop := fst a < fst b.
Definition rowTarget (r : ListRow) : qstr * Z := target (snd r).

Record rowsWf (l : list ListRow) : Prop := {
  rw_sorted : StronglySorted byOrder l;
  rw_targets : NoDup (map rowTarget l);
  rw_rows : Forall (fun r => 0 <= fst r /\ cidr (snd r) <> []) l
}.

Lemma rowsWf_nil : rowsWf [].
Proof. split; constructor. Qed.

Lemma sorted_filter {A} (R : A -> A -> Prop) f l : StronglySorted R l -> StronglySorted R (List.filter f l).
Proof.
  induction 1 as [|x l _ IH Hx]; cbn [List.filter]; [constructor|]. destruct (f x); [|done]. constructor; [done|].
  apply Forall_forall. intros y [Hy _]%filter_elem. rewrite Forall_forall in Hx. by apply Hx.
Qed.

Lemma filter_forall {A} (P : A -> Prop) f l : Forall P l -> Forall P (List.filter f l).
Proof. rewrite !Forall_forall. intros H x [Hx _]%filter_elem. auto. Qed.

Lemma filter_every {A} (f : A -> bool) l : Forall (fun x => f x = true) l -> List.filter f l = l.
Proof. induction 1 as [|x l Hx _ IH]; cbn [List.filter]; [done|]. by rewrite Hx, IH. Qed.

Lemma map_filter_nodup {A B} (g : A -> B) f l : NoDup (map g l) -> NoDup (map g (List.filter f l)).
Proof.
  induction l as [|x l IH]; [done|]. cbn [map List.filter]. intros Hn. inversion Hn as [|? ? Hx Hl]; subst.
  destruct (f x); [|by apply IH]. cbn [map]. constructor; [|by apply IH]. contradict Hx.
  apply list_elem_of_In, in_map_iff in Hx as (y & <- & [Hy _]%list_elem_of_In%filter_elem).
  apply list_elem_of_In, in_map_iff. exists y. split; [done|]. by apply list_elem_of_In.
Qed.

Lemma rowsWf_filter f l : rowsWf l -> rowsWf (List.filter f l).
Proof. intros [S T R]. split; [by apply sorted_filter|by apply map_filter_nodup|by apply filter_forall]. Qed.

Lemma insertRow_elem r l x : x ∈ insertRow r l <-> x = r \/ x ∈ l.
Proof.
  induction l as [|y l IH]; cbn [insertRow]; [set_solver|]. destruct (fst r <? fst y); [set_solver|]. rewrite !elem_of_cons, IH. tauto.
Qed.

Lemma insertRow_perm r l : insertRow r l ≡ₚ r :: l.
Proof. induction l as [|y l IH]; cbn [insertRow]; [done|]. destruct (fst r <? fst y); [done|]. rewrite IH. constructor. Qed.

Lemma taken_false r l : rowTaken r l = false <-> Forall (fun x => fst x <> fst r /\ rowTarget x <> rowTarget r) l.
Proof.
  unfold rowTaken. rewrite <- not_true_iff_false, existsb_exists, Forall_forall. split.
  - intros H x Hx. split; intros He; apply H; exists x; (split; [by apply list_elem_of_In|]); apply orb_true_iff.
    + left. lia.
    + right. by apply sameTarget_spec.
  - intros H (x & Hx%list_elem_of_In & [He|He]%orb_true_iff); destruct (H x Hx) as [H1 H2]; [lia|]. by apply sameTarget_spec in He.
Qed.

Lemma insertRow_sorted r l : StronglySorted byOrder l -> Forall (fun x => fst x <> fst r) l -> StronglySorted byOrder (insertRow r l).
Proof.
  induction 1 as [|y l Hl IH Hy]; intros Hf; cbn [insertRow]; [by repeat constructor|]. inversion Hf as [|? ? Hne Hf']; subst.
  destruct (fst r <? fst y) eqn:E.
  - constructor; [by constructor|]. constructor; [unfold byOrder; lia|]. eapply Forall_impl; [exact Hy|]. unfold byOrder. intros z. lia.
  - constructor; [by apply IH|]. apply Forall_forall. intros z [->|Hz]%insertRow_elem; [unfold byOrder; lia|]. rewrite Forall_forall in Hy. auto.
Qed.

Lemma insertRow_wf r l : rowsWf l -> rowTaken r l = false -> 0 <= fst r -> cidr (snd r) <> [] -> rowsWf (insertRow r l).
Proof.
  intros [S T R] Hf%taken_false Ho Hc. split.
  - apply insertRow_sorted; [done|]. eapply Forall_impl; [exact Hf|]. by intros x [].
  - rewrite insertRow_perm. cbn [map]. constructor; [|done]. intros (x & Hx & Hin)%list_elem_of_In%in_map_iff.
    rewrite Forall_forall in Hf. by destruct (Hf x ltac:(by apply list_elem_of_In)).
  - rewrite insertRow_perm. by constructor.
Qed.

Lemma insertOrIgnore_wf r l : rowsWf l -> 0 <= fst r -> cidr (snd r) <> [] -> rowsWf (insertOrIgnore r l).
Proof. intros. unfold insertOrIgnore. destruct (rowTaken r l) eqn:E; [done|]. by apply insertRow_wf. Qed.

Lemma insertEntries_wf begin es l : rowsWf l -> Forall (fun e => cidr e <> []) es -> rowsWf (ipListsRepoInsertEntries begin es l).
Proof.
  intros Hl Hes. unfold ipListsRepoInsertEntries.
  assert (H0 : 0 <= Z.of_nat begin) by lia. revert H0. generalize (Z.of_nat begin) as o. revert l Hl.
  induction Hes as [|e es He _ IH]; intros l Hl o Ho; cbn [fold_left fst snd]; [done|]. apply IH; [by apply insertOrIgnore_wf|lia].
Qed.

(** Rows above all others go to the end. *)
Lemma insertRow_last r l : Forall (fun x => fst x < fst r) l -> insertRow r l = l ++ [r].
Proof.
  induction 1 as [|y l Hy _ IH]; cbn [insertRow]; [done|]. assert (fst r <? fst y = false) as -> by lia. by rewrite IH.
Qed.

Definition placed (begin : nat) (es : list IpListEntry) : list ListRow := imap (fun i e => (Z.of_nat (begin + i), e)) es.

Lemma placed_cons begin e es : placed begin (e :: es) = (Z.of_nat begin, e) :: placed (S begin) es.
Proof. unfold placed. rewrite imap_cons, Nat.add_0_r. f_equal. apply imap_ext. intros i x _. cbn. f_equal. lia. Qed.

Lemma placed_entries begin es : map snd (placed begin es) = es.
Proof. revert begin. induction es as [|e es IH]; intros begin; [done|]. rewrite placed_cons. cbn [map snd]. by rewrite IH. Qed.

Lemma placed_app begin es es' : placed begin (es ++ es') = placed begin es ++ placed (begin + length es) es'.
Proof.
  revert begin. induction es as [|e es IH]; intros begin; cbn [app length]; [by rewrite Nat.add_0_r|].
  rewrite !placed_cons, IH. cbn. by rewrite Nat.add_succ_r.
Qed.

Lemma placed_orders begin es : Forall (fun r => Z.of_nat begin <= fst r < Z.of_nat (begin + length es)) (placed begin es).
Proof.
  revert begin. induction es as [|e es IH]; intros begin; [constructor|]. rewrite placed_cons. constructor; [cbn; lia|].
  eapply Forall_impl; [apply IH|]. cbn. intros. lia.
Qed.

(** A chunk after the chunks before it: nothing is ignored. *)
Lemma insertEntries_placed done es : NoDup (map target (done ++ es)) ->
  ipListsRepoInsertEntries (length done) es (placed 0 done) = placed 0 (done ++ es).
Proof.
  unfold ipListsRepoInsertEntries. revert done. induction es as [|e es IH]; intros done Hn; cbn [fold_left fst snd]; [by rewrite app_nil_r|].
  assert (Hfree : insertOrIgnore (Z.of_nat (length done), e) (placed 0 done) = placed 0 (done ++ [e])).
  { rewrite placed_app. unfold insertOrIgnore. assert (rowTaken (Z.of_nat (length done), e) (placed 0 done) = false) as ->.
    - apply taken_false. apply Forall_forall. intros x Hx. pose proof (placed_orders 0 done) as Ho. rewrite Forall_forall in Ho. specialize (Ho x Hx).
      cbn in *. split; [lia|]. intros He. rewrite map_app in Hn. apply NoDup_app in Hn as (_ & Hn & _).
      apply (Hn (rowTarget x)); [|rewrite He; set_solver]. apply list_elem_of_In, in_map_iff. exists (snd x). split; [done|].
      rewrite <- (placed_entries 0 done). apply in_map_iff. exists x. split; [done|]. by apply list_elem_of_In.
    - rewrite insertRow_last; [by rewrite placed_cons|]. eapply Forall_impl; [apply placed_orders|]. cbn. intros. lia. }
  rewrite Hfree. replace (Z.of_nat (length done) + 1) with (Z.of_nat (length (done ++ [e]))) by (rewrite length_app; cbn; lia).
  rewrite (IH (done ++ [e])); rewrite <- app_assoc; done.
Qed.

Lemma taken_holds order e l : Forall (fun x => fst x < order) l -> rowTaken (order, e) l = holds (map snd l) e.
Proof.
  unfold rowTaken, holds. induction 1 as [|x l Hx _ IH]; cbn [existsb map fst snd]; [done|]. rewrite <- IH.
  cbn in Hx. assert (fst x =? order = false) as -> by lia. done.
Qed.

Lemma setRowLatency_same e l : map fst (map (setRowLatency e) l) = map fst l /\ map rowTarget (map (setRowLatency e) l) = map rowTarget l /\
  map snd (map (setRowLatency e) l) = map (setLatency e) (map snd l).
Proof.
  rewrite !map_map. split; [done|]. split; [|done]. apply map_ext. intros [o x]. unfold rowTarget, setRowLatency, setLatency, target. cbn.
  by destruct (sameTarget e x).
Qed.

Lemma sorted_orders l l' : map fst l = map fst l' -> StronglySorted byOrder l -> StronglySorted byOrder l'.
Proof.
  revert l'. induction l as [|x l IH]; intros [|y l']; cbn [map]; try done. intros [= Hxy Hl] Hs. inversion Hs as [|? ? Hs' Hx]; subst.
  constructor; [by apply IH|]. unfold byOrder in *. rewrite <- Hxy. apply Forall_forall. intros z Hz.
  assert (Hin : fst z ∈ map fst l) by (rewrite Hl; apply list_elem_of_In, in_map_iff; exists z; split; [done|by apply list_elem_of_In]).
  apply list_elem_of_In, in_map_iff in Hin as (w & <- & Hw%list_elem_of_In). rewrite Forall_forall in Hx. auto.
Qed.

Lemma latency_wf e l : rowsWf l -> rowsWf (map (setRowLatency e) l).
Proof.
  intros [S T R]. destruct (setRowLatency_same e l) as (H1 & H2 & _). split; [by eapply sorted_orders|by rewrite H2|].
  apply Forall_forall. intros x (y & <- & Hy%list_elem_of_In)%list_elem_of_In%in_map_iff. rewrite Forall_forall in R. destruct (R y Hy) as [Ho Hc].
  split; [done|]. unfold setRowLatency, setLatency. cbn. by destruct (sameTarget e (snd y)).
Qed.

Lemma upsert_fold es l order n : rowsWf l -> Forall (fun x => fst x < order) l -> 0 <= order ->
  let st := fold_left upsertRow es (l, order, n) in
  map snd st.1.1 = upsertAll (map snd l) es /\ rowsWf st.1.1 /\ zlen st.1.1 = zlen l + (st.2 - n).
Proof.
  revert l order n. induction es as [|e es IH]; intros l order n Hl Ho H0; cbn [fold_left]; [cbn; split; [done|split; [done|lia]]|].
  unfold upsertAll. cbn [fold_left]. fold (upsertAll (upsertEntry (map snd l) e) es).
  change (upsertRow (l, order, n) e) with (if isNil (cidr e) then (l, order, n) else if rowTaken (order, e) l then (map (setRowLatency e) l, order, n)
    else (insertRow (order, e) l, order + 1, n + 1)). unfold upsertEntry.
  destruct (isNil (cidr e)) eqn:Hc; [by apply IH|]. rewrite taken_holds by done. destruct (holds (map snd l) e) eqn:Hh.
  - destruct (setRowLatency_same e l) as (H1 & _ & <-).
    destruct (IH (map (setRowLatency e) l) order n) as (E1 & E2 & E3); [by apply latency_wf| |done|].
    { apply Forall_map. eapply Forall_impl; [exact Ho|]. done. }
    split; [exact E1|]. split; [exact E2|]. cbv zeta in E3. rewrite E3. unfold zlen. by rewrite length_map.
  - assert (Hins : insertRow (order, e) l = l ++ [(order, e)]) by by apply insertRow_last.
    destruct (IH (insertRow (order, e) l) (order + 1) (n + 1)) as (E1 & E2 & E3); [| |lia|].
    + apply insertRow_wf; [done|rewrite taken_holds by done; exact Hh|done|cbn; by destruct (cidr e)].
    + rewrite Hins. apply Forall_app_2; [eapply Forall_impl; [exact Ho|]; cbn; intros; lia|by repeat constructor; cbn; lia].
    + split; [rewrite E1, Hins, map_app; done|]. split; [exact E2|]. cbv zeta in E3. rewrite E3, Hins. unfold zlen. rewrite length_app. cbn. lia.
Qed.

Lemma nextOrder_above l : rowsWf l -> Forall (fun x => fst x < nextPlace l) l /\ 0 <= nextPlace l.
Proof.
  intros [S _ R]. unfold nextPlace. destruct (last l) as [r|] eqn:Hlast; [|apply last_None in Hlast as ->; split; [constructor|lia]].
  apply last_Some in Hlast as [l' ->]. apply Forall_app in R as [R1 R2]. apply Forall_singleton in R2 as [H0 _]. split; [|lia].
  apply Forall_app_2; [|by repeat constructor; lia]. clear -S. induction l' as [|x l' IH]; [constructor|]. inversion S as [|? ? S' Hx]; subst.
  constructor; [|by apply IH]. apply Forall_app in Hx as [_ Hx]. apply Forall_inv in Hx. unfold byOrder in Hx. cbn. lia.
Qed.

Lemma upsertRows_spec es l : rowsWf l ->
  map snd (upsertRows es l).1 = upsertAll (map snd l) es /\ rowsWf (upsertRows es l).1 /\ zlen (upsertRows es l).1 = zlen l + (upsertRows es l).2.
Proof.
  intros Hl. destruct (nextOrder_above l Hl) as [Ho H0]. pose proof (upsert_fold es l (nextPlace l) 0 Hl Ho H0) as H. cbv zeta in H.
  unfold upsertRows. destruct (fold_left upsertRow es (l, nextPlace l, 0)) as [[l' o] n]. cbn in *. destruct H as (? & ? & ?).
  split; [done|]. split; [done|]. lia.
Qed.

Lemma removeRows_spec es l : rowsWf l -> map snd (removeRows es l) = removeAll (map snd l) es /\ rowsWf (removeRows es l).
Proof.
  intros Hl. split; [|by apply rowsWf_filter]. unfold removeRows, removeAll. induction l as [|x l IH]; [done|]. cbn [List.filter map].
  destruct Hl as [S T R]. inversion S; inversion T; inversion R; subst.
  destruct (negb (holds es (snd x))); cbn [map]; rewrite IH; done.
Qed.

Lemma unique_nodup l : NoDup (map target l) -> Forall (fun e => cidr e <> []) l -> ipListsRepoUnique l = l.
Proof.
  intros Hn Hc. unfold ipListsRepoUnique.
  enough (H : forall l out, NoDup (map target (out ++ l)) -> Forall (fun e => cidr e <> []) l ->
    fold_left (fun unique e => if isNil (cidr e) || holds unique e then unique else unique ++ [e]) l out = out ++ l) by (by apply (H l [])).
  clear. intros l. induction l as [|e l IH]; intros out Hn Hc; cbn [fold_left]; [by rewrite app_nil_r|]. inversion Hc as [|? ? Hc1 Hc2]; subst.
  assert (isNil (cidr e) = false) as -> by by destruct (cidr e).
  assert (holds out e = false) as ->.
  { apply holds_false. intros Hin. rewrite map_app in Hn. apply NoDup_app in Hn as (_ & Hn & _). apply (Hn _ Hin). cbn. set_solver. }
  cbn [orb]. rewrite IH; rewrite <- ?app_assoc; done.
Qed.

Definition uniqueWf (l : list IpListEntry) : Prop := NoDup (map target l) /\ Forall (fun e => cidr e <> []) l.

Lemma unique_wf l : uniqueWf (ipListsRepoUnique l).
Proof.
  unfold ipListsRepoUnique.
  enough (H : forall l out, uniqueWf out -> uniqueWf (fold_left (fun unique e => if isNil (cidr e) || holds unique e then unique else unique ++ [e]) l out))
    by (apply H; split; constructor).
  clear. induction l as [|e l IH]; intros out [Hn Hc]; cbn [fold_left]; [done|]. apply IH.
  destruct (isNil (cidr e)) eqn:He; [done|]. destruct (holds out e) eqn:Hh; [done|]. cbn [orb]. split.
  - rewrite map_app. apply NoDup_app. split; [done|]. split; [|apply NoDup_singleton]. intros t Ht ->%list_elem_of_singleton. by apply holds_false in Hh.
  - apply Forall_app_2; [done|]. constructor; [|done]. by destruct (cidr e).
Qed.

Lemma rows_uniqueWf l : rowsWf l -> uniqueWf (map snd l).
Proof.
  intros [_ T R]. split; [by rewrite map_map|]. apply Forall_map. eapply Forall_impl; [exact R|]. by intros x [].
Qed.

(** ** The database *)

Record dbWf (db : ListDb) : Prop := {
  dw_rows : forall id g, rowsWf (rowsOf id g db);
  dw_headers : forall id h, dbHeaders db !! id = Some h -> 0 < id <= dbLast db /\ 0 <= lhGeneration h;
  dw_owned : forall id g, dbHeaders db !! id = None -> rowsOf id g db = []
}.

Lemma rowsOf_setRows id g l db j k : rowsOf j k (setRows id g l db) = if decide ((j, k) = (id, g)) then l else rowsOf j k db.
Proof.
  unfold rowsOf, setRows. cbn. destruct (decide _) as [->|Hne]; [by rewrite lookup_insert_eq|]. by rewrite lookup_insert_ne.
Qed.

Lemma rowsOf_set_eq id g l db : rowsOf id g (setRows id g l db) = l.
Proof. rewrite rowsOf_setRows. by destruct (decide _). Qed.

Lemma rowsOf_set_ne id g l db j k : (j, k) <> (id, g) -> rowsOf j k (setRows id g l db) = rowsOf j k db.
Proof. intros H. rewrite rowsOf_setRows. by destruct (decide _). Qed.

Lemma setRows_wf id g l db : dbWf db -> rowsWf l -> (dbHeaders db !! id = None -> l = []) -> dbWf (setRows id g l db).
Proof.
  intros [R H O] Hl Hh. split; [|exact H|].
  - intros j k. rewrite rowsOf_setRows. by destruct (decide _).
  - intros j k Hj. rewrite rowsOf_setRows. destruct (decide _) as [[= -> ->]|]; [by apply Hh|by apply O].
Qed.

Lemma generation_some id db h : dbHeaders db !! id = Some h -> ipListsRepoGeneration id db = lhGeneration h.
Proof. unfold ipListsRepoGeneration. by intros ->. Qed.

Lemma generation_known id db : dbWf db -> (0 <= ipListsRepoGeneration id db <-> is_Some (dbHeaders db !! id)).
Proof.
  intros [_ H _]. unfold ipListsRepoGeneration. destruct (dbHeaders db !! id) as [h|] eqn:E.
  - split; [done|]. intros _. by apply (H id h).
  - split; [lia|by intros []].
Qed.

Lemma setGeneration_wf id g db : dbWf db -> 0 <= g -> dbWf (setGeneration id g db).
Proof.
  intros [R H O] Hg. split; [exact R| |].
  - intros j h. cbn. destruct (decide (j = id)) as [->|Hne]; [|rewrite lookup_alter_ne by done; apply H].
    rewrite lookup_alter_eq. destruct (dbHeaders db !! id) as [h0|] eqn:E; [|done]. intros [= <-]. split; [by apply (H id h0)|done].
  - intros j k Hj. apply (O j k). cbn in Hj. destruct (decide (j = id)) as [->|Hne]; [|by rewrite lookup_alter_ne in Hj].
    rewrite lookup_alter_eq in Hj. by destruct (dbHeaders db !! id).
Qed.

(** Rows show up in the search for generations. *)
Lemma generationsOf_rows id g db : rowsOf id g db <> [] -> g ∈ generationsOf id db.
Proof.
  intros Hl. unfold generationsOf, rowsOf in *. destruct (dbRows db !! (id, g)) as [l|] eqn:E; [|done]. cbn in Hl.
  apply list_elem_of_omap. exists ((id, g), l). split; [by apply elem_of_map_to_list|]. cbn. rewrite Z.eqb_refl. by destruct l.
Qed.

(** ** What readers see *)

Lemma view_lookup db id : lsLists (readersView db) !! id = viewOf db id <$> dbHeaders db !! id.
Proof. cbn. rewrite map_lookup_imap. by destruct (dbHeaders db !! id). Qed.

Lemma entries_view id db : dbWf db -> 0 <= ipListsRepoGeneration id db ->
  map snd (rowsOf id (ipListsRepoGeneration id db) db) = GetEntries id (readersView db).
Proof.
  intros W Hg. apply (generation_known id db W) in Hg as [h Hh]. unfold GetEntries, GetIpList. rewrite view_lookup, Hh. cbn [fmap option_fmap option_map].
  by rewrite (generation_some id db h Hh).
Qed.

Definition sameView (id : Z) (db db' : ListDb) : Prop := viewOf db' id <$> dbHeaders db' !! id = viewOf db id <$> dbHeaders db !! id.

Lemma store_eq (s s' : IpListStore) : lsLast s = lsLast s' -> (forall id, lsLists s !! id = lsLists s' !! id) -> s = s'.
Proof. destruct s, s'. cbn. intros -> H. f_equal. by apply map_eq. Qed.

Lemma view_eq db db' : dbLast db' = dbLast db -> (forall id, sameView id db db') -> readersView db' = readersView db.
Proof. intros Hl H. apply store_eq; [done|]. intros id. rewrite !view_lookup. apply H. Qed.

(** The entries of one list change, the rest is as it was. *)
Lemma view_setEntries id f db db' h h' : dbLast db' = dbLast db -> (forall j, j <> id -> sameView j db db') ->
  dbHeaders db !! id = Some h -> dbHeaders db' !! id = Some h' -> lhRole h' = lhRole h -> lhRelated h' = lhRelated h ->
  map snd (rowsOf id (lhGeneration h') db') = f (map snd (rowsOf id (lhGeneration h) db)) -> readersView db' = setEntries id f (readersView db).
Proof.
  intros Hl Hj Hh Hh' Hr Hd He. apply store_eq; [done|]. intros j. unfold setEntries. cbn [lsLists]. rewrite view_lookup.
  destruct (decide (j = id)) as [->|Hne].
  - rewrite lookup_alter_eq, view_lookup, Hh, Hh'.
    change (Some (viewOf db' id h') = Some (mkIpList (lhRole h) (lhRelated h) (f (map snd (rowsOf id (lhGeneration h) db))))).
    unfold viewOf. by rewrite He, Hr, Hd.
  - rewrite lookup_alter_ne by done. rewrite view_lookup. by apply Hj.
Qed.

(** The store call that an effect stands for, if the call answers as it says. *)
Definition applyEffect (e : Effect) (s : IpListStore) : option IpListStore :=
  match e with
  | ENone => Some s
  | EReplace id es => Some (ReplaceEntries id es s)
  | EUpsert id es n => let '(m, s') := UpsertEntries id es s in if m =? n then Some s' else None
  | ERemove id es n => let '(m, s') := RemoveEntries id es s in if m =? n then Some s' else None
  | EClear id => Some (ClearEntries id s)
  | EDelete id => Some (DeleteIpList id s)
  | EAdd id role related es => let '(i, s') := AddIpList role related es s in if i =? id then Some s' else None
  | EOwner id role related found =>
      if Bool.eqb (isSome (lsLists s !! id)) found
      then Some (mkListStore (alter (fun l => mkIpList role related (ilEntries l)) id (lsLists s)) (lsLast s)) else None
  end.

(** ** Statements and the view *)

Lemma header_pos id db h : dbWf db -> dbHeaders db !! id = Some h -> 0 <= id.
Proof. intros [_ H _] Hh. destruct (H id h Hh) as [? _]. lia. Qed.

Lemma view_hidden id g l db : g <> ipListsRepoGeneration id db -> readersView (setRows id g l db) = readersView db.
Proof.
  intros Hg. apply view_eq; [done|]. intros j. unfold sameView, setRows at 2. cbn [dbHeaders]. unfold viewOf.
  destruct (dbHeaders db !! j) as [h|] eqn:Hh; [|done]. cbn [fmap option_fmap option_map]. do 2 f_equal. f_equal.
  apply rowsOf_set_ne. intros [= -> <-]. apply Hg. symmetry. by apply generation_some.
Qed.

Lemma view_live id l f db h : dbHeaders db !! id = Some h ->
  map snd l = f (map snd (rowsOf id (lhGeneration h) db)) -> readersView (setRows id (lhGeneration h) l db) = setEntries id f (readersView db).
Proof.
  intros Hh He. eapply (view_setEntries id f db _ h h); try done; [|by rewrite rowsOf_set_eq].
  intros j Hj. unfold sameView, setRows at 2. cbn [dbHeaders]. destruct (dbHeaders db !! j) as [h'|]; [|done].
  unfold viewOf. cbn [fmap option_fmap option_map]. do 3 f_equal. apply rowsOf_set_ne. congruence.
Qed.

Lemma view_publish id g db h : dbHeaders db !! id = Some h ->
  readersView (setGeneration id g db) = setEntries id (fun _ => entriesAt id g db) (readersView db).
Proof.
  intros Hh. eapply (view_setEntries id _ db _ h (mkHeader (lhRole h) (lhRelated h) g)); try done.
  - intros j Hj. unfold sameView, setGeneration at 2. cbn [dbHeaders]. by rewrite lookup_alter_ne.
  - cbn. by rewrite lookup_alter_eq, Hh.
Qed.

Lemma replace_published id g db h : dbWf db -> dbHeaders db !! id = Some h ->
  readersView (setGeneration id g db) = ReplaceEntries id (entriesAt id g db) (readersView db).
Proof.
  intros W Hh. rewrite (view_publish id g db h Hh). unfold ReplaceEntries. pose proof (header_pos id db h W Hh).
  assert (id <? 0 = false) as -> by lia. destruct (rows_uniqueWf (rowsOf id g db) (dw_rows db W id g)). by rewrite unique_nodup.
Qed.

Definition withHeader (id : Z) (role : ListRole) (related : Z) (db : ListDb) : ListDb :=
  mkDb (<[id := mkHeader role related 0]> (dbHeaders db)) (dbRows db) id.

Lemma last_free db : dbWf db -> dbHeaders db !! (dbLast db + 1) = None.
Proof. intros [_ H _]. destruct (dbHeaders db !! (dbLast db + 1)) as [h|] eqn:E; [|done]. destruct (H _ _ E). lia. Qed.

Lemma addHeader_spec ok role related db id db' : dbWf db -> addHeader ok role related db = Some (id, db') ->
  id = dbLast db + 1 /\ 0 < id /\ db' = withHeader id role related db.
Proof.
  intros W. unfold addHeader, NewIpListID, ipListsRepoInsertHeader. cbn [dbHeaders].
  destruct (negb ok || (dbLast db + 1 <=? 0)) eqn:E; [done|]. apply orb_false_iff in E as [_ E].
  rewrite last_free by done. intros [= <- <-]. split; [done|]. split; [lia|done].
Qed.

Lemma withHeader_wf id role related db : dbWf db -> id = dbLast db + 1 -> 0 < id -> dbWf (withHeader id role related db).
Proof.
  intros [R H O] Hid Hp. split; [exact R| |].
  - intros j h. cbn. rewrite lookup_insert_Some. intros [[<- <-]|[_ Hj]]; [cbn; lia|]. destruct (H j h Hj). lia.
  - intros j g. cbn. rewrite lookup_insert_None. intros [Hj _]. by apply (O j g).
Qed.

Lemma view_header id role related db : dbWf db -> id = dbLast db + 1 ->
  readersView (withHeader id role related db) = snd (AddIpList role related [] (readersView db)).
Proof.
  intros W ->. apply store_eq; [done|]. intros j. unfold AddIpList. cbn [snd lsLists]. rewrite view_lookup. cbn [withHeader dbHeaders lsLast readersView].
  destruct (decide (j = dbLast db + 1)) as [->|Hne].
  - rewrite !lookup_insert_eq. change (Some (viewOf (withHeader (dbLast db + 1) role related db) (dbLast db + 1) (mkHeader role related 0))
      = Some (mkIpList role related [])). unfold viewOf. cbn [lhRole lhRelated lhGeneration]. do 2 f_equal.
    change (map snd (rowsOf (dbLast db + 1) 0 db) = []). by rewrite (dw_owned db W) by by apply last_free.
  - rewrite !lookup_insert_ne by done. symmetry. apply (view_lookup db).
Qed.

Lemma deleteHeader_wf id db : dbWf db -> dbWf (deleteHeader id db).
Proof.
  intros [R H O].
  assert (Hr : forall j g, rowsOf j g (deleteHeader id db) = if decide (j = id) then [] else rowsOf j g db).
  { intros j g. unfold rowsOf, deleteHeader. cbn. destruct (decide (j = id)) as [->|Hne].
    - rewrite map_lookup_filter_None_2; [done|]. right. by intros l _ [].
    - destruct (dbRows db !! (j, g)) as [l|] eqn:E; [by rewrite (map_lookup_filter_Some_2 _ _ _ l)|].
      rewrite map_lookup_filter_None_2; [done|]. by left. }
  split.
  - intros j g. rewrite Hr. destruct (decide _); [apply rowsWf_nil|apply R].
  - intros j h. cbn. rewrite lookup_delete_Some. intros [_ Hj]. by apply H.
  - intros j g. cbn. rewrite lookup_delete_None, Hr. intros [->|Hj]; [by destruct (decide _)|]. destruct (decide _); [done|]. by apply O.
Qed.

Lemma rowsOf_deleted id db j g : j <> id -> rowsOf j g (deleteHeader id db) = rowsOf j g db.
Proof.
  intros Hne. unfold rowsOf, deleteHeader. cbn. destruct (dbRows db !! (j, g)) as [l|] eqn:E; [by rewrite (map_lookup_filter_Some_2 _ _ _ l)|].
  rewrite map_lookup_filter_None_2; [done|]. by left.
Qed.

Lemma view_drop id db : 0 <= id -> readersView (deleteHeader id db) = DeleteIpList id (readersView db).
Proof.
  intros Hid. unfold DeleteIpList. assert (id <? 0 = false) as -> by lia. apply store_eq; [done|]. intros j. cbn [lsLists]. rewrite view_lookup.
  cbn [deleteHeader dbHeaders]. destruct (decide (j = id)) as [->|Hne]; [by rewrite !lookup_delete_eq|].
  rewrite !lookup_delete_ne by done. rewrite view_lookup. destruct (dbHeaders db !! j); [|done]. unfold viewOf. cbn [fmap option_fmap option_map].
  by rewrite rowsOf_deleted.
Qed.

Lemma setOwner_wf id role related db : dbWf db -> dbWf (setOwner id role related db).
Proof.
  intros [R H O]. split; [exact R| |].
  - intros j h. cbn. rewrite lookup_alter_Some. intros [(<- & h0 & Hh & ->)|[_ Hj]]; [by apply (H id h0)|by apply H].
  - intros j g. cbn. rewrite lookup_alter_None. apply O.
Qed.

Lemma view_owner id role related db : Some (readersView (setOwner id role related db)) = applyEffect (EOwner id role related (isSome (dbHeaders db !! id))) (readersView db).
Proof.
  unfold applyEffect. assert (isSome (lsLists (readersView db) !! id) = isSome (dbHeaders db !! id)) as -> by (rewrite view_lookup; by destruct (dbHeaders db !! id)).
  rewrite eqb_reflx. f_equal. apply store_eq; [done|]. intros j. cbn [lsLists]. rewrite view_lookup. cbn [setOwner dbHeaders].
  destruct (decide (j = id)) as [->|Hne]; [rewrite !lookup_alter_eq|rewrite !lookup_alter_ne by done]; rewrite view_lookup; [|done].
  by destruct (dbHeaders db !! id).
Qed.

(** ** What a transaction can do *)

(** The changes that calls holding [holds] make, with what they are to readers. *)
Inductive Change (holds : gset Z) (db : ListDb) : ListDb -> Effect -> Prop :=
| ch_none : Change holds db db ENone
| ch_hidden id g l : id ∈ holds -> g <> ipListsRepoGeneration id db -> rowsWf l -> (dbHeaders db !! id = None -> l = []) ->
    Change holds db (setRows id g l db) ENone
| ch_clear id g : id ∈ holds -> is_Some (dbHeaders db !! id) -> ipListsRepoGeneration id db < g -> rowsOf id g db = [] ->
    Change holds db (setGeneration id g db) (EClear id)
| ch_replace id g l : id ∈ holds -> is_Some (dbHeaders db !! id) -> ipListsRepoGeneration id db < g -> rowsWf l ->
    Change holds db (setGeneration id g (setRows id g l db)) (EReplace id (map snd l))
| ch_upsert id es : is_Some (dbHeaders db !! id) ->
    let g := ipListsRepoGeneration id db in Change holds db (setRows id g (upsertRows es (rowsOf id g db)).1 db) (EUpsert id es (upsertRows es (rowsOf id g db)).2)
| ch_remove id es : is_Some (dbHeaders db !! id) ->
    let l := rowsOf id (ipListsRepoGeneration id db) db in
    Change holds db (setRows id (ipListsRepoGeneration id db) (removeRows es l) db) (ERemove id es (zlen l - zlen (removeRows es l)))
| ch_add role related : 0 < dbLast db + 1 -> Change holds db (withHeader (dbLast db + 1) role related db) (EAdd (dbLast db + 1) role related [])
| ch_add_rows role related es : 0 < dbLast db + 1 -> uniqueWf es ->
    Change holds db (setRows (dbLast db + 1) 0 (placed 0 es) (withHeader (dbLast db + 1) role related db)) (EAdd (dbLast db + 1) role related es)
| ch_drop id : id ∈ holds -> 0 <= id -> Change holds db (deleteHeader id db) (EDelete id)
| ch_owner id role related : Change holds db (setOwner id role related db) (EOwner id role related (isSome (dbHeaders db !! id))).

Lemma placed_wf es : uniqueWf es -> rowsWf (placed 0 es).
Proof.
  intros [Hn Hc]. rewrite <- (insertEntries_placed [] es Hn : _ = placed 0 es). apply insertEntries_wf; [apply rowsWf_nil|done].
Qed.

Lemma change_wf holds db db' e : dbWf db -> Change holds db db' e -> dbWf db'.
Proof.
  intros W H. destruct H.
  - done.
  - by apply setRows_wf.
  - apply setGeneration_wf; [done|]. pose proof (proj2 (generation_known id db W) ltac:(done)). lia.
  - pose proof (proj2 (generation_known id db W) ltac:(done)). apply setGeneration_wf; [|lia]. apply setRows_wf; [done|done|].
    intros E. destruct H0 as [h Hh]. congruence.
  - apply setRows_wf; [done|by apply upsertRows_spec, dw_rows|]. intros E. destruct H as [h Hh]. congruence.
  - apply setRows_wf; [done|by apply removeRows_spec, dw_rows|]. intros E. destruct H as [h Hh]. congruence.
  - by apply withHeader_wf.
  - apply setRows_wf; [by apply withHeader_wf|by apply placed_wf|]. cbn. by rewrite lookup_insert_eq.
  - by apply deleteHeader_wf.
  - by apply setOwner_wf.
Qed.

Lemma add_rows_view role related es db : dbWf db -> 0 < dbLast db + 1 -> uniqueWf es ->
  readersView (setRows (dbLast db + 1) 0 (placed 0 es) (withHeader (dbLast db + 1) role related db)) = snd (AddIpList role related es (readersView db)).
Proof.
  intros W Hp Hes. set (id := dbLast db + 1). set (db1 := withHeader id role related db).
  assert (Hh : dbHeaders db1 !! id = Some (mkHeader role related 0)) by (cbn; by rewrite lookup_insert_eq).
  etransitivity; [exact (view_live id (placed 0 es) (fun _ => es) db1 _ Hh (placed_entries 0 es))|]. unfold db1. rewrite view_header by done.
  unfold AddIpList, setEntries. cbn [snd lsLists lsLast readersView]. fold id. destruct Hes as [Hn Hc]. rewrite (unique_nodup es) by done. f_equal.
  rewrite alter_insert_eq. done.
Qed.

Lemma count_live id db h : dbHeaders db !! id = Some h -> EntryCount id (readersView db) = zlen (rowsOf id (lhGeneration h) db).
Proof.
  intros Hh. unfold EntryCount, GetEntries, GetIpList. rewrite view_lookup, Hh. unfold viewOf, zlen. cbn [fmap option_fmap option_map ilEntries].
  by rewrite length_map.
Qed.

Lemma upsert_view id es db h : dbWf db -> dbHeaders db !! id = Some h -> let l := rowsOf id (lhGeneration h) db in
  UpsertEntries id es (readersView db) = ((upsertRows es l).2, readersView (setRows id (lhGeneration h) (upsertRows es l).1 db)).
Proof.
  intros W Hh l. destruct (upsertRows_spec es l (dw_rows db W id _)) as (He & _ & Hn). unfold UpsertEntries.
  pose proof (header_pos id db h W Hh) as H0. assert (id <? 0 = false) as -> by lia. cbv zeta.
  rewrite <- (view_live id (upsertRows es l).1 (fun l => upsertAll l es) db h Hh He). f_equal.
  rewrite (count_live id db h Hh). erewrite (count_live id) by exact Hh. rewrite rowsOf_set_eq. fold l. lia.
Qed.

Lemma remove_view id es db h : dbWf db -> dbHeaders db !! id = Some h -> let l := rowsOf id (lhGeneration h) db in
  RemoveEntries id es (readersView db) = (zlen l - zlen (removeRows es l), readersView (setRows id (lhGeneration h) (removeRows es l) db)).
Proof.
  intros W Hh l. destruct (removeRows_spec es l (dw_rows db W id _)) as (He & _). unfold RemoveEntries.
  pose proof (header_pos id db h W Hh) as H0. assert (id <? 0 = false) as -> by lia. cbv zeta.
  rewrite <- (view_live id (removeRows es l) (fun l => removeAll l es) db h Hh He). f_equal.
  rewrite (count_live id db h Hh). erewrite (count_live id) by exact Hh. by rewrite rowsOf_set_eq.
Qed.

(** The store call that a change is to readers. *)
Lemma change_view holds db db' e : dbWf db -> Change holds db db' e -> Some (readersView db') = applyEffect e (readersView db).
Proof.
  intros W H. destruct H as [|id g l Hi Hg Hl Hn|id g Hi [h Hh] Hg Hl|id g l Hi [h Hh] Hg Hl|id es [h Hh]|id es [h Hh]| | |id Hi Hp|];
    cbn [applyEffect].
  - done.
  - f_equal. by apply view_hidden.
  - f_equal. rewrite (view_publish id g db h Hh). unfold ClearEntries, entriesAt. rewrite Hl. pose proof (header_pos id db h W Hh).
    by assert (id <? 0 = false) as -> by lia.
  - f_equal. rewrite (replace_published id g _ h); [|by apply setRows_wf; [..|congruence]|done]. unfold entriesAt. rewrite rowsOf_set_eq.
    rewrite view_hidden by lia. done.
  - unfold g. rewrite (generation_some id db h Hh), (upsert_view id es db h W Hh). by rewrite Z.eqb_refl.
  - unfold l. rewrite (generation_some id db h Hh), (remove_view id es db h W Hh). by rewrite Z.eqb_refl.
  - unfold AddIpList at 1. cbn [lsLast readersView]. rewrite Z.eqb_refl. f_equal. by apply view_header.
  - unfold AddIpList at 1. cbn [lsLast readersView]. rewrite Z.eqb_refl. f_equal. by apply add_rows_view.
  - f_equal. by apply view_drop.
  - apply view_owner.
Qed.

Lemma change_last holds db db' e : Change holds db db' e -> dbLast db <= dbLast db'.
Proof. destruct 1; cbn; lia. Qed.

(** The lists of other holders keep their generation, and change in it only. *)
Lemma change_frame holds db db' e j : Change holds db db' e -> j ∉ holds -> j <= dbLast db ->
  ipListsRepoGeneration j db' = ipListsRepoGeneration j db /\
  forall g, g <> ipListsRepoGeneration j db -> rowsOf j g db' = rowsOf j g db.
Proof.
  intros H Hj Hle. unfold ipListsRepoGeneration at 1.
  destruct H; cbn [dbHeaders setRows setGeneration deleteHeader withHeader setOwner].
  - done.
  - split; [done|]. intros g' Hg'. apply rowsOf_set_ne. congruence.
  - rewrite lookup_alter_ne by congruence. done.
  - rewrite lookup_alter_ne by congruence. split; [done|]. intros g' Hg'. apply (rowsOf_set_ne id g l db). congruence.
  - split; [done|]. intros g' Hg'. apply rowsOf_set_ne. unfold g. congruence.
  - split; [done|]. intros g' Hg'. apply rowsOf_set_ne. congruence.
  - rewrite lookup_insert_ne by lia. done.
  - rewrite lookup_insert_ne by lia. split; [done|]. intros g' Hg'. rewrite rowsOf_set_ne by (intros [= Ej _]; lia). done.
  - rewrite lookup_delete_ne by congruence. split; [done|]. intros g' Hg'. apply rowsOf_deleted. congruence.
  - split; [|done]. destruct (decide (j = id)) as [->|Hne]; [rewrite lookup_alter_eq|by rewrite lookup_alter_ne].
    unfold ipListsRepoGeneration. by destruct (dbHeaders db !! id).
Qed.

Definition movesInPlace (e : Effect) (j : Z) : Prop := match e with EUpsert id _ _ | ERemove id _ _ => id = j | _ => False end.

(** What readers see of a list is as it was, or of another generation, and no
    generation comes back. *)
Definition later (j : Z) (db db' : ListDb) : Prop :=
  let g := ipListsRepoGeneration j db in let g' := ipListsRepoGeneration j db' in
  (g' = g /\ rowsOf j g db' = rowsOf j g db) \/ (0 <= g /\ (g' = -1 \/ g < g')).

Lemma change_later holds db db' e j : dbWf db -> Change holds db db' e -> j <= dbLast db -> ~ movesInPlace e j -> later j db db'.
Proof.
  intros W H Hle Hin. unfold later. cbv zeta.
  assert (Hgen : forall d, ipListsRepoGeneration j d = match dbHeaders d !! j with Some h => lhGeneration h | None => -1 end) by done. rewrite (Hgen db').
  assert (Hnew : forall id g, is_Some (dbHeaders db !! id) -> ipListsRepoGeneration id db < g ->
    0 <= ipListsRepoGeneration id db /\ (g = -1 \/ ipListsRepoGeneration id db < g)).
  { intros id g Hs Hgt. split; [by apply generation_known|by right]. }
  destruct H; cbn [dbHeaders setRows setGeneration deleteHeader withHeader setOwner movesInPlace] in *.
  - by left.
  - left. split; [done|]. apply rowsOf_set_ne. congruence.
  - destruct (decide (j = id)) as [->|Hne]; [right|left; by rewrite lookup_alter_ne]. rewrite lookup_alter_eq.
    destruct H0 as [h Hh]. rewrite Hh. by apply Hnew.
  - destruct (decide (j = id)) as [->|Hne]; [right|left].
    + rewrite lookup_alter_eq. destruct H0 as [h Hh]. rewrite Hh. by apply Hnew.
    + rewrite lookup_alter_ne by done. split; [done|]. apply (rowsOf_set_ne id g l db). congruence.
  - left. split; [done|]. apply rowsOf_set_ne. intros [= <- _]. by apply Hin.
  - left. split; [done|]. apply rowsOf_set_ne. intros [= <- _]. by apply Hin.
  - left. rewrite lookup_insert_ne by lia. done.
  - left. rewrite lookup_insert_ne by lia. split; [done|]. rewrite rowsOf_set_ne by (intros [= Ej _]; lia). done.
  - destruct (decide (j = id)) as [->|Hne].
    + rewrite lookup_delete_eq. destruct (dbHeaders db !! id) as [h|] eqn:Hh.
      * right. split; [by apply generation_known|by left].
      * left. unfold ipListsRepoGeneration. rewrite Hh. split; [done|].
        rewrite (dw_owned db W id _ Hh). apply (dw_owned _ (deleteHeader_wf id db W)). cbn. apply lookup_delete_eq.
    + left. rewrite lookup_delete_ne by done. split; [done|]. by apply rowsOf_deleted.
  - left. split; [|done]. destruct (decide (j = id)) as [->|Hne]; [rewrite lookup_alter_eq|by rewrite lookup_alter_ne].
    unfold ipListsRepoGeneration. by destruct (dbHeaders db !! id).
Qed.

(** ** Rows that are staged and rows that are copied *)

Lemma sorted_same l l' : StronglySorted byOrder l -> StronglySorted byOrder l' -> (forall r, r ∈ l <-> r ∈ l') -> l = l'.
Proof.
  intros S. revert l'. induction S as [|x l S IH Hx]; intros l' S' H.
  - destruct l' as [|y l']; [done|]. exfalso. by apply (not_elem_of_nil y), H; left.
  - destruct S' as [|y l' S' Hy]; [exfalso; by apply (not_elem_of_nil x), H; left|]. rewrite Forall_forall in Hx, Hy. unfold byOrder in *.
    assert (x = y) as <-.
    { pose proof (proj1 (H x) ltac:(by left)) as Hxl. pose proof (proj2 (H y) ltac:(by left)) as Hyl.
      apply elem_of_cons in Hxl as [->|Hxl]; [done|]. apply elem_of_cons in Hyl as [->|Hyl]; [done|].
      specialize (Hx y Hyl). specialize (Hy x Hxl). lia. }
    f_equal. apply IH; [done|]. intros r. split; intros Hr.
    + pose proof (proj1 (H r) ltac:(by right)) as Hin. apply elem_of_cons in Hin as [->|]; [|done]. specialize (Hx x Hr). lia.
    + pose proof (proj2 (H r) ltac:(by right)) as Hin. apply elem_of_cons in Hin as [->|]; [|done]. specialize (Hy x Hr). lia.
Qed.

Lemma target_row l r r' : rowsWf l -> r ∈ l -> r' ∈ l -> rowTarget r = rowTarget r' -> r = r'.
Proof.
  intros [_ T _]. induction l as [|x l IH]; [by intros ?%not_elem_of_nil|]. inversion T as [|? ? Hx T']; subst.
  assert (Hin : forall z, z ∈ l -> rowTarget z <> rowTarget x) by (intros z Hz E; apply Hx; rewrite <- E; by apply list_elem_of_fmap_2).
  intros [->|Hr]%elem_of_cons [->|Hr']%elem_of_cons E; [done|by destruct (Hin r' Hr')|by destruct (Hin r Hr)|by apply IH].
Qed.

Lemma setLatency_target1 e x : target (setLatency e x) = target x.
Proof. unfold setLatency, target. by destruct (sameTarget e x). Qed.

(** Rows of one target that are at one place before and after. *)
Definition placesKept (l l' : list ListRow) : Prop := forall r r', r ∈ l -> r' ∈ l' -> rowTarget r = rowTarget r' -> fst r = fst r'.

Lemma places_same l : rowsWf l -> placesKept l l.
Proof. intros W r r' Hr Hr' E. by rewrite (target_row l r r'). Qed.

Lemma remove_places es l : rowsWf l -> placesKept l (removeRows es l).
Proof. intros W r r' Hr [Hr' _]%filter_elem E. by rewrite (target_row l r r'). Qed.

Lemma upsert_places es l : rowsWf l -> placesKept l (upsertRows es l).1.
Proof.
  intros W. destruct (nextOrder_above l W) as [Ho _]. unfold upsertRows. generalize 0 as n. revert Ho. generalize (nextPlace l) as order.
  assert (H : forall es l' order n, Forall (fun x => fst x < order) l' -> placesKept l l' -> (forall t, t ∈ map rowTarget l -> t ∈ map rowTarget l') ->
    placesKept l (fold_left upsertRow es (l', order, n)).1.1).
  { clear es. induction es as [|e es IH]; intros l' order n Ho Hk Ht; cbn [fold_left]; [done|]. cbn [upsertRow].
    destruct (isNil (cidr e)); [by apply IH|]. destruct (setRowLatency_same e l') as (_ & H2 & _). rewrite taken_holds by done. destruct (holds (map snd l') e) eqn:Eh.
    - apply IH; [apply Forall_map; eapply Forall_impl; [exact Ho|done]| |by rewrite H2].
      intros r r' Hr (x & -> & Hx)%list_elem_of_fmap. unfold setRowLatency, rowTarget. cbn [fst snd]. rewrite (setLatency_target1 e (snd x)). by apply Hk.
    - apply IH.
      + rewrite insertRow_last by done. apply Forall_app. split; [eapply Forall_impl; [exact Ho|cbn; lia]|]. repeat constructor. cbn. lia.
      + intros r r' Hr [->|Hr']%insertRow_elem E; [|by apply Hk]. exfalso. apply holds_false in Eh. apply Eh. rewrite map_map.
        change (target e) with (rowTarget (order, e)). rewrite <- E. apply Ht. by apply list_elem_of_fmap_2.
      + intros t Hin. rewrite insertRow_perm. cbn [map]. right. by apply Ht. }
  intros order Ho n. assert (Hfst : forall st : list ListRow * Z * Z, placesKept l st.1.1 -> placesKept l (let '(l', _, appended) := st in (l', appended)).1) by (by intros [[? ?] ?]).
  apply Hfst. apply H; [done|by apply places_same|done].
Qed.

(** Nothing but the change of an upsert or a removal moves rows in force. *)
Lemma change_places holds db db' e j : dbWf db -> Change holds db db' e -> j ∉ holds -> j <= dbLast db ->
  placesKept (rowsOf j (ipListsRepoGeneration j db) db) (rowsOf j (ipListsRepoGeneration j db) db').
Proof.
  intros W H Hj Hle. pose proof (places_same _ (dw_rows db W j (ipListsRepoGeneration j db))) as Hs. destruct H; try done.
  - rewrite rowsOf_set_ne by congruence. done.
  - change (placesKept (rowsOf j (ipListsRepoGeneration j db) db) (rowsOf j (ipListsRepoGeneration j db) (setRows id g l db))). rewrite rowsOf_set_ne by congruence. done.
  - rewrite rowsOf_setRows. destruct (decide _) as [[= <- _]|]; [|done]. apply upsert_places, W.
  - rewrite rowsOf_setRows. destruct (decide _) as [[= <- _]|]; [|done]. apply remove_places, W.
  - rewrite rowsOf_set_ne by (intros [= E _]; lia). done.
  - rewrite rowsOf_deleted by congruence. done.
Qed.

Lemma rows_same l l' : rowsWf l -> placesKept l l' -> map snd l = map snd l' -> l = l'.
Proof.
  intros W. revert l'. induction l as [|x l IH]; intros [|y l'] Hk; cbn [map]; try done. intros [= E E'].
  assert (W' : rowsWf l) by (destruct W as [S T R]; inversion S; inversion T; inversion R; by split).
  f_equal; [|apply IH; [done| |done]; intros r r' Hr Hr'; by apply Hk; right].
  assert (fst x = fst y) by (apply Hk; [by left|by left|unfold rowTarget; by rewrite E]). destruct x, y. cbn in *. congruence.
Qed.

(** *** Staged *)

Lemma insertEntries_app begin es es' l :
  ipListsRepoInsertEntries begin (es ++ es') l = ipListsRepoInsertEntries (begin + length es) es' (ipListsRepoInsertEntries begin es l).
Proof.
  unfold ipListsRepoInsertEntries. rewrite fold_left_app.
  assert (H : forall es st, (fold_left (fun (st : list ListRow * Z) e => (insertOrIgnore (snd st, e) (fst st), snd st + 1)) es st).2 = snd st + Z.of_nat (length es)).
  { clear. induction es as [|e es IH]; intros st; cbn [fold_left length]; [lia|]. rewrite IH. cbn [snd]. lia. }
  specialize (H es (l, Z.of_nat begin)). destruct (fold_left _ es _) as [l1 o]. cbn [fst snd] in *. do 3 f_equal. lia.
Qed.

Lemma stage_more k begin es left :
  ipListsRepoInsertEntries begin (take k (drop begin es)) (ipListsRepoInsertEntries 0 (take begin es) left) =
  ipListsRepoInsertEntries 0 (take (begin + length (take k (drop begin es))) es) left.
Proof.
  destruct (decide (begin <= length es)%nat) as [Hb|Hb].
  - replace (take (begin + length (take k (drop begin es))) es) with (take begin es ++ take k (drop begin es)).
    + rewrite insertEntries_app, length_take_le by done. done.
    + rewrite take_take_drop. rewrite length_take, length_drop. destruct (decide (begin + k <= length es)%nat); [f_equal; lia|]. by rewrite !take_ge by lia.
  - rewrite drop_ge by lia. rewrite take_nil. cbn [length]. by rewrite Nat.add_0_r.
Qed.

Lemma insertEntries_elem begin es l r : r ∈ ipListsRepoInsertEntries begin es l -> r ∈ l \/ r ∈ placed begin es.
Proof.
  revert begin l. induction es as [|e es IH]; intros begin l; [by left|]. change (e :: es) with ([e] ++ es). rewrite insertEntries_app.
  intros [H|H]%IH; [|right; rewrite placed_app; apply elem_of_app; by right].
  unfold ipListsRepoInsertEntries in H. cbn [fold_left fst snd] in H. unfold insertOrIgnore in H. destruct (rowTaken _ l); [by left|].
  apply insertRow_elem in H as [->|H]; [|by left]. right. cbn [app]. rewrite placed_cons. by left.
Qed.

Lemma placed_part k begin es r : r ∈ placed begin (take k (drop begin es)) -> r ∈ placed 0 es.
Proof.
  intros H. destruct (decide (begin <= length es)%nat) as [Hb|Hb]; [|rewrite drop_ge, take_nil in H by lia; by apply not_elem_of_nil in H].
  rewrite <- (take_drop begin es), placed_app. apply elem_of_app. right. rewrite length_take_le by done.
  rewrite <- (take_drop k (drop begin es)), placed_app. apply elem_of_app. by left.
Qed.

(** *** Copied *)

(** What a copy published, against the versions of the source that readers saw
    while it copied, [vs], and the rows of others at the target, [foreign]. *)
Record CopiedFrom (vs : list (list IpListEntry)) (foreign : ListRow -> Prop) (l : list IpListEntry) : Prop := {
  cf_sound : forall e, e ∈ l -> (exists v, v ∈ vs /\ e ∈ v) \/ exists o, foreign (o, e);
  cf_complete : forall e, (forall v, v ∈ vs -> e ∈ v) -> e ∈ l;
  cf_same : forall v, (forall v', v' ∈ vs -> v' = v) -> (forall r, ~ foreign r) -> l = v
}.

(** The rows copied so far, up to the place [after]; [src] are the source's. *)
Record copyInv (vs : list (list IpListEntry)) (foreign : ListRow -> Prop) (src : list ListRow) (after : Z) (tgt : list ListRow) : Prop := {
  ci_now : last vs = Some (map snd src);
  ci_sound : forall r, r ∈ tgt -> foreign r \/ (fst r <= after /\ exists v, v ∈ vs /\ snd r ∈ v);
  ci_complete : forall r, r ∈ src -> fst r <= after -> (forall v, v ∈ vs -> snd r ∈ v) -> r ∈ tgt;
  ci_same : (forall r, ~ foreign r) -> (forall v, v ∈ vs -> v = map snd src) -> tgt = List.filter (fun r => fst r <=? after) src
}.

Lemma last_in {A} (l : list A) x : last l = Some x -> x ∈ l.
Proof. intros [l' ->]%last_Some. apply elem_of_app. right. by left. Qed.

Lemma filter_none_below src : rowsWf src -> List.filter (fun r : ListRow => fst r <=? -1) src = [].
Proof.
  intros [_ _ R]. induction R as [|r src [H0 _] _ IH]; [done|]. cbn [List.filter]. assert (fst r <=? -1 = false) as -> by lia. done.
Qed.

(** Nothing was copied yet. *)
Lemma copy_begins vs foreign src tgt : rowsWf src -> last vs = Some (map snd src) -> (forall r, r ∈ tgt -> foreign r) -> copyInv vs foreign src (-1) tgt.
Proof.
  intros W Hl Ht. split; [done|intros r Hr; left; by apply Ht| |].
  - intros r Hr Ha. destruct W as [_ _ R]. rewrite Forall_forall in R. destruct (R r Hr). lia.
  - intros Hn _. rewrite filter_none_below by done. destruct tgt as [|r tgt]; [done|]. exfalso. apply (Hn r), Ht. by left.
Qed.

Lemma copy_clean vs foreign src tgt r : copyInv vs foreign src (-1) tgt -> rowsWf tgt -> r ∈ tgt -> foreign r.
Proof.
  intros I [_ _ R] Hr. destruct (ci_sound _ _ _ _ _ I r Hr) as [|[H _]]; [done|]. rewrite Forall_forall in R. destruct (R r Hr). lia.
Qed.

(** Another version of the source is seen. *)
Lemma copy_sees vs foreign src src' after tgt : rowsWf src -> placesKept src src' -> copyInv vs foreign src after tgt ->
  copyInv (vs ++ [map snd src']) foreign src' after tgt.
Proof.
  intros W Hk [N S C E]. pose proof (last_in _ _ N) as Hin. split.
  - by rewrite last_snoc.
  - intros r Hr. destruct (S r Hr) as [|(Ha & v & Hv & He)]; [by left|right]. split; [done|]. exists v. split; [apply elem_of_app; by left|done].
  - intros r Hr Ha Hall. assert (Hold : snd r ∈ map snd src) by (apply Hall, elem_of_app; by left).
    apply list_elem_of_fmap in Hold as (r0 & He & Hr0). assert (Hp : fst r0 = fst r) by (apply Hk; [done..|unfold rowTarget; by rewrite He]).
    assert (r0 = r) as -> by (destruct r0, r; cbn in *; congruence). apply C; [done..|]. intros v Hv. apply Hall, elem_of_app. by left.
  - intros Hf Hall. assert (Heq : map snd src = map snd src') by (apply Hall, elem_of_app; by left). rewrite <- (rows_same src src' W Hk Heq). apply E; [done|].
    intros v Hv. rewrite Heq. apply Hall, elem_of_app. by left.
Qed.

Lemma copy_mono vs (foreign foreign' : ListRow -> Prop) src after tgt : (forall r, foreign r -> foreign' r) -> copyInv vs foreign src after tgt -> copyInv vs foreign' src after tgt.
Proof. intros Hf [N S C E]. split; [done| |done|]. - intros r Hr. destruct (S r Hr); auto. - intros Hn. apply E. intros r Hr. by apply (Hn r), Hf. Qed.

Lemma insertListRows_elem rs l l' r : insertListRows rs l = Some l' -> r ∈ l' <-> r ∈ rs \/ r ∈ l.
Proof.
  unfold insertListRows. assert (Hn : forall rs, fold_left (fun o r => match o with Some l => if rowTaken r l then None else Some (insertRow r l) | None => None end) rs None = None)
    by (clear; induction rs; done).
  revert l. induction rs as [|x rs IH]; intros l; cbn [fold_left]; [intros [= ->]; set_solver|]. destruct (rowTaken x l); [by rewrite Hn|].
  intros H. rewrite (IH _ H), insertRow_elem, elem_of_cons. tauto.
Qed.

(** The next chunk, from [after] up to [after']. *)
Lemma copy_goes_on vs foreign src after after' tgt tgt' : rowsWf src -> rowsWf tgt' -> after <= after' ->
  insertListRows (List.filter (fun r => fst r <=? after') (List.filter (fun r => after <? fst r) src)) tgt = Some tgt' ->
  copyInv vs foreign src after tgt -> copyInv vs foreign src after' tgt'.
Proof.
  intros W W' Hle Hins [N S C E].
  assert (Hel : forall r, r ∈ tgt' <-> (r ∈ src /\ after < fst r <= after') \/ r ∈ tgt).
  { intros r. rewrite (insertListRows_elem _ _ _ r Hins), !filter_elem, Z.ltb_lt, Z.leb_le. tauto. }
  split; [done| | |].
  - intros r [[Hr Ha]|Hr]%Hel.
    + right. split; [lia|]. exists (map snd src). split; [by apply last_in|by apply list_elem_of_fmap_2].
    + destruct (S r Hr) as [|(Ha & Hv)]; [by left|right]. split; [lia|done].
  - intros r Hr Ha Hall. apply Hel. destruct (decide (fst r <= after)); [right; by apply C|left; split; [done|lia]].
  - intros Hf Hall. apply sorted_same; [apply W'|apply sorted_filter, W|]. intros r. rewrite Hel, (E Hf Hall), !filter_elem, !Z.leb_le.
    destruct (decide (fst r <= after)); [|]; split; intros; intuition lia.
Qed.

Lemma copy_ends vs foreign src after' l : (forall r, r ∈ src -> fst r <= after') -> copyInv vs foreign src after' l -> CopiedFrom vs foreign (map snd l).
Proof.
  intros Hall [N S C E]. pose proof (last_in _ _ N) as Hin. split.
  - intros e (r & -> & Hr)%list_elem_of_fmap. destruct (S r Hr) as [Hf|(_ & Hv)]; [right; exists (fst r); by destruct r|by left].
  - intros e He. pose proof (He _ Hin) as (r & -> & Hr)%list_elem_of_fmap. apply list_elem_of_fmap_2. apply C; auto.
  - intros v Hv Hf. rewrite E; [|done|by intros v' Hv'; rewrite (Hv _ Hin); apply Hv].
    rewrite <- (Hv _ Hin). f_equal. clear -Hall. induction src as [|r src IH]; [done|]. cbn [List.filter].
    assert (fst r <=? after' = true) as -> by (pose proof (Hall r ltac:(by left)); lia). f_equal. apply IH. intros. apply Hall. by right.
Qed.
