(* ===== verification/IpListsRuns.v ===== *)
(** Threads on the stored IP lists: each transaction of a call is one change of
    the store, the claims keep the staged rows of a call its own, and a call that
    ends has done what its result says. *)
From stdpp Require Import base list gmap strings.
From Stdlib Require Import ZArith Lia Bool Sorted.
From S2P Require Import Prelude IpListParse IpListStore IpLists IpListsFacts.

(** ** Claims *)

Definition holdsOf (t : RepoTask) : gset Z :=
  match t with
  | OpReplaceEntries id _ p => match p with RpClaim => ∅ | _ => {[id]} end
  | OpClearEntries id p => match p with ClClaim => ∅ | _ => {[id]} end
  | OpDeleteIpList id _ p => match p with DlClaim => ∅ | _ => {[id]} end
  | OpAddIpList _ _ _ p => match p with AdHeader | AdClaim _ => ∅ | AdStage id _ | AdSweep id _ | AdDrop id => {[id]} end
  | OpCopyAsUserList source p =>
      match p with
      | CpClaim => ∅
      | CpHeader | CpTarget _ _ => {[source]}
      | CpChunk _ id _ | CpSweep id _ | CpDrop id => {[source; id]}
      end
  | _ => ∅
  end.

(** The claim a call waits for. *)
Definition awaitedClaim (t : RepoTask) : option Z :=
  match t with
  | OpReplaceEntries id _ RpClaim | OpClearEntries id ClClaim | OpDeleteIpList id _ DlClaim
  | OpAddIpList _ _ _ (AdClaim id) | OpCopyAsUserList id CpClaim | OpCopyAsUserList _ (CpTarget _ id) => Some id
  | _ => None
  end.

(** ** What holds of a call on its way *)

Definition newId (id : Z) (db : ListDb) : Prop := 0 < id <= dbLast db.

Definition taskOk (db : ListDb) (t : RepoTask) : Prop :=
  match t with
  | OpReplaceEntries id unique p =>
      0 <= id /\ uniqueWf unique /\
      match p with
      | RpSweep current _ => 0 <= current /\ id <= dbLast db
      | RpStage current begin =>
          (0 <= current /\ id <= dbLast db) /\
          (ipListsRepoGeneration id db = current -> rowsOf id (current + 1) db = placed 0 (take begin unique))
      | _ => True
      end
  | OpClearEntries id p => 0 <= id
  | OpDeleteIpList id _ p => 0 <= id
  | OpAddIpList _ _ unique p =>
      uniqueWf unique /\ match p with AdHeader => True | AdClaim id | AdStage id _ | AdSweep id _ | AdDrop id => newId id db end
  | OpCopyAsUserList source p =>
      match p with
      | CpClaim | CpHeader => True
      | CpTarget _ id => newId id db /\ source < id
      | CpChunk _ id _ | CpSweep id _ | CpDrop id => newId id db
      end
  | _ => True
  end.

(** ** What a call does *)

(** The entries that changed in each part of an upsert or a removal. *)
Definition total (parts : list (list IpListEntry * Z)) : Z := foldr (fun p n => snd p + n) 0 parts.

(** A call that ended, its result and its effects in order. *)
Inductive Outcome : RepoCall -> Z -> list Effect -> Prop :=
| oc_replaced id es : Outcome (RcReplaceEntries id es) 1 [EReplace id (ipListsRepoUnique es)]
| oc_not_replaced id es : Outcome (RcReplaceEntries id es) 0 []
| oc_upserted id parts rest :
    Outcome (RcUpsertEntries id (concat (map fst parts) ++ rest)) (total parts) ((fun p => EUpsert id (fst p) (snd p)) <$> parts)
| oc_removed id parts rest :
    Outcome (RcRemoveEntries id (concat (map fst parts) ++ rest)) (total parts) ((fun p => ERemove id (fst p) (snd p)) <$> parts)
| oc_cleared id : Outcome (RcClearEntries id) 0 [EClear id]
| oc_not_cleared id : Outcome (RcClearEntries id) 0 []
| oc_deleted id only : Outcome (RcDeleteIpList id only) 0 [EClear id; EDelete id]
| oc_left_empty id only : Outcome (RcDeleteIpList id only) 0 [EClear id]
| oc_not_deleted id only : Outcome (RcDeleteIpList id only) 0 []
| oc_added role related es id : 0 < id -> Outcome (RcAddIpList role related es) id [EAdd id role related (ipListsRepoUnique es)]
| oc_added_staged role related es id l : 0 < id -> Outcome (RcAddIpList role related es) id [EAdd id role related []; EReplace id l]
| oc_add_undone role related es id : Outcome (RcAddIpList role related es) (-1) [EAdd id role related []; EDelete id]
| oc_add_left role related es id : Outcome (RcAddIpList role related es) (-1) [EAdd id role related []]
| oc_not_added role related es : Outcome (RcAddIpList role related es) (-1) []
| oc_copied source id l : 0 < id -> Outcome (RcCopyAsUserList source) id [EAdd id User (-1) []; EReplace id l]
| oc_copy_undone source id : Outcome (RcCopyAsUserList source) (-1) [EAdd id User (-1) []; EDelete id]
| oc_copy_left source id : Outcome (RcCopyAsUserList source) (-1) [EAdd id User (-1) []]
| oc_not_copied source : Outcome (RcCopyAsUserList source) (-1) []
| oc_detached id found : Outcome (RcDetachIpList id) 0 [EOwner id ScanSnapshot (-1) found]
| oc_not_detached id : Outcome (RcDetachIpList id) 0 []
| oc_saved id role related (found : bool) : Outcome (RcSaveHeader id role related) (if found then 1 else 0) [EOwner id role related found]
| oc_not_saved id role related : Outcome (RcSaveHeader id role related) 0 [].

(** The effects so far of a call on its way. *)
Definition callOk (c : RepoCall) (t : RepoTask) (es : list Effect) : Prop :=
  match t with
  | OpFinished r => Outcome c r es
  | OpReplaceEntries id unique p =>
      exists l, c = RcReplaceEntries id l /\ unique = ipListsRepoUnique l /\
      es = match p with RpPurge _ true => [EReplace id unique] | _ => [] end
  | OpUpsertEntries id rest _ appended => exists parts, c = RcUpsertEntries id (concat (map fst parts) ++ rest) /\
      appended = total parts /\ es = (fun p => EUpsert id (fst p) (snd p)) <$> parts
  | OpRemoveEntries id rest _ removed => exists parts, c = RcRemoveEntries id (concat (map fst parts) ++ rest) /\
      removed = total parts /\ es = (fun p => ERemove id (fst p) (snd p)) <$> parts
  | OpClearEntries id p => c = RcClearEntries id /\ es = match p with ClSweep _ _ => [EClear id] | _ => [] end
  | OpDeleteIpList id only p =>
      c = RcDeleteIpList id only /\ es = match p with DlSweep _ _ | DlDrop _ => [EClear id] | _ => [] end
  | OpAddIpList role related unique p =>
      exists l, c = RcAddIpList role related l /\ unique = ipListsRepoUnique l /\
      es = match p with AdHeader => [] | AdClaim id | AdStage id _ | AdSweep id _ | AdDrop id => [EAdd id role related []] end
  | OpCopyAsUserList source p =>
      c = RcCopyAsUserList source /\ es = match p with CpClaim | CpHeader => [] | CpTarget _ id | CpChunk _ id _ | CpSweep id _ | CpDrop id => [EAdd id User (-1) []] end
  | OpDetachIpList id => c = RcDetachIpList id /\ es = []
  | OpSaveHeader id role related => c = RcSaveHeader id role related /\ es = []
  end.

Definition visible (e : Effect) : bool := match e with ENone => false | _ => true end.
Definition visibleOf (e : Effect) : list Effect := if visible e then [e] else [].
Definition effectsOf (n : nat) (log : list (nat * Effect)) : list Effect := flat_map (fun p => if (fst p =? n)%nat then visibleOf (snd p) else []) log.

(** ** Steps *)

(** A step from [t] to [t']. *)
Record StepOk (t t' : RepoTask) (db db' : ListDb) (e : Effect) : Prop := {
  so_change : Change (holdsOf t) db db' e;
  so_task : taskOk db' t';
  so_call : forall c es, callOk c t es -> callOk c t' (es ++ visibleOf e)
}.

Section Steps.
Context (chunkRows : nat) (chunk_pos : (0 < chunkRows)%nat).

Lemma purge_spec ok id g db db' r holds : dbWf db -> id ∈ holds -> purgeChunk chunkRows ok id g db = (db', r) ->
  Change holds db db' ENone /\ dbLast db' = dbLast db.
Proof.
  intros W Hi. unfold purgeChunk. destruct (negb ok || (ipListsRepoGeneration id db =? g)) eqn:E; [intros [= <- <-]; split; [constructor|done]|].
  apply orb_false_iff in E as [_ E]. destruct (rowsOf id g db !! (chunkRows - 1)%nat) as [bound|] eqn:Hb; intros [= <- <-]; (split; [|done]).
  - apply ch_hidden; [done|lia|by apply rowsWf_filter, dw_rows|]. intros Hn. by rewrite (dw_owned db W id g Hn).
  - apply ch_hidden; [done|lia|apply rowsWf_nil|done].
Qed.

Lemma sweep_spec ok id keep s db db' r holds : dbWf db -> id ∈ holds -> purgeSweepStep chunkRows ok id keep s db = (db', r) ->
  Change holds db db' ENone /\ dbLast db' = dbLast db /\ (r = inr true -> forall g, g <> keep -> rowsOf id g db' = []).
Proof.
  intros W Hi. destruct s as [|g0]; cbn [purgeSweepStep].
  - destruct ok; cbn [negb]; [|intros [= <- <-]; split; [constructor|done]].
    destruct (find (fun g => g <? keep) (generationsOf id db)) as [g|] eqn:F1; [intros [= <- <-]; split; [constructor|done]|].
    destruct (find (fun g => keep <? g) (generationsOf id db)) as [g|] eqn:F2; intros [= <- <-]; (split; [constructor|split; [done|]]); [done|].
    intros _ g Hg. destruct (rowsOf id g db) as [|x l] eqn:E; [done|].
    assert (Hin : In g (generationsOf id db)) by (apply list_elem_of_In, generationsOf_rows; by rewrite E).
    pose proof (find_none _ _ F1 g Hin) as H1. pose proof (find_none _ _ F2 g Hin) as H2. cbn in H1, H2. lia.
  - destruct (purgeChunk chunkRows ok id g0 db) as [db1 o] eqn:E. destruct (purge_spec ok id g0 db db1 o holds W Hi E).
    destruct o as [[|]|]; by intros [= <- <-].
Qed.

(** A transaction of a stage: more of the rows, or the publication. *)
Lemma stage_spec ok id current es begin db last db' holds : dbWf db -> id ∈ holds -> 0 <= current -> uniqueWf es ->
  stageChunk chunkRows ok id current (current + 1) es begin db = Some (last, db') ->
  ipListsRepoGeneration id db = current /\ dbLast db' = dbLast db /\
  Change holds db db' (if last then EReplace id (entriesAt id (current + 1) db') else ENone) /\
  rowsOf id (current + 1) db' = ipListsRepoInsertEntries begin (take chunkRows (drop begin es)) (rowsOf id (current + 1) db) /\
  last = (begin + length (take chunkRows (drop begin es)) =? length es)%nat.
Proof.
  intros W Hi H0 Hes. unfold stageChunk. destruct (negb ok || negb (ipListsRepoGeneration id db =? current)) eqn:E; [done|].
  apply orb_false_iff in E as [_ E]. apply negb_false_iff, Z.eqb_eq in E. cbv zeta.
  set (l := ipListsRepoInsertEntries begin (take chunkRows (drop begin es)) (rowsOf id (current + 1) db)).
  assert (Hl : rowsWf l).
  { apply insertEntries_wf; [by apply dw_rows|]. destruct Hes as [_ Hc]. by apply Forall_take, Forall_drop. }
  assert (Hh : is_Some (dbHeaders db !! id)) by (apply generation_known; [done|lia]).
  destruct (_ =? length es)%nat eqn:El; intros [= <- <-]; (split; [done|]; split; [done|]; split; [|split; [by apply rowsOf_set_eq|done]]).
  - assert (entriesAt id (current + 1) (setGeneration id (current + 1) (setRows id (current + 1) l db)) = map snd l) as ->.
    { unfold entriesAt. f_equal. apply rowsOf_set_eq. }
    apply ch_replace; [done|done|lia|done].
  - apply ch_hidden; [done|lia|done|]. intros Hn. destruct Hh. congruence.
Qed.

Lemma bump_spec ok id only db fresh db' holds : dbWf db -> id ∈ holds ->
  ipListsRepoBumpGeneration ok id only db = Some (fresh, db') -> Change holds db db' (EClear id) /\ dbLast db' = dbLast db /\ 0 <= id.
Proof.
  intros W Hi. unfold ipListsRepoBumpGeneration. destruct (if ok then dbHeaders db !! id else None) as [h|] eqn:Hok; [|done].
  assert (Hh : dbHeaders db !! id = Some h) by by destruct ok. destruct (only && _); [done|]. intros [= <- <-].
  split; [|split; [done|by eapply header_pos]].
  assert (Hmax : forall gs m, m <= foldr Z.max m gs /\ forall g, g ∈ gs -> g <= foldr Z.max m gs).
  { induction gs as [|g gs IH]; intros m; cbn [foldr]; [split; [lia|by intros g ?%elem_of_nil]|].
    destruct (IH m) as [H1 H2]. split; [lia|]. intros g' [->|Hg']%elem_of_cons; [lia|]. specialize (H2 g' Hg'). lia. }
  destruct (Hmax (generationsOf id db) (lhGeneration h)) as [H1 H2].
  apply ch_clear; [done|by rewrite Hh|rewrite (generation_some id db h Hh); lia|].
  destruct (rowsOf id _ db) as [|x l] eqn:E; [done|]. pose proof (generationsOf_rows id _ db ltac:(by rewrite E)) as Hg. specialize (H2 _ Hg). lia.
Qed.

(** A step without an effect. *)
Lemma quiet_step t t' db db' : Change (holdsOf t) db db' ENone -> taskOk db' t' -> (forall c es, callOk c t es -> callOk c t' es) ->
  StepOk t t' db db' ENone.
Proof. intros. split; [done|done|]. intros c es. cbn. rewrite app_nil_r. auto. Qed.

Lemma same_ok t t' db : taskOk db t' -> (forall c es, callOk c t es -> callOk c t' es) -> StepOk t t' db db ENone.
Proof. intros. apply quiet_step; [constructor|done|done]. Qed.

Definition stepTo (t : RepoTask) (db : ListDb) (o : option Turn) : Prop :=
  forall t' claims db' e, o = Some (t', claims, db', e) -> StepOk t t' db db' e.

Lemma claim_to t db id next claims : taskOk db next -> (forall c es, callOk c t es -> callOk c next es) ->
  stepTo t db (takeClaim id next claims db).
Proof. intros Hn Hc t' claims' db' e. unfold takeClaim. destruct (decide _); [done|]. intros [= <- <- <- <-]. by apply same_ok. Qed.

Lemma stage_rows begin es : uniqueWf es ->
  ipListsRepoInsertEntries begin (take chunkRows (drop begin es)) (placed 0 (take begin es)) = placed 0 (take (begin + chunkRows) es).
Proof.
  intros [Hn _]. destruct (decide (begin <= length es)%nat) as [Hb|Hb].
  - rewrite <- take_take_drop. rewrite <- insertEntries_placed; [by rewrite length_take_le|]. rewrite take_take_drop.
    rewrite <- (take_drop (begin + chunkRows) es), map_app in Hn. by apply NoDup_app in Hn as [? _].
  - rewrite drop_ge by lia. rewrite take_nil. cbn [ipListsRepoInsertEntries fold_left fst]. by rewrite !take_ge by lia.
Qed.

Lemma take_past begin (es : list IpListEntry) : take (begin + length (take chunkRows (drop begin es))) es = take (begin + chunkRows) es.
Proof.
  rewrite length_take, length_drop. destruct (decide (begin + chunkRows <= length es)%nat); [f_equal; lia|]. by rewrite !take_ge by lia.
Qed.

Lemma replace_ok ok id unique p claims db : dbWf db -> taskOk db (OpReplaceEntries id unique p) ->
  stepTo (OpReplaceEntries id unique p) db (replaceStep chunkRows ok id unique p claims db).
Proof.
  intros W (Hid & Hu & Hp). unfold replaceStep. destruct p as [| |current s|current begin|generation result].
  - apply claim_to; [done|]. intros c es (l & -> & -> & ->). by exists l.
  - destruct (_ <? 0) eqn:Hg; intros t' claims' db' e [= <- <- <- <-]; apply same_ok; try done.
    + intros c es (l & -> & -> & ->). constructor.
    + cbn. destruct ok; [|lia]. pose proof (proj1 (generation_known id db W) ltac:(lia)) as [h Hh].
      split; [done|]. split; [done|]. split; [lia|]. by apply (dw_headers db W id h).
  - destruct Hp as [H0 Hle]. destruct (purgeSweepStep chunkRows ok id current s db) as [db1 r] eqn:E.
    destruct (sweep_spec ok id current s db db1 r {[id]} W ltac:(set_solver) E) as (Hc & Hl & Hr).
    destruct r as [s'|[|]]; intros t' claims' db' e [= <- <- <- <-]; apply quiet_step; try done.
    + cbn. by rewrite Hl.
    + cbn. rewrite Hl. split; [done|]. split; [done|]. split; [done|]. intros _. rewrite take_0. apply Hr; [done|lia].
    + intros c es (l & -> & -> & ->). constructor.
  - destruct Hp as [[H0 Hle] Hs]. destruct (stageChunk chunkRows ok id current (current + 1) unique begin db) as [[last db1]|] eqn:E.
    2: { intros t' claims' db' e [= <- <- <- <-]. apply same_ok; [done|]. intros c es (l & -> & -> & ->). by exists l. }
    destruct (stage_spec ok id current unique begin db last db1 {[id]} W ltac:(set_solver) H0 Hu E) as (Hg & Hl & Hc & Hrows & Hlast).
    rewrite (Hs Hg), stage_rows in Hrows by done.
    destruct last; intros t' claims' db' e [= <- <- <- <-].
    + split; [exact Hc|done|]. intros c es (l & -> & -> & ->). exists l. split; [done|]. split; [done|]. cbn. do 2 f_equal.
      unfold entriesAt. rewrite Hrows, placed_entries. apply take_ge. symmetry in Hlast. apply Nat.eqb_eq in Hlast.
      rewrite length_take, length_drop in Hlast. lia.
    + apply quiet_step; [exact Hc| |done]. cbn. rewrite Hl. split; [done|]. split; [done|]. split; [done|]. intros _. by rewrite Hrows, take_past.
  - destruct (purgeChunk chunkRows ok id generation db) as [db1 r] eqn:E.
    destruct (purge_spec ok id generation db db1 r {[id]} W ltac:(set_solver) E) as [Hc Hl].
    destruct r as [r|]; intros t' claims' db' e [= <- <- <- <-]; apply quiet_step; try done.
    intros c es (l & -> & -> & ->). destruct result; constructor.
Qed.

(** The generation that an upsert or a removal works in. *)
Lemma pinned_spec ok id pinned db g : dbWf db -> pinnedTo ok id pinned db = Some g ->
  g = ipListsRepoGeneration id db /\ is_Some (dbHeaders db !! id).
Proof.
  intros W. unfold pinnedTo. destruct (negb ok || (ipListsRepoGeneration id db <? 0)) eqn:E; cbn [orb]; [done|].
  destruct (_ && _); [done|]. intros [= <-]. split; [done|]. apply orb_false_iff in E as [_ E]. apply generation_known; [done|lia].
Qed.

Lemma next_part (parts : list (list IpListEntry * Z)) rest n :
  concat (map fst parts) ++ rest = concat (map fst (parts ++ [(chunkOf chunkRows rest, n)])) ++ drop chunkRows rest.
Proof. rewrite map_app, concat_app. cbn. rewrite app_nil_r, <- app_assoc. unfold chunkOf. by rewrite take_drop. Qed.

Lemma total_snoc parts es n : total (parts ++ [(es, n)]) = total parts + n.
Proof. unfold total. induction parts as [|p parts IH]; cbn [app foldr snd]; [lia|]. rewrite IH. lia. Qed.

Lemma upsert_ok ok id rest pinned appended claims db : dbWf db ->
  stepTo (OpUpsertEntries id rest pinned appended) db (upsertStep chunkRows ok id rest pinned appended claims db).
Proof.
  intros W. unfold upsertStep. assert (Hend : StepOk (OpUpsertEntries id rest pinned appended) (OpFinished appended) db db ENone).
  { apply same_ok; [done|]. intros c es (parts & -> & -> & ->). constructor. }
  destruct (isNil rest); [by intros t' claims' db' e [= <- <- <- <-]|].
  destruct (pinnedTo ok id pinned db) as [g|] eqn:Hp; [|by intros t' claims' db' e [= <- <- <- <-]].
  destruct (pinned_spec ok id pinned db g W Hp) as [-> Hh].
  destruct (upsertRows (chunkOf chunkRows rest) (rowsOf id (ipListsRepoGeneration id db) db)) as [l n] eqn:El.
  intros t' claims' db' e [= <- <- <- <-]. split; [|done|].
  - pose proof (ch_upsert (holdsOf (OpUpsertEntries id rest pinned appended)) db id (chunkOf chunkRows rest) Hh) as H. cbv zeta in H. by rewrite El in H.
  - intros c es (parts & -> & -> & ->). exists (parts ++ [(chunkOf chunkRows rest, n)]). rewrite (fmap_app (fun p => EUpsert id (fst p) (snd p))), total_snoc.
    split; [|done]. f_equal. apply next_part.
Qed.

Lemma remove_ok ok id rest pinned removed claims db : dbWf db ->
  stepTo (OpRemoveEntries id rest pinned removed) db (removeStep chunkRows ok id rest pinned removed claims db).
Proof.
  intros W. unfold removeStep. assert (Hend : StepOk (OpRemoveEntries id rest pinned removed) (OpFinished removed) db db ENone).
  { apply same_ok; [done|]. intros c es (parts & -> & -> & ->). constructor. }
  destruct (isNil rest); [by intros t' claims' db' e [= <- <- <- <-]|].
  destruct (pinnedTo ok id pinned db) as [g|] eqn:Hp; [|by intros t' claims' db' e [= <- <- <- <-]].
  destruct (pinned_spec ok id pinned db g W Hp) as [-> Hh]. cbv zeta. intros t' claims' db' e [= <- <- <- <-]. split; [by apply ch_remove|done|].
  intros c es (parts & -> & -> & ->). eexists (parts ++ [(chunkOf chunkRows rest, _)]). rewrite (fmap_app (fun p => ERemove id (fst p) (snd p))), total_snoc.
  split; [|done]. f_equal. apply next_part.
Qed.

Lemma owner_ok ok t id role related result claims db :
  (forall c es, callOk c t es -> Outcome c 0 es) ->
  (forall c es found, callOk c t es -> Outcome c (result found) (es ++ [EOwner id role related found])) ->
  stepTo t db (ownerStep ok id role related result claims db).
Proof.
  intros H0 H1 t' claims' db' e. unfold ownerStep. destruct ok; intros [= <- <- <- <-]; [|by apply same_ok].
  split; [constructor|done|]. intros c es Hc. by apply H1.
Qed.

Lemma clear_ok ok id p claims db : dbWf db -> taskOk db (OpClearEntries id p) ->
  stepTo (OpClearEntries id p) db (clearStep chunkRows ok id p claims db).
Proof.
  intros W Hid. unfold clearStep. destruct p as [| |fresh s].
  - by apply claim_to.
  - destruct (ipListsRepoBumpGeneration ok id false db) as [[fresh db1]|] eqn:E; intros t' claims' db' e [= <- <- <- <-].
    + destruct (bump_spec ok id false db fresh db1 {[id]} W ltac:(set_solver) E) as (Hc & Hl & _). split; [exact Hc|done|].
      by intros c es (-> & ->).
    + apply same_ok; [done|]. intros c es (-> & ->). constructor.
  - destruct (purgeSweepStep chunkRows ok id fresh s db) as [db1 r] eqn:E.
    destruct (sweep_spec ok id fresh s db db1 r {[id]} W ltac:(set_solver) E) as (Hc & Hl & _).
    destruct r as [s'|b]; intros t' claims' db' e [= <- <- <- <-]; apply quiet_step; try done.
    intros c es (-> & ->). constructor.
Qed.

Lemma delete_ok ok id only p claims db : dbWf db -> taskOk db (OpDeleteIpList id only p) ->
  stepTo (OpDeleteIpList id only p) db (deleteStep chunkRows ok id only p claims db).
Proof.
  intros W Hid. unfold deleteStep. destruct p as [| |fresh s|fresh].
  - by apply claim_to.
  - destruct (ipListsRepoBumpGeneration ok id only db) as [[fresh db1]|] eqn:E; intros t' claims' db' e [= <- <- <- <-].
    + destruct (bump_spec ok id only db fresh db1 {[id]} W ltac:(set_solver) E) as (Hc & Hl & _). split; [exact Hc|done|].
      by intros c es (-> & ->).
    + apply same_ok; [done|]. intros c es (-> & ->). constructor.
  - destruct (purgeSweepStep chunkRows ok id fresh s db) as [db1 r] eqn:E.
    destruct (sweep_spec ok id fresh s db db1 r {[id]} W ltac:(set_solver) E) as (Hc & Hl & _).
    destruct r as [s'|[|]]; intros t' claims' db' e [= <- <- <- <-]; apply quiet_step; try done.
    intros c es (-> & ->). constructor.
  - destruct (ok && _); intros t' claims' db' e [= <- <- <- <-].
    + split; [by apply ch_drop; [set_solver|]|done|]. intros c es (-> & ->). constructor.
    + apply same_ok; [done|]. intros c es (-> & ->). constructor.
Qed.

Lemma newId_mono id db db' : newId id db -> dbLast db' = dbLast db -> newId id db'.
Proof. unfold newId. by intros H ->. Qed.

Lemma add_list_ok ok role related unique p claims db : dbWf db -> taskOk db (OpAddIpList role related unique p) ->
  stepTo (OpAddIpList role related unique p) db (addStep chunkRows ok role related unique p claims db).
Proof.
  intros W (Hu & Hp). unfold addStep. destruct p as [|id|id begin|id s|id].
  - destruct (addHeader ok role related db) as [[id db1]|] eqn:E.
    2: { intros t' claims' db' e [= <- <- <- <-]. apply same_ok; [done|]. intros c es (l & -> & -> & ->). constructor. }
    destruct (addHeader_spec ok role related db id db1 W E) as (Hid & Hpos & ->).
    destruct (chunkRows <? length unique)%nat; intros t' claims' db' e [= <- <- <- <-]; rewrite Hid in Hpos |- *.
    + split; [by apply ch_add|split; [done|unfold newId; cbn; lia]|]. intros c es (l & -> & -> & ->). by exists l.
    + rewrite (dw_owned db W (dbLast db + 1) 0 (last_free db W) : rowsOf _ _ (withHeader _ role related db) = []).
      rewrite (insertEntries_placed [] unique (proj1 Hu) : ipListsRepoInsertEntries 0 unique [] = placed 0 unique). split; [by apply ch_add_rows|done|].
      intros c es (l & -> & -> & ->). by apply oc_added.
  - by apply claim_to.
  - destruct (stageChunk chunkRows ok id 0 1 unique begin db) as [[last db1]|] eqn:E.
    2: { intros t' claims' db' e [= <- <- <- <-]. by apply same_ok. }
    destruct (stage_spec ok id 0 unique begin db last db1 {[id]} W ltac:(set_solver) ltac:(lia) Hu E) as (Hg & Hl & Hc & _).
    destruct last; intros t' claims' db' e [= <- <- <- <-].
    + split; [exact Hc|done|]. intros c es (l & -> & -> & ->). apply oc_added_staged. by destruct Hp.
    + apply quiet_step; [exact Hc|split; [done|by eapply newId_mono]|done].
  - destruct (purgeSweepStep chunkRows ok id (-1) s db) as [db1 r] eqn:E.
    destruct (sweep_spec ok id (-1) s db db1 r {[id]} W ltac:(set_solver) E) as (Hc & Hl & _).
    destruct r as [s'|b]; intros t' claims' db' e [= <- <- <- <-]; (apply quiet_step; [exact Hc|split; [done|by eapply newId_mono]|done]).
  - destruct ok; intros t' claims' db' e [= <- <- <- <-].
    + split; [apply ch_drop; [set_solver|unfold newId in Hp; lia]|done|]. intros c es (l & -> & -> & ->). constructor.
    + apply same_ok; [done|]. intros c es (l & -> & -> & ->). constructor.
Qed.

Lemma insertRows_wf rs l l' : Forall (fun r => 0 <= fst r /\ cidr (snd r) <> []) rs -> rowsWf l -> insertListRows rs l = Some l' -> rowsWf l'.
Proof.
  unfold insertListRows. intros Hrs. revert l. induction Hrs as [|r rs [H0 Hc] _ IH]; intros l Hl; cbn [fold_left]; [by intros [= <-]|].
  destruct (rowTaken r l) eqn:E; [|by apply IH, insertRow_wf].
  assert (Hn : forall rs, fold_left (fun o r => match o with Some l => if rowTaken r l then None else Some (insertRow r l) | None => None end) rs None = None)
    by (clear; induction rs; done).
  by rewrite Hn.
Qed.

Lemma copyChunk_spec ok source g id after db bound db' holds : dbWf db -> id ∈ holds -> copyChunk chunkRows ok source g id after db = Some (bound, db') ->
  Change holds db db' (match bound with Some _ => ENone | None => EReplace id (entriesAt id 1 db') end) /\ dbLast db' = dbLast db.
Proof.
  intros W Hi. unfold copyChunk. destruct (negb ok || negb (ipListsRepoGeneration id db =? 0)) eqn:E; [done|].
  apply orb_false_iff in E as [_ E]. destruct (copyPart chunkRows source g after db) as [part o] eqn:Ep.
  destruct (insertListRows part (rowsOf id 1 db)) as [l|] eqn:El; [|done]. intros [= <- <-].
  assert (Hpart : Forall (fun r => 0 <= fst r /\ cidr (snd r) <> []) part).
  { pose proof (rw_rows _ (dw_rows db W source g)) as H. unfold copyPart in Ep. cbv zeta in Ep.
    destruct (_ !! _); injection Ep as <- <-; by repeat apply filter_forall. }
  pose proof (insertRows_wf _ _ _ Hpart (dw_rows db W id 1) El) as Hl.
  assert (Hh : is_Some (dbHeaders db !! id)) by (apply generation_known; [done|lia]).
  destruct o as [b|]; (split; [|done]).
  - apply ch_hidden; [done|lia|done|]. intros Hn. destruct Hh. congruence.
  - assert (entriesAt id 1 (setGeneration id 1 (setRows id 1 l db)) = map snd l) as ->
      by (unfold entriesAt; f_equal; apply rowsOf_set_eq). apply ch_replace; [done|done|lia|done].
Qed.

Lemma copy_ok ok source p claims db : dbWf db -> taskOk db (OpCopyAsUserList source p) ->
  stepTo (OpCopyAsUserList source p) db (copyStep chunkRows ok source p claims db).
Proof.
  intros W Hp. unfold copyStep. destruct p as [| |g id|g id after|id s|id].
  - by apply claim_to.
  - destruct (0 <=? ipListsRepoGeneration source db) eqn:Hs.
    2: { intros t' claims' db' e [= <- <- <- <-]. apply same_ok; [done|]. intros c es (-> & ->). constructor. }
    destruct (addHeader ok User (-1) db) as [[id db1]|] eqn:E.
    2: { intros t' claims' db' e [= <- <- <- <-]. apply same_ok; [done|]. intros c es (-> & ->). constructor. }
    destruct (addHeader_spec ok User (-1) db id db1 W E) as (Hid & Hpos & ->).
    destruct (proj1 (generation_known source db W) ltac:(lia)) as [h Hh]. destruct (dw_headers db W source h Hh) as [Hsrc _].
    intros t' claims' db' e [= <- <- <- <-]. rewrite Hid in Hpos |- *. split; [by apply ch_add|cbn; unfold newId; cbn; lia|]. by intros c es (-> & ->).
  - destruct Hp as [Hp _]. by apply claim_to.
  - destruct (copyChunk chunkRows ok source g id after db) as [[bound db1]|] eqn:E; [|intros t' claims' db' e [= <- <- <- <-]; by apply same_ok].
    destruct (copyChunk_spec ok source g id after db bound db1 {[source; id]} W ltac:(set_solver) E) as [Hc Hl].
    destruct bound as [b|]; intros t' claims' db' e [= <- <- <- <-].
    + apply quiet_step; [exact Hc|by eapply newId_mono|done].
    + split; [exact Hc|done|]. intros c es (-> & ->). apply oc_copied. by destruct Hp.
  - destruct (purgeSweepStep chunkRows ok id (-1) s db) as [db1 r] eqn:E.
    destruct (sweep_spec ok id (-1) s db db1 r {[source; id]} W ltac:(set_solver) E) as (Hc & Hl & _).
    destruct r as [s'|b]; intros t' claims' db' e [= <- <- <- <-]; (apply quiet_step; [exact Hc|by eapply newId_mono|done]).
  - destruct ok; intros t' claims' db' e [= <- <- <- <-].
    + split; [apply ch_drop; [set_solver|destruct Hp; lia]|done|]. intros c es (-> & ->). constructor.
    + apply same_ok; [done|]. intros c es (-> & ->). constructor.
Qed.

Lemma task_ok ok t claims db : dbWf db -> taskOk db t -> stepTo t db (taskStep chunkRows ok t claims db).
Proof.
  intros W Hok. destruct t; cbn [taskStep].
  - by apply replace_ok.
  - by apply upsert_ok.
  - by apply remove_ok.
  - by apply clear_ok.
  - by apply delete_ok.
  - by apply add_list_ok.
  - by apply copy_ok.
  - apply owner_ok; intros c es *; [|intros (-> & ->); constructor]. intros (-> & ->). constructor.
  - apply owner_ok; intros c es *; [|intros (-> & ->); constructor]. intros (-> & ->). constructor.
  - by intros t' claims' db' e.
Qed.
End Steps.

(** ** Claims are exclusive *)

Inductive ClaimStep (t t' : RepoTask) (claims claims' : gset Z) : Prop :=
| cs_same : claims' = claims -> holdsOf t' = holdsOf t -> ClaimStep t t' claims claims'
| cs_taken i : awaitedClaim t = Some i -> i ∉ claims -> claims' = {[i]} ∪ claims -> holdsOf t' = {[i]} ∪ holdsOf t -> ClaimStep t t' claims claims'
| cs_released : claims' = claims ∖ holdsOf t -> holdsOf t' = ∅ -> ClaimStep t t' claims claims'.

Lemma claim_step chunkRows ok t claims db t' claims' db' e :
  taskStep chunkRows ok t claims db = Some (t', claims', db', e) -> ClaimStep t t' claims claims'.
Proof.
  assert (Htake : forall i next (u : RepoTask), takeClaim i next claims db = Some (t', claims', db', e) -> awaitedClaim u = Some i ->
    holdsOf next = {[i]} ∪ holdsOf u -> ClaimStep u t' claims claims').
  { intros i next u Ht Hw Hn. unfold takeClaim in Ht. destruct (decide _) as [|Hi]; [done|]. injection Ht as <- <- <- <-. by eapply cs_taken. }
  destruct t as [id u p| | |id p|id only p|r d u p|source p| | |]; cbn [taskStep];
    unfold replaceStep, upsertStep, removeStep, clearStep, deleteStep, addStep, copyStep, ownerStep; try destruct p; try done;
    try (intros H; eapply Htake; [exact H|done|cbn; set_solver]);
    repeat case_match; intros; simplify_eq; first [by apply cs_same|by apply cs_released].
Qed.

(** A call that cannot step has ended or waits for a claim that is taken. *)
Lemma blocked_waits chunkRows ok t claims db : taskStep chunkRows ok t claims db = None ->
  (exists r, t = OpFinished r) \/ (exists i, awaitedClaim t = Some i /\ i ∈ claims).
Proof.
  assert (Htake : forall i next, takeClaim i next claims db = None -> exists j, Some i = Some j /\ j ∈ claims).
  { intros i next. unfold takeClaim. destruct (decide _); [by exists i|done]. }
  destruct t as [id u p| | |id p|id only p|r d u p|source p| | |r]; cbn [taskStep];
    unfold replaceStep, upsertStep, removeStep, clearStep, deleteStep, addStep, copyStep, ownerStep; try destruct p; try done;
    try (intros H; right; eapply Htake; exact H); try (by left; exists r); repeat case_match; done.
Qed.

Lemma taskOk_other holds db db' e t : Change holds db db' e -> holdsOf t ## holds -> taskOk db t -> taskOk db' t.
Proof.
  intros H Hd. pose proof (change_last _ _ _ _ H) as Hl. assert (Hid : forall id, newId id db -> newId id db') by (unfold newId; lia).
  destruct t as [id u p| | |id p|id only p|r d u p|source p| | |r]; cbn [taskOk]; try done.
  - intros (H0 & Hu & Hp). split; [done|]. split; [done|]. destruct p as [| |current s|current begin|]; try done; [lia|].
    destruct Hp as [[Hc Hle] Hs]. split; [lia|]. intros Hg.
    destruct (change_frame _ _ _ _ id H ltac:(cbn in Hd; set_solver) Hle) as [Hg' Hr]. rewrite Hg' in Hg. rewrite Hr by lia. by apply Hs.
  - intros [Hu Hp]. split; [done|]. destruct p; auto.
  - destruct p; auto. intros [Hp Hs]. auto.
Qed.

Lemma start_ok c db : callOk c (startOf c) [] /\ taskOk db (startOf c) /\ holdsOf (startOf c) = ∅.
Proof.
  destruct c; cbn [startOf]; unfold ReplaceEntriesCall, UpsertEntriesCall, RemoveEntriesCall, ClearEntriesCall, DeleteIpListCall, AddIpListCall,
    CopyAsUserListCall, DetachIpListCall, SaveHeaderCall.
  - destruct (id <? 0) eqn:E; [by repeat constructor|]. split; [by exists es|]. split; [|done]. cbn. split; [lia|]. split; [apply unique_wf|done].
  - destruct (_ || _); [split; [exact (oc_upserted id [] es)|done]|]. split; [by exists []|done].
  - destruct (_ || _); [split; [exact (oc_removed id [] es)|done]|]. split; [by exists []|done].
  - destruct (id <? 0) eqn:E; [by repeat constructor|]. split; [done|]. split; [cbn; lia|done].
  - destruct (id <? 0) eqn:E; [by repeat constructor|]. split; [done|]. split; [cbn; lia|done].
  - split; [by exists es|]. split; [split; [apply unique_wf|done]|done].
  - destruct (source <? 0); by repeat constructor.
  - destruct (id <? 0); by repeat constructor.
  - destruct (id <? 0); by repeat constructor.
Qed.

Lemma effectsOf_snoc n log m e : effectsOf n (log ++ [(m, e)]) = effectsOf n log ++ if (m =? n)%nat then visibleOf e else [].
Proof. unfold effectsOf. rewrite flat_map_app. cbn. by rewrite app_nil_r. Qed.

(** ** The invariant *)

Record repoOk (s : IpListsRepo) : Prop := {
  ro_db : dbWf (lrDb s);
  ro_claims : forall i, i ∈ lrClaims s -> exists n c t, lrTasks s !! n = Some (c, t) /\ i ∈ holdsOf t;
  ro_held : forall n c t, lrTasks s !! n = Some (c, t) -> holdsOf t ⊆ lrClaims s;
  ro_apart : forall n m c t c' t', lrTasks s !! n = Some (c, t) -> lrTasks s !! m = Some (c', t') -> n <> m -> holdsOf t ## holdsOf t';
  ro_tasks : forall n c t, lrTasks s !! n = Some (c, t) -> taskOk (lrDb s) t /\ callOk c t (effectsOf n (lrLog s));
  ro_fresh : forall n, lrTasks s !! n = None -> effectsOf n (lrLog s) = []
}.

Lemma newRepo_ok db : dbWf db -> repoOk (mkRepo db ∅ ∅ []).
Proof. intros W. by split. Qed.

Section Invariant.
Context (chunkRows : nat) (chunk_pos : (0 < chunkRows)%nat).

Lemma call_ok s n c : repoOk s -> repoOk (repoTurn chunkRows (RCall n c) s).
Proof.
  intros [D C H A T F]. cbn [repoTurn]. destruct (lrTasks s !! n) as [t0|] eqn:E; [by split|]. destruct (start_ok c (lrDb s)) as (Hc & Ht & Hh).
  assert (Hlook : forall m c' t', <[n := (c, startOf c)]> (lrTasks s) !! m = Some (c', t') ->
    m = n /\ c' = c /\ t' = startOf c \/ m <> n /\ lrTasks s !! m = Some (c', t')).
  { intros m c' t'. rewrite lookup_insert_Some. intros [[<- [= <- <-]]|[Hne Hm]]; [by left|by right]. }
  split; cbn [lrDb lrClaims lrTasks lrLog]; [done| | | | |].
  - intros i Hi. destruct (C i Hi) as (m & c' & t' & Hm & Hin). exists m, c', t'. split; [|done]. rewrite lookup_insert_ne; [done|congruence].
  - intros m c' t' [(-> & -> & ->)|[_ Hm]]%Hlook; [rewrite Hh; set_solver|by eapply H].
  - intros m m' c' t' c2 t2 Hm Hm' Hne. apply Hlook in Hm as [(-> & -> & ->)|[_ Hm]]; [rewrite Hh; set_solver|].
    apply Hlook in Hm' as [(-> & -> & ->)|[_ Hm']]; [rewrite Hh; set_solver|by eapply (A m m')].
  - intros m c' t' [(-> & -> & ->)|[_ Hm]]%Hlook; [by rewrite (F n E)|by apply T].
  - intros m Hm. apply lookup_insert_None in Hm as [Hm _]. by apply F.
Qed.

Lemma repo_turn_ok s n ok : repoOk s -> repoOk (repoTurn chunkRows (RTurn n ok) s).
Proof.
  intros [D C H A T F]. cbn [repoTurn]. destruct (lrTasks s !! n) as [[c t]|] eqn:E; [|by split].
  destruct (taskStep chunkRows ok t (lrClaims s) (lrDb s)) as [[[[t' claims'] db'] e]|] eqn:St; [|by split].
  destruct (T n c t E) as [Ht Hc]. pose proof (task_ok chunkRows chunk_pos ok t (lrClaims s) (lrDb s) D Ht t' claims' db' e St) as [Ch Ht' Hc'].
  pose proof (claim_step _ _ _ _ _ _ _ _ _ St) as Cs. pose proof (H n c t E) as Hn.
  assert (Hlook : forall m c2 t2, <[n := (c, t')]> (lrTasks s) !! m = Some (c2, t2) ->
    m = n /\ c2 = c /\ t2 = t' \/ m <> n /\ lrTasks s !! m = Some (c2, t2)).
  { intros m c2 t2. rewrite lookup_insert_Some. intros [[<- [= <- <-]]|[Hne Hm]]; [by left|by right]. }
  assert (Hfree : forall m c2 t2, m <> n -> lrTasks s !! m = Some (c2, t2) -> holdsOf t' ## holdsOf t2).
  { intros m c2 t2 Hne Hm. pose proof (A n m c t c2 t2 E Hm ltac:(done)) as Hd. pose proof (H m c2 t2 Hm) as Hm2.
    destruct Cs as [_ ->|i _ Hi _ ->|_ ->]; set_solver. }
  assert (Hcl : forall i, i ∈ claims' <-> i ∈ holdsOf t' \/ (i ∈ lrClaims s /\ i ∉ holdsOf t)).
  { intros i. destruct Cs as [-> ->|j _ Hj -> -> | -> ->]; destruct (decide (i ∈ holdsOf t)); set_solver. }
  split; cbn [lrDb lrClaims lrTasks lrLog]; [by eapply change_wf| | | | |].
  - intros i [Hi|[Hi Hni]]%Hcl; [exists n, c, t'; by rewrite lookup_insert_eq|]. destruct (C i Hi) as (m & c2 & t2 & Hm & Hin).
    exists m, c2, t2. split; [|done]. rewrite lookup_insert_ne; [done|]. intros ->. congruence.
  - intros m c2 t2 [(-> & -> & ->)|[Hne Hm]]%Hlook i Hi; apply Hcl; [by left|right]. split; [by apply (H m c2 t2 Hm)|].
    pose proof (A m n c2 t2 c t Hm E Hne). set_solver.
  - intros m m' c2 t2 c3 t3 Hm Hm' Hne. apply Hlook in Hm as [(-> & -> & ->)|[Hmn Hm]]; apply Hlook in Hm' as [(-> & -> & ->)|[Hmn' Hm']]; [done| | |].
    + by eapply Hfree.
    + symmetry. by eapply Hfree.
    + by eapply (A m m').
  - intros m c2 t2 [(-> & -> & ->)|[Hne Hm]]%Hlook; rewrite effectsOf_snoc.
    + rewrite Nat.eqb_refl. split; [done|]. by apply Hc'.
    + apply not_eq_sym, Nat.eqb_neq in Hne as Hne'. rewrite Hne', app_nil_r. destruct (T m c2 t2 Hm) as [Hm1 Hm2]. split; [|done].
      eapply taskOk_other; [exact Ch| |done]. by apply (A m n c2 t2 c t).
  - intros m [Hm Hne]%lookup_insert_None. rewrite effectsOf_snoc. apply Nat.eqb_neq in Hne. by rewrite Hne, app_nil_r, (F m Hm).
Qed.

Lemma repo_run_ok events s : repoOk s -> repoOk (repoRun chunkRows events s).
Proof.
  unfold repoRun. revert s. induction events as [|e events IH]; intros s Hs; cbn [fold_left]; [done|]. apply IH.
  destruct e; [by apply call_ok|by apply repo_turn_ok].
Qed.


Lemma newRun_ok events db : dbWf db -> repoOk (repoRun chunkRows events (mkRepo db ∅ ∅ [])).
Proof. intros W. by apply repo_run_ok, newRepo_ok. Qed.

(** ** Refinement *)

Definition applyLog (log : list (nat * Effect)) (v : option IpListStore) : option IpListStore := fold_left (fun v p => v ≫= applyEffect (snd p)) log v.

Lemma turn_view e s : repoOk s -> exists log, lrLog (repoTurn chunkRows e s) = lrLog s ++ log /\
  Some (readersView (lrDb (repoTurn chunkRows e s))) = applyLog log (Some (readersView (lrDb s))).
Proof.
  intros [D _ _ _ T _]. destruct e as [n c|n ok]; cbn [repoTurn].
  - exists []. rewrite app_nil_r. by destruct (lrTasks s !! n).
  - assert (Hskip : exists log, lrLog s = lrLog s ++ log /\ Some (readersView (lrDb s)) = applyLog log (Some (readersView (lrDb s)))) by (exists []; by rewrite app_nil_r).
    destruct (lrTasks s !! n) as [[c t]|] eqn:E; [|done].
    destruct (taskStep chunkRows ok t (lrClaims s) (lrDb s)) as [[[[t' claims'] db'] e]|] eqn:St; [|done].
    destruct (T n c t E) as [Ht _]. destruct (task_ok chunkRows chunk_pos ok t (lrClaims s) (lrDb s) D Ht t' claims' db' e St) as [Ch _ _].
    exists [(n, e)]. split; [done|]. by eapply change_view.
Qed.

Lemma run_view events s : repoOk s -> exists log, lrLog (repoRun chunkRows events s) = lrLog s ++ log /\
  Some (readersView (lrDb (repoRun chunkRows events s))) = applyLog log (Some (readersView (lrDb s))).
Proof.
  unfold repoRun. revert s. induction events as [|e events IH]; intros s Hs; cbn [fold_left]; [exists []; by rewrite app_nil_r|].
  destruct (turn_view e s Hs) as (l1 & H1 & V1). destruct (IH (repoTurn chunkRows e s)) as (l2 & H2 & V2).
  { destruct e; [by apply call_ok|by apply repo_turn_ok]. }
  exists (l1 ++ l2). rewrite H2, H1, V2, V1, app_assoc. unfold applyLog. by rewrite fold_left_app.
Qed.

(** ** No deadlock *)

(** Holders that wait, wait for a list made later than the one they hold. *)
Lemma holder_waits db t i j : taskOk db t -> i ∈ holdsOf t -> awaitedClaim t = Some j -> i < j <= dbLast db.
Proof.
  intros Ht Hi Hw. destruct t as [id u p| | |id p|id only p|r d u p|source p| | |r]; try done; destruct p; try done; cbn in Hw, Hi; simplify_eq; try set_solver.
  destruct Ht as [[_ Hn] Hs]. assert (i = source) as -> by set_solver. lia.
Qed.

Lemma holder_moves_on s i : repoOk s -> i ∈ lrClaims s -> exists n c t, lrTasks s !! n = Some (c, t) /\
  forall ok, taskStep chunkRows ok t (lrClaims s) (lrDb s) <> None.
Proof.
  intros O. remember (Z.to_nat (dbLast (lrDb s) - i)) as k eqn:Hk. revert i Hk. induction k as [k IH] using lt_wf_ind. intros i -> Hi.
  destruct (ro_claims s O i Hi) as (n & c & t & Hn & Hin). destruct (ro_tasks s O n c t Hn) as [Ht _].
  destruct (awaitedClaim t) as [j|] eqn:Hw.
  - pose proof (holder_waits _ _ _ _ Ht Hin Hw) as Hj. destruct (decide (j ∈ lrClaims s)) as [Hjc|Hjc].
    + apply (IH (Z.to_nat (dbLast (lrDb s) - j))) with j; [lia|done|done].
    + exists n, c, t. split; [done|]. intros ok [[r ->]|(j' & Hw' & Hj')]%blocked_waits; [done|]. congruence.
  - exists n, c, t. split; [done|]. intros ok [[r ->]|(j' & Hw' & Hj')]%blocked_waits; [by apply elem_of_empty in Hin|congruence].
Qed.
End Invariant.

(** C20: As long as a call has not ended, some call can make its next transaction:
    the claims of the lists never wait for each other in a circle. *)
Theorem ip_list_calls_move chunkRows events db : (0 < chunkRows)%nat -> dbWf db ->
  let s := repoRun chunkRows events (mkRepo db ∅ ∅ []) in
  (exists n c t, lrTasks s !! n = Some (c, t) /\ forall r, t <> OpFinished r) ->
  exists n c t, lrTasks s !! n = Some (c, t) /\ forall ok, taskStep chunkRows ok t (lrClaims s) (lrDb s) <> None.
Proof.
  intros Hk W s (n & c & t & Hn & Hr). pose proof (newRun_ok chunkRows Hk events db W : repoOk s) as O.
  destruct (awaitedClaim t) as [i|] eqn:Hw.
  - destruct (decide (i ∈ lrClaims s)) as [Hi|Hi]; [by apply (holder_moves_on chunkRows Hk s i)|].
    exists n, c, t. split; [done|]. intros ok [[r ->]|(j & Hj & Hj')]%blocked_waits; [by destruct (Hr r)|congruence].
  - exists n, c, t. split; [done|]. intros ok [[r ->]|(j & Hj & Hj')]%blocked_waits; [by destruct (Hr r)|congruence].
Qed.

(** ** Reading while others write *)

(** The calls that change the generation in force in place. *)
Definition writesInPlace (id : Z) (c : RepoCall) : bool :=
  match c with RcUpsertEntries j _ | RcRemoveEntries j _ => j =? id | _ => false end.

(** None of them is on its way. *)
Definition noInPlace (id : Z) (s : IpListsRepo) : Prop :=
  forall n c t, lrTasks s !! n = Some (c, t) -> writesInPlace id c = true -> exists r, t = OpFinished r.
Definition eventNoInPlace (id : Z) (e : RepoEvent) : Prop := match e with RCall _ c => writesInPlace id c = false | RTurn _ _ => True end.

Lemma effect_in_place chunkRows ok t claims db t' claims' db' e j : taskStep chunkRows ok t claims db = Some (t', claims', db', e) -> movesInPlace e j ->
  match t with OpUpsertEntries id _ _ _ | OpRemoveEntries id _ _ _ => id = j | _ => False end.
Proof.
  intros H Hin. destruct t as [id u p| | |id p|id only p|r d u p|source p| | |]; cbn [taskStep] in H;
    unfold replaceStep, upsertStep, removeStep, clearStep, deleteStep, addStep, copyStep, ownerStep, takeClaim in H; try destruct p;
    repeat case_match; simplify_eq; cbn [movesInPlace] in Hin; done.
Qed.

Lemma later_trans j a b c : later j a b -> later j b c -> later j a c.
Proof.
  unfold later. cbv zeta. intros [[H1 R1]|[H0 H1]] [[H2 R2]|[H0' H2]].
  - left. split; [congruence|]. rewrite H1 in R2. congruence.
  - right. split; [congruence|]. destruct H2; [by left|right; lia].
  - right. split; [done|]. destruct H1; [left; congruence|right; lia].
  - right. split; [done|]. destruct H1; [lia|]. destruct H2; [by left|right; lia].
Qed.

Lemma later_refl j a : later j a a.
Proof. by left. Qed.

Section Reading.
Context (chunkRows : nat) (chunk_pos : (0 < chunkRows)%nat) (id : Z).

Lemma turn_later e s : repoOk s -> noInPlace id s -> eventNoInPlace id e -> id <= dbLast (lrDb s) ->
  later id (lrDb s) (lrDb (repoTurn chunkRows e s)) /\ noInPlace id (repoTurn chunkRows e s) /\ dbLast (lrDb s) <= dbLast (lrDb (repoTurn chunkRows e s)).
Proof.
  intros O Hn He Hle. assert (Hskip : later id (lrDb s) (lrDb s) /\ noInPlace id s /\ dbLast (lrDb s) <= dbLast (lrDb s)) by (split; [by left|done]).
  destruct e as [n c|n ok]; cbn [repoTurn].
  - destruct (lrTasks s !! n) as [t|] eqn:E; [done|]. split; [by left|]. split; [|cbn; lia].
    intros m c' t'. cbn [lrTasks]. rewrite lookup_insert_Some. intros [[<- [= <- <-]]|[_ Hm]]; [|by eapply Hn]. cbn in He. by rewrite He.
  - destruct (lrTasks s !! n) as [[c t]|] eqn:E; [|done].
    destruct (taskStep chunkRows ok t (lrClaims s) (lrDb s)) as [[[[t' claims'] db'] e]|] eqn:St; [|done].
    destruct (ro_tasks s O n c t E) as [Ht Hc].
    destruct (task_ok chunkRows chunk_pos ok t (lrClaims s) (lrDb s) (ro_db s O) Ht t' claims' db' e St) as [Ch _ _]. cbn [lrDb]. split; [|split].
    + eapply change_later; [apply O|exact Ch|done|]. intros Hin%(effect_in_place _ _ _ _ _ _ _ _ _ _ St).
      pose proof (Hn n c t E) as Hf. destruct t; try done; destruct Hc as (parts & -> & _); by destruct Hf as [r Hf]; [cbn; lia|].
    + intros m c' t2. cbn [lrTasks]. rewrite lookup_insert_Some. intros [[<- [= <- <-]]|[_ Hm]]; [|by eapply Hn].
      intros Hw. destruct (Hn n c t E Hw) as [r ->]. done.
    + by eapply change_last.
Qed.

Lemma run_later events s : repoOk s -> noInPlace id s -> Forall (eventNoInPlace id) events -> id <= dbLast (lrDb s) ->
  later id (lrDb s) (lrDb (repoRun chunkRows events s)) /\ noInPlace id (repoRun chunkRows events s) /\
  dbLast (lrDb s) <= dbLast (lrDb (repoRun chunkRows events s)).
Proof.
  unfold repoRun. intros O Hn He. revert s O Hn. induction He as [|e events He _ IH]; intros s O Hn Hle; cbn [fold_left]; [split; [by left|done]|].
  destruct (turn_later e s O Hn He Hle) as (L1 & N1 & D1).
  destruct (IH (repoTurn chunkRows e s)) as (L2 & N2 & D2); [|done|lia|].
  { destruct e; [by apply call_ok|by apply repo_turn_ok]. }
  split; [by eapply later_trans|]. split; [done|lia].
Qed.

(** *** Pages *)

Lemma sorted_split l r : StronglySorted byOrder l -> r ∈ l -> forall k, take k l !! (k - 1)%nat = Some r -> (0 < k)%nat ->
  List.filter (fun x => fst r <? fst x) l = drop k l.
Proof.
  intros Hs _ k. revert l Hs. induction k as [|k IH]; intros l Hs Hk H0; [lia|]. destruct l as [|x l]; [done|]. inversion Hs as [|? ? Hl Hx]; subst.
  cbn [take] in Hk. destruct k as [|k].
  - cbn in Hk. injection Hk as ->. cbn [List.filter drop]. assert (fst r <? fst r = false) as -> by lia. clear -Hx.
    induction Hx as [|y l Hy _ IH]; [done|]. cbn [List.filter]. unfold byOrder in Hy. assert (fst r <? fst y = true) as -> by lia. by rewrite IH.
  - replace (S (S k) - 1)%nat with (S (S k - 1)) in Hk by lia. cbn [lookup list_lookup] in Hk. cbn [List.filter drop].
    assert (Hr : r ∈ l) by (apply list_elem_of_lookup_2 in Hk; by apply (subseteq_take (S k) l)).
    rewrite Forall_forall in Hx. specialize (Hx r Hr). unfold byOrder in Hx. assert (fst r <? fst x = false) as -> by lia. apply IH; [done|done|lia].
Qed.

(** Pages of a generation whose rows do not change give its rows, or find
    another generation. *)
Lemma pages_ok g l (db : nat -> ListDb) : StronglySorted byOrder l ->
  (forall i, ipListsRepoGeneration id (db i) = g -> rowsOf id g (db i) = l) ->
  forall fuel after page rest, List.filter (fun r => after <? fst r) l = rest -> (length rest < fuel)%nat ->
  exists o, ipListsRepoReadGeneration chunkRows id fuel g after db page = Some o /\
    match o with Some rows => rows = rest | None => exists i, (page <= i)%nat /\ ipListsRepoGeneration id (db i) <> g end.
Proof.
  intros Hs Hdb. induction fuel as [|fuel IH]; intros after page rest Hrest Hlen; [lia|]. cbn [ipListsRepoReadGeneration].
  destruct (ipListsRepoGeneration id (db page) =? g) eqn:Hg; cbn [negb]; [|exists None; split; [done|]; exists page; split; [lia|lia]].
  rewrite Hdb, Hrest by lia. destruct (length (take chunkRows rest) <? chunkRows)%nat eqn:Hfull.
  - exists (Some rest). split; [|done]. do 2 f_equal. apply Nat.ltb_lt in Hfull. rewrite length_take in Hfull. apply take_ge. lia.
  - apply Nat.ltb_ge in Hfull. rewrite length_take in Hfull. destruct (last (take chunkRows rest)) as [r|] eqn:Hlast.
    2: { apply last_None in Hlast. apply (f_equal length) in Hlast. rewrite length_take in Hlast. cbn in Hlast. lia. }
    assert (Hat : take chunkRows rest !! (chunkRows - 1)%nat = Some r).
    { rewrite last_lookup, length_take in Hlast. rewrite <- Hlast. f_equal. lia. }
    assert (Hr : r ∈ rest) by (apply list_elem_of_lookup_2 in Hat; by apply (subseteq_take chunkRows rest)).
    assert (Hnext : List.filter (fun x => fst r <? fst x) l = drop chunkRows rest).
    { rewrite <- (sorted_split rest r); [|subst rest; by apply sorted_filter|done|done|done]. subst rest. apply filter_elem in Hr as [_ Hr].
      clear -Hr. induction l as [|x l IH]; [done|]. cbn [List.filter]. destruct (after <? fst x) eqn:E; cbn [List.filter]; rewrite IH; [done|].
      by assert (fst r <? fst x = false) as -> by lia. }
    destruct (IH (fst r) (S page) (drop chunkRows rest) Hnext) as (o & -> & Ho); [rewrite length_drop; lia|].
    exists (option_map (fun rows => take chunkRows rest ++ rows) o). split; [done|]. destruct o as [rows|]; cbn [option_map].
    + rewrite Ho. apply take_drop.
    + destruct Ho as (i & Hi & Hne). exists i. split; [lia|done].
Qed.

Lemma entries_none db : ipListsRepoGeneration id db < 0 -> dbWf db -> GetEntries id (readersView db) = [].
Proof.
  intros Hg W. unfold GetEntries, GetIpList. rewrite view_lookup. destruct (dbHeaders db !! id) as [h|] eqn:Hh; [|done].
  pose proof (proj2 (generation_known id db W) ltac:(by rewrite Hh)). lia.
Qed.

(** A read that starts at [db 0]. *)
Lemma read_first (db : nat -> ListDb) fuel page : let g := ipListsRepoGeneration id (db 0%nat) in
  dbWf (db 0%nat) -> 0 <= g -> (forall i, ipListsRepoGeneration id (db i) = g -> rowsOf id g (db i) = rowsOf id g (db 0%nat)) ->
  (length (GetEntries id (readersView (db 0%nat))) < fuel)%nat ->
  exists o, ipListsRepoReadGeneration chunkRows id fuel g (-1) db page = Some o /\
    match o with Some rows => map snd rows = GetEntries id (readersView (db 0%nat)) | None => exists i, (page <= i)%nat /\ ipListsRepoGeneration id (db i) <> g end.
Proof.
  intros g W Hg Hdb Hf. pose proof (dw_rows _ W id g) as Hw. set (l := rowsOf id g (db 0%nat)) in *.
  assert (Hall : List.filter (fun r => -1 <? fst r) l = l).
  { apply filter_every. eapply Forall_impl; [apply (rw_rows _ Hw)|]. cbn. intros r [? _]. lia. }
  rewrite <- entries_view in Hf |- * by done. fold g l in Hf |- *. rewrite length_map in Hf.
  destruct (pages_ok g l db (rw_sorted _ Hw) Hdb fuel (-1) page l Hall Hf) as (o & Ho & H). exists o. split; [done|].
  destruct o; [by rewrite H|done].
Qed.

(** The states that a thread finds at one transaction after the other, with what
    the others do in between. *)
Fixpoint repoAt (between : nat -> list RepoEvent) (s : IpListsRepo) (i : nat) : IpListsRepo :=
  match i with O => s | S i' => repoRun chunkRows (between i') (repoAt between s i') end.

Lemma repoAt_later between s i : repoOk s -> noInPlace id s -> (forall i, Forall (eventNoInPlace id) (between i)) -> id <= dbLast (lrDb s) ->
  repoOk (repoAt between s i) /\ noInPlace id (repoAt between s i) /\ id <= dbLast (lrDb (repoAt between s i)) /\
  later id (lrDb s) (lrDb (repoAt between s i)).
Proof.
  intros O N B L. induction i as [|i (O' & N' & L' & H)]; cbn [repoAt]; [split; [done|split; [done|split; [done|apply later_refl]]]|].
  destruct (run_later (between i) _ O' N' (B i) L') as (H1 & H2 & H3). split; [by apply repo_run_ok|]. split; [done|]. split; [lia|]. by eapply later_trans.
Qed.

Lemma read_states between s k fuel : repoOk s -> noInPlace id s -> (forall i, Forall (eventNoInPlace id) (between i)) ->
  let db i := lrDb (repoAt between s i) in
  dbWf (db k) -> (length (GetEntries id (readersView (db 0%nat))) < fuel)%nat -> (length (GetEntries id (readersView (db k))) < fuel)%nat ->
  exists i, (i = 0%nat \/ i = k) /\ readEntries chunkRows id fuel db (db k) = Some (GetEntries id (readersView (db i))).
Proof.
  intros O N B db W F0 Fk. unfold readEntries. set (g := ipListsRepoGeneration id (db 0%nat)).
  assert (W0 : dbWf (db 0%nat)) by apply O.
  destruct (g <? 0) eqn:Hg; [exists 0%nat; split; [by left|]; by rewrite entries_none by (done || lia)|].
  assert (Hle : id <= dbLast (lrDb s)).
  { destruct (proj1 (generation_known id (db 0%nat) W0) ltac:(lia)) as [h Hh]. apply (dw_headers _ W0 id h Hh). }
  destruct (read_first db fuel 1 W0 ltac:(lia)) as (o & Ho & H); [|done|].
  { intros i Hi. unfold g, db in Hi, Hg. cbn [repoAt] in Hi, Hg. destruct (repoAt_later between s i O N B Hle) as (_ & _ & _ & [[_ Hr]|[H0 [H1|H1]]]); [done|lia|lia]. }
  fold g in Ho. rewrite Ho. destruct o as [rows|]; [exists 0%nat; split; [by left|]; by rewrite H|].
  exists k. split; [by right|]. set (g' := ipListsRepoGeneration id (db k)). destruct (g' <? 0) eqn:Hg'; [by rewrite entries_none by (done || lia)|].
  destruct (read_first (fun _ => db k) fuel 0 W ltac:(lia) ltac:(done) Fk) as (o & Ho' & H'). fold g' in Ho'. rewrite Ho'.
  destruct o as [rows|]; [by rewrite H'|].
  destruct H' as (i & _ & Hne). done.
Qed.
End Reading.

(** C9: A reader that takes the entries of a list page by page, each page in a
    transaction of its own, while other threads replace, clear, copy or delete
    lists, gets the list as it was when it began or as it is at its second
    attempt, never rows of two versions.  Only additions and removals in place
    must not be on their way. *)
Theorem read_sees_one_version chunkRows id before db between k fuel :
  (0 < chunkRows)%nat -> dbWf db ->
  let s := repoRun chunkRows before (mkRepo db ∅ ∅ []) in
  let at_ i := lrDb (repoAt chunkRows between s i) in
  noInPlace id s -> (forall i, Forall (eventNoInPlace id) (between i)) ->
  (length (GetEntries id (readersView (at_ 0%nat))) < fuel)%nat -> (length (GetEntries id (readersView (at_ k))) < fuel)%nat ->
  exists i, (i = 0%nat \/ i = k) /\ readEntries chunkRows id fuel at_ (at_ k) = Some (GetEntries id (readersView (at_ i))).
Proof.
  intros Hk W s at_ N B F0 Fk. pose proof (newRun_ok chunkRows Hk before db W : repoOk s) as O.
  assert (Ok_ : forall i, repoOk (repoAt chunkRows between s i)) by (induction i; cbn [repoAt]; [done|by apply repo_run_ok]).
  apply (read_states chunkRows Hk id between s k fuel O N B); [apply Ok_|done|done].
Qed.

(** ** Starting up *)

Lemma rowsOf_kept id g db : rowsOf id g (ipListsRepoPurgeLeftovers db) = if decide (g = ipListsRepoGeneration id db) then rowsOf id g db else [].
Proof.
  unfold rowsOf, ipListsRepoPurgeLeftovers. cbn [dbRows]. destruct (decide _) as [Hg|Hg].
  - destruct (dbRows db !! (id, g)) as [l|] eqn:E; [by rewrite (map_lookup_filter_Some_2 _ _ _ l)|]. rewrite map_lookup_filter_None_2; [done|]. by left.
  - rewrite map_lookup_filter_None_2; [done|]. right. by intros l _.
Qed.

(** What an earlier run left half written goes, and nothing that readers see. *)
Lemma leftovers_go db : dbWf db -> readersView (ipListsRepoPurgeLeftovers db) = readersView db /\ dbWf (ipListsRepoPurgeLeftovers db) /\
  forall id g, g <> ipListsRepoGeneration id db -> rowsOf id g (ipListsRepoPurgeLeftovers db) = [].
Proof.
  intros W. split; [|split].
  - apply view_eq; [done|]. intros id. unfold sameView. cbn [ipListsRepoPurgeLeftovers dbHeaders]. fold (ipListsRepoPurgeLeftovers db).
    destruct (dbHeaders db !! id) as [h|] eqn:Hh; [|done]. unfold viewOf. cbn [fmap option_fmap option_map]. do 3 f_equal.
    rewrite rowsOf_kept, decide_True; [done|]. symmetry. by apply generation_some.
  - split; [|apply W|].
    + intros id g. rewrite rowsOf_kept. destruct (decide _); [apply W|apply rowsWf_nil].
    + intros id g Hh. rewrite rowsOf_kept. destruct (decide _); [by apply (dw_owned db W)|done].
  - intros id g Hg. by rewrite rowsOf_kept, decide_False.
Qed.

(** ** Runs *)

Definition exEntry (k : Z) : IpListEntry := mkEntry [k] 443 10.
Definition exTurns (n k : nat) : list RepoEvent := repeat (RTurn n true) k.
Definition noLists : ListDb := mkDb ∅ ∅ 0.
Definition exStart : IpListsRepo := mkRepo noLists ∅ ∅ [].

Lemma noLists_wf : dbWf noLists.
Proof. split; [intros; apply rowsWf_nil|done|done]. Qed.

(** A copy waits for the list it made, the deletion of that list has it, and a
    replacement waits for the copy's source. *)
Definition exWaiting : list RepoEvent :=
  RCall 0 (RcAddIpList User (-1) (exEntry <$> [1; 2; 3])) :: exTurns 0 4 ++ RCall 1 (RcCopyAsUserList 1) :: exTurns 1 2 ++
  RCall 2 (RcDeleteIpList 2 false) :: exTurns 2 1 ++ RCall 3 (RcReplaceEntries 1 []) :: exTurns 1 1 ++ exTurns 3 1.

Lemma ip_list_calls_move_witness :
  let s := repoRun 2 exWaiting exStart in
  (exists n c t, lrTasks s !! n = Some (c, t) /\ forall ok, taskStep 2 ok t (lrClaims s) (lrDb s) <> None) /\
  (forall n, n ∈ [0; 1; 3]%nat -> from_option (fun p => taskStep 2 true (snd p) (lrClaims s) (lrDb s)) None (lrTasks s !! n) = None).
Proof.
  intros s. split.
  - apply (ip_list_calls_move 2 exWaiting noLists ltac:(lia) noLists_wf). exists 1%nat, (RcCopyAsUserList 1), (OpCopyAsUserList 1 (CpTarget 1 2)).
    split; [by vm_compute|]. by intros r.
  - intros n Hn. repeat (apply elem_of_cons in Hn as [->|Hn]; [by vm_compute|]). by apply not_elem_of_nil in Hn.
Defined.

(** A replacement is published between the two pages of a read. *)
Definition exBefore : list RepoEvent :=
  RCall 0 (RcAddIpList User (-1) (exEntry <$> [1; 2; 3])) :: exTurns 0 4 ++ RCall 1 (RcReplaceEntries 1 (exEntry <$> [7; 8; 9])) :: exTurns 1 4.
Definition exBetween (i : nat) : list RepoEvent := match i with 1%nat => exTurns 1 1 | 2%nat => exTurns 1 5 | _ => [] end.

Lemma read_sees_one_version_witness :
  let at_ i := lrDb (repoAt 2 exBetween (repoRun 2 exBefore exStart) i) in
  (exists i, (i = 0%nat \/ i = 3%nat) /\ readEntries 2 1 5 at_ (at_ 3%nat) = Some (GetEntries 1 (readersView (at_ i)))) /\
  ipListsRepoReadGeneration 2 1 5 0 (-1) at_ 1 = Some None /\ readEntries 2 1 5 at_ (at_ 3%nat) = Some (exEntry <$> [7; 8; 9]).
Proof.
  intros at_. split; [|split; by vm_compute].
  apply (read_sees_one_version 2 1 exBefore noLists exBetween 3 5 ltac:(lia) noLists_wf).
  - intros n c t Hn Hw. assert (Hall : map_Forall (fun _ p => writesInPlace 1 (fst p) = false) (lrTasks (repoRun 2 exBefore exStart)))
      by (refine (bool_decide_eq_true_1 _ _); by vm_compute).
    specialize (Hall n (c, t) Hn). cbn in Hall. congruence.
  - intros i. destruct i as [|[|[|i]]]; repeat constructor.
  - vm_compute. lia.
  - vm_compute. lia.
Defined.
