(* ===== verification/IpListsPublish.v ===== *)
(** What calls on the IP lists publish, whatever the threads do in between: a
    call that ended had the effects of its result, an addition its own entries, a
    copy those of its source. *)
From stdpp Require Import base list gmap strings.
From Stdlib Require Import ZArith Lia Bool Sorted.
From S2P Require Import Prelude IpListParse IpListStore IpLists IpListsFacts IpListsRuns.

(** ** What additions and copies publish *)



(** The versions of a list that readers saw since the call [n] has its own list,
    until it published it. *)
Definition watchNext (n : nat) (on : bool) (p : nat * Effect) : bool :=
  if (fst p =? n)%nat then match snd p with EAdd _ _ _ _ => true | EReplace _ _ => false | _ => on end else on.
Definition watch (n : nat) (source : Z) (st : option IpListStore * bool * list (list IpListEntry)) (p : nat * Effect) :=
  let '(v, on, seen) := st in
  let v := v ≫= applyEffect (snd p) in
  let on := watchNext n on p in
  (v, on, if on then seen ++ [from_option (GetEntries source) [] v] else seen).
Definition watching (n : nat) (source : Z) (log : list (nat * Effect)) (v : IpListStore) := fold_left (watch n source) log (Some v, false, []).
Definition versions (n : nat) (source : Z) (log : list (nat * Effect)) (v : IpListStore) : list (list IpListEntry) := (watching n source log v).2.


(** *** On the way *)






(** *** What a step does to the rows of generation 1 *)



Section Publishing.
Context (chunkRows : nat) (chunk_pos : (0 < chunkRows)%nat).





























(** *** The calls of others *)








(** *** The call's own steps *)






(** *** Every run *)










End Publishing.


(** ** Runs *)



(** A copy of three entries; between its two chunks the first of them goes and a
    new one comes: the copy has four, as no version of the source did. *)
Example copy_between_versions :
  let s := repoRun 2 (RCall 0 (RcAddIpList User (-1) (exEntry <$> [1; 2; 3])) :: exTurns 0 4 ++ RCall 1 (RcCopyAsUserList 1) :: exTurns 1 4 ++
    [RCall 2 (RcRemoveEntries 1 [exEntry 1]); RCall 3 (RcUpsertEntries 1 [exEntry 9])] ++ exTurns 2 2 ++ exTurns 3 2 ++ exTurns 1 2) exStart in
  effectsOf 1 (lrLog s) = [EAdd 2 User (-1) []; EReplace 2 (exEntry <$> [1; 2; 3; 9])] /\
  GetEntries 1 (readersView (lrDb s)) = exEntry <$> [2; 3; 9] /\
  (exEntry <$> [2; 3]) ∈ versions 1 1 (lrLog s) (readersView noLists) /\ (exEntry <$> [1; 2; 3; 9]) ∉ versions 1 1 (lrLog s) (readersView noLists).
Proof. split; [by vm_compute|]. split; [by vm_compute|]. split; refine (bool_decide_eq_true_1 _ _); by vm_compute. Qed.

(** AddIpList does not look for leftovers under its claim, as ReplaceEntries
    does: a replacement that comes between the header and the claim, and fails
    with its clearing up, leaves rows that the addition publishes. *)
Example staged_add_publishes_leftovers :
  let s := repoRun 2 ([RCall 0 (RcAddIpList User (-1) (exEntry <$> [1; 2; 3])); RTurn 0 true; RCall 1 (RcReplaceEntries 1 (exEntry <$> [7; 8; 9]))] ++
    exTurns 1 4 ++ [RTurn 1 false; RTurn 1 false] ++ exTurns 0 3) exStart in
  snd <$> lrTasks s !! 1%nat = Some (OpFinished 0) /\ snd <$> lrTasks s !! 0%nat = Some (OpFinished 1) /\
  GetEntries 1 (readersView (lrDb s)) = exEntry <$> [7; 8; 3].
Proof. by vm_compute. Qed.
